(* ===== verification/_CoqProject ===== *)
-Q . S2P
Prelude.v
RmTypes.v
RmPeers.v
RmCore.v
RmResource.v
Rm.v
RmConsumer.v
RmWf.v
RmProducer.v
RmOps.v
RmSafety.v
RmAcct.v
RmRequest.v
RmSteps.v
RmDepsAcct.v
RmInv.v
RmExample.v
RmProps.v
RmOpsProps.v
RmGraphProps.v
RmVoteProps.v
Qmi.v
QmiScan.v
ViTypes.v
Qrtr.v
ViConfig.v
ViNas.v
ViBearer.v
ViTune.v
ViMain.v
ViRun.v
ViNasRuns.v
ViMainRuns.v
ViExample.v
QmiProps.v
ViProps.v
MsmBus.v
MsmBusSpec.v
MsmBusProps.v
RmTimer.v
RmTimerInv.v
RmTimerProps.v
SpsTypes.v
SpsMem.v
SpsDev.v
SpsBam.v
SpsRm.v
Sps.v
SpsView.v
SpsInv.v
SpsLogic.v
SpsPipeRuns.v
SpsAllocRuns.v
SpsRuns.v
SpsProps.v
SpsRing.v
SpsQueue.v
SpsRingInv.v
SpsRingRuns.v
SpsRingCalls.v
SpsRingStart.v
SpsRingProps.v
HdrTypes.v
Hdr.v
HdrInv.v
HdrKeep.v
HdrAddRuns.v
HdrDelRuns.v
HdrCommit.v
HdrReset.v
HdrCalls.v
HdrExample.v
HdrProps.v
NatTable.v
NatProps.v
Intf.v
IntfProps.v
MsgProps.v
Irq.v
IrqProps.v
