(* ===== verification/Prelude.v ===== *)
(** * Verification of the cellular port of the Asus X00TD

    The repository carries Qualcomm's IPA v2 packet accelerator driver from Android 4.19
    ([src/vendor-baseline-4.19]) to a current kernel ([src/port]), and a program that brings the
    modem's data connection up over QMI ([src/vendor-init]). This development models the parts of
    it that decide: the IPA resource manager with its inactivity timers, the header tables, the
    NAT memory, the named interfaces, the messages to user space and the interrupts of the IPA
    driver, the connections and the transfers of the SPS driver below it, the replacement of the
    vendor's bus votes, and the whole bring-up program.

    ** The parts and how they interact

    The IPA resource manager ([drivers/platform/msm/ipa/ipa_rm*.c]) keeps a bipartite graph of
    producers and consumers. A producer that is requested requests its consumers, whose drivers
    may answer at once or later through a completion; the completions, the resumptions and the
    notifications of clients are items of one work queue. The inactivity timers sit above it: a
    client that works in bursts releases its producer through a timer. The data path of the IPA
    driver and of other peripherals runs over pipes between BAM devices, which the SPS driver
    ([drivers/platform/msm/sps]) connects: a connection joins a source and a destination, owns a
    pipe on each side that is a BAM and the memory of two FIFOs, and is shared by the clients of
    its two sides. A pipe whose other end is memory is a ring of descriptors: its client queues
    them, the BAM completes them in order, and the client gets them back by events or by calls.
    What the hardware puts before a packet are the headers and processing contexts of two tables
    ([ipa_hdr.c]), which the driver allocates in slots of its memory, or in the memory of the
    system when that is full, and commits as images; routing rules and processing contexts count
    as references. The table of address translation is in memory that user space maps and fills
    ([ipa_nat.c]): the driver allocates it, tells the hardware where it is, and checks what user
    space writes into it. User space learns of interfaces and of their clients from a table and a
    queue of messages ([ipa_intf.c]), which it reads through the device. The hardware speaks
    through one interrupt ([ipa_interrupts.c]), which may come while its clocks are off: whoever
    uses it holds a vote for them, and the interrupt of a suspended pipe asks the resource manager
    to resume its peripheral. The manager's performance vote goes through the IPA driver to
    [msm_bus_scale_*], which the port implements in [msm_bus_compat.c] on the interconnect
    framework. Independent of all this, [vendor-init] runs eight stages, each an exchange of QMI
    messages with a service of the modem over a QRTR socket, and then holds the bearer until a
    signal.

    ** Files

    [Prelude]: machine integers, the state monad with undefined behaviour as [None], C arrays, the
    rules of weakest preconditions, bytes and strings in memory ([strcmp], little-endian
    integers), tactics.

    Resource manager, the program: [RmTypes] (structs, the heap of resources), [RmPeers]
    ([ipa_rm_peers_list.c]), [RmCore] (the name table of [ipa_rm_dependency_graph.c], the sending
    of work and the performance vote of [ipa_rm.c]), [RmResource] ([ipa_rm_resource.c]), [Rm] (the
    rest of [ipa_rm.c] and of the graph, and the step relation [reachable] that interleaves
    operations, work and timers). The proofs: [RmConsumer], [RmWf], [RmProducer], [RmOps] and
    [RmSafety] show that memory stays well-formed; [RmAcct], [RmRequest], [RmSteps], [RmDepsAcct]
    and [RmInv] that the accounts of usage, bandwidth and pending requests stay exact; [RmExample]
    runs scripts. The properties are in [RmProps], [RmOpsProps], [RmGraphProps] and [RmVoteProps].

    Inactivity timers ([ipa_rm_inactivity_timer.c]): [RmTimer] against the class [RmApi],
    [RmTimerInv] the invariant, [RmTimerProps] the properties and the instance [Rm].

    vendor-init, the program: [Qmi] ([qmi.c]), [ViTypes] ([vendor-init.h], [state.c] and the class
    [Kernel]), [Qrtr] ([qrtr.c]), [ViConfig] ([stage_dms_online.c], [stage_dpm_open.c],
    [stage_wda_set.c], [stage_dsd.c]), [ViNas] ([stage_nas_rat.c]), [ViBearer]
    ([stage_bind_mux.c], [stage_wds_start.c], [stage_iattach.c], [stage_fff2.c]), [ViTune]
    ([stage_post_tune.c]), [ViMain] ([vendor-init.c]). The proofs: [QmiScan], [ViRun] (the
    judgement [runs] and a rule for every call), [ViNasRuns], [ViMainRuns], [ViExample] (a modem
    to run against). The properties are in [QmiProps] and [ViProps].

    SPS, the program: [SpsTypes] (structs, the state, the events), [SpsMem] ([sps_mem.c],
    [sps_map.c]), [SpsDev] (switching a BAM on and setting the options of a pipe, of [sps_bam.c]
    and [bam.c]), [SpsBam] (the pipes, of [sps_bam.c]), [SpsRm] ([sps_rm.c]), [Sps] (the calls of
    [sps.c]). The proofs: [SpsView] projects the state to what the invariant speaks of, [SpsInv]
    is the invariant and its preservation by the elementary changes, [SpsLogic] the rules for
    dereferences; [SpsPipeRuns], [SpsAllocRuns] and [SpsRuns] have a rule for every function,
    bottom up. [SpsProps] has the step relation of clients and the properties.

    The descriptor rings of SPS: [SpsRing] (transfers, events, completed descriptors and the
    interrupt of a pipe, of [sps_bam.c], and their calls of [sps.c]) is the program. [SpsQueue] is
    the abstract queue, an automaton over the history of a ring, with the arithmetic of cursors;
    [SpsRingInv] relates a ring to a queue; [SpsRingRuns] (the handlers) and [SpsRingCalls] (the
    calls) have a rule for every function; [SpsRingStart] shows that connecting makes an empty
    ring. The properties are in [SpsRingProps].

    The header tables ([ipa_hdr.c]): [HdrTypes] (structs, the state, the environment) and [Hdr]
    are the program. [HdrInv] has the slots of a table, how they move, and the invariant of
    entries, slots, handles, mappings and references, [HdrKeep] its preservation by the elementary
    changes; [HdrAddRuns], [HdrDelRuns], [HdrCommit] (with the images that the hardware reads) and
    [HdrReset] have a rule for every function; [HdrCalls] has the calls, what callers owe, and the
    reachable states; [HdrExample] runs a small system. The properties are in [HdrProps].

    The NAT memory ([ipa_nat.c] and its cases of [ipa_ioctl]): [NatTable] the program, [NatProps]
    the invariant, the abstract device of four phases, and the properties.

    Interfaces and messages ([ipa_intf.c], their cases of [ipa_ioctl] and [ipa_send_wan_msg] of
    [ipa.c]): [Intf] the program, in its Modules [Interfaces] and [Messages]; [IntfProps] the
    table of interfaces, [MsgProps] the queue and the cache of wlan clients.

    Interrupts and the votes for the clocks ([ipa_interrupts.c], [ipa2_inc_client_enable_clks],
    [ipa2_dec_client_disable_clks], the tag process and the suspend handler's restoration of
    [ipa.c], [ipa_active_clients_*] of [ipa_utils.c]): [Irq] the program, [IrqProps] the
    properties. The Module [Suspend] of [Irq] puts them together with the resource manager: the
    suspend handler, the clients of pipes and resources, and the delayed release of the vote
    ([ipa_suspend_handler], [ipa_sps_release_resource], [ipa2_ap_suspend] of [ipa.c]).

    Bus votes ([port/.../msm_bus_compat.c]): [MsmBus] the program, [MsmBusSpec] a registry of
    clients and the simulation, [MsmBusProps] the properties.

    ** How state and operations correspond to the code

    Definitions keep the names of the functions, structs and enums they translate. A function of
    the driver is a computation [M S A], which passes the state and is undefined ([None]) where
    the C would dereference a null or freed pointer, leave an array or call a null function
    pointer; error codes are its results, as negative integers. A resource is a record at an
    address of the heap of [rm_state]; a local array of vendor-init is a list of cells that may be
    uninitialised. Integers are [Z] with the wrap-around of their width written out. What the code
    calls outside the repository is an environment whose answers are functions of the whole
    history: drivers' callbacks and allocations ([rm_env]), the kernel of vendor-init ([Kernel]),
    the interconnect framework ([Interconnect]), allocators, interrupts and the registers of the
    BAMs ([sps_env]), for a ring what the BAM completed, the status of the interrupt and the calls
    of a client's callback ([ring_env]), for the header tables the caches, the DMA memory, the
    numbers of handles and the results of commands ([hdr_env]), and likewise [nat_env],
    [intf_env], [msg_env] and [irq_env]; what the hardware raises while interrupts are handled is
    a list that it takes from. The operations under one mutex or spinlock are atomic steps; what
    runs between them interleaves in the step relations.

    ** What the properties show

    C1 the resource manager never gets stuck in any interleaving. C2-C4 its accounts: usage,
    bandwidth and pending requests, as long as no driver's callback fails and, for C3 and C4,
    dependencies are deleted prudently; C15 its performance vote. C36 the inactivity timers are
    sure to release unless they are used again; that they are safe in any interleaving is
    [RmTimerProps.timers_safe].

    C5, C7, C16, C17 the NAT memory: what the hardware reads is in memory that is allocated, tables
    are accepted exactly when they fit, writes are posted exactly, and every call takes a step of a
    device of four phases. C8-C11, C13, C14, C21, C26 the header tables: every call is defined, the
    slots are disjoint, handles and references are exact, a commit gives the hardware the images, an
    addition adds all or nothing and is found by its name, and what a deletion and a reset remove.
    C24 the interfaces refine a table. C20, C35, C28 the messages refine a queue and a list of
    clients, their memory is exact, and two calls that take the mutexes in opposite orders can block
    each other. C6, C32, C30 the interrupts: what is pending is served, or lost for lack of memory,
    slots and enable register refine a registry, and deferred works own their memory; these and C34
    are about callers that keep the rules of [IrqProps.irq_call_ok], and slots may share private
    data as those of the microcontroller do. C34 a suspension, with the resource manager, keeps the
    clocks on and gives its vote back.

    C37-C40 SPS: every call is defined in every reachable state, every pipe has one owner, nothing
    is left when all clients have gone, and what a failed connection leaves. C12, C27, C29, C33
    the descriptor rings: a connected pipe refines the queue, its state is well typed, descriptors
    come back in order and exactly once, and what a list of transfers does.

    A BAM with [SPS_BAM_HOLD_MEM] keeps the memory of a ring for the next connection, which takes
    it whatever its length. The model keeps the length, and accesses beyond it are undefined. A
    connection with a longer FIFO therefore overflows it ([SpsProps.kept_cache_overflows]), and
    C37 is about clients that do not disconnect such a pipe (the rule of [SpsProps.enabled]); C12,
    C27 and C29 start from [SpsRingProps.ring_starts], where the memory covers the ring. That
    connecting provides this on every other BAM, or where the kept memory is long enough, is
    [SpsRingProps.connected_pipe_starts_ring]. A callback of a call that polls makes no call: the
    lock of the BAM is held, and it would never come back
    ([SpsRingProps.polling_callback_deadlocks]).

    C18, C19 QMI messages: the search against a decoder, the round trip of a message. C22, C23,
    C25 the program: defined for any modem, its outcome files, and the end of its longest wait.
    C31 the bus votes: the refinement of a registry.

    The other theorems of the property files are of the same kinds: the effect of requests,
    releases and deletions ([RmOpsProps], [RmGraphProps], [RmVoteProps]), the exchange of a
    message and the stages ([QmiProps], [ViProps]), single transfers and the start of a ring
    ([SpsRingProps]), the units of the bus votes ([MsmBusProps]). Examples show what the code does
    not guard, on concrete states.

    ** Bounds and fuel

    Loops of the C that count get their count as fuel: 64 datagrams in [qrtr_lookup], 32 in
    [qrtr_txn], 33 turns for the prefix of a mask. [tlv_scan] gets the length of the datagram plus
    one and every turn advances by at least 3. The wait for LTE gets 61 turns and one for every
    signal: the clock advances by a second in each whose sleep no signal cuts short, and 60 seconds
    end it. The loops over muxes count in an [int], which overflows when [--num-muxes] is 2^31 - 1
    ([ViProps.bind_counter_overflows]); the theorems are about smaller numbers. The searches of SPS
    get the number of pipes and the length of the table of fixed connections, and the loop over
    completed descriptors the number of cells of the ring, which are never all in use. The loop over
    pending interrupts gets as many turns as the hardware has still to raise some, and one more:
    each turn accesses the status, and after the last one everything that was pending has been
    cleared. The sleeps of a reader of messages are a list of what runs meanwhile. Out of fuel is
    undefined, never a result, so that the theorems that say [Some] also say that the fuel is
    enough.

    ** Not modelled

    The rest of the IPA driver proper. Routing and filtering ([ipa_rt.c], [ipa_flt.c]): tables
    like those of the headers, with images whose rules are encoded bit by bit. The data path
    ([ipa_dp.c], [ipa_client.c]): the rings below it are those of SPS; above them it is the
    network stack. The microcontroller and the offload drivers ([ipa_uc*.c], [ipa_mhi.c]): a
    protocol with firmware that is not in the repository. The QMI service and the network device
    ([ipa_qmi_service.c], [rmnet_ipa.c]), [ipa_api.c] and the dispatch of [ipa_ioctl] beyond the
    cases above: they hand arguments on to kernel services and to the modelled operations.
    Probing, register tables, clock rates, debugging: mostly register writes whose meaning is in
    the hardware. Of the NAT memory, the interfaces and the messages: calls are atomic steps but
    for the mutexes of the messages, whose order C28 speaks of; the race of a deletion is shown on
    a concrete interleaving. Of the interrupts: handlers are calls in a log, which do not register
    handlers themselves, and no handler is added or removed while others are served; the suspend
    handler is a step of its own, with endpoints that stay as they are and one holder of the lock
    at a time; how long the release is delayed; the table of active clients that is kept for
    debugging.

    Of the header tables: the reset of the routing rules before that of the headers, which
    releases their references by the modelled calls, the copies of arguments between user space
    and the kernel, and names that are not terminated within their arrays. Of the SPS driver:
    zero-length transfers, timers, satellite pipes, flow control and changes of a pipe's options
    while it is connected, the registration, disabling and reset of BAMs, the meaning of the
    registers, and the interleaving of a disconnection, which takes only the lock of its BAM, with
    other calls: calls are atomic steps. The interrupt of a ring holds another lock than its
    client's calls, so that on two processors they may also overlap; here they are atomic, except
    that callbacks call from inside the interrupt. The rings are those with FIFOs of whole
    descriptors and, for a producer, without [SPS_O_LATE_EOT], whose handler is wrong before the
    first completion ([SpsRingProps.late_eot_processes_unsent]). Of the modelled parts: logging,
    memory ordering, the synchronous variant of adding a dependency beyond its wait, [usage()],
    and the failure of writes to an opened state file. *)

From stdpp Require Export base tactics option list gmap strings numbers.
From Stdlib Require Export ZArith Lia.

#[global] Open Scope Z_scope.

(** ** Machine integers

    [uint8_t], [uint16_t] and [u32] are integers in [0, 2^w); every operation of the
    code that can leave the range is followed by the wrap the C type performs. *)

Definition u8 (z : Z) : Z := z mod 2 ^ 8.
Definition u16 (z : Z) : Z := z mod 2 ^ 16.
Definition u32 (z : Z) : Z := z mod 2 ^ 32.
Definition u64 (z : Z) : Z := z mod 2 ^ 64.

(** Conversion of an unsigned 32-bit value to [int] (two's complement). *)
Definition i32 (z : Z) : Z := (z + 2 ^ 31) mod 2 ^ 32 - 2 ^ 31.

(** Conversion of a byte to [int8_t]. *)
Definition i8 (z : Z) : Z := (z + 2 ^ 7) mod 2 ^ 8 - 2 ^ 7.

(** ** Kernel error numbers (uapi errno.h) *)

Definition EPERM : Z := 1.
Definition ENOMEM : Z := 12.
Definition EFAULT : Z := 14.
Definition EEXIST : Z := 17.
Definition EINVAL : Z := 22.
Definition ETIME : Z := 62.
Definition EINPROGRESS : Z := 115.

(** ** Stateful code

    A C function is a state transformer that may also be undefined: [None] is the
    result of dereferencing a null or freed pointer, of indexing an array out of its
    bounds, of calling a null function pointer or of reading a struct as another one.
    A proof that a function returns [Some] is a proof that it does none of these. *)

Definition M (S A : Type) : Type := S → option (A * S).

#[global] Instance M_ret {S} : MRet (M S) := λ A a s, Some (a, s).
#[global] Instance M_bind {S} : MBind (M S) :=
  λ A B f m s, match m s with Some (a, s') => f a s' | None => None end.

Definition UB {S A} : M S A := λ _, None.
Definition get {S} : M S S := λ s, Some (s, s).
Definition put {S} (s : S) : M S () := λ _, Some ((), s).
Definition modify {S} (f : S → S) : M S () := λ s, Some ((), f s).
Definition of_option {S A} (o : option A) : M S A :=
  λ s, match o with Some a => Some (a, s) | None => None end.
Definition when {S} (b : bool) (m : M S ()) : M S () := if b then m else mret ().

(** [for (i = from; i < from + n; i++) body(i)] *)
Fixpoint for_loop {S} (n : nat) (from : Z) (body : Z → M S ()) : M S () :=
  match n with
  | O => mret ()
  | S n' => body from ;; for_loop n' (from + 1) body
  end.

(** ** Array access with a C index *)

Definition lookup_z {A} (l : list A) (i : Z) : option A :=
  if 0 <=? i then l !! Z.to_nat i else None.

Definition store_z {A} (l : list A) (i : Z) (a : A) : option (list A) :=
  if (0 <=? i) && (i <? Z.of_nat (length l)) then Some (<[Z.to_nat i := a]> l) else None.

(** ** Weakest preconditions

    [wp m Q s]: from [s], [m] is defined and its result and final state satisfy [Q]. *)

Definition wp {S A} (m : M S A) (Q : A → S → Prop) (s : S) : Prop :=
  match m s with Some (a, s') => Q a s' | None => False end.

Section wp_rules.
Context {S : Type}.
Implicit Types s : S.

Lemma wp_elim {A} (m : M S A) Q s :
  wp m Q s → ∃ a s', m s = Some (a, s') ∧ Q a s'.
Proof. unfold wp. destruct (m s) as [[a s']|]; [eauto|done]. Qed.

Lemma wp_intro {A} (m : M S A) Q s a s' :
  m s = Some (a, s') → Q a s' → wp m Q s.
Proof. unfold wp. by intros ->. Qed.

Lemma wp_mono {A} (m : M S A) (Q R : A → S → Prop) s :
  wp m Q s → (∀ a s', Q a s' → R a s') → wp m R s.
Proof. unfold wp. destruct (m s) as [[a s']|]; auto. Qed.

Lemma wp_ret {A} (a : A) (Q : A → S → Prop) s : Q a s → wp (mret a) Q s.
Proof. done. Qed.

Lemma wp_bind {A B} (m : M S A) (f : A → M S B) Q s :
  wp m (λ a s', wp (f a) Q s') s → wp (m ≫= f) Q s.
Proof. unfold wp, mbind, M_bind. by destruct (m s) as [[a s']|]. Qed.

Lemma wp_assoc {A B C} (m : M S A) (f : A → M S B) (g : B → M S C) Q s :
  wp ((m ≫= f) ≫= g) Q s → wp (m ≫= λ a, f a ≫= g) Q s.
Proof. unfold wp, mbind, M_bind. by destruct (m s) as [[a s']|]. Qed.

Lemma wp_get (Q : S → S → Prop) s : Q s s → wp get Q s.
Proof. done. Qed.

Lemma wp_put s0 (Q : () → S → Prop) s : Q () s0 → wp (put s0) Q s.
Proof. done. Qed.

Lemma wp_modify f (Q : () → S → Prop) s : Q () (f s) → wp (modify f) Q s.
Proof. done. Qed.

Lemma wp_of_option {A} (o : option A) a (Q : A → S → Prop) s :
  o = Some a → Q a s → wp (of_option o) Q s.
Proof. by intros ->. Qed.

Lemma wp_when (b : bool) (m : M S ()) (Q : () → S → Prop) s :
  (b = true → wp m Q s) → (b = false → Q () s) → wp (when b m) Q s.
Proof. destruct b; intros H1 H2; simpl; [by apply H1|]. apply wp_ret. by apply H2. Qed.

Lemma wp_for (n : nat) (body : Z → M S ()) (I : Z → S → Prop) from s :
  I from s →
  (∀ i s, from ≤ i < from + Z.of_nat n → I i s →
          wp (body i) (λ _ s', I (i + 1) s') s) →
  wp (for_loop n from body) (λ _ s', I (from + Z.of_nat n) s') s.
Proof.
  revert from s. induction n as [|n IH]; intros from s Hi Hstep; simpl.
  - apply wp_ret. by rewrite Z.add_0_r.
  - apply wp_bind. eapply wp_mono; [apply Hstep; [lia|done]|]. cbn beta.
    intros [] s' Hi'. replace (from + Z.of_nat (Datatypes.S n))
      with (from + 1 + Z.of_nat n) by lia.
    apply IH; [done|]. intros i s1 ? ?. apply Hstep; [lia|done].
Qed.
End wp_rules.

(** Two states of a computation that only reads. *)
Lemma M_bind_Some {S A B} (m : M S A) (f : A → M S B) s a s' :
  m s = Some (a, s') → (m ≫= f) s = f a s'.
Proof. unfold mbind, M_bind. by intros ->. Qed.

Lemma of_option_bind {S A B} (o : option A) a (f : A → M S B) s :
  o = Some a → (of_option o ≫= f) s = f a s.
Proof. by intros ->. Qed.

Lemma get_bind {S B} (f : S → M S B) s : (get ≫= f) s = f s s.
Proof. done. Qed.

(** ** Lemmas on arrays and machine integers *)

Lemma lookup_z_nat {A} (l : list A) (n : nat) : lookup_z l (Z.of_nat n) = l !! n.
Proof.
  unfold lookup_z. rewrite (proj2 (Z.leb_le 0 (Z.of_nat n))) by lia. by rewrite Nat2Z.id.
Qed.

Lemma store_z_nat {A} (l : list A) (n : nat) a :
  (n < length l)%nat → store_z l (Z.of_nat n) a = Some (<[n := a]> l).
Proof.
  intros Hn. unfold store_z.
  rewrite (proj2 (Z.leb_le 0 (Z.of_nat n))) by lia.
  rewrite (proj2 (Z.ltb_lt (Z.of_nat n) _)) by lia. by rewrite Nat2Z.id.
Qed.

Lemma lookup_z_lt {A} (l : list A) i :
  0 ≤ i < Z.of_nat (length l) → ∃ a, lookup_z l i = Some a.
Proof.
  intros Hi. unfold lookup_z. rewrite (proj2 (Z.leb_le 0 i)) by lia.
  apply lookup_lt_is_Some. lia.
Qed.

Lemma u32_range z : 0 ≤ u32 z < 2 ^ 32.
Proof. apply Z.mod_pos_bound. lia. Qed.

Lemma u32_small z : 0 ≤ z < 2 ^ 32 → u32 z = z.
Proof. apply Z.mod_small. Qed.

Lemma u32_u32 z : u32 (u32 z) = u32 z.
Proof. apply Z.mod_mod. lia. Qed.

Lemma u32_add_l a b : u32 (u32 a + b) = u32 (a + b).
Proof. apply Zplus_mod_idemp_l. Qed.

Lemma u32_add_r a b : u32 (a + u32 b) = u32 (a + b).
Proof. apply Zplus_mod_idemp_r. Qed.

Lemma u32_sub_l a b : u32 (u32 a - b) = u32 (a - b).
Proof. apply Zminus_mod_idemp_l. Qed.

Lemma u32_sub_r a b : u32 (a - u32 b) = u32 (a - b).
Proof. apply Zminus_mod_idemp_r. Qed.

Create Rewrite HintDb u32.
#[export] Hint Rewrite u32_u32 u32_add_l u32_add_r u32_sub_l u32_sub_r : u32.

(** Goals [u32 a = u32 b] where [a] and [b] are equal up to inner wraps. *)
Ltac u32_eq := autorewrite with u32; f_equal; lia.

(** ** Bytes and strings in memory *)

Definition bytes (l : list Z) : Prop := Forall (λ b, 0 ≤ b < 256) l.

(** The little-endian integer of the [n] bytes at [o]; reading past the end is undefined. *)
Definition le_bytes (l : list Z) (o n : nat) : option Z :=
  foldr (λ k acc, b ← lookup_z l (Z.of_nat (o + k)); v ← acc; Some (b * 2 ^ (8 * Z.of_nat k) + v))
    (Some 0) (seq 0 n).

Lemma le_bytes_some l o n :
  bytes l → (o + n ≤ length l)%nat → ∃ v, le_bytes l o n = Some v ∧ 0 ≤ v < 2 ^ (8 * Z.of_nat n).
Proof.
  intros Hb. unfold le_bytes.
  enough (∀ k, (o + k + n ≤ length l)%nat →
    ∃ v, foldr (λ k acc, b ← lookup_z l (Z.of_nat (o + k)); v ← acc;
                 Some (b * 2 ^ (8 * Z.of_nat k) + v)) (Some 0) (seq k n) = Some v ∧
         0 ≤ v ∧ v + 2 ^ (8 * Z.of_nat k) ≤ 2 ^ (8 * Z.of_nat (k + n))) as H.
  { intros Hl. destruct (H 0%nat) as (v & -> & Hv); [lia|]. exists v. split; [done|].
    cbn [Nat.add] in Hv. change (8 * Z.of_nat 0) with 0 in Hv. lia. }
  induction n as [|n IH]; intros k Hl; cbn [seq foldr].
  { exists 0. split; [done|]. rewrite Nat.add_0_r. lia. }
  destruct (IH (S k)) as (v & -> & Hv); [lia|].
  destruct (lookup_lt_is_Some_2 l (o + k)) as [b Hk]; [lia|].
  rewrite lookup_z_nat, Hk. cbn. eexists. split; [done|].
  pose proof (Forall_lookup_1 _ _ _ _ Hb Hk) as H256. cbn beta in H256.
  replace (k + S n)%nat with (S k + n)%nat by lia.
  replace (8 * Z.of_nat (S k)) with (8 * Z.of_nat k + 8) in Hv by lia.
  rewrite Z.pow_add_r in Hv by lia. change (2 ^ 8) with 256 in Hv. nia.
Qed.

(** [strcmp]: whether two strings are equal. Reading past the end of either is undefined. *)
Fixpoint str_same (l c : list Z) : option bool :=
  match l, c with
  | [], _ | _, [] => None
  | x :: l, y :: c =>
      if negb (x =? y) then Some false else if x =? 0 then Some true else str_same l c
  end.

(** The characters of a string, up to its terminator. *)
Fixpoint c_str (l : list Z) : list Z :=
  match l with
  | [] => []
  | x :: l => if x =? 0 then [] else x :: c_str l
  end.

(** A string that ends is compared within the bounds of both, when the other one ends too or is
    not shorter. *)
Lemma str_same_some l c :
  0 ∈ c → 0 ∈ l ∨ (length c ≤ length l)%nat →
  ∃ b, str_same l c = Some b ∧ (b = true ↔ c_str l = c_str c).
Proof.
  revert l. induction c as [|y c IH]; intros l; [by intros ?%elem_of_nil|].
  destruct l as [|x l]; [intros _ [H|H]; [by apply elem_of_nil in H|cbn in H; lia]|].
  intros Hc Hl. cbn [str_same c_str]. cbn in Hl.
  destruct (Z.eqb_spec x y) as [->|Hxy]; cbn [negb].
  - destruct (Z.eqb_spec y 0) as [->|Hy]; [by exists true|].
    apply elem_of_cons in Hc as [Hc|Hc]; [lia|]. destruct (IH l Hc) as (b & -> & Hb).
    { destruct Hl as [Hl|Hl]; [|right; lia]. apply elem_of_cons in Hl as [Hl|Hl]; [lia|by left]. }
    exists b. split; [done|]. rewrite Hb. split; [by intros ->|by intros [= ?]].
  - exists false. split; [done|]. split; [done|].
    destruct (Z.eqb_spec x 0), (Z.eqb_spec y 0); try done; try lia. by intros [= ?].
Qed.

Lemma str_same_comm l c : str_same l c = str_same c l.
Proof.
  revert c. induction l as [|x l IH]; intros [|y c]; cbn; try done. rewrite (Z.eqb_sym y x).
  destruct (Z.eqb_spec x y) as [->|]; cbn; [|done]. by destruct (y =? 0).
Qed.

(** ** Automation *)

(** Split the conjunctions and existentials of the context. *)
Ltac destr_hyps :=
  repeat match goal with
  | H : _ ∧ _ |- _ => destruct H
  | H : ∃ _, _ |- _ => destruct H
  end.

(** One step of a weakest-precondition goal. *)
Ltac wp_step :=
  lazymatch goal with
  | |- wp (mret _) _ _ => apply wp_ret
  | |- wp (mbind _ _) _ _ => apply wp_bind
  | |- wp get _ _ => apply wp_get
  | |- wp (put _) _ _ => apply wp_put
  | |- wp (modify _) _ _ => apply wp_modify
  | |- wp (of_option _) _ _ => eapply wp_of_option; [eassumption|]
  end.

Ltac wp_steps := repeat (wp_step; cbn beta).
