(* ===== verification/RmTypes.v ===== *)
(** * IPA resource manager: data

    The enums and structs of [ipa_rm_resource.h], [ipa_rm_peers_list.h],
    [ipa_rm_dependency_graph.h], [ipa_rm_i.h] and [ipa_rm.c], the global state
    [ipa_rm_ctx] with its heap of resources, and the accessors that model a pointer
    dereference. *)

From S2P Require Import Prelude.

(** ** Enums *)

(** A resource name is an [enum], an unsigned number of which any value may reach the
    API (from an ioctl, for instance). *)
Abbreviation ipa_rm_resource_name := nat.

Definition IPA_RM_RESOURCE_Q6_PROD : ipa_rm_resource_name := 0%nat.
Definition IPA_RM_RESOURCE_Q6_CONS : ipa_rm_resource_name := 1%nat.
Definition IPA_RM_RESOURCE_USB_PROD : ipa_rm_resource_name := 2%nat.
Definition IPA_RM_RESOURCE_USB_CONS : ipa_rm_resource_name := 3%nat.
Definition IPA_RM_RESOURCE_APPS_CONS : ipa_rm_resource_name := 9%nat.
Definition IPA_RM_RESOURCE_WWAN_0_PROD : ipa_rm_resource_name := 12%nat.
Definition IPA_RM_RESOURCE_MAX : nat := 22%nat.

Definition IPA_RM_INDEX_INVALID : Z := -1.

(** Macros [IPA_RM_RESORCE_IS_PROD] and [IPA_RM_RESORCE_IS_CONS]. *)
Definition IPA_RM_RESORCE_IS_PROD (x : nat) : bool :=
  (x <? IPA_RM_RESOURCE_MAX)%nat && (Nat.land x 1 =? 0)%nat.
Definition IPA_RM_RESORCE_IS_CONS (x : nat) : bool :=
  (x <? IPA_RM_RESOURCE_MAX)%nat && (Nat.land x 1 =? 1)%nat.

Inductive ipa_rm_resource_state :=
  | IPA_RM_RELEASED
  | IPA_RM_REQUEST_IN_PROGRESS
  | IPA_RM_GRANTED
  | IPA_RM_RELEASE_IN_PROGRESS.

Inductive ipa_rm_resource_type := IPA_RM_PRODUCER | IPA_RM_CONSUMER.

Inductive ipa_rm_event := IPA_RM_RESOURCE_GRANTED | IPA_RM_RESOURCE_RELEASED.

Inductive ipa_rm_wq_cmd :=
  | IPA_RM_WQ_NOTIFY_PROD
  | IPA_RM_WQ_NOTIFY_CONS
  | IPA_RM_WQ_RESOURCE_CB.

#[export] Instance state_eq_dec : EqDecision ipa_rm_resource_state.
Proof. solve_decision. Defined.
#[export] Instance type_eq_dec : EqDecision ipa_rm_resource_type.
Proof. solve_decision. Defined.
#[export] Instance event_eq_dec : EqDecision ipa_rm_event.
Proof. solve_decision. Defined.

(** ** Pointers

    [loc] is the address of an allocated [struct ipa_rm_resource]; a pointer is an
    [option loc], [None] being NULL. A function pointer is likewise optional. *)
Abbreviation loc := positive.
Definition fnptr : Type := option positive.

(** ** Structs *)

Record ipa_rm_resource_peer := mkPeer {
  peer_resource : option loc;
  peer_userspace_dep : bool;
}.

Record ipa_rm_peers_list := mkPeers {
  peers : list ipa_rm_resource_peer;
  max_peers : Z;
  peers_count : Z;
}.

Record ipa_rm_register_params := mkRegParams {
  rp_user_data : Z;
  rp_notify_cb : fnptr;
}.

Record ipa_rm_notification_info := mkNotifInfo {
  reg_params : ipa_rm_register_params;
  explicit : bool;
}.

Record ipa_rm_create_params := mkCreateParams {
  cp_name : ipa_rm_resource_name;
  cp_floor_voltage : Z;
  cp_reg_params : ipa_rm_register_params;
  cp_request_resource : fnptr;
  cp_release_resource : fnptr;
}.

(** The fields that [struct ipa_rm_resource_cons] and [struct ipa_rm_resource_prod] add
    to [struct ipa_rm_resource]. A completion is the flag [complete_all] sets. *)
Record resource_cons := mkCons {
  usage_count : Z;
  request_consumer_in_progress : bool;
  request_resource : fnptr;
  release_resource : fnptr;
}.

Record resource_prod := mkProd {
  event_listeners : list ipa_rm_notification_info;
  pending_request : Z;
  pending_release : Z;
}.

Inductive resource_ext := Cons (c : resource_cons) | Prod (p : resource_prod).

Record ipa_rm_resource := mkRes {
  name : ipa_rm_resource_name;
  type : ipa_rm_resource_type;
  floor_voltage : Z;
  max_bw : Z;
  needed_bw : Z;
  state : ipa_rm_resource_state;
  peers_list : option ipa_rm_peers_list;
  ext : resource_ext;
}.

(** Work items: [struct ipa_rm_wq_work_type], the resume and suspend uses of
    [struct ipa_rm_wq_suspend_resume_work_type] (their [prev_state], [needed_bw] and
    [inc_usage_count]) and [struct ipa_rm_notify_ipa_work_type]. *)
Inductive rm_work :=
  | WorkCmd (cmd : ipa_rm_wq_cmd) (n : ipa_rm_resource_name) (ev : ipa_rm_event)
      (notify_registered_only : bool)
  | WorkResume (n : ipa_rm_resource_name) (prev : ipa_rm_resource_state) (bw : Z)
      (inc_usage : bool)
  | WorkSuspend (n : ipa_rm_resource_name) (prev : ipa_rm_resource_state) (bw : Z)
  | WorkNotifyIpa (volt bw : Z).

Record ipa_rm_delayed_release_work_type := mkDelayed {
  dr_resource_name : ipa_rm_resource_name;
  dr_needed_bw : Z;
  dr_dec_usage_count : bool;
}.

(** [struct ipa_rm_context_type] with its [struct ipa_rm_profile_vote_type] in line; the
    lock is not represented, since every operation runs under it. *)
Record ipa_rm_context_type := mkCtx {
  resource_table : list (option loc);
  ipa_rm_wq : list rm_work;
  volt : list Z;
  curr_volt : Z;
  bw_resources : list Z;
  curr_bw : Z;
}.

(** What the resource manager does to its environment, oldest last. *)
Inductive rm_effect :=
  | EffCall (fn : positive)                                   (* driver callback *)
  | EffNotify (cb : positive) (user_data : Z) (ev : ipa_rm_event)
  | EffIncClkNoBlock (n : ipa_rm_resource_name)
  | EffIncClk (n : ipa_rm_resource_name)
  | EffDecClk (n : ipa_rm_resource_name)
  | EffSuspendNoBlock (n : ipa_rm_resource_name)
  | EffSuspendSync (n : ipa_rm_resource_name)
  | EffResume (n : ipa_rm_resource_name)
  | EffAlloc
  | EffSetPerf (volt bw : Z).

(** The global pointer [ipa_rm_ctx]: NULL, allocated, or left pointing to freed memory. *)
Inductive ctx_ptr :=
  | CtxNull
  | CtxFreed
  | CtxLive (c : ipa_rm_context_type).

(** The module's memory: the global pointer, the live resources, the delayed releases
    that are scheduled and the history of effects. *)
Record rm_state := mkState {
  ipa_rm_ctx : ctx_ptr;
  heap : gmap loc ipa_rm_resource;
  next_loc : loc;
  delayed : list ipa_rm_delayed_release_work_type;
  hist : list rm_effect;
}.

(** The code outside the resource manager, whose results the model quantifies over: the
    result of each call may depend on everything that happened before it. *)
Record rm_env := mkEnv {
  env_call : list rm_effect → positive → Z;              (* driver callbacks *)
  env_inc_clk_no_block : list rm_effect → ipa_rm_resource_name → Z;
  env_suspend_no_block : list rm_effect → ipa_rm_resource_name → Z;
  env_kzalloc : list rm_effect → bool;                   (* does the allocation succeed *)
}.

Abbreviation RM := (M rm_state).

(** ** Field updates *)

Definition with_state (st : ipa_rm_resource_state) (r : ipa_rm_resource) :=
  mkRes (name r) (type r) (floor_voltage r) (max_bw r) (needed_bw r) st (peers_list r) (ext r).
Definition with_needed_bw (bw : Z) (r : ipa_rm_resource) :=
  mkRes (name r) (type r) (floor_voltage r) (max_bw r) bw (state r) (peers_list r) (ext r).
Definition with_max_bw (bw : Z) (r : ipa_rm_resource) :=
  mkRes (name r) (type r) (floor_voltage r) bw (needed_bw r) (state r) (peers_list r) (ext r).
Definition with_peers (pl : ipa_rm_peers_list) (r : ipa_rm_resource) :=
  mkRes (name r) (type r) (floor_voltage r) (max_bw r) (needed_bw r) (state r) (Some pl) (ext r).
Definition with_ext (e : resource_ext) (r : ipa_rm_resource) :=
  mkRes (name r) (type r) (floor_voltage r) (max_bw r) (needed_bw r) (state r) (peers_list r) e.

Definition with_usage_count (u : Z) (c : resource_cons) :=
  mkCons u (request_consumer_in_progress c) (request_resource c) (release_resource c).
Definition with_completion (b : bool) (c : resource_cons) :=
  mkCons (usage_count c) b (request_resource c) (release_resource c).
Definition with_listeners (l : list ipa_rm_notification_info) (p : resource_prod) :=
  mkProd l (pending_request p) (pending_release p).
Definition with_pending_request (n : Z) (p : resource_prod) :=
  mkProd (event_listeners p) n (pending_release p).
Definition with_pending_release (n : Z) (p : resource_prod) :=
  mkProd (event_listeners p) (pending_request p) n.

Definition ctx_with_table (t : list (option loc)) (c : ipa_rm_context_type) :=
  mkCtx t (ipa_rm_wq c) (volt c) (curr_volt c) (bw_resources c) (curr_bw c).
Definition ctx_with_wq (q : list rm_work) (c : ipa_rm_context_type) :=
  mkCtx (resource_table c) q (volt c) (curr_volt c) (bw_resources c) (curr_bw c).

Definition set_ctx (c : ctx_ptr) (s : rm_state) :=
  mkState c (heap s) (next_loc s) (delayed s) (hist s).
Definition set_heap (h : gmap loc ipa_rm_resource) (s : rm_state) :=
  mkState (ipa_rm_ctx s) h (next_loc s) (delayed s) (hist s).
Definition set_delayed (d : list ipa_rm_delayed_release_work_type) (s : rm_state) :=
  mkState (ipa_rm_ctx s) (heap s) (next_loc s) d (hist s).
Definition set_hist (h : list rm_effect) (s : rm_state) :=
  mkState (ipa_rm_ctx s) (heap s) (next_loc s) (delayed s) h.

(** ** Dereferences *)

(** [*ipa_rm_ctx]: undefined while the pointer is NULL or points to freed memory. *)
Definition get_ctx : RM ipa_rm_context_type :=
  s ← get; match ipa_rm_ctx s with CtxLive c => mret c | CtxNull | CtxFreed => UB end.
Definition put_ctx (c : ipa_rm_context_type) : RM () :=
  get_ctx ;; modify (set_ctx (CtxLive c)).

(** [*r]: undefined once the resource is freed. *)
Definition get_res (l : loc) : RM ipa_rm_resource := s ← get; of_option (heap s !! l).
Definition upd_res (l : loc) (f : ipa_rm_resource → ipa_rm_resource) : RM () :=
  r ← get_res l; modify (λ s, set_heap (<[l := f r]> (heap s)) s).

(** The casts to [struct ipa_rm_resource_cons *] and [struct ipa_rm_resource_prod *]. *)
Definition get_cons (l : loc) : RM resource_cons :=
  r ← get_res l; match ext r with Cons c => mret c | Prod _ => UB end.
Definition get_prod (l : loc) : RM resource_prod :=
  r ← get_res l; match ext r with Prod p => mret p | Cons _ => UB end.
Definition upd_cons (l : loc) (f : resource_cons → resource_cons) : RM () :=
  c ← get_cons l; upd_res l (with_ext (Cons (f c))).
Definition upd_prod (l : loc) (f : resource_prod → resource_prod) : RM () :=
  p ← get_prod l; upd_res l (with_ext (Prod (f p))).

Definition set_state (l : loc) (st : ipa_rm_resource_state) : RM () := upd_res l (with_state st).
(** [r->needed_bw += d] on a [u32]. *)
Definition add_needed_bw (l : loc) (d : Z) : RM () :=
  upd_res l (λ r, with_needed_bw (u32 (needed_bw r + d)) r).

(** ** Calls out of the module *)

Definition log_effect (e : rm_effect) : RM () := modify (λ s, set_hist (e :: hist s) s).

(** A call of a driver callback through its pointer. *)
Definition call_driver (E : rm_env) (f : fnptr) : RM Z :=
  match f with
  | None => UB
  | Some fn => s ← get; log_effect (EffCall fn) ;; mret (env_call E (hist s) fn)
  end.

Definition call_notify (f : fnptr) (user_data : Z) (ev : ipa_rm_event) : RM () :=
  match f with
  | None => UB
  | Some cb => log_effect (EffNotify cb user_data ev)
  end.

Definition inc_client_enable_clks_no_block (E : rm_env) (n : ipa_rm_resource_name) : RM Z :=
  s ← get; log_effect (EffIncClkNoBlock n) ;; mret (env_inc_clk_no_block E (hist s) n).
Definition ipa_suspend_resource_no_block (E : rm_env) (n : ipa_rm_resource_name) : RM Z :=
  s ← get; log_effect (EffSuspendNoBlock n) ;; mret (env_suspend_no_block E (hist s) n).
Definition ipa_resume_resource (n : ipa_rm_resource_name) : RM () := log_effect (EffResume n).
Definition kzalloc (E : rm_env) : RM bool :=
  s ← get; log_effect EffAlloc ;; mret (env_kzalloc E (hist s)).
