(* ===== verification/RmPeers.v ===== *)
(** * IPA resource manager: peers lists

    [ipa_rm_peers_list.c], with the two index functions of [ipa_rm_resource.c] it calls.
    A peers list is an array of [max_peers] slots; the slot of a resource is the one
    its name maps to. The operations return [None] where the C would leave the array. *)

From S2P Require Import Prelude.
From S2P Require Import RmTypes.

(** ** Names to indices *)

Definition ipa_rm_prod_index (resource_name : ipa_rm_resource_name) : Z :=
  match resource_name with
  | 0 | 2 | 4 | 6 | 8 | 10 | 12 | 14 | 16 | 18 | 20 => Z.of_nat resource_name
  | _ => IPA_RM_INDEX_INVALID
  end%nat.

Definition ipa_rm_cons_index (resource_name : ipa_rm_resource_name) : Z :=
  match resource_name with
  | 1 | 3 | 7 | 15 | 9 | 17 | 19 | 5 | 21 => Z.of_nat resource_name
  | _ => IPA_RM_INDEX_INVALID
  end%nat.

Definition ipa_rm_peers_list_get_resource_index (resource_name : ipa_rm_resource_name) : Z :=
  if IPA_RM_RESORCE_IS_PROD resource_name then ipa_rm_prod_index resource_name
  else if IPA_RM_RESORCE_IS_CONS resource_name then ipa_rm_cons_index resource_name
  else IPA_RM_INDEX_INVALID.

Definition ipa_rm_peers_list_check_index (index : Z) (pl : ipa_rm_peers_list) : bool :=
  negb ((max_peers pl <? index) || (index <? 0)).

(** ** Operations on one list *)

Definition no_peer : ipa_rm_resource_peer := mkPeer None false.

(** [ipa_rm_peers_list_create]: the zeroed array, when both allocations succeed. *)
Definition ipa_rm_peers_list_create (E : rm_env) (max_peers : Z) :
    RM (Z * option ipa_rm_peers_list) :=
  ok ← kzalloc E;
  if negb ok then mret (- ENOMEM, None)
  else
    ok2 ← kzalloc E;
    if negb ok2 then mret (- ENOMEM, None)
    else mret (0, Some (mkPeers (replicate (Z.to_nat max_peers) no_peer) max_peers 0)).

(** [peers[i].resource = r], then [peers[i].userspace_dep = us]. *)
Definition set_peer_resource (l : list ipa_rm_resource_peer) (i : Z) (r : option loc) :=
  p ← lookup_z l i; store_z l i (mkPeer r (peer_userspace_dep p)).
Definition set_peer_userspace (l : list ipa_rm_resource_peer) (i : Z) (us : bool) :=
  p ← lookup_z l i; store_z l i (mkPeer (peer_resource p) us).

Definition ipa_rm_peers_list_remove_peer (pl : ipa_rm_peers_list)
    (resource_name : ipa_rm_resource_name) : option ipa_rm_peers_list :=
  l1 ← set_peer_resource (peers pl) (ipa_rm_peers_list_get_resource_index resource_name) None;
  l2 ← set_peer_userspace l1 (ipa_rm_peers_list_get_resource_index resource_name) false;
  Some (mkPeers l2 (max_peers pl) (peers_count pl - 1)).

(** The resource's name is read through its pointer, so it comes as an argument. *)
Definition ipa_rm_peers_list_add_peer (pl : ipa_rm_peers_list) (resource : loc)
    (resource_name : ipa_rm_resource_name) (userspace_dep : bool) : option ipa_rm_peers_list :=
  l1 ← set_peer_resource (peers pl) (ipa_rm_peers_list_get_resource_index resource_name)
         (Some resource);
  l2 ← set_peer_userspace l1 (ipa_rm_peers_list_get_resource_index resource_name)
         userspace_dep;
  Some (mkPeers l2 (max_peers pl) (peers_count pl + 1)).

Definition ipa_rm_peers_list_is_empty (pl : option ipa_rm_peers_list) : bool :=
  match pl with
  | None => true
  | Some pl => negb (0 <? peers_count pl)
  end.

Definition ipa_rm_peers_list_has_last_peer (pl : option ipa_rm_peers_list) : bool :=
  match pl with
  | None => false
  | Some pl => peers_count pl =? 1
  end.

Definition ipa_rm_peers_list_get_resource (resource_index : Z) (pl : ipa_rm_peers_list) :
    option (option loc) :=
  if negb (ipa_rm_peers_list_check_index resource_index pl) then Some None
  else peer_resource <$> lookup_z (peers pl) resource_index.

Definition ipa_rm_peers_list_get_userspace_dep (resource_index : Z) (pl : ipa_rm_peers_list) :
    option bool :=
  if negb (ipa_rm_peers_list_check_index resource_index pl) then Some false
  else peer_userspace_dep <$> lookup_z (peers pl) resource_index.

Definition ipa_rm_peers_list_get_size (pl : ipa_rm_peers_list) : Z := max_peers pl.

(** ** Two lists at once

    Returns whether the dependency exists and, when it does, who added it; the second
    lookup overrides the first, as in the code. *)
Definition ipa_rm_peers_list_check_dependency
    (resource_peers : option ipa_rm_peers_list) (resource_name : ipa_rm_resource_name)
    (depends_on_peers : option ipa_rm_peers_list) (depends_on_name : ipa_rm_resource_name) :
    option (bool * option bool) :=
  match resource_peers, depends_on_peers with
  | Some rp, Some dp =>
      p1 ← lookup_z (peers rp) (ipa_rm_peers_list_get_resource_index depends_on_name);
      p2 ← lookup_z (peers dp) (ipa_rm_peers_list_get_resource_index resource_name);
      let res1 := match peer_resource p1 with
                  | Some _ => (true, Some (peer_userspace_dep p1))
                  | None => (false, None)
                  end in
      Some (match peer_resource p2 with
            | Some _ => (true, Some (peer_userspace_dep p2))
            | None => res1
            end)
  | _, _ => Some (false, None)
  end.
