(* ===== verification/RmCore.v ===== *)
(** * IPA resource manager: the name table, the work queue and the performance vote

    [ipa_rm_dependency_graph.c] (the table part), and from [ipa_rm.c] the three
    [ipa_rm_wq_send_*] functions and [ipa_rm_perf_profile_change]. *)

From S2P Require Import Prelude.
From S2P Require Import RmTypes.
From S2P Require Import RmPeers.

(** ** The table of resources ([struct ipa_rm_dep_graph]) *)

Definition ipa_rm_dep_get_index (resource_name : ipa_rm_resource_name) : Z :=
  if IPA_RM_RESORCE_IS_PROD resource_name then ipa_rm_prod_index resource_name
  else if IPA_RM_RESORCE_IS_CONS resource_name then ipa_rm_cons_index resource_name
  else IPA_RM_INDEX_INVALID.

Definition index_out_of_table (i : Z) : bool :=
  (i =? IPA_RM_INDEX_INVALID) || (Z.of_nat IPA_RM_RESOURCE_MAX <=? i).

(** Returns the error code and the resource pointer it wrote. *)
Definition ipa_rm_dep_graph_get_resource (resource_name : ipa_rm_resource_name) :
    RM (Z * option loc) :=
  c ← get_ctx;
  let resource_index := ipa_rm_dep_get_index resource_name in
  if index_out_of_table resource_index then mret (- EINVAL, None)
  else
    r ← of_option (lookup_z (resource_table c) resource_index);
    match r with
    | None => mret (- EINVAL, None)
    | Some l => mret (0, Some l)
    end.

Definition ipa_rm_dep_graph_add (resource : loc) : RM Z :=
  c ← get_ctx;
  r ← get_res resource;
  let resource_index := ipa_rm_dep_get_index (name r) in
  if index_out_of_table resource_index then mret (- EINVAL)
  else
    t ← of_option (store_z (resource_table c) resource_index (Some resource));
    put_ctx (ctx_with_table t c) ;;
    mret 0.

Definition ipa_rm_dep_graph_remove (resource_name : ipa_rm_resource_name) : RM Z :=
  c ← get_ctx;
  t ← of_option (store_z (resource_table c) (Z.of_nat resource_name) None);
  put_ctx (ctx_with_table t c) ;;
  mret 0.

(** ** Deferred work

    [queue_work] appends to the single-threaded queue; nothing is queued when the
    allocation of the item fails. The callers ignore the result. *)

Definition queue_work (w : rm_work) : RM () :=
  c ← get_ctx; put_ctx (ctx_with_wq (ipa_rm_wq c ++ [w]) c).

Section Deferred.
Context (E : rm_env).

Definition alloc_and_queue (w : rm_work) : RM Z :=
  work ← kzalloc E;
  if work : bool then queue_work w ;; mret 1 else mret (- ENOMEM).

Definition ipa_rm_wq_send_cmd (wq_cmd : ipa_rm_wq_cmd)
    (resource_name : ipa_rm_resource_name) (event : ipa_rm_event)
    (notify_registered_only : bool) : RM Z :=
  alloc_and_queue (WorkCmd wq_cmd resource_name event notify_registered_only).

Definition ipa_rm_wq_send_suspend_cmd (resource_name : ipa_rm_resource_name)
    (prev_state : ipa_rm_resource_state) (needed_bw : Z) : RM Z :=
  alloc_and_queue (WorkSuspend resource_name prev_state needed_bw).

Definition ipa_rm_wq_send_resume_cmd (resource_name : ipa_rm_resource_name)
    (prev_state : ipa_rm_resource_state) (needed_bw : Z) (inc_usage_count : bool) : RM Z :=
  alloc_and_queue (WorkResume resource_name prev_state needed_bw inc_usage_count).

(** ** The performance vote *)

Definition ipa_rm_perf_profile_notify_to_ipa (volt bandwidth : Z) : RM () :=
  work ← kzalloc E;
  when work (queue_work (WorkNotifyIpa volt bandwidth)).

(** The two loops over the table: the highest voltage, and the bandwidths summed on
    the producers' and on the consumers' side. *)
Definition max_volt (l : list Z) : Z := foldl (λ acc v, if acc <? v then v else acc) 0 l.

Fixpoint sum_bw (i : nat) (l : list Z) (sums : Z * Z) : Z * Z :=
  match l with
  | [] => sums
  | b :: l' =>
      let '(sp, sc) := sums in
      sum_bw (S i) l'
        (if IPA_RM_RESORCE_IS_PROD i then (u32 (sp + b), sc) else (sp, u32 (sc + b)))
  end.

Definition vote_bw (l : list Z) : Z := let '(sp, sc) := sum_bw 0 l (0, 0) in Z.min sp sc.

Definition ipa_rm_perf_profile_change (resource_name : ipa_rm_resource_name) : RM () :=
  '(err, resource) ← ipa_rm_dep_graph_get_resource resource_name;
  match resource with
  | None => mret ()                                         (* WARN_ON(1) *)
  | Some l =>
      c ← get_ctx;
      let old_volt := curr_volt c in
      let old_bw := curr_bw c in
      r ← get_res l;
      let '(bw, v) :=
        match state r with
        | IPA_RM_GRANTED | IPA_RM_REQUEST_IN_PROGRESS =>
            (Z.min (max_bw r) (needed_bw r), floor_voltage r)
        | IPA_RM_RELEASE_IN_PROGRESS | IPA_RM_RELEASED => (0, 0)
        end in
      bws ← of_option (store_z (bw_resources c) (Z.of_nat resource_name) bw);
      volts ← of_option (store_z (volt c) (Z.of_nat resource_name) v);
      let c' := mkCtx (resource_table c) (ipa_rm_wq c) volts (max_volt volts)
                  bws (vote_bw bws) in
      put_ctx c' ;;
      if (curr_volt c' =? old_volt) && (curr_bw c' =? old_bw) then mret ()
      else ipa_rm_perf_profile_notify_to_ipa (curr_volt c') (curr_bw c')
  end.
End Deferred.
