(* ===== verification/RmResource.v ===== *)
(** * IPA resource manager: resources

    [ipa_rm_resource.c]: the requests and releases of producers and consumers, the
    propagation of completions, dependencies, clients' registrations, creation and
    deletion, and performance profiles. *)

From S2P Require Import Prelude.
From S2P Require Import RmTypes.
From S2P Require Import RmPeers.
From S2P Require Import RmCore.

(** [r->peers_list], dereferenced. *)
Definition get_peers (l : loc) : RM ipa_rm_peers_list :=
  r ← get_res l; of_option (peers_list r).

(** [ipa_rm_peers_list_get_resource(peers_index, r->peers_list)] *)
Definition get_peer (l : loc) (peers_index : Z) : RM (option loc) :=
  pl ← get_peers l; of_option (ipa_rm_peers_list_get_resource peers_index pl).

(** The loop over all the peers of a resource; the list is read again at each turn. *)
Definition for_each_peer (l : loc) (body : Z → loc → RM ()) : RM () :=
  pl ← get_peers l;
  for_loop (Z.to_nat (ipa_rm_peers_list_get_size pl)) 0 (λ peers_index,
    p ← get_peer l peers_index;
    match p with
    | Some peer => body peers_index peer
    | None => mret ()
    end).

Section Resource.
Context (E : rm_env).

(** ** Notifications to the registered clients *)

Definition ipa_rm_resource_producer_notify_clients (p : loc) (event : ipa_rm_event)
    (notify_registered_only : bool) : RM () :=
  producer ← get_prod p;
  foldr (λ reg_info k,
    (if notify_registered_only && negb (explicit reg_info) then mret ()
     else call_notify (rp_notify_cb (reg_params reg_info))
            (rp_user_data (reg_params reg_info)) event) ;; k)
    (mret ()) (event_listeners producer).

(** ** Completions: from a consumer to the producers that use it *)

Definition ipa_rm_resource_producer_handle_cb (p : loc) (event : ipa_rm_event) : RM () :=
  r ← get_res p;
  producer ← get_prod p;
  match state r with
  | IPA_RM_REQUEST_IN_PROGRESS =>
      if negb (bool_decide (event = IPA_RM_RESOURCE_GRANTED)) then mret ()
      else if 0 <? pending_request producer then
        upd_prod p (with_pending_request (pending_request producer - 1)) ;;
        if pending_request producer - 1 =? 0 then
          set_state p IPA_RM_GRANTED ;;
          ipa_rm_perf_profile_change E (name r) ;;
          ipa_rm_resource_producer_notify_clients p IPA_RM_RESOURCE_GRANTED false
        else mret ()
      else mret ()
  | IPA_RM_RELEASE_IN_PROGRESS =>
      if negb (bool_decide (event = IPA_RM_RESOURCE_RELEASED)) then mret ()
      else if 0 <? pending_release producer then
        upd_prod p (with_pending_release (pending_release producer - 1)) ;;
        if pending_release producer - 1 =? 0 then
          set_state p IPA_RM_RELEASED ;;
          ipa_rm_perf_profile_change E (name r) ;;
          ipa_rm_resource_producer_notify_clients p IPA_RM_RESOURCE_RELEASED false
        else mret ()
      else mret ()
  | IPA_RM_GRANTED | IPA_RM_RELEASED => mret ()
  end.

Definition propagate_to_producers (c : loc) (event : ipa_rm_event) : RM () :=
  for_each_peer c (λ _ producer, ipa_rm_resource_producer_handle_cb producer event).

Definition ipa_rm_resource_consumer_handle_cb (c : loc) (event : ipa_rm_event) : RM () :=
  r ← get_res c;
  match state r with
  | IPA_RM_REQUEST_IN_PROGRESS =>
      if bool_decide (event = IPA_RM_RESOURCE_RELEASED) then mret ()
      else
        set_state c IPA_RM_GRANTED ;;
        ipa_rm_perf_profile_change E (name r) ;;
        ipa_resume_resource (name r) ;;
        upd_cons c (with_completion true) ;;
        propagate_to_producers c event
  | IPA_RM_RELEASE_IN_PROGRESS =>
      if bool_decide (event = IPA_RM_RESOURCE_GRANTED) then mret ()
      else
        set_state c IPA_RM_RELEASED ;;
        propagate_to_producers c event
  | IPA_RM_GRANTED | IPA_RM_RELEASED => mret ()
  end.

(** ** Consumers *)

Definition ipa_rm_resource_consumer_release_work (c : loc)
    (prev_state : ipa_rm_resource_state) (notify_completion : bool) : RM Z :=
  r ← get_res c;
  consumer ← get_cons c;
  res ← call_driver E (release_resource consumer);
  let driver_result := if res =? - EINPROGRESS then 0 else res in
  if negb (driver_result =? 0) && negb (driver_result =? - EINPROGRESS) then
    set_state c prev_state ;;
    mret driver_result
  else
    (if driver_result =? 0 then
       if notify_completion
       then ipa_rm_resource_consumer_handle_cb c IPA_RM_RESOURCE_RELEASED
       else set_state c IPA_RM_RELEASED
     else mret ()) ;;
    upd_cons c (with_completion true) ;;
    ipa_rm_perf_profile_change E (name r) ;;
    mret driver_result.

Definition ipa_rm_resource_consumer_request_work (c : loc)
    (prev_state : ipa_rm_resource_state) (prod_needed_bw : Z)
    (notify_completion dec_client_on_err : bool) : RM Z :=
  r ← get_res c;
  consumer ← get_cons c;
  driver_result ← call_driver E (request_resource consumer);
  (if driver_result =? 0 then
     if notify_completion then
       ipa_rm_resource_consumer_handle_cb c IPA_RM_RESOURCE_GRANTED
     else
       set_state c IPA_RM_GRANTED ;;
       ipa_rm_perf_profile_change E (name r) ;;
       ipa_resume_resource (name r)
   else if negb (driver_result =? - EINPROGRESS) then
     set_state c prev_state ;;
     add_needed_bw c (- prod_needed_bw) ;;
     when dec_client_on_err
       (k ← get_cons c; upd_cons c (with_usage_count (usage_count k - 1)))
   else mret ()) ;;
  mret driver_result.

Definition ipa_rm_resource_consumer_request (c : loc) (prod_needed_bw : Z)
    (inc_usage_count wake_client : bool) : RM Z :=
  r ← get_res c;
  get_cons c ;;
  let prev_state := state r in
  add_needed_bw c prod_needed_bw ;;
  result ←
    match prev_state with
    | IPA_RM_RELEASED | IPA_RM_RELEASE_IN_PROGRESS =>
        upd_cons c (with_completion false) ;;
        set_state c IPA_RM_REQUEST_IN_PROGRESS ;;
        async ← (if bool_decide (prev_state = IPA_RM_RELEASE_IN_PROGRESS) then mret true
                 else
                   ret ← inc_client_enable_clks_no_block E (name r);
                   mret (negb (ret =? 0)));
        if async : bool then
          ipa_rm_wq_send_resume_cmd E (name r) prev_state prod_needed_bw inc_usage_count ;;
          mret (- EINPROGRESS)
        else
          ipa_rm_resource_consumer_request_work c prev_state prod_needed_bw false
            inc_usage_count
    | IPA_RM_GRANTED =>
        if wake_client then
          ipa_rm_resource_consumer_request_work c prev_state prod_needed_bw false
            inc_usage_count
        else
          ipa_rm_perf_profile_change E (name r) ;;
          mret 0
    | IPA_RM_REQUEST_IN_PROGRESS => mret (- EINPROGRESS)
    end;
  when inc_usage_count
    (k ← get_cons c; upd_cons c (with_usage_count (usage_count k + 1))) ;;
  mret result.

(** [if (dec_usage_count && consumer->usage_count > 0) consumer->usage_count--] *)
Definition dec_usage (c : loc) (dec_usage_count : bool) : RM () :=
  consumer ← get_cons c;
  when (dec_usage_count && (0 <? usage_count consumer))
    (upd_cons c (with_usage_count (usage_count consumer - 1))).

Definition ipa_rm_resource_consumer_release (c : loc) (prod_needed_bw : Z)
    (dec_usage_count : bool) : RM Z :=
  r ← get_res c;
  get_cons c ;;
  let save_state := state r in
  add_needed_bw c (- prod_needed_bw) ;;
  match save_state with
  | IPA_RM_RELEASED => mret 0
  | IPA_RM_GRANTED | IPA_RM_REQUEST_IN_PROGRESS =>
      dec_usage c dec_usage_count ;;
      consumer ← get_cons c;
      if usage_count consumer =? 0 then
        set_state c IPA_RM_RELEASE_IN_PROGRESS ;;
        async ← (if bool_decide (save_state = IPA_RM_REQUEST_IN_PROGRESS) then mret true
                 else
                   ret ← ipa_suspend_resource_no_block E (name r);
                   mret (negb (ret =? 0)));
        if async : bool then
          ipa_rm_wq_send_suspend_cmd E (name r) save_state prod_needed_bw ;;
          mret (- EINPROGRESS)
        else ipa_rm_resource_consumer_release_work c save_state false
      else if bool_decide (save_state = IPA_RM_GRANTED) then
        ipa_rm_perf_profile_change E (name r) ;;
        mret 0
      else mret 0
  | IPA_RM_RELEASE_IN_PROGRESS =>
      dec_usage c dec_usage_count ;;
      mret (- EINPROGRESS)
  end.

(** ** Registration of clients with a producer *)

Definition cb_registered (cb : fnptr) (l : list ipa_rm_notification_info) : bool :=
  existsb (λ i, bool_decide (rp_notify_cb (reg_params i) = cb)) l.

Definition ipa_rm_resource_producer_register (p : loc)
    (rp : ipa_rm_register_params) (expl : bool) : RM Z :=
  producer ← get_prod p;
  if cb_registered (rp_notify_cb rp) (event_listeners producer) then mret (- EPERM)
  else
    ok ← kzalloc E;
    if negb ok then mret (- ENOMEM)
    else
      upd_prod p (with_listeners (mkNotifInfo rp expl :: event_listeners producer)) ;;
      mret 0.

(** [list_for_each_safe] with [list_del] of the first match. *)
Fixpoint remove_listener (cb : fnptr) (l : list ipa_rm_notification_info) :
    option (list ipa_rm_notification_info) :=
  match l with
  | [] => None
  | i :: l' =>
      if bool_decide (rp_notify_cb (reg_params i) = cb) then Some l'
      else cons i <$> remove_listener cb l'
  end.

Definition ipa_rm_resource_producer_deregister (p : loc) (rp : ipa_rm_register_params) :
    RM Z :=
  producer ← get_prod p;
  match remove_listener (rp_notify_cb rp) (event_listeners producer) with
  | Some l => upd_prod p (with_listeners l) ;; mret 0
  | None => mret (- EINVAL)
  end.

(** ** Dependencies *)

Definition check_dependency (resource depends_on : loc) : RM (bool * option bool) :=
  r ← get_res resource;
  d ← get_res depends_on;
  of_option (ipa_rm_peers_list_check_dependency (peers_list r) (name r)
               (peers_list d) (name d)).

(** [ipa_rm_peers_list_add_peer(owner->peers_list, peer, userspace_dep)], and the
    removal; both do nothing on a NULL list. *)
Definition add_peer (owner peer : loc) (userspace_dep : bool) : RM () :=
  o ← get_res owner;
  p ← get_res peer;
  match peers_list o with
  | None => mret ()
  | Some pl =>
      pl' ← of_option (ipa_rm_peers_list_add_peer pl peer (name p) userspace_dep);
      upd_res owner (with_peers pl')
  end.

Definition remove_peer (owner : loc) (peer_name : ipa_rm_resource_name) : RM () :=
  o ← get_res owner;
  match peers_list o with
  | None => mret ()
  | Some pl =>
      pl' ← of_option (ipa_rm_peers_list_remove_peer pl peer_name);
      upd_res owner (with_peers pl')
  end.

Definition ipa_rm_resource_add_dependency (resource depends_on : loc)
    (userspace_dep : bool) : RM Z :=
  '(exists_dep, _) ← check_dependency resource depends_on;
  if exists_dep : bool then mret (- EEXIST)
  else
    add_peer resource depends_on userspace_dep ;;
    add_peer depends_on resource userspace_dep ;;
    d ← get_res depends_on;
    add_needed_bw resource (max_bw d) ;;
    r ← get_res resource;
    match state r with
    | IPA_RM_RELEASED | IPA_RM_RELEASE_IN_PROGRESS => mret 0
    | IPA_RM_GRANTED | IPA_RM_REQUEST_IN_PROGRESS =>
        let prev_state := state r in
        set_state resource IPA_RM_REQUEST_IN_PROGRESS ;;
        p ← get_prod resource;
        upd_prod resource (with_pending_request (pending_request p + 1)) ;;
        consumer_result ← ipa_rm_resource_consumer_request depends_on (max_bw r) true false;
        when (negb (consumer_result =? - EINPROGRESS))
          (set_state resource prev_state ;;
           p ← get_prod resource;
           upd_prod resource (with_pending_request (pending_request p - 1)) ;;
           ipa_rm_perf_profile_change E (name r)) ;;
        mret consumer_result
    end.

(** The switch of [delete_dependency]: whether the consumer has to be released, and
    the event to send when the removal completes the producer's transition. *)
Definition delete_dependency_switch (resource depends_on : loc) :
    RM (bool * option ipa_rm_event) :=
  r ← get_res resource;
  d ← get_res depends_on;
  match state r with
  | IPA_RM_RELEASED => mret (false, None)
  | IPA_RM_GRANTED =>
      ipa_rm_perf_profile_change E (name r) ;;
      mret (true, None)
  | IPA_RM_RELEASE_IN_PROGRESS =>
      p ← get_prod resource;
      when (0 <? pending_release p)
        (upd_prod resource (with_pending_release (pending_release p - 1))) ;;
      p ← get_prod resource;
      if bool_decide (state d = IPA_RM_RELEASE_IN_PROGRESS) && (pending_release p =? 0) then
        set_state resource IPA_RM_RELEASED ;;
        ipa_rm_perf_profile_change E (name r) ;;
        mret (false, Some IPA_RM_RESOURCE_RELEASED)
      else mret (false, None)
  | IPA_RM_REQUEST_IN_PROGRESS =>
      p ← get_prod resource;
      when (0 <? pending_request p)
        (upd_prod resource (with_pending_request (pending_request p - 1))) ;;
      p ← get_prod resource;
      if bool_decide (state d = IPA_RM_REQUEST_IN_PROGRESS) && (pending_request p =? 0) then
        set_state resource IPA_RM_GRANTED ;;
        ipa_rm_perf_profile_change E (name r) ;;
        mret (true, Some IPA_RM_RESOURCE_GRANTED)
      else mret (true, None)
  end.

Definition ipa_rm_resource_delete_dependency (resource depends_on : loc)
    (userspace_dep : bool) : RM Z :=
  '(exists_dep, add_dep_by_userspace) ← check_dependency resource depends_on;
  if negb exists_dep then mret (- EINVAL)
  else
    add_dep_by_userspace ← of_option add_dep_by_userspace;
    if negb (Bool.eqb add_dep_by_userspace userspace_dep) then mret 0
    else
      d ← get_res depends_on;
      add_needed_bw resource (- max_bw d) ;;
      '(release_consumer, evt) ← delete_dependency_switch resource depends_on;
      r ← get_res resource;
      match evt with
      | Some e => ipa_rm_wq_send_cmd E IPA_RM_WQ_NOTIFY_PROD (name r) e false ;; mret ()
      | None => mret ()
      end ;;
      remove_peer resource (name d) ;;
      remove_peer depends_on (name r) ;;
      when release_consumer
        (ipa_rm_resource_consumer_release depends_on (max_bw r) true ;; mret ()) ;;
      mret 0.

(** ** Producers *)

(** The loop of [producer_request] from [peers_index] on, with its [result]; the
    second component tells that the loop left by [goto bail]. *)
Fixpoint request_consumers (p : loc) (n : nat) (peers_index result : Z) : RM (Z * bool) :=
  match n with
  | O => mret (result, false)
  | S n' =>
      c ← get_peer p peers_index;
      match c with
      | None => request_consumers p n' (peers_index + 1) result
      | Some consumer =>
          k ← get_prod p;
          upd_prod p (with_pending_request (pending_request k + 1)) ;;
          r ← get_res p;
          consumer_result ← ipa_rm_resource_consumer_request consumer (max_bw r) true false;
          if consumer_result =? - EINPROGRESS then
            request_consumers p n' (peers_index + 1) (- EINPROGRESS)
          else
            k ← get_prod p;
            upd_prod p (with_pending_request (pending_request k - 1)) ;;
            if negb (consumer_result =? 0) then mret (consumer_result, true)
            else request_consumers p n' (peers_index + 1) result
      end
  end.

Definition ipa_rm_resource_producer_request (p : loc) : RM Z :=
  r ← get_res p;
  match state r with
  | IPA_RM_GRANTED => mret 0
  | IPA_RM_REQUEST_IN_PROGRESS => mret (- EINPROGRESS)
  | IPA_RM_RELEASED | IPA_RM_RELEASE_IN_PROGRESS =>
      set_state p IPA_RM_REQUEST_IN_PROGRESS ;;
      upd_prod p (with_pending_request 0) ;;
      pl ← get_peers p;
      '(result, bailed) ←
        request_consumers p (Z.to_nat (ipa_rm_peers_list_get_size pl)) 0 0;
      if bailed : bool then mret result
      else
        k ← get_prod p;
        if pending_request k =? 0 then
          set_state p IPA_RM_GRANTED ;;
          ipa_rm_perf_profile_change E (name r) ;;
          ipa_rm_wq_send_cmd E IPA_RM_WQ_NOTIFY_PROD (name r) IPA_RM_RESOURCE_GRANTED true ;;
          mret 0
        else mret result
  end.

Definition release_consumers (p : loc) : RM () :=
  for_each_peer p (λ _ consumer,
    k ← get_prod p;
    upd_prod p (with_pending_release (pending_release k + 1)) ;;
    r ← get_res p;
    ipa_rm_resource_consumer_release consumer (max_bw r) true ;;
    k ← get_prod p;
    upd_prod p (with_pending_release (pending_release k - 1))).

Definition ipa_rm_resource_producer_release (p : loc) : RM Z :=
  r ← get_res p;
  match state r with
  | IPA_RM_RELEASED => mret 0
  | IPA_RM_RELEASE_IN_PROGRESS => mret (- EINPROGRESS)
  | IPA_RM_GRANTED | IPA_RM_REQUEST_IN_PROGRESS =>
      set_state p IPA_RM_RELEASE_IN_PROGRESS ;;
      upd_prod p (with_pending_release 0) ;;
      release_consumers p ;;
      k ← get_prod p;
      when (pending_release k =? 0)
        (set_state p IPA_RM_RELEASED ;;
         ipa_rm_perf_profile_change E (name r) ;;
         ipa_rm_wq_send_cmd E IPA_RM_WQ_NOTIFY_PROD (name r) IPA_RM_RESOURCE_RELEASED true ;;
         mret ()) ;;
      mret 0
  end.

(** ** Creation and deletion *)

(** A zeroed resource at a fresh address. *)
Definition alloc_res (t : ipa_rm_resource_type) (e : resource_ext) : RM loc :=
  s ← get;
  let l := next_loc s in
  put (mkState (ipa_rm_ctx s) (<[l := mkRes 0%nat t 0 0 0 IPA_RM_RELEASED None e]> (heap s))
         (Pos.succ l) (delayed s) (hist s)) ;;
  mret l.

Definition kfree_res (l : loc) : RM () :=
  get_res l ;; modify (λ s, set_heap (delete l (heap s)) s).

Definition ipa_rm_resource_producer_create (create_params : ipa_rm_create_params) :
    RM (Z * option loc) :=
  ok ← kzalloc E;
  if negb ok then mret (- ENOMEM, None)
  else
    p ← alloc_res IPA_RM_PRODUCER (Prod (mkProd [] 0 0));
    result ← ipa_rm_resource_producer_register p (cp_reg_params create_params) false;
    if negb (result =? 0) then kfree_res p ;; mret (result, None)
    else mret (0, Some p).

Definition ipa_rm_resource_consumer_create (create_params : ipa_rm_create_params) :
    RM (Z * option loc) :=
  ok ← kzalloc E;
  if negb ok then mret (- ENOMEM, None)
  else
    c ← alloc_res IPA_RM_CONSUMER
          (Cons (mkCons 0 false (cp_request_resource create_params)
                   (cp_release_resource create_params)));
    mret (0, Some c).

Definition ipa_rm_resource_producer_delete (p : loc) : RM () :=
  ipa_rm_resource_producer_release p ;;
  upd_prod p (with_listeners []).

(** The loop of [resource_delete] over the peers of [l]; [dep peer us] deletes the
    dependency in the direction that fits the type of [l]. *)
Definition delete_all_dependencies (l : loc) (dep : loc → bool → RM Z) : RM () :=
  r ← get_res l;
  match peers_list r with
  | None => mret ()
  | Some _ =>
      for_each_peer l (λ peers_index peer,
        pl ← get_peers l;
        us ← of_option (ipa_rm_peers_list_get_userspace_dep peers_index pl);
        dep peer us ;; mret ())
  end.

Definition ipa_rm_resource_delete (resource : loc) : RM Z :=
  r ← get_res resource;
  match type r with
  | IPA_RM_PRODUCER =>
      delete_all_dependencies resource
        (λ consumer us, ipa_rm_resource_delete_dependency resource consumer us) ;;
      ipa_rm_resource_producer_delete resource
  | IPA_RM_CONSUMER =>
      delete_all_dependencies resource
        (λ producer us, ipa_rm_resource_delete_dependency producer resource us)
  end ;;
  kfree_res resource ;;
  mret 0.

Definition ipa_rm_resource_create (create_params : ipa_rm_create_params) :
    RM (Z * option loc) :=
  let cname := cp_name create_params in
  '(result, resource) ←
    (if IPA_RM_RESORCE_IS_PROD cname then ipa_rm_resource_producer_create create_params
     else if IPA_RM_RESORCE_IS_CONS cname then ipa_rm_resource_consumer_create create_params
     else mret (- EPERM, None));
  match resource with
  | None => mret (result, None)
  | Some l =>
      '(result, pl) ← ipa_rm_peers_list_create E (Z.of_nat IPA_RM_RESOURCE_MAX);
      match pl with
      | None => ipa_rm_resource_delete l ;; mret (result, None)
      | Some pl =>
          upd_res l (λ r, mkRes cname (type r) (cp_floor_voltage create_params) (max_bw r)
                            (needed_bw r) IPA_RM_RELEASED (Some pl) (ext r)) ;;
          mret (0, Some l)
      end
  end.

(** ** Performance profiles *)

Definition ipa_rm_resource_set_perf_profile (resource : loc) (profile_bw : Z) : RM Z :=
  r ← get_res resource;
  if profile_bw =? max_bw r then mret 0
  else
    when (bool_decide (type r = IPA_RM_PRODUCER) &&
            (bool_decide (state r = IPA_RM_GRANTED) ||
             bool_decide (state r = IPA_RM_REQUEST_IN_PROGRESS))
          || bool_decide (type r = IPA_RM_CONSUMER))
      (for_each_peer resource (λ _ peer,
         add_needed_bw peer (- max_bw r) ;;
         add_needed_bw peer profile_bw ;;
         q ← get_res peer;
         when (bool_decide (state q = IPA_RM_GRANTED))
           (ipa_rm_perf_profile_change E (name q)))) ;;
    upd_res resource (with_max_bw profile_bw) ;;
    r ← get_res resource;
    when (bool_decide (state r = IPA_RM_GRANTED)) (ipa_rm_perf_profile_change E (name r)) ;;
    mret 0.
End Resource.
