(* ===== verification/Rm.v ===== *)
(** * IPA resource manager: the interface of the module

    The dependency functions of [ipa_rm_dependency_graph.c] and the functions of
    [ipa_rm.c]: the exported operations, each atomic under [ipa_rm_lock], the handlers
    of the work queue and of the delayed releases, and the step relation that
    interleaves them. *)

From S2P Require Import Prelude.
From S2P Require Import RmTypes.
From S2P Require Import RmPeers.
From S2P Require Import RmCore.
From S2P Require Import RmResource.

Section Rm.
Context (E : rm_env).

(** [unlikely(!ipa_rm_ctx)] *)
Definition ctx_is_null : RM bool :=
  s ← get; mret (match ipa_rm_ctx s with CtxNull => true | _ => false end).

(** The guard that opens most operations. *)
Definition unless_null (m : RM Z) : RM Z :=
  null ← ctx_is_null; if null : bool then mret (- EINVAL) else m.

(** Look a resource up, or fail with [err]. *)
Definition with_resource (resource_name : ipa_rm_resource_name) (err : Z)
    (k : loc → RM Z) : RM Z :=
  '(_, resource) ← ipa_rm_dep_graph_get_resource resource_name;
  match resource with
  | None => mret err
  | Some l => k l
  end.

(** ** Dependency graph *)

Definition ipa_rm_dep_graph_add_dependency (resource_name depends_on_name : nat)
    (userspace_dep : bool) : RM Z :=
  if negb (IPA_RM_RESORCE_IS_PROD resource_name) || negb (IPA_RM_RESORCE_IS_CONS depends_on_name)
  then mret (- EINVAL)
  else
    with_resource resource_name (- EINVAL) (λ dependent,
      with_resource depends_on_name (- EINVAL) (λ dependency,
        ipa_rm_resource_add_dependency E dependent dependency userspace_dep)).

Definition ipa_rm_dep_graph_delete_dependency (resource_name depends_on_name : nat)
    (userspace_dep : bool) : RM Z :=
  if negb (IPA_RM_RESORCE_IS_PROD resource_name) || negb (IPA_RM_RESORCE_IS_CONS depends_on_name)
  then mret (- EINVAL)
  else
    with_resource resource_name (- EINVAL) (λ dependent,
      with_resource depends_on_name (- EINVAL) (λ dependency,
        ipa_rm_resource_delete_dependency E dependent dependency userspace_dep)).

(** ** Exported operations *)

Definition IPA_VOLTAGE_MAX : Z := 4.

Definition ipa_rm_create_resource (create_params : option ipa_rm_create_params) : RM Z :=
  unless_null
    match create_params with
    | None => mret (- EINVAL)
    | Some cp =>
        if (cp_floor_voltage cp <? 0) || (IPA_VOLTAGE_MAX <=? cp_floor_voltage cp)
        then mret (- EINVAL)
        else
          '(err, _) ← ipa_rm_dep_graph_get_resource (cp_name cp);
          if err =? 0 then mret (- EEXIST)
          else
            '(result, resource) ← ipa_rm_resource_create E cp;
            match resource with
            | None => mret result
            | Some l =>
                result ← ipa_rm_dep_graph_add l;
                if negb (result =? 0) then ipa_rm_resource_delete E l ;; mret result
                else mret result
            end
    end.

Definition ipa_rm_delete_resource (resource_name : ipa_rm_resource_name) : RM Z :=
  unless_null
    (with_resource resource_name (- EINVAL) (λ resource,
       result ← ipa_rm_resource_delete E resource;
       if negb (result =? 0) then mret result
       else ipa_rm_dep_graph_remove resource_name)).

Definition _ipa_rm_add_dependency (resource_name depends_on_name : ipa_rm_resource_name)
    (userspace_dep : bool) : RM Z :=
  unless_null (ipa_rm_dep_graph_add_dependency resource_name depends_on_name userspace_dep).

Definition ipa_rm_add_dependency (resource_name depends_on_name : nat) : RM Z :=
  _ipa_rm_add_dependency resource_name depends_on_name false.
Definition ipa_rm_add_dependency_from_ioctl (resource_name depends_on_name : nat) : RM Z :=
  _ipa_rm_add_dependency resource_name depends_on_name true.

(** The synchronous form releases the lock before it waits: [wait consumer] is what
    the other threads do until [wait_for_completion_timeout] returns, with the time
    that is left (0 on a timeout). *)
Definition _ipa_rm_add_dependency_sync (wait : loc → RM Z)
    (resource_name depends_on_name : ipa_rm_resource_name) (userspace_dep : bool) : RM Z :=
  unless_null
    (result ← ipa_rm_dep_graph_add_dependency resource_name depends_on_name userspace_dep;
     if result =? - EINPROGRESS then
       '(_, consumer) ← ipa_rm_dep_graph_get_resource depends_on_name;
       c ← of_option consumer;
       get_cons c ;;
       time ← wait c;
       mret (if time =? 0 then - ETIME else 0)
     else mret result).

Definition _ipa_rm_delete_dependency (resource_name depends_on_name : ipa_rm_resource_name)
    (userspace_dep : bool) : RM Z :=
  unless_null (ipa_rm_dep_graph_delete_dependency resource_name depends_on_name userspace_dep).

Definition ipa_rm_delete_dependency (resource_name depends_on_name : nat) : RM Z :=
  _ipa_rm_delete_dependency resource_name depends_on_name false.
Definition ipa_rm_delete_dependency_from_ioctl (resource_name depends_on_name : nat) : RM Z :=
  _ipa_rm_delete_dependency resource_name depends_on_name true.

Definition ipa_rm_request_resource (resource_name : ipa_rm_resource_name) : RM Z :=
  unless_null
    (if negb (IPA_RM_RESORCE_IS_PROD resource_name) then mret (- EINVAL)
     else with_resource resource_name (- EPERM) (ipa_rm_resource_producer_request E)).

Definition ipa_rm_release_resource (resource_name : ipa_rm_resource_name) : RM Z :=
  unless_null
    (if negb (IPA_RM_RESORCE_IS_PROD resource_name) then mret (- EINVAL)
     else with_resource resource_name (- EPERM) (ipa_rm_resource_producer_release E)).

Definition delayed_release_work_func (rwork : ipa_rm_delayed_release_work_type) : RM () :=
  if negb (IPA_RM_RESORCE_IS_CONS (dr_resource_name rwork)) then mret ()
  else
    with_resource (dr_resource_name rwork) 0 (λ resource,
      ipa_rm_resource_consumer_release E resource (dr_needed_bw rwork)
        (dr_dec_usage_count rwork)) ;;
    mret ().

Definition schedule_delayed_work (rwork : ipa_rm_delayed_release_work_type) : RM () :=
  modify (λ s, set_delayed (delayed s ++ [rwork]) s).

Definition ipa_rm_request_resource_with_timer (resource_name : ipa_rm_resource_name) : RM Z :=
  if negb (IPA_RM_RESORCE_IS_CONS resource_name) then mret (- EINVAL)
  else
    with_resource resource_name (- EPERM) (λ resource,
      result ← ipa_rm_resource_consumer_request E resource 0 false true;
      if negb (result =? 0) && negb (result =? - EINPROGRESS) then mret (- EPERM)
      else
        release_work ← kzalloc E;
        if negb release_work then mret (- ENOMEM)
        else
          r ← get_res resource;
          schedule_delayed_work (mkDelayed (name r) 0 false) ;;
          mret 0).

Definition ipa_rm_register (resource_name : ipa_rm_resource_name)
    (rp : ipa_rm_register_params) : RM Z :=
  if negb (IPA_RM_RESORCE_IS_PROD resource_name) then mret (- EINVAL)
  else with_resource resource_name (- EPERM) (λ resource,
         ipa_rm_resource_producer_register E resource rp true).

Definition ipa_rm_deregister (resource_name : ipa_rm_resource_name)
    (rp : ipa_rm_register_params) : RM Z :=
  if negb (IPA_RM_RESORCE_IS_PROD resource_name) then mret (- EINVAL)
  else with_resource resource_name (- EPERM) (λ resource,
         ipa_rm_resource_producer_deregister resource rp).

Definition ipa_rm_set_perf_profile (resource_name : ipa_rm_resource_name)
    (profile : option Z) : RM Z :=
  unless_null
    (with_resource resource_name (- EPERM) (λ resource,
       match profile with
       | None => mret (- EINVAL)
       | Some bw => ipa_rm_resource_set_perf_profile E resource bw
       end)).

Definition ipa_rm_notify_completion (event : ipa_rm_event)
    (resource_name : ipa_rm_resource_name) : RM Z :=
  unless_null
    (if negb (IPA_RM_RESORCE_IS_CONS resource_name) then mret (- EINVAL)
     else ipa_rm_wq_send_cmd E IPA_RM_WQ_RESOURCE_CB resource_name event false ;; mret 0).

(** ** Handlers of the work queue *)

Definition ipa_rm_wq_handler (cmd : ipa_rm_wq_cmd) (n : ipa_rm_resource_name)
    (event : ipa_rm_event) (notify_registered_only : bool) : RM () :=
  match cmd with
  | IPA_RM_WQ_NOTIFY_PROD =>
      if negb (IPA_RM_RESORCE_IS_PROD n) then mret ()
      else
        with_resource n 0 (λ resource,
          ipa_rm_resource_producer_notify_clients resource event notify_registered_only ;;
          mret 0) ;;
        mret ()
  | IPA_RM_WQ_NOTIFY_CONS => mret ()
  | IPA_RM_WQ_RESOURCE_CB =>
      with_resource n 0 (λ resource,
        ipa_rm_resource_consumer_handle_cb E resource event ;; mret 0) ;;
      mret ()
  end.

Definition ipa_rm_wq_resume_handler (n : ipa_rm_resource_name)
    (prev_state : ipa_rm_resource_state) (needed_bw : Z) (inc_usage_count : bool) : RM () :=
  if negb (IPA_RM_RESORCE_IS_CONS n) then mret ()
  else
    log_effect (EffIncClk n) ;;
    '(_, resource) ← ipa_rm_dep_graph_get_resource n;
    match resource with
    | None => log_effect (EffDecClk n)
    | Some l =>
        ipa_rm_resource_consumer_request_work E l prev_state needed_bw true
          inc_usage_count ;;
        mret ()
    end.

Definition ipa_rm_wq_suspend_handler (n : ipa_rm_resource_name)
    (prev_state : ipa_rm_resource_state) : RM () :=
  if negb (IPA_RM_RESORCE_IS_CONS n) then mret ()
  else
    log_effect (EffSuspendSync n) ;;
    '(_, resource) ← ipa_rm_dep_graph_get_resource n;
    match resource with
    | None => mret ()
    | Some l => ipa_rm_resource_consumer_release_work E l prev_state true ;; mret ()
    end.

Definition ipa_rm_perf_profile_notify_to_ipa_work (volt bw : Z) : RM () :=
  log_effect (EffSetPerf volt bw).

Definition run_work (w : rm_work) : RM () :=
  match w with
  | WorkCmd cmd n ev only => ipa_rm_wq_handler cmd n ev only
  | WorkResume n prev bw inc => ipa_rm_wq_resume_handler n prev bw inc
  | WorkSuspend n prev _ => ipa_rm_wq_suspend_handler n prev
  | WorkNotifyIpa v bw => ipa_rm_perf_profile_notify_to_ipa_work v bw
  end.

(** ** Initialisation and exit *)

Definition ipa_rm_dep_graph_delete : RM () :=
  c ← get_ctx;
  modify (λ s, set_heap
    (foldr (λ r h, match r with Some l => delete l h | None => h end) (heap s)
       (resource_table c)) s) ;;
  put_ctx (ctx_with_table (replicate IPA_RM_RESOURCE_MAX None) c).

Definition fresh_ctx : ipa_rm_context_type :=
  mkCtx (replicate IPA_RM_RESOURCE_MAX None) [] (replicate IPA_RM_RESOURCE_MAX 0) 0
    (replicate IPA_RM_RESOURCE_MAX 0) 0.

(** The three allocations: the context, the work queue and the graph. A failure of the
    last two frees the context and leaves the global pointer as it is. *)
Definition ipa_rm_initialize : RM Z :=
  ok_ctx ← kzalloc E;
  if negb ok_ctx then modify (set_ctx CtxNull) ;; mret (- ENOMEM)
  else
    modify (set_ctx (CtxLive fresh_ctx)) ;;
    ok_wq ← kzalloc E;
    if negb ok_wq then modify (set_ctx CtxFreed) ;; mret (- ENOMEM)
    else
      ok_graph ← kzalloc E;
      if negb ok_graph then modify (set_ctx CtxFreed) ;; mret (- ENOMEM)
      else mret 0.

(** [destroy_workqueue] runs what is queued before it frees the queue. *)
Definition destroy_workqueue : RM () :=
  c ← get_ctx;
  put_ctx (ctx_with_wq [] c) ;;
  foldr (λ w k, run_work w ;; k) (mret ()) (ipa_rm_wq c).

Definition ipa_rm_exit : RM () :=
  ipa_rm_dep_graph_delete ;;
  destroy_workqueue ;;
  get_ctx ;;
  modify (set_ctx CtxNull).

(** ** Interleaving

    One step is an exported operation, the first item of the queue (which is single
    threaded), or any delayed release whose timer expires. *)

Inductive rm_api :=
  | ApiCreate (cp : option ipa_rm_create_params)
  | ApiDelete (n : ipa_rm_resource_name)
  | ApiAddDependency (n d : ipa_rm_resource_name) (userspace : bool)
  | ApiDeleteDependency (n d : ipa_rm_resource_name) (userspace : bool)
  | ApiRequest (n : ipa_rm_resource_name)
  | ApiRelease (n : ipa_rm_resource_name)
  | ApiRequestTimer (n : ipa_rm_resource_name)
  | ApiRegister (n : ipa_rm_resource_name) (rp : ipa_rm_register_params)
  | ApiDeregister (n : ipa_rm_resource_name) (rp : ipa_rm_register_params)
  | ApiSetPerf (n : ipa_rm_resource_name) (profile : option Z)
  | ApiNotifyCompletion (ev : ipa_rm_event) (n : ipa_rm_resource_name).

Definition run_api (a : rm_api) : RM Z :=
  match a with
  | ApiCreate cp => ipa_rm_create_resource cp
  | ApiDelete n => ipa_rm_delete_resource n
  | ApiAddDependency n d us => _ipa_rm_add_dependency n d us
  | ApiDeleteDependency n d us => _ipa_rm_delete_dependency n d us
  | ApiRequest n => ipa_rm_request_resource n
  | ApiRelease n => ipa_rm_release_resource n
  | ApiRequestTimer n => ipa_rm_request_resource_with_timer n
  | ApiRegister n rp => ipa_rm_register n rp
  | ApiDeregister n rp => ipa_rm_deregister n rp
  | ApiSetPerf n p => ipa_rm_set_perf_profile n p
  | ApiNotifyCompletion ev n => ipa_rm_notify_completion ev n
  end.

Inductive rm_label :=
  | StepApi (a : rm_api)
  | StepWork
  | StepTimer (i : nat).

Definition pop_work : RM rm_work :=
  c ← get_ctx;
  match ipa_rm_wq c with
  | [] => UB
  | w :: q => put_ctx (ctx_with_wq q c) ;; mret w
  end.

Definition pop_delayed (i : nat) : RM ipa_rm_delayed_release_work_type :=
  s ← get;
  d ← of_option (delayed s !! i);
  put (set_delayed (delete i (delayed s)) s) ;;
  mret d.

Definition run_label (l : rm_label) : RM () :=
  match l with
  | StepApi a => run_api a ;; mret ()
  | StepWork => w ← pop_work; run_work w
  | StepTimer i => d ← pop_delayed i; delayed_release_work_func d
  end.

(** A label the environment can fire: the client passes non-null callbacks, there is
    an item in the queue, the timer exists. *)
Definition label_enabled (l : rm_label) (s : rm_state) : Prop :=
  match l with
  | StepApi (ApiCreate (Some cp)) =>
      if IPA_RM_RESORCE_IS_PROD (cp_name cp) then rp_notify_cb (cp_reg_params cp) ≠ None
      else cp_request_resource cp ≠ None ∧ cp_release_resource cp ≠ None
  | StepApi (ApiRegister _ rp) => rp_notify_cb rp ≠ None
  | StepApi _ => True
  | StepWork => match ipa_rm_ctx s with CtxLive c => ipa_rm_wq c ≠ [] | _ => False end
  | StepTimer i => (i < length (delayed s))%nat
  end.

Definition initial_state : rm_state := mkState (CtxLive fresh_ctx) ∅ 1%positive [] [].

Inductive reachable : rm_state → Prop :=
  | reachable_init : reachable initial_state
  | reachable_step l s s' :
      reachable s → label_enabled l s → run_label l s = Some ((), s') → reachable s'.

(** Running a script of labels, for concrete executions. *)
Fixpoint run_labels (ls : list rm_label) : RM () :=
  match ls with
  | [] => mret ()
  | l :: ls' => run_label l ;; run_labels ls'
  end.
End Rm.
