(* ===== verification/RmConsumer.v ===== *)
(** * IPA resource manager: specifications of the basic operations

    [mem K h s] says what the memory of the module is in the state [s]: the module is
    initialised, its name table, allocation pointer and delayed releases are those of
    [K], and its heap is [h]. The votes, the work queue and the history of effects are
    left open. The rules below execute the primitive operations of [RmTypes.v] and
    [RmCore.v] on such descriptions.

    The specification of [ipa_rm_resource_consumer_request] and
    [ipa_rm_resource_consumer_release]: they change one resource, the consumer itself,
    and the change is one of a few outcomes. *)

From S2P Require Import Prelude.
From S2P Require Import RmTypes.
From S2P Require Import RmPeers.
From S2P Require Import RmCore.
From S2P Require Import RmResource.

Abbreviation rheap := (gmap loc ipa_rm_resource).

Record control := mkControl {
  k_table : list (option loc);
  k_next : loc;
  k_delayed : list ipa_rm_delayed_release_work_type;
}.

(** A completion is queued for names of consumers only: its handler does not check. *)
Definition work_ok (w : rm_work) : Prop :=
  match w with
  | WorkCmd IPA_RM_WQ_RESOURCE_CB n _ _ => IPA_RM_RESORCE_IS_CONS n = true
  | _ => True
  end.

Definition ctx_sized (c : ipa_rm_context_type) : Prop :=
  length (resource_table c) = IPA_RM_RESOURCE_MAX ∧
  length (volt c) = IPA_RM_RESOURCE_MAX ∧
  length (bw_resources c) = IPA_RM_RESOURCE_MAX ∧
  Forall work_ok (ipa_rm_wq c).

Definition mem (K : control) (h : rheap) (s : rm_state) : Prop :=
  ∃ c, s = mkState (CtxLive c) h (k_next K) (k_delayed K) (hist s) ∧
       ctx_sized c ∧ resource_table c = k_table K.

Lemma mem_det K1 h1 K2 h2 s : mem K1 h1 s → mem K2 h2 s → K1 = K2 ∧ h1 = h2.
Proof.
  intros (c1 & E1 & _ & T1) (c2 & E2 & _ & T2). rewrite E1 in E2. destruct K1, K2.
  injection E2 as -> -> -> ->. simpl in *. by rewrite <- T1, <- T2.
Qed.

Lemma mem_heap K h s : mem K h s → heap s = h.
Proof. by intros (c & -> & _). Qed.

Lemma mem_table_length K h s : mem K h s → length (k_table K) = IPA_RM_RESOURCE_MAX.
Proof. intros (c & _ & (? & _) & <-). done. Qed.

(** ** Dereferences *)

Section deref.
Context (K : control).
Implicit Types (s : rm_state) (r : ipa_rm_resource) (h : rheap).

Lemma wp_get_ctx h (Q : _ → rm_state → Prop) s :
  mem K h s →
  (∀ c, ipa_rm_ctx s = CtxLive c → ctx_sized c → resource_table c = k_table K → Q c s) →
  wp get_ctx Q s.
Proof.
  intros (c & Hs & Hc & Ht) HQ. assert (ipa_rm_ctx s = CtxLive c) as E by by rewrite Hs.
  unfold get_ctx. wp_steps. rewrite E. apply wp_ret. auto.
Qed.

Lemma wp_put_ctx h c (Q : _ → rm_state → Prop) s :
  mem K h s → ctx_sized c →
  (∀ s', mem (mkControl (resource_table c) (k_next K) (k_delayed K)) h s' → Q () s') →
  wp (put_ctx c) Q s.
Proof.
  intros Hm Hc HQ. unfold put_ctx. wp_steps. eapply wp_get_ctx; [done|]. intros c0 _ _ _.
  wp_steps. apply HQ. destruct Hm as (c1 & -> & _). by exists c.
Qed.

Lemma wp_get_res h l r (Q : _ → rm_state → Prop) s :
  mem K h s → h !! l = Some r → Q r s → wp (get_res l) Q s.
Proof.
  intros Hm Hl HQ. unfold get_res. wp_steps. rewrite (mem_heap _ _ _ Hm).
  by eapply wp_of_option.
Qed.

Lemma wp_upd_res h l r f (Q : _ → rm_state → Prop) s :
  mem K h s → h !! l = Some r →
  (∀ s', mem K (<[l := f r]> h) s' → Q () s') → wp (upd_res l f) Q s.
Proof.
  intros Hm Hl HQ. unfold upd_res. wp_steps. eapply wp_get_res; [done..|]. wp_steps.
  apply HQ. destruct Hm as (c & -> & ?). by exists c.
Qed.

Lemma wp_get_cons h l r c (Q : _ → rm_state → Prop) s :
  mem K h s → h !! l = Some r → ext r = Cons c → Q c s → wp (get_cons l) Q s.
Proof.
  intros Hm Hl He HQ. unfold get_cons. wp_steps. eapply wp_get_res; [done..|].
  rewrite He. by wp_steps.
Qed.

Lemma wp_get_prod h l r p (Q : _ → rm_state → Prop) s :
  mem K h s → h !! l = Some r → ext r = Prod p → Q p s → wp (get_prod l) Q s.
Proof.
  intros Hm Hl He HQ. unfold get_prod. wp_steps. eapply wp_get_res; [done..|].
  rewrite He. by wp_steps.
Qed.

Lemma wp_upd_cons h l r c f (Q : _ → rm_state → Prop) s :
  mem K h s → h !! l = Some r → ext r = Cons c →
  (∀ s', mem K (<[l := with_ext (Cons (f c)) r]> h) s' → Q () s') →
  wp (upd_cons l f) Q s.
Proof.
  intros Hm Hl He HQ. unfold upd_cons. wp_steps. eapply wp_get_cons; [done..|].
  by eapply wp_upd_res.
Qed.

Lemma wp_upd_prod h l r p f (Q : _ → rm_state → Prop) s :
  mem K h s → h !! l = Some r → ext r = Prod p →
  (∀ s', mem K (<[l := with_ext (Prod (f p)) r]> h) s' → Q () s') →
  wp (upd_prod l f) Q s.
Proof.
  intros Hm Hl He HQ. unfold upd_prod. wp_steps. eapply wp_get_prod; [done..|].
  by eapply wp_upd_res.
Qed.

Lemma wp_get_peers h l r pl (Q : _ → rm_state → Prop) s :
  mem K h s → h !! l = Some r → peers_list r = Some pl → Q pl s → wp (get_peers l) Q s.
Proof.
  intros Hm Hl Hp HQ. unfold get_peers. wp_steps. eapply wp_get_res; [done..|].
  by eapply wp_of_option.
Qed.
End deref.

(** ** Calls out of the module and deferred work *)

(** [quietly m φ]: [m] leaves the memory as it is, and its result satisfies [φ]. *)
Definition quietly {A} (m : RM A) (φ : A → Prop) (K : control) (h : rheap) : Prop :=
  ∀ s, mem K h s → wp m (λ a s', mem K h s' ∧ φ a) s.

Section quiet.
Context (E : rm_env) (K : control) (h : rheap).

Lemma mem_log e s : mem K h s → mem K h (set_hist (e :: hist s) s).
Proof. intros (c & -> & ?). by exists c. Qed.

Lemma quietly_log e : quietly (log_effect e) (λ _, True) K h.
Proof. intros s Hs. unfold log_effect. wp_steps. by split; [apply mem_log|]. Qed.

Lemma quietly_mono {A} (m : RM A) (φ ψ : A → Prop) :
  quietly m φ K h → (∀ a, φ a → ψ a) → quietly m ψ K h.
Proof.
  intros H1 H2 s Hs. eapply wp_mono; [by apply H1|]. intros a s' [? ?]. auto.
Qed.

Lemma quietly_ret {A} (a : A) (φ : A → Prop) : φ a → quietly (mret a) φ K h.
Proof. intros Ha s Hs. apply wp_ret. auto. Qed.

Lemma quietly_bind {A B} (m : RM A) φ (k : A → RM B) ψ :
  quietly m φ K h → (∀ a, φ a → quietly (k a) ψ K h) → quietly (m ≫= k) ψ K h.
Proof.
  intros Hm Hk s Hs. apply wp_bind. eapply wp_mono; [by apply Hm|].
  intros a s' [Hs' Ha]. by apply Hk.
Qed.

(** The same as a rule: a quiet operation, then the rest. *)
Lemma wp_quietly {A B} (m : RM A) φ (k : A → RM B) (Q : B → rm_state → Prop) s :
  quietly m φ K h → mem K h s →
  (∀ a s', mem K h s' → φ a → wp (k a) Q s') → wp (m ≫= k) Q s.
Proof.
  intros Hm Hs Hk. apply wp_bind. eapply wp_mono; [by apply Hm|].
  intros a s' [Hs' Ha]. by apply Hk.
Qed.

Lemma quietly_logged {A} e (f : rm_state → A) (φ : A → Prop) :
  (∀ s, φ (f s)) →
  quietly (s ← get; log_effect e ;; mret (f s)) φ K h.
Proof. intros Hf s Hs. unfold log_effect. wp_steps. split; [by apply mem_log|auto]. Qed.

Lemma quietly_call_driver fn :
  quietly (call_driver E (Some fn)) (λ v, ∃ hi, v = env_call E hi fn) K h.
Proof. apply (quietly_logged _ (λ s, env_call E (hist s) fn)). eauto. Qed.

Lemma quietly_call_notify cb ud ev :
  cb ≠ None → quietly (call_notify cb ud ev) (λ _, True) K h.
Proof. destruct cb; [|done]. intros _. apply quietly_log. Qed.

Lemma quietly_kzalloc : quietly (kzalloc E) (λ _, True) K h.
Proof. by apply (quietly_logged _ (λ s, env_kzalloc E (hist s))). Qed.

Lemma quietly_inc_clk n : quietly (inc_client_enable_clks_no_block E n) (λ _, True) K h.
Proof. by apply (quietly_logged _ (λ s, env_inc_clk_no_block E (hist s) n)). Qed.

Lemma quietly_suspend n : quietly (ipa_suspend_resource_no_block E n) (λ _, True) K h.
Proof. by apply (quietly_logged _ (λ s, env_suspend_no_block E (hist s) n)). Qed.

Lemma quietly_queue_work w : work_ok w → quietly (queue_work w) (λ _, True) K h.
Proof.
  intros Hw s Hs. unfold queue_work. wp_steps. eapply wp_get_ctx; [done|]. intros c _ Hc Ht.
  eapply wp_put_ctx; [done|destruct Hc as (? & ? & ? & ?); split_and!; [done..|]; apply Forall_app; auto|]. simpl. rewrite Ht. destruct K. by split.
Qed.

Lemma quietly_alloc_and_queue w : work_ok w → quietly (alloc_and_queue E w) (λ _, True) K h.
Proof.
  intros Hw.
  eapply quietly_bind; [apply quietly_kzalloc|]. intros [] _; [|by apply quietly_ret].
  eapply quietly_bind; [by apply quietly_queue_work|]. intros [] _. by apply quietly_ret.
Qed.
End quiet.

Create HintDb quiet.
#[export] Hint Resolve quietly_log quietly_call_driver quietly_call_notify quietly_kzalloc
  quietly_inc_clk quietly_suspend quietly_queue_work quietly_alloc_and_queue : quiet.

(** ** Names and the table *)

Definition valid_name (n : ipa_rm_resource_name) : bool :=
  negb (index_out_of_table (ipa_rm_dep_get_index n)).

Lemma dep_get_index_cases n :
  (ipa_rm_dep_get_index n = -1 ∧ valid_name n = false) ∨
  (ipa_rm_dep_get_index n = Z.of_nat n ∧ valid_name n = true ∧ (n < IPA_RM_RESOURCE_MAX)%nat).
Proof.
  do 22 (destruct n as [|n]; [vm_compute; auto with lia|]). left. done.
Qed.

Lemma valid_name_index n :
  valid_name n = true →
  ipa_rm_dep_get_index n = Z.of_nat n ∧ (n < IPA_RM_RESOURCE_MAX)%nat.
Proof. destruct (dep_get_index_cases n) as [[? ?]|(? & ? & ?)]; [congruence|done]. Qed.

(** The peers lists use the same index as the table. *)
Lemma peers_index_eq n : ipa_rm_peers_list_get_resource_index n = ipa_rm_dep_get_index n.
Proof. done. Qed.

Lemma is_prod_lt n : IPA_RM_RESORCE_IS_PROD n = true → (n < IPA_RM_RESOURCE_MAX)%nat.
Proof. unfold IPA_RM_RESORCE_IS_PROD. intros [?%Nat.ltb_lt _]%andb_prop. done. Qed.

(** Every producer name has an index; the consumer names do but for the reserved ones. *)
Lemma prod_valid n : IPA_RM_RESORCE_IS_PROD n = true → valid_name n = true.
Proof.
  intros H. pose proof (is_prod_lt _ H) as Hlt. unfold IPA_RM_RESOURCE_MAX in Hlt.
  do 22 (destruct n as [|n]; [by revert H; vm_compute|]). lia.
Qed.

Lemma prod_cons_excl n :
  IPA_RM_RESORCE_IS_PROD n = true → IPA_RM_RESORCE_IS_CONS n = false.
Proof.
  unfold IPA_RM_RESORCE_IS_PROD, IPA_RM_RESORCE_IS_CONS.
  intros [-> ->%Nat.eqb_eq]%andb_prop. done.
Qed.

(** What the table holds for a name. *)
Definition resolve (t : list (option loc)) (n : ipa_rm_resource_name) : option loc :=
  if valid_name n then mjoin (t !! n) else None.

Lemma resolve_Some t n l :
  resolve t n = Some l → valid_name n = true ∧ t !! n = Some (Some l).
Proof.
  unfold resolve. destruct (valid_name n); [|done].
  destruct (t !! n) as [[?|]|]; simpl; intros; by simplify_eq.
Qed.

Lemma wp_get_resource K h n (Q : _ → rm_state → Prop) s :
  mem K h s →
  Q (match resolve (k_table K) n with Some _ => 0 | None => - EINVAL end,
     resolve (k_table K) n) s →
  wp (ipa_rm_dep_graph_get_resource n) Q s.
Proof.
  intros Hm. pose proof (mem_table_length _ _ _ Hm) as Hlen. unfold resolve, valid_name.
  intros HQ. unfold ipa_rm_dep_graph_get_resource. wp_steps. eapply wp_get_ctx; [done|].
  intros c _ _ ->.
  destruct (index_out_of_table _) eqn:Hi; simpl in HQ; [by apply wp_ret|].
  destruct (valid_name_index n) as [-> Hlt]; [by unfold valid_name; rewrite Hi|].
  rewrite lookup_z_nat.
  destruct (k_table K !! n) as [o|] eqn:Ho.
  - wp_steps. by destruct o; apply wp_ret.
  - apply lookup_ge_None in Ho. lia.
Qed.

(** The table points to live resources. *)
Definition table_live (K : control) (h : rheap) : Prop :=
  ∀ n l, k_table K !! n = Some (Some l) → is_Some (h !! l).

Lemma table_live_insert K h l r : table_live K h → table_live K (<[l := r]> h).
Proof. intros H n l' Hn. apply lookup_insert_is_Some'. right. eauto. Qed.

Lemma table_live_dom K h h' : dom h' = dom h → table_live K h → table_live K h'.
Proof.
  intros Hd H n l Hn. apply (elem_of_dom (D := gset loc)). rewrite Hd. apply elem_of_dom. eauto.
Qed.
#[export] Hint Resolve table_live_insert : quiet.

(** ** The performance vote only changes the votes and the queue *)

Lemma quietly_perf_profile_change E K h n :
  table_live K h → quietly (ipa_rm_perf_profile_change E n) (λ _, True) K h.
Proof.
  intros Ht s Hs. unfold ipa_rm_perf_profile_change. wp_steps.
  eapply wp_get_resource; [done|]. cbn beta iota.
  destruct (resolve (k_table K) n) as [l|] eqn:Hn; [|by apply wp_ret].
  apply resolve_Some in Hn as [Hv Hn].
  destruct (valid_name_index n Hv) as [_ Hlt]. destruct (Ht n l Hn) as [r Hr].
  wp_steps. eapply wp_get_ctx; [done|]. intros c _ Hc Htab. destruct Hc as (Hl1 & Hl2 & Hl3).
  wp_steps. eapply wp_get_res; [done..|].
  set (vb := match state r with IPA_RM_GRANTED | IPA_RM_REQUEST_IN_PROGRESS => _ | _ => _ end).
  destruct vb as [bw v]. wp_steps.
  eapply wp_of_option; [apply store_z_nat; lia|]. wp_steps.
  eapply wp_of_option; [apply store_z_nat; lia|]. wp_steps.
  eapply wp_put_ctx; [done| |].
  { unfold ctx_sized; simpl. by rewrite !length_insert. }
  intros s' Hs'. cbn [resource_table] in Hs'. rewrite Htab in Hs'. destruct K as [t nx d].
  case_match; [by apply wp_ret|].
  unfold ipa_rm_perf_profile_notify_to_ipa.
  eapply wp_quietly; [apply quietly_kzalloc|exact Hs'|]. intros ok s2 Hs2 _.
  apply wp_when; [intros _; by apply quietly_queue_work|done].
Qed.
#[export] Hint Resolve quietly_perf_profile_change : quiet.

(** ** Symbolic execution *)

Lemma wp_quiet {A} (m : RM A) φ K h (Q : A → rm_state → Prop) s :
  mem K h s → quietly m φ K h →
  (∀ a s', mem K h s' → φ a → Q a s') → wp m Q s.
Proof. intros Hs Hm HQ. eapply wp_mono; [by apply Hm|]. intros a s' [? ?]. auto. Qed.

(** Look a location up in a heap that was updated. *)
Ltac lk :=
  lazymatch goal with
  | |- <[?l := _]> _ !! ?l = Some _ => apply lookup_insert_eq
  | |- <[_ := _]> _ !! _ = Some _ => rewrite lookup_insert_ne by congruence; lk
  | |- _ => eassumption
  end.

(** Decide the tests between closed integers. *)
Ltac ztests :=
  repeat match goal with
  | |- context [?a =? ?b] =>
      let v := eval vm_compute in (a =? b) in
      lazymatch v with
      | true => change (a =? b) with true
      | false => change (a =? b) with false
      end
  end; cbn beta iota zeta delta [negb andb orb when].

(** One step of a goal about the resource manager; stops at a [match] of the code. *)
Ltac rm_step :=
  cbn beta iota zeta;
  lazymatch goal with
  | |- wp (mbind _ _) _ _ => apply wp_bind
  | |- wp (mret _) _ _ => apply wp_ret
  | |- wp (when _ _) _ _ => fail
  | |- wp (get_res _) _ _ => eapply wp_get_res; [eassumption|lk|]
  | |- wp (upd_res _ _) _ _ => eapply wp_upd_res; [eassumption|lk|intros ? ?]
  | |- wp (set_state _ _) _ _ => unfold set_state
  | |- wp (add_needed_bw _ _) _ _ => unfold add_needed_bw
  | |- wp (get_cons _) _ _ => eapply wp_get_cons; [eassumption|lk|cbn; eassumption || reflexivity|]
  | |- wp (upd_cons _ _) _ _ =>
      eapply wp_upd_cons; [eassumption|lk|cbn; eassumption || reflexivity|intros ? ?]
  | |- wp (get_prod _) _ _ => eapply wp_get_prod; [eassumption|lk|cbn; eassumption || reflexivity|]
  | |- wp (upd_prod _ _) _ _ =>
      eapply wp_upd_prod; [eassumption|lk|cbn; eassumption || reflexivity|intros ? ?]
  | |- wp (get_peers _) _ _ => eapply wp_get_peers; [eassumption|lk|cbn; eassumption|]
  | |- wp (call_driver _ _) _ _ =>
      eapply wp_quiet; [eassumption|apply quietly_call_driver|intros ? ? ? ?]
  | |- wp (ipa_resume_resource _) _ _ =>
      eapply wp_quiet; [eassumption|apply quietly_log|intros ? ? ? ?]
  | |- wp (ipa_rm_wq_send_cmd _ _ _ _ _) _ _ =>
      eapply wp_quiet; [eassumption|apply quietly_alloc_and_queue; exact I|intros ? ? ? ?]
  | |- wp (ipa_rm_wq_send_resume_cmd _ _ _ _ _) _ _ =>
      eapply wp_quiet; [eassumption|apply quietly_alloc_and_queue; exact I|intros ? ? ? ?]
  | |- wp (ipa_rm_wq_send_suspend_cmd _ _ _ _) _ _ =>
      eapply wp_quiet; [eassumption|apply quietly_alloc_and_queue; exact I|intros ? ? ? ?]
  | |- wp (ipa_rm_perf_profile_change _ _) _ _ =>
      eapply wp_quiet;
        [eassumption|apply quietly_perf_profile_change; solve [eauto 10 with quiet]
        |intros ? ? ? ?]
  | |- wp _ _ _ =>
      eapply wp_quiet; [eassumption|solve [eauto with quiet]|intros ? ? ? ?]
  end.

Ltac rm_steps := repeat rm_step.

(** * IPA resource manager: requests and releases of a consumer *)

(** What no request or release changes in a resource: everything but its state, its
    bandwidth, its usage count, its completion and its pending counts. *)
Definition static_ext (e : resource_ext) :
    (fnptr * fnptr) + list ipa_rm_notification_info :=
  match e with
  | Cons c => inl (request_resource c, release_resource c)
  | Prod p => inr (event_listeners p)
  end.

Record static := mkStatic {
  st_name : ipa_rm_resource_name;
  st_type : ipa_rm_resource_type;
  st_floor : Z;
  st_max_bw : Z;
  st_peers : option ipa_rm_peers_list;
  st_ext : (fnptr * fnptr) + list ipa_rm_notification_info;
}.

Definition static_of (r : ipa_rm_resource) : static :=
  mkStatic (name r) (type r) (floor_voltage r) (max_bw r) (peers_list r) (static_ext (ext r)).

(** An error of the driver, as opposed to success or to a pending completion. *)
Definition driver_error (E : rm_env) (v : Z) : Prop :=
  v ≠ 0 ∧ v ≠ - EINPROGRESS ∧ ∃ hi fn, env_call E hi fn = v.

(** [cons_change h c r k h' r' k']: [h'] is [h] with the consumer [c] changed from
    [(r, k)] to [(r', k')]. *)
Definition cons_change (h : rheap) (c : loc) (r : ipa_rm_resource) (k : resource_cons)
    (h' : rheap) (r' : ipa_rm_resource) (k' : resource_cons) : Prop :=
  h' = <[c := r']> h ∧ ext r' = Cons k' ∧ static_of r' = static_of r.

Definition b2z (b : bool) : Z := if b then 1 else 0.

(** Out of use, as far as the state tells. *)
Definition idle (r : ipa_rm_resource) : Prop :=
  state r = IPA_RM_RELEASED ∨ state r = IPA_RM_RELEASE_IN_PROGRESS.

(** The outcome of a request: granted, pending or refused. *)
Definition request_outcome (E : rm_env) (w : Z) (inc wake : bool) (r : ipa_rm_resource)
    (k : resource_cons) (res : Z) (r' : ipa_rm_resource) (k' : resource_cons) : Prop :=
  match state r with
  | IPA_RM_REQUEST_IN_PROGRESS => res = - EINPROGRESS ∧ state r' = IPA_RM_REQUEST_IN_PROGRESS
  | IPA_RM_GRANTED => state r' = IPA_RM_GRANTED ∧ (wake = false → res = 0)
  | IPA_RM_RELEASED | IPA_RM_RELEASE_IN_PROGRESS => True
  end ∧
  ((res = 0 ∧ state r' = IPA_RM_GRANTED ∧ needed_bw r' = u32 (needed_bw r + w) ∧
     usage_count k' = usage_count k + b2z inc) ∨
  (res = - EINPROGRESS ∧
     (state r' = IPA_RM_REQUEST_IN_PROGRESS ∨
      (wake = true ∧ state r = IPA_RM_GRANTED ∧ state r' = IPA_RM_GRANTED)) ∧
     needed_bw r' = u32 (needed_bw r + w) ∧ usage_count k' = usage_count k + b2z inc) ∨
  (driver_error E res ∧ state r' = state r ∧
     needed_bw r' = u32 (needed_bw r) ∧ usage_count k' = usage_count k)).

(** The outcome of a release. *)
Definition release_outcome (E : rm_env) (w : Z) (dec : bool) (r : ipa_rm_resource)
    (k : resource_cons) (res : Z) (r' : ipa_rm_resource) (k' : resource_cons) : Prop :=
  needed_bw r' = u32 (needed_bw r - w) ∧
  usage_count k' =
    match state r with
    | IPA_RM_RELEASED => usage_count k
    | _ => if dec && (0 <? usage_count k) then usage_count k - 1 else usage_count k
    end ∧
  match state r with
  | IPA_RM_RELEASED => state r' = IPA_RM_RELEASED ∧ res = 0
  | IPA_RM_RELEASE_IN_PROGRESS => state r' = IPA_RM_RELEASE_IN_PROGRESS ∧ res = - EINPROGRESS
  | IPA_RM_GRANTED | IPA_RM_REQUEST_IN_PROGRESS =>
      if usage_count k' =? 0 then
        (state r' = IPA_RM_RELEASED ∧ res = 0) ∨
        (state r' = IPA_RM_RELEASE_IN_PROGRESS ∧ res = - EINPROGRESS) ∨
        (state r' = state r ∧ driver_error E res)
      else state r' = state r ∧ res = 0
  end.

Section Consumer.
Context (E : rm_env) (K : control).
Implicit Types (r : ipa_rm_resource) (k : resource_cons) (h : rheap).

Definition callbacks_set (k : resource_cons) : Prop :=
  request_resource k ≠ None ∧ release_resource k ≠ None.

Lemma wp_call_driver f h (Q : Z → rm_state → Prop) s :
  f ≠ None → mem K h s →
  (∀ v s', mem K h s' → (v = 0 ∨ v = - EINPROGRESS ∨ driver_error E v) → Q v s') →
  wp (call_driver E f) Q s.
Proof.
  destruct f as [fn|]; [|done]. intros _ Hs HQ.
  eapply wp_quiet; [done|apply quietly_call_driver|]. intros v s' Hs' [hi ->].
  apply HQ; [done|]. destruct (decide (env_call E hi fn = 0)); [by left|].
  destruct (decide (env_call E hi fn = - EINPROGRESS)); [by right; left|].
  right; right. unfold driver_error. eauto.
Qed.

(** The driver's answer to a request, without notification. *)
Lemma wp_request_work_sync c r k prev w dec h s :
  mem K h s → table_live K h → h !! c = Some r → ext r = Cons k → callbacks_set k →
  wp (ipa_rm_resource_consumer_request_work E c prev w false dec)
    (λ res s', ∃ h' r' k', mem K h' s' ∧ cons_change h c r k h' r' k' ∧
       ((res = 0 ∧ state r' = IPA_RM_GRANTED ∧ needed_bw r' = needed_bw r ∧
           usage_count k' = usage_count k) ∨
        (res = - EINPROGRESS ∧ state r' = state r ∧ needed_bw r' = needed_bw r ∧
           usage_count k' = usage_count k) ∨
        (driver_error E res ∧ state r' = prev ∧ needed_bw r' = u32 (needed_bw r - w) ∧
           usage_count k' = usage_count k - b2z dec))) s.
Proof.
  intros Hs Ht Hc Hk [Hreq _]. unfold ipa_rm_resource_consumer_request_work.
  rm_steps. eapply wp_call_driver; [done..|]. intros v s1 Hs1 Hv.
  rm_step. destruct Hv as [-> | [-> | Hv]].
  - ztests. rm_steps. do 3 eexists. split; [eassumption|].
    split; [by split_and!|]. left. by split_and!.
  - ztests. rm_steps. exists h, r, k. split; [done|].
    split; [split_and!; [by rewrite insert_id|done..]|]. right; left. by split_and!.
  - pose proof Hv as (H0 & H1 & _). rewrite (proj2 (Z.eqb_neq _ _) H0).
    rewrite (proj2 (Z.eqb_neq _ _) H1). cbn [negb].
    rm_steps. apply wp_when; intros ->.
    + rm_steps. do 3 eexists. split; [eassumption|]. unfold cons_change.
      rewrite !insert_insert_eq. split; [split_and!; [done..|]|].
      { unfold static_of; cbn. by rewrite Hk. }
      right; right. cbn. split_and!; [done..|lia].
    + rm_steps. do 3 eexists. split; [eassumption|]. unfold cons_change.
      rewrite !insert_insert_eq. split; [by split_and!|].
      right; right. cbn. split_and!; [done..|lia].
Qed.
(** What a release of the consumer does once its usage count is zero. *)
Lemma wp_release_work_sync c r k prev h s :
  mem K h s → table_live K h → h !! c = Some r → ext r = Cons k → callbacks_set k →
  wp (ipa_rm_resource_consumer_release_work E c prev false)
    (λ res s', ∃ h' r' k', mem K h' s' ∧ cons_change h c r k h' r' k' ∧
       needed_bw r' = needed_bw r ∧ usage_count k' = usage_count k ∧
       ((res = 0 ∧ state r' = IPA_RM_RELEASED) ∨ (driver_error E res ∧ state r' = prev))) s.
Proof.
  intros Hs Ht Hc Hk [_ Hrel]. unfold ipa_rm_resource_consumer_release_work.
  rm_steps. eapply wp_call_driver; [done..|]. intros v s1 Hs1 Hv. cbn beta.
  assert (v = 0 ∨ v = - EINPROGRESS ∨ driver_error E v) as [Hok|[Hok|Herr]] by done;
    [rewrite Hok|rewrite Hok|].
  1,2: ztests; rm_steps; do 3 eexists; split; [eassumption|];
    unfold cons_change; rewrite insert_insert_eq; cbn; split_and!; eauto;
    unfold static_of; cbn; by rewrite Hk.
  pose proof Herr as (H0 & H1 & _).
  apply Z.eqb_neq in H0, H1. rewrite H1. cbn iota zeta. rewrite H0, H1. ztests. rm_steps.
  exists (<[c := with_state prev r]> h), (with_state prev r), k.
  split; [done|]. split; [by split_and!|]. split_and!; [done..|]. right. by split.
Qed.

(** The changes of one consumer compose. *)
Lemma cons_change_refl h c r k : h !! c = Some r → ext r = Cons k → cons_change h c r k h r k.
Proof. intros. split_and!; [by rewrite insert_id|done..]. Qed.

Lemma cons_change_upd h c r k h1 r1 k1 r2 k2 :
  cons_change h c r k h1 r1 k1 → ext r2 = Cons k2 → static_of r2 = static_of r1 →
  cons_change h c r k (<[c := r2]> h1) r2 k2.
Proof.
  intros (-> & ? & Hst) ? Hst2. split_and!; [by rewrite insert_insert_eq|done|congruence].
Qed.

Lemma cons_change_lookup h c r k h1 r1 k1 :
  cons_change h c r k h1 r1 k1 → h1 !! c = Some r1 ∧ ext r1 = Cons k1.
Proof. intros (-> & ? & _). by rewrite lookup_insert_eq. Qed.

Lemma static_same_ext r k k' :
  ext r = Cons k → request_resource k' = request_resource k →
  release_resource k' = release_resource k → static_of (with_ext (Cons k') r) = static_of r.
Proof. intros Hk H1 H2. unfold static_of. cbn. rewrite Hk. cbn. by rewrite H1, H2. Qed.

Lemma callbacks_set_static h c r k h1 r1 k1 :
  ext r = Cons k → cons_change h c r k h1 r1 k1 → callbacks_set k → callbacks_set k1.
Proof.
  intros Hk (_ & Hk1 & Hst). unfold static_of in Hst. rewrite Hk, Hk1 in Hst. cbn in Hst.
  injection Hst as _ _ _ _ _ H1 H2. unfold callbacks_set. by rewrite H1, H2.
Qed.

(** The last step of a request, the increment of the usage count. *)
Definition count_request (c : loc) (inc : bool) : RM () :=
  when inc (k ← get_cons c; upd_cons c (with_usage_count (usage_count k + 1))).

Lemma wp_request_finish c r k w (inc wake : bool) h h1 r1 k1 res s :
  mem K h1 s → ext r = Cons k → cons_change h c r k h1 r1 k1 →
  request_outcome E w inc wake r k res r1 (with_usage_count (usage_count k1 + b2z inc) k1) →
  wp (count_request c inc)
    (λ _ s', ∃ h' r' k', mem K h' s' ∧ cons_change h c r k h' r' k' ∧
       request_outcome E w inc wake r k res r' k') s.
Proof.
  intros Hs Hk Hch Hout. destruct (cons_change_lookup _ _ _ _ _ _ _ Hch) as [Hc1 Hk1].
  unfold count_request. apply wp_when; intros ->; rm_steps.
  - set (k2 := with_usage_count (usage_count k1 + 1) k1) in *.
    exists (<[c := with_ext (Cons k2) r1]> h1), (with_ext (Cons k2) r1), k2.
    split; [done|]. split; [|exact Hout].
    eapply (cons_change_upd _ _ _ _ h1 r1 k1); [done|done|]. by apply (static_same_ext r1 k1).
  - exists h1, r1, k1. split; [done|]. split; [done|].
    unfold request_outcome in *. cbn in *. by rewrite !Z.add_0_r in *.
Qed.

(** The synchronous call of the driver in the switch of a request, and what follows. *)
Lemma wp_request_sync c r k w (inc wake : bool) h h1 r1 k1 s :
  mem K h1 s → table_live K h1 → ext r = Cons k → cons_change h c r k h1 r1 k1 →
  callbacks_set k → needed_bw r1 = u32 (needed_bw r + w) → usage_count k1 = usage_count k →
  (idle r ∧ state r1 = IPA_RM_REQUEST_IN_PROGRESS ∨
   wake = true ∧ state r = IPA_RM_GRANTED ∧ state r1 = IPA_RM_GRANTED) →
  wp (ipa_rm_resource_consumer_request_work E c (state r) w false inc)
    (λ res s', wp (count_request c inc)
      (λ _ s', ∃ h' r' k', mem K h' s' ∧ cons_change h c r k h' r' k' ∧
         request_outcome E w inc wake r k res r' k') s') s.
Proof.
  intros Hs Ht Hk Hch Hcb Hbw Hu Hst.
  destruct (cons_change_lookup _ _ _ _ _ _ _ Hch) as [Hc1 Hk1].
  eapply wp_mono; [apply (wp_request_work_sync c r1 k1); try done|].
  { by apply (callbacks_set_static h c r k h1 r1 k1). }
  cbn beta. intros res s' (h2 & r2 & k2 & Hs' & Hch2 & Hout).
  eapply (wp_request_finish c r k w inc wake h h2 r2 k2); [done..| |].
  - destruct Hch as (-> & _ & HS), Hch2 as (-> & ? & HS2).
    split_and!; [by rewrite insert_insert_eq|done|congruence].
  - assert (match state r with
      | IPA_RM_REQUEST_IN_PROGRESS => res = - EINPROGRESS ∧ state r2 = IPA_RM_REQUEST_IN_PROGRESS
      | IPA_RM_GRANTED => state r2 = IPA_RM_GRANTED ∧ (wake = false → res = 0)
      | IPA_RM_RELEASED | IPA_RM_RELEASE_IN_PROGRESS => True
      end) as Hguard.
    { destruct Hst as [[[-> | ->] _]|(-> & Hst & Hst1)]; [done..|]. rewrite Hst in Hout |- *.
      split; [|done].
      destruct Hout as [(_ & ? & _)|[(_ & ? & _)|(_ & ? & _)]]; congruence. }
    unfold request_outcome. cbn. split; [exact Hguard|].
    destruct Hout as [(-> & ? & H2 & H3)|[(-> & H1 & H2 & H3)|(? & ? & H2 & H3)]].
    + left. rewrite H2, H3, Hu. by split_and!.
    + right; left. rewrite H1, H2, H3, Hu. split_and!; [done| |done|done]. destruct Hst as [[_ ?]|?]; auto.
    + right; right. rewrite H2, H3, Hu, Hbw. split_and!; [done..| |lia]. u32_eq.
Qed.

(** A request that finds the consumer unused: the completion is reset, and the driver
    is called now or by the work queue. *)
Definition request_start (c : loc) (r : ipa_rm_resource) (w : Z) (inc : bool) : RM Z :=
  upd_cons c (with_completion false) ;;
  set_state c IPA_RM_REQUEST_IN_PROGRESS ;;
  async ← (if bool_decide (state r = IPA_RM_RELEASE_IN_PROGRESS) then mret true
           else ret ← inc_client_enable_clks_no_block E (name r);
                mret (negb (ret =? 0)));
  if async : bool then
    ipa_rm_wq_send_resume_cmd E (name r) (state r) w inc ;; mret (- EINPROGRESS)
  else ipa_rm_resource_consumer_request_work E c (state r) w false inc.

Lemma wp_request_start c r k w (inc wake : bool) h h1 r1 k1 s :
  mem K h1 s → table_live K h1 → ext r = Cons k → cons_change h c r k h1 r1 k1 →
  callbacks_set k → needed_bw r1 = u32 (needed_bw r + w) → usage_count k1 = usage_count k →
  idle r →
  wp (request_start c r w inc)
    (λ res s', wp (count_request c inc)
      (λ _ s', ∃ h' r' k', mem K h' s' ∧ cons_change h c r k h' r' k' ∧
         request_outcome E w inc wake r k res r' k') s') s.
Proof.
  intros Hs Ht Hk Hch Hcb Hbw Hu Hidle. unfold request_start.
  destruct (cons_change_lookup _ _ _ _ _ _ _ Hch) as [Hc1 Hk1]. rm_steps.
  match goal with H : mem K ?h2 _ |- _ =>
    lazymatch h2 with <[c := with_state _ _]> _ => rename H into Hs2; set (h3 := h2) in Hs2 end end.
  assert (cons_change h c r k h3 (with_state IPA_RM_REQUEST_IN_PROGRESS
            (with_ext (Cons (with_completion false k1)) r1)) (with_completion false k1)) as Hch3.
  { subst h3. rewrite insert_insert_eq. eapply cons_change_upd; [done|done|].
    by apply (static_same_ext r1 k1). }
  assert (table_live K h3) by (subst h3; eauto with quiet).
  eapply (wp_quiet _ (λ _, True)); [done| |].
  { case_match; [by apply quietly_ret|].
    eapply quietly_bind; [apply quietly_inc_clk|]. intros; by apply quietly_ret. }
  intros [] s2 Hs3 _.
  - rm_steps. eapply wp_request_finish; [done..|]. split; [by destruct Hidle as [-> | ->]|].
    right; left. cbn. rewrite Hu. auto 6.
  - eapply wp_request_sync; try done. by left.
Qed.

Lemma wp_consumer_request c r k w inc wake h s :
  mem K h s → table_live K h → h !! c = Some r → ext r = Cons k → callbacks_set k →
  wp (ipa_rm_resource_consumer_request E c w inc wake)
    (λ res s', ∃ h' r' k', mem K h' s' ∧ cons_change h c r k h' r' k' ∧
       request_outcome E w inc wake r k res r' k') s.
Proof.
  intros Hs Ht Hc Hk Hcb. unfold ipa_rm_resource_consumer_request. rm_steps.
  set (r1 := with_needed_bw _ r) in *.
  assert (cons_change h c r k (<[c := r1]> h) r1 k) as Hch by by split_and!.
  assert (table_live K (<[c := r1]> h)) by eauto with quiet.
  pose proof (wp_request_start c r k w inc wake h _ r1 k s' H ltac:(done) Hk Hch Hcb eq_refl eq_refl)
    as Hstart. unfold idle, request_start in Hstart.
  eapply wp_mono; [|intros res s1 Hend; apply wp_bind; exact Hend].
  destruct (state r) eqn:Est; [apply Hstart; auto| | |apply Hstart; auto].
  - rm_steps. eapply wp_request_finish; [done..|]. split; [by rewrite Est|].
    right; left. split_and!; auto.
  - destruct wake.
    + rewrite <- Est. eapply wp_request_sync; try done. right. by rewrite Est.
    + rm_steps. eapply wp_request_finish; [done..|].
      split; [by rewrite Est|]. left. by split_and!.
Qed.

(** [dec_usage] decrements a positive count when asked to. *)
Definition dec_count (dec : bool) (u : Z) : Z := if dec && (0 <? u) then u - 1 else u.

Lemma wp_dec_usage c r k dec h s :
  mem K h s → h !! c = Some r → ext r = Cons k →
  wp (dec_usage c dec)
    (λ _ s', ∃ h' r' k', mem K h' s' ∧ cons_change h c r k h' r' k' ∧
       state r' = state r ∧ needed_bw r' = needed_bw r ∧
       usage_count k' = dec_count dec (usage_count k)) s.
Proof.
  intros Hs Hc Hk. unfold dec_usage, dec_count. rm_steps. apply wp_when; intros ->; rm_steps.
  - set (k1 := with_usage_count (usage_count k - 1) k) in *.
    exists (<[c := with_ext (Cons k1) r]> h), (with_ext (Cons k1) r), k1.
    split; [done|]. split; [|done]. split_and!; [done|done|]. by apply (static_same_ext r k).
  - exists h, r, k. split; [done|]. split; [|done]. by apply cons_change_refl.
Qed.

Lemma cons_change_trans h c r k h1 r1 k1 h2 r2 k2 :
  cons_change h c r k h1 r1 k1 → cons_change h1 c r1 k1 h2 r2 k2 → cons_change h c r k h2 r2 k2.
Proof.
  intros (-> & _ & ?) (-> & ? & ?).
  split_and!; [by rewrite insert_insert_eq|done|congruence].
Qed.

(** The end of a release that has to give the consumer back: suspend, now or later. *)
Lemma wp_release_start c r k w h h1 r1 k1 s :
  mem K h1 s → table_live K h1 → ext r = Cons k → cons_change h c r k h1 r1 k1 →
  callbacks_set k →
  wp (set_state c IPA_RM_RELEASE_IN_PROGRESS ;;
      async ← (if bool_decide (state r = IPA_RM_REQUEST_IN_PROGRESS) then mret true
               else ret ← ipa_suspend_resource_no_block E (name r); mret (negb (ret =? 0)));
      if async : bool then
        ipa_rm_wq_send_suspend_cmd E (name r) (state r) w ;; mret (- EINPROGRESS)
      else ipa_rm_resource_consumer_release_work E c (state r) false)
    (λ res s', ∃ h' r' k', mem K h' s' ∧ cons_change h c r k h' r' k' ∧
       needed_bw r' = needed_bw r1 ∧ usage_count k' = usage_count k1 ∧
       ((state r' = IPA_RM_RELEASED ∧ res = 0) ∨
        (state r' = IPA_RM_RELEASE_IN_PROGRESS ∧ res = - EINPROGRESS) ∨
        (state r' = state r ∧ driver_error E res))) s.
Proof.
  intros Hs Ht Hk Hch Hcb. destruct (cons_change_lookup _ _ _ _ _ _ _ Hch) as [Hc1 Hk1].
  rm_steps. set (r2 := with_state IPA_RM_RELEASE_IN_PROGRESS r1) in *.
  assert (cons_change h c r k (<[c := r2]> h1) r2 k1) as Hch2.
  { by eapply cons_change_upd. }
  eapply (wp_quiet _ (λ _, True)); [done| |].
  { case_match; [by apply quietly_ret|].
    eapply quietly_bind; [apply quietly_suspend|]. intros; by apply quietly_ret. }
  intros [] s2 Hs2 _.
  - rm_steps. exists (<[c := r2]> h1), r2, k1. split_and!; auto.
  - eapply wp_mono; [apply (wp_release_work_sync c r2 k1); [done| |by simplify_map_eq|done|]|].
    { eauto with quiet. }
    { by apply (callbacks_set_static h c r k h1 r1 k1). }
    cbn beta. intros res s3 (h3 & r3 & k3 & Hs3 & Hch3 & Hbw & Hu & Hout).
    exists h3, r3, k3. split; [done|]. split; [by eapply cons_change_trans|].
    split_and!; [done..|]. destruct Hout as [[-> ?]|[? ?]]; auto.
Qed.

(** The branch of a release for a consumer in use. *)
Definition release_in_use (c : loc) (r : ipa_rm_resource) (w : Z) (dec : bool) : RM Z :=
  dec_usage c dec ;;
  consumer ← get_cons c;
  if usage_count consumer =? 0 then
    set_state c IPA_RM_RELEASE_IN_PROGRESS ;;
    async ← (if bool_decide (state r = IPA_RM_REQUEST_IN_PROGRESS) then mret true
             else ret ← ipa_suspend_resource_no_block E (name r); mret (negb (ret =? 0)));
    if async : bool then
      ipa_rm_wq_send_suspend_cmd E (name r) (state r) w ;; mret (- EINPROGRESS)
    else ipa_rm_resource_consumer_release_work E c (state r) false
  else if bool_decide (state r = IPA_RM_GRANTED) then
    ipa_rm_perf_profile_change E (name r) ;; mret 0
  else mret 0.

Lemma wp_release_in_use c r k w dec h h1 r1 s :
  mem K h1 s → table_live K h1 → ext r = Cons k → cons_change h c r k h1 r1 k →
  callbacks_set k → state r1 = state r → needed_bw r1 = u32 (needed_bw r - w) →
  state r = IPA_RM_REQUEST_IN_PROGRESS ∨ state r = IPA_RM_GRANTED →
  wp (release_in_use c r w dec)
    (λ res s', ∃ h' r' k', mem K h' s' ∧ cons_change h c r k h' r' k' ∧
       release_outcome E w dec r k res r' k') s.
Proof.
  intros Hs Ht Hk Hch Hcb Hst1 Hbw1 Hst. destruct (cons_change_lookup _ _ _ _ _ _ _ Hch) as [Hc1 Hk1].
  unfold release_in_use. apply wp_bind.
  eapply wp_mono; [by apply (wp_dec_usage c r1 k)|].
  cbn beta. intros _ s2 (h2 & r2 & k2 & Hs2 & Hch2 & Hst2 & Hbw2 & Hu2).
  pose proof (cons_change_trans _ _ _ _ _ _ _ _ _ _ Hch Hch2) as Hch3.
  destruct (cons_change_lookup _ _ _ _ _ _ _ Hch3) as [Hc2 Hk2].
  assert (table_live K h2) by (destruct Hch2 as (-> & _); eauto with quiet).
  assert (usage_count k2 = match state r with
    | IPA_RM_RELEASED => usage_count k
    | _ => dec_count dec (usage_count k) end) as Hu by by destruct Hst as [-> | ->].
  rm_step. rm_step. cbn beta. destruct (usage_count k2 =? 0) eqn:Hu0.
  - eapply wp_mono; [by apply (wp_release_start c r k w h h2 r2 k2)|].
    cbn beta. intros res s3 (h3 & r3 & k3 & Hs3 & Hch4 & Hbw3 & Hu3 & Hout).
    exists h3, r3, k3. split; [done|]. split; [done|]. unfold release_outcome.
    rewrite Hu3, Hbw3, Hbw2, Hbw1, Hu0. split_and!; [done|done|].
    destruct Hst as [Hst|Hst]; rewrite Hst in *; cbn; exact Hout.
  - assert (∀ s3, mem K h2 s3 → ∃ h' r' k', mem K h' s3 ∧ cons_change h c r k h' r' k' ∧
       release_outcome E w dec r k 0 r' k') as Hend.
    { intros s3 Hs3. exists h2, r2, k2. split; [done|]. split; [done|].
      unfold release_outcome. rewrite Hu0, Hbw2, Hbw1, Hst2, Hst1.
      split_and!; [done|done|]. by destruct Hst as [-> | ->]. }
    destruct (bool_decide _); rm_steps; by apply Hend.
Qed.

Lemma wp_consumer_release c r k w dec h s :
  mem K h s → table_live K h → h !! c = Some r → ext r = Cons k → callbacks_set k →
  wp (ipa_rm_resource_consumer_release E c w dec)
    (λ res s', ∃ h' r' k', mem K h' s' ∧ cons_change h c r k h' r' k' ∧
       release_outcome E w dec r k res r' k') s.
Proof.
  intros Hs Ht Hc Hk Hcb. unfold ipa_rm_resource_consumer_release. rm_steps.
  set (r1 := with_needed_bw _ r) in *.
  assert (cons_change h c r k (<[c := r1]> h) r1 k) as Hch by by split_and!.
  assert (table_live K (<[c := r1]> h)) by eauto with quiet.
  pose proof (wp_release_in_use c r k w dec h _ r1 s' H ltac:(done) Hk Hch Hcb eq_refl eq_refl)
    as Huse. unfold release_in_use in Huse.
  destruct (state r) eqn:Est; [|apply Huse; by left|apply Huse; by right|].
  - apply wp_ret. exists (<[c := r1]> h), r1, k. split; [done|]. split; [done|].
    unfold release_outcome. rewrite Est. by split_and!.
  - rm_step. eapply wp_mono; [apply (wp_dec_usage c r1 k); [done| |done]|].
    { by simplify_map_eq. }
    cbn beta. intros _ s2 (h2 & r2 & k2 & Hs2 & Hch2 & Hst & Hbw & Hu).
    apply wp_ret. exists h2, r2, k2. split; [done|]. split; [by eapply cons_change_trans|].
    unfold release_outcome. rewrite Est, Hbw, Hu, Hst. by split_and!.
Qed.
End Consumer.
