(* ===== verification/RmWf.v ===== *)
(** * IPA resource manager: well-formed memory

    The invariant of the module's memory, and the rule for loops over the peers of a
    resource. The invariant speaks of the static part of each resource only
    ([static_of] of [RmConsumer.v]), so an operation that leaves the static parts as they
    are preserves it for free.

    The exact effect on memory of [ipa_rm_resource_producer_handle_cb] and
    [ipa_rm_resource_consumer_handle_cb], as pure functions of the resources. *)

From S2P Require Import Prelude.
From S2P Require Import RmTypes.
From S2P Require Import RmPeers.
From S2P Require Import RmCore.
From S2P Require Import RmResource.
From S2P Require Import RmConsumer.

Abbreviation smap := (gmap loc static).

(** The number of occupied slots. *)
Definition occupied (l : list ipa_rm_resource_peer) : Z :=
  Z.of_nat (length (filter (λ q, peer_resource q ≠ None) l)).

Record list_ok (pl : ipa_rm_peers_list) : Prop := {
  lo_length : length (peers pl) = IPA_RM_RESOURCE_MAX;
  lo_max : max_peers pl = Z.of_nat IPA_RM_RESOURCE_MAX;
  lo_count : peers_count pl = occupied (peers pl);
  lo_empty : ∀ i us, peers pl !! i = Some (mkPeer None us) → us = false;
}.

Definition listeners_ok (ls : list ipa_rm_notification_info) : Prop :=
  Forall (λ i, rp_notify_cb (reg_params i) ≠ None) ls.

(** The name, the type and the extension of a resource agree, and its callbacks are set. *)
Definition res_ok (st : static) : Prop :=
  valid_name (st_name st) = true ∧
  match st_type st, st_ext st with
  | IPA_RM_PRODUCER, inr ls => IPA_RM_RESORCE_IS_PROD (st_name st) = true ∧ listeners_ok ls
  | IPA_RM_CONSUMER, inl (req, rel) =>
      IPA_RM_RESORCE_IS_CONS (st_name st) = true ∧ req ≠ None ∧ rel ≠ None
  | _, _ => False
  end.

(** Slot [i] of the list of [l] holds [q]: the resource named [i], of the other type,
    whose own list holds [l] with the same origin of the dependency. *)
Definition linked (S : smap) (l : loc) (st : static) (i : nat) (q : loc) (us : bool) : Prop :=
  ∃ st' pl', S !! q = Some st' ∧ st_name st' = i ∧ st_type st' ≠ st_type st ∧
    st_peers st' = Some pl' ∧ peers pl' !! st_name st = Some (mkPeer (Some l) us).

Definition peers_ok (S : smap) (l : loc) (st : static) : Prop :=
  ∃ pl, st_peers st = Some pl ∧ list_ok pl ∧
    ∀ i q us, peers pl !! i = Some (mkPeer (Some q) us) → linked S l st i q us.

Record wf (K : control) (S : smap) : Prop := {
  wf_table : ∀ n l, k_table K !! n = Some (Some l) → ∃ st, S !! l = Some st ∧ st_name st = n;
  wf_res : ∀ l st, S !! l = Some st →
    k_table K !! st_name st = Some (Some l) ∧ (l < k_next K)%positive ∧ res_ok st;
  wf_peers : ∀ l st, S !! l = Some st → peers_ok S l st;
}.

(** ** Static parts of a heap *)

Definition statics (h : rheap) : smap := static_of <$> h.

Lemma statics_lookup h l st :
  statics h !! l = Some st → ∃ r, h !! l = Some r ∧ static_of r = st.
Proof. unfold statics. intros (r & <- & ?)%lookup_fmap_Some. eauto. Qed.

Lemma statics_insert h l r : statics (<[l := r]> h) = <[l := static_of r]> (statics h).
Proof. apply fmap_insert. Qed.

Lemma statics_insert_same h l r r' :
  h !! l = Some r → static_of r' = static_of r → statics (<[l := r']> h) = statics h.
Proof.
  intros Hl Hst. rewrite statics_insert, Hst. apply insert_id. unfold statics.
  by rewrite lookup_fmap, Hl.
Qed.

Lemma statics_delete h l : statics (delete l h) = delete l (statics h).
Proof. apply fmap_delete. Qed.

Lemma statics_cons_change h c r k h' r' k' :
  h !! c = Some r → cons_change h c r k h' r' k' → statics h' = statics h.
Proof. intros Hc (-> & _ & Hst). by eapply statics_insert_same. Qed.

Lemma lookup_statics h l r : h !! l = Some r → statics h !! l = Some (static_of r).
Proof. intros Hl. unfold statics. by rewrite lookup_fmap, Hl. Qed.

(** ** Consequences of the invariant *)

Section wf.
Context (K : control) (h : rheap).
Hypothesis Hwf : wf K (statics h).

Lemma wf_table_live : table_live K h.
Proof.
  intros n l Hn. destruct (wf_table _ _ Hwf n l Hn) as (st & Hst & _).
  apply statics_lookup in Hst as (r & -> & _). eauto.
Qed.

Lemma wf_res_ok l r : h !! l = Some r → res_ok (static_of r).
Proof. intros Hl%lookup_statics. by destruct (wf_res _ _ Hwf _ _ Hl) as (_ & _ & ?). Qed.

Lemma wf_in_table l r : h !! l = Some r → k_table K !! name r = Some (Some l).
Proof. intros Hl%lookup_statics. by destruct (wf_res _ _ Hwf _ _ Hl) as (? & _ & _). Qed.

(** A name belongs to one resource. *)
Lemma wf_name_inj l1 l2 r1 r2 :
  h !! l1 = Some r1 → h !! l2 = Some r2 → name r1 = name r2 → l1 = l2.
Proof.
  intros H1%wf_in_table H2%wf_in_table Hn. rewrite Hn in H1. congruence.
Qed.

Lemma wf_resolve n l :
  resolve (k_table K) n = Some l → ∃ r, h !! l = Some r ∧ name r = n.
Proof.
  intros [_ Hn]%resolve_Some. destruct (wf_table _ _ Hwf n l Hn) as (st & Hst & <-).
  apply statics_lookup in Hst as (r & ? & <-). eauto.
Qed.

Lemma wf_producer l r :
  h !! l = Some r → type r = IPA_RM_PRODUCER →
  ∃ k, ext r = Prod k ∧ listeners_ok (event_listeners k) ∧
       IPA_RM_RESORCE_IS_PROD (name r) = true.
Proof.
  intros [_ Hr]%wf_res_ok Ht. cbn in Hr. rewrite Ht in Hr.
  destruct (ext r) as [k|k] eqn:Hk; cbn in Hr; [done|]. destr_hyps. eauto.
Qed.

Lemma wf_consumer l r :
  h !! l = Some r → type r = IPA_RM_CONSUMER →
  ∃ k, ext r = Cons k ∧ callbacks_set k ∧ IPA_RM_RESORCE_IS_CONS (name r) = true.
Proof.
  intros [_ Hr]%wf_res_ok Ht. cbn in Hr. rewrite Ht in Hr.
  destruct (ext r) as [k|k] eqn:Hk; cbn in Hr; [|done]. destr_hyps.
  exists k. unfold callbacks_set. auto.
Qed.

Lemma wf_type_of_prod_name l r :
  h !! l = Some r → IPA_RM_RESORCE_IS_PROD (name r) = true → type r = IPA_RM_PRODUCER.
Proof.
  intros [_ Hr]%wf_res_ok Hn. cbn in Hr. destruct (type r); [done|].
  destruct (static_ext (ext r)) as [[? ?]|?]; [|done].
  apply prod_cons_excl in Hn. destruct Hr. congruence.
Qed.

Lemma wf_type_of_cons_name l r :
  h !! l = Some r → IPA_RM_RESORCE_IS_CONS (name r) = true → type r = IPA_RM_CONSUMER.
Proof.
  intros Hl Hn. destruct (type r) eqn:Ht; [|done].
  destruct (wf_producer l r Hl Ht) as (k & _ & _ & Hp%prod_cons_excl). congruence.
Qed.

Lemma wf_type_of_ext l r :
  h !! l = Some r →
  type r = match ext r with Cons _ => IPA_RM_CONSUMER | Prod _ => IPA_RM_PRODUCER end.
Proof.
  intros Hl. destruct (type r) eqn:Ht.
  - by destruct (wf_producer l r Hl Ht) as (k & -> & _).
  - by destruct (wf_consumer l r Hl Ht) as (k & -> & _).
Qed.

Lemma wf_has_peers l r :
  h !! l = Some r → ∃ pl, peers_list r = Some pl ∧ list_ok pl.
Proof.
  intros Hl%lookup_statics. destruct (wf_peers _ _ Hwf _ _ Hl) as (pl & ? & ? & _). eauto.
Qed.

(** What a slot of a list points to. *)
Lemma wf_peer l r pl i q us :
  h !! l = Some r → peers_list r = Some pl → peers pl !! i = Some (mkPeer (Some q) us) →
  ∃ r' pl', h !! q = Some r' ∧ name r' = i ∧ type r' ≠ type r ∧ peers_list r' = Some pl' ∧
    peers pl' !! name r = Some (mkPeer (Some l) us).
Proof.
  intros Hl%lookup_statics Hp Hi. destruct (wf_peers _ _ Hwf _ _ Hl) as (pl0 & Hpl & _ & Hlk).
  cbn in Hpl. rewrite Hp in Hpl. injection Hpl as <-.
  destruct (Hlk i q us Hi) as (st & pl' & Hq & Hn & Ht & Hpl' & Hback).
  apply statics_lookup in Hq as (r' & Hq & <-). exists r', pl'. cbn in *. auto.
Qed.

Lemma wf_peer_consumer p r pl i c us :
  h !! p = Some r → type r = IPA_RM_PRODUCER → peers_list r = Some pl →
  peers pl !! i = Some (mkPeer (Some c) us) →
  ∃ rc k, h !! c = Some rc ∧ type rc = IPA_RM_CONSUMER ∧ ext rc = Cons k ∧ callbacks_set k ∧
    name rc = i ∧ c ≠ p.
Proof.
  intros Hp Ht Hpl Hi. destruct (wf_peer p r pl i c us Hp Hpl Hi) as (rc & _ & Hc & Hn & Ht' & _).
  assert (type rc = IPA_RM_CONSUMER) as Htc by (destruct (type rc); congruence).
  destruct (wf_consumer c rc Hc Htc) as (k & ? & ? & _). exists rc, k.
  split_and!; try done. intros ->. congruence.
Qed.

Lemma wf_peer_producer c r pl i p us :
  h !! c = Some r → type r = IPA_RM_CONSUMER → peers_list r = Some pl →
  peers pl !! i = Some (mkPeer (Some p) us) →
  ∃ rp k, h !! p = Some rp ∧ type rp = IPA_RM_PRODUCER ∧ ext rp = Prod k ∧
    listeners_ok (event_listeners k) ∧ name rp = i ∧ p ≠ c.
Proof.
  intros Hc Ht Hpl Hi. destruct (wf_peer c r pl i p us Hc Hpl Hi) as (rp & _ & Hp & Hn & Ht' & _).
  assert (type rp = IPA_RM_PRODUCER) as Htp by (destruct (type rp); congruence).
  destruct (wf_producer p rp Hp Htp) as (k & ? & ? & _). exists rp, k.
  split_and!; try done. intros ->. congruence.
Qed.
End wf.

(** Changing the floor, the bandwidth or the callbacks of one resource. *)
Lemma wf_update K Sm l st st' :
  wf K Sm → Sm !! l = Some st → st_name st' = st_name st → st_type st' = st_type st →
  st_peers st' = st_peers st → res_ok st' → wf K (<[l := st']> Sm).
Proof.
  intros Hwf Hl Hn Ht Hpl Hok.
  assert (∀ q stq, Sm !! q = Some stq → ∃ stq', <[l := st']> Sm !! q = Some stq' ∧
    st_name stq' = st_name stq ∧ st_type stq' = st_type stq ∧ st_peers stq' = st_peers stq) as Hfwd.
  { intros q stq Hq. destruct (decide (q = l)) as [->|].
    - exists st'. rewrite lookup_insert_eq. split_and!; congruence.
    - exists stq. by rewrite lookup_insert_ne. }
  assert (∀ q stq', <[l := st']> Sm !! q = Some stq' → ∃ stq, Sm !! q = Some stq ∧
    st_name stq' = st_name stq ∧ st_type stq' = st_type stq ∧ st_peers stq' = st_peers stq ∧
    (res_ok stq → res_ok stq')) as Hbwd.
  { intros q stq. destruct (decide (q = l)) as [->|].
    - rewrite lookup_insert_eq. intros [= <-]. eauto 6.
    - rewrite lookup_insert_ne by done. eauto 6. }
  split.
  - intros n q Hq. destruct (wf_table _ _ Hwf n q Hq) as (stq & Hq' & <-).
    destruct (Hfwd q stq Hq') as (stq' & ? & ? & _). eauto.
  - intros q stq' Hq. destruct (Hbwd q stq' Hq) as (stq & Hq' & -> & _ & _ & Hr).
    destruct (wf_res _ _ Hwf q stq Hq') as (? & ? & ?). auto.
  - intros q stq' Hq. destruct (Hbwd q stq' Hq) as (stq & Hq' & Hnq & Htq & Hpq & _).
    destruct (wf_peers _ _ Hwf q stq Hq') as (pl & Hpl' & Hlo & Hlk). exists pl.
    split_and!; [congruence|done|]. intros i x us Hi.
    destruct (Hlk i x us Hi) as (sx & plx & Hx & Hnx & Htx & Hpx & Hback).
    destruct (Hfwd x sx Hx) as (sx' & Hx' & Hn' & Ht' & Hp'). exists sx', plx.
    rewrite Hn', Ht', Hp', Htq, Hnq. by split_and!.
Qed.

(** ** The static parts determine the lists *)

Lemma statics_peers h h' l r pl :
  statics h' = statics h → h !! l = Some r → peers_list r = Some pl →
  ∃ r', h' !! l = Some r' ∧ peers_list r' = Some pl ∧ static_of r' = static_of r.
Proof.
  intros Hs Hl Hp. pose proof (lookup_statics _ _ _ Hl) as H. rewrite <- Hs in H.
  apply statics_lookup in H as (r' & Hl' & Hst). exists r'. split_and!; [done| |done].
  rewrite <- Hp. by injection Hst.
Qed.

(** ** Loops over the peers of a resource whose static parts do not change *)

Definition peer_at (pl : ipa_rm_peers_list) (i : nat) : option loc :=
  q ← peers pl !! i; peer_resource q.

Lemma peer_at_Some pl i q :
  peer_at pl i = Some q ↔ ∃ us, peers pl !! i = Some (mkPeer (Some q) us).
Proof.
  unfold peer_at. destruct (peers pl !! i) as [[o us]|]; cbn; split.
  - intros ->. eauto.
  - by intros [? [= -> _]].
  - done.
  - by intros [? ?].
Qed.

Lemma wp_get_peer K h l r pl i (Q : option loc → rm_state → Prop) s :
  mem K h s → h !! l = Some r → peers_list r = Some pl → list_ok pl →
  (i < IPA_RM_RESOURCE_MAX)%nat →
  Q (peer_at pl i) s → wp (get_peer l (Z.of_nat i)) Q s.
Proof.
  intros Hs Hl Hp [Hlen Hmax _] Hi HQ. unfold get_peer. rm_step. rm_step.
  unfold ipa_rm_peers_list_get_resource, ipa_rm_peers_list_check_index. rewrite Hmax.
  destruct (Z.ltb_spec (Z.of_nat IPA_RM_RESOURCE_MAX) (Z.of_nat i)); [lia|].
  destruct (Z.ltb_spec (Z.of_nat i) 0); [lia|]. cbn [orb negb].
  rewrite lookup_z_nat. unfold peer_at in HQ.
  destruct (lookup_lt_is_Some_2 (peers pl) i) as [q Hq]; [lia|]. rewrite Hq in *.
  by eapply wp_of_option.
Qed.

Lemma wp_for_each_peer K S l h r pl body (I : nat → rheap → Prop) (Q : () → rm_state → Prop) s :
  mem K h s → statics h = S → h !! l = Some r → peers_list r = Some pl → list_ok pl →
  I 0%nat h →
  (∀ i h s, (i < IPA_RM_RESOURCE_MAX)%nat → mem K h s → statics h = S → I i h →
     match peer_at pl i with
     | Some q =>
         wp (body (Z.of_nat i) q)
           (λ _ s', ∃ h', mem K h' s' ∧ statics h' = S ∧ I (Datatypes.S i) h') s
     | None => I (Datatypes.S i) h
     end) →
  (∀ h' s', mem K h' s' → statics h' = S → I IPA_RM_RESOURCE_MAX h' → Q () s') →
  wp (for_each_peer l body) Q s.
Proof.
  intros Hs HS Hl Hp Hok HI Hbody HQ. unfold for_each_peer. rm_step. rm_step.
  unfold ipa_rm_peers_list_get_size. rewrite (lo_max _ Hok), Nat2Z.id.
  eapply wp_mono.
  - apply (wp_for _ _ (λ i s, ∃ h, mem K h s ∧ statics h = S ∧ I (Z.to_nat i) h)).
    { by exists h. }
    intros i s1 Hi (h1 & Hs1 & HS1 & HI1).
    destruct (statics_peers h h1 l r pl) as (r1 & Hl1 & Hp1 & _); [congruence|done..|].
    replace i with (Z.of_nat (Z.to_nat i)) at 1 by lia.
    apply wp_bind. eapply wp_get_peer; [done..|lia|].
    specialize (Hbody (Z.to_nat i) h1 s1 ltac:(lia) Hs1 HS1 HI1).
    replace (Z.to_nat (i + 1)) with (Datatypes.S (Z.to_nat i)) by lia.
    rewrite Z2Nat.id in Hbody by lia.
    destruct (peer_at pl (Z.to_nat i)) as [q|]; [done|]. apply wp_ret. eauto.
  - cbn beta. intros [] s1 (h1 & Hs1 & HS1 & HI1). eapply HQ; [done..|].
    by rewrite Z.add_0_l, Nat2Z.id in HI1.
Qed.

(** ** One update of every peer

    The memory in which the peers of [pl] below index [i] were updated by [f], as a loop
    over the peers leaves it at turn [i]. *)

Definition peer_turn (f : ipa_rm_resource → ipa_rm_resource) (pl : ipa_rm_peers_list) (i : nat)
    (l : loc) (r : ipa_rm_resource) : ipa_rm_resource :=
  if decide ((name r < i)%nat ∧ peer_at pl (name r) = Some l) then f r else r.

Definition upd_peers (f : ipa_rm_resource → ipa_rm_resource) (pl : ipa_rm_peers_list) (i : nat)
    (h : rheap) : rheap :=
  map_imap (λ l r, Some (peer_turn f pl i l r)) h.

Lemma name_static r r' : static_of r' = static_of r → name r' = name r.
Proof. by intros [= ->]. Qed.

Section upd_peers.
Context (f : ipa_rm_resource → ipa_rm_resource).
Hypothesis Hf : ∀ r, static_of (f r) = static_of r.
Implicit Types (pl : ipa_rm_peers_list) (h : rheap) (r : ipa_rm_resource).

Lemma peer_turn_static pl i l r : static_of (peer_turn f pl i l r) = static_of r.
Proof. unfold peer_turn. case_decide; [apply Hf|done]. Qed.

Lemma lookup_upd_peers pl i h l : upd_peers f pl i h !! l = peer_turn f pl i l <$> h !! l.
Proof. unfold upd_peers. rewrite map_lookup_imap. by destruct (h !! l). Qed.

Lemma statics_upd_peers pl i h : statics (upd_peers f pl i h) = statics h.
Proof.
  apply map_eq. intros l. unfold statics. rewrite !lookup_fmap, lookup_upd_peers.
  destruct (h !! l); [|done]. cbn. by rewrite peer_turn_static.
Qed.

Lemma upd_peers_0 pl h : upd_peers f pl 0 h = h.
Proof.
  apply map_eq. intros l. rewrite lookup_upd_peers. by destruct (h !! l) as [r|].
Qed.

Lemma upd_peers_S_none pl i h :
  peer_at pl i = None → upd_peers f pl (S i) h = upd_peers f pl i h.
Proof.
  intros Hi. apply map_eq. intros l. rewrite !lookup_upd_peers.
  destruct (h !! l) as [r|]; [|done]. cbn. f_equal. unfold peer_turn.
  apply decide_ext. split; intros [Hlt Hp]; split; try done; [|lia].
  destruct (decide (name r = i)); [congruence|lia].
Qed.

Lemma upd_peers_S_some pl i h q r :
  peer_at pl i = Some q → h !! q = Some r → name r = i →
  upd_peers f pl (S i) h = <[q := f r]> (upd_peers f pl i h).
Proof.
  intros Hi Hq Hn. apply map_eq. intros l. rewrite lookup_upd_peers.
  destruct (decide (l = q)) as [->|Hl].
  - rewrite lookup_insert_eq, Hq. cbn. unfold peer_turn. rewrite decide_True; [done|].
    rewrite Hn. auto with lia.
  - rewrite lookup_insert_ne, lookup_upd_peers by done.
    destruct (h !! l) as [r'|]; [|done]. cbn. f_equal. unfold peer_turn.
    apply decide_ext. split; intros [Hlt Hp]; split; try done; [|lia].
    destruct (decide (name r' = i)); [congruence|lia].
Qed.

(** The turn of index [i] finds the resource it had at the start. *)
Lemma upd_peers_lookup_turn pl i h q r :
  upd_peers f pl i h !! q = Some r → name r = i → h !! q = Some r.
Proof.
  rewrite lookup_upd_peers. intros (r0 & Hq & ->)%fmap_Some_1 Hn. rewrite Hq. f_equal.
  rewrite (name_static _ _ (peer_turn_static pl i q r0)) in Hn. unfold peer_turn.
  rewrite decide_False; [done|]. intros []; lia.
Qed.
End upd_peers.

(** * IPA resource manager: completions *)

(** ** A producer *)

Definition prod_after_cb (ev : ipa_rm_event) (r : ipa_rm_resource) : ipa_rm_resource :=
  match ext r with
  | Cons _ => r
  | Prod k =>
      match state r, ev with
      | IPA_RM_REQUEST_IN_PROGRESS, IPA_RM_RESOURCE_GRANTED =>
          if 0 <? pending_request k then
            let r1 := with_ext (Prod (with_pending_request (pending_request k - 1) k)) r in
            if pending_request k - 1 =? 0 then with_state IPA_RM_GRANTED r1 else r1
          else r
      | IPA_RM_RELEASE_IN_PROGRESS, IPA_RM_RESOURCE_RELEASED =>
          if 0 <? pending_release k then
            let r1 := with_ext (Prod (with_pending_release (pending_release k - 1) k)) r in
            if pending_release k - 1 =? 0 then with_state IPA_RM_RELEASED r1 else r1
          else r
      | _, _ => r
      end
  end.

Lemma prod_after_cb_static ev r : static_of (prod_after_cb ev r) = static_of r.
Proof.
  unfold prod_after_cb. destruct (ext r) as [k|k] eqn:Hk; [done|].
  destruct (state r), ev; repeat case_match; unfold static_of; cbn; by rewrite ?Hk.
Qed.

(** ** A consumer and its peers *)

(** The state and completion of the consumer, when the event fits its state. *)
Definition cons_after_cb (ev : ipa_rm_event) (r : ipa_rm_resource) (k : resource_cons) :
    option ipa_rm_resource :=
  match state r, ev with
  | IPA_RM_REQUEST_IN_PROGRESS, IPA_RM_RESOURCE_GRANTED =>
      Some (with_ext (Cons (with_completion true k)) (with_state IPA_RM_GRANTED r))
  | IPA_RM_RELEASE_IN_PROGRESS, IPA_RM_RESOURCE_RELEASED =>
      Some (with_state IPA_RM_RELEASED r)
  | _, _ => None
  end.

(** The memory after a completion of the consumer [c], whose contents are [r], [k], [pl]. *)
Definition cb_heap (ev : ipa_rm_event) (c : loc) (r : ipa_rm_resource) (k : resource_cons)
    (pl : ipa_rm_peers_list) (h : rheap) : rheap :=
  match cons_after_cb ev r k with
  | Some r1 => upd_peers (prod_after_cb ev) pl IPA_RM_RESOURCE_MAX (<[c := r1]> h)
  | None => h
  end.

Section Callback.
Context (E : rm_env) (K : control).

Lemma quietly_notify_clients p r k ev only h :
  h !! p = Some r → ext r = Prod k → listeners_ok (event_listeners k) →
  quietly (ipa_rm_resource_producer_notify_clients p ev only) (λ _, True) K h.
Proof.
  intros Hp Hk Hls s Hs. unfold ipa_rm_resource_producer_notify_clients. rm_step. rm_step.
  clear Hk. revert s Hs. induction Hls as [|i ls Hi _ IH]; intros s Hs; cbn [foldr].
  - by apply wp_ret.
  - apply wp_bind. eapply (wp_quiet _ (λ _, True)); [done| |].
    + case_match; [by apply quietly_ret|by apply quietly_call_notify].
    + intros _ s' Hs' _. by apply IH.
Qed.

Lemma wp_producer_handle_cb p r k ev h (Q : () → rm_state → Prop) s :
  mem K h s → table_live K h → h !! p = Some r → ext r = Prod k →
  listeners_ok (event_listeners k) →
  (∀ s', mem K (<[p := prod_after_cb ev r]> h) s' → Q () s') →
  wp (ipa_rm_resource_producer_handle_cb E p ev) Q s.
Proof.
  intros Hs Ht Hp Hk Hls HQ. unfold ipa_rm_resource_producer_handle_cb, prod_after_cb in *.
  rewrite Hk in HQ.
  assert (∀ (ev' : ipa_rm_event) r' k' s', mem K (<[p := r']> h) s' → ext r' = Prod k' →
     event_listeners k' = event_listeners k →
     (∀ s', mem K (<[p := r']> h) s' → Q () s') →
     wp (ipa_rm_perf_profile_change E (name r) ;;
         ipa_rm_resource_producer_notify_clients p ev' false) Q s') as Hend.
  { intros ev' r' k' s' Hs' Hk' Hl' HQ'. rm_steps.
    eapply wp_quiet; [done| |intros [] s2 Hs2 _; by apply HQ'].
    eapply quietly_notify_clients; [by rewrite lookup_insert_eq|done|by rewrite Hl']. }
  rm_steps.
  destruct (state r) eqn:Est, ev; rewrite ?bool_decide_eq_true_2, ?bool_decide_eq_false_2 by done;
    cbn [negb]; try (apply wp_ret; apply HQ; by rewrite insert_id).
  all: case_match; [|apply wp_ret; apply HQ; by rewrite insert_id]; rm_steps.
  all: case_match; [|apply wp_ret; by apply HQ].
  all: rm_step; rm_step; rm_step; rewrite insert_insert_eq in *.
  all: eapply Hend; [eassumption|done|done|exact HQ].
Qed.

Lemma wp_propagate c r k r1 pl ev h s :
  mem K (<[c := r1]> h) s → wf K (statics h) → h !! c = Some r → ext r = Cons k →
  peers_list r = Some pl → static_of r1 = static_of r →
  wp (propagate_to_producers E c ev)
    (λ _ s', mem K (upd_peers (prod_after_cb ev) pl IPA_RM_RESOURCE_MAX (<[c := r1]> h)) s') s.
Proof.
  intros Hs Hwf Hc Hk Hpl Hst.
  assert (statics (<[c := r1]> h) = statics h) as HS by by eapply statics_insert_same.
  destruct (wf_has_peers _ _ Hwf c r Hc) as (pl' & Hpl' & Hok).
  rewrite Hpl in Hpl'. injection Hpl' as <-. unfold propagate_to_producers.
  eapply (wp_for_each_peer K (statics h) c _ r1 pl _
    (λ i h', h' = upd_peers (prod_after_cb ev) pl i (<[c := r1]> h))); [done|done|by simplify_map_eq| |done| | |].
  - rewrite <- Hpl. by injection Hst.
  - by rewrite upd_peers_0.
  - intros i h2 s2 Hi Hs2 HS2 Hh2.
    destruct (peer_at pl i) as [q|] eqn:Hq; [|by rewrite upd_peers_S_none].
    rewrite <- HS2 in Hwf. destruct (statics_peers h h2 c r pl) as (r2 & Hc2 & Hpl2 & Hst2); [done..|].
    assert (type r2 = IPA_RM_CONSUMER) as Ht2.
    { rewrite HS2 in Hwf. pose proof (wf_type_of_ext _ _ Hwf c r Hc) as Htr. rewrite Hk in Htr.
      rewrite <- Htr. by injection Hst2. }
    destruct (proj1 (peer_at_Some pl i q) Hq) as [us Hus].
    destruct (wf_peer_producer _ _ Hwf c r2 pl i q us) as (rp & kp & Hp & _ & Hkp & Hls & Hn & _);
      [done..|].
    eapply wp_producer_handle_cb; [done|by eapply wf_table_live|done..|].
    intros s3 Hs3. exists (<[q := prod_after_cb ev rp]> h2). split; [done|].
    split; [rewrite <- HS2; eapply statics_insert_same; [done|apply prod_after_cb_static]|].
    subst h2. symmetry. apply upd_peers_S_some; [done| |done].
    by eapply (upd_peers_lookup_turn _ (prod_after_cb_static ev)).
  - intros h2 s2 Hs2 _ ->. done.
Qed.

(** The completion of a consumer, with all the producers that use it. *)
Lemma wp_consumer_handle_cb c r k pl ev h s :
  mem K h s → wf K (statics h) → h !! c = Some r → ext r = Cons k → peers_list r = Some pl →
  wp (ipa_rm_resource_consumer_handle_cb E c ev) (λ _ s', mem K (cb_heap ev c r k pl h) s') s.
Proof.
  intros Hs Hwf Hc Hk Hpl.
  assert (∀ r1 s1, mem K (<[c := r1]> h) s1 → static_of r1 = static_of r →
    wp (propagate_to_producers E c ev)
      (λ _ s', mem K (upd_peers (prod_after_cb ev) pl IPA_RM_RESOURCE_MAX (<[c := r1]> h)) s') s1) as Hprop.
  { intros r1 s1 Hs1 Hst. by eapply wp_propagate. }
  unfold ipa_rm_resource_consumer_handle_cb, cb_heap, cons_after_cb.
  pose proof (wf_table_live _ _ Hwf) as Ht. rm_step. rm_step.
  destruct (state r), ev; rewrite ?bool_decide_eq_true_2, ?bool_decide_eq_false_2 by done;
    try (by apply wp_ret); rm_steps.
  - rewrite insert_insert_eq in *. apply Hprop; [done|].
    by apply (static_same_ext (with_state _ r) k).
  - by apply Hprop.
Qed.

(** The consumer itself after a completion. *)
Lemma cb_heap_consumer c r k pl ev h :
  wf K (statics h) → h !! c = Some r → ext r = Cons k → peers_list r = Some pl →
  statics (cb_heap ev c r k pl h) = statics h ∧
  cb_heap ev c r k pl h !! c = Some (default r (cons_after_cb ev r k)).
Proof.
  intros Hwf Hc Hk Hpl. unfold cb_heap.
  destruct (cons_after_cb ev r k) as [r1|] eqn:Hr1; [|done]. cbn [default].
  assert (static_of r1 = static_of r) as Hst.
  { unfold cons_after_cb in Hr1. destruct (state r), ev; try done; injection Hr1 as <-; [|done].
    by apply (static_same_ext (with_state _ r) k). }
  assert (statics (<[c := r1]> h) = statics h) as HS by by eapply statics_insert_same.
  split; [by rewrite statics_upd_peers by apply prod_after_cb_static|].
  rewrite lookup_upd_peers, lookup_insert_eq. cbn. f_equal.
  unfold peer_turn. rewrite decide_False; [done|]. intros [_ Hp].
  apply peer_at_Some in Hp as [us Hp]. rewrite (name_static _ _ Hst) in Hp.
  destruct (wf_peer _ _ Hwf c r pl (name r) c us Hc Hpl Hp) as (r' & _ & Hc' & _ & Ht & _). congruence.
Qed.

(** The driver's answer to a request made by the work queue. *)
Lemma wp_request_work_async c r k pl prev w dec h s :
  mem K h s → wf K (statics h) → h !! c = Some r → ext r = Cons k → peers_list r = Some pl →
  callbacks_set k →
  wp (ipa_rm_resource_consumer_request_work E c prev w true dec)
    (λ res s', ∃ h', mem K h' s' ∧
       ((res = 0 ∧ h' = cb_heap IPA_RM_RESOURCE_GRANTED c r k pl h) ∨
        (res = - EINPROGRESS ∧ h' = h) ∨
        (driver_error E res ∧ ∃ r' k', cons_change h c r k h' r' k' ∧ state r' = prev ∧
           needed_bw r' = u32 (needed_bw r - w) ∧ usage_count k' = usage_count k - b2z dec))) s.
Proof.
  intros Hs Hwf Hc Hk Hpl [Hreq _]. unfold ipa_rm_resource_consumer_request_work. rm_steps.
  eapply wp_call_driver; [done..|]. intros v s1 Hs1 Hv. rm_step.
  destruct Hv as [-> | [-> | Hv]]; ztests.
  - eapply wp_mono; [by eapply wp_consumer_handle_cb|]. cbn beta. intros _ s2 Hs2.
    apply wp_ret. eauto.
  - apply wp_ret, wp_ret. eauto 6.
  - pose proof Hv as (H0 & H1 & _). rewrite (proj2 (Z.eqb_neq _ _) H0), (proj2 (Z.eqb_neq _ _) H1).
    cbn [negb]. rm_steps. rewrite insert_insert_eq in *. set (r1 := with_needed_bw _ _) in *.
    assert (cons_change h c r k (<[c := r1]> h) r1 k) as Hch by by split_and!.
    apply wp_when; intros ->; rm_steps.
    + set (k1 := with_usage_count _ k) in *.
      exists (<[c := with_ext (Cons k1) r1]> (<[c := r1]> h)). split; [done|]. right; right.
      split; [done|]. exists (with_ext (Cons k1) r1), k1.
      split; [|done]. eapply cons_change_upd; [done..|]. by apply (static_same_ext r1 k).
    + exists (<[c := r1]> h). split; [done|]. right; right. split; [done|]. exists r1, k.
      split_and!; try done. cbn. lia.
Qed.

(** And to a release. *)
Lemma wp_release_work_async c r k pl prev h s :
  mem K h s → wf K (statics h) → h !! c = Some r → ext r = Cons k → peers_list r = Some pl →
  callbacks_set k →
  wp (ipa_rm_resource_consumer_release_work E c prev true)
    (λ res s', (∃ h1 r1 k1, h1 = cb_heap IPA_RM_RESOURCE_RELEASED c r k pl h ∧ res = 0 ∧
                  h1 !! c = Some r1 ∧ ext r1 = Cons k1 ∧
                  mem K (<[c := with_ext (Cons (with_completion true k1)) r1]> h1) s') ∨
               (driver_error E res ∧ mem K (<[c := with_state prev r]> h) s')) s.
Proof.
  intros Hs Hwf Hc Hk Hpl [_ Hrel]. pose proof (wf_table_live _ _ Hwf) as Ht.
  unfold ipa_rm_resource_consumer_release_work. rm_steps.
  eapply wp_call_driver; [done..|]. intros v s1 Hs1 Hv. cbn beta.
  destruct (cb_heap_consumer c r k pl IPA_RM_RESOURCE_RELEASED h Hwf Hc Hk Hpl) as [HS Hc1].
  set (h1 := cb_heap _ c r k pl h) in *. set (r1 := default r _) in *.
  assert (ext r1 = Cons k) as Hk1.
  { subst r1. unfold cons_after_cb. by destruct (state r). }
  assert (table_live K h1) as Ht1 by (apply wf_table_live; by rewrite HS).
  assert (v = 0 ∨ v = - EINPROGRESS ∨ driver_error E v) as [Hok|[Hok|Herr]] by done.
  1,2: rewrite Hok; ztests; rm_step;
    (eapply wp_mono; [by eapply (wp_consumer_handle_cb c r k pl)|]); cbn beta; intros _ s2 Hs2;
    rm_steps; left; by exists h1, r1, k.
  pose proof Herr as (H0 & H1 & _).
  apply Z.eqb_neq in H0, H1. rewrite H1. cbn iota zeta. rewrite H0, H1. ztests. rm_steps. auto.
Qed.
End Callback.
