(* ===== verification/RmProducer.v ===== *)
(** * IPA resource manager: requests and releases of a producer

    The loops of [ipa_rm_resource_producer_request] and
    [ipa_rm_resource_producer_release] over the consumers of a producer. The rules take
    an invariant indexed by the turn, and describe a turn by what it does to memory; the
    memory-safety proof and the accounting proof instantiate them differently.

    The peers-list operations on well-formed lists, and the effect on the invariant of
    adding and removing a link on both sides. *)

From S2P Require Import Prelude.
From S2P Require Import RmTypes.
From S2P Require Import RmPeers.
From S2P Require Import RmCore.
From S2P Require Import RmResource.
From S2P Require Import RmConsumer.
From S2P Require Import RmWf.

(** One turn of the request loop of [p], on its consumer [c]: what changes in memory when
    the request returns [res]. *)
Definition request_turn (E : rm_env) (p : loc) (h : rheap) (c : loc) (res : Z) (h' : rheap) : Prop :=
  ∃ rp kp rc kc rc' kc',
    h !! p = Some rp ∧ ext rp = Prod kp ∧ h !! c = Some rc ∧ ext rc = Cons kc ∧ c ≠ p ∧
    ext rc' = Cons kc' ∧ static_of rc' = static_of rc ∧
    request_outcome E (max_bw rp) true false rc kc res rc' kc' ∧
    h' = <[c := rc']>
      (if res =? - EINPROGRESS
       then <[p := with_ext (Prod (with_pending_request (pending_request kp + 1) kp)) rp]> h
       else h).

(** One turn of the release loop; the pending count is back where it was. *)
Definition release_turn (E : rm_env) (p : loc) (h : rheap) (c : loc) (h' : rheap) : Prop :=
  ∃ rp kp rc kc rc' kc' res,
    h !! p = Some rp ∧ ext rp = Prod kp ∧ h !! c = Some rc ∧ ext rc = Cons kc ∧ c ≠ p ∧
    ext rc' = Cons kc' ∧ static_of rc' = static_of rc ∧
    release_outcome E (max_bw rp) true rc kc res rc' kc' ∧ h' = <[c := rc']> h.

Lemma static_same_prod r k k' :
  ext r = Prod k → event_listeners k' = event_listeners k →
  static_of (with_ext (Prod k') r) = static_of r.
Proof. intros Hk Hl. unfold static_of. cbn. rewrite Hk. cbn. by rewrite Hl. Qed.

Lemma with_ext_id r e : ext r = e → with_ext e r = r.
Proof. intros <-. by destruct r. Qed.

Lemma with_pending_request_id k n : n = pending_request k → with_pending_request n k = k.
Proof. intros ->. by destruct k. Qed.

Lemma with_pending_release_id k n : n = pending_release k → with_pending_release n k = k.
Proof. intros ->. by destruct k. Qed.

(** [pending_request] incremented by the request loop, and decremented again. *)
Definition with_pending_bump (r : ipa_rm_resource) (k : resource_prod) : ipa_rm_resource :=
  with_ext (Prod (with_pending_request (pending_request k + 1) k)) r.

Lemma with_pending_unbump r k k' :
  ext r = Prod k → k' = with_pending_request (pending_request k + 1) k →
  with_ext (Prod (with_pending_request (pending_request k' - 1) k')) (with_pending_bump r k) = r.
Proof.
  intros Hk ->. destruct r, k. cbn in *. subst. unfold with_pending_bump, with_ext. cbn.
  do 2 f_equal. unfold with_pending_request. cbn. f_equal. lia.
Qed.

Lemma request_turn_statics E p h c res h' : request_turn E p h c res h' → statics h' = statics h.
Proof.
  intros (rp & kp & rc & kc & rc' & kc' & Hp & Hkp & Hc & Hkc & Hne & Hk & Hst & _ & ->).
  destruct (res =? _).
  - rewrite insert_insert_ne by done. rewrite statics_insert.
    rewrite (static_same_prod _ kp) by done. rewrite insert_id.
    + by eapply statics_insert_same.
    + unfold statics. rewrite lookup_fmap, lookup_insert_ne, Hp by done. done.
  - by eapply statics_insert_same.
Qed.

Lemma release_turn_statics E p h c h' : release_turn E p h c h' → statics h' = statics h.
Proof.
  intros (rp & kp & rc & kc & rc' & kc' & res & _ & _ & Hc & _ & _ & _ & Hst & _ & ->).
  by eapply statics_insert_same.
Qed.

Section Producer.
Context (E : rm_env) (K : control).

Section loops.
(** The producer, and its list of consumers. *)
Context (p : loc) (rp0 : ipa_rm_resource) (pl : ipa_rm_peers_list) (Sm : smap).
Hypothesis (Hwf : wf K Sm) (Hp0 : Sm !! p = Some (static_of rp0)).
Hypothesis (Htype : type rp0 = IPA_RM_PRODUCER) (Hpl0 : peers_list rp0 = Some pl).

(** The producer and a consumer of it, in a memory with these static parts. *)
Lemma loop_facts h i c :
  statics h = Sm → peer_at pl i = Some c →
  ∃ rp kp rc kc, h !! p = Some rp ∧ static_of rp = static_of rp0 ∧ ext rp = Prod kp ∧
    peers_list rp = Some pl ∧ list_ok pl ∧
    h !! c = Some rc ∧ ext rc = Cons kc ∧ callbacks_set kc ∧ c ≠ p ∧ name rc = i.
Proof.
  intros <- [us Hi]%peer_at_Some.
  destruct (statics_lookup _ _ _ Hp0) as (rp & Hp & Hst). pose proof Hst as [=].
  assert (type rp = IPA_RM_PRODUCER) as Ht by congruence.
  assert (peers_list rp = Some pl) as Hpl by congruence.
  destruct (wf_producer _ _ Hwf p rp Hp Ht) as (kp & Hkp & _).
  destruct (wf_has_peers _ _ Hwf p rp Hp) as (pl' & Hpl' & Hok).
  destruct (wf_peer_consumer _ _ Hwf p rp pl i c us Hp Ht Hpl Hi)
    as (rc & kc & Hc & _ & Hkc & Hcb & Hn & Hne).
  exists rp, kp, rc, kc. split_and!; try done. congruence.
Qed.

Lemma loop_producer h :
  statics h = Sm →
  ∃ rp kp, h !! p = Some rp ∧ static_of rp = static_of rp0 ∧ ext rp = Prod kp ∧
    peers_list rp = Some pl ∧ list_ok pl.
Proof.
  intros <-. destruct (statics_lookup _ _ _ Hp0) as (rp & Hp & Hst). pose proof Hst as [=].
  destruct (wf_producer _ _ Hwf p rp Hp) as (kp & Hkp & _); [congruence|].
  destruct (wf_has_peers _ _ Hwf p rp Hp) as (pl' & Hpl' & Hok).
  exists rp, kp. split_and!; congruence.
Qed.

(** One turn of the request loop: the request of the consumer. *)
Lemma wp_request_turn h i c rp kp (Q : Z → rm_state → Prop) s :
  mem K (<[p := with_pending_bump rp kp]> h) s → statics h = Sm → peer_at pl i = Some c →
  h !! p = Some rp → ext rp = Prod kp →
  (∀ res h' s', mem K h' s' → h' !! p = Some (with_pending_bump rp kp) →
     request_turn E p h c res (if res =? - EINPROGRESS then h' else <[p := rp]> h') →
     Q res s') →
  wp (ipa_rm_resource_consumer_request E c (max_bw rp) true false) Q s.
Proof.
  intros Hs HS Hc Hp Hkp HQ.
  destruct (loop_facts h i c HS Hc)
    as (rp' & kp' & rc & kc & Hp' & Hst & Hkp' & Hpl & Hok & Hc1 & Hkc & Hcb & Hne & Hn).
  assert (rp' = rp) as -> by congruence. assert (kp' = kp) as -> by congruence.
  assert (table_live K (<[p := with_pending_bump rp kp]> h)).
  { apply table_live_insert. apply wf_table_live. by rewrite HS. }
  eapply wp_mono; [apply (wp_consumer_request E K c rc kc); [done..| |done|done]|].
  { by rewrite lookup_insert_ne. }
  cbn beta. intros res s2 (h2 & rc' & kc' & Hs2 & (-> & Hkc' & Hstc) & Hout).
  apply (HQ res _ _ Hs2); [by rewrite lookup_insert_ne, lookup_insert_eq|].
  exists rp, kp, rc, kc, rc', kc'. split_and!; try done.
  destruct (res =? _) eqn:Hr; [done|].
  rewrite insert_insert_ne by done. by rewrite insert_insert_eq, (insert_id h p).
Qed.

Context (I : nat → Z → rheap → Prop) (J : Z → rheap → Prop).
Hypothesis Hturn : ∀ i result h c res h',
  statics h = Sm → I i result h → peer_at pl i = Some c → request_turn E p h c res h' →
  if res =? - EINPROGRESS then I (S i) (- EINPROGRESS) h'
  else if res =? 0 then I (S i) result h' else J res h'.
Hypothesis Hskip : ∀ i result h,
  statics h = Sm → I i result h → peer_at pl i = None → I (S i) result h.

Lemma wp_request_consumers n i result h s :
  mem K h s → statics h = Sm → I i result h → (i + n ≤ IPA_RM_RESOURCE_MAX)%nat →
  wp (request_consumers E p n (Z.of_nat i) result)
    (λ '(res, bailed) s', ∃ h', mem K h' s' ∧ statics h' = Sm ∧
       if bailed : bool then J res h' else I (i + n)%nat res h') s.
Proof.
  revert i result h s. induction n as [|n IH]; intros i result h s Hs HS HI Hn; cbn [request_consumers].
  { apply wp_ret. exists h. by rewrite Nat.add_0_r. }
  replace (i + S n)%nat with (S i + n)%nat by lia.
  replace (Z.of_nat i + 1) with (Z.of_nat (S i)) by lia.
  destruct (loop_producer h HS) as (rp & kp & Hp & _ & Hkp & Hpl & Hok).
  rm_step. eapply wp_get_peer; [done..|lia|].
  destruct (peer_at pl i) as [c|] eqn:Hc; [|apply (IH (S i) result h); try done; [by eapply Hskip|lia]].
  rm_steps. change (with_ext (Prod (with_pending_request (pending_request kp + 1) kp)) rp)
    with (with_pending_bump rp kp) in *.
  change (max_bw (with_pending_bump rp kp)) with (max_bw rp).
  apply (wp_request_turn h i c rp kp); [done..|]. intros res h2 s2 Hs2 Hp2 Hrt.
  pose proof (Hturn i result h c res _ HS HI Hc Hrt) as HI2.
  pose proof (request_turn_statics _ _ _ _ _ _ Hrt) as HS2. rewrite HS in HS2.
  destruct (res =? - EINPROGRESS); cbn beta iota zeta; [apply (IH _ _ h2); try done; lia|].
  rm_steps. rewrite (with_pending_unbump rp kp) in * by done.
  destruct (res =? 0); cbn [negb]; [eapply IH; [done|exact HS2|done|lia]|]. apply wp_ret. eauto.
Qed.

(** One turn of the release loop. *)
Lemma wp_release_turn h i c rp kp (Q : () → rm_state → Prop) s :
  mem K h s → statics h = Sm → peer_at pl i = Some c → h !! p = Some rp → ext rp = Prod kp →
  (∀ h' s', mem K h' s' → release_turn E p h c h' → Q () s') →
  wp (k ← get_prod p;
      upd_prod p (with_pending_release (pending_release k + 1)) ;;
      r ← get_res p;
      ipa_rm_resource_consumer_release E c (max_bw r) true ;;
      k ← get_prod p;
      upd_prod p (with_pending_release (pending_release k - 1))) Q s.
Proof.
  intros Hs HS Hc Hp Hkp HQ.
  destruct (loop_facts h i c HS Hc)
    as (rp' & kp' & rc & kc & Hp' & Hst & Hkp' & Hpl & Hok & Hc1 & Hkc & Hcb & Hne & Hn).
  assert (rp' = rp) as -> by congruence. assert (kp' = kp) as -> by congruence.
  rm_steps. set (rp1 := with_ext _ rp) in *. change (max_bw rp1) with (max_bw rp).
  assert (table_live K (<[p := rp1]> h)).
  { apply table_live_insert. apply wf_table_live. by rewrite HS. }
  eapply wp_mono; [apply (wp_consumer_release E K c rc kc); [done..| |done|done]|].
  { by rewrite lookup_insert_ne. }
  cbn beta. intros res s2 (h2 & rc' & kc' & Hs2 & (-> & Hkc' & Hstc) & Hout).
  assert (<[c := rc']> (<[p := rp1]> h) !! p = Some rp1) as Hp2
    by by rewrite lookup_insert_ne, lookup_insert_eq.
  rm_step. eapply wp_get_prod; [done..|]. eapply wp_upd_prod; [done..|]. intros s3 Hs3.
  eapply HQ; [exact Hs3|]. exists rp, kp, rc, kc, rc', kc', res. split_and!; try done.
  rewrite insert_insert_ne, insert_insert_eq by done. f_equal. apply insert_id.
  rewrite Hp. f_equal. subst rp1. clear - Hkp. destruct rp, kp. cbn in *. subst.
  unfold with_ext. cbn. do 2 f_equal. unfold with_pending_release. cbn. f_equal. lia.
Qed.

Lemma wp_release_consumers (R : nat → rheap → Prop) (Q : () → rm_state → Prop) h s :
  mem K h s → statics h = Sm → R 0%nat h →
  (∀ i h c h', statics h = Sm → R i h → peer_at pl i = Some c → release_turn E p h c h' →
     R (S i) h') →
  (∀ i h, statics h = Sm → R i h → peer_at pl i = None → R (S i) h) →
  (∀ h' s', mem K h' s' → statics h' = Sm → R IPA_RM_RESOURCE_MAX h' → Q () s') →
  wp (release_consumers E p) Q s.
Proof.
  intros Hs HS HR Hrel Hno HQ. unfold release_consumers.
  destruct (loop_producer h HS) as (rp & kp & Hp & _ & Hkp & Hpl & Hok).
  eapply wp_for_each_peer; [done..|exact HR| |done].
  intros i h1 s1 Hi Hs1 HS1 HR1. destruct (peer_at pl i) as [c|] eqn:Hc; [|by eapply Hno].
  destruct (loop_producer h1 HS1) as (rp1 & kp1 & Hp1 & _ & Hkp1 & _).
  eapply (wp_release_turn h1 i c); [done..|]. intros h2 s2 Hs2 Ht. exists h2. split; [done|].
  pose proof (release_turn_statics _ _ _ _ _ Ht) as HS2. rewrite HS1 in HS2. eauto.
Qed.
End loops.

(** ** The operations on a producer

    [h1] is the memory once the producer has entered its transition. *)

Definition requesting (r : ipa_rm_resource) (k : resource_prod) : ipa_rm_resource :=
  with_ext (Prod (with_pending_request 0 k)) (with_state IPA_RM_REQUEST_IN_PROGRESS r).
Definition releasing (r : ipa_rm_resource) (k : resource_prod) : ipa_rm_resource :=
  with_ext (Prod (with_pending_release 0 k)) (with_state IPA_RM_RELEASE_IN_PROGRESS r).

Lemma wp_producer_request p r k pl (I : nat → Z → rheap → Prop) (J : Z → rheap → Prop)
    (Q : Z → rm_state → Prop) h s :
  mem K h s → wf K (statics h) → h !! p = Some r → ext r = Prod k → peers_list r = Some pl →
  state r = IPA_RM_RELEASED ∨ state r = IPA_RM_RELEASE_IN_PROGRESS →
  I 0%nat 0 (<[p := requesting r k]> h) →
  (∀ i result h1 c res h', statics h1 = statics h → I i result h1 → peer_at pl i = Some c →
     request_turn E p h1 c res h' →
     if res =? - EINPROGRESS then I (S i) (- EINPROGRESS) h'
     else if res =? 0 then I (S i) result h' else J res h') →
  (∀ i result h1, statics h1 = statics h → I i result h1 → peer_at pl i = None →
     I (S i) result h1) →
  (∀ res h' s', mem K h' s' → statics h' = statics h → J res h' → Q res s') →
  (∀ res h' r' k' s', statics h' = statics h → I IPA_RM_RESOURCE_MAX res h' →
     h' !! p = Some r' → ext r' = Prod k' →
     mem K (if pending_request k' =? 0 then <[p := with_state IPA_RM_GRANTED r']> h' else h') s' →
     Q (if pending_request k' =? 0 then 0 else res) s') →
  wp (ipa_rm_resource_producer_request E p) Q s.
Proof.
  intros Hs Hwf Hp Hk Hpl Hst HI Hturn Hskip HJ HQ.
  pose proof (wf_type_of_ext _ _ Hwf p r Hp) as Hty. rewrite Hk in Hty.
  assert (statics (<[p := requesting r k]> h) = statics h) as HS.
  { eapply statics_insert_same; [done|]. by apply (static_same_prod (with_state _ r) k). }
  pose proof (lookup_statics _ _ _ Hp) as HSp.
  destruct (wf_has_peers _ _ Hwf p r Hp) as (pl' & Hpl' & Hok).
  assert (pl' = pl) as -> by congruence.
  unfold ipa_rm_resource_producer_request. rm_step. rm_step.
  assert (∀ (m1 m2 m : RM Z), wp m Q s →
    wp (match state r with
        | IPA_RM_GRANTED => m1 | IPA_RM_REQUEST_IN_PROGRESS => m2
        | IPA_RM_RELEASED | IPA_RM_RELEASE_IN_PROGRESS => m end) Q s) as Hm.
  { intros. by destruct Hst as [-> | ->]. }
  apply Hm. clear Hm. rm_steps. rewrite insert_insert_eq in *.
  change (<[p := with_ext _ _]> h) with (<[p := requesting r k]> h) in *.
  unfold ipa_rm_peers_list_get_size. rewrite (lo_max _ Hok), Nat2Z.id.
  eapply wp_mono.
  - eapply (wp_request_consumers p r pl (statics h) Hwf HSp Hty Hpl I J Hturn Hskip
      IPA_RM_RESOURCE_MAX 0%nat 0); [eassumption|done|done|lia].
  - intros [res []] s3 (h3 & Hs3 & HS3 & HIJ).
    { apply wp_ret. by eapply HJ. }
    destruct (loop_producer p r pl (statics h) Hwf HSp Hty Hpl h3 HS3)
      as (r3 & k3 & Hp3 & Hst3 & Hk3 & _).
    assert (table_live K h3) by (apply wf_table_live; by rewrite HS3).
    specialize (HQ res h3 r3 k3). rm_step. rm_step. destruct (pending_request k3 =? 0); [|by apply wp_ret; apply HQ].
    rm_steps. by apply HQ.
Qed.

(** A release always completes: the turns leave the producer itself as it is. *)
Definition released (r : ipa_rm_resource) (k : resource_prod) : ipa_rm_resource :=
  with_state IPA_RM_RELEASED (releasing r k).

Lemma release_turn_producer p h c h' : release_turn E p h c h' → h' !! p = h !! p.
Proof.
  intros (rp & kp & rc & kc & rc' & kc' & res & _ & _ & _ & _ & Hne & _ & _ & _ & ->).
  by rewrite lookup_insert_ne.
Qed.

Lemma wp_producer_release p r k pl (R : nat → rheap → Prop) (Q : Z → rm_state → Prop) h s :
  mem K h s → wf K (statics h) → h !! p = Some r → ext r = Prod k → peers_list r = Some pl →
  state r = IPA_RM_GRANTED ∨ state r = IPA_RM_REQUEST_IN_PROGRESS →
  R 0%nat (<[p := releasing r k]> h) →
  (∀ i h1 c h', statics h1 = statics h → h1 !! p = Some (releasing r k) → R i h1 →
     peer_at pl i = Some c → release_turn E p h1 c h' → R (S i) h') →
  (∀ i h1, statics h1 = statics h → R i h1 → peer_at pl i = None → R (S i) h1) →
  (∀ h' s', statics h' = statics h → R IPA_RM_RESOURCE_MAX h' →
     h' !! p = Some (releasing r k) →
     mem K (<[p := released r k]> h') s' → Q 0 s') →
  wp (ipa_rm_resource_producer_release E p) Q s.
Proof.
  intros Hs Hwf Hp Hk Hpl Hst HR Hturn Hskip HQ.
  pose proof (wf_type_of_ext _ _ Hwf p r Hp) as Hty. rewrite Hk in Hty.
  assert (statics (<[p := releasing r k]> h) = statics h) as HS.
  { eapply statics_insert_same; [done|]. by apply (static_same_prod (with_state _ r) k). }
  pose proof (lookup_statics _ _ _ Hp) as HSp.
  unfold ipa_rm_resource_producer_release. rm_step. rm_step.
  assert (∀ (m1 m2 m : RM Z), wp m Q s →
    wp (match state r with
        | IPA_RM_RELEASED => m1 | IPA_RM_RELEASE_IN_PROGRESS => m2
        | IPA_RM_GRANTED | IPA_RM_REQUEST_IN_PROGRESS => m end) Q s) as Hm.
  { intros. by destruct Hst as [-> | ->]. }
  apply Hm. clear Hm. do 5 rm_step. rewrite insert_insert_eq in *.
  change (<[p := with_ext _ _]> h) with (<[p := releasing r k]> h) in *. rm_step.
  eapply (wp_release_consumers p r pl (statics h) Hwf HSp Hty Hpl
    (λ i h1, R i h1 ∧ h1 !! p = Some (releasing r k))); [eassumption|done| | | |].
  - split; [done|]. by rewrite lookup_insert_eq.
  - intros i h1 c h' HS1 [HR1 Hp1] Hc Ht. split; [by eapply Hturn|].
    by rewrite (release_turn_producer _ _ _ _ Ht).
  - intros i h1 HS1 [HR1 Hp1] Hc. split; [by eapply Hskip|done].
  - intros h2 s2 Hs2 HS2 [HR2 Hp2].
    assert (table_live K h2) by (apply wf_table_live; by rewrite HS2).
    do 3 rm_step. cbn [pending_release with_pending_release Z.eqb]. cbn [when].
    rm_steps. by apply (HQ h2).
Qed.
End Producer.

(** * IPA resource manager: links between producers and consumers *)

(** ** One list *)

(** The list with slot [i] set to [q], its count moved by [d]. *)
Definition set_slot (i : nat) (q : ipa_rm_resource_peer) (d : Z) (pl : ipa_rm_peers_list) :
    ipa_rm_peers_list :=
  mkPeers (<[i := q]> (peers pl)) (max_peers pl) (peers_count pl + d).

Lemma peers_index_valid n :
  valid_name n = true → ipa_rm_peers_list_get_resource_index n = Z.of_nat n ∧ (n < IPA_RM_RESOURCE_MAX)%nat.
Proof. rewrite peers_index_eq. apply valid_name_index. Qed.

Lemma set_peer_resource_eq l i r q :
  l !! i = Some q →
  set_peer_resource l (Z.of_nat i) r = Some (<[i := mkPeer r (peer_userspace_dep q)]> l).
Proof.
  intros Hi. unfold set_peer_resource. rewrite lookup_z_nat, Hi. cbn.
  apply store_z_nat. by eapply lookup_lt_Some.
Qed.

Lemma set_peer_userspace_eq l i us q :
  l !! i = Some q →
  set_peer_userspace l (Z.of_nat i) us = Some (<[i := mkPeer (peer_resource q) us]> l).
Proof.
  intros Hi. unfold set_peer_userspace. rewrite lookup_z_nat, Hi. cbn.
  apply store_z_nat. by eapply lookup_lt_Some.
Qed.

Lemma list_ok_slot pl n :
  list_ok pl → valid_name n = true → ∃ q, peers pl !! n = Some q.
Proof.
  intros [Hlen _ _ _] [_ Hn]%peers_index_valid. apply lookup_lt_is_Some. lia.
Qed.

Lemma add_peer_list pl l n us :
  list_ok pl → valid_name n = true →
  ipa_rm_peers_list_add_peer pl l n us = Some (set_slot n (mkPeer (Some l) us) 1 pl).
Proof.
  intros Hok Hn. destruct (list_ok_slot pl n Hok Hn) as [q Hq].
  unfold ipa_rm_peers_list_add_peer. rewrite (proj1 (peers_index_valid n Hn)).
  rewrite (set_peer_resource_eq _ _ _ q Hq). cbn.
  erewrite set_peer_userspace_eq; [|by eapply list_lookup_insert_eq, lookup_lt_Some]. cbn.
  by rewrite list_insert_insert_eq.
Qed.

Lemma remove_peer_list pl n :
  list_ok pl → valid_name n = true →
  ipa_rm_peers_list_remove_peer pl n = Some (set_slot n no_peer (-1) pl).
Proof.
  intros Hok Hn. destruct (list_ok_slot pl n Hok Hn) as [q Hq].
  unfold ipa_rm_peers_list_remove_peer. rewrite (proj1 (peers_index_valid n Hn)).
  rewrite (set_peer_resource_eq _ _ _ q Hq). cbn.
  erewrite set_peer_userspace_eq; [|by eapply list_lookup_insert_eq, lookup_lt_Some]. cbn.
  by rewrite list_insert_insert_eq.
Qed.

Lemma occupied_cons q l :
  occupied (q :: l) = (match peer_resource q with Some _ => 1 | None => 0 end) + occupied l.
Proof.
  unfold occupied. rewrite filter_cons. destruct (peer_resource q) eqn:Hq.
  - rewrite decide_True by done. cbn [length]. lia.
  - rewrite decide_False by naive_solver. done.
Qed.

Lemma occupied_insert l i q q' :
  l !! i = Some q →
  occupied (<[i := q']> l) =
    occupied l - (match peer_resource q with Some _ => 1 | None => 0 end)
               + (match peer_resource q' with Some _ => 1 | None => 0 end).
Proof.
  revert i. induction l as [|x l IH]; intros [|i] Hi; try done; cbn in Hi.
  - injection Hi as ->. cbn. rewrite !occupied_cons. lia.
  - change (<[S i := q']> (x :: l)) with (x :: <[i := q']> l).
    rewrite !occupied_cons, (IH i Hi). lia.
Qed.

Lemma list_ok_set_slot pl i q q' d :
  list_ok pl → peers pl !! i = Some q →
  d = (match peer_resource q' with Some _ => 1 | None => 0 end)
      - (match peer_resource q with Some _ => 1 | None => 0 end) →
  (peer_resource q' = None → peer_userspace_dep q' = false) →
  list_ok (set_slot i q' d pl).
Proof.
  intros [Hlen Hmax Hcnt Hemp] Hi -> Hq'. split; cbn.
  - by rewrite length_insert.
  - done.
  - rewrite (occupied_insert _ _ q) by done. lia.
  - intros j us Hj. destruct (decide (j = i)) as [->|Hne].
    + rewrite list_lookup_insert_eq in Hj by by eapply lookup_lt_Some. injection Hj as ->. by apply Hq'.
    + rewrite list_lookup_insert_ne in Hj by done. by eapply Hemp.
Qed.

(** ** Both sides *)

Definition static_with_peers (pl : ipa_rm_peers_list) (st : static) : static :=
  mkStatic (st_name st) (st_type st) (st_floor st) (st_max_bw st) (Some pl) (st_ext st).

Section relink.
Context (K : control) (Sm : smap) (a b : loc) (sa sb : static).
Context (pla plb pla' plb' : ipa_rm_peers_list) (on : bool) (us : bool).
Hypotheses (Hwf : wf K Sm) (Ha : Sm !! a = Some sa) (Hb : Sm !! b = Some sb).
Hypothesis (Htype : st_type sa ≠ st_type sb).
Hypotheses (Hpa : st_peers sa = Some pla) (Hpb : st_peers sb = Some plb).
Hypotheses (Hoka : list_ok pla') (Hokb : list_ok plb').
Hypothesis Hpa' : peers pla' = <[st_name sb := mkPeer (if on then Some b else None) us]> (peers pla).
Hypothesis Hpb' : peers plb' = <[st_name sa := mkPeer (if on then Some a else None) us]> (peers plb).

Let Sm' : smap := <[a := static_with_peers pla' sa]> (<[b := static_with_peers plb' sb]> Sm).

Lemma relink_ne : a ≠ b.
Proof. intros ->. congruence. Qed.

Lemma relink_a : Sm' !! a = Some (static_with_peers pla' sa).
Proof. apply lookup_insert_eq. Qed.
Lemma relink_b : Sm' !! b = Some (static_with_peers plb' sb).
Proof. pose proof relink_ne. unfold Sm'. by rewrite lookup_insert_ne, lookup_insert_eq. Qed.
Lemma relink_other l : l ≠ a → l ≠ b → Sm' !! l = Sm !! l.
Proof. intros. unfold Sm'. by rewrite !lookup_insert_ne. Qed.

(** Every entry keeps all but its list. *)
Lemma relink_back l st' :
  Sm' !! l = Some st' →
  ∃ st, Sm !! l = Some st ∧ st_name st' = st_name st ∧ st_type st' = st_type st ∧
    st_ext st' = st_ext st.
Proof.
  destruct (decide (l = a)) as [->|]; [rewrite relink_a; intros [= <-]; eauto|].
  destruct (decide (l = b)) as [->|]; [rewrite relink_b; intros [= <-]; eauto|].
  rewrite relink_other by done. eauto.
Qed.

Lemma static_name_inj l1 l2 st1 st2 :
  Sm !! l1 = Some st1 → Sm !! l2 = Some st2 → st_name st1 = st_name st2 → l1 = l2.
Proof.
  intros (H1 & _)%(wf_res _ _ Hwf) (H2 & _)%(wf_res _ _ Hwf) Hn. rewrite Hn in H1. congruence.
Qed.

Lemma slot_in_range l st pl : Sm !! l = Some st → list_ok pl → (st_name st < length (peers pl))%nat.
Proof.
  intros (_ & _ & Hr)%(wf_res _ _ Hwf) [-> _ _]. by apply peers_index_valid, (proj1 Hr).
Qed.

(** A link seen from a resource that is neither [a] nor [b] is still there. *)
Lemma relink_linked_other l st i q us' :
  l ≠ a → l ≠ b → Sm !! l = Some st → linked Sm l st i q us' → linked Sm' l st i q us'.
Proof.
  intros Hla Hlb Hl (st' & pl' & Hq & Hn & Ht & Hpl & Hback). unfold linked.
  destruct (decide (q = a)) as [->|Hqa].
  { assert (st' = sa) as -> by congruence. assert (pl' = pla) as -> by congruence.
    exists (static_with_peers pla' sa), pla'. rewrite relink_a. split_and!; try done.
    rewrite Hpa', list_lookup_insert_ne; [done|]. intros He. apply Hlb.
    by eapply static_name_inj. }
  destruct (decide (q = b)) as [->|Hqb].
  { assert (st' = sb) as -> by congruence. assert (pl' = plb) as -> by congruence.
    exists (static_with_peers plb' sb), plb'. rewrite relink_b. split_and!; try done.
    rewrite Hpb', list_lookup_insert_ne; [done|]. intros He. apply Hla.
    by eapply static_name_inj. }
  exists st', pl'. by rewrite relink_other.
Qed.
End relink.

(** One side: the links of [a] in the new map. *)
Lemma relink_peers_ok K Sm a b sa sb pla plb pla' plb' (on us : bool) :
  wf K Sm → Sm !! a = Some sa → Sm !! b = Some sb → st_type sa ≠ st_type sb →
  st_peers sa = Some pla → st_peers sb = Some plb → list_ok pla' → list_ok plb' →
  peers pla' = <[st_name sb := mkPeer (if on then Some b else None) us]> (peers pla) →
  peers plb' = <[st_name sa := mkPeer (if on then Some a else None) us]> (peers plb) →
  peers_ok (<[a := static_with_peers pla' sa]> (<[b := static_with_peers plb' sb]> Sm))
    a (static_with_peers pla' sa).
Proof.
  intros Hwf Ha Hb Htype Hpa Hpb Hoka Hokb Hpa' Hpb'.
  assert (a ≠ b) as Hne by (intros ->; congruence).
  exists pla'. split_and!; [done|done|]. intros i q us' Hi. rewrite Hpa' in Hi.
  destruct (decide (i = st_name sb)) as [->|Hni].
  - assert (st_name sb < length (peers pla))%nat as Hlt.
    { apply lookup_lt_Some in Hi. by rewrite length_insert in Hi. }
    rewrite list_lookup_insert_eq in Hi by done. destruct on; [|done]. injection Hi as <- <-.
    exists (static_with_peers plb' sb), plb'. rewrite lookup_insert_ne, lookup_insert_eq by done.
    split_and!; [done..| |done|]; [by intros He; apply Htype|].
    cbn. rewrite Hpb', list_lookup_insert_eq; [done|].
    pose proof (slot_in_range _ _ Hwf a sa plb' Ha Hokb) as Hr. rewrite Hpb' in Hr.
    by rewrite length_insert in Hr.
  - rewrite list_lookup_insert_ne in Hi by done.
    destruct (wf_peers _ _ Hwf a sa Ha) as (pl0 & Hpl0 & _ & Hlk).
    assert (pl0 = pla) as -> by congruence.
    destruct (Hlk i q us' Hi) as (st' & pl' & Hq & Hn & Ht & Hpl & Hback).
    assert (q ≠ a) by (intros ->; congruence).
    assert (q ≠ b) by (intros ->; congruence).
    exists st', pl'. by rewrite !lookup_insert_ne.
Qed.

Lemma wf_relink K Sm a b sa sb pla plb pla' plb' (on us : bool) :
  wf K Sm → Sm !! a = Some sa → Sm !! b = Some sb → st_type sa ≠ st_type sb →
  st_peers sa = Some pla → st_peers sb = Some plb → list_ok pla' → list_ok plb' →
  peers pla' = <[st_name sb := mkPeer (if on then Some b else None) us]> (peers pla) →
  peers plb' = <[st_name sa := mkPeer (if on then Some a else None) us]> (peers plb) →
  wf K (<[a := static_with_peers pla' sa]> (<[b := static_with_peers plb' sb]> Sm)).
Proof.
  intros Hwf Ha Hb Htype Hpa Hpb Hoka Hokb Hpa' Hpb'.
  assert (a ≠ b) as Hne by (intros ->; congruence). split.
  - intros n l Hn. destruct (wf_table _ _ Hwf n l Hn) as (st & Hl & Hst).
    destruct (decide (l = a)) as [->|]; [exists (static_with_peers pla' sa); rewrite lookup_insert_eq; split; [done|]; by simplify_eq|].
    destruct (decide (l = b)) as [->|]; [exists (static_with_peers plb' sb); rewrite lookup_insert_ne, lookup_insert_eq by done; split; [done|]; by simplify_eq|].
    exists st. by rewrite !lookup_insert_ne.
  - intros l st' Hl. eapply relink_back in Hl as (st & Hl & Hn & Ht & He); [|done..].
    rewrite Hn.
    destruct (wf_res _ _ Hwf l st Hl) as (? & ? & Hr1 & Hr2). split_and!; [done..|].
    unfold res_ok. by rewrite Hn, Ht, He.
  - intros l st' Hl.
    destruct (decide (l = a)) as [->|Hla].
    { rewrite lookup_insert_eq in Hl. injection Hl as <-. by eapply relink_peers_ok. }
    destruct (decide (l = b)) as [->|Hlb].
    { rewrite lookup_insert_ne, lookup_insert_eq in Hl by done. injection Hl as <-.
      rewrite insert_insert_ne by done. by eapply relink_peers_ok. }
    rewrite !lookup_insert_ne in Hl by done.
    destruct (wf_peers _ _ Hwf l st' Hl) as (pl & Hpl & Hok & Hlk). exists pl.
    split_and!; [done|done|]. intros i q us' Hi. specialize (Hlk i q us' Hi).
    by eapply (relink_linked_other K Sm a b sa sb pla plb pla' plb' on us).
Qed.
