(* ===== verification/RmOps.v ===== *)
(** * IPA resource manager: adding and deleting dependencies

    What [ipa_rm_resource_add_dependency] and [ipa_rm_resource_delete_dependency] do to
    memory, between a producer [p] and a consumer [d].

    What [ipa_rm_resource_set_perf_profile], the registration functions,
    [ipa_rm_resource_create] and [ipa_rm_resource_delete] do to memory. *)

From S2P Require Import Prelude.
From S2P Require Import RmTypes.
From S2P Require Import RmPeers.
From S2P Require Import RmCore.
From S2P Require Import RmResource.
From S2P Require Import RmConsumer.
From S2P Require Import RmWf.
From S2P Require Import RmProducer.

(** ** The outcomes *)

Definition link_prod (d : loc) (rd : ipa_rm_resource) (us : bool) (plp : ipa_rm_peers_list)
    (rp : ipa_rm_resource) : ipa_rm_resource :=
  with_needed_bw (u32 (needed_bw rp + max_bw rd))
    (with_peers (set_slot (name rd) (mkPeer (Some d) us) 1 plp) rp).

Definition link_cons (p : loc) (rp : ipa_rm_resource) (us : bool) (pld : ipa_rm_peers_list)
    (rd : ipa_rm_resource) : ipa_rm_resource :=
  with_peers (set_slot (name rp) (mkPeer (Some p) us) 1 pld) rd.

Definition active (r : ipa_rm_resource) : bool :=
  match state r with
  | IPA_RM_GRANTED | IPA_RM_REQUEST_IN_PROGRESS => true
  | IPA_RM_RELEASED | IPA_RM_RELEASE_IN_PROGRESS => false
  end.

Definition add_outcome (E : rm_env) (p d : loc) (us : bool) (rp : ipa_rm_resource)
    (kp : resource_prod) (plp : ipa_rm_peers_list) (rd : ipa_rm_resource) (kd : resource_cons)
    (pld : ipa_rm_peers_list) (h : rheap) (res : Z) (h' : rheap) : Prop :=
  let rp1 := link_prod d rd us plp rp in
  let rd1 := link_cons p rp us pld rd in
  if active rp then
    ∃ rd' kd', ext rd' = Cons kd' ∧ static_of rd' = static_of rd1 ∧
      request_outcome E (max_bw rp) true false rd1 kd res rd' kd' ∧
      h' = <[d := rd']> (<[p :=
             if res =? - EINPROGRESS
             then with_state IPA_RM_REQUEST_IN_PROGRESS (with_pending_bump rp1 kp)
             else rp1]> h)
  else res = 0 ∧ h' = <[d := rd1]> (<[p := rp1]> h).

(** The producer after the deletion of a dependency on a consumer in the state [std],
    and whether the consumer has to be released. *)
Definition prod_after_delete (std : ipa_rm_resource_state) (rp : ipa_rm_resource)
    (kp : resource_prod) : ipa_rm_resource * bool :=
  match state rp with
  | IPA_RM_RELEASED => (rp, false)
  | IPA_RM_GRANTED => (rp, true)
  | IPA_RM_RELEASE_IN_PROGRESS =>
      let n := if 0 <? pending_release kp then pending_release kp - 1 else pending_release kp in
      let rp1 := with_ext (Prod (with_pending_release n kp)) rp in
      (if bool_decide (std = IPA_RM_RELEASE_IN_PROGRESS) && (n =? 0)
       then with_state IPA_RM_RELEASED rp1 else rp1, false)
  | IPA_RM_REQUEST_IN_PROGRESS =>
      let n := if 0 <? pending_request kp then pending_request kp - 1 else pending_request kp in
      let rp1 := with_ext (Prod (with_pending_request n kp)) rp in
      (if bool_decide (std = IPA_RM_REQUEST_IN_PROGRESS) && (n =? 0)
       then with_state IPA_RM_GRANTED rp1 else rp1, true)
  end.

Definition unlink (n : ipa_rm_resource_name) (pl : ipa_rm_peers_list) : ipa_rm_peers_list :=
  set_slot n no_peer (-1) pl.

Definition delete_outcome (E : rm_env) (p d : loc) (rp : ipa_rm_resource)
    (kp : resource_prod) (plp : ipa_rm_peers_list) (rd : ipa_rm_resource) (kd : resource_cons)
    (pld : ipa_rm_peers_list) (h h' : rheap) : Prop :=
  let '(rp1, release) :=
    prod_after_delete (state rd) (with_needed_bw (u32 (needed_bw rp - max_bw rd)) rp) kp in
  let rd1 := with_peers (unlink (name rp) pld) rd in
  ∃ rd', h' = <[d := rd']> (<[p := with_peers (unlink (name rd) plp) rp1]> h) ∧
    if release : bool then
      ∃ res kd', ext rd' = Cons kd' ∧ static_of rd' = static_of rd1 ∧
        release_outcome E (max_bw rp) true rd1 kd res rd' kd'
    else rd' = rd1.

Lemma prod_after_delete_static std rp kp :
  ext rp = Prod kp → static_of (prod_after_delete std rp kp).1 = static_of rp.
Proof.
  intros Hk. unfold prod_after_delete.
  destruct (state rp); cbn [fst]; try done; case_match; unfold static_of; cbn; by rewrite Hk.
Qed.

(** ** Specifications *)

Section Deps.
Context (E : rm_env) (K : control) (h : rheap).
Context (p d : loc) (rp rd : ipa_rm_resource) (kp : resource_prod) (kd : resource_cons).
Context (plp pld : ipa_rm_peers_list).
Hypotheses (Hwf : wf K (statics h)) (Hp : h !! p = Some rp) (Hd : h !! d = Some rd).
Hypotheses (Hkp : ext rp = Prod kp) (Hkd : ext rd = Cons kd).
Hypotheses (Hplp : peers_list rp = Some plp) (Hpld : peers_list rd = Some pld).

Lemma deps_ne : p ≠ d.
Proof. intros ->. congruence. Qed.

Lemma deps_types : type rp = IPA_RM_PRODUCER ∧ type rd = IPA_RM_CONSUMER.
Proof.
  pose proof (wf_type_of_ext _ _ Hwf p rp Hp) as H1. pose proof (wf_type_of_ext _ _ Hwf d rd Hd) as H2.
  by rewrite Hkp in H1; rewrite Hkd in H2.
Qed.

Lemma deps_names : valid_name (name rp) = true ∧ valid_name (name rd) = true.
Proof.
  destruct (wf_res_ok _ _ Hwf p rp Hp) as [? _], (wf_res_ok _ _ Hwf d rd Hd) as [? _]. done.
Qed.

Lemma deps_lists : list_ok plp ∧ list_ok pld.
Proof.
  destruct (wf_has_peers _ _ Hwf p rp Hp) as (? & ? & ?), (wf_has_peers _ _ Hwf d rd Hd) as (? & ? & ?).
  split; congruence.
Qed.

(** The two slots of the pair agree. *)
Lemma deps_slots :
  (∃ us, peers plp !! name rd = Some (mkPeer (Some d) us) ∧
         peers pld !! name rp = Some (mkPeer (Some p) us)) ∨
  (∃ us us', peers plp !! name rd = Some (mkPeer None us) ∧
             peers pld !! name rp = Some (mkPeer None us')).
Proof.
  destruct deps_lists as [Hokp Hokd], deps_names as [Hnp Hnd].
  destruct (list_ok_slot plp (name rd) Hokp Hnd) as [[[q|] us] Hq].
  - destruct (wf_peer _ _ Hwf p rp plp (name rd) q us Hp Hplp Hq) as (rq & plq & Hhq & Hn & _ & Hpq & Hback).
    assert (q = d) as -> by by eapply (wf_name_inj _ _ Hwf).
    left. exists us. split; [done|]. congruence.
  - destruct (list_ok_slot pld (name rp) Hokd Hnp) as [[[q'|] us'] Hq']; [|eauto 6].
    destruct (wf_peer _ _ Hwf d rd pld (name rp) q' us' Hd Hpld Hq') as (rq & plq & Hhq & Hn & _ & Hpq & Hback).
    assert (q' = p) as -> by by eapply (wf_name_inj _ _ Hwf). congruence.
Qed.

Lemma wp_check_dependency q (Q : bool * option bool → rm_state → Prop) s :
  mem K h s → peers plp !! name rd = Some q →
  Q (match peer_resource q with
     | Some _ => (true, Some (peer_userspace_dep q)) | None => (false, None) end) s →
  wp (check_dependency p d) Q s.
Proof.
  intros Hs Hq HQ. unfold check_dependency. do 4 rm_step. cbn beta.
  destruct deps_names as [Hnp Hnd]. unfold ipa_rm_peers_list_check_dependency.
  rewrite Hplp, Hpld. rewrite (proj1 (peers_index_valid _ Hnp)), (proj1 (peers_index_valid _ Hnd)).
  rewrite !lookup_z_nat, Hq.
  destruct deps_slots as [(us & H1 & H2)|(us & us' & H1 & H2)]; rewrite H2; cbn;
    rewrite Hq in H1; injection H1 as ->; exact HQ.
Qed.

Lemma wf_linked us b :
  peers plp !! name rd = Some (mkPeer None b) →
  wf K (statics (<[d := link_cons p rp us pld rd]> (<[p := link_prod d rd us plp rp]> h))).
Proof.
  intros Hslot. pose proof deps_ne. destruct deps_lists as [Hokp Hokd], deps_types as [Htp Htd].
  destruct deps_slots as [(us0 & H1 & _)|(us0 & us1 & H1 & H2)]; [congruence|].
  rewrite !statics_insert. apply (wf_relink K (statics h) d p (static_of rd) (static_of rp)
    pld plp _ _ true us); try done; [by apply lookup_statics..| | |].
  - cbn. congruence.
  - by eapply list_ok_set_slot.
  - by eapply list_ok_set_slot.
Qed.

Lemma wf_unlinked us rp' rd' :
  peers plp !! name rd = Some (mkPeer (Some d) us) →
  static_of rp' = static_of (with_peers (unlink (name rd) plp) rp) →
  static_of rd' = static_of (with_peers (unlink (name rp) pld) rd) →
  wf K (statics (<[d := rd']> (<[p := rp']> h))).
Proof.
  intros Hslot Hsp Hsd. pose proof deps_ne. destruct deps_lists as [Hokp Hokd], deps_types as [Htp Htd].
  destruct deps_slots as [(us0 & H1 & H2)|(us0 & us1 & H1 & H2)]; [|congruence].
  rewrite !statics_insert, Hsp, Hsd. apply (wf_relink K (statics h) d p (static_of rd) (static_of rp)
    pld plp _ _ false false); try done; [by apply lookup_statics..| | |].
  - cbn. congruence.
  - by eapply list_ok_set_slot.
  - by eapply list_ok_set_slot.
Qed.

Lemma wp_add_peer o q ro rq plo h1 us (Q : () → rm_state → Prop) s :
  mem K h1 s → h1 !! o = Some ro → h1 !! q = Some rq → peers_list ro = Some plo →
  list_ok plo → valid_name (name rq) = true →
  (∀ s', mem K (<[o := with_peers (set_slot (name rq) (mkPeer (Some q) us) 1 plo) ro]> h1) s' →
     Q () s') →
  wp (add_peer o q us) Q s.
Proof.
  intros Hs Ho Hq Hpl Hok Hn HQ. unfold add_peer. do 4 rm_step. cbn beta. rewrite Hpl.
  rewrite (add_peer_list plo q (name rq) us Hok Hn). rm_step.
  eapply wp_of_option; [done|]. eapply wp_upd_res; [done..|]. done.
Qed.

Lemma wp_remove_peer o ro plo n h1 (Q : () → rm_state → Prop) s :
  mem K h1 s → h1 !! o = Some ro → peers_list ro = Some plo → list_ok plo →
  valid_name n = true →
  (∀ s', mem K (<[o := with_peers (unlink n plo) ro]> h1) s' → Q () s') →
  wp (remove_peer o n) Q s.
Proof.
  intros Hs Ho Hpl Hok Hn HQ. unfold remove_peer. do 2 rm_step. cbn beta. rewrite Hpl.
  rewrite (remove_peer_list plo n Hok Hn). rm_step.
  eapply wp_of_option; [done|]. eapply wp_upd_res; [done..|]. done.
Qed.

Lemma deps_callbacks : callbacks_set kd.
Proof.
  destruct deps_types as [_ Htd]. destruct (wf_consumer _ _ Hwf d rd Hd Htd) as (k & Hk & Hcb & _).
  congruence.
Qed.

(** The request made for the producer by a new dependency, in the linked memory. *)
Lemma wp_add_request us b (rp1 := link_prod d rd us plp rp) (rd1 := link_cons p rp us pld rd) s :
  active rp = true → peers plp !! name rd = Some (mkPeer None b) →
  mem K (<[p := rp1]> (<[d := rd1]> h)) s →
  wp (let prev_state := state rp1 in
      set_state p IPA_RM_REQUEST_IN_PROGRESS ;;
      k ← get_prod p;
      upd_prod p (with_pending_request (pending_request k + 1)) ;;
      consumer_result ← ipa_rm_resource_consumer_request E d (max_bw rp1) true false;
      when (negb (consumer_result =? - EINPROGRESS))
        (set_state p prev_state ;;
         k ← get_prod p;
         upd_prod p (with_pending_request (pending_request k - 1)) ;;
         ipa_rm_perf_profile_change E (name rp1)) ;;
      mret consumer_result)
    (λ res s', ∃ h', mem K h' s' ∧ add_outcome E p d us rp kp plp rd kd pld h res h') s.
Proof.
  intros Hact Hslot Hs. pose proof deps_ne as Hne.
  pose proof (wf_table_live _ _ Hwf) as Hlive.
  unfold add_outcome. fold rp1 rd1. rewrite Hact.
  assert (ext rp1 = Prod kp) as Hk1 by done. rm_steps. rewrite !insert_insert_eq in *.
  set (rp2 := with_ext _ (with_state _ rp1)) in *.
  rewrite insert_insert_ne in * by done.
  eapply wp_mono; [eapply (wp_consumer_request E K d rd1 kd); [eassumption|by repeat apply table_live_insert| |done|apply deps_callbacks]|].
  { by rewrite lookup_insert_eq. }
  cbn beta. intros res s2 (h2 & rd' & kd' & Hs2 & (-> & Hkd' & Hst) & Hout). rewrite insert_insert_eq in Hs2.
  destruct (res =? - EINPROGRESS) eqn:Hres; cbn [negb when]; rm_steps.
  - eexists. split; [done|]. exists rd', kd'. split_and!; try done. by rewrite Hres.
  - eexists. split; [eassumption|]. exists rd', kd'. split_and!; [done..|].
    rewrite Hres, !insert_insert_eq, insert_insert_ne, insert_insert_eq by done. do 2 f_equal.
    subst rp2. rewrite <- (with_pending_unbump rp1 kp _ Hk1 eq_refl).
    clear. destruct rp1. unfold with_pending_bump, with_ext, with_state. cbn. done.
Qed.

Lemma wp_add_dependency us s :
  mem K h s →
  wp (ipa_rm_resource_add_dependency E p d us)
    (λ res s', ∃ h', mem K h' s' ∧
       ((res = - EEXIST ∧ h' = h ∧ ∃ b, peers plp !! name rd = Some (mkPeer (Some d) b)) ∨
        (add_outcome E p d us rp kp plp rd kd pld h res h' ∧
           ∃ b, peers plp !! name rd = Some (mkPeer None b)))) s.
Proof.
  intros Hs. pose proof deps_ne as Hne. destruct deps_lists as [Hokp Hokd], deps_names as [Hnp Hnd].
  unfold ipa_rm_resource_add_dependency. rm_step.
  destruct deps_slots as [(b & H1 & _)|(b & b' & H1 & _)];
    (eapply wp_check_dependency; [done|exact H1|]); cbn [peer_resource].
  { apply wp_ret. exists h. eauto 6. }
  rm_step. eapply (wp_add_peer p d); [done..|]. intros s1 Hs1.
  set (rp0 := with_peers _ rp) in *. rm_step.
  eapply (wp_add_peer d p rd rp0); [done|by rewrite lookup_insert_ne|by rewrite lookup_insert_eq|done..|].
  intros s2 Hs2. change (name rp0) with (name rp) in Hs2.
  set (rd1 := link_cons p rp us pld rd) in *.
  change (with_peers _ rd) with rd1 in Hs2. set (rp1 := link_prod d rd us plp rp).
  do 7 rm_step. rewrite insert_insert_ne in * by done. rewrite insert_insert_eq in *.
  change (with_needed_bw _ rp0) with rp1 in *. cbn beta.
  eapply wp_mono with (Q := λ res s', ∃ h', mem K h' s' ∧ add_outcome E p d us rp kp plp rd kd pld h res h');
    [|intros res s3 (h3 & Hs3 & Ho); exists h3; eauto 6].
  change (state rp1) with (state rp). pose proof (wp_add_request us b s') as Hreq.
  cbv zeta in Hreq. change (state (link_prod d rd us plp rp)) with (state rp) in Hreq.
  assert (active rp = false → ∃ h', mem K h' s' ∧ add_outcome E p d us rp kp plp rd kd pld h 0 h')
    as Hidle.
  { intros Hact. eexists. split; [done|]. unfold add_outcome. rewrite Hact. split; [done|].
    first [done|by rewrite insert_insert_ne]. }
  assert (mem K (<[p:=rp1]> (<[d:=rd1]> h)) s') as Hs3 by by rewrite insert_insert_ne.
  unfold active in *. destruct (state rp); [by apply wp_ret, Hidle| | |by apply wp_ret, Hidle].
  all: by apply Hreq.
Qed.

(** The switch on the state of the producer. *)
Lemma wp_delete_switch rp0 h0 s :
  mem K h0 s → table_live K h0 → h0 !! p = Some rp0 → h0 !! d = Some rd → ext rp0 = Prod kp →
  wp (delete_dependency_switch E p d)
    (λ '(release, _) s', mem K (<[p := (prod_after_delete (state rd) rp0 kp).1]> h0) s' ∧
       release = (prod_after_delete (state rd) rp0 kp).2) s.
Proof.
  intros Hs Ht Hp0 Hd0 Hk. pose proof deps_ne as Hne.
  unfold delete_dependency_switch, prod_after_delete. do 4 rm_step. cbn beta.
  destruct (state rp0) eqn:Est.
  - apply wp_ret. cbn. by rewrite insert_id.
  - rm_step. rm_step. rm_step. apply wp_when; intros Hpend; rewrite Hpend.
    + rm_steps. cbn [pending_request with_pending_request]. case_match; rm_steps;
        rewrite ?insert_insert_eq in *; by split.
    + rm_steps.
      rewrite with_pending_request_id, with_ext_id by done.
      case_match; rm_steps; cbn [fst snd]; [done|]. by rewrite insert_id.
  - rm_steps. cbn. by rewrite insert_id.
  - rm_step. rm_step. rm_step. apply wp_when; intros Hpend; rewrite Hpend.
    + rm_steps. cbn [pending_release with_pending_release]. case_match; rm_steps;
        rewrite ?insert_insert_eq in *; by split.
    + rm_steps.
      rewrite with_pending_release_id, with_ext_id by done.
      case_match; rm_steps; cbn [fst snd]; [done|]. by rewrite insert_id.
Qed.

Lemma wp_delete_release (rel : bool) w rp1 s :
  mem K (<[d := with_peers (unlink (name rp) pld) rd]> (<[p := rp1]> h)) s →
  wp (when rel (ipa_rm_resource_consumer_release E d w true ;; mret ()))
    (λ _ s', ∃ rd', mem K (<[d := rd']> (<[p := rp1]> h)) s' ∧
       if rel then ∃ res kd', ext rd' = Cons kd' ∧
            static_of rd' = static_of (with_peers (unlink (name rp) pld) rd) ∧
            release_outcome E w true (with_peers (unlink (name rp) pld) rd) kd res rd' kd'
       else rd' = with_peers (unlink (name rp) pld) rd) s.
Proof.
  intros Hs. set (rd1 := with_peers _ rd) in *. pose proof (wf_table_live _ _ Hwf) as Hlive.
  destruct rel; cbn [when]; [|by apply wp_ret; eauto]. rm_step.
  eapply wp_mono; [eapply (wp_consumer_release E K d rd1 kd);
    [eassumption|by repeat apply table_live_insert|lk|done|apply deps_callbacks]|].
  cbn beta. intros res s2 (h2 & rd' & kd' & Hs2 & (-> & Hk' & Hst) & Hout).
  rewrite insert_insert_eq in Hs2. apply wp_ret. exists rd'. split; [done|]. by exists res, kd'.
Qed.

Lemma wp_delete_dependency us s :
  mem K h s →
  wp (ipa_rm_resource_delete_dependency E p d us)
    (λ res s', ∃ h', mem K h' s' ∧
       ((res = - EINVAL ∧ h' = h ∧ ∃ b, peers plp !! name rd = Some (mkPeer None b)) ∨
        (res = 0 ∧ h' = h ∧ ∃ b, peers plp !! name rd = Some (mkPeer (Some d) b) ∧ b ≠ us) ∨
        (res = 0 ∧ peers plp !! name rd = Some (mkPeer (Some d) us) ∧
           delete_outcome E p d rp kp plp rd kd pld h h'))) s.
Proof.
  intros Hs. pose proof deps_ne as Hne. destruct deps_lists as [Hokp Hokd], deps_names as [Hnp Hnd].
  pose proof (wf_table_live _ _ Hwf) as Hlive.
  unfold ipa_rm_resource_delete_dependency. rm_step.
  destruct deps_slots as [(b & H1 & _)|(b & b' & H1 & _)];
    (eapply wp_check_dependency; [done|exact H1|]); cbn [peer_resource peer_userspace_dep negb].
  2: { apply wp_ret. exists h. eauto 6. }
  rm_step. eapply wp_of_option; [done|]. destruct (Bool.eqb b us) eqn:Hus; cbn [negb].
  2: { apply wp_ret. exists h. split; [done|]. right; left. split_and!; [done..|].
       exists b. split; [done|]. intros ->. by rewrite Bool.eqb_reflx in Hus. }
  apply Bool.eqb_prop in Hus as ->. do 6 rm_step.
  set (rp0 := with_needed_bw _ rp) in *.
  eapply wp_mono; [eapply (wp_delete_switch rp0); [eassumption|by apply table_live_insert|lk|lk|done]|].
  rewrite insert_insert_eq. destruct (prod_after_delete (state rd) rp0 kp) as [rp1 rel] eqn:Hafter.
  assert (static_of rp1 = static_of rp0) as Hst1.
  { change rp1 with (rp1, rel).1. rewrite <- Hafter. by apply prod_after_delete_static. }
  cbn [fst snd]. intros [rel' evt] s2 [Hs2 ->].
  do 2 rm_step. cbn beta. rm_step.
  eapply (wp_quiet _ (λ _, True) K (<[p := rp1]> h)); [done| |intros [] s3 Hs3 _].
  { destruct evt; [|by apply quietly_ret].
    eapply quietly_bind; [by apply quietly_alloc_and_queue|]. intros; by apply quietly_ret. }
  rm_step. eapply (wp_remove_peer p rp1 plp (name rd)); [done|lk| |done..|].
  { change plp with plp. assert (peers_list rp1 = peers_list rp0) as -> by by injection Hst1. done. }
  intros s4 Hs4. rewrite insert_insert_eq in Hs4.
  assert (name rp1 = name rp) as Hn1 by by injection Hst1.
  rm_step. eapply (wp_remove_peer d rd pld (name rp1)); [done|lk|done..|congruence|].
  intros s5 Hs5. rewrite Hn1 in Hs5.
  assert (max_bw rp1 = max_bw rp) as -> by by injection Hst1.
  apply wp_bind. eapply wp_mono; [by apply wp_delete_release|]. cbn beta.
  intros [] s6 (rd' & Hs6 & Hrd'). apply wp_ret. eexists. split; [exact Hs6|]. right; right.
  split_and!; [done..|]. unfold delete_outcome. change (needed_bw rp - max_bw rd)
    with (needed_bw rp + - max_bw rd). fold rp0. rewrite Hafter. eauto.
Qed.

(** The resources after the outcomes, up to what the requests and releases change. *)
Lemma delete_outcome_shape h' :
  delete_outcome E p d rp kp plp rd kd pld h h' →
  ∃ rp' rd', h' = <[d := rd']> (<[p := rp']> h) ∧
    static_of rp' = static_of (with_peers (unlink (name rd) plp) rp) ∧
    static_of rd' = static_of (with_peers (unlink (name rp) pld) rd).
Proof.
  unfold delete_outcome. set (rp0 := with_needed_bw _ rp).
  destruct (prod_after_delete (state rd) rp0 kp) as [rp1 rel] eqn:Hafter.
  intros (rd' & -> & Hrd'). exists (with_peers (unlink (name rd) plp) rp1), rd'. split; [done|].
  assert (static_of rp1 = static_of rp0) as Hst.
  { change rp1 with (rp1, rel).1. rewrite <- Hafter. by apply prod_after_delete_static. }
  split.
  - injection Hst as Hn Ht Hf Hm Hpl He. unfold static_of. cbn. congruence.
  - destruct rel; [|by rewrite Hrd']. by destruct Hrd' as (res & kd' & _ & -> & _).
Qed.

Lemma add_outcome_shape us res h' :
  add_outcome E p d us rp kp plp rd kd pld h res h' →
  ∃ rp' rd', h' = <[d := rd']> (<[p := rp']> h) ∧
    static_of rp' = static_of (link_prod d rd us plp rp) ∧
    static_of rd' = static_of (link_cons p rp us pld rd).
Proof.
  unfold add_outcome. destruct (active rp); [|by intros (-> & ->); eauto].
  intros (rd' & kd' & Hk' & Hst & _ & ->). eexists _, rd'. split; [done|]. split; [|done].
  destruct (res =? - EINPROGRESS); [|done].
  change (static_of (with_pending_bump (link_prod d rd us plp rp) kp) =
          static_of (link_prod d rd us plp rp)).
  by apply (static_same_prod (link_prod d rd us plp rp) kp).
Qed.

Lemma add_outcome_wf us b res h' :
  peers plp !! name rd = Some (mkPeer None b) →
  add_outcome E p d us rp kp plp rd kd pld h res h' → wf K (statics h').
Proof.
  intros Hslot (rp' & rd' & -> & Hsp & Hsd)%add_outcome_shape.
  pose proof (wf_linked us b Hslot) as Hw. rewrite !statics_insert in *. by rewrite Hsp, Hsd.
Qed.

Lemma wp_delete_linked us s :
  mem K h s → peers plp !! name rd = Some (mkPeer (Some d) us) →
  wp (ipa_rm_resource_delete_dependency E p d us)
    (λ res s', res = 0 ∧ ∃ h', mem K h' s' ∧ wf K (statics h') ∧
       delete_outcome E p d rp kp plp rd kd pld h h') s.
Proof.
  intros Hs Hslot. eapply wp_mono; [by apply wp_delete_dependency|]. cbn beta.
  intros res s' (h' & Hs' & [(_ & _ & b & Hb)|[(_ & _ & b & Hb & Hne)|(-> & _ & Hout)]]); [congruence..|].
  split; [done|]. exists h'. split; [done|]. split; [|done].
  destruct (delete_outcome_shape _ Hout) as (rp' & rd' & -> & ? & ?). by eapply wf_unlinked.
Qed.
End Deps.

(** * IPA resource manager: performance profiles, registrations, creation and deletion *)

(** ** Performance profiles *)

Definition shift_bw (old new : Z) (r : ipa_rm_resource) : ipa_rm_resource :=
  with_needed_bw (u32 (u32 (needed_bw r - old) + new)) r.

(** Does a new profile reach the peers? *)
Definition perf_pushes (r : ipa_rm_resource) : bool :=
  match type r with IPA_RM_PRODUCER => active r | IPA_RM_CONSUMER => true end.

Definition perf_heap (l : loc) (r : ipa_rm_resource) (pl : ipa_rm_peers_list) (bw : Z)
    (h : rheap) : rheap :=
  if bw =? max_bw r then h
  else <[l := with_max_bw bw r]>
         (if perf_pushes r then upd_peers (shift_bw (max_bw r) bw) pl IPA_RM_RESOURCE_MAX h else h).

Lemma perf_pushes_eq r :
  (bool_decide (type r = IPA_RM_PRODUCER) &&
     (bool_decide (state r = IPA_RM_GRANTED) || bool_decide (state r = IPA_RM_REQUEST_IN_PROGRESS)))
  || bool_decide (type r = IPA_RM_CONSUMER) = perf_pushes r.
Proof. unfold perf_pushes, active. by destruct (type r), (state r). Qed.

(** A resource is not a peer of itself. *)
Lemma peer_turn_self K h f pl i l r :
  wf K (statics h) → h !! l = Some r → peers_list r = Some pl → peer_turn f pl i l r = r.
Proof.
  intros Hwf Hl Hpl. unfold peer_turn. rewrite decide_False; [done|]. intros [_ Hp].
  apply peer_at_Some in Hp as [us Hp].
  destruct (wf_peer _ _ Hwf l r pl (name r) l us Hl Hpl Hp) as (r' & _ & Hl' & _ & Ht & _). congruence.
Qed.

Lemma get_userspace_dep_at pl i q us :
  list_ok pl → (i < IPA_RM_RESOURCE_MAX)%nat → peers pl !! i = Some (mkPeer (Some q) us) →
  ipa_rm_peers_list_get_userspace_dep (Z.of_nat i) pl = Some us.
Proof.
  intros [Hlen Hmax _] Hi Hq.
  unfold ipa_rm_peers_list_get_userspace_dep, ipa_rm_peers_list_check_index. rewrite Hmax.
  destruct (Z.ltb_spec (Z.of_nat IPA_RM_RESOURCE_MAX) (Z.of_nat i)); [lia|].
  destruct (Z.ltb_spec (Z.of_nat i) 0); [lia|]. cbn [orb negb].
  by rewrite lookup_z_nat, Hq.
Qed.

Section Ops.
Context (E : rm_env) (K : control).

Lemma wp_push_perf l r pl bw h s :
  mem K h s → wf K (statics h) → h !! l = Some r → peers_list r = Some pl →
  wp (for_each_peer l (λ _ peer,
        add_needed_bw peer (- max_bw r) ;;
        add_needed_bw peer bw ;;
        q ← get_res peer;
        when (bool_decide (state q = IPA_RM_GRANTED)) (ipa_rm_perf_profile_change E (name q))))
    (λ _ s', mem K (upd_peers (shift_bw (max_bw r) bw) pl IPA_RM_RESOURCE_MAX h) s') s.
Proof.
  intros Hs Hwf Hl Hpl. destruct (wf_has_peers _ _ Hwf l r Hl) as (pl' & Hpl' & Hok).
  rewrite Hpl in Hpl'. injection Hpl' as <-.
  eapply (wp_for_each_peer K (statics h) l h r pl _
    (λ i h', h' = upd_peers (shift_bw (max_bw r) bw) pl i h)); try done; [by rewrite upd_peers_0|..].
  - intros i h2 s2 Hi Hs2 HS2 Hh2.
    destruct (peer_at pl i) as [q|] eqn:Hq; [|by rewrite upd_peers_S_none].
    destruct (proj1 (peer_at_Some pl i q) Hq) as [us Hus].
    destruct (wf_peer _ _ Hwf l r pl i q us Hl Hpl Hus) as (rq & _ & Hhq & Hn & _).
    destruct (lookup_upd_peers (shift_bw (max_bw r) bw) pl i h q).
    assert (h2 !! q = Some rq) as Hq2.
    { rewrite Hh2, lookup_upd_peers, Hhq. cbn. f_equal. unfold peer_turn.
      rewrite decide_False; [done|]. intros []; lia. }
    assert (table_live K h2) as Ht2 by (apply wf_table_live; by rewrite HS2).
    rm_steps. rewrite insert_insert_eq in *.
    assert (upd_peers (shift_bw (max_bw r) bw) pl (S i) h = <[q := shift_bw (max_bw r) bw rq]> h2) as Hup.
    { rewrite Hh2. by apply upd_peers_S_some. }
    assert (statics (<[q := shift_bw (max_bw r) bw rq]> h2) = statics h) as HS3.
    { rewrite <- HS2. by eapply statics_insert_same. }
    apply wp_when; intros _; [|by exists (<[q := shift_bw (max_bw r) bw rq]> h2)].
    rm_steps. by exists (<[q := shift_bw (max_bw r) bw rq]> h2).
  - by intros h2 s2 Hs2 _ ->.
Qed.

Lemma wp_set_perf_profile l r pl bw h s :
  mem K h s → wf K (statics h) → h !! l = Some r → peers_list r = Some pl →
  wp (ipa_rm_resource_set_perf_profile E l bw)
    (λ res s', res = 0 ∧ mem K (perf_heap l r pl bw h) s') s.
Proof.
  intros Hs Hwf Hl Hpl. unfold ipa_rm_resource_set_perf_profile, perf_heap. do 2 rm_step. cbn beta.
  destruct (bw =? max_bw r); [by apply wp_ret|]. rewrite perf_pushes_eq. rm_step.
  assert (∀ h1 s1, mem K h1 s1 → h1 !! l = Some r → statics h1 = statics h →
    wp (upd_res l (with_max_bw bw) ;;
        r ← get_res l;
        when (bool_decide (state r = IPA_RM_GRANTED)) (ipa_rm_perf_profile_change E (name r)) ;;
        mret 0) (λ res s', res = 0 ∧ mem K (<[l := with_max_bw bw r]> h1) s') s1) as Hend.
  { intros h1 s1 Hs1 Hl1 HS1.
    assert (table_live K h1) as Ht1 by (apply wf_table_live; by rewrite HS1).
    rm_steps. apply wp_when; intros _; by rm_steps. }
  apply wp_when; intros ->; [|by apply Hend].
  eapply wp_mono; [by apply (wp_push_perf l r pl bw h)|]. cbn beta. intros [] s1 Hs1.
  apply Hend; [done| |by apply statics_upd_peers].
  rewrite lookup_upd_peers, Hl. cbn. f_equal. by eapply peer_turn_self.
Qed.

(** ** Registrations *)

Lemma wp_register p r k rp expl h s :
  mem K h s → h !! p = Some r → ext r = Prod k →
  wp (ipa_rm_resource_producer_register E p rp expl)
    (λ res s',
       (res = - EPERM ∧ cb_registered (rp_notify_cb rp) (event_listeners k) = true ∧ mem K h s') ∨
       (res = - ENOMEM ∧ cb_registered (rp_notify_cb rp) (event_listeners k) = false ∧ mem K h s') ∨
       (res = 0 ∧ cb_registered (rp_notify_cb rp) (event_listeners k) = false ∧
        mem K (<[p := with_ext (Prod (with_listeners (mkNotifInfo rp expl :: event_listeners k) k)) r]> h) s')) s.
Proof.
  intros Hs Hp Hk. unfold ipa_rm_resource_producer_register. do 2 rm_step. cbn beta.
  destruct (cb_registered _ _) eqn:Hreg; [apply wp_ret; auto|].
  rm_step. eapply wp_quiet; [done|apply quietly_kzalloc|]. intros [] s1 Hs1 _; cbn [negb].
  - rm_steps. auto 6.
  - apply wp_ret. auto.
Qed.

Lemma wp_deregister p r k rp h s :
  mem K h s → h !! p = Some r → ext r = Prod k →
  wp (ipa_rm_resource_producer_deregister p rp)
    (λ res s',
       match remove_listener (rp_notify_cb rp) (event_listeners k) with
       | Some ls => res = 0 ∧ mem K (<[p := with_ext (Prod (with_listeners ls k)) r]> h) s'
       | None => res = - EINVAL ∧ mem K h s'
       end) s.
Proof.
  intros Hs Hp Hk. unfold ipa_rm_resource_producer_deregister. do 2 rm_step. cbn beta.
  destruct (remove_listener _ _); [|by apply wp_ret]. by rm_steps.
Qed.

(** ** Deletion

    The loop over the peers of [l]. [I] is an invariant of the memory at each turn. *)

Lemma peer_at_unlink pl i j :
  peer_at (unlink i pl) j = if decide (i = j) then None else peer_at pl j.
Proof.
  unfold peer_at, unlink, set_slot. cbn [peers]. case_decide as Hij.
  - subst. destruct (decide (j < length (peers pl))%nat).
    + by rewrite list_lookup_insert_eq.
    + rewrite list_insert_ge, lookup_ge_None_2 by lia. done.
  - by rewrite list_lookup_insert_ne.
Qed.

Definition same_id (r' r : ipa_rm_resource) : Prop := name r' = name r ∧ type r' = type r.

Lemma wp_delete_all l r0 pl0 (dep : loc → bool → RM Z) (I : nat → rheap → Prop)
    (Q : () → rm_state → Prop) h s :
  mem K h s → wf K (statics h) → h !! l = Some r0 → peers_list r0 = Some pl0 → I 0%nat h →
  (∀ i h s r pl q us, mem K h s → wf K (statics h) → h !! l = Some r → same_id r r0 →
     peers_list r = Some pl → (∀ j, (j < i)%nat → peer_at pl j = None) → I i h →
     peers pl !! i = Some (mkPeer (Some q) us) →
     wp (dep q us) (λ _ s', ∃ h' r', mem K h' s' ∧ wf K (statics h') ∧ h' !! l = Some r' ∧
       same_id r' r0 ∧ peers_list r' = Some (unlink i pl) ∧ I (S i) h') s) →
  (∀ i h r pl, h !! l = Some r → peers_list r = Some pl → I i h → peer_at pl i = None → I (S i) h) →
  (∀ h' r' pl' s', mem K h' s' → wf K (statics h') → h' !! l = Some r' → same_id r' r0 →
     peers_list r' = Some pl' → (∀ j, peer_at pl' j = None) → I IPA_RM_RESOURCE_MAX h' → Q () s') →
  wp (delete_all_dependencies l dep) Q s.
Proof.
  intros Hs Hwf Hl Hpl HI Hdep Hskip HQ. unfold delete_all_dependencies. do 2 rm_step. rewrite Hpl.
  destruct (wf_has_peers _ _ Hwf l r0 Hl) as (pl' & Hpl' & Hok).
  assert (pl' = pl0) as -> by congruence. unfold for_each_peer. do 2 rm_step.
  unfold ipa_rm_peers_list_get_size. rewrite (lo_max _ Hok), Nat2Z.id.
  set (inv := λ (i : nat) s, ∃ h r pl, mem K h s ∧ wf K (statics h) ∧ h !! l = Some r ∧ same_id r r0 ∧
    peers_list r = Some pl ∧ (∀ j, (j < i)%nat → peer_at pl j = None) ∧ I i h).
  eapply wp_mono.
  - apply (wp_for _ _ (λ i s, inv (Z.to_nat i) s)).
    { exists h, r0, pl0. split_and!; try done. intros j Hj. cbn in Hj. lia. }
    intros i s1 Hi (h1 & r1 & pl1 & Hs1 & Hwf1 & Hl1 & Hid1 & Hpl1 & Hnone1 & HI1).
    replace (Z.to_nat (i + 1)) with (S (Z.to_nat i)) by lia.
    remember (Z.to_nat i) as n eqn:En. assert (i = Z.of_nat n) as -> by lia.
    assert (n < IPA_RM_RESOURCE_MAX)%nat as Hn by lia.
    destruct (wf_has_peers _ _ Hwf1 l r1 Hl1) as (pl' & Hpl1' & Hok1).
    assert (pl' = pl1) as -> by congruence.
    rm_step. eapply wp_get_peer; [done..|].
    destruct (peer_at pl1 n) as [q|] eqn:Hq.
    + destruct (proj1 (peer_at_Some pl1 n q) Hq) as [us Hus]. do 2 rm_step. cbn beta. rm_step.
      rewrite (get_userspace_dep_at pl1 n q us) by done. eapply wp_of_option; [done|]. rm_step.
      eapply wp_mono; [by eapply (Hdep n h1)|]. cbn beta.
      intros _ s2 (h2 & r2 & Hs2 & Hwf2 & Hl2 & Hid2 & Hpl2 & HI2). apply wp_ret.
      exists h2, r2, (unlink n pl1). split_and!; try done. intros j Hj. rewrite peer_at_unlink.
      case_decide; [done|]. apply Hnone1. lia.
    + apply wp_ret. exists h1, r1, pl1. split_and!; try done; [|by eapply Hskip].
      intros j Hj. destruct (decide (j = n)) as [->|]; [done|]. apply Hnone1. lia.
  - cbn beta. intros [] s1 (h1 & r1 & pl1 & Hs1 & Hwf1 & Hl1 & Hid1 & Hpl1 & Hnone1 & HI1).
    rewrite Z.add_0_l, Nat2Z.id in *. eapply (HQ h1); try done.
    destruct (wf_has_peers _ _ Hwf1 l r1 Hl1) as (pl' & Hpl1' & Hok1).
    assert (pl' = pl1) as -> by congruence.
    intros j. destruct (decide (j < IPA_RM_RESOURCE_MAX)%nat); [by apply Hnone1|].
    unfold peer_at. rewrite lookup_ge_None_2; [done|]. rewrite (lo_length _ Hok1). lia.
Qed.

(** One turn of the deletion of [l]: the dependency through its slot [i] goes. *)
Definition delete_turn (l : loc) (i : nat) (h h' : rheap) : Prop :=
  ∃ p d rp kp plp rd kd pld us,
    h !! p = Some rp ∧ ext rp = Prod kp ∧ peers_list rp = Some plp ∧
    h !! d = Some rd ∧ ext rd = Cons kd ∧ peers_list rd = Some pld ∧
    peers plp !! name rd = Some (mkPeer (Some d) us) ∧
    (l = p ∧ name rd = i ∨ l = d ∧ name rp = i) ∧
    delete_outcome E p d rp kp plp rd kd pld h h'.

Definition after_turn (l : loc) (i : nat) (r0 : ipa_rm_resource) (pl : ipa_rm_peers_list)
    (h h' : rheap) : Prop :=
  ∃ r', wf K (statics h') ∧ h' !! l = Some r' ∧ same_id r' r0 ∧
    peers_list r' = Some (unlink i pl) ∧ delete_turn l i h h'.

Lemma static_list_id r' r pl :
  static_of r' = static_of (with_peers pl r) → peers_list r' = Some pl ∧ same_id r' r.
Proof. intros [= Hn Ht _ _ Hpl _]. by split_and!. Qed.

Lemma wp_delete_turn_prod p i h r r0 pl q us s :
  mem K h s → wf K (statics h) → h !! p = Some r → same_id r r0 → type r0 = IPA_RM_PRODUCER →
  peers_list r = Some pl → peers pl !! i = Some (mkPeer (Some q) us) →
  wp (ipa_rm_resource_delete_dependency E p q us)
    (λ _ s', ∃ h', mem K h' s' ∧ after_turn p i r0 pl h h') s.
Proof.
  intros Hs Hwf Hp [Hn Ht] Ht0 Hpl Hq. rewrite Ht0 in Ht.
  destruct (wf_producer _ _ Hwf p r Hp Ht) as (kp & Hkp & _).
  destruct (wf_peer_consumer _ _ Hwf p r pl i q us Hp Ht Hpl Hq) as (rd & kd & Hd & Htd & Hkd & _ & Hnd & Hne).
  destruct (wf_has_peers _ _ Hwf q rd Hd) as (pld & Hpld & _).
  rewrite <- Hnd in Hq.
  eapply wp_mono; [by apply (wp_delete_linked E K h p q r rd kp kd pl pld)|]. cbn beta.
  intros res s' (_ & h' & Hs' & Hwf' & Hout). exists h'. split; [done|].
  destruct (delete_outcome_shape E h p q r rd kp kd pl pld Hkp h' Hout) as (rp' & rd' & -> & Hsp & _).
  destruct (static_list_id _ _ _ Hsp) as [Hpl' [Hn' Ht']].
  exists rp'. split_and!; [done|by rewrite lookup_insert_ne, lookup_insert_eq|split; congruence|congruence|].
  exists p, q, r, kp, pl, rd, kd, pld, us. split_and!; auto.
Qed.

Lemma wp_delete_turn_cons c i h r r0 pl q us s :
  mem K h s → wf K (statics h) → h !! c = Some r → same_id r r0 → type r0 = IPA_RM_CONSUMER →
  peers_list r = Some pl → peers pl !! i = Some (mkPeer (Some q) us) →
  wp (ipa_rm_resource_delete_dependency E q c us)
    (λ _ s', ∃ h', mem K h' s' ∧ after_turn c i r0 pl h h') s.
Proof.
  intros Hs Hwf Hc [Hn Ht] Ht0 Hpl Hq. rewrite Ht0 in Ht.
  destruct (wf_consumer _ _ Hwf c r Hc Ht) as (kc & Hkc & _).
  destruct (wf_peer_producer _ _ Hwf c r pl i q us Hc Ht Hpl Hq) as (rp & kp & Hp & Htp & Hkp & _ & Hnp & Hne).
  destruct (wf_peer _ _ Hwf c r pl i q us Hc Hpl Hq) as (rp1 & plp & Hp1 & _ & _ & Hplp & Hback).
  assert (rp1 = rp) as -> by congruence.
  eapply wp_mono; [by apply (wp_delete_linked E K h q c rp r kp kc plp pl)|]. cbn beta.
  intros res s' (_ & h' & Hs' & Hwf' & Hout). exists h'. split; [done|].
  destruct (delete_outcome_shape E h q c rp r kp kc plp pl Hkp h' Hout) as (rp' & rd' & -> & _ & Hsd).
  destruct (static_list_id _ _ _ Hsd) as [Hpl' [Hn' Ht']].
  exists rd'. split_and!; [done|by rewrite lookup_insert_eq|split; congruence|congruence|].
  exists q, c, rp, kp, plp, r, kc, pl, us. split_and!; auto.
Qed.

(** The deleted resource keeps its name until it goes. *)
Lemma delete_turn_self l i h h' r :
  wf K (statics h) → h !! l = Some r → delete_turn l i h h' → ∃ r', h' !! l = Some r' ∧ name r' = name r.
Proof.
  intros Hwf Hl (p & d & rp & kp & plp & rd & kd & pld & us & Hp & Hkp & Hplp & Hd & Hkd & Hpld & Hslot & Hwho & Hout).
  apply delete_outcome_shape in Hout as (rpF & rdF & -> & Hsp & Hsd); [|done..].
  assert (d ≠ p) by (intros ->; congruence).
  destruct Hwho as [[-> _]|[-> _]].
  - exists rpF. rewrite lookup_insert_ne, lookup_insert_eq by done. split; [done|].
    assert (rp = r) as -> by congruence. by injection Hsp.
  - exists rdF. rewrite lookup_insert_eq. split; [done|].
    assert (rd = r) as -> by congruence. by injection Hsd.
Qed.

Lemma delete_turn_dom l i h h' : delete_turn l i h h' → dom h' = dom h.
Proof.
  intros (p & d & rp & kp & plp & rd & kd & pld & us & Hp & Hkp & Hplp & Hd & Hkd & Hpld & Hslot & Hwho & Hout).
  apply delete_outcome_shape in Hout as (rpF & rdF & -> & _); [|done..].
  assert (d ≠ p) by (intros ->; congruence).
  rewrite !dom_insert_lookup_L; [done|by eexists|]. rewrite lookup_insert_ne; [by eexists|done].
Qed.

(** The release that ends the deletion of a producer without consumers. *)
Lemma wp_producer_delete p r k pl h (Q : () → rm_state → Prop) s :
  mem K h s → wf K (statics h) → h !! p = Some r → ext r = Prod k → peers_list r = Some pl →
  (∀ j, peer_at pl j = None) →
  (∀ r' s', mem K (<[p := r']> h) s' → Q () s') →
  wp (ipa_rm_resource_producer_delete E p) Q s.
Proof.
  intros Hs Hwf Hp Hk Hpl Hnone HQ. unfold ipa_rm_resource_producer_delete. rm_step.
  assert (∀ r' k' s', mem K (<[p := r']> h) s' → ext r' = Prod k' →
    wp (upd_prod p (with_listeners [])) Q s') as Hend.
  { intros r' k' s' Hs' Hk'. rm_step. rewrite insert_insert_eq in *. eauto. }
  destruct (decide (active r = true)) as [Hact|Hact].
  - eapply (wp_producer_release E K p r k pl (λ _ h1, h1 = <[p := releasing r k]> h)); try done.
    + unfold active in Hact. destruct (state r); try done; auto.
    + intros i h1 c h' _ _ _ Hc. by rewrite Hnone in Hc.
    + intros h' s' _ -> _ Hs'. rewrite insert_insert_eq in Hs'. by eapply Hend.
  - unfold ipa_rm_resource_producer_release. do 2 rm_step. cbn beta.
    unfold active in Hact. destruct (state r); try done;
      apply wp_ret; apply (Hend r k); try done; by rewrite insert_id.
Qed.

Lemma wp_resource_delete l r pl (I : nat → rheap → Prop) h s :
  mem K h s → wf K (statics h) → h !! l = Some r → peers_list r = Some pl → I 0%nat h →
  (∀ i h h', wf K (statics h) → I i h → delete_turn l i h h' → I (S i) h') →
  (∀ i h r pl, h !! l = Some r → peers_list r = Some pl → I i h → peer_at pl i = None → I (S i) h) →
  wp (ipa_rm_resource_delete E l)
    (λ res s', res = 0 ∧ ∃ h' r' pl', wf K (statics h') ∧ h' !! l = Some r' ∧ same_id r' r ∧
       peers_list r' = Some pl' ∧ (∀ j, peer_at pl' j = None) ∧ I IPA_RM_RESOURCE_MAX h' ∧
       mem K (delete l h') s') s.
Proof.
  intros Hs Hwf Hl Hpl HI Hturn Hskip. unfold ipa_rm_resource_delete. do 2 rm_step.
  assert (∀ h' r1 s', mem K (<[l := r1]> h') s' →
    wp (kfree_res l ;; mret 0) (λ res s', res = 0 ∧ mem K (delete l h') s') s') as Hfree.
  { intros h' r1 s' Hs'. unfold kfree_res. rm_step. rm_step. rm_step. wp_steps. split; [done|].
    destruct Hs' as (c & -> & ?). exists c. split; [|done]. cbn.
    by rewrite delete_insert_eq. }
  rm_step. destruct (type r) eqn:Hty; cbn beta iota.
  - rm_step. eapply (wp_delete_all l r pl _ I); [done..| |done|].
    { intros i h1 s1 r1 pl1 q us Hs1 Hwf1 Hl1 Hid1 Hpl1 _ HI1 Hq.
      eapply wp_mono; [by apply (wp_delete_turn_prod l i h1 r1 r pl1 q us)|]. cbn beta.
      intros _ s2 (h2 & Hs2 & (r2 & Hwf2 & Hl2 & Hid2 & Hpl2 & Ht)). exists h2, r2.
      repeat (split; [done|]). by apply (Hturn i h1). }
    intros h1 r1 pl1 s1 Hs1 Hwf1 Hl1 Hid1 Hpl1 Hnone HI1.
    destruct (wf_producer _ _ Hwf1 l r1 Hl1) as (k1 & Hk1 & _); [by destruct Hid1 as [_ ->]|].
    eapply (wp_producer_delete l r1 k1 pl1 h1); [done..|]. intros r2 s2 Hs2.
    eapply wp_mono; [by eapply Hfree|]. cbn beta. intros res s3 [-> Hs3]. split; [done|].
    exists h1, r1, pl1. by repeat (split; [done|]).
  - eapply (wp_delete_all l r pl _ I); [done..| |done|].
    { intros i h1 s1 r1 pl1 q us Hs1 Hwf1 Hl1 Hid1 Hpl1 _ HI1 Hq.
      eapply wp_mono; [by apply (wp_delete_turn_cons l i h1 r1 r pl1 q us)|]. cbn beta.
      intros _ s2 (h2 & Hs2 & (r2 & Hwf2 & Hl2 & Hid2 & Hpl2 & Ht)). exists h2, r2.
      split_and!; try done. by apply (Hturn i h1). }
    intros h1 r1 pl1 s1 Hs1 Hwf1 Hl1 Hid1 Hpl1 Hnone HI1.
    eapply wp_mono; [eapply (Hfree h1 r1); by rewrite insert_id|]. cbn beta.
    intros res s3 [-> Hs3]. split; [done|]. exists h1, r1, pl1. by repeat (split; [done|]).
Qed.
End Ops.
