(* ===== verification/RmSafety.v ===== *)
(** * IPA resource manager: creation

    What [ipa_rm_resource_create] leaves in memory, whichever allocation fails.

    Every exported operation, every item of the work queue and every expired delayed
    release runs to its end from a well-formed memory, without undefined behaviour, and
    leaves a well-formed memory.

    The preservation of the invariant by each step of the module, and the theorem that no
    reachable state gets stuck. *)

From S2P Require Import Prelude.
From S2P Require Import RmTypes.
From S2P Require Import RmPeers.
From S2P Require Import RmCore.
From S2P Require Import RmResource.
From S2P Require Import RmConsumer.
From S2P Require Import RmWf.
From S2P Require Import RmProducer.
From S2P Require Import RmOps.
From S2P Require Import Rm.

Definition bump_next (K : control) : control :=
  mkControl (k_table K) (Pos.succ (k_next K)) (k_delayed K).

Definition empty_list : ipa_rm_peers_list :=
  mkPeers (replicate IPA_RM_RESOURCE_MAX no_peer) (Z.of_nat IPA_RM_RESOURCE_MAX) 0.

Definition is_prod_params (cp : ipa_rm_create_params) : bool := IPA_RM_RESORCE_IS_PROD (cp_name cp).

Definition new_ext (cp : ipa_rm_create_params) : resource_ext :=
  if is_prod_params cp then Prod (mkProd [mkNotifInfo (cp_reg_params cp) false] 0 0)
  else Cons (mkCons 0 false (cp_request_resource cp) (cp_release_resource cp)).

(** The resource a successful creation returns. *)
Definition new_res (cp : ipa_rm_create_params) : ipa_rm_resource :=
  mkRes (cp_name cp) (if is_prod_params cp then IPA_RM_PRODUCER else IPA_RM_CONSUMER)
    (cp_floor_voltage cp) 0 0 IPA_RM_RELEASED (Some empty_list) (new_ext cp).

Lemma empty_list_ok : list_ok empty_list.
Proof. split; [done..|]. intros i us Hi. apply lookup_replicate_1 in Hi as [Hi _]. by injection Hi. Qed.

Lemma peer_at_empty i : peer_at empty_list i = None.
Proof. by do 22 (destruct i as [|i]; [done|]). Qed.

Section Create.
Context (E : rm_env) (K : control) (h : rheap).
Hypothesis Hfresh : h !! k_next K = None.

Lemma wp_alloc_res t e (Q : loc → rm_state → Prop) s :
  mem K h s →
  (∀ s', mem (bump_next K) (<[k_next K := mkRes 0%nat t 0 0 0 IPA_RM_RELEASED None e]> h) s' →
     Q (k_next K) s') →
  wp (alloc_res t e) Q s.
Proof.
  intros (c & Hs & Hc & Ht) HQ. unfold alloc_res. wp_steps. rewrite Hs. cbn. apply HQ.
  exists c. by split.
Qed.

Lemma wp_kfree_fresh r s (Q : () → rm_state → Prop) :
  mem (bump_next K) (<[k_next K := r]> h) s →
  (∀ s', mem (bump_next K) h s' → Q () s') → wp (kfree_res (k_next K)) Q s.
Proof.
  intros Hs HQ. unfold kfree_res. rm_step. rm_step. wp_steps. apply HQ.
  destruct Hs as (c & -> & ?). exists c. split; [|done]. cbn. by rewrite delete_insert_id.
Qed.

(** The failure path after a list that could not be allocated. *)
Lemma wp_delete_fresh t e s (Q : Z → rm_state → Prop) :
  match t, e with IPA_RM_PRODUCER, Prod _ | IPA_RM_CONSUMER, Cons _ => True | _, _ => False end →
  mem (bump_next K) (<[k_next K := mkRes 0%nat t 0 0 0 IPA_RM_RELEASED None e]> h) s →
  (∀ s', mem (bump_next K) h s' → Q 0 s') → wp (ipa_rm_resource_delete E (k_next K)) Q s.
Proof.
  intros Hte Hs HQ. unfold ipa_rm_resource_delete. do 3 rm_step. cbn [type].
  destruct t, e; try done.
  - rm_step. unfold delete_all_dependencies at 1. do 2 rm_step. apply wp_ret.
    unfold ipa_rm_resource_producer_delete, ipa_rm_resource_producer_release.
    do 3 rm_step. cbn [state]. apply wp_ret. rm_step. rewrite insert_insert_eq in *. rm_step.
    eapply wp_kfree_fresh; [eassumption|]. intros s2 Hs2. apply wp_ret. by apply HQ.
  - unfold delete_all_dependencies at 1. do 2 rm_step. apply wp_ret. rm_step.
    eapply wp_kfree_fresh; [eassumption|]. intros s2 Hs2. apply wp_ret. by apply HQ.
Qed.

Definition create_post (cp : ipa_rm_create_params) (ro : Z * option loc) (s' : rm_state) : Prop :=
  match ro.2 with
  | None => ro.1 ≠ 0 ∧ (mem K h s' ∨ mem (bump_next K) h s')
  | Some l => ro.1 = 0 ∧ l = k_next K ∧ mem (bump_next K) (<[l := new_res cp]> h) s' ∧
      (is_prod_params cp = true ∨ IPA_RM_RESORCE_IS_CONS (cp_name cp) = true)
  end.

(** The part of the creation that depends on the type. *)
Lemma wp_create_typed cp s :
  mem K h s →
  wp (if IPA_RM_RESORCE_IS_PROD (cp_name cp) then ipa_rm_resource_producer_create E cp
      else if IPA_RM_RESORCE_IS_CONS (cp_name cp) then ipa_rm_resource_consumer_create E cp
      else mret (- EPERM, None))
    (λ '(res, o) s',
       match o with
       | None => res ≠ 0 ∧ (mem K h s' ∨ mem (bump_next K) h s')
       | Some l => l = k_next K ∧
           mem (bump_next K) (<[l := mkRes 0%nat (type (new_res cp)) 0 0 0 IPA_RM_RELEASED None
                                      (new_ext cp)]> h) s' ∧
           (is_prod_params cp = true ∨ IPA_RM_RESORCE_IS_CONS (cp_name cp) = true)
       end) s.
Proof.
  intros Hs. unfold new_res, new_ext, is_prod_params. cbn [type].
  destruct (IPA_RM_RESORCE_IS_PROD (cp_name cp)).
  - unfold ipa_rm_resource_producer_create. rm_step. rm_step. destruct a; cbn [negb]; [|apply wp_ret; auto].
    rm_step. eapply wp_alloc_res; [done|]. intros s1 Hs1. rm_step.
    eapply wp_mono; [eapply wp_register; [exact Hs1|lk|done]|]. cbn [cb_registered existsb event_listeners].
    intros res s2 [(_ & [=] & _)|[(-> & _ & Hs2)|(-> & _ & Hs2)]]; ztests.
    + rm_step. eapply wp_kfree_fresh; [eassumption|]. intros s3 Hs3. apply wp_ret. auto.
    + apply wp_ret. rewrite insert_insert_eq in Hs2. auto.
  - destruct (IPA_RM_RESORCE_IS_CONS (cp_name cp)); [|apply wp_ret; by auto].
    unfold ipa_rm_resource_consumer_create. rm_step. rm_step. destruct a; cbn [negb]; [|apply wp_ret; auto].
    rm_step. eapply wp_alloc_res; [done|]. intros s1 Hs1. apply wp_ret. auto.
Qed.

Lemma wp_peers_list_create K' h' n s :
  mem K' h' s →
  wp (ipa_rm_peers_list_create E (Z.of_nat n))
    (λ '(res, o) s', mem K' h' s' ∧
       match o with
       | None => res = - ENOMEM
       | Some pl => res = 0 ∧ pl = mkPeers (replicate n no_peer) (Z.of_nat n) 0
       end) s.
Proof.
  intros Hs. unfold ipa_rm_peers_list_create. do 2 rm_step. destruct a; cbn [negb]; [|by apply wp_ret].
  do 2 rm_step. destruct a; cbn [negb]; apply wp_ret; [|done]. by rewrite Nat2Z.id.
Qed.

Lemma wp_resource_create cp s :
  mem K h s → wp (ipa_rm_resource_create E cp) (create_post cp) s.
Proof.
  intros Hs. unfold ipa_rm_resource_create. rm_step.
  eapply wp_mono; [by apply wp_create_typed|]. intros [res [l|]]; cbn beta iota; [|intros s1 ?; by apply wp_ret].
  intros s1 (-> & Hs1 & Hkind). rm_step.
  eapply wp_mono; [by eapply wp_peers_list_create|]. intros [res2 [pl|]] s2 [Hs2 Hpl]; cbn beta iota.
  - destruct Hpl as [-> ->]. do 2 rm_step. apply wp_ret. split; [done|]. split; [done|].
    split; [|done]. by rewrite insert_insert_eq in *.
  - rm_step. eapply wp_delete_fresh; [|exact Hs2|].
    { unfold new_res, new_ext. cbn. by destruct (is_prod_params cp). }
    intros s3 Hs3. apply wp_ret. split; [by rewrite Hpl|]. auto.
Qed.

(** The failure path after a name without an index: the new consumer has no peers. *)
Lemma wp_delete_unlisted cp s (Q : Z → rm_state → Prop) :
  is_prod_params cp = false →
  mem (bump_next K) (<[k_next K := new_res cp]> h) s →
  (∀ s', mem (bump_next K) h s' → Q 0 s') → wp (ipa_rm_resource_delete E (k_next K)) Q s.
Proof.
  intros Hcons Hs HQ. unfold ipa_rm_resource_delete. do 3 rm_step. cbn [new_res type].
  rewrite Hcons. unfold delete_all_dependencies. do 2 rm_step.
  cbn [new_res peers_list].
  eapply (wp_for_each_peer _ _ _ _ (new_res cp) empty_list _ (λ _ h', h' = <[k_next K := new_res cp]> h));
    [exact Hs|done|lk|done|apply empty_list_ok|done| |].
  - intros i h1 s1 _ _ _ ->. by rewrite peer_at_empty.
  - intros h1 s1 Hs1 _ ->. rm_step. eapply wp_kfree_fresh; [exact Hs1|].
    intros s2 Hs2. apply wp_ret. by apply HQ.
Qed.
End Create.

(** ** The table after a creation and after a deletion *)

Definition listed (n : nat) (o : option loc) (K : control) : control :=
  mkControl (<[n := o]> (k_table K)) (k_next K) (k_delayed K).

Lemma resolve_None_slot t n : valid_name n = true → resolve t n = None → ∀ l, t !! n ≠ Some (Some l).
Proof. unfold resolve. intros -> Hr l Hl. by rewrite Hl in Hr. Qed.

Lemma wf_fresh K Sm l : wf K Sm → (k_next K ≤ l)%positive → Sm !! l = None.
Proof.
  intros Hwf Hl. destruct (Sm !! l) as [st|] eqn:Hst; [|done].
  destruct (wf_res _ _ Hwf l st Hst) as (_ & ? & _). lia.
Qed.

Lemma wf_create K Sm st :
  wf K Sm → res_ok st → st_peers st = Some empty_list →
  length (k_table K) = IPA_RM_RESOURCE_MAX → resolve (k_table K) (st_name st) = None →
  wf (listed (st_name st) (Some (k_next K)) (bump_next K)) (<[k_next K := st]> Sm).
Proof.
  intros Hwf Hok Hpl Hlen Hres. pose proof (wf_fresh K Sm (k_next K) Hwf ltac:(lia)) as Hnone.
  destruct (valid_name_index _ (proj1 Hok)) as [_ Hlt].
  pose proof (resolve_None_slot _ _ (proj1 Hok) Hres) as Hslot.
  split; cbn [listed bump_next k_table k_next].
  - intros n l Hn. destruct (decide (n = st_name st)) as [->|Hne].
    + rewrite list_lookup_insert_eq in Hn by lia. injection Hn as <-.
      exists st. by rewrite lookup_insert_eq.
    + rewrite list_lookup_insert_ne in Hn by done. destruct (wf_table _ _ Hwf n l Hn) as (st' & Hl & ?).
      exists st'. rewrite lookup_insert_ne; [done|]. intros <-. congruence.
  - intros l st' Hl. destruct (decide (l = k_next K)) as [->|Hne].
    + rewrite lookup_insert_eq in Hl. injection Hl as <-.
      split_and!; [|lia|apply Hok..]. apply list_lookup_insert_eq. lia.
    + rewrite lookup_insert_ne in Hl by done. destruct (wf_res _ _ Hwf l st' Hl) as (Ht & ? & ?).
      split; [|split; [lia|done]]. rewrite list_lookup_insert_ne; [done|]. intros Heq.
      apply (Hslot l). by rewrite Heq.
  - intros l st' Hl. destruct (decide (l = k_next K)) as [->|Hne].
    + rewrite lookup_insert_eq in Hl. injection Hl as <-. exists empty_list.
      split_and!; [done|apply empty_list_ok|]. intros i q us Hi. pose proof (peer_at_empty i) as Hp.
      unfold peer_at in Hp. by rewrite Hi in Hp.
    + rewrite lookup_insert_ne in Hl by done. destruct (wf_peers _ _ Hwf l st' Hl) as (pl & ? & ? & Hlk).
      exists pl. split_and!; [done..|]. intros i q us Hi.
      destruct (Hlk i q us Hi) as (st2 & pl2 & Hq & ?). exists st2, pl2.
      rewrite lookup_insert_ne; [done|]. intros <-. congruence.
Qed.

Lemma wf_delete K Sm l st pl :
  wf K Sm → Sm !! l = Some st → st_peers st = Some pl → (∀ i, peer_at pl i = None) →
  length (k_table K) = IPA_RM_RESOURCE_MAX →
  wf (listed (st_name st) None K) (delete l Sm).
Proof.
  intros Hwf Hl Hpl Hnone Hlen. destruct (wf_res _ _ Hwf l st Hl) as (Htl & _ & Hok).
  split; cbn [listed k_table k_next].
  - intros n l' Hn. destruct (decide (n = st_name st)) as [->|Hne].
    + apply list_lookup_insert_Some in Hn as [(_ & [=] & _)|[? _]]. congruence.
    + rewrite list_lookup_insert_ne in Hn by done.
      destruct (wf_table _ _ Hwf n l' Hn) as (st' & Hl' & ?). exists st'.
      rewrite lookup_delete_ne; [done|]. intros <-. congruence.
  - intros l' st' [Hne Hl']%lookup_delete_Some. destruct (wf_res _ _ Hwf l' st' Hl') as (Ht & ? & ?).
    split; [|done]. rewrite list_lookup_insert_ne; [done|]. intros Heq. rewrite Heq in Htl. congruence.
  - intros l' st' [Hne Hl']%lookup_delete_Some.
    destruct (wf_peers _ _ Hwf l' st' Hl') as (pl' & ? & ? & Hlk). exists pl'.
    split_and!; [done..|]. intros i q us Hi. destruct (Hlk i q us Hi) as (st2 & pl2 & Hq & Hrest).
    exists st2, pl2. rewrite lookup_delete_ne; [done|]. intros <-.
    assert (st2 = st) as -> by congruence. destruct Hrest as (_ & _ & Hpl2 & Hback).
    assert (pl2 = pl) as -> by congruence. specialize (Hnone (st_name st')).
    unfold peer_at in Hnone. by rewrite Hback in Hnone.
Qed.

(** * IPA resource manager: memory safety *)

(** The well-formed states of the module. *)
Definition well_formed (s : rm_state) : Prop := ∃ K h, mem K h s ∧ wf K (statics h).

Definition safe {A} (m : RM A) : Prop := ∀ s, well_formed s → wp m (λ _ s', well_formed s') s.

(** ** The entry of the operations *)

Lemma wp_unless_null K h m (Q : Z → rm_state → Prop) s :
  mem K h s → wp m Q s → wp (unless_null m) Q s.
Proof.
  intros Hs Hm. unfold unless_null, ctx_is_null. wp_steps.
  destruct Hs as (c & Hs & _). by rewrite Hs in *.
Qed.

Lemma wp_with_resource K h n err k (Q : Z → rm_state → Prop) s :
  mem K h s → wf K (statics h) →
  (resolve (k_table K) n = None → Q err s) →
  (∀ l r pl, resolve (k_table K) n = Some l → h !! l = Some r → name r = n →
     peers_list r = Some pl → list_ok pl → wp (k l) Q s) →
  wp (with_resource n err k) Q s.
Proof.
  intros Hs Hwf Hnone Hsome. unfold with_resource. wp_steps. eapply wp_get_resource; [done|].
  cbn beta iota. destruct (resolve (k_table K) n) as [l|] eqn:Hr; [|apply wp_ret; auto].
  destruct (wf_resolve _ _ Hwf n l Hr) as (r & Hl & Hn).
  destruct (wf_has_peers _ _ Hwf l r Hl) as (pl & Hpl & Hok). by eapply Hsome.
Qed.

(** A resource by its kind of name. *)
Lemma wf_prod_named K h l r n :
  wf K (statics h) → h !! l = Some r → name r = n → IPA_RM_RESORCE_IS_PROD n = true →
  ∃ k, ext r = Prod k ∧ listeners_ok (event_listeners k).
Proof.
  intros Hwf Hl <- Hn. pose proof (wf_type_of_prod_name _ _ Hwf l r Hl Hn) as Ht.
  destruct (wf_producer _ _ Hwf l r Hl Ht) as (k & ? & ? & _). eauto.
Qed.

Lemma wf_cons_named K h l r n :
  wf K (statics h) → h !! l = Some r → name r = n → IPA_RM_RESORCE_IS_CONS n = true →
  ∃ k, ext r = Cons k ∧ callbacks_set k.
Proof.
  intros Hwf Hl <- Hn. pose proof (wf_type_of_cons_name _ _ Hwf l r Hl Hn) as Ht.
  destruct (wf_consumer _ _ Hwf l r Hl Ht) as (k & ? & ? & _). eauto.
Qed.

Section Safety.
Context (E : rm_env).

Lemma well_formed_intro K h s : mem K h s → wf K (statics h) → well_formed s.
Proof. by exists K, h. Qed.

Lemma well_formed_same K h h' s : mem K h' s → wf K (statics h) → statics h' = statics h → well_formed s.
Proof. intros Hs Hwf HS. exists K, h'. by rewrite HS. Qed.

Lemma quietly_safe K h {A} (m : RM A) φ s :
  mem K h s → wf K (statics h) → quietly m φ K h → wp m (λ _ s', well_formed s') s.
Proof.
  intros Hs Hwf Hm. eapply wp_quiet; [done..|]. intros a s' Hs' _. by eapply well_formed_intro.
Qed.

(** ** Operations on one resource *)

Lemma safe_consumer_request K h c r k w inc wake s :
  mem K h s → wf K (statics h) → h !! c = Some r → ext r = Cons k → callbacks_set k →
  wp (ipa_rm_resource_consumer_request E c w inc wake)
    (λ _ s', ∃ h' r', mem K h' s' ∧ statics h' = statics h ∧ h' !! c = Some r') s.
Proof.
  intros Hs Hwf Hc Hk Hcb.
  eapply wp_mono; [by apply (wp_consumer_request E K c r k); try apply wf_table_live|].
  cbn beta. intros res s' (h' & r' & k' & Hs' & Hch & _). exists h', r'. split; [done|].
  split; [by eapply statics_cons_change|]. by destruct Hch as (-> & _); rewrite lookup_insert_eq.
Qed.

Lemma safe_consumer_release K h c r k w dec s :
  mem K h s → wf K (statics h) → h !! c = Some r → ext r = Cons k → callbacks_set k →
  wp (ipa_rm_resource_consumer_release E c w dec) (λ _ s', well_formed s') s.
Proof.
  intros Hs Hwf Hc Hk Hcb.
  eapply wp_mono; [by apply (wp_consumer_release E K c r k); try apply wf_table_live|].
  cbn beta. intros res s' (h' & r' & k' & Hs' & Hch & _).
  eapply well_formed_same; [done..|]. by eapply statics_cons_change.
Qed.

Lemma safe_consumer_handle_cb K h c r k pl ev s :
  mem K h s → wf K (statics h) → h !! c = Some r → ext r = Cons k → peers_list r = Some pl →
  wp (ipa_rm_resource_consumer_handle_cb E c ev) (λ _ s', ∃ h' r' k', mem K h' s' ∧
    statics h' = statics h ∧ h' !! c = Some r' ∧ ext r' = Cons k') s.
Proof.
  intros Hs Hwf Hc Hk Hpl.
  eapply wp_mono; [by apply (wp_consumer_handle_cb E K c r k pl ev h)|]. cbn beta.
  intros _ s' Hs'. destruct (cb_heap_consumer K c r k pl ev h Hwf Hc Hk Hpl) as [HS _].
  destruct (statics_peers h (cb_heap ev c r k pl h) c r pl) as (r' & Hc' & _ & Hst); [done..|].
  exists (cb_heap ev c r k pl h), r'. injection Hst as _ _ _ _ _ He. rewrite Hk in He.
  destruct (ext r') as [k'|] eqn:Hk'; [|done]. by exists k'.
Qed.

Lemma safe_producer_request K h p r k pl s :
  mem K h s → wf K (statics h) → h !! p = Some r → ext r = Prod k → peers_list r = Some pl →
  wp (ipa_rm_resource_producer_request E p) (λ _ s', well_formed s') s.
Proof.
  intros Hs Hwf Hp Hk Hpl.
  destruct (decide (active r = true)) as [Hact|Hact].
  { unfold ipa_rm_resource_producer_request. do 2 rm_step. cbn beta. unfold active in Hact.
    destruct (state r); try done; apply wp_ret; by eapply well_formed_intro. }
  eapply (wp_producer_request E K p r k pl (λ _ _ _, True) (λ _ _, True)); try done.
  - unfold active in Hact. destruct (state r); try done; auto.
  - intros. by repeat case_match.
  - intros res h' s' Hs' HS _. by eapply well_formed_same.
  - intros res h' r' k' s' HS _ Hp' Hk' Hs'. eapply well_formed_same; [done..|].
    case_match; [|done]. rewrite <- HS. by eapply statics_insert_same.
Qed.

Lemma safe_producer_release K h p r k pl s :
  mem K h s → wf K (statics h) → h !! p = Some r → ext r = Prod k → peers_list r = Some pl →
  wp (ipa_rm_resource_producer_release E p) (λ _ s', well_formed s') s.
Proof.
  intros Hs Hwf Hp Hk Hpl.
  destruct (decide (active r = true)) as [Hact|Hact].
  2: { unfold ipa_rm_resource_producer_release. do 2 rm_step. cbn beta. unfold active in Hact.
    destruct (state r); try done; apply wp_ret; by eapply well_formed_intro. }
  eapply (wp_producer_release E K p r k pl (λ _ _, True)); try done.
  - unfold active in Hact. destruct (state r); try done; auto.
  - intros h' s' HS _ Hp' Hs'. eapply well_formed_same; [done..|]. rewrite <- HS.
    by eapply statics_insert_same.
Qed.

Lemma safe_add_dependency K h p d rp kp rd kd us s :
  mem K h s → wf K (statics h) → h !! p = Some rp → h !! d = Some rd → ext rp = Prod kp →
  ext rd = Cons kd →
  wp (ipa_rm_resource_add_dependency E p d us) (λ _ s', well_formed s') s.
Proof.
  intros Hs Hwf Hp Hd Hkp Hkd.
  destruct (wf_has_peers _ _ Hwf p rp Hp) as (plp & Hplp & _), (wf_has_peers _ _ Hwf d rd Hd) as (pld & Hpld & _).
  eapply wp_mono; [by apply (wp_add_dependency E K h p d rp rd kp kd plp pld)|].
  cbn beta. intros res s' (h' & Hs' & [(_ & -> & _)|(Hout & b & Hb)]); [by eapply well_formed_intro|].
  eapply well_formed_intro; [done|]. by eapply (add_outcome_wf E K h p d rp rd kp kd plp pld).
Qed.

Lemma safe_delete_dependency K h p d rp kp rd kd us s :
  mem K h s → wf K (statics h) → h !! p = Some rp → h !! d = Some rd → ext rp = Prod kp →
  ext rd = Cons kd →
  wp (ipa_rm_resource_delete_dependency E p d us) (λ _ s', well_formed s') s.
Proof.
  intros Hs Hwf Hp Hd Hkp Hkd.
  destruct (wf_has_peers _ _ Hwf p rp Hp) as (plp & Hplp & _), (wf_has_peers _ _ Hwf d rd Hd) as (pld & Hpld & _).
  eapply wp_mono; [by apply (wp_delete_dependency E K h p d rp rd kp kd plp pld)|].
  cbn beta. intros res s' (h' & Hs' & [(_ & -> & _)|[(_ & -> & _)|(_ & Hslot & Hout)]]);
    [by eapply well_formed_intro..|].
  destruct (delete_outcome_shape E h p d rp rd kp kd plp pld Hkp h' Hout) as (rp' & rd' & -> & ? & ?).
  eapply well_formed_intro; [done|]. by eapply wf_unlinked.
Qed.

Lemma statics_perf_heap l r pl bw h :
  h !! l = Some r → bw ≠ max_bw r →
  statics (perf_heap l r pl bw h) = <[l := static_of (with_max_bw bw r)]> (statics h).
Proof.
  intros Hl Hne. unfold perf_heap. rewrite (proj2 (Z.eqb_neq _ _) Hne), statics_insert.
  destruct (perf_pushes r); [|done]. by rewrite statics_upd_peers.
Qed.

Lemma safe_set_perf_profile K h l r pl bw s :
  mem K h s → wf K (statics h) → h !! l = Some r → peers_list r = Some pl →
  wp (ipa_rm_resource_set_perf_profile E l bw) (λ _ s', well_formed s') s.
Proof.
  intros Hs Hwf Hl Hpl. eapply wp_mono; [by apply (wp_set_perf_profile E K l r pl)|]. cbn beta.
  intros res s' [_ Hs']. eapply well_formed_intro; [done|].
  destruct (decide (bw = max_bw r)) as [->|Hne].
  { unfold perf_heap. by rewrite Z.eqb_refl. }
  rewrite statics_perf_heap by done. eapply wf_update; [done|by apply lookup_statics|done..|].
  exact (wf_res_ok _ _ Hwf l r Hl).
Qed.

Lemma wf_listeners K h p r k ls :
  wf K (statics h) → h !! p = Some r → ext r = Prod k → listeners_ok ls →
  wf K (statics (<[p := with_ext (Prod (with_listeners ls k)) r]> h)).
Proof.
  intros Hwf Hp Hk Hls. rewrite statics_insert.
  eapply wf_update; [done|by apply lookup_statics|done..|].
  destruct (wf_res_ok _ _ Hwf p r Hp) as [Hv Hr]. split; [done|]. cbn in *.
  rewrite Hk in Hr. destruct (type r); [|done]. by destruct Hr.
Qed.

Lemma safe_register K h p r k rp expl s :
  mem K h s → wf K (statics h) → h !! p = Some r → ext r = Prod k →
  listeners_ok (event_listeners k) → rp_notify_cb rp ≠ None →
  wp (ipa_rm_resource_producer_register E p rp expl) (λ _ s', well_formed s') s.
Proof.
  intros Hs Hwf Hp Hk Hls Hcb. eapply wp_mono; [by eapply wp_register|]. cbn beta.
  intros res s' [(_ & _ & Hs')|[(_ & _ & Hs')|(_ & _ & Hs')]]; [by eapply well_formed_intro..|].
  eapply well_formed_intro; [done|]. apply wf_listeners; try done. by constructor.
Qed.

Lemma remove_listener_ok cb ls ls' :
  remove_listener cb ls = Some ls' → listeners_ok ls → listeners_ok ls'.
Proof.
  revert ls'. induction ls as [|i ls IH]; intros ls'; [done|]. cbn.
  intros H Hok. apply Forall_cons_iff in Hok as [Hi Hls]. case_bool_decide; [by simplify_eq|].
  apply fmap_Some_1 in H as (l & Hl & ->). constructor; [done|]. by apply IH.
Qed.

Lemma safe_deregister K h p r k rp s :
  mem K h s → wf K (statics h) → h !! p = Some r → ext r = Prod k →
  listeners_ok (event_listeners k) →
  wp (ipa_rm_resource_producer_deregister p rp) (λ _ s', well_formed s') s.
Proof.
  intros Hs Hwf Hp Hk Hls. eapply wp_mono; [by eapply wp_deregister|]. cbn beta.
  intros res s'. destruct (remove_listener _ _) as [ls|] eqn:Hr; intros [_ Hs'];
    eapply well_formed_intro; try done.
  apply wf_listeners; try done. by eapply remove_listener_ok.
Qed.

(** ** Creation and deletion *)

Lemma wp_dep_graph_add K h l r (Q : Z → rm_state → Prop) s :
  mem K h s → h !! l = Some r →
  (valid_name (name r) = false → Q (- EINVAL) s) →
  (∀ s', valid_name (name r) = true → mem (listed (name r) (Some l) K) h s' → Q 0 s') →
  wp (ipa_rm_dep_graph_add l) Q s.
Proof.
  intros Hs Hl Hbad Hgood. unfold ipa_rm_dep_graph_add. wp_steps. eapply wp_get_ctx; [done|].
  intros c Hc (Hl1 & Hl2 & Hl3) Ht. wp_steps. eapply wp_get_res; [done..|].
  unfold valid_name in *. destruct (index_out_of_table _) eqn:Hi; [apply wp_ret; auto|].
  destruct (valid_name_index (name r)) as [-> Hlt]; [by unfold valid_name; rewrite Hi|].
  wp_steps. rewrite store_z_nat by lia. eapply wp_of_option; [done|]. wp_steps.
  eapply wp_put_ctx; [done| |].
  - unfold ctx_sized. cbn. by rewrite length_insert.
  - intros s' Hs'. apply wp_ret. apply Hgood; [done|]. cbn in Hs'. by rewrite Ht in Hs'.
Qed.

Lemma wp_dep_graph_remove K h n (Q : Z → rm_state → Prop) s :
  mem K h s → (n < IPA_RM_RESOURCE_MAX)%nat →
  (∀ s', mem (listed n None K) h s' → Q 0 s') →
  wp (ipa_rm_dep_graph_remove n) Q s.
Proof.
  intros Hs Hn HQ. unfold ipa_rm_dep_graph_remove. wp_steps. eapply wp_get_ctx; [done|].
  intros c Hc (Hl1 & Hl2 & Hl3) Ht. wp_steps. rewrite store_z_nat by lia.
  eapply wp_of_option; [done|]. wp_steps. eapply wp_put_ctx; [done| |].
  - unfold ctx_sized. cbn. by rewrite length_insert.
  - intros s' Hs'. apply wp_ret. apply HQ. cbn in Hs'. by rewrite Ht in Hs'.
Qed.

Definition params_ok (cp : ipa_rm_create_params) : Prop :=
  if IPA_RM_RESORCE_IS_PROD (cp_name cp) then rp_notify_cb (cp_reg_params cp) ≠ None
  else cp_request_resource cp ≠ None ∧ cp_release_resource cp ≠ None.

Lemma new_res_ok cp :
  params_ok cp → valid_name (cp_name cp) = true →
  is_prod_params cp = true ∨ IPA_RM_RESORCE_IS_CONS (cp_name cp) = true →
  res_ok (static_of (new_res cp)).
Proof.
  unfold params_ok, res_ok, new_res, new_ext, is_prod_params. intros Hcb Hv Hkind.
  cbn. destruct (IPA_RM_RESORCE_IS_PROD (cp_name cp)) eqn:Hp; cbn.
  - split_and!; try done. by constructor.
  - destruct Hcb, Hkind as [?|?]; [done|]. by split_and!.
Qed.

(** A creation in full: which memory it leaves, on each result. *)
Lemma wp_create_resource K h cp s :
  mem K h s → wf K (statics h) → params_ok cp →
  wp (ipa_rm_create_resource E (Some cp))
    (λ res s', (res ≠ 0 ∧ (mem K h s' ∨ mem (bump_next K) h s')) ∨
       (res = 0 ∧ resolve (k_table K) (cp_name cp) = None ∧ h !! k_next K = None ∧
        res_ok (static_of (new_res cp)) ∧
        mem (listed (cp_name cp) (Some (k_next K)) (bump_next K)) (<[k_next K := new_res cp]> h) s')) s.
Proof.
  intros Hs Hwf Hcp. unfold ipa_rm_create_resource. eapply wp_unless_null; [done|].
  destruct (_ || _); [apply wp_ret; left; split; [done|by left]|].
  rm_step. eapply wp_get_resource; [done|]. cbn beta iota.
  destruct (resolve (k_table K) (cp_name cp)) eqn:Hres; ztests.
  { apply wp_ret. left. split; [done|by left]. }
  assert (h !! k_next K = None) as Hfresh.
  { destruct (h !! k_next K) as [r|] eqn:Hl; [|done]. apply lookup_statics in Hl.
    rewrite (wf_fresh K _ (k_next K) Hwf) in Hl by lia. done. }
  rm_step. eapply wp_mono; [by apply (wp_resource_create E K h)|].
  intros [res [l|]] s1; unfold create_post; cbn [fst snd]; [|intros [? ?]; apply wp_ret; by left].
  intros (-> & -> & Hs1 & Hkind). rm_step.
  eapply (wp_dep_graph_add _ _ (k_next K) (new_res cp)); [exact Hs1|by rewrite lookup_insert_eq| |].
  - intros Hbad. ztests. rm_step. eapply (wp_delete_unlisted E K h Hfresh cp).
    + unfold is_prod_params. destruct (IPA_RM_RESORCE_IS_PROD (cp_name cp)) eqn:Hp; [|done].
      change (valid_name (cp_name cp) = false) in Hbad. by rewrite (prod_valid _ Hp) in Hbad.
    + exact Hs1.
    + intros s2 Hs2. apply wp_ret. left. split; [done|by right].
  - intros s2 Hgood Hs2. ztests. apply wp_ret. right. split_and!; try done; by apply new_res_ok.
Qed.

Lemma safe_create_resource cp s :
  params_ok cp → well_formed s →
  wp (ipa_rm_create_resource E (Some cp)) (λ _ s', well_formed s') s.
Proof.
  intros Hcp (K & h & Hs & Hwf). eapply wp_mono; [by apply (wp_create_resource K h)|]. cbn beta.
  intros res s' [(_ & [Hs'|Hs'])|(_ & Hres & _ & Hok & Hs')]; [by eapply well_formed_intro|..].
  - eapply well_formed_intro; [done|]. destruct Hwf as [H1 H2 H3]. split; [done| |done].
    intros l st Hl. destruct (H2 l st Hl) as (? & ? & ?). split_and!; [done| |done]. cbn. lia.
  - eapply well_formed_intro; [done|]. rewrite statics_insert.
    apply (wf_create K (statics h) (static_of (new_res cp))); try done. by eapply mem_table_length.
Qed.

(** A deletion removes the resource and its entry in the table; [I] is an invariant of
    the turns, as for [wp_resource_delete]. *)
Lemma wp_delete_resource K h n (I : loc → nat → rheap → Prop) s :
  mem K h s → wf K (statics h) → (∀ l r, h !! l = Some r → name r = n → I l 0%nat h) →
  (∀ l i h h', wf K (statics h) → I l i h → delete_turn E l i h h' → I l (S i) h') →
  (∀ l i h r pl, h !! l = Some r → peers_list r = Some pl → I l i h → peer_at pl i = None → I l (S i) h) →
  wp (ipa_rm_delete_resource E n)
    (λ res s', (res = - EINVAL ∧ resolve (k_table K) n = None ∧ mem K h s') ∨
       (res = 0 ∧ ∃ l h' r' pl', wf K (statics h') ∧ h' !! l = Some r' ∧ name r' = n ∧
          peers_list r' = Some pl' ∧ (∀ j, peer_at pl' j = None) ∧ I l IPA_RM_RESOURCE_MAX h' ∧
          length (k_table K) = IPA_RM_RESOURCE_MAX ∧ mem (listed n None K) (delete l h') s')) s.
Proof.
  intros Hs Hwf HI Hturn Hskip. unfold ipa_rm_delete_resource. eapply wp_unless_null; [done|].
  eapply wp_with_resource; [done..|by left|]. intros l r pl Hres Hl Hn Hpl Hok. rm_step.
  pose proof (mem_table_length _ _ _ Hs) as Hlen.
  eapply wp_mono; [apply (wp_resource_delete E K l r pl (I l) h); [done..|by eapply HI|apply Hturn|apply Hskip]|]. cbn beta.
  intros res s1 (-> & h' & r' & pl' & Hwf' & Hl' & [Hn' _] & Hpl' & Hnone & HI' & Hs1). ztests.
  apply resolve_Some in Hres as [Hv _]. destruct (valid_name_index n Hv) as [_ Hlt].
  eapply wp_dep_graph_remove; [done..|]. intros s2 Hs2. right. split; [done|].
  exists l, h', r', pl'. split_and!; try done. congruence.
Qed.

Lemma safe_delete_resource n : safe (ipa_rm_delete_resource E n).
Proof.
  intros s (K & h & Hs & Hwf).
  eapply wp_mono; [by apply (wp_delete_resource K h n (λ _ _ _, True))|]. cbn beta.
  intros res s' [(_ & _ & Hs')|(_ & l & h' & r' & pl' & Hwf' & Hl' & <- & Hpl' & Hnone & _ & Hlen & Hs')];
    [by eapply well_formed_intro|].
  eapply well_formed_intro; [done|]. rewrite statics_delete.
  apply (wf_delete K (statics h') l (static_of r') pl'); try done. by apply lookup_statics.
Qed.
End Safety.

(** * IPA resource manager: the module is memory safe *)

Section Module.
Context (E : rm_env).

Lemma safe_const (v : Z) : safe (mret v).
Proof. intros s Hs. by apply wp_ret. Qed.

Lemma safe_unless_null m : safe m → safe (unless_null m).
Proof. intros Hm s Hw. pose proof Hw as (K & h & Hs & Hwf). eapply wp_unless_null; [done|]. by apply Hm. Qed.

Lemma safe_bind_unit {A B} (m : RM A) (b : B) : safe m → safe (m ;; mret b).
Proof.
  intros Hm s Hs. apply wp_bind. eapply wp_mono; [by apply Hm|]. intros a s' Hs'. by apply wp_ret.
Qed.

(** Two lookups, for a producer and a consumer. *)
Lemma safe_two_resources n d (f : loc → loc → RM Z) :
  (∀ K h p c rp kp rc kc s, mem K h s → wf K (statics h) → h !! p = Some rp → h !! c = Some rc →
     ext rp = Prod kp → ext rc = Cons kc → wp (f p c) (λ _ s', well_formed s') s) →
  safe (if negb (IPA_RM_RESORCE_IS_PROD n) || negb (IPA_RM_RESORCE_IS_CONS d) then mret (- EINVAL)
        else with_resource n (- EINVAL) (λ p, with_resource d (- EINVAL) (f p))).
Proof.
  intros Hf s (K & h & Hs & Hwf).
  destruct (IPA_RM_RESORCE_IS_PROD n) eqn:Hn, (IPA_RM_RESORCE_IS_CONS d) eqn:Hd; cbn [negb orb];
    try (apply wp_ret; by eapply well_formed_intro).
  eapply wp_with_resource; [done..|intros _; by eapply well_formed_intro|].
  intros p rp plp _ Hp Hnp _ _.
  eapply wp_with_resource; [done..|intros _; by eapply well_formed_intro|].
  intros c rc plc _ Hc Hnc _ _.
  destruct (wf_prod_named _ _ _ _ _ Hwf Hp Hnp Hn) as (kp & ? & _).
  destruct (wf_cons_named _ _ _ _ _ Hwf Hc Hnc Hd) as (kc & ? & _). by eapply Hf.
Qed.

(** One lookup, for a producer. *)
Lemma safe_producer_named n err (f : loc → RM Z) :
  (∀ K h p r k pl s, mem K h s → wf K (statics h) → h !! p = Some r → ext r = Prod k →
     listeners_ok (event_listeners k) → peers_list r = Some pl → wp (f p) (λ _ s', well_formed s') s) →
  safe (if negb (IPA_RM_RESORCE_IS_PROD n) then mret (- EINVAL) else with_resource n err f).
Proof.
  intros Hf s (K & h & Hs & Hwf). destruct (IPA_RM_RESORCE_IS_PROD n) eqn:Hn; cbn [negb];
    [|apply wp_ret; by eapply well_formed_intro].
  eapply wp_with_resource; [done..|intros _; by eapply well_formed_intro|].
  intros p rp plp _ Hp Hnp Hpl _. destruct (wf_prod_named _ _ _ _ _ Hwf Hp Hnp Hn) as (kp & ? & ?).
  by eapply Hf.
Qed.

(** One lookup, for a consumer. *)
Lemma safe_consumer_named n err (f : loc → RM Z) :
  IPA_RM_RESORCE_IS_CONS n = true →
  (∀ K h c r k pl s, mem K h s → wf K (statics h) → h !! c = Some r → ext r = Cons k →
     callbacks_set k → peers_list r = Some pl → wp (f c) (λ _ s', well_formed s') s) →
  safe (with_resource n err f).
Proof.
  intros Hn Hf s (K & h & Hs & Hwf).
  eapply wp_with_resource; [done..|intros _; by eapply well_formed_intro|].
  intros c rc plc _ Hc Hnc Hpl _. destruct (wf_cons_named _ _ _ _ _ Hwf Hc Hnc Hn) as (kc & ? & ?).
  by eapply Hf.
Qed.

Lemma safe_request_with_timer n : safe (ipa_rm_request_resource_with_timer E n).
Proof.
  unfold ipa_rm_request_resource_with_timer.
  destruct (IPA_RM_RESORCE_IS_CONS n) eqn:Hn; cbn [negb]; [|apply safe_const].
  apply safe_consumer_named; [done|]. intros K h c r k pl s Hs Hwf Hc Hk Hcb Hpl. rm_step.
  eapply wp_mono; [by eapply safe_consumer_request|]. cbn beta.
  intros res s1 (h1 & r1 & Hs1 & HS1 & Hc1).
  assert (wf K (statics h1)) as Hwf1 by by rewrite HS1.
  destruct (_ && _); [apply wp_ret; by eapply well_formed_intro|].
  do 2 rm_step. destruct a; cbn [negb]; [|apply wp_ret; by eapply well_formed_intro].
  do 3 rm_step. unfold schedule_delayed_work. wp_steps.
  destruct H as (ctx & -> & Hsz & Ht).
  exists (mkControl (k_table K) (k_next K) (k_delayed K ++ [mkDelayed (name r1) 0 false])), h1.
  split; [by exists ctx|]. destruct Hwf1 as [H1 H2 H3]. by split.
Qed.

Lemma safe_notify_completion ev n : safe (ipa_rm_notify_completion E ev n).
Proof.
  apply safe_unless_null. destruct (IPA_RM_RESORCE_IS_CONS n) eqn:Hn; [|apply safe_const].
  apply safe_bind_unit. intros s (K & h & Hs & Hwf). eapply quietly_safe; [done..|].
  by apply quietly_alloc_and_queue.
Qed.

Lemma safe_set_perf n profile : safe (ipa_rm_set_perf_profile E n profile).
Proof.
  apply safe_unless_null. intros s (K & h & Hs & Hwf).
  eapply wp_with_resource; [done..|intros _; by eapply well_formed_intro|].
  intros l r pl _ Hl _ Hpl _. destruct profile; [|apply wp_ret; by eapply well_formed_intro].
  by eapply safe_set_perf_profile.
Qed.

(** What the environment promises about the arguments. *)
Definition api_ok (a : rm_api) : Prop :=
  match a with
  | ApiCreate (Some cp) => params_ok cp
  | ApiRegister _ rp => rp_notify_cb rp ≠ None
  | _ => True
  end.

Lemma safe_api a : api_ok a → safe (run_api E a).
Proof.
  intros Hok. destruct a as [[cp|]|n|n d us|n d us|n|n|n|n rp|n rp|n p|ev n]; cbn [run_api].
  - intros s Hs. by apply safe_create_resource.
  - apply (safe_unless_null (mret (- EINVAL))), safe_const.
  - apply safe_delete_resource.
  - apply safe_unless_null, safe_two_resources. intros. by eapply safe_add_dependency.
  - apply safe_unless_null, safe_two_resources. intros. by eapply safe_delete_dependency.
  - apply safe_unless_null, safe_producer_named. intros. by eapply safe_producer_request.
  - apply safe_unless_null, safe_producer_named. intros. by eapply safe_producer_release.
  - apply safe_request_with_timer.
  - apply safe_producer_named. intros. by eapply safe_register.
  - apply safe_producer_named. intros. by eapply safe_deregister.
  - apply safe_set_perf.
  - apply safe_notify_completion.
Qed.

(** ** Deferred work *)

Lemma safe_handle_cb K h c r k pl ev s :
  mem K h s → wf K (statics h) → h !! c = Some r → ext r = Cons k → peers_list r = Some pl →
  wp (ipa_rm_resource_consumer_handle_cb E c ev) (λ _ s', well_formed s') s.
Proof.
  intros Hs Hwf Hc Hk Hpl. eapply wp_mono; [by eapply safe_consumer_handle_cb|]. cbn beta.
  intros _ s1 (h1 & r1 & k1 & Hs1 & HS1 & _). by eapply well_formed_same.
Qed.

Lemma well_formed_cons_change K h c r k h' r' k' s :
  mem K h' s → wf K (statics h) → h !! c = Some r → cons_change h c r k h' r' k' → well_formed s.
Proof. intros. eapply well_formed_same; [done..|]. by eapply statics_cons_change. Qed.

Lemma safe_resume n prev bw inc : safe (ipa_rm_wq_resume_handler E n prev bw inc).
Proof.
  unfold ipa_rm_wq_resume_handler. intros s (K & h & Hs & Hwf).
  destruct (IPA_RM_RESORCE_IS_CONS n) eqn:Hn; cbn [negb]; [|apply wp_ret; by eapply well_formed_intro].
  do 3 rm_step. eapply wp_get_resource; [done|]. cbn beta iota.
  destruct (resolve (k_table K) n) as [c|] eqn:Hres.
  2: { eapply quietly_safe; [done..|]. apply quietly_log. }
  destruct (wf_resolve _ _ Hwf n c Hres) as (r & Hc & Hnm).
  destruct (wf_cons_named _ _ _ _ _ Hwf Hc Hnm Hn) as (k & Hk & Hcb).
  destruct (wf_has_peers _ _ Hwf c r Hc) as (pl & Hpl & _). rm_step.
  eapply wp_mono; [by apply (wp_request_work_async E K c r k pl)|]. cbn beta.
  intros res s1 (h' & Hs1 & [(_ & ->)|[(_ & ->)|(_ & r' & k' & Hch & _)]]); apply wp_ret.
  - destruct (cb_heap_consumer K c r k pl IPA_RM_RESOURCE_GRANTED h Hwf Hc Hk Hpl) as [HS _].
    by eapply well_formed_same.
  - by eapply well_formed_intro.
  - by eapply well_formed_cons_change.
Qed.

Lemma safe_suspend n prev : safe (ipa_rm_wq_suspend_handler E n prev).
Proof.
  unfold ipa_rm_wq_suspend_handler. intros s (K & h & Hs & Hwf).
  destruct (IPA_RM_RESORCE_IS_CONS n) eqn:Hn; cbn [negb]; [|apply wp_ret; by eapply well_formed_intro].
  do 3 rm_step. eapply wp_get_resource; [done|]. cbn beta iota.
  destruct (resolve (k_table K) n) as [c|] eqn:Hres; [|apply wp_ret; by eapply well_formed_intro].
  destruct (wf_resolve _ _ Hwf n c Hres) as (r & Hc & Hnm).
  destruct (wf_cons_named _ _ _ _ _ Hwf Hc Hnm Hn) as (k & Hk & Hcb).
  destruct (wf_has_peers _ _ Hwf c r Hc) as (pl & Hpl & _). rm_step.
  eapply wp_mono; [by apply (wp_release_work_async E K c r k pl)|]. cbn beta.
  intros res s1 [(h1 & r1 & k1 & -> & _ & Hc1 & Hk1 & Hs1)|(_ & Hs1)]; apply wp_ret.
  - destruct (cb_heap_consumer K c r k pl IPA_RM_RESOURCE_RELEASED h Hwf Hc Hk Hpl) as [HS _].
    eapply well_formed_same; [done..|]. rewrite <- HS. eapply statics_insert_same; [done|].
    by apply (static_same_ext r1 k1).
  - eapply well_formed_same; [done..|]. by eapply statics_insert_same.
Qed.

Lemma safe_wq_handler cmd n ev only :
  work_ok (WorkCmd cmd n ev only) → safe (ipa_rm_wq_handler E cmd n ev only).
Proof.
  intros Hw s (K & h & Hs & Hwf). unfold ipa_rm_wq_handler. destruct cmd; cbn in Hw.
  - destruct (IPA_RM_RESORCE_IS_PROD n) eqn:Hn; cbn [negb]; [|apply wp_ret; by eapply well_formed_intro].
    rm_step. eapply wp_with_resource; [done..|intros _; apply wp_ret; by eapply well_formed_intro|].
    intros p r pl _ Hp Hnm Hpl _. destruct (wf_prod_named _ _ _ _ _ Hwf Hp Hnm Hn) as (k & Hk & Hls).
    rm_step. eapply wp_quiet; [done|by eapply quietly_notify_clients|]. intros ? s1 Hs1 _.
    apply wp_ret, wp_ret. by eapply well_formed_intro.
  - apply wp_ret. by eapply well_formed_intro.
  - rm_step. eapply wp_with_resource; [done..|intros _; apply wp_ret; by eapply well_formed_intro|].
    intros c r pl _ Hc Hnm Hpl _. destruct (wf_cons_named _ _ _ _ _ Hwf Hc Hnm Hw) as (k & Hk & _).
    rm_step. eapply wp_mono; [by eapply safe_handle_cb|]. intros v s1 Hs1. by apply wp_ret, wp_ret.
Qed.

Lemma safe_work w : work_ok w → safe (run_work E w).
Proof.
  intros Hw. destruct w as [cmd n ev only|n prev bw inc|n prev bw|v bw]; cbn [run_work].
  - by apply safe_wq_handler.
  - apply safe_resume.
  - apply safe_suspend.
  - intros s (K & h & Hs & Hwf). eapply quietly_safe; [done..|]. apply quietly_log.
Qed.

Lemma safe_delayed d : safe (delayed_release_work_func E d).
Proof.
  unfold delayed_release_work_func. intros s Hs.
  destruct (IPA_RM_RESORCE_IS_CONS (dr_resource_name d)) eqn:Hn; cbn [negb]; [|by apply wp_ret].
  apply wp_bind. eapply wp_mono; [eapply safe_consumer_named; [done| |done]|].
  - intros K h c r k pl s1 Hs1 Hwf Hc Hk Hcb _. by eapply safe_consumer_release.
  - intros res s1 Hs1. by apply wp_ret.
Qed.

(** ** Steps *)

Lemma wp_pop_work (Q : rm_work → rm_state → Prop) s :
  well_formed s → label_enabled StepWork s →
  (∀ w s', well_formed s' → work_ok w → Q w s') → wp pop_work Q s.
Proof.
  intros (K & h & Hs & Hwf) Hen HQ. unfold pop_work. wp_steps. eapply wp_get_ctx; [done|].
  intros c Hc (H1 & H2 & H3 & H4) Ht. cbn in Hen. rewrite Hc in Hen.
  destruct (ipa_rm_wq c) as [|w q]; [done|]. apply Forall_cons_iff in H4 as [Hw Hq]. rm_step.
  eapply wp_put_ctx; [done|by split_and!|]. intros s1 Hs1. apply wp_ret. apply HQ; [|done].
  cbn in Hs1. rewrite Ht in Hs1. destruct K. by eapply well_formed_intro.
Qed.

Lemma wp_pop_delayed i (Q : _ → rm_state → Prop) s :
  well_formed s → label_enabled (StepTimer i) s →
  (∀ d s', well_formed s' → Q d s') → wp (pop_delayed i) Q s.
Proof.
  intros (K & h & Hs & Hwf) Hen HQ. cbn in Hen. unfold pop_delayed. wp_steps.
  destruct (lookup_lt_is_Some_2 _ _ Hen) as [d Hd]. wp_steps. apply HQ.
  destruct Hs as (c & -> & Hc & Ht).
  exists (mkControl (k_table K) (k_next K) (delete i (k_delayed K))), h.
  split; [by exists c|]. destruct Hwf as [H1 H2 H3]. by split.
Qed.

Lemma safe_label l s :
  well_formed s → label_enabled l s → wp (run_label E l) (λ _ s', well_formed s') s.
Proof.
  intros Hs Hen. destruct l as [a| |i]; cbn [run_label].
  - apply wp_bind. eapply wp_mono; [apply safe_api; [|done]|intros v s1 Hs1; by apply wp_ret].
    destruct a as [[cp|]|n|n d us|n d us|n|n|n|n rp|n rp|n p|ev n]; done.
  - apply wp_bind. apply wp_pop_work; [done..|]. intros w s1 Hs1 Hw. by apply safe_work.
  - apply wp_bind. apply wp_pop_delayed; [done..|]. intros d s1 Hs1. by apply safe_delayed.
Qed.

Lemma well_formed_initial : well_formed initial_state.
Proof.
  exists (mkControl (replicate IPA_RM_RESOURCE_MAX None) 1%positive []), ∅. split.
  - exists fresh_ctx. split; [done|]. split; [|done]. by repeat split.
  - split; [|done..]. intros n l Hn. apply lookup_replicate_1 in Hn as [[=] _].
Qed.

Lemma reachable_well_formed s : reachable E s → well_formed s.
Proof.
  induction 1 as [|l s s' _ IH Hen Hrun]; [apply well_formed_initial|].
  pose proof (safe_label l s IH Hen) as Hwp. unfold wp in Hwp. by rewrite Hrun in Hwp.
Qed.
End Module.
