(* ===== verification/RmAcct.v ===== *)
(** * IPA resource manager: counting the users of a consumer

    Sums over the slots of a peers list, and the accounts of the consumers and of the
    producers: who is counted where, and with which bandwidth. The record of what has
    been counted is a ghost map from (producer, consumer) to a bandwidth, so that the
    middle of a loop over the consumers of a producer has an account too.

    What one request and one release of a consumer do to the accounts of [RmAcct.v] and
    to the count of pending requests of each producer, when the drivers' callbacks
    succeed or pend. *)

From S2P Require Import Prelude.
From S2P Require Import RmTypes.
From S2P Require Import RmPeers.
From S2P Require Import RmCore.
From S2P Require Import RmResource.
From S2P Require Import RmConsumer.
From S2P Require Import RmWf.
From S2P Require Import RmProducer.
From S2P Require Import RmOps.

(** ** Sums over slots *)

Definition slot_val (f : loc → Z) (q : ipa_rm_resource_peer) : Z :=
  match peer_resource q with Some p => f p | None => 0 end.

Fixpoint slot_sum (f : loc → Z) (l : list ipa_rm_resource_peer) : Z :=
  match l with [] => 0 | q :: l' => slot_val f q + slot_sum f l' end.

Lemma slot_sum_ext f g l :
  (∀ i p us, l !! i = Some (mkPeer (Some p) us) → f p = g p) → slot_sum f l = slot_sum g l.
Proof.
  induction l as [|[[p|] us] l IH]; intros Hfg; cbn; [done|..].
  - rewrite (IH (λ i, Hfg (S i))). unfold slot_val. cbn. by rewrite (Hfg 0%nat p us).
  - by rewrite (IH (λ i, Hfg (S i))).
Qed.

Lemma slot_sum_insert f l i q q' :
  l !! i = Some q → slot_sum f (<[i := q']> l) = slot_sum f l - slot_val f q + slot_val f q'.
Proof.
  revert i. induction l as [|x l IH]; intros [|i] Hi; try done; cbn in Hi.
  - injection Hi as ->. cbn. lia.
  - change (<[S i := q']> (x :: l)) with (x :: <[i := q']> l). cbn. rewrite (IH i Hi). lia.
Qed.

Lemma slot_sum_nonneg f l :
  (∀ p, 0 ≤ f p) → 0 ≤ slot_sum f l.
Proof.
  intros Hf. induction l as [|[[p|] us] l IH]; cbn; [lia|..]; unfold slot_val; cbn; [|lia].
  specialize (Hf p). lia.
Qed.

Lemma slot_sum_zero f l :
  (∀ i p us, l !! i = Some (mkPeer (Some p) us) → f p = 0) → slot_sum f l = 0.
Proof.
  intros Hf. rewrite (slot_sum_ext f (λ _, 0)) by done. clear Hf.
  induction l as [|[[p|] us] l IH]; [done|exact IH|exact IH].
Qed.

(** One term of a sum of non-negative terms. *)
Lemma slot_sum_ge f l i p us :
  (∀ p, 0 ≤ f p) → l !! i = Some (mkPeer (Some p) us) → f p ≤ slot_sum f l.
Proof.
  intros Hf. revert i. induction l as [|x l IH]; intros [|i] Hi; try done; cbn in *.
  - injection Hi as ->. unfold slot_val. cbn. pose proof (slot_sum_nonneg f l Hf). lia.
  - specialize (IH i Hi). unfold slot_val. destruct (peer_resource x) as [y|]; [|lia].
    specialize (Hf y). lia.
Qed.

(** Two functions that differ at the resource of one slot. *)
Lemma slot_sum_one f g l i p us :
  l !! i = Some (mkPeer (Some p) us) →
  (∀ j q us', j ≠ i → l !! j = Some (mkPeer (Some q) us') → f q = g q) →
  slot_sum g l = slot_sum f l - f p + g p.
Proof.
  revert i. induction l as [|x l IH]; intros [|i] Hi Hfg; try done; cbn in Hi.
  - injection Hi as ->. cbn.
    rewrite (slot_sum_ext f g l) by (intros j q us' Hj; by apply (Hfg (S j) q us')).
    unfold slot_val. cbn. lia.
  - cbn. rewrite (IH i Hi) by (intros j q us' Hj Hl; apply (Hfg (S j) q us'); [lia|done]).
    assert (slot_val f x = slot_val g x) as ->; [|lia].
    destruct x as [[y|] us']; [|done]. by apply (Hfg 0%nat y us').
Qed.

(** ** Accounts *)

(** What a producer weighs in the account of a consumer. *)
Abbreviation account := (loc → loc → option Z).

Definition counted (o : option Z) : Z := match o with Some _ => 1 | None => 0 end.
Definition weight (o : option Z) : Z := default 0 o.

Definition users (A : account) (c : loc) (pl : ipa_rm_peers_list) : Z :=
  slot_sum (λ p, counted (A p c)) (peers pl).
Definition load (A : account) (c : loc) (pl : ipa_rm_peers_list) : Z :=
  slot_sum (λ p, weight (A p c)) (peers pl).

(** The account of one consumer: its usage count is the number of its users, its
    bandwidth is theirs, and it is not released while it has users. *)
Definition cons_balanced (A : account) (c : loc) (r : ipa_rm_resource) (k : resource_cons)
    (pl : ipa_rm_peers_list) : Prop :=
  usage_count k = users A c pl ∧ needed_bw r = u32 (load A c pl) ∧ (idle r → users A c pl = 0).

Definition cons_ok (A : account) (h : rheap) : Prop :=
  ∀ c r k pl, h !! c = Some r → ext r = Cons k → peers_list r = Some pl → cons_balanced A c r k pl.

(** Account [(p, c)] set to [v]. *)
Definition acc_set (A : account) (p c : loc) (v : option Z) : account :=
  λ p' c', if decide (p' = p ∧ c' = c) then v else A p' c'.

Lemma acc_set_eq A p c v : acc_set A p c v p c = v.
Proof. unfold acc_set. by rewrite decide_True. Qed.
Lemma acc_set_ne A p c v p' c' : p' ≠ p ∨ c' ≠ c → acc_set A p c v p' c' = A p' c'.
Proof. intros. unfold acc_set. rewrite decide_False; [done|]. tauto. Qed.

Lemma counted_range o : 0 ≤ counted o ≤ 1.
Proof. destruct o; cbn; lia. Qed.

Lemma users_nonneg A c pl : 0 ≤ users A c pl.
Proof. apply slot_sum_nonneg. intros p. apply counted_range. Qed.

(** The slots of a list hold different producers. *)
Definition slots_inj (pl : ipa_rm_peers_list) : Prop :=
  ∀ i j p us us', peers pl !! i = Some (mkPeer (Some p) us) →
    peers pl !! j = Some (mkPeer (Some p) us') → i = j.

Lemma wf_slots_inj K h c r pl :
  wf K (statics h) → h !! c = Some r → peers_list r = Some pl → slots_inj pl.
Proof.
  intros Hwf Hc Hpl i j p us us' Hi Hj.
  destruct (wf_peer _ _ Hwf c r pl i p us Hc Hpl Hi) as (r1 & _ & H1 & <- & _).
  destruct (wf_peer _ _ Hwf c r pl j p us' Hc Hpl Hj) as (r2 & _ & H2 & <- & _). congruence.
Qed.

Lemma users_set A p c v pl i us :
  slots_inj pl → peers pl !! i = Some (mkPeer (Some p) us) →
  users (acc_set A p c v) c pl = users A c pl - counted (A p c) + counted v ∧
  load (acc_set A p c v) c pl = load A c pl - weight (A p c) + weight v.
Proof.
  intros Hinj Hi. unfold users, load. split.
  - rewrite (slot_sum_one (λ p, counted (A p c)) _ (peers pl) i p us Hi).
    + by rewrite acc_set_eq.
    + intros j q us' Hne Hj. rewrite acc_set_ne; [done|]. left. intros ->. by eapply Hne, Hinj.
  - rewrite (slot_sum_one (λ p, weight (A p c)) _ (peers pl) i p us Hi).
    + by rewrite acc_set_eq.
    + intros j q us' Hne Hj. rewrite acc_set_ne; [done|]. left. intros ->. by eapply Hne, Hinj.
Qed.

Lemma users_ext A A' c pl :
  (∀ i p us, peers pl !! i = Some (mkPeer (Some p) us) → A p c = A' p c) →
  users A c pl = users A' c pl ∧ load A c pl = load A' c pl.
Proof.
  intros HA. split; apply slot_sum_ext; intros i p us Hi; by rewrite (HA i p us Hi).
Qed.

Lemma users_pos A c pl i p us v :
  peers pl !! i = Some (mkPeer (Some p) us) → A p c = Some v → 1 ≤ users A c pl.
Proof.
  intros Hi HA. unfold users.
  pose proof (slot_sum_ge (λ p, counted (A p c)) (peers pl) i p us) as H. cbn beta in H.
  rewrite HA in H. apply H; [|done]. intros q. apply counted_range.
Qed.

Lemma users_0 A c pl :
  (∀ i p us, peers pl !! i = Some (mkPeer (Some p) us) → A p c = None) → users A c pl = 0 ∧ load A c pl = 0.
Proof.
  intros HA. destruct (users_ext A (λ _ _, None) c pl) as [-> ->]; [done|].
  unfold users, load. clear HA. induction (peers pl) as [|[[q|] us] l IH]; cbn; [done|..];
    unfold slot_val; cbn in *; lia.
Qed.

(** Only the accounts of linked pairs matter. *)
Lemma cons_ok_ext A A' h :
  (∀ c r k pl i p us, h !! c = Some r → ext r = Cons k → peers_list r = Some pl →
     peers pl !! i = Some (mkPeer (Some p) us) → A p c = A' p c) →
  cons_ok A h → cons_ok A' h.
Proof.
  intros HA Hok c r k pl Hc Hk Hpl. destruct (Hok c r k pl Hc Hk Hpl) as (Hu & Hl & Hi).
  destruct (users_ext A A' c pl) as [Eu El]; [intros i p us; by eapply HA|].
  unfold cons_balanced. by rewrite <- Eu, <- El.
Qed.

(** The accounts do not see producers. *)
Lemma cons_ok_prod A h p rp k :
  ext rp = Prod k → cons_ok A h → cons_ok A (<[p := rp]> h).
Proof.
  intros Hk Hok c r kc pl Hc Hkc Hpl. destruct (decide (c = p)) as [->|].
  - rewrite lookup_insert_eq in Hc. congruence.
  - rewrite lookup_insert_ne in Hc by done. by apply (Hok c r).
Qed.

(** A change of one consumer, with the account of one of its producers. *)
Lemma cons_ok_change A h p c r k pl r' k' i us v :
  cons_ok A h → h !! c = Some r → ext r = Cons k → peers_list r = Some pl → slots_inj pl →
  peers pl !! i = Some (mkPeer (Some p) us) →
  ext r' = Cons k' → peers_list r' = Some pl →
  usage_count k' = usage_count k - counted (A p c) + counted v →
  needed_bw r' = u32 (needed_bw r - weight (A p c) + weight v) →
  (idle r' → usage_count k' = 0) →
  cons_ok (acc_set A p c v) (<[c := r']> h).
Proof.
  intros Hok Hc Hk Hpl Hinj Hi Hk' Hpl' Hu Hl Hidle c2 r2 k2 pl2 Hc2 Hk2 Hpl2.
  destruct (decide (c2 = c)) as [->|Hne].
  - rewrite lookup_insert_eq in Hc2. injection Hc2 as <-.
    assert (k2 = k') as -> by congruence. assert (pl2 = pl) as -> by congruence.
    destruct (Hok c r k pl Hc Hk Hpl) as (Hu0 & Hl0 & _).
    destruct (users_set A p c v pl i us Hinj Hi) as [Eu El]. unfold cons_balanced.
    rewrite Eu, El, Hu, Hu0, Hl, Hl0. split_and!; [done| |].
    + rewrite <- Z.add_opp_r, <- Z.add_assoc. rewrite u32_add_l. f_equal. lia.
    + intros Hr. rewrite <- Hu0, <- Hu. auto.
  - rewrite lookup_insert_ne in Hc2 by done.
    destruct (users_ext A (acc_set A p c v) c2 pl2) as [Eu El].
    { intros. rewrite acc_set_ne; [done|by right]. }
    unfold cons_balanced. rewrite <- Eu, <- El. by apply (Hok c2 r2).
Qed.

(** A change of one consumer that concerns no producer. *)
Lemma cons_ok_same A h c r k pl r' k' :
  cons_ok A h → h !! c = Some r → ext r = Cons k → peers_list r = Some pl →
  ext r' = Cons k' → peers_list r' = Some pl → usage_count k' = usage_count k →
  needed_bw r' = needed_bw r → (idle r' → usage_count k' = 0) →
  cons_ok A (<[c := r']> h).
Proof.
  intros Hok Hc Hk Hpl Hk' Hpl' Hu Hl Hidle c2 r2 k2 pl2 Hc2 Hk2 Hpl2.
  destruct (decide (c2 = c)) as [->|Hne].
  - rewrite lookup_insert_eq in Hc2. injection Hc2 as <-.
    assert (k2 = k') as -> by congruence. assert (pl2 = pl) as -> by congruence.
    destruct (Hok c r k pl Hc Hk Hpl) as (Hu0 & Hl0 & _).
    unfold cons_balanced. rewrite <- Hu0, Hl, Hu, <- Hl0. rewrite Hu in Hidle. by split_and!.
  - rewrite lookup_insert_ne in Hc2 by done. by apply (Hok c2 r2).
Qed.

(** * IPA resource manager: accounts of a turn *)

(** The drivers' callbacks return success or "in progress". *)
Definition no_errors (E : rm_env) : Prop := ∀ hi fn, env_call E hi fn = 0 ∨ env_call E hi fn = - EINPROGRESS.

Lemma no_driver_error E v : no_errors E → ¬ driver_error E v.
Proof. intros HE (H0 & H1 & hi & fn & <-). by destruct (HE hi fn). Qed.

(** ** Pending requests *)

Definition is_waiting (h : rheap) (c : loc) : bool :=
  match h !! c with Some r => bool_decide (state r = IPA_RM_REQUEST_IN_PROGRESS) | None => false end.

(** Does the producer [p] wait for [c]: it is counted there and [c] is not granted yet. *)
Definition wait_val (A : account) (h : rheap) (p c : loc) : Z :=
  counted (A p c) * b2z (is_waiting h c).

Definition waiting (A : account) (h : rheap) (p : loc) (pl : ipa_rm_peers_list) : Z :=
  slot_sum (wait_val A h p) (peers pl).

(** An active producer has as many pending requests as consumers it waits for, none when
    it is granted. *)
Definition prod_sync (A : account) (h : rheap) (p : loc) (r : ipa_rm_resource)
    (k : resource_prod) (pl : ipa_rm_peers_list) : Prop :=
  active r = true →
  pending_request k = waiting A h p pl ∧ (state r = IPA_RM_GRANTED → waiting A h p pl = 0).

Definition sync_but (X : loc → Prop) (A : account) (h : rheap) : Prop :=
  ∀ p r k pl, ¬ X p → h !! p = Some r → ext r = Prod k → peers_list r = Some pl →
    prod_sync A h p r k pl.

Lemma wait_val_nonneg A h p c : 0 ≤ wait_val A h p c.
Proof. unfold wait_val. destruct (A p c), (is_waiting h c); cbn; lia. Qed.

Lemma waiting_nonneg A h p pl : 0 ≤ waiting A h p pl.
Proof. apply slot_sum_nonneg, wait_val_nonneg. Qed.

Lemma waiting_ext A A' h h' p pl :
  (∀ i c us, peers pl !! i = Some (mkPeer (Some c) us) → wait_val A h p c = wait_val A' h' p c) →
  waiting A h p pl = waiting A' h' p pl.
Proof. apply slot_sum_ext. Qed.

Lemma waiting_one A A' h h' p pl i c us :
  slots_inj pl → peers pl !! i = Some (mkPeer (Some c) us) →
  (∀ c', c' ≠ c → wait_val A h p c' = wait_val A' h' p c') →
  waiting A' h' p pl = waiting A h p pl - wait_val A h p c + wait_val A' h' p c.
Proof.
  intros Hinj Hi Heq. apply (slot_sum_one (wait_val A h p) (wait_val A' h' p) _ i c us Hi).
  intros j q us' Hne Hj. apply Heq. intros ->. by eapply Hne, Hinj.
Qed.

Lemma is_waiting_insert h c r l :
  is_waiting (<[c := r]> h) l =
    if decide (l = c) then bool_decide (state r = IPA_RM_REQUEST_IN_PROGRESS) else is_waiting h l.
Proof.
  unfold is_waiting. case_decide as Hl; [subst; by rewrite lookup_insert_eq|by rewrite lookup_insert_ne].
Qed.

(** Producers are not consulted by [is_waiting] of consumers. *)
Definition prods_same (p : loc) (h h' : rheap) : Prop :=
  ∀ q r k, q ≠ p → h !! q = Some r → ext r = Prod k → h' !! q = Some r.

Lemma prods_same_refl p h : prods_same p h h.
Proof. by intros q r k. Qed.

Lemma prods_same_trans p h1 h2 h3 : prods_same p h1 h2 → prods_same p h2 h3 → prods_same p h1 h3.
Proof. intros H1 H2 q r k Hq Hr Hk. eapply H2; [done|by eapply H1|done]. Qed.

(** The link between a producer and a consumer, from either side. *)
Definition linked_at (h : rheap) (p c : loc) : Prop :=
  ∃ rp plp rc plc us, h !! p = Some rp ∧ peers_list rp = Some plp ∧
    h !! c = Some rc ∧ peers_list rc = Some plc ∧
    peers plp !! name rc = Some (mkPeer (Some c) us) ∧
    peers plc !! name rp = Some (mkPeer (Some p) us).

Lemma wf_linked_at K h l r pl i q us :
  wf K (statics h) → h !! l = Some r → peers_list r = Some pl →
  peers pl !! i = Some (mkPeer (Some q) us) → linked_at h l q ∧ linked_at h q l.
Proof.
  intros Hwf Hl Hpl Hi. destruct (wf_peer _ _ Hwf l r pl i q us Hl Hpl Hi) as (r' & pl' & Hq & <- & _ & Hpl' & Hback).
  split; [by exists r, pl, r', pl', us|by exists r', pl', r, pl, us].
Qed.

(** An update of a producer is not seen by those who wait for consumers. *)
Lemma waiting_upd_prod K h A p rp kp rp' q rq kq pl :
  wf K (statics h) → h !! p = Some rp → ext rp = Prod kp →
  h !! q = Some rq → ext rq = Prod kq → peers_list rq = Some pl →
  waiting A (<[p := rp']> h) q pl = waiting A h q pl.
Proof.
  intros Hwf Hp Hkp Hq Hkq Hpl. apply waiting_ext. intros i c us Hi. unfold wait_val.
  pose proof (wf_type_of_ext _ _ Hwf q rq Hq) as Htq. rewrite Hkq in Htq.
  destruct (wf_peer_consumer _ _ Hwf q rq pl i c us Hq Htq Hpl Hi) as (rc & kc & Hc & _ & Hkc & _).
  rewrite is_waiting_insert, decide_False; [done|]. intros ->. congruence.
Qed.

Lemma sync_but_upd_prod K h (X : loc → Prop) A p rp kp rp' :
  wf K (statics h) → h !! p = Some rp → ext rp = Prod kp → X p →
  sync_but X A h → sync_but X A (<[p := rp']> h).
Proof.
  intros Hwf Hp Hkp HX Hsync q rq kq plq HXq Hq Hkq Hplq.
  assert (q ≠ p) by (intros ->; tauto). rewrite lookup_insert_ne in Hq by done.
  unfold prod_sync. rewrite (waiting_upd_prod K h A p rp kp rp' q rq kq plq) by done.
  by apply Hsync.
Qed.

Section turns.
Context (K : control) (h : rheap).
Hypothesis Hwf : wf K (statics h).

(** A change of the consumer [c] and of the account of [p] there keeps the other
    producers in step when those counted at [c] see no difference. *)
Lemma sync_change A p c r r' v X :
  h !! c = Some r → (∀ k, ext r ≠ Prod k) → (∀ k, ext r' ≠ Prod k) →
  (∀ q, q ≠ p → linked_at h q c → A q c ≠ None →
     (state r' = IPA_RM_REQUEST_IN_PROGRESS ↔ state r = IPA_RM_REQUEST_IN_PROGRESS)) →
  (X p) → sync_but X A h → sync_but X (acc_set A p c v) (<[c := r']> h).
Proof.
  intros Hc Hk Hk' Hsee HX Hsync q rq kq plq HXq Hq Hkq Hplq Hact.
  assert (q ≠ c) by (intros ->; rewrite lookup_insert_eq in Hq; injection Hq as <-; by eapply Hk').
  assert (q ≠ p) by (intros ->; tauto). rewrite lookup_insert_ne in Hq by done.
  destruct (Hsync q rq kq plq HXq Hq Hkq Hplq Hact) as [Hpend Hgr].
  rewrite (waiting_ext (acc_set A p c v) A (<[c := r']> h) h q plq); [done|].
  intros i c' us Hi. unfold wait_val. rewrite is_waiting_insert, acc_set_ne by by left.
  case_decide as Hcc; [subst c'|done].
  destruct (A q c) as [w|] eqn:HA; [|done]. do 2 f_equal. unfold is_waiting. rewrite Hc.
  apply bool_decide_ext. apply (Hsee q); [done| |by rewrite HA].
  by destruct (wf_linked_at K h q rq plq i c us Hwf Hq Hplq Hi).
Qed.

(** Somebody else is counted at [c]. *)
Lemma other_user A p c r k pl v q i us :
  cons_ok A h → h !! c = Some r → ext r = Cons k → peers_list r = Some pl →
  peers pl !! i = Some (mkPeer (Some p) us) → q ≠ p → linked_at h q c → A q c ≠ None →
  1 + counted (A p c) ≤ usage_count k ∧ ¬ idle r ∧ counted v + 1 ≤ usage_count k - counted (A p c) + counted v.
Proof.
  intros Hok Hc Hk Hpl Hi Hqp (rq & plq & rc & plc & us' & Hq & Hplq & Hc' & Hplc & _ & Hback) HA.
  assert (rc = r) as -> by congruence. assert (plc = pl) as -> by congruence.
  destruct (Hok c r k pl Hc Hk Hpl) as (Hu & _ & Hidle).
  destruct (A q c) as [w|] eqn:HAq; [|done].
  pose proof (users_pos A c pl _ q us' w Hback HAq) as Hpos.
  pose proof (wf_slots_inj K h c r pl Hwf Hc Hpl) as Hinj.
  destruct (users_set A p c None pl i us Hinj Hi) as [Eu _].
  pose proof (users_pos (acc_set A p c None) c pl _ q us' w Hback) as Hpos2.
  rewrite acc_set_ne in Hpos2 by by left. specialize (Hpos2 HAq). cbn in Eu. split_and!; [lia| |lia].
  intros Hr. rewrite (Hidle Hr) in Hpos. lia.
Qed.

Context (E : rm_env).
Hypothesis HE : no_errors E.

(** A successful request adds one user. *)
Lemma request_balanced A p c r k pl i us w res r' k' :
  cons_ok A h → h !! c = Some r → ext r = Cons k → peers_list r = Some pl →
  peers pl !! i = Some (mkPeer (Some p) us) → A p c = None →
  ext r' = Cons k' → peers_list r' = Some pl → request_outcome E w true false r k res r' k' →
  cons_ok (acc_set A p c (Some w)) (<[c := r']> h) ∧
  ((res = 0 ∧ state r' = IPA_RM_GRANTED) ∨
   (res = - EINPROGRESS ∧ state r' = IPA_RM_REQUEST_IN_PROGRESS)) ∧
  (¬ idle r → (state r' = IPA_RM_REQUEST_IN_PROGRESS ↔ state r = IPA_RM_REQUEST_IN_PROGRESS)).
Proof.
  intros Hok Hc Hk Hpl Hi HA Hk' Hpl' [Hguard Hout].
  assert (((res = 0 ∧ state r' = IPA_RM_GRANTED) ∨
           (res = - EINPROGRESS ∧ state r' = IPA_RM_REQUEST_IN_PROGRESS)) ∧
          needed_bw r' = u32 (needed_bw r + w) ∧ usage_count k' = usage_count k + 1) as (Hst & Hbw & Hu).
  { destruct Hout as [(? & ? & ? & ?)|[(? & Hs & ? & ?)|(Herr & _)]].
    - split; [by left|done].
    - split; [|done]. right. destruct Hs as [?|(? & _)]; done.
    - by destruct (no_driver_error E res HE). }
  split; [|split; [exact Hst|]].
  - eapply (cons_ok_change A h p c r k pl r' k' i us); try done.
    + by eapply wf_slots_inj.
    + rewrite HA. cbn. lia.
    + rewrite HA, Hbw. cbn. f_equal. lia.
    + unfold idle. destruct Hst as [[_ ->]|[_ ->]]; intros [[=]|[=]].
  - intros Hbusy. destruct (state r) eqn:Est.
    + by destruct Hbusy; left.
    + by destruct Hguard as [_ ->].
    + by destruct Hguard as [-> _].
    + by destruct Hbusy; right.
Qed.

(** A release removes one. *)
Lemma release_balanced A p c r k pl i us w res r' k' :
  cons_ok A h → h !! c = Some r → ext r = Cons k → peers_list r = Some pl →
  peers pl !! i = Some (mkPeer (Some p) us) → A p c = Some w →
  ext r' = Cons k' → peers_list r' = Some pl → release_outcome E w true r k res r' k' →
  cons_ok (acc_set A p c None) (<[c := r']> h) ∧
  (usage_count k ≠ 1 → state r' = state r).
Proof.
  intros Hok Hc Hk Hpl Hi HA Hk' Hpl' (Hbw & Hu & Hst).
  destruct (Hok c r k pl Hc Hk Hpl) as (Hu0 & _ & Hidle).
  pose proof (users_pos A c pl i p us w Hi HA) as Hpos.
  assert (¬ idle r) as Hbusy by (intros Hr; rewrite (Hidle Hr) in Hpos; lia).
  assert (usage_count k' = usage_count k - 1) as Hu'.
  { cbn [andb] in Hu. destruct (Z.ltb_spec 0 (usage_count k)); [|lia].
    rewrite Hu. destruct (state r) eqn:Est; try done. by destruct Hbusy; left. }
  assert (state r' = state r ∨ usage_count k' = 0) as Hst'.
  { destruct (usage_count k' =? 0) eqn:H0; [right; by apply Z.eqb_eq|left].
    by destruct (state r), Hst. }
  split; [|intros Hne; destruct Hst'; [done|lia]].
  eapply (cons_ok_change A h p c r k pl r' k' i us); try done.
  - by eapply wf_slots_inj.
  - rewrite HA. cbn. lia.
  - rewrite HA, Hbw. cbn. f_equal. lia.
  - intros Hr'. destruct Hst' as [Heq|]; [|done]. destruct Hbusy. unfold idle in *. by rewrite <- Heq.
Qed.

(** The turns of the loops of [RmProducer.v]. [p] is linked to [c]. *)
Lemma linked_slots p c rp kp rc kc :
  h !! p = Some rp → ext rp = Prod kp → h !! c = Some rc → ext rc = Cons kc → linked_at h p c →
  ∃ plp plc us, peers_list rp = Some plp ∧ peers_list rc = Some plc ∧
    peers plp !! name rc = Some (mkPeer (Some c) us) ∧ peers plc !! name rp = Some (mkPeer (Some p) us) ∧
    slots_inj plp ∧ slots_inj plc.
Proof.
  intros Hp Hkp Hc Hkc (rp' & plp & rc' & plc & us & Hp' & Hplp & Hc' & Hplc & H1 & H2).
  assert (rp' = rp) as -> by congruence. assert (rc' = rc) as -> by congruence.
  exists plp, plc, us. split_and!; try done;
    [by apply (wf_slots_inj K h p rp)|by apply (wf_slots_inj K h c rc)].
Qed.

Lemma static_peers r r' : static_of r' = static_of r → peers_list r' = peers_list r.
Proof. by intros [= _ _ _ _ ?]. Qed.

Lemma request_turn_acct A p c res h' rp :
  request_turn E p h c res h' → linked_at h p c → h !! p = Some rp → A p c = None →
  cons_ok A h → cons_ok (acc_set A p c (Some (max_bw rp))) h'.
Proof.
  intros (rp' & kp & rc & kc & rc' & kc' & Hp & Hkp & Hc & Hkc & Hne & Hkc' & Hst & Hout & ->) Hlk Hp' HA Hok.
  assert (rp' = rp) as -> by congruence.
  destruct (linked_slots p c rp kp rc kc) as (plp & plc & us & Hplp & Hplc & H1 & H2 & _ & _); [done..|].
  pose proof (static_peers _ _ Hst) as Hpl'. rewrite Hplc in Hpl'.
  destruct (request_balanced A p c rc kc plc (name rp) us (max_bw rp) res rc' kc') as (Hok' & _); [done..|].
  case_match; [|done]. rewrite insert_insert_ne by done. by eapply cons_ok_prod.
Qed.

Lemma release_turn_acct A p c h' rp :
  release_turn E p h c h' → linked_at h p c → h !! p = Some rp → A p c = Some (max_bw rp) →
  cons_ok A h → cons_ok (acc_set A p c None) h'.
Proof.
  intros (rp' & kp & rc & kc & rc' & kc' & res & Hp & Hkp & Hc & Hkc & Hne & Hkc' & Hst & Hout & ->) Hlk Hp' HA Hok.
  assert (rp' = rp) as -> by congruence.
  destruct (linked_slots p c rp kp rc kc) as (plp & plc & us & Hplp & Hplc & H1 & H2 & _ & _); [done..|].
  pose proof (static_peers _ _ Hst) as Hpl'. rewrite Hplc in Hpl'.
  by destruct (release_balanced A p c rc kc plc (name rp) us (max_bw rp) res rc' kc') as (Hok' & _).
Qed.

Lemma request_turn_same p c res h' : request_turn E p h c res h' → prods_same p h h'.
Proof.
  intros (rp & kp & rc & kc & rc' & kc' & Hp & Hkp & Hc & Hkc & Hne & Hkc' & Hst & Hout & ->).
  intros q r k Hq Hr Hk. rewrite lookup_insert_ne by congruence.
  case_match; [by rewrite lookup_insert_ne|done].
Qed.

Lemma release_turn_same p c h' : release_turn E p h c h' → prods_same p h h'.
Proof.
  intros (rp & kp & rc & kc & rc' & kc' & res & Hp & Hkp & Hc & Hkc & Hne & Hkc' & Hst & Hout & ->).
  intros q r k Hq Hr Hk. by rewrite lookup_insert_ne by congruence.
Qed.

(** What the other producers wait for, and what [p] itself does. *)
Lemma request_turn_sync X A p c res h' rp kp pl :
  request_turn E p h c res h' → linked_at h p c → h !! p = Some rp → ext rp = Prod kp →
  peers_list rp = Some pl → A p c = None → cons_ok A h → X p → sync_but X A h →
  sync_but X (acc_set A p c (Some (max_bw rp))) h' ∧
  ∃ kp', h' !! p = Some (with_ext (Prod kp') rp) ∧
    pending_request kp' - waiting (acc_set A p c (Some (max_bw rp))) h' p pl =
    pending_request kp - waiting A h p pl ∧
    (res = 0 ∨ res = - EINPROGRESS) ∧
    (res = 0 → pending_request kp' = pending_request kp).
Proof.
  intros (rp' & kp1 & rc & kc & rc' & kc' & Hp & Hkp1 & Hc & Hkc & Hne & Hkc' & Hst & Hout & ->)
    Hlk Hp' Hkp Hpl HA Hok HX Hsync.
  assert (rp' = rp) as -> by congruence. assert (kp1 = kp) as -> by congruence.
  destruct (linked_slots p c rp kp rc kc) as (plp & plc & us & Hplp & Hplc & H1 & H2 & Hinjp & _); [done..|].
  assert (plp = pl) as -> by congruence.
  pose proof (static_peers _ _ Hst) as Hpl'. rewrite Hplc in Hpl'.
  destruct (request_balanced A p c rc kc plc (name rp) us (max_bw rp) res rc' kc') as (_ & Hres & Hsee); [done..|].
  set (A' := acc_set A p c (Some (max_bw rp))) in *.
  assert (sync_but X A' (<[c := rc']> h)) as Hsync'.
  { eapply sync_change; try done; [congruence..|]. intros q Hq Hlkq HAq. apply Hsee.
    by destruct (other_user A p c rc kc plc None q (name rp) us) as (_ & ? & _). }
  assert (waiting A' (<[c := rc']> h) p pl =
          waiting A h p pl + b2z (bool_decide (state rc' = IPA_RM_REQUEST_IN_PROGRESS))) as Hw.
  { rewrite (waiting_one A A' h _ p pl (name rc) c us Hinjp H1).
    - unfold wait_val. rewrite HA. subst A'. rewrite acc_set_eq, is_waiting_insert, decide_True by done. cbn. lia.
    - intros c' Hc'. unfold wait_val. subst A'. rewrite acc_set_ne, is_waiting_insert, decide_False by auto. done. }
  assert (statics (<[c := rc']> h) = statics h) as HS by by eapply statics_insert_same.
  assert (<[c := rc']> h !! p = Some rp) as Hp2 by by rewrite lookup_insert_ne.
  destruct Hres as [[-> Hg]|[-> Hg]]; ztests.
  - split; [done|]. exists kp. rewrite Hp2, with_ext_id by done. split; [done|].
    rewrite Hw, Hg, bool_decide_eq_false_2 by done. cbn. split; [lia|auto].
  - rewrite insert_insert_ne by done. split.
    + eapply sync_but_upd_prod; [by rewrite HS|exact Hp2|done..].
    + eexists. rewrite lookup_insert_eq. split; [done|].
      rewrite (waiting_upd_prod K (<[c := rc']> h) A' p rp kp _ p rp kp pl) by (rewrite ?HS; done).
      rewrite Hw, Hg, bool_decide_eq_true_2 by done. cbn. split; [lia|]. split; [by right|]. intros [=].
Qed.

Lemma release_turn_sync (X : loc → Prop) A p c h' rp kp :
  release_turn E p h c h' → linked_at h p c → h !! p = Some rp → ext rp = Prod kp →
  A p c = Some (max_bw rp) → cons_ok A h → X p → sync_but X A h →
  sync_but X (acc_set A p c None) h'.
Proof.
  intros (rp' & kp1 & rc & kc & rc' & kc' & res & Hp & Hkp1 & Hc & Hkc & Hne & Hkc' & Hst & Hout & ->)
    Hlk Hp' Hkp HA Hok HX Hsync.
  assert (rp' = rp) as -> by congruence. assert (kp1 = kp) as -> by congruence.
  destruct (linked_slots p c rp kp rc kc) as (plp & plc & us & Hplp & Hplc & H1 & H2 & _ & _); [done..|].
  pose proof (static_peers _ _ Hst) as Hpl'. rewrite Hplc in Hpl'.
  destruct (release_balanced A p c rc kc plc (name rp) us (max_bw rp) res rc' kc') as (_ & Hsee); [done..|].
  eapply sync_change; try done; [congruence..|]. intros q Hq Hlkq HAq. rewrite Hsee; [done|].
  destruct (other_user A p c rc kc plc None q (name rp) us) as (Hu & _ & _); [done..|].
  rewrite HA in Hu. cbn in Hu. lia.
Qed.
End turns.
