(* ===== verification/RmRequest.v ===== *)
(** * IPA resource manager: the accounts between operations

    Between two operations every active producer is counted, with its bandwidth, by each
    of its consumers, and no other is. The proofs that the requests and releases of a
    producer keep these accounts: the ghost account of a loop counts the producer at the
    consumers already visited.

    [ipa_rm_resource_producer_request] and [ipa_rm_resource_producer_release], from a
    balanced memory, in an environment without driver errors. *)

From S2P Require Import Prelude.
From S2P Require Import RmTypes.
From S2P Require Import RmPeers.
From S2P Require Import RmCore.
From S2P Require Import RmResource.
From S2P Require Import RmConsumer.
From S2P Require Import RmWf.
From S2P Require Import RmProducer.
From S2P Require Import RmOps.
From S2P Require Import RmAcct.

(** The account of a memory at rest. *)
Definition Acc (h : rheap) : account := λ p _,
  match h !! p with
  | Some r => if active r then Some (max_bw r) else None
  | None => None
  end.

(** No producer stays in the middle of a release. *)
Definition prods_settled (h : rheap) : Prop :=
  ∀ p r k, h !! p = Some r → ext r = Prod k → state r ≠ IPA_RM_RELEASE_IN_PROGRESS.

(** The bandwidth of a producer is the sum of its consumers'. *)
Definition cons_bw (h : rheap) (c : loc) : Z :=
  match h !! c with Some r => max_bw r | None => 0 end.
Definition prod_bw (h : rheap) : Prop :=
  ∀ p r k pl, h !! p = Some r → ext r = Prod k → peers_list r = Some pl →
    needed_bw r = u32 (slot_sum (cons_bw h) (peers pl)).

Definition balanced (h : rheap) : Prop :=
  cons_ok (Acc h) h ∧ prods_settled h ∧ prod_bw h.

Definition nobody : loc → Prop := λ _, False.

(** Producers know how many consumers they wait for, and wait only while there are. *)
Definition in_step (h : rheap) : Prop :=
  sync_but nobody (Acc h) h ∧
  ∀ p r k, h !! p = Some r → ext r = Prod k → state r = IPA_RM_REQUEST_IN_PROGRESS →
    0 < pending_request k.

(** ** Basic facts *)

Lemma static_ext_prod r r' k :
  static_of r' = static_of r → ext r = Prod k → ∃ k', ext r' = Prod k'.
Proof.
  intros [= _ _ _ _ _ He] Hk. rewrite Hk in He. destruct (ext r') as [k'|k']; [done|eauto].
Qed.
Lemma static_ext_cons r r' k :
  static_of r' = static_of r → ext r = Cons k → ∃ k', ext r' = Cons k'.
Proof.
  intros [= _ _ _ _ _ He] Hk. rewrite Hk in He. destruct (ext r') as [k'|k']; [eauto|done].
Qed.

Lemma statics_eq_lookup h h' l r' :
  statics h' = statics h → h' !! l = Some r' → ∃ r, h !! l = Some r ∧ static_of r = static_of r'.
Proof.
  intros HS Hl%lookup_statics. rewrite HS in Hl. by apply statics_lookup in Hl.
Qed.

Lemma prods_same_back p h h' q r' k' :
  prods_same p h h' → statics h' = statics h → q ≠ p → h' !! q = Some r' → ext r' = Prod k' →
  h !! q = Some r'.
Proof.
  intros Hsame HS Hq Hr Hk. destruct (statics_eq_lookup h h' q r' HS Hr) as (r & Hr0 & Hst).
  destruct (static_ext_prod r' r k' Hst Hk) as [k Hk0].
  pose proof (Hsame q r k Hq Hr0 Hk0). congruence.
Qed.

Lemma cons_bw_statics h h' c : statics h' = statics h → cons_bw h' c = cons_bw h c.
Proof.
  intros HS. assert (statics h' !! c = statics h !! c) as H by by rewrite HS.
  unfold statics in H. rewrite !lookup_fmap in H. unfold cons_bw.
  destruct (h' !! c), (h !! c); try done. cbn in H. by injection H.
Qed.

(** The producers' bandwidths depend on the static parts and on the producers only. *)
Lemma prod_bw_same p h h' r r' k' :
  prods_same p h h' → statics h' = statics h → h !! p = Some r → h' !! p = Some r' → ext r' = Prod k' →
  needed_bw r' = needed_bw r → prod_bw h → prod_bw h'.
Proof.
  intros Hsame HS Hp Hp' Hk' Hbw Hok q rq kq pl Hq Hkq Hpl.
  rewrite (slot_sum_ext (cons_bw h') (cons_bw h)) by (intros; by apply cons_bw_statics).
  destruct (decide (q = p)) as [->|Hne].
  - assert (rq = r') as -> by congruence. rewrite Hbw.
    destruct (statics_eq_lookup h h' p r' HS Hp') as (r0 & Hr0 & Hst).
    assert (r0 = r) as -> by congruence. destruct (static_ext_prod r' r k' Hst Hk') as [k Hk].
    apply (Hok p r k pl Hp Hk). by rewrite (static_peers _ _ Hst).
  - apply (Hok q rq kq pl); try done. by eapply prods_same_back.
Qed.

(** One producer of a consumer, found in the consumer's list. *)
Lemma wf_slot_producer K h c rc kc plc i p us :
  wf K (statics h) → h !! c = Some rc → ext rc = Cons kc → peers_list rc = Some plc →
  peers plc !! i = Some (mkPeer (Some p) us) →
  ∃ rp kp plp, h !! p = Some rp ∧ ext rp = Prod kp ∧ peers_list rp = Some plp ∧ name rp = i ∧
    peers plp !! name rc = Some (mkPeer (Some c) us).
Proof.
  intros Hwf Hc Hkc Hplc Hi. pose proof (wf_type_of_ext _ _ Hwf c rc Hc) as Ht. rewrite Hkc in Ht.
  destruct (wf_peer_producer _ _ Hwf c rc plc i p us Hc Ht Hplc Hi) as (rp & kp & Hp & _ & Hkp & _ & Hn & _).
  destruct (wf_peer _ _ Hwf c rc plc i p us Hc Hplc Hi) as (rp' & plp & Hp' & _ & _ & Hplp & Hback).
  assert (rp' = rp) as -> by congruence. by exists rp, kp, plp.
Qed.

Lemma wf_slot_consumer K h p rp kp plp i c us :
  wf K (statics h) → h !! p = Some rp → ext rp = Prod kp → peers_list rp = Some plp →
  peers plp !! i = Some (mkPeer (Some c) us) →
  ∃ rc kc plc, h !! c = Some rc ∧ ext rc = Cons kc ∧ peers_list rc = Some plc ∧ name rc = i ∧
    peers plc !! name rp = Some (mkPeer (Some p) us).
Proof.
  intros Hwf Hp Hkp Hplp Hi. pose proof (wf_type_of_ext _ _ Hwf p rp Hp) as Ht. rewrite Hkp in Ht.
  destruct (wf_peer_consumer _ _ Hwf p rp plp i c us Hp Ht Hplp Hi) as (rc & kc & Hc & _ & Hkc & _ & Hn & _).
  destruct (wf_peer _ _ Hwf p rp plp i c us Hp Hplp Hi) as (rc' & plc & Hc' & _ & _ & Hplc & Hback).
  assert (rc' = rc) as -> by congruence. by exists rc, kc, plc.
Qed.

(** ** The account in the middle of a loop

    [on n]: the producer [p0] is counted, with [w], at its consumer named [n]. *)

Definition acc_loop (Sm : smap) (p0 : loc) (w : Z) (A0 : account) (on : nat → bool) : account :=
  λ p c, if decide (p = p0) then
           match Sm !! c with
           | Some st => if on (st_name st) then Some w else None
           | None => None
           end
         else A0 p c.

Lemma acc_loop_ne Sm p0 w A0 on p c : p ≠ p0 → acc_loop Sm p0 w A0 on p c = A0 p c.
Proof. intros. unfold acc_loop. by rewrite decide_False. Qed.

Lemma acc_loop_eq h p0 w A0 on c rc :
  h !! c = Some rc → acc_loop (statics h) p0 w A0 on p0 c = if on (name rc) then Some w else None.
Proof. intros Hc%lookup_statics. unfold acc_loop. by rewrite decide_True, Hc by done. Qed.

Section loop.
Context (K : control) (Sm : smap) (p0 : loc) (w : Z) (A0 : account).
Hypothesis Hwf : wf K Sm.

(** Moving from one [on] to the next by setting the account of the consumer named [i]. *)
Lemma acc_loop_step (h : rheap) (on on' : nat → bool) i c rc v :
  statics h = Sm → h !! c = Some rc → name rc = i →
  (∀ n, n ≠ i → on' n = on n) → v = (if on' i then Some w else None) →
  ∀ p' c', (∃ rc', h !! c' = Some rc') →
    acc_set (acc_loop Sm p0 w A0 on) p0 c v p' c' = acc_loop Sm p0 w A0 on' p' c'.
Proof.
  intros HS Hc Hn Hon Hv p' c' [rc' Hc']. rewrite <- HS in *.
  destruct (decide (p' = p0)) as [->|Hp].
  - rewrite (acc_loop_eq h p0 w A0 on' c' rc') by done.
    destruct (decide (c' = c)) as [->|Hne].
    + assert (rc' = rc) as -> by congruence. by rewrite acc_set_eq, Hn.
    + rewrite acc_set_ne by by right. rewrite (acc_loop_eq h p0 w A0 on c' rc') by done.
      rewrite Hon; [done|]. intros Heq. apply Hne. eapply (wf_name_inj K h Hwf); [done..|congruence].
  - rewrite acc_set_ne by by left. by rewrite !acc_loop_ne.
Qed.

(** Or without a consumer of that name. *)
Lemma cons_ok_skip (h : rheap) rp kp pl (on on' : nat → bool) i :
  statics h = Sm → h !! p0 = Some rp → ext rp = Prod kp → peers_list rp = Some pl →
  peer_at pl i = None → (∀ n, n ≠ i → on' n = on n) →
  cons_ok (acc_loop Sm p0 w A0 on) h → cons_ok (acc_loop Sm p0 w A0 on') h.
Proof.
  intros HS Hp Hkp Hpl Hnone Hon. apply cons_ok_ext. intros c rc kc plc j q us Hc Hkc Hplc Hj.
  destruct (decide (q = p0)) as [->|Hq]; [|by rewrite !acc_loop_ne].
  rewrite <- HS in *. rewrite !(acc_loop_eq h p0 w A0 _ c rc) by done.
  rewrite Hon; [done|]. intros Hn.
  destruct (wf_slot_producer K h c rc kc plc j p0 us Hwf Hc Hkc Hplc Hj) as (rp' & kp' & plp & Hp' & _ & Hplp & _ & Hback).
  assert (rp' = rp) as -> by congruence. assert (plp = pl) as -> by congruence.
  assert (peer_at pl (name rc) = Some c) by (apply peer_at_Some; eauto). congruence.
Qed.

Lemma waiting_skip (h : rheap) rp kp pl (on on' : nat → bool) i :
  statics h = Sm → h !! p0 = Some rp → ext rp = Prod kp → peers_list rp = Some pl →
  peer_at pl i = None → (∀ n, n ≠ i → on' n = on n) →
  waiting (acc_loop Sm p0 w A0 on') h p0 pl = waiting (acc_loop Sm p0 w A0 on) h p0 pl.
Proof.
  intros HS Hp Hkp Hpl Hnone Hon. apply waiting_ext. intros j c us Hj.
  rewrite <- HS in *.
  destruct (wf_slot_consumer K h p0 rp kp pl j c us Hwf Hp Hkp Hpl Hj) as (rc & kc & plc & Hc & _ & _ & Hn & _).
  unfold wait_val. rewrite !(acc_loop_eq h p0 w A0 _ c rc) by done.
  rewrite Hon; [done|]. intros Hni.
  assert (peer_at pl j = Some c) by (apply peer_at_Some; eauto). congruence.
Qed.
End loop.

(** ** Accounts that agree on the links *)

Definition agree (h : rheap) (A A' : account) : Prop :=
  ∀ c rc kc plc i q us, h !! c = Some rc → ext rc = Cons kc → peers_list rc = Some plc →
    peers plc !! i = Some (mkPeer (Some q) us) → A q c = A' q c.

Section agree.
Context (K : control) (h : rheap).
Hypothesis Hwf : wf K (statics h).

Lemma cons_ok_agree A A' : agree h A A' → cons_ok A h → cons_ok A' h.
Proof. intros HA. apply cons_ok_ext. intros c r k pl i p us. apply HA. Qed.

Lemma waiting_agree A A' q rq kq pl :
  agree h A A' → h !! q = Some rq → ext rq = Prod kq → peers_list rq = Some pl →
  waiting A h q pl = waiting A' h q pl.
Proof.
  intros HA Hq Hkq Hpl. apply waiting_ext. intros i c us Hi.
  destruct (wf_slot_consumer K h q rq kq pl i c us Hwf Hq Hkq Hpl Hi) as (rc & kc & plc & Hc & Hkc & Hplc & _ & Hback).
  unfold wait_val. by rewrite (HA c rc kc plc (name rq) q us).
Qed.

Lemma sync_but_agree X A A' : agree h A A' → sync_but X A h → sync_but X A' h.
Proof.
  intros HA Hsync q rq kq pl HX Hq Hkq Hpl. unfold prod_sync.
  rewrite <- (waiting_agree A A' q rq kq pl) by done. by apply Hsync.
Qed.

(** The memory at rest after an update of the producer [p]. *)
Lemma settle_cons_ok A p rp kp r' k' (h' := <[p := r']> h) :
  h !! p = Some rp → ext rp = Prod kp → ext r' = Prod k' →
  agree h A (Acc h') → cons_ok A h → cons_ok (Acc h') h'.
Proof.
  intros Hp Hkp Hk' HA Hok. eapply cons_ok_prod; [done|]. by eapply cons_ok_agree.
Qed.

Lemma settle_sync A p rp kp r' k' pl (h' := <[p := r']> h) :
  h !! p = Some rp → ext rp = Prod kp → ext r' = Prod k' → peers_list rp = Some pl →
  peers_list r' = Some pl → agree h A (Acc h') → sync_but (eq p) A h →
  (active r' = true → pending_request k' = waiting A h p pl ∧ (state r' = IPA_RM_GRANTED → waiting A h p pl = 0)) →
  sync_but nobody (Acc h') h'.
Proof.
  intros Hp Hkp Hk' Hpl Hpl' HA Hsync Hpend q rq kq plq _ Hq Hkq Hplq.
  destruct (decide (q = p)) as [->|Hne].
  - assert (rq = r') as -> by (subst h'; rewrite lookup_insert_eq in Hq; congruence).
    assert (kq = k') as -> by congruence. assert (plq = pl) as -> by congruence.
    unfold prod_sync. subst h'. rewrite (waiting_upd_prod K h _ p rp kp r' p rp kp pl) by done.
    by rewrite <- (waiting_agree A _ p rp kp pl) by done.
  - assert (h !! q = Some rq) as Hq0 by (subst h'; by rewrite lookup_insert_ne in Hq).
    unfold prod_sync. subst h'. rewrite (waiting_upd_prod K h _ p rp kp r' q rq kq plq) by done.
    rewrite <- (waiting_agree A _ q rq kq plq) by done.
    apply (Hsync q rq kq plq); done.
Qed.
End agree.

(** The account of a loop that has counted the producer everywhere, or nowhere. *)
Lemma acc_loop_agree K h0 h p w on r' :
  wf K (statics h) → statics h = statics h0 → prods_same p h0 h →
  (∀ n, (n < IPA_RM_RESOURCE_MAX)%nat → (if on n : bool then Some w else None) = (if active r' then Some (max_bw r') else None)) →
  agree h (acc_loop (statics h) p w (Acc h0) on) (Acc (<[p := r']> h)).
Proof.
  intros Hwf HS Hsame Hon c rc kc plc i q us Hc Hkc Hplc Hi.
  destruct (wf_slot_producer K h c rc kc plc i q us Hwf Hc Hkc Hplc Hi) as (rq & kq & plq & Hq & Hkq & _).
  destruct (decide (q = p)) as [->|Hne].
  - rewrite (acc_loop_eq h p w _ on c rc Hc). unfold Acc. rewrite lookup_insert_eq. apply Hon.
    destruct (wf_res_ok _ _ Hwf c rc Hc) as [Hv _]. by apply valid_name_index in Hv as [_ ?].
  - rewrite acc_loop_ne by done. unfold Acc. rewrite lookup_insert_ne, Hq by done.
    by rewrite (prods_same_back p h0 h q rq kq Hsame HS Hne Hq Hkq).
Qed.

(** And at its start. *)
Lemma acc_start_agree K h p w on r rp k :
  wf K (statics h) → h !! p = Some r → ext r = Prod k →
  (∀ n, (n < IPA_RM_RESOURCE_MAX)%nat → (if active r then Some (max_bw r) else None) = (if on n : bool then Some w else None)) →
  agree (<[p := rp]> h) (Acc h) (acc_loop (statics h) p w (Acc h) on).
Proof.
  intros Hwf Hp Hk Hon c rc kc plc i q us Hc Hkc Hplc Hi.
  destruct (decide (q = p)) as [->|Hne]; [|by rewrite acc_loop_ne].
  unfold acc_loop, Acc at 1. rewrite decide_True, Hp by done.
  destruct (decide (c = p)) as [->|Hcp].
  - rewrite lookup_statics with (r := r) by done. apply Hon.
    destruct (wf_res_ok _ _ Hwf p r Hp) as [Hv _]. by apply valid_name_index in Hv as [_ ?].
  - rewrite lookup_insert_ne in Hc by done. rewrite (lookup_statics _ _ _ Hc). apply Hon.
    destruct (wf_res_ok _ _ Hwf c rc Hc) as [Hv _]. by apply valid_name_index in Hv as [_ ?].
Qed.

(** * IPA resource manager: requests and releases keep the accounts *)

(** What an operation on the producer [p] is proved to do. *)
Definition kept (K : control) (h : rheap) (s' : rm_state) (φ : rheap → Prop) : Prop :=
  ∃ h', mem K h' s' ∧ statics h' = statics h ∧ balanced h' ∧ (in_step h → in_step h') ∧ φ h'.

Lemma request_turn_prod E p h c res h' rp kp :
  request_turn E p h c res h' → h !! p = Some rp → ext rp = Prod kp →
  ∃ kp', h' !! p = Some (with_ext (Prod kp') rp).
Proof.
  intros (rp' & kp1 & rc & kc & rc' & kc' & Hp & Hkp1 & Hc & Hkc & Hne & Hkc' & Hst & Hout & ->) Hp' Hkp.
  assert (rp' = rp) as -> by congruence. rewrite lookup_insert_ne by done.
  case_match; [rewrite lookup_insert_eq; eauto|].
  exists kp. rewrite Hp'. f_equal. symmetry. by apply with_ext_id.
Qed.

Lemma request_turn_result E p h c res h' :
  no_errors E → request_turn E p h c res h' → res = 0 ∨ res = - EINPROGRESS.
Proof.
  intros HE (rp' & kp1 & rc & kc & rc' & kc' & Hp & Hkp1 & Hc & Hkc & Hne & Hkc' & Hst & [_ Hout] & ->).
  destruct Hout as [[? _]|[[? _]|[Herr _]]]; auto. by destruct (no_driver_error E res HE).
Qed.

Section Request.
Context (E : rm_env) (K : control) (HE : no_errors E).
Context (h : rheap) (p : loc) (r : ipa_rm_resource) (k : resource_prod) (pl : ipa_rm_peers_list).
Hypotheses (Hwf : wf K (statics h)) (Hp : h !! p = Some r) (Hk : ext r = Prod k).
Hypothesis Hpl : peers_list r = Some pl.
Hypothesis Hbal : balanced h.

(** The account at turn [i] of the request loop, and of the release loop. *)
Definition below (i n : nat) : bool := (n <? i)%nat.
Definition from (i n : nat) : bool := (i <=? n)%nat.
Definition loop_acc (on : nat → bool) : account := acc_loop (statics h) p (max_bw r) (Acc h) on.

Lemma below_step i n : n ≠ i → below (S i) n = below i n.
Proof. intros. unfold below. destruct (Nat.ltb_spec n (S i)), (Nat.ltb_spec n i); lia || done. Qed.
Lemma from_step i n : n ≠ i → from (S i) n = from i n.
Proof. intros. unfold from. destruct (Nat.leb_spec (S i) n), (Nat.leb_spec i n); lia || done. Qed.

(** A consumer at slot [i] of the producer, in a memory with the same static parts. *)
Lemma loop_slot h1 rp i c :
  statics h1 = statics h → h1 !! p = Some rp → static_of rp = static_of r → peer_at pl i = Some c →
  linked_at h1 p c ∧ ∃ rc, h1 !! c = Some rc ∧ name rc = i.
Proof.
  intros HS Hrp Hst [us Hi]%peer_at_Some.
  assert (wf K (statics h1)) as Hwf1 by by rewrite HS.
  assert (peers_list rp = Some pl) as Hplp by by rewrite (static_peers _ _ Hst).
  destruct (wf_peer _ _ Hwf1 p rp pl i c us Hrp Hplp Hi) as (rc & _ & Hc & Hn & _).
  split; [|eauto]. by destruct (wf_linked_at K h1 p rp pl i c us Hwf1 Hrp Hplp Hi).
Qed.

Definition in_request (k1 : resource_prod) : ipa_rm_resource :=
  with_ext (Prod k1) (with_state IPA_RM_REQUEST_IN_PROGRESS r).

Lemma in_request_static k1 : event_listeners k1 = event_listeners k → static_of (in_request k1) = static_of r.
Proof. intros. by apply (static_same_prod (with_state _ r) k). Qed.

(** The invariant of the request loop. *)
Definition request_inv (i : nat) (res : Z) (h1 : rheap) : Prop :=
  prods_same p h h1 ∧ cons_ok (loop_acc (below i)) h1 ∧ (res = 0 ∨ res = - EINPROGRESS) ∧
  ∃ k1, h1 !! p = Some (in_request k1) ∧
    (in_step h → sync_but (eq p) (loop_acc (below i)) h1 ∧
       pending_request k1 = waiting (loop_acc (below i)) h1 p pl ∧
       (res = 0 → pending_request k1 = 0)).

Lemma request_inv_turn i res0 h1 c res h' :
  statics h1 = statics h → request_inv i res0 h1 → peer_at pl i = Some c →
  request_turn E p h1 c res h' →
  if res =? - EINPROGRESS then request_inv (S i) (- EINPROGRESS) h'
  else if res =? 0 then request_inv (S i) res0 h' else False.
Proof.
  intros HS (Hsame & Hok & Hres0 & k1 & Hp1 & Hsync) Hc Ht.
  assert (wf K (statics h1)) as Hwf1 by by rewrite HS.
  assert (ext (in_request k1) = Prod k1) as Hk1 by done.
  destruct (statics_eq_lookup h h1 p _ HS Hp1) as (r0 & Hr0 & Hst0). assert (r0 = r) as -> by congruence.
  destruct (loop_slot h1 _ i c HS Hp1 (eq_sym Hst0) Hc) as [Hlk (rc & Hc1 & Hn)].
  assert (peers_list (in_request k1) = Some pl) as Hpl1 by done.
  set (A := loop_acc (below i)) in *.
  assert (A p c = None) as HA.
  { subst A. unfold loop_acc. rewrite <- HS, (acc_loop_eq h1 p _ _ _ c rc Hc1), Hn. unfold below.
    by rewrite Nat.ltb_irrefl. }
  pose proof (request_turn_statics _ _ _ _ _ _ Ht) as HS'. rewrite HS in HS'.
  assert (agree h' (acc_set A p c (Some (max_bw r))) (loop_acc (below (S i)))) as Hagree.
  { intros c' rc' kc' plc' j q us Hc' _ _ _.
    destruct (statics_eq_lookup h1 h' c' rc' ltac:(congruence) Hc') as (rc0 & Hc0 & _).
    apply (acc_loop_step K (statics h) p (max_bw r) (Acc h) Hwf h1 (below i) (below (S i)) i c rc);
      [exact HS|exact Hc1|exact Hn|apply below_step| |by exists rc0].
    unfold below. by rewrite (proj2 (Nat.ltb_lt i (S i))) by lia. }
  pose proof (request_turn_acct K h1 Hwf1 E HE A p c res h' _ Ht Hlk Hp1 HA Hok) as Hok'.
  change (max_bw (in_request k1)) with (max_bw r) in Hok'.
  apply (cons_ok_agree h' _ _ Hagree) in Hok'.
  pose proof (prods_same_trans _ _ _ _ Hsame (request_turn_same h1 E p c res h' Ht)) as Hsame'.
  destruct (request_turn_prod E p h1 c res h' _ k1 Ht Hp1 Hk1) as [k2 Hp2].
  assert (wf K (statics h')) as Hwf' by by rewrite HS'.
  change (with_ext (Prod k2) (in_request k1)) with (in_request k2) in Hp2.
  assert (in_step h → sync_but (eq p) (loop_acc (below (S i))) h' ∧
    pending_request k2 = waiting (loop_acc (below (S i))) h' p pl ∧
    (res = 0 → pending_request k2 = pending_request k1)) as Hsync'.
  { intros Hstep. destruct (Hsync Hstep) as (Hs1 & Hpend & _).
    destruct (request_turn_sync K h1 Hwf1 E HE (eq p) A p c res h' _ k1 pl Ht Hlk Hp1 Hk1 Hpl1 HA Hok eq_refl Hs1)
      as (Hs2 & k2' & Hp2' & Heq & _ & Hz).
    change (with_ext (Prod k2') (in_request k1)) with (in_request k2') in Hp2'.
    assert (k2' = k2) as -> by (rewrite Hp2 in Hp2'; by injection Hp2').
    change (max_bw (in_request k1)) with (max_bw r) in *.
    split; [by eapply sync_but_agree|]. split; [|done].
    rewrite <- (waiting_agree K h' Hwf' _ _ p (in_request k2) k2 pl Hagree) by done. lia. }
  assert (∀ res1, (res1 = 0 ∨ res1 = - EINPROGRESS) → (res1 = 0 → res = 0 ∧ res0 = 0) → request_inv (S i) res1 h') as Hnext.
  { intros res1 Hres1 Hz. split_and!; try done. exists k2. split; [done|]. intros Hstep.
    destruct (Hsync' Hstep) as (? & ? & Hz'), (Hsync Hstep) as (_ & _ & Hz0). split_and!; try done.
    intros [Hr1 Hr2]%Hz. rewrite Hz' by done. auto. }
  destruct (request_turn_result E p h1 c res h' HE Ht) as [-> | ->]; ztests; apply Hnext; auto. by intros [=].
Qed.

Lemma request_inv_skip i res0 h1 :
  statics h1 = statics h → request_inv i res0 h1 → peer_at pl i = None → request_inv (S i) res0 h1.
Proof.
  intros HS (Hsame & Hok & Hres0 & k1 & Hp1 & Hsync) Hnone.
  assert (wf K (statics h1)) as Hwf1 by by rewrite HS.
  split_and!; try done.
  - exact (cons_ok_skip K (statics h) p (max_bw r) (Acc h) Hwf h1 (in_request k1) k1 pl (below i)
      (below (S i)) i HS Hp1 eq_refl Hpl Hnone (below_step i) Hok).
  - exists k1. split; [done|]. intros Hstep. destruct (Hsync Hstep) as (Hs1 & Hpend & Hz). split_and!; try done.
    + intros q rq kq plq Hne Hq Hkq Hplq. unfold prod_sync.
      rewrite (waiting_ext _ (loop_acc (below i)) h1 h1 q plq); [by apply (Hs1 q rq kq plq)|].
      intros j c us _. unfold wait_val, loop_acc. by rewrite !acc_loop_ne by congruence.
    + rewrite Hpend.
      exact (eq_sym (waiting_skip K (statics h) p (max_bw r) (Acc h) Hwf h1 (in_request k1) k1 pl
        (below i) (below (S i)) i HS Hp1 eq_refl Hpl Hnone (below_step i))).
Qed.

Lemma request_inv_start :
  active r = false → request_inv 0 0 (<[p := requesting r k]> h).
Proof.
  intros Hidle. destruct Hbal as (Hok & _ & _).
  assert (agree (<[p := requesting r k]> h) (Acc h) (loop_acc (below 0))) as Hagree.
  { eapply acc_start_agree; [done..|]. by rewrite Hidle. }
  assert (wf K (statics (<[p := requesting r k]> h))) as Hwf1.
  { rewrite (statics_insert_same h p r); [done..|]. by apply (static_same_prod (with_state _ r) k). }
  split_and!; [|eapply cons_ok_agree; [done|]; by eapply cons_ok_prod|by left|].
  - intros q rq kq Hne Hq _. by rewrite lookup_insert_ne.
  - exists (with_pending_request 0 k). rewrite lookup_insert_eq. split; [done|]. intros [Hsync _].
    split_and!; [| |done].
    + eapply sync_but_agree; [done..|]. eapply sync_but_upd_prod; [done..|].
      intros q rq kq plq Hne Hq Hkq Hplq. apply (Hsync q rq kq plq); [by intros []|done..].
    + cbn. symmetry. apply slot_sum_zero. intros i c us _.
      unfold wait_val, loop_acc, acc_loop. rewrite decide_True by done. by destruct (statics h !! c).
Qed.

(** The producers other than [p] are as they were. *)
Lemma settled_but h1 r'' :
  prods_same p h h1 → statics h1 = statics h → state r'' ≠ IPA_RM_RELEASE_IN_PROGRESS →
  prods_settled (<[p := r'']> h1).
Proof.
  intros Hsame HS Hr'' q rq kq Hq Hkq. destruct Hbal as (_ & Hset & _).
  destruct (decide (q = p)) as [->|Hne]; [rewrite lookup_insert_eq in Hq; congruence|].
  rewrite lookup_insert_ne in Hq by done. eapply Hset; [by eapply prods_same_back|done].
Qed.

Lemma prod_bw_but h1 r1 r'' k'' :
  prods_same p h h1 → statics h1 = statics h → h1 !! p = Some r1 → ext r'' = Prod k'' →
  static_of r'' = static_of r1 → needed_bw r'' = needed_bw r → prod_bw (<[p := r'']> h1).
Proof.
  intros Hsame HS Hp1 Hk'' Hst Hbw. destruct Hbal as (_ & _ & Hb).
  eapply (prod_bw_same p h _ r r'' k''); try done; [..|by rewrite lookup_insert_eq].
  - intros q rq kq Hne Hq Hkq. rewrite lookup_insert_ne by done. by eapply Hsame.
  - rewrite <- HS. by eapply statics_insert_same.
Qed.

(** The memory once [p] has left the loop: it is counted everywhere. *)
Lemma request_finish res h1 k1 r'' :
  statics h1 = statics h → request_inv IPA_RM_RESOURCE_MAX res h1 → h1 !! p = Some (in_request k1) →
  static_of r'' = static_of r → ext r'' = Prod k1 → active r'' = true → needed_bw r'' = needed_bw r →
  balanced (<[p := r'']> h1) ∧
  (in_step h → (state r'' = IPA_RM_GRANTED → pending_request k1 = 0) →
   (state r'' = IPA_RM_REQUEST_IN_PROGRESS → pending_request k1 ≠ 0) → in_step (<[p := r'']> h1)).
Proof.
  intros HS (Hsame & Hok & _ & k1' & Hp1' & Hsync) Hp1 Hst Hk'' Hact Hbw.
  assert (in_request k1' = in_request k1) as Heq by congruence.
  assert (k1' = k1) as -> by by injection Heq. clear Hp1' Heq.
  assert (wf K (statics h1)) as Hwf1 by by rewrite HS.
  assert (static_of (in_request k1) = static_of r) as Hst1.
  { destruct (statics_eq_lookup h h1 p _ HS Hp1) as (r0 & Hr0 & <-). congruence. }
  assert (peers_list r'' = Some pl) as Hpl'' by by rewrite (static_peers _ _ Hst).
  assert (max_bw r'' = max_bw r) as Hmax by by injection Hst.
  assert (agree h1 (loop_acc (below IPA_RM_RESOURCE_MAX)) (Acc (<[p := r'']> h1))) as Hagree.
  { unfold loop_acc. rewrite <- HS. eapply acc_loop_agree; [done..|]. intros n Hn. rewrite Hact, Hmax.
    unfold below. by rewrite (proj2 (Nat.ltb_lt _ _) Hn). }
  split; [split; [|split]|].
  - by eapply (settle_cons_ok h1 _ p (in_request k1) k1 r'').
  - apply settled_but; [done..|]. unfold active in Hact. by destruct (state r'').
  - eapply prod_bw_but; [done..|congruence|done].
  - intros Hstep Hgr Hreq. destruct (Hsync Hstep) as (Hs1 & Hpend & _). split.
    + eapply (settle_sync K h1 Hwf1 _ p (in_request k1) k1 r'' k1 pl); try done.
      intros _. split; [done|]. intros Hg. rewrite <- Hpend. auto.
    + intros q rq kq Hq Hkq Hrq. destruct (decide (q = p)) as [->|Hne].
      * rewrite lookup_insert_eq in Hq. assert (rq = r'') as -> by congruence.
        assert (kq = k1) as -> by congruence. specialize (Hreq Hrq).
        pose proof (waiting_nonneg (loop_acc (below IPA_RM_RESOURCE_MAX)) h1 p pl). lia.
      * rewrite lookup_insert_ne in Hq by done. destruct Hstep as [_ Hposq].
        apply (Hposq q rq kq); [by eapply prods_same_back|done..].
Qed.

Definition request_result (res : Z) (h' : rheap) : Prop :=
  ∃ r', h' !! p = Some r' ∧ prods_same p h h' ∧
    (res = 0 ∧ state r' = IPA_RM_GRANTED ∨ res = - EINPROGRESS ∧ state r' = IPA_RM_REQUEST_IN_PROGRESS).

Lemma wp_producer_request_kept s :
  mem K h s → active r = false →
  wp (ipa_rm_resource_producer_request E p)
    (λ res s', kept K h s' (λ h', in_step h → request_result res h')) s.
Proof.
  intros Hs Hidle.
  eapply (wp_producer_request E K p r k pl request_inv (λ _ _, False)); try done.
  - unfold active in Hidle. destruct (state r); try done; auto.
  - by apply request_inv_start.
  - apply request_inv_turn.
  - apply request_inv_skip.
  - intros res h1 r1 k1 s1 HS HI Hp1 Hk1 Hs1.
    pose proof HI as (Hsame & _ & Hres & k1' & Hp1' & Hsync).
    assert (r1 = in_request k1') as -> by congruence. assert (k1' = k1) as -> by by injection Hk1.
    assert (static_of (in_request k1) = static_of r) as Hst1.
    { destruct (statics_eq_lookup h h1 p _ HS Hp1) as (r0 & Hr0 & <-). congruence. }
    set (r'' := if pending_request k1 =? 0 then with_state IPA_RM_GRANTED (in_request k1) else in_request k1).
    destruct (request_finish res h1 k1 r'' HS HI Hp1) as [Hb Hst]; subst r''.
    1-4: by destruct (pending_request k1 =? 0).
    exists (<[p := if pending_request k1 =? 0 then with_state IPA_RM_GRANTED (in_request k1) else in_request k1]> h1).
    destruct (pending_request k1 =? 0) eqn:Hpend.
    + apply Z.eqb_eq in Hpend. split; [done|]. split; [rewrite <- HS; by eapply statics_insert_same|].
      split; [done|]. split; [intros Hstep; by apply Hst|]. intros Hstep.
      eexists. rewrite lookup_insert_eq. split; [done|]. split; [|by left].
      intros q rq kq Hne Hq Hkq. rewrite lookup_insert_ne by done. by eapply Hsame.
    + apply Z.eqb_neq in Hpend. rewrite insert_id in * by done. split; [done|]. split; [done|].
      split; [done|]. split; [intros Hstep; by apply Hst|]. intros Hstep.
      eexists. split; [done|]. split; [done|]. right. split; [|done].
      destruct (Hsync Hstep) as (_ & _ & Hz). destruct Hres; [tauto|done].
Qed.

(** ** Release *)

Definition release_inv (i : nat) (h1 : rheap) : Prop :=
  prods_same p h h1 ∧ cons_ok (loop_acc (from i)) h1 ∧
  (in_step h → sync_but (eq p) (loop_acc (from i)) h1).

Lemma release_inv_turn i h1 c h' :
  statics h1 = statics h → h1 !! p = Some (releasing r k) → release_inv i h1 →
  peer_at pl i = Some c → release_turn E p h1 c h' → release_inv (S i) h'.
Proof.
  intros HS Hp1 (Hsame & Hok & Hsync) Hc Ht.
  assert (wf K (statics h1)) as Hwf1 by by rewrite HS.
  destruct (statics_eq_lookup h h1 p _ HS Hp1) as (r0 & Hr0 & Hst0). assert (r0 = r) as -> by congruence.
  destruct (loop_slot h1 _ i c HS Hp1 (eq_sym Hst0) Hc) as [Hlk (rc & Hc1 & Hn)].
  set (A := loop_acc (from i)) in *.
  assert (A p c = Some (max_bw (releasing r k))) as HA.
  { subst A. unfold loop_acc. rewrite <- HS, (acc_loop_eq h1 p _ _ _ c rc Hc1), Hn. unfold from.
    by rewrite Nat.leb_refl. }
  pose proof (release_turn_statics _ _ _ _ _ Ht) as HS'. rewrite HS in HS'.
  assert (agree h' (acc_set A p c None) (loop_acc (from (S i)))) as Hagree.
  { intros c' rc' kc' plc' j q us Hc' _ _ _.
    destruct (statics_eq_lookup h1 h' c' rc' ltac:(congruence) Hc') as (rc0 & Hc0 & _).
    apply (acc_loop_step K (statics h) p (max_bw r) (Acc h) Hwf h1 (from i) (from (S i)) i c rc);
      [exact HS|exact Hc1|exact Hn|apply from_step| |by exists rc0].
    unfold from. by rewrite (proj2 (Nat.leb_gt (S i) i)) by lia. }
  assert (wf K (statics h')) as Hwf' by by rewrite HS'.
  split_and!.
  - eapply prods_same_trans; [done|]. by eapply release_turn_same.
  - eapply cons_ok_agree; [done|]. by eapply (release_turn_acct K h1 Hwf1 E).
  - intros Hstep. eapply sync_but_agree; [done..|].
    by eapply (release_turn_sync K h1 Hwf1 E); try apply Hsync.
Qed.

Lemma release_inv_skip i h1 :
  statics h1 = statics h → release_inv i h1 → peer_at pl i = None → release_inv (S i) h1.
Proof.
  intros HS (Hsame & Hok & Hsync) Hnone.
  destruct (statics_peers h h1 p r pl HS Hp Hpl) as (rp & Hp1 & Hplp & Hst).
  destruct (static_ext_prod r rp k Hst Hk) as [kp Hkp].
  split_and!; try done.
  - exact (cons_ok_skip K (statics h) p (max_bw r) (Acc h) Hwf h1 rp kp pl (from i)
      (from (S i)) i HS Hp1 Hkp Hplp Hnone (from_step i) Hok).
  - intros Hstep q rq kq plq Hne Hq Hkq Hplq. unfold prod_sync.
    rewrite (waiting_ext _ (loop_acc (from i)) h1 h1 q plq); [by apply (Hsync Hstep q rq kq plq)|].
    intros j c us _. unfold wait_val, loop_acc. by rewrite !acc_loop_ne by congruence.
Qed.

Lemma release_inv_start : active r = true → release_inv 0 (<[p := releasing r k]> h).
Proof.
  intros Hact. destruct Hbal as (Hok & _ & _).
  assert (agree (<[p := releasing r k]> h) (Acc h) (loop_acc (from 0))) as Hagree.
  { eapply acc_start_agree; [done..|]. by rewrite Hact. }
  assert (wf K (statics (<[p := releasing r k]> h))) as Hwf1.
  { rewrite (statics_insert_same h p r); [done..|]. by apply (static_same_prod (with_state _ r) k). }
  split_and!; [|eapply cons_ok_agree; [done|]; by eapply cons_ok_prod|].
  - intros q rq kq Hne Hq _. by rewrite lookup_insert_ne.
  - intros [Hsync _]. eapply sync_but_agree; [done..|]. eapply sync_but_upd_prod; [done..|].
    intros q rq kq plq Hne Hq Hkq Hplq. apply (Hsync q rq kq plq); [by intros []|done..].
Qed.

Lemma release_finish h1 (h' := <[p := released r k]> h1) :
  statics h1 = statics h → release_inv IPA_RM_RESOURCE_MAX h1 → h1 !! p = Some (releasing r k) →
  balanced h' ∧ (in_step h → in_step h').
Proof.
  intros HS (Hsame & Hok & Hsync) Hp1.
  assert (wf K (statics h1)) as Hwf1 by by rewrite HS.
  assert (agree h1 (loop_acc (from IPA_RM_RESOURCE_MAX)) (Acc h')) as Hagree.
  { unfold loop_acc. rewrite <- HS. eapply acc_loop_agree; [done..|]. intros n Hn. unfold from.
    by rewrite (proj2 (Nat.leb_gt _ _) Hn). }
  split; [split; [|split]|].
  - by eapply (settle_cons_ok h1 _ p (releasing r k)).
  - by apply settled_but.
  - by eapply prod_bw_but.
  - intros Hstep. split.
    + eapply (settle_sync K h1 Hwf1 _ p (releasing r k) _ (released r k) _ pl);
        [done..|by apply Hsync|intros Hact; discriminate Hact].
    + intros q rq kq Hq Hkq Hrq. subst h'. destruct (decide (q = p)) as [->|Hne].
      * rewrite lookup_insert_eq in Hq. assert (rq = released r k) as -> by congruence. done.
      * rewrite lookup_insert_ne in Hq by done. destruct Hstep as [_ Hposq].
        apply (Hposq q rq kq); [by eapply prods_same_back|done..].
Qed.

Lemma wp_producer_release_kept s :
  mem K h s → active r = true →
  wp (ipa_rm_resource_producer_release E p)
    (λ res s', kept K h s' (λ h', res = 0 ∧ prods_same p h h' ∧
       ∃ r', h' !! p = Some r' ∧ state r' = IPA_RM_RELEASED)) s.
Proof.
  intros Hs Hact.
  eapply (wp_producer_release E K p r k pl release_inv); try done.
  - unfold active in Hact. destruct (state r); try done; auto.
  - by apply release_inv_start.
  - intros i h1 c h'. apply release_inv_turn.
  - intros i h1. apply release_inv_skip.
  - intros h1 s1 HS HR Hp1 Hs1. destruct (release_finish h1 HS HR Hp1) as [Hb Hst].
    destruct HR as (Hsame & _). exists (<[p := released r k]> h1). split; [done|].
    split; [rewrite <- HS; by eapply statics_insert_same|]. split; [done|]. split; [done|].
    split; [done|]. split; [|exists (released r k); by rewrite lookup_insert_eq].
    intros q rq kq Hne Hq Hkq. rewrite lookup_insert_ne by done. by eapply Hsame.
Qed.
End Request.
