(* ===== verification/RmSteps.v ===== *)
(** * IPA resource manager: every other operation keeps the accounts

    Completions, the timed request and its release, performance profiles, registrations,
    dependencies, creation and deletion.

    A new bandwidth of a resource reaches the accounts of its peers: of the consumers of
    an active producer, and of all the producers of a consumer. *)

From S2P Require Import Prelude.
From S2P Require Import RmTypes.
From S2P Require Import RmPeers.
From S2P Require Import RmCore.
From S2P Require Import RmResource.
From S2P Require Import RmConsumer.
From S2P Require Import RmWf.
From S2P Require Import RmProducer.
From S2P Require Import RmOps.
From S2P Require Import RmSafety.
From S2P Require Import RmAcct.
From S2P Require Import RmRequest.

(** ** A change of one consumer that leaves its account alone *)

Section cons_same.
Context (K : control) (h : rheap) (c : loc) (rc rc' : ipa_rm_resource) (k k' : resource_cons).
Hypotheses (Hwf : wf K (statics h)) (Hc : h !! c = Some rc) (Hk : ext rc = Cons k).
Hypotheses (Hk' : ext rc' = Cons k') (Hst : static_of rc' = static_of rc).

Lemma cons_insert_prod q rq kq :
  <[c := rc']> h !! q = Some rq → ext rq = Prod kq → q ≠ c ∧ h !! q = Some rq.
Proof using Hk'.
  intros Hq Hkq. destruct (decide (q = c)) as [->|Hne].
  - rewrite lookup_insert_eq in Hq. congruence.
  - by rewrite lookup_insert_ne in Hq.
Qed.

Lemma cons_insert_statics : statics (<[c := rc']> h) = statics h.
Proof using Hc Hst. by eapply statics_insert_same. Qed.

Lemma agree_cons_insert : agree (<[c := rc']> h) (Acc h) (Acc (<[c := rc']> h)).
Proof using Hwf Hc Hk Hk' Hst.
  intros c2 rc2 kc2 plc2 i q us Hc2 Hkc2 Hplc2 Hi.
  assert (wf K (statics (<[c := rc']> h))) as Hwf' by by rewrite cons_insert_statics.
  destruct (wf_slot_producer K _ c2 rc2 kc2 plc2 i q us Hwf' Hc2 Hkc2 Hplc2 Hi) as (rq & kq & _ & Hq & Hkq & _).
  destruct (cons_insert_prod q rq kq Hq Hkq) as [_ Hq0]. unfold Acc. by rewrite Hq, Hq0.
Qed.

Lemma prod_bw_cons_insert : prod_bw h → prod_bw (<[c := rc']> h).
Proof using Hc Hst Hk'.
  intros Hb q rq kq pl Hq Hkq Hpl. destruct (cons_insert_prod q rq kq Hq Hkq) as [_ Hq0].
  rewrite (slot_sum_ext _ (cons_bw h)).
  - by eapply Hb.
  - intros. apply cons_bw_statics, cons_insert_statics.
Qed.

Lemma settled_cons_insert : prods_settled h → prods_settled (<[c := rc']> h).
Proof using Hk'.
  intros Hset q rq kq Hq Hkq. destruct (cons_insert_prod q rq kq Hq Hkq) as [_ Hq0]. by eapply Hset.
Qed.

Hypotheses (Hu : usage_count k' = usage_count k) (Hbw : needed_bw rc' = needed_bw rc).
Hypothesis Hidle : idle rc' → usage_count k = 0.

Lemma balanced_cons_same : balanced h → balanced (<[c := rc']> h).
Proof.
  intros (Hok & Hset & Hb). split; [|split].
  - eapply cons_ok_agree; [apply agree_cons_insert|].
    destruct (wf_has_peers _ _ Hwf c rc Hc) as (pl & Hpl & _).
    eapply (cons_ok_same _ h c rc k pl rc' k'); try done.
    + by rewrite (static_peers _ _ Hst).
    + rewrite Hu. done.
  - by apply settled_cons_insert.
  - by apply prod_bw_cons_insert.
Qed.

Hypothesis Hsee : usage_count k ≠ 0 →
  (state rc' = IPA_RM_REQUEST_IN_PROGRESS ↔ state rc = IPA_RM_REQUEST_IN_PROGRESS).

Lemma in_step_cons_same : balanced h → in_step h → in_step (<[c := rc']> h).
Proof.
  intros (Hok & _ & _) [Hsync Hpos].
  assert (wf K (statics (<[c := rc']> h))) as Hwf' by by rewrite cons_insert_statics.
  split.
  - eapply sync_but_agree; [exact Hwf'|apply agree_cons_insert|].
    intros q rq kq pl HX Hq Hkq Hpl. destruct (cons_insert_prod q rq kq Hq Hkq) as [Hne Hq0].
    unfold prod_sync. rewrite (waiting_ext _ (Acc h) _ h q pl); [by apply (Hsync q rq kq pl)|].
    intros i c2 us Hi. unfold wait_val. rewrite is_waiting_insert. case_decide as Hcc; [subst c2|done].
    destruct (Acc h q c) as [w|] eqn:HA; [|done]. do 2 f_equal. unfold is_waiting. rewrite Hc.
    apply bool_decide_ext, Hsee.
    destruct (wf_slot_consumer K h q rq kq pl i c us Hwf Hq0 Hkq Hpl Hi) as (rc2 & k2 & plc & Hc2 & Hk2 & Hplc & _ & Hback).
    assert (rc2 = rc) as -> by congruence. assert (k2 = k) as -> by congruence.
    destruct (Hok c rc k plc Hc Hk Hplc) as (Hu0 & _).
    pose proof (users_pos (Acc h) c plc _ q us w Hback HA). lia.
  - intros q rq kq Hq Hkq. destruct (cons_insert_prod q rq kq Hq Hkq) as [_ Hq0]. by eapply Hpos.
Qed.
End cons_same.

(** ** Timed requests and their releases *)

Section Timed.
Context (E : rm_env) (K : control) (HE : no_errors E).
Context (h : rheap) (c : loc) (r : ipa_rm_resource) (k : resource_cons).
Hypotheses (Hwf : wf K (statics h)) (Hc : h !! c = Some r) (Hk : ext r = Cons k).
Hypothesis Hbal : balanced h.

Lemma balanced_consumer :
  u32 (needed_bw r) = needed_bw r ∧ (idle r → usage_count k = 0).
Proof.
  destruct (wf_has_peers _ _ Hwf c r Hc) as (pl & Hpl & _). destruct Hbal as (Hok & _).
  destruct (Hok c r k pl Hc Hk Hpl) as (Hu & Hl & Hi). rewrite Hl, u32_u32, Hu. auto.
Qed.

Lemma cons_callbacks : callbacks_set k.
Proof.
  pose proof (wf_type_of_ext _ _ Hwf c r Hc) as Ht. rewrite Hk in Ht.
  destruct (wf_consumer _ _ Hwf c r Hc Ht) as (k' & Hk' & Hcb & _). congruence.
Qed.

Lemma wp_timed_request_kept s :
  mem K h s →
  wp (ipa_rm_resource_consumer_request E c 0 false true)
    (λ res s', kept K h s' (λ h', (res = 0 ∨ res = - EINPROGRESS) ∧
       ∃ r', h' = <[c := r']> h ∧ static_of r' = static_of r ∧ ¬ idle r')) s.
Proof.
  intros Hs. destruct balanced_consumer as [Hu32 Hidle].
  eapply wp_mono; [apply (wp_consumer_request E K c r k);
    [done|by apply wf_table_live|done|done|apply cons_callbacks]|].
  cbn beta. intros res s' (h' & r' & k' & Hs' & Hch & Hguard & Hout).
  pose proof (statics_cons_change _ _ _ _ _ _ _ Hc Hch) as HS. destruct Hch as (-> & Hk' & Hst).
  assert ((res = 0 ∨ res = - EINPROGRESS) ∧ (state r' = IPA_RM_GRANTED ∨ state r' = IPA_RM_REQUEST_IN_PROGRESS) ∧
    needed_bw r' = u32 (needed_bw r + 0) ∧ usage_count k' = usage_count k + b2z false) as (Hres & Hst' & Hbw & Hu).
  { destruct Hout as [(? & ? & ? & ?)|[(? & [?|(_ & _ & ?)] & ? & ?)|(Herr & _)]]; auto.
    by destruct (no_driver_error E res HE). }
  rewrite Z.add_0_r, Hu32 in Hbw. cbn in Hu. rewrite Z.add_0_r in Hu.
  assert (¬ idle r') as Hbusy by (by intros [Hi|Hi]; rewrite Hi in Hst'; destruct Hst').
  exists (<[c := r']> h). split; [done|]. split; [done|]. split; [|split].
  - eapply (balanced_cons_same K h c r r' k k'); try done.
  - eapply (in_step_cons_same K h c r r' k k'); try done. intros Hne.
    destruct (state r) eqn:Est.
    + exfalso. apply Hne, Hidle. by left.
    + by destruct Hguard as [_ ->].
    + by destruct Hguard as [-> _].
    + exfalso. apply Hne, Hidle. by right.
  - split; [done|]. by exists r'.
Qed.

Lemma wp_timed_release_kept s :
  mem K h s →
  wp (ipa_rm_resource_consumer_release E c 0 false) (λ res s', kept K h s' (λ _, True)) s.
Proof.
  intros Hs. destruct balanced_consumer as [Hu32 Hidle].
  eapply wp_mono; [apply (wp_consumer_release E K c r k);
    [done|by apply wf_table_live|done|done|apply cons_callbacks]|].
  cbn beta. intros res s' (h' & r' & k' & Hs' & Hch & Hbw & Hu & Hst').
  pose proof (statics_cons_change _ _ _ _ _ _ _ Hc Hch) as HS. destruct Hch as (-> & Hk' & Hst).
  rewrite Z.sub_0_r, Hu32 in Hbw.
  assert (usage_count k' = usage_count k) as Hu' by (rewrite Hu; by destruct (state r)).
  assert (usage_count k = 0 ∨ state r' = state r) as Hcase.
  { destruct (usage_count k' =? 0) eqn:H0; [left; rewrite <- Hu'; by apply Z.eqb_eq|right].
    by destruct (state r), Hst'. }
  exists (<[c := r']> h). split; [done|]. split; [done|]. split; [|split; [|done]].
  - eapply (balanced_cons_same K h c r r' k k'); try done. intros Hi.
    destruct Hcase as [|Heq]; [done|]. apply Hidle. unfold idle in *. by rewrite <- Heq.
  - eapply (in_step_cons_same K h c r r' k k'); try done.
    intros Hne. destruct Hcase as [|Heq]; [done|]. by rewrite Heq.
Qed.
End Timed.

(** ** Completions *)

(** Producers may change, as long as who is active does not. *)
Lemma balanced_pointwise K h h' :
  wf K (statics h) → statics h' = statics h →
  (∀ l r', h' !! l = Some r' → ∃ r, h !! l = Some r ∧
     ((∃ k, ext r = Cons k) → r' = r) ∧ active r' = active r ∧ needed_bw r' = needed_bw r ∧
     (state r ≠ IPA_RM_RELEASE_IN_PROGRESS → state r' ≠ IPA_RM_RELEASE_IN_PROGRESS)) →
  balanced h → balanced h' ∧ agree h' (Acc h) (Acc h').
Proof.
  intros Hwf HS Hpt (Hok & Hset & Hb).
  assert (∀ c rc kc, h' !! c = Some rc → ext rc = Cons kc → h !! c = Some rc) as Hcons.
  { intros c rc kc Hc Hkc. destruct (Hpt c rc Hc) as (r & Hr & Hsame & _).
    destruct (statics_eq_lookup h h' c rc HS Hc) as (r0 & Hr0 & Hst).
    assert (r0 = r) as -> by congruence. destruct (static_ext_cons rc r kc Hst Hkc) as [k Hk].
    rewrite Hsame; eauto. }
  assert (agree h' (Acc h) (Acc h')) as Hagree.
  { intros c rc kc plc i q us Hc Hkc Hplc Hi. assert (wf K (statics h')) as Hwf' by by rewrite HS.
    destruct (wf_slot_producer K h' c rc kc plc i q us Hwf' Hc Hkc Hplc Hi) as (rq & _ & _ & Hq & _).
    destruct (Hpt q rq Hq) as (r & Hr & _ & Hact & _). unfold Acc. rewrite Hq, Hr, Hact.
    destruct (statics_eq_lookup h h' q rq HS Hq) as (r0 & Hr0 & Hst).
    assert (r0 = r) as -> by congruence. by injection Hst as _ _ _ -> _ _. }
  split; [|done]. split; [|split].
  - eapply cons_ok_agree; [done|]. intros c rc kc plc Hc Hkc Hplc. by eapply (Hok c rc kc), Hplc; eauto.
  - intros q rq kq Hq Hkq. destruct (Hpt q rq Hq) as (r & Hr & _ & _ & _ & Hn).
    destruct (statics_eq_lookup h h' q rq HS Hq) as (r0 & Hr0 & Hst).
    assert (r0 = r) as -> by congruence. destruct (static_ext_prod rq r kq Hst Hkq) as [k Hk].
    by eapply Hn, Hset.
  - intros q rq kq pl Hq Hkq Hpl. destruct (Hpt q rq Hq) as (r & Hr & _ & _ & -> & _).
    destruct (statics_eq_lookup h h' q rq HS Hq) as (r0 & Hr0 & Hst).
    assert (r0 = r) as -> by congruence. destruct (static_ext_prod rq r kq Hst Hkq) as [k Hk].
    rewrite (slot_sum_ext _ (cons_bw h)) by (intros; by apply cons_bw_statics).
    apply (Hb q r k); [done..|]. by rewrite (static_peers _ _ Hst).
Qed.

Section Completion.
Context (K : control) (h : rheap) (c : loc) (r : ipa_rm_resource) (k : resource_cons).
Context (pl : ipa_rm_peers_list).
Hypotheses (Hwf : wf K (statics h)) (Hc : h !! c = Some r) (Hk : ext r = Cons k).
Hypothesis Hpl : peers_list r = Some pl.
Hypothesis Hbal : balanced h.

(** The granted consumer. *)
Let r1 : ipa_rm_resource := with_ext (Cons (with_completion true k)) (with_state IPA_RM_GRANTED r).
Let h1 : rheap := <[c := r1]> h.
Let h2 : rheap := upd_peers (prod_after_cb IPA_RM_RESOURCE_GRANTED) pl IPA_RM_RESOURCE_MAX h1.

Lemma granted_static : static_of r1 = static_of r.
Proof. by apply (static_same_ext (with_state _ r) k). Qed.

Lemma granted_balanced1 : balanced h1.
Proof. eapply (balanced_cons_same K h c r r1 k); try done; [apply granted_static|by intros [|]]. Qed.

Lemma granted_statics : statics h1 = statics h ∧ statics h2 = statics h.
Proof.
  assert (statics h1 = statics h) as HS.
  { unfold h1. eapply statics_insert_same; [done|apply granted_static]. }
  split; [done|]. unfold h2. by rewrite statics_upd_peers by apply prod_after_cb_static.
Qed.

Lemma prod_after_granted r0 :
  active (prod_after_cb IPA_RM_RESOURCE_GRANTED r0) = active r0 ∧
  needed_bw (prod_after_cb IPA_RM_RESOURCE_GRANTED r0) = needed_bw r0 ∧
  (state r0 ≠ IPA_RM_RELEASE_IN_PROGRESS →
   state (prod_after_cb IPA_RM_RESOURCE_GRANTED r0) ≠ IPA_RM_RELEASE_IN_PROGRESS).
Proof.
  unfold prod_after_cb. destruct (ext r0); [done|]. destruct (state r0) eqn:Est;
    try (split_and!; [done|done|by rewrite Est]).
  unfold active. rewrite Est. destruct (_ <? _); [|by rewrite Est]. by destruct (_ =? _); cbn; rewrite ?Est.
Qed.

Lemma granted_balanced : balanced h2 ∧ agree h2 (Acc h) (Acc h2).
Proof.
  destruct granted_statics as [HS1 HS2].
  assert (wf K (statics h1)) as Hwf1 by by rewrite HS1.
  destruct (balanced_pointwise K h1 h2) as [Hb Hag]; [done|congruence| |apply granted_balanced1|].
  - intros l r'. unfold h2. rewrite lookup_upd_peers. intros (r0 & Hr0 & ->)%fmap_Some_1.
    exists r0. split; [done|]. unfold peer_turn. case_decide as Hd; [|by split_and!].
    destruct (prod_after_granted r0) as (? & ? & ?). split_and!; try done.
    intros [k0 Hk0]. unfold prod_after_cb. by rewrite Hk0.
  - split; [done|]. intros c2 rc2 kc2 plc2 i q us Hc2 Hkc2 Hplc2 Hi.
    rewrite <- (Hag c2 rc2 kc2 plc2 i q us) by done.
    assert (wf K (statics h2)) as Hwf2 by by rewrite HS2.
    destruct (wf_slot_producer K h2 c2 rc2 kc2 plc2 i q us Hwf2 Hc2 Hkc2 Hplc2 Hi) as (rq & kq & _ & Hq & Hkq & _).
    unfold Acc, h1. destruct (decide (q = c)) as [->|Hne]; [|by rewrite lookup_insert_ne].
    destruct (statics_eq_lookup h h2 c rq HS2 Hq) as (r0 & Hr0 & Hst).
    destruct (static_ext_prod rq r0 kq Hst Hkq) as [k0 Hk0]. congruence.
Qed.

(** A producer after the completion: its slot tells whether it was told. *)
Lemma granted_producer q rq' kq' :
  h2 !! q = Some rq' → ext rq' = Prod kq' →
  ∃ rq kq, h !! q = Some rq ∧ ext rq = Prod kq ∧ static_of rq' = static_of rq ∧ q ≠ c ∧
    rq' = peer_turn (prod_after_cb IPA_RM_RESOURCE_GRANTED) pl IPA_RM_RESOURCE_MAX q rq.
Proof.
  intros Hq Hkq'. unfold h2 in Hq. rewrite lookup_upd_peers in Hq.
  apply fmap_Some_1 in Hq as (rq & Hq & Heq).
  assert (static_of rq' = static_of rq) as Hst.
  { rewrite Heq. apply peer_turn_static, prod_after_cb_static. }
  destruct (static_ext_prod rq' rq kq' (eq_sym Hst) Hkq') as [kq Hkq].
  assert (q ≠ c) as Hne.
  { intros ->. unfold h1 in Hq. rewrite lookup_insert_eq in Hq. injection Hq as <-. done. }
  exists rq, kq. split_and!; try done. unfold h1 in Hq. by rewrite lookup_insert_ne in Hq.
Qed.

Hypothesis Hreq : state r = IPA_RM_REQUEST_IN_PROGRESS.

(** What a producer waits for: one consumer less, if it uses [c]. *)
Lemma granted_waiting q rq kq plq :
  h !! q = Some rq → ext rq = Prod kq → peers_list rq = Some plq →
  waiting (Acc h) h2 q plq = waiting (Acc h) h q plq -
    (if decide (peer_at pl (name rq) = Some q) then counted (Acc h q c) else 0).
Proof.
  intros Hq Hkq Hplq.
  assert (∀ c', c' ≠ c → (∃ rc' kc', h !! c' = Some rc' ∧ ext rc' = Cons kc') → is_waiting h2 c' = is_waiting h c') as Hother.
  { intros c' Hne (rc' & kc' & Hc' & Hkc'). unfold is_waiting, h2, h1.
    rewrite lookup_upd_peers, lookup_insert_ne, Hc' by done. cbn. unfold peer_turn.
    case_decide; [|done]. unfold prod_after_cb. by rewrite Hkc'. }
  assert (is_waiting h2 c = false) as Hc2.
  { unfold is_waiting, h2, h1. rewrite lookup_upd_peers, lookup_insert_eq. cbn. unfold peer_turn.
    by case_decide. }
  case_decide as Hlk.
  - destruct (proj1 (peer_at_Some pl (name rq) q) Hlk) as [us Hus].
    destruct (wf_peer _ _ Hwf c r pl (name rq) q us Hc Hpl Hus) as (rq' & plq' & Hq' & _ & _ & Hplq' & Hback).
    assert (rq' = rq) as -> by congruence. assert (plq' = plq) as -> by congruence.
    unfold waiting.
    rewrite (slot_sum_one (wait_val (Acc h) h q) (wait_val (Acc h) h2 q) _ (name r) c us Hback).
    + unfold wait_val. rewrite Hc2. unfold is_waiting. rewrite Hc, bool_decide_eq_true_2 by done. cbn. lia.
    + intros j c' us' Hne Hj. destruct (wf_slot_consumer K h q rq kq plq j c' us' Hwf Hq Hkq Hplq Hj) as (rc' & kc' & _ & Hc' & Hkc' & _ & Hn & _).
      unfold wait_val. rewrite Hother; eauto. intros ->. assert (rc' = r) as -> by congruence. by rewrite Hn in Hne.
  - rewrite Z.sub_0_r. symmetry. apply waiting_ext. intros j c' us Hj.
    destruct (wf_slot_consumer K h q rq kq plq j c' us Hwf Hq Hkq Hplq Hj) as (rc' & kc' & plc & Hc' & Hkc' & Hplc & Hn & Hback).
    unfold wait_val. rewrite Hother; eauto. intros ->. assert (rc' = r) as -> by congruence.
    assert (plc = pl) as -> by congruence. apply Hlk. apply peer_at_Some. eauto.
Qed.

(** The arithmetic of one producer told of the completion. *)
Lemma granted_told q rq kq rq' kq' plq :
  h !! q = Some rq → ext rq = Prod kq → peers_list rq = Some plq → peer_at pl (name rq) = Some q →
  prod_sync (Acc h) h q rq kq plq →
  (state rq = IPA_RM_REQUEST_IN_PROGRESS → 0 < pending_request kq) →
  rq' = prod_after_cb IPA_RM_RESOURCE_GRANTED rq → ext rq' = Prod kq' →
  prod_sync (Acc h) h2 q rq' kq' plq ∧
  (state rq' = IPA_RM_REQUEST_IN_PROGRESS → 0 < pending_request kq').
Proof.
  intros Hq Hkq Hplq Hlk Hs Hp Heq Hkq'.
  pose proof (granted_waiting q rq kq plq Hq Hkq Hplq) as Hw. rewrite decide_True in Hw by done.
  assert (Acc h q c = if active rq then Some (max_bw rq) else None) as HA by (unfold Acc; by rewrite Hq).
  pose proof (waiting_nonneg (Acc h) h2 q plq) as Hnn. rewrite HA in Hw.
  unfold prod_sync, active in *. unfold prod_after_cb in Heq. rewrite Hkq in Heq.
  destruct (state rq) eqn:Est; [subst rq'; by rewrite Est| |destruct (Hs eq_refl) as [_ Hz]; rewrite Hz in Hw by done; cbn in Hw; lia|subst rq'; by rewrite Est].
  destruct (Hs eq_refl) as [Hpend _]. specialize (Hp eq_refl). rewrite (proj2 (Z.ltb_lt _ _) Hp) in Heq.
  cbn [counted] in Hw.
  destruct (pending_request kq - 1 =? 0) eqn:H0; subst rq'; cbn in Hkq'; injection Hkq' as <-;
    cbn [state with_state with_ext pending_request with_pending_request].
  - apply Z.eqb_eq in H0. split; [intros _; split; [lia|intros _; lia]|done].
  - apply Z.eqb_neq in H0. rewrite Est. split; [intros _; split; [lia|done]|intros _; lia].
Qed.

Lemma granted_in_step : in_step h → in_step h2.
Proof.
  intros [Hsync Hpos]. destruct granted_statics as [_ HS2], granted_balanced as [_ Hag].
  assert (wf K (statics h2)) as Hwf2 by by rewrite HS2.
  assert (∀ q rq' kq' plq, h2 !! q = Some rq' → ext rq' = Prod kq' → peers_list rq' = Some plq →
    prod_sync (Acc h) h2 q rq' kq' plq ∧ (state rq' = IPA_RM_REQUEST_IN_PROGRESS → 0 < pending_request kq')) as Hall.
  { intros q rq' kq' plq Hq' Hkq' Hplq'.
    destruct (granted_producer q rq' kq' Hq' Hkq') as (rq & kq & Hq & Hkq & Hst & Hne & Heq).
    assert (peers_list rq = Some plq) as Hplq by by rewrite <- (static_peers _ _ Hst).
    pose proof (Hsync q rq kq plq ltac:(intros []) Hq Hkq Hplq) as Hs.
    pose proof (Hpos q rq kq Hq Hkq) as Hp. unfold peer_turn in Heq.
    destruct (decide (peer_at pl (name rq) = Some q)) as [Hlk|Hlk].
    - rewrite decide_True in Heq.
      2: { split; [|done]. destruct (wf_res_ok _ _ Hwf q rq Hq) as [Hv _]. by apply valid_name_index in Hv as [_ ?]. }
      by eapply (granted_told q rq kq).
    - rewrite decide_False in Heq by tauto. subst rq'. unfold prod_sync.
      rewrite (granted_waiting q rq kq plq Hq Hkq Hplq), decide_False, Z.sub_0_r by done.
      assert (kq' = kq) as -> by congruence. auto. }
  split.
  - eapply sync_but_agree; [exact Hwf2|exact Hag|]. intros q rq kq plq _ Hq Hkq Hplq.
    by destruct (Hall q rq kq plq Hq Hkq Hplq).
  - intros q rq kq Hq Hkq. destruct (wf_has_peers _ _ Hwf2 q rq Hq) as (plq & Hplq & _).
    by destruct (Hall q rq kq plq Hq Hkq Hplq).
Qed.
End Completion.

(** Any completion: a pending release, or an event that does not fit. *)
Lemma cb_kept K h c r k pl ev (h' := cb_heap ev c r k pl h) :
  wf K (statics h) → h !! c = Some r → ext r = Cons k → peers_list r = Some pl → balanced h →
  statics h' = statics h ∧ balanced h' ∧ (in_step h → in_step h').
Proof.
  intros Hwf Hc Hk Hpl Hbal.
  split; [by apply (cb_heap_consumer K c r k pl ev h)|]. subst h'. unfold cb_heap, cons_after_cb.
  destruct (state r) eqn:Est, ev; try done.
  - split; [by eapply granted_balanced|]. intros. by eapply (granted_in_step K).
  - set (r1 := with_state IPA_RM_RELEASED r). set (h1 := <[c := r1]> h).
    assert (upd_peers (prod_after_cb IPA_RM_RESOURCE_RELEASED) pl IPA_RM_RESOURCE_MAX h1 = h1) as ->.
    { apply map_eq. intros l. rewrite lookup_upd_peers. destruct (h1 !! l) as [rl|] eqn:Hl; [|done].
      cbn. f_equal. unfold peer_turn. case_decide; [|done]. unfold prod_after_cb.
      destruct (ext rl) as [kl|kl] eqn:Hkl; [done|]. destruct (state rl) eqn:Esl; try done.
      exfalso. pose proof Hbal as (_ & Hset & _). subst h1. destruct (decide (l = c)) as [->|].
      - rewrite lookup_insert_eq in Hl. by injection Hl as <-.
      - rewrite lookup_insert_ne in Hl by done. by eapply Hset. }
    assert (idle r) as Hi by by right.
    pose proof Hbal as (Hok & _ & _).
    assert (usage_count k = 0) as Hu.
    { destruct (Hok c r k pl Hc Hk Hpl) as (-> & _ & Hz). auto. }
    split.
    + by eapply (balanced_cons_same K h c r r1 k k).
    + intros Hstep. by eapply (in_step_cons_same K h c r r1 k k).
Qed.

(** ** What the accounts read of a resource *)

Definition ext_view (e : resource_ext) : Z + Z :=
  match e with Cons k => inl (usage_count k) | Prod k => inr (pending_request k) end.

Definition step_view (r : ipa_rm_resource) := (state r, ext_view (ext r), peers_list r).
Definition core_view (r : ipa_rm_resource) := (step_view r, max_bw r, needed_bw r).

Definition same_view {A} (v : ipa_rm_resource → A) (h h' : rheap) : Prop :=
  ∀ l, v <$> h' !! l = v <$> h !! l.

Lemma same_view_lookup {A} (v : ipa_rm_resource → A) h h' l r' :
  same_view v h h' → h' !! l = Some r' → ∃ r, h !! l = Some r ∧ v r' = v r.
Proof.
  intros Hv Hl. specialize (Hv l). rewrite Hl in Hv. destruct (h !! l) as [r|]; [|done].
  exists r. by injection Hv.
Qed.

Lemma ext_view_prod e e' k : ext_view e' = ext_view e → e' = Prod k → ∃ k0, e = Prod k0 ∧ pending_request k = pending_request k0.
Proof. intros Hv ->. destruct e as [k0|k0]; [done|]. exists k0. by injection Hv. Qed.

Lemma ext_view_cons e e' k : ext_view e' = ext_view e → e' = Cons k → ∃ k0, e = Cons k0 ∧ usage_count k = usage_count k0.
Proof. intros Hv ->. destruct e as [k0|k0]; [|done]. exists k0. by injection Hv. Qed.

Lemma same_view_active h h' p c :
  same_view step_view h h' → counted (Acc h' p c) = counted (Acc h p c).
Proof.
  intros Hv. specialize (Hv p). unfold Acc, active.
  destruct (h' !! p) as [r'|], (h !! p) as [r|]; try done. injection Hv as -> _ _.
  by destruct (state r).
Qed.

Lemma same_view_waiting h h' p pl :
  same_view step_view h h' → waiting (Acc h') h' p pl = waiting (Acc h) h p pl.
Proof.
  intros Hv. apply waiting_ext. intros i c us _. unfold wait_val. rewrite (same_view_active h h' p c Hv).
  do 2 f_equal. unfold is_waiting. specialize (Hv c).
  destruct (h' !! c) as [r'|], (h !! c) as [r|]; try done. by injection Hv as -> _ _.
Qed.

Lemma in_step_view h h' : same_view step_view h h' → in_step h → in_step h'.
Proof.
  intros Hv [Hsync Hpos]. split.
  - intros p r' k' pl _ Hp Hk Hpl. destruct (same_view_lookup _ _ _ _ _ Hv Hp) as (r & Hr & [= Hst He Hl]).
    destruct (ext_view_prod _ _ _ He Hk) as (k & Hk0 & Hpk). unfold prod_sync.
    rewrite Hpk, (same_view_waiting h h' p pl Hv). unfold active. rewrite Hst.
    apply (Hsync p r k pl); [by intros []|done|done|congruence].
  - intros p r' k' Hp Hk Hr'. destruct (same_view_lookup _ _ _ _ _ Hv Hp) as (r & Hr & [= Hst He Hl]).
    destruct (ext_view_prod _ _ _ He Hk) as (k & Hk0 & ->). apply (Hpos p r k); congruence.
Qed.

Lemma same_view_core h h' : same_view core_view h h' → same_view step_view h h'.
Proof.
  intros Hv l. specialize (Hv l). destruct (h' !! l), (h !! l); try done. injection Hv as H1 H2 H3 _ _. unfold step_view. cbn. congruence.
Qed.

Lemma balanced_view h h' : same_view core_view h h' → balanced h → balanced h'.
Proof.
  intros Hv (Hok & Hset & Hb).
  assert (∀ p c, Acc h' p c = Acc h p c) as HA.
  { intros p c. specialize (Hv p). unfold Acc, active.
    destruct (h' !! p), (h !! p); try done. by injection Hv as -> _ _ -> _. }
  split; [|split].
  - intros c r' k' pl Hc Hk Hpl. destruct (same_view_lookup _ _ _ _ _ Hv Hc) as (r & Hr & [= Hst He Hl Hm Hn]).
    destruct (ext_view_cons _ _ _ He Hk) as (k & Hk0 & Hu).
    destruct (Hok c r k pl Hr Hk0) as (H1 & H2 & H3); [congruence|].
    unfold cons_balanced. destruct (users_ext (Acc h') (Acc h) c pl) as [-> ->]; [done|].
    rewrite Hu, Hn, H1, H2. split_and!; try done. unfold idle in *. by rewrite Hst.
  - intros p r' k' Hp Hk. destruct (same_view_lookup _ _ _ _ _ Hv Hp) as (r & Hr & [= Hst He Hl Hm Hn]).
    destruct (ext_view_prod _ _ _ He Hk) as (k & Hk0 & _). rewrite Hst. by eapply Hset.
  - intros p r' k' pl Hp Hk Hpl. destruct (same_view_lookup _ _ _ _ _ Hv Hp) as (r & Hr & [= Hst He Hl Hm Hn]).
    destruct (ext_view_prod _ _ _ He Hk) as (k & Hk0 & _).
    rewrite (slot_sum_ext (cons_bw h') (cons_bw h)).
    + rewrite Hn. apply (Hb p r k); congruence.
    + intros i c us _. specialize (Hv c). unfold cons_bw.
      destruct (h' !! c), (h !! c); try done. by injection Hv as _ _ _ -> _.
Qed.

(** A registration. *)
Lemma listeners_view h p r k ls :
  h !! p = Some r → ext r = Prod k →
  same_view core_view h (<[p := with_ext (Prod (with_listeners ls k)) r]> h).
Proof.
  intros Hp Hk l. destruct (decide (l = p)) as [->|].
  - rewrite lookup_insert_eq, Hp. cbn. unfold core_view, step_view. cbn. by rewrite Hk.
  - by rewrite lookup_insert_ne.
Qed.

(** * IPA resource manager: performance profiles keep the accounts *)

Lemma slot_sum_shift f g l i p us :
  l !! i = Some (mkPeer (Some p) us) →
  (∀ j q us', j ≠ i → l !! j = Some (mkPeer (Some q) us') → f q = g q) →
  u32 (slot_sum g l) = u32 (u32 (u32 (slot_sum f l) - f p) + g p).
Proof.
  intros Hi Hfg. rewrite (slot_sum_one f g l i p us Hi Hfg). u32_eq.
Qed.

Section Perf.
Context (K : control) (h : rheap) (l : loc) (r : ipa_rm_resource) (pl : ipa_rm_peers_list) (bw : Z).
Hypotheses (Hwf : wf K (statics h)) (Hl : h !! l = Some r) (Hpl : peers_list r = Some pl).
Hypothesis Hbal : balanced h.
Hypothesis Hne : bw ≠ max_bw r.

Let h' : rheap := perf_heap l r pl bw h.

(** Is [x], with contents [rx], a peer the new profile reaches? *)
Definition reached (x : loc) (rx : ipa_rm_resource) : Prop :=
  perf_pushes r = true ∧ peer_at pl (name rx) = Some x.
#[local] Instance reached_dec x rx : Decision (reached x rx).
Proof. unfold reached. apply _. Defined.

Lemma lookup_perf_self : h' !! l = Some (with_max_bw bw r).
Proof. unfold h', perf_heap. rewrite (proj2 (Z.eqb_neq _ _) Hne). apply lookup_insert_eq. Qed.

Lemma lookup_perf x rx' :
  x ≠ l → h' !! x = Some rx' →
  ∃ rx, h !! x = Some rx ∧ rx' = if decide (reached x rx) then shift_bw (max_bw r) bw rx else rx.
Proof.
  unfold h', perf_heap. rewrite (proj2 (Z.eqb_neq _ _) Hne). intros Hx. rewrite lookup_insert_ne by done.
  destruct (decide (perf_pushes r = true)) as [Hpush|Hpush].
  - rewrite Hpush, lookup_upd_peers. intros (rx & Hrx & ->)%fmap_Some_1. exists rx. split; [done|].
    unfold peer_turn. apply decide_ext. unfold reached. split; [tauto|]. intros [_ ?]. split; [|done].
    destruct (wf_res_ok _ _ Hwf x rx Hrx) as [Hv _]. by apply valid_name_index in Hv as [_ ?].
  - rewrite (not_true_is_false _ Hpush). intros Hrx. exists rx'. split; [done|].
    by rewrite decide_False by (by intros [? _]).
Qed.

(** A peer of the resource, seen from its own list. *)
Lemma peer_reached x rx plx i us :
  h !! x = Some rx → peers_list rx = Some plx → peers plx !! i = Some (mkPeer (Some l) us) →
  i = name r ∧ peer_at pl (name rx) = Some x.
Proof.
  intros Hx Hplx Hi. destruct (wf_peer _ _ Hwf x rx plx i l us Hx Hplx Hi) as (r0 & pl0 & Hr0 & <- & _ & Hpl0 & Hback).
  assert (r0 = r) as -> by congruence. assert (pl0 = pl) as -> by congruence.
  split; [done|]. apply peer_at_Some. eauto.
Qed.

Lemma reached_slot x rx :
  h !! x = Some rx → peer_at pl (name rx) = Some x →
  ∃ plx us, peers_list rx = Some plx ∧ peers plx !! name r = Some (mkPeer (Some l) us) ∧ type rx ≠ type r ∧ slots_inj plx.
Proof.
  intros Hx [us Hi]%peer_at_Some.
  destruct (wf_peer _ _ Hwf l r pl (name rx) x us Hl Hpl Hi) as (rx' & plx & Hx' & _ & Ht & Hplx & Hback).
  assert (rx' = rx) as -> by congruence. exists plx, us. split_and!; try done. by eapply wf_slots_inj.
Qed.

(** Only bandwidths change. *)
Lemma perf_step_view : same_view step_view h h'.
Proof.
  intros x. destruct (decide (x = l)) as [->|Hx]; [by rewrite lookup_perf_self, Hl|].
  unfold h', perf_heap. rewrite (proj2 (Z.eqb_neq _ _) Hne), lookup_insert_ne by done.
  destruct (perf_pushes r); [|done]. rewrite lookup_upd_peers. destruct (h !! x); [|done].
  cbn. unfold peer_turn. by case_decide.
Qed.

Lemma perf_settled : prods_settled h'.
Proof.
  destruct Hbal as (_ & Hset & _). intros x rx' k' Hx Hk.
  destruct (same_view_lookup _ _ _ _ _ perf_step_view Hx) as (rx & Hrx & [= -> He _]).
  destruct (ext_view_prod _ _ _ He Hk) as (k & Hk0 & _). by eapply Hset.
Qed.

Lemma perf_acc_other q c : q ≠ l → Acc h' q c = Acc h q c.
Proof.
  intros Hq. unfold Acc. destruct (h' !! q) as [rq'|] eqn:Hq'.
  - destruct (lookup_perf q rq' Hq Hq') as (rq & -> & ->). by case_decide.
  - pose proof (perf_step_view q) as Hv. rewrite Hq' in Hv. by destruct (h !! q).
Qed.

Lemma perf_cons_bw_other c : c ≠ l → cons_bw h' c = cons_bw h c.
Proof.
  intros Hq. unfold cons_bw. destruct (h' !! c) as [rc'|] eqn:Hc'.
  - destruct (lookup_perf c rc' Hq Hc') as (rc & -> & ->). by case_decide.
  - pose proof (perf_step_view c) as Hv. rewrite Hc' in Hv. by destruct (h !! c).
Qed.

(** The account of a consumer. *)
Lemma perf_balanced c rc' k' plc :
  h' !! c = Some rc' → ext rc' = Cons k' → peers_list rc' = Some plc →
  cons_balanced (Acc h') c rc' k' plc.
Proof.
  intros Hc Hk Hplc. destruct Hbal as (Hok & _ & _).
  destruct (same_view_lookup _ _ _ _ _ perf_step_view Hc) as (rc & Hrc & [= Hst He Hpc]).
  destruct (ext_view_cons _ _ _ He Hk) as (k & Hk0 & Hu). rewrite Hplc in Hpc. symmetry in Hpc.
  destruct (Hok c rc k plc Hrc Hk0 Hpc) as (H1 & H2 & H3).
  assert (users (Acc h') c plc = users (Acc h) c plc) as Eu.
  { apply slot_sum_ext. intros i q us _. by apply same_view_active, perf_step_view. }
  unfold cons_balanced. rewrite Eu, Hu. split; [done|]. split; [|unfold idle in *; by rewrite Hst].
  destruct (decide (reached c rc)) as [Hr|Hr].
  - assert (c ≠ l) as Hcl.
    { intros ->. destruct Hr as [_ Hr]. destruct (reached_slot l rc Hrc Hr) as (? & ? & _ & _ & Ht & _). congruence. }
    destruct (lookup_perf c rc' Hcl Hc) as (rc0 & Hrc0 & ->). assert (rc0 = rc) as -> by congruence.
    rewrite decide_True by done. destruct Hr as [Hpush Hr].
    destruct (reached_slot c rc Hrc Hr) as (plx & us & Hplx & Hslot & Ht & Hinj).
    assert (plx = plc) as -> by congruence. cbn. rewrite H2. unfold load.
    rewrite (slot_sum_shift (λ p, weight (Acc h p c)) (λ p, weight (Acc h' p c)) (peers plc) (name r) l us Hslot).
    + pose proof (wf_type_of_ext _ _ Hwf c rc Hrc) as Htc. rewrite Hk0 in Htc.
      unfold perf_pushes in Hpush. destruct (type r); [|congruence].
      unfold Acc. cbn beta. rewrite Hl, lookup_perf_self. change (active (with_max_bw bw r)) with (active r).
      by rewrite Hpush.
    + intros j q us' Hj Hq. rewrite perf_acc_other; [done|]. intros ->. by eapply Hj, Hinj.
  - assert (needed_bw rc' = needed_bw rc) as ->.
    { destruct (decide (c = l)) as [->|Hcl].
      - rewrite lookup_perf_self in Hc. by simplify_eq.
      - destruct (lookup_perf c rc' Hcl Hc) as (rc0 & Hrc0 & ->). assert (rc0 = rc) as -> by congruence.
        by rewrite decide_False. }
    rewrite H2. f_equal. apply slot_sum_ext. intros i q us Hi. destruct (decide (q = l)) as [->|Hq]; [|by rewrite perf_acc_other].
    destruct (peer_reached c rc plc i us Hrc Hpc Hi) as [_ Hpa].
    unfold Acc. rewrite Hl, lookup_perf_self. change (active (with_max_bw bw r)) with (active r).
    assert (active r = false) as ->; [|done]. destruct (reached_slot c rc Hrc Hpa) as (_ & _ & _ & _ & Ht & _).
    pose proof (wf_type_of_ext _ _ Hwf c rc Hrc) as Htc. rewrite Hk0 in Htc.
    destruct (active r) eqn:Hact; [|done]. destruct Hr. split; [|done]. unfold perf_pushes.
    by destruct (type r).
Qed.

Lemma perf_prod_bw : prod_bw h'.
Proof.
  intros q rq' k' plq Hq Hk Hplq. destruct Hbal as (_ & _ & Hb).
  destruct (same_view_lookup _ _ _ _ _ perf_step_view Hq) as (rq & Hrq & [= _ He Hpc]).
  destruct (ext_view_prod _ _ _ He Hk) as (k & Hk0 & _). rewrite Hplq in Hpc. symmetry in Hpc.
  pose proof (Hb q rq k plq Hrq Hk0 Hpc) as Hbw.
  pose proof (wf_type_of_ext _ _ Hwf q rq Hrq) as Htq. rewrite Hk0 in Htq.
  destruct (decide (peer_at pl (name rq) = Some q)) as [Hpa|Hpa].
  - destruct (reached_slot q rq Hrq Hpa) as (plx & us & Hplx & Hslot & Ht & Hinj).
    assert (plx = plq) as -> by congruence.
    assert (q ≠ l) as Hql by (intros ->; congruence).
    destruct (lookup_perf q rq' Hql Hq) as (rq0 & Hrq0 & ->). assert (rq0 = rq) as -> by congruence.
    rewrite decide_True.
    2: { split; [|done]. unfold perf_pushes. destruct (type r); [congruence|done]. }
    cbn. rewrite Hbw.
    rewrite (slot_sum_shift (cons_bw h) (cons_bw h') (peers plq) (name r) l us Hslot).
    + assert (cons_bw h l = max_bw r) as -> by (unfold cons_bw; by rewrite Hl).
      assert (cons_bw h' l = bw) as -> by (unfold cons_bw; by rewrite lookup_perf_self). done.
    + intros j x us' Hj Hx. rewrite perf_cons_bw_other; [done|]. intros ->. by eapply Hj, Hinj.
  - assert (needed_bw rq' = needed_bw rq) as ->.
    { destruct (decide (q = l)) as [->|Hql].
      - rewrite lookup_perf_self in Hq. by simplify_eq.
      - destruct (lookup_perf q rq' Hql Hq) as (rq0 & Hrq0 & ->). assert (rq0 = rq) as -> by congruence.
        rewrite decide_False; [done|]. by intros [_ ?]. }
    rewrite Hbw. f_equal. apply slot_sum_ext. intros i x us Hi. rewrite perf_cons_bw_other; [done|].
    intros ->. destruct (peer_reached q rq plq i us Hrq Hpc Hi) as [_ ?]. done.
Qed.
End Perf.

Lemma perf_kept K h l r pl bw (h' := perf_heap l r pl bw h) :
  wf K (statics h) → h !! l = Some r → peers_list r = Some pl → balanced h →
  balanced h' ∧ (in_step h → in_step h').
Proof.
  intros Hwf Hl Hpl Hbal. subst h'. destruct (decide (bw = max_bw r)) as [->|Hne].
  { unfold perf_heap. by rewrite Z.eqb_refl. }
  split.
  - split; [|split].
    + intros c rc' k' plc. by apply (perf_balanced K).
    + by apply perf_settled.
    + by apply (perf_prod_bw K).
  - apply in_step_view. by apply perf_step_view.
Qed.
