(* ===== verification/RmDepsAcct.v ===== *)
(** * IPA resource manager: dependencies keep the accounts *)

From S2P Require Import Prelude.
From S2P Require Import RmTypes.
From S2P Require Import RmPeers.
From S2P Require Import RmCore.
From S2P Require Import RmResource.
From S2P Require Import RmConsumer.
From S2P Require Import RmWf.
From S2P Require Import RmProducer.
From S2P Require Import RmOps.
From S2P Require Import RmSafety.
From S2P Require Import RmAcct.
From S2P Require Import RmRequest.
From S2P Require Import RmSteps.

(** A list whose slot [i] changes, where neither content counts. *)
Lemma cons_ok_relist A h d r k pl i q q' r' k' d0 :
  cons_ok A h → h !! d = Some r → ext r = Cons k → peers_list r = Some pl →
  peers pl !! i = Some q →
  slot_val (λ p, counted (A p d)) q = 0 → slot_val (λ p, weight (A p d)) q = 0 →
  slot_val (λ p, counted (A p d)) q' = 0 → slot_val (λ p, weight (A p d)) q' = 0 →
  ext r' = Cons k' → peers_list r' = Some (set_slot i q' d0 pl) → usage_count k' = usage_count k →
  needed_bw r' = needed_bw r → state r' = state r →
  cons_ok A (<[d := r']> h).
Proof.
  intros Hok Hd Hk Hpl Hi H1 H2 H3 H4 Hk' Hpl' Hu Hbw Hst c rc kc plc Hc Hkc Hplc.
  destruct (decide (c = d)) as [->|Hne].
  - rewrite lookup_insert_eq in Hc. injection Hc as <-.
    assert (kc = k') as -> by congruence. assert (plc = set_slot i q' d0 pl) as -> by congruence.
    destruct (Hok d r k pl Hd Hk Hpl) as (Hu0 & Hl0 & Hidle).
    assert (users A d (set_slot i q' d0 pl) = users A d pl ∧ load A d (set_slot i q' d0 pl) = load A d pl) as [Eu El].
    { unfold users, load, set_slot. cbn [peers].
      rewrite !(slot_sum_insert _ _ _ q) by done. rewrite H1, H2, H3, H4. lia. }
    unfold cons_balanced. rewrite Eu, El, Hu, Hbw. unfold idle. rewrite Hst. by split_and!.
  - rewrite lookup_insert_ne in Hc by done. by apply (Hok c rc).
Qed.

(** The producers' side: the bandwidth of [p] moves with its list. *)
Lemma prod_bw_relist h h' p d rp rp' kp rd plp i q q' d0 :
  prod_bw h → h !! p = Some rp → ext rp = Prod kp → peers_list rp = Some plp →
  peers plp !! i = Some q → h' !! p = Some rp' → peers_list rp' = Some (set_slot i q' d0 plp) →
  needed_bw rp' = u32 (needed_bw rp - slot_val (cons_bw h) q + slot_val (cons_bw h) q') →
  h !! d = Some rd →
  (∀ c, cons_bw h' c = cons_bw h c) →
  (∀ x rx kx, x ≠ p → h' !! x = Some rx → ext rx = Prod kx → h !! x = Some rx) →
  prod_bw h'.
Proof.
  intros Hb Hp Hkp Hplp Hi Hp' Hplp' Hbw Hd Hcb Hoth x rx kx plx Hx Hkx Hplx.
  rewrite (slot_sum_ext _ (cons_bw h)) by (intros; apply Hcb).
  destruct (decide (x = p)) as [->|Hne].
  - assert (rx = rp') as -> by congruence. assert (plx = set_slot i q' d0 plp) as -> by congruence.
    unfold set_slot. cbn [peers]. rewrite (slot_sum_insert _ _ _ q) by done.
    rewrite Hbw, (Hb p rp kp plp Hp Hkp Hplp). rewrite <- Z.add_opp_r, <- !Z.add_assoc, u32_add_l. f_equal. lia.
  - apply (Hb x rx kx); [by eapply Hoth|done..].
Qed.

Section DepsAcct.
Context (E : rm_env) (K : control) (HE : no_errors E).
Context (h : rheap) (p d : loc) (rp rd : ipa_rm_resource) (kp : resource_prod) (kd : resource_cons).
Context (plp pld : ipa_rm_peers_list).
Hypotheses (Hwf : wf K (statics h)) (Hp : h !! p = Some rp) (Hd : h !! d = Some rd).
Hypotheses (Hkp : ext rp = Prod kp) (Hkd : ext rd = Cons kd).
Hypotheses (Hplp : peers_list rp = Some plp) (Hpld : peers_list rd = Some pld).
Hypothesis Hbal : balanced h.

Let Hne : p ≠ d := deps_ne h p d rp rd kp kd Hp Hd Hkp Hkd.

(** Heaps that change at [p] and [d] only. *)
Lemma pair_other rp' rd' x : x ≠ p → x ≠ d → <[d := rd']> (<[p := rp']> h) !! x = h !! x.
Proof. intros. by rewrite !lookup_insert_ne. Qed.
Lemma pair_p rp' rd' : <[d := rd']> (<[p := rp']> h) !! p = Some rp'.
Proof using Hp Hd Hkp Hkd. by rewrite lookup_insert_ne, lookup_insert_eq by (by apply not_eq_sym). Qed.

Lemma pair_prod rp' rd' kd' x rx kx :
  ext rd' = Cons kd' → x ≠ p → <[d := rd']> (<[p := rp']> h) !! x = Some rx → ext rx = Prod kx →
  h !! x = Some rx ∧ x ≠ d.
Proof.
  intros Hkd' Hxp Hx Hkx. destruct (decide (x = d)) as [->|].
  - rewrite lookup_insert_eq in Hx. congruence.
  - by rewrite pair_other in Hx.
Qed.

Lemma pair_cons rp' rd' kp' x rx kx :
  ext rp' = Prod kp' → x ≠ d → <[d := rd']> (<[p := rp']> h) !! x = Some rx → ext rx = Cons kx →
  h !! x = Some rx ∧ x ≠ p.
Proof.
  intros Hkp' Hxd Hx Hkx. destruct (decide (x = p)) as [->|].
  - rewrite pair_p in Hx. congruence.
  - by rewrite pair_other in Hx.
Qed.

Lemma pair_settled rp' rd' kd' :
  ext rd' = Cons kd' → state rp' ≠ IPA_RM_RELEASE_IN_PROGRESS → prods_settled (<[d := rd']> (<[p := rp']> h)).
Proof.
  intros Hkd' Hst x rx kx Hx Hkx. destruct (decide (x = p)) as [->|Hxp].
  - rewrite pair_p in Hx. congruence.
  - destruct (pair_prod rp' rd' kd' x rx kx Hkd' Hxp Hx Hkx) as [Hx0 _].
    destruct Hbal as (_ & Hset & _). by eapply Hset.
Qed.

Lemma pair_cons_bw rp' rd' c :
  max_bw rp' = max_bw rp → max_bw rd' = max_bw rd →
  cons_bw (<[d := rd']> (<[p := rp']> h)) c = cons_bw h c.
Proof.
  intros Hmp Hmd. unfold cons_bw. destruct (decide (c = d)) as [->|]; [by rewrite lookup_insert_eq, Hd|].
  destruct (decide (c = p)) as [->|]; [by rewrite pair_p, Hp|]. by rewrite pair_other.
Qed.

(** ** A new link *)

Context (us b : bool).

Let rp1 : ipa_rm_resource := link_prod d rd us plp rp.
Let rd1 : ipa_rm_resource := link_cons p rp us pld rd.
Let h1 : rheap := <[d := rd1]> (<[p := rp1]> h).
Let A1 : account := acc_set (Acc h) p d None.

(** The producer is in no slot of the consumer yet. *)
Lemma not_linked_yet i us' :
  peers plp !! name rd = Some (mkPeer None b) → peers pld !! i ≠ Some (mkPeer (Some p) us').
Proof.
  intros Hslot Hi. destruct (wf_slot_producer K h d rd kd pld i p us' Hwf Hd Hkd Hpld Hi)
    as (r & k & pl & Hp' & _ & Hpl' & _ & Hback). congruence.
Qed.

Lemma link_cons_ok : peers plp !! name rd = Some (mkPeer None b) → cons_ok A1 h1.
Proof.
  intros Hslot. destruct Hbal as (Hok & _ & _).
  destruct (deps_slots K h p d rp rd plp pld Hwf Hp Hd Hplp Hpld)
    as [(b0 & H1 & _)|(b0 & b1 & H1 & H2)]; [congruence|].
  unfold h1. eapply (cons_ok_relist A1 (<[p := rp1]> h) d rd kd pld (name rp) (mkPeer None b1)
    (mkPeer (Some p) us) rd1 kd 1); try done.
  - eapply cons_ok_prod; [done|]. eapply cons_ok_ext; [|exact Hok].
    intros c r k pl i q us' Hc Hk Hpl Hi. unfold A1. symmetry. apply acc_set_ne.
    destruct (decide (q = p)) as [->|]; [right|by left]. intros ->.
    assert (pl = pld) as -> by congruence. by eapply not_linked_yet.
  - by rewrite lookup_insert_ne.
  - unfold slot_val. cbn. unfold A1. by rewrite acc_set_eq.
  - unfold slot_val. cbn. unfold A1. by rewrite acc_set_eq.
Qed.

Lemma link_wf : peers plp !! name rd = Some (mkPeer None b) → wf K (statics h1).
Proof. intros Hslot. by eapply (wf_linked K h p d rp rd kp kd plp pld Hwf Hp Hd Hkp Hkd Hplp Hpld us b). Qed.

(** What the producers wait for is not affected. *)
Lemma link_is_waiting c rc kc : h !! c = Some rc → ext rc = Cons kc → is_waiting h1 c = is_waiting h c.
Proof.
  intros Hc Hkc. unfold is_waiting, h1. destruct (decide (c = d)) as [->|].
  - rewrite lookup_insert_eq, Hd. done.
  - rewrite pair_other, Hc; [done| |done]. intros ->. congruence.
Qed.

Lemma link_waiting_p :
  peers plp !! name rd = Some (mkPeer None b) →
  waiting A1 h1 p (set_slot (name rd) (mkPeer (Some d) us) 1 plp) = waiting (Acc h) h p plp.
Proof.
  intros Hslot. unfold waiting, set_slot. cbn [peers].
  rewrite (slot_sum_insert _ _ _ (mkPeer None b)) by done. unfold slot_val. cbn [peer_resource].
  rewrite (slot_sum_ext _ (wait_val (Acc h) h p)).
  - unfold wait_val at 2. unfold A1. rewrite acc_set_eq. cbn. lia.
  - intros i c us' Hi. destruct (wf_slot_consumer K h p rp kp plp i c us' Hwf Hp Hkp Hplp Hi)
      as (rc & kc & plc & Hc & Hkc & _ & Hn & _).
    unfold wait_val. rewrite (link_is_waiting c rc kc) by done. unfold A1. rewrite acc_set_ne; [done|].
    right. intros ->. assert (rc = rd) as -> by congruence. rewrite Hn in Hslot. congruence.
Qed.

Lemma link_sync :
  peers plp !! name rd = Some (mkPeer None b) → in_step h → sync_but (eq p) A1 h1.
Proof.
  intros Hslot [Hsync _] q rq kq plq Hqp Hq Hkq Hplq.
  destruct (pair_prod rp1 rd1 kd q rq kq Hkd ltac:(congruence) Hq Hkq) as [Hq0 Hqd].
  pose proof (Hsync q rq kq plq ltac:(intros []) Hq0 Hkq Hplq) as Hs. unfold prod_sync in *.
  rewrite (waiting_ext A1 (Acc h) h1 h q plq); [done|]. intros i c us' Hi.
  destruct (wf_slot_consumer K h q rq kq plq i c us' Hwf Hq0 Hkq Hplq Hi) as (rc & kc & plc & Hc & Hkc & _).
  unfold wait_val. rewrite (link_is_waiting c rc kc) by done. unfold A1. by rewrite acc_set_ne by (left; congruence).
Qed.

Lemma link_prod_bw h' rp' rd' kd' :
  peers plp !! name rd = Some (mkPeer None b) → h' = <[d := rd']> (<[p := rp']> h) →
  static_of rp' = static_of rp1 → needed_bw rp' = needed_bw rp1 → ext rd' = Cons kd' →
  static_of rd' = static_of rd1 → prod_bw h'.
Proof.
  intros Hslot -> Hsp Hbw Hkd' Hsd. destruct Hbal as (_ & _ & Hb).
  eapply (prod_bw_relist h _ p d rp rp' kp rd plp (name rd) (mkPeer None b) (mkPeer (Some d) us) 1); try done.
  - apply pair_p.
  - by rewrite (static_peers _ _ Hsp).
  - rewrite Hbw. unfold slot_val, cons_bw. cbn. rewrite Hd. f_equal. lia.
  - intros c. apply pair_cons_bw; [by injection Hsp|by injection Hsd].
  - intros x rx kx Hxp Hx Hkx. by eapply pair_prod.
Qed.

(** The accounts of the linked memory, where the new user is counted with [v]. *)
Lemma link_agree h2 v rp2 :
  peers plp !! name rd = Some (mkPeer None b) → statics h2 = statics h1 →
  (∀ q rq kq, q ≠ p → h2 !! q = Some rq → ext rq = Prod kq → h !! q = Some rq) →
  (if active rp2 then Some (max_bw rp2) else None) = v →
  (active rp = true → v = Some (max_bw rp)) → (active rp = false → v = None) →
  agree h2 (acc_set A1 p d v) (Acc (<[p := rp2]> h2)).
Proof.
  intros Hslot HS Hoth Hv Hv1 Hv2 c rc kc plc i q us' Hc Hkc Hplc Hi.
  assert (wf K (statics h2)) as Hwf2 by (rewrite HS; by apply link_wf).
  destruct (wf_slot_producer K h2 c rc kc plc i q us' Hwf2 Hc Hkc Hplc Hi) as (rq & kq & _ & Hq & Hkq & _).
  destruct (decide (q = p)) as [->|Hqp].
  - assert (acc_set A1 p d v p c = v) as ->.
    { destruct (decide (c = d)) as [->|]; [by rewrite acc_set_eq|].
      rewrite acc_set_ne by by right. unfold A1. rewrite acc_set_ne by by right.
      unfold Acc. rewrite Hp. destruct (active rp); [by rewrite Hv1|by rewrite Hv2]. }
    unfold Acc. by rewrite lookup_insert_eq.
  - rewrite acc_set_ne by by left. unfold A1. rewrite acc_set_ne by by left. unfold Acc.
    rewrite lookup_insert_ne, Hq by done. by rewrite (Hoth q rq kq).
Qed.

Lemma link_linked_at : peers plp !! name rd = Some (mkPeer None b) → linked_at h1 p d.
Proof.
  intros Hslot.
  destruct (deps_slots K h p d rp rd plp pld Hwf Hp Hd Hplp Hpld)
    as [(b0 & H1 & _)|(b0 & b1 & H1 & H2)]; [congruence|].
  exists rp1, (set_slot (name rd) (mkPeer (Some d) us) 1 plp), rd1,
    (set_slot (name rp) (mkPeer (Some p) us) 1 pld), us.
  split_and!; [apply pair_p|done|apply lookup_insert_eq|done|..]; unfold set_slot; cbn [peers];
    (rewrite list_lookup_insert_eq; [done|by eapply lookup_lt_Some]).
Qed.

Lemma add_idle_kept (h' := h1) :
  peers plp !! name rd = Some (mkPeer None b) → active rp = false →
  balanced h' ∧ (in_step h → in_step h').
Proof.
  intros Hslot Hact. subst h'.
  assert (agree h1 (acc_set A1 p d None) (Acc (<[p := rp1]> h1))) as Hag.
  { eapply link_agree; try done; [|change (active rp1) with (active rp); by rewrite Hact|congruence].
    intros q rq kq Hqp Hq Hkq. by destruct (pair_prod rp1 rd1 kd q rq kq Hkd Hqp Hq Hkq). }
  assert (<[p := rp1]> h1 = h1) as Hid by (apply insert_id, pair_p).
  assert (agree h1 A1 (Acc h1)) as Hag1.
  { rewrite Hid in Hag. intros c rc kc plc i q us' Hc Hkc Hplc Hi.
    rewrite <- (Hag c rc kc plc i q us' Hc Hkc Hplc Hi). symmetry. unfold acc_set at 1.
    case_decide as Hqc; [|done]. destruct Hqc as [-> ->]. symmetry. apply acc_set_eq. }
  split; [split; [|split]|].
  - eapply cons_ok_agree; [done|]. by apply link_cons_ok.
  - eapply pair_settled; [done|]. destruct Hbal as (_ & Hset & _). by apply (Hset p rp kp).
  - by eapply (link_prod_bw _ rp1 rd1 kd).
  - intros Hstep. split.
    + eapply sync_but_agree; [by apply link_wf|done|]. intros q rq kq plq _ Hq Hkq Hplq.
      destruct (decide (q = p)) as [->|Hqp]; [|by apply (link_sync Hslot Hstep q rq kq plq)].
      assert (rq = rp1) as -> by (pose proof (pair_p rp1 rd1) as HX; fold h1 in HX; congruence). intros Ha.
      change (active rp1) with (active rp) in Ha. congruence.
    + intros q rq kq Hq Hkq Hrq. destruct (decide (q = p)) as [->|Hqp].
      * assert (rq = rp1) as -> by (pose proof (pair_p rp1 rd1) as HX; fold h1 in HX; congruence). change (state rp1) with (state rp) in Hrq.
        unfold active in Hact. by rewrite Hrq in Hact.
      * destruct (pair_prod rp1 rd1 kd q rq kq Hkd Hqp Hq Hkq) as [Hq0 _].
        destruct Hstep as [_ Hpos]. by apply (Hpos q rq kq).
Qed.

(** The request of an active producer is a turn of [RmProducer.v] in the linked memory. *)
Lemma add_busy_turn res rd' kd' h2 :
  ext rd' = Cons kd' → static_of rd' = static_of rd1 →
  request_outcome E (max_bw rp) true false rd1 kd res rd' kd' →
  h2 = <[d := rd']> (if res =? - EINPROGRESS then <[p := with_pending_bump rp1 kp]> h1 else h1) →
  request_turn E p h1 d res h2.
Proof.
  intros Hkd' Hsd Hout ->. exists rp1, kp, rd1, kd, rd', kd'.
  split_and!; [apply pair_p|done|apply lookup_insert_eq|done|by apply not_eq_sym|done|done|exact Hout|done].
Qed.

Lemma add_busy_step res rd' kd' rp2 h2 k2 (A2 := acc_set A1 p d (Some (max_bw rp1)))
    (h' := <[d := rd']> (<[p := rp2]> h)) :
  peers plp !! name rd = Some (mkPeer None b) → active rp = true → ext rd' = Cons kd' →
  request_turn E p h1 d res h2 → h' = <[p := rp2]> h2 →
  rp2 = (if res =? - EINPROGRESS
         then with_state IPA_RM_REQUEST_IN_PROGRESS (with_pending_bump rp1 kp) else rp1) →
  h2 !! p = Some (with_ext (Prod k2) rp1) → ext rp2 = Prod k2 →
  peers_list rp2 = Some (set_slot (name rd) (mkPeer (Some d) us) 1 plp) →
  agree h2 A2 (Acc (<[p := rp2]> h2)) → in_step h → in_step h'.
Proof.
  intros Hslot Hact Hkd' Ht Hh' Hrp2 Hp2 Hk2 Hpl2 Hag Hstep.
  pose proof (link_wf Hslot) as Hwf1. pose proof (link_linked_at Hslot) as Hlk.
  assert (h1 !! p = Some rp1) as Hp1 by apply pair_p.
  assert (A1 p d = None) as HA1 by (unfold A1; apply acc_set_eq).
  assert (wf K (statics h2)) as Hwf2 by by rewrite (request_turn_statics _ _ _ _ _ _ Ht).
  destruct Hstep as [Hsync0 Hpos0].
  pose proof (Hsync0 p rp kp plp ltac:(intros []) Hp Hkp Hplp Hact) as [Hpend0 Hgr0].
  pose proof (waiting_nonneg (Acc h) h p plp) as Hnn.
  destruct (request_turn_sync K h1 Hwf1 E HE (eq p) A1 p d res h2 rp1 kp _ Ht Hlk Hp1 Hkp eq_refl HA1
    (link_cons_ok Hslot) eq_refl (link_sync Hslot (conj Hsync0 Hpos0))) as (Hs2 & k2' & Hp2' & Heq & Hres & Hz).
  assert (k2' = k2) as ->.
  { rewrite Hp2 in Hp2'. by injection Hp2'. }
  rewrite (link_waiting_p Hslot), Hpend0 in Heq. fold A2 in Hs2, Heq.
  split.
  - rewrite Hh'. eapply (settle_sync K h2 Hwf2 A2 p _ k2 rp2 k2); try done.
    intros _. split; [lia|]. intros Hg. subst rp2. destruct Hres as [-> | ->]; ztests.
    + change (state rp1) with (state rp) in Hg. specialize (Hgr0 Hg). specialize (Hz eq_refl). lia.
    + discriminate Hg.
  - intros q rq kq Hq Hkq Hrq. destruct (decide (q = p)) as [->|Hqp].
    + rewrite Hh', lookup_insert_eq in Hq. injection Hq as <-. assert (kq = k2) as -> by congruence.
      subst rp2. destruct Hres as [-> | ->]; ztests.
      * change (state rp1) with (state rp) in Hrq. rewrite Hz by done. by apply (Hpos0 p rp).
      * cbn in Hk2. injection Hk2 as <-. cbn. lia.
    + destruct (pair_prod rp2 rd' kd' q rq kq Hkd' Hqp Hq Hkq) as [Hq0 _]. by apply (Hpos0 q rq).
Qed.

Lemma add_busy_kept res rd' kd' rp2 (h' := <[d := rd']> (<[p := rp2]> h)) :
  peers plp !! name rd = Some (mkPeer None b) → active rp = true →
  ext rd' = Cons kd' → static_of rd' = static_of rd1 →
  request_outcome E (max_bw rp) true false rd1 kd res rd' kd' →
  rp2 = (if res =? - EINPROGRESS
         then with_state IPA_RM_REQUEST_IN_PROGRESS (with_pending_bump rp1 kp) else rp1) →
  balanced h' ∧ (in_step h → in_step h').
Proof.
  intros Hslot Hact Hkd' Hsd Hout Hrp2.
  set (h2 := <[d := rd']> (if res =? - EINPROGRESS then <[p := with_pending_bump rp1 kp]> h1 else h1)).
  pose proof (add_busy_turn res rd' kd' h2 Hkd' Hsd Hout eq_refl) as Ht.
  assert (h' = <[p := rp2]> h2) as Hh'.
  { apply map_eq. intros x. unfold h', h2, h1.
    destruct (decide (x = p)) as [->|Hxp];
      [by rewrite lookup_insert_eq, lookup_insert_ne, lookup_insert_eq by (by apply not_eq_sym)|].
    rewrite (lookup_insert_ne _ p) by done. destruct (decide (x = d)) as [->|Hxd];
      [by rewrite !lookup_insert_eq|].
    rewrite !(lookup_insert_ne _ d) by done. destruct (res =? _); by rewrite !lookup_insert_ne by done. }
  pose proof (link_wf Hslot) as Hwf1. pose proof (link_linked_at Hslot) as Hlk.
  assert (h1 !! p = Some rp1) as Hp1 by apply pair_p.
  assert (A1 p d = None) as HA1 by (unfold A1; apply acc_set_eq).
  pose proof (request_turn_statics _ _ _ _ _ _ Ht) as HS2.
  assert (wf K (statics h2)) as Hwf2 by by rewrite HS2.
  pose proof (request_turn_acct K h1 Hwf1 E HE A1 p d res h2 rp1 Ht Hlk Hp1 HA1 (link_cons_ok Hslot)) as Hok2.
  set (A2 := acc_set A1 p d (Some (max_bw rp1))) in *.
  destruct (request_turn_prod E p h1 d res h2 rp1 kp Ht Hp1 Hkp) as [k2 Hp2].
  assert (ext rp2 = Prod k2 ∧ static_of rp2 = static_of rp1 ∧ needed_bw rp2 = needed_bw rp1 ∧ active rp2 = true)
    as (Hk2 & Hst2 & Hbw2 & Hact2).
  { pose proof Hp2 as Hp2'. unfold h2 in Hp2'. rewrite lookup_insert_ne in Hp2' by (by apply not_eq_sym).
    subst rp2. destruct (res =? - EINPROGRESS).
    - rewrite lookup_insert_eq in Hp2'. assert (k2 = with_pending_request (pending_request kp + 1) kp) as ->.
      { by injection Hp2' as [= ->]. }
      split_and!; try done. by apply (static_same_prod rp1 kp).
    - rewrite Hp1 in Hp2'. assert (k2 = kp) as ->; [|done].
      assert (rp1 = with_ext (Prod k2) rp1) as HX by congruence. apply (f_equal ext) in HX.
      change (ext rp = Prod k2) in HX. congruence. }
  assert (∀ q rq kq, q ≠ p → h' !! q = Some rq → ext rq = Prod kq → h !! q = Some rq) as Hoth.
  { intros q rq kq Hqp Hq Hkq. by destruct (pair_prod rp2 rd' kd' q rq kq Hkd' Hqp Hq Hkq). }
  assert (agree h2 A2 (Acc (<[p := rp2]> h2))) as Hag.
  { eapply link_agree; try done; [|..|congruence].
    - intros q rq kq Hqp Hq. apply (Hoth q rq kq Hqp). by rewrite Hh', lookup_insert_ne.
    - rewrite Hact2. by assert (max_bw rp2 = max_bw rp1) as -> by by injection Hst2. }
  assert (peers_list rp2 = Some (set_slot (name rd) (mkPeer (Some d) us) 1 plp)) as Hpl2
    by by rewrite (static_peers _ _ Hst2).
  split; [split; [|split]|].
  - rewrite Hh'. eapply (settle_cons_ok h2 A2 p (with_ext (Prod k2) rp1) k2 rp2 k2); try done.
  - eapply pair_settled; [done|]. unfold active in Hact2. by destruct (state rp2).
  - by eapply (link_prod_bw h' rp2 rd' kd').
  - intros Hstep. by apply (add_busy_step res rd' kd' rp2 h2 k2).
Qed.

(** ** A removed link *)

Let A' : account := acc_set (Acc h) p d None.
Let rd0 : ipa_rm_resource := with_peers (unlink (name rp) pld) rd.

(** The consumer after the removal: one user less, if the producer was one. *)
Lemma unlink_consumer rd' :
  peers plp !! name rd = Some (mkPeer (Some d) us) →
  (if active rp then ∃ res kd', ext rd' = Cons kd' ∧ static_of rd' = static_of rd0 ∧
     release_outcome E (max_bw rp) true rd0 kd res rd' kd' else rd' = rd0) →
  cons_ok A' (<[d := rd']> h) ∧ static_of rd' = static_of rd0 ∧ (∃ kd', ext rd' = Cons kd') ∧
  (∀ q, q ≠ p → linked_at h q d → Acc h q d ≠ None → state rd' = state rd).
Proof.
  intros Hslot Hrd. destruct Hbal as (Hok & _ & _).
  destruct (deps_slots K h p d rp rd plp pld Hwf Hp Hd Hplp Hpld)
    as [(b0 & H1 & H2)|(b0 & b1 & H1 & H2)]; [|congruence].
  destruct (active rp) eqn:Hact.
  - destruct Hrd as (res & kd' & Hkd' & Hst & Hout).
    assert (Acc h p d = Some (max_bw rp)) as HA by (unfold Acc; by rewrite Hp, Hact).
    set (rdL := with_peers pld rd').
    destruct (release_balanced K h Hwf E (Acc h) p d rd kd pld (name rp) b0 (max_bw rp) res rdL kd')
      as [Hok' Hsee]; try done.
    split_and!; [|done|by exists kd'|].
    + rewrite <- (insert_insert_eq h d rd' rdL).
      eapply (cons_ok_relist A' _ d rdL kd' pld (name rp) (mkPeer (Some p) b0) no_peer rd' kd' (-1)); try done.
      * by rewrite lookup_insert_eq.
      * unfold slot_val. cbn. unfold A'. by rewrite acc_set_eq.
      * unfold slot_val. cbn. unfold A'. by rewrite acc_set_eq.
      * by rewrite (static_peers _ _ Hst).
    + intros q Hq Hlk HAq. apply (Hsee). 
      destruct (other_user K h Hwf (Acc h) p d rd kd pld None q (name rp) b0) as (Hu & _ & _); try done.
      rewrite HA in Hu. cbn in Hu. lia.
  - subst rd'. split_and!; [|done|by exists kd|done].
    assert (Acc h p d = None) as HA by (unfold Acc; by rewrite Hp, Hact).
    eapply (cons_ok_relist A' _ d rd kd pld (name rp) (mkPeer (Some p) b0) no_peer rd0 kd (-1)); try done.
    + eapply cons_ok_ext; [|exact Hok]. intros c r k pl i q us' _ _ _ _. unfold A', acc_set.
      case_decide as Hd'; [|done]. by destruct Hd' as [-> ->].
    + unfold slot_val. cbn. unfold A'. by rewrite acc_set_eq.
    + unfold slot_val. cbn. unfold A'. by rewrite acc_set_eq.
Qed.

Section unlinked.
Context (rpF rd' : ipa_rm_resource) (kF : resource_prod).
Let h' : rheap := <[d := rd']> (<[p := rpF]> h).
Hypothesis Hslot : peers plp !! name rd = Some (mkPeer (Some d) us).
Hypothesis HstF : static_of rpF = static_of (with_peers (unlink (name rd) plp) rp).
Hypotheses (HkF : ext rpF = Prod kF) (HactF : active rpF = active rp).
Hypothesis HsetF : state rpF ≠ IPA_RM_RELEASE_IN_PROGRESS.
Hypothesis HbwF : needed_bw rpF = u32 (needed_bw rp - max_bw rd).
Hypothesis Hok' : cons_ok A' (<[d := rd']> h).
Hypothesis Hst' : static_of rd' = static_of rd0.
Hypothesis Hkd' : ∃ kd', ext rd' = Cons kd'.
Hypothesis Hsee : ∀ q, q ≠ p → linked_at h q d → Acc h q d ≠ None → state rd' = state rd.

Lemma unlink_wf : wf K (statics h').
Proof. by eapply (wf_unlinked K h p d rp rd kp kd plp pld Hwf Hp Hd Hkp Hkd Hplp Hpld us). Qed.

Lemma unlink_agree : agree h' A' (Acc h').
Proof.
  destruct Hkd' as [kd' Hk']. intros c rc kc plc i q us' Hc Hkc Hplc Hi.
  destruct (wf_slot_producer K h' c rc kc plc i q us' unlink_wf Hc Hkc Hplc Hi)
    as (rq & kq & plq & Hq & Hkq & Hplq & _ & Hback).
  destruct (decide (q = p)) as [->|Hqp].
  - assert (rq = rpF) as -> by (pose proof (pair_p rpF rd') as HX; fold h' in HX; congruence).
    assert (c ≠ d) as Hcd.
    { intros ->. unfold h' in Hc. rewrite lookup_insert_eq in Hc. injection Hc as <-.
      rewrite (static_peers _ _ HstF) in Hplq. cbn in Hplq. injection Hplq as <-.
      assert (name rd' = name rd) as Hn by by injection Hst'. rewrite Hn in Hback.
      unfold unlink, set_slot in Hback. cbn [peers] in Hback.
      rewrite list_lookup_insert_eq in Hback by (by eapply lookup_lt_Some). done. }
    unfold A'. rewrite acc_set_ne by by right. unfold Acc. rewrite Hp, Hq, HactF.
    by assert (max_bw rpF = max_bw rp) as -> by by injection HstF.
  - destruct (pair_prod rpF rd' kd' q rq kq Hk' Hqp Hq Hkq) as [Hq0 Hqd].
    unfold A'. rewrite acc_set_ne by by left. unfold Acc. by rewrite Hq, Hq0.
Qed.

Lemma unlink_balanced : balanced h'.
Proof.
  destruct Hkd' as [kd' Hk'], Hbal as (Hok & Hset & Hb). split; [|split].
  - eapply cons_ok_agree; [apply unlink_agree|]. unfold h'. rewrite insert_insert_ne by done.
    by eapply cons_ok_prod.
  - by eapply pair_settled.
  - eapply (prod_bw_relist h _ p d rp rpF kp rd plp (name rd) (mkPeer (Some d) us) no_peer (-1)); try done.
    + apply pair_p.
    + by rewrite (static_peers _ _ HstF).
    + rewrite HbwF. unfold slot_val, cons_bw. cbn. rewrite Hd. f_equal. lia.
    + intros c. apply pair_cons_bw; [by injection HstF|by injection Hst'].
    + intros x rx kx Hxp Hx Hkx. by destruct (pair_prod rpF rd' kd' x rx kx Hk' Hxp Hx Hkx).
Qed.

(** What a producer waits for at the consumers it keeps. *)
Lemma unlink_wait_val q c rq kq plq i us' :
  h !! q = Some rq → ext rq = Prod kq → peers_list rq = Some plq →
  peers plq !! i = Some (mkPeer (Some c) us') → (q = p → c ≠ d) →
  wait_val (Acc h') h' q c = wait_val (Acc h) h q c.
Proof.
  intros Hq Hkq Hplq Hi Hqd. destruct Hkd' as [kd' Hk'].
  destruct (wf_slot_consumer K h q rq kq plq i c us' Hwf Hq Hkq Hplq Hi) as (rc & kc & plc & Hc & Hkc & Hplc & Hn & Hback).
  assert (counted (Acc h' q c) = counted (Acc h q c)) as Hcount.
  { unfold Acc, h'. destruct (decide (q = p)) as [->|Hqp].
    - rewrite pair_p, Hp, HactF. by destruct (active rp).
    - rewrite pair_other; [done|done|]. intros ->. congruence. }
  unfold wait_val. rewrite Hcount. destruct (decide (c = d)) as [->|Hcd].
  - destruct (Acc h q d) as [w|] eqn:HA; [|done]. do 2 f_equal. unfold is_waiting, h'.
    rewrite lookup_insert_eq, Hd. rewrite (Hsee q); [done|by intros Hqp; apply Hqd| |by rewrite HA].
    by destruct (wf_linked_at K h q rq plq i d us' Hwf Hq Hplq Hi).
  - do 2 f_equal. unfold is_waiting, h'. rewrite pair_other; [done| |done]. intros ->. congruence.
Qed.

Lemma unlink_waiting_p :
  waiting (Acc h') h' p (unlink (name rd) plp) = waiting (Acc h) h p plp - wait_val (Acc h) h p d.
Proof.
  unfold waiting, unlink, set_slot. cbn [peers].
  rewrite (slot_sum_insert _ _ _ (mkPeer (Some d) us)) by done. unfold slot_val. cbn [peer_resource no_peer].
  rewrite Z.add_0_r.
  rewrite (slot_sum_one (wait_val (Acc h) h p) (wait_val (Acc h') h' p) (peers plp) (name rd) d us Hslot); [lia|].
  intros j c us' Hj Hi. symmetry. eapply unlink_wait_val; try done. intros _ ->.
  eapply Hj, (wf_slots_inj K h p rp plp Hwf Hp Hplp); done.
Qed.

Hypothesis Hpend : active rp = true →
  pending_request kp = waiting (Acc h) h p plp → (state rp = IPA_RM_GRANTED → waiting (Acc h) h p plp = 0) →
  (state rp = IPA_RM_REQUEST_IN_PROGRESS → 0 < pending_request kp) →
  pending_request kF = waiting (Acc h) h p plp - wait_val (Acc h) h p d ∧
  (state rpF = IPA_RM_GRANTED → pending_request kF = 0) ∧
  (state rpF = IPA_RM_REQUEST_IN_PROGRESS → pending_request kF ≠ 0).

Lemma unlink_in_step : in_step h → in_step h'.
Proof.
  intros [Hsync Hpos]. destruct Hkd' as [kd' Hk'].
  assert (h' !! p = Some rpF) as HpF by apply pair_p.
  assert (active rp = true →
    pending_request kF = waiting (Acc h') h' p (unlink (name rd) plp) ∧
    (state rpF = IPA_RM_GRANTED → pending_request kF = 0) ∧
    (state rpF = IPA_RM_REQUEST_IN_PROGRESS → pending_request kF ≠ 0)) as HF.
  { intros Hact. destruct (Hsync p rp kp plp ltac:(intros []) Hp Hkp Hplp Hact) as [H1 H2].
    rewrite unlink_waiting_p. apply Hpend; auto. intros; by apply (Hpos p rp). }
  split.
  - intros q rq kq plq _ Hq Hkq Hplq Hact. destruct (decide (q = p)) as [->|Hqp].
    + assert (rq = rpF) as -> by congruence. assert (kq = kF) as -> by congruence.
      rewrite (static_peers _ _ HstF) in Hplq. injection Hplq as <-. rewrite HactF in Hact.
      destruct (HF Hact) as (Hw & Hg & _). split; [done|]. intros HG. rewrite <- Hw. auto.
    + destruct (pair_prod rpF rd' kd' q rq kq Hk' Hqp Hq Hkq) as [Hq0 _].
      rewrite (waiting_ext _ (Acc h) h' h q plq); [by apply (Hsync q rq kq plq); [intros []|..]|].
      intros i c us' Hi. by eapply unlink_wait_val.
  - intros q rq kq Hq Hkq Hrq. destruct (decide (q = p)) as [->|Hqp].
    + assert (rq = rpF) as -> by congruence. assert (kq = kF) as -> by congruence.
      assert (active rp = true) as Hact by (rewrite <- HactF; unfold active; by rewrite Hrq).
      destruct (HF Hact) as (Hw & _ & Hr). specialize (Hr Hrq).
      pose proof (waiting_nonneg (Acc h') h' p (unlink (name rd) plp)). lia.
    + destruct (pair_prod rpF rd' kd' q rq kq Hk' Hqp Hq Hkq) as [Hq0 _]. by apply (Hpos q rq).
Qed.
End unlinked.

(** A pending dependency may go at any time; a granted one not while the producer waits. *)
Definition removable : Prop :=
  state rp = IPA_RM_REQUEST_IN_PROGRESS → state rd = IPA_RM_REQUEST_IN_PROGRESS.

Lemma delete_kept h2 :
  peers plp !! name rd = Some (mkPeer (Some d) us) →
  delete_outcome E p d rp kp plp rd kd pld h h2 →
  balanced h2 ∧ (removable → in_step h → in_step h2).
Proof.
  intros Hslot Hout. pose proof Hbal as (_ & Hset & _). pose proof (Hset p rp kp Hp Hkp) as Hsp.
  unfold delete_outcome in Hout. set (rpb := with_needed_bw _ rp) in *.
  set (n := if 0 <? pending_request kp then pending_request kp - 1 else pending_request kp).
  set (kF := if bool_decide (state rp = IPA_RM_REQUEST_IN_PROGRESS) then with_pending_request n kp else kp).
  assert (prod_after_delete (state rd) rpb kp =
    (match state rp with
     | IPA_RM_REQUEST_IN_PROGRESS =>
         let r1 := with_ext (Prod (with_pending_request n kp)) rpb in
         if bool_decide (state rd = IPA_RM_REQUEST_IN_PROGRESS) && (n =? 0)
         then with_state IPA_RM_GRANTED r1 else r1
     | _ => rpb end, active rp)) as Hafter.
  { unfold prod_after_delete, active. change (state rpb) with (state rp).
    destruct (state rp) eqn:Est; try done. }
  rewrite Hafter in Hout. destruct Hout as (rd' & -> & Hrd').
  set (rpF := with_peers _ _).
  destruct (unlink_consumer rd' Hslot Hrd') as (Hok' & Hst' & Hkd' & Hsee).
  assert (ext rpF = Prod kF ∧ active rpF = active rp ∧ state rpF ≠ IPA_RM_RELEASE_IN_PROGRESS ∧
    static_of rpF = static_of (with_peers (unlink (name rd) plp) rp) ∧
    needed_bw rpF = u32 (needed_bw rp - max_bw rd)) as (HkF & HactF & HsetF & HstF & HbwF).
  { subst rpF kF. unfold active. destruct (state rp) eqn:Est; try done.
    - cbn. rewrite Est. by split_and!.
    - rewrite (bool_decide_eq_true_2 (IPA_RM_REQUEST_IN_PROGRESS = IPA_RM_REQUEST_IN_PROGRESS)) by done.
      destruct (bool_decide (state rd = _) && (n =? 0)); cbn; rewrite ?Est; split_and!; try done;
        unfold static_of; cbn; by rewrite Hkp.
    - cbn. rewrite Est. by split_and!. }
  split; [by eapply unlink_balanced|]. intros Hrem Hstep. eapply unlink_in_step; try done.
  intros Hact Hpend Hgr Hpos.
  assert (wait_val (Acc h) h p d = b2z (bool_decide (state rd = IPA_RM_REQUEST_IN_PROGRESS))) as Hwd.
  { unfold wait_val, Acc, is_waiting. rewrite Hp, Hd, Hact. cbn. lia. }
  rewrite Hwd.
  assert (b2z (bool_decide (state rd = IPA_RM_REQUEST_IN_PROGRESS)) ≤ waiting (Acc h) h p plp) as Hge.
  { rewrite <- Hwd. eapply slot_sum_ge; [|done]. intros c. apply wait_val_nonneg. }
  rewrite Hpend in Hpos by done. subst rpF kF. unfold active in Hact. destruct (state rp) eqn:Est; try done.
  - assert (bool_decide (state rd = IPA_RM_REQUEST_IN_PROGRESS) = true) as Hrd
      by (apply bool_decide_eq_true_2, Hrem; unfold removable in Hrem; auto).
    rewrite Hrd in *. subst n. specialize (Hpos eq_refl). rewrite Hpend.
    rewrite (bool_decide_eq_true_2 (IPA_RM_REQUEST_IN_PROGRESS = _)) by done.
    rewrite (proj2 (Z.ltb_lt 0 (waiting _ _ _ _))) by lia. cbn [b2z] in *.
    destruct (waiting _ _ _ _ - 1 =? 0) eqn:E0; cbn; rewrite ?Est; split_and!; try done; lia.
  - specialize (Hgr eq_refl). cbn [b2z] in *.
    rewrite (bool_decide_eq_false_2 (IPA_RM_GRANTED = _)) by done. rewrite Hpend. unfold b2z in *.
    destruct (bool_decide (state rd = IPA_RM_REQUEST_IN_PROGRESS)); (split_and!; [lia|lia|by cbn; rewrite Est]).
Qed.
End DepsAcct.
