(* ===== verification/RmInv.v ===== *)
(** * IPA resource manager: the accounts hold in every execution

    The accounts of the consumers and the pending counters of the producers, as an
    invariant of all the steps of the module, when the drivers report no error. *)

From S2P Require Import Prelude.
From S2P Require Import RmTypes.
From S2P Require Import RmPeers.
From S2P Require Import RmCore.
From S2P Require Import RmResource.
From S2P Require Import Rm.
From S2P Require Import RmConsumer.
From S2P Require Import RmWf.
From S2P Require Import RmProducer.
From S2P Require Import RmOps.
From S2P Require Import RmSafety.
From S2P Require Import RmAcct.
From S2P Require Import RmRequest.
From S2P Require Import RmSteps.
From S2P Require Import RmDepsAcct.

(** A delayed release gives back no bandwidth and no usage: it ends a timed wake-up. *)
Definition no_debt (K : control) : Prop :=
  Forall (λ d, dr_needed_bw d = 0 ∧ dr_dec_usage_count d = false) (k_delayed K).

(** [P] tells whether the execution is prudent, see below. *)
Definition in_order (P : Prop) (s : rm_state) : Prop :=
  ∃ K h, mem K h s ∧ wf K (statics h) ∧ balanced h ∧ (P → in_step h) ∧ no_debt K.

(** ** Creation *)

Lemma create_kept K h cp l (r := new_res cp) :
  wf K (statics h) → h !! l = None → balanced h →
  balanced (<[l := r]> h) ∧ (in_step h → in_step (<[l := r]> h)).
Proof.
  intros Hwf Hl (Hok & Hset & Hb). subst r.
  assert (∀ x rx plx i q us, h !! x = Some rx → peers_list rx = Some plx →
    peers plx !! i = Some (mkPeer (Some q) us) → q ≠ l) as Hold.
  { intros x rx plx i q us Hx Hplx Hi ->. destruct (wf_peer _ _ Hwf x rx plx i l us Hx Hplx Hi) as (r' & _ & Hr' & _). congruence. }
  assert (∀ i q us, peers empty_list !! i ≠ Some (mkPeer (Some q) us)) as Hempty.
  { intros i q us Hi. pose proof (peer_at_empty i) as Hn. unfold peer_at in Hn. by rewrite Hi in Hn. }
  assert (∀ q c, q ≠ l → Acc (<[l := new_res cp]> h) q c = Acc h q c) as HA.
  { intros q c Hq. unfold Acc. by rewrite lookup_insert_ne. }
  assert (∀ x r, <[l := new_res cp]> h !! x = Some r → x = l ∧ r = new_res cp ∨ x ≠ l ∧ h !! x = Some r) as Hcase.
  { intros x r Hx. destruct (decide (x = l)) as [->|Hne]; [left|right].
    - rewrite lookup_insert_eq in Hx. by injection Hx.
    - by rewrite lookup_insert_ne in Hx. }
  split; [split; [|split]|].
  - intros c r k pl Hc Hk Hpl. destruct (Hcase c r Hc) as [[-> ->]|[Hne Hc0]].
    + injection Hpl as <-. cbn in Hk. unfold new_ext in Hk.
      destruct (is_prod_params cp); [done|]. injection Hk as <-.
      destruct (users_0 (Acc (<[l := new_res cp]> h)) l empty_list) as [Hu Hlo].
      { intros i q us Hi. by destruct (Hempty i q us). }
      unfold cons_balanced. rewrite Hu, Hlo. by split_and!.
    + destruct (Hok c r k pl Hc0 Hk Hpl) as (H1 & H2 & H3). unfold cons_balanced.
      destruct (users_ext (Acc (<[l := new_res cp]> h)) (Acc h) c pl) as [-> ->]; [|by split_and!].
      intros i q us Hi. apply HA. by eapply Hold.
  - intros q r k Hq Hk. destruct (Hcase q r Hq) as [[-> ->]|[Hne Hq0]]; [done|by eapply Hset].
  - intros q r k pl Hq Hk Hpl. destruct (Hcase q r Hq) as [[-> ->]|[Hne Hq0]]; [by injection Hpl as <-|].
    rewrite (Hb q r k pl Hq0 Hk Hpl). f_equal. apply slot_sum_ext. intros i c us Hi. unfold cons_bw.
    rewrite lookup_insert_ne; [done|]. apply not_eq_sym. by eapply Hold.
  - intros [Hsync Hpos]. split.
    + intros q r k pl _ Hq Hk Hpl Hact. destruct (Hcase q r Hq) as [[-> ->]|[Hne Hq0]]; [done|].
      rewrite (waiting_ext _ (Acc h) _ h q pl); [by apply (Hsync q r k pl ltac:(intros []))|].
      intros i c us Hi. unfold wait_val. rewrite HA by done. do 2 f_equal. unfold is_waiting.
      rewrite lookup_insert_ne; [done|]. apply not_eq_sym. by eapply Hold.
    + intros q r k Hq Hk Hst. destruct (Hcase q r Hq) as [[-> ->]|[Hne Hq0]]; [done|by eapply Hpos].
Qed.

(** ** The resource that goes *)

Lemma erase_kept K h l r pl :
  wf K (statics h) → h !! l = Some r → peers_list r = Some pl → (∀ j, peer_at pl j = None) →
  balanced h → balanced (delete l h) ∧ (in_step h → in_step (delete l h)).
Proof.
  intros Hwf Hl Hpl Hnone (Hok & Hset & Hb).
  assert (∀ x rx plx i q us, h !! x = Some rx → peers_list rx = Some plx →
    peers plx !! i = Some (mkPeer (Some q) us) → q ≠ l) as Hold.
  { intros x rx plx i q us Hx Hplx Hi ->. destruct (wf_peer _ _ Hwf x rx plx i l us Hx Hplx Hi) as (r' & pl' & Hr' & _ & _ & Hpl' & Hback).
    assert (pl' = pl) as -> by congruence. specialize (Hnone (name rx)). unfold peer_at in Hnone. by rewrite Hback in Hnone. }
  assert (∀ q c, q ≠ l → Acc (delete l h) q c = Acc h q c) as HA.
  { intros q c Hq. unfold Acc. by rewrite lookup_delete_ne. }
  split; [split; [|split]|].
  - intros c r1 k pl1 [Hne Hc]%lookup_delete_Some Hk Hpl1.
    destruct (Hok c r1 k pl1 Hc Hk Hpl1) as (H1 & H2 & H3). unfold cons_balanced.
    destruct (users_ext (Acc (delete l h)) (Acc h) c pl1) as [-> ->]; [|by split_and!].
    intros i q us Hi. apply HA. by eapply Hold.
  - intros q r1 k [Hne Hq]%lookup_delete_Some Hk. by eapply Hset.
  - intros q r1 k pl1 [Hne Hq]%lookup_delete_Some Hk Hpl1.
    rewrite (Hb q r1 k pl1 Hq Hk Hpl1). f_equal. apply slot_sum_ext. intros i c us Hi. unfold cons_bw.
    rewrite lookup_delete_ne; [done|]. apply not_eq_sym. by eapply Hold.
  - intros [Hsync Hpos]. split.
    + intros q r1 k pl1 _ [Hne Hq]%lookup_delete_Some Hk Hpl1 Hact.
      rewrite (waiting_ext _ (Acc h) _ h q pl1); [by apply (Hsync q r1 k pl1 ltac:(intros []))|].
      intros i c us Hi. unfold wait_val. rewrite HA by done. do 2 f_equal. unfold is_waiting.
      rewrite lookup_delete_ne; [done|]. apply not_eq_sym. by eapply Hold.
    + intros q r1 k [Hne Hq]%lookup_delete_Some Hk Hst. by eapply Hpos.
Qed.

(** ** Prudent deletions

    A producer that waits for consumers must not lose a dependency it does not wait for. *)

Definition prudent (l : rm_label) (s : rm_state) : Prop :=
  match l with
  | StepApi (ApiDeleteDependency n d _) =>
      ∀ p rp c rc, heap s !! p = Some rp → name rp = n → heap s !! c = Some rc → name rc = d →
        state rp = IPA_RM_REQUEST_IN_PROGRESS → state rc = IPA_RM_REQUEST_IN_PROGRESS
  | StepApi (ApiDelete n) =>
      ∀ p rp k pl, heap s !! p = Some rp → ext rp = Prod k → peers_list rp = Some pl →
        name rp = n ∨ peer_at pl n ≠ None → state rp ≠ IPA_RM_REQUEST_IN_PROGRESS
  | _ => True
  end.

(** No producer that the deletion of [n] touches is waiting. *)
Definition calm (n : ipa_rm_resource_name) (h : rheap) : Prop :=
  ∀ p rp k pl, h !! p = Some rp → ext rp = Prod k → peers_list rp = Some pl →
    name rp = n ∨ peer_at pl n ≠ None → state rp ≠ IPA_RM_REQUEST_IN_PROGRESS.

Lemma prod_after_delete_calm std rp kp :
  state rp ≠ IPA_RM_REQUEST_IN_PROGRESS → state (prod_after_delete std rp kp).1 ≠ IPA_RM_REQUEST_IN_PROGRESS.
Proof.
  unfold prod_after_delete. intros Hst. destruct (state rp) eqn:Est; cbn; try congruence.
  case_match; cbn; congruence.
Qed.

Lemma delete_turn_calm E K l n i h h' r :
  wf K (statics h) → h !! l = Some r → name r = n → calm n h → delete_turn E l i h h' → calm n h'.
Proof.
  intros Hwf Hl Hn Hcalm (p & d & rp & kp & plp & rd & kd & pld & us & Hp & Hkp & Hplp & Hd & Hkd & Hpld & Hslot & Hwho & Hout).
  assert (d ≠ p) as Hne by (intros ->; congruence).
  assert (state rp ≠ IPA_RM_REQUEST_IN_PROGRESS) as Hcp.
  { eapply Hcalm; try done. destruct Hwho as [[-> _]|[-> _]].
    - left. congruence.
    - right. assert (rd = r) as -> by congruence. rewrite <- Hn. unfold peer_at. by rewrite Hslot. }
  pose proof Hout as Hshape. apply delete_outcome_shape in Hshape as (rpF & rdF & Heq & Hsp & Hsd); [|done..].
  unfold delete_outcome in Hout.
  pose proof (prod_after_delete_calm (state rd) (with_needed_bw (u32 (needed_bw rp - max_bw rd)) rp) kp Hcp) as Hcp'.
  destruct (prod_after_delete _ _ _) as [rp1 rel]. destruct Hout as (rd' & Heq' & _). cbn in Hcp'.
  assert (rdF = rd') as ->.
  { pose proof (lookup_insert_eq (<[p:=rpF]> h) d rdF) as HX. rewrite <- Heq, Heq', lookup_insert_eq in HX. congruence. }
  intros q rq k pl Hq Hk Hpl Hnear. rewrite Heq' in Hq. destruct (decide (q = d)) as [->|Hqd].
  { rewrite lookup_insert_eq in Hq. injection Hq as <-. exfalso.
    destruct (static_ext_prod rd' (with_peers (unlink (name rp) pld) rd) k) as [k0 Hk0]; [done..|]. cbn in Hk0. congruence. }
  rewrite lookup_insert_ne in Hq by done. destruct (decide (q = p)) as [->|Hqp].
  - rewrite lookup_insert_eq in Hq. by injection Hq as <-.
  - rewrite lookup_insert_ne in Hq by done. by eapply Hcalm.
Qed.

Section Inv.
Context (E : rm_env) (HE : no_errors E) (P : Prop).

Definition keeps {A} (m : RM A) : Prop :=
  ∀ K h s, mem K h s → wf K (statics h) → balanced h → (P → in_step h) → no_debt K →
    wp m (λ _ s', in_order P s') s.

Lemma in_order_intro K h s :
  mem K h s → wf K (statics h) → balanced h → (P → in_step h) → no_debt K → in_order P s.
Proof. intros. by exists K, h. Qed.

Lemma kept_in_order K h s' φ :
  wf K (statics h) → (P → in_step h) → no_debt K → kept K h s' φ → in_order P s'.
Proof.
  intros Hwf Hstep Hd (h' & Hs' & HS & Hb & Hst & _). exists K, h'. rewrite HS. split_and!; auto.
Qed.

Lemma keeps_const {A} (v : A) : keeps (mret v).
Proof. intros K h s ? ? ? ? ?. apply wp_ret. by eapply in_order_intro. Qed.

Lemma keeps_unless_null m : keeps m → keeps (unless_null m).
Proof. intros Hm K h s Hs ? ? ? ?. eapply wp_unless_null; [done|]. by eapply Hm. Qed.

Lemma keeps_bind_const {A B} (m : RM A) (v : B) : keeps m → keeps (m ;; mret v).
Proof.
  intros Hm K h s Hs ? ? ? ?. apply wp_bind. eapply wp_mono; [by eapply Hm|].
  intros a s' Hs'. by apply wp_ret.
Qed.

Lemma keeps_quiet {A} (m : RM A) φ : (∀ K h, wf K (statics h) → quietly m φ K h) → keeps m.
Proof.
  intros Hm K h s Hs Hwf Hb Hst Hd. eapply wp_quiet; [done|by apply Hm|].
  intros a s' Hs' _. by eapply in_order_intro.
Qed.

(** The lookup that starts most operations. *)
Lemma keeps_with_resource n err (f : loc → RM Z) :
  (∀ K h l r pl s, mem K h s → wf K (statics h) → balanced h → (P → in_step h) → no_debt K →
     h !! l = Some r → name r = n → peers_list r = Some pl → wp (f l) (λ _ s', in_order P s') s) →
  keeps (with_resource n err f).
Proof.
  intros Hf K h s Hs Hwf Hb Hst Hd. eapply wp_with_resource; [done..|intros _; by eapply in_order_intro|].
  intros l r pl _ Hl Hn Hpl _. by eapply Hf.
Qed.

(** ** Exported operations *)

Lemma keeps_create cp : params_ok cp → keeps (ipa_rm_create_resource E (Some cp)).
Proof.
  intros Hcp K h s Hs Hwf Hb Hst Hd. eapply wp_mono; [by apply (wp_create_resource E K h)|]. cbn beta.
  intros res s' [(_ & [Hs'|Hs'])|(_ & Hres & Hfresh & Hok & Hs')]; [by eapply in_order_intro|..].
  - eapply in_order_intro; try done. destruct Hwf as [H1 H2 H3]. split; [done| |done].
    intros l st Hl. destruct (H2 l st Hl) as (? & ? & ?). split_and!; [done| |done]. cbn. lia.
  - destruct (create_kept K h cp (k_next K) Hwf Hfresh Hb) as [Hb' Hst'].
    eapply in_order_intro; [done| |done|by auto|done]. rewrite statics_insert.
    apply (wf_create K (statics h) (static_of (new_res cp))); try done. by eapply mem_table_length.
Qed.

Lemma delete_turn_kept l i h h' K :
  wf K (statics h) → balanced h → delete_turn E l i h h' →
  balanced h' ∧
  (∀ n r, h !! l = Some r → name r = n → calm n h → in_step h → in_step h').
Proof.
  intros Hwf Hb Ht. pose proof Ht as (p & d & rp & kp & plp & rd & kd & pld & us & Hp & Hkp & Hplp & Hd & Hkd & Hpld & Hslot & Hwho & Hout).
  destruct (delete_kept E K h p d rp rd kp kd plp pld Hwf Hp Hd Hkp Hkd Hplp Hpld Hb us h' Hslot Hout) as [Hb' Hst'].
  split; [done|]. intros n r Hl Hn Hcalm. apply Hst'. intros Hreq. exfalso. revert Hreq.
  eapply Hcalm; try done. destruct Hwho as [[-> _]|[-> _]].
  - left. congruence.
  - right. assert (rd = r) as -> by congruence. rewrite <- Hn. unfold peer_at. by rewrite Hslot.
Qed.

Lemma keeps_delete n K h s :
  mem K h s → wf K (statics h) → balanced h → (P → in_step h) → no_debt K → (P → calm n h) →
  wp (ipa_rm_delete_resource E n) (λ _ s', in_order P s') s.
Proof.
  intros Hs Hwf Hb Hst Hd Hcalm.
  eapply wp_mono; [apply (wp_delete_resource E K h n (λ l _ h', balanced h' ∧
    (∃ r, h' !! l = Some r ∧ name r = n) ∧ (P → in_step h' ∧ calm n h'))); try done|].
  - intros l r Hl Hn. split_and!; eauto.
  - intros l i h1 h2 Hwf1 (Hb1 & (r & Hl1 & Hn) & HP) Ht.
    destruct (delete_turn_kept l i h1 h2 K Hwf1 Hb1 Ht) as [Hb2 Hst2].
    split_and!; [done| |].
    + destruct (delete_turn_self E K l i h1 h2 r Hwf1 Hl1 Ht) as (r' & Hl2 & Hn2). exists r'. by rewrite Hn2.
    + intros HP0. destruct (HP HP0) as [Hst1 Hcalm1]. split; [by eapply Hst2|by eapply delete_turn_calm].
  - cbn beta. intros res s' [(_ & _ & Hs')|(_ & l & h' & r' & pl' & Hwf' & Hl' & <- & Hpl' & Hnone & (Hb' & _ & HP) & Hlen & Hs')];
      [by eapply in_order_intro|].
    destruct (erase_kept K h' l r' pl' Hwf' Hl' Hpl' Hnone Hb') as [Hb2 Hst2].
    eapply in_order_intro; [done| |done|by intros ?; apply Hst2, HP|done]. rewrite statics_delete.
    apply (wf_delete K (statics h') l (static_of r') pl'); try done. by apply lookup_statics.
Qed.

(** Two lookups by kind of name. *)
Lemma keeps_two n d (f : loc → loc → RM Z) K h s :
  mem K h s → wf K (statics h) → balanced h → (P → in_step h) → no_debt K →
  (∀ p c rp kp plp rc kc plc, h !! p = Some rp → name rp = n → ext rp = Prod kp → peers_list rp = Some plp →
     h !! c = Some rc → name rc = d → ext rc = Cons kc → peers_list rc = Some plc →
     wp (f p c) (λ _ s', in_order P s') s) →
  wp (if negb (IPA_RM_RESORCE_IS_PROD n) || negb (IPA_RM_RESORCE_IS_CONS d) then mret (- EINVAL)
      else with_resource n (- EINVAL) (λ p, with_resource d (- EINVAL) (f p))) (λ _ s', in_order P s') s.
Proof.
  intros Hs Hwf Hb Hst Hdel Hf.
  destruct (IPA_RM_RESORCE_IS_PROD n) eqn:Hn, (IPA_RM_RESORCE_IS_CONS d) eqn:Hd; cbn [negb orb];
    try (apply wp_ret; by eapply in_order_intro).
  eapply wp_with_resource; [done..|intros _; by eapply in_order_intro|].
  intros p rp plp _ Hp Hnp Hplp _.
  eapply wp_with_resource; [done..|intros _; by eapply in_order_intro|].
  intros c rc plc _ Hc Hnc Hplc _.
  destruct (wf_prod_named _ _ _ _ _ Hwf Hp Hnp Hn) as (kp & ? & _).
  destruct (wf_cons_named _ _ _ _ _ Hwf Hc Hnc Hd) as (kc & ? & _). by eapply Hf.
Qed.

Lemma keeps_add_dependency n d us : keeps (_ipa_rm_add_dependency E n d us).
Proof.
  apply keeps_unless_null. intros K h s Hs Hwf Hb Hst Hdel. eapply keeps_two; [done..|].
  intros p c rp kp plp rc kc plc Hp _ Hkp Hplp Hc _ Hkc Hplc.
  eapply wp_mono; [by apply (wp_add_dependency E K h p c rp rc kp kc plp plc)|].
  cbn beta. intros res s' (h' & Hs' & [(_ & -> & _)|(Hout & b & Hb1)]); [by eapply in_order_intro|].
  pose proof (add_outcome_wf E K h p c rp rc kp kc plp plc Hwf Hp Hc Hkp Hkc Hplp Hplc us b res h' Hb1 Hout) as Hwf'.
  unfold add_outcome in Hout. destruct (active rp) eqn:Hact.
  - destruct Hout as (rd' & kd' & Hkd' & Hsd & Hro & ->).
    destruct (add_busy_kept E K HE h p c rp rc kp kc plp plc Hwf Hp Hc Hkp Hkc Hplp Hplc Hb us b res rd' kd'
      (if res =? - EINPROGRESS
       then with_state IPA_RM_REQUEST_IN_PROGRESS (with_pending_bump (link_prod c rc us plp rp) kp)
       else link_prod c rc us plp rp)) as [Hb' Hst']; try done.
    eapply in_order_intro; [done..|by auto|done].
  - destruct Hout as (-> & ->).
    destruct (add_idle_kept K h p c rp rc kp kc plp plc Hwf Hp Hc Hkp Hkc Hplp Hplc Hb us b) as [Hb' Hst']; [done..|].
    eapply in_order_intro; [done..|by auto|done].
Qed.

Lemma keeps_delete_dependency n d us K h s :
  mem K h s → wf K (statics h) → balanced h → (P → in_step h) → no_debt K →
  (P → prudent (StepApi (ApiDeleteDependency n d us)) s) →
  wp (_ipa_rm_delete_dependency E n d us) (λ _ s', in_order P s') s.
Proof.
  intros Hs Hwf Hb Hst Hdel Hprudent. unfold _ipa_rm_delete_dependency. eapply wp_unless_null; [done|].
  eapply keeps_two; [done..|]. intros p c rp kp plp rc kc plc Hp Hnp Hkp Hplp Hc Hnc Hkc Hplc.
  eapply wp_mono; [by apply (wp_delete_dependency E K h p c rp rc kp kc plp plc)|].
  cbn beta. intros res s' (h' & Hs' & [(_ & -> & _)|[(_ & -> & _)|(_ & Hslot & Hout)]]);
    [by eapply in_order_intro..|].
  destruct (delete_kept E K h p c rp rc kp kc plp plc Hwf Hp Hc Hkp Hkc Hplp Hplc Hb us h' Hslot Hout) as [Hb' Hst'].
  destruct (delete_outcome_shape E h p c rp rc kp kc plp plc Hkp h' Hout) as (rp' & rd' & -> & ? & ?).
  eapply in_order_intro; [done|by eapply wf_unlinked|done| |done]. intros HP. apply Hst'; [|by auto].
  specialize (Hprudent HP). destruct Hs as (ctx & Hs & _). rewrite Hs in Hprudent. intros Hreq. by eapply (Hprudent p rp c rc).
Qed.

(** A request and a release by a client. *)
Lemma keeps_named_producer n err (f : loc → RM Z) :
  (∀ K h l r k pl s, mem K h s → wf K (statics h) → balanced h → (P → in_step h) → no_debt K →
     h !! l = Some r → ext r = Prod k → listeners_ok (event_listeners k) → peers_list r = Some pl →
     wp (f l) (λ _ s', in_order P s') s) →
  keeps (if negb (IPA_RM_RESORCE_IS_PROD n) then mret (- EINVAL) else with_resource n err f).
Proof.
  intros Hf. destruct (IPA_RM_RESORCE_IS_PROD n) eqn:Hn; cbn [negb]; [|apply keeps_const].
  apply keeps_with_resource. intros K h l r pl s Hs Hwf Hb Hst Hd Hl Hnm Hpl.
  destruct (wf_prod_named _ _ _ _ _ Hwf Hl Hnm Hn) as (k & Hk & Hls). by eapply Hf.
Qed.

Lemma keeps_request n : keeps (ipa_rm_request_resource E n).
Proof.
  apply keeps_unless_null, keeps_named_producer. intros K h p r k pl s Hs Hwf Hb Hst Hd Hp Hk _ Hpl.
  destruct (active r) eqn:Hact.
  - unfold ipa_rm_resource_producer_request. do 2 rm_step. cbn beta. unfold active in Hact.
    destruct (state r); try done; apply wp_ret; by eapply in_order_intro.
  - eapply wp_mono; [by apply (wp_producer_request_kept E K HE h p r k pl)|].
    cbn beta. intros res s'. by apply kept_in_order.
Qed.

Lemma keeps_release n : keeps (ipa_rm_release_resource E n).
Proof.
  apply keeps_unless_null, keeps_named_producer. intros K h p r k pl s Hs Hwf Hb Hst Hd Hp Hk _ Hpl.
  destruct (active r) eqn:Hact.
  - eapply wp_mono; [by apply (wp_producer_release_kept E K h p r k pl)|].
    cbn beta. intros res s'. by apply kept_in_order.
  - unfold ipa_rm_resource_producer_release. do 2 rm_step. cbn beta. unfold active in Hact.
    destruct (state r); try done; apply wp_ret; by eapply in_order_intro.
Qed.

Lemma keeps_request_with_timer n : keeps (ipa_rm_request_resource_with_timer E n).
Proof.
  unfold ipa_rm_request_resource_with_timer.
  destruct (IPA_RM_RESORCE_IS_CONS n) eqn:Hn; cbn [negb]; [|apply keeps_const].
  apply keeps_with_resource. intros K h c r pl s Hs Hwf Hb Hst Hd Hc Hnm Hpl.
  destruct (wf_cons_named _ _ _ _ _ Hwf Hc Hnm Hn) as (k & Hk & _). rm_step.
  eapply wp_mono; [by apply (wp_timed_request_kept E K HE h c r k)|]. cbn beta.
  intros res s1 (h1 & Hs1 & HS1 & Hb1 & Hst1 & _ & r1 & -> & _).
  assert (wf K (statics (<[c := r1]> h))) as Hwf1 by by rewrite HS1.
  destruct (_ && _); [apply wp_ret; eapply in_order_intro; try done; by auto|].
  do 2 rm_step. destruct a; cbn [negb]; [|apply wp_ret; eapply in_order_intro; try done; by auto].
  do 3 rm_step. unfold schedule_delayed_work. wp_steps.
  destruct H as (ctx & -> & Hsz & Ht).
  exists (mkControl (k_table K) (k_next K) (k_delayed K ++ [mkDelayed (name r1) 0 false])), (<[c := r1]> h).
  split; [by exists ctx|]. split; [destruct Hwf1 as [H1 H2 H3]; by split|].
  split_and!; [done|by auto|]. apply Forall_app; split; [done|]. by constructor.
Qed.

Lemma keeps_listeners K h p r k ls s :
  mem K (<[p := with_ext (Prod (with_listeners ls k)) r]> h) s → wf K (statics h) → balanced h →
  (P → in_step h) → no_debt K → h !! p = Some r → ext r = Prod k → listeners_ok ls → in_order P s.
Proof.
  intros Hs Hwf Hb Hst Hd Hp Hk Hls. pose proof (listeners_view h p r k ls Hp Hk) as Hv.
  eapply in_order_intro; [done|by apply wf_listeners|by eapply balanced_view| |done].
  intros HP. eapply in_step_view; [by apply same_view_core|auto].
Qed.

Lemma keeps_register n rp : rp_notify_cb rp ≠ None → keeps (ipa_rm_register E n rp).
Proof.
  intros Hcb. apply keeps_named_producer. intros K h p r k pl s Hs Hwf Hb Hst Hd Hp Hk Hls _.
  eapply wp_mono; [by eapply wp_register|]. cbn beta.
  intros res s' [(_ & _ & Hs')|[(_ & _ & Hs')|(_ & _ & Hs')]]; [by eapply in_order_intro..|].
  eapply keeps_listeners; try done. by constructor.
Qed.

Lemma keeps_deregister n rp : keeps (ipa_rm_deregister n rp).
Proof.
  apply keeps_named_producer. intros K h p r k pl s Hs Hwf Hb Hst Hd Hp Hk Hls _.
  eapply wp_mono; [by eapply wp_deregister|]. cbn beta.
  intros res s'. destruct (remove_listener _ _) as [ls|] eqn:Hr; intros [_ Hs']; [|by eapply in_order_intro].
  eapply keeps_listeners; try done. by eapply remove_listener_ok.
Qed.

Lemma keeps_set_perf n profile : keeps (ipa_rm_set_perf_profile E n profile).
Proof.
  apply keeps_unless_null, keeps_with_resource. intros K h l r pl s Hs Hwf Hb Hst Hd Hl _ Hpl.
  destruct profile as [bw|]; [|apply wp_ret; by eapply in_order_intro].
  eapply wp_mono; [by apply (wp_set_perf_profile E K l r pl)|]. cbn beta. intros res s' [_ Hs'].
  destruct (perf_kept K h l r pl bw Hwf Hl Hpl Hb) as [Hb' Hst'].
  eapply in_order_intro; [done| |done|by auto|done].
  destruct (decide (bw = max_bw r)) as [->|Hne].
  { unfold perf_heap. by rewrite Z.eqb_refl. }
  rewrite statics_perf_heap by done. eapply wf_update; [done|by apply lookup_statics|done..|].
  exact (wf_res_ok _ _ Hwf l r Hl).
Qed.

Lemma keeps_notify_completion ev n : keeps (ipa_rm_notify_completion E ev n).
Proof.
  apply keeps_unless_null. destruct (IPA_RM_RESORCE_IS_CONS n) eqn:Hn; [|apply keeps_const].
  apply keeps_bind_const. eapply keeps_quiet. intros K h Hwf. by apply quietly_alloc_and_queue.
Qed.

Lemma keeps_api a K h s :
  mem K h s → wf K (statics h) → balanced h → (P → in_step h) → no_debt K →
  api_ok a → (P → prudent (StepApi a) s) → wp (run_api E a) (λ _ s', in_order P s') s.
Proof.
  intros Hs Hwf Hb Hst Hd Hok Hpr. destruct a as [[cp|]|n|n d us|n d us|n|n|n|n rp|n rp|n p|ev n]; cbn [run_api].
  - by eapply keeps_create.
  - by eapply (keeps_unless_null (mret (- EINVAL))); [apply keeps_const|..].
  - eapply keeps_delete; try done. intros HP. specialize (Hpr HP). destruct Hs as (ctx & Hs & _). by rewrite Hs in Hpr.
  - by eapply keeps_add_dependency.
  - by eapply keeps_delete_dependency.
  - by eapply keeps_request.
  - by eapply keeps_release.
  - by eapply keeps_request_with_timer.
  - by eapply keeps_register.
  - by eapply keeps_deregister.
  - by eapply keeps_set_perf.
  - by eapply keeps_notify_completion.
Qed.

(** ** Deferred work *)

Lemma cb_in_order K h c r k pl ev s :
  mem K (cb_heap ev c r k pl h) s → wf K (statics h) → balanced h → (P → in_step h) → no_debt K →
  h !! c = Some r → ext r = Cons k → peers_list r = Some pl → in_order P s.
Proof.
  intros Hs Hwf Hb Hst Hd Hc Hk Hpl.
  destruct (cb_kept K h c r k pl ev Hwf Hc Hk Hpl Hb) as (HS & Hb' & Hst').
  eapply in_order_intro; [done|by rewrite HS|done|by auto|done].
Qed.

Lemma keeps_named_consumer n (f : loc → RM ()) (g : RM ()) :
  IPA_RM_RESORCE_IS_CONS n = true → keeps g →
  (∀ K h l r k pl s, mem K h s → wf K (statics h) → balanced h → (P → in_step h) → no_debt K →
     h !! l = Some r → ext r = Cons k → callbacks_set k → peers_list r = Some pl →
     wp (f l) (λ _ s', in_order P s') s) →
  keeps ('(_, resource) ← ipa_rm_dep_graph_get_resource n;
         match resource with None => g | Some l => f l end).
Proof.
  intros Hn Hg Hf K h s Hs Hwf Hb Hst Hd. rm_step. eapply wp_get_resource; [done|]. cbn beta iota.
  destruct (resolve (k_table K) n) as [c|] eqn:Hres; [|by eapply Hg].
  destruct (wf_resolve _ _ Hwf n c Hres) as (r & Hc & Hnm).
  destruct (wf_cons_named _ _ _ _ _ Hwf Hc Hnm Hn) as (k & Hk & Hcb).
  destruct (wf_has_peers _ _ Hwf c r Hc) as (pl & Hpl & _). by eapply Hf.
Qed.

Lemma keeps_seq {A B} (m : RM A) φ (f : RM B) :
  (∀ K h, wf K (statics h) → quietly m φ K h) → keeps f → keeps (m ;; f).
Proof.
  intros Hm Hf K h s Hs Hwf Hb Hst Hd. apply wp_bind.
  eapply wp_quiet; [done|by apply Hm|]. intros a s' Hs' _. by eapply Hf.
Qed.

Lemma keeps_resume n prev bw inc : keeps (ipa_rm_wq_resume_handler E n prev bw inc).
Proof.
  unfold ipa_rm_wq_resume_handler.
  destruct (IPA_RM_RESORCE_IS_CONS n) eqn:Hn; cbn [negb]; [|apply keeps_const].
  eapply keeps_seq; [intros; apply quietly_log|].
  apply (keeps_named_consumer n (λ l, ipa_rm_resource_consumer_request_work E l prev bw true inc ;; mret ())); [done| |].
  { eapply keeps_quiet. intros. apply quietly_log. }
  intros K h c r k pl s Hs Hwf Hb Hst Hd Hc Hk Hcb Hpl. rm_step.
  eapply wp_mono; [by apply (wp_request_work_async E K c r k pl)|]. cbn beta.
  intros res s1 (h' & Hs1 & [(_ & ->)|[(_ & ->)|(Herr & _)]]); apply wp_ret.
  - by eapply cb_in_order.
  - by eapply in_order_intro.
  - by destruct (no_driver_error E res HE).
Qed.

(** The completion flag is not in the accounts. *)
Lemma completion_view h c r k b :
  h !! c = Some r → ext r = Cons k → same_view core_view h (<[c := with_ext (Cons (with_completion b k)) r]> h).
Proof.
  intros Hc Hk l. destruct (decide (l = c)) as [->|].
  - rewrite lookup_insert_eq, Hc. cbn. unfold core_view, step_view. cbn. by rewrite Hk.
  - by rewrite lookup_insert_ne.
Qed.

Lemma keeps_suspend n prev : keeps (ipa_rm_wq_suspend_handler E n prev).
Proof.
  unfold ipa_rm_wq_suspend_handler.
  destruct (IPA_RM_RESORCE_IS_CONS n) eqn:Hn; cbn [negb]; [|apply keeps_const].
  eapply keeps_seq; [intros; apply quietly_log|].
  apply (keeps_named_consumer n (λ l, ipa_rm_resource_consumer_release_work E l prev true ;; mret ()) (mret ())); [done| |].
  { apply keeps_const. }
  intros K h c r k pl s Hs Hwf Hb Hst Hd Hc Hk Hcb Hpl. rm_step.
  eapply wp_mono; [by apply (wp_release_work_async E K c r k pl)|]. cbn beta.
  intros res s1 [(h1 & r1 & k1 & -> & _ & Hc1 & Hk1 & Hs1)|(Herr & _)]; apply wp_ret;
    [|by destruct (no_driver_error E res HE)].
  destruct (cb_kept K h c r k pl IPA_RM_RESOURCE_RELEASED Hwf Hc Hk Hpl Hb) as (HS & Hb' & Hst').
  pose proof (completion_view _ c r1 k1 true Hc1 Hk1) as Hv.
  eapply in_order_intro; [done| |by eapply balanced_view| |done].
  - erewrite statics_insert_same; [by rewrite HS|done|by apply (static_same_ext r1 k1)].
  - intros HP. eapply in_step_view; [by apply same_view_core|auto].
Qed.

Lemma keeps_wq_handler cmd n ev only :
  work_ok (WorkCmd cmd n ev only) → keeps (ipa_rm_wq_handler E cmd n ev only).
Proof.
  intros Hw. unfold ipa_rm_wq_handler. destruct cmd; cbn in Hw; [|apply keeps_const|].
  - destruct (IPA_RM_RESORCE_IS_PROD n) eqn:Hn; cbn [negb]; [|apply keeps_const].
    apply keeps_bind_const, keeps_with_resource. intros K h p r pl s Hs Hwf Hb Hst Hd Hp Hnm Hpl.
    destruct (wf_prod_named _ _ _ _ _ Hwf Hp Hnm Hn) as (k & Hk & Hls).
    rm_step. eapply wp_quiet; [done|by eapply quietly_notify_clients|]. intros ? s1 Hs1 _.
    apply wp_ret. by eapply in_order_intro.
  - apply keeps_bind_const, keeps_with_resource. intros K h c r pl s Hs Hwf Hb Hst Hd Hc Hnm Hpl.
    destruct (wf_cons_named _ _ _ _ _ Hwf Hc Hnm Hw) as (k & Hk & _).
    rm_step. eapply wp_mono; [by eapply (wp_consumer_handle_cb E K c r k pl ev h)|]. cbn beta.
    intros _ s1 Hs1. apply wp_ret. by eapply cb_in_order.
Qed.

Lemma keeps_work w : work_ok w → keeps (run_work E w).
Proof.
  intros Hw. destruct w as [cmd n ev only|n prev bw inc|n prev bw|v bw]; cbn [run_work].
  - by apply keeps_wq_handler.
  - apply keeps_resume.
  - apply keeps_suspend.
  - eapply keeps_quiet. intros. apply quietly_log.
Qed.

Lemma keeps_delayed d :
  dr_needed_bw d = 0 → dr_dec_usage_count d = false → keeps (delayed_release_work_func E d).
Proof.
  unfold delayed_release_work_func. intros -> ->.
  destruct (IPA_RM_RESORCE_IS_CONS (dr_resource_name d)) eqn:Hn; cbn [negb]; [|apply keeps_const].
  apply keeps_bind_const, keeps_with_resource. intros K h c r pl s Hs Hwf Hb Hst Hd Hc Hnm Hpl.
  destruct (wf_cons_named _ _ _ _ _ Hwf Hc Hnm Hn) as (k & Hk & _).
  eapply wp_mono; [by apply (wp_timed_release_kept E K h c r k)|]. cbn beta. intros res s1.
  by apply kept_in_order.
Qed.

(** ** Steps *)

Lemma in_order_label l s :
  in_order P s → label_enabled l s → (P → prudent l s) → wp (run_label E l) (λ _ s', in_order P s') s.
Proof.
  intros (K & h & Hs & Hwf & Hb & Hst & Hd) Hen Hpr. destruct l as [a| |i]; cbn [run_label].
  - apply wp_bind. eapply wp_mono; [by eapply keeps_api|intros v s1 Hs1; by apply wp_ret].
  - unfold pop_work. wp_steps. eapply wp_get_ctx; [done|].
    intros c Hc (H1 & H2 & H3 & H4) Ht. cbn in Hen. rewrite Hc in Hen.
    destruct (ipa_rm_wq c) as [|w q]; [done|]. apply Forall_cons_iff in H4 as [Hw Hq]. rm_step.
    eapply wp_put_ctx; [done|by split_and!|]. intros s1 Hs1. apply wp_ret.
    cbn in Hs1. rewrite Ht in Hs1. destruct K as [t n dl]. by eapply (keeps_work w).
  - cbn in Hen. unfold pop_delayed. wp_steps.
    destruct (lookup_lt_is_Some_2 _ _ Hen) as [d Hdl]. wp_steps.
    destruct Hs as (c & Heq & Hc & Ht). rewrite Heq in Hdl |- *. cbn in Hdl.
    destruct (proj1 (Forall_lookup _ _) Hd i d Hdl) as [Hbw Hdec].
    eapply (keeps_delayed d Hbw Hdec (mkControl (k_table K) (k_next K) (delete i (k_delayed K))) h).
    + by exists c.
    + destruct Hwf as [W1 W2 W3]. by split.
    + done.
    + done.
    + unfold no_debt. cbn. by apply Forall_delete.
Qed.

Lemma in_order_initial : in_order P initial_state.
Proof.
  exists (mkControl (replicate IPA_RM_RESOURCE_MAX None) 1%positive []), ∅. split.
  { exists fresh_ctx. split; [done|]. split; [|done]. by repeat split. }
  split; [split; [|done..]; intros n l Hn; by apply lookup_replicate_1 in Hn as [[=] _]|].
  split; [by split_and!|]. split; [intros _; by split|by constructor].
Qed.

(** Executions whose deletions are prudent. *)
Inductive prudent_reachable : rm_state → Prop :=
  | prudent_init : prudent_reachable initial_state
  | prudent_step l s s' :
      prudent_reachable s → label_enabled l s → prudent l s → run_label E l s = Some ((), s') →
      prudent_reachable s'.
End Inv.

Lemma reachable_in_order E s : no_errors E → reachable E s → in_order False s.
Proof.
  intros HE. induction 1 as [|l s s' _ IH Hen Hrun]; [apply in_order_initial|].
  pose proof (in_order_label E HE False l s IH Hen ltac:(intros [])) as Hwp.
  unfold wp in Hwp. by rewrite Hrun in Hwp.
Qed.

Lemma prudent_in_order E s : no_errors E → prudent_reachable E s → in_order True s.
Proof.
  intros HE. induction 1 as [|l s s' _ IH Hen Hpr Hrun]; [apply in_order_initial|].
  pose proof (in_order_label E HE True l s IH Hen (λ _, Hpr)) as Hwp.
  unfold wp in Hwp. by rewrite Hrun in Hwp.
Qed.
