(* ===== verification/RmExample.v ===== *)
(** * IPA resource manager: concrete executions

    A checker that runs a script of labels and shows the state it reaches reachable, and
    the resources the examples use: the producer [Q6_PROD] with up to three consumers. *)

From S2P Require Import Prelude.
From S2P Require Import RmTypes.
From S2P Require Import RmPeers.
From S2P Require Import RmCore.
From S2P Require Import RmResource.
From S2P Require Import Rm.
From S2P Require Import RmInv.

(** ** Running scripts *)

Definition is_some {A} (o : option A) : bool := match o with Some _ => true | None => false end.

Definition enabledb (l : rm_label) (s : rm_state) : bool :=
  match l with
  | StepApi (ApiCreate (Some cp)) =>
      if IPA_RM_RESORCE_IS_PROD (cp_name cp) then is_some (rp_notify_cb (cp_reg_params cp))
      else is_some (cp_request_resource cp) && is_some (cp_release_resource cp)
  | StepApi (ApiRegister _ rp) => is_some (rp_notify_cb rp)
  | StepApi _ => true
  | StepWork => match ipa_rm_ctx s with CtxLive c => negb (length (ipa_rm_wq c) =? 0)%nat | _ => false end
  | StepTimer i => (i <? length (delayed s))%nat
  end.

Lemma is_some_ne {A} (o : option A) : is_some o = true → o ≠ None.
Proof. by destruct o. Qed.

Lemma enabledb_ok l s : enabledb l s = true → label_enabled l s.
Proof.
  destruct l as [[[cp|]|n|n d us|n d us|n|n|n|n rp|n rp|n p|ev n]| |i]; cbn; intros H; try done.
  - destruct (IPA_RM_RESORCE_IS_PROD _); [by apply is_some_ne|].
    apply andb_prop in H as [H1 H2]. by split; apply is_some_ne.
  - by apply is_some_ne.
  - destruct (ipa_rm_ctx s); try done. intros Hq. by rewrite Hq in H.
  - by apply Nat.ltb_lt.
Qed.

Fixpoint runs (E : rm_env) (ls : list rm_label) (s : rm_state) : option rm_state :=
  match ls with
  | [] => Some s
  | l :: ls' =>
      if enabledb l s then
        match run_label E l s with Some (_, s') => runs E ls' s' | None => None end
      else None
  end.

Lemma runs_reachable E ls s s' : reachable E s → runs E ls s = Some s' → reachable E s'.
Proof.
  revert s. induction ls as [|l ls IH]; intros s Hs Hr; cbn in Hr; [by injection Hr as <-|].
  destruct (enabledb l s) eqn:He; [|done]. destruct (run_label E l s) as [[[] s1]|] eqn:Hl; [|done].
  apply (IH s1); [|done]. by eapply reachable_step; [|apply enabledb_ok|].
Qed.

(** Deletions of dependencies and of resources are the labels that have to be prudent. *)
Definition deletes (l : rm_label) : bool :=
  match l with StepApi (ApiDelete _) | StepApi (ApiDeleteDependency _ _ _) => true | _ => false end.

Lemma runs_prudent E ls s s' :
  prudent_reachable E s → forallb (λ l, negb (deletes l)) ls = true → runs E ls s = Some s' →
  prudent_reachable E s'.
Proof.
  revert s. induction ls as [|l ls IH]; intros s Hs Hd Hr; cbn in Hr, Hd; [by injection Hr as <-|].
  apply andb_prop in Hd as [Hl0 Hd].
  destruct (enabledb l s) eqn:He; [|done]. destruct (run_label E l s) as [[[] s1]|] eqn:Hl; [|done].
  apply (IH s1); [|done..]. eapply prudent_step; [done|by apply enabledb_ok| |done].
  by destruct l as [[]| |].
Qed.

(** ** The example *)

(** Driver 3 answers at once, the others later. *)
Definition demo_env : rm_env :=
  mkEnv (λ _ fn, if (fn =? 3)%positive then 0 else - EINPROGRESS) (λ _ _, 0) (λ _ _, 0) (λ _, true).

Lemma demo_no_errors hi fn : env_call demo_env hi fn = 0 ∨ env_call demo_env hi fn = - EINPROGRESS.
Proof. cbn [env_call demo_env]. destruct (fn =? 3)%positive; [by left|by right]. Qed.

Definition demo_producer : ipa_rm_create_params :=
  mkCreateParams IPA_RM_RESOURCE_Q6_PROD 1 (mkRegParams 7 (Some 9%positive)) None None.
Definition demo_consumer (n : ipa_rm_resource_name) (driver : positive) : ipa_rm_create_params :=
  mkCreateParams n 1 (mkRegParams 0 None) (Some driver) (Some driver).

(** [Q6_PROD] (at 1) depends on [Q6_CONS] (2), [USB_CONS] (3) and [HSIC_CONS] (4). *)
Definition demo_setup : list rm_label :=
  [ StepApi (ApiCreate (Some demo_producer));
    StepApi (ApiCreate (Some (demo_consumer 1%nat 1%positive)));
    StepApi (ApiCreate (Some (demo_consumer 3%nat 2%positive)));
    StepApi (ApiCreate (Some (demo_consumer 7%nat 3%positive)));
    StepApi (ApiSetPerf 1%nat (Some 100));
    StepApi (ApiSetPerf 0%nat (Some 40));
    StepApi (ApiAddDependency 0%nat 1%nat false);
    StepApi (ApiAddDependency 0%nat 3%nat true);
    StepApi (ApiAddDependency 0%nat 7%nat false) ].

(** The producer requested: granted by the third consumer only. *)
Definition demo_request : list rm_label := demo_setup ++ [StepApi (ApiRequest 0%nat)].

(** The two completions that are missing, and the work they queue. *)
Definition demo_granted : list rm_label :=
  demo_request ++
  [ StepWork; StepApi (ApiNotifyCompletion IPA_RM_RESOURCE_GRANTED 1%nat);
    StepApi (ApiNotifyCompletion IPA_RM_RESOURCE_GRANTED 3%nat); StepWork; StepWork ].

Definition state_after (ls : list rm_label) : rm_state :=
  match runs demo_env ls initial_state with Some s => s | None => initial_state end.

Lemma demo_reachable ls :
  is_some (runs demo_env ls initial_state) = true → reachable demo_env (state_after ls).
Proof.
  unfold state_after. intros H. destruct (runs _ _ _) as [s|] eqn:Hr; [|done].
  eapply runs_reachable; [apply reachable_init|done].
Qed.

Lemma demo_prudent ls :
  is_some (runs demo_env ls initial_state) = true → forallb (λ l, negb (deletes l)) ls = true →
  prudent_reachable demo_env (state_after ls).
Proof.
  unfold state_after. intros H Hd. destruct (runs _ _ _) as [s|] eqn:Hr; [|done].
  eapply runs_prudent; [apply prudent_init|done..].
Qed.

(** The resource at an address, in the state a script reaches. *)
Definition resource_after (ls : list rm_label) (l : loc) : ipa_rm_resource :=
  match heap (state_after ls) !! l with Some r => r | None => mkRes 0%nat IPA_RM_PRODUCER 0 0 0 IPA_RM_RELEASED None (Prod (mkProd [] 0 0)) end.
