(* ===== verification/RmProps.v ===== *)
(** * IPA resource manager: properties of every execution

    What the clients of the resource manager may rely on, for every reachable state: the
    module never gets stuck, and the accounts of usage, bandwidth and pending requests
    agree with the graph of dependencies. *)

From S2P Require Import Prelude.
From S2P Require Import RmTypes.
From S2P Require Import RmPeers.
From S2P Require Import RmCore.
From S2P Require Import RmResource.
From S2P Require Import Rm.
From S2P Require Import RmConsumer.
From S2P Require Import RmWf.
From S2P Require Import RmProducer.
From S2P Require Import RmOps.
From S2P Require Import RmSafety.
From S2P Require Import RmAcct.
From S2P Require Import RmRequest.
From S2P Require Import RmSteps.
From S2P Require Import RmDepsAcct.
From S2P Require Import RmInv.
From S2P Require Import RmExample.

(** ** What the statements speak of *)

(** The resources behind the occupied slots of a peers list. *)
Definition peer_resources (h : rheap) (pl : ipa_rm_peers_list) : list ipa_rm_resource :=
  omap (λ q, p ← peer_resource q; h !! p) (peers pl).

Definition active_producers (h : rheap) (pl : ipa_rm_peers_list) : list ipa_rm_resource :=
  filter (λ r, active r = true) (peer_resources h pl).

Definition pending_consumers (h : rheap) (pl : ipa_rm_peers_list) : list ipa_rm_resource :=
  filter (λ r, state r = IPA_RM_REQUEST_IN_PROGRESS) (peer_resources h pl).

Definition total (f : ipa_rm_resource → Z) (l : list ipa_rm_resource) : Z :=
  foldr (λ r acc, f r + acc) 0 l.

Definition is_peer (pl : ipa_rm_peers_list) (c : loc) : Prop :=
  ∃ i us, peers pl !! i = Some (mkPeer (Some c) us).

(** ** From the sums of the accounts to lists of resources *)

Lemma slot_sum_total (h : rheap) (pl : ipa_rm_peers_list) (f : loc → Z) (P : ipa_rm_resource → Prop)
    `{∀ r, Decision (P r)} (g : ipa_rm_resource → Z) :
  (∀ l r, h !! l = Some r → f l = if decide (P r) then g r else 0) → (∀ l, h !! l = None → f l = 0) →
  slot_sum f (peers pl) = total g (filter P (peer_resources h pl)).
Proof.
  intros Hf Hnone. unfold peer_resources. induction (peers pl) as [|q l IH]; [done|].
  cbn [slot_sum omap list_omap]. rewrite IH. unfold slot_val. destruct (peer_resource q) as [x|]; cbn [mbind option_bind]; [|done].
  destruct (h !! x) as [r|] eqn:Hx; [|by rewrite (Hnone x Hx)].
  rewrite (Hf x r Hx), filter_cons. by case_decide.
Qed.

Lemma total_1 l : total (λ _, 1) l = Z.of_nat (length l).
Proof. induction l as [|x l IH]; [done|]. cbn [total foldr length]. unfold total in IH. lia. Qed.

Lemma users_active h c pl : users (Acc h) c pl = Z.of_nat (length (active_producers h pl)).
Proof.
  unfold users, active_producers. rewrite <- total_1.
  apply slot_sum_total; intros l; unfold Acc; [intros r ->|by intros ->].
  case_decide as Ha; [by rewrite Ha|]. by destruct (active r).
Qed.

Lemma load_active h c pl : load (Acc h) c pl = total max_bw (active_producers h pl).
Proof.
  unfold load, active_producers.
  apply slot_sum_total; intros l; unfold Acc; [intros r ->|by intros ->].
  case_decide as Ha; [by rewrite Ha|]. by destruct (active r).
Qed.

Lemma filter_all (l : list ipa_rm_resource) : filter (λ _, True) l = l.
Proof. induction l as [|x l IH]; [done|]. rewrite filter_cons, decide_True by done. by f_equal. Qed.

Lemma cons_bw_peers h pl : slot_sum (cons_bw h) (peers pl) = total max_bw (peer_resources h pl).
Proof.
  rewrite <- (filter_all (peer_resources h pl)).
  apply slot_sum_total; intros l; unfold cons_bw; [intros r ->|by intros ->]. by rewrite decide_True.
Qed.

Lemma waiting_pending h p r pl :
  h !! p = Some r → active r = true →
  waiting (Acc h) h p pl = Z.of_nat (length (pending_consumers h pl)).
Proof.
  intros Hp Hact. unfold waiting, pending_consumers. rewrite <- total_1.
  apply slot_sum_total; intros l; unfold wait_val, Acc, is_waiting; rewrite Hp, Hact; cbn [counted].
  - intros rl ->. by case_decide; [rewrite bool_decide_eq_true_2|rewrite bool_decide_eq_false_2].
  - by intros ->.
Qed.

Lemma peer_resources_elem h pl r :
  r ∈ peer_resources h pl ↔ ∃ c, is_peer pl c ∧ h !! c = Some r.
Proof.
  unfold peer_resources, is_peer. rewrite list_elem_of_omap. split.
  - intros ([o us] & Hq & Ho). apply list_elem_of_lookup_1 in Hq as [i Hi].
    cbn in Ho. destruct o as [c|]; [|done]. exists c. eauto.
  - intros (c & (i & us & Hi) & Hc). exists (mkPeer (Some c) us). split; [by eapply list_elem_of_lookup_2|done].
Qed.

(** ** Reachable states *)

Lemma in_order_heap P s : in_order P s → ∃ K, mem K (heap s) s ∧ wf K (statics (heap s)) ∧ balanced (heap s) ∧ (P → in_step (heap s)) ∧ no_debt K.
Proof. intros (K & h & Hs & H). exists K. by rewrite (mem_heap _ _ _ Hs). Qed.

(** ** Safety *)

(** C1: the resource manager is memory safe and total. In every state reachable by any
    interleaving of exported operations, work items and expiring delayed releases, with
    any results of the drivers, clocks and allocations, every step that can be taken runs
    to its end: no null or freed pointer is dereferenced, no peers list, vote array or
    table is indexed out of its bounds, no null callback is called and no producer is
    used as a consumer. *)
Theorem rm_never_stuck E s l :
  reachable E s → label_enabled l s → ∃ s', run_label E l s = Some ((), s').
Proof.
  intros Hr Hen. pose proof (safe_label E l s (reachable_well_formed E s Hr) Hen) as Hwp.
  apply wp_elim in Hwp as ([] & s' & Hs' & _). eauto.
Qed.

Lemma rm_never_stuck_witness :
  ∃ s', run_label demo_env (StepApi (ApiRelease 0%nat)) (state_after demo_request) = Some ((), s').
Proof. apply rm_never_stuck; [apply demo_reachable; by vm_compute|done]. Defined.

(** ** Accounts *)

(** C2: a consumer's usage count is the number of producers that depend on it and have
    requested it, the bandwidth asked of it is the sum of theirs (on 32 bits), and a
    consumer with users is never released nor being released. *)
Theorem consumer_accounts E s c r k pl :
  no_errors E → reachable E s → heap s !! c = Some r → ext r = Cons k → peers_list r = Some pl →
  usage_count k = Z.of_nat (length (active_producers (heap s) pl)) ∧
  needed_bw r = u32 (total max_bw (active_producers (heap s) pl)) ∧
  (state r = IPA_RM_RELEASED ∨ state r = IPA_RM_RELEASE_IN_PROGRESS → usage_count k = 0).
Proof.
  intros HE Hr Hc Hk Hpl. destruct (in_order_heap _ _ (reachable_in_order E s HE Hr)) as (K & Hs & Hwf & (Hok & _) & _).
  destruct (Hok c r k pl Hc Hk Hpl) as (Hu & Hl & Hi).
  rewrite <- (users_active (heap s) c), <- (load_active (heap s) c), Hu. by split_and!.
Qed.

Lemma consumer_accounts_witness :
  ∃ r k pl, heap (state_after demo_request) !! 2%positive = Some r ∧ ext r = Cons k ∧ usage_count k = 1 ∧
    usage_count k = Z.of_nat (length (active_producers (heap (state_after demo_request)) pl)).
Proof.
  eexists _, _, _. split; [vm_compute; reflexivity|]. split; [reflexivity|]. split; [reflexivity|].
  apply (consumer_accounts demo_env (state_after demo_request) 2%positive (resource_after demo_request 2%positive));
    [exact demo_no_errors|apply demo_reachable; by vm_compute|by vm_compute..].
Defined.

(** C3: when a producer is granted, all the consumers it depends on are granted; in the
    executions in which no callback of a driver ever fails ([no_errors]) and every deletion of a
    dependency is prudent: no producer that waits for its consumers loses one for which it does
    not wait. After a failed request of a consumer the statement can be false. *)
Theorem granted_producer_has_granted_consumers E s p r k pl c :
  no_errors E → prudent_reachable E s → heap s !! p = Some r → ext r = Prod k →
  state r = IPA_RM_GRANTED → peers_list r = Some pl → is_peer pl c →
  ∃ rc, heap s !! c = Some rc ∧ state rc = IPA_RM_GRANTED.
Proof.
  intros HE Hr Hp Hk Hst Hpl (i & us & Hi).
  destruct (in_order_heap _ _ (prudent_in_order E s HE Hr)) as (K & Hs & Hwf & (Hok & _) & Hstep & _).
  destruct (Hstep I) as [Hsync _].
  destruct (wf_slot_consumer K _ p r k pl i c us Hwf Hp Hk Hpl Hi) as (rc & kc & plc & Hc & Hkc & Hplc & Hn & Hback).
  exists rc. split; [done|].
  assert (active r = true) as Hact by (unfold active; by rewrite Hst).
  destruct (Hsync p r k pl ltac:(intros []) Hp Hk Hpl Hact) as [_ Hz]. specialize (Hz Hst).
  assert (Acc (heap s) p c = Some (max_bw r)) as HA by (unfold Acc; by rewrite Hp, Hact).
  pose proof (slot_sum_ge (wait_val (Acc (heap s)) (heap s) p) (peers pl) i c us) as Hge.
  unfold waiting in Hz. rewrite Hz in Hge. unfold wait_val at 2, is_waiting in Hge. rewrite HA, Hc in Hge.
  specialize (Hge (wait_val_nonneg _ _ _) Hi). cbn in Hge.
  destruct (Hok c rc kc plc Hc Hkc Hplc) as (Hu & _ & Hidle).
  pose proof (users_pos (Acc (heap s)) c plc _ p us _ Hback HA) as Hpos.
  unfold idle in Hidle. destruct (state rc) eqn:Hrc; try done.
  - rewrite Hidle in Hpos by auto. lia.
  - rewrite Hidle in Hpos by auto. lia.
Qed.

Lemma granted_producer_has_granted_consumers_witness :
  state (resource_after demo_granted 1%positive) = IPA_RM_GRANTED ∧
  ∃ rc, heap (state_after demo_granted) !! 3%positive = Some rc ∧ state rc = IPA_RM_GRANTED.
Proof.
  split; [by vm_compute|].
  eapply (granted_producer_has_granted_consumers demo_env _ 1%positive (resource_after demo_granted 1%positive));
    [exact demo_no_errors|apply demo_prudent; by vm_compute|by vm_compute..|].
  exists 3%nat, true. by vm_compute.
Defined.

(** C4: the pending counter of a producer that waits for its consumers is the number of
    them that are not granted yet, and it is not 0: the last completion will grant it. As for
    C3, no callback fails and all deletions are prudent: [delete_dependency_grants_early] shows
    that after one that is not the counter can be too small. *)
Theorem pending_counter_exact E s p r k pl :
  no_errors E → prudent_reachable E s → heap s !! p = Some r → ext r = Prod k →
  peers_list r = Some pl → state r = IPA_RM_REQUEST_IN_PROGRESS →
  pending_request k = Z.of_nat (length (pending_consumers (heap s) pl)) ∧ 0 < pending_request k.
Proof.
  intros HE Hr Hp Hk Hpl Hst.
  destruct (in_order_heap _ _ (prudent_in_order E s HE Hr)) as (K & Hs & Hwf & _ & Hstep & _).
  destruct (Hstep I) as [Hsync Hpos].
  assert (active r = true) as Hact by (unfold active; by rewrite Hst).
  destruct (Hsync p r k pl ltac:(intros []) Hp Hk Hpl Hact) as [Hpend _].
  split; [by rewrite Hpend; apply (waiting_pending _ _ r)|by eapply Hpos].
Qed.

Lemma pending_counter_exact_witness :
  ∃ k pl, ext (resource_after demo_request 1%positive) = Prod k ∧
    pending_request k = Z.of_nat (length (pending_consumers (heap (state_after demo_request)) pl)) ∧ 0 < pending_request k.
Proof.
  eexists _, _. split; [vm_compute; reflexivity|].
  eapply (pending_counter_exact demo_env (state_after demo_request) 1%positive (resource_after demo_request 1%positive));
    [exact demo_no_errors|apply demo_prudent; by vm_compute|by vm_compute..].
Defined.

(** Between two operations no producer is left in the middle of a release, and the
    bandwidth a producer asks for is the sum of its consumers' maxima (on 32 bits). *)
Theorem producer_settled E s p r k pl :
  no_errors E → reachable E s → heap s !! p = Some r → ext r = Prod k → peers_list r = Some pl →
  state r ≠ IPA_RM_RELEASE_IN_PROGRESS ∧
  needed_bw r = u32 (total max_bw (peer_resources (heap s) pl)).
Proof.
  intros HE Hr Hp Hk Hpl.
  destruct (in_order_heap _ _ (reachable_in_order E s HE Hr)) as (K & Hs & Hwf & (_ & Hset & Hb) & _).
  split; [by eapply Hset|]. rewrite <- cons_bw_peers. by apply (Hb p r k).
Qed.

Lemma producer_settled_witness :
  ∃ pl, needed_bw (resource_after demo_request 1%positive) = 100 ∧
    state (resource_after demo_request 1%positive) ≠ IPA_RM_RELEASE_IN_PROGRESS ∧
    needed_bw (resource_after demo_request 1%positive) = u32 (total max_bw (peer_resources (heap (state_after demo_request)) pl)).
Proof.
  eexists. split; [by vm_compute|].
  eapply (producer_settled demo_env (state_after demo_request) 1%positive);
    [exact demo_no_errors|apply demo_reachable; by vm_compute|by vm_compute..].
Defined.
