(* ===== verification/RmOpsProps.v ===== *)
(** * IPA resource manager: what each operation does

    The effect of the exported operations on the memory of a reachable state, and the
    round trips between them. *)

From S2P Require Import Prelude.
From S2P Require Import RmTypes.
From S2P Require Import RmPeers.
From S2P Require Import RmCore.
From S2P Require Import RmResource.
From S2P Require Import Rm.
From S2P Require Import RmConsumer.
From S2P Require Import RmWf.
From S2P Require Import RmProducer.
From S2P Require Import RmOps.
From S2P Require Import RmSafety.
From S2P Require Import RmAcct.
From S2P Require Import RmRequest.
From S2P Require Import RmSteps.
From S2P Require Import RmDepsAcct.
From S2P Require Import RmInv.
From S2P Require Import RmExample.
From S2P Require Import RmProps.

(** ** Operations on a resource that exists *)

Lemma wp_with_named K h l r err (f : loc → RM Z) (Q : Z → rm_state → Prop) s :
  mem K h s → wf K (statics h) → h !! l = Some r → wp (f l) Q s → wp (with_resource (name r) err f) Q s.
Proof.
  intros Hs Hwf Hl Hf. eapply wp_with_resource; [done..| |].
  - intros Hnone. exfalso. destruct (wf_res_ok _ _ Hwf l r Hl) as [Hv _].
    by apply (resolve_None_slot (k_table K) (name r) Hv Hnone l), (wf_in_table _ _ Hwf).
  - intros l' r' pl' _ Hl' Hn _ _. by rewrite (wf_name_inj _ _ Hwf l' l r' r).
Qed.

Lemma prod_name K h l r k : wf K (statics h) → h !! l = Some r → ext r = Prod k → IPA_RM_RESORCE_IS_PROD (name r) = true.
Proof.
  intros Hwf Hl Hk. destruct (wf_res_ok _ _ Hwf l r Hl) as [_ Hok]. cbn in Hok. rewrite Hk in Hok.
  by destruct (type r), Hok.
Qed.

Lemma cons_name K h l r k : wf K (statics h) → h !! l = Some r → ext r = Cons k → IPA_RM_RESORCE_IS_CONS (name r) = true.
Proof.
  intros Hwf Hl Hk. destruct (wf_res_ok _ _ Hwf l r Hl) as [_ Hok]. cbn in Hok. rewrite Hk in Hok.
  by destruct (type r), Hok.
Qed.

(** The guards in front of an operation on one producer, or on a producer and a consumer. *)
Lemma wp_producer_op K h l r k err (f : loc → RM Z) (Q : Z → rm_state → Prop) s :
  mem K h s → wf K (statics h) → h !! l = Some r → ext r = Prod k → wp (f l) Q s →
  wp (unless_null (if negb (IPA_RM_RESORCE_IS_PROD (name r)) then mret (- EINVAL)
                   else with_resource (name r) err f)) Q s.
Proof.
  intros Hs Hwf Hl Hk Hf. eapply wp_unless_null; [done|].
  rewrite (prod_name K h l r k Hwf Hl Hk). cbn [negb]. by eapply wp_with_named.
Qed.

Lemma wp_dependency_op K h p d rp rd kp kd (f : loc → loc → RM Z) (Q : Z → rm_state → Prop) s :
  mem K h s → wf K (statics h) → h !! p = Some rp → h !! d = Some rd → ext rp = Prod kp → ext rd = Cons kd →
  wp (f p d) Q s →
  wp (unless_null
       (if negb (IPA_RM_RESORCE_IS_PROD (name rp)) || negb (IPA_RM_RESORCE_IS_CONS (name rd)) then mret (- EINVAL)
        else with_resource (name rp) (- EINVAL) (λ x, with_resource (name rd) (- EINVAL) (f x)))) Q s.
Proof.
  intros Hs Hwf Hp Hd Hkp Hkd Hf. eapply wp_unless_null; [done|].
  rewrite (prod_name K h p rp kp Hwf Hp Hkp), (cons_name K h d rd kd Hwf Hd Hkd). cbn [negb orb].
  do 2 (eapply wp_with_named; [done..|]). done.
Qed.

(** ** Requests and releases *)

(** The request of a producer that is not active either grants it at once and
    returns 0, or leaves it waiting and returns [-EINPROGRESS]; no other producer changes. *)
Theorem request_classified E s p r k :
  no_errors E → prudent_reachable E s → heap s !! p = Some r → ext r = Prod k → active r = false →
  ∃ res s' r', ipa_rm_request_resource E (name r) s = Some (res, s') ∧ heap s' !! p = Some r' ∧
    (res = 0 ∧ state r' = IPA_RM_GRANTED ∨ res = - EINPROGRESS ∧ state r' = IPA_RM_REQUEST_IN_PROGRESS) ∧
    (∀ q rq kq, q ≠ p → heap s !! q = Some rq → ext rq = Prod kq → heap s' !! q = Some rq).
Proof.
  intros HE Hr Hp Hk Hact.
  destruct (in_order_heap _ _ (prudent_in_order E s HE Hr)) as (K & Hs & Hwf & Hb & Hstep & _).
  destruct (wf_has_peers _ _ Hwf p r Hp) as (pl & Hpl & _).
  assert (wp (ipa_rm_request_resource E (name r)) (λ res s', kept K (heap s) s'
    (λ h', in_step (heap s) → request_result (heap s) p res h')) s) as Hwp.
  { eapply wp_producer_op; [done..|]. by apply (wp_producer_request_kept E K HE (heap s) p r k pl). }
  apply wp_elim in Hwp as (res & s' & Hrun & h' & Hs' & _ & _ & _ & Hres).
  destruct (Hres (Hstep I)) as (r' & Hp' & Hsame & Hcase). rewrite <- (mem_heap _ _ _ Hs') in *.
  exists res, s', r'. split_and!; [done..|]. intros q rq kq. apply Hsame.
Qed.

Lemma request_classified_witness :
  ∃ res s' r', ipa_rm_request_resource demo_env IPA_RM_RESOURCE_Q6_PROD (state_after demo_setup) = Some (res, s') ∧
    heap s' !! 1%positive = Some r' ∧ (res = 0 ∧ state r' = IPA_RM_GRANTED ∨
      res = - EINPROGRESS ∧ state r' = IPA_RM_REQUEST_IN_PROGRESS).
Proof.
  destruct (request_classified demo_env (state_after demo_setup) 1%positive
    (resource_after demo_setup 1%positive) (mkProd [mkNotifInfo (mkRegParams 7 (Some 9%positive)) false] 0 0))
    as (res & s' & r' & H1 & H2 & H3 & _);
    [exact demo_no_errors|apply demo_prudent; by vm_compute|by vm_compute..|].
  exists res, s', r'. split; [exact H1|split; [exact H2|exact H3]].
Defined.

(** The release of an active producer, granted or still waiting, always ends in the
    released state and returns 0, and no other producer changes. *)
Theorem release_completes E s p r k :
  no_errors E → reachable E s → heap s !! p = Some r → ext r = Prod k → active r = true →
  ∃ s' r', ipa_rm_release_resource E (name r) s = Some (0, s') ∧ heap s' !! p = Some r' ∧
    state r' = IPA_RM_RELEASED ∧
    (∀ q rq kq, q ≠ p → heap s !! q = Some rq → ext rq = Prod kq → heap s' !! q = Some rq).
Proof.
  intros HE Hr Hp Hk Hact.
  destruct (in_order_heap _ _ (reachable_in_order E s HE Hr)) as (K & Hs & Hwf & Hb & _).
  destruct (wf_has_peers _ _ Hwf p r Hp) as (pl & Hpl & _).
  assert (wp (ipa_rm_release_resource E (name r)) (λ res s', kept K (heap s) s'
    (λ h', res = 0 ∧ prods_same p (heap s) h' ∧ ∃ r', h' !! p = Some r' ∧ state r' = IPA_RM_RELEASED)) s) as Hwp.
  { eapply wp_producer_op; [done..|]. by apply (wp_producer_release_kept E K (heap s) p r k pl). }
  apply wp_elim in Hwp as (res & s' & Hrun & h' & Hs' & _ & _ & _ & -> & Hsame & r' & Hp' & Hst).
  rewrite <- (mem_heap _ _ _ Hs') in *. exists s', r'. split_and!; [done..|]. intros q rq kq. apply Hsame.
Qed.

Lemma release_completes_witness :
  ∃ s' r', ipa_rm_release_resource demo_env IPA_RM_RESOURCE_Q6_PROD (state_after demo_request) = Some (0, s') ∧
    heap s' !! 1%positive = Some r' ∧ state r' = IPA_RM_RELEASED.
Proof.
  destruct (release_completes demo_env (state_after demo_request) 1%positive
    (resource_after demo_request 1%positive) (mkProd [mkNotifInfo (mkRegParams 7 (Some 9%positive)) false] 2 0))
    as (s' & r' & H1 & H2 & H3 & _);
    [exact demo_no_errors|apply demo_reachable; by vm_compute|by vm_compute..|].
  exists s', r'. split; [exact H1|split; [exact H2|exact H3]].
Defined.

(** ** A request undone by a release *)

Lemma consumers_restored K h h2 :
  wf K (statics h) → statics h2 = statics h → balanced h → balanced h2 →
  (∀ q rq kq, h !! q = Some rq → ext rq = Prod kq → ∀ c, Acc h2 q c = Acc h q c) →
  ∀ c rc kc, h !! c = Some rc → ext rc = Cons kc →
    ∃ rc' kc', h2 !! c = Some rc' ∧ ext rc' = Cons kc' ∧ usage_count kc' = usage_count kc ∧
      needed_bw rc' = needed_bw rc.
Proof.
  intros Hwf HS (Hok & _) (Hok2 & _) HA c rc kc Hc Hkc.
  destruct (wf_has_peers _ _ Hwf c rc Hc) as (pl & Hpl & _).
  destruct (statics_peers h h2 c rc pl HS Hc Hpl) as (rc' & Hc' & Hpl' & Hst).
  destruct (static_ext_cons rc rc' kc Hst Hkc) as [kc' Hkc'].
  destruct (Hok c rc kc pl Hc Hkc Hpl) as (Hu & Hl & _), (Hok2 c rc' kc' pl Hc' Hkc' Hpl') as (Hu' & Hl' & _).
  exists rc', kc'. split; [done|]. split; [done|]. rewrite Hu, Hl, Hu', Hl'.
  destruct (users_ext (Acc h2) (Acc h) c pl) as [-> ->]; [|done].
  intros i q us Hi. destruct (wf_slot_producer K h c rc kc pl i q us Hwf Hc Hkc Hpl Hi) as (rq & kq & _ & Hq & Hkq & _).
  by eapply HA.
Qed.

(** A request followed by a release leaves no trace in the accounts: the usage
    count and the bandwidth of every consumer are what they were before. *)
Theorem request_release_roundtrip E s p r k :
  no_errors E → prudent_reachable E s → heap s !! p = Some r → ext r = Prod k → state r = IPA_RM_RELEASED →
  ∃ res s1 s2, ipa_rm_request_resource E (name r) s = Some (res, s1) ∧
    ipa_rm_release_resource E (name r) s1 = Some (0, s2) ∧
    ∀ c rc kc, heap s !! c = Some rc → ext rc = Cons kc →
      ∃ rc' kc', heap s2 !! c = Some rc' ∧ ext rc' = Cons kc' ∧ usage_count kc' = usage_count kc ∧
        needed_bw rc' = needed_bw rc.
Proof.
  intros HE Hr Hp Hk Hst. assert (active r = false) as Hact by (unfold active; by rewrite Hst).
  destruct (in_order_heap _ _ (prudent_in_order E s HE Hr)) as (K & Hs & Hwf & Hb & Hstep & _).
  destruct (wf_has_peers _ _ Hwf p r Hp) as (pl & Hpl & _).
  assert (wp (ipa_rm_request_resource E (name r)) (λ res s', kept K (heap s) s'
    (λ h', in_step (heap s) → request_result (heap s) p res h')) s) as Hwp1.
  { eapply wp_producer_op; [done..|]. by apply (wp_producer_request_kept E K HE (heap s) p r k pl). }
  apply wp_elim in Hwp1 as (res & s1 & Hrun1 & h1 & Hs1 & HS1 & Hb1 & _ & Hres).
  destruct (Hres (Hstep I)) as (r1 & Hp1 & Hsame1 & Hcase).
  assert (wf K (statics h1)) as Hwf1 by by rewrite HS1.
  destruct (statics_eq_lookup (heap s) h1 p r1 HS1 Hp1) as (r0 & Hr0 & Hst1). symmetry in Hst1.
  assert (r0 = r) as -> by congruence. destruct (static_ext_prod r r1 k Hst1 Hk) as [k1 Hk1].
  assert (active r1 = true) as Hact1 by (unfold active; by destruct Hcase as [[_ ->]|[_ ->]]).
  assert (peers_list r1 = Some pl) as Hpl1 by by rewrite (static_peers _ _ Hst1).
  assert (wp (ipa_rm_release_resource E (name r1)) (λ res s', kept K h1 s'
    (λ h', res = 0 ∧ prods_same p h1 h' ∧ ∃ r', h' !! p = Some r' ∧ state r' = IPA_RM_RELEASED)) s1) as Hwp2.
  { eapply wp_producer_op; [done..|]. by apply (wp_producer_release_kept E K h1 p r1 k1 pl). }
  apply wp_elim in Hwp2 as (res2 & s2 & Hrun2 & h2 & Hs2 & HS2 & Hb2 & _ & -> & Hsame2 & r2 & Hp2 & Hst2).
  rewrite (name_static _ _ Hst1) in Hrun2. exists res, s1, s2. split; [done|]. split; [done|].
  rewrite (mem_heap _ _ _ Hs2). eapply consumers_restored; [done|congruence|done..|].
  intros q rq kq Hq Hkq c. unfold Acc. destruct (decide (q = p)) as [->|Hne].
  - rewrite Hp, Hact, Hp2. unfold active. by rewrite Hst2.
  - rewrite Hq. by rewrite (Hsame2 q rq kq Hne (Hsame1 q rq kq Hne Hq Hkq) Hkq).
Qed.

Lemma request_release_roundtrip_witness :
  ∃ res s1 s2, ipa_rm_request_resource demo_env IPA_RM_RESOURCE_Q6_PROD (state_after demo_setup) = Some (res, s1) ∧
    ipa_rm_release_resource demo_env IPA_RM_RESOURCE_Q6_PROD s1 = Some (0, s2).
Proof.
  destruct (request_release_roundtrip demo_env (state_after demo_setup) 1%positive
    (resource_after demo_setup 1%positive) (mkProd [mkNotifInfo (mkRegParams 7 (Some 9%positive)) false] 0 0))
    as (res & s1 & s2 & H1 & H2 & _);
    [exact demo_no_errors|apply demo_prudent; by vm_compute|by vm_compute..|].
  exists res, s1, s2. split; [exact H1|exact H2].
Defined.

(** ** Completions *)

(** The completion of a consumer, in full. An event that does not fit the state of
    the consumer changes nothing. One that does moves the consumer on, tells each of its
    producers exactly once ([prod_after_cb]: one pending request less, and granted when
    none is left), and leaves every other resource alone. *)
Theorem completion_effect E s c r k pl ev :
  reachable E s → heap s !! c = Some r → ext r = Cons k → peers_list r = Some pl →
  ∃ s', ipa_rm_wq_handler E IPA_RM_WQ_RESOURCE_CB (name r) ev false s = Some ((), s') ∧
    match cons_after_cb ev r k with
    | None => heap s' = heap s
    | Some r1 =>
        heap s' !! c = Some r1 ∧
        (∀ q rq, is_peer pl q → heap s !! q = Some rq → heap s' !! q = Some (prod_after_cb ev rq)) ∧
        (∀ q, q ≠ c → ¬ is_peer pl q → heap s' !! q = heap s !! q)
    end.
Proof.
  intros Hr Hc Hk Hpl. destruct (reachable_well_formed E s Hr) as (K & h & Hs & Hwf).
  rewrite (mem_heap _ _ _ Hs) in *.
  assert (wp (ipa_rm_wq_handler E IPA_RM_WQ_RESOURCE_CB (name r) ev false)
    (λ _ s', mem K (cb_heap ev c r k pl h) s') s) as Hwp.
  { unfold ipa_rm_wq_handler. rm_step. eapply wp_with_named; [done..|]. rm_step.
    eapply wp_mono; [by eapply (wp_consumer_handle_cb E K c r k pl ev h)|]. cbn beta.
    intros [] s1 Hs1. by apply wp_ret, wp_ret. }
  apply wp_elim in Hwp as ([] & s' & Hrun & Hs'). exists s'. split; [done|].
  rewrite (mem_heap _ _ _ Hs').
  destruct (cb_heap_consumer K c r k pl ev h Hwf Hc Hk Hpl) as [_ Hself]. unfold cb_heap in *.
  destruct (cons_after_cb ev r k) as [r1|]; [|done]. split; [done|]. split.
  - intros q rq (i & us & Hi) Hq.
    destruct (wf_peer _ _ Hwf c r pl i q us Hc Hpl Hi) as (rq' & _ & Hq' & Hn & Ht & _).
    assert (rq' = rq) as -> by congruence.
    assert (q ≠ c) as Hne by (intros ->; assert (r = rq) as -> by congruence; done).
    rewrite lookup_upd_peers, lookup_insert_ne, Hq by done. cbn. f_equal. unfold peer_turn.
    rewrite decide_True; [done|]. rewrite Hn. split; [|apply peer_at_Some; eauto].
    destruct (wf_res_ok _ _ Hwf q rq Hq) as [Hv _]. cbn in Hv. rewrite Hn in Hv. by apply valid_name_index in Hv as [_ ?].
  - intros q Hne Hnot. rewrite lookup_upd_peers, lookup_insert_ne by done.
    destruct (h !! q) as [rq|]; [|done]. cbn. f_equal. unfold peer_turn. rewrite decide_False; [done|].
    intros [_ [us Hi]%peer_at_Some]. apply Hnot. by exists (name rq), us.
Qed.

Definition demo_consumer_waiting : ipa_rm_resource :=
  Eval vm_compute in resource_after demo_request 2%positive.
Definition demo_consumer_list : ipa_rm_peers_list :=
  Eval vm_compute in default empty_list (peers_list demo_consumer_waiting).

Lemma completion_effect_witness :
  ∃ s', ipa_rm_wq_handler demo_env IPA_RM_WQ_RESOURCE_CB 1%nat IPA_RM_RESOURCE_GRANTED false
      (state_after demo_request) = Some ((), s') ∧
    heap s' !! 2%positive =
      Some (with_ext (Cons (mkCons 1 true (Some 1%positive) (Some 1%positive)))
              (with_state IPA_RM_GRANTED demo_consumer_waiting)).
Proof.
  destruct (completion_effect demo_env (state_after demo_request) 2%positive
    demo_consumer_waiting (mkCons 1 false (Some 1%positive) (Some 1%positive))
    demo_consumer_list IPA_RM_RESOURCE_GRANTED)
    as (s' & H1 & H2); [apply demo_reachable; by vm_compute|by vm_compute..|].
  exists s'. split; [exact H1|exact (proj1 H2)].
Defined.
