(* ===== verification/RmGraphProps.v ===== *)
(** * IPA resource manager: the dependency graph

    Dependencies, registrations, creation and deletion: their guards, their effect and
    the round trips between them. *)

From S2P Require Import Prelude.
From S2P Require Import RmTypes.
From S2P Require Import RmPeers.
From S2P Require Import RmCore.
From S2P Require Import RmResource.
From S2P Require Import Rm.
From S2P Require Import RmConsumer.
From S2P Require Import RmWf.
From S2P Require Import RmProducer.
From S2P Require Import RmOps.
From S2P Require Import RmSafety.
From S2P Require Import RmAcct.
From S2P Require Import RmRequest.
From S2P Require Import RmSteps.
From S2P Require Import RmDepsAcct.
From S2P Require Import RmInv.
From S2P Require Import RmExample.
From S2P Require Import RmProps.
From S2P Require Import RmOpsProps.

(** ** Dependencies *)

Lemma set_slot_undo i q pl :
  list_ok pl → peers pl !! i = Some (mkPeer None false) → unlink i (set_slot i q 1 pl) = pl.
Proof.
  intros _ Hi. unfold unlink, set_slot. cbn. rewrite list_insert_insert_eq, (list_insert_id _ _ no_peer) by done.
  destruct pl. cbn. f_equal. lia.
Qed.

Lemma with_peers_undo r pl pl' bw bw' :
  peers_list r = Some pl → bw' = needed_bw r →
  with_peers pl (with_needed_bw bw' (with_needed_bw bw (with_peers pl' r))) = r.
Proof. destruct r. cbn. by intros -> ->. Qed.

Lemma with_peers_id r pl pl' : peers_list r = Some pl → with_peers pl (with_peers pl' r) = r.
Proof. destruct r. cbn. by intros ->. Qed.

Section undo.
Context (E : rm_env) (K : control) (h : rheap) (p d : loc) (rp rd : ipa_rm_resource).
Context (kp : resource_prod) (kd : resource_cons) (plp pld : ipa_rm_peers_list).
Hypotheses (Hwf : wf K (statics h)) (Hp : h !! p = Some rp) (Hd : h !! d = Some rd).
Hypotheses (Hkp : ext rp = Prod kp) (Hkd : ext rd = Cons kd).
Hypotheses (Hplp : peers_list rp = Some plp) (Hpld : peers_list rd = Some pld).

(** Removing the link that was just added to a released producer. *)
Lemma unlink_link us b h' :
  state rp = IPA_RM_RELEASED → u32 (needed_bw rp) = needed_bw rp →
  peers plp !! name rd = Some (mkPeer None b) →
  delete_outcome E p d (link_prod d rd us plp rp) kp (set_slot (name rd) (mkPeer (Some d) us) 1 plp)
    (link_cons p rp us pld rd) kd (set_slot (name rp) (mkPeer (Some p) us) 1 pld)
    (<[d := link_cons p rp us pld rd]> (<[p := link_prod d rd us plp rp]> h)) h' →
  h' = h.
Proof.
  intros Hst Hbw Hslot. pose proof (deps_ne h p d rp rd kp kd Hp Hd Hkp Hkd) as Hne.
  destruct (deps_lists K h p d rp rd plp pld Hwf Hp Hd Hplp Hpld) as [Hokp Hokd].
  destruct (deps_slots K h p d rp rd plp pld Hwf Hp Hd Hplp Hpld)
    as [(b0 & H1 & _)|(b0 & b1 & H1 & H2)]; [congruence|].
  assert (b1 = false) as -> by by eapply (lo_empty _ Hokd).
  rewrite Hslot in H1. injection H1 as <-. assert (b = false) as -> by by eapply (lo_empty _ Hokp).
  unfold delete_outcome, prod_after_delete. cbn [state with_needed_bw link_prod with_peers]. rewrite Hst.
  intros (rd' & -> & ->). rewrite (insert_insert_ne _ p d), insert_insert_eq by done.
  change (name (link_cons p rp us pld rd)) with (name rd). change (name (link_prod d rd us plp rp)) with (name rp).
  rewrite !set_slot_undo by done.
  assert (with_peers pld (link_cons p rp us pld rd) = rd) as -> by by apply with_peers_id.
  unfold link_prod. rewrite with_peers_undo; [|done|].
  - rewrite insert_insert_eq, (insert_id h p rp) by done. by apply insert_id.
  - cbn. rewrite <- Hbw at 2. u32_eq.
Qed.
End undo.

(** Adding a dependency of a released producer and deleting it again, from the same
    origin, restores the memory exactly; both calls return 0. *)
Theorem dependency_roundtrip E s p rp kp d rd kd plp b us :
  no_errors E → reachable E s → heap s !! p = Some rp → ext rp = Prod kp → state rp = IPA_RM_RELEASED →
  heap s !! d = Some rd → ext rd = Cons kd → peers_list rp = Some plp →
  peers plp !! name rd = Some (mkPeer None b) →
  ∃ s1 s2, _ipa_rm_add_dependency E (name rp) (name rd) us s = Some (0, s1) ∧
    _ipa_rm_delete_dependency E (name rp) (name rd) us s1 = Some (0, s2) ∧ heap s2 = heap s.
Proof.
  intros HE Hr Hp Hkp Hst Hd Hkd Hplp Hslot.
  destruct (in_order_heap _ _ (reachable_in_order E s HE Hr)) as (K & Hs & Hwf & (_ & _ & Hb) & _).
  set (h := heap s) in *. destruct (wf_has_peers _ _ Hwf d rd Hd) as (pld & Hpld & _).
  pose proof (deps_ne h p d rp rd kp kd Hp Hd Hkp Hkd) as Hne.
  set (rp1 := link_prod d rd us plp rp). set (rd1 := link_cons p rp us pld rd).
  assert (wp (_ipa_rm_add_dependency E (name rp) (name rd) us)
    (λ res s', res = 0 ∧ mem K (<[d := rd1]> (<[p := rp1]> h)) s') s) as Hwp1.
  { eapply wp_dependency_op; [done..|].
    eapply wp_mono; [by apply (wp_add_dependency E K h p d rp rd kp kd plp pld)|].
    cbn beta. intros res s' (h' & Hs' & [(_ & _ & b' & Hb')|(Hout & _)]); [congruence|].
    unfold add_outcome, active in Hout. rewrite Hst in Hout. by destruct Hout as [-> ->]. }
  apply wp_elim in Hwp1 as (res & s1 & Hrun1 & -> & Hs1).
  pose proof (wf_linked K h p d rp rd kp kd plp pld Hwf Hp Hd Hkp Hkd Hplp Hpld us b Hslot) as Hwf1.
  assert (<[d:=rd1]> (<[p:=rp1]> h) !! p = Some rp1) as Hp1 by by rewrite lookup_insert_ne, lookup_insert_eq.
  assert (<[d:=rd1]> (<[p:=rp1]> h) !! d = Some rd1) as Hd1 by apply lookup_insert_eq.
  assert (wp (_ipa_rm_delete_dependency E (name rp) (name rd) us) (λ res s', res = 0 ∧ mem K h s') s1) as Hwp2.
  { change (name rp) with (name rp1). change (name rd) with (name rd1).
    eapply wp_dependency_op; [done..|]. eapply wp_mono.
    - eapply (wp_delete_linked E K _ p d rp1 rd1 kp kd); try done.
      cbn. apply list_lookup_insert_eq. by eapply lookup_lt_Some.
    - cbn beta. intros res2 s2 (-> & h' & Hs2 & _ & Hout). split; [done|].
      assert (h' = h) as ->; [|done].
      eapply (unlink_link E K h p d rp rd kp kd plp pld); try done.
      rewrite (Hb p rp kp plp Hp Hkp Hplp). apply u32_u32. }
  apply wp_elim in Hwp2 as (res2 & s2 & Hrun2 & -> & Hs2).
  exists s1, s2. split_and!; [done..|]. by apply (mem_heap K).
Qed.

Definition demo_unlinked : list rm_label := take 6 demo_setup.

Lemma dependency_roundtrip_witness :
  ∃ s1 s2, _ipa_rm_add_dependency demo_env 0%nat 1%nat true (state_after demo_unlinked) = Some (0, s1) ∧
    _ipa_rm_delete_dependency demo_env 0%nat 1%nat true s1 = Some (0, s2) ∧
    heap s2 = heap (state_after demo_unlinked).
Proof.
  apply (dependency_roundtrip demo_env (state_after demo_unlinked) 1%positive (resource_after demo_unlinked 1%positive)
    (mkProd [mkNotifInfo (mkRegParams 7 (Some 9%positive)) false] 0 0)
    2%positive (resource_after demo_unlinked 2%positive) (mkCons 0 false (Some 1%positive) (Some 1%positive)) empty_list false);
    [exact demo_no_errors|apply demo_reachable; by vm_compute|by vm_compute..].
Defined.

(** The guards of the dependency operations. Adding a dependency twice fails with
    [-EEXIST], deleting one that does not exist fails with [-EINVAL], and deleting one
    from the wrong side of the kernel boundary (user space for a kernel dependency, or
    the reverse) succeeds without doing anything; in all three cases the memory stays as
    it is. *)
Theorem dependency_guards E s p rp kp d rd kd plp q us :
  reachable E s → heap s !! p = Some rp → ext rp = Prod kp → heap s !! d = Some rd → ext rd = Cons kd →
  peers_list rp = Some plp → peers plp !! name rd = Some q →
  match peer_resource q with
  | Some _ =>
      (∃ s', _ipa_rm_add_dependency E (name rp) (name rd) us s = Some (- EEXIST, s') ∧ heap s' = heap s) ∧
      (us ≠ peer_userspace_dep q →
       ∃ s', _ipa_rm_delete_dependency E (name rp) (name rd) us s = Some (0, s') ∧ heap s' = heap s)
  | None =>
      ∃ s', _ipa_rm_delete_dependency E (name rp) (name rd) us s = Some (- EINVAL, s') ∧ heap s' = heap s
  end.
Proof.
  intros Hr Hp Hkp Hd Hkd Hplp Hslot. destruct (reachable_well_formed E s Hr) as (K & h & Hs & Hwf).
  rewrite (mem_heap _ _ _ Hs) in *. destruct (wf_has_peers _ _ Hwf d rd Hd) as (pld & Hpld & _).
  assert (wp (_ipa_rm_add_dependency E (name rp) (name rd) us)
    (λ res s', peer_resource q ≠ None → res = - EEXIST ∧ mem K h s') s) as Hadd.
  { eapply wp_dependency_op; [done..|].
    eapply wp_mono; [by apply (wp_add_dependency E K h p d rp rd kp kd plp pld)|].
    cbn beta. intros res s' (h' & Hs' & [(-> & -> & _)|(_ & b & Hb)]); [done|].
    rewrite Hslot in Hb. by injection Hb as ->. }
  assert (wp (_ipa_rm_delete_dependency E (name rp) (name rd) us)
    (λ res s', (peer_resource q = None → res = - EINVAL ∧ mem K h s') ∧
       (peer_resource q ≠ None → us ≠ peer_userspace_dep q → res = 0 ∧ mem K h s')) s) as Hdel.
  { eapply wp_dependency_op; [done..|].
    eapply wp_mono; [by apply (wp_delete_dependency E K h p d rp rd kp kd plp pld)|].
    cbn beta. intros res s' (h' & Hs' & [(-> & -> & b & Hb)|[(-> & -> & b & Hb & _)|(_ & Hb & _)]]);
      rewrite Hslot in Hb; injection Hb as ->; cbn; by split. }
  apply wp_elim in Hadd as (ra & sa & Hra & HA), Hdel as (rl & sl & Hrl & HL1 & HL2).
  destruct (peer_resource q) as [x|] eqn:Hq.
  - split.
    + destruct HA as [-> Hsa]; [done|]. exists sa. split; [done|]. by apply (mem_heap K).
    + intros Hus. destruct HL2 as [-> Hsl]; [done..|]. exists sl. split; [done|]. by apply (mem_heap K).
  - destruct HL1 as [-> Hsl]; [done|]. exists sl. split; [done|]. by apply (mem_heap K).
Qed.

Lemma dependency_guards_witness :
  (∃ s', _ipa_rm_add_dependency demo_env 0%nat 3%nat false (state_after demo_setup) = Some (- EEXIST, s') ∧
     heap s' = heap (state_after demo_setup)) ∧
  ∃ s', _ipa_rm_delete_dependency demo_env 0%nat 3%nat false (state_after demo_setup) = Some (0, s') ∧
     heap s' = heap (state_after demo_setup).
Proof.
  destruct (dependency_guards demo_env (state_after demo_setup) 1%positive (resource_after demo_setup 1%positive)
    (mkProd [mkNotifInfo (mkRegParams 7 (Some 9%positive)) false] 0 0)
    3%positive (resource_after demo_setup 3%positive) (mkCons 0 false (Some 2%positive) (Some 2%positive))
    (default empty_list (peers_list (resource_after demo_setup 1%positive))) (mkPeer (Some 3%positive) true) false)
    as [H1 H2]; [apply demo_reachable; by vm_compute|by vm_compute..|].
  split; [exact H1|exact (H2 ltac:(done))].
Defined.

(** ** Registrations *)

Lemma with_listeners_undo r k ls :
  ext r = Prod k →
  with_ext (Prod (with_listeners (event_listeners k) (with_listeners ls k)))
    (with_ext (Prod (with_listeners ls k)) r) = r.
Proof. destruct r, k. cbn. by intros ->. Qed.

Lemma wp_registration_op K h l r k (f : loc → RM Z) (Q : Z → rm_state → Prop) s :
  mem K h s → wf K (statics h) → h !! l = Some r → ext r = Prod k → wp (f l) Q s →
  wp (if negb (IPA_RM_RESORCE_IS_PROD (name r)) then mret (- EINVAL)
      else with_resource (name r) (- EPERM) f) Q s.
Proof.
  intros Hs Hwf Hl Hk Hf. rewrite (prod_name K h l r k Hwf Hl Hk). cbn [negb]. by eapply wp_with_named.
Qed.

(** A client that is not registered either gets [-ENOMEM], with nothing changed, or
    is registered: a second registration of the same callback is refused with [-EPERM],
    and its deregistration returns 0 and restores the memory exactly. *)
Theorem registration_roundtrip E s p r k rp :
  reachable E s → heap s !! p = Some r → ext r = Prod k → rp_notify_cb rp ≠ None →
  cb_registered (rp_notify_cb rp) (event_listeners k) = false →
  ∃ res s1, ipa_rm_register E (name r) rp s = Some (res, s1) ∧
    (res = - ENOMEM ∧ heap s1 = heap s ∨
     res = 0 ∧
     (∃ s2, ipa_rm_register E (name r) rp s1 = Some (- EPERM, s2) ∧ heap s2 = heap s1) ∧
     (∃ s2, ipa_rm_deregister (name r) rp s1 = Some (0, s2) ∧ heap s2 = heap s)).
Proof.
  intros Hr Hp Hk Hcb Hreg. destruct (reachable_well_formed E s Hr) as (K & h & Hs & Hwf).
  rewrite (mem_heap _ _ _ Hs) in *.
  set (k1 := with_listeners (mkNotifInfo rp true :: event_listeners k) k).
  set (r1 := with_ext (Prod k1) r).
  assert (wp (ipa_rm_register E (name r) rp) (λ res s', (res = - ENOMEM ∧ mem K h s') ∨
    (res = 0 ∧ mem K (<[p := r1]> h) s')) s) as Hwp.
  { eapply wp_registration_op; [done..|]. eapply wp_mono; [by eapply (wp_register E K p r k rp true)|].
    cbn beta. intros res s' [(_ & H & _)|[(? & _ & H)|(? & _ & H)]]; [congruence|by left|by right]. }
  apply wp_elim in Hwp as (res & s1 & Hrun & Hcase). exists res, s1. split; [done|].
  destruct Hcase as [[-> Hs1]|[-> Hs1]]; [left; split; [done|by apply (mem_heap K)]|right].
  split; [done|].
  assert (wf K (statics (<[p := r1]> h))) as Hwf1.
  { apply wf_listeners; try done. constructor; [done|].
    destruct (wf_prod_named K h p r (name r) Hwf Hp eq_refl (prod_name K h p r k Hwf Hp Hk)) as (k0 & Hk0 & Hls).
    by assert (k0 = k) as -> by congruence. }
  assert (<[p := r1]> h !! p = Some r1) as Hp1 by apply lookup_insert_eq. split.
  - assert (wp (ipa_rm_register E (name r1) rp) (λ res s', res = - EPERM ∧ mem K (<[p := r1]> h) s') s1) as Hwp.
    { eapply wp_registration_op; [done..|]. eapply wp_mono; [by eapply (wp_register E K p r1 k1 rp true)|].
      assert (cb_registered (rp_notify_cb rp) (event_listeners k1) = true) as Hreg1
        by (unfold cb_registered; cbn; by rewrite bool_decide_eq_true_2).
      cbn beta. intros res s' [(? & _ & H)|[(_ & H & _)|(_ & H & _)]]; [done|congruence..]. }
    apply wp_elim in Hwp as (res & s2 & Hrun2 & -> & Hs2). exists s2. split; [done|].
    by rewrite (mem_heap _ _ _ Hs2), (mem_heap _ _ _ Hs1).
  - assert (wp (ipa_rm_deregister (name r1) rp) (λ res s', res = 0 ∧ mem K h s') s1) as Hwp.
    { eapply wp_registration_op; [done..|]. eapply wp_mono; [by eapply (wp_deregister K p r1 k1 rp)|].
      cbn [remove_listener event_listeners k1 with_listeners reg_params]. rewrite bool_decide_eq_true_2 by done.
      cbn beta. intros res s' [-> H]. split; [done|]. rewrite insert_insert_eq in H.
      subst r1 k1. by rewrite with_listeners_undo, insert_id in H by done. }
    apply wp_elim in Hwp as (res & s2 & Hrun2 & -> & Hs2). exists s2. split; [done|]. by apply (mem_heap K).
Qed.

Lemma registration_roundtrip_witness :
  ∃ res s1, ipa_rm_register demo_env 0%nat (mkRegParams 1 (Some 5%positive)) (state_after demo_setup) = Some (res, s1) ∧
    (res = - ENOMEM ∧ heap s1 = heap (state_after demo_setup) ∨
     res = 0 ∧
     (∃ s2, ipa_rm_register demo_env 0%nat (mkRegParams 1 (Some 5%positive)) s1 = Some (- EPERM, s2) ∧ heap s2 = heap s1) ∧
     (∃ s2, ipa_rm_deregister 0%nat (mkRegParams 1 (Some 5%positive)) s1 = Some (0, s2) ∧
        heap s2 = heap (state_after demo_setup))).
Proof.
  apply (registration_roundtrip demo_env (state_after demo_setup) 1%positive (resource_after demo_setup 1%positive)
    (mkProd [mkNotifInfo (mkRegParams 7 (Some 9%positive)) false] 0 0) (mkRegParams 1 (Some 5%positive)));
    [apply demo_reachable; by vm_compute|by vm_compute..].
Defined.

(** ** Names *)

(** Which names have an entry in the table, and which entry. The two index functions
    of the code agree; the entry of a name is the name itself, so two names never share
    one; the names 11 and 13 count as consumers but have no entry. *)
Theorem name_index_exact n :
  ipa_rm_dep_get_index n = ipa_rm_peers_list_get_resource_index n ∧
  ipa_rm_dep_get_index n =
    (if (n <? IPA_RM_RESOURCE_MAX)%nat && negb (n =? 11)%nat && negb (n =? 13)%nat then Z.of_nat n
     else IPA_RM_INDEX_INVALID) ∧
  IPA_RM_RESORCE_IS_PROD n && IPA_RM_RESORCE_IS_CONS n = false ∧
  IPA_RM_RESORCE_IS_PROD n || IPA_RM_RESORCE_IS_CONS n = (n <? IPA_RM_RESOURCE_MAX)%nat.
Proof.
  split; [done|]. do 22 (destruct n as [|n]; [by vm_compute|]).
  unfold ipa_rm_dep_get_index, IPA_RM_RESORCE_IS_PROD, IPA_RM_RESORCE_IS_CONS.
  assert (∀ m, (22 + m <? IPA_RM_RESOURCE_MAX)%nat = false) as Hge by (intros m; apply Nat.ltb_ge; unfold IPA_RM_RESOURCE_MAX; lia).
  specialize (Hge n). cbn [Nat.add] in Hge. rewrite Hge. by split_and!.
Qed.

(** ** Creation and deletion *)

(** A creation either fails and leaves the memory as it was, whichever allocation
    fails and at whatever point, or succeeds and adds exactly one released resource
    without peers, under a name that has an entry and that no resource had. *)
Theorem create_all_or_nothing E s cp :
  reachable E s → params_ok cp →
  ∃ res s', ipa_rm_create_resource E (Some cp) s = Some (res, s') ∧
    (res ≠ 0 ∧ heap s' = heap s ∨
     res = 0 ∧ valid_name (cp_name cp) = true ∧ (∀ l r, heap s !! l = Some r → name r ≠ cp_name cp) ∧
       ∃ l, heap s !! l = None ∧ heap s' = <[l := new_res cp]> (heap s)).
Proof.
  intros Hr Hcp. destruct (reachable_well_formed E s Hr) as (K & h & Hs & Hwf).
  pose proof (wp_create_resource E K h cp s Hs Hwf Hcp) as Hwp.
  apply wp_elim in Hwp as (res & s' & Hrun & Hcase). exists res, s'. split; [done|].
  rewrite (mem_heap _ _ _ Hs).
  destruct Hcase as [(? & [Hs'|Hs'])|(-> & Hres & Hfresh & [Hv _] & Hs')];
    [left; split; [done|by eapply mem_heap]..|right].
  split; [done|]. split; [done|]. split.
  - intros l r Hl Hn. apply (resolve_None_slot (k_table K) (cp_name cp) Hv Hres l).
    rewrite <- Hn. by apply (wf_in_table _ _ Hwf).
  - exists (k_next K). split; [done|]. by eapply mem_heap.
Qed.

Lemma create_all_or_nothing_witness :
  ∃ res s', ipa_rm_create_resource demo_env (Some demo_producer) (state_after demo_setup) = Some (res, s') ∧
    (res ≠ 0 ∧ heap s' = heap (state_after demo_setup) ∨
     res = 0 ∧ valid_name (cp_name demo_producer) = true ∧
       (∀ l r, heap (state_after demo_setup) !! l = Some r → name r ≠ cp_name demo_producer) ∧
       ∃ l, heap (state_after demo_setup) !! l = None ∧ heap s' = <[l := new_res demo_producer]> (heap (state_after demo_setup))).
Proof.
  apply (create_all_or_nothing demo_env (state_after demo_setup) demo_producer);
    [apply demo_reachable; by vm_compute|by vm_compute].
Defined.

(** The deletion of a resource returns 0, frees that resource and no other, and
    leaves no peers list that still refers to it. *)
Theorem delete_leaves_no_reference E s l r :
  reachable E s → heap s !! l = Some r →
  ∃ s', ipa_rm_delete_resource E (name r) s = Some (0, s') ∧ heap s' !! l = None ∧
    (∀ x, x ≠ l → is_Some (heap s' !! x) ↔ is_Some (heap s !! x)) ∧
    (∀ x rx pl, heap s' !! x = Some rx → peers_list rx = Some pl → ¬ is_peer pl l).
Proof.
  intros Hr Hl. destruct (reachable_well_formed E s Hr) as (K & h & Hs & Hwf).
  rewrite (mem_heap _ _ _ Hs) in *.
  pose (I := λ (l0 : loc) (_ : nat) (h' : rheap), l0 = l ∧ dom h' = dom h ∧ ∃ r1, h' !! l = Some r1 ∧ name r1 = name r).
  assert (wp (ipa_rm_delete_resource E (name r)) (λ res s', (res = - EINVAL ∧ resolve (k_table K) (name r) = None ∧ mem K h s') ∨
         (res = 0 ∧ ∃ l h' r' pl', wf K (statics h') ∧ h' !! l = Some r' ∧ name r' = name r ∧
            peers_list r' = Some pl' ∧ (∀ j, peer_at pl' j = None) ∧ I l IPA_RM_RESOURCE_MAX h' ∧
            length (k_table K) = IPA_RM_RESOURCE_MAX ∧ mem (listed (name r) None K) (delete l h') s')) s) as Hwp.
  { apply (wp_delete_resource E K h (name r) I); [done..| | |].
    - intros l0 r0 Hl0 Hn. split; [by eapply (wf_name_inj _ _ Hwf)|]. eauto.
    - intros l0 i h1 h2 Hwf1 (-> & Hdom & r1 & Hl1 & Hn1) Ht. split; [done|].
      destruct (delete_turn_self E K l i h1 h2 r1 Hwf1 Hl1 Ht) as (r2 & Hl2 & Hn2). split; [|exists r2; split; congruence].
      rewrite <- Hdom. by eapply delete_turn_dom.
    - by intros. }
  apply wp_elim in Hwp as (res & s' & Hrun & [(-> & Hres & _)|(-> & l0 & h' & r' & pl' & Hwf' & Hl' & Hn' & Hpl' & Hnone & (-> & Hdom & _) & Hlen & Hs')]).
  { exfalso. destruct (wf_res_ok _ _ Hwf l r Hl) as [Hv _].
    by apply (resolve_None_slot (k_table K) (name r) Hv Hres l), (wf_in_table _ _ Hwf). }
  exists s'. split; [done|]. rewrite (mem_heap _ _ _ Hs'). split; [apply lookup_delete_eq|]. split.
  - intros x Hx. rewrite lookup_delete_ne by done. by rewrite <- !elem_of_dom, Hdom.
  - intros x rx pl [Hx Hrx]%lookup_delete_Some Hpl (i & us & Hi).
    destruct (wf_peer _ _ Hwf' x rx pl i l us Hrx Hpl Hi) as (r2 & pl2 & Hr2 & _ & _ & Hpl2 & Hback).
    assert (pl2 = pl') as -> by congruence. specialize (Hnone (name rx)). unfold peer_at in Hnone. by rewrite Hback in Hnone.
Qed.

Lemma delete_leaves_no_reference_witness :
  ∃ s', ipa_rm_delete_resource demo_env 1%nat (state_after demo_request) = Some (0, s') ∧
    heap s' !! 2%positive = None ∧
    (∀ x, x ≠ 2%positive → is_Some (heap s' !! x) ↔ is_Some (heap (state_after demo_request) !! x)) ∧
    (∀ x rx pl, heap s' !! x = Some rx → peers_list rx = Some pl → ¬ is_peer pl 2%positive).
Proof.
  apply (delete_leaves_no_reference demo_env (state_after demo_request) 2%positive (resource_after demo_request 2%positive));
    [apply demo_reachable; by vm_compute|by vm_compute].
Defined.
