(* ===== verification/RmVoteProps.v ===== *)
(** * IPA resource manager: the performance vote, and two defects

    The vote computed by [ipa_rm_perf_profile_change] against its specification, and the
    concrete executions that show what the properties of [RmProps.v] cannot promise. *)

From S2P Require Import Prelude.
From S2P Require Import RmTypes.
From S2P Require Import RmPeers.
From S2P Require Import RmCore.
From S2P Require Import RmResource.
From S2P Require Import Rm.
From S2P Require Import RmConsumer.
From S2P Require Import RmWf.
From S2P Require Import RmProducer.
From S2P Require Import RmOps.
From S2P Require Import RmSafety.
From S2P Require Import RmAcct.
From S2P Require Import RmRequest.
From S2P Require Import RmSteps.
From S2P Require Import RmDepsAcct.
From S2P Require Import RmInv.
From S2P Require Import RmExample.
From S2P Require Import RmProps.
From S2P Require Import RmOpsProps.

(** ** The vote *)

(** The votes at the indices where [P] holds, summed. *)
Fixpoint side_bw (P : nat → bool) (i : nat) (l : list Z) : Z :=
  match l with
  | [] => 0
  | b :: l' => (if P i then b else 0) + side_bw P (S i) l'
  end.

Definition not_prod (i : nat) : bool := negb (IPA_RM_RESORCE_IS_PROD i).

Lemma sum_bw_sides l i sp sc :
  sum_bw i l (u32 sp, u32 sc) = (u32 (sp + side_bw IPA_RM_RESORCE_IS_PROD i l), u32 (sc + side_bw not_prod i l)).
Proof.
  revert i sp sc. induction l as [|b l IH]; intros i sp sc; cbn [sum_bw side_bw]; [by rewrite !Z.add_0_r|].
  unfold not_prod at 1. destruct (IPA_RM_RESORCE_IS_PROD i); cbn [negb].
  - rewrite u32_add_l, (IH _ (sp + b) sc). f_equal; f_equal; lia.
  - rewrite u32_add_l, (IH _ sp (sc + b)). f_equal; f_equal; lia.
Qed.

Lemma vote_bw_sides l :
  vote_bw l = Z.min (u32 (side_bw IPA_RM_RESORCE_IS_PROD 0 l)) (u32 (side_bw not_prod 0 l)).
Proof. unfold vote_bw. change (0, 0) with (u32 0, u32 0). by rewrite sum_bw_sides. Qed.

Lemma foldl_max_spec l acc :
  foldl (λ acc v, if acc <? v then v else acc) acc l = foldr Z.max acc l.
Proof.
  revert acc. induction l as [|v l IH]; intros acc; cbn; [done|]. rewrite IH. clear IH.
  assert (∀ a b, foldr Z.max (Z.max a b) l = Z.max a (foldr Z.max b l)) as Hmax.
  { intros a b. induction l as [|x l IH]; cbn; [done|]. rewrite IH. lia. }
  rewrite <- Hmax. f_equal. destruct (Z.ltb_spec acc v); lia.
Qed.

(** The vote of one resource: nothing unless it is granted or being requested. *)
Definition own_bw (r : ipa_rm_resource) : Z := if active r then Z.min (max_bw r) (needed_bw r) else 0.
Definition own_volt (r : ipa_rm_resource) : Z := if active r then floor_voltage r else 0.

(** Steps on a state that is given field by field. *)
Local Ltac run := repeat (wp_steps; cbn [ipa_rm_ctx heap hist resource_table curr_volt curr_bw set_ctx set_hist]).

(** C15: the performance vote. [ipa_rm_perf_profile_change] records the vote of the
    resource, and then votes for the highest voltage of all and for the smaller of the
    producers' and the consumers' total bandwidth; a notification is queued exactly when
    one of the two changed and its work item could be allocated. When there is no memory for the
    item the changed vote is recorded all the same, so that it is never sent. Nothing else
    changes. *)
Theorem perf_vote_exact E s l r c :
  reachable E s → heap s !! l = Some r → ipa_rm_ctx s = CtxLive c →
  ∃ s' c', ipa_rm_perf_profile_change E (name r) s = Some ((), s') ∧ ipa_rm_ctx s' = CtxLive c' ∧
    heap s' = heap s ∧ resource_table c' = resource_table c ∧
    bw_resources c' = <[name r := own_bw r]> (bw_resources c) ∧
    volt c' = <[name r := own_volt r]> (volt c) ∧
    curr_volt c' = foldr Z.max 0 (volt c') ∧
    curr_bw c' = Z.min (u32 (side_bw IPA_RM_RESORCE_IS_PROD 0 (bw_resources c')))
                       (u32 (side_bw not_prod 0 (bw_resources c'))) ∧
    ipa_rm_wq c' = ipa_rm_wq c ++
      (if bool_decide (curr_volt c' = curr_volt c ∧ curr_bw c' = curr_bw c) then []
       else if env_kzalloc E (hist s) then [WorkNotifyIpa (curr_volt c') (curr_bw c')] else []).
Proof.
  intros Hr Hl Hc. destruct (reachable_well_formed E s Hr) as (K & h & Hs & Hwf).
  rewrite (mem_heap _ _ _ Hs) in *. pose proof Hs as (c0 & Heq & (Hlt & Hlv & Hlb & _) & Ht).
  rewrite Heq in Hc. cbn in Hc. injection Hc as ->.
  destruct (wf_res_ok _ _ Hwf l r Hl) as [Hv _]. destruct (valid_name_index _ Hv) as [Hidx Hlen]. cbn in Hidx, Hlen.
  pose proof (wf_in_table _ _ Hwf l r Hl) as Htab. rewrite <- Ht in Htab.
  set (bws := <[name r := own_bw r]> (bw_resources c)). set (vs := <[name r := own_volt r]> (volt c)).
  set (same := (max_volt vs =? curr_volt c) && (vote_bw bws =? curr_bw c)).
  set (wq := ipa_rm_wq c ++ (if same then [] else if env_kzalloc E (hist s)
               then [WorkNotifyIpa (max_volt vs) (vote_bw bws)] else [])).
  assert (wp (ipa_rm_perf_profile_change E (name r)) (λ _ s', heap s' = h ∧
    ipa_rm_ctx s' = CtxLive (mkCtx (resource_table c) wq vs (max_volt vs) bws (vote_bw bws))) s) as Hwp.
  { rewrite Heq. unfold ipa_rm_perf_profile_change, ipa_rm_dep_graph_get_resource, get_ctx, get_res.
    unfold valid_name in Hv. cbn in Hv. apply negb_true_iff in Hv. run. rewrite Hv, Hidx, lookup_z_nat.
    run.
    assert ((match state r with
             | IPA_RM_GRANTED | IPA_RM_REQUEST_IN_PROGRESS => (Z.min (max_bw r) (needed_bw r), floor_voltage r)
             | IPA_RM_RELEASE_IN_PROGRESS | IPA_RM_RELEASED => (0, 0) end) = (own_bw r, own_volt r)) as ->
      by (unfold own_bw, own_volt, active; by destruct (state r)).
    cbn beta iota. rewrite (store_z_nat (bw_resources c)) by lia. run. eapply wp_of_option; [done|]. run.
    rewrite store_z_nat by lia. eapply wp_of_option; [done|]. unfold put_ctx, get_ctx. run. fold bws vs same. subst wq. destruct same; [apply wp_ret; cbn; by rewrite app_nil_r|].
    unfold ipa_rm_perf_profile_notify_to_ipa, kzalloc, log_effect, queue_work, put_ctx, get_ctx. run.
    destruct (env_kzalloc E (hist s)); cbn [when]; run; cbn; by rewrite ?app_nil_r. }
  apply wp_elim in Hwp as ([] & s' & Hrun & Hh & Hctx).
  eexists s', _. split; [done|]. split; [exact Hctx|]. cbn. split_and!; try done.
  - unfold max_volt. apply foldl_max_spec.
  - apply vote_bw_sides.
  - subst wq. do 2 f_equal. unfold same. destruct (Z.eqb_spec (max_volt vs) (curr_volt c)) as [H1|H1],
      (Z.eqb_spec (vote_bw bws) (curr_bw c)) as [H2|H2]; cbn [andb];
      [by rewrite bool_decide_eq_true_2|by rewrite bool_decide_eq_false_2 by tauto..].
Qed.

Definition demo_ctx : ipa_rm_context_type :=
  Eval vm_compute in match ipa_rm_ctx (state_after demo_granted) with CtxLive c => c | _ => fresh_ctx end.

Lemma perf_vote_exact_witness :
  ∃ s' c', ipa_rm_perf_profile_change demo_env 1%nat (state_after demo_granted) = Some ((), s') ∧
    ipa_rm_ctx s' = CtxLive c' ∧ heap s' = heap (state_after demo_granted).
Proof.
  destruct (perf_vote_exact demo_env (state_after demo_granted) 2%positive
    (resource_after demo_granted 2%positive) demo_ctx) as (s' & c' & H1 & H2 & H3 & _);
    [apply demo_reachable; by vm_compute|by vm_compute..|].
  exists s', c'. split; [exact H1|split; [exact H2|exact H3]].
Defined.

(** ** Defects *)

(** The producer waits for [Q6_CONS] and [USB_CONS]; the dependency on the granted
    [HSIC_CONS] is deleted, and one of the two completions arrives. *)
Definition early_grant_script : list rm_label :=
  demo_request ++
  [ StepApi (ApiDeleteDependency 0%nat 7%nat false);
    StepWork; StepApi (ApiNotifyCompletion IPA_RM_RESOURCE_GRANTED 1%nat); StepWork; StepWork ].

(** Deleting the dependency of a waiting producer on a consumer that is already
    granted takes a pending request away that belongs to another consumer: a state is
    reachable in which the producer is granted while a consumer it depends on is not.
    The deletions that [granted_producer_has_granted_consumers] excludes are the cause. *)
Theorem delete_dependency_grants_early :
  ∃ E s p r k pl c rc,
    no_errors E ∧ reachable E s ∧ heap s !! p = Some r ∧ ext r = Prod k ∧ peers_list r = Some pl ∧
    state r = IPA_RM_GRANTED ∧ is_peer pl c ∧ heap s !! c = Some rc ∧
    state rc = IPA_RM_REQUEST_IN_PROGRESS.
Proof.
  eexists demo_env, (state_after early_grant_script), 1%positive, _, _, _, 3%positive, _.
  split; [exact demo_no_errors|]. split; [apply demo_reachable; by vm_compute|].
  split; [vm_compute; reflexivity|]. split; [reflexivity|]. split; [reflexivity|]. split; [reflexivity|].
  split; [exists 3%nat, true; vm_compute; reflexivity|]. split; [vm_compute; reflexivity|reflexivity].
Qed.

(** A timed request of [USB_CONS], after which the module is closed. *)
Definition timer_script : list rm_label := demo_setup ++ [StepApi (ApiRequestTimer 3%nat)].

(** [ipa_rm_exit] does not cancel the delayed releases it leaves behind: after a
    timed request, the module can be closed without fault, but the release whose timer
    is still running then dereferences the null [ipa_rm_ctx]. *)
Theorem exit_leaves_delayed_release :
  ∃ E s s' d, no_errors E ∧ reachable E s ∧ ipa_rm_exit E s = Some ((), s') ∧
    delayed s' = [d] ∧ delayed_release_work_func E d s' = None.
Proof.
  assert (∃ s' d, ipa_rm_exit demo_env (state_after timer_script) = Some ((), s') ∧ delayed s' = [d] ∧
    delayed_release_work_func demo_env d s' = None) as (s' & d & H).
  { destruct (ipa_rm_exit demo_env (state_after timer_script)) as [[[] s']|] eqn:Hx; [|by vm_compute in Hx].
    exists s', (mkDelayed 3%nat 0 false). split; [done|]. vm_compute in Hx. injection Hx as <-. by split. }
  exists demo_env, (state_after timer_script), s', d.
  split; [exact demo_no_errors|]. split; [apply demo_reachable; by vm_compute|done].
Qed.
