(* ===== verification/Qmi.v ===== *)
(** * vendor-init: QMI messages

    [qmi.c]: the header and the TLVs of a request are written into a local array, the
    TLVs of a response are searched in the datagram that was received. A local array is
    a list of cells that are uninitialised until they are written; a write outside it is
    undefined. A received datagram is the list of its bytes, and a read outside it, even
    inside the array that holds it, is undefined. *)

From S2P Require Import Prelude.

(** ** Bytes *)

Definition byte_list (l : list Z) : Prop := Forall (λ b, 0 ≤ b < 256) l.

(** [v & 0xff], [(v >> 8) & 0xff]... *)
Definition byte_of (v : Z) (k : nat) : Z := Z.land (Z.shiftr v (8 * Z.of_nat k)) 0xff.

Definition le2 (v : Z) : list Z := [byte_of v 0; byte_of v 1].
Definition le4 (v : Z) : list Z := [byte_of v 0; byte_of v 1; byte_of v 2; byte_of v 3].

(** ** Building a request *)

Definition buffer : Type := list (option Z).

(** [uint8_t req[n];] *)
Definition uninit (n : nat) : buffer := replicate n None.

Definition set_byte (b : buffer) (i v : Z) : option buffer := store_z b i (Some v).

(** [memcpy(&b[off], data, len)], one byte after the other. *)
Fixpoint copy_bytes (b : buffer) (off : Z) (data : list Z) : option buffer :=
  match data with
  | [] => Some b
  | v :: data' => b' ← set_byte b off v; copy_bytes b' (off + 1) data'
  end.

Definition QMI_FLAG_REQ : Z := 0.
Definition QMI_FLAG_RESP : Z := 2.

Definition qmi_hdr_req (b : buffer) (txid msg_id body_len : Z) : option (buffer * Z) :=
  b ← set_byte b 0 QMI_FLAG_REQ;
  b ← set_byte b 1 (byte_of txid 0);
  b ← set_byte b 2 (byte_of txid 1);
  b ← set_byte b 3 (byte_of msg_id 0);
  b ← set_byte b 4 (byte_of msg_id 1);
  b ← set_byte b 5 (byte_of body_len 0);
  b ← set_byte b 6 (byte_of body_len 1);
  Some (b, 7).

(** [data] is the object behind the pointer, which the copy must not leave; [len] is a
    [uint16_t] parameter, so the argument is cut to 16 bits. *)
Definition qmi_tlv_bytes (b : buffer) (off type : Z) (data : list Z) (len : Z) :
    option (buffer * Z) :=
  let len := u16 len in
  b ← set_byte b off type;
  b ← set_byte b (off + 1) (byte_of len 0);
  b ← set_byte b (off + 2) (byte_of len 1);
  if Z.of_nat (length data) <? len then None
  else
    b ← copy_bytes b (off + 3) (take (Z.to_nat len) data);
    Some (b, off + 3 + len).

Definition qmi_tlv_u8 (b : buffer) (off type v : Z) : option (buffer * Z) :=
  qmi_tlv_bytes b off type [u8 v] 1.
Definition qmi_tlv_u16 (b : buffer) (off type v : Z) : option (buffer * Z) :=
  qmi_tlv_bytes b off type (le2 v) 2.
Definition qmi_tlv_u32 (b : buffer) (off type v : Z) : option (buffer * Z) :=
  qmi_tlv_bytes b off type (le4 v) 4.

(** The two stores that end every request:
    [uint16_t body = off - after_hdr; req[5] = body & 0xff; req[6] = body >> 8;] *)
Definition set_body_len (b : buffer) (off after_hdr : Z) : option buffer :=
  let body := u16 (off - after_hdr) in
  b ← set_byte b 5 (byte_of body 0);
  set_byte b 6 (byte_of body 1).

(** The first [len] bytes of the array, handed to the kernel: they must be inside it and
    initialised. *)
Definition read_buffer (b : buffer) (len : Z) : option (list Z) :=
  if (0 <=? len) && (len <=? Z.of_nat (length b))
  then mapM (λ c, c) (take (Z.to_nat len) b) else None.

(** ** Reading a response *)

(** [p[i] | (p[i + 1] << 8)] *)
Definition read_u16 (p : list Z) (i : Z) : option Z :=
  lo ← lookup_z p i;
  hi ← lookup_z p (i + 1);
  Some (Z.lor lo (Z.shiftl hi 8)).

(** The loop of [qmi_tlv_find] from [i] on. [fuel] bounds the number of turns; [None] is
    also the result when it runs out. *)
Fixpoint tlv_scan (fuel : nat) (p : list Z) (n type i : Z) : option (option (Z * Z)) :=
  match fuel with
  | O => None
  | S fuel' =>
      if i + 3 <=? n then
        t ← lookup_z p i;
        l ← read_u16 p (i + 1);
        if n <? i + 3 + l then Some None
        else if t =? type then Some (Some (i + 3, l))
        else tlv_scan fuel' p n type (i + 3 + l)
      else Some None
  end.

(** The offset and the length of the first TLV of that type. *)
Definition qmi_tlv_find (p : list Z) (n type : Z) : option (option (Z * Z)) :=
  tlv_scan (S (Z.to_nat n)) p n type 7.

Definition qmi_result (p : list Z) (n : Z) : option Z :=
  r ← qmi_tlv_find p n 0x02;
  match r with
  | Some (off, len) => if len <? 4 then Some (-1) else read_u16 p (off + 2)
  | None => Some (-1)
  end.

Definition qmi_tlv_get_u32 (p : list Z) (n type : Z) : option (option Z) :=
  r ← qmi_tlv_find p n type;
  match r with
  | Some (off, len) =>
      if len <? 4 then Some None
      else
        b0 ← lookup_z p off;
        b1 ← lookup_z p (off + 1);
        b2 ← lookup_z p (off + 2);
        b3 ← lookup_z p (off + 3);
        Some (Some (u32 (Z.lor (Z.lor (Z.lor b0 (Z.shiftl b1 8)) (Z.shiftl b2 16)) (Z.shiftl b3 24))))
  | None => Some None
  end.
