(* ===== verification/QmiScan.v ===== *)
(** * vendor-init: facts on QMI messages

    Bytes of integers, the layout that the builders produce in a request array, and the
    scan of the TLVs of a datagram.

    Every datagram is a header, a sequence of TLVs and a rest that is no TLV; the scan of
    [qmi_tlv_find] is a search in that sequence. The two accessors follow. *)

From S2P Require Import Prelude.
From S2P Require Import Qmi.

(** ** Bytes *)

Lemma byte_of_spec v k : byte_of v k = (v / 2 ^ (8 * Z.of_nat k)) mod 256.
Proof.
  unfold byte_of. rewrite Z.shiftr_div_pow2 by lia. change 0xff with (Z.ones 8).
  by rewrite Z.land_ones by lia.
Qed.

Lemma byte_of_range v k : 0 ≤ byte_of v k < 256.
Proof. rewrite byte_of_spec. apply Z.mod_pos_bound. lia. Qed.

(** Bytes at different places do not overlap, so that [|] adds them. *)
Lemma lor_shifted a b k : 0 ≤ k → 0 ≤ a < 2 ^ k → Z.lor a (Z.shiftl b k) = a + b * 2 ^ k.
Proof.
  intros Hk Ha. rewrite Z.shiftl_mul_pow2 by lia.
  rewrite <- Z.add_nocarry_lor; [done|].
  apply Z.bits_inj'. intros n Hn. rewrite Z.land_spec, Z.bits_0.
  destruct (Z.ltb_spec n k).
  - rewrite Z.mul_pow2_bits_low by lia. by rewrite andb_false_r.
  - destruct (Z.eq_dec a 0) as [->|]; [by rewrite Z.bits_0|].
    rewrite (Z.bits_above_log2 a n); [done|lia|].
    apply Z.log2_lt_pow2; [lia|]. apply Z.lt_le_trans with (2 ^ k); [lia|].
    apply Z.pow_le_mono_r; lia.
Qed.

Definition le2_value (a b : Z) : Z := Z.lor a (Z.shiftl b 8).
Definition le4_value (a b c d : Z) : Z :=
  Z.lor (Z.lor (Z.lor a (Z.shiftl b 8)) (Z.shiftl c 16)) (Z.shiftl d 24).

Lemma le2_value_sum a b : 0 ≤ a < 256 → le2_value a b = a + 256 * b.
Proof. intros Ha. unfold le2_value. rewrite lor_shifted by (simpl; lia). lia. Qed.

Lemma le4_value_sum a b c d :
  0 ≤ a < 256 → 0 ≤ b < 256 → 0 ≤ c < 256 →
  le4_value a b c d = a + 256 * b + 65536 * c + 16777216 * d.
Proof.
  intros Ha Hb Hc. unfold le4_value. fold (le2_value a b). rewrite le2_value_sum by done.
  pose proof (eq_refl : 2 ^ 16 = 65536) as H16. pose proof (eq_refl : 2 ^ 24 = 16777216) as H24.
  rewrite (lor_shifted _ c 16), (lor_shifted _ d 24); lia.
Qed.

Lemma le2_value_range a b : 0 ≤ a < 256 → 0 ≤ b < 256 → 0 ≤ le2_value a b < 65536.
Proof. intros. rewrite le2_value_sum by done. lia. Qed.

(** Decoding the bytes of an integer cuts it to their width. *)
Lemma le2_decode v : le2_value (byte_of v 0) (byte_of v 1) = u16 v.
Proof.
  rewrite le2_value_sum by apply byte_of_range. rewrite !byte_of_spec. unfold u16.
  change (2 ^ (8 * Z.of_nat 0)) with 1. change (2 ^ (8 * Z.of_nat 1)) with 256.
  change (2 ^ 16) with (256 * 256). rewrite Z.div_1_r, Z.rem_mul_r by lia. lia.
Qed.

Lemma le4_decode v :
  le4_value (byte_of v 0) (byte_of v 1) (byte_of v 2) (byte_of v 3) = u32 v.
Proof.
  rewrite le4_value_sum by apply byte_of_range. rewrite !byte_of_spec. unfold u32.
  change (2 ^ (8 * Z.of_nat 0)) with 1. change (2 ^ (8 * Z.of_nat 1)) with 256.
  change (2 ^ (8 * Z.of_nat 2)) with (256 * 256). change (2 ^ (8 * Z.of_nat 3)) with (256 * 256 * 256).
  change (2 ^ 32) with (256 * (256 * (256 * 256))).
  rewrite Z.div_1_r, !Z.rem_mul_r by lia. rewrite <- !Z.div_div by lia. lia.
Qed.

Lemma le2_length v : length (le2 v) = 2%nat.
Proof. done. Qed.

(** ** The layout of a message *)

(** A TLV and a message as the protocol defines them. *)
Definition encode_tlv (t : Z * list Z) : list Z :=
  [t.1] ++ le2 (Z.of_nat (length t.2)) ++ t.2.
Definition encode_tlvs (ts : list (Z * list Z)) : list Z := mjoin (encode_tlv <$> ts).
Definition encode_hdr (flag txid msg_id body_len : Z) : list Z :=
  [flag] ++ le2 txid ++ le2 msg_id ++ le2 body_len.
Definition encode_msg (flag txid msg_id : Z) (ts : list (Z * list Z)) : list Z :=
  encode_hdr flag txid msg_id (Z.of_nat (length (encode_tlvs ts))) ++ encode_tlvs ts.

Lemma encode_tlv_length t : length (encode_tlv t) = (3 + length t.2)%nat.
Proof. done. Qed.

Lemma encode_tlvs_one t : encode_tlvs [t] = encode_tlv t.
Proof. unfold encode_tlvs. simpl. by rewrite app_nil_r. Qed.

Lemma encode_tlvs_app ts us : encode_tlvs (ts ++ us) = encode_tlvs ts ++ encode_tlvs us.
Proof. unfold encode_tlvs. by rewrite fmap_app, join_app. Qed.

(** ** Writing into a request array *)

(** The array starts with the bytes [l]. *)
Definition starts_with (b : buffer) (l : list Z) : Prop :=
  ∃ rest, b = (Some <$> l) ++ rest.

Lemma starts_with_nil b : starts_with b [].
Proof. by exists b. Qed.

Lemma starts_with_length b l : starts_with b l → (length l ≤ length b)%nat.
Proof. intros [r ->]. rewrite length_app, length_fmap. lia. Qed.

Lemma set_byte_app (p : list (option Z)) (c : option Z) q (v : Z) :
  set_byte (p ++ c :: q) (Z.of_nat (length p)) v = Some (p ++ Some v :: q).
Proof.
  unfold set_byte. rewrite store_z_nat by (rewrite length_app; simpl; lia).
  rewrite <- (Nat.add_0_r (length p)) at 1. by rewrite insert_app_r.
Qed.

Lemma set_byte_next b l off v :
  starts_with b l → off = Z.of_nat (length l) → (length l < length b)%nat →
  ∃ b', set_byte b off v = Some b' ∧ starts_with b' (l ++ [v]) ∧ length b' = length b.
Proof.
  intros [r ->] -> Hlen. rewrite length_app, length_fmap in Hlen.
  destruct r as [|c r]; [simpl in Hlen; lia|].
  exists ((Some <$> l) ++ Some v :: r). split_and!.
  - rewrite <- (length_fmap Some l). apply set_byte_app.
  - exists r. by rewrite fmap_app, <- (assoc_L (++)).
  - by rewrite !length_app.
Qed.

Lemma set_byte_over b l off v :
  starts_with b l → 0 ≤ off < Z.of_nat (length l) →
  ∃ b', set_byte b off v = Some b' ∧ starts_with b' (<[Z.to_nat off := v]> l) ∧
        length b' = length b.
Proof.
  intros [r ->] Hoff. destruct (Z_of_nat_complete off) as [n ->]; [lia|]. rewrite Nat2Z.id.
  unfold set_byte. rewrite store_z_nat by (rewrite length_app, length_fmap; lia).
  eexists. split_and!; [done| |by rewrite length_insert].
  exists r. rewrite list_fmap_insert. apply insert_app_l. rewrite length_fmap. lia.
Qed.

(** The array is full. *)
Lemma set_byte_full b off v : Z.of_nat (length b) ≤ off → set_byte b off v = None.
Proof.
  intros Hoff. unfold set_byte, store_z. rewrite (proj2 (Z.ltb_ge off _)) by lia.
  by rewrite andb_false_r.
Qed.

Lemma set_byte_length b off v b' : set_byte b off v = Some b' → length b' = length b.
Proof.
  unfold set_byte, store_z. destruct (_ && _); [|done].
  intros [= <-]. apply length_insert.
Qed.

Lemma copy_bytes_next data : ∀ b l off,
  starts_with b l → off = Z.of_nat (length l) → (length l + length data ≤ length b)%nat →
  ∃ b', copy_bytes b off data = Some b' ∧ starts_with b' (l ++ data) ∧ length b' = length b.
Proof.
  induction data as [|v data IH]; intros b l off Hs Hoff Hlen; simpl in *.
  - exists b. by rewrite app_nil_r.
  - destruct (set_byte_next b l off v) as (b1 & -> & Hs1 & Hl1); [done..|lia|]. simpl.
    destruct (IH b1 (l ++ [v]) (off + 1)) as (b' & -> & Hs' & Hl'); [done|..].
    + rewrite length_app. simpl. lia.
    + rewrite length_app. simpl. lia.
    + exists b'. rewrite <- (assoc_L (++)) in Hs'. split_and!; [done..|congruence].
Qed.

Lemma copy_bytes_length data : ∀ b off b', copy_bytes b off data = Some b' → length b' = length b.
Proof.
  induction data as [|v data IH]; intros b off b'; simpl; [by intros [= ->]|].
  destruct (set_byte b off v) as [b1|] eqn:E; [|done]. simpl. intros He.
  apply IH in He. apply set_byte_length in E. congruence.
Qed.

Lemma copy_bytes_full data : ∀ b off,
  0 ≤ off → data ≠ [] → Z.of_nat (length b) < off + Z.of_nat (length data) →
  copy_bytes b off data = None.
Proof.
  induction data as [|v data IH]; intros b off H0 Hne Hlen; [done|]. simpl in *.
  destruct (decide (Z.of_nat (length b) ≤ off)) as [Hf|Hf].
  - by rewrite set_byte_full.
  - destruct (set_byte b off v) as [b1|] eqn:E; [|done]. simpl.
    apply set_byte_length in E. apply IH; [lia|intros ->; simpl in *; lia|lia].
Qed.

(** ** The builders *)

(** An array that starts with a message whose body length is not stored yet. *)
Definition partial_msg (b : buffer) (off txid msg_id : Z) (ts : list (Z * list Z)) : Prop :=
  ∃ len, starts_with b (encode_hdr QMI_FLAG_REQ txid msg_id len ++ encode_tlvs ts) ∧
         off = 7 + Z.of_nat (length (encode_tlvs ts)).

Lemma hdr_spec b txid msg_id body_len :
  (7 ≤ length b)%nat →
  ∃ b', qmi_hdr_req b txid msg_id body_len = Some (b', 7) ∧ length b' = length b ∧
        starts_with b' (encode_hdr QMI_FLAG_REQ txid msg_id body_len).
Proof.
  intros Hlen. unfold qmi_hdr_req. pose proof (starts_with_nil b) as Hs0.
  edestruct (set_byte_next b) as (b1 & -> & Hs1 & Hl1); [done|done|simpl; lia|]. simpl.
  edestruct (set_byte_next b1) as (b2 & -> & Hs2 & Hl2); [done|done|simpl; lia|]. simpl.
  edestruct (set_byte_next b2) as (b3 & -> & Hs3 & Hl3); [done|done|simpl; lia|]. simpl.
  edestruct (set_byte_next b3) as (b4 & -> & Hs4 & Hl4); [done|done|simpl; lia|]. simpl.
  edestruct (set_byte_next b4) as (b5 & -> & Hs5 & Hl5); [done|done|simpl; lia|]. simpl.
  edestruct (set_byte_next b5) as (b6 & -> & Hs6 & Hl6); [done|done|simpl; lia|]. simpl.
  edestruct (set_byte_next b6) as (b7 & -> & Hs7 & Hl7); [done|done|simpl; lia|]. simpl.
  exists b7. split_and!; [done|congruence|done].
Qed.

Lemma hdr_req_spec b txid msg_id body_len :
  (7 ≤ length b)%nat →
  ∃ b', qmi_hdr_req b txid msg_id body_len = Some (b', 7) ∧ length b' = length b ∧
        partial_msg b' 7 txid msg_id [].
Proof.
  intros Hlen. destruct (hdr_spec b txid msg_id body_len) as (b' & -> & Hl & Hs); [done|].
  exists b'. split_and!; [done..|]. exists body_len. by rewrite app_nil_r.
Qed.

Lemma tlv_bytes_starts b l off type data len :
  starts_with b l → off = Z.of_nat (length l) → 0 ≤ len ≤ Z.of_nat (length data) →
  len < 65536 → off + 3 + len ≤ Z.of_nat (length b) →
  ∃ b', qmi_tlv_bytes b off type data len = Some (b', off + 3 + len) ∧ length b' = length b ∧
        starts_with b' (l ++ encode_tlv (type, take (Z.to_nat len) data)).
Proof.
  intros Hs -> Hlen H16 Hsz. unfold qmi_tlv_bytes.
  assert (u16 len = len) as -> by (apply Z.mod_small; lia).
  edestruct (set_byte_next b l) as (b1 & -> & Hs1 & Hl1); [done..|lia|]. simpl.
  edestruct (set_byte_next b1) as (b2 & -> & Hs2 & Hl2);
    [done|rewrite length_app; simpl; lia..|]. simpl.
  edestruct (set_byte_next b2) as (b3 & -> & Hs3 & Hl3);
    [done|rewrite !length_app; simpl; lia..|]. simpl.
  rewrite (proj2 (Z.ltb_ge _ len)) by lia.
  edestruct (copy_bytes_next (take (Z.to_nat len) data) b3) as (b4 & -> & Hs4 & Hl4);
    [done|rewrite !length_app; simpl; lia|rewrite !length_app, length_take; simpl; lia|].
  simpl. exists b4. split_and!; [done|congruence|].
  unfold encode_tlv. simpl. rewrite length_take, Nat.min_l, Z2Nat.id by lia.
  rewrite <- !(assoc_L (++)) in Hs4. done.
Qed.

Lemma tlv_bytes_spec b off txid msg_id ts type data len :
  partial_msg b off txid msg_id ts → 0 ≤ len ≤ Z.of_nat (length data) → len < 65536 →
  off + 3 + len ≤ Z.of_nat (length b) →
  ∃ b', qmi_tlv_bytes b off type data len = Some (b', off + 3 + len) ∧ length b' = length b ∧
        partial_msg b' (off + 3 + len) txid msg_id (ts ++ [(type, take (Z.to_nat len) data)]).
Proof.
  intros (l & Hs & ->) Hlen H16 Hsz.
  edestruct (tlv_bytes_starts b) as (b' & -> & Hl & Hs'); [done|..].
  - rewrite length_app. simpl. lia.
  - done.
  - done.
  - lia.
  - exists b'. split_and!; [done..|]. exists l.
    rewrite encode_tlvs_app, encode_tlvs_one, (assoc_L (++)). split; [done|].
    rewrite length_app, encode_tlv_length. simpl. rewrite length_take. lia.
Qed.

(** The same for data that is passed whole. *)
Lemma tlv_data_spec b off txid msg_id ts type data len :
  partial_msg b off txid msg_id ts → len = Z.of_nat (length data) → len < 65536 →
  off + 3 + len ≤ Z.of_nat (length b) →
  ∃ b', qmi_tlv_bytes b off type data len = Some (b', off + 3 + len) ∧ length b' = length b ∧
        partial_msg b' (off + 3 + len) txid msg_id (ts ++ [(type, data)]).
Proof.
  intros Hp -> H16 Hsz.
  destruct (tlv_bytes_spec b off txid msg_id ts type data (Z.of_nat (length data)))
    as (b' & He & Hl & Hp'); [done|lia|done|done|].
  exists b'. split_and!; [done..|]. by rewrite Nat2Z.id, firstn_all in Hp'.
Qed.

(** An array too short for a TLV: a byte is written outside it. *)
Lemma tlv_bytes_overflow b off type data len :
  0 ≤ off → 0 ≤ len < 65536 → Z.of_nat (length b) < off + 3 + len →
  qmi_tlv_bytes b off type data len = None.
Proof.
  intros H0 Hlen Hsz. unfold qmi_tlv_bytes.
  assert (u16 len = len) as -> by (apply Z.mod_small; lia).
  destruct (set_byte b off type) as [b1|] eqn:E1; [|done]. simpl.
  destruct (set_byte b1 (off + 1) _) as [b2|] eqn:E2; [|done]. simpl.
  destruct (set_byte b2 (off + 2) _) as [b3|] eqn:E3; [|done]. simpl.
  destruct (Z.ltb_spec (Z.of_nat (length data)) len) as [|Hd]; [done|].
  apply set_byte_length in E1. apply set_byte_length in E2.
  destruct (decide (Z.of_nat (length b) ≤ off + 2)).
  { rewrite set_byte_full in E3 by lia. done. }
  apply set_byte_length in E3.
  rewrite copy_bytes_full; [done|lia| |rewrite length_take; lia].
  destruct data as [|v data]; [simpl in *; lia|].
  destruct (Z.to_nat len) eqn:E; [lia|done].
Qed.

Lemma set_body_len_spec b off txid msg_id ts :
  partial_msg b off txid msg_id ts →
  ∃ b', set_body_len b off 7 = Some b' ∧ length b' = length b ∧
        starts_with b' (encode_hdr QMI_FLAG_REQ txid msg_id (u16 (off - 7)) ++ encode_tlvs ts).
Proof.
  intros (l & Hs & Hoff). unfold set_body_len.
  assert (∀ x, 7 ≤ length (encode_hdr QMI_FLAG_REQ txid msg_id l ++ x))%nat as H7
    by (intros; rewrite length_app; simpl; lia).
  edestruct (set_byte_over b) as (b1 & -> & Hs1 & Hl1); [done|specialize (H7 (encode_tlvs ts)); lia|].
  simpl. edestruct (set_byte_over b1) as (b2 & -> & Hs2 & Hl2);
    [done|rewrite length_insert; specialize (H7 (encode_tlvs ts)); lia|].
  exists b2. split_and!; [done|congruence|done].
Qed.

Lemma read_buffer_spec b l len :
  starts_with b l → len = Z.of_nat (length l) → read_buffer b len = Some l.
Proof.
  intros [r ->] ->. unfold read_buffer. rewrite length_app, length_fmap.
  rewrite (proj2 (Z.leb_le 0 _)) by lia. rewrite (proj2 (Z.leb_le _ (Z.of_nat _))) by lia.
  simpl. rewrite Nat2Z.id, <- (length_fmap Some l), take_app_length.
  apply mapM_Some, Forall2_fmap_l. induction l; by constructor.
Qed.

(** A request array that holds a finished message of [off] bytes. *)
Definition complete_msg (b : buffer) (off txid msg_id : Z) (ts : list (Z * list Z)) : Prop :=
  starts_with b (encode_msg QMI_FLAG_REQ txid msg_id ts) ∧
  off = Z.of_nat (length (encode_msg QMI_FLAG_REQ txid msg_id ts)).

Lemma complete_read b off txid msg_id ts :
  complete_msg b off txid msg_id ts →
  read_buffer b off = Some (encode_msg QMI_FLAG_REQ txid msg_id ts).
Proof. intros [Hs ->]. by apply read_buffer_spec. Qed.

Lemma complete_hdr b txid msg_id :
  (7 ≤ length b)%nat →
  ∃ b', qmi_hdr_req b txid msg_id 0 = Some (b', 7) ∧ length b' = length b ∧
        complete_msg b' 7 txid msg_id [].
Proof.
  intros Hlen. destruct (hdr_spec b txid msg_id 0) as (b' & -> & Hl & Hs); [done|].
  exists b'. split_and!; [done..|]. split; [by rewrite <- (app_nil_r (encode_hdr _ _ _ _)) in Hs|done].
Qed.

Lemma set_body_len_complete b off txid msg_id ts :
  partial_msg b off txid msg_id ts → off < 65536 →
  ∃ b', set_body_len b off 7 = Some b' ∧ length b' = length b ∧
        complete_msg b' off txid msg_id ts.
Proof.
  intros Hp H16. destruct (set_body_len_spec b off txid msg_id ts) as (b' & -> & Hl & Hs); [done|].
  destruct Hp as (l & _ & ->). exists b'. split_and!; [done..|].
  assert (u16 (7 + Z.of_nat (length (encode_tlvs ts)) - 7) = Z.of_nat (length (encode_tlvs ts)))
    as Hu by (unfold u16; rewrite Z.mod_small; lia).
  rewrite Hu in Hs. split; [done|]. unfold encode_msg. rewrite length_app.
  simpl length at 2. lia.
Qed.

(** * vendor-init: facts on the scan of a datagram *)

(** ** The reference view *)

(** The data of the first TLV of that type. *)
Fixpoint tlv_of (type : Z) (ts : list (Z * list Z)) : option (list Z) :=
  match ts with
  | [] => None
  | t :: ts' => if t.1 =? type then Some t.2 else tlv_of type ts'
  end.

(** Where it is when the first TLV starts at [i]: the offset and the length of the data. *)
Fixpoint tlv_at (i type : Z) (ts : list (Z * list Z)) : option (Z * Z) :=
  match ts with
  | [] => None
  | t :: ts' =>
      let l := Z.of_nat (length t.2) in
      if t.1 =? type then Some (i + 3, l) else tlv_at (i + 3 + l) type ts'
  end.

(** Bytes that do not start with a whole TLV. *)
Definition no_tlv (junk : list Z) : Prop :=
  (length junk < 3)%nat ∨
  ∃ t a b d, junk = t :: a :: b :: d ∧ Z.of_nat (length d) < le2_value a b.

(** The TLVs of a datagram. *)
Definition message_tlvs (p : list Z) (ts : list (Z * list Z)) : Prop :=
  Forall (λ t, Z.of_nat (length t.2) < 65536) ts ∧
  ∃ junk, no_tlv junk ∧ drop 7 p = encode_tlvs ts ++ junk.

Lemma le2_parts v : 0 ≤ v < 65536 → ∀ a b, 0 ≤ a < 256 → 0 ≤ b < 256 → le2_value a b = v →
  le2 v = [a; b].
Proof.
  intros Hv a b Ha Hb <-. rewrite le2_value_sum by done. unfold le2.
  rewrite !byte_of_spec. change (2 ^ (8 * Z.of_nat 0)) with 1.
  change (2 ^ (8 * Z.of_nat 1)) with 256.
  f_equal; [|f_equal]; [rewrite Z.div_1_r|]; Z.div_mod_to_equations; lia.
Qed.

Lemma byte_list_cons b l : byte_list (b :: l) ↔ 0 ≤ b < 256 ∧ byte_list l.
Proof. apply Forall_cons_iff. Qed.

Lemma split_tlvs q :
  byte_list q →
  ∃ ts junk, Forall (λ t, Z.of_nat (length t.2) < 65536) ts ∧ no_tlv junk ∧
             q = encode_tlvs ts ++ junk.
Proof.
  remember (length q) as n eqn:Hn. revert q Hn.
  induction (lt_wf n) as [n _ IH]. intros q -> Hq.
  assert (no_tlv q → ∃ ts junk, Forall (λ t, Z.of_nat (length t.2) < 65536) ts ∧ no_tlv junk ∧
                                q = encode_tlvs ts ++ junk) as Hno
    by (intros; exists [], q; split_and!; [apply Forall_nil_2|done|done]).
  destruct q as [|t [|a [|b d]]]; [apply Hno; left; simpl; lia..|].
  apply byte_list_cons in Hq as [Ht Hq]. apply byte_list_cons in Hq as [Ha Hq].
  apply byte_list_cons in Hq as [Hb Hq].
  pose proof (le2_value_range a b Ha Hb) as Hv.
  destruct (decide (Z.of_nat (length d) < le2_value a b)) as [Hs|Hs].
  { apply Hno. right. eauto 10. }
  set (l := Z.to_nat (le2_value a b)).
  assert (length (take l d) = l) as Hl by (rewrite length_take; lia).
  edestruct (IH (length (drop l d))) as (ts & junk & Hts & Hj & He);
    [rewrite length_drop; simpl; lia|done|by apply Forall_drop|].
  exists ((t, take l d) :: ts), junk. split_and!; [|done|].
  - constructor; [simpl; lia|done].
  - change (encode_tlvs ((t, take l d) :: ts)) with (encode_tlv (t, take l d) ++ encode_tlvs ts).
    rewrite <- (assoc_L (++)), <- He. unfold encode_tlv. simpl snd. rewrite Hl.
    rewrite (le2_parts (Z.of_nat l) ltac:(lia) a b) by lia. simpl. by rewrite take_drop.
Qed.

Lemma message_tlvs_exist p : byte_list p → ∃ ts, message_tlvs p ts.
Proof.
  intros Hp. destruct (split_tlvs (drop 7 p)) as (ts & junk & H1 & H2 & H3).
  { by apply Forall_drop. }
  exists ts. split; [done|]. by exists junk.
Qed.

(** ** The scan is the search *)

Lemma lookup_z_app (p q : list Z) i :
  lookup_z (p ++ q) (Z.of_nat (length p) + Z.of_nat i) = q !! i.
Proof. rewrite <- Nat2Z.inj_add, lookup_z_nat. by rewrite lookup_app_r, Nat.add_comm, Nat.add_sub by lia. Qed.

Lemma lookup_z_app0 (p q : list Z) : lookup_z (p ++ q) (Z.of_nat (length p)) = q !! 0%nat.
Proof. rewrite <- (lookup_z_app p q 0). f_equal. lia. Qed.

Lemma read_u16_app (p q : list Z) i a b :
  q !! i = Some a → q !! S i = Some b →
  read_u16 (p ++ q) (Z.of_nat (length p) + Z.of_nat i) = Some (le2_value a b).
Proof.
  intros Ha Hb. unfold read_u16. rewrite lookup_z_app, Ha. simpl.
  replace (Z.of_nat (length p) + Z.of_nat i + 1) with (Z.of_nat (length p) + Z.of_nat (S i)) by lia.
  by rewrite lookup_z_app, Hb.
Qed.

Lemma scan_junk fuel pre junk type :
  no_tlv junk → (0 < fuel)%nat →
  tlv_scan fuel (pre ++ junk) (Z.of_nat (length (pre ++ junk))) type (Z.of_nat (length pre)) =
  Some None.
Proof.
  intros Hj Hf. destruct fuel as [|fuel]; [lia|]. simpl. rewrite length_app.
  destruct Hj as [Hj|(t & a & b & d & -> & Hd)].
  - by rewrite (proj2 (Z.leb_gt _ _)) by lia.
  - simpl length. rewrite (proj2 (Z.leb_le _ _)) by lia.
    rewrite lookup_z_app0. simpl.
    change 1 with (Z.of_nat 1) at 1. rewrite (read_u16_app pre _ 1 a b) by done. simpl.
    by rewrite (proj2 (Z.ltb_lt _ _)) by lia.
Qed.

Lemma scan_tlvs ts type : ∀ fuel pre junk,
  Forall (λ t, Z.of_nat (length t.2) < 65536) ts → no_tlv junk →
  (length (encode_tlvs ts) < fuel)%nat →
  tlv_scan fuel (pre ++ encode_tlvs ts ++ junk)
    (Z.of_nat (length (pre ++ encode_tlvs ts ++ junk))) type (Z.of_nat (length pre)) =
  Some (tlv_at (Z.of_nat (length pre)) type ts).
Proof.
  induction ts as [|[t d] ts IH]; intros fuel pre junk Hts Hj Hf.
  { apply scan_junk; [done|lia]. }
  apply Forall_cons_iff in Hts as [Hd Hts]. simpl in Hd.
  change (encode_tlvs ((t, d) :: ts)) with (encode_tlv (t, d) ++ encode_tlvs ts) in *.
  rewrite length_app, encode_tlv_length in Hf. simpl in Hf.
  destruct fuel as [|fuel]; [lia|].
  rewrite <- (assoc_L (++)).
  set (rest := encode_tlvs ts ++ junk) in *.
  assert (length (pre ++ encode_tlv (t, d) ++ rest) =
          length pre + (3 + length d) + length rest)%nat as Hlen
    by (rewrite !length_app, encode_tlv_length; simpl; lia).
  cbn [tlv_scan]. rewrite Hlen. rewrite (proj2 (Z.leb_le _ _)) by lia.
  rewrite lookup_z_app0. simpl lookup.
  change 1 with (Z.of_nat 1) at 1.
  rewrite (read_u16_app pre _ 1 (byte_of (Z.of_nat (length d)) 0) (byte_of (Z.of_nat (length d)) 1))
    by done.
  rewrite le2_decode. assert (u16 (Z.of_nat (length d)) = Z.of_nat (length d)) as ->
    by (unfold u16; rewrite Z.mod_small; lia).
  cbn [mbind option_bind]. rewrite (proj2 (Z.ltb_ge _ _)) by lia.
  cbn [tlv_at fst snd]. destruct (t =? type); [done|].
  rewrite <- Hlen, (assoc_L (++)). subst rest.
  replace (Z.of_nat (length pre) + 3 + Z.of_nat (length d))
    with (Z.of_nat (length (pre ++ encode_tlv (t, d))))
    by (rewrite length_app, encode_tlv_length; simpl; lia).
  apply IH; [done..|lia].
Qed.

(** The search in a whole datagram. *)
Lemma find_tlvs p ts type :
  message_tlvs p ts → qmi_tlv_find p (Z.of_nat (length p)) type = Some (tlv_at 7 type ts).
Proof.
  intros (Hts & junk & Hj & He). unfold qmi_tlv_find. rewrite Nat2Z.id.
  destruct (decide (7 ≤ length p)%nat) as [Hp|Hp].
  - rewrite <- (take_drop 7 p) at 2 3. rewrite He.
    assert (length (take 7 p) = 7%nat) as H7 by (rewrite length_take; lia).
    replace 7 with (Z.of_nat (length (take 7 p))) by (by rewrite H7).
    apply scan_tlvs; [done..|].
    apply (f_equal length) in He. rewrite length_drop, length_app in He. lia.
  - rewrite drop_ge in He by lia. symmetry in He. apply app_eq_nil in He as [He _].
    assert (ts = []) as -> by (destruct ts; [done|by destruct p0]).
    simpl. by rewrite (proj2 (Z.leb_gt _ _)) by lia.
Qed.

(** ** The data behind the offset *)

Lemma tlv_at_data ts type : ∀ i, tlv_at i type ts = None ∧ tlv_of type ts = None ∨
  ∃ d pre post, encode_tlvs ts = pre ++ d ++ post ∧ tlv_of type ts = Some d ∧
    tlv_at i type ts = Some (i + Z.of_nat (length pre), Z.of_nat (length d)) ∧
    (3 ≤ length pre)%nat ∧ pre !! (length pre - 3)%nat = Some type.
Proof.
  induction ts as [|[t d] ts IH]; intros i; [by left|]. simpl.
  change (encode_tlvs ((t, d) :: ts)) with (encode_tlv (t, d) ++ encode_tlvs ts).
  destruct (Z.eqb_spec t type) as [->|].
  - right. exists d, ([type] ++ le2 (Z.of_nat (length d))), (encode_tlvs ts).
    split_and!; [by unfold encode_tlv; rewrite <- !(assoc_L (++))|done|done|simpl; lia|done].
  - destruct (IH (i + 3 + Z.of_nat (length d))) as [[H1 H2]|(d' & pre & post & H1 & H2 & H3 & H4 & H5)];
      [by left|right].
    exists d', (encode_tlv (t, d) ++ pre), post.
    rewrite length_app, encode_tlv_length. simpl snd. split_and!.
    + by rewrite <- (assoc_L (++)), <- H1.
    + done.
    + rewrite H3. do 2 f_equal. lia.
    + lia.
    + replace (3 + length d + length pre - 3)%nat
        with (length (encode_tlv (t, d)) + (length pre - 3))%nat
        by (rewrite encode_tlv_length; simpl; lia).
      by rewrite lookup_app_r, Nat.add_comm, Nat.add_sub by lia.
Qed.

(** What the scan finds, for the readers of the data: nothing, or data inside the datagram
    at a known offset. *)
Lemma find_data p ts type :
  message_tlvs p ts →
  qmi_tlv_find p (Z.of_nat (length p)) type = Some None ∧ tlv_of type ts = None ∨
  ∃ off d pre post, p = pre ++ d ++ post ∧ off = Z.of_nat (length pre) ∧ 10 ≤ off ∧
    tlv_of type ts = Some d ∧ lookup_z p (off - 3) = Some type ∧
    qmi_tlv_find p (Z.of_nat (length p)) type = Some (Some (off, Z.of_nat (length d))).
Proof.
  intros Hp. rewrite (find_tlvs p ts) by done. destruct Hp as (Hts & junk & Hj & He).
  destruct (tlv_at_data ts type 7) as [[-> ->]|(d & pre & post & H1 & H2 & H3 & H4 & H5)]; [by left|].
  right. rewrite H3. rewrite H1, <- !(assoc_L (++)) in He.
  assert (length (take 7 p) = 7%nat) as H7.
  { rewrite length_take. apply (f_equal length) in He.
    rewrite length_drop, length_app in He. lia. }
  assert (p = (take 7 p ++ pre) ++ d ++ post ++ junk) as Hp.
  { rewrite <- (assoc_L (++)), <- He. by rewrite take_drop. }
  exists (Z.of_nat (length (take 7 p ++ pre))), d, (take 7 p ++ pre), (post ++ junk).
  split_and!; [done|done| |done| |].
  - rewrite length_app, H7. lia.
  - rewrite length_app, H7.
    replace (Z.of_nat (7 + length pre) - 3)
      with (Z.of_nat (length (take 7 p)) + Z.of_nat (length pre - 3)) by lia.
    rewrite <- (take_drop 7 p) at 1. rewrite lookup_z_app, He.
    by rewrite lookup_app_l by lia.
  - rewrite length_app, H7. do 3 f_equal. lia.
Qed.

(** ** The accessors *)

(** The first four bytes of the data of that type, if it has them. *)
Definition first_word (type : Z) (ts : list (Z * list Z)) : option Z :=
  match tlv_of type ts with
  | Some (a :: b :: c :: d :: _) => Some (le4_value a b c d)
  | _ => None
  end.

Definition result_code (ts : list (Z * list Z)) : Z :=
  match tlv_of 2 ts with
  | Some (_ :: _ :: c :: d :: _) => le2_value c d
  | _ => -1
  end.

Lemma result_spec p ts :
  message_tlvs p ts → qmi_result p (Z.of_nat (length p)) = Some (result_code ts).
Proof.
  intros Hp. unfold qmi_result, result_code.
  destruct (find_data p ts 2) as [[-> ->]|(off & d & pre & post & -> & -> & Ho & -> & Ht & ->)];
    [done..|]. cbn [mbind option_bind].
  destruct d as [|a [|b [|c [|e d]]]];
    [by rewrite (proj2 (Z.ltb_lt _ _)) by (simpl; lia)..|].
  rewrite (proj2 (Z.ltb_ge _ _)) by (simpl; lia).
  change 2 with (Z.of_nat 2) at 1. by apply read_u16_app.
Qed.

Lemma get_u32_spec p ts type :
  message_tlvs p ts →
  qmi_tlv_get_u32 p (Z.of_nat (length p)) type = Some (u32 <$> first_word type ts).
Proof.
  intros Hp. unfold qmi_tlv_get_u32, first_word.
  destruct (find_data p ts type) as [[-> ->]|(off & d & pre & post & -> & -> & Ho & -> & Ht & ->)];
    [done..|]. cbn [mbind option_bind].
  destruct d as [|a [|b [|c [|e d]]]];
    [by rewrite (proj2 (Z.ltb_lt _ _)) by (simpl; lia)..|].
  rewrite (proj2 (Z.ltb_ge _ _)) by (simpl; lia).
  change 1 with (Z.of_nat 1). change 2 with (Z.of_nat 2). change 3 with (Z.of_nat 3).
  rewrite lookup_z_app0, !lookup_z_app. done.
Qed.

(** The data of a message that was built is found again. *)
Lemma encode_msg_tlvs flag txid msg_id ts :
  Forall (λ t, Z.of_nat (length t.2) < 65536) ts →
  message_tlvs (encode_msg flag txid msg_id ts) ts.
Proof.
  intros Hts. split; [done|]. exists []. split; [left; simpl; lia|]. by rewrite app_nil_r.
Qed.
