(* ===== verification/ViTypes.v ===== *)
(** * vendor-init: context, kernel interface and state files

    The [struct vi_ctx] that every stage receives, the program's view of the operating
    system, and [state.c]. The operating system is the class [Kernel]: the answer of every
    call may depend on everything that happened before it. The history of the calls is
    part of the state, so that a theorem can say what a stage sends. Logging ([log.c]) is
    left out: no decision of the program depends on it. *)

From stdpp Require Import pretty.
From S2P Require Import Prelude.
From S2P Require Import Qmi.

(** ** [struct vi_ctx] (vendor-init.h)

    The four flags only ever hold 0 and 1. The APN is a C string. *)

Record vi_ctx := mkViCtx {
  fd : Z;
  txid : Z;
  wds_port : Z;
  wda_port : Z;
  dpm_port : Z;
  dsd_port : Z;
  bearer_pkt_data_handle : Z;
  bearer_ipv4 : Z;
  bearer_gw : Z;
  bearer_mask : Z;
  bearer_dns1 : Z;
  bearer_dns2 : Z;
  bearer_mtu : Z;
  apn : string;
  dry_run : bool;
  skip_mm : bool;
  num_muxes : Z;
  full_ul : bool;
  simple_wds : bool;
}.

(** The object behind [ctx->apn]: the characters and the terminating NUL. *)
Definition c_bytes (s : string) : list Z :=
  map (λ a, Z.of_N (Ascii.N_of_ascii a)) (String.list_ascii_of_string s).
Definition c_object (s : string) : list Z := c_bytes s ++ [0].
Definition strlen (s : string) : Z := Z.of_nat (String.length s).

(** ** What the program does, newest first in a history *)

Inductive event :=
  | ESocket (r : Z)
  | EClose (fd : Z)
  | ESend (fd node port : Z) (data : list Z) (ok : bool)
  | EPoll (fd timeout r : Z)
  | ERecv (fd size : Z) (datagram : option (list Z))
  | EMkdir (path : string)
  | EWrite (path data : string) (ok : bool)
  | ESystem (cmd : string) (rc : Z)
  | EUsleep (us : Z) (cut : bool)
  | EClock (sec : Z)
  | EPause.

(** The kernel and the C library. [k_recvfrom] is the datagram that arrives, or [None] if
    the call fails; [k_signalled]: was SIGINT or SIGTERM delivered by now; [k_cut]: does a signal
    end the [usleep] that is called now, with EINTR; [k_cuts]: how often that can happen. *)
Class Kernel := {
  k_socket : list event → Z;
  k_sendto : list event → Z;
  k_poll : list event → Z;
  k_recvfrom : list event → option (list Z);
  k_fopen : list event → string → bool;
  k_system : list event → string → Z;
  k_clock : list event → Z;
  k_signalled : list event → bool;
  k_cut : list event → bool;
  k_cuts : nat;
}.

(** ** The state of the process

    [open_fds] are the sockets it holds. The static [dir_ensured] of [state.c] and the
    [g_stop] of [vendor-init.c] are part of it, and so are the files it wrote. *)
Record vi_state := mkVi {
  vctx : vi_ctx;
  files : gmap string string;
  dir_ensured : bool;
  g_stop : bool;
  open_fds : list Z;
  hist : list event;
}.

Abbreviation VI := (M vi_state).

Definition on_ctx (f : vi_ctx → vi_ctx) (s : vi_state) : vi_state :=
  mkVi (f (vctx s)) (files s) (dir_ensured s) (g_stop s) (open_fds s) (hist s).
Definition on_files (f : gmap string string → gmap string string) (s : vi_state) : vi_state :=
  mkVi (vctx s) (f (files s)) (dir_ensured s) (g_stop s) (open_fds s) (hist s).
Definition on_fds (f : list Z → list Z) (s : vi_state) : vi_state :=
  mkVi (vctx s) (files s) (dir_ensured s) (g_stop s) (f (open_fds s)) (hist s).
Definition ensured (s : vi_state) : vi_state :=
  mkVi (vctx s) (files s) true (g_stop s) (open_fds s) (hist s).
Definition stopped (s : vi_state) : vi_state :=
  mkVi (vctx s) (files s) (dir_ensured s) true (open_fds s) (hist s).
Definition logged (e : event) (s : vi_state) : vi_state :=
  mkVi (vctx s) (files s) (dir_ensured s) (g_stop s) (open_fds s) (e :: hist s).

Definition get_vctx : VI vi_ctx := s ← get; mret (vctx s).
Definition upd_vctx (f : vi_ctx → vi_ctx) : VI () := modify (on_ctx f).
Definition emit (e : event) : VI () := modify (logged e).

(** ** Field updates of the context *)

Definition ctx_set_bearer_socket (f port t : Z) (c : vi_ctx) : vi_ctx :=
  mkViCtx f t port (wda_port c) (dpm_port c) (dsd_port c)
    (bearer_pkt_data_handle c) (bearer_ipv4 c) (bearer_gw c) (bearer_mask c) (bearer_dns1 c)
    (bearer_dns2 c) (bearer_mtu c) (apn c) (dry_run c) (skip_mm c) (num_muxes c) (full_ul c)
    (simple_wds c).
Definition ctx_set_fd (v : Z) (c : vi_ctx) := ctx_set_bearer_socket v (wds_port c) (txid c) c.
Definition ctx_set_txid (v : Z) (c : vi_ctx) := ctx_set_bearer_socket (fd c) (wds_port c) v c.
Definition ctx_set_wds_port (v : Z) (c : vi_ctx) := ctx_set_bearer_socket (fd c) v (txid c) c.
Definition ctx_set_ports (wda dpm dsd : Z) (c : vi_ctx) : vi_ctx :=
  mkViCtx (fd c) (txid c) (wds_port c) wda dpm dsd
    (bearer_pkt_data_handle c) (bearer_ipv4 c) (bearer_gw c) (bearer_mask c) (bearer_dns1 c)
    (bearer_dns2 c) (bearer_mtu c) (apn c) (dry_run c) (skip_mm c) (num_muxes c) (full_ul c)
    (simple_wds c).
Definition ctx_set_wda_port (v : Z) (c : vi_ctx) := ctx_set_ports v (dpm_port c) (dsd_port c) c.
Definition ctx_set_dpm_port (v : Z) (c : vi_ctx) := ctx_set_ports (wda_port c) v (dsd_port c) c.
Definition ctx_set_dsd_port (v : Z) (c : vi_ctx) := ctx_set_ports (wda_port c) (dpm_port c) v c.
Definition ctx_set_bearer (pdh ipv4 gw mask dns1 dns2 mtu : Z) (c : vi_ctx) : vi_ctx :=
  mkViCtx (fd c) (txid c) (wds_port c) (wda_port c) (dpm_port c) (dsd_port c)
    pdh ipv4 gw mask dns1 dns2 mtu (apn c) (dry_run c) (skip_mm c) (num_muxes c) (full_ul c)
    (simple_wds c).
Definition ctx_set_pdh (v : Z) (c : vi_ctx) :=
  ctx_set_bearer v (bearer_ipv4 c) (bearer_gw c) (bearer_mask c) (bearer_dns1 c)
    (bearer_dns2 c) (bearer_mtu c) c.
Definition ctx_set_ipv4 (v : Z) (c : vi_ctx) :=
  ctx_set_bearer (bearer_pkt_data_handle c) v (bearer_gw c) (bearer_mask c) (bearer_dns1 c)
    (bearer_dns2 c) (bearer_mtu c) c.
Definition ctx_set_gw (v : Z) (c : vi_ctx) :=
  ctx_set_bearer (bearer_pkt_data_handle c) (bearer_ipv4 c) v (bearer_mask c) (bearer_dns1 c)
    (bearer_dns2 c) (bearer_mtu c) c.
Definition ctx_set_mask (v : Z) (c : vi_ctx) :=
  ctx_set_bearer (bearer_pkt_data_handle c) (bearer_ipv4 c) (bearer_gw c) v (bearer_dns1 c)
    (bearer_dns2 c) (bearer_mtu c) c.
Definition ctx_set_dns1 (v : Z) (c : vi_ctx) :=
  ctx_set_bearer (bearer_pkt_data_handle c) (bearer_ipv4 c) (bearer_gw c) (bearer_mask c) v
    (bearer_dns2 c) (bearer_mtu c) c.
Definition ctx_set_dns2 (v : Z) (c : vi_ctx) :=
  ctx_set_bearer (bearer_pkt_data_handle c) (bearer_ipv4 c) (bearer_gw c) (bearer_mask c)
    (bearer_dns1 c) v (bearer_mtu c) c.
Definition ctx_set_mtu (v : Z) (c : vi_ctx) :=
  ctx_set_bearer (bearer_pkt_data_handle c) (bearer_ipv4 c) (bearer_gw c) (bearer_mask c)
    (bearer_dns1 c) (bearer_dns2 c) v c.
Definition ctx_set_flags (dry skip ful simple : bool) (c : vi_ctx) : vi_ctx :=
  mkViCtx (fd c) (txid c) (wds_port c) (wda_port c) (dpm_port c) (dsd_port c)
    (bearer_pkt_data_handle c) (bearer_ipv4 c) (bearer_gw c) (bearer_mask c) (bearer_dns1 c)
    (bearer_dns2 c) (bearer_mtu c) (apn c) dry skip (num_muxes c) ful simple.
Definition ctx_set_simple_wds (v : bool) (c : vi_ctx) :=
  ctx_set_flags (dry_run c) (skip_mm c) (full_ul c) v c.
Definition ctx_set_dry_run (v : bool) (c : vi_ctx) :=
  ctx_set_flags v (skip_mm c) (full_ul c) (simple_wds c) c.
Definition ctx_set_skip_mm (v : bool) (c : vi_ctx) :=
  ctx_set_flags (dry_run c) v (full_ul c) (simple_wds c) c.
Definition ctx_set_full_ul (v : bool) (c : vi_ctx) :=
  ctx_set_flags (dry_run c) (skip_mm c) v (simple_wds c) c.
Definition ctx_set_options (a : string) (n : Z) (c : vi_ctx) : vi_ctx :=
  mkViCtx (fd c) (txid c) (wds_port c) (wda_port c) (dpm_port c) (dsd_port c)
    (bearer_pkt_data_handle c) (bearer_ipv4 c) (bearer_gw c) (bearer_mask c) (bearer_dns1 c)
    (bearer_dns2 c) (bearer_mtu c) a (dry_run c) (skip_mm c) n (full_ul c) (simple_wds c).

(** [ctx->txid++]: the value before, as a [uint16_t]. *)
Definition next_txid : VI Z :=
  c ← get_vctx; upd_vctx (ctx_set_txid (u16 (txid c + 1))) ;; mret (txid c).

(** ** System calls *)

Section Calls.
Context `{Kernel}.

Definition socket : VI Z :=
  s ← get;
  let r := k_socket (hist s) in
  emit (ESocket r) ;;
  when (0 <=? r) (modify (on_fds (cons r))) ;;
  mret r.

Fixpoint remove_fd (fd : Z) (l : list Z) : option (list Z) :=
  match l with
  | [] => None
  | x :: l' => if x =? fd then Some l' else cons x <$> remove_fd fd l'
  end.

(** Closing a socket the process does not hold is treated as undefined. *)
Definition close (fd : Z) : VI () :=
  s ← get;
  l ← of_option (remove_fd fd (open_fds s));
  modify (on_fds (λ _, l)) ;;
  emit (EClose fd).

(** [sendto] on a socket that is not open fails with EBADF. *)
Definition sendto (fd node port : Z) (data : list Z) : VI bool :=
  s ← get;
  let ok := bool_decide (fd ∈ open_fds s) && (0 <=? k_sendto (hist s)) in
  emit (ESend fd node port data ok) ;;
  mret ok.

Definition poll (fd timeout : Z) : VI Z :=
  s ← get;
  let r := k_poll (hist s) in
  emit (EPoll fd timeout r) ;;
  mret r.

(** The bytes that arrive in a buffer of [size] bytes, or [None] for an error; a longer
    datagram is cut. *)
Definition recvfrom (fd size : Z) : VI (option (list Z)) :=
  s ← get;
  let d := if bool_decide (fd ∈ open_fds s)
           then (λ l, take (Z.to_nat size) (map u8 l)) <$> k_recvfrom (hist s) else None in
  emit (ERecv fd size d) ;;
  mret d.

(** It returns early when a signal arrives; the program does not look at its result. *)
Definition usleep (us : Z) : VI () := s ← get; emit (EUsleep us (k_cut (hist s))).

(** [clock_gettime(CLOCK_MONOTONIC)], the seconds. *)
Definition clock_gettime : VI Z :=
  s ← get;
  let t := k_clock (hist s) in
  emit (EClock t) ;;
  mret t.

Definition system (cmd : string) : VI Z :=
  s ← get;
  let rc := k_system (hist s) cmd in
  emit (ESystem cmd rc) ;;
  mret rc.

(** [fopen(path, "w")], the writes and [fclose]; the result says whether it opened. *)
Definition fopen_write (path data : string) : VI bool :=
  s ← get;
  let ok := k_fopen (hist s) path in
  emit (EWrite path data ok) ;;
  when ok (modify (on_files <[path := data]>)) ;;
  mret ok.

(** Reads the volatile [g_stop]; a handler that ran has set it for good. *)
Definition read_stop : VI bool :=
  s ← get;
  if g_stop s || k_signalled (hist s) then modify stopped ;; mret true else mret false.

(** ** state.c *)

Definition STATE_DIR : string := "/run/vendor-init".
Definition newline : string := String (Ascii.ascii_of_nat 10) EmptyString.

(** [snprintf] into [char buf[n]] *)
Definition snprintf (n : nat) (s : string) : string := String.substring 0 (n - 1) s.

Definition ensure_dir : VI () :=
  s ← get;
  if dir_ensured s then mret ()
  else emit (EMkdir STATE_DIR) ;; modify ensured.

Definition write_file (name value : string) : VI () :=
  ensure_dir ;;
  fopen_write (snprintf 256 (STATE_DIR +:+ "/" +:+ name)) (value +:+ newline) ;;
  mret ().

Definition state_set_stage (stage : string) : VI () := write_file "stage" stage.
Definition state_set_result (result : string) : VI () := write_file "state" result.
(** [value] is the text the format produces. *)
Definition state_record (key value : string) : VI () := write_file key (snprintf 256 value).

End Calls.

(** ** Formats *)

Definition hex_digit (d : Z) : string :=
  match String.get (Z.to_nat d) "0123456789abcdef" with
  | Some c => String c EmptyString
  | None => EmptyString
  end.
Definition fmt_08x (v : Z) : string :=
  String.concat "" (map (λ k, hex_digit (Z.land (Z.shiftr v (4 * k)) 15)) [7; 6; 5; 4; 3; 2; 1; 0]).
Definition fmt_ip (v : Z) : string :=
  pretty (byte_of v 3) +:+ "." +:+ pretty (byte_of v 2) +:+ "." +:+
  pretty (byte_of v 1) +:+ "." +:+ pretty (byte_of v 0).
