(* ===== verification/Qrtr.v ===== *)
(** * vendor-init: the QRTR socket

    [qrtr.c]: opening a socket, looking a service up at the name server and exchanging a
    QMI request for its response. The two loops count down the turns the code allows. *)

From S2P Require Import Prelude.
From S2P Require Import Qmi.
From S2P Require Import ViTypes.

Definition QRTR_SVC_WDS : Z := 0x0001.
Definition QRTR_SVC_DMS : Z := 0x0002.
Definition QRTR_SVC_NAS : Z := 0x0003.
Definition QRTR_SVC_WDA : Z := 0x001A.
Definition QRTR_SVC_DPM : Z := 0x002F.
Definition QRTR_SVC_DSD : Z := 0x0042.

Definition QRTR_PORT_CTRL : Z := 0xfffffffe.
Definition QRTR_TYPE_NEW_SERVER : Z := 4.
Definition QRTR_TYPE_NEW_LOOKUP : Z := 10.

(** ** [struct qrtr_ctrl_pkt] (linux/qrtr.h)

    Five little-endian words: the command and the service, instance, node and port of a
    server. The machine is little-endian, so a field is read without a conversion. *)

Definition qrtr_ctrl_pkt (cmd service instance node port : Z) : list Z :=
  le4 cmd ++ le4 service ++ le4 instance ++ le4 node ++ le4 port.
Definition sizeof_ctrl_pkt : Z := 20.

(** The [i]-th word of the packet. *)
Definition ctrl_word (p : list Z) (i : Z) : option Z :=
  b0 ← lookup_z p (4 * i);
  b1 ← lookup_z p (4 * i + 1);
  b2 ← lookup_z p (4 * i + 2);
  b3 ← lookup_z p (4 * i + 3);
  Some (Z.lor (Z.lor (Z.lor b0 (Z.shiftl b1 8)) (Z.shiftl b2 16)) (Z.shiftl b3 24)).

Section Qrtr.
Context `{Kernel}.

Definition qrtr_open : VI Z := socket.

(** The body of the loop of [qrtr_lookup] after a packet: the port, or [None] to read on. *)
Definition lookup_reply (service : Z) (p : list Z) : option (option Z) :=
  if Z.of_nat (length p) <? sizeof_ctrl_pkt then Some None
  else
    cmd ← ctrl_word p 0;
    if negb (cmd =? QRTR_TYPE_NEW_SERVER) then Some None
    else
      svc ← ctrl_word p 1;
      if negb (svc =? service) then Some None
      else
        port ← ctrl_word p 4;
        if port =? 0 then Some None else Some (Some port).

Fixpoint lookup_loop (turns : nat) (fd service : Z) : VI Z :=
  match turns with
  | O => mret 0
  | S turns' =>
      pr ← poll fd 500;
      if pr <=? 0 then mret 0
      else
        d ← recvfrom fd sizeof_ctrl_pkt;
        match d with
        | None => lookup_loop turns' fd service
        | Some p =>
            r ← of_option (lookup_reply service p);
            match r with
            | Some port => mret port
            | None => lookup_loop turns' fd service
            end
        end
  end.

Definition qrtr_lookup (fd service : Z) : VI Z :=
  ok ← sendto fd 1 QRTR_PORT_CTRL (qrtr_ctrl_pkt QRTR_TYPE_NEW_LOOKUP service 0 0 0);
  if (ok : bool) then lookup_loop 64 fd service else mret 0.

(** Is the datagram the response to [msg_id]? Undefined only if it is read outside. *)
Definition txn_reply (msg_id : Z) (p : list Z) : option bool :=
  if Z.of_nat (length p) <? 5 then Some false
  else
    mid ← read_u16 p 3;
    ctl ← lookup_z p 0;
    Some ((ctl =? QMI_FLAG_RESP) && (mid =? msg_id)).

(** The response is the list of the bytes received; [None] is the result -1. *)
Fixpoint txn_loop (turns : nat) (fd msg_id resp_sz timeout_ms : Z) : VI (option (list Z)) :=
  match turns with
  | O => mret None
  | S turns' =>
      pr ← poll fd timeout_ms;
      if pr <=? 0 then mret None
      else
        d ← recvfrom fd resp_sz;
        match d with
        | None => txn_loop turns' fd msg_id resp_sz timeout_ms
        | Some p =>
            ok ← of_option (txn_reply msg_id p);
            if (ok : bool) then mret (Some p)
            else txn_loop turns' fd msg_id resp_sz timeout_ms
        end
  end.

Definition qrtr_txn (fd node port : Z) (req : list Z) (msg_id resp_sz timeout_ms : Z) :
    VI (option (list Z)) :=
  ok ← sendto fd node port req;
  if (ok : bool) then txn_loop 32 fd msg_id resp_sz timeout_ms else mret None.

(** [qrtr_txn] as the stages call it: the first [req_len] bytes of the array [req]. *)
Definition txn (fd port : Z) (req : buffer) (req_len msg_id resp_sz timeout_ms : Z) :
    VI (option (list Z)) :=
  data ← of_option (read_buffer req req_len);
  qrtr_txn fd 0 port data msg_id resp_sz timeout_ms.

End Qrtr.
