(* ===== verification/ViConfig.v ===== *)
(** * vendor-init: the stages that configure the modem

    [stage_dms_online.c], [stage_dpm_open.c], [stage_wda_set.c] and [stage_dsd.c]. Each
    opens a socket of its own, sends at most two requests and closes the socket. A stage
    returns the exit code of the program, 0 on success. *)

From stdpp Require Import pretty.
From S2P Require Import Prelude.
From S2P Require Import Qmi.
From S2P Require Import ViTypes.
From S2P Require Import Qrtr.

(** The number of bytes of a datagram. *)
Definition size (p : list Z) : Z := Z.of_nat (length p).

(** ** stage_dms_online.c *)

Definition MSG_DMS_GET_OPERATING_MODE : Z := 0x002D.
Definition MSG_DMS_SET_OPERATING_MODE : Z := 0x002E.
Definition DMS_MODE_ONLINE : Z := 0.

Definition mode_name (m : Z) : string :=
  match m with
  | 0 => "ONLINE"
  | 1 => "LOW_POWER"
  | 2 => "FACTORY_TEST"
  | 3 => "OFFLINE"
  | 4 => "RESET"
  | 5 => "SHUTTING_DOWN"
  | 6 => "PERSISTENT_LOW_POWER"
  | _ => "UNKNOWN"
  end.

Definition dms_get_request (req : buffer) (txid : Z) : option (buffer * Z) :=
  qmi_hdr_req req txid MSG_DMS_GET_OPERATING_MODE 0.

Definition dms_set_request (req : buffer) (txid : Z) : option (buffer * Z) :=
  '(req, off) ← qmi_hdr_req req txid MSG_DMS_SET_OPERATING_MODE 0;
  let after_hdr := off in
  '(req, off) ← qmi_tlv_u8 req off 0x01 DMS_MODE_ONLINE;
  req ← set_body_len req off after_hdr;
  Some (req, off).

(** The mode in a response, 0xFF when it is absent. *)
Definition dms_mode (resp : list Z) : option Z :=
  v ← qmi_tlv_find resp (size resp) 0x01;
  match v with
  | Some (v_off, v_len) => if 1 <=? v_len then lookup_z resp v_off else Some 0xFF
  | None => Some 0xFF
  end.

Section Stages.
Context `{Kernel}.

Definition dms_set_online (fd dms_port : Z) (req : buffer) (txid : Z) : VI Z :=
  '(req, off) ← of_option (dms_set_request req txid);
  n ← txn fd dms_port req off MSG_DMS_SET_OPERATING_MODE 256 5000;
  match n with
  | None => close fd ;; mret 2
  | Some resp =>
      rc ← of_option (qmi_result resp (size resp));
      close fd ;;
      state_record "dms_set_online_result" (pretty (rc : Z)) ;;
      if negb (rc =? 0) then mret 3
      else usleep (500 * 1000) ;; mret 0
  end.

Definition stage_dms_online : VI Z :=
  ctx ← get_vctx;
  if dry_run ctx then mret 0
  else
    fd ← qrtr_open;
    if fd <? 0 then mret 1
    else
      dms_port ← qrtr_lookup fd QRTR_SVC_DMS;
      if dms_port =? 0 then close fd ;; mret 1
      else
        state_record "dms_port" (pretty (dms_port : Z)) ;;
        let txid := 1 in
        '(req, off) ← of_option (dms_get_request (uninit 64) txid);
        n ← txn fd dms_port req off MSG_DMS_GET_OPERATING_MODE 256 2000;
        match n with
        | None => close fd ;; mret 2
        | Some resp =>
            rc ← of_option (qmi_result resp (size resp));
            if negb (rc =? 0) then
              state_record "dms_mode_before" ("GET_ERR_" +:+ pretty (rc : Z)) ;;
              close fd ;;
              mret 0
            else
              current ← of_option (dms_mode resp);
              state_record "dms_mode_before"
                (pretty (current : Z) +:+ " (" +:+ mode_name current +:+ ")") ;;
              if current =? DMS_MODE_ONLINE then close fd ;; mret 0
              else dms_set_online fd dms_port req (txid + 1)
        end.

(** ** stage_dpm_open.c *)

Definition MSG_DPM_OPEN_PORT_REQ : Z := 0x0020.

Definition EP_DESC : list Z :=
  [0x01; 0x04; 0x00; 0x00; 0x00; 0x01; 0x00; 0x00; 0x00; 0x04; 0x00; 0x00; 0x00;
   0x05; 0x00; 0x00; 0x00].

Definition dpm_request (req : buffer) (txid : Z) : option (buffer * Z) :=
  '(req, off) ← qmi_hdr_req req txid MSG_DPM_OPEN_PORT_REQ 0;
  let after_hdr := off in
  '(req, off) ← qmi_tlv_bytes req off 0x11 EP_DESC 17;
  req ← set_body_len req off after_hdr;
  Some (req, off).

Definition stage_dpm_open : VI Z :=
  ctx ← get_vctx;
  if dry_run ctx then mret 0
  else
    fd ← qrtr_open;
    if fd <? 0 then mret 1
    else
      port ← qrtr_lookup fd QRTR_SVC_DPM;
      upd_vctx (ctx_set_dpm_port port) ;;
      if port =? 0 then
        state_record "dpm_port" "0 (not found)" ;;
        close fd ;;
        mret 1
      else
        state_record "dpm_port" (pretty (port : Z)) ;;
        let txid := 1 in
        '(req, off) ← of_option (dpm_request (uninit 64) txid);
        n ← txn fd port req off MSG_DPM_OPEN_PORT_REQ 256 2000;
        match n with
        | None => close fd ;; mret 2
        | Some resp =>
            rc ← of_option (qmi_result resp (size resp));
            state_record "dpm_open_result" (pretty (rc : Z)) ;;
            close fd ;;
            if negb (rc =? 0) then mret 3 else mret 0
        end.

(** ** stage_wda_set.c *)

Definition MSG_WDA_SET_DATA_FORMAT : Z := 0x0020.
Definition WDA_DL_PROTO : Z := 7.
Definition WDA_UL_PROTO_V1 : Z := 5.
Definition WDA_UL_PROTO_V3 : Z := 7.
Definition WDA_DL_SIZE : Z := 8192.
Definition WDA_DL_DGRAMS : Z := 10.

(** The array of the same name in [stage_wda_set.c] and in [stage_bind_mux.c]. *)
Definition EP_INFO : list Z := [0x04; 0x00; 0x00; 0x00; 0x01; 0x00; 0x00; 0x00].

Definition wda_request (full_ul : bool) (req : buffer) (txid : Z) : option (buffer * Z) :=
  '(req, off) ← qmi_hdr_req req txid MSG_WDA_SET_DATA_FORMAT 0;
  let after_hdr := off in
  '(req, off) ← qmi_tlv_u32 req off 0x11 2;
  '(req, off) ← qmi_tlv_u32 req off 0x12 (if full_ul then WDA_UL_PROTO_V3 else WDA_UL_PROTO_V1);
  '(req, off) ← qmi_tlv_u32 req off 0x13 WDA_DL_PROTO;
  '(req, off) ← qmi_tlv_u32 req off 0x15 WDA_DL_DGRAMS;
  '(req, off) ← qmi_tlv_u32 req off 0x16 WDA_DL_SIZE;
  '(req, off) ← qmi_tlv_bytes req off 0x17 EP_INFO 8;
  '(req, off) ← qmi_tlv_u32 req off 0x19 0;
  '(req, off) ← qmi_tlv_u8 req off 0x1A 1;
  '(req, off) ← qmi_tlv_u32 req off 0x1B 0;
  '(req, off) ← qmi_tlv_u32 req off 0x1C 0;
  req ← set_body_len req off after_hdr;
  Some (req, off).

(** [qmi_tlv_get_u32] into a variable that holds [v]. *)
Definition get_u32_or (v : Z) (resp : list Z) (type : Z) : option Z :=
  from_option id v <$> qmi_tlv_get_u32 resp (size resp) type.

Definition stage_wda_set : VI Z :=
  ctx ← get_vctx;
  if dry_run ctx then mret 0
  else
    fd ← qrtr_open;
    if fd <? 0 then mret 1
    else
      port ← qrtr_lookup fd QRTR_SVC_WDA;
      upd_vctx (ctx_set_wda_port port) ;;
      if port =? 0 then close fd ;; mret 1
      else
        state_record "wda_port" (pretty (port : Z)) ;;
        let txid := 1 in
        '(req, off) ← of_option (wda_request (full_ul ctx) (uninit 128) txid);
        n ← txn fd port req off MSG_WDA_SET_DATA_FORMAT 256 2000;
        match n with
        | None => close fd ;; mret 2
        | Some resp =>
            rc ← of_option (qmi_result resp (size resp));
            close fd ;;
            if negb (rc =? 0) then mret 3
            else
              echoed_ul ← of_option (get_u32_or 0 resp 0x12);
              echoed_dl ← of_option (get_u32_or 0 resp 0x13);
              echoed_dg ← of_option (get_u32_or 0 resp 0x15);
              echoed_max ← of_option (get_u32_or 0 resp 0x16);
              state_record "wda_dl_proto" (pretty (echoed_dl : Z)) ;;
              state_record "wda_ul_proto" (pretty (echoed_ul : Z)) ;;
              state_record "wda_dl_max_size" (pretty (echoed_max : Z)) ;;
              state_record "wda_dl_dgrams" (pretty (echoed_dg : Z)) ;;
              mret 0
        end.

(** ** stage_dsd.c *)

Definition stage_dsd : VI Z :=
  ctx ← get_vctx;
  if dry_run ctx then mret 0
  else
    fd ← qrtr_open;
    if fd <? 0 then mret 0
    else
      port ← qrtr_lookup fd QRTR_SVC_DSD;
      upd_vctx (ctx_set_dsd_port port) ;;
      (if negb (port =? 0) then state_record "dsd_port" (pretty (port : Z))
       else state_record "dsd_port" "0 (not found)") ;;
      close fd ;;
      mret 0.

End Stages.
