(* ===== verification/ViNas.v ===== *)
(** * vendor-init: registration to LTE

    [stage_nas_rat.c]: asks for the radio interface, sets the preference for LTE, starts
    the registration and polls once a second, for a minute, until the modem is on LTE. *)

From stdpp Require Import pretty.
From S2P Require Import Prelude.
From S2P Require Import Qmi.
From S2P Require Import ViTypes.
From S2P Require Import Qrtr.
From S2P Require Import ViConfig.

Definition MSG_NAS_SET_SYS_SEL_PREF : Z := 0x0033.
Definition MSG_NAS_INITIATE_NW_REGISTER : Z := 0x0022.
Definition MSG_NAS_GET_SERVING_SYSTEM : Z := 0x0024.

Definition RAT_MODE_LTE_PREFERRED : Z := Z.lor (Z.lor 0x0010 0x0008) 0x0004.
Definition RADIO_IF_NONE : Z := 0x00.
Definition RADIO_IF_GSM : Z := 0x04.
Definition RADIO_IF_UMTS : Z := 0x05.
Definition RADIO_IF_LTE : Z := 0x08.
Definition CHANGE_DURATION_PERMANENT : Z := 0x00.
Definition NET_SEL_AUTOMATIC : Z := 0x00.
Definition REGISTER_ACTION_AUTOMATIC : Z := 0x01.
Definition LTE_WAIT_TIMEOUT_SEC : Z := 60.
Definition LTE_POLL_INTERVAL_MS : Z := 1000.

Definition radio_if_name (r : Z) : string :=
  match u8 r with
  | 0 => "none"
  | 4 => "gsm"
  | 5 => "umts"
  | 8 => "lte"
  | _ => "unknown"
  end.

(** ** Requests *)

Definition set_sys_sel_pref_request (req : buffer) (txid : Z) : option (buffer * Z) :=
  '(req, off) ← qmi_hdr_req req txid MSG_NAS_SET_SYS_SEL_PREF 0;
  let after_hdr := off in
  '(req, off) ← qmi_tlv_u16 req off 0x11 RAT_MODE_LTE_PREFERRED;
  '(req, off) ← qmi_tlv_bytes req off 0x16 [NET_SEL_AUTOMATIC; 0x00; 0x00; 0x00; 0x00] 5;
  '(req, off) ← qmi_tlv_u8 req off 0x17 CHANGE_DURATION_PERMANENT;
  '(req, off) ← qmi_tlv_bytes req off 0x1E [3; RADIO_IF_LTE; RADIO_IF_UMTS; RADIO_IF_GSM] 4;
  req ← set_body_len req off after_hdr;
  Some (req, off).

Definition initiate_register_request (req : buffer) (txid : Z) : option (buffer * Z) :=
  '(req, off) ← qmi_hdr_req req txid MSG_NAS_INITIATE_NW_REGISTER 0;
  let after_hdr := off in
  '(req, off) ← qmi_tlv_u8 req off 0x01 REGISTER_ACTION_AUTOMATIC;
  req ← set_body_len req off after_hdr;
  Some (req, off).

Definition serving_system_request (req : buffer) (txid : Z) : option (buffer * Z) :=
  qmi_hdr_req req txid MSG_NAS_GET_SERVING_SYSTEM 0.

(** ** The radio interface in a response *)

(** [for (i = 1; i < count; i++)] over the interfaces from offset [off] on. *)
Fixpoint best_radio (turns : nat) (resp : list Z) (off : Z) (best : Z) : option Z :=
  match turns with
  | O => Some best
  | S turns' =>
      b ← lookup_z resp off;
      let r := i8 b in
      if r =? RADIO_IF_LTE then Some RADIO_IF_LTE
      else best_radio turns' resp (off + 1)
             (if (r =? RADIO_IF_UMTS) && negb (best =? RADIO_IF_LTE) then RADIO_IF_UMTS else best)
  end.

Definition serving_radio (resp : list Z) : option Z :=
  let n := size resp in
  rc ← qmi_result resp n;
  if negb (rc =? 0) then Some RADIO_IF_NONE
  else
    tac ← qmi_tlv_find resp n 0x15;
    match tac with
    | Some _ => Some RADIO_IF_LTE
    | None =>
        v ← qmi_tlv_find resp n 0x01;
        match v with
        | None => Some RADIO_IF_NONE
        | Some (v_off, v_len) =>
            if v_len <? 5 then Some RADIO_IF_NONE
            else
              count ← lookup_z resp (v_off + 4);
              if (count =? 0) || (n <? v_off + 5 + count) then Some RADIO_IF_NONE
              else
                b ← lookup_z resp (v_off + 5);
                best_radio (Z.to_nat (count - 1)) resp (v_off + 6) (i8 b)
        end
    end.

Section Nas.
Context `{Kernel}.

(** The functions below take [*txid] and return it; the result is -1 or 0. *)

Definition issue_set_sys_sel_pref (fd nas_port txid : Z) : VI (Z * Z) :=
  '(req, off) ← of_option (set_sys_sel_pref_request (uninit 128) txid);
  let txid := u16 (txid + 1) in
  n ← txn fd nas_port req off MSG_NAS_SET_SYS_SEL_PREF 256 5000;
  match n with
  | None => mret (-1, txid)
  | Some resp =>
      rc ← of_option (qmi_result resp (size resp));
      state_record "nas_set_pref_result" (pretty (rc : Z)) ;;
      if negb (rc =? 0) then mret (-1, txid) else mret (0, txid)
  end.

Definition issue_initiate_register (fd nas_port txid : Z) : VI (Z * Z) :=
  '(req, off) ← of_option (initiate_register_request (uninit 64) txid);
  let txid := u16 (txid + 1) in
  n ← txn fd nas_port req off MSG_NAS_INITIATE_NW_REGISTER 256 5000;
  match n with
  | None => mret (-1, txid)
  | Some resp =>
      rc ← of_option (qmi_result resp (size resp));
      state_record "nas_register_result" (pretty (rc : Z)) ;;
      if negb (rc =? 0) then mret (-1, txid) else mret (0, txid)
  end.

Definition poll_serving_system (fd nas_port txid : Z) : VI (Z * Z) :=
  '(req, off) ← of_option (serving_system_request (uninit 16) txid);
  let txid := u16 (txid + 1) in
  n ← txn fd nas_port req off MSG_NAS_GET_SERVING_SYSTEM 1024 2000;
  match n with
  | None => mret (RADIO_IF_NONE, txid)
  | Some resp =>
      r ← of_option (serving_radio resp);
      mret ((r : Z), txid)
  end.

(** The loop of [stage_nas_rat]: the last radio interface and [seen_lte]. Every turn but
    the last sleeps for a second or is cut short by a signal, so that [LTE_WAIT_FUEL] turns and
    one for each cut are enough for the timeout; running out of fuel is undefined. *)
Definition LTE_WAIT_FUEL : nat := 61.

Fixpoint wait_for_lte (fuel : nat) (fd nas_port txid t0 last_rat : Z) : VI (Z * bool) :=
  match fuel with
  | O => UB
  | S fuel' =>
      now ← clock_gettime;
      if LTE_WAIT_TIMEOUT_SEC <=? now - t0 then mret (last_rat, false)
      else
        usleep (LTE_POLL_INTERVAL_MS * 1000) ;;
        '(r, txid) ← poll_serving_system fd nas_port txid;
        if r =? RADIO_IF_LTE then mret (r, true)
        else wait_for_lte fuel' fd nas_port txid t0 r
  end.

Definition rat_text (r : Z) : string := pretty r +:+ " (" +:+ radio_if_name r +:+ ")".

Definition stage_nas_rat : VI Z :=
  ctx ← get_vctx;
  if dry_run ctx then mret 0
  else
    fd ← qrtr_open;
    if fd <? 0 then mret 1
    else
      nas_port ← qrtr_lookup fd QRTR_SVC_NAS;
      if nas_port =? 0 then close fd ;; mret 1
      else
        state_record "nas_port" (pretty (nas_port : Z)) ;;
        '(current_rat, txid) ← poll_serving_system fd nas_port 1;
        state_record "rat_before" (rat_text current_rat) ;;
        if current_rat =? RADIO_IF_LTE then close fd ;; mret 0
        else
          '(_, txid) ← issue_set_sys_sel_pref fd nas_port txid;
          '(_, txid) ← issue_initiate_register fd nas_port txid;
          t0 ← clock_gettime;
          '(last_rat, seen_lte) ← wait_for_lte (LTE_WAIT_FUEL + k_cuts) fd nas_port txid t0 current_rat;
          state_record "rat_after" (rat_text last_rat) ;;
          close fd ;;
          (if (seen_lte : bool) then mret 0 else upd_vctx (ctx_set_simple_wds true) ;; mret 0).

End Nas.
