(* ===== verification/ViBearer.v ===== *)
(** * vendor-init: the stages that bring the bearer up

    [stage_bind_mux.c], [stage_wds_start.c], and the two stages the program keeps but does
    not run, [stage_iattach.c] and [stage_fff2.c]. They share the socket [ctx->fd] that
    [stage_bind_mux] opens and leaves open. *)

From stdpp Require Import pretty.
From S2P Require Import Prelude.
From S2P Require Import Qmi.
From S2P Require Import ViTypes.
From S2P Require Import Qrtr.
From S2P Require Import ViConfig.

(** ** Requests *)

Definition MSG_BIND_MUX : Z := 0x00A2.
Definition MSG_AF_SET_MODE : Z := 0x00AF.
Definition MSG_4D_SET_IP_FAMILY : Z := 0x004D.
Definition MSG_START_NETWORK : Z := 0x0020.
Definition MSG_GET_SETTINGS : Z := 0x002D.
Definition MSG_SET_INITIAL_ATTACH_APN : Z := 0x00A3.
Definition MSG_FFF2 : Z := 0xFFF2.

Definition AUTH_NONE : Z := 0x00.
Definition IP_FAMILY_IPV4 : Z := 0x04.
Definition EXT_TECH_INTERNET : Z := 0x05.
Definition CALL_TYPE_DATA : Z := 0x01.
Definition PROFILE_IDX_DEFAULT : Z := 0x01.
Definition ACTION_CREATE : Z := 0x01.

Definition bind_mux_request (m : Z) (req : buffer) (txid : Z) : option (buffer * Z) :=
  '(req, off) ← qmi_hdr_req req txid MSG_BIND_MUX 0;
  let after_hdr := off in
  '(req, off) ← qmi_tlv_bytes req off 0x10 EP_INFO 8;
  '(req, off) ← qmi_tlv_u8 req off 0x11 (u8 m);
  req ← set_body_len req off after_hdr;
  Some (req, off).

Definition client_mode_request (req : buffer) (txid : Z) : option (buffer * Z) :=
  '(req, off) ← qmi_hdr_req req txid MSG_AF_SET_MODE 0;
  let after_hdr := off in
  '(req, off) ← qmi_tlv_u32 req off 0x01 0x00000002;
  req ← set_body_len req off after_hdr;
  Some (req, off).

Definition ip_family_request (req : buffer) (txid : Z) : option (buffer * Z) :=
  '(req, off) ← qmi_hdr_req req txid MSG_4D_SET_IP_FAMILY 0;
  let after_hdr := off in
  '(req, off) ← qmi_tlv_u8 req off 0x01 IP_FAMILY_IPV4;
  req ← set_body_len req off after_hdr;
  Some (req, off).

Definition start_network_request (simple_wds : bool) (apn : string) (req : buffer) (txid : Z) :
    option (buffer * Z) :=
  let apn_len := strlen apn in
  '(req, off) ← qmi_hdr_req req txid MSG_START_NETWORK 0;
  let after_hdr := off in
  '(req, off) ←
    (if simple_wds then
       '(req, off) ← qmi_tlv_bytes req off 0x14 (c_object apn) apn_len;
       qmi_tlv_u8 req off 0x19 IP_FAMILY_IPV4
     else
       '(req, off) ← qmi_tlv_bytes req off 0x14 (c_object apn) apn_len;
       '(req, off) ← qmi_tlv_u8 req off 0x16 AUTH_NONE;
       '(req, off) ← qmi_tlv_u8 req off 0x19 IP_FAMILY_IPV4;
       '(req, off) ← qmi_tlv_u8 req off 0x31 EXT_TECH_INTERNET;
       '(req, off) ← qmi_tlv_u8 req off 0x35 CALL_TYPE_DATA;
       qmi_tlv_u8 req off 0x39 PROFILE_IDX_DEFAULT);
  req ← set_body_len req off after_hdr;
  Some (req, off).

Definition get_settings_request (req : buffer) (txid : Z) : option (buffer * Z) :=
  '(req, off) ← qmi_hdr_req req txid MSG_GET_SETTINGS 0;
  let after_hdr := off in
  '(req, off) ← qmi_tlv_u32 req off 0x10 0xffffffff;
  req ← set_body_len req off after_hdr;
  Some (req, off).

Definition iattach_request (apn : string) (req : buffer) (txid : Z) : option (buffer * Z) :=
  let apn_len := strlen apn in
  let body_len := (3 + apn_len) + (3 + 1) in
  '(req, off) ← qmi_hdr_req req txid MSG_SET_INITIAL_ATTACH_APN (u16 body_len);
  '(req, off) ← qmi_tlv_bytes req off 0x10 (c_object apn) apn_len;
  qmi_tlv_u8 req off 0x14 3.

Definition fff2_request (apn : string) (ip_type ext_tech : Z) (req : buffer) (txid : Z) :
    option (buffer * Z) :=
  let apn_len := strlen apn in
  '(req, off) ← qmi_hdr_req req txid MSG_FFF2 0;
  let after_hdr := off in
  '(req, off) ← qmi_tlv_u8 req off 0x01 0x01;
  '(req, off) ← qmi_tlv_u8 req off 0x31 ext_tech;
  '(req, off) ← qmi_tlv_bytes req off 0x14 (c_object apn) apn_len;
  '(req, off) ← qmi_tlv_u8 req off 0x19 ip_type;
  '(req, off) ← qmi_tlv_u8 req off 0x35 ACTION_CREATE;
  req ← set_body_len req off after_hdr;
  Some (req, off).

(** [while (mask & 0x80000000U) { prefix++; mask <<= 1; }] on a [uint32_t]; 33 turns are
    enough. *)
Fixpoint prefix_loop (fuel : nat) (mask prefix : Z) : option Z :=
  match fuel with
  | O => None
  | S fuel' =>
      if Z.land mask 0x80000000 =? 0 then Some prefix
      else prefix_loop fuel' (u32 (Z.shiftl mask 1)) (prefix + 1)
  end.
Definition prefix_of_mask (v : Z) : option Z := prefix_loop 33 v 0.

Section Stages.
Context `{Kernel}.

(** ** stage_bind_mux.c *)

Definition INT_MAX : Z := 2147483647.

(** [m++] on an [int] overflows at the end of its range. *)
Definition int_inc (m : Z) : option Z := if m <? INT_MAX then Some (m + 1) else None.

(** [for (m = 1; m <= num_muxes; m++)] has as many turns as fuel needs, and one more for the
    test that ends it; to run out of fuel is undefined. *)
Definition loop_fuel (num_muxes : Z) : nat := S (Z.to_nat num_muxes).

(** The loop of a dry run, which only logs. *)
Fixpoint dry_loop (fuel : nat) (num_muxes m : Z) : option () :=
  match fuel with
  | O => None
  | S fuel' =>
      if num_muxes <? m then Some () else m ← int_inc m; dry_loop fuel' num_muxes m
  end.

(** The loop from the channel [m] on: the exit code, 0 after the last channel, and [n_ok]. *)
Fixpoint bind_loop (fuel : nat) (num_muxes m n_ok : Z) : VI (Z * Z) :=
  match fuel with
  | O => UB
  | S fuel' =>
      if num_muxes <? m then mret (0, n_ok)
      else
        t ← next_txid;
        ctx ← get_vctx;
        '(req, off) ← of_option (bind_mux_request m (uninit 64) t);
        n ← txn (fd ctx) (wds_port ctx) req off MSG_BIND_MUX 256 2000;
        match n with
        | None => mret (2, n_ok)
        | Some resp =>
            rc ← of_option (qmi_result resp (size resp));
            if negb (rc =? 0) then mret (3, n_ok)
            else
              n_ok ← of_option (int_inc n_ok); m ← of_option (int_inc m);
              bind_loop fuel' num_muxes m n_ok
        end
  end.

Definition stage_bind_mux : VI Z :=
  ctx ← get_vctx;
  if dry_run ctx then
    of_option (dry_loop (loop_fuel (num_muxes ctx)) (num_muxes ctx) 1) ;; mret 0
  else
    fd ← qrtr_open;
    if fd <? 0 then mret 1
    else
      port ← qrtr_lookup fd QRTR_SVC_WDS;
      upd_vctx (ctx_set_wds_port port) ;;
      if port =? 0 then close fd ;; mret 1
      else
        state_record "wds_port" (pretty (port : Z)) ;;
        upd_vctx (ctx_set_fd fd) ;;
        upd_vctx (ctx_set_txid 1) ;;
        '(r, n_ok) ← bind_loop (loop_fuel (num_muxes ctx)) (num_muxes ctx) 1 0;
        if negb (r =? 0) then mret r
        else state_record "mux_bound" (pretty (n_ok : Z)) ;; mret 0.

(** ** stage_wds_start.c *)

(** [if (qmi_tlv_get_u32(resp, n, type, &v)) f(v);] *)
Definition on_u32 (resp : list Z) (type : Z) (f : Z → VI ()) : VI () :=
  o ← of_option (qmi_tlv_get_u32 resp (size resp) type);
  match o with Some v => f v | None => mret () end.

Definition record_settings (resp : list Z) : VI () :=
  on_u32 resp 0x1E (λ v, upd_vctx (ctx_set_ipv4 v) ;; state_record "bearer_ipv4" (fmt_ip v)) ;;
  on_u32 resp 0x20 (λ v, upd_vctx (ctx_set_gw v) ;; state_record "bearer_gw" (fmt_ip v)) ;;
  on_u32 resp 0x21 (λ v,
    upd_vctx (ctx_set_mask v) ;;
    prefix ← of_option (prefix_of_mask v);
    state_record "bearer_prefix" (pretty (prefix : Z))) ;;
  on_u32 resp 0x15 (λ v, upd_vctx (ctx_set_dns1 v)) ;;
  on_u32 resp 0x16 (λ v, upd_vctx (ctx_set_dns2 v)) ;;
  on_u32 resp 0x29 (λ v, upd_vctx (ctx_set_mtu v) ;; state_record "bearer_mtu" (pretty (v : Z))).

Definition issue_get_settings : VI Z :=
  t ← next_txid;
  ctx ← get_vctx;
  '(req, off) ← of_option (get_settings_request (uninit 64) t);
  n ← txn (fd ctx) (wds_port ctx) req off MSG_GET_SETTINGS 1024 2000;
  match n with
  | None => mret (-1)
  | Some resp => record_settings resp ;; mret 0
  end.

(** The two precedents: [true] if both were answered, whatever the result in the answer;
    [req] is the array of [stage_wds_start], which all its requests use. *)
Definition precedents (req : buffer) : VI (option buffer) :=
  t ← next_txid;
  ctx ← get_vctx;
  '(req, off) ← of_option (client_mode_request req t);
  n ← txn (fd ctx) (wds_port ctx) req off MSG_AF_SET_MODE 512 2000;
  match n with
  | None => mret None
  | Some resp =>
      _ ← of_option (qmi_result resp (size resp));
      t ← next_txid;
      '(req, off) ← of_option (ip_family_request req t);
      n ← txn (fd ctx) (wds_port ctx) req off MSG_4D_SET_IP_FAMILY 512 2000;
      match n with
      | None => mret None
      | Some resp =>
          _ ← of_option (qmi_result resp (size resp));
          mret (Some req)
      end
  end.

(** From the label [start_network] on. *)
Definition start_network (req : buffer) : VI Z :=
  t ← next_txid;
  ctx ← get_vctx;
  '(req, off) ← of_option (start_network_request (simple_wds ctx) (apn ctx) req t);
  n ← txn (fd ctx) (wds_port ctx) req off MSG_START_NETWORK 512 10000;
  match n with
  | None => mret 2
  | Some resp =>
      rc ← of_option (qmi_result resp (size resp));
      if negb (rc =? 0) then
        state_record "bearer_state" ("FAIL_" +:+ pretty (rc : Z)) ;;
        mret 3
      else
        on_u32 resp 0x01 (λ pdh,
          upd_vctx (ctx_set_pdh pdh) ;;
          state_record "bearer_pdh" ("0x" +:+ fmt_08x pdh)) ;;
        state_record "bearer_state" "UP" ;;
        issue_get_settings ;;
        mret 0
  end.

Definition stage_wds_start : VI Z :=
  ctx ← get_vctx;
  if dry_run ctx then mret 0
  else if wds_port ctx =? 0 then mret 1
  else if simple_wds ctx then start_network (uninit 256)
  else
    r ← precedents (uninit 256);
    match r with
    | None => mret 2
    | Some req => start_network req
    end.

(** ** stage_iattach.c *)

Definition stage_iattach : VI Z :=
  ctx ← get_vctx;
  if dry_run ctx then mret 0
  else
    found ←
      (if wds_port ctx =? 0 then
         port ← qrtr_lookup (fd ctx) QRTR_SVC_WDS;
         upd_vctx (ctx_set_wds_port port) ;;
         if port =? 0 then mret false
         else state_record "wds_port" (pretty (port : Z)) ;; mret true
       else mret true);
    if negb found then mret 1
    else
      t ← next_txid;
      ctx ← get_vctx;
      '(req, off) ← of_option (iattach_request (apn ctx) (uninit 256) t);
      n ← txn (fd ctx) (wds_port ctx) req off MSG_SET_INITIAL_ATTACH_APN 512 2000;
      match n with
      | None => mret 2
      | Some resp =>
          rc ← of_option (qmi_result resp (size resp));
          state_record "iattach_result" (pretty (rc : Z)) ;;
          mret 0
      end.

(** ** stage_fff2.c *)

Definition send_one (apn : string) (ip_type ext_tech : Z) : VI Z :=
  t ← next_txid;
  ctx ← get_vctx;
  '(req, off) ← of_option (fff2_request apn ip_type ext_tech (uninit 256) t);
  n ← txn (fd ctx) (wds_port ctx) req off MSG_FFF2 512 2000;
  match n with
  | None => mret 0
  | Some resp => _ ← of_option (qmi_result resp (size resp)); mret 0
  end.

Definition stage_fff2 : VI Z :=
  ctx ← get_vctx;
  if dry_run ctx then mret 0
  else if wds_port ctx =? 0 then mret 1
  else
    send_one (apn ctx) 0x04 EXT_TECH_INTERNET ;;
    send_one (apn ctx) 0x06 EXT_TECH_INTERNET ;;
    state_record "fff2_sent" (apn ctx +:+ "/v4+v6") ;;
    mret 0.

End Stages.
