(* ===== verification/ViTune.v ===== *)
(** * vendor-init: tuning of the network devices

    [stage_post_tune.c]: shell commands and writes to /proc and /sys, whose failures are
    only logged. *)

From stdpp Require Import pretty.
From S2P Require Import Prelude.
From S2P Require Import ViTypes.

Section Tune.
Context `{Kernel}.

(** [try_cmd] and [try_cmd_opt] differ in what they log. *)
Definition try_cmd (cmd : string) : VI () := system cmd ;; mret ().
Definition try_cmd_opt (cmd : string) : VI () := system cmd ;; mret ().
Definition try_write (path value : string) : VI () := fopen_write path value ;; mret ().

Definition cmd_create_child : string :=
  "ip link add link rmnet_ipa0 name qmapmux0.0 type rmnet mux_id 1 ingress-deaggregation on ingress-mapv4-checksum on >/dev/null 2>&1".
Definition cmd_set_mtu (mtu : Z) : string :=
  snprintf 128 ("ip link set qmapmux0.0 mtu " +:+ pretty mtu +:+ " >/dev/null 2>&1").
Definition cmd_cksum_both : string :=
  "ip link set qmapmux0.0 type rmnet mux_id 1 ingress-deaggregation on ingress-mapv4-checksum on egress-mapv4-checksum on >/dev/null 2>&1".
Definition cmd_cksum_ingress : string :=
  "ip link set qmapmux0.0 type rmnet mux_id 1 ingress-deaggregation on ingress-mapv4-checksum on >/dev/null 2>&1".

(** The child device and its flags. *)
Definition tune_device (ctx : vi_ctx) : VI () :=
  try_cmd "ip link set rmnet_ipa0 up >/dev/null 2>&1" ;;
  try_cmd cmd_create_child ;;
  when ((0 <? bearer_mtu ctx) && (bearer_mtu ctx <? 2000))
    (try_cmd (cmd_set_mtu (bearer_mtu ctx))) ;;
  try_cmd "ip link set qmapmux0.0 up >/dev/null 2>&1" ;;
  if full_ul ctx then
    try_cmd cmd_cksum_both ;;
    state_record "rmnet_data_format_request" "DEAGG + INGRESS_MAP_CKSUMV4 + EGRESS_MAP_CKSUMV4"
  else
    try_cmd cmd_cksum_ingress ;;
    state_record "rmnet_data_format_request" "DEAGG + INGRESS_MAP_CKSUMV4".

(** The sysctls, the offloads and the RPS masks. *)
Definition tune_system (ctx : vi_ctx) : VI () :=
  try_write "/proc/sys/net/core/netdev_max_backlog" "10000" ;;
  try_write "/proc/sys/net/ipv4/tcp_no_metrics_save" "1" ;;
  try_write "/proc/sys/net/ipv4/tcp_initial_ssthresh" "1400" ;;
  try_write "/sys/module/tcp_cubic/parameters/hystart" "0" ;;
  try_write "/sys/module/tcp_cubic/parameters/hystart_detect" "0" ;;
  try_cmd "ethtool -K rmnet_ipa0 gro on >/dev/null 2>&1" ;;
  try_cmd "ethtool -K qmapmux0.0 gro on >/dev/null 2>&1" ;;
  try_cmd_opt "ethtool -K qmapmux0.0 gso on >/dev/null 2>&1" ;;
  try_cmd_opt "ethtool -K qmapmux0.0 tso on >/dev/null 2>&1" ;;
  try_cmd "ethtool -K qmapmux0.0 tx-checksum-ipv4 off tx-checksum-ipv6 off >/dev/null 2>&1" ;;
  try_cmd_opt "ethtool -K rmnet_ipa0 tx-checksum-ipv4 off tx-checksum-ipv6 off >/dev/null 2>&1" ;;
  state_record "rmnet_ul_txcsum"
    (if full_ul ctx then "off (QMAPv3 UL — SW csum; HW offload broken)"
     else "off (QMAPv1 UL — SW csum)") ;;
  try_write "/sys/class/net/rmnet_ipa0/queues/rx-0/rps_cpus" "2" ;;
  try_write "/sys/class/net/qmapmux0.0/queues/rx-0/rps_cpus" "4".

Definition stage_post_tune : VI Z :=
  ctx ← get_vctx;
  if dry_run ctx then mret 0
  else
    tune_device ctx ;;
    tune_system ctx ;;
    state_record "post_tune" "applied" ;;
    mret 0.

End Tune.
