(* ===== verification/ViMain.v ===== *)
(** * vendor-init: the program

    [vendor-init.c]: the options, the table of stages, the loop over it and the wait that
    holds the bearer up. The arguments are the list of the options [getopt_long] returns;
    the signal handler is the latch of [read_stop]. *)

From stdpp Require Import pretty.
From S2P Require Import Prelude.
From S2P Require Import ViTypes.
From S2P Require Import ViConfig.
From S2P Require Import ViNas.
From S2P Require Import ViBearer.
From S2P Require Import ViTune.

(** ** Options *)

(** What [getopt_long] returns; the number is [atoi(optarg)]. *)
Inductive opt :=
  | OptApn (a : string)
  | OptNumMuxes (n : Z)
  | OptSkipMm
  | OptDryRun
  | OptLogFile (path : string)
  | OptSimpleWds
  | OptFullWds
  | OptFullUl
  | OptVerbose
  | OptHelp
  | OptUnknown.

Definition DEFAULT_APN : string := "internet".

(** The initialiser of [main]; the members it does not name are zero. *)
Definition initial_ctx : vi_ctx :=
  mkViCtx (-1) 1 0 0 0 0 0 0 0 0 0 0 0 DEFAULT_APN false false 1 false true.

(** The option loop: the context, or the exit code of the usage text. *)
Fixpoint parse_options (opts : list opt) (ctx : vi_ctx) : vi_ctx + Z :=
  match opts with
  | [] => inl ctx
  | o :: opts' =>
      match o with
      | OptApn a => parse_options opts' (ctx_set_options a (num_muxes ctx) ctx)
      | OptNumMuxes n => parse_options opts' (ctx_set_options (apn ctx) n ctx)
      | OptSkipMm => parse_options opts' (ctx_set_skip_mm true ctx)
      | OptDryRun => parse_options opts' (ctx_set_dry_run true ctx)
      | OptLogFile _ => parse_options opts' ctx
      | OptSimpleWds => parse_options opts' (ctx_set_simple_wds true ctx)
      | OptFullWds => parse_options opts' (ctx_set_simple_wds false ctx)
      | OptFullUl => parse_options opts' (ctx_set_full_ul true ctx)
      | OptVerbose => parse_options opts' ctx
      | OptHelp => inr 0
      | OptUnknown => inr 1
      end
  end.

Section Main.
Context `{Kernel}.

(** ** The stages *)

Record stage := mkStage { stage_name : string; stage_fn : VI Z }.

Definition STAGES : list stage :=
  [ mkStage "dms_online" stage_dms_online;
    mkStage "nas_rat" stage_nas_rat;
    mkStage "dpm_open" stage_dpm_open;
    mkStage "wda_set" stage_wda_set;
    mkStage "dsd" stage_dsd;
    mkStage "bind_mux" stage_bind_mux;
    mkStage "wds_start" stage_wds_start;
    mkStage "post_tune" stage_post_tune ].

(** The loop over the table: the value of [rc] after it. *)
Fixpoint run_stages (l : list stage) : VI Z :=
  match l with
  | [] => mret 0
  | st :: l' =>
      stop ← read_stop;
      if (stop : bool) then state_set_result "INTERRUPTED" ;; mret 130
      else
        state_set_stage (stage_name st) ;;
        rc ← stage_fn st;
        if negb (rc =? 0) then
          state_set_result (snprintf 64 ("FAILED_" +:+ stage_name st)) ;;
          mret rc
        else run_stages l'
  end.

(** [while (!g_stop) pause();]: [pause] returns when a handler has run, and the handlers of
    this program set [g_stop]. A [pause] that never returns is outside the model: the
    program then holds the bearer for ever. *)
Definition hold_bearer : VI () :=
  stop ← read_stop;
  if (stop : bool) then mret () else emit EPause ;; modify stopped.

Definition finish (rc : Z) : VI Z :=
  when (rc =? 0) (state_set_result "READY" ;; hold_bearer) ;;
  ctx ← get_vctx;
  when (0 <=? fd ctx) (close (fd ctx)) ;;
  mret rc.

(** [main] after the options, from a process whose context is the parsed one. *)
Definition run_main : VI Z :=
  ctx ← get_vctx;
  state_set_result "STARTING" ;;
  state_record "apn" (apn ctx) ;;
  state_record "num_muxes" (pretty (num_muxes ctx)) ;;
  state_record "dry_run" (if dry_run ctx then "1" else "0") ;;
  upd_vctx (ctx_set_fd (-1)) ;;
  rc ← run_stages STAGES;
  finish rc.

(** The process as it starts, and the whole of [main]. *)
Definition start_state (ctx : vi_ctx) : vi_state := mkVi ctx ∅ false false [] [].

Definition main (opts : list opt) : option (Z * vi_state) :=
  match parse_options opts initial_ctx with
  | inl ctx => run_main (start_state ctx)
  | inr code => Some (code, start_state initial_ctx)
  end.

End Main.
