(* ===== verification/ViRun.v ===== *)
(** * vendor-init: the requests of the stages

    Every request fits into the array of its stage, and is the encoding of the TLVs that the
    comment of the stage lists. The requests with the APN fit exactly as long as the APN
    does.

    One judgement, [runs], follows the code of a stage from the state it started in: the
    context, the sockets it holds, the requests it sent and the responses it accepted. Each
    call of the kernel, of [qrtr.c] and of [state.c] has a rule for it. *)

From S2P Require Import Prelude.
From S2P Require Import Qmi.
From S2P Require Import QmiScan.
From S2P Require Import ViTypes.
From S2P Require Import ViConfig.
From S2P Require Import ViNas.
From S2P Require Import ViBearer.
From S2P Require Import Qrtr.

(** ** What a builder promises

    In any array of [n] bytes and with any transaction id it writes the message. *)
Definition builds (f : buffer → Z → option (buffer * Z)) (n : nat) (msg_id : Z)
    (ts : list (Z * list Z)) : Prop :=
  ∀ b txid, length b = n →
    ∃ b' off, f b txid = Some (b', off) ∧ length b' = n ∧ complete_msg b' off txid msg_id ts.

(** One call of [qmi_tlv_bytes] with all of the data, in the middle of a builder. *)
Ltac build_tlv :=
  unfold qmi_tlv_u8, qmi_tlv_u16, qmi_tlv_u32 in *;
  edestruct tlv_data_spec as (? & -> & ? & ?);
  [eassumption|reflexivity|lia|lia|];
  cbn [mbind option_bind];
  repeat match goal with H : partial_msg ?b _ _ _ _, H' : partial_msg _ _ _ _ _ |- _ =>
    lazymatch goal with |- context [b] => fail | _ => clear H end end.

Ltac build_start :=
  intros b txid Hb;
  edestruct (hdr_req_spec b txid) as (? & -> & ? & ?); [lia|]; cbn [mbind option_bind].

Ltac build_end :=
  edestruct set_body_len_complete as (b' & -> & ? & ?); [eassumption|lia|];
  cbn [mbind option_bind]; eexists _, _; split_and!; [reflexivity|congruence|eassumption].

Ltac build := build_start; repeat build_tlv; build_end.

(** ** The stages that configure the modem *)

Lemma dms_get_builds : builds dms_get_request 64 MSG_DMS_GET_OPERATING_MODE [].
Proof.
  intros b txid Hb. destruct (complete_hdr b txid MSG_DMS_GET_OPERATING_MODE)
    as (b' & He & Hl & Hc); [lia|].
  exists b', 7. split_and!; [done|congruence|done].
Qed.

Definition dms_set_tlvs : list (Z * list Z) := [(0x01, [0])].

Lemma dms_set_builds : builds dms_set_request 64 MSG_DMS_SET_OPERATING_MODE dms_set_tlvs.
Proof. unfold dms_set_request. build. Qed.

Definition dpm_tlvs : list (Z * list Z) := [(0x11, EP_DESC)].

Lemma dpm_builds : builds dpm_request 64 MSG_DPM_OPEN_PORT_REQ dpm_tlvs.
Proof. unfold dpm_request. build. Qed.

Definition wda_tlvs (ful : bool) : list (Z * list Z) :=
  [(0x11, le4 2); (0x12, le4 (if ful then 7 else 5)); (0x13, le4 7); (0x15, le4 10);
   (0x16, le4 8192); (0x17, EP_INFO); (0x19, le4 0); (0x1A, [1]); (0x1B, le4 0);
   (0x1C, le4 0)].

Lemma wda_builds ful : builds (wda_request ful) 128 MSG_WDA_SET_DATA_FORMAT (wda_tlvs ful).
Proof. unfold wda_request. build. Qed.

(** ** Registration *)

Definition sys_sel_tlvs : list (Z * list Z) :=
  [(0x11, le2 0x1C); (0x16, [0; 0; 0; 0; 0]); (0x17, [0]); (0x1E, [3; 8; 5; 4])].

Lemma sys_sel_builds :
  builds set_sys_sel_pref_request 128 MSG_NAS_SET_SYS_SEL_PREF sys_sel_tlvs.
Proof. unfold set_sys_sel_pref_request. build. Qed.

Definition register_tlvs : list (Z * list Z) := [(0x01, [1])].

Lemma register_builds :
  builds initiate_register_request 64 MSG_NAS_INITIATE_NW_REGISTER register_tlvs.
Proof. unfold initiate_register_request. build. Qed.

Lemma serving_builds : builds serving_system_request 16 MSG_NAS_GET_SERVING_SYSTEM [].
Proof.
  intros b txid Hb. destruct (complete_hdr b txid MSG_NAS_GET_SERVING_SYSTEM)
    as (b' & He & Hl & Hc); [lia|].
  exists b', 7. split_and!; [done|congruence|done].
Qed.

(** ** The bearer *)

Definition bind_tlvs (m : Z) : list (Z * list Z) := [(0x10, EP_INFO); (0x11, [u8 m])].

Lemma bind_builds m : builds (bind_mux_request m) 64 MSG_BIND_MUX (bind_tlvs m).
Proof.
  unfold bind_mux_request. build_start. do 2 build_tlv.
  assert (u8 (u8 m) = u8 m) as Hm by (apply Z.mod_mod; lia). rewrite Hm in *. build_end.
Qed.

Definition client_mode_tlvs : list (Z * list Z) := [(0x01, le4 2)].

Lemma client_mode_builds : builds client_mode_request 256 MSG_AF_SET_MODE client_mode_tlvs.
Proof. unfold client_mode_request. build. Qed.

Definition ip_family_tlvs : list (Z * list Z) := [(0x01, [4])].

Lemma ip_family_builds : builds ip_family_request 256 MSG_4D_SET_IP_FAMILY ip_family_tlvs.
Proof. unfold ip_family_request. build. Qed.

Definition settings_tlvs : list (Z * list Z) := [(0x10, le4 0xffffffff)].

Lemma settings_builds : builds get_settings_request 64 MSG_GET_SETTINGS settings_tlvs.
Proof. unfold get_settings_request. build. Qed.

(** ** The requests with the APN *)

Lemma c_bytes_length a : Z.of_nat (length (c_bytes a)) = strlen a.
Proof.
  unfold c_bytes, strlen. f_equal. rewrite length_map.
  induction a as [|c a IH]; [done|]. simpl. by rewrite IH.
Qed.

Lemma c_bytes_bytes a : byte_list (c_bytes a).
Proof.
  unfold c_bytes, byte_list. induction (String.list_ascii_of_string a) as [|c l IH]; constructor; [|done].
  pose proof (Ascii.N_ascii_bounded c). lia.
Qed.

Lemma strlen_nonneg a : 0 ≤ strlen a.
Proof. unfold strlen. lia. Qed.

Lemma apn_tlv_spec b off txid msg_id ts type a :
  partial_msg b off txid msg_id ts → strlen a < 65536 → off + 3 + strlen a ≤ Z.of_nat (length b) →
  ∃ b', qmi_tlv_bytes b off type (c_object a) (strlen a) = Some (b', off + 3 + strlen a) ∧
        length b' = length b ∧
        partial_msg b' (off + 3 + strlen a) txid msg_id (ts ++ [(type, c_bytes a)]).
Proof.
  intros Hp H16 Hsz. pose proof (strlen_nonneg a). pose proof (c_bytes_length a) as Hc.
  destruct (tlv_bytes_spec b off txid msg_id ts type (c_object a) (strlen a))
    as (b' & He & Hl & Hp'); [done|unfold c_object; rewrite length_app; simpl; lia|done|done|].
  exists b'. split_and!; [done..|].
  assert (take (Z.to_nat (strlen a)) (c_object a) = c_bytes a) as Ht; [|by rewrite Ht in Hp'].
  unfold c_object. rewrite <- Hc, Nat2Z.id. apply take_app_length.
Qed.

Ltac build_apn :=
  edestruct apn_tlv_spec as (? & -> & ? & ?); [eassumption|lia|lia|]; cbn [mbind option_bind].

Definition start_tlvs (simple : bool) (a : string) : list (Z * list Z) :=
  if simple then [(0x14, c_bytes a); (0x19, [4])]
  else [(0x14, c_bytes a); (0x16, [0]); (0x19, [4]); (0x31, [5]); (0x35, [1]); (0x39, [1])].

(** The longest APN for which the request fits into its 256 bytes. *)
Definition max_apn (simple : bool) : Z := if simple then 242 else 226.

Lemma start_builds simple a :
  strlen a ≤ max_apn simple →
  builds (start_network_request simple a) 256 MSG_START_NETWORK (start_tlvs simple a).
Proof.
  intros Ha. unfold start_network_request, max_apn in *. pose proof (strlen_nonneg a).
  destruct simple; build_start; build_apn; repeat build_tlv; build_end.
Qed.

Definition iattach_tlvs (a : string) : list (Z * list Z) := [(0x10, c_bytes a); (0x14, [3])].

Lemma iattach_encode a :
  encode_tlvs (iattach_tlvs a) = encode_tlv (0x10, c_bytes a) ++ encode_tlv (0x14, [3]).
Proof.
  etrans; [exact (encode_tlvs_app [(0x10, c_bytes a)] [(0x14, [3])])|].
  by rewrite !encode_tlvs_one.
Qed.

(** This builder passes the length of the body to the header. *)
Lemma iattach_builds a :
  strlen a ≤ 242 → builds (iattach_request a) 256 MSG_SET_INITIAL_ATTACH_APN (iattach_tlvs a).
Proof.
  intros Ha b txid Hb. unfold iattach_request. pose proof (strlen_nonneg a).
  destruct (hdr_spec b txid MSG_SET_INITIAL_ATTACH_APN (u16 (3 + strlen a + (3 + 1))))
    as (b1 & -> & Hl1 & Hs1); [lia|]. cbn [mbind option_bind].
  pose proof (c_bytes_length a) as Hc.
  edestruct (tlv_bytes_starts b1) as (b2 & -> & Hl2 & Hs2);
    [exact Hs1|done|unfold c_object; rewrite length_app; split; [done|simpl; lia]|lia|lia|].
  cbn [mbind option_bind].
  assert (take (Z.to_nat (strlen a)) (c_object a) = c_bytes a) as Ht
    by (unfold c_object; rewrite <- Hc, Nat2Z.id; apply take_app_length).
  rewrite Ht in Hs2. unfold qmi_tlv_u8.
  edestruct (tlv_bytes_starts b2) as (b3 & -> & Hl3 & Hs3);
    [exact Hs2|rewrite length_app, encode_tlv_length; simpl; lia|simpl; lia|lia|lia|].
  eexists _, _. split_and!; [done|congruence|].
  assert (u16 (3 + strlen a + (3 + 1)) =
          Z.of_nat (length (encode_tlvs (iattach_tlvs a)))) as Hu.
  { unfold u16. rewrite Z.mod_small, iattach_encode by lia.
    rewrite length_app, !encode_tlv_length. simpl. lia. }
  rewrite <- (assoc_L (++)), Hu in Hs3. split.
  - unfold encode_msg. rewrite (iattach_encode a) at 2. exact Hs3.
  - unfold encode_msg. rewrite length_app, iattach_encode, length_app, !encode_tlv_length.
    simpl. lia.
Qed.

Definition fff2_tlvs (a : string) (ip ext : Z) : list (Z * list Z) :=
  [(0x01, [1]); (0x31, [u8 ext]); (0x14, c_bytes a); (0x19, [u8 ip]); (0x35, [1])].

Lemma fff2_builds a ip ext :
  strlen a ≤ 230 → builds (fff2_request a ip ext) 256 MSG_FFF2 (fff2_tlvs a ip ext).
Proof.
  intros Ha. unfold fff2_request. pose proof (strlen_nonneg a).
  build_start. do 2 build_tlv. build_apn. repeat build_tlv. build_end.
Qed.

(** * vendor-init: reasoning about runs *)

(** ** What a run sends *)

(** Socket, node, port and data of a request. *)
Definition request : Type := Z * Z * Z * list Z.

Definition request_of (e : event) : option request :=
  match e with ESend f node port data _ => Some (f, node, port, data) | _ => None end.

(** The requests in a history, oldest first. *)
Definition requests (evs : list event) : list request := reverse (omap request_of evs).

Lemma requests_app e2 e1 : requests (e2 ++ e1) = requests e1 ++ requests e2.
Proof. unfold requests. by rewrite omap_app, reverse_app. Qed.

Lemma requests_cons e evs :
  requests (e :: evs) = requests evs ++ from_option (λ r, [r]) [] (request_of e).
Proof. change (e :: evs) with ([e] ++ evs). rewrite requests_app. by destruct e. Qed.

(** How often a run reads from a socket. *)
Definition is_recv (e : event) : bool := match e with ERecv _ _ _ => true | _ => false end.
Definition reads (evs : list event) : nat := length (List.filter is_recv evs).

Lemma reads_app e2 e1 : reads (e2 ++ e1) = (reads e2 + reads e1)%nat.
Proof. unfold reads. by rewrite filter_app, length_app. Qed.

(** The datagram is in the history. *)
Definition received (evs : list event) (p : list Z) : Prop := ∃ f sz, ERecv f sz (Some p) ∈ evs.

Lemma received_app evs evs' p : received evs p → received (evs' ++ evs) p.
Proof. intros (f & sz & H). exists f, sz. apply elem_of_app. by right. Qed.

(** The response that [qrtr_txn] waits for. *)
Definition is_response (msg_id : Z) (p : list Z) : Prop := txn_reply msg_id p = Some true.

Lemma is_response_spec msg_id p :
  is_response msg_id p →
  (5 ≤ length p)%nat ∧ p !! 0%nat = Some QMI_FLAG_RESP ∧ read_u16 p 3 = Some msg_id.
Proof.
  unfold is_response, txn_reply. destruct (Z.ltb_spec (Z.of_nat (length p)) 5); [done|].
  destruct (read_u16 p 3) as [mid|] eqn:Em; [|done]. simpl.
  destruct (lookup_z p 0) as [ctl|] eqn:Ec; [|done]. simpl. intros [= He].
  apply andb_prop in He as [H1 H2]. apply Z.eqb_eq in H1. apply Z.eqb_eq in H2. subst.
  split_and!; [lia|exact Ec|done].
Qed.

(** A received datagram is read inside its bounds. *)
Lemma txn_reply_total msg_id p : ∃ b, txn_reply msg_id p = Some b.
Proof.
  unfold txn_reply. destruct (Z.ltb_spec (Z.of_nat (length p)) 5); [eauto|].
  destruct (lookup_z_lt p 0) as [a Ha]; [lia|].
  destruct (lookup_z_lt p 3) as [b Hb]; [lia|].
  destruct (lookup_z_lt p 4) as [c Hc]; [lia|].
  unfold read_u16. rewrite Hb. simpl. change (3 + 1) with 4. rewrite Hc. simpl.
  rewrite Ha. simpl. eauto.
Qed.

Lemma ctrl_word_total p i :
  20 ≤ Z.of_nat (length p) → 0 ≤ i < 5 → ∃ w, ctrl_word p i = Some w.
Proof.
  intros Hp Hi. unfold ctrl_word.
  destruct (lookup_z_lt p (4 * i)) as [a ->]; [lia|].
  destruct (lookup_z_lt p (4 * i + 1)) as [b ->]; [lia|].
  destruct (lookup_z_lt p (4 * i + 2)) as [c ->]; [lia|].
  destruct (lookup_z_lt p (4 * i + 3)) as [d ->]; [lia|]. simpl. eauto.
Qed.

Lemma lookup_reply_total service p : ∃ r, lookup_reply service p = Some r.
Proof.
  unfold lookup_reply, sizeof_ctrl_pkt.
  destruct (Z.ltb_spec (Z.of_nat (length p)) 20); [eauto|].
  destruct (ctrl_word_total p 0) as [c ->]; [lia..|]. simpl. destruct (c =? _); simpl; [|eauto].
  destruct (ctrl_word_total p 1) as [v ->]; [lia..|]. simpl. destruct (v =? _); simpl; [|eauto].
  destruct (ctrl_word_total p 4) as [w ->]; [lia..|]. simpl. destruct (w =? 0); eauto.
Qed.

(** Run the calls of a system-call wrapper. *)
Ltac wp_eval :=
  unfold wp, get_vctx, upd_vctx, emit, when, mbind, M_bind, mret, M_ret, get, modify, of_option;
  cbn beta iota.

(** ** The judgement *)

(** A state with more history. *)
Definition logs (evs : list event) (s : vi_state) : vi_state :=
  mkVi (vctx s) (files s) (dir_ensured s) (g_stop s) (open_fds s) (evs ++ hist s).

Lemma logs_logs e2 e1 s : logs e2 (logs e1 s) = logs (e2 ++ e1) s.
Proof. unfold logs. simpl. by rewrite (assoc_L (++)). Qed.

Lemma logs_nil s : logs [] s = s.
Proof. by destruct s. Qed.

(** The two files that only [main] writes. *)
Definition state_path (name : string) : string := snprintf 256 (STATE_DIR +:+ "/" +:+ name).
Definition main_paths : list string := [state_path "state"; state_path "stage"].

Record runs (s0 : vi_state) (c : vi_ctx) (L : list Z) (rs : list request) (gs : list (list Z))
    (s : vi_state) : Prop := {
  runs_ctx : vctx s = c;
  runs_fds : open_fds s = L;
  runs_stop : g_stop s = g_stop s0;
  runs_files : ∀ path, path ∈ main_paths → files s !! path = files s0 !! path;
  runs_hist : ∃ evs, hist s = evs ++ hist s0 ∧ requests evs = rs ∧ Forall (received evs) gs;
}.

Lemma runs_start s : runs s (vctx s) (open_fds s) [] [] s.
Proof. split; try done. by exists []. Qed.

Lemma runs_logs s0 c L rs gs s evs gs' :
  runs s0 c L rs gs s → Forall (received evs) gs' →
  runs s0 c L (rs ++ requests evs) (gs ++ gs') (logs evs s).
Proof.
  intros [Hc HL Hst Hf (e0 & He & Hr & Hg)] Hg'. split; [done..|]. simpl.
  exists (evs ++ e0). split_and!.
  - by rewrite He, (assoc_L (++)).
  - rewrite requests_app. by rewrite Hr.
  - apply Forall_app. split.
    + eapply Forall_impl; [|exact Hg]. intros p. apply received_app.
    + eapply Forall_impl; [|exact Hg']. intros p (f & sz & Hin). exists f, sz.
      apply elem_of_app. by left.
Qed.

(** A run followed by another one. *)
Lemma runs_trans s0 c L rs gs s c' L' rs' gs' s' :
  runs s0 c L rs gs s → runs s c' L' rs' gs' s' → runs s0 c' L' (rs ++ rs') (gs ++ gs') s'.
Proof.
  intros [Hc HL Hst Hf (e0 & He & Hr & Hg)] [Hc' HL' Hst' Hf' (e1 & He' & Hr' & Hg')].
  split; [done|done|congruence| |].
  - intros path Hp. by rewrite Hf', Hf.
  - exists (e1 ++ e0). split_and!.
    + by rewrite He', He, (assoc_L (++)).
    + rewrite requests_app. by rewrite Hr, Hr'.
    + apply Forall_app. split.
      * eapply Forall_impl; [|exact Hg]. intros p. apply received_app.
      * eapply Forall_impl; [|exact Hg']. intros p (f & sz & Hin). exists f, sz.
        apply elem_of_app. by left.
Qed.

(** An event that is no request. *)
Lemma runs_event s0 c L rs gs s e :
  runs s0 c L rs gs s → request_of e = None → runs s0 c L rs gs (logged e s).
Proof.
  intros Hr He. pose proof (runs_logs s0 c L rs gs s [e] [] Hr (Forall_nil_2 _)) as H.
  rewrite requests_cons, He, !app_nil_r in H. exact H.
Qed.

Section Rules.
Context `{Kernel}.

Lemma wp_get_vctx s0 c L rs gs s (Q : vi_ctx → vi_state → Prop) :
  runs s0 c L rs gs s → Q c s → wp get_vctx Q s.
Proof. intros Hr HQ. wp_eval. by rewrite (runs_ctx _ _ _ _ _ _ Hr). Qed.

Lemma runs_upd s0 c L rs gs s f :
  runs s0 c L rs gs s → wp (upd_vctx f) (λ _ s', runs s0 (f c) L rs gs s') s.
Proof. intros [Hc HL Hst Hf He]. split; simpl; [by rewrite Hc|done..]. Qed.

Lemma runs_socket s0 c L rs gs s :
  runs s0 c L rs gs s →
  wp socket (λ r s', runs s0 c (if 0 <=? r then r :: L else L) rs gs s') s.
Proof.
  intros Hr. unfold socket. wp_eval. set (r := k_socket (hist s)).
  pose proof (runs_event s0 c L rs gs s (ESocket r) Hr eq_refl) as [Hc HL Hst Hf He].
  destruct (0 <=? r) eqn:E; rewrite E; [|by split].
  split; [done| |done..]. simpl. simpl in HL. by rewrite HL.
Qed.

Lemma runs_open s0 c L rs gs s :
  runs s0 c L rs gs s →
  wp qrtr_open (λ r s', r < 0 ∧ runs s0 c L rs gs s' ∨ 0 ≤ r ∧ runs s0 c (r :: L) rs gs s') s.
Proof.
  intros Hr. eapply wp_mono; [by apply runs_socket|]. cbn beta. intros r s' Hr'.
  destruct (Z.leb_spec 0 r); [by right|by left].
Qed.

Lemma runs_close s0 c f L L' rs gs s :
  remove_fd f L = Some L' →
  runs s0 c L rs gs s → wp (close f) (λ _ s', runs s0 c L' rs gs s') s.
Proof.
  intros Hf Hr. unfold close. wp_eval. rewrite (runs_fds _ _ _ _ _ _ Hr), Hf. simpl.
  apply runs_event; [|done]. destruct Hr as [Hc HL Hst Hfi He]. by split.
Qed.

Lemma runs_usleep s0 c L rs gs s us :
  runs s0 c L rs gs s → wp (usleep us) (λ _ s', runs s0 c L rs gs s') s.
Proof. intros Hr. by apply (runs_event _ _ _ _ _ _ (EUsleep _ _)). Qed.

Lemma runs_clock s0 c L rs gs s :
  runs s0 c L rs gs s → wp clock_gettime (λ t s', runs s0 c L rs gs s') s.
Proof. intros Hr. by apply (runs_event _ _ _ _ _ _ (EClock _)). Qed.

Lemma runs_system s0 c L rs gs s cmd :
  runs s0 c L rs gs s → wp (system cmd) (λ _ s', runs s0 c L rs gs s') s.
Proof. intros Hr. by apply (runs_event _ _ _ _ _ _ (ESystem _ _)). Qed.

Lemma runs_fopen s0 c L rs gs s path data :
  path ∉ main_paths →
  runs s0 c L rs gs s → wp (fopen_write path data) (λ _ s', runs s0 c L rs gs s') s.
Proof.
  intros Hp Hr. unfold fopen_write. wp_eval.
  pose proof (runs_event s0 c L rs gs s (EWrite path data (k_fopen (hist s) path)) Hr eq_refl)
    as [Hc HL Hst Hf He].
  destruct (k_fopen (hist s) path); simpl; [|by split].
  split; [done..| |done]. simpl. intros path' Hp'. rewrite lookup_insert_ne; [by apply Hf|].
  by intros <-.
Qed.

Lemma runs_ensured s0 c L rs gs s :
  runs s0 c L rs gs s → wp ensure_dir (λ _ s', runs s0 c L rs gs s') s.
Proof.
  intros Hr. unfold ensure_dir. wp_eval. destruct (dir_ensured s); [done|]. simpl.
  pose proof (runs_event s0 c L rs gs s (EMkdir STATE_DIR) Hr eq_refl) as [Hc HL Hst Hf He].
  by split.
Qed.

Lemma runs_record s0 c L rs gs s key value :
  state_path key ∉ main_paths →
  runs s0 c L rs gs s → wp (state_record key value) (λ _ s', runs s0 c L rs gs s') s.
Proof.
  intros Hk Hr. unfold state_record, write_file. apply wp_bind.
  eapply wp_mono; [by apply runs_ensured|]. cbn beta. intros _ s1 Hr1. apply wp_bind.
  eapply wp_mono; [by apply runs_fopen|]. cbn beta. intros _ s2 Hr2. by apply wp_ret.
Qed.

(** ** qrtr.c *)

Lemma recv_spec f sz s :
  wp (recvfrom f sz) (λ d s', s' = logs [ERecv f sz d] s ∧ (∀ p, d = Some p → byte_list p)) s.
Proof.
  unfold recvfrom. wp_eval. split; [done|]. intros p.
  destruct (bool_decide _); [|done]. destruct (k_recvfrom (hist s)) as [l|]; [|done].
  simpl. intros [= <-]. apply Forall_take. unfold byte_list, u8.
  induction l; constructor; [apply Z.mod_pos_bound; lia|done].
Qed.

Lemma sendto_spec f node port data s :
  wp (sendto f node port data) (λ ok s', s' = logs [ESend f node port data ok] s) s.
Proof. done. Qed.

(** The loop of [qrtr_lookup]: the events, and where a port comes from. *)
Lemma lookup_loop_spec turns f service : ∀ s,
  wp (lookup_loop turns f service) (λ port s', ∃ evs, s' = logs evs s ∧
    requests evs = [] ∧ (reads evs ≤ turns)%nat ∧
    (port ≠ 0 → ∃ p, received evs p ∧ lookup_reply service p = Some (Some port))) s.
Proof.
  induction turns as [|turns IH]; intros s; simpl.
  { apply wp_ret. exists []. rewrite logs_nil. by split_and!. }
  apply wp_bind, (wp_intro _ _ _ (k_poll (hist s)) (logs [EPoll f 500 (k_poll (hist s))] s) eq_refl).
  destruct (k_poll (hist s) <=? 0).
  { apply wp_ret. exists [EPoll f 500 (k_poll (hist s))]. split_and!; [done|done|unfold reads; simpl; lia|done]. }
  apply wp_bind. eapply wp_mono; [apply recv_spec|]. cbn beta. intros d s1 [-> Hd].
  assert (∀ s2, s2 = logs [ERecv f sizeof_ctrl_pkt d] (logs [EPoll f 500 (k_poll (hist s))] s) →
    wp (lookup_loop turns f service) (λ port s', ∃ evs, s' = logs evs s ∧
      requests evs = [] ∧ (reads evs ≤ S turns)%nat ∧
      (port ≠ 0 → ∃ p, received evs p ∧ lookup_reply service p = Some (Some port))) s2) as Hnext.
  { intros s2 ->. eapply wp_mono; [apply IH|]. cbn beta. intros port s' (evs & -> & H1 & H2 & H3).
    exists (evs ++ [ERecv f sizeof_ctrl_pkt d; EPoll f 500 (k_poll (hist s))]).
    rewrite !logs_logs. split_and!; [by rewrite <- (assoc_L (++))| | |].
    - by rewrite requests_app, H1.
    - rewrite reads_app. unfold reads at 2. simpl. lia.
    - intros Hp. destruct (H3 Hp) as (p & (g & sz & Hin) & Hl). exists p. split; [|done].
      exists g, sz. apply elem_of_app. by left. }
  destruct d as [p|]; [|by apply Hnext].
  destruct (lookup_reply_total service p) as [r Hr]. apply wp_bind.
  eapply wp_of_option; [exact Hr|]. destruct r as [port|]; [|by apply Hnext].
  apply wp_ret. exists [ERecv f sizeof_ctrl_pkt (Some p); EPoll f 500 (k_poll (hist s))].
  rewrite logs_logs. split_and!; [done|done|unfold reads; simpl; lia|].
  intros _. exists p. split; [|done]. exists f, sizeof_ctrl_pkt. apply elem_of_cons. by left.
Qed.

Definition lookup_request (f service : Z) : request :=
  (f, 1, QRTR_PORT_CTRL, qrtr_ctrl_pkt QRTR_TYPE_NEW_LOOKUP service 0 0 0).

Lemma qrtr_lookup_spec f service s :
  wp (qrtr_lookup f service) (λ port s', ∃ evs, s' = logs evs s ∧
    requests evs = [lookup_request f service] ∧ (reads evs ≤ 64)%nat ∧
    (port ≠ 0 → ∃ p, received evs p ∧ lookup_reply service p = Some (Some port))) s.
Proof.
  unfold qrtr_lookup. apply wp_bind.
  eapply wp_mono; [apply sendto_spec|]. cbn beta. intros ok s1 ->. set (e := ESend _ _ _ _ ok).
  destruct ok.
  - eapply wp_mono; [apply lookup_loop_spec|]. cbn beta. intros port s' (evs & -> & H1 & H2 & H3).
    exists (evs ++ [e]). rewrite logs_logs. split_and!; [done|by rewrite requests_app, H1| |].
    + rewrite reads_app. unfold reads at 2. simpl. lia.
    + intros Hp. destruct (H3 Hp) as (p & (g & sz & Hin) & Hl). exists p. split; [|done].
      exists g, sz. apply elem_of_app. by left.
  - apply wp_ret. exists [e]. split_and!; [done|done|unfold reads; simpl; lia|done].
Qed.

(** The result of waiting for [mid] in the events [evs]: a response that was received, and
    the only one. *)
Definition txn_result (mid : Z) (evs : list event) (r : option (list Z)) : Prop :=
  (∀ p, r = Some p → received evs p ∧ byte_list p ∧ is_response mid p) ∧
  (∀ p, received evs p → is_response mid p → r = Some p).

Lemma received_cons e evs p :
  received (e :: evs) p ↔ (∃ f sz, e = ERecv f sz (Some p)) ∨ received evs p.
Proof.
  unfold received. setoid_rewrite elem_of_cons. split.
  - intros (f & sz & [He|Hin]); [left|right]; eauto.
  - intros [(f & sz & He)|(f & sz & Hin)]; exists f, sz; [by left|by right].
Qed.

Lemma received_nil p : ¬ received [] p.
Proof. intros (f & sz & Hin). by apply elem_of_nil in Hin. Qed.

(** Events before the wait, none of which is a response. *)
Lemma txn_result_app mid evs evs0 r :
  (∀ p, received evs0 p → ¬ is_response mid p) →
  txn_result mid evs r → txn_result mid (evs ++ evs0) r.
Proof.
  intros H0 [H1 H2]. split.
  - intros p Hp. destruct (H1 p Hp) as ((f & sz & Hin) & ?). split; [|done].
    exists f, sz. apply elem_of_app. by left.
  - intros p (f & sz & Hin) Hr. apply elem_of_app in Hin as [Hin|Hin].
    + apply H2; [by exists f, sz|done].
    + destruct (H0 p); [by exists f, sz|done].
Qed.

Lemma txn_loop_spec turns f mid sz tmo : ∀ s,
  wp (txn_loop turns f mid sz tmo) (λ r s', ∃ evs, s' = logs evs s ∧
    requests evs = [] ∧ (reads evs ≤ turns)%nat ∧ txn_result mid evs r) s.
Proof.
  assert (∀ e, request_of e = None → is_recv e = false → txn_result mid [e] None) as Hnone.
  { intros e _ He. split; [done|]. intros p [(g & z & ->)|[]%received_nil]%received_cons. done. }
  induction turns as [|turns IH]; intros s; simpl.
  { apply wp_ret. exists []. rewrite logs_nil. split_and!; [done..|]. split; [done|].
    by intros p []%received_nil. }
  set (e := EPoll f tmo (k_poll (hist s))).
  apply wp_bind, (wp_intro _ _ _ (k_poll (hist s)) (logs [e] s) eq_refl).
  destruct (k_poll (hist s) <=? 0).
  { apply wp_ret. exists [e]. split_and!; [done|done|unfold reads; simpl; lia|by apply Hnone]. }
  apply wp_bind. eapply wp_mono; [apply recv_spec|]. cbn beta. intros d s1 [-> Hd].
  assert ((∀ p, d = Some p → ¬ is_response mid p) →
    ∀ s2, s2 = logs [ERecv f sz d] (logs [e] s) →
    wp (txn_loop turns f mid sz tmo) (λ r s', ∃ evs, s' = logs evs s ∧
      requests evs = [] ∧ (reads evs ≤ S turns)%nat ∧ txn_result mid evs r) s2) as Hnext.
  { intros Hno s2 ->. eapply wp_mono; [apply IH|]. cbn beta.
    intros r s' (evs & -> & H1 & H2 & H3).
    exists (evs ++ [ERecv f sz d; e]). rewrite !logs_logs.
    split_and!; [by rewrite <- (assoc_L (++))|by rewrite requests_app, H1| |].
    - rewrite reads_app. unfold reads at 2. simpl. lia.
    - apply txn_result_app; [|done].
      intros p [(g & z & [= _ _ Hp])|[(g & z & [=])|[]%received_nil]%received_cons]%received_cons.
      by apply Hno. }
  destruct d as [p|]; [|by apply Hnext].
  destruct (txn_reply_total mid p) as [b Hb]. apply wp_bind.
  eapply wp_of_option; [exact Hb|]. destruct b.
  2: { apply Hnext; [|done]. intros p' [= <-]. unfold is_response. by rewrite Hb. }
  apply wp_ret. exists [ERecv f sz (Some p); e].
  rewrite logs_logs. split_and!; [done|done|unfold reads; simpl; lia|]. split.
  - intros p' [= <-]. split_and!; [|by apply Hd|done]. exists f, sz. by left.
  - intros p' [(g & z & [= _ _ ->])|[(g & z & [=])|[]%received_nil]%received_cons]%received_cons _.
    done.
Qed.

Lemma qrtr_txn_spec f node port data mid sz tmo s :
  wp (qrtr_txn f node port data mid sz tmo) (λ r s', ∃ evs, s' = logs evs s ∧
    requests evs = [(f, node, port, data)] ∧ (reads evs ≤ 32)%nat ∧ txn_result mid evs r) s.
Proof.
  unfold qrtr_txn. apply wp_bind.
  eapply wp_mono; [apply sendto_spec|]. cbn beta. intros ok s1 ->. set (e := ESend _ _ _ _ ok).
  assert (∀ p, received [e] p → ¬ is_response mid p) as He
    by (intros p [(g & z & [=])|[]%received_nil]%received_cons).
  destruct ok.
  - eapply wp_mono; [apply txn_loop_spec|]. cbn beta. intros r s' (evs & -> & H1 & H2 & H3).
    exists (evs ++ [e]). rewrite logs_logs.
    split_and!; [done|by rewrite requests_app, H1| |by apply txn_result_app].
    rewrite reads_app. unfold reads at 2. simpl. lia.
  - apply wp_ret. exists [e]. split_and!; [done|done|unfold reads; simpl; lia|].
    split; [done|]. intros p Hr. by apply He in Hr.
Qed.

Lemma runs_lookup s0 c L rs gs s f service :
  runs s0 c L rs gs s →
  wp (qrtr_lookup f service)
     (λ port s', runs s0 c L (rs ++ [lookup_request f service]) gs s') s.
Proof.
  intros Hr. eapply wp_mono; [apply qrtr_lookup_spec|]. cbn beta.
  intros port s' (evs & -> & He & _ & _).
  pose proof (runs_logs s0 c L rs gs s evs [] Hr (Forall_nil_2 _)) as H1.
  by rewrite He, app_nil_r in H1.
Qed.

(** The response that a stage accepts is a byte list, so that it has TLVs. *)
Lemma runs_txn s0 c L rs gs s f port req off txid mid ts mid' sz tmo :
  runs s0 c L rs gs s → complete_msg req off txid mid ts →
  wp (txn f port req off mid' sz tmo) (λ r s',
    match r with
    | None => runs s0 c L (rs ++ [(f, 0, port, encode_msg QMI_FLAG_REQ txid mid ts)]) gs s'
    | Some p =>
        runs s0 c L (rs ++ [(f, 0, port, encode_msg QMI_FLAG_REQ txid mid ts)]) (gs ++ [p]) s' ∧
        is_response mid' p ∧ byte_list p ∧ ∃ us, message_tlvs p us
    end) s.
Proof.
  intros Hr Hc. unfold txn. apply wp_bind.
  eapply wp_of_option; [by apply complete_read|].
  eapply wp_mono; [apply qrtr_txn_spec|]. cbn beta.
  intros r s' (evs & -> & He & _ & Hp & _). rewrite <- He. destruct r as [p|].
  - destruct (Hp p eq_refl) as (Hrc & Hb & Hi). split_and!.
    + apply runs_logs; [done|]. by constructor.
    + done.
    + done.
    + by apply message_tlvs_exist.
  - pose proof (runs_logs s0 c L rs gs s evs [] Hr (Forall_nil_2 _)) as H1.
    by rewrite app_nil_r in H1.
Qed.

End Rules.

(** ** Automation *)

(** The path is none of the two files of [main]. *)
Ltac other_path := apply (bool_decide_unpack _); vm_compute; exact I.

(** One step of a goal [wp _ _ s] whose context has [runs _ _ _ _ _ s]. The calls whose
    result matters leave it in the goal. *)
Ltac vi_step :=
  lazymatch goal with
  | |- wp (if negb true then _ else _) _ _ => cbn [negb]
  | |- wp (if negb false then _ else _) _ _ => cbn [negb]
  | |- wp (if true then _ else _) _ _ => cbv iota
  | |- wp (if false then _ else _) _ _ => cbv iota
  | |- wp (mret _) _ _ => apply wp_ret
  | |- wp (mbind _ _) _ _ => apply wp_bind
  | |- wp get_vctx _ _ => eapply wp_get_vctx; [eassumption|]
  | |- wp (upd_vctx _) _ _ => eapply wp_mono; [eapply runs_upd; eassumption|]; cbv beta; intros _ ? ?
  | |- wp (usleep _) _ _ => eapply wp_mono; [eapply runs_usleep; eassumption|]; cbv beta; intros _ ? ?
  | |- wp clock_gettime _ _ => eapply wp_mono; [eapply runs_clock; eassumption|]; cbv beta; intros ? ? ?
  | |- wp (state_record _ _) _ _ =>
      eapply wp_mono; [eapply runs_record; [other_path|eassumption]|]; cbv beta; intros _ ? ?
  | |- wp (close _) _ _ =>
      eapply wp_mono;
        [eapply runs_close; [|eassumption]; cbn [remove_fd]; rewrite Z.eqb_refl; reflexivity|];
      cbv beta; intros _ ? ?
  | |- wp qrtr_open _ _ => eapply wp_mono; [eapply runs_open; eassumption|]; cbn beta
  | |- wp (qrtr_lookup _ _) _ _ => eapply wp_mono; [eapply runs_lookup; eassumption|]; cbn beta
  | |- wp (txn _ _ _ _ _ _ _) _ _ =>
      eapply wp_mono; [eapply runs_txn; eassumption|]; cbn beta
  | |- wp (of_option (qmi_result _ _)) _ _ =>
      eapply wp_of_option; [apply result_spec; eassumption|]
  | |- wp (of_option (qmi_tlv_get_u32 _ _ _)) _ _ =>
      eapply wp_of_option; [apply get_u32_spec; eassumption|]
  end; cbv beta.

Ltac vi_steps := repeat vi_step.
