(* ===== verification/ViNasRuns.v ===== *)
(** * vendor-init: what the configuration stages do

    For each stage of [ViConfig.v] the requests it may send, in order and byte for byte, and
    the meaning of its exit code.

    The radio interface a response names, the requests of the stage, and the end of the wait
    for LTE: the clock advances by a second in every turn, so that the timeout comes. *)

From S2P Require Import Prelude.
From S2P Require Import Qmi.
From S2P Require Import QmiScan.
From S2P Require Import ViTypes.
From S2P Require Import Qrtr.
From S2P Require Import ViConfig.
From S2P Require Import ViRun.
From S2P Require Import ViNas.

(** The builder of a request, with what it promises. *)
Ltac vi_build lem :=
  lazymatch goal with
  | |- wp (of_option (_ ?b ?t)) _ _ =>
      let He := fresh "He" in
      destruct (lem b t) as (? & ? & He & ? & ?); [first [done|eassumption]|];
      eapply wp_of_option; [exact He|]; clear He; cbn beta iota
  end.

(** A QMI request to a service of the modem (node 0). *)
Definition qmi_request (f port txid msg_id : Z) (ts : list (Z * list Z)) : request :=
  (f, 0, port, encode_msg QMI_FLAG_REQ txid msg_id ts).

(** The modem answered [msg_id] with that result. *)
Definition answered (msg_id code : Z) (p : list Z) : Prop :=
  is_response msg_id p ∧ ∃ us, message_tlvs p us ∧ result_code us = code.

(** A stage that configures the modem: it ends with an exit code between 0 and 3, the
    requests it sent are the first ones of its script, and the context keeps everything but
    the port of the service. *)
Definition stage_post (s : vi_state) (c' : vi_ctx) (script : Z → Z → list request) (rc : Z)
    (rs : list request) (gs : list (list Z)) (s' : vi_state) : Prop :=
  runs s c' (open_fds s) rs gs s' ∧ 0 ≤ rc ≤ 3 ∧ ∃ f port, rs `prefix_of` script f port.

(** ** Data in a response *)

Definition mode_of (us : list (Z * list Z)) : Z :=
  match tlv_of 1 us with Some (m :: _) => m | _ => 0xFF end.

Lemma dms_mode_spec p us : message_tlvs p us → dms_mode p = Some (mode_of us).
Proof.
  intros Hp. unfold dms_mode, mode_of, size.
  destruct (find_data p us 1) as [[-> ->]|(off & d & pre & post & -> & -> & Ho & -> & Ht & ->)];
    [done..|]. cbn [mbind option_bind].
  destruct d as [|a d]; [done|]. rewrite (proj2 (Z.leb_le _ _)) by (simpl; lia).
  by rewrite lookup_z_app0.
Qed.

Lemma get_u32_or_total v p us ty : message_tlvs p us → ∃ w, get_u32_or v p ty = Some w.
Proof. intros Hp. unfold get_u32_or, size. rewrite (get_u32_spec p us) by done. simpl. eauto. Qed.

(** ** stage_dms_online *)

Definition dms_script (f port : Z) : list request :=
  [lookup_request f QRTR_SVC_DMS;
   qmi_request f port 1 MSG_DMS_GET_OPERATING_MODE [];
   qmi_request f port 2 MSG_DMS_SET_OPERATING_MODE dms_set_tlvs].

(** The modem said that it is in another mode than ONLINE. *)
Definition not_online (p : list Z) : Prop :=
  is_response MSG_DMS_GET_OPERATING_MODE p ∧
  ∃ us, message_tlvs p us ∧ result_code us = 0 ∧ mode_of us ≠ DMS_MODE_ONLINE.

(** The socket of the stage. *)
Ltac vi_open f :=
  let Hf := fresh "Hf" in
  vi_steps; intros f ? [[Hf ?]|[Hf ?]];
  [rewrite (proj2 (Z.ltb_lt _ _)) by exact Hf|rewrite (proj2 (Z.ltb_ge _ _)) by exact Hf];
  vi_steps.

(** The response of an exchange, with its TLVs and the result in it. *)
Ltac vi_answer p us :=
  vi_steps; intros [p|] ?; [intros (? & ? & ? & us & ?)|intros ?]; vi_steps.

(** The exit code of a branch. *)
Ltac vi_stage_end :=
  split; [eassumption|split; [lia|unshelve (eexists _, _, _; reflexivity); exact 0]].

(** A branch that is no exchange with another mode. *)
Ltac dms_end :=
  eexists _, _; split; [vi_stage_end|];
  split; [done|]; intros (? & ? & [=] & ?); done.

Section Config.
Context `{Kernel}.

Definition dms_post (s : vi_state) (rc : Z) (s' : vi_state) : Prop :=
  ∃ rs gs, stage_post s (vctx s) dms_script rc rs gs s' ∧
    (length rs = 3%nat ↔ ∃ p gs', gs = p :: gs' ∧ not_online p).

Lemma stage_post_none s script s' rc :
  runs s (vctx s) (open_fds s) [] [] s' → 0 ≤ rc ≤ 3 →
  stage_post s (vctx s) script rc [] [] s'.
Proof. intros Hr Hrc. split_and!; [done|lia..|]. exists 0, 0. apply prefix_nil. Qed.

Lemma dms_set_runs s s1 f port req g :
  runs s (vctx s) (f :: open_fds s)
    [lookup_request f QRTR_SVC_DMS; qmi_request f port 1 MSG_DMS_GET_OPERATING_MODE []] [g] s1 →
  length req = 64%nat → not_online g →
  wp (dms_set_online f port req 2) (dms_post s) s1.
Proof.
  intros Hr Hl Hg. unfold dms_set_online. vi_steps. vi_build dms_set_builds. vi_answer p us.
  2: { eexists _, _. split; [vi_stage_end|]. split; [eauto|done]. }
  destruct (negb (result_code us =? 0)); vi_steps;
    (eexists _, _; split; [vi_stage_end|]; split; [eauto|done]).
Qed.

Lemma dms_runs s : wp stage_dms_online (dms_post s) s.
Proof.
  pose proof (runs_start s) as Hr. unfold stage_dms_online. vi_steps.
  assert (∀ s' rc, runs s (vctx s) (open_fds s) [] [] s' → 0 ≤ rc ≤ 3 → dms_post s rc s') as Hno.
  { intros s' rc Hr' Hrc. exists [], []. split; [by apply stage_post_none|].
    split; [done|]. by intros (p & gs' & [=] & _). }
  destruct (dry_run (vctx s)); [vi_steps; by apply Hno|].
  vi_open f; [by apply Hno|].
  intros port s2 Hr2. destruct (Z.eqb_spec port 0); vi_steps; [dms_end|].
  vi_build dms_get_builds. vi_answer p us; [|dms_end].
  destruct (Z.eqb_spec (result_code us) 0) as [Hrc|Hrc]; vi_steps.
  2: { eexists _, _. split; [vi_stage_end|]. split; [done|].
       intros (p' & gs' & [= <- _] & _ & us' & Hm & Hc & _).
       pose proof (result_spec _ _ Hm) as E1. pose proof (result_spec p us ltac:(done)) as E2.
       congruence. }
  eapply wp_of_option; [by apply dms_mode_spec|]. vi_steps.
  destruct (Z.eqb_spec (mode_of us) DMS_MODE_ONLINE) as [Hm|Hm]; vi_steps.
  - eexists _, _. split; [vi_stage_end|]. split; [done|].
    intros (p' & gs' & [= <- _] & _ & us' & Hm' & _ & Hn).
    pose proof (dms_mode_spec _ _ Hm') as E1. pose proof (dms_mode_spec p us ltac:(done)) as E2.
    congruence.
  - eapply dms_set_runs; [eassumption|done|]. split; [done|]. by exists us.
Qed.

(** ** stage_dpm_open *)

Definition dpm_script (f port : Z) : list request :=
  [lookup_request f QRTR_SVC_DPM; qmi_request f port 1 MSG_DPM_OPEN_PORT_REQ dpm_tlvs].

(** A stage that sends one request: it succeeds exactly when the modem answered it with
    success, or when it is a dry run. *)
Definition one_shot_post (s : vi_state) (set_port : Z → vi_ctx → vi_ctx)
    (script : Z → Z → list request) (msg_id : Z) (rc : Z) (s' : vi_state) : Prop :=
  ∃ c' rs gs, stage_post s c' script rc rs gs s' ∧
    (c' = vctx s ∨ ∃ port, c' = set_port port (vctx s)) ∧
    (rc = 0 ↔ dry_run (vctx s) = true ∨ (∃ p, gs = [p] ∧ answered msg_id 0 p)).

Lemma one_shot_none s set_port script msg_id s' rc :
  runs s (vctx s) (open_fds s) [] [] s' → 0 ≤ rc ≤ 3 → (rc = 0 ↔ dry_run (vctx s) = true) →
  one_shot_post s set_port script msg_id rc s'.
Proof.
  intros Hr Hrc Hd. exists (vctx s), [], []. split; [by apply stage_post_none|].
  split; [by left|]. rewrite Hd. split; [by left|]. by intros [?|(p & [=] & _)].
Qed.

(** The exit code after the answer. *)
Lemma answered_iff msg_id p us code :
  is_response msg_id p → message_tlvs p us → answered msg_id code p ↔ result_code us = code.
Proof.
  intros Hi Hm. split; [|intros <-; split; [done|by exists us]].
  intros (_ & us' & Hm' & <-). pose proof (result_spec _ _ Hm) as E1.
  pose proof (result_spec _ _ Hm') as E2. congruence.
Qed.

Ltac one_shot_end :=
  eexists _, _, _; split; [vi_stage_end|]; split; [right; by eexists|].

(** No answer, hence no success. *)
Lemma no_answer (d : bool) (rc msg_id : Z) :
  d = false → rc ≠ 0 →
  (rc = 0 ↔ d = true ∨ (∃ p, ([] : list (list Z)) = [p] ∧ answered msg_id 0 p)).
Proof. intros -> Hrc. split; [done|]. by intros [?|(p & [=] & _)]. Qed.

Lemma one_answer (d : bool) (rc msg_id : Z) p us :
  d = false → is_response msg_id p → message_tlvs p us → (rc = 0 ↔ result_code us = 0) →
  (rc = 0 ↔ d = true ∨ (∃ p', [p] = [p'] ∧ answered msg_id 0 p')).
Proof.
  intros -> Hi Hm ->. rewrite <- (answered_iff msg_id p us 0) by done.
  split; [by eauto|]. by intros [?|(p' & [= <-] & Ha)].
Qed.

Lemma dpm_runs s :
  wp stage_dpm_open (one_shot_post s ctx_set_dpm_port dpm_script MSG_DPM_OPEN_PORT_REQ) s.
Proof.
  pose proof (runs_start s) as Hr. unfold stage_dpm_open. vi_steps.
  destruct (dry_run (vctx s)) eqn:Ed; [vi_steps; by apply one_shot_none|].
  vi_open f; [by apply one_shot_none; [|lia|rewrite Ed]|].
  intros port s2 Hr2. vi_steps. destruct (Z.eqb_spec port 0); vi_steps.
  { one_shot_end. by apply no_answer. }
  vi_build dpm_builds. vi_answer p us; [|one_shot_end; by apply no_answer].
  destruct (Z.eqb_spec (result_code us) 0) as [Hrc|Hrc]; vi_steps; one_shot_end;
    by eapply one_answer.
Qed.

(** ** stage_wda_set *)

Definition wda_script (ful : bool) (f port : Z) : list request :=
  [lookup_request f QRTR_SVC_WDA; qmi_request f port 1 MSG_WDA_SET_DATA_FORMAT (wda_tlvs ful)].

Lemma wda_runs s :
  wp stage_wda_set
     (one_shot_post s ctx_set_wda_port (wda_script (full_ul (vctx s))) MSG_WDA_SET_DATA_FORMAT) s.
Proof.
  pose proof (runs_start s) as Hr. unfold stage_wda_set. vi_steps.
  destruct (dry_run (vctx s)) eqn:Ed; [vi_steps; by apply one_shot_none|].
  vi_open f; [by apply one_shot_none; [|lia|rewrite Ed]|].
  intros port s2 Hr2. vi_steps. destruct (Z.eqb_spec port 0); vi_steps.
  { one_shot_end. by apply no_answer. }
  vi_build (wda_builds (full_ul (vctx s))). vi_answer p us; [|one_shot_end; by apply no_answer].
  destruct (Z.eqb_spec (result_code us) 0) as [Hrc|Hrc]; vi_steps;
    [|one_shot_end; by eapply one_answer].
  do 4 (edestruct (get_u32_or_total 0 p us) as [? He]; [done|];
        eapply wp_of_option; [exact He|]; clear He; vi_steps).
  one_shot_end. by eapply one_answer.
Qed.

(** ** stage_dsd *)

Lemma dsd_runs s :
  wp stage_dsd (λ rc s', rc = 0 ∧ ∃ c' rs gs,
    stage_post s c' (λ f _, [lookup_request f QRTR_SVC_DSD]) rc rs gs s' ∧
    (c' = vctx s ∨ ∃ port, c' = ctx_set_dsd_port port (vctx s))) s.
Proof.
  pose proof (runs_start s) as Hr. unfold stage_dsd. vi_steps.
  assert (∀ s', runs s (vctx s) (open_fds s) [] [] s' → ∃ c' rs gs,
    stage_post s c' (λ f _, [lookup_request f QRTR_SVC_DSD]) 0 rs gs s' ∧
    (c' = vctx s ∨ ∃ port, c' = ctx_set_dsd_port port (vctx s))) as Hno.
  { intros s' Hr'. exists (vctx s), [], []. split; [by apply stage_post_none|by left]. }
  destruct (dry_run (vctx s)); [vi_steps; split; [done|by apply Hno]|].
  vi_open f; [split; [done|by apply Hno]|].
  intros port s2 Hr2. vi_steps.
  destruct (port =? 0); vi_steps; (split; [done|]);
    (eexists _, _, _; split; [vi_stage_end|right; by eexists]).
Qed.
End Config.

(** * vendor-init: what the registration to LTE does *)

(** ** The radio interface *)

(** The preference of [poll_serving_system]: LTE, then UMTS, then the first. *)
Definition radio_pref (ifs : list Z) (best : Z) : Z :=
  if bool_decide (RADIO_IF_LTE ∈ ifs) then RADIO_IF_LTE
  else if bool_decide (RADIO_IF_UMTS ∈ ifs) && negb (best =? RADIO_IF_LTE) then RADIO_IF_UMTS
  else best.

Lemma best_radio_spec ifs : ∀ pre post best,
  best_radio (length ifs) (pre ++ ifs ++ post) (Z.of_nat (length pre)) best =
  Some (radio_pref (i8 <$> ifs) best).
Proof.
  induction ifs as [|b ifs IH]; intros pre post best; [done|].
  cbn [best_radio length]. rewrite lookup_z_app0. cbn [app lookup list_lookup mbind option_bind].
  unfold radio_pref. cbn [fmap list_fmap].
  destruct (Z.eqb_spec (i8 b) RADIO_IF_LTE) as [He|He].
  { by rewrite bool_decide_eq_true_2 by (rewrite He; left). }
  replace (Z.of_nat (length pre) + 1) with (Z.of_nat (length (pre ++ [b])))
    by (rewrite length_app; simpl; lia).
  rewrite (cons_middle b), (assoc_L (++)), IH. unfold radio_pref.
  assert (RADIO_IF_LTE ∈ i8 b :: (i8 <$> ifs) ↔ RADIO_IF_LTE ∈ (i8 <$> ifs)) as H1
    by (rewrite elem_of_cons; intuition congruence).
  rewrite (bool_decide_ext _ _ H1).
  destruct (bool_decide_reflect (RADIO_IF_LTE ∈ (i8 <$> ifs))) as [|Hl]; [done|].
  destruct (Z.eqb_spec (i8 b) RADIO_IF_UMTS) as [Hu|Hu].
  - rewrite (bool_decide_eq_true_2 (RADIO_IF_UMTS ∈ i8 b :: _)) by (rewrite Hu; left).
    simpl. destruct (Z.eqb_spec best RADIO_IF_LTE) as [->|]; simpl.
    + by rewrite andb_false_r.
    + by destruct (bool_decide _).
  - assert (RADIO_IF_UMTS ∈ i8 b :: (i8 <$> ifs) ↔ RADIO_IF_UMTS ∈ (i8 <$> ifs)) as H2
      by (rewrite elem_of_cons; intuition congruence).
    by rewrite (bool_decide_ext _ _ H2).
Qed.

(** The interfaces of TLV 0x01 that the stage reads: [count] bytes from the sixth byte of
    its data on, wherever the TLV ends. *)
Lemma serving_radio_spec p us :
  message_tlvs p us → byte_list p →
  ∃ r, serving_radio p = Some r ∧
    (result_code us ≠ 0 → r = RADIO_IF_NONE) ∧
    (result_code us = 0 → tlv_of 0x15 us ≠ None → r = RADIO_IF_LTE) ∧
    (∀ a b c d ifs rest, result_code us = 0 → tlv_of 0x15 us = None → ifs ≠ [] →
       tlv_of 1 us = Some ([a; b; c; d; Z.of_nat (length ifs)] ++ ifs ++ rest) →
       r = radio_pref (i8 <$> ifs) (i8 (hd 0 ifs))).
Proof.
  intros Hp Hb. unfold serving_radio, size. rewrite (result_spec p us) by done.
  cbn [mbind option_bind]. destruct (Z.eqb_spec (result_code us) 0) as [Hrc|Hrc]; cbn [negb].
  2: { exists RADIO_IF_NONE. by split_and!. }
  destruct (find_data p us 0x15) as [[-> H15]|(o1 & d1 & ? & ? & _ & _ & _ & H15 & _ & ->)]; [done| |];
    cbn [mbind option_bind].
  2: { exists RADIO_IF_LTE. rewrite H15. by split_and!. }
  rewrite H15.
  destruct (find_data p us 1) as [[-> H1]|(off & d & pre & post & Hp' & -> & Ho & H1 & _ & ->)];
    [done|cbn [mbind option_bind]; rewrite H1; eexists; by split_and!|].
  cbn [mbind option_bind]. rewrite H1.
  destruct (Z.ltb_spec (Z.of_nat (length d)) 5).
  { eexists; split_and!; [done..|]. intros a b c e ifs rest _ _ _ [= ->]. simpl in *. lia. }
  destruct d as [|a [|b [|c [|e [|cnt d]]]]]; [simpl in *; lia..|].
  assert (p = (pre ++ [a; b; c; e]) ++ cnt :: d ++ post) as Hq
    by (by rewrite Hp', <- !(assoc_L (++))).
  assert (0 ≤ cnt < 256) as Hcnt.
  { rewrite Hq in Hb. apply Forall_app in Hb as [_ Hb]. by apply byte_list_cons in Hb as [? _]. }
  replace (Z.of_nat (length pre) + 4) with (Z.of_nat (length (pre ++ [a; b; c; e])))
    by (rewrite length_app; simpl; lia).
  assert (lookup_z p (Z.of_nat (length (pre ++ [a; b; c; e]))) = Some cnt) as ->
    by (rewrite Hq; apply lookup_z_app0).
  cbn [mbind option_bind].
  destruct (Z.eqb_spec cnt 0) as [->|Hc0]; cbn [orb].
  { eexists; split_and!; [done..|]. intros a' b' c' e' ifs rest _ _ Hne [= _ _ _ _ Hl _].
    destruct ifs; [done|simpl in Hl; lia]. }
  destruct (Z.ltb_spec (Z.of_nat (length p)) (Z.of_nat (length pre) + 5 + cnt)) as [Hs|Hs].
  { eexists; split_and!; [done..|]. intros a' b' c' e' ifs rest _ _ _ [= -> -> -> -> -> ->].
    rewrite Hq, !length_app in Hs. simpl in Hs. rewrite !length_app in Hs. lia. }
  set (q := pre ++ [a; b; c; e; cnt]). set (k := Z.to_nat cnt).
  set (ifs := take k (d ++ post)).
  assert (length q = (length pre + 5)%nat) as Hlq by (unfold q; rewrite length_app; simpl; lia).
  assert (p = q ++ ifs ++ drop k (d ++ post)) as Hq'.
  { unfold q, ifs. rewrite take_drop, Hq, <- !(assoc_L (++)). done. }
  assert (length ifs = k) as Hlk.
  { unfold ifs. rewrite length_take. apply (f_equal length) in Hq.
    rewrite !length_app in Hq. simpl in Hq. rewrite !length_app in *. lia. }
  destruct ifs as [|x ifs'] eqn:Ei; [simpl in Hlk; lia|].
  rewrite Hq'. replace (Z.of_nat (length pre) + 5) with (Z.of_nat (length q)) by lia.
  rewrite lookup_z_app0. cbn [app lookup list_lookup mbind option_bind].
  replace (Z.of_nat (length pre) + 6) with (Z.of_nat (length (q ++ [x])))
    by (rewrite length_app; simpl; lia).
  replace (Z.to_nat (cnt - 1)) with (length ifs') by (simpl in Hlk; lia).
  change (x :: ifs' ++ ?l) with ([x] ++ ifs' ++ l). rewrite (assoc_L (++) q).
  rewrite best_radio_spec. eexists. split_and!; [done|done|done|].
  intros a' b' c' e' ifs2 rest _ _ Hne [= -> -> -> -> Hcl Hd].
  assert (ifs2 = x :: ifs') as ->.
  { rewrite <- Ei. unfold ifs, k. rewrite Hcl, Hd, Nat2Z.id, <- (assoc_L (++)).
    by rewrite take_app_length. }
  cbn [fmap list_fmap hd]. unfold radio_pref.
  destruct (decide (i8 x = RADIO_IF_LTE)) as [Hx|Hx].
  - rewrite Hx, (bool_decide_eq_true_2 (_ ∈ _ :: _)) by left. rewrite andb_false_r.
    by destruct (bool_decide _).
  - assert (RADIO_IF_LTE ∈ i8 x :: (i8 <$> ifs') ↔ RADIO_IF_LTE ∈ (i8 <$> ifs')) as E1
      by (rewrite elem_of_cons; intuition congruence).
    rewrite (bool_decide_ext _ _ E1). destruct (bool_decide _); [done|].
    destruct (decide (i8 x = RADIO_IF_UMTS)) as [Hu|Hu].
    + rewrite Hu, (bool_decide_eq_true_2 (RADIO_IF_UMTS ∈ RADIO_IF_UMTS :: _)) by left. simpl.
      by destruct (bool_decide _).
    + assert (RADIO_IF_UMTS ∈ i8 x :: (i8 <$> ifs') ↔ RADIO_IF_UMTS ∈ (i8 <$> ifs')) as E2
        by (rewrite elem_of_cons; intuition congruence).
      by rewrite (bool_decide_ext _ _ E2).
Qed.

(** ** The clock *)

(** The sleeps that a signal has cut short. *)
Definition is_cut (e : event) : bool := match e with EUsleep _ cut => cut | _ => false end.
Definition cuts (h : list event) : nat := length (List.filter is_cut h).

(** What the stage relies on: CLOCK_MONOTONIC never goes back, [usleep(1000000)] takes at
    least a second unless a signal cuts it short, and there are only [k_cuts] signals. *)
Class ClockTicks `{Kernel} : Prop := {
  clock_monotone : ∀ h evs, k_clock h ≤ k_clock (evs ++ h);
  clock_sleep : ∀ h evs, k_clock h + 1 ≤ k_clock (evs ++ EUsleep 1000000 false :: h);
  clock_cut : ∀ h, k_cut h = true → (cuts h < k_cuts)%nat;
}.

Lemma cuts_app h' h : cuts (h' ++ h) = (cuts h' + cuts h)%nat.
Proof. unfold cuts. by rewrite List.filter_app, length_app. Qed.

(** ** Answers about the radio interface *)

(** The modem answered that LTE serves: with a tracking area code, or with LTE among the
    interfaces. *)
Definition says_lte (p : list Z) : Prop :=
  is_response MSG_NAS_GET_SERVING_SYSTEM p ∧ ∃ us, message_tlvs p us ∧ result_code us = 0 ∧
    (tlv_of 0x15 us ≠ None ∨
     tlv_of 0x15 us = None ∧ ∃ a b c d ifs rest, RADIO_IF_LTE ∈ (i8 <$> ifs) ∧
       tlv_of 1 us = Some ([a; b; c; d; Z.of_nat (length ifs)] ++ ifs ++ rest)).

Lemma says_lte_radio p : byte_list p → says_lte p → serving_radio p = Some RADIO_IF_LTE.
Proof.
  intros Hb (_ & us & Hm & Hrc & Hl).
  destruct (serving_radio_spec p us Hm Hb) as (r & -> & _ & H15 & H1).
  destruct Hl as [Hl|(Hn & a & b & c & d & ifs & rest & Hin & Ht)]; [by rewrite H15|].
  rewrite (H1 a b c d ifs rest Hrc Hn); [|by intros ->; apply elem_of_nil in Hin|done].
  unfold radio_pref. by rewrite bool_decide_eq_true_2.
Qed.

(** An answer to another request says nothing. *)
Lemma other_says_nothing m p :
  is_response m p → m ≠ MSG_NAS_GET_SERVING_SYSTEM → ¬ says_lte p.
Proof.
  intros (_ & _ & H1)%is_response_spec Hne [(_ & _ & H2)%is_response_spec _]. congruence.
Qed.

Section Nas.
Context `{Kernel}.

(** A function with its own specification, in the middle of a run. *)
Lemma runs_call {A} s0 c L rs gs s (m : VI A) (P : A → list (list Z) → Prop) rs' :
  runs s0 c L rs gs s →
  wp m (λ r s', ∃ gs', P r gs' ∧ runs s (vctx s) (open_fds s) rs' gs' s') s →
  wp m (λ r s', ∃ gs', P r gs' ∧ runs s0 c L (rs ++ rs') (gs ++ gs') s') s.
Proof.
  intros Hr Hm. eapply wp_mono; [exact Hm|]. cbv beta. intros r s' (gs' & HP & Hr').
  rewrite (runs_ctx _ _ _ _ _ _ Hr), (runs_fds _ _ _ _ _ _ Hr) in Hr'.
  exists gs'. split; [done|]. exact (runs_trans _ _ _ _ _ _ _ _ _ _ _ Hr Hr').
Qed.

(** ** The requests *)

Definition serving_request (f port txid : Z) : request :=
  qmi_request f port txid MSG_NAS_GET_SERVING_SYSTEM [].

(** The answers end with one that the program takes for LTE, or none says LTE. *)
Definition lte_seen (gs : list (list Z)) : Prop :=
  ∃ gs' p, gs = gs' ++ [p] ∧ is_response MSG_NAS_GET_SERVING_SYSTEM p ∧
    serving_radio p = Some RADIO_IF_LTE ∧ Forall (λ p, ¬ says_lte p) gs'.
Definition no_lte (gs : list (list Z)) : Prop := Forall (λ p, ¬ says_lte p) gs.

Lemma lte_seen_after gs1 gs2 : no_lte gs1 → lte_seen gs2 → lte_seen (gs1 ++ gs2).
Proof.
  intros H1 (gs' & p & -> & Hi & Hr & H2). exists (gs1 ++ gs'), p.
  rewrite (assoc_L (++)). split_and!; [done..|]. by apply Forall_app.
Qed.

Lemma no_lte_app gs1 gs2 : no_lte gs1 → no_lte gs2 → no_lte (gs1 ++ gs2).
Proof. intros ? ?. by apply Forall_app. Qed.

Lemma poll_runs f port txid s :
  wp (poll_serving_system f port txid) (λ r s', ∃ gs,
    (r.2 = u16 (txid + 1) ∧ if decide (r.1 = RADIO_IF_LTE) then lte_seen gs else no_lte gs) ∧
    runs s (vctx s) (open_fds s) [serving_request f port txid] gs s') s.
Proof.
  pose proof (runs_start s) as Hr. unfold poll_serving_system. vi_steps.
  vi_build serving_builds. vi_answer p us.
  2: { exists []. split; [|done]. split; [done|]. by rewrite decide_False; [constructor|]. }
  destruct (serving_radio_spec p us) as (r & Hs & _); [done..|].
  eapply wp_of_option; [exact Hs|]. vi_steps. exists [p]. split; [|done]. split; [done|]. cbn [fst].
  destruct (decide (r = RADIO_IF_LTE)) as [->|Hne]; [by exists [], p|].
  constructor; [|done]. intros Hl%says_lte_radio; [congruence|done].
Qed.

Lemma sys_sel_runs f port txid s :
  wp (issue_set_sys_sel_pref f port txid) (λ r s', ∃ gs,
    (r.2 = u16 (txid + 1) ∧ no_lte gs) ∧ runs s (vctx s) (open_fds s)
      [qmi_request f port txid MSG_NAS_SET_SYS_SEL_PREF sys_sel_tlvs] gs s') s.
Proof.
  pose proof (runs_start s) as Hr. unfold issue_set_sys_sel_pref. vi_steps.
  vi_build sys_sel_builds. vi_answer p us; [|exists []; split; [split; [done|constructor]|done]].
  destruct (negb _); vi_steps; exists [p]; (split; [|done]); (split; [done|]);
    (constructor; [eapply other_says_nothing; [eassumption|discriminate]|constructor]).
Qed.

Lemma register_runs f port txid s :
  wp (issue_initiate_register f port txid) (λ r s', ∃ gs,
    (r.2 = u16 (txid + 1) ∧ no_lte gs) ∧ runs s (vctx s) (open_fds s)
      [qmi_request f port txid MSG_NAS_INITIATE_NW_REGISTER register_tlvs] gs s') s.
Proof.
  pose proof (runs_start s) as Hr. unfold issue_initiate_register. vi_steps.
  vi_build register_builds. vi_answer p us; [|exists []; split; [split; [done|constructor]|done]].
  destruct (negb _); vi_steps; exists [p]; (split; [|done]); (split; [done|]);
    (constructor; [eapply other_says_nothing; [eassumption|discriminate]|constructor]).
Qed.

(** [n] polls, with consecutive transaction ids. *)
Fixpoint poll_requests (n : nat) (f port txid : Z) : list request :=
  match n with
  | O => []
  | S n' => serving_request f port txid :: poll_requests n' f port (u16 (txid + 1))
  end.

(** The history after a run extends the one before it. *)
Lemma runs_clock_le `{!ClockTicks} s0 c L rs gs s :
  runs s0 c L rs gs s → k_clock (hist s0) ≤ k_clock (hist s).
Proof. intros [_ _ _ _ (evs & -> & _)]. apply clock_monotone. Qed.

(** A turn that sleeps: a second passes, or one of the signals is used up. *)
Lemma sleep_progress `{!ClockTicks} h evs :
  k_clock h + 1 + Z.of_nat (k_cuts - cuts (evs ++ EUsleep 1000000 (k_cut h) :: h)) ≤
    k_clock (evs ++ EUsleep 1000000 (k_cut h) :: h) + Z.of_nat (k_cuts - cuts h).
Proof.
  rewrite cuts_app. change (cuts (EUsleep 1000000 (k_cut h) :: h))
    with (cuts ([EUsleep 1000000 (k_cut h)] ++ h)).
  rewrite cuts_app. destruct (k_cut h) eqn:Hc.
  - pose proof (clock_cut h Hc). change (cuts [EUsleep 1000000 true]) with 1%nat.
    pose proof (clock_monotone h (evs ++ [EUsleep 1000000 true])) as Hm.
    rewrite <- (assoc_L (++)) in Hm. cbn [app] in Hm. lia.
  - pose proof (clock_sleep h evs). lia.
Qed.

(** The wait ends with an answer that says LTE, or after at least a minute in which no answer
    did; it polls less than once per unit of fuel. *)
Lemma wait_runs `{!ClockTicks} f port t0 fuel : ∀ txid last s,
  (0 < fuel)%nat →
  t0 + 61 + Z.of_nat (k_cuts - cuts (hist s)) ≤ k_clock (hist s) + Z.of_nat fuel →
  wp (wait_for_lte fuel f port txid t0 last) (λ r s',
    ∃ n gs, (n < fuel)%nat ∧
      runs s (vctx s) (open_fds s) (poll_requests n f port txid) gs s' ∧
      (if r.2 then lte_seen gs else no_lte gs ∧ t0 + 60 ≤ k_clock (hist s'))) s.
Proof.
  induction fuel as [|fuel IH]; intros txid last s Hf Ht; [lia|]. cbn [wait_for_lte].
  apply wp_bind, (wp_intro _ _ _ (k_clock (hist s)) (logged (EClock (k_clock (hist s))) s) eq_refl).
  pose proof (runs_event _ _ _ _ _ _ (EClock (k_clock (hist s))) (runs_start s) eq_refl) as Hr1.
  unfold LTE_WAIT_TIMEOUT_SEC. destruct (Z.leb_spec 60 (k_clock (hist s) - t0)) as [Hto|Hto].
  { vi_steps. exists 0%nat, []. split; [lia|]. split; [done|]. split; [by constructor|].
    pose proof (runs_clock_le _ _ _ _ _ _ Hr1). lia. }
  set (s1 := logged _ s) in *. apply wp_bind.
  set (e := EUsleep 1000000 (k_cut (hist s1))).
  apply (wp_intro _ _ _ tt (logged e s1) eq_refl).
  pose proof (runs_event _ _ _ _ _ _ e Hr1 eq_refl) as Hr2.
  set (s2 := logged e s1) in *. apply wp_bind.
  eapply wp_mono; [apply poll_runs|]. cbv beta. intros [r t'] s3 (gs & [Ht' Hg] & Hr3).
  simpl in Ht', Hg.
  assert (runs s (vctx s) (open_fds s) [serving_request f port txid] gs s3) as Hr3'
    by exact (runs_trans _ _ _ _ _ _ _ _ _ _ _ Hr2 Hr3).
  assert (k_clock (hist s) + 1 + Z.of_nat (k_cuts - cuts (hist s3)) ≤
          k_clock (hist s3) + Z.of_nat (k_cuts - cuts (hist s))) as Hclk.
  { destruct Hr3 as [_ _ _ _ (evs & -> & _)].
    pose proof (runs_clock_le _ _ _ _ _ _ Hr1) as H1.
    pose proof (sleep_progress (hist s1) evs) as H2.
    change (hist s2) with (e :: hist s1). change (cuts (hist s)) with (cuts (hist s1)).
    fold e in H2. lia. }
  destruct (Z.eqb_spec r RADIO_IF_LTE) as [->|Hne].
  { vi_steps. exists 1%nat, gs. rewrite decide_True in Hg by done. by split_and!; [lia|..]. }
  rewrite decide_False in Hg by done.
  eapply wp_mono; [apply IH; lia|]. cbv beta. intros [r' b] s' (n & gs' & Hn & Hr' & Hb).
  rewrite (runs_ctx _ _ _ _ _ _ Hr3'), (runs_fds _ _ _ _ _ _ Hr3') in Hr'.
  exists (S n), (gs ++ gs'). split_and!; [lia| |].
  - simpl. rewrite <- Ht'. exact (runs_trans _ _ _ _ _ _ _ _ _ _ _ Hr3' Hr').
  - cbn [snd] in *. destruct b; [by apply lte_seen_after|].
    destruct Hb. split; [by apply no_lte_app|done].
Qed.

(** ** The stage *)

(** The requests of a run that polled [n] times in the wait. *)
Definition nas_script (n : nat) (f port : Z) : list request :=
  [lookup_request f QRTR_SVC_NAS; serving_request f port 1;
   qmi_request f port 2 MSG_NAS_SET_SYS_SEL_PREF sys_sel_tlvs;
   qmi_request f port 3 MSG_NAS_INITIATE_NW_REGISTER register_tlvs] ++
  poll_requests n f port 4.

Definition nas_post (s : vi_state) (rc : Z) (s' : vi_state) : Prop :=
  ∃ c' rs gs n, stage_post s c' (nas_script n) rc rs gs s' ∧ (n ≤ 60 + k_cuts)%nat ∧
    (c' = vctx s ∧ gs = [] ∧ (dry_run (vctx s) = true ∧ rc = 0 ∨ rc = 1) ∨
     c' = vctx s ∧ rc = 0 ∧ lte_seen gs ∨
     c' = ctx_set_simple_wds true (vctx s) ∧ rc = 0 ∧ no_lte gs ∧
       k_clock (hist s) + 60 ≤ k_clock (hist s')).

(** What follows the wait. *)
Lemma nas_end_runs f L last (b : bool) s :
  open_fds s = f :: L →
  wp (state_record "rat_after" (rat_text last) ;;
      close f ;;
      (if b then mret 0 else upd_vctx (ctx_set_simple_wds true) ;; mret 0))
     (λ rc s', rc = 0 ∧
        runs s (if b then vctx s else ctx_set_simple_wds true (vctx s)) L [] [] s') s.
Proof.
  intros HL. pose proof (runs_start s) as Hr. rewrite HL in Hr. vi_steps.
  destruct b; vi_steps; by split.
Qed.

Lemma nas_runs `{!ClockTicks} s : wp stage_nas_rat (nas_post s) s.
Proof.
  pose proof (runs_start s) as Hr. unfold stage_nas_rat. vi_steps.
  assert (∀ s' rc, runs s (vctx s) (open_fds s) [] [] s' →
    dry_run (vctx s) = true ∧ rc = 0 ∨ rc = 1 → nas_post s rc s') as Hno.
  { intros s' rc Hr' Hrc. exists (vctx s), [], [], 0%nat.
    split_and!; [apply stage_post_none; [done|lia]|lia|by left]. }
  destruct (dry_run (vctx s)) eqn:Hdry; [vi_steps; apply Hno; auto|].
  vi_open f; [apply Hno; auto|].
  intros port s2 Hr2. destruct (Z.eqb_spec port 0); vi_steps.
  { eexists _, _, _, 0%nat. split_and!; [vi_stage_end|lia|left; auto]. }
  eapply wp_mono; [eapply runs_call; [eassumption|apply poll_runs]|].
  cbv beta. intros [rat t1] s3 (gs1 & [Ht1 Hg1] & Hr3). simpl in Ht1, Hg1. subst t1. vi_steps.
  destruct (Z.eqb_spec rat RADIO_IF_LTE) as [->|Hne]; vi_steps.
  { rewrite decide_True in Hg1 by done.
    eexists _, _, _, 0%nat. split_and!; [vi_stage_end|lia|right; left; auto]. }
  rewrite decide_False in Hg1 by done.
  eapply wp_mono; [eapply runs_call; [eassumption|apply sys_sel_runs]|].
  cbv beta. intros [r2 t2] s4 (gs2 & [Ht2 Hg2] & Hr4). simpl in Ht2. subst t2. vi_steps.
  eapply wp_mono; [eapply runs_call; [eassumption|apply register_runs]|].
  cbv beta. intros [r3 t3] s5 (gs3 & [Ht3 Hg3] & Hr5). simpl in Ht3. subst t3. apply wp_bind.
  apply (wp_intro _ _ _ (k_clock (hist s5)) (logged (EClock (k_clock (hist s5))) s5) eq_refl).
  pose proof (runs_event _ _ _ _ _ _ (EClock (k_clock (hist s5))) Hr5 eq_refl) as Hr6.
  set (s6 := logged _ s5) in *. apply wp_bind.
  assert (k_clock (hist s5) ≤ k_clock (hist s6)) as Hclk
    by exact (clock_monotone (hist s5) [EClock (k_clock (hist s5))]).
  pose proof (runs_clock_le _ _ _ _ _ _ Hr5) as Hclk'.
  eapply wp_mono; [apply wait_runs; unfold LTE_WAIT_FUEL; lia|].
  cbv beta. intros [last b] s7 (k & gs4 & Hn & Hr7 & Hb). cbn [fst snd] in Hb.
  rewrite (runs_ctx _ _ _ _ _ _ Hr6), (runs_fds _ _ _ _ _ _ Hr6) in Hr7.
  pose proof (runs_trans _ _ _ _ _ _ _ _ _ _ _ Hr6 Hr7) as Hr8.
  assert ((k ≤ 60 + k_cuts)%nat) as Hn60 by (unfold LTE_WAIT_FUEL in Hn; lia).
  eapply wp_mono; [apply nas_end_runs; apply (runs_fds _ _ _ _ _ _ Hr8)|].
  cbv beta. intros rc s9 [-> Hr9]. pose proof (runs_clock_le _ _ _ _ _ _ Hr9) as Hclk9.
  rewrite (runs_ctx _ _ _ _ _ _ Hr8) in Hr9.
  pose proof (runs_trans _ _ _ _ _ _ _ _ _ _ _ Hr8 Hr9) as Hr10. rewrite !app_nil_r in Hr10.
  eexists _, _, _, k. split_and!; [|done|].
  { split; [exact Hr10|split; [lia|]]. exists f, port, []. by rewrite app_nil_r. }
  right. rewrite <- !(assoc_L (++)). cbn [app]. destruct b; [left|right].
  - split_and!; [done|done|]. by repeat apply lte_seen_after.
  - destruct Hb. split_and!; [done|done|by repeat apply no_lte_app|]. lia.
Qed.
End Nas.
