(* ===== verification/ViMainRuns.v ===== *)
(** * vendor-init: what the bearer stages do

    The channels that are bound, the requests that start the bearer, and the length of the
    prefix of a subnet mask.

    The contract of a stage towards [main] and the contracts of the eight stages; the loop
    over the table; the files that tell the outcome. *)

From S2P Require Import Prelude.
From S2P Require Import Qmi.
From S2P Require Import QmiScan.
From S2P Require Import ViTypes.
From S2P Require Import Qrtr.
From S2P Require Import ViConfig.
From S2P Require Import ViBearer.
From S2P Require Import ViRun.
From S2P Require Import ViNasRuns.
From S2P Require Import ViNas.
From S2P Require Import ViTune.
From S2P Require Import ViMain.

(** ** The prefix of a mask *)

Lemma high_bit m : 0 ≤ m < 2 ^ 32 → Z.land m 0x80000000 = 0 ↔ m < 2 ^ 31.
Proof.
  intros Hm. change 0x80000000 with (2 ^ 31).
  assert (Z.land m (2 ^ 31) = if Z.testbit m 31 then 2 ^ 31 else 0) as ->.
  { apply Z.bits_inj'. intros n Hn. rewrite Z.land_spec, Z.pow2_bits_eqb by lia.
    destruct (Z.eqb_spec 31 n) as [<-|Hne].
    - destruct (Z.testbit m 31); [by rewrite Z.pow2_bits_true by lia|by rewrite Z.bits_0].
    - rewrite andb_false_r. destruct (Z.testbit m 31); [|by rewrite Z.bits_0].
      by rewrite Z.pow2_bits_false by lia. }
  assert (Z.testbit m 31 = negb (m <? 2 ^ 31)) as ->.
  { destruct (Z.ltb_spec m (2 ^ 31)); cbn [negb].
    - destruct (Z.eq_dec m 0) as [->|]; [done|].
      apply Z.bits_above_log2; [lia|]. apply Z.log2_lt_pow2; lia.
    - rewrite Z.testbit_true by lia.
      replace (m / 2 ^ 31) with 1; [done|]. apply Z.div_unique with (m - 2 ^ 31); lia. }
  destruct (Z.ltb_spec m (2 ^ 31)); cbn [negb]; lia.
Qed.

(** [v] starts with [k] ones and then a zero. *)
Definition leading_ones (v k : Z) : Prop :=
  0 ≤ k ≤ 32 ∧ 2 ^ 32 - 2 ^ (32 - k) ≤ v ∧ (k < 32 → v < 2 ^ 32 - 2 ^ (31 - k)).

Lemma prefix_loop_spec fuel : ∀ v mask k,
  0 ≤ v < 2 ^ 32 → 0 ≤ k ≤ 32 → 33 - k ≤ Z.of_nat fuel → 0 ≤ mask < 2 ^ 32 →
  mask = (v - (2 ^ 32 - 2 ^ (32 - k))) * 2 ^ k →
  ∃ r, prefix_loop fuel mask k = Some r ∧ leading_ones v r.
Proof.
  induction fuel as [|fuel IH]; intros v mask k Hv Hk Hf Hm He; [lia|]. cbn [prefix_loop].
  assert (0 < 2 ^ k) as Hp by (apply Z.pow_pos_nonneg; lia).
  assert (2 ^ (32 - k) * 2 ^ k = 2 ^ 32) as H32
    by (rewrite <- Z.pow_add_r by lia; f_equal; lia).
  destruct (Z.eqb_spec (Z.land mask 0x80000000) 0) as [Hz|Hz].
  - apply high_bit in Hz; [|done]. exists k. split; [done|]. split; [done|].
    split; [nia|]. intros Hk32.
    assert (2 ^ (32 - k) = 2 * 2 ^ (31 - k)) as Hd
      by (rewrite <- (Z.pow_succ_r 2) by lia; f_equal; lia).
    assert (2 ^ (31 - k) * 2 ^ k = 2 ^ 31) as H31
      by (rewrite <- Z.pow_add_r by lia; f_equal; lia).
    nia.
  - rewrite high_bit in Hz by done.
    assert (k < 32) as Hk32.
    { destruct (Z.eq_dec k 32) as [->|]; [|lia]. simpl in He. lia. }
    assert (2 ^ (32 - k) = 2 * 2 ^ (31 - k)) as Hd
      by (rewrite <- (Z.pow_succ_r 2) by lia; f_equal; lia).
    assert (2 ^ (31 - k) * 2 ^ k = 2 ^ 31) as H31
      by (rewrite <- Z.pow_add_r by lia; f_equal; lia).
    assert (u32 (Z.shiftl mask 1) = 2 * mask - 2 ^ 32) as Hs.
    { rewrite Z.shiftl_mul_pow2 by lia. unfold u32.
      symmetry. apply Z.mod_unique with 1; lia. }
    rewrite Hs. apply IH; [done|lia..|].
    rewrite Z.pow_add_r by lia. replace (32 - (k + 1)) with (31 - k) by lia.
    rewrite He. nia.
Qed.

Lemma prefix_of_mask_spec v : 0 ≤ v < 2 ^ 32 → ∃ k, prefix_of_mask v = Some k ∧ leading_ones v k.
Proof. intros Hv. apply prefix_loop_spec; [done|lia..|]. simpl. lia. Qed.

(** ** What the stages leave alone *)

Definition same_config (c c' : vi_ctx) : Prop :=
  apn c' = apn c ∧ dry_run c' = dry_run c ∧ num_muxes c' = num_muxes c ∧ full_ul c' = full_ul c.

(** The bearer socket and the form of the request stay, too. *)
Definition same_bearer (c c' : vi_ctx) : Prop :=
  same_config c c' ∧ fd c' = fd c ∧ wds_port c' = wds_port c ∧ simple_wds c' = simple_wds c.

#[export] Instance same_bearer_po : PreOrder same_bearer.
Proof.
  split; [done|]. intros a b c ((?&?&?&?)&?&?&?) ((?&?&?&?)&?&?&?).
  unfold same_bearer, same_config. split_and!; congruence.
Qed.

Section Bearer.
Context `{Kernel}.

Lemma runs_next_txid s0 c L rs gs s :
  runs s0 c L rs gs s →
  wp next_txid (λ t s', t = txid c ∧ runs s0 (ctx_set_txid (u16 (txid c + 1)) c) L rs gs s') s.
Proof.
  intros Hr. unfold next_txid. vi_steps. by split.
Qed.

(** ** stage_bind_mux *)

(** The requests that bind [k] channels from [m] on. *)
Fixpoint bind_requests (k : nat) (f port t m : Z) : list request :=
  match k with
  | O => []
  | S k' => qmi_request f port t MSG_BIND_MUX (bind_tlvs m) ::
            bind_requests k' f port (u16 (t + 1)) (m + 1)
  end.

Lemma int_inc_lt m : m < INT_MAX → int_inc m = Some (m + 1).
Proof. intros Hm. unfold int_inc. by rewrite (proj2 (Z.ltb_lt _ _) Hm). Qed.

(** A count below [INT_MAX] ends the loops before the counter overflows. *)
Lemma dry_loop_ends n : n < INT_MAX → dry_loop (loop_fuel n) n 1 = Some ().
Proof.
  intros Hn. unfold loop_fuel.
  assert (∀ fuel m, n < m + Z.of_nat fuel → dry_loop (S fuel) n m = Some ()) as Hdry; [|apply Hdry; lia].
  induction fuel as [|fuel IH]; intros m Hm; cbn [dry_loop];
    destruct (Z.ltb_spec n m); try done; [lia|].
  rewrite int_inc_lt by lia. cbn [mbind option_bind]. apply IH. lia.
Qed.

(** The loop sends a request for [j] channels, and succeeds exactly when the modem accepted
    all that are left. *)
Lemma bind_loop_runs n fuel : ∀ m ok s,
  n < INT_MAX → 0 ≤ ok < m → n < m + Z.of_nat fuel →
  wp (bind_loop (S fuel) n m ok) (λ r s', ∃ t j gs,
    runs s (ctx_set_txid t (vctx s)) (open_fds s)
      (bind_requests j (fd (vctx s)) (wds_port (vctx s)) (txid (vctx s)) m) gs s' ∧
    0 ≤ r.1 ≤ 3 ∧ (j ≤ Z.to_nat (n + 1 - m))%nat ∧
    (r.1 = 0 ↔ length gs = Z.to_nat (n + 1 - m) ∧ Forall (answered MSG_BIND_MUX 0) gs) ∧
    (r.1 = 0 → j = Z.to_nat (n + 1 - m))) s.
Proof.
  induction fuel as [|fuel IH]; intros m ok s Hmax Hok Hf; cbn [bind_loop];
    destruct (Z.ltb_spec n m) as [Hlt|Hle]; try lia.
  1-2: replace (Z.to_nat (n + 1 - m)) with 0%nat by lia; apply wp_ret;
    exists (txid (vctx s)), 0%nat, []; split_and!; [|cbn; lia..|by split|done];
    replace (ctx_set_txid (txid (vctx s)) (vctx s)) with (vctx s) by (by destruct (vctx s));
    apply runs_start.
  apply wp_bind. eapply wp_mono; [apply runs_next_txid, runs_start|].
  cbv beta. intros t s1 [-> Hr1]. set (c := vctx s) in *. vi_steps.
  vi_build (bind_builds m). vi_answer p us.
  2: { eexists _, 1%nat, []. split_and!; [eassumption|cbn; lia..| |done]. split; [done|].
       intros [Hl _]. cbn in Hl. lia. }
  destruct (Z.eqb_spec (result_code us) 0) as [Hrc|Hrc]; vi_steps.
  2: { eexists _, 1%nat, [p]. split_and!; [eassumption|cbn; lia..| |done].
       split; [done|]. intros [_ Hf']. apply Forall_inv in Hf'.
       by rewrite (answered_iff _ _ us) in Hf'. }
  rename s' into s2. match goal with Hr : runs s _ _ _ _ s2 |- _ => rename Hr into Hr2 end.
  eapply wp_of_option; [by apply int_inc_lt; lia|]. apply wp_bind.
  eapply wp_of_option; [by apply int_inc_lt; lia|].
  eapply wp_mono; [apply IH; lia|]. cbv beta.
  intros [rc ok'] s3 (t & j & gs & Hr3 & Hb & Hj & Hiff & Hk). cbn [fst] in *.
  rewrite (runs_ctx _ _ _ _ _ _ Hr2), (runs_fds _ _ _ _ _ _ Hr2) in Hr3.
  pose proof (runs_trans _ _ _ _ _ _ _ _ _ _ _ Hr2 Hr3) as Hr4.
  replace (Z.to_nat (n + 1 - m)) with (S (Z.to_nat (n + 1 - (m + 1)))) by lia.
  exists t, (S j), (p :: gs). split_and!; [exact Hr4|lia..| |intros ->; f_equal; auto].
  rewrite Hiff. simpl. split.
  - intros [Hl Hf']. split; [lia|]. constructor; [|done]. by apply (answered_iff _ _ us).
  - intros [Hl Hf']. split; [lia|]. by apply Forall_inv_tail in Hf'.
Qed.

Definition bind_script (k : nat) (f port : Z) : list request :=
  lookup_request f QRTR_SVC_WDS :: bind_requests k f port 1 1.

(** Success means that every channel is bound on a socket that stays open, in [ctx->fd]. *)
Definition bind_post (s : vi_state) (rc : Z) (s' : vi_state) : Prop :=
  ∃ c' L' rs gs, runs s c' L' rs gs s' ∧ 0 ≤ rc ≤ 3 ∧
    (∃ f port j, (j ≤ Z.to_nat (num_muxes (vctx s)))%nat ∧ rs `prefix_of` bind_script j f port) ∧
    same_config (vctx s) c' ∧ simple_wds c' = simple_wds (vctx s) ∧
    (fd c' = fd (vctx s) ∧ L' = open_fds s ∨ 0 ≤ fd c' ∧ L' = fd c' :: open_fds s) ∧
    (rc = 0 → dry_run (vctx s) = false →
       0 ≤ fd c' ∧ wds_port c' ≠ 0 ∧ L' = fd c' :: open_fds s ∧
       rs = bind_script (Z.to_nat (num_muxes (vctx s))) (fd c') (wds_port c') ∧
       length gs = Z.to_nat (num_muxes (vctx s)) ∧ Forall (answered MSG_BIND_MUX 0) gs).

Lemma bind_none s s' c' rs rc :
  runs s c' (open_fds s) rs [] s' → 0 ≤ rc ≤ 3 → same_config (vctx s) c' →
  simple_wds c' = simple_wds (vctx s) → fd c' = fd (vctx s) →
  (∃ f, rs `prefix_of` [lookup_request f QRTR_SVC_WDS]) →
  (rc = 0 → dry_run (vctx s) = true) →
  bind_post s rc s'.
Proof.
  intros Hr Hrc Hc Hsw Hfd [f Hp] Hd. exists c', (open_fds s), rs, [].
  split_and!; [done|lia..| |done|done|by left|].
  - exists f, 0, 0%nat. split; [lia|done].
  - intros H0 Hdry. rewrite Hd in Hdry; done.
Qed.

Lemma bind_runs s : num_muxes (vctx s) < INT_MAX → wp stage_bind_mux (bind_post s) s.
Proof.
  intros Hmax. pose proof (runs_start s) as Hr. unfold stage_bind_mux. vi_steps.
  destruct (dry_run (vctx s)) eqn:Ed.
  { vi_steps. eapply wp_of_option; [by apply dry_loop_ends|]. vi_steps.
    eapply bind_none; [done|lia|done..| |done]. exists 0. apply prefix_nil. }
  vi_open f.
  { eapply bind_none; [done|lia|done..| |done]. exists 0. apply prefix_nil. }
  intros port s2 Hr2. vi_steps. destruct (Z.eqb_spec port 0) as [->|Hport]; vi_steps.
  { eapply bind_none; [done|lia|done..| |done]. by exists f. }
  rename s'3 into s6. match goal with Hr : runs s _ _ _ _ s6 |- _ => rename Hr into Hr6 end.
  eapply wp_mono; [apply bind_loop_runs; [done|lia|lia]|]. cbv beta.
  intros [rc ok] s7 (t & j & gs & Hr7 & Hb & Hj & Hiff & Hk). cbn [fst] in *.
  rewrite Z.add_simpl_r in Hj, Hiff, Hk.
  rewrite (runs_ctx _ _ _ _ _ _ Hr6), (runs_fds _ _ _ _ _ _ Hr6) in Hr7.
  pose proof (runs_trans _ _ _ _ _ _ _ _ _ _ _ Hr6 Hr7) as Hr8.
  destruct (Z.eqb_spec rc 0) as [->|Hrc]; vi_steps.
  - destruct (proj1 Hiff eq_refl) as [Hl Hall]. rewrite (Hk eq_refl) in *.
    eexists _, _, _, _. split_and!; [eassumption|lia..| |done|done|by right|].
    + eexists f, port, _. split; [done|]. done.
    + intros _ _. split_and!; done.
  - eexists _, _, _, _. split_and!; [eassumption|lia..| |done|done|by right|done].
    exists f, port, j. done.
Qed.

(** ** stage_wds_start *)

Definition set_if (o : option Z) (f : Z → vi_ctx → vi_ctx) (c : vi_ctx) : vi_ctx :=
  match o with Some v => f v c | None => c end.

(** The word of that type in the answer. *)
Definition word (type : Z) (us : list (Z * list Z)) : option Z := u32 <$> first_word type us.

(** The context after the settings [us] of the bearer. *)
Definition settings_ctx (us : list (Z * list Z)) (c : vi_ctx) : vi_ctx :=
  set_if (word 0x29 us) ctx_set_mtu (set_if (word 0x16 us) ctx_set_dns2
    (set_if (word 0x15 us) ctx_set_dns1 (set_if (word 0x21 us) ctx_set_mask
      (set_if (word 0x20 us) ctx_set_gw (set_if (word 0x1E us) ctx_set_ipv4 c))))).

Lemma set_if_same o f c : (∀ v c, same_bearer c (f v c)) → same_bearer c (set_if o f c).
Proof. intros Hf. destruct o; [apply Hf|done]. Qed.

Lemma settings_same us c : same_bearer c (settings_ctx us c).
Proof.
  unfold settings_ctx. by repeat (etrans; [|apply set_if_same; done]).
Qed.

Lemma runs_on_u32 s0 c L rs gs s p us type f g :
  runs s0 c L rs gs s → message_tlvs p us →
  (∀ v s1, 0 ≤ v < 2 ^ 32 → runs s0 c L rs gs s1 →
     wp (f v) (λ _ s', runs s0 (g v c) L rs gs s') s1) →
  wp (on_u32 p type f) (λ _ s', runs s0 (set_if (word type us) g c) L rs gs s') s.
Proof.
  intros Hr Hm Hf. unfold on_u32, size. vi_steps. unfold word.
  destruct (first_word type us) as [w|]; simpl; [|done].
  apply Hf; [apply u32_range|done].
Qed.

Lemma record_settings_runs s0 c L rs gs s p us :
  runs s0 c L rs gs s → message_tlvs p us →
  wp (record_settings p) (λ _ s', runs s0 (settings_ctx us c) L rs gs s') s.
Proof.
  intros Hr Hm. unfold record_settings.
  do 2 (apply wp_bind; eapply wp_mono;
        [eapply runs_on_u32; [eassumption|exact Hm|intros v ? _ ?; vi_steps; eassumption]|];
        clear Hr; cbv beta; intros _ ? Hr).
  apply wp_bind. eapply wp_mono.
  { eapply runs_on_u32; [eassumption|exact Hm|]. intros v s1 Hv Hr1. vi_steps.
    destruct (prefix_of_mask_spec v Hv) as (k & Hk & _). eapply wp_of_option; [exact Hk|].
    vi_steps. eassumption. }
  clear Hr. cbv beta. intros _ ? Hr.
  do 2 (apply wp_bind; eapply wp_mono;
        [eapply runs_on_u32; [eassumption|exact Hm|intros v ? _ ?; vi_steps; eassumption]|];
        clear Hr; cbv beta; intros _ ? Hr).
  eapply wp_mono.
  { eapply runs_on_u32; [eassumption|exact Hm|intros v ? _ ?; vi_steps; eassumption]. }
  cbv beta. by intros _ ?.
Qed.

Definition settings_request (f port t : Z) : request :=
  qmi_request f port t MSG_GET_SETTINGS settings_tlvs.

(** The settings of an answer end up in the context; without an answer it stays. *)
Lemma settings_runs s :
  let c := vctx s in
  let c1 := ctx_set_txid (u16 (txid c + 1)) c in
  wp issue_get_settings (λ rc s', ∃ c' gs,
    runs s c' (open_fds s) [settings_request (fd c) (wds_port c) (txid c)] gs s' ∧
    ((rc = -1 ∧ gs = [] ∧ c' = c1) ∨
     (rc = 0 ∧ ∃ p us, gs = [p] ∧ is_response MSG_GET_SETTINGS p ∧ message_tlvs p us ∧
        c' = settings_ctx us c1))) s.
Proof.
  intros c c1. unfold issue_get_settings. apply wp_bind.
  eapply wp_mono; [apply runs_next_txid, runs_start|].
  cbv beta. intros t s1 [-> Hr1]. fold c c1 in Hr1 |- *. vi_steps.
  vi_build settings_builds. vi_answer p us.
  - eapply wp_mono; [by eapply record_settings_runs|]. cbv beta. intros _ s2 Hr2. vi_steps.
    eexists _, _. split; [eassumption|]. right. split; [done|]. by exists p, us.
  - eexists _, _. split; [eassumption|]. by left.
Qed.

Definition start_request (simple : bool) (a : string) (f port t : Z) : request :=
  qmi_request f port t MSG_START_NETWORK (start_tlvs simple a).

(** The bearer is started, and its settings are asked for, exactly on success. *)
Lemma start_runs req s :
  let c := vctx s in
  length req = 256%nat → strlen (apn c) ≤ max_apn (simple_wds c) →
  wp (start_network req) (λ rc s', ∃ c' rs gs,
    runs s c' (open_fds s) rs gs s' ∧ same_bearer c c' ∧
    (rc = 2 ∧ rs = [start_request (simple_wds c) (apn c) (fd c) (wds_port c) (txid c)] ∧ gs = [] ∨
     ∃ p gs' code, gs = p :: gs' ∧ answered MSG_START_NETWORK code p ∧
       (rc = 3 ∧ code ≠ 0 ∧
          rs = [start_request (simple_wds c) (apn c) (fd c) (wds_port c) (txid c)] ∨
        rc = 0 ∧ code = 0 ∧
          rs = [start_request (simple_wds c) (apn c) (fd c) (wds_port c) (txid c);
                settings_request (fd c) (wds_port c) (u16 (txid c + 1))]))) s.
Proof.
  intros c Hl Ha. unfold start_network. apply wp_bind.
  eapply wp_mono; [apply runs_next_txid, runs_start|].
  cbv beta. intros t s1 [-> Hr1]. fold c in Hr1 |- *. vi_steps.
  vi_build (start_builds (simple_wds c) (apn c) Ha). vi_answer p us.
  2: { eexists _, _, _. split_and!; [eassumption|done|]. by left. }
  destruct (Z.eqb_spec (result_code us) 0) as [Hrc|Hrc]; vi_steps.
  2: { eexists _, _, _. split_and!; [eassumption|done|]. right.
       exists p, [], (result_code us). split; [done|]. split; [split; [done|by exists us]|by left]. }
  eapply wp_mono.
  { eapply (runs_on_u32 _ _ _ _ _ _ p us 0x01 _ ctx_set_pdh); [eassumption|done|].
    intros v s3 _ Hr3. vi_steps. eassumption. }
  cbv beta. intros _ s3 Hr3. vi_steps.
  match goal with Hr : runs s _ _ _ _ ?x |- wp _ _ ?x => rename x into s4, Hr into Hr4 end.
  eapply wp_mono; [apply settings_runs|]. cbv beta. intros rc s5 (c' & gs' & Hr5 & Hc'). vi_steps.
  rewrite (runs_ctx _ _ _ _ _ _ Hr4), (runs_fds _ _ _ _ _ _ Hr4) in Hr5.
  rewrite (runs_ctx _ _ _ _ _ _ Hr4) in Hc'.
  pose proof (runs_trans _ _ _ _ _ _ _ _ _ _ _ Hr4 Hr5) as Hr6.
  assert (same_bearer c (set_if (word 0x01 us) ctx_set_pdh (ctx_set_txid (u16 (txid c + 1)) c)))
    as Hs by (etrans; [|by apply set_if_same]; done).
  assert (txid (set_if (word 0x01 us) ctx_set_pdh (ctx_set_txid (u16 (txid c + 1)) c)) =
          u16 (txid c + 1)) as Ht by (by destruct (word 0x01 us)).
  destruct (Hs) as (_ & Hfd & Hport & _). rewrite Ht, Hfd, Hport in Hr6.
  eexists _, _, _. split_and!; [exact Hr6| |].
  - etrans; [exact Hs|]. destruct Hc' as [(_ & _ & ->)|(_ & p' & us' & _ & _ & _ & ->)]; [done|].
    etrans; [|apply settings_same]. done.
  - right. exists p, gs', 0. split; [done|]. split; [split; [done|by exists us]|by right].
Qed.

(** The two precedents. *)
Lemma precedents_runs req s :
  let c := vctx s in
  length req = 256%nat →
  wp (precedents req) (λ r s', ∃ t rs gs,
    runs s (ctx_set_txid t c) (open_fds s) rs gs s' ∧
    match r with
    | Some req' => length req' = 256%nat ∧ length gs = 2%nat ∧ t = u16 (u16 (txid c + 1) + 1) ∧
        rs = [qmi_request (fd c) (wds_port c) (txid c) MSG_AF_SET_MODE client_mode_tlvs;
              qmi_request (fd c) (wds_port c) (u16 (txid c + 1)) MSG_4D_SET_IP_FAMILY ip_family_tlvs]
    | None => rs `prefix_of`
        [qmi_request (fd c) (wds_port c) (txid c) MSG_AF_SET_MODE client_mode_tlvs;
         qmi_request (fd c) (wds_port c) (u16 (txid c + 1)) MSG_4D_SET_IP_FAMILY ip_family_tlvs]
    end) s.
Proof.
  intros c Hl. unfold precedents. apply wp_bind.
  eapply wp_mono; [apply runs_next_txid, runs_start|].
  cbv beta. intros t s1 [-> Hr1]. fold c in Hr1 |- *. vi_steps.
  vi_build client_mode_builds. vi_answer p us.
  2: { eexists _, _, _. split; [eassumption|]. by eexists [_]. }
  eapply wp_mono; [eapply runs_next_txid; eassumption|].
  cbv beta. intros t s3 [-> Hr3]. vi_steps.
  vi_build ip_family_builds. vi_answer p2 us2.
  2: { eexists _, _, _. split; [eassumption|]. by exists []. }
  eexists _, _, _. split; [eassumption|]. by split_and!.
Qed.

(** The requests of the stage, in both forms. *)
Definition wds_script (c : vi_ctx) : list request :=
  let f := fd c in let port := wds_port c in
  let t0 := txid c in let t1 := u16 (t0 + 1) in let t2 := u16 (t1 + 1) in
  if simple_wds c then
    [start_request true (apn c) f port t0; settings_request f port t1]
  else
    [qmi_request f port t0 MSG_AF_SET_MODE client_mode_tlvs;
     qmi_request f port t1 MSG_4D_SET_IP_FAMILY ip_family_tlvs;
     start_request false (apn c) f port t2; settings_request f port (u16 (t2 + 1))].

Definition wds_post (s : vi_state) (rc : Z) (s' : vi_state) : Prop :=
  ∃ c' rs gs, runs s c' (open_fds s) rs gs s' ∧ 0 ≤ rc ≤ 3 ∧ same_bearer (vctx s) c' ∧
    rs `prefix_of` wds_script (vctx s) ∧
    (rc = 0 ↔ dry_run (vctx s) = true ∨ rs = wds_script (vctx s)) ∧
    (rs = wds_script (vctx s) → ∃ p, p ∈ gs ∧ answered MSG_START_NETWORK 0 p).

(** A run that stops before the last request of its script. *)
Lemma wds_stop s c' rs gs rc s' :
  runs s c' (open_fds s) rs gs s' → 0 < rc ≤ 3 → same_bearer (vctx s) c' →
  dry_run (vctx s) = false → rs `prefix_of` wds_script (vctx s) → rs ≠ wds_script (vctx s) →
  wds_post s rc s'.
Proof.
  intros Hr Hrc Hc Hd Hp Hne. exists c', rs, gs. rewrite Hd.
  split_and!; [done|lia..|done|done| |done]. split; [lia|]. by intros [?|?].
Qed.

(** The result of [start_network], after the requests [rs0]. *)
Lemma start_post s c0 rs0 gs0 s1 rc s' script :
  runs s c0 (open_fds s) rs0 gs0 s1 → same_bearer (vctx s) c0 → dry_run (vctx s) = false →
  wds_script (vctx s) = rs0 ++ script →
  script = [start_request (simple_wds c0) (apn c0) (fd c0) (wds_port c0) (txid c0);
            settings_request (fd c0) (wds_port c0) (u16 (txid c0 + 1))] →
  (∃ c' rs gs,
    runs s1 c' (open_fds s1) rs gs s' ∧ same_bearer c0 c' ∧
    (rc = 2 ∧ rs = take 1 script ∧ gs = [] ∨
     ∃ p gs' code, gs = p :: gs' ∧ answered MSG_START_NETWORK code p ∧
       (rc = 3 ∧ code ≠ 0 ∧ rs = take 1 script ∨ rc = 0 ∧ code = 0 ∧ rs = script))) →
  wds_post s rc s'.
Proof.
  intros Hr1 Hc0 Hd Hs Hscr (c' & rs & gs & Hr & Hc' & Hcase).
  rewrite (runs_fds _ _ _ _ _ _ Hr1) in Hr. pose proof (runs_trans _ _ _ _ _ _ _ _ _ _ _ Hr1 Hr) as Hr2.
  assert (rs0 ++ take 1 script ≠ wds_script (vctx s)) as Hne.
  { rewrite Hs, Hscr. intros He%app_inv_head. done. }
  assert (rs0 ++ take 1 script `prefix_of` wds_script (vctx s)) as Hpre.
  { rewrite Hs. apply prefix_app, prefix_take. }
  destruct Hcase as [(-> & -> & ->)|(p & gs' & code & -> & Ha & [(-> & Hne0 & ->)|(-> & -> & ->)])].
  - eapply wds_stop; [exact Hr2|lia|by etrans|done|done|done].
  - eapply wds_stop; [exact Hr2|lia|by etrans|done|done|done].
  - exists c', (rs0 ++ script), (gs0 ++ p :: gs'). rewrite <- Hs. split_and!; [by rewrite Hs|lia..|by etrans|done| |].
    + split; [by right|done].
    + intros _. exists p. split; [|done]. apply elem_of_app. right. by left.
Qed.

Lemma wds_runs s :
  strlen (apn (vctx s)) ≤ max_apn (simple_wds (vctx s)) →
  wp stage_wds_start (wds_post s) s.
Proof.
  intros Ha. pose proof (runs_start s) as Hr. unfold stage_wds_start. vi_steps.
  destruct (dry_run (vctx s)) eqn:Ed.
  { vi_steps. exists (vctx s), [], []. rewrite Ed. split_and!; [done|lia..|done|apply prefix_nil| |].
    - split; [by left|done].
    - unfold wds_script. by destruct (simple_wds (vctx s)). }
  destruct (wds_port (vctx s) =? 0).
  { vi_steps. eapply wds_stop; [exact Hr|lia|done|done|apply prefix_nil|].
    unfold wds_script. by destruct (simple_wds (vctx s)). }
  destruct (simple_wds (vctx s)) eqn:Es.
  - eapply wp_mono; [apply start_runs; [done|by rewrite Es]|]. cbv beta. intros rc s' Hpost.
    eapply (start_post s _ [] []); [exact Hr|done|done| |reflexivity|exact Hpost].
    unfold wds_script. by rewrite Es.
  - vi_steps. eapply wp_mono; [apply precedents_runs; done|]. cbv beta.
    intros [req|] s1 (t & rs & gs & Hr1 & Hpost); vi_steps.
    + destruct Hpost as (Hl & _ & -> & ->).
      pose proof (start_runs req s1 Hl) as Hst. cbv zeta in Hst.
      rewrite (runs_ctx _ _ _ _ _ _ Hr1) in Hst. cbn in Hst. rewrite Es in Hst.
      eapply wp_mono; [apply Hst; exact Ha|]. cbv beta. intros rc s' Hpost.
      eapply start_post; [exact Hr1|done|done|unfold wds_script; rewrite Es; reflexivity| |exact Hpost].
      cbn. by rewrite Es.
    + eapply wds_stop; [exact Hr1|lia|done|done| |].
      * unfold wds_script. rewrite Es. etrans; [exact Hpost|]. by eexists.
      * unfold wds_script. rewrite Es. intros ->. apply prefix_length in Hpost. simpl in Hpost. lia.
Qed.
End Bearer.

(** * vendor-init: what the program does *)

Section Tune.
Context `{Kernel}.

Lemma runs_try_cmd s0 c L rs gs s cmd :
  runs s0 c L rs gs s → wp (try_cmd cmd) (λ _ s', runs s0 c L rs gs s') s.
Proof.
  intros Hr. unfold try_cmd. apply wp_bind. eapply wp_mono; [by apply runs_system|].
  cbv beta. intros _ s' Hr'. by apply wp_ret.
Qed.

Lemma runs_try_cmd_opt s0 c L rs gs s cmd :
  runs s0 c L rs gs s → wp (try_cmd_opt cmd) (λ _ s', runs s0 c L rs gs s') s.
Proof. apply runs_try_cmd. Qed.

Lemma runs_try_write s0 c L rs gs s path value :
  path ∉ main_paths →
  runs s0 c L rs gs s → wp (try_write path value) (λ _ s', runs s0 c L rs gs s') s.
Proof.
  intros Hp Hr. unfold try_write. apply wp_bind. eapply wp_mono; [by apply runs_fopen|].
  cbv beta. intros _ s' Hr'. by apply wp_ret.
Qed.
End Tune.

Ltac tune_step :=
  lazymatch goal with
  | |- wp (try_cmd _) _ _ => eapply wp_mono; [eapply runs_try_cmd; eassumption|]; cbv beta; intros _ ? ?
  | |- wp (try_cmd_opt _) _ _ =>
      eapply wp_mono; [eapply runs_try_cmd_opt; eassumption|]; cbv beta; intros _ ? ?
  | |- wp (try_write _ _) _ _ =>
      eapply wp_mono; [eapply runs_try_write; [other_path|eassumption]|]; cbv beta; intros _ ? ?
  | _ => vi_step
  end.

Section Stages.
Context `{Kernel}.

Lemma tune_device_runs s0 c L rs gs s ctx :
  runs s0 c L rs gs s → wp (tune_device ctx) (λ _ s', runs s0 c L rs gs s') s.
Proof.
  intros Hr. unfold tune_device. repeat tune_step.
  apply wp_when; intros _; repeat tune_step; destruct (full_ul ctx); repeat tune_step; eassumption.
Qed.

Lemma tune_system_runs s0 c L rs gs s ctx :
  runs s0 c L rs gs s → wp (tune_system ctx) (λ _ s', runs s0 c L rs gs s') s.
Proof.
  intros Hr. unfold tune_system. repeat tune_step. eassumption.
Qed.

Lemma post_tune_runs s :
  wp stage_post_tune (λ rc s', rc = 0 ∧ runs s (vctx s) (open_fds s) [] [] s') s.
Proof.
  pose proof (runs_start s) as Hr. unfold stage_post_tune. vi_steps.
  destruct (dry_run (vctx s)); vi_steps; [done|].
  eapply wp_mono; [by apply tune_device_runs|]. cbv beta. intros _ s1 Hr1. vi_steps.
  eapply wp_mono; [by apply tune_system_runs|]. cbv beta. intros _ s2 Hr2. vi_steps.
  by split.
Qed.

(** ** The contract of a stage *)

(** From a state with [I], the stage ends with [I'], an exit code between 0 and 3, and the
    two files of [main] as they were. *)
Definition ctx_pred : Type := vi_ctx → list Z → Prop.

Definition contract (I I' : ctx_pred) (m : VI Z) : Prop :=
  ∀ s, I (vctx s) (open_fds s) →
    wp m (λ rc s', 0 ≤ rc ≤ 3 ∧ ∃ c' L' rs gs, runs s c' L' rs gs s' ∧ I' c' L') s.

(** Every request with the APN fits, now and if [stage_nas_rat] chooses the short form, and the
    number of channels can be counted. *)
Definition config_ok (c : vi_ctx) : Prop :=
  strlen (apn c) ≤ max_apn (simple_wds c) ∧ num_muxes c < INT_MAX.

(** No socket is open, or only the one of the bearer. *)
Definition no_socket (c : vi_ctx) (L : list Z) : Prop := config_ok c ∧ fd c = -1 ∧ L = [].
Definition bearer_socket (c : vi_ctx) (L : list Z) : Prop :=
  config_ok c ∧ (fd c = -1 ∧ L = [] ∨ 0 ≤ fd c ∧ L = [fd c]).

Lemma no_socket_bearer c L : no_socket c L → bearer_socket c L.
Proof. intros (Ha & Hf & HL). split; [done|by left]. Qed.

Lemma dms_contract : contract no_socket no_socket stage_dms_online.
Proof.
  intros s Hi. eapply wp_mono; [apply dms_runs|]. cbv beta.
  intros rc s' (rs & gs & (Hr & Hrc & _) & _). eauto 10.
Qed.

Lemma nas_contract `{!ClockTicks} : contract no_socket no_socket stage_nas_rat.
Proof.
  intros s (Ha & Hf & HL). eapply wp_mono; [apply nas_runs|]. cbv beta.
  intros rc s' (c' & rs & gs & n & (Hr & Hrc & _) & _ & [(-> & _)|[(-> & _)|(-> & _)]]);
    split; try done; eexists _, _, _, _; (split; [exact Hr|]); (split; [|by split]); [done|done|].
  unfold config_ok in *. simpl. destruct (simple_wds (vctx s)); simpl in *; lia.
Qed.

Lemma one_shot_contract set_port script msg_id m :
  (∀ port c, apn (set_port port c) = apn c ∧ fd (set_port port c) = fd c ∧
             simple_wds (set_port port c) = simple_wds c ∧
             num_muxes (set_port port c) = num_muxes c) →
  (∀ s, wp m (one_shot_post s set_port (script s) msg_id) s) →
  contract no_socket no_socket m.
Proof.
  intros Hset Hm s (Ha & Hf & HL). eapply wp_mono; [apply Hm|]. cbv beta.
  intros rc s' (c' & rs & gs & (Hr & Hrc & _) & Hc & _). split; [done|].
  eexists _, _, _, _. split; [exact Hr|]. destruct Hc as [->|[port ->]]; [by split|].
  destruct (Hset port (vctx s)) as (H1 & H2 & H3 & H4).
  unfold no_socket, config_ok. by rewrite H1, H2, H3, H4.
Qed.

Lemma dpm_contract : contract no_socket no_socket stage_dpm_open.
Proof. by eapply (one_shot_contract _ (λ _, dpm_script)); [|apply dpm_runs]. Qed.

Lemma wda_contract : contract no_socket no_socket stage_wda_set.
Proof. by eapply (one_shot_contract _ (λ s, wda_script (full_ul (vctx s)))); [|apply wda_runs]. Qed.

Lemma dsd_contract : contract no_socket no_socket stage_dsd.
Proof.
  intros s (Ha & Hf & HL). eapply wp_mono; [apply dsd_runs|]. cbv beta.
  intros rc s' (-> & c' & rs & gs & (Hr & Hrc & _) & Hc). split; [done|].
  eexists _, _, _, _. split; [exact Hr|]. by destruct Hc as [->|[port ->]].
Qed.

Lemma bind_contract : contract no_socket bearer_socket stage_bind_mux.
Proof.
  intros s (Ha & Hf & HL). eapply wp_mono; [apply bind_runs, Ha|]. cbv beta.
  intros rc s' (c' & L' & rs & gs & Hr & Hrc & _ & (Hapn & _ & Hnm & _) & Hsw & Hfd & _).
  split; [done|]. eexists _, _, _, _. split; [exact Hr|].
  split; [unfold config_ok; by rewrite Hapn, Hsw, Hnm|].
  destruct Hfd as [[H1 ->]|[H1 ->]]; [left; by rewrite H1|right; by rewrite HL].
Qed.

Lemma wds_contract : contract bearer_socket bearer_socket stage_wds_start.
Proof.
  intros s (Ha & HL). eapply wp_mono; [apply wds_runs, Ha|]. cbv beta.
  intros rc s' (c' & rs & gs & Hr & Hrc & ((Hapn & _ & Hnm & _) & Hf & _ & Hsw) & _). split; [done|].
  eexists _, _, _, _. split; [exact Hr|].
  split; [unfold config_ok; by rewrite Hapn, Hsw, Hnm|by rewrite Hf].
Qed.

Lemma post_tune_contract I : contract I I stage_post_tune.
Proof.
  intros s Hi. eapply wp_mono; [apply post_tune_runs|]. cbv beta. intros rc s' (-> & Hr).
  split; [lia|]. eexists _, _, _, _. split; [exact Hr|done].
Qed.

(** A table whose stages hand their states on; whichever stage is the last, [J] holds. *)
Inductive chain (J : ctx_pred) : ctx_pred → list stage → Prop :=
  | chain_nil I : (∀ c L, I c L → J c L) → chain J I []
  | chain_cons I I' st l :
      (∀ c L, I c L → J c L) → contract I I' (stage_fn st) → chain J I' l → chain J I (st :: l).

Lemma chain_here J I l : chain J I l → ∀ c L, I c L → J c L.
Proof. by destruct 1. Qed.

Lemma STAGES_chain `{!ClockTicks} : chain bearer_socket no_socket STAGES.
Proof.
  pose proof no_socket_bearer as Hw.
  apply chain_cons with no_socket; [done|apply dms_contract|].
  apply chain_cons with no_socket; [done|apply nas_contract|].
  apply chain_cons with no_socket; [done|apply dpm_contract|].
  apply chain_cons with no_socket; [done|apply wda_contract|].
  apply chain_cons with no_socket; [done|apply dsd_contract|].
  apply chain_cons with bearer_socket; [done|apply bind_contract|].
  apply chain_cons with bearer_socket; [done|apply wds_contract|].
  apply chain_cons with bearer_socket; [done|apply post_tune_contract|].
  by apply chain_nil.
Qed.

(** ** The loop over the table *)

(** The two files of [main] can be opened at any time. *)
Definition writable : Prop := ∀ h path, path ∈ main_paths → k_fopen h path = true.

Definition file_is (name text : string) (s : vi_state) : Prop :=
  files s !! state_path name = Some (text +:+ newline).

Lemma wp_write_main name value s :
  state_path name ∈ main_paths →
  wp (write_file name value) (λ _ s', vctx s' = vctx s ∧ open_fds s' = open_fds s ∧
    (writable → file_is name value s' ∧
       ∀ path, path ≠ state_path name → files s' !! path = files s !! path)) s.
Proof.
  intros Hn. unfold write_file, ensure_dir, fopen_write, file_is. wp_eval.
  destruct (dir_ensured s); cbn;
    destruct (k_fopen _ _) eqn:E; cbn; split_and!; try done; intros Hw;
    try (rewrite (Hw _ _ Hn) in E; done);
    (split; [apply lookup_insert_eq|intros path Hp; by apply lookup_insert_ne]).
Qed.

Lemma wp_read_stop s (Q : bool → vi_state → Prop) :
  Q true (stopped s) → Q false s → wp read_stop Q s.
Proof. intros H1 H2. unfold read_stop. wp_eval. by destruct (_ || _). Qed.

(** What a state file tells after the loop over [l]. *)
Definition outcome (l : list stage) (rc : Z) (s : vi_state) : Prop :=
  rc = 0 ∨ rc = 130 ∧ (writable → file_is "state" "INTERRUPTED" s) ∨
  1 ≤ rc ≤ 3 ∧ (writable → ∃ st, st ∈ l ∧ file_is "stage" (stage_name st) s ∧
                             file_is "state" ("FAILED_" +:+ stage_name st) s).

Lemma state_path_state : state_path "state" ∈ main_paths.
Proof. by left. Qed.
Lemma state_path_stage : state_path "stage" ∈ main_paths.
Proof. right. by left. Qed.
Lemma state_path_ne : state_path "stage" ≠ state_path "state".
Proof. done. Qed.

Lemma run_stages_spec J l : ∀ I s,
  chain J I l → Forall (λ st, snprintf 64 ("FAILED_" +:+ stage_name st) =
                              "FAILED_" +:+ stage_name st) l →
  I (vctx s) (open_fds s) →
  wp (run_stages l) (λ rc s', J (vctx s') (open_fds s') ∧ outcome l rc s') s.
Proof.
  induction l as [|st l IH]; intros I s Hc Hn Hi; cbn [run_stages].
  { apply wp_ret. split; [by eapply chain_here|by left]. }
  inversion Hc as [|? I' ? ? HJ Hst Hl]; subst. inversion Hn as [|? ? Hname Hn']; subst.
  apply wp_bind, wp_read_stop.
  - apply wp_bind. eapply wp_mono; [apply wp_write_main, state_path_state|].
    cbv beta. intros _ s1 (H1 & H2 & Hw). apply wp_ret. split.
    + rewrite H1, H2. by apply HJ.
    + right. left. split; [done|]. intros W. apply (proj1 (Hw W)).
  - apply wp_bind. eapply wp_mono; [apply wp_write_main, state_path_stage|].
    cbv beta. intros _ s1 (H1 & H2 & Hw1). apply wp_bind.
    eapply wp_mono; [apply Hst; by rewrite H1, H2|]. cbv beta.
    intros rc s2 (Hrc & c' & L' & rs & gs & Hr & Hi'). destruct Hr as [Hc2 HL2 _ Hf2 _].
    rewrite <- Hc2, <- HL2 in Hi'.
    destruct (Z.eqb_spec rc 0) as [->|Hne]; cbn [negb].
    + eapply wp_mono; [by eapply IH|]. cbv beta. intros rc' s3 [HJ3 Ho]. split; [done|].
      destruct Ho as [?|[?|[Hb Ho]]]; [by left|by right; left|].
      right. right. split; [done|]. intros W. destruct (Ho W) as (st' & Hin & ?).
      exists st'. split; [by right|done].
    + apply wp_bind. eapply wp_mono; [apply wp_write_main, state_path_state|].
      cbv beta. intros _ s3 (H3 & H4 & Hw3). apply wp_ret. split.
      { rewrite H3, H4. by eapply chain_here. }
      right. right. split; [lia|]. intros W. exists st. destruct (Hw3 W) as [Hs Hs'].
      rewrite Hname in Hs. split_and!; [by left| |done].
      unfold file_is. rewrite (Hs' _ state_path_ne), (Hf2 _ state_path_stage).
      apply (proj1 (Hw1 W)).
Qed.

Lemma STAGES_names :
  Forall (λ st, snprintf 64 ("FAILED_" +:+ stage_name st) = "FAILED_" +:+ stage_name st) STAGES.
Proof. by repeat constructor. Qed.

(** ** The whole program *)

Lemma wp_hold s :
  wp hold_bearer (λ _ s', vctx s' = vctx s ∧ open_fds s' = open_fds s ∧ files s' = files s) s.
Proof. unfold hold_bearer. apply wp_bind, wp_read_stop; done. Qed.

Lemma finish_spec rc s :
  bearer_socket (vctx s) (open_fds s) →
  wp (finish rc) (λ r s', r = rc ∧ open_fds s' = [] ∧ (rc ≠ 0 → files s' = files s) ∧
    (rc = 0 → writable → file_is "state" "READY" s')) s.
Proof.
  intros (_ & Hb). unfold finish. apply wp_bind.
  eapply (wp_mono _ (λ _ s1, vctx s1 = vctx s ∧ open_fds s1 = open_fds s ∧
    (rc ≠ 0 → files s1 = files s) ∧ (rc = 0 → writable → file_is "state" "READY" s1))).
  - apply wp_when; [intros Hrc%Z.eqb_eq|intros Hrc%Z.eqb_neq; by split_and!].
    apply wp_bind. eapply wp_mono; [apply wp_write_main, state_path_state|].
    cbv beta. intros _ s1 (H1 & H2 & Hw). eapply wp_mono; [apply wp_hold|]. cbv beta.
    intros _ s2 (H3 & H4 & H5). split_and!; [congruence..|].
    intros _ W. unfold file_is. rewrite H5. apply (proj1 (Hw W)).
  - cbv beta. intros _ s1 (H1 & H2 & H3 & H4). apply wp_bind. unfold wp at 1. wp_eval.
    rewrite H1. apply wp_bind. apply wp_when.
    + intros Hf%Z.leb_le. destruct Hb as [[Hb _]|[_ Hb]]; [lia|].
      unfold close. wp_eval. rewrite H2, Hb. cbn [remove_fd]. rewrite Z.eqb_refl. cbn.
      by split_and!.
    + intros Hf%Z.leb_gt. destruct Hb as [[_ Hb]|[Hb _]]; [|lia]. apply wp_ret.
      split_and!; [done|congruence|done..].
Qed.

Definition main_post (rc : Z) (s' : vi_state) : Prop :=
  open_fds s' = [] ∧
  (rc = 0 ∧ (writable → file_is "state" "READY" s') ∨
   rc = 130 ∧ (writable → file_is "state" "INTERRUPTED" s') ∨
   1 ≤ rc ≤ 3 ∧ (writable → ∃ st, st ∈ STAGES ∧ file_is "stage" (stage_name st) s' ∧
                              file_is "state" ("FAILED_" +:+ stage_name st) s')).

Lemma run_main_spec `{!ClockTicks} ctx :
  config_ok ctx → wp run_main main_post (start_state ctx).
Proof.
  intros Ha. unfold run_main. pose proof (runs_start (start_state ctx)) as Hr0.
  apply wp_bind. eapply wp_get_vctx; [exact Hr0|]. clear Hr0.
  apply wp_bind. eapply wp_mono; [apply wp_write_main, state_path_state|].
  cbv beta. intros _ s1 (H1 & H2 & _). pose proof (runs_start s1) as Hr1. vi_steps.
  match goal with Hr : runs s1 _ _ _ _ ?x |- wp _ _ ?x => rename Hr into Hr5, x into s5 end.
  eapply wp_mono.
  { eapply run_stages_spec; [apply STAGES_chain|apply STAGES_names|].
    destruct Hr5 as [-> -> _ _ _]. rewrite H2. split; [|done]. unfold config_ok. by rewrite H1. }
  cbv beta. intros rc s6 [HJ Ho]. eapply wp_mono; [by apply finish_spec|]. cbv beta.
  intros r s7 (-> & HL & Hf & Hz). split; [done|].
  destruct Ho as [->|[[-> Ho]|[Hrc Ho]]].
  - left. split; [done|by apply Hz].
  - right. left. split; [done|]. unfold file_is. by rewrite (Hf ltac:(done)).
  - right. right. split; [done|]. unfold file_is. by rewrite (Hf ltac:(lia)).
Qed.

(** A dry run: every stage returns at once. *)
Lemma dry_run_stage st s :
  st ∈ STAGES → dry_run (vctx s) = true → num_muxes (vctx s) < INT_MAX →
  stage_fn st s = Some (0, s).
Proof.
  intros Hin Hd Hn. unfold STAGES in Hin. rewrite !elem_of_cons in Hin.
  destruct Hin as [->|[->|[->|[->|[->|[->|[->|[->|Hin]]]]]]]];
    [..|by apply elem_of_nil in Hin];
    cbn [stage_fn]; unfold stage_dms_online, stage_nas_rat, stage_dpm_open, stage_wda_set,
      stage_dsd, stage_bind_mux, stage_wds_start, stage_post_tune;
    wp_eval; rewrite Hd; try done.
  all: rewrite ?dry_loop_ends by done; done.
Qed.
End Stages.
