(* ===== verification/ViExample.v ===== *)
(** * vendor-init: a modem to run against

    A concrete kernel with a modem that answers every lookup and every request: the
    hypotheses of the theorems hold for it, and the program can be run. *)

From S2P Require Import Prelude.
From S2P Require Import Qmi.
From S2P Require Import QmiScan.
From S2P Require Import ViTypes.
From S2P Require Import Qrtr.
From S2P Require Import ViConfig.
From S2P Require Import ViNas.
From S2P Require Import ViBearer.
From S2P Require Import ViMain.
From S2P Require Import ViRun.
From S2P Require Import ViNasRuns.
From S2P Require Import ViMainRuns.

(** ** The modem *)

(** The last datagram the program sent. *)
Fixpoint last_sent (h : list event) : option (Z * list Z) :=
  match h with
  | [] => None
  | ESend _ _ port data _ :: _ => Some (port, data)
  | _ :: h' => last_sent h'
  end.

(** The port of a service. *)
Definition port_of (service : Z) : Z := 100 + service.

(** The TLVs of an answer, after the result. *)
Definition answer_tlvs (lte : bool) (port msg_id : Z) : list (Z * list Z) :=
  if (msg_id =? MSG_DMS_GET_OPERATING_MODE) && (port =? port_of QRTR_SVC_DMS) then [(1, [1])]
  else if msg_id =? MSG_NAS_GET_SERVING_SYSTEM then
    [(1, [1; 1; 1; 2; 1; if lte then RADIO_IF_LTE else RADIO_IF_GSM])]
  else if msg_id =? MSG_START_NETWORK then [(1, le4 0x12345678)]
  else if msg_id =? MSG_GET_SETTINGS then
    [(0x1E, le4 0x0A01020A); (0x21, le4 0xFFFFFFF8); (0x29, le4 1500)]
  else [].

Definition modem_answer (lte : bool) (port : Z) (data : list Z) : list Z :=
  if port =? QRTR_PORT_CTRL then
    let service := nth 4 data 0 in
    qrtr_ctrl_pkt QRTR_TYPE_NEW_SERVER service 1 0 (port_of service)
  else
    let msg_id := nth 3 data 0 + 256 * nth 4 data 0 in
    encode_msg QMI_FLAG_RESP (nth 1 data 0) msg_id
      ((2, [0; 0; 0; 0]) :: answer_tlvs lte port msg_id).

(** ** The kernel *)

Definition is_socket (e : event) : bool := match e with ESocket _ => true | _ => false end.
Definition is_second (e : event) : bool :=
  match e with EUsleep us cut => (us =? 1000000) && negb cut | _ => false end.
Definition count (f : event → bool) (h : list event) : Z := Z.of_nat (length (List.filter f h)).

Definition demo_kernel (lte : bool) : Kernel := {|
  k_socket := λ h, 3 + count is_socket h;
  k_sendto := λ _, 0;
  k_poll := λ _, 1;
  k_recvfrom := λ h, '(port, data) ← last_sent h; Some (modem_answer lte port data);
  k_fopen := λ _ _, true;
  k_system := λ _ _, 0;
  k_clock := λ h, count is_second h;
  k_signalled := λ _, false;
  k_cut := λ h, bool_decide (cuts h < 2)%nat;
  k_cuts := 2;
|}.

Lemma count_app f h' h : count f (h' ++ h) = count f h' + count f h.
Proof. unfold count. rewrite List.filter_app, length_app. lia. Qed.

(** Two signals, which cut the first two sleeps short. *)
#[export] Instance demo_ticks lte : @ClockTicks (demo_kernel lte).
Proof.
  split; [intros h evs; simpl..|intros h; simpl].
  - rewrite count_app. unfold count. lia.
  - rewrite count_app. change (EUsleep 1000000 false :: h) with ([EUsleep 1000000 false] ++ h).
    rewrite count_app. unfold count. simpl. lia.
  - by apply bool_decide_eq_true_1.
Qed.

Lemma demo_writable lte : @writable (demo_kernel lte).
Proof. done. Qed.

(** ** Runs *)

Definition demo_ctx : vi_ctx := initial_ctx.
Definition demo_full_ctx : vi_ctx := ctx_set_simple_wds false initial_ctx.
Definition long_apn : string := String.concat "" (replicate 25 "0123456789").
Definition long_ctx : vi_ctx := ctx_set_options long_apn 1 initial_ctx.

(** What is left of a run for a check: the exit code and the state file. *)
Definition demo_result (lte : bool) (opts : list opt) : option (Z * option string) :=
  '(rc, s) ← @main (demo_kernel lte) opts; Some (rc, files s !! state_path "state").

Example demo_ready : demo_result true [] = Some (0, Some ("READY" +:+ newline)).
Proof. vm_compute. reflexivity. Qed.

(** Without LTE the stage gives up after a minute, and the short request is sent. *)
Example demo_gsm : demo_result false [OptFullWds] = Some (0, Some ("READY" +:+ newline)).
Proof. vm_compute. reflexivity. Qed.

Example demo_overflow : demo_result true [OptApn long_apn] = None.
Proof. vm_compute. reflexivity. Qed.

(** The capture of the vendor program: DPM_OPEN_PORT, 27 bytes, transaction 2. *)
Example dpm_capture :
  ('(b, off) ← dpm_request (uninit 64) 2; read_buffer b off) =
  Some [0x00; 0x02; 0x00; 0x20; 0x00; 0x14; 0x00; 0x11; 0x11; 0x00; 0x01; 0x04; 0x00; 0x00;
        0x00; 0x01; 0x00; 0x00; 0x00; 0x04; 0x00; 0x00; 0x00; 0x05; 0x00; 0x00; 0x00].
Proof. reflexivity. Qed.
