(* ===== verification/QmiProps.v ===== *)
(** * vendor-init: properties of QMI messages and of the exchange

    The search in a datagram, the round trip of a message, and the two loops on the socket. *)

From S2P Require Import Prelude.
From S2P Require Import Qmi.
From S2P Require Import QmiScan.
From S2P Require Import ViTypes.
From S2P Require Import Qrtr.
From S2P Require Import ViRun.

(** ** Building a message TLV by TLV *)

Fixpoint build_tlvs (b : buffer) (off : Z) (ts : list (Z * list Z)) : option (buffer * Z) :=
  match ts with
  | [] => Some (b, off)
  | t :: ts' =>
      '(b, off) ← qmi_tlv_bytes b off t.1 t.2 (Z.of_nat (length t.2));
      build_tlvs b off ts'
  end.

Definition build_msg (b : buffer) (txid msg_id : Z) (ts : list (Z * list Z)) :
    option (buffer * Z) :=
  '(b, off) ← qmi_hdr_req b txid msg_id 0;
  '(b, off) ← build_tlvs b off ts;
  b ← set_body_len b off 7;
  Some (b, off).

Definition small (ts : list (Z * list Z)) : Prop :=
  Forall (λ t, Z.of_nat (length t.2) < 65536) ts.

Lemma build_tlvs_spec txid msg_id ts : ∀ b off us,
  partial_msg b off txid msg_id us → small ts →
  off + Z.of_nat (length (encode_tlvs ts)) ≤ Z.of_nat (length b) →
  ∃ b', build_tlvs b off ts = Some (b', off + Z.of_nat (length (encode_tlvs ts))) ∧
        length b' = length b ∧
        partial_msg b' (off + Z.of_nat (length (encode_tlvs ts))) txid msg_id (us ++ ts).
Proof.
  induction ts as [|[t d] ts IH]; intros b off us Hp Hs Hsz.
  { exists b. simpl. rewrite Z.add_0_r, app_nil_r. by split_and!. }
  apply Forall_cons_iff in Hs as [Hd Hs]. simpl in Hd.
  change (encode_tlvs ((t, d) :: ts)) with (encode_tlv (t, d) ++ encode_tlvs ts) in *.
  rewrite length_app, encode_tlv_length in *. cbn [snd fst build_tlvs] in *.
  destruct (tlv_data_spec b off txid msg_id us t d (Z.of_nat (length d)))
    as (b1 & -> & Hl1 & Hp1); [done|done|done|lia|]. cbn [mbind option_bind].
  destruct (IH b1 _ _ Hp1 Hs) as (b2 & -> & Hl2 & Hp2); [lia|].
  exists b2. rewrite <- (assoc_L (++)) in Hp2.
  replace (off + 3 + Z.of_nat (length d) + Z.of_nat (length (encode_tlvs ts)))
    with (off + Z.of_nat (3 + length d + length (encode_tlvs ts))) in * by lia.
  split_and!; [done|congruence|done].
Qed.

Lemma build_tlvs_full ts : ∀ b off,
  0 ≤ off → small ts → Z.of_nat (length b) < off + Z.of_nat (length (encode_tlvs ts)) →
  off ≤ Z.of_nat (length b) → build_tlvs b off ts = None.
Proof.
  induction ts as [|[t d] ts IH]; intros b off H0 Hs Hsz Hb; [simpl in Hsz; lia|].
  apply Forall_cons_iff in Hs as [Hd Hs]. simpl in Hd.
  change (encode_tlvs ((t, d) :: ts)) with (encode_tlv (t, d) ++ encode_tlvs ts) in *.
  rewrite length_app, encode_tlv_length in Hsz. cbn [snd fst build_tlvs] in *.
  destruct (decide (Z.of_nat (length b) < off + 3 + Z.of_nat (length d))).
  { by rewrite tlv_bytes_overflow by lia. }
  destruct (qmi_tlv_bytes b off t d (Z.of_nat (length d))) as [[b1 off1]|] eqn:E; [|done].
  cbn [mbind option_bind].
  assert (off1 = off + 3 + Z.of_nat (length d) ∧ length b1 = length b) as [-> Hl].
  { revert E. unfold qmi_tlv_bytes.
    assert (u16 (Z.of_nat (length d)) = Z.of_nat (length d)) as ->
      by (apply Z.mod_small; lia).
    destruct (set_byte b off t) as [c1|] eqn:E1; [|done]. simpl.
    destruct (set_byte c1 (off + 1) _) as [c2|] eqn:E2; [|done]. simpl.
    destruct (set_byte c2 (off + 2) _) as [c3|] eqn:E3; [|done]. simpl.
    destruct (_ <? _); [done|].
    destruct (copy_bytes c3 _ _) as [c4|] eqn:E4; [|done]. simpl. intros [= <- <-].
    split; [done|]. apply set_byte_length in E1. apply set_byte_length in E2.
    apply set_byte_length in E3. apply copy_bytes_length in E4. congruence. }
  apply IH; [lia|done|lia|lia].
Qed.

(** ** The properties *)

(** C18: whatever bytes a datagram holds, it has a sequence of TLVs (followed by bytes that
    are no whole TLV) such that [qmi_tlv_find] returns the place of the first TLV of the
    type, which lies behind the header and inside the datagram, or nothing if there is none;
    [qmi_result] and [qmi_tlv_get_u32] read the data of that TLV. None of them reads outside
    the datagram, and all of them end. *)
Theorem tlv_search_exact (p : list Z) :
  byte_list p →
  let n := Z.of_nat (length p) in
  ∃ ts, message_tlvs p ts ∧
    qmi_result p n = Some (result_code ts) ∧
    ∀ type,
      qmi_tlv_get_u32 p n type = Some (u32 <$> first_word type ts) ∧
      match tlv_of type ts with
      | None => qmi_tlv_find p n type = Some None
      | Some d => ∃ off, qmi_tlv_find p n type = Some (Some (off, Z.of_nat (length d))) ∧
          10 ≤ off ∧ off + Z.of_nat (length d) ≤ n ∧ lookup_z p (off - 3) = Some type ∧
          take (length d) (drop (Z.to_nat off) p) = d
      end.
Proof.
  intros Hb. cbv zeta. destruct (message_tlvs_exist p Hb) as [ts Hts]. exists ts. split; [done|].
  split; [by apply result_spec|]. intros type. split; [by apply get_u32_spec|].
  destruct (find_data p ts type) as [[-> ->]|(off & d & pre & post & Hp & -> & Ho & -> & Ht & He)];
    [done..|].
  exists (Z.of_nat (length pre)). split_and!; [exact He|done| |done|].
  - rewrite Hp, !length_app. lia.
  - by rewrite Hp, Nat2Z.id, drop_app_length, take_app_length.
Qed.

(** C19: a message that is built TLV by TLV in an array of the stage either fits, and then the
    bytes to send are the header (flag, transaction, message and length of the body) and the
    TLVs in order, in which each search finds the data of the first TLV of its type; or it
    does not fit, and then a byte is written outside the array. *)
Theorem message_roundtrip (b : buffer) (txid msg_id : Z) (ts : list (Z * list Z)) :
  (7 ≤ length b)%nat → small ts →
  let len := Z.of_nat (length (encode_tlvs ts)) in
  let m := encode_msg QMI_FLAG_REQ txid msg_id ts in
  7 + len < 65536 →
  if 7 + len <=? Z.of_nat (length b) then
    (∃ b', build_msg b txid msg_id ts = Some (b', 7 + len) ∧ read_buffer b' (7 + len) = Some m) ∧
    read_u16 m 1 = Some (u16 txid) ∧ read_u16 m 3 = Some (u16 msg_id) ∧
    read_u16 m 5 = Some len ∧
    ∀ type, match tlv_of type ts with
            | None => qmi_tlv_find m (7 + len) type = Some None
            | Some d => ∃ off, qmi_tlv_find m (7 + len) type = Some (Some (off, Z.of_nat (length d))) ∧
                               take (length d) (drop (Z.to_nat off) m) = d
            end
  else build_msg b txid msg_id ts = None.
Proof.
  intros Hb Hs len m H16. unfold build_msg.
  destruct (hdr_req_spec b txid msg_id 0) as (b1 & -> & Hl1 & Hp1); [done|].
  cbn [mbind option_bind]. destruct (Z.leb_spec (7 + len) (Z.of_nat (length b))) as [Hf|Hf].
  2: { rewrite build_tlvs_full; [done|lia|done| |lia]. rewrite Hl1. unfold len in Hf. lia. }
  assert (Z.of_nat (length m) = 7 + len) as Hm
    by (unfold m, encode_msg, len; rewrite length_app; simpl; lia).
  split_and!.
  - destruct (build_tlvs_spec txid msg_id ts b1 7 [] Hp1 Hs) as (b2 & -> & Hl2 & Hp2);
      [unfold len in Hf; lia|]. cbn [mbind option_bind]. fold len in Hp2 |- *.
    destruct (set_body_len_complete b2 (7 + len) txid msg_id ts) as (b3 & -> & Hl3 & Hc);
      [done|done|]. exists b3. split; [done|]. by apply complete_read in Hc.
  - unfold read_u16. simpl. by rewrite <- le2_decode.
  - unfold read_u16. simpl. by rewrite <- le2_decode.
  - unfold read_u16. simpl. f_equal. change (le2_value (byte_of len 0) (byte_of len 1) = len).
    rewrite le2_decode. unfold u16. apply Z.mod_small. lia.
  - intros type. rewrite <- Hm.
    destruct (find_data m ts type) as [[-> ->]|(off & d & pre & post & Hp & -> & Ho & -> & Ht & He)];
      [by apply encode_msg_tlvs|done|].
    eexists. split; [exact He|].
    by rewrite Hp, Nat2Z.id, drop_app_length, take_app_length.
Qed.

(** [qrtr_txn] ends after at most 32 datagrams; it sends exactly the request it is given,
    and what it returns is a received datagram of at least five bytes, with the flag of a
    response and the id of the message, the only such datagram among those it read; it
    returns -1 only if it read none. The sockets and the rest of the state stay. *)
Theorem txn_exact `{Kernel} (f node port : Z) (req : list Z) (msg_id sz tmo : Z) (s : vi_state) :
  ∃ r evs, qrtr_txn f node port req msg_id sz tmo s = Some (r, logs evs s) ∧
    requests evs = [(f, node, port, req)] ∧ (reads evs ≤ 32)%nat ∧
    ∀ p, r = Some p ↔
      received evs p ∧ (5 ≤ length p)%nat ∧ p !! 0%nat = Some QMI_FLAG_RESP ∧
      read_u16 p 3 = Some msg_id.
Proof.
  pose proof (qrtr_txn_spec f node port req msg_id sz tmo s) as Hw.
  apply wp_elim in Hw as (r & s' & He & evs & -> & H1 & H2 & H3 & H4).
  exists r, evs. split_and!; [done..|]. intros p. split.
  - intros Hr. destruct (H3 p Hr) as (Hrc & _ & Hi). split; [done|by apply is_response_spec].
  - intros (Hrc & Hl & Hfl & Hm). apply H4; [done|]. unfold is_response, txn_reply.
    rewrite (proj2 (Z.ltb_ge _ _)) by lia. rewrite Hm. cbn [mbind option_bind].
    assert (lookup_z p 0 = Some QMI_FLAG_RESP) as -> by exact Hfl.
    cbn [mbind option_bind]. by rewrite !Z.eqb_refl.
Qed.

(** [qrtr_lookup] ends after at most 64 datagrams; it sends one NEW_LOOKUP for the
    service to the name server of node 1, and a port it returns was announced, in a
    NEW_SERVER packet for that service that it received. *)
Theorem lookup_sound `{Kernel} (f service : Z) (s : vi_state) :
  ∃ port evs, qrtr_lookup f service s = Some (port, logs evs s) ∧
    requests evs = [(f, 1, QRTR_PORT_CTRL, le4 10 ++ le4 service ++ le4 0 ++ le4 0 ++ le4 0)] ∧
    (reads evs ≤ 64)%nat ∧
    (port ≠ 0 → ∃ p, received evs p ∧ (20 ≤ length p)%nat ∧ ctrl_word p 0 = Some 4 ∧
                     ctrl_word p 1 = Some service ∧ ctrl_word p 4 = Some port).
Proof.
  pose proof (qrtr_lookup_spec f service s) as Hw.
  apply wp_elim in Hw as (port & s' & He & evs & -> & H1 & H2 & H3).
  exists port, evs. split_and!; [done..|]. intros Hp. destruct (H3 Hp) as (p & Hrc & Hl).
  exists p. split; [done|]. revert Hl. unfold lookup_reply, sizeof_ctrl_pkt.
  destruct (Z.ltb_spec (Z.of_nat (length p)) 20); [done|].
  destruct (ctrl_word p 0) as [c|]; [|done]. cbn [mbind option_bind].
  destruct (Z.eqb_spec c QRTR_TYPE_NEW_SERVER) as [->|]; [|done]. cbn [negb].
  destruct (ctrl_word p 1) as [v|]; [|done]. cbn [mbind option_bind].
  destruct (Z.eqb_spec v service) as [->|]; [|done]. cbn [negb].
  destruct (ctrl_word p 4) as [w|]; [|done]. cbn [mbind option_bind].
  destruct (w =? 0); [done|]. intros [= ->]. split_and!; [lia|done..].
Qed.

(** ** Witnesses *)

(** The answer to DPM_OPEN_PORT of the capture, and two bytes of a TLV that is cut off. *)
Definition captured : list Z :=
  [0x02; 0x02; 0x00; 0x20; 0x00; 0x07; 0x00; 0x02; 0x04; 0x00; 0x00; 0x00; 0x00; 0x00; 0x11; 0x09].

Lemma captured_bytes : byte_list captured.
Proof. apply (bool_decide_unpack _). vm_compute. exact I. Qed.

Lemma tlv_search_exact_witness :
  qmi_result captured 16 = Some 0 ∧ qmi_tlv_find captured 16 0x11 = Some None ∧
  ∃ ts, message_tlvs captured ts ∧ qmi_result captured 16 = Some (result_code ts).
Proof.
  split; [reflexivity|]. split; [reflexivity|].
  destruct (tlv_search_exact captured captured_bytes) as (ts & H1 & H2 & _). by exists ts.
Defined.

Definition witness_tlvs : list (Z * list Z) := [(0x11, le4 2); (0x1A, [1])].

Lemma witness_small : small witness_tlvs.
Proof. repeat constructor; simpl; lia. Qed.

Lemma message_roundtrip_witness :
  (∃ b', build_msg (uninit 64) 1 0x20 witness_tlvs = Some (b', 18) ∧
         read_buffer b' 18 = Some (encode_msg QMI_FLAG_REQ 1 0x20 witness_tlvs)) ∧
  build_msg (uninit 17) 1 0x20 witness_tlvs = None.
Proof.
  split.
  - exact (proj1 (message_roundtrip (uninit 64) 1 0x20 witness_tlvs
      ltac:(simpl; lia) witness_small eq_refl)).
  - exact (message_roundtrip (uninit 17) 1 0x20 witness_tlvs ltac:(simpl; lia) witness_small eq_refl).
Defined.
