(* ===== verification/ViProps.v ===== *)
(** * vendor-init: properties of the stages and of the program

    The outcome of the program, the requests of its stages, the bound on the APN, and the end
    of the wait for LTE. *)

From S2P Require Import Prelude.
From S2P Require Import Qmi.
From S2P Require Import QmiScan.
From S2P Require Import ViTypes.
From S2P Require Import Qrtr.
From S2P Require Import ViConfig.
From S2P Require Import ViNas.
From S2P Require Import ViBearer.
From S2P Require Import ViTune.
From S2P Require Import ViMain.
From S2P Require Import ViRun.
From S2P Require Import ViNasRuns.
From S2P Require Import ViMainRuns.
From S2P Require Import ViExample.

(** ** Too long an APN *)

Lemma start_request_overflow a b txid :
  length b = 256%nat → 242 < strlen a < 65536 → start_network_request true a b txid = None.
Proof.
  intros Hb Ha. unfold start_network_request.
  destruct (hdr_req_spec b txid MSG_START_NETWORK 0) as (b1 & -> & Hl1 & Hp1); [lia|].
  cbn [mbind option_bind]. pose proof (strlen_nonneg a).
  destruct (decide (strlen a ≤ 246)).
  - destruct (apn_tlv_spec b1 7 txid MSG_START_NETWORK [] 0x14 a Hp1) as (b2 & -> & Hl2 & Hp2);
      [lia|lia|]. cbn [mbind option_bind]. unfold qmi_tlv_u8.
    by rewrite tlv_bytes_overflow by lia.
  - by rewrite tlv_bytes_overflow by lia.
Qed.

(** ** Dry runs *)

Definition quiet_event (e : event) : Prop :=
  match e with EMkdir _ | EWrite _ _ _ | EPause => True | _ => False end.

Section Dry.
Context `{Kernel}.

(** Only files were written since the start, and the context is a dry one. *)
Definition quiet (s : vi_state) : Prop :=
  (dry_run (vctx s) = true ∧ num_muxes (vctx s) < INT_MAX) ∧ Forall quiet_event (hist s).

Lemma quiet_write name value s :
  quiet s → wp (write_file name value) (λ _ s', quiet s' ∧ vctx s' = vctx s) s.
Proof.
  intros [[Hd Hn] Hq]. unfold write_file, ensure_dir, fopen_write, quiet. wp_eval.
  destruct (dir_ensured s); cbn; destruct (k_fopen _ _); cbn; split_and!; try assumption;
    try done; by repeat (constructor; [done|]).
Qed.

Lemma quiet_stages l : ∀ s,
  (∀ st, st ∈ l → st ∈ STAGES) → quiet s →
  wp (run_stages l) (λ rc s', (rc = 0 ∨ rc = 130) ∧ quiet s' ∧ vctx s' = vctx s) s.
Proof.
  induction l as [|st l IH]; intros s Hl Hq; cbn [run_stages].
  { apply wp_ret. split; [by left|done]. }
  apply wp_bind, wp_read_stop.
  - apply wp_bind. eapply wp_mono; [by apply quiet_write|]. cbv beta. intros _ s1 [H1 H2].
    apply wp_ret. split; [by right|done].
  - apply wp_bind. eapply wp_mono; [by apply quiet_write|]. cbv beta. intros _ s1 [H1 H2].
    apply wp_bind, (wp_intro _ _ _ 0 s1); [apply dry_run_stage; [apply Hl; by left|apply H1..]|].
    cbn [Z.eqb negb]. eapply wp_mono; [apply IH; [|done]|].
    + intros st' Hst. apply Hl. by right.
    + cbv beta. intros rc s2 (H3 & H4 & H5). by rewrite H5.
Qed.

Lemma quiet_finish rc s :
  quiet s → fd (vctx s) = -1 → wp (finish rc) (λ r s', r = rc ∧ quiet s') s.
Proof.
  intros Hq Hf. unfold finish. apply wp_bind.
  eapply (wp_mono _ (λ _ s1, quiet s1 ∧ vctx s1 = vctx s)).
  - apply wp_when; [intros _|by split]. apply wp_bind.
    eapply wp_mono; [by apply quiet_write|]. cbv beta. intros _ s1 [[Hd H1] H2].
    unfold hold_bearer. apply wp_bind, wp_read_stop; [by split|].
    unfold emit, modify, wp. cbn. split; [|done]. split; [done|]. by constructor.
  - cbv beta. intros _ s1 [H1 H2]. apply wp_bind. unfold wp at 1. wp_eval. rewrite H2, Hf.
    by apply wp_bind, wp_ret, wp_ret.
Qed.
End Dry.

(** ** Too many channels *)

(** With [--num-muxes 2147483647] the counter of the channels overflows: the loop of a dry run
    never ends, however much fuel it gets. *)
Lemma bind_counter_overflows fuel m : m ≤ INT_MAX → dry_loop fuel INT_MAX m = None.
Proof.
  revert m. induction fuel as [|fuel IH]; intros m Hm; [done|]. cbn [dry_loop].
  rewrite (proj2 (Z.ltb_ge _ _) Hm). unfold int_inc.
  destruct (Z.ltb_spec m INT_MAX); [|done]. cbn [mbind option_bind]. apply IH. lia.
Qed.

(** ** The properties *)



(** A dry run opens no socket, sends nothing and runs no command; it succeeds unless it
    is interrupted. *)
Theorem dry_run_silent `{Kernel} (ctx : vi_ctx) :
  dry_run ctx = true → num_muxes ctx < 2147483647 →
  ∃ rc s, run_main (start_state ctx) = Some (rc, s) ∧ (rc = 0 ∨ rc = 130) ∧
    Forall (λ e, match e with EMkdir _ | EWrite _ _ _ | EPause => True | _ => False end) (hist s).
Proof.
  intros Hd Hn. apply wp_elim. unfold run_main. apply wp_bind. unfold wp at 1. wp_eval.
  apply wp_bind. eapply wp_mono; [by apply quiet_write|]. cbv beta. intros _ s1 [Hq1 _].
  apply wp_bind. eapply wp_mono; [by apply quiet_write|]. cbv beta. intros _ s2 [Hq2 _].
  apply wp_bind. eapply wp_mono; [by apply quiet_write|]. cbv beta. intros _ s3 [Hq3 _].
  apply wp_bind. eapply wp_mono; [by apply quiet_write|]. cbv beta. intros _ s4 [Hq4 _].
  apply wp_bind. unfold wp at 1. wp_eval.
  eapply wp_mono; [by apply quiet_stages|]. cbv beta. intros rc s5 (Hrc & Hq5 & Hc5).
  eapply wp_mono; [apply quiet_finish; [done|by rewrite Hc5]|]. cbv beta.
  intros r s6 (-> & Hq6). split; [done|apply Hq6].
Qed.

(** C25: [stage_nas_rat] ends, for a clock as in C22: after its first poll it waits for LTE
    for at most 60 polls and one for each signal that cuts a sleep short. Its requests are, in
    order, the lookup, the first poll, the preference, the registration and the polls, with
    consecutive transaction ids, and it closes its socket. If it gets anywhere it succeeds,
    in one of two ways: as soon as an answer says LTE, the context unchanged; or, with no
    answer that says LTE, after at least a minute, and then it selects the short form of the
    start request, the only change it makes to the context. An answer says LTE if it reports
    success and has a tracking area code or names LTE among the interfaces. *)
Theorem nas_wait_ends `{Kernel} `{!ClockTicks} (s : vi_state) :
  ∃ rc s' c' rs gs n f port, stage_nas_rat s = Some (rc, s') ∧
    runs s c' (open_fds s) rs gs s' ∧ (n ≤ 60 + k_cuts)%nat ∧
    rs `prefix_of`
      [lookup_request f QRTR_SVC_NAS; serving_request f port 1;
       qmi_request f port 2 MSG_NAS_SET_SYS_SEL_PREF sys_sel_tlvs;
       qmi_request f port 3 MSG_NAS_INITIATE_NW_REGISTER register_tlvs] ++
      poll_requests n f port 4 ∧
    (c' = vctx s ∧ gs = [] ∧ (dry_run (vctx s) = true ∧ rc = 0 ∨ rc = 1) ∨
     c' = vctx s ∧ rc = 0 ∧
       (∃ gs' p, gs = gs' ++ [p] ∧ is_response MSG_NAS_GET_SERVING_SYSTEM p ∧
          serving_radio p = Some RADIO_IF_LTE ∧ Forall (λ p, ¬ says_lte p) gs') ∨
     c' = ctx_set_simple_wds true (vctx s) ∧ rc = 0 ∧ Forall (λ p, ¬ says_lte p) gs ∧
       k_clock (hist s) + 60 ≤ k_clock (hist s')).
Proof.
  destruct (wp_elim _ _ _ (nas_runs s))
    as (rc & s' & He & c' & rs & gs & n & (Hr & Hrc & f & port & Hp) & Hn & Hc).
  by exists rc, s', c', rs, gs, n, f, port.
Qed.

(** [stage_bind_mux] outside a dry run asks for the channels 1, 2, ... in order, each with
    its own transaction id and the low byte of the channel. It succeeds only by binding all
    [num_muxes] of them, each accepted by the modem (so that a count of zero or less binds
    nothing and succeeds); then the WDS port is known and the socket of the bearer is open.
    A socket that is open when it ends, in success or in failure, is in [ctx->fd]. The count
    is below 2147483647, where the counter of the channels would overflow. *)
Theorem bind_mux_binds_all `{Kernel} (s : vi_state) :
  dry_run (vctx s) = false → num_muxes (vctx s) < 2147483647 →
  ∃ rc s' c' L' rs gs, stage_bind_mux s = Some (rc, s') ∧ runs s c' L' rs gs s' ∧
    (∃ f port j, (j ≤ Z.to_nat (num_muxes (vctx s)))%nat ∧
       rs `prefix_of` lookup_request f QRTR_SVC_WDS :: bind_requests j f port 1 1) ∧
    (fd c' = fd (vctx s) ∧ L' = open_fds s ∨ 0 ≤ fd c' ∧ L' = fd c' :: open_fds s) ∧
    (rc = 0 → 0 ≤ fd c' ∧ wds_port c' ≠ 0 ∧ L' = fd c' :: open_fds s ∧
       rs = lookup_request (fd c') QRTR_SVC_WDS ::
            bind_requests (Z.to_nat (num_muxes (vctx s))) (fd c') (wds_port c') 1 1 ∧
       length gs = Z.to_nat (num_muxes (vctx s)) ∧ Forall (answered MSG_BIND_MUX 0) gs).
Proof.
  intros Hd Hn. destruct (wp_elim _ _ _ (bind_runs s Hn))
    as (rc & s' & He & c' & L' & rs & gs & Hr & _ & Hp & _ & _ & Hf & H0).
  exists rc, s', c', L', rs, gs. split_and!; [done..|]. intros Hrc. by apply H0.
Qed.

(** [stage_wds_start] sends, on the socket and to the port of the bearer, the first
    requests of this list: in the short form the start request with APN and IP family, in the
    full form the two precedents and the start request with its six TLVs, and then the query
    of the settings. Outside a dry run it succeeds exactly by sending them all, and then the
    modem accepted the start request. It opens no socket and changes only the transaction id
    and the parameters of the bearer. *)
Theorem wds_start_requests `{Kernel} (s : vi_state) :
  let c := vctx s in
  strlen (apn c) ≤ (if simple_wds c then 242 else 226) →
  ∃ rc s' c' rs gs script, stage_wds_start s = Some (rc, s') ∧
    runs s c' (open_fds s) rs gs s' ∧ same_bearer c c' ∧
    (let send t msg ts := qmi_request (fd c) (wds_port c) t msg ts in
     let t0 := txid c in let t1 := u16 (t0 + 1) in
     let t2 := u16 (t1 + 1) in let t3 := u16 (t2 + 1) in
     script =
       if simple_wds c then
         [send t0 0x0020 [(0x14, c_bytes (apn c)); (0x19, [4])];
          send t1 0x002D [(0x10, [0xff; 0xff; 0xff; 0xff])]]
       else
         [send t0 0x00AF [(0x01, [2; 0; 0; 0])]; send t1 0x004D [(0x01, [4])];
          send t2 0x0020 [(0x14, c_bytes (apn c)); (0x16, [0]); (0x19, [4]); (0x31, [5]);
                          (0x35, [1]); (0x39, [1])];
          send t3 0x002D [(0x10, [0xff; 0xff; 0xff; 0xff])]]) ∧
    rs `prefix_of` script ∧
    (rc = 0 ↔ dry_run c = true ∨ rs = script) ∧
    (rs = script → ∃ p, p ∈ gs ∧ answered 0x0020 0 p).
Proof.
  intros c Ha. destruct (wp_elim _ _ _ (wds_runs s Ha))
    as (rc & s' & He & c' & rs & gs & Hr & _ & Hc & Hp & H0 & Hg).
  exists rc, s', c', rs, gs, (wds_script c). by split_and!.
Qed.

(** In the short form, the stage that starts the bearer is defined exactly for an APN of
    at most 242 characters; a longer one is written past the end of the 256 bytes of [req].
    (65536 characters and more are cut by the 16-bit length of the TLV.) *)
Theorem apn_bound_exact `{Kernel} (s : vi_state) :
  let c := vctx s in
  dry_run c = false → wds_port c ≠ 0 → simple_wds c = true → strlen (apn c) < 65536 →
  stage_wds_start s = None ↔ 242 < strlen (apn c).
Proof.
  intros c Hd Hp Hs Hl. split.
  - intros Hn. destruct (Z.ltb_spec 242 (strlen (apn c))); [done|].
    assert (strlen (apn c) ≤ max_apn (simple_wds c)) as Ha by (by rewrite Hs).
    destruct (wp_elim _ _ _ (wds_runs s Ha)) as (rc & s' & He & _). congruence.
  - intros Hgt. unfold stage_wds_start. wp_eval. fold c. rewrite Hd, Hs.
    rewrite (proj2 (Z.eqb_neq _ _) Hp). unfold start_network.
    set (s1 := on_ctx (ctx_set_txid (u16 (txid c + 1))) s).
    rewrite (M_bind_Some next_txid _ s (txid c) s1) by done.
    rewrite (M_bind_Some get_vctx _ s1 (vctx s1) s1) by done.
    change (simple_wds (vctx s1)) with (simple_wds c). change (apn (vctx s1)) with (apn c).
    unfold mbind, M_bind, of_option. by rewrite Hs, start_request_overflow.
Qed.

(** [stage_dms_online] asks for the operating mode and sends SET_OPERATING_MODE=ONLINE
    exactly when the modem answered, with success, that it is in another mode (or named
    none); it sends nothing else, keeps the context and closes its socket. *)
Theorem dms_sets_online_when_needed `{Kernel} (s : vi_state) :
  ∃ rc s' rs gs f port, stage_dms_online s = Some (rc, s') ∧ 0 ≤ rc ≤ 3 ∧
    runs s (vctx s) (open_fds s) rs gs s' ∧
    rs `prefix_of`
      [lookup_request f QRTR_SVC_DMS; qmi_request f port 1 0x002D [];
       qmi_request f port 2 0x002E [(0x01, [0])]] ∧
    (length rs = 3%nat ↔
       ∃ p gs' us, gs = p :: gs' ∧ is_response 0x002D p ∧ message_tlvs p us ∧
                   result_code us = 0 ∧ mode_of us ≠ 0).
Proof.
  destruct (wp_elim _ _ _ (dms_runs s)) as (rc & s' & He & rs & gs & (Hr & Hrc & f & port & Hp) & Hi).
  exists rc, s', rs, gs, f, port. split_and!; [done|lia..|done|done|].
  rewrite Hi. split.
  - intros (p & gs' & -> & Ha & us & Hm). by exists p, gs', us.
  - intros (p & gs' & us & -> & Ha & Hm). exists p, gs'. split; [done|]. split; [done|]. by exists us.
Qed.

(** [stage_dpm_open] and [stage_wda_set] send, on a socket of their own that they close,
    one lookup and one request, byte for byte the one of the captured program (with the
    uplink protocol that the options choose); they succeed exactly when the modem answers
    with success, or in a dry run; they change only the port of the service. *)
Theorem one_shot_stages `{Kernel} (s : vi_state) :
  (∃ rc s' c' rs gs f port, stage_dpm_open s = Some (rc, s') ∧
     runs s c' (open_fds s) rs gs s' ∧
     (c' = vctx s ∨ ∃ p, c' = ctx_set_dpm_port p (vctx s)) ∧
     rs `prefix_of` [lookup_request f 0x2F; qmi_request f port 1 0x0020 dpm_tlvs] ∧
     (rc = 0 ↔ dry_run (vctx s) = true ∨ ∃ p, gs = [p] ∧ answered 0x0020 0 p)) ∧
  (∃ rc s' c' rs gs f port, stage_wda_set s = Some (rc, s') ∧
     runs s c' (open_fds s) rs gs s' ∧
     (c' = vctx s ∨ ∃ p, c' = ctx_set_wda_port p (vctx s)) ∧
     rs `prefix_of`
       [lookup_request f 0x1A; qmi_request f port 1 0x0020 (wda_tlvs (full_ul (vctx s)))] ∧
     (rc = 0 ↔ dry_run (vctx s) = true ∨ ∃ p, gs = [p] ∧ answered 0x0020 0 p)).
Proof.
  destruct (wp_elim _ _ _ (dpm_runs s))
    as (r1 & s1 & E1 & c1 & rs1 & gs1 & (Hr1 & _ & f1 & p1 & Hp1) & Hc1 & Hi1).
  destruct (wp_elim _ _ _ (wda_runs s))
    as (r2 & s2 & E2 & c2 & rs2 & gs2 & (Hr2 & _ & f2 & p2 & Hp2) & Hc2 & Hi2).
  split; [exists r1, s1, c1, rs1, gs1, f1, p1|exists r2, s2, c2, rs2, gs2, f2, p2]; done.
Qed.

(** The stages of configuration send their requests byte for byte, on a socket of their own
    that they close. [stage_dms_online] asks for the operating mode and sends
    SET_OPERATING_MODE=ONLINE exactly when the modem answered, with success, that it is in
    another mode (or named none). [stage_dpm_open] and [stage_wda_set] (with the uplink protocol
    that the options choose) send one request each and succeed exactly when the modem answers
    with success, or in a dry run; they change only the port of the service. *)
Theorem configuration_stages `{Kernel} (s : vi_state) :
  (∃ rc s' rs gs f port, stage_dms_online s = Some (rc, s') ∧ 0 ≤ rc ≤ 3 ∧
     runs s (vctx s) (open_fds s) rs gs s' ∧
     rs `prefix_of`
       [lookup_request f QRTR_SVC_DMS; qmi_request f port 1 0x002D [];
        qmi_request f port 2 0x002E [(0x01, [0])]] ∧
     (length rs = 3%nat ↔
        ∃ p gs' us, gs = p :: gs' ∧ is_response 0x002D p ∧ message_tlvs p us ∧
                    result_code us = 0 ∧ mode_of us ≠ 0)) ∧
  (∃ rc s' c' rs gs f port, stage_dpm_open s = Some (rc, s') ∧
     runs s c' (open_fds s) rs gs s' ∧
     (c' = vctx s ∨ ∃ p, c' = ctx_set_dpm_port p (vctx s)) ∧
     rs `prefix_of` [lookup_request f 0x2F; qmi_request f port 1 0x0020 dpm_tlvs] ∧
     (rc = 0 ↔ dry_run (vctx s) = true ∨ ∃ p, gs = [p] ∧ answered 0x0020 0 p)) ∧
  (∃ rc s' c' rs gs f port, stage_wda_set s = Some (rc, s') ∧
     runs s c' (open_fds s) rs gs s' ∧
     (c' = vctx s ∨ ∃ p, c' = ctx_set_wda_port p (vctx s)) ∧
     rs `prefix_of`
       [lookup_request f 0x1A; qmi_request f port 1 0x0020 (wda_tlvs (full_ul (vctx s)))] ∧
     (rc = 0 ↔ dry_run (vctx s) = true ∨ ∃ p, gs = [p] ∧ answered 0x0020 0 p)).
Proof. split; [apply dms_sets_online_when_needed|apply one_shot_stages]. Qed.

(** The settings of the bearer end up in the context exactly as the modem answered them,
    whatever the answer is; and the prefix that is computed from a mask is the number of its
    leading ones, at most 32, so that the loop ends. *)
Theorem settings_exact `{Kernel} (s : vi_state) :
  let c := ctx_set_txid (u16 (txid (vctx s) + 1)) (vctx s) in
  (∃ rc s', issue_get_settings s = Some (rc, s') ∧ open_fds s' = open_fds s ∧
     (rc = -1 ∧ vctx s' = c ∨
      rc = 0 ∧ ∃ p us, is_response MSG_GET_SETTINGS p ∧ message_tlvs p us ∧
        vctx s' = settings_ctx us c)) ∧
  ∀ mask, 0 ≤ mask < 2 ^ 32 → ∃ k, prefix_of_mask mask = Some k ∧ leading_ones mask k.
Proof.
  intros c. split; [|apply prefix_of_mask_spec].
  destruct (wp_elim _ _ _ (settings_runs s)) as (rc & s' & He & c' & gs & Hr & Hc).
  exists rc, s'. split_and!; [done|by destruct Hr|].
  rewrite (runs_ctx _ _ _ _ _ _ Hr).
  destruct Hc as [(-> & _ & ->)|(-> & p & us & _ & Hi & Hm & ->)]; [by left|right].
  split; [done|]. by exists p, us.
Qed.

(** The radio interface that [poll_serving_system] takes from an answer: none if the
    modem refused, LTE if the answer has a tracking area code, and otherwise LTE if it is one
    of the interfaces of TLV 0x01, else UMTS, else the first of them. For any bytes the
    answer is read inside its bounds. *)
Theorem radio_preference (p : list Z) :
  byte_list p →
  ∃ us r, message_tlvs p us ∧ serving_radio p = Some r ∧
    (result_code us ≠ 0 → r = RADIO_IF_NONE) ∧
    (result_code us = 0 → tlv_of 0x15 us ≠ None → r = RADIO_IF_LTE) ∧
    ∀ a b c d ifs rest, result_code us = 0 → tlv_of 0x15 us = None → ifs ≠ [] →
      tlv_of 1 us = Some ([a; b; c; d; Z.of_nat (length ifs)] ++ ifs ++ rest) →
      r = if bool_decide (RADIO_IF_LTE ∈ (i8 <$> ifs)) then RADIO_IF_LTE
          else if bool_decide (RADIO_IF_UMTS ∈ (i8 <$> ifs)) then RADIO_IF_UMTS
          else i8 (hd 0 ifs).
Proof.
  intros Hb. destruct (message_tlvs_exist p Hb) as [us Hm].
  destruct (serving_radio_spec p us Hm Hb) as (r & He & H1 & H2 & H3).
  exists us, r. split_and!; [done..|]. intros a b c d ifs rest Hrc H15 Hne Ht.
  rewrite (H3 _ _ _ _ _ _ Hrc H15 Hne Ht). unfold radio_pref.
  destruct (bool_decide_reflect (RADIO_IF_LTE ∈ (i8 <$> ifs))) as [|Hn]; [done|].
  destruct (Z.eqb_spec (i8 (hd 0 ifs)) RADIO_IF_LTE) as [Hl|Hl].
  - destruct ifs as [|x ifs]; [done|]. destruct Hn. rewrite <- Hl. by left.
  - by rewrite andb_true_r.
Qed.

(** ** Witnesses *)



(** A context with a bearer socket, and a process that holds it. *)
Definition bound_ctx (c : vi_ctx) : vi_ctx := ctx_set_bearer_socket 3 101 5 c.
Definition bound_state (c : vi_ctx) : vi_state := mkVi (bound_ctx c) ∅ true false [3] [].



Lemma dry_run_silent_witness :
  ∃ rc s, @run_main (demo_kernel true) (start_state (ctx_set_dry_run true demo_ctx)) = Some (rc, s) ∧
    (rc = 0 ∨ rc = 130) ∧
    Forall (λ e, match e with EMkdir _ | EWrite _ _ _ | EPause => True | _ => False end) (hist s).
Proof. exact (@dry_run_silent (demo_kernel true) (ctx_set_dry_run true demo_ctx) eq_refl eq_refl). Defined.

Lemma nas_wait_ends_witness :
  ∃ rc s', @stage_nas_rat (demo_kernel false) (start_state demo_ctx) = Some (rc, s') ∧
    open_fds s' = [].
Proof.
  destruct (@nas_wait_ends (demo_kernel false) (demo_ticks false) (start_state demo_ctx))
    as (rc & s' & c' & rs & gs & n & f & port & He & Hr & _).
  exists rc, s'. split; [exact He|exact (runs_fds _ _ _ _ _ _ Hr)].
Defined.

Lemma bind_mux_binds_all_witness :
  dry_run demo_ctx = false ∧
  ∃ rc s', @stage_bind_mux (demo_kernel true) (start_state demo_ctx) = Some (rc, s').
Proof.
  split; [reflexivity|].
  destruct (@bind_mux_binds_all (demo_kernel true) (start_state demo_ctx) eq_refl eq_refl)
    as (rc & s' & c' & L' & rs & gs & He & _). exists rc, s'. exact He.
Defined.

Lemma wds_start_requests_witness :
  ∃ rc s', @stage_wds_start (demo_kernel true) (bound_state demo_full_ctx) = Some (rc, s') ∧
           open_fds s' = [3].
Proof.
  destruct (@wds_start_requests (demo_kernel true) (bound_state demo_full_ctx)
    ltac:(vm_compute; discriminate)) as (rc & s' & c' & rs & gs & script & He & Hr & _).
  exists rc, s'. split; [exact He|]. exact (runs_fds _ _ _ _ _ _ Hr).
Defined.

Lemma apn_bound_exact_witness :
  strlen long_apn = 250 ∧ @stage_wds_start (demo_kernel true) (bound_state long_ctx) = None.
Proof.
  split; [reflexivity|].
  refine (proj2 (@apn_bound_exact (demo_kernel true) (bound_state long_ctx) eq_refl _ eq_refl _) _);
    [discriminate|reflexivity|reflexivity].
Defined.

(** GET_SERVING_SYSTEM with UMTS before LTE. *)
Definition serving_answer : list Z :=
  encode_msg QMI_FLAG_RESP 1 0x24 [(2, [0; 0; 0; 0]); (1, [1; 1; 1; 2; 2; 5; 8])].

Lemma serving_answer_bytes : byte_list serving_answer.
Proof. apply (bool_decide_unpack _). vm_compute. exact I. Qed.

Lemma radio_preference_witness :
  serving_radio serving_answer = Some RADIO_IF_LTE ∧
  ∃ us r, message_tlvs serving_answer us ∧ serving_radio serving_answer = Some r.
Proof.
  split; [reflexivity|].
  destruct (radio_preference serving_answer serving_answer_bytes) as (us & r & H1 & H2 & _).
  exists us, r. split; assumption.
Defined.
