(* ===== verification/MsmBus.v ===== *)
(** * Port: bus bandwidth votes

    [msm_bus_compat.c]: the votes of the vendor's bus scaling interface, passed on to the
    paths of the interconnect framework. Every operation runs under one mutex and is atomic.
    The arrays behind the pointers of a client's table are lists, and reading outside one is
    undefined. *)

From S2P Require Import Prelude.

Definition MSM_BUS_COMPAT_MAX_HANDLES : Z := 4.
Definition MSM_BUS_COMPAT_MAX_PATHS : Z := 6.

Definition MSM_BUS_MASTER_BAM_DMA : Z := 91.
Definition MSM_BUS_MASTER_IPA : Z := 90.
Definition MSM_BUS_SLAVE_EBI_CH0 : Z := 512.
Definition MSM_BUS_SLAVE_OCIMEM : Z := 513.

(** ** Data (linux/msm-bus.h) *)

Record msm_bus_vectors := mkVec { v_src : Z; v_dst : Z; v_ab : Z; v_ib : Z }.

(** [num_paths] is an [int]; [vectors] is the array behind the pointer. *)
Record msm_bus_paths := mkPaths { uc_num_paths : Z; uc_vectors : list msm_bus_vectors }.

(** [usecase] may be NULL. *)
Record msm_bus_scale_pdata := mkPdata {
  usecase : option (list msm_bus_paths);
  num_usecases : Z;
}.

(** The address of an [icc_path]. *)
Abbreviation icc_path := positive.

Record msm_bus_compat_path := mkPath { p_src : Z; p_dst : Z; p_path : option icc_path }.

Record msm_bus_compat_handle := mkHandle {
  h_pdata : option msm_bus_scale_pdata;
  h_paths : list msm_bus_compat_path;
  h_num_paths : Z;
  h_in_use : bool;
}.

(** [memset(h, 0, sizeof( *h))] *)
Definition zero_handle : msm_bus_compat_handle :=
  mkHandle None (replicate (Z.to_nat MSM_BUS_COMPAT_MAX_PATHS) (mkPath 0 0 None)) 0 false.

(** ** The interconnect framework

    [icc_get] is [devm_of_icc_get]: an error, or a pointer that is NULL when the device
    has no interconnects; [icc_set] is [icc_set_bw]. *)

Inductive icc_event :=
  | IccGet (name : string)
  | IccSetBw (path : icc_path) (avg peak : Z).

Class Interconnect := {
  icc_get : list icc_event → string → Z + option icc_path;
  icc_set : list icc_event → icc_path → Z → Z → Z;
}.

(** ** State: the device, the handles and the history, newest first *)

Record bus_state := mkBus {
  bus_dev : bool;
  bus_handles : list msm_bus_compat_handle;
  bus_hist : list icc_event;
}.

Definition bus_initial : bus_state :=
  mkBus false (replicate (Z.to_nat MSM_BUS_COMPAT_MAX_HANDLES) zero_handle) [].

Abbreviation BUS := (M bus_state).

Definition bus_event (e : icc_event) : BUS () :=
  modify (λ s, mkBus (bus_dev s) (bus_handles s) (e :: bus_hist s)).
Definition get_handle (slot : Z) : BUS msm_bus_compat_handle :=
  s ← get; of_option (lookup_z (bus_handles s) slot).
Definition put_handle (slot : Z) (h : msm_bus_compat_handle) : BUS () :=
  s ← get;
  l ← of_option (store_z (bus_handles s) slot h);
  put (mkBus (bus_dev s) l (bus_hist s)).

(** ** Helpers *)

Definition map_src_dst_to_icc_name (src dst : Z) : option string :=
  if (src =? MSM_BUS_MASTER_IPA) && (dst =? MSM_BUS_SLAVE_EBI_CH0) then Some "ipa-mem"
  else if (src =? MSM_BUS_MASTER_IPA) && (dst =? MSM_BUS_SLAVE_OCIMEM) then Some "ipa-imem"
  else if (src =? MSM_BUS_MASTER_BAM_DMA) && (dst =? MSM_BUS_SLAVE_EBI_CH0) then Some "ipa-mem"
  else if (src =? MSM_BUS_MASTER_BAM_DMA) && (dst =? MSM_BUS_SLAVE_OCIMEM) then Some "ipa-imem"
  else None.

(** The loop of [find_path] from [i] on: undefined outside the array, [Some None] for the
    result NULL. *)
Fixpoint find_path_loop (turns : nat) (h : msm_bus_compat_handle) (i src dst : Z) :
    option (option icc_path) :=
  match turns with
  | O => Some None
  | S turns' =>
      p ← lookup_z (h_paths h) i;
      if (p_src p =? src) && (p_dst p =? dst) then Some (p_path p)
      else find_path_loop turns' h (i + 1) src dst
  end.
Definition find_path (h : msm_bus_compat_handle) (src dst : Z) : option (option icc_path) :=
  find_path_loop (Z.to_nat (h_num_paths h)) h 0 src dst.

(** [(u32)DIV_ROUND_UP(bps, 1024)] on a [u64] *)
Definition bps_to_kbps (bps : Z) : Z := u32 (u64 (bps + 1023) / 1024).

(** ** The default table *)

Definition compat_init_vectors : list msm_bus_vectors :=
  [mkVec MSM_BUS_MASTER_IPA MSM_BUS_SLAVE_EBI_CH0 0 0;
   mkVec MSM_BUS_MASTER_IPA MSM_BUS_SLAVE_OCIMEM 0 0].
Definition compat_nominal_vectors : list msm_bus_vectors :=
  [mkVec MSM_BUS_MASTER_IPA MSM_BUS_SLAVE_EBI_CH0 100000000 1300000000;
   mkVec MSM_BUS_MASTER_IPA MSM_BUS_SLAVE_OCIMEM 100000000 1300000000].
Definition compat_usecases : list msm_bus_paths :=
  [mkPaths 2 compat_init_vectors; mkPaths 2 compat_nominal_vectors].
Definition compat_default_pdata : msm_bus_scale_pdata := mkPdata (Some compat_usecases) 2.
Definition msm_bus_cl_get_pdata : msm_bus_scale_pdata := compat_default_pdata.

(** ** Operations *)

Section Bus.
Context `{Interconnect}.

Definition msm_bus_compat_set_device : BUS () :=
  modify (λ s, mkBus true (bus_handles s) (bus_hist s)).

Definition devm_of_icc_get (name : string) : BUS (Z + option icc_path) :=
  s ← get; bus_event (IccGet name) ;; mret (icc_get (bus_hist s) name).

Definition icc_set_bw (path : option icc_path) (avg peak : Z) : BUS Z :=
  match path with
  | None => mret 0
  | Some p => s ← get; bus_event (IccSetBw p avg peak) ;; mret (icc_set (bus_hist s) p avg peak)
  end.

(** The first slot from [slot] on that is not in use. *)
Fixpoint free_slot (hs : list msm_bus_compat_handle) (slot : Z) : Z :=
  match hs with
  | [] => slot
  | h :: hs' => if h_in_use h then free_slot hs' (slot + 1) else slot
  end.

(** The loop over the vectors of the first usecase, on the handle it fills. *)
Fixpoint acquire_paths (turns : nat) (vs : list msm_bus_vectors) (i : Z)
    (h : msm_bus_compat_handle) : BUS msm_bus_compat_handle :=
  match turns with
  | O => mret h
  | S turns' =>
      v ← of_option (lookup_z vs i);
      match map_src_dst_to_icc_name (v_src v) (v_dst v) with
      | None => acquire_paths turns' vs (i + 1) h
      | Some name =>
          old ← of_option (find_path h (v_src v) (v_dst v));
          match old with
          | Some _ => acquire_paths turns' vs (i + 1) h
          | None =>
              if MSM_BUS_COMPAT_MAX_PATHS <=? h_num_paths h then mret h
              else
                p ← devm_of_icc_get name;
                match p with
                | inl _ => acquire_paths turns' vs (i + 1) h
                | inr path =>
                    ps ← of_option (store_z (h_paths h) (h_num_paths h)
                                      (mkPath (v_src v) (v_dst v) path));
                    acquire_paths turns' vs (i + 1)
                      (mkHandle (h_pdata h) ps (h_num_paths h + 1) (h_in_use h))
                end
          end
      end
  end.

(** The argument is NULL or a table. The handle is filled in place; it is stored after the
    loop, which nothing else can observe under the mutex. *)
Definition msm_bus_scale_register_client (pdata : option msm_bus_scale_pdata) : BUS Z :=
  match pdata with
  | None => mret 0
  | Some pd =>
      match usecase pd with
      | None => mret 0
      | Some ucs =>
          if num_usecases pd =? 0 then mret 0
          else
            s ← get;
            if negb (bus_dev s) then mret 0
            else
              let slot := free_slot (bus_handles s) 0 in
              if slot =? MSM_BUS_COMPAT_MAX_HANDLES then mret 0
              else
                uc ← of_option (lookup_z ucs 0);
                let h := mkHandle (Some pd) (h_paths zero_handle) 0 false in
                h ← acquire_paths (Z.to_nat (u32 (uc_num_paths uc))) (uc_vectors uc) 0 h;
                if h_num_paths h =? 0 then put_handle slot h ;; mret 0
                else
                  put_handle slot (mkHandle (h_pdata h) (h_paths h) (h_num_paths h) true) ;;
                  mret (slot + 1)
      end
  end.

(** [for (i = 0; i < h->num_paths; i++) (void)icc_set_bw(h->paths[i].path, 0, 0);] *)
Definition drop_votes (h : msm_bus_compat_handle) : BUS () :=
  for_loop (Z.to_nat (h_num_paths h)) 0 (λ i,
    p ← of_option (lookup_z (h_paths h) i);
    icc_set_bw (p_path p) 0 0 ;; mret ()).

Definition msm_bus_scale_unregister_client (cl : Z) : BUS () :=
  if (cl =? 0) || (MSM_BUS_COMPAT_MAX_HANDLES <? cl) then mret ()
  else
    h ← get_handle (cl - 1);
    when (h_in_use h)
      (drop_votes h ;; put_handle (cl - 1) (mkHandle None (h_paths h) 0 false)).

(** The loop over the vectors of a usecase; [ret] is the first error. *)
Fixpoint vote_loop (turns : nat) (h : msm_bus_compat_handle) (vs : list msm_bus_vectors)
    (i ret : Z) : BUS Z :=
  match turns with
  | O => mret ret
  | S turns' =>
      v ← of_option (lookup_z vs i);
      p ← of_option (find_path h (v_src v) (v_dst v));
      match p with
      | None => vote_loop turns' h vs (i + 1) ret
      | Some path =>
          rc ← icc_set_bw (Some path) (bps_to_kbps (v_ab v)) (bps_to_kbps (v_ib v));
          vote_loop turns' h vs (i + 1) (if negb (rc =? 0) && (ret =? 0) then rc else ret)
      end
  end.

Definition msm_bus_scale_client_update_request (cl index : Z) : BUS Z :=
  if (cl =? 0) || (MSM_BUS_COMPAT_MAX_HANDLES <? cl) then mret (- EINVAL)
  else
    h ← get_handle (cl - 1);
    match h_in_use h, h_pdata h with
    | true, Some pd =>
        if num_usecases pd <=? i32 index then mret (- EINVAL)
        else
          match usecase pd with
          | None => UB
          | Some ucs =>
              uc ← of_option (lookup_z ucs index);
              vote_loop (Z.to_nat (u32 (uc_num_paths uc))) h (uc_vectors uc) 0 0
          end
    | _, _ => mret (- EINVAL)
    end.

End Bus.
