(* ===== verification/MsmBusSpec.v ===== *)
(** * Port: bus bandwidth votes, the specification

    A specification of the vote layer without arrays, counters or slots' leftovers, and the
    lemmas that each operation of [MsmBus] implements it. *)

From S2P Require Import Prelude.
From S2P Require Import MsmBus.

(** ** Well-formed tables and states *)

(** What the callers pass: an array of [num_usecases] usecases of [num_paths] vectors. *)
Definition table_ok (pd : msm_bus_scale_pdata) : Prop :=
  ∃ ucs, usecase pd = Some ucs ∧ num_usecases pd = Z.of_nat (length ucs) ∧
    0 < num_usecases pd < 2 ^ 31 ∧
    (∀ uc, uc ∈ ucs → uc_num_paths uc = Z.of_nat (length (uc_vectors uc)) ∧
                      uc_num_paths uc < 2 ^ 31).

Definition handle_ok (h : msm_bus_compat_handle) : Prop :=
  Z.of_nat (length (h_paths h)) = MSM_BUS_COMPAT_MAX_PATHS ∧
  0 ≤ h_num_paths h ≤ MSM_BUS_COMPAT_MAX_PATHS ∧
  (h_in_use h = true → ∃ pd, h_pdata h = Some pd ∧ table_ok pd).

Definition bus_ok (s : bus_state) : Prop :=
  Z.of_nat (length (bus_handles s)) = MSM_BUS_COMPAT_MAX_HANDLES ∧
  (∀ h, h ∈ bus_handles s → handle_ok h).

(** ** Specification *)

Record client := mkClient {
  c_table : msm_bus_scale_pdata;
  c_paths : list msm_bus_compat_path;
}.

(** Whether a device is registered, the client of each of the four numbers, and the calls
    made to the interconnect framework, newest first. *)
Record registry := mkRegistry {
  r_dev : bool;
  r_clients : list (option client);
  r_hist : list icc_event;
}.

Inductive bus_op :=
  | SetDevice
  | Register (pd : msm_bus_scale_pdata)
  | Unregister (cl : Z)
  | Update (cl index : Z).

Definition op_ok (o : bus_op) : Prop :=
  match o with
  | SetDevice => True
  | Register pd => table_ok pd
  | Unregister cl => 0 ≤ cl < 2 ^ 32
  | Update cl index => 0 ≤ cl < 2 ^ 32 ∧ 0 ≤ index < 2 ^ 31
  end.

(** The path of the first entry for the pair. *)
Fixpoint path_for (ps : list msm_bus_compat_path) (src dst : Z) : option icc_path :=
  match ps with
  | [] => None
  | p :: ps' => if (p_src p =? src) && (p_dst p =? dst) then p_path p else path_for ps' src dst
  end.

(** The votes of a usecase: one per vector whose path was acquired, in order. *)
Definition usecase_votes (ps : list msm_bus_compat_path) (vs : list msm_bus_vectors) :
    list (icc_path * Z * Z) :=
  omap (λ v, (λ p, (p, bps_to_kbps (v_ab v), bps_to_kbps (v_ib v))) <$>
             path_for ps (v_src v) (v_dst v)) vs.

(** Dropping a client's votes: a zero vote on each of its paths. *)
Definition zero_votes (ps : list msm_bus_compat_path) : list (icc_path * Z * Z) :=
  omap (λ p, (λ q, (q, 0, 0)) <$> p_path p) ps.

Definition vote_event (v : icc_path * Z * Z) : icc_event := IccSetBw v.1.1 v.1.2 v.2.

Section Spec.
Context `{Interconnect}.

(** The result of casting votes in order: the first error. *)
Fixpoint cast_votes (hist : list icc_event) (votes : list (icc_path * Z * Z)) (ret : Z) : Z :=
  match votes with
  | [] => ret
  | v :: votes' =>
      let rc := icc_set hist v.1.1 v.1.2 v.2 in
      cast_votes (vote_event v :: hist) votes' (if ret =? 0 then rc else ret)
  end.

(** The paths for the vectors, and the history after asking for them. *)
Fixpoint paths_for (hist : list icc_event) (vs : list msm_bus_vectors)
    (ps : list msm_bus_compat_path) : list msm_bus_compat_path * list icc_event :=
  match vs with
  | [] => (ps, hist)
  | v :: vs' =>
      match map_src_dst_to_icc_name (v_src v) (v_dst v), path_for ps (v_src v) (v_dst v) with
      | Some name, None =>
          if MSM_BUS_COMPAT_MAX_PATHS <=? Z.of_nat (length ps) then (ps, hist)
          else match icc_get hist name with
               | inl _ => paths_for (IccGet name :: hist) vs' ps
               | inr p => paths_for (IccGet name :: hist) vs' (ps ++ [mkPath (v_src v) (v_dst v) p])
               end
      | _, _ => paths_for hist vs' ps
      end
  end.

Definition client_of (r : registry) (cl : Z) : option client :=
  if (cl =? 0) then None else mjoin (lookup_z (r_clients r) (cl - 1)).

Definition first_usecase (pd : msm_bus_scale_pdata) : list msm_bus_vectors :=
  match usecase pd with Some (uc :: _) => uc_vectors uc | _ => [] end.

Definition spec_step (o : bus_op) (r : registry) : Z * registry :=
  match o with
  | SetDevice => (0, mkRegistry true (r_clients r) (r_hist r))
  | Register pd =>
      match r_dev r, list_find (λ c, c = None) (r_clients r) with
      | true, Some (n, _) =>
          let '(ps, hist) := paths_for (r_hist r) (first_usecase pd) [] in
          match ps with
          | [] => (0, mkRegistry true (r_clients r) hist)
          | _ => (Z.of_nat n + 1,
                  mkRegistry true (<[n := Some (mkClient pd ps)]> (r_clients r)) hist)
          end
      | _, _ => (0, r)
      end
  | Unregister cl =>
      match client_of r cl with
      | None => (0, r)
      | Some c =>
          (0, mkRegistry (r_dev r) (<[Z.to_nat (cl - 1) := None]> (r_clients r))
                (reverse (vote_event <$> zero_votes (c_paths c)) ++ r_hist r))
      end
  | Update cl index =>
      match client_of r cl with
      | None => (- EINVAL, r)
      | Some c =>
          match uc ← usecase (c_table c); lookup_z uc index with
          | None => (- EINVAL, r)
          | Some uc =>
              let votes := usecase_votes (c_paths c) (uc_vectors uc) in
              (cast_votes (r_hist r) votes 0,
               mkRegistry (r_dev r) (r_clients r)
                 (reverse (vote_event <$> votes) ++ r_hist r))
          end
      end
  end.

Fixpoint spec_run (os : list bus_op) (r : registry) : list Z * registry :=
  match os with
  | [] => ([], r)
  | o :: os' =>
      let '(z, r1) := spec_step o r in
      let '(zs, r2) := spec_run os' r1 in (z :: zs, r2)
  end.

(** ** The code's operations and the abstraction *)

Definition bus_step (o : bus_op) : M bus_state Z :=
  match o with
  | SetDevice => msm_bus_compat_set_device ;; mret 0
  | Register pd => msm_bus_scale_register_client (Some pd)
  | Unregister cl => msm_bus_scale_unregister_client cl ;; mret 0
  | Update cl index => msm_bus_scale_client_update_request cl index
  end.

Fixpoint bus_run (os : list bus_op) : M bus_state (list Z) :=
  match os with
  | [] => mret []
  | o :: os' => z ← bus_step o; zs ← bus_run os'; mret (z :: zs)
  end.

Definition live_paths (h : msm_bus_compat_handle) : list msm_bus_compat_path :=
  take (Z.to_nat (h_num_paths h)) (h_paths h).

Definition abs_handle (h : msm_bus_compat_handle) : option client :=
  if h_in_use h then pd ← h_pdata h; Some (mkClient pd (live_paths h)) else None.

Definition abs (s : bus_state) : registry :=
  mkRegistry (bus_dev s) (abs_handle <$> bus_handles s) (bus_hist s).

End Spec.

(** ** The code's loops against the specification *)

Section Loops.
Context `{Interconnect}.

Definition with_hist (s : bus_state) (hist : list icc_event) : bus_state :=
  mkBus (bus_dev s) (bus_handles s) hist.

Lemma with_hist_id s : with_hist s (bus_hist s) = s.
Proof. by destruct s. Qed.

Lemma icc_set_bw_bind {B} p avg peak (f : Z → M bus_state B) s :
  (icc_set_bw (Some p) avg peak ≫= f) s =
  f (icc_set (bus_hist s) p avg peak) (with_hist s (IccSetBw p avg peak :: bus_hist s)).
Proof. done. Qed.

Lemma icc_get_bind {B} name (f : Z + option icc_path → M bus_state B) s :
  (devm_of_icc_get name ≫= f) s =
  f (icc_get (bus_hist s) name) (with_hist s (IccGet name :: bus_hist s)).
Proof. done. Qed.

Lemma find_path_loop_spec h src dst (n : nat) : ∀ i : nat,
  (i + n ≤ length (h_paths h))%nat →
  find_path_loop n h (Z.of_nat i) src dst =
  Some (path_for (take n (drop i (h_paths h))) src dst).
Proof.
  induction n as [|n IH]; intros i Hi; [done|]. cbn [find_path_loop].
  rewrite lookup_z_nat.
  destruct (lookup_lt_is_Some_2 (h_paths h) i) as [p Hp]; [lia|].
  rewrite Hp, (drop_S _ _ _ Hp). cbn [mbind option_bind take path_for].
  destruct (_ && _); [done|].
  replace (Z.of_nat i + 1) with (Z.of_nat (S i)) by lia. apply IH. lia.
Qed.

Lemma find_path_spec h src dst :
  handle_ok h → find_path h src dst = Some (path_for (live_paths h) src dst).
Proof.
  intros (Hl & Hn & _). unfold find_path, live_paths.
  apply (find_path_loop_spec h src dst _ 0). lia.
Qed.

Lemma lookup_z_drop {A} (l : list A) i x l' :
  drop i l = x :: l' → lookup_z l (Z.of_nat i) = Some x ∧ drop (S i) l = l'.
Proof.
  intros Hd. split.
  - rewrite lookup_z_nat, <- (Nat.add_0_r i), <- lookup_drop. by rewrite Hd.
  - replace (S i) with (i + 1)%nat by lia. by rewrite <- drop_drop, Hd.
Qed.

Lemma vote_loop_spec h vs : handle_ok h → ∀ rest (i : nat) ret s,
  drop i vs = rest →
  vote_loop (length rest) h vs (Z.of_nat i) ret s =
  Some (cast_votes (bus_hist s) (usecase_votes (live_paths h) rest) ret,
        with_hist s (reverse (vote_event <$> usecase_votes (live_paths h) rest) ++ bus_hist s)).
Proof.
  intros Hok. induction rest as [|v rest IH]; intros i ret s Hd.
  { cbn. by rewrite with_hist_id. }
  destruct (lookup_z_drop _ _ _ _ Hd) as [Hv Hd']. cbn [length vote_loop].
  rewrite (of_option_bind _ v) by done.
  rewrite (of_option_bind _ _ _ _ (find_path_spec h _ _ Hok)).
  replace (Z.of_nat i + 1) with (Z.of_nat (S i)) by lia.
  unfold usecase_votes. cbn [omap list_omap].
  destruct (path_for _ _ _) as [p|]; cbn [fmap option_fmap option_map].
  2: { by rewrite (IH (S i)). }
  rewrite icc_set_bw_bind, (IH (S i)) by done.
  cbn [bus_hist with_hist bus_dev bus_handles fmap list_fmap cast_votes fst snd].
  rewrite reverse_cons, <- app_assoc. do 2 f_equal. f_equal.
  destruct (Z.eqb_spec ret 0) as [->|]; [|by rewrite andb_false_r].
  by destruct (Z.eqb_spec (icc_set (bus_hist s) p (bps_to_kbps (v_ab v)) (bps_to_kbps (v_ib v))) 0) as [->|].
Qed.

Lemma drop_votes_loop h s (n : nat) : ∀ (i : nat) hist,
  (i + n ≤ length (h_paths h))%nat →
  for_loop n (Z.of_nat i) (λ i,
    p ← of_option (lookup_z (h_paths h) i);
    icc_set_bw (p_path p) 0 0 ;; mret ()) (with_hist s hist) =
  Some ((), with_hist s
    (reverse (vote_event <$> zero_votes (take n (drop i (h_paths h)))) ++ hist)).
Proof.
  induction n as [|n IH]; intros i hist Hi; [done|]. cbn [for_loop].
  destruct (lookup_lt_is_Some_2 (h_paths h) i) as [p Hp]; [lia|].
  rewrite (drop_S _ _ _ Hp). cbn [take].
  rewrite M_bind_Some with (a := ()) (s' := with_hist s
    (reverse (vote_event <$> zero_votes [p]) ++ hist)).
  2: { rewrite (of_option_bind _ p) by (by rewrite lookup_z_nat).
       unfold zero_votes. cbn [omap list_omap]. destruct (p_path p) as [q|]; reflexivity. }
  unfold zero_votes at 1. cbn [omap list_omap].
  replace (Z.of_nat i + 1) with (Z.of_nat (S i)) by lia.
  rewrite IH by lia. unfold zero_votes. cbn [omap list_omap].
  destruct (p_path p) as [q|]; [|done].
  cbn [fmap option_fmap option_map list_fmap]. by rewrite !reverse_cons, <- !app_assoc.
Qed.

Lemma drop_votes_spec h s :
  handle_ok h →
  drop_votes h s =
  Some ((), with_hist s (reverse (vote_event <$> zero_votes (live_paths h)) ++ bus_hist s)).
Proof.
  intros (Hl & Hn & _). unfold drop_votes, live_paths.
  rewrite <- (with_hist_id s) at 1. apply (drop_votes_loop h s _ 0). lia.
Qed.

Lemma free_slot_spec hs (i : nat) :
  free_slot hs (Z.of_nat i) =
  Z.of_nat i + match list_find (λ h, h_in_use h = false) hs with
               | Some (n, _) => Z.of_nat n | None => Z.of_nat (length hs) end.
Proof.
  revert i. induction hs as [|h hs IH]; intros i; cbn [free_slot list_find length]; [lia|].
  destruct (decide (h_in_use h = false)) as [Hu|Hu]; rewrite ?Hu; [lia|].
  apply not_false_is_true in Hu. rewrite Hu.
  replace (Z.of_nat i + 1) with (Z.of_nat (S i)) by lia. rewrite IH.
  destruct (list_find _ hs) as [[n ?]|]; cbn [fmap option_fmap option_map prod_map fst snd]; lia.
Qed.
End Loops.

(** ** The paths of a client *)

Section Acquire.
Context `{Interconnect}.

(** [h] holds the paths [ps] and whatever the caller's loop has not reached. *)
Definition holds (h : msm_bus_compat_handle) (ps : list msm_bus_compat_path) : Prop :=
  Z.of_nat (length (h_paths h)) = MSM_BUS_COMPAT_MAX_PATHS ∧
  0 ≤ h_num_paths h ≤ MSM_BUS_COMPAT_MAX_PATHS ∧
  h_num_paths h = Z.of_nat (length ps) ∧ live_paths h = ps.

Lemma holds_find h ps src dst :
  holds h ps → find_path h src dst = Some (path_for ps src dst).
Proof.
  intros (Hl & Hn & _ & <-). unfold find_path, live_paths.
  apply (find_path_loop_spec h src dst _ 0). lia.
Qed.

Lemma holds_add h ps p :
  holds h ps → h_num_paths h < MSM_BUS_COMPAT_MAX_PATHS →
  ∃ l, store_z (h_paths h) (h_num_paths h) p = Some l ∧
       holds (mkHandle (h_pdata h) l (h_num_paths h + 1) (h_in_use h)) (ps ++ [p]).
Proof.
  intros (Hl & Hn & Hc & Hp) Hlt.
  exists (<[length ps := p]> (h_paths h)). split.
  { rewrite Hc. apply store_z_nat. lia. }
  unfold holds, live_paths. cbn [h_paths h_num_paths]. rewrite length_insert, length_app.
  cbn [length]. repeat split; try lia.
  replace (Z.to_nat (h_num_paths h + 1)) with (S (length ps)) by lia.
  rewrite (take_S_r _ _ p) by (apply list_lookup_insert_eq; lia).
  rewrite take_insert_ge by lia. f_equal. rewrite <- Hp at 2. unfold live_paths.
  by rewrite Hc, Nat2Z.id.
Qed.

Lemma acquire_paths_spec vs : ∀ rest (i : nat) h ps s,
  drop i vs = rest → holds h ps →
  ∃ h', acquire_paths (length rest) vs (Z.of_nat i) h s =
          Some (h', with_hist s (paths_for (bus_hist s) rest ps).2) ∧
        holds h' (paths_for (bus_hist s) rest ps).1 ∧
        h_pdata h' = h_pdata h ∧ h_in_use h' = h_in_use h.
Proof.
  induction rest as [|v rest IH]; intros i h ps s Hd Hh.
  { exists h. cbn. by rewrite with_hist_id. }
  destruct (lookup_z_drop _ _ _ _ Hd) as [Hv Hd'].
  cbn [length acquire_paths paths_for]. rewrite (of_option_bind _ v) by done.
  replace (Z.of_nat i + 1) with (Z.of_nat (S i)) by lia.
  destruct (map_src_dst_to_icc_name _ _) as [name|]; [|by apply IH].
  rewrite (of_option_bind _ _ _ _ (holds_find h ps _ _ Hh)).
  destruct (path_for ps _ _) as [old|]; [by apply IH|].
  pose proof Hh as (_ & _ & -> & _).
  destruct (Z.leb_spec MSM_BUS_COMPAT_MAX_PATHS (Z.of_nat (length ps))) as [|Hlt].
  { exists h. by rewrite with_hist_id. }
  rewrite icc_get_bind. destruct (icc_get (bus_hist s) name) as [e|p].
  { by apply (IH (S i) h ps (with_hist s (IccGet name :: bus_hist s))). }
  destruct (holds_add h ps (mkPath (v_src v) (v_dst v) p) Hh) as (l & Hl & Hh').
  { destruct Hh as (_ & _ & -> & _). lia. }
  destruct Hh as (_ & _ & Hn & _). rewrite Hn in Hl, Hh'.
  rewrite (of_option_bind _ _ _ _ Hl).
  apply (IH (S i) _ _ (with_hist s (IccGet name :: bus_hist s)) Hd' Hh').
Qed.
End Acquire.

(** ** The operations against the specification *)

Section Refinement.
Context `{Interconnect}.

(** An operation from [s] does what the specification says and keeps the invariant. *)
Definition implements (o : bus_op) (s : bus_state) : Prop :=
  ∃ s', bus_step o s = Some ((spec_step o (abs s)).1, s') ∧
        abs s' = (spec_step o (abs s)).2 ∧ bus_ok s'.

Lemma bus_ok_hist s hist : bus_ok s → bus_ok (with_hist s hist).
Proof. done. Qed.

Lemma bus_ok_insert s (n : nat) h d hist :
  bus_ok s → handle_ok h → bus_ok (mkBus d (<[n := h]> (bus_handles s)) hist).
Proof.
  intros [Hl Hf] Hh. split; cbn [bus_handles]; [by rewrite length_insert|].
  intros h' [i Hi]%list_elem_of_lookup. apply list_lookup_insert_Some in Hi as [(_ & <- & _)|[_ Hi]];
    [done|]. by eapply Hf, list_elem_of_lookup_2.
Qed.

Lemma put_handle_spec s (n : nat) h :
  (n < length (bus_handles s))%nat →
  put_handle (Z.of_nat n) h s =
  Some ((), mkBus (bus_dev s) (<[n := h]> (bus_handles s)) (bus_hist s)).
Proof.
  intros Hn. unfold put_handle. rewrite get_bind.
  by rewrite (of_option_bind _ _ _ _ (store_z_nat _ _ h Hn)).
Qed.

Lemma get_handle_spec s (n : nat) h :
  bus_handles s !! n = Some h → get_handle (Z.of_nat n) s = Some (h, s).
Proof. intros Hh. unfold get_handle. rewrite get_bind. by rewrite lookup_z_nat, Hh. Qed.

(** A client number is 0, out of the table, or the number of a handle. *)
Lemma client_cases s cl :
  bus_ok s → 0 ≤ cl < 2 ^ 32 →
  ((cl =? 0) || (MSM_BUS_COMPAT_MAX_HANDLES <? cl) = true ∧ client_of (abs s) cl = None) ∨
  (∃ n h, cl = Z.of_nat n + 1 ∧ (cl =? 0) || (MSM_BUS_COMPAT_MAX_HANDLES <? cl) = false ∧
     bus_handles s !! n = Some h ∧ handle_ok h ∧ client_of (abs s) cl = abs_handle h).
Proof.
  intros [Hl Hf] Hcl. unfold client_of. destruct (Z.eqb_spec cl 0) as [->|Hne]; [by left|].
  destruct (Z.ltb_spec MSM_BUS_COMPAT_MAX_HANDLES cl) as [Hlt|Hle]; cbn [orb].
  - left. split; [done|]. replace (cl - 1) with (Z.of_nat (Z.to_nat (cl - 1))) by lia.
    rewrite lookup_z_nat. cbn [abs r_clients]. rewrite list_lookup_fmap, lookup_ge_None_2; [done|lia].
  - right. exists (Z.to_nat (cl - 1)).
    destruct (lookup_lt_is_Some_2 (bus_handles s) (Z.to_nat (cl - 1))) as [h Hh]; [lia|].
    exists h. split_and!; [lia|done|done|by eapply Hf, list_elem_of_lookup_2|].
    replace (cl - 1) with (Z.of_nat (Z.to_nat (cl - 1))) by lia.
    rewrite lookup_z_nat. cbn [abs r_clients]. rewrite list_lookup_fmap.
    by rewrite Hh.
Qed.

Lemma unregister_implements cl s : bus_ok s → 0 ≤ cl < 2 ^ 32 → implements (Unregister cl) s.
Proof.
  intros Hok Hcl. unfold implements. cbn [bus_step spec_step].
  unfold msm_bus_scale_unregister_client.
  destruct (client_cases s cl Hok Hcl) as [[-> ->]|(n & h & -> & -> & Hh & Hhok & ->)].
  { by exists s. }
  replace (Z.of_nat n + 1 - 1) with (Z.of_nat n) by lia.
  rewrite (M_bind_Some _ _ s () (if h_in_use h then
    mkBus (bus_dev s) (<[n := mkHandle None (h_paths h) 0 false]> (bus_handles s))
      (reverse (vote_event <$> zero_votes (live_paths h)) ++ bus_hist s) else s)).
  2: { rewrite (M_bind_Some _ _ _ _ _ (get_handle_spec s n h Hh)).
       destruct (h_in_use h); [|done]. cbn [when].
       rewrite (M_bind_Some _ _ _ _ _ (drop_votes_spec h s Hhok)).
       by rewrite put_handle_spec by (by eapply lookup_lt_Some). }
  unfold abs_handle. destruct (h_in_use h) eqn:Hu; [|by exists s].
  pose proof Hhok as (Hl & _ & (pd & Hpd & _)%(λ f, f Hu)). rewrite Hpd.
  eexists. split; [done|]. cbn [mbind option_bind fst snd c_paths]. split.
  - unfold abs at 1. cbn [bus_handles bus_dev bus_hist]. rewrite list_fmap_insert.
    by rewrite Nat2Z.id.
  - apply bus_ok_insert; [done|]. repeat split; cbn; done.
Qed.

Lemma table_lookup pd ucs index :
  table_ok pd → usecase pd = Some ucs → 0 ≤ index < 2 ^ 31 →
  (num_usecases pd <=? i32 index) = bool_decide (lookup_z ucs index = None).
Proof.
  intros (ucs' & Hu & Hn & Hr & _) Hu' Hi. rewrite Hu in Hu'. injection Hu' as ->.
  assert (i32 index = index) as -> by (unfold i32; rewrite Z.mod_small; lia).
  apply eq_bool_prop_intro. rewrite bool_decide_spec, Is_true_true, Z.leb_le.
  replace index with (Z.of_nat (Z.to_nat index)) by lia.
  rewrite lookup_z_nat, lookup_ge_None. lia.
Qed.

Lemma update_implements cl index s :
  bus_ok s → op_ok (Update cl index) → implements (Update cl index) s.
Proof.
  intros Hok [Hcl Hi]. unfold implements. cbn [bus_step spec_step].
  unfold msm_bus_scale_client_update_request.
  destruct (client_cases s cl Hok Hcl) as [[-> ->]|(n & h & -> & -> & Hh & Hhok & ->)].
  { by exists s. }
  replace (Z.of_nat n + 1 - 1) with (Z.of_nat n) by lia.
  rewrite (M_bind_Some _ _ _ _ _ (get_handle_spec s n h Hh)).
  unfold abs_handle. destruct (h_in_use h) eqn:Hu; [|by exists s].
  pose proof Hhok as (_ & _ & (pd & Hpd & Htab)%(λ f, f Hu)). rewrite Hpd.
  cbn [mbind option_bind c_table c_paths]. pose proof Htab as (ucs & Hucs & _ & _ & Hvec).
  rewrite (table_lookup pd ucs index) by done. rewrite Hucs. cbn [mbind option_bind].
  destruct (lookup_z ucs index) as [uc|] eqn:Huc.
  2: { rewrite bool_decide_eq_true_2 by done. by exists s. }
  rewrite bool_decide_eq_false_2 by done.
  rewrite (of_option_bind _ uc) by done.
  assert (uc ∈ ucs) as [Hnum Hlt]%Hvec.
  { unfold lookup_z in Huc. destruct (0 <=? index); [|done]. by eapply list_elem_of_lookup_2. }
  rewrite u32_small, Hnum, Nat2Z.id by lia.
  rewrite (vote_loop_spec h (uc_vectors uc) Hhok (uc_vectors uc) 0) by done.
  eexists. split; [done|]. split; [done|]. by apply bus_ok_hist.
Qed.

Lemma holds_zero pd d : holds (mkHandle pd (h_paths zero_handle) 0 d) [].
Proof. by repeat split. Qed.

Lemma holds_ok h ps pd b :
  holds h ps → h_pdata h = Some pd → table_ok pd →
  handle_ok (mkHandle (h_pdata h) (h_paths h) (h_num_paths h) b).
Proof. intros (Hl & Hn & _) Hpd Ht. split_and!; cbn; [done|lia|lia|]. intros _. by exists pd. Qed.

Lemma find_free hs :
  (∀ h, h ∈ hs → handle_ok h) →
  list_find ((λ c, c = None) ∘ abs_handle) hs = list_find (λ h, h_in_use h = false) hs.
Proof.
  induction hs as [|h hs IH]; intros Hf; [done|]. cbn [list_find]. rewrite IH.
  2: { intros h' Hin. apply Hf. by right. }
  destruct (Hf h) as (_ & _ & Hu); [by left|]. unfold compose, abs_handle.
  apply decide_ext. destruct (h_in_use h); [|done]. by destruct Hu as (pd & -> & _).
Qed.

Lemma free_slot_abs s :
  bus_ok s →
  match list_find (λ c, c = None) (r_clients (abs s)) with
  | Some (n, _) => free_slot (bus_handles s) 0 = Z.of_nat n ∧ (n < length (bus_handles s))%nat ∧
                   abs_handle <$> bus_handles s !! n = Some None
  | None => free_slot (bus_handles s) 0 = MSM_BUS_COMPAT_MAX_HANDLES
  end.
Proof.
  intros [Hl Hf]. change 0 with (Z.of_nat 0). rewrite free_slot_spec, Z.add_0_l. cbn [abs r_clients].
  rewrite list_find_fmap, (find_free _ Hf).
  destruct (list_find _ _) as [[n h]|] eqn:Hfind; cbn; [|done].
  apply list_find_Some in Hfind as (Hh & Hu & _). split_and!; [done| |].
  - by eapply lookup_lt_Some.
  - rewrite Hh. cbn. unfold abs_handle. by rewrite Hu.
Qed.

Lemma register_implements pd s : bus_ok s → table_ok pd → implements (Register pd) s.
Proof.
  intros Hok Ht. unfold implements. cbn [bus_step spec_step].
  unfold msm_bus_scale_register_client.
  pose proof Ht as (ucs & Hucs & Hn & Hr & Hvec). rewrite Hucs.
  rewrite (proj2 (Z.eqb_neq (num_usecases pd) 0)) by lia. rewrite get_bind.
  cbn [abs r_dev]. destruct (bus_dev s) eqn:Hd; cbn [negb]; [|by exists s].
  pose proof (free_slot_abs s Hok) as Hslot.
  destruct (list_find _ (r_clients (abs s))) as [[n c]|] eqn:Hfind;
    cbn [fst snd].
  2: { rewrite Hslot. by exists s. }
  destruct Hslot as (-> & Hlt & Hnone). pose proof Hok as [Hlen _].
  rewrite (proj2 (Z.eqb_neq (Z.of_nat n) _)) by lia.
  destruct ucs as [|uc ucs]; [cbn in Hn; lia|].
  rewrite (of_option_bind _ uc) by done.
  destruct (Hvec uc) as [Hnum Hlt']; [by left|]. rewrite u32_small, Hnum, Nat2Z.id by lia.
  unfold first_usecase. rewrite Hucs.
  destruct (acquire_paths_spec (uc_vectors uc) (uc_vectors uc) 0 _ [] s eq_refl (holds_zero (Some pd) false))
    as (h & Hrun & Hh & Hpd & Hu).
  rewrite (M_bind_Some _ _ _ _ _ Hrun). change (r_hist (abs s)) with (bus_hist s).
  destruct (paths_for (bus_hist s) (uc_vectors uc) []) as [ps hist]. cbn [fst snd] in *.
  pose proof Hh as (Hl & Hb & Hcount & Hlive). cbn [h_pdata h_in_use] in Hpd, Hu.
  assert (∀ b, handle_ok (mkHandle (h_pdata h) (h_paths h) (h_num_paths h) b)) as Hhok.
  { intros b. by apply (holds_ok h ps pd). }
  rewrite Hcount. destruct ps as [|p ps].
  - change (Z.of_nat (length []) =? 0) with true. cbv iota.
    rewrite (M_bind_Some _ _ _ _ _ (put_handle_spec (with_hist s hist) n h Hlt)).
    eexists. split; [done|]. cbn [fst snd with_hist bus_dev bus_handles bus_hist]. split.
    + unfold abs. cbn [bus_dev bus_handles bus_hist]. rewrite Hd, list_fmap_insert. f_equal.
      cbn [r_clients].
      apply list_insert_id. rewrite list_lookup_fmap, Hnone. unfold abs_handle. by rewrite Hu.
    + apply bus_ok_insert; [done|]. destruct h; cbn in Hu; subst. apply Hhok.
  - cbn [length]. rewrite (proj2 (Z.eqb_neq (Z.of_nat (S (length ps))) 0)) by lia.
    rewrite (M_bind_Some _ _ _ _ _ (put_handle_spec (with_hist s hist) n _ Hlt)).
    eexists. split; [done|]. cbn [fst snd with_hist bus_dev bus_handles bus_hist]. split.
    + unfold abs. cbn [bus_dev bus_handles bus_hist]. rewrite Hd, list_fmap_insert. f_equal.
      f_equal. unfold abs_handle. cbn [h_in_use h_pdata]. rewrite Hpd. cbn. f_equal.
      rewrite <- Hlive. unfold live_paths. cbn [h_num_paths h_paths]. by rewrite Hcount.
    + apply bus_ok_insert; [done|]. specialize (Hhok true). by rewrite Hcount in Hhok.
Qed.

Lemma step_implements o s : bus_ok s → op_ok o → implements o s.
Proof.
  intros Hok Ho. destruct o; [|by apply register_implements|
    by apply unregister_implements|by apply update_implements].
  eexists. by split.
Qed.
End Refinement.
