(* ===== verification/MsmBusProps.v ===== *)
(** * Port: bus bandwidth votes, properties

    The operations in sequence against their specification, the units and the order of the
    votes, and the paths a client acquires. *)

From S2P Require Import Prelude.
From S2P Require Import MsmBus.
From S2P Require Import MsmBusSpec.

(** ** Properties *)

Section Props.
Context `{Interconnect}.

Lemma run_implements os : ∀ s,
  bus_ok s → Forall op_ok os →
  ∃ s', bus_run os s = Some ((spec_run os (abs s)).1, s') ∧
        abs s' = (spec_run os (abs s)).2 ∧ bus_ok s'.
Proof.
  induction os as [|o os IH]; intros s Hok Hos; [by exists s|].
  apply Forall_cons_iff in Hos as [Ho Hos]. cbn [bus_run spec_run].
  destruct (step_implements o s Hok Ho) as (s1 & Hrun & Habs & Hok1).
  rewrite (M_bind_Some _ _ _ _ _ Hrun).
  destruct (spec_step o (abs s)) as [z r1]. cbn [fst snd] in *. subst r1.
  destruct (IH s1 Hok1 Hos) as (s2 & Hrun2 & Habs2 & Hok2).
  rewrite (M_bind_Some _ _ _ _ _ Hrun2). destruct (spec_run os (abs s1)) as [zs r2].
  by exists s2.
Qed.

(** C31: The vote layer implements the registry: any sequence of calls, with tables as the
    driver builds them and usecase indexes below 2^31, is defined from the initial state
    (no array is read out of its bounds and no NULL table is used), returns call by call what
    the registry returns, makes the same calls to the interconnect framework in the same
    order, and ends in a state that stands for the registry's. *)
Theorem bus_refines os :
  Forall op_ok os →
  ∃ s', bus_run os bus_initial = Some ((spec_run os (abs bus_initial)).1, s') ∧
        abs s' = (spec_run os (abs bus_initial)).2 ∧ bus_ok s'.
Proof.
  intros Hos. apply run_implements; [|done]. split; [done|].
  intros h Hh%elem_of_replicate. destruct Hh as [-> _]. by repeat split.
Qed.

Lemma kbps_bounds b :
  0 ≤ b ≤ 1024 * (2 ^ 32 - 1) →
  0 ≤ bps_to_kbps b ∧ 1024 * (bps_to_kbps b - 1) < b ≤ 1024 * bps_to_kbps b.
Proof.
  intros Hb. unfold bps_to_kbps, u64. rewrite Z.mod_small by lia.
  rewrite u32_small; [|split; [apply Z.div_pos; lia|apply Z.div_lt_upper_bound; lia]].
  pose proof (Z.div_mod (b + 1023) 1024). pose proof (Z.mod_pos_bound (b + 1023) 1024).
  split; [apply Z.div_pos; lia|lia].
Qed.

(** The event is the vote for a vector: on the path of its pair, the least numbers of KB/s
    that cover the demanded numbers of B/s. *)
Definition vote_for (ps : list msm_bus_compat_path) (v : msm_bus_vectors) (e : icc_event) : Prop :=
  ∃ p k l, e = IccSetBw p k l ∧ path_for ps (v_src v) (v_dst v) = Some p ∧
    0 ≤ k ∧ 1024 * (k - 1) < v_ab v ≤ 1024 * k ∧ 0 ≤ l ∧ 1024 * (l - 1) < v_ib v ≤ 1024 * l.

Definition demand_ok (v : msm_bus_vectors) : Prop :=
  0 ≤ v_ab v ≤ 1024 * (2 ^ 32 - 1) ∧ 0 ≤ v_ib v ≤ 1024 * (2 ^ 32 - 1).

Lemma usecase_votes_for ps vs :
  Forall demand_ok vs →
  Forall2 (vote_for ps) (filter (λ v, is_Some (path_for ps (v_src v) (v_dst v))) vs)
    (vote_event <$> usecase_votes ps vs).
Proof.
  induction vs as [|v vs IH]; intros Hd; [constructor|].
  apply Forall_cons_iff in Hd as [[Ha Hi] Hd]. specialize (IH Hd).
  unfold usecase_votes. cbn [omap list_omap]. destruct (path_for ps _ _) as [p|] eqn:Hp.
  - rewrite filter_cons_True by (by rewrite Hp). cbn. constructor; [|apply IH].
    do 3 eexists. split; [done|]. split; [done|].
    pose proof (kbps_bounds _ Ha). pose proof (kbps_bounds _ Hi). tauto.
  - rewrite filter_cons_False by (rewrite Hp; by intros []). apply IH.
Qed.

(** A vote covers its demand: for a registered client and a usecase of its table with
    demands a [u32] of KB/s can express, [msm_bus_scale_client_update_request] casts, in the
    order of the usecase, exactly one vote for every vector whose path was acquired, with the
    demand rounded up to the least sufficient number of KB/s (0 only for a demand of 0);
    its result is the first error; no handle changes. *)
Theorem votes_cover_demand s cl index c uc :
  bus_ok s → 0 ≤ cl < 2 ^ 32 → 0 ≤ index < 2 ^ 31 →
  client_of (abs s) cl = Some c →
  (ucs ← usecase (c_table c); lookup_z ucs index) = Some uc →
  Forall demand_ok (uc_vectors uc) →
  ∃ ret events s', msm_bus_scale_client_update_request cl index s = Some (ret, s') ∧
    bus_hist s' = reverse events ++ bus_hist s ∧
    Forall2 (vote_for (c_paths c))
      (filter (λ v, is_Some (path_for (c_paths c) (v_src v) (v_dst v))) (uc_vectors uc)) events ∧
    ret = cast_votes (bus_hist s) (usecase_votes (c_paths c) (uc_vectors uc)) 0 ∧
    r_clients (abs s') = r_clients (abs s).
Proof.
  intros Hok Hcl Hi Hc Huc Hd.
  destruct (update_implements cl index s Hok (conj Hcl Hi)) as (s' & Hrun & Habs & _).
  cbn [bus_step spec_step] in Hrun, Habs. rewrite Hc, Huc in Hrun, Habs. cbn [fst snd] in *.
  do 3 eexists. split; [exact Hrun|]. split; [exact (f_equal r_hist Habs)|].
  split; [by apply usecase_votes_for|]. split; [done|]. exact (f_equal r_clients Habs).
Qed.

(** The paths of a client: at most six, one per pair, each of a mapped pair of the vectors. *)
Definition paths_ok (vs : list msm_bus_vectors) (ps : list msm_bus_compat_path) : Prop :=
  Z.of_nat (length ps) ≤ MSM_BUS_COMPAT_MAX_PATHS ∧
  NoDup ((λ p, (p_src p, p_dst p)) <$> ps) ∧
  (∀ p, p ∈ ps → is_Some (p_path p) ∧ is_Some (map_src_dst_to_icc_name (p_src p) (p_dst p)) ∧
     ∃ v, v ∈ vs ∧ v_src v = p_src p ∧ v_dst v = p_dst p).

Lemma path_for_None ps src dst :
  (∀ p, p ∈ ps → is_Some (p_path p)) → path_for ps src dst = None →
  (src, dst) ∉ ((λ p, (p_src p, p_dst p)) <$> ps).
Proof.
  intros Hs Hp Hin. apply list_elem_of_fmap in Hin as (p & [= -> ->] & Hin).
  induction ps as [|q ps IH]; [by apply elem_of_nil in Hin|]. cbn [path_for] in Hp.
  destruct (_ && _) eqn:Hq.
  - destruct (Hs q) as [? Hqp]; [by left|]. by rewrite Hqp in Hp.
  - apply elem_of_cons in Hin as [->|Hin]; [by rewrite !Z.eqb_refl in Hq|].
    apply IH; [|done|done]. intros q' Hq'. apply Hs. by right.
Qed.

Lemma paths_for_ok (vs0 vs : list msm_bus_vectors) :
  (∀ hist name p, icc_get hist name = inr p → is_Some p) →
  (∀ v, v ∈ vs → v ∈ vs0) → ∀ ps hist,
  paths_ok vs0 ps → paths_ok vs0 (paths_for hist vs ps).1.
Proof.
  intros Hget. induction vs as [|v vs IH]; intros Hin ps hist Hps; [done|]. cbn [paths_for].
  assert (∀ v, v ∈ vs → v ∈ vs0) as Hin' by (intros; apply Hin; by right).
  destruct (map_src_dst_to_icc_name _ _) as [name|] eqn:Hname; [|by apply IH].
  destruct (path_for ps _ _) eqn:Hp; [by apply IH|].
  destruct (Z.leb_spec MSM_BUS_COMPAT_MAX_PATHS (Z.of_nat (length ps))) as [|Hlt]; [done|].
  destruct (icc_get hist name) as [e|p] eqn:Hg; [by apply IH|].
  apply IH; [done|]. destruct Hps as (Hl & Hnd & Hall). split; [|split].
  - rewrite length_app. cbn [length]. lia.
  - rewrite fmap_app. apply list.NoDup_app. split; [done|]. split; [|apply NoDup_singleton].
    intros x Hx ->%list_elem_of_singleton. revert Hx. apply path_for_None; [|done].
    intros q Hq. by apply Hall.
  - intros q [Hq| ->%list_elem_of_singleton]%elem_of_app; [by apply Hall|]. cbn.
    split; [by eapply Hget|]. rewrite Hname. split; [done|]. exists v. split; [|done].
    apply Hin. by left.
Qed.

(** Registration acquires each path once: when the framework gives no NULL path,
    a successful [msm_bus_scale_register_client] returns the number of a free handle, which
    now belongs to the table with at most six paths, one per (source, destination) pair and
    only for mapped pairs of the first usecase; no other client changes. *)
Theorem registration_exact s pd cl s' :
  (∀ hist name p, icc_get hist name = inr p → is_Some p) →
  bus_ok s → table_ok pd →
  msm_bus_scale_register_client (Some pd) s = Some (cl, s') → cl ≠ 0 →
  1 ≤ cl ≤ MSM_BUS_COMPAT_MAX_HANDLES ∧ client_of (abs s) cl = None ∧
  ∃ ps, ps ≠ [] ∧ paths_ok (first_usecase pd) ps ∧
    r_clients (abs s') = <[Z.to_nat (cl - 1) := Some (mkClient pd ps)]> (r_clients (abs s)).
Proof.
  intros Hget Hok Ht Hrun Hcl.
  destruct (register_implements pd s Hok Ht) as (s1 & Hrun1 & Habs & _).
  cbn [bus_step] in Hrun1.
  assert (cl = (spec_step (Register pd) (abs s)).1 ∧ s' = s1) as [Hz ->] by (split; congruence).
  rewrite Habs. clear Habs Hrun Hrun1. revert Hz. cbn [spec_step].
  destruct (r_dev (abs s)); [|done].
  destruct (list_find _ _) as [[n oc]|] eqn:Hfind; [|done].
  apply list_find_Some in Hfind as (Hn & Hfree & _). cbn in Hfree. subst oc.
  destruct (paths_for _ _ _) as [ps hist] eqn:Hps. destruct ps as [|p ps]; cbn [fst snd]; [done|].
  intros ->. destruct Hok as [Hlen _].
  assert (n < length (bus_handles s))%nat as Hlt.
  { apply lookup_lt_Some in Hn. cbn [abs r_clients] in Hn. by rewrite length_fmap in Hn. }
  replace (Z.of_nat n + 1 - 1) with (Z.of_nat n) by lia. rewrite Nat2Z.id.
  split; [lia|]. split.
  { unfold client_of. rewrite (proj2 (Z.eqb_neq _ 0)) by lia.
    replace (Z.of_nat n + 1 - 1) with (Z.of_nat n) by lia. by rewrite lookup_z_nat, Hn. }
  exists (p :: ps). split; [done|]. split; [|done].
  pose proof (paths_for_ok (first_usecase pd) (first_usecase pd) Hget (λ v Hv, Hv) [] (r_hist (abs s)))
    as Hp. rewrite Hps in Hp. apply Hp. split; [done|]. split; [apply NoDup_nil_2|].
  intros q []%not_elem_of_nil.
Qed.

(** The index of an update is converted to [int] before it is compared: 2^31 and more pass
    the test and the table is read out of its bounds. *)
Lemma update_index_wraps s cl index c :
  bus_ok s → 0 ≤ cl < 2 ^ 32 → 2 ^ 31 ≤ index < 2 ^ 32 →
  client_of (abs s) cl = Some c →
  msm_bus_scale_client_update_request cl index s = None.
Proof.
  intros Hok Hcl Hi Hc. unfold msm_bus_scale_client_update_request.
  destruct (client_cases s cl Hok Hcl) as [[_ Hno]|(n & h & -> & -> & Hh & Hhok & Heq)].
  { by rewrite Hc in Hno. }
  replace (Z.of_nat n + 1 - 1) with (Z.of_nat n) by lia.
  rewrite (M_bind_Some _ _ _ _ _ (get_handle_spec s n h Hh)).
  rewrite Hc in Heq. unfold abs_handle in Heq. destruct (h_in_use h) eqn:Hu; [|done].
  pose proof Hhok as (_ & _ & (pd & Hpd & ucs & Hucs & Hn & Hr & _)%(λ f, f Hu)).
  rewrite Hpd, Hucs.
  assert (i32 index = index - 2 ^ 32) as ->.
  { unfold i32. rewrite <- (Z.mod_add _ (-1)) by lia. rewrite Z.mod_small; lia. }
  rewrite (proj2 (Z.leb_gt _ _)) by lia.
  unfold mbind, M_bind, of_option, lookup_z. rewrite (proj2 (Z.leb_le 0 index)) by lia.
  by rewrite lookup_ge_None_2 by lia.
Qed.
End Props.

(** ** Witnesses: the driver's own table, a framework that gives two paths *)

Definition demo_icc : Interconnect := {|
  icc_get _ name := if String.eqb name "ipa-mem" then inr (Some 1%positive)
                    else inr (Some 2%positive);
  icc_set _ _ _ _ := 0;
|}.

Lemma default_table_ok : table_ok msm_bus_cl_get_pdata.
Proof.
  exists compat_usecases. split_and!; try done.
  intros uc [->|[->|[]%not_elem_of_nil]%elem_of_cons]%elem_of_cons; done.
Qed.

Lemma bus_initial_ok : bus_ok bus_initial.
Proof.
  split; [done|]. intros h [-> _]%elem_of_replicate. by repeat split.
Qed.

Definition demo_ops : list bus_op :=
  [Update 1 1; SetDevice; Register msm_bus_cl_get_pdata; Update 1 1; Update 1 2;
   Register msm_bus_cl_get_pdata; Unregister 1; Update 1 0; Unregister 9].

Lemma demo_ops_ok : Forall op_ok demo_ops.
Proof.
  repeat constructor; cbn; try lia; apply default_table_ok.
Qed.

Definition demo_before : bus_state := Eval vm_compute in
  match (bus_run (H := demo_icc) [SetDevice] bus_initial) with
  | Some (_, s) => s | None => bus_initial end.

Definition demo_after : bus_state := Eval vm_compute in
  match (bus_run (H := demo_icc) [SetDevice; Register msm_bus_cl_get_pdata] bus_initial) with
  | Some (_, s) => s | None => bus_initial end.

Lemma demo_before_ok : bus_ok demo_before.
Proof. exact bus_initial_ok. Qed.

Lemma demo_after_ok : bus_ok demo_after.
Proof.
  split; [done|]. change (∀ h, h ∈ [nth 0 (bus_handles demo_after) zero_handle;
    zero_handle; zero_handle; zero_handle] → handle_ok h).
  intros h [->|Hin]%elem_of_cons.
  - split; [done|]. split; [done|]. intros _. eexists. split; [done|apply default_table_ok].
  - apply bus_initial_ok. by apply (list_elem_of_further _ zero_handle).
Qed.

Lemma bus_refines_witness :
  Forall op_ok demo_ops ∧
  ∃ s', bus_run (H := demo_icc) demo_ops bus_initial =
          Some ((spec_run (H := demo_icc) demo_ops (abs bus_initial)).1, s') ∧
        abs s' = (spec_run (H := demo_icc) demo_ops (abs bus_initial)).2 ∧ bus_ok s'.
Proof. split; [apply demo_ops_ok|]. apply (bus_refines (H := demo_icc) demo_ops). apply demo_ops_ok. Defined.

(** What that run returns. *)
Example demo_results :
  (spec_run (H := demo_icc) demo_ops (abs bus_initial)).1 =
  [- EINVAL; 0; 1; 0; - EINVAL; 2; 0; - EINVAL; 0].
Proof. by vm_compute. Qed.

Definition demo_client : client :=
  mkClient msm_bus_cl_get_pdata
    [mkPath MSM_BUS_MASTER_IPA MSM_BUS_SLAVE_EBI_CH0 (Some 1%positive);
     mkPath MSM_BUS_MASTER_IPA MSM_BUS_SLAVE_OCIMEM (Some 2%positive)].

Lemma votes_cover_demand_witness :
  client_of (abs demo_after) 1 = Some demo_client ∧
  ∃ ret events s',
    msm_bus_scale_client_update_request (H := demo_icc) 1 1 demo_after = Some (ret, s') ∧
    bus_hist s' = reverse events ++ bus_hist demo_after ∧
    Forall2 (vote_for (c_paths demo_client))
      (filter (λ v, is_Some (path_for (c_paths demo_client) (v_src v) (v_dst v)))
        compat_nominal_vectors) events ∧
    ret = cast_votes (H := demo_icc) (bus_hist demo_after)
            (usecase_votes (c_paths demo_client) compat_nominal_vectors) 0 ∧
    r_clients (abs s') = r_clients (abs demo_after).
Proof.
  split; [reflexivity|].
  apply (votes_cover_demand (H := demo_icc) demo_after 1 1 demo_client
    (mkPaths 2 compat_nominal_vectors)); try done; [apply demo_after_ok|].
  repeat constructor; cbn; lia.
Defined.

Lemma registration_exact_witness :
  1 ≤ 1 ≤ MSM_BUS_COMPAT_MAX_HANDLES ∧ client_of (abs demo_before) 1 = None ∧
  ∃ ps, ps ≠ [] ∧ paths_ok (first_usecase msm_bus_cl_get_pdata) ps ∧
    r_clients (abs demo_after) =
      <[Z.to_nat (1 - 1) := Some (mkClient msm_bus_cl_get_pdata ps)]> (r_clients (abs demo_before)).
Proof.
  apply (registration_exact (H := demo_icc)).
  - intros hist name p. cbn. destruct (String.eqb name "ipa-mem"); intros [= <-]; by eexists.
  - apply demo_before_ok.
  - apply default_table_ok.
  - by vm_compute.
  - lia.
Defined.
