(* ===== verification/RmTimer.v ===== *)
(** * IPA resource manager: inactivity timers

    [ipa_rm_inactivity_timer.c]: a client that works in bursts releases its producer through
    a timer, which releases the resource when the client has been idle for a while. The
    timers use the resource manager through an interface, so that what is proved of them
    holds with any implementation of it. *)

From S2P Require Import Prelude.
From S2P Require Import RmTypes.

(** ** What the timers need of the resource manager

    [rm_other] is what the manager does on its own and for its other clients. *)

Class RmApi (R : Type) := {
  rm_request : nat → M R Z;
  rm_release : nat → M R Z;
  rm_other : R → R → Prop;
}.

(** An invariant of the manager under which its operations are defined. *)
Class RmApiLaws (R : Type) `{RmApi R} := {
  rm_ok : R → Prop;
  rm_request_safe n : ∀ r, rm_ok r → wp (rm_request n) (λ _ r', rm_ok r') r;
  rm_release_safe n : ∀ r, rm_ok r → wp (rm_release n) (λ _ r', rm_ok r') r;
  rm_other_ok r r' : rm_ok r → rm_other r r' → rm_ok r';
}.

(** ** Data

    [w_lock] is the address of a wakeup source. [w_lock_name] is only printed; [work] and
    [lock] are the delayed work and the lock below. *)

Record ipa_rm_it_private := mkIt {
  initied : bool;
  it_resource_name : nat;
  resource_requested : bool;
  reschedule_work : bool;
  work_in_progress : bool;
  it_jiffies : Z;
  w_lock : option positive;
}.

(** [memset(..., 0, sizeof(struct ipa_rm_it_private))] *)
Definition zero_it : ipa_rm_it_private := mkIt false 0 false false false 0 None.

Inductive rm_call := CallRequest (n : nat) | CallRelease (n : nat).

(** [it_pending]: the delay of the pending delayed work of each handle that has one;
    [it_awake]: the active wakeup sources; [it_calls]: the calls made to the resource
    manager, newest first. *)
Record it_state (R : Type) := mkItState {
  ipa_rm_it_handles : list ipa_rm_it_private;
  it_pending : gmap nat Z;
  it_awake : gset positive;
  it_next_ws : positive;
  it_rm : R;
  it_calls : list rm_call;
}.
Arguments mkItState {_}. Arguments ipa_rm_it_handles {_}. Arguments it_pending {_}.
Arguments it_awake {_}. Arguments it_next_ws {_}. Arguments it_rm {_}. Arguments it_calls {_}.

Section Timer.
Context {R : Type} `{RmApi R}.
(** [msecs_to_jiffies] of the kernel, which depends on its configuration. *)
Context (msecs_to_jiffies : Z → Z).
Implicit Types s : it_state R.

Abbreviation IT := (M (it_state R)).

Definition get_it (n : nat) : IT ipa_rm_it_private :=
  s ← get; of_option (ipa_rm_it_handles s !! n).
Definition put_it (n : nat) (me : ipa_rm_it_private) : IT () :=
  modify (λ s, mkItState (<[n := me]> (ipa_rm_it_handles s)) (it_pending s) (it_awake s)
                 (it_next_ws s) (it_rm s) (it_calls s)).
Definition with_requested (b : bool) (me : ipa_rm_it_private) : ipa_rm_it_private :=
  mkIt (initied me) (it_resource_name me) b (reschedule_work me) (work_in_progress me)
    (it_jiffies me) (w_lock me).
Definition with_reschedule (b : bool) (me : ipa_rm_it_private) : ipa_rm_it_private :=
  mkIt (initied me) (it_resource_name me) (resource_requested me) b (work_in_progress me)
    (it_jiffies me) (w_lock me).
Definition with_progress (b : bool) (me : ipa_rm_it_private) : ipa_rm_it_private :=
  mkIt (initied me) (it_resource_name me) (resource_requested me) (reschedule_work me) b
    (it_jiffies me) (w_lock me).

(** [queue_delayed_work]: no effect on a work that is pending. *)
Definition it_queue_work (n : nat) (delay : Z) : IT () :=
  modify (λ s, mkItState (ipa_rm_it_handles s)
    (match it_pending s !! n with
     | Some _ => it_pending s | None => <[n := delay]> (it_pending s) end)
    (it_awake s) (it_next_ws s) (it_rm s) (it_calls s)).
(** The pending work of a handle, removed: [cancel_delayed_work_sync] and
    [INIT_DELAYED_WORK], and the timer that expires. *)
Definition clear_work (n : nat) : IT () :=
  modify (λ s, mkItState (ipa_rm_it_handles s) (delete n (it_pending s)) (it_awake s)
                 (it_next_ws s) (it_rm s) (it_calls s)).

(** [__pm_stay_awake] and [__pm_relax], which do nothing on NULL. *)
Definition set_awake (f : gset positive → gset positive) : IT () :=
  modify (λ s, mkItState (ipa_rm_it_handles s) (it_pending s) (f (it_awake s))
                 (it_next_ws s) (it_rm s) (it_calls s)).
Definition pm_stay_awake (ws : option positive) : IT () :=
  match ws with Some w => set_awake (λ a, {[w]} ∪ a) | None => mret () end.
Definition pm_relax (ws : option positive) : IT () :=
  match ws with Some w => set_awake (λ a, a ∖ {[w]}) | None => mret () end.

(** [wakeup_source_register]: a new source, or NULL when [ok] is false. *)
Definition wakeup_source_register (ok : bool) : IT (option positive) :=
  if ok then
    s ← get;
    put (mkItState (ipa_rm_it_handles s) (it_pending s) (it_awake s)
           (Pos.succ (it_next_ws s)) (it_rm s) (it_calls s)) ;;
    mret (Some (it_next_ws s))
  else mret None.

(** A call of the resource manager. *)
Definition call_rm {A} (c : rm_call) (m : M R A) : IT A := λ s,
  match m (it_rm s) with
  | Some (a, r) => Some (a, mkItState (ipa_rm_it_handles s) (it_pending s) (it_awake s)
                              (it_next_ws s) r (c :: it_calls s))
  | None => None
  end.
Definition it_request_resource (n : nat) : IT Z := call_rm (CallRequest n) (rm_request n).
Definition it_release_resource (n : nat) : IT Z := call_rm (CallRelease n) (rm_release n).

(** ** Operations *)

(** The work of handle [work]; the handle it updates is the one of its resource name. *)
Definition ipa_rm_inactivity_timer_func (work : nat) : IT () :=
  me ← get_it work;
  let n := it_resource_name me in
  h ← get_it n;
  if reschedule_work h then
    put_it n (with_reschedule false h) ;;
    it_queue_work n (it_jiffies h)
  else if resource_requested h then
    put_it n (with_progress false h)
  else
    pm_relax (w_lock h) ;;
    it_release_resource (it_resource_name me) ;;
    h ← get_it n;
    put_it n (with_progress false h).

(** [ws_ok]: whether the wakeup source can be registered. *)
Definition ipa_rm_inactivity_timer_init (resource_name : nat) (msecs : Z) (ws_ok : bool) : IT Z :=
  if (IPA_RM_RESOURCE_MAX <=? resource_name)%nat then mret (- EINVAL)
  else
    h ← get_it resource_name;
    if initied h then mret (- EINVAL)
    else
      let h := mkIt false resource_name false false false (msecs_to_jiffies msecs) (w_lock h) in
      ws ← wakeup_source_register ws_ok;
      let h := mkIt false resource_name false false false (it_jiffies h) ws in
      put_it resource_name h ;;
      match ws with
      | None => mret (- ENOMEM)
      | Some _ =>
          clear_work resource_name ;;
          put_it resource_name (mkIt true resource_name false false false (it_jiffies h) ws) ;;
          mret 0
      end.

Definition ipa_rm_inactivity_timer_destroy (resource_name : nat) : IT Z :=
  if (IPA_RM_RESOURCE_MAX <=? resource_name)%nat then mret (- EINVAL)
  else
    h ← get_it resource_name;
    if negb (initied h) then mret (- EINVAL)
    else
      clear_work resource_name ;;
      pm_relax (w_lock h) ;;
      put_it resource_name zero_it ;;
      mret 0.

(** The two critical parts of a request: the mark under the lock, then the call. *)
Definition it_mark_requested (resource_name : nat) : IT () :=
  h ← get_it resource_name; put_it resource_name (with_requested true h).

Definition ipa_rm_inactivity_timer_request_resource (resource_name : nat) : IT Z :=
  if (IPA_RM_RESOURCE_MAX <=? resource_name)%nat then mret (- EINVAL)
  else
    h ← get_it resource_name;
    if negb (initied h) then mret (- EINVAL)
    else
      it_mark_requested resource_name ;;
      it_request_resource resource_name.

Definition ipa_rm_inactivity_timer_release_resource (resource_name : nat) : IT Z :=
  if (IPA_RM_RESOURCE_MAX <=? resource_name)%nat then mret (- EINVAL)
  else
    h ← get_it resource_name;
    if negb (initied h) then mret (- EINVAL)
    else
      put_it resource_name (with_requested false h) ;;
      h ← get_it resource_name;
      if work_in_progress h then
        put_it resource_name (with_reschedule true h) ;;
        mret 0
      else
        put_it resource_name (with_reschedule false (with_progress true h)) ;;
        pm_stay_awake (w_lock h) ;;
        it_queue_work resource_name (it_jiffies h) ;;
        mret 0.

(** ** Interleaving

    An operation, a timer that expires, a step of the resource manager, and, for requests
    that another step interrupts between the mark and the call, the two parts alone. *)

Inductive it_label :=
  | TInit (n : nat) (msecs : Z) (ws_ok : bool)
  | TDestroy (n : nat)
  | TRequest (n : nat)
  | TMark (n : nat)
  | TCall (n : nat)
  | TRelease (n : nat)
  | TExpire (n : nat)
  | TRm (r' : R).

Definition it_run (l : it_label) : IT Z :=
  match l with
  | TInit n ms ok => ipa_rm_inactivity_timer_init n ms ok
  | TDestroy n => ipa_rm_inactivity_timer_destroy n
  | TRequest n => ipa_rm_inactivity_timer_request_resource n
  | TMark n => it_mark_requested n ;; mret 0
  | TCall n => it_request_resource n
  | TRelease n => ipa_rm_inactivity_timer_release_resource n
  | TExpire n => clear_work n ;; ipa_rm_inactivity_timer_func n ;; mret 0
  | TRm r' => modify (λ s, mkItState (ipa_rm_it_handles s) (it_pending s) (it_awake s)
                             (it_next_ws s) r' (it_calls s)) ;; mret 0
  end.

(** What can happen: only pending work expires, and only after its [initied] test does a
    request set its mark. *)
Definition it_enabled (l : it_label) (s : it_state R) : Prop :=
  match l with
  | TExpire n => is_Some (it_pending s !! n)
  | TMark n => initied <$> ipa_rm_it_handles s !! n = Some true
  | TRm r' => rm_other (it_rm s) r'
  | _ => True
  end.

Definition it_initial (r : R) : it_state R :=
  mkItState (replicate IPA_RM_RESOURCE_MAX zero_it) ∅ ∅ 1%positive r [].

(** [it_trace s ls s']: the labels [ls], oldest first, lead from [s] to [s']. *)
Inductive it_trace : it_state R → list it_label → it_state R → Prop :=
  | it_trace_nil s : it_trace s [] s
  | it_trace_snoc s ls s1 l z s2 :
      it_trace s ls s1 → it_enabled l s1 → it_run l s1 = Some (z, s2) →
      it_trace s (ls ++ [l]) s2.
End Timer.
