(* ===== verification/RmTimerInv.v ===== *)
(** * IPA resource manager: inactivity timers, the invariant

    The outcome of every operation as a pure function of the handle, the invariant they
    keep, and what a step may change; for any resource manager that satisfies [RmApiLaws]. *)

From S2P Require Import Prelude.
From S2P Require Import RmTypes.
From S2P Require Import RmTimer.

(** ** The invariant *)

(** The record of handle [n], given the wakeup sources and the delay of its pending work. *)
Definition handle_inv (next : positive) (awake : gset positive) (n : nat)
    (h : ipa_rm_it_private) (p : option Z) : Prop :=
  (initied h = false → work_in_progress h = false ∧ resource_requested h = false) ∧
  (initied h = true → it_resource_name h = n ∧ is_Some (w_lock h)) ∧
  p = (if work_in_progress h then Some (it_jiffies h) else None) ∧
  (reschedule_work h = true → work_in_progress h = true) ∧
  (∀ w, w_lock h = Some w →
     (w < next)%positive ∧ (work_in_progress h = true → w ∈ awake)).

Lemma handle_inv_idle next awake awake' n h p :
  handle_inv next awake n h p → initied h = true → reschedule_work h = false →
  handle_inv next awake' n (with_progress false h) None.
Proof.
  intros (_ & H2 & _ & _ & H5) Hi Hre. split_and!; cbn; try done; [by rewrite Hi|by rewrite Hre|].
  intros w Hw. split; [by apply H5|done].
Qed.

Section Inv.
Context {R : Type} `{RmApiLaws R}.
Context (msecs_to_jiffies : Z → Z).
Implicit Types s : it_state R.

Record timer_inv s : Prop := {
  ti_len : length (ipa_rm_it_handles s) = IPA_RM_RESOURCE_MAX;
  ti_handle n h : ipa_rm_it_handles s !! n = Some h →
    handle_inv (it_next_ws s) (it_awake s) n h (it_pending s !! n);
  ti_pending n : is_Some (it_pending s !! n) → (n < IPA_RM_RESOURCE_MAX)%nat;
  ti_distinct i j h h' w : ipa_rm_it_handles s !! i = Some h → ipa_rm_it_handles s !! j = Some h' →
    w_lock h = Some w → w_lock h' = Some w → i = j;
  ti_rm : rm_ok (it_rm s);
}.

(** The state with handle [n] and its pending work replaced. *)
Definition pend (n : nat) (p : option Z) (m : gmap nat Z) : gmap nat Z :=
  match p with Some j => <[n := j]> m | None => delete n m end.
Definition upd s (n : nat) (h : ipa_rm_it_private) (p : option Z) (awake : gset positive)
    (next : positive) (r : R) (calls : list rm_call) : it_state R :=
  mkItState (<[n := h]> (ipa_rm_it_handles s)) (pend n p (it_pending s)) awake next r calls.

Lemma lookup_pend n p m i : pend n p m !! i = if decide (i = n) then p else m !! i.
Proof.
  destruct p as [j|]; cbn; destruct (decide (i = n)) as [->|Hne].
  - apply lookup_insert_eq.
  - by apply lookup_insert_ne.
  - apply lookup_delete_eq.
  - by apply lookup_delete_ne.
Qed.

Lemma pend_pend n p q m : pend n p (pend n q m) = pend n p m.
Proof.
  apply map_eq. intros i. rewrite !lookup_pend. by destruct (decide (i = n)).
Qed.

(** Replacing one handle keeps the invariant if the other handles' sources stay awake and
    the handle's source is its old one or a new one. *)
Lemma timer_inv_upd s n h h' p awake next r calls :
  timer_inv s → ipa_rm_it_handles s !! n = Some h →
  handle_inv next awake n h' p → (it_next_ws s ≤ next)%positive →
  (∀ w, w ∈ it_awake s → w ∈ awake ∨ w_lock h = Some w) →
  (∀ w, w_lock h' = Some w → w_lock h = Some w ∨ (it_next_ws s ≤ w)%positive) →
  rm_ok r → timer_inv (upd s n h' p awake next r calls).
Proof.
  intros Hinv Hh Hh' Hnext Hawake Hw Hr. unfold upd. split; cbn.
  - rewrite length_insert. apply Hinv.
  - intros m g Hg. apply list_lookup_insert_Some in Hg as [(-> & -> & _)|[Hne Hg]].
    { by rewrite lookup_pend, decide_True. }
    rewrite lookup_pend, decide_False by done.
    destruct (ti_handle s Hinv m g Hg) as (H1 & H2 & H3 & H4 & H5).
    split_and!; try done. intros w Hwg. destruct (H5 w Hwg) as [Hlt Haw].
    split; [lia|]. intros Hp. destruct (Hawake w (Haw Hp)) as [|Hwh]; [done|].
    destruct Hne. by eapply (ti_distinct s Hinv n m h g).
  - intros m. rewrite lookup_pend. destruct (decide (m = n)) as [->|_]; [|apply Hinv].
    intros _. rewrite <- (ti_len s Hinv). by eapply lookup_lt_Some.
  - assert (∀ j g w, n ≠ j → ipa_rm_it_handles s !! j = Some g →
              w_lock h' = Some w → w_lock g ≠ Some w) as Hother.
    { intros j g w Hne Hg Hw' Hwg. destruct (Hw w Hw') as [Hold|Hnew].
      - destruct Hne. by eapply (ti_distinct s Hinv n j h g).
      - destruct (ti_handle s Hinv j g Hg) as (_ & _ & _ & _ & Hlt).
        destruct (Hlt w Hwg) as [? _]. lia. }
    intros i j g g' w Hi Hj Hwi Hwj.
    apply list_lookup_insert_Some in Hi as [(<- & -> & _)|[Hnei Hi]];
      apply list_lookup_insert_Some in Hj as [(<- & -> & _)|[Hnej Hj]]; try done.
    + by destruct (Hother j g' w Hnej Hj Hwi).
    + by destruct (Hother i g w Hnei Hi Hwj).
    + by eapply (ti_distinct s Hinv i j g g').
  - done.
Qed.

(** The common case: the sources stay as they are. *)
Lemma timer_inv_keep s n h h' p calls :
  timer_inv s → ipa_rm_it_handles s !! n = Some h →
  handle_inv (it_next_ws s) (it_awake s) n h' p → w_lock h' = w_lock h →
  timer_inv (upd s n h' p (it_awake s) (it_next_ws s) (it_rm s) calls).
Proof.
  intros Hinv Hh Hh' Hw. apply (timer_inv_upd s n h); [done..|reflexivity| | |apply Hinv].
  - intros w ?. by left.
  - intros w ?. left. by rewrite <- Hw.
Qed.

Lemma timer_inv_initial r : rm_ok r → timer_inv (it_initial r).
Proof.
  intros Hr. split; cbn [it_initial ipa_rm_it_handles it_pending it_awake it_next_ws it_rm]; try done.
  - intros n h Hh. apply lookup_replicate in Hh as [-> _]. rewrite lookup_empty. by repeat split.
  - intros n []%lookup_empty_is_Some.
  - intros i j h h' w Hi _ Hw. apply lookup_replicate in Hi as [-> _]. done.
Qed.

(** ** What each operation does *)

Lemma get_it_bind {A} s n h (f : ipa_rm_it_private → M (it_state R) A) :
  ipa_rm_it_handles s !! n = Some h → (get_it n ≫= f) s = f h s.
Proof. intros Hh. unfold get_it. unfold mbind at 1, M_bind at 1. by rewrite get_bind, Hh. Qed.

Lemma put_it_bind {A} s n h (f : () → M (it_state R) A) :
  (put_it n h ≫= f) s =
  f () (mkItState (<[n := h]> (ipa_rm_it_handles s)) (it_pending s) (it_awake s)
          (it_next_ws s) (it_rm s) (it_calls s)).
Proof. done. Qed.

Lemma valid_handle s n :
  timer_inv s → (n < IPA_RM_RESOURCE_MAX)%nat → ∃ h, ipa_rm_it_handles s !! n = Some h.
Proof. intros Hinv Hn. apply lookup_lt_is_Some_2. by rewrite (ti_len s Hinv). Qed.

Lemma handle_valid s n h :
  timer_inv s → ipa_rm_it_handles s !! n = Some h → (IPA_RM_RESOURCE_MAX <=? n)%nat = false.
Proof.
  intros Hinv Hh%lookup_lt_Some. rewrite (ti_len s Hinv) in Hh. by apply Nat.leb_gt.
Qed.

(** The state after the timer of [n] expired. *)
Definition after_expire s (n : nat) (h : ipa_rm_it_private) (r : R) : it_state R :=
  if reschedule_work h then
    upd s n (with_reschedule false h) (Some (it_jiffies h)) (it_awake s) (it_next_ws s)
      (it_rm s) (it_calls s)
  else if resource_requested h then
    upd s n (with_progress false h) None (it_awake s) (it_next_ws s) (it_rm s) (it_calls s)
  else
    upd s n (with_progress false h) None
      (match w_lock h with Some w => it_awake s ∖ {[w]} | None => it_awake s end)
      (it_next_ws s) r (CallRelease n :: it_calls s).

Lemma run_expire s n h :
  timer_inv s → ipa_rm_it_handles s !! n = Some h → is_Some (it_pending s !! n) →
  initied h = true ∧ work_in_progress h = true ∧
  ∃ r, rm_ok r ∧ it_run msecs_to_jiffies (TExpire n) s = Some (0, after_expire s n h r).
Proof.
  intros Hinv Hh Hp. destruct (ti_handle s Hinv n h Hh) as (H1 & H2 & H3 & _).
  rewrite H3 in Hp. destruct (work_in_progress h) eqn:Hwip; [|by destruct Hp].
  destruct (initied h) eqn:Hi; [|by destruct (H1 eq_refl)]. split; [done|]. split; [done|].
  destruct (H2 eq_refl) as [Hname _].
  destruct (wp_elim _ _ _ (rm_release_safe n _ (ti_rm s Hinv))) as (z & r & Hrun & Hr).
  exists r. split; [done|]. cbn [it_run].
  set (s0 := mkItState (ipa_rm_it_handles s) (delete n (it_pending s)) (it_awake s)
               (it_next_ws s) (it_rm s) (it_calls s)).
  assert (ipa_rm_inactivity_timer_func n s0 = Some ((), after_expire s n h r)) as Hf.
  2: { rewrite (M_bind_Some _ _ s () s0) by done. by rewrite (M_bind_Some _ _ _ _ _ Hf). }
  unfold ipa_rm_inactivity_timer_func, after_expire.
  rewrite (get_it_bind s0 n h) by done. cbv beta zeta. rewrite Hname.
  rewrite (get_it_bind s0 n h) by done. destruct (reschedule_work h).
  { rewrite put_it_bind. unfold it_queue_work, modify, upd. cbn. rewrite lookup_delete_eq.
    by rewrite insert_delete_eq. }
  destruct (resource_requested h); [done|].
  set (aw := match w_lock h with Some w => it_awake s ∖ {[w]} | None => it_awake s end).
  set (s1 := mkItState (ipa_rm_it_handles s) (delete n (it_pending s)) aw
               (it_next_ws s) (it_rm s) (it_calls s)).
  rewrite (M_bind_Some _ _ s0 () s1) by (unfold s0, s1, aw; by destruct (w_lock h)).
  set (s2 := mkItState (ipa_rm_it_handles s) (delete n (it_pending s)) aw
               (it_next_ws s) r (CallRelease n :: it_calls s)).
  rewrite (M_bind_Some _ _ s1 z s2) by (unfold it_release_resource, call_rm; cbn; by rewrite Hrun).
  by rewrite (get_it_bind s2 n h).
Qed.

Lemma inv_after_expire s n h r :
  timer_inv s → ipa_rm_it_handles s !! n = Some h → initied h = true →
  work_in_progress h = true → rm_ok r → timer_inv (after_expire s n h r).
Proof.
  intros Hinv Hh Hi Hwip Hr. pose proof (ti_handle s Hinv n h Hh) as Hhi.
  unfold after_expire. destruct (reschedule_work h) eqn:Hre; [|destruct (resource_requested h)].
  - apply (timer_inv_keep s n h); try done. destruct Hhi as (? & ? & ? & ? & ?).
    split_and!; cbn; try done; by rewrite Hwip.
  - apply (timer_inv_keep s n h); try done. by eapply handle_inv_idle.
  - apply (timer_inv_upd s n h); try done.
    + by eapply handle_inv_idle.
    + intros w Hw. destruct (w_lock h) as [w'|]; [|by left].
      destruct (decide (w = w')) as [->|]; [by right|left; set_solver].
    + intros w Hw. by left.
Qed.

(** A name the operations refuse: out of range, or whose timer is not initialised. *)
Definition timer_ready s (n : nat) : Prop :=
  initied <$> ipa_rm_it_handles s !! n = Some true.

Lemma timer_ready_handle s n :
  timer_ready s n → ∃ h, ipa_rm_it_handles s !! n = Some h ∧ initied h = true.
Proof.
  unfold timer_ready. destruct (ipa_rm_it_handles s !! n) as [h|]; [|done].
  intros [= Hi]. by exists h.
Qed.

(** The handle after a release. *)
Definition after_release s (n : nat) (h : ipa_rm_it_private) : it_state R :=
  if work_in_progress h then
    upd s n (with_reschedule true (with_requested false h)) (Some (it_jiffies h)) (it_awake s)
      (it_next_ws s) (it_rm s) (it_calls s)
  else
    upd s n (with_reschedule false (with_progress true (with_requested false h)))
      (Some (it_jiffies h))
      (match w_lock h with Some w => {[w]} ∪ it_awake s | None => it_awake s end)
      (it_next_ws s) (it_rm s) (it_calls s).

Lemma run_release s n h :
  timer_inv s → ipa_rm_it_handles s !! n = Some h → initied h = true →
  it_run msecs_to_jiffies (TRelease n) s = Some (0, after_release s n h).
Proof.
  intros Hinv Hh Hi. cbn [it_run]. unfold ipa_rm_inactivity_timer_release_resource.
  rewrite (handle_valid s n h) by done. rewrite (get_it_bind s n h) by done. rewrite Hi.
  destruct (ti_handle s Hinv n h Hh) as (_ & _ & H3 & _).
  assert (n < length (ipa_rm_it_handles s))%nat as Hlt by (by eapply lookup_lt_Some).
  cbn [negb]. rewrite put_it_bind.
  erewrite get_it_bind by (apply list_lookup_insert_eq; done).
  unfold after_release. cbn [with_requested work_in_progress w_lock it_jiffies].
  destruct (work_in_progress h).
  - rewrite put_it_bind. cbn [ipa_rm_it_handles it_pending it_awake it_next_ws it_rm it_calls].
    unfold upd, mret, M_ret. cbn [pend]. rewrite list_insert_insert_eq.
    by rewrite insert_id.
  - rewrite put_it_bind. cbn [ipa_rm_it_handles it_pending it_awake it_next_ws it_rm it_calls].
    rewrite list_insert_insert_eq.
    unfold upd. destruct (w_lock h) as [w|]; unfold mbind, M_bind, pm_stay_awake, set_awake,
      it_queue_work, modify, mret, M_ret; cbn; by rewrite H3.
Qed.

Lemma inv_after_release s n h :
  timer_inv s → ipa_rm_it_handles s !! n = Some h → initied h = true →
  timer_inv (after_release s n h).
Proof.
  intros Hinv Hh Hi. destruct (ti_handle s Hinv n h Hh) as (H1 & H2 & H3 & H4 & H5).
  unfold after_release. destruct (work_in_progress h) eqn:Hwip.
  - apply (timer_inv_keep s n h); try done.
    split_and!; cbn; rewrite ?Hwip; try done.
    by rewrite Hi.
  - destruct (H2 Hi) as [_ [w Hw]]. rewrite Hw.
    apply (timer_inv_upd s n h); try done.
    + split_and!; cbn; try done; [by rewrite Hi|].
      intros w' Hw'. split; [by apply H5|]. intros _. rewrite Hw in Hw'. injection Hw' as <-.
      by apply elem_of_union_l, elem_of_singleton.
    + intros w' Hw'. left. by apply elem_of_union_r.
    + intros w' Hw'. by left.
    + apply Hinv.
Qed.

Lemma run_mark s n h :
  timer_inv s → ipa_rm_it_handles s !! n = Some h → initied h = true →
  it_mark_requested n s =
  Some ((), upd s n (with_requested true h) (it_pending s !! n) (it_awake s) (it_next_ws s)
         (it_rm s) (it_calls s)).
Proof.
  intros Hinv Hh Hi. unfold it_mark_requested. rewrite (get_it_bind s n h) by done.
  unfold put_it, modify, upd. do 3 f_equal. apply map_eq. intros i. rewrite lookup_pend.
  by destruct (decide (i = n)) as [->|].
Qed.

Lemma inv_mark s n h calls :
  timer_inv s → ipa_rm_it_handles s !! n = Some h → initied h = true →
  timer_inv (upd s n (with_requested true h) (it_pending s !! n) (it_awake s) (it_next_ws s)
         (it_rm s) calls).
Proof.
  intros Hinv Hh Hi. destruct (ti_handle s Hinv n h Hh) as (H1 & H2 & H3 & H4 & H5).
  apply (timer_inv_keep s n h); try done. split_and!; cbn; try done. by rewrite Hi.
Qed.

(** The manager's state and the calls made are no part of the timers' state. *)
Definition with_rm s (r : R) (calls : list rm_call) : it_state R :=
  mkItState (ipa_rm_it_handles s) (it_pending s) (it_awake s) (it_next_ws s) r calls.

Lemma inv_with_rm s r calls : timer_inv s → rm_ok r → timer_inv (with_rm s r calls).
Proof. intros Hinv Hr. split; try apply Hinv. done. Qed.

Lemma run_call s n :
  timer_inv s →
  ∃ z r, rm_ok r ∧
    it_request_resource n s = Some (z, with_rm s r (CallRequest n :: it_calls s)).
Proof.
  intros Hinv. destruct (wp_elim _ _ _ (rm_request_safe n _ (ti_rm s Hinv))) as (z & r & Hrun & Hr).
  exists z, r. split; [done|]. unfold it_request_resource, call_rm. by rewrite Hrun.
Qed.

(** The state after an initialisation, and what it returns. *)
Definition after_init s (n : nat) (ms : Z) (ok : bool) : it_state R :=
  upd s n (mkIt ok n false false false (msecs_to_jiffies ms) (if ok then Some (it_next_ws s) else None))
    None (it_awake s) (if ok then Pos.succ (it_next_ws s) else it_next_ws s) (it_rm s) (it_calls s).

Lemma idle_pending s n h :
  timer_inv s → ipa_rm_it_handles s !! n = Some h → initied h = false → it_pending s !! n = None.
Proof.
  intros Hinv Hh Hi. destruct (ti_handle s Hinv n h Hh) as (H1 & _ & -> & _).
  by destruct (H1 Hi) as [-> _].
Qed.

Lemma run_init s n h ms ok :
  timer_inv s → ipa_rm_it_handles s !! n = Some h → initied h = false →
  it_run msecs_to_jiffies (TInit n ms ok) s =
  Some (if ok then 0 else - ENOMEM, after_init s n ms ok).
Proof.
  intros Hinv Hh Hi. pose proof (idle_pending s n h Hinv Hh Hi) as Hp.
  cbn [it_run]. unfold ipa_rm_inactivity_timer_init.
  rewrite (handle_valid s n h) by done. rewrite (get_it_bind s n h) by done. rewrite Hi.
  unfold after_init, upd. destruct ok; cbn.
  - unfold mbind, M_bind, put_it, clear_work, modify, mret, M_ret. cbn.
    by rewrite list_insert_insert_eq.
  - unfold mbind, M_bind, put_it, modify, mret, M_ret. cbn. by rewrite delete_id.
Qed.

Lemma inv_after_init s n h ms ok :
  timer_inv s → ipa_rm_it_handles s !! n = Some h → timer_inv (after_init s n ms ok).
Proof.
  intros Hinv Hh. unfold after_init. apply (timer_inv_upd s n h); try done.
  - split_and!; cbn; try done; destruct ok; try done. intros w [= <-]. split; [lia|done].
  - destruct ok; lia.
  - intros w Hw. by left.
  - intros w. destruct ok; cbn; [|done]. intros [= <-]. by right.
  - apply Hinv.
Qed.

Definition after_destroy s (n : nat) (h : ipa_rm_it_private) : it_state R :=
  upd s n zero_it None (match w_lock h with Some w => it_awake s ∖ {[w]} | None => it_awake s end)
    (it_next_ws s) (it_rm s) (it_calls s).

Lemma run_destroy s n h :
  timer_inv s → ipa_rm_it_handles s !! n = Some h → initied h = true →
  it_run msecs_to_jiffies (TDestroy n) s = Some (0, after_destroy s n h).
Proof.
  intros Hinv Hh Hi. cbn [it_run]. unfold ipa_rm_inactivity_timer_destroy.
  rewrite (handle_valid s n h) by done. rewrite (get_it_bind s n h) by done. rewrite Hi.
  cbn [negb]. unfold after_destroy. by destruct (w_lock h).
Qed.

Lemma inv_after_destroy s n h :
  timer_inv s → ipa_rm_it_handles s !! n = Some h → timer_inv (after_destroy s n h).
Proof.
  intros Hinv Hh. unfold after_destroy. apply (timer_inv_upd s n h); try done.
  - intros w Hw. destruct (w_lock h) as [w'|]; [|by left].
    destruct (decide (w = w')) as [->|]; [by right|left; set_solver].
  - apply Hinv.
Qed.

(** ** One step *)

(** The labels of the operations that test [initied], and the value they need. *)
Definition guarded (l : it_label (R := R)) : option (nat * bool) :=
  match l with
  | TInit n _ _ => Some (n, false)
  | TDestroy n | TRequest n | TRelease n => Some (n, true)
  | _ => None
  end.

Lemma run_refused s l n b :
  timer_inv s → guarded l = Some (n, b) →
  initied <$> ipa_rm_it_handles s !! n ≠ Some b →
  it_run msecs_to_jiffies l s = Some (- EINVAL, s).
Proof.
  intros Hinv Hl Hno. destruct (ipa_rm_it_handles s !! n) as [h|] eqn:Hh.
  - assert (initied h = negb b) as Hi by (cbn in Hno; destruct (initied h), b; done).
    destruct l; try done; injection Hl as -> <-; cbn [it_run];
      unfold ipa_rm_inactivity_timer_init, ipa_rm_inactivity_timer_destroy,
        ipa_rm_inactivity_timer_request_resource, ipa_rm_inactivity_timer_release_resource;
      rewrite (handle_valid s n h) by done; rewrite (get_it_bind s n h) by done; by rewrite Hi.
  - apply lookup_ge_None in Hh. rewrite (ti_len s Hinv) in Hh.
    apply Nat.leb_le in Hh. destruct l; try done; injection Hl as -> <-; cbn [it_run];
      unfold ipa_rm_inactivity_timer_init, ipa_rm_inactivity_timer_destroy,
        ipa_rm_inactivity_timer_request_resource, ipa_rm_inactivity_timer_release_resource;
      by rewrite Hh.
Qed.

Lemma run_request s n h :
  timer_inv s → ipa_rm_it_handles s !! n = Some h → initied h = true →
  ∃ z r, rm_ok r ∧ it_run msecs_to_jiffies (TRequest n) s =
    Some (z, upd s n (with_requested true h) (it_pending s !! n) (it_awake s) (it_next_ws s)
               r (CallRequest n :: it_calls s)).
Proof.
  intros Hinv Hh Hi. cbn [it_run]. unfold ipa_rm_inactivity_timer_request_resource.
  rewrite (handle_valid s n h) by done. rewrite (get_it_bind s n h) by done. rewrite Hi.
  cbn [negb]. rewrite (M_bind_Some _ _ _ _ _ (run_mark s n h Hinv Hh Hi)).
  destruct (run_call _ n (inv_mark s n h (it_calls s) Hinv Hh Hi)) as (z & r & Hr & ->).
  by exists z, r.
Qed.

Lemma guarded_cases s l n b :
  guarded l = Some (n, b) →
  (∃ h, ipa_rm_it_handles s !! n = Some h ∧ initied h = b) ∨
  initied <$> ipa_rm_it_handles s !! n ≠ Some b.
Proof.
  intros _. destruct (ipa_rm_it_handles s !! n) as [h|]; [|by right].
  destruct (decide (initied h = b)) as [|Hne]; [left; by exists h|right; cbn; congruence].
Qed.

(** The handle a label is about, and the wish of its client: whether the timer is
    initialised, and whether the client wants the resource. *)
Definition about (l : it_label (R := R)) : option nat :=
  match l with
  | TInit n _ _ | TDestroy n | TRequest n | TMark n | TRelease n | TExpire n => Some n
  | TCall _ | TRm _ => None
  end.

Definition wish_of (h : ipa_rm_it_private) : bool * bool := (initied h, resource_requested h).

Definition next_wish (l : it_label (R := R)) (w : bool * bool) : bool * bool :=
  match l, w with
  | TInit _ _ ok, (false, _) => (ok, false)
  | TDestroy _, (true, _) => (false, false)
  | TRequest _, (true, _) | TMark _, (true, _) => (true, true)
  | TRelease _, (true, _) => (true, false)
  | _, w => w
  end.

Definition wish_step (n : nat) (w : bool * bool) (l : it_label (R := R)) : bool * bool :=
  if decide (about l = Some n) then next_wish l w else w.

(** What a step changes: the handle it is about, the wish of its client, and at most one
    call of the manager, a release only by a timer nobody wants any more. *)
Record effect (l : it_label (R := R)) s s' : Prop := {
  ef_frame n : about l ≠ Some n →
    ipa_rm_it_handles s' !! n = ipa_rm_it_handles s !! n ∧ it_pending s' !! n = it_pending s !! n;
  ef_wish n : wish_of <$> ipa_rm_it_handles s' !! n =
    (λ h, wish_step n (wish_of h) l) <$> ipa_rm_it_handles s !! n;
  ef_calls : it_calls s' = it_calls s ∨ (∃ n, it_calls s' = CallRequest n :: it_calls s) ∨
    ∃ n, l = TExpire n ∧ it_calls s' = CallRelease n :: it_calls s ∧
      wish_of <$> ipa_rm_it_handles s !! n = Some (true, false);
}.

Lemma effect_upd l s n h h' p awake next r calls :
  ipa_rm_it_handles s !! n = Some h → about l = Some n →
  wish_of h' = next_wish l (wish_of h) →
  (calls = it_calls s ∨ calls = CallRequest n :: it_calls s ∨
   l = TExpire n ∧ calls = CallRelease n :: it_calls s ∧ wish_of h = (true, false)) →
  effect l s (upd s n h' p awake next r calls).
Proof.
  intros Hh Hl Hw Hc. split; cbn.
  - intros m Hm. assert (m ≠ n) by congruence.
    rewrite list_lookup_insert_ne, lookup_pend, decide_False by done. done.
  - intros m. unfold wish_step. destruct (decide (about l = Some m)) as [Hm|Hm].
    + assert (m = n) as -> by congruence. rewrite Hh, list_lookup_insert_eq.
      * cbn. by rewrite Hw.
      * by eapply lookup_lt_Some.
    + assert (m ≠ n) by congruence. by rewrite list_lookup_insert_ne.
  - destruct Hc as [->|[->|(-> & -> & Hwh)]]; [by left|right; left; by exists n|].
    right; right. exists n. rewrite Hh. cbn. by rewrite Hwh.
Qed.

Lemma effect_with_rm l s r calls :
  about l = None → calls = it_calls s ∨ (∃ n, calls = CallRequest n :: it_calls s) →
  effect l s (with_rm s r calls).
Proof.
  intros Hl Hc. split; cbn.
  - by intros n.
  - intros n. unfold wish_step. rewrite Hl. by destruct (ipa_rm_it_handles s !! n).
  - destruct Hc as [->|[n ->]]; [by left|right; left; by exists n].
Qed.

Lemma effect_refused l s n b :
  guarded l = Some (n, b) → initied <$> ipa_rm_it_handles s !! n ≠ Some b → effect l s s.
Proof.
  intros Hl Hno. split; [done| |by left].
  intros m. destruct (ipa_rm_it_handles s !! m) as [h|] eqn:Hh; [|done]. cbn. f_equal.
  unfold wish_step. destruct (decide (about l = Some m)) as [Hm|]; [|done].
  destruct l; try done; injection Hl as -> <-; injection Hm as ->;
    rewrite Hh in Hno; cbn in Hno; unfold wish_of, next_wish; by destruct (initied h).
Qed.

Lemma step_guarded l s n b h :
  timer_inv s → guarded l = Some (n, b) → ipa_rm_it_handles s !! n = Some h → initied h = b →
  ∃ z s', it_run msecs_to_jiffies l s = Some (z, s') ∧ timer_inv s' ∧ effect l s s'.
Proof.
  intros Hinv Hg Hh Hi. destruct l; try done; injection Hg as -> <-.
  - rewrite (run_init s n h) by done. eexists _, _. split; [done|].
    split; [by eapply inv_after_init|]. apply (effect_upd _ s n h); try done; [|by left].
    unfold wish_of. rewrite Hi. done.
  - rewrite (run_destroy s n h) by done. eexists _, _. split; [done|].
    split; [by eapply inv_after_destroy|]. apply (effect_upd _ s n h); try done; [|by left].
    unfold wish_of. by rewrite Hi.
  - destruct (run_request s n h) as (z & r & Hr & ->); try done. eexists _, _. split; [done|].
    split; [apply (inv_with_rm _ r _ (inv_mark s n h (it_calls s) Hinv Hh Hi) Hr)|].
    apply (effect_upd _ s n h); try done; [|by right; left]. unfold wish_of. cbn. by rewrite Hi.
  - rewrite (run_release s n h) by done. eexists _, _. split; [done|].
    split; [by apply inv_after_release|]. unfold after_release.
    destruct (work_in_progress h); apply (effect_upd _ s n h); try done; try (by left);
      unfold wish_of; cbn; by rewrite Hi.
Qed.

Lemma effect_expire s n h r :
  ipa_rm_it_handles s !! n = Some h → initied h = true →
  effect (TExpire n) s (after_expire s n h r).
Proof.
  intros Hh Hi. unfold after_expire.
  destruct (reschedule_work h); [|destruct (resource_requested h) eqn:Hq];
    apply (effect_upd _ s n h); try done; [by left..|].
  right; right. split_and!; try done. unfold wish_of. by rewrite Hi, Hq.
Qed.

Lemma timer_step l s :
  timer_inv s → it_enabled l s →
  ∃ z s', it_run msecs_to_jiffies l s = Some (z, s') ∧ timer_inv s' ∧ effect l s s'.
Proof.
  intros Hinv Hen. destruct (guarded l) as [[n b]|] eqn:Hg.
  { destruct (guarded_cases s l n b Hg) as [(h & Hh & Hi)|Hno]; [by eapply step_guarded|].
    eexists _, _. split; [by eapply run_refused|]. split; [done|by eapply effect_refused]. }
  destruct l as [| | |n|n| |n|r']; try done; cbn [it_enabled] in Hen.
  - destruct (timer_ready_handle s n Hen) as (h & Hh & Hi). cbn [it_run].
    rewrite (M_bind_Some _ _ _ _ _ (run_mark s n h Hinv Hh Hi)).
    eexists _, _. split; [done|]. split; [by apply inv_mark|].
    apply (effect_upd _ s n h); try done; [|by left]. unfold wish_of. cbn. by rewrite Hi.
  - destruct (run_call s n Hinv) as (z & r & Hr & Hrun). eexists _, _. split; [exact Hrun|].
    split; [by apply inv_with_rm|]. apply effect_with_rm; [done|]. right. by exists n.
  - destruct (valid_handle s n Hinv) as [h Hh]; [by apply Hinv|].
    destruct (run_expire s n h) as (Hi & Hwip & r & Hr & Hrun); try done.
    eexists _, _. split; [exact Hrun|]. split; [by apply inv_after_expire|by apply effect_expire].
  - eexists _, _. split; [done|]. split.
    + apply (inv_with_rm s r' (it_calls s)); [done|]. eapply rm_other_ok; [apply Hinv|done].
    + apply (effect_with_rm _ s r' (it_calls s)); [done|by left].
Qed.

Lemma step_effect l s z s' :
  timer_inv s → it_enabled l s → it_run msecs_to_jiffies l s = Some (z, s') →
  timer_inv s' ∧ effect l s s'.
Proof.
  intros Hinv Hen Hrun. destruct (timer_step l s Hinv Hen) as (z' & s1 & Hrun' & H1).
  rewrite Hrun in Hrun'. by injection Hrun' as _ <-.
Qed.

Lemma trace_inv s0 ls s :
  timer_inv s0 → it_trace msecs_to_jiffies s0 ls s → timer_inv s.
Proof.
  intros H0' Htr. induction Htr as [|s0 ls s1 l z s2 _ IH Hen Hrun]; [done|].
  by destruct (step_effect l s1 z s2 (IH H0') Hen Hrun).
Qed.

Lemma trace_wish s0 ls s :
  timer_inv s0 → it_trace msecs_to_jiffies s0 ls s →
  ∀ n, wish_of <$> ipa_rm_it_handles s !! n =
       (λ h, foldl (wish_step n) (wish_of h) ls) <$> ipa_rm_it_handles s0 !! n.
Proof.
  intros H0' Htr n. induction Htr as [|s0 ls s1 l z s2 Htr IH Hen Hrun]; [done|].
  destruct (step_effect l s1 z s2) as [_ Heff]; [by eapply trace_inv|done..|].
  rewrite (ef_wish _ _ _ Heff). specialize (IH H0').
  destruct (ipa_rm_it_handles s1 !! n) as [h1|], (ipa_rm_it_handles s0 !! n) as [h0|]; try done.
  cbn in *. injection IH as Hw. by rewrite foldl_app, <- Hw.
Qed.

Lemma trace_quiet s0 ls s n :
  timer_inv s0 → it_trace msecs_to_jiffies s0 ls s → Forall (λ l, about l ≠ Some n) ls →
  ipa_rm_it_handles s !! n = ipa_rm_it_handles s0 !! n ∧ it_pending s !! n = it_pending s0 !! n.
Proof.
  intros H0' Htr Hq. induction Htr as [|s0 ls s1 l z s2 Htr IH Hen Hrun]; [done|].
  apply Forall_app in Hq as [Hq Hl%Forall_inv].
  destruct (step_effect l s1 z s2) as [_ Heff]; [by eapply trace_inv|done..|].
  destruct (ef_frame _ _ _ Heff n Hl) as [-> ->]. by apply IH.
Qed.
End Inv.
