(* ===== verification/RmTimerProps.v ===== *)
(** * IPA resource manager: inactivity timers, properties

    Proved against the interface [RmApi]; the resource manager of [Rm] is an instance. *)

From S2P Require Import Prelude.
From S2P Require Import RmTypes.
From S2P Require Import RmTimer.
From S2P Require Import RmTimerInv.
From S2P Require Import Rm.
From S2P Require Import RmSafety.
From S2P Require Import RmInv.
From S2P Require Import RmExample.

(** ** Properties *)

Section Props.
Context {R : Type} `{RmApiLaws R}.
Context (msecs_to_jiffies : Z → Z).
Implicit Types s : it_state R.

(** The timers are safe with any resource manager that keeps its promise: in whatever
    order clients, expirations and the manager act, no step is undefined; a work is pending
    exactly for the handles that say so, with the delay of the handle; a handle with work in
    progress is initialised and holds its wakeup source active; and an operation on a name
    out of range or in the wrong state is refused with [-EINVAL] and changes nothing. *)
Theorem timers_safe r ls s :
  rm_ok r → it_trace msecs_to_jiffies (it_initial r) ls s →
  (∀ l, it_enabled l s → is_Some (it_run msecs_to_jiffies l s)) ∧
  (∀ n d, it_pending s !! n = Some d ↔
     ∃ h, ipa_rm_it_handles s !! n = Some h ∧ work_in_progress h = true ∧ it_jiffies h = d) ∧
  (∀ n h, ipa_rm_it_handles s !! n = Some h → work_in_progress h = true →
     initied h = true ∧ it_resource_name h = n ∧ ∃ w, w_lock h = Some w ∧ w ∈ it_awake s) ∧
  (∀ l n b, guarded l = Some (n, b) → initied <$> ipa_rm_it_handles s !! n ≠ Some b →
     it_run msecs_to_jiffies l s = Some (- EINVAL, s)).
Proof.
  intros Hr Htr. pose proof (trace_inv _ _ _ _ (timer_inv_initial r Hr) Htr) as Hinv.
  split; [|split; [|split]].
  - intros l Hen. destruct (timer_step msecs_to_jiffies l s Hinv Hen) as (z & s' & -> & _). done.
  - intros n d. split.
    + intros Hp. destruct (valid_handle s n Hinv) as [h Hh]; [by apply Hinv|]. exists h.
      destruct (ti_handle s Hinv n h Hh) as (_ & _ & H3 & _). rewrite Hp in H3.
      by destruct (work_in_progress h); simplify_eq.
    + intros (h & Hh & Hwip & <-). destruct (ti_handle s Hinv n h Hh) as (_ & _ & -> & _).
      by rewrite Hwip.
  - intros n h Hh Hwip. destruct (ti_handle s Hinv n h Hh) as (H1 & H2 & _ & _ & H5).
    destruct (initied h) eqn:Hi; [|by destruct (H1 eq_refl); congruence].
    destruct (H2 eq_refl) as [Hn [w Hw]]. destruct (H5 w Hw). by eauto 6.
  - intros l n b. by apply run_refused.
Qed.

(** The timer never takes a resource away from a client that wants it: whatever
    happened before, a step that makes the timers call [ipa_rm_release_resource n] is an
    expiration of the timer of [n], at a time when the last of the requests and releases that
    the timer accepted since its initialisation is a release; it is the only call the step
    makes. *)
Theorem release_only_unwanted r ls s l z s' n calls :
  rm_ok r → it_trace msecs_to_jiffies (it_initial r) ls s →
  it_enabled l s → it_run msecs_to_jiffies l s = Some (z, s') →
  it_calls s' = calls ++ it_calls s → CallRelease n ∈ calls →
  l = TExpire n ∧ calls = [CallRelease n] ∧
  foldl (wish_step n) (false, false) ls = (true, false).
Proof.
  intros Hr Htr Hen Hrun Hc Hin. pose proof (timer_inv_initial r Hr) as H0'.
  pose proof (trace_inv _ _ _ _ H0' Htr) as Hinv.
  destruct (step_effect _ l s z s' Hinv Hen Hrun) as [_ Heff].
  destruct (ef_calls _ _ _ Heff) as [He|[[m He]|(m & -> & He & Hw)]]; rewrite Hc in He.
  - change (it_calls s) with ([] ++ it_calls s) in He at 2. apply app_inj_2 in He as [-> _]; [|done].
    by apply not_elem_of_nil in Hin.
  - change (CallRequest m :: it_calls s) with ([CallRequest m] ++ it_calls s) in He.
    apply app_inv_tail in He as ->. by apply list_elem_of_singleton in Hin.
  - change (CallRelease m :: it_calls s) with ([CallRelease m] ++ it_calls s) in He.
    apply app_inv_tail in He as ->. apply list_elem_of_singleton in Hin as [= ->].
    split; [done|]. split; [done|].
    rewrite (trace_wish _ _ _ _ H0' Htr m) in Hw. cbn [it_initial ipa_rm_it_handles] in Hw.
    destruct (replicate _ zero_it !! m) as [h|] eqn:Hrep; [|done].
    apply lookup_replicate in Hrep as [-> _]. by injection Hw.
Qed.

(** The step called the release and left the timer idle. *)
Definition released_and_idle (n : nat) s s' : Prop :=
  it_calls s' = CallRelease n :: it_calls s ∧ it_pending s' !! n = None ∧
  (∀ h w, ipa_rm_it_handles s' !! n = Some h → w_lock h = Some w → w ∉ it_awake s').

Lemma expire_releases s n h :
  timer_inv s → ipa_rm_it_handles s !! n = Some h → is_Some (it_pending s !! n) →
  resource_requested h = false → reschedule_work h = false →
  ∃ s', it_run msecs_to_jiffies (TExpire n) s = Some (0, s') ∧ released_and_idle n s s'.
Proof.
  intros Hinv Hh Hp Hq Hre.
  destruct (run_expire msecs_to_jiffies s n h Hinv Hh Hp) as (_ & _ & r & _ & ->).
  eexists. split; [done|]. unfold after_expire. rewrite Hre, Hq. split; [done|].
  cbn [upd it_pending ipa_rm_it_handles it_awake]. rewrite lookup_pend, decide_True by done.
  split; [done|]. intros h' w Hh' Hw.
  rewrite list_lookup_insert_eq in Hh' by (by eapply lookup_lt_Some). injection Hh' as <-.
  cbn in Hw. rewrite Hw, elem_of_difference, elem_of_singleton. tauto.
Qed.

(** The branch that keeps the resource also keeps the wakeup source active. *)
Lemma requested_timer_stays_awake s n h :
  timer_inv s → ipa_rm_it_handles s !! n = Some h → is_Some (it_pending s !! n) →
  resource_requested h = true → reschedule_work h = false →
  ∃ s' w, it_run msecs_to_jiffies (TExpire n) s = Some (0, s') ∧ it_calls s' = it_calls s ∧
    it_pending s' !! n = None ∧ w_lock h = Some w ∧ w ∈ it_awake s'.
Proof.
  intros Hinv Hh Hp Hq Hre.
  destruct (run_expire msecs_to_jiffies s n h Hinv Hh Hp) as (Hi & Hwip & r & _ & ->).
  destruct (ti_handle s Hinv n h Hh) as (_ & H2 & _ & _ & H5).
  destruct (H2 Hi) as [_ [w Hw]]. unfold after_expire. rewrite Hre, Hq.
  eexists _, w. split; [done|]. cbn [upd it_calls it_pending it_awake].
  rewrite lookup_pend, decide_True by done. split_and!; try done. by apply (H5 w Hw).
Qed.

(** C36: The timer does release: after a release that the timer accepts, as long as no
    further operation on the timer comes, the work stays pending whatever the other clients
    and the manager do, and either its first expiration or the second one calls
    [ipa_rm_release_resource], after which the timer is idle and its wakeup source inactive. (A
    later request cancels the release, as it is meant to.) *)
Theorem release_happens r ls s n s1 ls1 s2 z3 s3 :
  rm_ok r → it_trace msecs_to_jiffies (it_initial r) ls s → timer_ready s n →
  it_run msecs_to_jiffies (TRelease n) s = Some (0, s1) →
  it_trace msecs_to_jiffies s1 ls1 s2 → Forall (λ l, about l ≠ Some n) ls1 →
  it_run msecs_to_jiffies (TExpire n) s2 = Some (z3, s3) →
  is_Some (it_pending s2 !! n) ∧
  (released_and_idle n s2 s3 ∨
   ∀ ls3 s4, it_trace msecs_to_jiffies s3 ls3 s4 → Forall (λ l, about l ≠ Some n) ls3 →
     is_Some (it_pending s4 !! n) ∧
     ∃ s5, it_run msecs_to_jiffies (TExpire n) s4 = Some (0, s5) ∧ released_and_idle n s4 s5).
Proof.
  intros Hr Htr Hready Hrel Htr1 Hq1 Hexp. pose proof (timer_inv_initial r Hr) as H0'.
  pose proof (trace_inv _ _ _ _ H0' Htr) as Hinv.
  destruct (timer_ready_handle s n Hready) as (h & Hh & Hi).
  pose proof (inv_after_release s n h Hinv Hh Hi) as Hinv1.
  rewrite (run_release _ s n h Hinv Hh Hi) in Hrel. injection Hrel as <-.
  pose proof (trace_inv _ _ _ _ Hinv1 Htr1) as Hinv2.
  destruct (trace_quiet _ _ _ _ n Hinv1 Htr1 Hq1) as [Hh2 Hp2].
  assert (∃ h2, ipa_rm_it_handles s2 !! n = Some h2 ∧ resource_requested h2 = false ∧
            is_Some (it_pending s2 !! n)) as (h2 & Hn2 & Hq2 & Hs2).
  { rewrite Hh2, Hp2. unfold after_release.
    destruct (work_in_progress h); cbn [upd ipa_rm_it_handles it_pending];
      rewrite list_lookup_insert_eq, lookup_pend, decide_True by (by eapply lookup_lt_Some || done);
      by eexists. }
  split; [done|]. destruct (reschedule_work h2) eqn:Hre.
  - right. intros ls3 s4 Htr3 Hq3.
    destruct (run_expire msecs_to_jiffies s2 n h2 Hinv2 Hn2 Hs2) as (Hi2 & Hwip2 & r' & Hr' & Hrun).
    rewrite Hexp in Hrun. injection Hrun as -> ->.
    pose proof (inv_after_expire s2 n h2 r' Hinv2 Hn2 Hi2 Hwip2 Hr') as Hinv3.
    destruct (trace_quiet _ _ _ _ n Hinv3 Htr3 Hq3) as [Hh4 Hp4].
    unfold after_expire in Hh4, Hp4. rewrite Hre in Hh4, Hp4.
    cbn [upd ipa_rm_it_handles it_pending] in Hh4, Hp4.
    rewrite list_lookup_insert_eq in Hh4 by (by eapply lookup_lt_Some).
    rewrite lookup_pend, decide_True in Hp4 by done.
    assert (is_Some (it_pending s4 !! n)) as Hs4 by (by rewrite Hp4).
    split; [done|]. apply (expire_releases s4 n (with_reschedule false h2)); try done.
    exact (trace_inv _ _ _ _ Hinv3 Htr3).
  - left. destruct (expire_releases s2 n h2) as (s' & Hrun & Hidle); try done.
    rewrite Hexp in Hrun. by injection Hrun as _ ->.
Qed.
End Props.

(** ** The resource manager is an instance *)

Section Instance_rm.
Context (E : rm_env).

#[export] Instance rm_api : RmApi rm_state := {|
  rm_request := ipa_rm_request_resource E;
  rm_release := ipa_rm_release_resource E;
  rm_other s s' := ∃ l, label_enabled l s ∧ run_label E l s = Some ((), s');
|}.

#[export, refine] Instance rm_api_laws : RmApiLaws rm_state (H := rm_api) := {| rm_ok := well_formed |}.
Proof.
  - intros n. by apply (safe_api E (ApiRequest n)).
  - intros n. by apply (safe_api E (ApiRelease n)).
  - intros s s' Hs (l & Hen & Hrun). pose proof (safe_label E l s Hs Hen) as Hwp.
    unfold wp in Hwp. by rewrite Hrun in Hwp.
Defined.
End Instance_rm.

(** ** Witnesses: bursts on a granted producer *)

#[local] Existing Instance rm_api.
#[local] Existing Instance rm_api_laws.

Section Witnesses.
#[local] Instance demo_api : RmApi rm_state := rm_api demo_env.
#[local] Instance demo_laws : RmApiLaws rm_state := rm_api_laws demo_env.

(** [msecs_to_jiffies] with 250 ticks a second. *)
Definition ticks (ms : Z) : Z := (ms + 3) / 4.

Definition it_enabledb (l : it_label (R := rm_state)) (s : it_state rm_state) : bool :=
  match l with
  | TExpire n => is_some (it_pending s !! n)
  | TMark _ | TRm _ => false
  | _ => true
  end.

Fixpoint it_runs (ls : list it_label) (s : it_state rm_state) : option (it_state rm_state) :=
  match ls with
  | [] => Some s
  | l :: ls' =>
      if it_enabledb l s then
        match it_run ticks l s with Some (_, s') => it_runs ls' s' | None => None end
      else None
  end.

Lemma it_runs_trace ls : ∀ s0 ls0 s s',
  it_trace ticks s0 ls0 s → it_runs ls s = Some s' → it_trace ticks s0 (ls0 ++ ls) s'.
Proof.
  induction ls as [|l ls IH]; intros s0 ls0 s s' Htr Hr; cbn in Hr.
  { injection Hr as <-. by rewrite app_nil_r. }
  destruct (it_enabledb l s) eqn:He; [|done].
  destruct (it_run ticks l s) as [[z s1]|] eqn:Hl; [|done].
  replace (ls0 ++ l :: ls) with ((ls0 ++ [l]) ++ ls) by (by rewrite <- app_assoc).
  apply (IH s0 (ls0 ++ [l]) s1); [|done]. eapply it_trace_snoc; [done| |done].
  destruct l; cbn in *; try done. by destruct (it_pending s !! n).
Qed.

Definition granted : rm_state := state_after demo_granted.
Definition it_after (ls : list it_label) : it_state rm_state :=
  match it_runs ls (it_initial granted) with Some s => s | None => it_initial granted end.

Lemma granted_ok : rm_ok granted.
Proof. eapply reachable_well_formed. by apply (demo_reachable demo_granted); vm_cast_no_check (eq_refl true). Qed.

Lemma it_after_trace ls :
  is_some (it_runs ls (it_initial granted)) = true → it_trace ticks (it_initial granted) ls (it_after ls).
Proof.
  unfold it_after. intros H. destruct (it_runs _ _) as [s|] eqn:Hr; [|done].
  apply (it_runs_trace ls _ [] _ s (it_trace_nil _ _) Hr).
Qed.

Definition burst : list (it_label (R := rm_state)) := [TInit 0 100 true; TRequest 0; TRelease 0].
Definition it_next (l : it_label) (ls : list it_label) : Z * it_state rm_state :=
  match it_run ticks l (it_after ls) with Some r => r | None => (0, it_after ls) end.

Lemma it_next_run l ls :
  is_some (it_run ticks l (it_after ls)) = true →
  it_run ticks l (it_after ls) = Some ((it_next l ls).1, (it_next l ls).2).
Proof. unfold it_next. by destruct (it_run _ _ _) as [[]|]. Qed.

Ltac by_run := vm_cast_no_check (eq_refl true).

Lemma burst_trace : it_trace ticks (it_initial granted) burst (it_after burst).
Proof. apply it_after_trace. by_run. Qed.

Lemma burst_pending : is_some (it_pending (it_after burst) !! 0%nat) = true.
Proof. by_run. Qed.

Lemma burst_enabled : it_enabled (TExpire 0) (it_after burst).
Proof. pose proof burst_pending as Hp. cbn. by destruct (it_pending (it_after burst) !! 0%nat). Qed.

Lemma burst_expires :
  it_run ticks (TExpire 0) (it_after burst) =
  Some ((it_next (TExpire 0) burst).1, (it_next (TExpire 0) burst).2).
Proof. apply it_next_run. by_run. Qed.

Definition request_burst : list (it_label (R := rm_state)) := [TInit 0 100 true; TRequest 0].

Lemma request_burst_released :
  it_run ticks (TRelease 0) (it_after request_burst) = Some (0, (it_next (TRelease 0) request_burst).2).
Proof.
  rewrite it_next_run by by_run.
  assert ((it_next (TRelease 0) request_burst).1 = 0) as -> by (vm_cast_no_check (eq_refl 0)).
  done.
Qed.

Definition expired : Z * it_state rm_state :=
  match it_run ticks (TExpire 0) (it_next (TRelease 0) request_burst).2 with
  | Some r => r | None => (0, it_after request_burst) end.

Lemma request_burst_expires :
  it_run ticks (TExpire 0) (it_next (TRelease 0) request_burst).2 = Some (expired.1, expired.2).
Proof.
  assert (is_some (it_run ticks (TExpire 0) (it_next (TRelease 0) request_burst).2) = true)
    as H by by_run.
  unfold expired. by destruct (it_run _ _ _) as [[]|].
Qed.

Lemma timers_safe_witness :
  (∀ l, it_enabled l (it_after burst) → is_Some (it_run ticks l (it_after burst))) ∧
  (∀ n d, it_pending (it_after burst) !! n = Some d ↔
     ∃ h, ipa_rm_it_handles (it_after burst) !! n = Some h ∧ work_in_progress h = true ∧
          it_jiffies h = d) ∧
  (∀ n h, ipa_rm_it_handles (it_after burst) !! n = Some h → work_in_progress h = true →
     initied h = true ∧ it_resource_name h = n ∧
     ∃ w, w_lock h = Some w ∧ w ∈ it_awake (it_after burst)) ∧
  (∀ l n b, guarded l = Some (n, b) →
     initied <$> ipa_rm_it_handles (it_after burst) !! n ≠ Some b →
     it_run ticks l (it_after burst) = Some (- EINVAL, it_after burst)).
Proof. apply (timers_safe ticks granted burst); [apply granted_ok|apply burst_trace]. Defined.

Lemma release_only_unwanted_witness :
  TExpire 0 = TExpire (R := rm_state) 0 ∧ [CallRelease 0] = [CallRelease 0] ∧
  foldl (wish_step 0) (false, false) burst = (true, false).
Proof.
  apply (release_only_unwanted ticks granted burst (it_after burst) (TExpire 0)
    (it_next (TExpire 0) burst).1 (it_next (TExpire 0) burst).2 0 [CallRelease 0]).
  - apply granted_ok.
  - apply burst_trace.
  - apply burst_enabled.
  - apply burst_expires.
  - vm_cast_no_check (eq_refl [CallRelease 0; CallRequest 0]).
  - by left.
Defined.

Lemma release_happens_witness :
  is_Some (it_pending (it_next (TRelease 0) request_burst).2 !! 0%nat) ∧
  (released_and_idle 0 (it_next (TRelease 0) request_burst).2 expired.2 ∨
   ∀ ls3 s4, it_trace ticks expired.2 ls3 s4 → Forall (λ l, about l ≠ Some 0%nat) ls3 →
     is_Some (it_pending s4 !! 0%nat) ∧
     ∃ s5, it_run ticks (TExpire 0) s4 = Some (0, s5) ∧ released_and_idle 0 s4 s5).
Proof.
  apply (release_happens ticks granted request_burst (it_after request_burst) 0
    (it_next (TRelease 0) request_burst).2 [] (it_next (TRelease 0) request_burst).2
    expired.1 expired.2).
  - apply granted_ok.
  - apply it_after_trace. by_run.
  - unfold timer_ready. vm_cast_no_check (eq_refl (Some true)).
  - apply request_burst_released.
  - apply it_trace_nil.
  - constructor.
  - apply request_burst_expires.
Defined.
End Witnesses.
