(* ===== verification/SpsTypes.v ===== *)
(** * SPS: data

    The structs of [msm-sps.h], [spsi.h] and [sps_bam.h] that connections are made of, the
    state of the driver with its three kinds of objects (the clients' [sps_pipe], the
    [sps_connection]s, the BAM devices), and the accessors that model a dereference. The
    kernel and the registers are the environment. *)

From S2P Require Import Prelude.

(** ** Constants *)

Definition SPS_ERROR : Z := -1.
Definition ENODEV : Z := 19.
Definition EAGAIN : Z := 11.
Definition ENOMEM : Z := 12.
Definition SPS_DEV_HANDLE_MEM : Z := 2 ^ 63 - 1.
Definition SPS_DEV_HANDLE_INVALID : Z := 0.
Definition SPS_ADDR_INVALID : Z := 0xDEADBEEF.
Definition SPS_CLASS_INVALID : Z := 0xDEADBEEF.
Definition SPS_CONFIG_DEFAULT : Z := 0.
Definition SPSRM_CLEAR : Z := 0xcccccccc.
(** [SPSRM_CLEAR|SPSRM_ADDR_CLR] with 64-bit longs. *)
Definition SPSRM_CLEAR_ADDR : Z := 0xcccccccccccccccc.
Definition SPS_BAM_PIPE_INVALID : Z := 0xffffffff.
Definition BAM_MAX_PIPES : nat := 31%nat.
Definition BAM_MAX_P_LOCK_GROUP_NUM : Z := 31.
Definition SPSRM_MAX_DESC_FIFO_SIZE : Z := 0xffff.
Definition SPSRM_MAX_DATA_FIFO_SIZE : Z := 0xffff.
Definition sizeof_iovec : Z := 8.

Definition SPS_MODE_SRC : Z := 0.
Definition SPS_MODE_DEST : Z := 1.

(** [SPS_STATE_DEF(x)]: the letters S, P, S and the number. *)
Definition SPS_STATE_DEF (x : Z) : Z := 0x535053 + x * 2 ^ 24.
Definition SPS_STATE_DISCONNECT : Z := 0.
Definition SPS_STATE_ALLOCATE : Z := SPS_STATE_DEF 1.
Definition SPS_STATE_CONNECT : Z := SPS_STATE_DEF 2.
Definition SPS_STATE_ENABLE : Z := SPS_STATE_DEF 3.
Definition SPS_STATE_DISABLE : Z := SPS_STATE_DEF 4.

Definition SPS_O_STREAMING : Z := 0x00010000.
Definition SPS_O_IRQ_MTI : Z := 0x00020000.
Definition SPS_O_WRITE_NWD : Z := 0x00040000.
Definition SPS_O_NO_DISABLE : Z := 0x00800000.
Definition SPS_O_AUTO_ENABLE : Z := 0x20000000.

(** [SPS_EVENT_INDEX(SPS_EVENT_MAX)], the length of [event_regs]. *)
Definition SPS_NUM_EVENTS : nat := 9%nat.

Definition SPS_BAM_SMMU_EN : Z := 2 ^ 9.
Definition SPS_BAM_MGR_PIPE_NO_ALLOC : Z := 2 ^ 2.
Definition SPS_BAM_MGR_PIPE_NO_CONFIG : Z := 2 ^ 3.
Definition SPS_BAM_MGR_PIPE_NO_CTRL : Z := 2 ^ 4.

Definition BAM_STATE_INIT : Z := 2 ^ 1.
Definition BAM_STATE_IRQ : Z := 2 ^ 2.
Definition BAM_STATE_ENABLED : Z := 2 ^ 3.
Definition BAM_STATE_BAM2BAM : Z := 2 ^ 4.
Definition BAM_STATE_MTI : Z := 2 ^ 5.

(** [(x & flag) != 0] *)
Definition has (x flag : Z) : bool := negb (Z.land x flag =? 0).

(** ** Connections

    A pointer to memory is a number, NULL is 0; a pointer to a [sps_pipe] or to a
    [sps_connection] is an optional address, and a pointer to a BAM is an optional handle,
    since the handle of a BAM is its address. *)

Record sps_mem_buffer := mkBuf {
  mb_base : Z;
  mb_phys_base : Z;
  mb_iova : Z;
  mb_size : Z;
  mb_min_size : Z;
}.

Record sps_connect_cfg := mkConnect {
  c_source : Z;
  c_source_iova : Z;
  c_src_pipe_index : Z;
  c_destination : Z;
  c_dest_iova : Z;
  c_dest_pipe_index : Z;
  c_mode : Z;
  c_config : Z;
  c_options : Z;
  c_desc : sps_mem_buffer;
  c_data : sps_mem_buffer;
  c_event_thresh : Z;
  c_lock_group : Z;
  c_irq_gen_addr : Z;
  c_irq_gen_data : Z;
  c_sps_reserved : Z;
}.

(** [memset] of a whole struct with the byte 0xcc. *)
Definition clear_buf : sps_mem_buffer :=
  mkBuf SPSRM_CLEAR_ADDR SPSRM_CLEAR_ADDR SPSRM_CLEAR_ADDR SPSRM_CLEAR SPSRM_CLEAR.
Definition clear_connect : sps_connect_cfg :=
  mkConnect SPSRM_CLEAR_ADDR SPSRM_CLEAR_ADDR SPSRM_CLEAR SPSRM_CLEAR_ADDR SPSRM_CLEAR_ADDR
    SPSRM_CLEAR SPSRM_CLEAR SPSRM_CLEAR SPSRM_CLEAR clear_buf clear_buf SPSRM_CLEAR SPSRM_CLEAR
    SPSRM_CLEAR SPSRM_CLEAR SPSRM_CLEAR.
Definition zero_buf : sps_mem_buffer := mkBuf 0 0 0 0 0.
Definition zero_connect : sps_connect_cfg :=
  mkConnect 0 0 0 0 0 0 0 0 0 zero_buf zero_buf 0 0 0 0 0.

(** One side of a connection. *)
Record sps_conn_end_pt := mkEnd {
  ep_dev : Z;
  ep_bam_phys : Z;
  ep_pipe_index : Z;
  ep_event_threshold : Z;
  ep_lock_group : Z;
  ep_bam : option Z;
}.

Record sps_connection := mkConn {
  m_src : sps_conn_end_pt;
  m_dest : sps_conn_end_pt;
  m_desc : sps_mem_buffer;
  m_data : sps_mem_buffer;
  m_config : Z;
  m_client_src : option positive;
  m_client_dest : option positive;
  m_refs : Z;
  m_alloc_src_pipe : Z;
  m_alloc_dest_pipe : Z;
  m_alloc_desc_base : Z;
  m_alloc_data_base : Z;
}.

(** [struct sps_bam_event_reg] *)
Record sps_bam_event_reg := mkReg {
  er_xfer_done : Z;
  er_callback : Z;
  er_mode : Z;
  er_user : Z;
}.

(** A pointer to memory of the kernel's allocators, with the length of the allocation. *)
Record mem_block := mkBlock { blk_addr : Z; blk_size : Z }.
Definition no_block : mem_block := mkBlock 0 0.

(** [struct sps_bam_sys_mode] without the queue of events, which is always empty, and the
    space for the event being notified; and the options of a pipe, of which only the truth
    value is used. *)
Record sps_bam_sys_mode := mkSys {
  y_desc_buf : Z;
  y_desc_offset : Z;
  y_acked_offset : Z;
  y_desc_cache : mem_block;
  y_cache_offset : Z;
  y_user_ptrs : Z;
  y_event_regs : list sps_bam_event_reg;
  y_no_queue : bool;
  y_ack_xfers : bool;
  y_handler_eot : bool;
}.
Record pipe_opts := mkOpts {
  o_polled : bool;
  o_hybrid : bool;
  o_late_eot : bool;
  o_one_shot : bool;
}.

(** A client's context. *)
Record sps_pipe := mkPipe {
  p_client_state : Z;
  p_bam : option Z;
  p_connect : sps_connect_cfg;
  p_map : option positive;
  p_state : Z;
  p_pipe_index : Z;
  p_pipe_index_mask : Z;
  p_irq_mask : Z;
  p_irq_gen_addr : Z;
  p_mode : Z;
  p_num_descs : Z;
  p_desc_size : Z;
  p_disconnecting : bool;
  p_sys : sps_bam_sys_mode;
  p_opts : pipe_opts;
}.

(** ** BAM devices *)

Record sps_bam_pipe_sec_config_props := mkSec { se_pipe_mask : Z; se_vmid : Z }.

(** [bp_sec] is what [p_sec_config_props] points to. *)
Record sps_bam_props := mkProps {
  bp_options : Z;
  bp_phys_addr : Z;
  bp_irq : Z;
  bp_num_pipes : Z;
  bp_summing_threshold : Z;
  bp_event_threshold : Z;
  bp_desc_size : Z;
  bp_data_size : Z;
  bp_manage : Z;
  bp_restricted_pipes : Z;
  bp_ee : Z;
  bp_irq_gen_addr : Z;
  bp_sec_config : Z;
  bp_sec : option (list sps_bam_pipe_sec_config_props);
}.

(** An element of [pipes]: NULL, [BAM_PIPE_UNASSIGNED] or a client. *)
Inductive bam_slot := SlotNull | SlotUnassigned | SlotPipe (p : positive).

#[export] Instance bam_slot_eq_dec : EqDecision bam_slot.
Proof. solve_decision. Defined.

Record sps_bam := mkBam {
  b_props : sps_bam_props;
  b_state : Z;
  b_version : Z;
  b_pipe_active_mask : Z;
  b_pipe_remote_mask : Z;
  b_pipes : list bam_slot;
  b_pipes_q : list positive;
  b_desc_cache_pointers : list mem_block;
}.

(** [struct bam_pipe_parameters] *)
Inductive bam_pipe_dir := BAM_PIPE_CONSUMER | BAM_PIPE_PRODUCER.
Inductive bam_pipe_mode := BAM_PIPE_MODE_BAM2BAM | BAM_PIPE_MODE_SYSTEM.

Record bam_pipe_parameters := mkHw {
  hw_event_threshold : Z;
  hw_dir : bam_pipe_dir;
  hw_mode : bam_pipe_mode;
  hw_write_nwd : bool;
  hw_desc_base : Z;
  hw_desc_size : Z;
  hw_lock_group : Z;
  hw_stream_mode : bool;
  hw_ee : Z;
  hw_peer_phys_addr : Z;
  hw_peer_pipe : Z;
  hw_data_base : Z;
  hw_data_size : Z;
}.

(** ** The table of fixed connections ([sps_map.h]) *)

Record sps_map_end_point := mkMapEnd {
  me_periph_class : Z;
  me_periph_phy_addr : Z;
  me_pipe_index : Z;
  me_event_thresh : Z;
}.
Record sps_map := mkMap {
  sm_src : sps_map_end_point;
  sm_dest : sps_map_end_point;
  sm_config : Z;
  sm_desc_base : Z;
  sm_desc_size : Z;
  sm_data_base : Z;
  sm_data_size : Z;
}.

(** [struct sps_map_state]; [maps] is the array behind the pointer. *)
Record sps_map_state := mkMaps { maps : list sps_map; num_maps : Z }.

(** The variables of [sps_mem.c]. *)
Record sps_mem_state := mkMem {
  iomem_phys : Z;
  iomem_virt : Z;
  iomem_size : Z;
  iomem_offset : Z;
  mem_pool : bool;
  total_alloc : Z;
  total_free : Z;
}.

(** ** The state and its history *)

Inductive sps_event :=
  | EvPoolAlloc (size virt : Z)
  | EvPoolFree (virt size : Z)
  | EvKzalloc
  | EvRequestIrq (irq : Z) (edge : bool)
  | EvEnableIrqWake (irq : Z)
  | EvBamInit (bam ee summing_threshold cfg_bits irq_mask : Z)
  | EvBamCheck (bam : Z)
  | EvSecurityInit (bam ee vmid pipe_mask : Z)
  | EvSatelliteMti (bam pipe irq_gen_addr ee : Z)
  | EvPipeIsEnabled (bam pipe : Z)
  | EvPipeInit (bam pipe : Z) (hw : bam_pipe_parameters)
  | EvPipeExit (bam pipe : Z)
  | EvPipeEnable (bam pipe : Z)
  | EvPipeDisable (bam pipe : Z)
  | EvCacheAlloc (size cache : Z)
  | EvClearIrq (bam pipe : Z)
  | EvSetIrq (bam pipe : Z) (enable : bool) (src_mask ee : Z)
  | EvSetMti (bam pipe : Z) (enable : bool) (src_mask irq_gen_addr : Z)
  | EvClearFifo (base size : Z)
  | EvClearCache (cache size : Z)
  | EvFreeCache (cache : Z).

(** [sps_drv]: [None] is the NULL of [sps], and the boolean is [is_ready]. *)
Record sps_state := mkSps {
  sps_drv : option bool;
  sps_pipes : gmap positive sps_pipe;
  sps_conns : gmap positive sps_connection;
  sps_bams : gmap Z sps_bam;
  connections_q : list positive;
  sps_maps : sps_map_state;
  sps_mem : sps_mem_state;
  sps_next : positive;
  sps_hist : list sps_event;
}.

(** What the driver gets from outside, as functions of the history: the virtual address of
    [gen_pool_alloc] (0 on failure), [phys_to_virt], whether [kzalloc] succeeds, the address of
    a descriptor cache (0 on failure), the results of [request_irq] and [enable_irq_wake], and
    the registers of the BAMs: whether a pipe or the BAM is enabled, and the constants of the
    hardware, its revision and its number of pipes. *)
Record sps_env := mkSpsEnv {
  env_pool_alloc : list sps_event → Z → Z;
  env_phys_to_virt : Z → Z;
  env_sps_kzalloc : list sps_event → bool;
  env_cache_alloc : list sps_event → Z → Z;
  env_request_irq : list sps_event → Z → Z;
  env_enable_irq_wake : list sps_event → Z → Z;
  env_pipe_is_enabled : list sps_event → Z → Z → bool;
  env_bam_is_enabled : list sps_event → Z → bool;
  env_bam_revision : Z → Z;
  env_bam_num_pipes : Z → Z;
}.

Abbreviation SPS := (M sps_state).

Definition sps_log (e : sps_event) : SPS () :=
  modify (λ s, mkSps (sps_drv s) (sps_pipes s) (sps_conns s) (sps_bams s) (connections_q s)
                 (sps_maps s) (sps_mem s) (sps_next s) (e :: sps_hist s)).
Definition hist_of : SPS (list sps_event) := s ← get; mret (sps_hist s).

Definition set_pipes (P : gmap positive sps_pipe) (s : sps_state) : sps_state :=
  mkSps (sps_drv s) P (sps_conns s) (sps_bams s) (connections_q s) (sps_maps s) (sps_mem s)
    (sps_next s) (sps_hist s).
Definition set_conns (C : gmap positive sps_connection) (s : sps_state) : sps_state :=
  mkSps (sps_drv s) (sps_pipes s) C (sps_bams s) (connections_q s) (sps_maps s) (sps_mem s)
    (sps_next s) (sps_hist s).
Definition set_bams (B : gmap Z sps_bam) (s : sps_state) : sps_state :=
  mkSps (sps_drv s) (sps_pipes s) (sps_conns s) B (connections_q s) (sps_maps s) (sps_mem s)
    (sps_next s) (sps_hist s).
Definition set_queue (q : list positive) (s : sps_state) : sps_state :=
  mkSps (sps_drv s) (sps_pipes s) (sps_conns s) (sps_bams s) q (sps_maps s) (sps_mem s)
    (sps_next s) (sps_hist s).
Definition set_mem (m : sps_mem_state) (s : sps_state) : sps_state :=
  mkSps (sps_drv s) (sps_pipes s) (sps_conns s) (sps_bams s) (connections_q s) (sps_maps s) m
    (sps_next s) (sps_hist s).
Definition set_next (l : positive) (s : sps_state) : sps_state :=
  mkSps (sps_drv s) (sps_pipes s) (sps_conns s) (sps_bams s) (connections_q s) (sps_maps s)
    (sps_mem s) l (sps_hist s).

(** ** Field updates *)

Definition bam_with_pipes (l : list bam_slot) (d : sps_bam) : sps_bam :=
  mkBam (b_props d) (b_state d) (b_version d) (b_pipe_active_mask d) (b_pipe_remote_mask d) l
    (b_pipes_q d) (b_desc_cache_pointers d).
Definition bam_with_active (mask : Z) (q : list positive) (d : sps_bam) : sps_bam :=
  mkBam (b_props d) (b_state d) (b_version d) mask (b_pipe_remote_mask d) (b_pipes d) q
    (b_desc_cache_pointers d).
Definition bam_with_remote (mask : Z) (d : sps_bam) : sps_bam :=
  mkBam (b_props d) (b_state d) (b_version d) (b_pipe_active_mask d) mask (b_pipes d)
    (b_pipes_q d) (b_desc_cache_pointers d).
Definition bam_with_state (x : Z) (d : sps_bam) : sps_bam :=
  mkBam (b_props d) x (b_version d) (b_pipe_active_mask d) (b_pipe_remote_mask d) (b_pipes d)
    (b_pipes_q d) (b_desc_cache_pointers d).
Definition bam_with_version (x : Z) (d : sps_bam) : sps_bam :=
  mkBam (b_props d) (b_state d) x (b_pipe_active_mask d) (b_pipe_remote_mask d) (b_pipes d)
    (b_pipes_q d) (b_desc_cache_pointers d).
Definition bam_with_cache_pointers (l : list mem_block) (d : sps_bam) : sps_bam :=
  mkBam (b_props d) (b_state d) (b_version d) (b_pipe_active_mask d) (b_pipe_remote_mask d)
    (b_pipes d) (b_pipes_q d) l.
Definition bam_with_props (pr : sps_bam_props) (d : sps_bam) : sps_bam :=
  mkBam pr (b_state d) (b_version d) (b_pipe_active_mask d) (b_pipe_remote_mask d) (b_pipes d)
    (b_pipes_q d) (b_desc_cache_pointers d).
Definition bam_with_num_pipes (n : Z) (d : sps_bam) : sps_bam :=
  let pr := b_props d in
  bam_with_props (mkProps (bp_options pr) (bp_phys_addr pr) (bp_irq pr) n (bp_summing_threshold pr)
    (bp_event_threshold pr) (bp_desc_size pr) (bp_data_size pr) (bp_manage pr)
    (bp_restricted_pipes pr) (bp_ee pr) (bp_irq_gen_addr pr) (bp_sec_config pr) (bp_sec pr)) d.
Definition bam_with_restricted (m : Z) (d : sps_bam) : sps_bam :=
  let pr := b_props d in
  bam_with_props (mkProps (bp_options pr) (bp_phys_addr pr) (bp_irq pr) (bp_num_pipes pr)
    (bp_summing_threshold pr) (bp_event_threshold pr) (bp_desc_size pr) (bp_data_size pr)
    (bp_manage pr) m (bp_ee pr) (bp_irq_gen_addr pr) (bp_sec_config pr) (bp_sec pr)) d.

(** ** Dereferences *)

Definition get_pipe (l : positive) : SPS sps_pipe := s ← get; of_option (sps_pipes s !! l).
Definition put_pipe (l : positive) (p : sps_pipe) : SPS () :=
  get_pipe l ;; modify (λ s, set_pipes (<[l := p]> (sps_pipes s)) s).
Definition upd_pipe (l : positive) (f : sps_pipe → sps_pipe) : SPS () :=
  p ← get_pipe l; put_pipe l (f p).

Definition get_conn (m : positive) : SPS sps_connection := s ← get; of_option (sps_conns s !! m).
Definition put_conn (m : positive) (c : sps_connection) : SPS () :=
  get_conn m ;; modify (λ s, set_conns (<[m := c]> (sps_conns s)) s).
Definition upd_conn (m : positive) (f : sps_connection → sps_connection) : SPS () :=
  c ← get_conn m; put_conn m (f c).

Definition get_bam (b : Z) : SPS sps_bam := s ← get; of_option (sps_bams s !! b).
Definition put_bam (b : Z) (d : sps_bam) : SPS () :=
  get_bam b ;; modify (λ s, set_bams (<[b := d]> (sps_bams s)) s).
Definition upd_bam (b : Z) (f : sps_bam → sps_bam) : SPS () := d ← get_bam b; put_bam b (f d).
(** A pointer that may be NULL. *)
Definition deref {A} (p : option A) : SPS A := of_option p.

(** [dev->pipes[pipe_index]] *)
Definition get_slot (b pipe_index : Z) : SPS bam_slot :=
  d ← get_bam b; of_option (lookup_z (b_pipes d) pipe_index).
Definition put_slot (b pipe_index : Z) (x : bam_slot) : SPS () :=
  d ← get_bam b;
  l ← of_option (store_z (b_pipes d) pipe_index x);
  put_bam b (bam_with_pipes l d).

Definition with_client_state (x : Z) (p : sps_pipe) : sps_pipe :=
  mkPipe x (p_bam p) (p_connect p) (p_map p) (p_state p) (p_pipe_index p) (p_pipe_index_mask p)
    (p_irq_mask p) (p_irq_gen_addr p) (p_mode p) (p_num_descs p) (p_desc_size p)
    (p_disconnecting p) (p_sys p) (p_opts p).
Definition with_bam (x : option Z) (p : sps_pipe) : sps_pipe :=
  mkPipe (p_client_state p) x (p_connect p) (p_map p) (p_state p) (p_pipe_index p)
    (p_pipe_index_mask p) (p_irq_mask p) (p_irq_gen_addr p) (p_mode p) (p_num_descs p)
    (p_desc_size p) (p_disconnecting p) (p_sys p) (p_opts p).
Definition with_connect (x : sps_connect_cfg) (p : sps_pipe) : sps_pipe :=
  mkPipe (p_client_state p) (p_bam p) x (p_map p) (p_state p) (p_pipe_index p)
    (p_pipe_index_mask p) (p_irq_mask p) (p_irq_gen_addr p) (p_mode p) (p_num_descs p)
    (p_desc_size p) (p_disconnecting p) (p_sys p) (p_opts p).
Definition with_map (x : option positive) (p : sps_pipe) : sps_pipe :=
  mkPipe (p_client_state p) (p_bam p) (p_connect p) x (p_state p) (p_pipe_index p)
    (p_pipe_index_mask p) (p_irq_mask p) (p_irq_gen_addr p) (p_mode p) (p_num_descs p)
    (p_desc_size p) (p_disconnecting p) (p_sys p) (p_opts p).
Definition with_pstate (x : Z) (p : sps_pipe) : sps_pipe :=
  mkPipe (p_client_state p) (p_bam p) (p_connect p) (p_map p) x (p_pipe_index p)
    (p_pipe_index_mask p) (p_irq_mask p) (p_irq_gen_addr p) (p_mode p) (p_num_descs p)
    (p_desc_size p) (p_disconnecting p) (p_sys p) (p_opts p).
Definition with_pipe_index (x : Z) (p : sps_pipe) : sps_pipe :=
  mkPipe (p_client_state p) (p_bam p) (p_connect p) (p_map p) (p_state p) x
    (p_pipe_index_mask p) (p_irq_mask p) (p_irq_gen_addr p) (p_mode p) (p_num_descs p)
    (p_desc_size p) (p_disconnecting p) (p_sys p) (p_opts p).
Definition with_pipe_index_mask (x : Z) (p : sps_pipe) : sps_pipe :=
  mkPipe (p_client_state p) (p_bam p) (p_connect p) (p_map p) (p_state p) (p_pipe_index p) x
    (p_irq_mask p) (p_irq_gen_addr p) (p_mode p) (p_num_descs p) (p_desc_size p)
    (p_disconnecting p) (p_sys p) (p_opts p).
Definition with_irq_gen_addr (x : Z) (p : sps_pipe) : sps_pipe :=
  mkPipe (p_client_state p) (p_bam p) (p_connect p) (p_map p) (p_state p) (p_pipe_index p)
    (p_pipe_index_mask p) (p_irq_mask p) x (p_mode p) (p_num_descs p) (p_desc_size p)
    (p_disconnecting p) (p_sys p) (p_opts p).
Definition with_pmode (x : Z) (p : sps_pipe) : sps_pipe :=
  mkPipe (p_client_state p) (p_bam p) (p_connect p) (p_map p) (p_state p) (p_pipe_index p)
    (p_pipe_index_mask p) (p_irq_mask p) (p_irq_gen_addr p) x (p_num_descs p) (p_desc_size p)
    (p_disconnecting p) (p_sys p) (p_opts p).
Definition with_descs (num size : Z) (p : sps_pipe) : sps_pipe :=
  mkPipe (p_client_state p) (p_bam p) (p_connect p) (p_map p) (p_state p) (p_pipe_index p)
    (p_pipe_index_mask p) (p_irq_mask p) (p_irq_gen_addr p) (p_mode p) num size
    (p_disconnecting p) (p_sys p) (p_opts p).
Definition with_disconnecting (x : bool) (p : sps_pipe) : sps_pipe :=
  mkPipe (p_client_state p) (p_bam p) (p_connect p) (p_map p) (p_state p) (p_pipe_index p)
    (p_pipe_index_mask p) (p_irq_mask p) (p_irq_gen_addr p) (p_mode p) (p_num_descs p)
    (p_desc_size p) x (p_sys p) (p_opts p).
Definition with_irq_mask (x : Z) (p : sps_pipe) : sps_pipe :=
  mkPipe (p_client_state p) (p_bam p) (p_connect p) (p_map p) (p_state p) (p_pipe_index p)
    (p_pipe_index_mask p) x (p_irq_gen_addr p) (p_mode p) (p_num_descs p) (p_desc_size p)
    (p_disconnecting p) (p_sys p) (p_opts p).
Definition with_sys (x : sps_bam_sys_mode) (p : sps_pipe) : sps_pipe :=
  mkPipe (p_client_state p) (p_bam p) (p_connect p) (p_map p) (p_state p) (p_pipe_index p)
    (p_pipe_index_mask p) (p_irq_mask p) (p_irq_gen_addr p) (p_mode p) (p_num_descs p)
    (p_desc_size p) (p_disconnecting p) x (p_opts p).
Definition with_opts (x : pipe_opts) (p : sps_pipe) : sps_pipe :=
  mkPipe (p_client_state p) (p_bam p) (p_connect p) (p_map p) (p_state p) (p_pipe_index p)
    (p_pipe_index_mask p) (p_irq_mask p) (p_irq_gen_addr p) (p_mode p) (p_num_descs p)
    (p_desc_size p) (p_disconnecting p) (p_sys p) x.

Definition sys_clear : sps_bam_sys_mode :=
  mkSys 0 0 0 no_block 0 0 (replicate SPS_NUM_EVENTS (mkReg 0 0 0 0)) false false false.
Definition sys_with_buf (x : Z) (y : sps_bam_sys_mode) : sps_bam_sys_mode :=
  mkSys x 0 0 (y_desc_cache y) (y_cache_offset y) (y_user_ptrs y) (y_event_regs y)
    (y_no_queue y) (y_ack_xfers y) (y_handler_eot y).
Definition sys_with_cache (cache : mem_block) (cache_offset user_ptrs : Z) (y : sps_bam_sys_mode) :
    sps_bam_sys_mode :=
  mkSys (y_desc_buf y) (y_desc_offset y) (y_acked_offset y) cache cache_offset user_ptrs
    (y_event_regs y) (y_no_queue y) (y_ack_xfers y) (y_handler_eot y).
Definition sys_with_queue (no_queue ack_xfers : bool) (y : sps_bam_sys_mode) : sps_bam_sys_mode :=
  mkSys (y_desc_buf y) (y_desc_offset y) (y_acked_offset y) (y_desc_cache y) (y_cache_offset y)
    (y_user_ptrs y) (y_event_regs y) no_queue ack_xfers (y_handler_eot y).
Definition sys_with_desc_offset (x : Z) (y : sps_bam_sys_mode) : sps_bam_sys_mode :=
  mkSys (y_desc_buf y) x (y_acked_offset y) (y_desc_cache y) (y_cache_offset y) (y_user_ptrs y)
    (y_event_regs y) (y_no_queue y) (y_ack_xfers y) (y_handler_eot y).
Definition sys_with_acked_offset (x : Z) (y : sps_bam_sys_mode) : sps_bam_sys_mode :=
  mkSys (y_desc_buf y) (y_desc_offset y) x (y_desc_cache y) (y_cache_offset y) (y_user_ptrs y)
    (y_event_regs y) (y_no_queue y) (y_ack_xfers y) (y_handler_eot y).
Definition sys_with_cache_offset (x : Z) (y : sps_bam_sys_mode) : sps_bam_sys_mode :=
  mkSys (y_desc_buf y) (y_desc_offset y) (y_acked_offset y) (y_desc_cache y) x (y_user_ptrs y)
    (y_event_regs y) (y_no_queue y) (y_ack_xfers y) (y_handler_eot y).
Definition sys_with_regs (x : list sps_bam_event_reg) (y : sps_bam_sys_mode) : sps_bam_sys_mode :=
  mkSys (y_desc_buf y) (y_desc_offset y) (y_acked_offset y) (y_desc_cache y) (y_cache_offset y)
    (y_user_ptrs y) x (y_no_queue y) (y_ack_xfers y) (y_handler_eot y).
Definition sys_with_handler (x : bool) (y : sps_bam_sys_mode) : sps_bam_sys_mode :=
  mkSys (y_desc_buf y) (y_desc_offset y) (y_acked_offset y) (y_desc_cache y) (y_cache_offset y)
    (y_user_ptrs y) (y_event_regs y) (y_no_queue y) (y_ack_xfers y) x.

(** *** The two sides of a connection: [true] is the source *)

Definition end_of (sd : bool) (c : sps_connection) : sps_conn_end_pt :=
  if sd then m_src c else m_dest c.
Definition client_on (sd : bool) (c : sps_connection) : option positive :=
  if sd then m_client_src c else m_client_dest c.
Definition alloc_on (sd : bool) (c : sps_connection) : Z :=
  if sd then m_alloc_src_pipe c else m_alloc_dest_pipe c.

Definition with_end (sd : bool) (e : sps_conn_end_pt) (c : sps_connection) : sps_connection :=
  mkConn (if sd then e else m_src c) (if sd then m_dest c else e) (m_desc c) (m_data c)
    (m_config c) (m_client_src c) (m_client_dest c) (m_refs c) (m_alloc_src_pipe c)
    (m_alloc_dest_pipe c) (m_alloc_desc_base c) (m_alloc_data_base c).
Definition with_client (sd : bool) (l : option positive) (c : sps_connection) : sps_connection :=
  mkConn (m_src c) (m_dest c) (m_desc c) (m_data c) (m_config c)
    (if sd then l else m_client_src c) (if sd then m_client_dest c else l) (m_refs c)
    (m_alloc_src_pipe c) (m_alloc_dest_pipe c) (m_alloc_desc_base c) (m_alloc_data_base c).
Definition with_alloc (sd : bool) (i : Z) (c : sps_connection) : sps_connection :=
  mkConn (m_src c) (m_dest c) (m_desc c) (m_data c) (m_config c) (m_client_src c)
    (m_client_dest c) (m_refs c) (if sd then i else m_alloc_src_pipe c)
    (if sd then m_alloc_dest_pipe c else i) (m_alloc_desc_base c) (m_alloc_data_base c).
Definition with_refs (x : Z) (c : sps_connection) : sps_connection :=
  mkConn (m_src c) (m_dest c) (m_desc c) (m_data c) (m_config c) (m_client_src c)
    (m_client_dest c) x (m_alloc_src_pipe c) (m_alloc_dest_pipe c) (m_alloc_desc_base c)
    (m_alloc_data_base c).

(** *** The two FIFOs: [true] is that of the descriptors *)

Definition fifo_of (ds : bool) (c : sps_connection) : sps_mem_buffer :=
  if ds then m_desc c else m_data c.
Definition fifo_base (ds : bool) (c : sps_connection) : Z :=
  if ds then m_alloc_desc_base c else m_alloc_data_base c.
Definition with_fifo (ds : bool) (buf : sps_mem_buffer) (base : Z) (c : sps_connection) :
    sps_connection :=
  mkConn (m_src c) (m_dest c) (if ds then buf else m_desc c) (if ds then m_data c else buf)
    (m_config c) (m_client_src c) (m_client_dest c) (m_refs c) (m_alloc_src_pipe c)
    (m_alloc_dest_pipe c) (if ds then base else m_alloc_desc_base c)
    (if ds then m_alloc_data_base c else base).

Definition with_ep_pipe (x : Z) (e : sps_conn_end_pt) : sps_conn_end_pt :=
  mkEnd (ep_dev e) (ep_bam_phys e) x (ep_event_threshold e) (ep_lock_group e) (ep_bam e).
Definition with_ep_bam (x : option Z) (e : sps_conn_end_pt) : sps_conn_end_pt :=
  mkEnd (ep_dev e) (ep_bam_phys e) (ep_pipe_index e) (ep_event_threshold e) (ep_lock_group e) x.
Definition with_ep_defaults (phys thresh : Z) (e : sps_conn_end_pt) : sps_conn_end_pt :=
  mkEnd (ep_dev e) phys (ep_pipe_index e) thresh (ep_lock_group e) (ep_bam e).
Definition with_ep_thresh (x : Z) (e : sps_conn_end_pt) : sps_conn_end_pt :=
  mkEnd (ep_dev e) (ep_bam_phys e) (ep_pipe_index e) x (ep_lock_group e) (ep_bam e).
Definition with_ep_lock (x : Z) (e : sps_conn_end_pt) : sps_conn_end_pt :=
  mkEnd (ep_dev e) (ep_bam_phys e) (ep_pipe_index e) (ep_event_threshold e) x (ep_bam e).

(** ** Steps that may fail *)

(** Do the steps in order until one returns [false]. *)
Fixpoint all_steps (steps : list (SPS bool)) : SPS bool :=
  match steps with
  | [] => mret true
  | st :: steps' => ok ← st; if ok : bool then all_steps steps' else mret false
  end.
