(* ===== verification/SpsMem.v ===== *)
(** * SPS: I/O memory and the table of fixed connections

    [sps_mem.c] and [sps_map.c]. *)

From S2P Require Import Prelude.
From S2P Require Import SpsTypes.

Section Mem.
Context (E : sps_env).

Definition get_mem : SPS sps_mem_state := s ← get; mret (sps_mem s).
Definition put_mem (m : sps_mem_state) : SPS () := modify (set_mem m).

(** ** sps_mem.c *)

Definition spsi_get_mem_ptr (phys_addr : Z) : SPS Z :=
  m ← get_mem;
  if (iomem_phys m <=? phys_addr) && (phys_addr <? u64 (iomem_phys m + iomem_size m)) then
    mret (u64 (iomem_virt m + (phys_addr - iomem_phys m)))
  else mret (env_phys_to_virt E phys_addr).

Definition gen_pool_alloc (bytes : Z) : SPS Z :=
  h ← hist_of;
  let virt := env_pool_alloc E h bytes in
  sps_log (EvPoolAlloc bytes virt) ;; mret virt.

Definition sps_mem_alloc_io (bytes : Z) : SPS Z :=
  virt_addr ← gen_pool_alloc bytes;
  if virt_addr =? 0 then mret SPS_ADDR_INVALID
  else
    m ← get_mem;
    let off := u32 (virt_addr - iomem_virt m) in
    put_mem (mkMem (iomem_phys m) (iomem_virt m) (iomem_size m) off (mem_pool m)
               (u32 (total_alloc m + bytes)) (total_free m)) ;;
    mret (u64 (iomem_phys m + off)).

Definition sps_mem_free_io (phys_addr bytes : Z) : SPS () :=
  m ← get_mem;
  let off := u32 (phys_addr - iomem_phys m) in
  sps_log (EvPoolFree (u64 (iomem_virt m + off)) bytes) ;;
  put_mem (mkMem (iomem_phys m) (iomem_virt m) (iomem_size m) off (mem_pool m)
             (total_alloc m) (u32 (total_free m + bytes))).

(** The two counters are [u32]. *)
Definition sps_mem_de_init : SPS Z :=
  m ← get_mem;
  (if iomem_virt m =? 0 then mret ()
   else put_mem (mkMem (iomem_phys m) 0 (iomem_size m) (iomem_offset m) false
                   (total_alloc m) (total_free m))) ;;
  if u32 (total_alloc m) =? u32 (total_free m) then mret 0 else mret SPS_ERROR.

(** ** sps_map.c *)

(** The entries before the one that ends the table; reading past the array is undefined. *)
Fixpoint count_maps (l : list sps_map) : option Z :=
  match l with
  | [] => None
  | m :: l' =>
      if (me_periph_class (sm_src m) =? SPS_CLASS_INVALID) &&
         (me_periph_phy_addr (sm_src m) =? SPS_ADDR_INVALID) then Some 0
      else n ← count_maps l'; Some (u32 (n + 1))
  end.

Definition put_maps (t : sps_map_state) : SPS () :=
  modify (λ s, mkSps (sps_drv s) (sps_pipes s) (sps_conns s) (sps_bams s) (connections_q s) t
                 (sps_mem s) (sps_next s) (sps_hist s)).

Definition sps_map_init (map_props : option (list sps_map)) : SPS Z :=
  put_maps (mkMaps [] 0) ;;
  match map_props with
  | None => mret 0
  | Some l => n ← of_option (count_maps l); put_maps (mkMaps l n) ;; mret 0
  end.

Definition sps_map_de_init : SPS () := put_maps (mkMaps [] 0).

(** The search loop: [None] outside the array, [Some None] for no match. *)
Fixpoint find_map (turns : nat) (l : list sps_map) (cfg : sps_connect_cfg) :
    option (option sps_map) :=
  match turns with
  | O => Some None
  | S turns' =>
      match l with
      | [] => None
      | m :: l' =>
          if (me_periph_class (sm_src m) =? u32 (c_source cfg)) &&
             (me_periph_class (sm_dest m) =? u32 (c_destination cfg)) &&
             (sm_config m =? c_config cfg) then Some (Some m)
          else find_map turns' l' cfg
      end
  end.

(** Has the entry a data FIFO? *)
Definition map_has_data (m : sps_map) : bool :=
  (0 <? sm_data_size m) && negb (sm_data_base m =? SPS_ADDR_INVALID).

(** The parameters after a match; [desc] and [data] are the virtual addresses. *)
Definition map_connect (m : sps_map) (desc data : Z) (c : sps_connect_cfg) : sps_connect_cfg :=
  mkConnect (c_source c) (c_source_iova c)
    (if c_source c =? SPS_DEV_HANDLE_MEM then c_src_pipe_index c else me_pipe_index (sm_src m))
    (c_destination c) (c_dest_iova c)
    (if c_destination c =? SPS_DEV_HANDLE_MEM then c_dest_pipe_index c
     else me_pipe_index (sm_dest m))
    (c_mode c) (c_config c) (c_options c)
    (mkBuf desc (sm_desc_base m) (mb_iova (c_desc c)) (sm_desc_size m) (mb_min_size (c_desc c)))
    (if map_has_data m then
       mkBuf data (sm_data_base m) (mb_iova (c_data c)) (sm_data_size m) (mb_min_size (c_data c))
     else c_data c)
    (if c_mode c =? SPS_MODE_SRC then me_event_thresh (sm_src m) else me_event_thresh (sm_dest m))
    (c_lock_group c) (c_irq_gen_addr c) (c_irq_gen_data c) (c_sps_reserved c).

(** On the parameters [cfg]: the result and the parameters after it. *)
Definition sps_map_find (cfg : sps_connect_cfg) : SPS (Z * sps_connect_cfg) :=
  s ← get;
  if num_maps (sps_maps s) =? 0 then mret (SPS_ERROR, cfg)
  else
    r ← of_option (find_map (Z.to_nat (num_maps (sps_maps s))) (maps (sps_maps s)) cfg);
    match r with
    | None => mret (SPS_ERROR, cfg)
    | Some m =>
        desc ← spsi_get_mem_ptr (sm_desc_base m);
        if desc =? 0 then mret (SPS_ERROR, cfg)
        else
          if map_has_data m then
            data ← spsi_get_mem_ptr (sm_data_base m);
            if data =? 0 then mret (SPS_ERROR, cfg) else mret (0, map_connect m desc data cfg)
          else mret (0, map_connect m desc 0 cfg)
    end.
End Mem.
