(* ===== verification/SpsDev.v ===== *)
(** * SPS: switching a BAM on, and the options of a pipe

    [sps_bam_enable] and [sps_bam_pipe_set_params] of [sps_bam.c], with [bam_init] and
    [bam_check] of [bam.c]. What is written to registers are events of the history; the
    registers that are read are the environment. *)

From S2P Require Import Prelude.
From S2P Require Import SpsTypes.

Definition SPS_IRQ_INVALID : Z := 0.
Definition SPS_BAM_OPT_IRQ_DISABLED : Z := 2 ^ 1.
Definition SPS_BAM_OPT_IRQ_WAKEUP : Z := 2 ^ 3.
Definition SPS_BAM_NO_EXT_P_RST : Z := 2 ^ 4.
Definition SPS_BAM_RES_CONFIRM : Z := 2 ^ 7.
Definition SPS_BAM_HOLD_MEM : Z := 2 ^ 8.
Definition SPS_BAM_MGR_DEVICE_REMOTE : Z := 1.
Definition SPS_BAM_MGR_MULTI_EE : Z := 2 ^ 1.
Definition SPS_BAM_MGR_NONE : Z := 29.
Definition SPS_BAM_NUM_EES : nat := 4.
Definition SPS_BAM_SEC_DO_CONFIG : Z := 0x0A434553.
Definition BAM_IRQ_ALL : Z := 0x16.
Definition BAM_MIN_VERSION : Z := 2.
Definition BAM_MAX_VERSION : Z := 0x2f.
Definition PAGE_SIZE : Z := 4096.

Definition SPS_O_EOT : Z := 0x20.
Definition SPS_O_DESC_DONE : Z := 0x1.
Definition SPS_O_WAKEUP : Z := 0x4.
Definition SPS_O_INACTIVE : Z := 0x2.
Definition SPS_O_OUT_OF_DESC : Z := 0x8.
Definition SPS_O_ERROR : Z := 0x10.
Definition SPS_O_RST_ERROR : Z := 0x40.
Definition SPS_O_HRESP_ERROR : Z := 0x80.
Definition SPS_O_LATE_EOT : Z := 0x00080000.
Definition SPS_O_POLL : Z := 0x01000000.
Definition SPS_O_NO_Q : Z := 0x02000000.
Definition SPS_O_WAKEUP_IS_ONESHOT : Z := 0x08000000.
Definition SPS_O_ACK_TRANSFERS : Z := 0x10000000.
Definition SPS_O_HYBRID : Z := 0x80000000.

(** [BAM_VERSION_MTI_SUPPORT] *)
Definition BAM_VERSION_MTI_SUPPORT (ver : Z) : bool := ver <=? 2.

(** ** The events of a pipe *)

Definition SPS_EVENT_EOT : Z := 1.
Definition SPS_EVENT_DESC_DONE : Z := 2.
Definition SPS_EVENT_OUT_OF_DESC : Z := 3.
Definition SPS_EVENT_WAKEUP : Z := 4.
Definition SPS_EVENT_INACTIVE : Z := 6.
Definition SPS_EVENT_ERROR : Z := 7.
Definition SPS_EVENT_RST_ERROR : Z := 8.
Definition SPS_EVENT_HRESP_ERROR : Z := 9.

Record sps_bam_opt_event_table := mkOpt { oe_event_id : Z; oe_option : Z; oe_pipe_irq : Z }.

Definition opt_event_table : list sps_bam_opt_event_table :=
  [ mkOpt SPS_EVENT_EOT SPS_O_EOT 0x20; mkOpt SPS_EVENT_DESC_DONE SPS_O_DESC_DONE 0x1;
    mkOpt SPS_EVENT_WAKEUP SPS_O_WAKEUP 0x4; mkOpt SPS_EVENT_INACTIVE SPS_O_INACTIVE 0x2;
    mkOpt SPS_EVENT_OUT_OF_DESC SPS_O_OUT_OF_DESC 0x8; mkOpt SPS_EVENT_ERROR SPS_O_ERROR 0x10;
    mkOpt SPS_EVENT_RST_ERROR SPS_O_RST_ERROR 0x40;
    mkOpt SPS_EVENT_HRESP_ERROR SPS_O_HRESP_ERROR 0x80 ].

Definition sps_bam_driver_init : Z :=
  if forallb (λ e, oe_option e =? oe_pipe_irq e) opt_event_table then 0 else SPS_ERROR.

Definition event_mask (options : Z) : Z :=
  foldl (λ mask e, if has options (oe_option e) then Z.lor mask (oe_pipe_irq e) else mask) 0
    opt_event_table.

Definition BAM2BAM_O_INVALID : Z :=
  Z.lor SPS_O_DESC_DONE (Z.lor SPS_O_EOT (Z.lor SPS_O_POLL (Z.lor SPS_O_NO_Q SPS_O_ACK_TRANSFERS))).

Section Dev.
Context (E : sps_env).

(** ** bam.c *)

(** The result, and the number of pipes that the register reports on success; the version is
    stored in the BAM. *)
Definition bam_init (b irq_mask : Z) : SPS (Z * Z) :=
  dev ← get_bam b;
  let pr := b_props dev in
  let ver := env_bam_revision E b in
  if (ver <? BAM_MIN_VERSION) || (BAM_MAX_VERSION <? ver) then mret (- ENODEV, 0)
  else
    let threshold := u16 (bp_summing_threshold pr) in
    let cfg_bits := if has (bp_options pr) SPS_BAM_NO_EXT_P_RST then 0xffffffff - 3 * 2 ^ 11
                    else 0xffffffff - 2 ^ 11 in
    sps_log (EvBamInit b (bp_ee pr) (if threshold =? 0 then 4 else threshold) cfg_bits irq_mask) ;;
    upd_bam b (bam_with_version ver) ;;
    mret (0, env_bam_num_pipes E b).

Definition bam_check (b : Z) : SPS (Z * Z) :=
  h ← hist_of;
  sps_log (EvBamCheck b) ;;
  if negb (env_bam_is_enabled E h b) then mret (- ENODEV, 0)
  else
    let ver := env_bam_revision E b in
    upd_bam b (bam_with_version ver) ;;
    if (ver <? BAM_MIN_VERSION) || (BAM_MAX_VERSION <? ver) then
      mret (- ENODEV, env_bam_num_pipes E b)
    else mret (0, env_bam_num_pipes E b).

(** ** sps_bam_enable *)

(** The interrupt: the mask for the BAM, [None] to leave with an error. *)
Definition bam_set_irq (b : Z) : SPS (option Z) :=
  dev ← get_bam b;
  let pr := b_props dev in
  if has (bp_options pr) SPS_BAM_OPT_IRQ_DISABLED || (bp_irq pr =? SPS_IRQ_INVALID) then
    upd_bam b (λ d, bam_with_state (Z.ldiff (b_state d) BAM_STATE_IRQ) d) ;;
    mret (Some 0)
  else
    h ← hist_of;
    sps_log (EvRequestIrq (bp_irq pr) (has (bp_options pr) SPS_BAM_RES_CONFIRM)) ;;
    if negb (env_request_irq E h (bp_irq pr) =? 0) then mret None
    else
      upd_bam b (λ d, bam_with_state (Z.lor (b_state d) BAM_STATE_IRQ) d) ;;
      if has (bp_options pr) SPS_BAM_OPT_IRQ_WAKEUP then
        h ← hist_of;
        sps_log (EvEnableIrqWake (bp_irq pr)) ;;
        mret (if env_enable_irq_wake E h (bp_irq pr) =? 0 then Some BAM_IRQ_ALL else None)
      else mret (Some BAM_IRQ_ALL).

(** From the version of the BAM on: the use of MTIs. *)
Definition bam_set_mti (b : Z) : SPS bool :=
  dev ← get_bam b;
  let pr := b_props dev in
  let mti := BAM_VERSION_MTI_SUPPORT (b_version dev) in
  let remote := has (bp_manage pr) SPS_BAM_MGR_DEVICE_REMOTE in
  if remote && has (bp_manage pr) SPS_BAM_MGR_MULTI_EE && (bp_ee pr =? 0) && mti then mret false
  else if has (b_state dev) BAM_STATE_IRQ && remote && mti then
    if (bp_irq_gen_addr pr =? 0) || (bp_irq_gen_addr pr =? SPS_ADDR_INVALID) then mret false
    else upd_bam b (λ d, bam_with_state (Z.lor (b_state d) BAM_STATE_MTI) d) ;; mret true
  else mret true.

Definition bam_set_num_pipes (b num_pipes : Z) : SPS bool :=
  when (negb (num_pipes =? 0)) (upd_bam b (bam_with_num_pipes num_pipes)) ;; mret true.

(** The execution environments and their pipes. *)
Definition sec_overlap (ees : list sps_bam_pipe_sec_config_props) : bool :=
  let mask n := default 0 (se_pipe_mask <$> ees !! n) in
  existsb (λ n, existsb (λ i, has (mask n) (mask i)) (seq (S n) (SPS_BAM_NUM_EES - S n)))
    (seq 0 (SPS_BAM_NUM_EES - 1)).

Definition sec_init (b ee : Z) (ees : list sps_bam_pipe_sec_config_props) : SPS () :=
  for_loop SPS_BAM_NUM_EES 0 (λ i,
    p ← of_option (lookup_z ees i);
    let mask := if i =? ee then Z.lor (se_pipe_mask p) (2 ^ 31)
                else Z.ldiff (se_pipe_mask p) (2 ^ 31) in
    sps_log (EvSecurityInit b i (se_vmid p) mask)).

Definition bam_set_ee (b : Z) : SPS bool :=
  dev ← get_bam b;
  let pr := b_props dev in
  if BAM_VERSION_MTI_SUPPORT (b_version dev) then mret true
  else if Z.of_nat SPS_BAM_NUM_EES <=? bp_ee pr then mret false
  else if negb (bp_sec_config pr =? SPS_BAM_SEC_DO_CONFIG) then mret true
  else
    match bp_sec pr with
    | None => mret false
    | Some ees =>
        p ← of_option (lookup_z ees (bp_ee pr));
        upd_bam b (bam_with_restricted (u32 (Z.lnot (se_pipe_mask p)))) ;;
        if has (bp_manage pr) SPS_BAM_MGR_DEVICE_REMOTE then mret true
        else if sec_overlap ees then mret false
        else sec_init b (bp_ee pr) ees ;; mret true
    end.

(** All restricted pipes to MTI mode. *)
Definition bam_satellite (b : Z) : SPS bool :=
  dev ← get_bam b;
  let pr := b_props dev in
  when (negb (has (bp_manage pr) SPS_BAM_MGR_DEVICE_REMOTE) &&
        BAM_VERSION_MTI_SUPPORT (b_version dev))
    (for_loop (Z.to_nat (bp_num_pipes pr)) 0 (λ i,
       when (has (u32 (Z.shiftl 1 i)) (bp_restricted_pipes pr))
         (sps_log (EvSatelliteMti b i 0 (bp_ee pr))))) ;;
  mret true.

Definition bam_finish (b : Z) : SPS bool :=
  upd_bam b (λ d, bam_with_state (Z.lor (b_state d) BAM_STATE_ENABLED) d) ;; mret true.

Definition sps_bam_enable (b : Z) : SPS Z :=
  dev ← get_bam b;
  if has (b_state dev) BAM_STATE_ENABLED then mret 0
  else if Z.land (bp_manage (b_props dev)) SPS_BAM_MGR_NONE =? SPS_BAM_MGR_NONE then mret SPS_ERROR
  else
    irq ← bam_set_irq b;
    match irq with
    | None => mret SPS_ERROR
    | Some irq_mask =>
        '(rc, num_pipes) ← (if has (bp_manage (b_props dev)) SPS_BAM_MGR_DEVICE_REMOTE
                            then bam_check b else bam_init b irq_mask);
        if negb (rc =? 0) then mret SPS_ERROR
        else
          ok ← all_steps [bam_set_mti b; bam_set_num_pipes b num_pipes; bam_set_ee b;
                          bam_satellite b; bam_finish b];
          mret (if ok : bool then 0 else SPS_ERROR)
    end.

(** ** sps_bam_pipe_set_params *)

(** The length that the cache of a pipe needs: [desc_size + size]. *)
Definition cache_size (pipe : sps_pipe) : Z :=
  u32 (p_desc_size pipe + u32 (p_num_descs pipe * 8)).

(** Whether the interrupts of a pipe are switched on, and the pipe then. *)
Definition pipe_irq_on (poll dev_irq : bool) (p : sps_pipe) : bool :=
  negb poll && negb (p_irq_mask p =? 0) && dev_irq.
Definition pipe_with_irq (on : bool) (p : sps_pipe) : sps_pipe :=
  with_opts (mkOpts (negb on) (o_hybrid (p_opts p)) (o_late_eot (p_opts p)) (o_one_shot (p_opts p)))
    (with_pstate (if on then Z.lor (p_state p) BAM_STATE_IRQ else Z.ldiff (p_state p) BAM_STATE_IRQ)
       p).

Definition pipe_set_irq (b pipe_index : Z) (l : positive) (poll : bool) : SPS () :=
  pipe ← get_pipe l;
  dev ← get_bam b;
  let on := pipe_irq_on poll (has (b_state dev) BAM_STATE_IRQ) pipe in
  when (on && has (p_state pipe) BAM_STATE_BAM2BAM && negb (has (p_state pipe) BAM_STATE_IRQ))
    (sps_log (EvClearIrq b pipe_index)) ;;
  upd_pipe l (pipe_with_irq on) ;;
  if has (p_state pipe) BAM_STATE_MTI then
    sps_log (EvSetMti b pipe_index on (p_irq_mask pipe) (p_irq_gen_addr pipe))
  else sps_log (EvSetIrq b pipe_index on (p_irq_mask pipe) (bp_ee (b_props dev))).

Definition alloc_cache (size : Z) : SPS mem_block :=
  h ← hist_of;
  let cache := env_cache_alloc E h size in
  sps_log (EvCacheAlloc size cache) ;; mret (mkBlock cache size).

(** The cache of the descriptors with the users' pointers behind it; NULL if there is no
    memory. A small cache may be kept with the BAM for the next connection of the pipe, which
    gets it whatever length it needs. *)
Definition get_cache (b pipe_index : Z) (pipe : sps_pipe) : SPS mem_block :=
  dev ← get_bam b;
  let size := cache_size pipe in
  if (size <=? PAGE_SIZE) && has (bp_options (b_props dev)) SPS_BAM_HOLD_MEM then
    kept ← of_option (lookup_z (b_desc_cache_pointers dev) pipe_index);
    if negb (blk_addr kept =? 0) then mret kept
    else
      cache ← alloc_cache size;
      l ← of_option (store_z (b_desc_cache_pointers dev) pipe_index cache);
      upd_bam b (bam_with_cache_pointers l) ;;
      mret cache
  else alloc_cache size.

Definition set_options (options : Z) (p : sps_pipe) : sps_pipe :=
  with_opts (mkOpts (o_polled (p_opts p)) (has options SPS_O_HYBRID) (has options SPS_O_LATE_EOT)
               (o_one_shot (p_opts p))) p.

Definition sps_bam_pipe_set_params (b pipe_index options : Z) : SPS Z :=
  x ← get_slot b pipe_index;
  match x with
  | SlotPipe l =>
      let no_queue := has options SPS_O_NO_Q in
      upd_pipe l (set_options options) ;;
      pipe ← get_pipe l;
      let bam2bam := has (p_state pipe) BAM_STATE_BAM2BAM in
      if bam2bam && has options BAM2BAM_O_INVALID then mret SPS_ERROR
      else
        rc ← (if negb no_queue && (blk_addr (y_desc_cache (p_sys pipe)) =? 0) && (0 <? p_num_descs pipe) &&
                 negb bam2bam then
                cache ← get_cache b pipe_index pipe;
                upd_pipe l (λ p, with_sys (sys_with_cache cache (y_cache_offset (p_sys p))
                                             (y_user_ptrs (p_sys p)) (p_sys p)) p) ;;
                if blk_addr cache =? 0 then mret (- ENOMEM)
                else
                  upd_pipe l (λ p, with_sys (sys_with_cache cache (y_acked_offset (p_sys p))
                                               (u64 (blk_addr cache + p_desc_size p)) (p_sys p)) p) ;;
                  mret 0
              else mret 0);
        if negb (rc =? 0) then mret rc
        else
          upd_pipe l (with_irq_mask (event_mask options)) ;;
          pipe_set_irq b pipe_index l (has options SPS_O_POLL) ;;
          upd_pipe l (λ p,
            with_opts (mkOpts (o_polled (p_opts p)) (o_hybrid (p_opts p)) (o_late_eot (p_opts p))
                         (has options SPS_O_WAKEUP_IS_ONESHOT))
              (with_sys (sys_with_queue no_queue (has options SPS_O_ACK_TRANSFERS) (p_sys p)) p)) ;;
          mret 0
  | _ => UB
  end.
End Dev.
