(* ===== verification/SpsBam.v ===== *)
(** * SPS: the pipes of a BAM

    From [sps_bam.c] the allocation, connection and release of pipes. The registers behind
    [bam_pipe_*] are events of the history; [bam_pipe_init] cannot fail on a registered BAM. *)

From S2P Require Import Prelude.
From S2P Require Import SpsTypes.
From S2P Require Import SpsDev.

Definition pipe_clear (p : sps_pipe) : sps_pipe :=
  mkPipe (p_client_state p) (p_bam p) (p_connect p) (p_map p) 0 SPS_BAM_PIPE_INVALID 0 0
    (p_irq_gen_addr p) (u32 (-1)) 0 0 false sys_clear
    (mkOpts (o_polled (p_opts p)) (o_hybrid (p_opts p)) false (o_one_shot (p_opts p))).

(** [1UL << n] *)
Definition bit (n : Z) : SPS Z := if (0 <=? n) && (n <? 64) then mret (2 ^ n) else UB.

Section Bam.
Context (E : sps_env).

(** The search for a free pipe from [pipe_index] on; [num_pipes] when there is none. *)
Fixpoint find_free_pipe (turns : nat) (b num_pipes restricted pipe_index pipe_mask : Z) : SPS Z :=
  match turns with
  | O => mret pipe_index
  | S turns' =>
      if num_pipes <=? pipe_index then mret pipe_index
      else if has pipe_mask restricted then
        find_free_pipe turns' b num_pipes restricted (pipe_index + 1) (u32 (2 * pipe_mask))
      else
        x ← get_slot b pipe_index;
        if bool_decide (x = SlotNull) then mret pipe_index
        else find_free_pipe turns' b num_pipes restricted (pipe_index + 1) (u32 (2 * pipe_mask))
  end.

Definition mark_pipe (b pipe_index : Z) : SPS Z :=
  put_slot b pipe_index SlotUnassigned ;; mret pipe_index.

Definition sps_bam_pipe_alloc (b pipe_index : Z) : SPS Z :=
  dev ← get_bam b;
  let pr := b_props dev in
  if pipe_index =? SPS_BAM_PIPE_INVALID then
    if has (bp_manage pr) SPS_BAM_MGR_PIPE_NO_ALLOC then mret SPS_BAM_PIPE_INVALID
    else
      i ← find_free_pipe (Z.to_nat (bp_num_pipes pr)) b (bp_num_pipes pr)
            (bp_restricted_pipes pr) 0 1;
      if bp_num_pipes pr <=? i then mret SPS_BAM_PIPE_INVALID else mark_pipe b i
  else if (bp_num_pipes pr <=? pipe_index) || (Z.of_nat BAM_MAX_PIPES <=? pipe_index) then
    mret SPS_BAM_PIPE_INVALID
  else
    m ← bit pipe_index;
    if has (bp_restricted_pipes pr) m then mret SPS_BAM_PIPE_INVALID
    else
      x ← get_slot b pipe_index;
      if bool_decide (x = SlotNull) then mark_pipe b pipe_index else mret SPS_BAM_PIPE_INVALID.

(** The queued events of an assigned pipe are returned to their pool and the pipe cleared. *)
Definition sps_bam_pipe_free (b pipe_index : Z) : SPS () :=
  dev ← get_bam b;
  if bp_num_pipes (b_props dev) <=? pipe_index then mret ()
  else
    x ← get_slot b pipe_index;
    put_slot b pipe_index SlotNull ;;
    match x with
    | SlotNull | SlotUnassigned => mret ()
    | SlotPipe l => upd_pipe l pipe_clear
    end.

(** [params] of [sps_bam_pipe_connect]. *)
Record sps_bam_connect_param := mkParam {
  pa_mode : Z;
  pa_options : Z;
  pa_irq_gen_addr : Z;
  pa_irq_gen_data : Z;
}.

Definition bam_pipe_is_enabled (b pipe_index : Z) : SPS bool :=
  h ← hist_of;
  sps_log (EvPipeIsEnabled b pipe_index) ;; mret (env_pipe_is_enabled E h b pipe_index).

(** The register values for one side of a connection: [own] and [other] are the two ends,
    [peer] the physical address of the other BAM. *)
Definition hw_system (src stream : bool) (own : sps_conn_end_pt) (ee desc_base desc_size : Z) :
    bam_pipe_parameters :=
  mkHw (u16 (ep_event_threshold own)) (if src then BAM_PIPE_PRODUCER else BAM_PIPE_CONSUMER)
    BAM_PIPE_MODE_SYSTEM false desc_base desc_size (ep_lock_group own) stream ee 0 0 0 0.
Definition hw_bam2bam (src stream nwd : bool) (own other : sps_conn_end_pt)
    (ee peer desc_base desc_size data_base data_size : Z) : bam_pipe_parameters :=
  mkHw (u16 (ep_event_threshold own)) (if src then BAM_PIPE_PRODUCER else BAM_PIPE_CONSUMER)
    BAM_PIPE_MODE_BAM2BAM (src && nwd) desc_base desc_size (ep_lock_group own) stream ee
    peer (ep_pipe_index other) data_base data_size.

(** The last part of [sps_bam_pipe_connect], from the check of the pipe's allocation on. *)
Definition init_and_assign (l : positive) (b pipe_index : Z) (params : sps_bam_connect_param)
    (hw : bam_pipe_parameters) : SPS Z :=
  x ← get_slot b pipe_index;
  if negb (bool_decide (x = SlotUnassigned)) then mret SPS_ERROR
  else
    en ← bam_pipe_is_enabled b pipe_index;
    if (en : bool) && negb (has (pa_options params) SPS_O_NO_DISABLE) then mret SPS_ERROR
    else
      sps_log (EvPipeInit b pipe_index hw) ;;
      put_slot b pipe_index (SlotPipe l) ;;
      bam_pipe ← get_pipe l;
      dev ← get_bam b;
      rc ← (if negb (pa_options params =? 0) || negb (has (p_state bam_pipe) BAM_STATE_BAM2BAM) then
              let irq := if has (pa_options params) SPS_O_IRQ_MTI then pa_irq_gen_addr params
                         else if has (b_state dev) BAM_STATE_MTI then bp_irq_gen_addr (b_props dev)
                         else SPS_ADDR_INVALID in
              when (negb (irq =? SPS_ADDR_INVALID))
                (upd_pipe l (λ p, with_irq_gen_addr irq
                                    (with_pstate (Z.lor (p_state p) BAM_STATE_MTI) p))) ;;
              sps_bam_pipe_set_params E b pipe_index (pa_options params)
            else mret 0);
      if negb (rc =? 0) then
        put_slot b pipe_index SlotUnassigned ;;
        when (negb (has (pa_options params) SPS_O_NO_DISABLE)) (sps_log (EvPipeExit b pipe_index)) ;;
        upd_pipe l pipe_clear ;;
        mret SPS_ERROR
      else
        put_slot b pipe_index (SlotPipe l) ;;
        m ← bit pipe_index;
        dev ← get_bam b;
        put_bam b (bam_with_active (u32 (Z.lor (b_pipe_active_mask dev) m)) (b_pipes_q dev ++ [l]) dev) ;;
        upd_pipe l (λ p, with_pstate (Z.lor (p_state p) BAM_STATE_INIT) p) ;;
        mret 0.

(** The part from the descriptor FIFO to [sps_bam_enable]; [mk] completes the register
    values, given the base and the size of the descriptor FIFO. *)
Definition connect_fifo (l : positive) (b pipe_index : Z) (params : sps_bam_connect_param)
    (map : sps_connection) (sys src : bool) (mk : Z → Z → bam_pipe_parameters) : SPS Z :=
  m ← bit pipe_index;
  upd_pipe l (λ p, with_pipe_index_mask (u32 m) (with_pipe_index pipe_index p)) ;;
  let has_desc := negb (mb_phys_base (m_desc map) =? SPS_ADDR_INVALID) in
  if has_desc && (mb_size (m_desc map) <? 2 * sizeof_iovec) then mret SPS_ERROR
  else
    bam_pipe ← get_pipe l;
    dev ← get_bam b;
    let desc_buf := if has_desc then mb_base (m_desc map) else 0 in
    let desc_base := if has_desc then
                       (if has (bp_options (b_props dev)) SPS_BAM_SMMU_EN
                        then mb_iova (c_desc (p_connect bam_pipe)) else mb_phys_base (m_desc map))
                     else 0 in
    let desc_size := if has_desc then mb_size (m_desc map) else 0 in
    when (negb (desc_buf =? 0) && (src || sys)) (sps_log (EvClearFifo desc_buf desc_size)) ;;
    upd_pipe l (with_descs (desc_size / sizeof_iovec) desc_size) ;;
    rc ← (if has (b_state dev) BAM_STATE_ENABLED then mret 0 else sps_bam_enable E b);
    if negb (rc =? 0) then upd_pipe l pipe_clear ;; mret SPS_ERROR
    else init_and_assign l b pipe_index params (mk desc_base desc_size).

Definition sps_bam_pipe_connect (l : positive) (params : sps_bam_connect_param) : SPS Z :=
  upd_pipe l (λ p, with_pmode (pa_mode params) (pipe_clear p)) ;;
  bam_pipe ← get_pipe l;
  mp ← deref (p_map bam_pipe);
  map ← get_conn mp;
  let stream := has (pa_options params) SPS_O_STREAMING in
  let nwd := has (pa_options params) SPS_O_WRITE_NWD in
  let src := pa_mode params =? SPS_MODE_SRC in
  let map_pipe := end_of src map in
  let other_pipe := end_of (negb src) map in
  b ← deref (ep_bam map_pipe);
  dev ← get_bam b;
  let pipe_index := ep_pipe_index map_pipe in
  let pr := b_props dev in
  if bp_num_pipes pr <=? pipe_index then mret SPS_ERROR
  else
    m ← bit pipe_index;
    if has (bp_manage pr) SPS_BAM_MGR_PIPE_NO_CTRL || has (bp_restricted_pipes pr) m then
      mret SPS_ERROR
    else if has (bp_manage pr) SPS_BAM_MGR_PIPE_NO_CONFIG then mret SPS_ERROR
    else
      let smmu := has (bp_options pr) SPS_BAM_SMMU_EN in
      match ep_bam other_pipe with
      | Some pb =>
          upd_pipe l (λ p, with_pstate (Z.lor (p_state p) BAM_STATE_BAM2BAM) p) ;;
          peer ← (if smmu then
                    mret (u32 (if src then c_dest_iova (p_connect bam_pipe)
                               else c_source_iova (p_connect bam_pipe)))
                  else peer_bam ← get_bam pb; mret (u32 (bp_phys_addr (b_props peer_bam))));
          if (mb_phys_base (m_desc map) =? SPS_ADDR_INVALID) ||
             (mb_phys_base (m_data map) =? SPS_ADDR_INVALID) ||
             (mb_size (m_desc map) =? 0) || (mb_size (m_data map) =? 0) then mret SPS_ERROR
          else
            let data_base := if smmu then mb_iova (c_data (p_connect bam_pipe))
                             else mb_phys_base (m_data map) in
            when (negb (mb_base (m_data map) =? 0) && src)
              (sps_log (EvClearFifo (mb_base (m_data map)) (mb_size (m_data map)))) ;;
            connect_fifo l b pipe_index params map false src (λ desc_base desc_size,
              hw_bam2bam src stream nwd map_pipe other_pipe (bp_ee pr) peer desc_base desc_size
                data_base (mb_size (m_data map)))
      | None =>
          upd_pipe l (λ p, with_sys (sys_with_buf (mb_base (m_desc map)) (p_sys p)) p) ;;
          connect_fifo l b pipe_index params map true src (λ desc_base desc_size,
            hw_system src stream map_pipe (bp_ee pr) desc_base desc_size)
      end.

(** [memset] of memory with zeros: it stays inside the allocation. *)
Definition clear_cache (cache : mem_block) (size : Z) : SPS () :=
  if size <=? blk_size cache then sps_log (EvClearCache (blk_addr cache) size) else UB.

(** The cache of the pipe is as long as its FIFO needs, or need not be: it is not there, or it is
    given back. *)
Definition cache_fits (dev : sps_bam) (pipe : sps_pipe) : bool :=
  let cache := y_desc_cache (p_sys pipe) in
  (blk_addr cache =? 0) || (cache_size pipe <=? blk_size cache) ||
  negb ((cache_size pipe <=? PAGE_SIZE) && has (bp_options (b_props dev)) SPS_BAM_HOLD_MEM).

(** Releasing the descriptor cache; one that the BAM keeps is cleared. *)
Definition free_desc_cache (b : Z) (l : positive) : SPS () :=
  pipe ← get_pipe l;
  dev ← get_bam b;
  let cache := y_desc_cache (p_sys pipe) in
  when (negb (blk_addr cache =? 0))
    ((if (cache_size pipe <=? PAGE_SIZE) && has (bp_options (b_props dev)) SPS_BAM_HOLD_MEM
      then clear_cache cache (cache_size pipe)
      else sps_log (EvFreeCache (blk_addr cache))) ;;
     upd_pipe l (λ p, with_sys (sys_with_cache no_block (y_cache_offset (p_sys p)) (y_user_ptrs (p_sys p))
                                  (p_sys p)) p)).

Definition sps_bam_pipe_disconnect (b pipe_index : Z) : SPS Z :=
  dev ← get_bam b;
  if bp_num_pipes (b_props dev) <=? pipe_index then mret SPS_ERROR
  else
    x ← get_slot b pipe_index;
    match x with
    | SlotPipe l =>
        m ← bit pipe_index;
        when (has (b_pipe_active_mask dev) m)
          (put_bam b (bam_with_active (Z.ldiff (b_pipe_active_mask dev) m)
                        (filter (λ q, q ≠ l) (b_pipes_q dev)) dev)) ;;
        dev ← get_bam b;
        put_bam b (bam_with_remote (Z.ldiff (b_pipe_remote_mask dev) m) dev) ;;
        pipe ← get_pipe l;
        when (negb (has (c_options (p_connect pipe)) SPS_O_NO_DISABLE))
          (sps_log (EvPipeExit b pipe_index)) ;;
        free_desc_cache b l ;;
        put_slot b pipe_index SlotUnassigned ;;
        upd_pipe l pipe_clear ;;
        mret 0
    | _ => mret SPS_ERROR
    end.

(** The pipe whose registers the client switches on or off. *)
Definition slot_pipe (b pipe_index : Z) : SPS positive :=
  x ← get_slot b pipe_index;
  match x with SlotPipe l => get_pipe l ;; mret l | _ => UB end.

Definition sps_bam_pipe_enable (b pipe_index : Z) : SPS Z :=
  l ← slot_pipe b pipe_index;
  sps_log (EvPipeEnable b pipe_index) ;;
  upd_pipe l (λ p, with_pstate (Z.lor (p_state p) BAM_STATE_ENABLED) p) ;;
  mret 0.

Definition sps_bam_pipe_disable (b pipe_index : Z) : SPS Z :=
  l ← slot_pipe b pipe_index;
  pipe ← get_pipe l;
  when (negb (has (c_options (p_connect pipe)) SPS_O_NO_DISABLE))
    (sps_log (EvPipeDisable b pipe_index)) ;;
  upd_pipe l (λ p, with_pstate (Z.ldiff (p_state p) BAM_STATE_ENABLED) p) ;;
  mret 0.
End Bam.
