(* ===== verification/SpsRm.v ===== *)
(** * SPS: the resource manager of connections

    [sps_rm.c]: a connection is shared by the clients of its two ends; it owns the pipes and
    the FIFO memory that it allocated, and is freed with its last client. The BAM-DMA
    support is compiled out. *)

From S2P Require Import Prelude.
From S2P Require Import SpsTypes.
From S2P Require Import SpsMem.
From S2P Require Import SpsBam.

(** ** Matching a connection *)

(** The test of one FIFO: the client asks for [cfg], the connection has [buf]. *)
Definition fifo_match (cfg buf : sps_mem_buffer) : bool :=
  (mb_size cfg =? SPSRM_CLEAR) ||
  ((mb_size cfg =? mb_size buf) &&
   ((mb_phys_base cfg =? SPSRM_CLEAR_ADDR) || (mb_base cfg =? SPSRM_CLEAR_ADDR) ||
    ((mb_phys_base cfg =? mb_phys_base buf) && (mb_base cfg =? mb_base buf)))).

Definition sps_rm_map_match (cfg : sps_connect_cfg) (map : sps_connection) : bool :=
  if negb (c_source cfg =? ep_dev (m_src map)) ||
     negb (c_destination cfg =? ep_dev (m_dest map)) then false
  else if negb (c_src_pipe_index cfg =? SPSRM_CLEAR) &&
          negb (c_src_pipe_index cfg =? ep_pipe_index (m_src map)) then false
  else if negb (c_dest_pipe_index cfg =? SPSRM_CLEAR) &&
          negb (c_dest_pipe_index cfg =? ep_pipe_index (m_dest map)) then false
  else if negb (c_config cfg =? m_config map) then false
  else fifo_match (c_desc cfg) (m_desc map) && fifo_match (c_data cfg) (m_data map).

Definition is_null {A} (p : option A) : bool := match p with Some _ => false | None => true end.

Definition end_is_free (mode : Z) (map : sps_connection) : bool :=
  is_null (client_on (mode =? SPS_MODE_SRC) map).

Section Rm.
Context (E : sps_env).

Fixpoint find_in_queue (q : list positive) (cfg : sps_connect_cfg) : SPS (option positive) :=
  match q with
  | [] => mret None
  | m :: q' =>
      map ← get_conn m;
      if sps_rm_map_match cfg map && end_is_free (c_mode cfg) map then mret (Some m)
      else find_in_queue q' cfg
  end.

Definition find_unconnected (l : positive) : SPS (option positive) :=
  pipe ← get_pipe l;
  s ← get;
  find_in_queue (connections_q s) (p_connect pipe).

(** ** Assigning a client *)

(** The client's thresholds override the connection's. *)
Definition override (cfg : sps_connect_cfg) (e : sps_conn_end_pt) : sps_conn_end_pt :=
  let e := if c_event_thresh cfg =? SPSRM_CLEAR then e else with_ep_thresh (c_event_thresh cfg) e in
  if c_lock_group cfg =? SPSRM_CLEAR then e else with_ep_lock (c_lock_group cfg) e.

(** A FIFO of the connection, with the client's own address in its SMMU domain. *)
Definition assigned_buf (smmu : bool) (cfg buf : sps_mem_buffer) : sps_mem_buffer :=
  if smmu then mkBuf (mb_base buf) (mb_phys_base buf) (mb_iova cfg) (mb_size buf) (mb_min_size buf)
  else buf.

Definition assigned_connect (smmu : bool) (map : sps_connection) (c : sps_connect_cfg) :
    sps_connect_cfg :=
  mkConnect (c_source c) (c_source_iova c) (ep_pipe_index (m_src map)) (c_destination c)
    (c_dest_iova c) (ep_pipe_index (m_dest map)) (c_mode c) (c_config c) (c_options c)
    (assigned_buf smmu (c_desc c) (m_desc map)) (assigned_buf smmu (c_data c) (m_data map))
    (c_event_thresh c) (c_lock_group c) (c_irq_gen_addr c) (c_irq_gen_data c) (c_sps_reserved c).

Definition sps_rm_assign (l m : positive) : SPS Z :=
  pipe ← get_pipe l;
  map ← get_conn m;
  let cfg := p_connect pipe in
  let src := c_mode cfg =? SPS_MODE_SRC in
  if negb (end_is_free (c_mode cfg) map) then mret SPS_ERROR
  else
    let own := end_of src map in
    match ep_bam own with
    | None => mret SPS_ERROR
    | Some b =>
        put_conn m (with_client src (Some l) (with_end src (override cfg own) map)) ;;
        dev ← get_bam b;
        let smmu := has (bp_options (b_props dev)) SPS_BAM_SMMU_EN in
        put_pipe l (with_client_state SPS_STATE_ALLOCATE
                     (with_connect (assigned_connect smmu map cfg)
                       (with_map (Some m)
                         (with_pipe_index (ep_pipe_index own) (with_bam (Some b) pipe))))) ;;
        mret 0
    end.

(** ** Freeing what a connection owns *)

(** The pipe of one side and one FIFO; the connection is read and written back each time. *)
Definition free_pipe (sd : bool) (m : positive) : SPS () :=
  map ← get_conn m;
  if alloc_on sd map =? SPS_BAM_PIPE_INVALID then mret ()
  else
    b ← deref (ep_bam (end_of sd map));
    sps_bam_pipe_free b (ep_pipe_index (end_of sd map)) ;;
    upd_conn m (λ c, with_alloc sd SPS_BAM_PIPE_INVALID
                       (with_end sd (with_ep_pipe SPS_BAM_PIPE_INVALID (end_of sd c)) c)).

Definition buf_with_phys (x : Z) (b : sps_mem_buffer) : sps_mem_buffer :=
  mkBuf (mb_base b) x (mb_iova b) (mb_size b) (mb_min_size b).
Definition free_fifo (ds : bool) (m : positive) : SPS () :=
  map ← get_conn m;
  if fifo_base ds map =? SPS_ADDR_INVALID then mret ()
  else
    sps_mem_free_io (fifo_base ds map) (mb_size (fifo_of ds map)) ;;
    upd_conn m (λ c, with_fifo ds (buf_with_phys SPS_ADDR_INVALID (fifo_of ds c))
                       SPS_ADDR_INVALID c).

Definition sps_rm_free_map_rsrc (m : positive) : SPS () :=
  map ← get_conn m;
  if negb (is_null (m_client_src map)) || negb (is_null (m_client_dest map)) then mret ()
  else free_pipe true m ;; free_pipe false m ;; free_fifo true m ;; free_fifo false m.

Definition kfree_conn (m : positive) : SPS () :=
  get_conn m ;; modify (λ s, set_conns (delete m (sps_conns s)) s).

(** [refs] is an [int]. *)
Definition sps_rm_remove_ref (m : positive) : SPS () :=
  upd_conn m (λ c, with_refs (m_refs c - 1) c) ;;
  map ← get_conn m;
  when (m_refs map <=? 0)
    (modify (λ s, set_queue (filter (λ x, x ≠ m) (connections_q s)) s) ;; kfree_conn m).

(** ** Creating a connection *)

(** Did the client specify the FIFO? *)
Definition fifo_given (cfg : sps_mem_buffer) : bool :=
  negb (mb_size cfg =? SPSRM_CLEAR) && negb (mb_phys_base cfg =? SPSRM_CLEAR_ADDR) &&
  negb (mb_base cfg =? SPSRM_CLEAR_ADDR).

Definition init_fifo (cfg : sps_mem_buffer) : sps_mem_buffer :=
  if fifo_given cfg then cfg else mkBuf 0 SPS_ADDR_INVALID 0 (mb_size cfg) 0.

Definition init_end (dev pipe_index : Z) : sps_conn_end_pt :=
  mkEnd dev 0 (if pipe_index =? SPSRM_CLEAR then SPS_BAM_PIPE_INVALID else pipe_index) 0 0 None.

Definition sps_rm_init_map (cfg : sps_connect_cfg) : sps_connection :=
  mkConn (init_end (c_source cfg) (c_src_pipe_index cfg))
    (init_end (c_destination cfg) (c_dest_pipe_index cfg))
    (init_fifo (c_desc cfg)) (init_fifo (c_data cfg)) (c_config cfg) None None 0
    SPS_BAM_PIPE_INVALID SPS_BAM_PIPE_INVALID SPS_ADDR_INVALID SPS_ADDR_INVALID.

(** [sps.c]: the BAM with that handle. *)
Definition sps_h2bam (h : Z) : SPS (option Z) :=
  if (h =? SPS_DEV_HANDLE_MEM) || (h =? SPS_DEV_HANDLE_INVALID) then mret None
  else s ← get; mret (match sps_bams s !! h with Some _ => Some h | None => None end).

(** The steps of [sps_rm_create] return [false] to leave by [exit_err]. *)
Definition lookup_end (sd : bool) (m : positive) : SPS bool :=
  map ← get_conn m;
  b ← sps_h2bam (ep_dev (end_of sd map));
  upd_conn m (λ c, with_end sd (with_ep_bam b (end_of sd c)) c) ;;
  if is_null b then
    if negb (ep_dev (end_of sd map) =? SPS_DEV_HANDLE_MEM) then mret false
    else
      upd_conn m (λ c, with_end sd (with_ep_pipe SPS_BAM_PIPE_INVALID (end_of sd c)) c) ;;
      mret true
  else mret true.

Definition alloc_pipe (sd : bool) (m : positive) : SPS bool :=
  map ← get_conn m;
  match ep_bam (end_of sd map) with
  | None => mret true
  | Some b =>
      i ← sps_bam_pipe_alloc b (ep_pipe_index (end_of sd map));
      upd_conn m (with_alloc sd i) ;;
      if i =? SPS_BAM_PIPE_INVALID then mret false
      else
        dev ← get_bam b;
        upd_conn m (λ c, with_end sd (with_ep_defaults (bp_phys_addr (b_props dev))
                                        (bp_event_threshold (b_props dev))
                                        (with_ep_pipe i (end_of sd c))) c) ;;
        mret true
  end.

(** The default sizes: the larger of the two BAMs', 0 for memory. *)
Definition bam_sizes (b : option Z) : SPS (Z * Z) :=
  match b with
  | None => mret (0, 0)
  | Some b => dev ← get_bam b; mret (bp_desc_size (b_props dev), bp_data_size (b_props dev))
  end.

Definition buf_with_size (x : Z) (b : sps_mem_buffer) : sps_mem_buffer :=
  mkBuf (mb_base b) (mb_phys_base b) (mb_iova b) x (mb_min_size b).

Definition set_fifo_sizes (m : positive) : SPS bool :=
  map ← get_conn m;
  '(sd, sa) ← bam_sizes (ep_bam (m_src map));
  '(dd, da) ← bam_sizes (ep_bam (m_dest map));
  let desc_size := if sd <? dd then dd else sd in
  let data_size := if sa <? da then da else sa in
  let b2b := negb (is_null (ep_bam (m_src map))) && negb (is_null (ep_bam (m_dest map))) in
  let dsz := if mb_size (m_desc map) =? SPSRM_CLEAR then desc_size else mb_size (m_desc map) in
  let asz := if b2b then
               (if mb_size (m_data map) =? SPSRM_CLEAR then data_size else mb_size (m_data map))
             else 0 in
  upd_conn m (λ c, with_fifo true (buf_with_size dsz (m_desc c)) (m_alloc_desc_base c)
                     (with_fifo false (buf_with_size asz (m_data c)) (m_alloc_data_base c) c)) ;;
  mret (negb (SPSRM_MAX_DESC_FIFO_SIZE <? dsz) && negb (b2b && (SPSRM_MAX_DATA_FIFO_SIZE <? asz))).

Definition buf_at (phys base : Z) (b : sps_mem_buffer) : sps_mem_buffer :=
  mkBuf base phys (mb_iova b) (mb_size b) (mb_min_size b).

Definition alloc_fifo (ds : bool) (m : positive) : SPS bool :=
  map ← get_conn m;
  if negb (negb (mb_size (fifo_of ds map) =? 0) &&
           (mb_phys_base (fifo_of ds map) =? SPS_ADDR_INVALID)) then mret true
  else
    phys ← sps_mem_alloc_io E (mb_size (fifo_of ds map));
    upd_conn m (λ c, with_fifo ds (fifo_of ds c) phys c) ;;
    if phys =? SPS_ADDR_INVALID then mret false
    else
      base ← spsi_get_mem_ptr E phys;
      upd_conn m (λ c, with_fifo ds (buf_at phys base (fifo_of ds c)) (fifo_base ds c) c) ;;
      mret (negb (base =? 0)).

(** The check of the BAM the client's pipe is to be on. *)
Definition check_end (l m : positive) : SPS bool :=
  pipe ← get_pipe l;
  map ← get_conn m;
  mret (negb (is_null (ep_bam (end_of (c_mode (p_connect pipe) =? SPS_MODE_SRC) map)))).

Definition create_steps (l m : positive) : list (SPS bool) :=
  [ lookup_end true m; lookup_end false m; check_end l m; alloc_pipe true m; alloc_pipe false m;
    set_fifo_sizes m; alloc_fifo true m; alloc_fifo false m;
    rc ← sps_rm_assign l m; mret (rc =? 0) ].

Definition kzalloc_conn (c : sps_connection) : SPS (option positive) :=
  h ← hist_of;
  sps_log EvKzalloc ;;
  if env_sps_kzalloc E h then
    s ← get;
    let m := sps_next s in
    put (set_next (Pos.succ m) (set_conns (<[m := c]> (sps_conns s)) s)) ;;
    mret (Some m)
  else mret None.

Definition sps_rm_create (l : positive) : SPS (option positive) :=
  pipe ← get_pipe l;
  r ← kzalloc_conn (sps_rm_init_map (p_connect pipe));
  match r with
  | None => mret None
  | Some m =>
      success ← all_steps (create_steps l m);
      if success : bool then mret (Some m)
      else sps_rm_free_map_rsrc m ;; kfree_conn m ;; mret None
  end.

(** ** State changes *)

Definition sps_rm_free (l : positive) : SPS Z :=
  pipe ← get_pipe l;
  m ← deref (p_map pipe);
  upd_conn m (with_client (c_mode (p_connect pipe) =? SPS_MODE_SRC) None) ;;
  upd_pipe l (λ p, with_client_state SPS_STATE_DISCONNECT (with_map None p)) ;;
  sps_rm_free_map_rsrc m ;;
  sps_rm_remove_ref m ;;
  mret 0.

(** The parameters of a client that did not call [sps_get_config]. *)
Definition legacy_connect (c : sps_connect_cfg) : sps_connect_cfg :=
  mkConnect (c_source c) SPSRM_CLEAR_ADDR SPSRM_CLEAR (c_destination c) SPSRM_CLEAR_ADDR
    SPSRM_CLEAR (c_mode c) (c_config c) SPSRM_CLEAR clear_buf clear_buf SPSRM_CLEAR SPSRM_CLEAR
    SPSRM_CLEAR SPSRM_CLEAR SPSRM_CLEAR.
Definition with_config (x : Z) (c : sps_connect_cfg) : sps_connect_cfg :=
  mkConnect (c_source c) (c_source_iova c) (c_src_pipe_index c) (c_destination c) (c_dest_iova c)
    (c_dest_pipe_index c) (c_mode c) x (c_options c) (c_desc c) (c_data c) (c_event_thresh c)
    (c_lock_group c) (c_irq_gen_addr c) (c_irq_gen_data c) (c_sps_reserved c).

Definition effective_connect (c : sps_connect_cfg) : sps_connect_cfg :=
  let c := if c_sps_reserved c =? SPSRM_CLEAR then c else legacy_connect c in
  if c_config c =? SPSRM_CLEAR then with_config SPS_CONFIG_DEFAULT c else c.

(** [IS_SPS_STATE_OK] *)
Definition IS_SPS_STATE_OK (p : sps_pipe) : bool :=
  Z.land (p_client_state p) 0x00ffffff =? SPS_STATE_DEF 0.

Definition sps_rm_alloc (l : positive) : SPS Z :=
  upd_pipe l (λ p, with_connect (effective_connect (p_connect p)) p) ;;
  pipe ← get_pipe l;
  found ← (if c_config (p_connect pipe) =? SPS_CONFIG_DEFAULT then mret true
           else
             '(rc, cfg) ← sps_map_find E (p_connect pipe);
             put_pipe l (with_connect cfg pipe) ;;
             mret (rc =? 0));
  if negb found then mret SPS_ERROR
  else
    pipe ← get_pipe l;
    if IS_SPS_STATE_OK pipe then mret SPS_ERROR
    else
      r ← find_unconnected l;
      r ← match r with
          | Some m => rc ← sps_rm_assign l m; mret (if rc =? 0 then Some m else None)
          | None => mret None
          end;
      r ← match r with
          | Some m => mret (Some m)
          | None =>
              r ← sps_rm_create l;
              match r with
              | Some m => modify (λ s, set_queue (connections_q s ++ [m]) s) ;; mret (Some m)
              | None => mret None
              end
          end;
      match r with
      | None => mret SPS_ERROR
      | Some m => upd_conn m (λ c, with_refs (m_refs c + 1) c) ;; mret 0
      end.

Definition connect_params (c : sps_connect_cfg) : sps_bam_connect_param :=
  if c_options c =? SPSRM_CLEAR then mkParam (c_mode c) 0 0 0
  else mkParam (c_mode c) (c_options c) (c_irq_gen_addr c) (c_irq_gen_data c).

(** The five parts of [sps_rm_state_change]; each returns [false] to leave with an error. *)
Definition change_alloc (l : positive) (state : Z) : SPS bool :=
  pipe ← get_pipe l;
  if (p_client_state pipe =? SPS_STATE_DISCONNECT) && (state =? SPS_STATE_ALLOCATE) then
    rc ← sps_rm_alloc l; mret (rc =? 0)
  else mret true.

(** Also the value of [auto_enable]. *)
Definition change_connect (l : positive) (state : Z) : SPS (bool * bool) :=
  pipe ← get_pipe l;
  if (p_client_state pipe =? SPS_STATE_ALLOCATE) && (state =? SPS_STATE_CONNECT) then
    rc ← sps_bam_pipe_connect E l (connect_params (p_connect pipe));
    if negb (rc =? 0) then mret (false, false)
    else
      upd_pipe l (with_client_state SPS_STATE_CONNECT) ;;
      pipe ← get_pipe l;
      if (c_source (p_connect pipe) =? SPS_DEV_HANDLE_MEM) ||
         (c_destination (p_connect pipe) =? SPS_DEV_HANDLE_MEM) then
        m ← deref (p_map pipe);
        map ← get_conn m;
        mret (true, negb (mb_size (m_desc map) =? 0) &&
                    negb (mb_phys_base (m_desc map) =? SPS_ADDR_INVALID))
      else mret (true, false)
  else mret (true, false).

Definition change_enable (l : positive) (state : Z) (auto_enable : bool) : SPS bool :=
  pipe ← get_pipe l;
  if (p_client_state pipe =? SPS_STATE_CONNECT) &&
     negb ((state =? SPS_STATE_DISABLE) || (state =? SPS_STATE_DISCONNECT)) &&
     ((state =? SPS_STATE_ENABLE) || auto_enable ||
      has (c_options (p_connect pipe)) SPS_O_AUTO_ENABLE) then
    b ← deref (p_bam pipe);
    rc ← sps_bam_pipe_enable b (p_pipe_index pipe);
    if negb (rc =? 0) then mret false
    else upd_pipe l (with_client_state SPS_STATE_ENABLE) ;; mret true
  else mret true.

Definition change_disable (l : positive) (state : Z) : SPS bool :=
  pipe ← get_pipe l;
  if (p_client_state pipe =? SPS_STATE_ENABLE) &&
     ((state =? SPS_STATE_DISABLE) || (state =? SPS_STATE_DISCONNECT)) then
    b ← deref (p_bam pipe);
    rc ← sps_bam_pipe_disable b (p_pipe_index pipe);
    if negb (rc =? 0) then mret false
    else upd_pipe l (with_client_state SPS_STATE_CONNECT) ;; mret true
  else mret true.

Definition change_disconnect (l : positive) (state : Z) : SPS bool :=
  pipe ← get_pipe l;
  if (p_client_state pipe =? SPS_STATE_CONNECT) && (state =? SPS_STATE_DISCONNECT) then
    b ← deref (p_bam pipe);
    m ← deref (p_map pipe);
    map ← get_conn m;
    let mode := c_mode (p_connect pipe) in
    let pipe_index := ep_pipe_index (end_of (mode =? SPS_MODE_SRC) map) in
    get_bam b ;;
    upd_pipe l (with_disconnecting true) ;;
    rc ← sps_bam_pipe_disconnect b pipe_index;
    if negb (rc =? 0) then mret false
    else
      pipe ← get_pipe l;
      m ← deref (p_map pipe);
      (if mode =? SPS_MODE_SRC then upd_conn m (with_client true None)
       else if mode =? SPS_MODE_DEST then upd_conn m (with_client false None)
       else mret ()) ;;
      sps_rm_free l ;;
      upd_pipe l (λ p, with_client_state SPS_STATE_DISCONNECT (with_bam None (with_map None p))) ;;
      mret true
  else mret true.

Definition sps_rm_state_change (l : positive) (state : Z) : SPS Z :=
  ok ← change_alloc l state;
  if negb ok then mret SPS_ERROR
  else
    '(ok, auto_enable) ← change_connect l state;
    if negb (ok : bool) then mret SPS_ERROR
    else
      ok ← change_enable l state auto_enable;
      if negb ok then mret SPS_ERROR
      else
        ok ← change_disable l state;
        if negb ok then mret SPS_ERROR
        else
          ok ← change_disconnect l state;
          mret (if ok : bool then 0 else SPS_ERROR).
End Rm.
