(* ===== verification/Sps.v ===== *)
(** * SPS: the interface for clients

    From [sps.c]: the endpoints of clients, connecting and disconnecting them. *)

From S2P Require Import Prelude.
From S2P Require Import SpsTypes.
From S2P Require Import SpsMem.
From S2P Require Import SpsBam.
From S2P Require Import SpsRm.

Section Sps.
Context (E : sps_env).

(** [memset(client, 0, sizeof( *client))], then [sps_client_init]. *)
Definition sps_client_init : sps_pipe :=
  mkPipe SPS_STATE_DISCONNECT None clear_connect None 0 0 0 0 0 0 0 0 false sys_clear
    (mkOpts false false false false).

Definition sps_alloc_endpoint : SPS (option positive) :=
  h ← hist_of;
  sps_log EvKzalloc ;;
  if env_sps_kzalloc E h then
    s ← get;
    let l := sps_next s in
    put (set_next (Pos.succ l) (set_pipes (<[l := sps_client_init]> (sps_pipes s)) s)) ;;
    mret (Some l)
  else mret None.

Definition sps_client_de_init (l : positive) : SPS Z :=
  client ← get_pipe l;
  if negb (p_client_state client =? SPS_STATE_DISCONNECT) then mret SPS_ERROR
  else
    put_pipe l (with_bam None (with_map None (with_connect zero_connect client))) ;;
    mret 0.

Definition sps_free_endpoint (h : option positive) : SPS Z :=
  match h with
  | None => mret SPS_ERROR
  | Some l =>
      res ← sps_client_de_init l;
      when (res =? 0) (modify (λ s, set_pipes (delete l (sps_pipes s)) s)) ;;
      mret res
  end.

Definition sps_get_config (h : option positive) : SPS (Z * option sps_connect_cfg) :=
  match h with
  | None => mret (SPS_ERROR, None)
  | Some l => pipe ← get_pipe l; mret (0, Some (p_connect pipe))
  end.

(** A handle that is connected has its BAM. *)
Definition sps_disconnect (h : option positive) : SPS Z :=
  match h with
  | None => mret SPS_ERROR
  | Some l =>
      pipe ← get_pipe l;
      match p_bam pipe with
      | None => mret SPS_ERROR
      | Some b =>
          get_bam b ;;
          m ← deref (p_map pipe);
          map ← get_conn m;
          let check := client_on (c_mode (p_connect pipe) =? SPS_MODE_SRC) map in
          if negb (bool_decide (check = Some l)) then mret SPS_ERROR
          else
            result ← sps_rm_state_change E l SPS_STATE_DISCONNECT;
            if negb (result =? 0) then mret result
            else upd_pipe l (with_connect clear_connect) ;; mret 0
      end
  end.

Definition sps_connect (h : option positive) (connect : option sps_connect_cfg) : SPS Z :=
  match h, connect with
  | Some l, Some cfg =>
      s ← get;
      match sps_drv s with
      | None => mret (- ENODEV)
      | Some is_ready =>
          if negb is_ready then mret (- EAGAIN)
          else if negb (c_lock_group cfg =? SPSRM_CLEAR) &&
                  (BAM_MAX_P_LOCK_GROUP_NUM <? c_lock_group cfg) then mret SPS_ERROR
          else
            b ← sps_h2bam (if c_mode cfg =? SPS_MODE_SRC then c_source cfg else c_destination cfg);
            match b with
            | None => mret SPS_ERROR
            | Some _ =>
                upd_pipe l (with_connect cfg) ;;
                result ← sps_rm_state_change E l SPS_STATE_ALLOCATE;
                if negb (result =? 0) then mret result
                else
                  result ← sps_rm_state_change E l SPS_STATE_CONNECT;
                  (if negb (result =? 0) then sps_disconnect (Some l) ;; mret () else mret ()) ;;
                  mret result
            end
      end
  | _, _ => mret SPS_ERROR
  end.
End Sps.
