(* ===== verification/SpsView.v ===== *)
(** * SPS: the view of the state and its invariant

    What the invariant depends on: of a client the five fields of [core], of a BAM its pipes
    and their number, of the I/O memory the balance of the two counters. An operation that
    changes nothing else keeps the view, and with it the invariant. *)

From S2P Require Import Prelude.
From S2P Require Import SpsTypes.
From S2P Require Import SpsMem.
From S2P Require Import SpsDev.
From S2P Require Import SpsBam.
From S2P Require Import SpsRm.

Record core := mkCore {
  k_state : Z;
  k_map : option positive;
  k_bam : option Z;
  k_src : bool;
  k_idx : Z;
}.

Definition core_of (p : sps_pipe) : core :=
  mkCore (p_client_state p) (p_map p) (p_bam p) (c_mode (p_connect p) =? SPS_MODE_SRC)
    (p_pipe_index p).

Definition slots_of (d : sps_bam) : list bam_slot * Z := (b_pipes d, bp_num_pipes (b_props d)).

(** The lengths of a BAM's arrays and its execution environment. *)
Definition dev_ok (d : sps_bam) : bool :=
  (length (b_desc_cache_pointers d) =? BAM_MAX_PIPES)%nat && (0 <=? bp_ee (b_props d)) &&
  match bp_sec (b_props d) with
  | Some ees => (length ees =? SPS_BAM_NUM_EES)%nat
  | None => true
  end.

(** The table of connections ends within its array, and its pipes are unsigned. *)
Definition maps_ok (t : sps_map_state) : bool :=
  (0 <=? num_maps t) && (num_maps t <=? Z.of_nat (length (maps t))) &&
  forallb (λ m, (0 <=? me_pipe_index (sm_src m)) && (0 <=? me_pipe_index (sm_dest m))) (maps t).

Record view := mkView {
  v_cores : gmap positive core;
  v_conns : gmap positive sps_connection;
  v_slots : gmap Z (list bam_slot * Z);
  v_queue : list positive;
  v_phys : Z;
  v_virt : Z;
  v_bal : Z;
  v_next : positive;
  v_devs : gmap Z bool;
  v_maps : sps_map_state;
}.

Definition vw (s : sps_state) : view :=
  mkView (core_of <$> sps_pipes s) (sps_conns s) (slots_of <$> sps_bams s) (connections_q s)
    (iomem_phys (sps_mem s)) (iomem_virt (sps_mem s))
    (u32 (total_alloc (sps_mem s) - total_free (sps_mem s))) (sps_next s) (dev_ok <$> sps_bams s)
    (sps_maps s).

(** ** What a connection owns *)

(** The pipe that side owns. *)
Definition key (sd : bool) (c : sps_connection) : option (Z * Z) :=
  if alloc_on sd c =? SPS_BAM_PIPE_INVALID then None
  else b ← ep_bam (end_of sd c); Some (b, ep_pipe_index (end_of sd c)).

Definition client_count (c : sps_connection) : Z :=
  (if is_null (m_client_src c) then 0 else 1) + (if is_null (m_client_dest c) then 0 else 1).

(** The I/O memory the connection owns. *)
Definition fifo_mem (c : sps_connection) : Z :=
  (if m_alloc_desc_base c =? SPS_ADDR_INVALID then 0 else mb_size (m_desc c)) +
  (if m_alloc_data_base c =? SPS_ADDR_INVALID then 0 else mb_size (m_data c)).
Definition fifo_sum (C : gmap positive sps_connection) : Z :=
  map_fold (λ _ c acc, fifo_mem c + acc) 0 C.

Definition is_connected (st : Z) : bool :=
  (st =? SPS_STATE_CONNECT) || (st =? SPS_STATE_ENABLE).

Definition slot (V : view) (b i : Z) : option bam_slot :=
  x ← v_slots V !! b; lookup_z x.1 i.

(** What the slot of a side must hold. *)
Definition slot_for (cores : gmap positive core) (client : option positive) : bam_slot :=
  match client with
  | Some l =>
      match cores !! l with
      | Some k => if is_connected (k_state k) then SlotPipe l else SlotUnassigned
      | None => SlotUnassigned
      end
  | None => SlotUnassigned
  end.

(** ** The invariant

    [u] is the connection under construction or destruction, which is not in the queue. *)

Definition pipe_ok (V : view) (l : positive) (k : core) : Prop :=
  (k_state k = SPS_STATE_DISCONNECT ∧ k_map k = None ∧ k_bam k = None) ∨
  ((k_state k = SPS_STATE_ALLOCATE ∨ is_connected (k_state k) = true) ∧
   ∃ m c sd b, k_map k = Some m ∧ v_conns V !! m = Some c ∧ client_on sd c = Some l ∧
     k_bam k = Some b ∧ ep_bam (end_of sd c) = Some b ∧
     (is_connected (k_state k) = true → sd = k_src k ∧ k_idx k = ep_pipe_index (end_of sd c))).

(** What the platform fixes: the I/O memory and the hardware's number of pipes of each BAM. *)
Record platform := mkPlatform { pf_phys : Z; pf_virt : Z; pf_pipes : Z → Z }.

Record INV (pf : platform) (u : option positive) (V : view) : Prop := {
  inv_queue : NoDup (v_queue V);
  inv_linked m : m ∈ v_queue V ↔ is_Some (v_conns V !! m) ∧ u ≠ Some m;
  inv_fresh_conn m : is_Some (v_conns V !! m) → (m < v_next V)%positive;
  inv_fresh_pipe l : is_Some (v_cores V !! l) → (l < v_next V)%positive;
  inv_bams b x : v_slots V !! b = Some x →
    length x.1 = BAM_MAX_PIPES ∧ 0 ≤ x.2 ≤ pf_pipes pf b ∧ pf_pipes pf b ≤ Z.of_nat BAM_MAX_PIPES ∧
    b ≠ SPS_DEV_HANDLE_MEM ∧ b ≠ SPS_DEV_HANDLE_INVALID;
  inv_devs b x : v_devs V !! b = Some x → x = true;
  inv_maps : maps_ok (v_maps V) = true;
  inv_key m c sd b i : v_conns V !! m = Some c → key sd c = Some (b, i) →
    slot V b i = Some (slot_for (v_cores V) (client_on sd c)) ∧
    ∃ x, v_slots V !! b = Some x ∧ 0 ≤ i < x.2;
  inv_unique m c sd m' c' sd' k :
    v_conns V !! m = Some c → v_conns V !! m' = Some c' →
    key sd c = Some k → key sd' c' = Some k → m = m' ∧ sd = sd';
  inv_owned b i x : slot V b i = Some x → x ≠ SlotNull →
    ∃ m c sd, v_conns V !! m = Some c ∧ key sd c = Some (b, i);
  inv_alloc m c sd : v_conns V !! m = Some c → alloc_on sd c ≠ SPS_BAM_PIPE_INVALID →
    is_Some (ep_bam (end_of sd c)) ∧ alloc_on sd c = ep_pipe_index (end_of sd c);
  inv_full m c sd : u ≠ Some m → v_conns V !! m = Some c → is_Some (ep_bam (end_of sd c)) →
    alloc_on sd c ≠ SPS_BAM_PIPE_INVALID;
  inv_refs m c : u ≠ Some m → v_conns V !! m = Some c →
    m_refs c = client_count c ∧ 1 ≤ m_refs c;
  inv_unlinked m c : u = Some m → v_conns V !! m = Some c →
    m_client_src c = None ∧ m_client_dest c = None ∧ m_refs c = 0;
  inv_client m c sd l : v_conns V !! m = Some c → client_on sd c = Some l →
    ∃ k, v_cores V !! l = Some k ∧ k_map k = Some m;
  inv_sides m c l : v_conns V !! m = Some c → m_client_src c = Some l → m_client_dest c ≠ Some l;
  inv_pipe l k : v_cores V !! l = Some k → pipe_ok V l k;
  inv_balance : v_bal V = u32 (fifo_sum (v_conns V));
  inv_mem : v_phys V = pf_phys pf ∧ v_virt V = pf_virt pf;
}.

(** ** Sums over the connections *)

Lemma fifo_sum_insert C m c : C !! m = None → fifo_sum (<[m := c]> C) = fifo_mem c + fifo_sum C.
Proof. intros Hm. unfold fifo_sum. rewrite map_fold_insert_L; [done|intros; lia|done]. Qed.

Lemma fifo_sum_delete C m c : C !! m = Some c → fifo_sum (delete m C) = fifo_sum C - fifo_mem c.
Proof.
  intros Hm. pose proof (fifo_sum_insert (delete m C) m c (lookup_delete_eq C m)) as Hs.
  rewrite insert_delete_id in Hs by done. lia.
Qed.

Lemma fifo_sum_update C m c c' :
  C !! m = Some c → fifo_sum (<[m := c']> C) = fifo_sum C - fifo_mem c + fifo_mem c'.
Proof.
  intros Hm. rewrite <- insert_delete_eq, fifo_sum_insert by apply lookup_delete_eq.
  rewrite (fifo_sum_delete C m c Hm). lia.
Qed.

(** ** Slots *)

Definition set_slot (b i : Z) (x : bam_slot) (S : gmap Z (list bam_slot * Z)) :
    gmap Z (list bam_slot * Z) :=
  match S !! b with
  | Some y => <[b := (<[Z.to_nat i := x]> y.1, y.2)]> S
  | None => S
  end.

Definition slot_in (S : gmap Z (list bam_slot * Z)) (b i : Z) : option bam_slot :=
  x ← S !! b; lookup_z x.1 i.

Lemma slot_slot_in V b i : slot V b i = slot_in (v_slots V) b i.
Proof. done. Qed.

Lemma slot_in_num S b i x : slot_in S b i = Some x → 0 ≤ i.
Proof.
  unfold slot_in. destruct (S !! b); [|done]. cbn. unfold lookup_z.
  destruct (Z.leb_spec 0 i); [done|by intros [=]].
Qed.

Lemma slot_in_set S b i x y b' i' :
  slot_in S b i = Some y →
  slot_in (set_slot b i x S) b' i' =
  if decide (b' = b ∧ i' = i) then Some x else slot_in S b' i'.
Proof.
  intros Hy. pose proof (slot_in_num _ _ _ _ Hy) as Hi. unfold slot_in, set_slot in *.
  destruct (S !! b) as [z|] eqn:Hb; [|done]. cbn in Hy.
  destruct (decide (b' = b)) as [->|Hne].
  2: { rewrite lookup_insert_ne, decide_False by (done || tauto). done. }
  rewrite lookup_insert_eq, Hb. cbn. unfold lookup_z in *.
  destruct (Z.leb_spec 0 i); [|done]. destruct (Z.leb_spec 0 i').
  2: { rewrite decide_False by lia. done. }
  destruct (decide (i' = i)) as [->|Hne].
  - rewrite decide_True by done. apply list_lookup_insert_eq. by eapply lookup_lt_Some.
  - rewrite decide_False by tauto. apply list_lookup_insert_ne. lia.
Qed.

Lemma set_slot_num S b i x b' :
  snd <$> set_slot b i x S !! b' = snd <$> S !! b'.
Proof.
  unfold set_slot. destruct (S !! b) as [y|] eqn:Hb; [|done].
  destruct (decide (b' = b)) as [->|Hne]; [by rewrite lookup_insert_eq, Hb|].
  by rewrite lookup_insert_ne.
Qed.

Lemma set_slot_bams S b i x b' y :
  set_slot b i x S !! b' = Some y → ∃ z, S !! b' = Some z ∧ length y.1 = length z.1 ∧ y.2 = z.2.
Proof.
  unfold set_slot. destruct (S !! b) as [w|] eqn:Hb; [|by eauto].
  destruct (decide (b' = b)) as [->|Hne].
  - rewrite lookup_insert_eq. intros [= <-]. exists w. cbn. by rewrite length_insert.
  - rewrite lookup_insert_ne by done. by eauto.
Qed.
