(* ===== verification/SpsInv.v ===== *)
(** * SPS: steps of the view keep the invariant

    One lemma per change of the view that an operation makes: a client's fields, the
    connection of a pipe, attaching and detaching a client, building and freeing a
    connection. *)

From S2P Require Import Prelude.
From S2P Require Import SpsTypes.
From S2P Require Import SpsMem.
From S2P Require Import SpsBam.
From S2P Require Import SpsRm.
From S2P Require Import SpsView.

Section Inv.
Context (pf : platform).
Abbreviation INV := (INV pf).
Implicit Types V : view.

Definition v_with_cores (cores : gmap positive core) V : view :=
  mkView cores (v_conns V) (v_slots V) (v_queue V) (v_phys V) (v_virt V) (v_bal V) (v_next V)
    (v_devs V) (v_maps V).
Definition v_with_slots (S : gmap Z (list bam_slot * Z)) V : view :=
  mkView (v_cores V) (v_conns V) S (v_queue V) (v_phys V) (v_virt V) (v_bal V) (v_next V)
    (v_devs V) (v_maps V).
Definition v_with_conns (C : gmap positive sps_connection) V : view :=
  mkView (v_cores V) C (v_slots V) (v_queue V) (v_phys V) (v_virt V) (v_bal V) (v_next V)
    (v_devs V) (v_maps V).
Definition v_with_queue (q : list positive) V : view :=
  mkView (v_cores V) (v_conns V) (v_slots V) q (v_phys V) (v_virt V) (v_bal V) (v_next V)
    (v_devs V) (v_maps V).
Definition v_with_bal (x : Z) V : view :=
  mkView (v_cores V) (v_conns V) (v_slots V) (v_queue V) (v_phys V) (v_virt V) x (v_next V)
    (v_devs V) (v_maps V).
Definition v_with_next (x : positive) V : view :=
  mkView (v_cores V) (v_conns V) (v_slots V) (v_queue V) (v_phys V) (v_virt V) (v_bal V) x
    (v_devs V) (v_maps V).

Lemma end_dec (sd sd' : bool) : sd = sd' ∨ sd' = negb sd.
Proof. destruct sd, sd'; auto. Qed.

(** *** Facts *)

Lemma slot_for_same cores l k k' client :
  cores !! l = Some k → is_connected (k_state k') = is_connected (k_state k) →
  slot_for (<[l := k']> cores) client = slot_for cores client.
Proof.
  intros Hl Hc. unfold slot_for. destruct client as [l'|]; [|done].
  destruct (decide (l' = l)) as [->|Hne]; [|by rewrite lookup_insert_ne].
  by rewrite lookup_insert_eq, Hl, Hc.
Qed.

Lemma slot_for_other cores l k' client :
  client ≠ Some l → slot_for (<[l := k']> cores) client = slot_for cores client.
Proof.
  intros Hc. unfold slot_for. destruct client as [l'|]; [|done].
  rewrite lookup_insert_ne by congruence. done.
Qed.

(** A client's connection is linked, and its side owns a pipe. *)
Lemma client_linked u V m c sd l :
  INV u V → v_conns V !! m = Some c → client_on sd c = Some l → u ≠ Some m.
Proof.
  intros Hinv Hm Hc ->. destruct (inv_unlinked _ _ _ Hinv m c eq_refl Hm) as (H1 & H2 & _).
  destruct sd; cbn in Hc; congruence.
Qed.

Lemma client_key u V m c sd l b :
  INV u V → v_conns V !! m = Some c → client_on sd c = Some l → ep_bam (end_of sd c) = Some b →
  key sd c = Some (b, ep_pipe_index (end_of sd c)) ∧
  alloc_on sd c = ep_pipe_index (end_of sd c).
Proof.
  intros Hinv Hm Hc Hb. pose proof (client_linked u V m c sd l Hinv Hm Hc) as Hu.
  pose proof (inv_full _ _ _ Hinv m c sd Hu Hm (mk_is_Some _ _ Hb)) as Ha.
  destruct (inv_alloc _ _ _ Hinv m c sd Hm Ha) as [_ Hidx]. split; [|done].
  unfold key. rewrite (proj2 (Z.eqb_neq _ _)) by done. by rewrite Hb.
Qed.

(** A client is on one side only. *)
Lemma client_one_side u V m c sd sd' l :
  INV u V → v_conns V !! m = Some c → client_on sd c = Some l → client_on sd' c = Some l → sd = sd'.
Proof.
  intros Hinv Hm H1 H2. pose proof (inv_sides _ _ _ Hinv m c l Hm) as Hs.
  destruct sd, sd'; try done; cbn in *; exfalso; by apply Hs.
Qed.

(** *** A client's fields *)

Lemma INV_core u V l k k' :
  INV u V → v_cores V !! l = Some k → k_map k' = k_map k →
  is_connected (k_state k') = is_connected (k_state k) → pipe_ok V l k' →
  INV u (v_with_cores (<[l := k']> (v_cores V)) V).
Proof.
  intros Hinv Hl Hmap Hcon Hok. split; try apply Hinv; cbn.
  - intros l' [k0 Hk0]. destruct (decide (l' = l)) as [->|Hne].
    + apply (inv_fresh_pipe _ _ _ Hinv). by eexists.
    + rewrite lookup_insert_ne in Hk0 by done. apply (inv_fresh_pipe _ _ _ Hinv). by eexists.
  - intros m c sd b i Hm Hkey. destruct (inv_key _ _ _ Hinv m c sd b i Hm Hkey) as [Hs Hn].
    rewrite (slot_for_same _ l k k' _ Hl Hcon). done.
  - intros m c sd l' Hm Hc. destruct (inv_client _ _ _ Hinv m c sd l' Hm Hc) as (k0 & Hk0 & Hm0).
    destruct (decide (l' = l)) as [->|Hne].
    + exists k'. rewrite lookup_insert_eq. split; [done|]. congruence.
    + exists k0. by rewrite lookup_insert_ne.
  - intros l' k0 Hk0. destruct (decide (l' = l)) as [->|Hne].
    + rewrite lookup_insert_eq in Hk0. by injection Hk0 as <-.
    + rewrite lookup_insert_ne in Hk0 by done. exact (inv_pipe _ _ _ Hinv l' k0 Hk0).
Qed.

(** The connection of a pipe and its opposite. *)
Lemma INV_flip u V l k k' m c sd b i :
  INV u V → v_cores V !! l = Some k → k_map k' = k_map k → k_map k = Some m →
  v_conns V !! m = Some c → client_on sd c = Some l → key sd c = Some (b, i) → pipe_ok V l k' →
  INV u (v_with_slots
           (set_slot b i (if is_connected (k_state k') then SlotPipe l else SlotUnassigned) (v_slots V))
           (v_with_cores (<[l := k']> (v_cores V)) V)).
Proof.
  intros Hinv Hl Hmap Hm Hc Hcl Hkey Hok.
  destruct (inv_key _ _ _ Hinv m c sd b i Hc Hkey) as [Hslot Hnum].
  set (x := if is_connected (k_state k') then SlotPipe l else SlotUnassigned).
  split; try apply Hinv; cbn.
  - intros l' [k0 Hk0]. destruct (decide (l' = l)) as [->|Hne].
    + apply (inv_fresh_pipe _ _ _ Hinv). by eexists.
    + rewrite lookup_insert_ne in Hk0 by done. apply (inv_fresh_pipe _ _ _ Hinv). by eexists.
  - intros b' y Hy. destruct (set_slot_bams _ _ _ _ _ _ Hy) as (z & Hz & -> & ->).
    by apply (inv_bams _ _ _ Hinv b').
  - intros m' c' sd' b' i' Hm' Hkey'.
    destruct (inv_key _ _ _ Hinv m' c' sd' b' i' Hm' Hkey') as [Hs' Hn']. split.
    + rewrite slot_slot_in in *. cbn. rewrite (slot_in_set _ _ _ _ _ _ _ Hslot).
      destruct (decide (b' = b ∧ i' = i)) as [[-> ->]|Hne].
      * destruct (inv_unique _ _ _ Hinv m' c' sd' m c sd (b, i)) as [-> ->]; try done.
        assert (c' = c) as -> by congruence. rewrite Hcl. unfold slot_for.
        by rewrite lookup_insert_eq.
      * rewrite slot_for_other; [done|]. intros Hl'.
        destruct (inv_client _ _ _ Hinv m' c' sd' l Hm' Hl') as (k0 & Hk0 & Hm0).
        assert (m' = m) as -> by congruence. assert (c' = c) as -> by congruence.
        assert (sd' = sd) as -> by (by eapply client_one_side). apply Hne.
        rewrite Hkey in Hkey'. by injection Hkey' as <- <-.
    + destruct Hn' as (y & Hy & Hi). pose proof (set_slot_num (v_slots V) b i x b') as Hsn.
      rewrite Hy in Hsn. destruct (set_slot b i x (v_slots V) !! b') as [z|] eqn:Hz; [|done].
      exists z. split; [done|]. cbn in Hsn. injection Hsn as ->. done.
  - intros b' i' y Hy Hne. rewrite slot_slot_in in Hy. cbn in Hy.
    rewrite (slot_in_set _ _ _ _ _ _ _ Hslot) in Hy.
    destruct (decide (b' = b ∧ i' = i)) as [[-> ->]|_]; [by exists m, c, sd|].
    by apply (inv_owned _ _ _ Hinv b' i' y).
  - intros m' c' sd' l' Hm' Hc'.
    destruct (inv_client _ _ _ Hinv m' c' sd' l' Hm' Hc') as (k0 & Hk0 & Hm0).
    destruct (decide (l' = l)) as [->|Hne].
    + exists k'. rewrite lookup_insert_eq. split; [done|]. congruence.
    + exists k0. by rewrite lookup_insert_ne.
  - intros l' k0 Hk0. destruct (decide (l' = l)) as [->|Hne].
    + rewrite lookup_insert_eq in Hk0. by injection Hk0 as <-.
    + rewrite lookup_insert_ne in Hk0 by done. exact (inv_pipe _ _ _ Hinv l' k0 Hk0).
Qed.

(** *** A connection whose ends and memory stay *)

Record same_ends (c c' : sps_connection) : Prop := {
  se_bam sd : ep_bam (end_of sd c') = ep_bam (end_of sd c);
  se_idx sd : ep_pipe_index (end_of sd c') = ep_pipe_index (end_of sd c);
  se_alloc sd : alloc_on sd c' = alloc_on sd c;
  se_mem : fifo_mem c' = fifo_mem c;
}.

Lemma same_ends_key c c' sd : same_ends c c' → key sd c' = key sd c.
Proof. intros [H1 H2 H3 _]. unfold key. by rewrite H1, H2, H3. Qed.

Lemma pipe_ok_conns V C l k :
  pipe_ok V l k →
  (∀ m c sd, v_conns V !! m = Some c → client_on sd c = Some l →
     ∃ c', C !! m = Some c' ∧ client_on sd c' = Some l ∧
       ep_bam (end_of sd c') = ep_bam (end_of sd c) ∧
       ep_pipe_index (end_of sd c') = ep_pipe_index (end_of sd c)) →
  pipe_ok (v_with_conns C V) l k.
Proof.
  intros [Hd|(Hst & m & c & sd & b & Hm & Hc & Hcl & Hb & Heb & Hcon)] Hkeep; [by left|].
  destruct (Hkeep m c sd Hc Hcl) as (c' & Hc' & Hcl' & Heb' & Hidx').
  right. split; [done|]. exists m, c', sd, b. cbn. rewrite Heb', Hidx'. done.
Qed.

Lemma pipe_ok_view V V' l k : v_conns V' = v_conns V → pipe_ok V l k → pipe_ok V' l k.
Proof. unfold pipe_ok. by intros ->. Qed.

(** The keys of the connections after one of them is replaced. *)
Lemma keys_replaced (C : gmap positive sps_connection) m c c' m1 c1 sd :
  C !! m = Some c → (∀ sd, key sd c' = key sd c) → <[m := c']> C !! m1 = Some c1 →
  ∃ c0, C !! m1 = Some c0 ∧ key sd c1 = key sd c0 ∧ (m1 = m → c0 = c ∧ c1 = c') ∧ (m1 ≠ m → c0 = c1).
Proof.
  intros Hm Hk H1. destruct (decide (m1 = m)) as [->|Hne].
  - rewrite lookup_insert_eq in H1. injection H1 as <-. exists c. split_and!; auto. done.
  - rewrite lookup_insert_ne in H1 by done. exists c1. split_and!; auto. done.
Qed.

(** *** Building a connection *)

Lemma INV_new V c :
  INV None V → m_client_src c = None → m_client_dest c = None → m_refs c = 0 →
  (∀ sd, alloc_on sd c = SPS_BAM_PIPE_INVALID) → fifo_mem c = 0 →
  INV (Some (v_next V))
    (v_with_next (Pos.succ (v_next V)) (v_with_conns (<[v_next V := c]> (v_conns V)) V)).
Proof.
  intros Hinv Hs Hd Hr Ha Hf.
  assert (v_conns V !! v_next V = None) as Hfresh.
  { destruct (v_conns V !! v_next V) eqn:Hn; [|done].
    pose proof (inv_fresh_conn _ _ _ Hinv (v_next V) (mk_is_Some _ _ Hn)). lia. }
  assert (∀ sd, key sd c = None) as Hkey by (intros sd; unfold key; by rewrite Ha).
  assert (∀ m c1, <[v_next V := c]> (v_conns V) !! m = Some c1 →
            (m = v_next V ∧ c1 = c) ∨ (m ≠ v_next V ∧ v_conns V !! m = Some c1)) as Hcases.
  { intros m c1 H1. destruct (decide (m = v_next V)) as [->|Hne].
    - rewrite lookup_insert_eq in H1. injection H1 as <-. by left.
    - rewrite lookup_insert_ne in H1 by done. by right. }
  split; cbn; try apply Hinv.
  - intros m. rewrite (inv_linked _ _ _ Hinv m). split.
    + intros [[c1 H1] _]. assert (m ≠ v_next V) by (intros ->; congruence).
      rewrite lookup_insert_ne by done. split; [by eexists|]. congruence.
    + intros [[c1 H1] Hne]. destruct (Hcases m c1 H1) as [[-> _]|[_ H2]]; [done|].
      split; [by eexists|done].
  - intros m [c1 H1]. destruct (Hcases m c1 H1) as [[-> _]|[_ H2]]; [lia|].
    pose proof (inv_fresh_conn _ _ _ Hinv m (mk_is_Some _ _ H2)). lia.
  - intros l Hl. pose proof (inv_fresh_pipe _ _ _ Hinv l Hl). lia.
  - intros m c1 sd b i H1 Hk. destruct (Hcases m c1 H1) as [[_ ->]|[_ H2]]; [by rewrite Hkey in Hk|].
    exact (inv_key _ _ _ Hinv m c1 sd b i H2 Hk).
  - intros m c1 sd m' c1' sd' k H1 H1' Hk Hk'.
    destruct (Hcases m c1 H1) as [[_ ->]|[_ H2]]; [by rewrite Hkey in Hk|].
    destruct (Hcases m' c1' H1') as [[_ ->]|[_ H2']]; [by rewrite Hkey in Hk'|].
    exact (inv_unique _ _ _ Hinv m c1 sd m' c1' sd' k H2 H2' Hk Hk').
  - intros b i x Hx Hne. destruct (inv_owned _ _ _ Hinv b i x Hx Hne) as (m & c1 & sd & H1 & Hk).
    exists m, c1, sd. rewrite lookup_insert_ne by congruence. done.
  - intros m c1 sd H1 Hal. destruct (Hcases m c1 H1) as [[_ ->]|[_ H2]]; [by rewrite Ha in Hal|].
    exact (inv_alloc _ _ _ Hinv m c1 sd H2 Hal).
  - intros m c1 sd Hu H1. destruct (Hcases m c1 H1) as [[-> _]|[_ H2]]; [done|].
    exact (inv_full _ _ _ Hinv m c1 sd ltac:(done) H2).
  - intros m c1 Hu H1. destruct (Hcases m c1 H1) as [[-> _]|[_ H2]]; [done|].
    exact (inv_refs _ _ _ Hinv m c1 ltac:(done) H2).
  - intros m c1 [= <-] H1. rewrite lookup_insert_eq in H1. by injection H1 as <-.
  - intros m c1 sd l H1 Hc. destruct (Hcases m c1 H1) as [[_ ->]|[_ H2]].
    + by destruct sd; cbn in Hc; congruence.
    + exact (inv_client _ _ _ Hinv m c1 sd l H2 Hc).
  - intros m c1 l H1. destruct (Hcases m c1 H1) as [[_ ->]|[_ H2]]; [by rewrite Hs|].
    exact (inv_sides _ _ _ Hinv m c1 l H2).
  - intros l k Hl. eapply pipe_ok_view; [|apply (pipe_ok_conns V (<[v_next V := c]> (v_conns V)))];
      [done|exact (inv_pipe _ _ _ Hinv l k Hl)|].
    intros m c1 sd H1 Hc. exists c1. rewrite lookup_insert_ne by congruence. done.
  - rewrite fifo_sum_insert by done. rewrite Hf. apply Hinv.
Qed.

(** Any change of the connection under construction that keeps its pipes. *)
Lemma INV_build V m c c' bal :
  INV (Some m) V → v_conns V !! m = Some c →
  m_client_src c' = None → m_client_dest c' = None → m_refs c' = 0 →
  (∀ sd, key sd c' = key sd c) →
  (∀ sd, alloc_on sd c' ≠ SPS_BAM_PIPE_INVALID →
     is_Some (ep_bam (end_of sd c')) ∧ alloc_on sd c' = ep_pipe_index (end_of sd c')) →
  bal = u32 (v_bal V + (fifo_mem c' - fifo_mem c)) →
  INV (Some m) (v_with_bal bal (v_with_conns (<[m := c']> (v_conns V)) V)).
Proof.
  intros Hinv Hm Hs Hd Hr Hk Ha Hbal.
  assert (∀ m1 c1 sd, <[m := c']> (v_conns V) !! m1 = Some c1 →
            ∃ c0, v_conns V !! m1 = Some c0 ∧ key sd c1 = key sd c0 ∧
              (m1 = m → c0 = c ∧ c1 = c') ∧ (m1 ≠ m → c0 = c1)) as Hcases.
  { intros m1 c1 sd. by apply keys_replaced. }
  split; cbn; try apply Hinv.
  - intros m1. rewrite (inv_linked _ _ _ Hinv m1). destruct (decide (m1 = m)) as [->|Hne].
    + split; by intros [_ ?].
    + by rewrite lookup_insert_ne.
  - intros m1 [c1 H1]. destruct (Hcases m1 c1 true H1) as (c0 & H0 & _).
    apply (inv_fresh_conn _ _ _ Hinv). by eexists.
  - intros m1 c1 sd b i H1 Hk1. destruct (Hcases m1 c1 sd H1) as (c0 & H0 & Hke & Heq & Hne).
    rewrite Hke in Hk1. destruct (inv_key _ _ _ Hinv m1 c0 sd b i H0 Hk1) as [Hslot Hn].
    split; [|done]. change (slot V b i = Some (slot_for (v_cores V) (client_on sd c1))).
    rewrite Hslot. destruct (decide (m1 = m)) as [->|Hn1]; [|by rewrite (Hne Hn1)].
    destruct (Heq eq_refl) as [-> ->].
    destruct (inv_unlinked _ _ _ Hinv m c eq_refl Hm) as (H2 & H3 & _).
    destruct sd; cbn; congruence.
  - intros m1 c1 sd m2 c2 sd' k H1 H2 Hk1 Hk2.
    destruct (Hcases m1 c1 sd H1) as (c01 & H01 & Hke1 & _).
    destruct (Hcases m2 c2 sd' H2) as (c02 & H02 & Hke2 & _).
    rewrite Hke1 in Hk1. rewrite Hke2 in Hk2.
    exact (inv_unique _ _ _ Hinv m1 c01 sd m2 c02 sd' k H01 H02 Hk1 Hk2).
  - intros b i x Hx Hne. destruct (inv_owned _ _ _ Hinv b i x Hx Hne) as (m1 & c1 & sd & H1 & Hk1).
    destruct (decide (m1 = m)) as [->|Hn1].
    + exists m, c', sd. rewrite lookup_insert_eq, Hk. split; [done|]. congruence.
    + exists m1, c1, sd. by rewrite lookup_insert_ne.
  - intros m1 c1 sd H1 Hal. destruct (Hcases m1 c1 sd H1) as (c0 & H0 & _ & Heq & Hne).
    destruct (decide (m1 = m)) as [->|Hn1].
    + destruct (Heq eq_refl) as [_ ->]. by apply Ha.
    + rewrite <- (Hne Hn1) in *. exact (inv_alloc _ _ _ Hinv m1 c0 sd H0 Hal).
  - intros m1 c1 sd Hu H1. rewrite lookup_insert_ne in H1 by congruence.
    exact (inv_full _ _ _ Hinv m1 c1 sd Hu H1).
  - intros m1 c1 Hu H1. rewrite lookup_insert_ne in H1 by congruence.
    exact (inv_refs _ _ _ Hinv m1 c1 Hu H1).
  - intros m1 c1 [= <-] H1. rewrite lookup_insert_eq in H1. by injection H1 as <-.
  - intros m1 c1 sd l H1 Hc. destruct (decide (m1 = m)) as [->|Hn1].
    + rewrite lookup_insert_eq in H1. injection H1 as <-. by destruct sd; cbn in Hc; congruence.
    + rewrite lookup_insert_ne in H1 by done. exact (inv_client _ _ _ Hinv m1 c1 sd l H1 Hc).
  - intros m1 c1 l H1. destruct (decide (m1 = m)) as [->|Hn1].
    + rewrite lookup_insert_eq in H1. injection H1 as <-. by rewrite Hs.
    + rewrite lookup_insert_ne in H1 by done. exact (inv_sides _ _ _ Hinv m1 c1 l H1).
  - intros l k Hl. eapply pipe_ok_view; [|apply (pipe_ok_conns V (<[m := c']> (v_conns V)))];
      [done|exact (inv_pipe _ _ _ Hinv l k Hl)|].
    intros m1 c1 sd H1 Hc. pose proof (client_linked _ _ _ _ _ _ Hinv H1 Hc) as Hu.
    exists c1. rewrite lookup_insert_ne by congruence. done.
  - rewrite (fifo_sum_update _ _ _ _ Hm), Hbal, (inv_balance _ _ _ Hinv), u32_add_l.
    f_equal. lia.
Qed.

(** A side of the connection under construction takes a free pipe. *)
Lemma INV_take V m c c' sd b i x :
  INV (Some m) V → v_conns V !! m = Some c →
  m_client_src c' = None → m_client_dest c' = None → m_refs c' = 0 →
  key sd c = None → key sd c' = Some (b, i) → key (negb sd) c' = key (negb sd) c →
  (∀ sd, alloc_on sd c' ≠ SPS_BAM_PIPE_INVALID →
     is_Some (ep_bam (end_of sd c')) ∧ alloc_on sd c' = ep_pipe_index (end_of sd c')) →
  fifo_mem c' = fifo_mem c →
  slot V b i = Some SlotNull → v_slots V !! b = Some x → 0 ≤ i < x.2 →
  INV (Some m) (v_with_slots (set_slot b i SlotUnassigned (v_slots V))
                 (v_with_conns (<[m := c']> (v_conns V)) V)).
Proof.
  intros Hinv Hm Hs Hd Hr Hk0 Hk1 Hk2 Ha Hf Hnull Hb Hi.
  assert (∀ m1 c1 sd1, v_conns V !! m1 = Some c1 → key sd1 c1 ≠ Some (b, i)) as Hfree.
  { intros m1 c1 sd1 H1 Hkk. destruct (inv_key _ _ _ Hinv m1 c1 sd1 b i H1 Hkk) as [Hsl _].
    rewrite Hnull in Hsl. injection Hsl as Hsl. unfold slot_for in Hsl.
    destruct (client_on sd1 c1) as [l|]; [|done].
    destruct (v_cores V !! l) as [k|]; [by destruct (is_connected _)|done]. }
  assert (∀ m1 c1 sd1, <[m := c']> (v_conns V) !! m1 = Some c1 →
            (m1 = m ∧ c1 = c' ∧ sd1 = sd) ∨
            (∃ c0, v_conns V !! m1 = Some c0 ∧ key sd1 c1 = key sd1 c0 ∧
               client_on sd1 c1 = client_on sd1 c0)) as Hcases.
  { intros m1 c1 sd1 H1. destruct (decide (m1 = m)) as [->|Hne].
    - rewrite lookup_insert_eq in H1. injection H1 as <-.
      destruct (end_dec sd sd1) as [->| ->]; [by left|]. right. exists c. split; [done|].
      split; [done|]. destruct (inv_unlinked _ _ _ Hinv m c eq_refl Hm) as (H2 & H3 & _).
      destruct sd; cbn; congruence.
    - rewrite lookup_insert_ne in H1 by done. right. by exists c1. }
  pose proof (λ y b' i', slot_in_set (v_slots V) b i y SlotNull b' i' Hnull) as Hset.
  split; cbn; try apply Hinv.
  - intros m1. rewrite (inv_linked _ _ _ Hinv m1). destruct (decide (m1 = m)) as [->|Hne].
    + split; by intros [_ ?].
    + by rewrite lookup_insert_ne.
  - intros m1 [c1 H1]. destruct (decide (m1 = m)) as [->|Hne].
    + apply (inv_fresh_conn _ _ _ Hinv). by eexists.
    + rewrite lookup_insert_ne in H1 by done. apply (inv_fresh_conn _ _ _ Hinv). by eexists.
  - intros b' y Hy. destruct (set_slot_bams _ _ _ _ _ _ Hy) as (z & Hz & -> & ->).
    by apply (inv_bams _ _ _ Hinv b').
  - intros m1 c1 sd1 b' i' H1 Hkk. rewrite slot_slot_in. cbn. rewrite Hset.
    assert (∀ y, v_slots V !! b' = Some y → 0 ≤ i' < y.2 →
              ∃ z, set_slot b i SlotUnassigned (v_slots V) !! b' = Some z ∧ 0 ≤ i' < z.2) as Hn.
    { intros y Hy Hi'. pose proof (set_slot_num (v_slots V) b i SlotUnassigned b') as Hsn.
      rewrite Hy in Hsn. destruct (set_slot _ _ _ _ !! b') as [z|]; [|done].
      injection Hsn as Hsn. exists z. by rewrite Hsn. }
    destruct (Hcases m1 c1 sd1 H1) as [(-> & -> & ->)|(c0 & H0 & Hke & Hcl)].
    + rewrite Hk1 in Hkk. injection Hkk as <- <-. rewrite decide_True by done.
      split; [|by eapply Hn]. destruct sd; cbn; by rewrite ?Hs, ?Hd.
    + rewrite Hke in Hkk. destruct (inv_key _ _ _ Hinv m1 c0 sd1 b' i' H0 Hkk) as [Hsl (y & Hy & Hi')].
      rewrite decide_False by (intros [-> ->]; by apply (Hfree m1 c0 sd1)).
      split; [by rewrite Hcl|by eapply Hn].
  - intros m1 c1 sd1 m2 c2 sd2 k H1 H2 Hk1' Hk2'.
    destruct (Hcases m1 c1 sd1 H1) as [(-> & -> & ->)|(c01 & H01 & Hke1 & _)];
      destruct (Hcases m2 c2 sd2 H2) as [(-> & -> & ->)|(c02 & H02 & Hke2 & _)]; try done.
    + destruct (Hfree m2 c02 sd2 H02). congruence.
    + destruct (Hfree m1 c01 sd1 H01). congruence.
    + exact (inv_unique _ _ _ Hinv m1 c01 sd1 m2 c02 sd2 k H01 H02 ltac:(congruence) ltac:(congruence)).
  - intros b' i' y Hy Hne. rewrite slot_slot_in in Hy. cbn in Hy. rewrite Hset in Hy.
    destruct (decide (b' = b ∧ i' = i)) as [[-> ->]|_].
    + exists m, c', sd. by rewrite lookup_insert_eq.
    + destruct (inv_owned _ _ _ Hinv b' i' y Hy Hne) as (m1 & c1 & sd1 & H1 & Hkk).
      destruct (decide (m1 = m)) as [->|Hn1]; [|exists m1, c1, sd1; by rewrite lookup_insert_ne].
      exists m, c', sd1. rewrite lookup_insert_eq. split; [done|].
      assert (c1 = c) as -> by congruence.
      destruct (end_dec sd sd1) as [->| ->]; [by rewrite Hk0 in Hkk|by rewrite Hk2].
  - intros m1 c1 sd1 H1 Hal. destruct (decide (m1 = m)) as [->|Hn1].
    + rewrite lookup_insert_eq in H1. injection H1 as <-. by apply Ha.
    + rewrite lookup_insert_ne in H1 by done. exact (inv_alloc _ _ _ Hinv m1 c1 sd1 H1 Hal).
  - intros m1 c1 sd1 Hu H1. rewrite lookup_insert_ne in H1 by congruence.
    exact (inv_full _ _ _ Hinv m1 c1 sd1 Hu H1).
  - intros m1 c1 Hu H1. rewrite lookup_insert_ne in H1 by congruence.
    exact (inv_refs _ _ _ Hinv m1 c1 Hu H1).
  - intros m1 c1 [= <-] H1. rewrite lookup_insert_eq in H1. by injection H1 as <-.
  - intros m1 c1 sd1 l H1 Hc. destruct (decide (m1 = m)) as [->|Hn1].
    + rewrite lookup_insert_eq in H1. injection H1 as <-. by destruct sd1; cbn in Hc; congruence.
    + rewrite lookup_insert_ne in H1 by done. exact (inv_client _ _ _ Hinv m1 c1 sd1 l H1 Hc).
  - intros m1 c1 l H1. destruct (decide (m1 = m)) as [->|Hn1].
    + rewrite lookup_insert_eq in H1. injection H1 as <-. by rewrite Hs.
    + rewrite lookup_insert_ne in H1 by done. exact (inv_sides _ _ _ Hinv m1 c1 l H1).
  - intros l k Hl. eapply pipe_ok_view; [|apply (pipe_ok_conns V (<[m := c']> (v_conns V)))];
      [done|exact (inv_pipe _ _ _ Hinv l k Hl)|].
    intros m1 c1 sd1 H1 Hc. pose proof (client_linked _ _ _ _ _ _ Hinv H1 Hc) as Hu.
    exists c1. rewrite lookup_insert_ne by congruence. done.
  - rewrite (fifo_sum_update _ _ _ _ Hm), Hf, (inv_balance _ _ _ Hinv). f_equal. lia.
Qed.

(** *** Freeing a connection *)

Definition clear_key (o : option (Z * Z)) (S : gmap Z (list bam_slot * Z)) :
    gmap Z (list bam_slot * Z) :=
  match o with Some (b, i) => set_slot b i SlotNull S | None => S end.

Definition cleared (c : sps_connection) (S : gmap Z (list bam_slot * Z)) :
    gmap Z (list bam_slot * Z) := clear_key (key false c) (clear_key (key true c) S).

Lemma slot_in_clear S o b' i' :
  (∀ b i, o = Some (b, i) → is_Some (slot_in S b i)) →
  slot_in (clear_key o S) b' i' = if decide (o = Some (b', i')) then Some SlotNull else slot_in S b' i'.
Proof.
  intros Ho. destruct o as [[b i]|]; [|done]. destruct (Ho b i eq_refl) as [y Hy].
  unfold clear_key. rewrite (slot_in_set _ _ _ _ _ _ _ Hy).
  destruct (decide (b' = b ∧ i' = i)) as [[-> ->]|Hne]; [by rewrite decide_True|].
  rewrite decide_False by (intros [= -> ->]; tauto). done.
Qed.

Lemma clear_key_num S o b' : snd <$> clear_key o S !! b' = snd <$> S !! b'.
Proof. destruct o as [[b i]|]; [apply set_slot_num|done]. Qed.

Lemma clear_key_bams S o b' y :
  clear_key o S !! b' = Some y → ∃ z, S !! b' = Some z ∧ length y.1 = length z.1 ∧ y.2 = z.2.
Proof. destruct o as [[b i]|]; [apply set_slot_bams|by eauto]. Qed.

Lemma cleared_bams c S b' y :
  cleared c S !! b' = Some y → ∃ z, S !! b' = Some z ∧ length y.1 = length z.1 ∧ y.2 = z.2.
Proof.
  intros (w & Hw & -> & ->)%clear_key_bams. by apply clear_key_bams in Hw.
Qed.

Lemma cleared_num c S b' : snd <$> cleared c S !! b' = snd <$> S !! b'.
Proof. unfold cleared. by rewrite !clear_key_num. Qed.

Lemma slot_in_cleared c S b i :
  (∀ sd b i, key sd c = Some (b, i) → is_Some (slot_in S b i)) →
  slot_in (cleared c S) b i =
  if decide (key true c = Some (b, i) ∨ key false c = Some (b, i)) then Some SlotNull
  else slot_in S b i.
Proof.
  intros Hk. unfold cleared. rewrite slot_in_clear.
  - rewrite slot_in_clear by (intros; by eapply Hk).
    destruct (decide (key false c = Some (b, i))), (decide (key true c = Some (b, i))), (decide _); tauto.
  - intros b0 i0 H0. rewrite slot_in_clear by (intros; by eapply Hk).
    destruct (decide _); [done|]. by eapply Hk.
Qed.

Lemma INV_freed V m c :
  INV (Some m) V → v_conns V !! m = Some c →
  INV None (v_with_bal (u32 (v_bal V - fifo_mem c))
             (v_with_slots (cleared c (v_slots V)) (v_with_conns (delete m (v_conns V)) V))).
Proof.
  intros Hinv Hm.
  assert (∀ sd b i, key sd c = Some (b, i) → is_Some (slot_in (v_slots V) b i)) as Hin.
  { intros sd b i Hk. destruct (inv_key _ _ _ Hinv m c sd b i Hm Hk) as [Hs _]. by eexists. }
  assert (∀ m1 c1, delete m (v_conns V) !! m1 = Some c1 → m1 ≠ m ∧ v_conns V !! m1 = Some c1) as Hdel.
  { intros m1 c1 [H1 H2]%lookup_delete_Some. by split. }
  split; cbn; try apply Hinv.
  - intros m1. rewrite (inv_linked _ _ _ Hinv m1). split.
    + intros [H1 H2]. rewrite lookup_delete_ne by congruence. by split.
    + intros [[c1 H1] _]. destruct (Hdel m1 c1 H1) as [Hne H2]. split; [by eexists|congruence].
  - intros m1 [c1 H1]. apply (inv_fresh_conn _ _ _ Hinv). destruct (Hdel m1 c1 H1). by eexists.
  - intros b y (z & Hz & -> & ->)%cleared_bams. by apply (inv_bams _ _ _ Hinv b).
  - intros m1 c1 sd b i H1 Hk. destruct (Hdel m1 c1 H1) as [Hne H2].
    destruct (inv_key _ _ _ Hinv m1 c1 sd b i H2 Hk) as [Hs (y & Hy & Hi)]. split.
    + rewrite slot_slot_in. cbn. rewrite slot_in_cleared by done. rewrite decide_False; [done|].
      intros [Hk'|Hk'];
        by destruct (inv_unique _ _ _ Hinv m1 c1 sd m c _ (b, i) H2 Hm Hk Hk').
    + pose proof (cleared_num c (v_slots V) b) as Hn. rewrite Hy in Hn.
      destruct (cleared c (v_slots V) !! b) as [z|]; [|done]. injection Hn as Hn.
      exists z. by rewrite Hn.
  - intros m1 c1 sd1 m2 c2 sd2 k H1 H2. destruct (Hdel m1 c1 H1), (Hdel m2 c2 H2).
    by apply (inv_unique _ _ _ Hinv m1 c1 sd1 m2 c2 sd2 k).
  - intros b i x Hx Hne. rewrite slot_slot_in in Hx. cbn in Hx.
    rewrite slot_in_cleared in Hx by done. destruct (decide _) as [|Hno]; [by injection Hx as <-|].
    destruct (inv_owned _ _ _ Hinv b i x Hx Hne) as (m1 & c1 & sd & H1 & Hk).
    exists m1, c1, sd. rewrite lookup_delete_ne; [done|]. intros <-.
    assert (c1 = c) as -> by congruence. destruct sd; tauto.
  - intros m1 c1 sd H1. destruct (Hdel m1 c1 H1). by apply (inv_alloc _ _ _ Hinv m1).
  - intros m1 c1 sd _ H1. destruct (Hdel m1 c1 H1) as [Hne H2].
    apply (inv_full _ _ _ Hinv m1 c1 sd); [congruence|done].
  - intros m1 c1 _ H1. destruct (Hdel m1 c1 H1) as [Hne H2].
    apply (inv_refs _ _ _ Hinv m1 c1); [congruence|done].
  - by intros m1 c1 [=].
  - intros m1 c1 sd l H1. destruct (Hdel m1 c1 H1). by apply (inv_client _ _ _ Hinv m1 c1).
  - intros m1 c1 l H1. destruct (Hdel m1 c1 H1). by apply (inv_sides _ _ _ Hinv m1).
  - intros l k Hl. eapply pipe_ok_view; [|apply (pipe_ok_conns V (delete m (v_conns V)))];
      [done|exact (inv_pipe _ _ _ Hinv l k Hl)|].
    intros m1 c1 sd1 H1 Hc. pose proof (client_linked _ _ _ _ _ _ Hinv H1 Hc) as Hu.
    exists c1. rewrite lookup_delete_ne by congruence. done.
  - rewrite (fifo_sum_delete _ _ _ Hm), (inv_balance _ _ _ Hinv). apply u32_sub_l.
Qed.

(** *** Attaching and detaching a client

    One client [l], not connected, comes to or leaves side [sd] of the connection [m], which
    may enter or leave the queue. *)
Lemma INV_client_change u u' q' V m c c' sd l k k' :
  INV u V → v_conns V !! m = Some c → v_cores V !! l = Some k → same_ends c c' →
  (u = None ∨ u = Some m) → (u' = None ∨ u' = Some m) →
  is_connected (k_state k) = false → is_connected (k_state k') = false →
  client_on (negb sd) c' = client_on (negb sd) c → client_on (negb sd) c ≠ Some l →
  (client_on sd c = None ∨ client_on sd c = Some l) →
  (client_on sd c' = None ∨ client_on sd c' = Some l) →
  (∀ m1 c1 sd1, v_conns V !! m1 = Some c1 → client_on sd1 c1 = Some l → m1 = m ∧ sd1 = sd) →
  (client_on sd c' = Some l → k_map k' = Some m) →
  pipe_ok (v_with_conns (<[m := c']> (v_conns V)) V) l k' →
  NoDup q' → (∀ m1, m1 ∈ q' ↔ is_Some (v_conns V !! m1) ∧ u' ≠ Some m1) →
  (u' = None → m_refs c' = client_count c' ∧ 1 ≤ m_refs c' ∧
     ∀ sd, is_Some (ep_bam (end_of sd c)) → alloc_on sd c ≠ SPS_BAM_PIPE_INVALID) →
  (u' = Some m → m_client_src c' = None ∧ m_client_dest c' = None ∧ m_refs c' = 0) →
  INV u' (v_with_queue q' (v_with_cores (<[l := k']> (v_cores V))
            (v_with_conns (<[m := c']> (v_conns V)) V))).
Proof.
  intros Hinv Hm Hl Hse Hu Hu' Hk Hk' Hoth Hnot Hold Hnew Honly Hmap Hok Hnd Hq Hlinked Hun.
  assert (∀ m1 c1 sd1, <[m := c']> (v_conns V) !! m1 = Some c1 →
            ∃ c0, v_conns V !! m1 = Some c0 ∧ key sd1 c1 = key sd1 c0 ∧
              (m1 = m → c0 = c ∧ c1 = c') ∧ (m1 ≠ m → c0 = c1)) as Hcases.
  { intros m1 c1 sd1. apply keys_replaced; [done|]. intros. by apply same_ends_key. }
  assert (∀ sd1, slot_for (<[l := k']> (v_cores V)) (client_on sd1 c') =
                 slot_for (v_cores V) (client_on sd1 c)) as Hslots.
  { intros sd1. rewrite (slot_for_same _ l k k') by congruence. unfold slot_for.
    destruct (end_dec sd sd1) as [->| ->]; [|by rewrite Hoth].
    destruct Hold as [->| ->], Hnew as [->| ->]; rewrite ?Hl, ?Hk; done. }
  assert (∀ m1 c1 sd1, m1 ≠ m → v_conns V !! m1 = Some c1 →
            slot_for (<[l := k']> (v_cores V)) (client_on sd1 c1) =
            slot_for (v_cores V) (client_on sd1 c1)) as Hslots'.
  { intros m1 c1 sd1 Hne H1. apply slot_for_other. intros Hc.
    by destruct (Honly m1 c1 sd1 H1 Hc). }
  split; cbn; try apply Hinv; try done.
  - intros m1. rewrite Hq. destruct (decide (m1 = m)) as [->|Hne].
    + rewrite lookup_insert_eq, Hm. split; intros [_ ?]; (split; [by eexists|done]).
    + by rewrite lookup_insert_ne.
  - intros m1 [c1 H1]. destruct (Hcases m1 c1 true H1) as (c0 & H0 & _).
    apply (inv_fresh_conn _ _ _ Hinv). by eexists.
  - intros l' [k0 Hk0]. apply (inv_fresh_pipe _ _ _ Hinv).
    destruct (decide (l' = l)) as [->|Hne]; [by eexists|].
    rewrite lookup_insert_ne in Hk0 by done. by eexists.
  - intros m1 c1 sd1 b i H1 Hk1. destruct (Hcases m1 c1 sd1 H1) as (c0 & H0 & Hke & Heq & Hne).
    rewrite Hke in Hk1. destruct (inv_key _ _ _ Hinv m1 c0 sd1 b i H0 Hk1) as [Hs Hn].
    split; [|done]. change (slot V b i = Some (slot_for (<[l:=k']> (v_cores V)) (client_on sd1 c1))).
    rewrite Hs. destruct (decide (m1 = m)) as [->|Hn1].
    + destruct (Heq eq_refl) as [-> ->]. by rewrite Hslots.
    + rewrite <- (Hne Hn1). by rewrite (Hslots' m1 c0 sd1 Hn1 H0).
  - intros m1 c1 sd1 m2 c2 sd2 kk H1 H2 Hk1 Hk2.
    destruct (Hcases m1 c1 sd1 H1) as (c01 & H01 & Hke1 & _).
    destruct (Hcases m2 c2 sd2 H2) as (c02 & H02 & Hke2 & _).
    exact (inv_unique _ _ _ Hinv m1 c01 sd1 m2 c02 sd2 kk H01 H02 ltac:(congruence) ltac:(congruence)).
  - intros b i x Hx Hne. destruct (inv_owned _ _ _ Hinv b i x Hx Hne) as (m1 & c1 & sd1 & H1 & Hk1).
    destruct (decide (m1 = m)) as [->|Hn1].
    + exists m, c', sd1. rewrite lookup_insert_eq, (same_ends_key _ _ _ Hse). split; [done|]. congruence.
    + exists m1, c1, sd1. by rewrite lookup_insert_ne.
  - intros m1 c1 sd1 H1 Hal. destruct (Hcases m1 c1 sd1 H1) as (c0 & H0 & _ & Heq & Hne).
    destruct (decide (m1 = m)) as [->|Hn1].
    + destruct (Heq eq_refl) as [-> ->]. rewrite (se_alloc _ _ Hse) in *. rewrite (se_bam _ _ Hse), (se_idx _ _ Hse).
      exact (inv_alloc _ _ _ Hinv m c sd1 Hm Hal).
    + rewrite <- (Hne Hn1) in *. exact (inv_alloc _ _ _ Hinv m1 c0 sd1 H0 Hal).
  - intros m1 c1 sd1 Hu1 H1 Hb. destruct (decide (m1 = m)) as [->|Hn1].
    + rewrite lookup_insert_eq in H1. injection H1 as <-. rewrite (se_alloc _ _ Hse).
      rewrite (se_bam _ _ Hse) in Hb. destruct Hu' as [->| ->]; [|done]. by apply Hlinked.
    + rewrite lookup_insert_ne in H1 by done.
      apply (inv_full _ _ _ Hinv m1 c1 sd1); [|done..]. by destruct Hu as [->| ->]; congruence.
  - intros m1 c1 Hu1 H1. destruct (decide (m1 = m)) as [->|Hn1].
    + rewrite lookup_insert_eq in H1. injection H1 as <-. destruct Hu' as [->| ->]; [|done].
      by destruct (Hlinked eq_refl) as (? & ? & _).
    + rewrite lookup_insert_ne in H1 by done.
      apply (inv_refs _ _ _ Hinv m1 c1); [|done]. by destruct Hu as [->| ->]; congruence.
  - intros m1 c1 Hu1 H1. destruct Hu' as [->| ->]; [done|]. injection Hu1 as <-.
    rewrite lookup_insert_eq in H1. injection H1 as <-. by apply Hun.
  - intros m1 c1 sd1 l' H1 Hc. destruct (decide (l' = l)) as [->|Hne].
    + exists k'. rewrite lookup_insert_eq. split; [done|].
      destruct (decide (m1 = m)) as [->|Hn1].
      * rewrite lookup_insert_eq in H1. injection H1 as <-.
        destruct (end_dec sd sd1) as [->| ->]; [by apply Hmap|]. by rewrite Hoth in Hc.
      * rewrite lookup_insert_ne in H1 by done. by destruct (Honly m1 c1 sd1 H1 Hc).
    + rewrite lookup_insert_ne by done. destruct (decide (m1 = m)) as [->|Hn1].
      * rewrite lookup_insert_eq in H1. injection H1 as <-.
        destruct (end_dec sd sd1) as [->| ->].
        { destruct Hnew as [Hnew|Hnew]; rewrite Hnew in Hc; [done|congruence]. }
        rewrite Hoth in Hc. exact (inv_client _ _ _ Hinv m c (negb sd) l' Hm Hc).
      * rewrite lookup_insert_ne in H1 by done. exact (inv_client _ _ _ Hinv m1 c1 sd1 l' H1 Hc).
  - intros m1 c1 l' H1 Hs1 Hd1. destruct (decide (m1 = m)) as [->|Hn1].
    + rewrite lookup_insert_eq in H1. injection H1 as <-.
      destruct sd; cbn in *; destruct Hnew as [Hnew|Hnew]; congruence.
    + rewrite lookup_insert_ne in H1 by done. by apply (inv_sides _ _ _ Hinv m1 c1 l').
  - intros l' k0 Hk0. destruct (decide (l' = l)) as [->|Hne].
    + rewrite lookup_insert_eq in Hk0. injection Hk0 as <-. by eapply pipe_ok_view; [|exact Hok].
    + rewrite lookup_insert_ne in Hk0 by done.
      eapply pipe_ok_view; [|apply (pipe_ok_conns V (<[m := c']> (v_conns V)))];
        [done|exact (inv_pipe _ _ _ Hinv l' k0 Hk0)|].
      intros m1 c1 sd1 H1 Hc. destruct (decide (m1 = m)) as [->|Hn1].
      * exists c'. rewrite lookup_insert_eq. assert (c1 = c) as -> by congruence.
        rewrite (se_bam _ _ Hse), (se_idx _ _ Hse). split_and!; try done.
        destruct (end_dec sd sd1) as [->| ->]; [|by rewrite Hoth].
        destruct Hold as [Hold|Hold]; rewrite Hold in Hc; [done|congruence].
      * exists c1. by rewrite lookup_insert_ne.
  - rewrite (fifo_sum_update _ _ _ _ Hm), (se_mem _ _ Hse), (inv_balance _ _ _ Hinv). f_equal. lia.
Qed.

(** *** Endpoints *)

Lemma INV_new_pipe V k :
  INV None V → k_state k = SPS_STATE_DISCONNECT → k_map k = None → k_bam k = None →
  INV None (v_with_next (Pos.succ (v_next V)) (v_with_cores (<[v_next V := k]> (v_cores V)) V)).
Proof.
  intros Hinv Hs Hm Hb.
  assert (v_cores V !! v_next V = None) as Hfresh.
  { destruct (v_cores V !! v_next V) eqn:Hn; [|done].
    pose proof (inv_fresh_pipe _ _ _ Hinv (v_next V) (mk_is_Some _ _ Hn)). lia. }
  split; cbn; try apply Hinv.
  - intros m Hm1. pose proof (inv_fresh_conn _ _ _ Hinv m Hm1). lia.
  - intros l [k0 Hk0]. destruct (decide (l = v_next V)) as [->|Hne]; [lia|].
    rewrite lookup_insert_ne in Hk0 by done.
    pose proof (inv_fresh_pipe _ _ _ Hinv l (mk_is_Some _ _ Hk0)). lia.
  - intros m c sd b i H1 Hk. destruct (inv_key _ _ _ Hinv m c sd b i H1 Hk) as [Hsl Hn].
    split; [|done]. rewrite slot_for_other; [exact Hsl|]. intros Hc.
    destruct (inv_client _ _ _ Hinv m c sd _ H1 Hc) as (k0 & Hk0 & _). congruence.
  - intros m c sd l H1 Hc. destruct (inv_client _ _ _ Hinv m c sd l H1 Hc) as (k0 & Hk0 & ?).
    exists k0. rewrite lookup_insert_ne by congruence. done.
  - intros l k0 Hk0. destruct (decide (l = v_next V)) as [->|Hne].
    + rewrite lookup_insert_eq in Hk0. injection Hk0 as <-. by left.
    + rewrite lookup_insert_ne in Hk0 by done. exact (inv_pipe _ _ _ Hinv l k0 Hk0).
Qed.

Lemma INV_delete_pipe V l k :
  INV None V → v_cores V !! l = Some k → k_state k = SPS_STATE_DISCONNECT →
  INV None (v_with_cores (delete l (v_cores V)) V).
Proof.
  intros Hinv Hl Hs.
  assert (∀ m c sd, v_conns V !! m = Some c → client_on sd c ≠ Some l) as Hno.
  { intros m c sd H1 Hc. destruct (inv_client _ _ _ Hinv m c sd l H1 Hc) as (k0 & Hk0 & Hm0).
    assert (k0 = k) as -> by congruence.
    destruct (inv_pipe _ _ _ Hinv l k Hl) as [(_ & ? & _)|[[Hst|Hst] _]]; [congruence| |];
      rewrite Hs in Hst; done. }
  split; cbn; try apply Hinv.
  - intros l' [k0 [_ Hk0]%lookup_delete_Some]. apply (inv_fresh_pipe _ _ _ Hinv). by eexists.
  - intros m c sd b i H1 Hk. destruct (inv_key _ _ _ Hinv m c sd b i H1 Hk) as [Hsl Hn].
    split; [|done]. replace (slot_for (delete l (v_cores V)) (client_on sd c))
      with (slot_for (v_cores V) (client_on sd c)); [done|].
    unfold slot_for. specialize (Hno m c sd H1). destruct (client_on sd c) as [l'|]; [|done].
    rewrite lookup_delete_ne by congruence. done.
  - intros m c sd l' H1 Hc. destruct (inv_client _ _ _ Hinv m c sd l' H1 Hc) as (k0 & Hk0 & ?).
    exists k0. rewrite lookup_delete_ne; [done|]. intros <-. by apply (Hno m c sd).
  - intros l' k0 [_ Hk0]%lookup_delete_Some. exact (inv_pipe _ _ _ Hinv l' k0 Hk0).
Qed.
End Inv.
