(* ===== verification/SpsLogic.v ===== *)
(** * SPS: what the operations do to the view

    The weakest-precondition rules of the accessors, stated on the view: a rule asks for the
    view before and gives the view after. *)

From S2P Require Import Prelude.
From S2P Require Import SpsTypes.
From S2P Require Import SpsMem.
From S2P Require Import SpsDev.
From S2P Require Import SpsBam.
From S2P Require Import SpsRm.
From S2P Require Import SpsView.
From S2P Require Import SpsInv.

(** What the platform promises: memory of the pool does not lie at the invalid address, and
    a BAM that reports a number of pipes reports the hardware's. *)
Class SpsEnvOk (E : sps_env) (pf : platform) : Prop := {
  eo_pool h n : env_pool_alloc E h n ≠ 0 →
    u64 (pf_phys pf + u32 (env_pool_alloc E h n - pf_virt pf)) ≠ SPS_ADDR_INVALID;
  eo_pipes b : env_bam_num_pipes E b = 0 ∨ env_bam_num_pipes E b = pf_pipes pf b;
}.

(** Equations of views follow from those of the fields. *)
Ltac view_eq := unfold vw, v_with_cores, v_with_slots, v_with_conns, v_with_queue, v_with_bal,
  v_with_next in *; cbn in *; f_equal.

(** A view in terms of its fields, with one update per connection and client. *)
Ltac view_norm H :=
  unfold v_with_cores, v_with_slots, v_with_conns, v_with_queue, v_with_bal, v_with_next in H;
  cbn [v_cores v_conns v_slots v_queue v_phys v_virt v_bal v_next v_devs v_maps] in H;
  rewrite ?insert_insert_eq in H.

Ltac view_norm_goal :=
  unfold v_with_cores, v_with_slots, v_with_conns, v_with_queue, v_with_bal, v_with_next;
  cbn [v_cores v_conns v_slots v_queue v_phys v_virt v_bal v_next v_devs v_maps];
  rewrite ?insert_insert_eq.

Section Rules.
Implicit Types V : view.

Lemma cores_lookup s V l p :
  vw s = V → sps_pipes s !! l = Some p → v_cores V !! l = Some (core_of p).
Proof. intros <- Hl. cbn. by rewrite lookup_fmap, Hl. Qed.

Lemma pipes_lookup s V l k :
  vw s = V → v_cores V !! l = Some k → ∃ p, sps_pipes s !! l = Some p ∧ core_of p = k.
Proof.
  intros <- Hl. cbn in Hl. rewrite lookup_fmap in Hl. destruct (sps_pipes s !! l) as [p|]; [|done].
  exists p. by injection Hl as ->.
Qed.

Lemma bams_lookup s V b x :
  vw s = V → v_slots V !! b = Some x →
  ∃ d, sps_bams s !! b = Some d ∧ slots_of d = x ∧ v_devs V !! b = Some (dev_ok d).
Proof.
  intros <- Hb. cbn in *. rewrite lookup_fmap in Hb. rewrite lookup_fmap.
  destruct (sps_bams s !! b) as [d|]; [|done]. exists d. split_and!; [done|by injection Hb|done].
Qed.

Lemma wp_hist (Q : list sps_event → sps_state → Prop) s : (∀ h, Q h s) → wp hist_of Q s.
Proof. intros HQ. apply HQ. Qed.

Lemma wp_log s V e (Q : () → sps_state → Prop) :
  vw s = V → (∀ s', vw s' = V → Q () s') → wp (sps_log e) Q s.
Proof. intros HV HQ. by apply HQ. Qed.

Lemma wp_get_pipe s V l k (Q : sps_pipe → sps_state → Prop) :
  vw s = V → v_cores V !! l = Some k →
  (∀ p, sps_pipes s !! l = Some p → core_of p = k → Q p s) → wp (get_pipe l) Q s.
Proof.
  intros HV Hl HQ. destruct (pipes_lookup s V l k HV Hl) as (p & Hp & Hk).
  unfold get_pipe. wp_steps. by apply HQ.
Qed.

Lemma wp_put_pipe s V l p k (Q : () → sps_state → Prop) :
  vw s = V → v_cores V !! l = Some k →
  (∀ s', vw s' = v_with_cores (<[l := core_of p]> (v_cores V)) V → Q () s') →
  wp (put_pipe l p) Q s.
Proof.
  intros HV Hl HQ. unfold put_pipe. apply wp_bind. eapply wp_get_pipe; [done..|].
  intros p0 _ _. wp_steps. apply HQ. subst V. view_eq. apply fmap_insert.
Qed.

Lemma wp_upd_pipe s V l f k k' (Q : () → sps_state → Prop) :
  vw s = V → v_cores V !! l = Some k → (∀ p, core_of p = k → core_of (f p) = k') →
  (∀ s', vw s' = v_with_cores (<[l := k']> (v_cores V)) V → Q () s') →
  wp (upd_pipe l f) Q s.
Proof.
  intros HV Hl Hf HQ. unfold upd_pipe. apply wp_bind. eapply wp_get_pipe; [done..|].
  intros p _ Hk. eapply wp_put_pipe; [done..|]. rewrite (Hf p Hk). done.
Qed.

Lemma v_with_cores_id V l k : v_cores V !! l = Some k → v_with_cores (<[l := k]> (v_cores V)) V = V.
Proof. intros Hl. unfold v_with_cores. rewrite insert_id by done. by destruct V. Qed.

Lemma wp_upd_pipe_same s V l f k (Q : () → sps_state → Prop) :
  vw s = V → v_cores V !! l = Some k → (∀ p, core_of (f p) = core_of p) →
  (∀ s', vw s' = V → Q () s') → wp (upd_pipe l f) Q s.
Proof.
  intros HV Hl Hf HQ. eapply wp_upd_pipe; [done..| |].
  - intros p Hk. rewrite Hf. exact Hk.
  - rewrite v_with_cores_id by done. done.
Qed.

Lemma wp_get_conn s V m c (Q : sps_connection → sps_state → Prop) :
  vw s = V → v_conns V !! m = Some c → Q c s → wp (get_conn m) Q s.
Proof. intros <- Hm HQ. cbn in Hm. unfold get_conn. by wp_steps. Qed.

Lemma wp_put_conn s V m c c' (Q : () → sps_state → Prop) :
  vw s = V → v_conns V !! m = Some c →
  (∀ s', vw s' = v_with_conns (<[m := c']> (v_conns V)) V → Q () s') → wp (put_conn m c') Q s.
Proof.
  intros HV Hm HQ. unfold put_conn. apply wp_bind. eapply wp_get_conn; [done..|]. wp_steps.
  apply HQ. by subst V.
Qed.

Lemma wp_upd_conn s V m c f (Q : () → sps_state → Prop) :
  vw s = V → v_conns V !! m = Some c →
  (∀ s', vw s' = v_with_conns (<[m := f c]> (v_conns V)) V → Q () s') → wp (upd_conn m f) Q s.
Proof.
  intros HV Hm HQ. unfold upd_conn. apply wp_bind. eapply wp_get_conn; [done..|].
  by eapply wp_put_conn.
Qed.

Lemma wp_get_bam s V b x (Q : sps_bam → sps_state → Prop) :
  vw s = V → v_slots V !! b = Some x →
  (∀ d, sps_bams s !! b = Some d → slots_of d = x → v_devs V !! b = Some (dev_ok d) → Q d s) →
  wp (get_bam b) Q s.
Proof.
  intros HV Hb HQ. destruct (bams_lookup s V b x HV Hb) as (d & Hd & Hs & Hok).
  unfold get_bam. wp_steps. by apply HQ.
Qed.

Lemma wp_put_bam_same s V b d d0 (Q : () → sps_state → Prop) :
  vw s = V → sps_bams s !! b = Some d0 → slots_of d = slots_of d0 → dev_ok d = dev_ok d0 →
  (∀ s', vw s' = V → Q () s') → wp (put_bam b d) Q s.
Proof.
  intros HV Hb Hs Hok HQ. unfold put_bam, get_bam. wp_steps. apply HQ. subst V. view_eq.
  - rewrite fmap_insert, Hs. apply insert_id. by rewrite lookup_fmap, Hb.
  - rewrite fmap_insert, Hok. apply insert_id. by rewrite lookup_fmap, Hb.
Qed.

Lemma wp_upd_bam_same s V b f x (Q : () → sps_state → Prop) :
  vw s = V → v_slots V !! b = Some x →
  (∀ d, slots_of (f d) = slots_of d ∧ dev_ok (f d) = dev_ok d) →
  (∀ s', vw s' = V → Q () s') → wp (upd_bam b f) Q s.
Proof.
  intros HV Hb Hf HQ. unfold upd_bam. apply wp_bind. eapply wp_get_bam; [done..|].
  intros d Hd _ _. eapply wp_put_bam_same; [done..| | |done]; apply Hf.
Qed.

Lemma wp_get_slot s V b i x (Q : bam_slot → sps_state → Prop) :
  vw s = V → slot V b i = Some x → Q x s → wp (get_slot b i) Q s.
Proof.
  intros HV Hx HQ. unfold slot in Hx. destruct (v_slots V !! b) as [y|] eqn:Hb; [|done]. cbn in Hx.
  unfold get_slot. apply wp_bind. eapply wp_get_bam; [done..|]. intros d _ <- _. cbn in Hx. by wp_steps.
Qed.

Lemma wp_put_slot s V b i x y (Q : () → sps_state → Prop) :
  vw s = V → slot V b i = Some y →
  (∀ s', vw s' = v_with_slots (set_slot b i x (v_slots V)) V → Q () s') → wp (put_slot b i x) Q s.
Proof.
  intros HV Hx HQ. unfold slot in Hx. destruct (v_slots V !! b) as [z|] eqn:Hb; [|done]. cbn in Hx.
  unfold put_slot. apply wp_bind. eapply wp_get_bam; [done..|]. intros d Hd <- _. cbn in Hx.
  assert (store_z (b_pipes d) i x = Some (<[Z.to_nat i := x]> (b_pipes d))) as Hst.
  { pose proof (lookup_lt_Some (b_pipes d) (Z.to_nat i) y) as Hlt. unfold lookup_z in Hx.
    unfold store_z. destruct (Z.leb_spec 0 i); [|done]. specialize (Hlt Hx).
    by rewrite (proj2 (Z.ltb_lt i _)) by lia. }
  wp_steps. unfold put_bam, get_bam. wp_steps. apply HQ. subst V. view_eq.
  - unfold set_slot. cbn in Hb. rewrite Hb. cbn. by rewrite fmap_insert.
  - rewrite fmap_insert. apply insert_id. by rewrite lookup_fmap, Hd.
Qed.

Lemma wp_deref {A} (o : option A) a (Q : A → sps_state → Prop) s :
  o = Some a → Q a s → wp (deref o) Q s.
Proof. apply wp_of_option. Qed.

Lemma wp_bit n (Q : Z → sps_state → Prop) s : 0 ≤ n < 64 → Q (2 ^ n) s → wp (bit n) Q s.
Proof.
  intros Hn HQ. unfold bit. rewrite (proj2 (Z.leb_le 0 n)), (proj2 (Z.ltb_lt n 64)) by lia.
  by apply wp_ret.
Qed.
End Rules.

(** ** The caches

    What the release of a cache depends on, besides the view: the caches of the pipes with the
    lengths of their FIFOs, and the options of the BAMs. *)

Definition pipe_cache (p : sps_pipe) : option Z * Z * Z * mem_block :=
  (p_bam p, p_desc_size p, p_num_descs p, y_desc_cache (p_sys p)).
Definition caches (s : sps_state) : gmap positive (option Z * Z * Z * mem_block) * gmap Z Z :=
  (pipe_cache <$> sps_pipes s, (λ d, bp_options (b_props d)) <$> sps_bams s).

Definition client_cache_fits (s : sps_state) (l : positive) : Prop :=
  ∀ p b d, sps_pipes s !! l = Some p → p_bam p = Some b → sps_bams s !! b = Some d →
    cache_fits d p = true.

Lemma client_cache_same s s' l : caches s' = caches s → client_cache_fits s l → client_cache_fits s' l.
Proof.
  intros [= Hp Hb] Hs p b d Hl Hpb Hd.
  assert ((pipe_cache <$> sps_pipes s) !! l = Some (pipe_cache p)) as Hp0 by (by rewrite <- Hp, lookup_fmap, Hl).
  assert (((λ d, bp_options (b_props d)) <$> sps_bams s) !! b = Some (bp_options (b_props d))) as Hb0
    by (by rewrite <- Hb, lookup_fmap, Hd).
  rewrite lookup_fmap in Hp0. rewrite lookup_fmap in Hb0. destruct (sps_pipes s !! l) as [p0|] eqn:Hl0; [|done].
  destruct (sps_bams s !! b) as [d0|] eqn:Hd0; [|done]. injection Hp0 as E1 E2 E3 E4. injection Hb0 as E5.
  pose proof (Hs p0 b d0 Hl0 ltac:(congruence) Hd0) as Hf. revert Hf.
  unfold cache_fits, cache_size. by rewrite E2, E3, E4, E5.
Qed.

(** A function that leaves them alone. *)
Definition cached {A} (m : SPS A) : Prop := ∀ s a s', m s = Some (a, s') → caches s' = caches s.

Lemma wp_cached {A} (m : SPS A) (Q : A → sps_state → Prop) s :
  cached m → wp m Q s → wp m (λ a s', Q a s' ∧ caches s' = caches s) s.
Proof.
  unfold wp. intros Hm Hw. destruct (m s) as [[a s']|] eqn:Hrun; [|done]. split; [done|]. by eapply Hm.
Qed.

Lemma cached_log e : cached (sps_log e).
Proof. by intros s a s' [= _ <-]. Qed.

Lemma cached_when (c : bool) (m : SPS ()) : cached m → cached (when c m).
Proof. destruct c; [done|]. by intros _ s a s' [= _ <-]. Qed.

Lemma cached_bind {A B} (m : SPS A) (k : A → SPS B) : cached m → (∀ a, cached (k a)) → cached (m ≫= k).
Proof.
  intros Hm Hk s b s'. unfold mbind, M_bind. destruct (m s) as [[a s1]|] eqn:Hrun; [|done].
  intros Hk'. rewrite (Hk a _ _ _ Hk'). by eapply Hm.
Qed.

Lemma cached_upd_pipe l f : (∀ p, pipe_cache (f p) = pipe_cache p) → cached (upd_pipe l f).
Proof.
  intros Hf s a s'. unfold upd_pipe, put_pipe, get_pipe, mbind, M_bind, get, of_option, modify.
  destruct (sps_pipes s !! l) as [p|] eqn:Hl; cbn; [rewrite Hl; cbn; intros [= _ <-]|done].
  unfold caches. cbn. f_equal. rewrite fmap_insert, Hf. apply insert_id. by rewrite lookup_fmap, Hl.
Qed.

Lemma caches_put_bam s b d d0 (Q : () → sps_state → Prop) :
  sps_bams s !! b = Some d0 → b_props d = b_props d0 → wp (put_bam b d) Q s →
  wp (put_bam b d) (λ a s', Q a s' ∧ caches s' = caches s) s.
Proof.
  intros Hb Hd. unfold put_bam, get_bam, wp, mbind, M_bind, get, of_option, modify. rewrite Hb. cbn.
  intros HQ. split; [done|]. unfold caches. cbn. f_equal. rewrite fmap_insert, Hd. apply insert_id.
  by rewrite lookup_fmap, Hb.
Qed.

(** One call of [all_steps] at a time. *)
Lemma wp_all_nil (Q : bool → sps_state → Prop) s : Q true s → wp (all_steps []) Q s.
Proof. done. Qed.

Lemma wp_all_cons (st : SPS bool) steps (Q : bool → sps_state → Prop) s :
  wp st (λ ok s', if ok then wp (all_steps steps) Q s' else Q false s') s →
  wp (all_steps (st :: steps)) Q s.
Proof.
  intros Hst. cbn [all_steps]. apply wp_bind. eapply wp_mono; [exact Hst|]. by intros [] s'.
Qed.
