(* ===== verification/SpsPipeRuns.v ===== *)
(** * SPS: runs of the memory, of the table and of one BAM

    The I/O memory's allocator and the search of the table never fail to return; switching a
    BAM on changes at most the number of its pipes, to the hardware's; setting the options of
    a connected pipe keeps the view.

    What each operation of [sps_bam.c] on a pipe does to the view, with its result. *)

From S2P Require Import Prelude.
From S2P Require Import SpsTypes.
From S2P Require Import SpsMem.
From S2P Require Import SpsDev.
From S2P Require Import SpsBam.
From S2P Require Import SpsRm.
From S2P Require Import SpsView.
From S2P Require Import SpsInv.
From S2P Require Import SpsLogic.

Section DevRuns.
Context (E : sps_env) (pf : platform) `{HE : !SpsEnvOk E pf}.
Implicit Types V : view.

(** ** I/O memory *)

Lemma wp_spsi_get_mem_ptr phys_addr s (Q : Z → sps_state → Prop) :
  (∀ r, Q r s) → wp (spsi_get_mem_ptr E phys_addr) Q s.
Proof.
  intros HQ. unfold spsi_get_mem_ptr, get_mem. wp_steps.
  destruct (_ && _); wp_steps; apply HQ.
Qed.

Lemma wp_sps_mem_alloc_io n s V (Q : Z → sps_state → Prop) :
  vw s = V → v_phys V = pf_phys pf ∧ v_virt V = pf_virt pf →
  (∀ s', vw s' = V → Q SPS_ADDR_INVALID s') →
  (∀ r s', r ≠ SPS_ADDR_INVALID → vw s' = v_with_bal (u32 (v_bal V + n)) V → Q r s') →
  wp (sps_mem_alloc_io E n) Q s.
Proof.
  intros HV [Hp Hv] Hfail Hok. unfold sps_mem_alloc_io, gen_pool_alloc. wp_steps.
  apply wp_hist. intros h. apply wp_bind. eapply wp_log; [done|]. intros s' HV'. wp_steps.
  destruct (Z.eqb_spec (env_pool_alloc E h n) 0) as [_|Hne]; [apply wp_ret; by apply Hfail|].
  unfold get_mem, put_mem. wp_steps. pose proof (eo_pool h n Hne) as Ha.
  subst V. rewrite <- HV' in Hp, Hv. cbn in Hp, Hv. rewrite <- Hp, <- Hv in Ha.
  apply Hok; [exact Ha|]. rewrite <- HV'. view_eq. u32_eq.
Qed.

Lemma wp_sps_mem_free_io phys n s V (Q : () → sps_state → Prop) :
  vw s = V → (∀ s', vw s' = v_with_bal (u32 (v_bal V - n)) V → Q () s') →
  wp (sps_mem_free_io phys n) Q s.
Proof.
  intros HV HQ. unfold sps_mem_free_io, get_mem, put_mem, sps_log. wp_steps. apply HQ. subst V.
  view_eq. u32_eq.
Qed.

(** ** The table of connections *)

Lemma find_map_some turns l cfg :
  (turns ≤ length l)%nat → ∃ r, find_map turns l cfg = Some r ∧ ∀ m, r = Some m → m ∈ l.
Proof.
  revert l. induction turns as [|turns IH]; intros l Hlen; [by exists None|].
  destruct l as [|m l]; cbn [length] in Hlen; [lia|]. cbn [find_map].
  destruct (_ && _); [exists (Some m); split; [done|]; intros m' [= <-]; left|].
  destruct (IH l ltac:(lia)) as (r & -> & Hr). exists r. split; [done|]. intros m' ->. right. by apply Hr.
Qed.

(** What a search keeps of the parameters. *)
Definition cfg_ok (c : sps_connect_cfg) : Prop := 0 ≤ c_src_pipe_index c ∧ 0 ≤ c_dest_pipe_index c.
Definition found_as (c c' : sps_connect_cfg) : Prop :=
  c_mode c' = c_mode c ∧ c_source c' = c_source c ∧ c_destination c' = c_destination c ∧
  c_config c' = c_config c ∧ c_options c' = c_options c ∧ (cfg_ok c → cfg_ok c').

Lemma found_as_refl c : found_as c c.
Proof. unfold found_as. tauto. Qed.

Lemma wp_sps_map_find cfg s V (Q : Z * sps_connect_cfg → sps_state → Prop) :
  vw s = V → maps_ok (v_maps V) = true →
  (∀ rc cfg', found_as cfg cfg' → Q (rc, cfg') s) → wp (sps_map_find E cfg) Q s.
Proof.
  intros <- Hok HQ. cbn in Hok. unfold maps_ok in Hok.
  apply andb_true_iff in Hok as [[Hlo Hhi]%andb_true_iff Hall].
  unfold sps_map_find. wp_steps. destruct (num_maps _ =? 0); [apply wp_ret, HQ, found_as_refl|].
  destruct (find_map_some (Z.to_nat (num_maps (sps_maps s))) (maps (sps_maps s)) cfg) as (r & Hr & Hin);
    [lia|]. apply wp_bind. eapply wp_of_option; [exact Hr|].
  destruct r as [m|]; [|apply wp_ret, HQ, found_as_refl].
  assert (∀ desc data, found_as cfg (map_connect m desc data cfg)) as Hm.
  { rewrite forallb_forall in Hall. specialize (Hall m (proj1 (list_elem_of_In _ _) (Hin m eq_refl))).
    intros desc data. unfold found_as, cfg_ok, map_connect. cbn. split_and!; try done.
    intros [H1 H2]. split; destruct (_ =? SPS_DEV_HANDLE_MEM); lia. }
  apply wp_bind, wp_spsi_get_mem_ptr. intros desc.
  destruct (desc =? 0); [apply wp_ret, HQ, found_as_refl|].
  destruct (map_has_data m); [|by apply wp_ret, HQ].
  apply wp_bind, wp_spsi_get_mem_ptr. intros data.
  destruct (data =? 0); [apply wp_ret, HQ, found_as_refl|by apply wp_ret, HQ].
Qed.

(** ** Switching a BAM on *)

Definition v_grow (b : Z) (x : list bam_slot * Z) (n : Z) V : view :=
  v_with_slots (<[b := (x.1, n)]> (v_slots V)) V.

Lemma v_grow_id V b x : v_slots V !! b = Some x → v_grow b x x.2 V = V.
Proof.
  intros Hb. unfold v_grow, v_with_slots. rewrite <- surjective_pairing, insert_id by done. by destruct V.
Qed.

(** A step on a BAM that keeps the view. *)
Definition keeps {A} (m : SPS A) (s : sps_state) (V : view) : Prop :=
  vw s = V → wp m (λ _ s', vw s' = V) s.

Lemma bam_set_irq_keeps b x V s : v_slots V !! b = Some x → keeps (bam_set_irq E b) s V.
Proof.
  intros Hb HV. unfold bam_set_irq. apply wp_bind. eapply wp_get_bam; [done..|]. intros d _ _ _.
  destruct (_ || _).
  - apply wp_bind. eapply wp_upd_bam_same; [done..|]. intros s1 HV1. by wp_steps.
  - wp_steps. apply wp_hist. intros h. apply wp_bind. eapply wp_log; [done|]. intros s1 HV1.
    destruct (negb _); [by wp_steps|].
    apply wp_bind. eapply wp_upd_bam_same; [done..|]. intros s2 HV2.
    destruct (has _ _); [|by wp_steps]. wp_steps. apply wp_hist. intros h'.
    apply wp_bind. eapply wp_log; [done|]. intros s3 HV3. by wp_steps.
Qed.

(** Both ways to read the hardware return its number of pipes, or fail. *)
Lemma wp_bam_init b irq_mask x s V :
  vw s = V → v_slots V !! b = Some x →
  wp (bam_init E b irq_mask) (λ r s', vw s' = V ∧ (r.1 = 0 → r.2 = env_bam_num_pipes E b)) s.
Proof.
  intros HV Hb. unfold bam_init. apply wp_bind. eapply wp_get_bam; [done..|]. intros d _ _ _.
  destruct (_ || _); [by wp_steps|].
  apply wp_bind. eapply wp_log; [done|]. intros s1 HV1.
  apply wp_bind. eapply wp_upd_bam_same; [done..|]. intros s2 HV2. by wp_steps.
Qed.

Lemma wp_bam_check b x s V :
  vw s = V → v_slots V !! b = Some x →
  wp (bam_check E b) (λ r s', vw s' = V ∧ (r.1 = 0 → r.2 = env_bam_num_pipes E b)) s.
Proof.
  intros HV Hb. unfold bam_check. wp_steps. apply wp_hist. intros h.
  apply wp_bind. eapply wp_log; [done|]. intros s1 HV1.
  destruct (negb _); [by wp_steps|].
  apply wp_bind. eapply wp_upd_bam_same; [done..|]. intros s2 HV2. destruct (_ || _); by wp_steps.
Qed.

Lemma bam_set_mti_keeps b x V s : v_slots V !! b = Some x → keeps (bam_set_mti b) s V.
Proof.
  intros Hb HV. unfold bam_set_mti. apply wp_bind. eapply wp_get_bam; [done..|]. intros d _ _ _.
  destruct (_ && _); [by wp_steps|]. destruct (_ && _); [|by wp_steps].
  destruct (_ || _); [by wp_steps|].
  apply wp_bind. eapply wp_upd_bam_same; [done..|]. intros s1 HV1. by wp_steps.
Qed.

Lemma wp_for_keeps n (body : Z → SPS ()) from s V :
  (∀ i s, from ≤ i < from + Z.of_nat n → keeps (body i) s V) → keeps (for_loop n from body) s V.
Proof. intros Hb HV. apply (wp_for n body (λ _ s, vw s = V)); [done|]. intros i s' Hi HV'. by apply Hb. Qed.

Lemma bam_set_ee_keeps b x V s :
  v_slots V !! b = Some x → (∀ y, v_devs V !! b = Some y → y = true) → keeps (bam_set_ee b) s V.
Proof.
  intros Hb Hdev HV. unfold bam_set_ee. apply wp_bind. eapply wp_get_bam; [done..|]. intros d _ _ Hok.
  specialize (Hdev _ Hok). unfold dev_ok in Hdev.
  apply andb_true_iff in Hdev as [[_ Hee]%andb_true_iff Hsec].
  destruct (BAM_VERSION_MTI_SUPPORT _); [by wp_steps|].
  destruct (Z.leb_spec (Z.of_nat SPS_BAM_NUM_EES) (bp_ee (b_props d))); [by wp_steps|].
  destruct (negb _); [by wp_steps|]. destruct (bp_sec _) as [ees|]; [|by wp_steps].
  apply Nat.eqb_eq in Hsec.
  destruct (lookup_z_lt ees (bp_ee (b_props d))) as [p Hp]; [lia|].
  apply wp_bind. eapply wp_of_option; [exact Hp|].
  apply wp_bind. eapply wp_upd_bam_same; [done..|]. intros s1 HV1.
  destruct (has _ _); [by wp_steps|]. destruct (sec_overlap ees); [by wp_steps|].
  apply wp_bind. eapply wp_mono.
  - apply wp_for_keeps; [|exact HV1]. intros i s2 Hi HV2.
    destruct (lookup_z_lt ees i) as [q Hq]; [lia|]. apply wp_bind. eapply wp_of_option; [exact Hq|].
    by eapply wp_log.
  - intros a s2 HV2. by wp_steps.
Qed.

Lemma bam_satellite_keeps b x V s : v_slots V !! b = Some x → keeps (bam_satellite b) s V.
Proof.
  intros Hb HV. unfold bam_satellite. apply wp_bind. eapply wp_get_bam; [done..|]. intros d _ _ _.
  apply wp_bind. eapply (wp_mono _ (λ _ s', vw s' = V)); [|intros _ s' HV'; by wp_steps].
  apply wp_when; [intros _|done]. apply wp_for_keeps; [|done]. intros i s' Hi HV'.
  apply wp_when; [|done]. intros _. by eapply wp_log.
Qed.

Lemma wp_bam_set_num_pipes b x n s V :
  vw s = V → v_slots V !! b = Some x →
  wp (bam_set_num_pipes b n) (λ ok s', ok = true ∧ vw s' = v_grow b x (if n =? 0 then x.2 else n) V) s.
Proof.
  intros HV Hb. unfold bam_set_num_pipes. apply wp_bind. apply wp_when.
  - intros Hn%negb_true_iff. unfold upd_bam. apply wp_bind. eapply wp_get_bam; [done..|]. intros d Hd Hs _.
    unfold put_bam, get_bam. wp_steps. split; [done|]. rewrite Hn. subst V x. unfold v_grow. view_eq.
    + by rewrite fmap_insert.
    + rewrite fmap_insert. apply insert_id. by rewrite lookup_fmap, Hd.
  - intros ->%negb_false_iff. wp_steps. by rewrite v_grow_id.
Qed.

Lemma wp_sps_bam_enable b x s V (Q : Z → sps_state → Prop) :
  vw s = V → v_slots V !! b = Some x → (∀ y, v_devs V !! b = Some y → y = true) →
  0 ≤ x.2 ≤ pf_pipes pf b →
  (∀ rc n s', x.2 ≤ n ≤ pf_pipes pf b → vw s' = v_grow b x n V → Q rc s') →
  wp (sps_bam_enable E b) Q s.
Proof.
  intros HV Hb Hdev Hx HQ.
  assert (∀ rc s', vw s' = V → Q rc s') as Hsame.
  { intros rc s' HV'. apply (HQ rc x.2); [lia|]. by rewrite v_grow_id. }
  unfold sps_bam_enable. apply wp_bind. eapply wp_get_bam; [done..|]. intros d _ _ _.
  destruct (has _ _); [apply wp_ret; by apply Hsame|].
  destruct (_ =? _); [apply wp_ret; by apply Hsame|].
  apply wp_bind. eapply wp_mono; [by eapply bam_set_irq_keeps|]. intros [irq_mask|] s1 HV1;
    [|apply wp_ret; by apply Hsame].
  apply wp_bind.
  eapply (wp_mono _ (λ r s', vw s' = V ∧ (r.1 = 0 → r.2 = env_bam_num_pipes E b))).
  { destruct (has _ _); [by eapply wp_bam_check|by eapply wp_bam_init]. }
  intros [rc num] s2 [HV2 Hnum]. cbn in Hnum.
  destruct (Z.eqb_spec rc 0) as [->|_]; [|apply wp_ret; by apply Hsame].
  specialize (Hnum eq_refl). subst num. cbn [negb].
  set (n := if env_bam_num_pipes E b =? 0 then x.2 else env_bam_num_pipes E b).
  assert (x.2 ≤ n ≤ pf_pipes pf b) as Hn.
  { subst n. destruct (eo_pipes (E := E) (pf := pf) b) as [-> | ->]; [cbn; lia|].
    destruct (Z.eqb_spec (pf_pipes pf b) 0); lia. }
  assert (v_slots (v_grow b x n V) !! b = Some (x.1, n)) as Hg by apply lookup_insert_eq.
  apply wp_bind, wp_all_cons. eapply wp_mono; [by apply (bam_set_mti_keeps b x V)|].
  intros [] s3 HV3; [|apply wp_ret; by apply Hsame].
  apply wp_all_cons. eapply wp_mono; [by apply (wp_bam_set_num_pipes b x _ _ V)|]. intros ok s4 [-> HV4].
  fold n in HV4. apply wp_all_cons. eapply wp_mono; [by apply (bam_set_ee_keeps b (x.1, n) (v_grow b x n V))|].
  intros [] s5 HV5; [|apply wp_ret; by eapply HQ].
  apply wp_all_cons. eapply wp_mono; [by apply (bam_satellite_keeps b (x.1, n) (v_grow b x n V))|].
  intros [] s6 HV6; [|apply wp_ret; by eapply HQ].
  apply wp_all_cons. unfold bam_finish. apply wp_bind. eapply (wp_upd_bam_same _ (v_grow b x n V)); [done..|].
  intros s7 HV7. wp_steps. by eapply HQ.
Qed.

(** ** The options of a pipe *)

Lemma pipe_set_irq_keeps b i l poll x k V s :
  v_slots V !! b = Some x → v_cores V !! l = Some k → keeps (pipe_set_irq b i l poll) s V.
Proof.
  intros Hb Hl HV. unfold pipe_set_irq. apply wp_bind. eapply wp_get_pipe; [done..|]. intros p _ _.
  apply wp_bind. eapply wp_get_bam; [done..|]. intros d _ _ _.
  apply wp_bind. eapply (wp_mono _ (λ _ s', vw s' = V)).
  { apply wp_when; [|done]. intros _. by eapply wp_log. }
  intros _ s1 HV1. apply wp_bind. eapply wp_upd_pipe_same; [done..|]. intros s2 HV2.
  destruct (has _ _); by eapply wp_log.
Qed.

Lemma alloc_cache_keeps n V s : keeps (alloc_cache E n) s V.
Proof.
  intros HV. unfold alloc_cache. wp_steps. apply wp_hist. intros h. apply wp_bind.
  eapply wp_log; [done|]. intros s1 HV1. by wp_steps.
Qed.

Lemma get_cache_keeps b i p x V s :
  v_slots V !! b = Some x → (∀ y, v_devs V !! b = Some y → y = true) →
  0 ≤ i < Z.of_nat BAM_MAX_PIPES → keeps (get_cache E b i p) s V.
Proof.
  intros Hb Hdev Hi HV. unfold get_cache. apply wp_bind. eapply wp_get_bam; [done..|]. intros d _ _ Hok.
  pose proof (Hdev _ Hok) as Hd. unfold dev_ok in Hd.
  apply andb_true_iff in Hd as [[Hlen%Nat.eqb_eq _]%andb_true_iff _].
  destruct (_ && _); [|by apply alloc_cache_keeps].
  destruct (lookup_z_lt (b_desc_cache_pointers d) i) as [kept Hk]; [lia|].
  apply wp_bind. eapply wp_of_option; [exact Hk|]. destruct (negb _); [by wp_steps|].
  apply wp_bind. eapply wp_mono; [by apply alloc_cache_keeps|]. intros cache s1 HV1.
  assert (store_z (b_desc_cache_pointers d) i cache =
          Some (<[Z.to_nat i := cache]> (b_desc_cache_pointers d))) as Hst.
  { unfold store_z. by rewrite (proj2 (Z.leb_le 0 i)), (proj2 (Z.ltb_lt i _)) by lia. }
  apply wp_bind. eapply wp_of_option; [exact Hst|]. apply wp_bind. unfold upd_bam. apply wp_bind.
  cbn beta in HV1. eapply wp_get_bam; [done..|]. intros d1 Hd1 _ Hok1.
  eapply wp_put_bam_same; [exact HV1|exact Hd1|done| |intros s2 HV2; by wp_steps].
  pose proof (Hdev _ Hok1) as Hd. rewrite Hd. unfold dev_ok in Hd |- *. cbn.
  apply andb_true_iff in Hd as [[_ ->]%andb_true_iff ->]. by rewrite length_insert, Hlen.
Qed.

Lemma wp_sps_bam_pipe_set_params b i options l x k s V (Q : Z → sps_state → Prop) :
  vw s = V → slot V b i = Some (SlotPipe l) → v_cores V !! l = Some k →
  v_slots V !! b = Some x → length x.1 = BAM_MAX_PIPES →
  (∀ y, v_devs V !! b = Some y → y = true) →
  (∀ rc s', vw s' = V → Q rc s') → wp (sps_bam_pipe_set_params E b i options) Q s.
Proof.
  intros HV Hs Hl Hb Hlen Hdev HQ.
  assert (0 ≤ i < Z.of_nat BAM_MAX_PIPES) as Hi.
  { unfold slot in Hs. rewrite Hb in Hs. cbn in Hs. unfold lookup_z in Hs.
    destruct (Z.leb_spec 0 i); [|done]. apply lookup_lt_Some in Hs. lia. }
  unfold sps_bam_pipe_set_params. apply wp_bind. eapply wp_get_slot; [done..|].
  apply wp_bind. eapply wp_upd_pipe_same; [done..|]. intros s1 HV1.
  apply wp_bind. eapply wp_get_pipe; [done..|]. intros p _ _.
  destruct (_ && _); [apply wp_ret; by apply HQ|].
  apply wp_bind. eapply (wp_mono _ (λ _ s', vw s' = V)).
  { destruct (_ && _); [|by wp_steps].
    apply wp_bind. eapply wp_mono; [by eapply get_cache_keeps|]. intros cache s2 HV2. cbn beta in HV2.
    apply wp_bind. eapply wp_upd_pipe_same; [done..|]. intros s3 HV3.
    destruct (blk_addr cache =? 0); [by wp_steps|].
    apply wp_bind. eapply wp_upd_pipe_same; [done..|]. intros s4 HV4. by wp_steps. }
  intros rc s2 HV2. destruct (negb _); [apply wp_ret; by apply HQ|].
  apply wp_bind. eapply wp_upd_pipe_same; [done..|]. intros s3 HV3.
  apply wp_bind. eapply wp_mono; [by eapply pipe_set_irq_keeps|]. intros ? s4 HV4. cbn beta in HV4.
  apply wp_bind. eapply wp_upd_pipe_same; [done..|]. intros s5 HV5. wp_steps. by apply HQ.
Qed.
End DevRuns.

(** * SPS: runs of the pipe operations *)

(** ** Slots written twice *)

Lemma set_slot_twice b i x y S : set_slot b i x (set_slot b i y S) = set_slot b i x S.
Proof.
  unfold set_slot. destruct (S !! b) as [z|] eqn:Hb; [|by rewrite Hb].
  rewrite lookup_insert_eq. cbn. by rewrite list_insert_insert_eq, insert_insert_eq.
Qed.

Lemma set_slot_id b i x S : slot_in S b i = Some x → set_slot b i x S = S.
Proof.
  unfold slot_in, set_slot, lookup_z. destruct (S !! b) as [z|] eqn:Hb; [|done]. cbn.
  destruct (Z.leb_spec 0 i); [|done]. intros Hx. rewrite list_insert_id by done.
  rewrite <- surjective_pairing. by apply insert_id.
Qed.

Lemma slot_bound V b i y x :
  slot V b i = Some y → v_slots V !! b = Some x → length x.1 = BAM_MAX_PIPES →
  0 ≤ i < Z.of_nat BAM_MAX_PIPES.
Proof.
  unfold slot. intros Hs Hb Hlen. rewrite Hb in Hs. cbn in Hs. unfold lookup_z in Hs.
  destruct (Z.leb_spec 0 i); [|done]. apply lookup_lt_Some in Hs. lia.
Qed.

(** A client's fields with another index of its pipe. *)
Definition core_idx (i : Z) (k : core) : core := mkCore (k_state k) (k_map k) (k_bam k) (k_src k) i.

Section PipeRuns.
Context (E : sps_env) (pf : platform) `{HE : !SpsEnvOk E pf}.
Implicit Types V : view.

(** A BAM of the view, as the invariant has it. *)
Definition bam_fine V (b : Z) (x : list bam_slot * Z) : Prop :=
  v_slots V !! b = Some x ∧ length x.1 = BAM_MAX_PIPES ∧ 0 ≤ x.2 ≤ pf_pipes pf b ∧
  pf_pipes pf b ≤ Z.of_nat BAM_MAX_PIPES ∧ (∀ y, v_devs V !! b = Some y → y = true).

Lemma INV_bam_fine u V b x : INV pf u V → v_slots V !! b = Some x → bam_fine V b x.
Proof.
  intros Hinv Hb. destruct (inv_bams _ _ _ Hinv b x Hb) as (H1 & H2 & H3 & _).
  repeat split; try done; try lia. apply (inv_devs _ _ _ Hinv).
Qed.

Lemma wp_find_free_pipe b x restricted s V (Q : Z → sps_state → Prop) :
  vw s = V → bam_fine V b x →
  (∀ i, 0 ≤ i ≤ x.2 → (i < x.2 → slot V b i = Some SlotNull) → Q i s) →
  ∀ turns i mask, 0 ≤ i → i + Z.of_nat turns = x.2 →
  wp (find_free_pipe turns b x.2 restricted i mask) Q s.
Proof.
  intros HV (Hb & Hlen & Hx & Hp & _) HQ. induction turns as [|turns IH]; intros i mask Hi Ht; cbn [find_free_pipe].
  { apply wp_ret, HQ; lia. }
  destruct (Z.leb_spec x.2 i); [lia|]. destruct (has mask restricted); [apply IH; lia|].
  destruct (lookup_z_lt x.1 i) as [y Hy]; [lia|].
  assert (slot V b i = Some y) as Hs by (unfold slot; by rewrite Hb).
  apply wp_bind. eapply wp_get_slot; [done..|]. destruct (bool_decide_reflect (y = SlotNull)) as [->|_].
  - apply wp_ret, HQ; [lia|done].
  - apply IH; lia.
Qed.

Lemma wp_sps_bam_pipe_alloc b x i s V (Q : Z → sps_state → Prop) :
  vw s = V → bam_fine V b x → 0 ≤ i → Q SPS_BAM_PIPE_INVALID s →
  (∀ r s', 0 ≤ r < x.2 → slot V b r = Some SlotNull →
     vw s' = v_with_slots (set_slot b r SlotUnassigned (v_slots V)) V → Q r s') →
  wp (sps_bam_pipe_alloc b i) Q s.
Proof.
  intros HV Hfine Hi Hno Hok. pose proof Hfine as (Hb & Hlen & Hx & Hp & _).
  assert (∀ r, 0 ≤ r < x.2 → slot V b r = Some SlotNull → wp (mark_pipe b r) Q s) as Hmark.
  { intros r Hr Hs. unfold mark_pipe. apply wp_bind. eapply wp_put_slot; [done..|].
    intros s1 HV1. apply wp_ret. by apply Hok. }
  unfold sps_bam_pipe_alloc. apply wp_bind. eapply wp_get_bam; [done..|]. intros d _ Hd _.
  assert (bp_num_pipes (b_props d) = x.2) as -> by (by rewrite <- Hd).
  destruct (i =? SPS_BAM_PIPE_INVALID).
  - destruct (has _ _); [by apply wp_ret|]. apply wp_bind. eapply wp_find_free_pipe; [done..| |lia|lia].
    intros r Hr Hs. destruct (Z.leb_spec x.2 r); [by apply wp_ret|]. apply Hmark; [lia|]. by apply Hs.
  - destruct (_ || _) eqn:Hbig; [by apply wp_ret|]. apply orb_false_iff in Hbig as [?%Z.leb_gt ?%Z.leb_gt].
    apply wp_bind, wp_bit; [unfold BAM_MAX_PIPES in *; lia|]. destruct (has _ _); [by apply wp_ret|].
    destruct (lookup_z_lt x.1 i) as [y Hy]; [lia|].
    assert (slot V b i = Some y) as Hs by (unfold slot; by rewrite Hb).
    apply wp_bind. eapply wp_get_slot; [done..|].
    destruct (bool_decide_reflect (y = SlotNull)) as [->|_]; [by apply Hmark|by apply wp_ret].
Qed.

Lemma wp_sps_bam_pipe_free b x i y s V (Q : () → sps_state → Prop) :
  vw s = V → v_slots V !! b = Some x → i < x.2 → slot V b i = Some y →
  y = SlotNull ∨ y = SlotUnassigned →
  (∀ s', vw s' = v_with_slots (set_slot b i SlotNull (v_slots V)) V → Q () s') →
  wp (sps_bam_pipe_free b i) Q s.
Proof.
  intros HV Hb Hi Hs Hy HQ. unfold sps_bam_pipe_free.
  apply wp_bind. eapply wp_get_bam; [done..|]. intros d _ Hd _.
  assert (bp_num_pipes (b_props d) = x.2) as -> by (by rewrite <- Hd).
  destruct (Z.leb_spec x.2 i); [lia|]. apply wp_bind. eapply wp_get_slot; [done..|].
  apply wp_bind. eapply wp_put_slot; [done..|]. intros s1 HV1.
  destruct Hy as [-> | ->]; apply wp_ret; by apply HQ.
Qed.

(** ** Connecting *)

Lemma wp_bam_pipe_is_enabled b i s V (Q : bool → sps_state → Prop) :
  vw s = V → (∀ r s', vw s' = V → Q r s') → wp (bam_pipe_is_enabled E b i) Q s.
Proof.
  intros HV HQ. unfold bam_pipe_is_enabled. wp_steps. apply wp_hist. intros h.
  apply wp_bind. eapply wp_log; [done|]. intros s1 HV1. apply wp_ret. by apply HQ.
Qed.

(** The outcomes of connecting the pipe [i] of [b] for [l]. *)
Definition assigned (l : positive) (b i : Z) (V V' : view) : Prop :=
  V' = v_with_slots (set_slot b i (SlotPipe l) (v_slots V)) V.
Definition unassigned (l : positive) (k : core) (V V' : view) : Prop :=
  ∃ idx, V' = v_with_cores (<[l := core_idx idx k]> (v_cores V)) V.

Lemma unassigned_refl l k V : v_cores V !! l = Some k → unassigned l k V V.
Proof.
  intros Hl. exists (k_idx k). destruct k. unfold core_idx. cbn. by rewrite v_with_cores_id.
Qed.

Lemma core_pipe_clear p k : core_of p = k → core_of (pipe_clear p) = core_idx SPS_BAM_PIPE_INVALID k.
Proof. by intros <-. Qed.

Lemma wp_init_and_assign l b i params hw x k s V (Q : Z → sps_state → Prop) :
  vw s = V → bam_fine V b x → slot V b i = Some SlotUnassigned → v_cores V !! l = Some k →
  (∀ s', assigned l b i V (vw s') → Q 0 s') →
  (∀ s', unassigned l k V (vw s') → Q SPS_ERROR s') →
  wp (init_and_assign E l b i params hw) Q s.
Proof.
  intros HV (Hb & Hlen & Hx & Hp & Hdev) Hs Hl Hok Hfail.
  pose proof (slot_bound _ _ _ _ _ Hs Hb Hlen) as Hi.
  assert (∀ s', vw s' = V → Q SPS_ERROR s') as Hsame.
  { intros s' HV'. apply Hfail. rewrite HV'. by apply unassigned_refl. }
  set (V1 := v_with_slots (set_slot b i (SlotPipe l) (v_slots V)) V).
  assert (slot V1 b i = Some (SlotPipe l)) as Hs1.
  { rewrite slot_slot_in. cbn. rewrite (slot_in_set _ _ _ _ _ _ _ Hs). by rewrite decide_True. }
  assert (v_slots V1 !! b = Some (<[Z.to_nat i := SlotPipe l]> x.1, x.2)) as Hb1.
  { cbn. unfold set_slot. rewrite Hb. apply lookup_insert_eq. }
  unfold init_and_assign. apply wp_bind. eapply wp_get_slot; [done..|]. cbn [negb bool_decide].
  rewrite bool_decide_true by done. cbn [negb].
  apply wp_bind. eapply wp_bam_pipe_is_enabled; [done|]. intros en s1 HV1.
  destruct (_ && _); [apply wp_ret; by apply Hsame|].
  apply wp_bind. eapply wp_log; [done|]. intros s2 HV2.
  apply wp_bind. eapply wp_put_slot; [done..|]. intros s3 HV3. fold V1 in HV3.
  apply wp_bind. eapply wp_get_pipe; [done..|]. intros p _ _.
  apply wp_bind. eapply wp_get_bam; [done..|]. intros d _ _ _.
  apply wp_bind. eapply (wp_mono _ (λ _ s', vw s' = V1)).
  { destruct (_ || _); [|by wp_steps]. apply wp_bind. eapply (wp_mono _ (λ _ s', vw s' = V1)).
    { apply wp_when; [|done]. intros _. by eapply wp_upd_pipe_same. }
    intros _ s4 HV4. eapply (wp_sps_bam_pipe_set_params E b i _ l _ k s4 V1); [done..| |done|by auto].
    cbn. by rewrite length_insert. }
  intros rc s4 HV4. destruct (negb _).
  - apply wp_bind. eapply wp_put_slot; [done..|]. intros s5 HV5. cbn in HV5.
    rewrite set_slot_twice, set_slot_id in HV5 by done.
    assert (vw s5 = V) as HV5' by (rewrite HV5; by destruct V).
    apply wp_bind. eapply (wp_mono _ (λ _ s', vw s' = V)).
    { apply wp_when; [|done]. intros _. by eapply wp_log. }
    intros _ s6 HV6. apply wp_bind. eapply (wp_upd_pipe _ _ _ _ k); [done..|intros p0; apply core_pipe_clear|].
    intros s7 HV7. apply wp_ret, Hfail. rewrite HV7. by eexists.
  - apply wp_bind. eapply wp_put_slot; [done..|]. intros s5 HV5. cbn in HV5.
    rewrite set_slot_twice in HV5. fold V1 in HV5.
    apply wp_bind, wp_bit; [unfold BAM_MAX_PIPES in *; lia|].
    apply wp_bind. eapply (wp_get_bam _ V1); [done..|]. intros d1 Hd1 _ _.
    apply wp_bind. eapply (wp_put_bam_same _ V1); [done..|]. intros s6 HV6.
    apply wp_bind. eapply (wp_upd_pipe_same _ V1); [done..|]. intros s7 HV7.
    apply wp_ret, Hok. by rewrite HV7.
Qed.

(** Two updates of the same client are one. *)
Ltac merge_cores := unfold v_with_cores, v_grow, v_with_slots; cbn; by rewrite insert_insert_eq.

(** The outcomes when the BAM may have been switched on. *)
Definition connected_to (l : positive) (k : core) (b i : Z) (x : list bam_slot * Z) (V V' : view) :
    Prop :=
  ∃ n, x.2 ≤ n ≤ pf_pipes pf b ∧
    V' = v_with_slots (set_slot b i (SlotPipe l) (v_slots (v_grow b x n V)))
           (v_with_cores (<[l := core_idx i k]> (v_cores V)) (v_grow b x n V)).
Definition not_connected (l : positive) (k : core) (b : Z) (x : list bam_slot * Z) (V V' : view) :
    Prop :=
  ∃ n idx, x.2 ≤ n ≤ pf_pipes pf b ∧
    V' = v_with_cores (<[l := core_idx idx k]> (v_cores V)) (v_grow b x n V).

Lemma not_connected_idx l k b x V V' idx :
  v_slots V !! b = Some x → x.2 ≤ pf_pipes pf b →
  V' = v_with_cores (<[l := core_idx idx k]> (v_cores V)) V → not_connected l k b x V V'.
Proof.
  intros Hb Hx ->. exists x.2, idx. split; [lia|]. by rewrite (v_grow_id V b x Hb).
Qed.

Lemma wp_connect_fifo l b i params map sys src mk x k s V (Q : Z → sps_state → Prop) :
  vw s = V → bam_fine V b x → slot V b i = Some SlotUnassigned → v_cores V !! l = Some k →
  (∀ s', connected_to l k b i x V (vw s') → Q 0 s') →
  (∀ s', not_connected l k b x V (vw s') → Q SPS_ERROR s') →
  wp (connect_fifo E l b i params map sys src mk) Q s.
Proof.
  intros HV Hfine Hs Hl Hok Hfail. pose proof Hfine as (Hb & Hlen & Hx & Hp & Hdev).
  pose proof (slot_bound _ _ _ _ _ Hs Hb Hlen) as Hi.
  set (V1 := v_with_cores (<[l := core_idx i k]> (v_cores V)) V).
  assert (∀ s' idx, vw s' = v_with_cores (<[l := core_idx idx k]> (v_cores V)) V → Q SPS_ERROR s')
    as Herr by (intros s' idx Hs'; eapply Hfail, not_connected_idx; [exact Hb|lia|exact Hs']).
  unfold connect_fifo. apply wp_bind, wp_bit; [unfold BAM_MAX_PIPES in *; lia|].
  apply wp_bind. eapply (wp_upd_pipe _ _ _ _ k (core_idx i k)); [done..|by intros p0 <-|]. intros s1 HV1.
  change (vw s1 = V1) in HV1. assert (v_cores V1 !! l = Some (core_idx i k)) as Hl1
    by apply lookup_insert_eq.
  destruct (_ && _); [by eapply wp_ret, Herr|].
  apply wp_bind. eapply wp_get_pipe; [done..|]. intros p _ _.
  apply wp_bind. eapply (wp_get_bam _ V1); [done..|]. intros d _ _ _.
  apply wp_bind. eapply (wp_mono _ (λ _ s', vw s' = V1)).
  { apply wp_when; [|done]. intros _. by eapply wp_log. }
  intros _ s2 HV2. apply wp_bind. eapply wp_upd_pipe_same; [done..|]. intros s3 HV3.
  apply wp_bind.
  eapply (wp_mono _ (λ _ s', ∃ n, x.2 ≤ n ≤ pf_pipes pf b ∧ vw s' = v_grow b x n V1)).
  { destruct (has _ _).
    - wp_steps. exists x.2. split; [lia|]. by rewrite v_grow_id.
    - eapply (wp_sps_bam_enable E pf _ x _ V1); [done..|]. intros rc n s4 Hn HV4. by exists n. }
  intros rc s4 (n & Hn & HV4).
  assert (v_cores (v_grow b x n V1) !! l = Some (core_idx i k)) as Hl2 by apply lookup_insert_eq.
  destruct (negb _).
  - apply wp_bind. eapply wp_upd_pipe; [done..|intros p0; apply core_pipe_clear|]. intros s5 HV5.
    apply wp_ret, Hfail. exists n, SPS_BAM_PIPE_INVALID. split; [done|]. rewrite HV5. merge_cores.
  - eapply (wp_init_and_assign l b i _ _ (x.1, n) (core_idx i k) _ (v_grow b x n V1)); [done| |  |done| |].
    + split_and!; try done; [apply lookup_insert_eq|cbn; lia..].
    + rewrite slot_slot_in in *. unfold slot_in in *. cbn. rewrite lookup_insert_eq. cbn.
      by rewrite Hb in Hs.
    + intros s5 HV5. apply Hok. by exists n.
    + intros s5 [idx HV5]. apply Hfail. exists n, idx. split; [done|]. rewrite HV5. merge_cores.
Qed.

Lemma wp_sps_bam_pipe_connect l params m c b x k s V (Q : Z → sps_state → Prop) :
  let sd := pa_mode params =? SPS_MODE_SRC in
  let i := ep_pipe_index (end_of sd c) in
  vw s = V → bam_fine V b x → v_cores V !! l = Some k → k_map k = Some m →
  v_conns V !! m = Some c → ep_bam (end_of sd c) = Some b →
  slot V b i = Some SlotUnassigned →
  (∀ pb, ep_bam (end_of (negb sd) c) = Some pb → is_Some (v_slots V !! pb)) →
  (∀ s', connected_to l k b i x V (vw s') → Q 0 s') →
  (∀ s', not_connected l k b x V (vw s') → Q SPS_ERROR s') →
  wp (sps_bam_pipe_connect E l params) Q s.
Proof.
  intros sd i HV Hfine Hl Hm Hc He Hs Hpeer Hok Hfail. pose proof Hfine as (Hb & Hlen & Hx & Hp & Hdev).
  pose proof (slot_bound _ _ _ _ _ Hs Hb Hlen) as Hi.
  set (k1 := core_idx SPS_BAM_PIPE_INVALID k).
  set (V1 := v_with_cores (<[l := k1]> (v_cores V)) V).
  assert (v_cores V1 !! l = Some k1) as Hl1 by apply lookup_insert_eq.
  assert (∀ s', vw s' = V1 → Q SPS_ERROR s') as Herr.
  { intros s' Hs'. eapply Hfail, not_connected_idx; [exact Hb|lia|exact Hs']. }
  assert (∀ map sys src mk s', vw s' = V1 → wp (connect_fifo E l b i params map sys src mk) Q s') as Hfifo.
  { intros map sys src mk s' HV'. eapply (wp_connect_fifo _ _ _ _ _ _ _ _ x k1 _ V1); [done..| |].
    - intros s2 (n & Hn & HV2). apply Hok. exists n. split; [done|]. rewrite HV2. merge_cores.
    - intros s2 (n & idx & Hn & HV2). apply Hfail. exists n, idx. split; [done|]. rewrite HV2. merge_cores. }
  unfold sps_bam_pipe_connect.
  apply wp_bind. eapply (wp_upd_pipe _ _ _ _ k k1); [done..|by intros p0 <-|]. intros s1 HV1.
  apply wp_bind. eapply (wp_get_pipe _ V1); [done..|]. intros p _ Hcore.
  apply wp_bind. eapply wp_deref.
  { change (p_map p) with (k_map (core_of p)). rewrite Hcore. exact Hm. }
  apply wp_bind. eapply (wp_get_conn _ V1); [done..|]. fold sd.
  fold i. apply wp_bind. eapply wp_deref; [exact He|].
  apply wp_bind. eapply (wp_get_bam _ V1); [done..|]. intros d _ _ _.
  destruct (_ <=? _); [by apply wp_ret, Herr|].
  apply wp_bind, wp_bit; [unfold BAM_MAX_PIPES in *; lia|].
  destruct (_ || _); [by apply wp_ret, Herr|]. destruct (has _ _); [by apply wp_ret, Herr|].
  destruct (ep_bam (end_of (negb sd) c)) as [pb|].
  - apply wp_bind. eapply (wp_upd_pipe_same _ V1); [done..|]. intros s2 HV2.
    apply wp_bind. eapply (wp_mono _ (λ _ s', vw s' = V1)).
    { destruct (has _ _); [by wp_steps|]. destruct (Hpeer pb eq_refl) as [y Hy].
      apply wp_bind. eapply (wp_get_bam _ V1); [done..|]. intros d2 _ _ _. by wp_steps. }
    intros peer s3 HV3. destruct (_ || _); [by apply wp_ret, Herr|].
    apply wp_bind. eapply (wp_mono _ (λ _ s', vw s' = V1)).
    { apply wp_when; [|done]. intros _. by eapply wp_log. }
    intros _ s4 HV4. by apply Hfifo.
  - apply wp_bind. eapply (wp_upd_pipe_same _ V1); [done..|]. intros s2 HV2. by apply Hfifo.
Qed.

(** ** Disconnecting, and the pipe's registers *)

(** A cache is released inside its allocation. *)
Lemma free_desc_cache_keeps b l x k V s :
  v_slots V !! b = Some x → v_cores V !! l = Some k → k_bam k = Some b → client_cache_fits s l →
  keeps (free_desc_cache b l) s V.
Proof.
  intros Hb Hl Hkb Hfits HV. unfold free_desc_cache. apply wp_bind. eapply wp_get_pipe; [done..|]. intros p Hp Hpk.
  apply wp_bind. eapply wp_get_bam; [done..|]. intros d Hd _ _. apply wp_when; [intros Hc|done].
  assert (cache_fits d p = true) as Hf by (apply (Hfits p b d Hp); [by rewrite <- Hkb, <- Hpk|done]).
  apply wp_bind. eapply (wp_mono _ (λ _ s', vw s' = V)).
  { unfold cache_fits in Hf. apply negb_true_iff in Hc. rewrite Hc in Hf. cbn [orb] in Hf.
    destruct (_ && _); [|by eapply wp_log]. unfold clear_cache. rewrite orb_false_r in Hf. rewrite Hf. by eapply wp_log. }
  intros _ s1 HV1. by eapply wp_upd_pipe_same.
Qed.

Lemma wp_sps_bam_pipe_disconnect l b i x k s V (Q : Z → sps_state → Prop) :
  vw s = V → bam_fine V b x → slot V b i = Some (SlotPipe l) → i < x.2 → v_cores V !! l = Some k →
  k_bam k = Some b → client_cache_fits s l →
  (∀ s', vw s' = v_with_slots (set_slot b i SlotUnassigned (v_slots V))
                   (v_with_cores (<[l := core_idx SPS_BAM_PIPE_INVALID k]> (v_cores V)) V) → Q 0 s') →
  wp (sps_bam_pipe_disconnect b i) Q s.
Proof.
  intros HV (Hb & Hlen & _) Hs Hi Hl Hkb Hfits HQ. pose proof (slot_bound _ _ _ _ _ Hs Hb Hlen) as Hi'.
  unfold sps_bam_pipe_disconnect. apply wp_bind. eapply wp_get_bam; [done..|]. intros d Hd Hsl _.
  assert (bp_num_pipes (b_props d) = x.2) as -> by (by rewrite <- Hsl).
  destruct (Z.leb_spec x.2 i); [lia|]. apply wp_bind. eapply wp_get_slot; [done..|]. cbn beta iota.
  apply wp_bind, wp_bit; [unfold BAM_MAX_PIPES in *; lia|].
  apply wp_bind. eapply (wp_mono _ (λ _ s', vw s' = V ∧ caches s' = caches s)).
  { apply wp_when; [|done]. intros _. eapply caches_put_bam; [done..|]. by eapply wp_put_bam_same. }
  intros _ s1 [HV1 Hc1]. apply wp_bind. eapply wp_get_bam; [done..|]. intros d1 Hd1 _ _.
  apply wp_bind. eapply (wp_mono _ (λ _ s', vw s' = V ∧ caches s' = caches s1)).
  { eapply caches_put_bam; [done..|]. by eapply wp_put_bam_same. }
  intros _ s2 [HV2 Hc2]. apply wp_bind. eapply wp_get_pipe; [done..|]. intros p _ _.
  apply wp_bind. eapply (wp_mono _ (λ _ s', vw s' = V ∧ caches s' = caches s2)).
  { apply wp_cached; [apply cached_when, cached_log|]. apply wp_when; [|done]. intros _. by eapply wp_log. }
  intros _ s3 [HV3 Hc3]. apply wp_bind.
  assert (client_cache_fits s3 l) as Hfits3 by (eapply client_cache_same; [|exact Hfits]; congruence).
  eapply wp_mono; [by eapply free_desc_cache_keeps|].
  intros ? s4 HV4. cbn beta in HV4. apply wp_bind. eapply wp_put_slot; [done..|]. intros s5 HV5.
  apply wp_bind. eapply (wp_upd_pipe _ _ _ _ k); [exact HV5|exact Hl|intros p0; apply core_pipe_clear|].
  intros s6 HV6. apply wp_ret, HQ. by rewrite HV6.
Qed.

Lemma wp_slot_pipe b i l k s V (Q : positive → sps_state → Prop) :
  vw s = V → slot V b i = Some (SlotPipe l) → v_cores V !! l = Some k → Q l s →
  wp (slot_pipe b i) Q s.
Proof.
  intros HV Hs Hl HQ. unfold slot_pipe. apply wp_bind. eapply wp_get_slot; [done..|].
  apply wp_bind. eapply wp_get_pipe; [done..|]. intros p _ _. by apply wp_ret.
Qed.

Lemma wp_sps_bam_pipe_enable b i l k s V :
  vw s = V → slot V b i = Some (SlotPipe l) → v_cores V !! l = Some k →
  wp (sps_bam_pipe_enable b i) (λ rc s', rc = 0 ∧ vw s' = V) s.
Proof.
  intros HV Hs Hl. unfold sps_bam_pipe_enable. apply wp_bind. eapply wp_slot_pipe; [done..|].
  apply wp_bind. eapply wp_log; [done|]. intros s1 HV1.
  apply wp_bind. eapply wp_upd_pipe_same; [done..|]. intros s2 HV2. by wp_steps.
Qed.

Lemma wp_sps_bam_pipe_disable b i l k s V :
  vw s = V → slot V b i = Some (SlotPipe l) → v_cores V !! l = Some k →
  wp (sps_bam_pipe_disable b i) (λ rc s', rc = 0 ∧ vw s' = V) s.
Proof.
  intros HV Hs Hl. unfold sps_bam_pipe_disable. apply wp_bind. eapply wp_slot_pipe; [done..|].
  apply wp_bind. eapply wp_get_pipe; [done..|]. intros p _ _.
  apply wp_bind. eapply (wp_mono _ (λ _ s', vw s' = V)).
  { apply wp_when; [|done]. intros _. by eapply wp_log. }
  intros _ s1 HV1. apply wp_bind. eapply wp_upd_pipe_same; [done..|]. intros s2 HV2. by wp_steps.
Qed.
End PipeRuns.
