(* ===== verification/SpsAllocRuns.v ===== *)
(** * SPS: runs that build and free a connection

    Runs that build and free a connection.

    Runs of the allocation and release of a client's resources. *)

From S2P Require Import Prelude.
From S2P Require Import SpsTypes.
From S2P Require Import SpsMem.
From S2P Require Import SpsDev.
From S2P Require Import SpsBam.
From S2P Require Import SpsRm.
From S2P Require Import SpsView.
From S2P Require Import SpsInv.
From S2P Require Import SpsLogic.
From S2P Require Import SpsPipeRuns.

Section ConnRuns.
Context (E : sps_env) (pf : platform) `{HE : !SpsEnvOk E pf}.
Implicit Types V : view.
Abbreviation INV := (INV pf).

(** ** Freeing what a connection owns *)

(** The slots of the connection's pipes are ready to be cleared. *)
Definition clearable (c : sps_connection) V : Prop :=
  ∀ sd, alloc_on sd c ≠ SPS_BAM_PIPE_INVALID →
  ∃ b x y, ep_bam (end_of sd c) = Some b ∧ v_slots V !! b = Some x ∧
    ep_pipe_index (end_of sd c) < x.2 ∧ slot V b (ep_pipe_index (end_of sd c)) = Some y ∧
    (y = SlotNull ∨ y = SlotUnassigned).

Lemma wp_free_pipe sd m c s V (Q : () → sps_state → Prop) :
  vw s = V → v_conns V !! m = Some c → clearable c V →
  (∀ c' s', key (negb sd) c' = key (negb sd) c → 
     end_of (negb sd) c' = end_of (negb sd) c → alloc_on (negb sd) c' = alloc_on (negb sd) c →
     (∀ ds, fifo_of ds c' = fifo_of ds c ∧ fifo_base ds c' = fifo_base ds c) →
     m_client_src c' = m_client_src c → m_client_dest c' = m_client_dest c → m_refs c' = m_refs c →
     alloc_on sd c' = SPS_BAM_PIPE_INVALID →
     vw s' = v_with_slots (clear_key (key sd c) (v_slots V)) (v_with_conns (<[m := c']> (v_conns V)) V) →
     Q () s') →
  wp (free_pipe sd m) Q s.
Proof.
  intros HV Hm Hcl HQ. unfold free_pipe. apply wp_bind. eapply wp_get_conn; [done..|].
  destruct (Z.eqb_spec (alloc_on sd c) SPS_BAM_PIPE_INVALID) as [Hno|Hal].
  - apply wp_ret. eapply HQ; try done. rewrite insert_id by done. unfold key. rewrite Hno. cbn.
    rewrite HV. by destruct V.
  - destruct (Hcl sd Hal) as (b & x & y & Hb & Hx & Hi & Hs & Hy).
    apply wp_bind. eapply wp_deref; [done|]. apply wp_bind. eapply wp_sps_bam_pipe_free; [done..|].
    intros s1 HV1. eapply wp_upd_conn; [done..|]. intros s2 HV2.
    eapply (HQ _ s2); [..|rewrite HV2; unfold key; rewrite (proj2 (Z.eqb_neq _ _) Hal), Hb; reflexivity];
      destruct sd; try done; by intros [].
Qed.

Lemma wp_free_fifo ds m c s V (Q : () → sps_state → Prop) :
  vw s = V → v_conns V !! m = Some c →
  (∀ c' s', (∀ sd, alloc_on sd c' = alloc_on sd c) →
     fifo_of (negb ds) c' = fifo_of (negb ds) c → fifo_base (negb ds) c' = fifo_base (negb ds) c →
     m_client_src c' = m_client_src c → m_client_dest c' = m_client_dest c → m_refs c' = m_refs c →
     vw s' = v_with_bal (u32 (v_bal V - (if fifo_base ds c =? SPS_ADDR_INVALID then 0
                                           else mb_size (fifo_of ds c))))
               (v_with_conns (<[m := c']> (v_conns V)) V) → Q () s') →
  v_bal V = u32 (v_bal V) →
  wp (free_fifo ds m) Q s.
Proof.
  intros HV Hm HQ Hbal. unfold free_fifo. apply wp_bind. eapply wp_get_conn; [done..|].
  destruct (_ =? _).
  - apply wp_ret. eapply (HQ c); try done. rewrite insert_id, Z.sub_0_r, <- Hbal by done.
    rewrite HV. by destruct V.
  - apply wp_bind. eapply wp_sps_mem_free_io; [done|]. intros s1 HV1.
    eapply wp_upd_conn; [done..|]. intros s2 HV2. eapply (HQ _ s2); [..|exact HV2]; by destruct ds.
Qed.

Lemma clear_key_slot o S b i y :
  slot_in S b i = Some y → y = SlotNull ∨ y = SlotUnassigned →
  (∀ b i, o = Some (b, i) → is_Some (slot_in S b i)) →
  ∃ z, slot_in (clear_key o S) b i = Some z ∧ (z = SlotNull ∨ z = SlotUnassigned).
Proof.
  intros Hs Hy Ho. rewrite slot_in_clear by done. destruct (decide _); [|by exists y].
  exists SlotNull. by split; [|left].
Qed.

Lemma wp_sps_rm_free_map_rsrc m c s V (Q : () → sps_state → Prop) :
  vw s = V → v_conns V !! m = Some c → m_client_src c = None → m_client_dest c = None →
  clearable c V → v_bal V = u32 (v_bal V) →
  (∀ c' s', m_client_src c' = None → m_client_dest c' = None → m_refs c' = m_refs c →
     vw s' = v_with_bal (u32 (v_bal V - fifo_mem c))
               (v_with_slots (cleared c (v_slots V)) (v_with_conns (<[m := c']> (v_conns V)) V)) →
     Q () s') →
  wp (sps_rm_free_map_rsrc m) Q s.
Proof.
  intros HV Hm Hs Hd Hcl Hbal HQ. unfold sps_rm_free_map_rsrc.
  apply wp_bind. eapply wp_get_conn; [done..|]. rewrite Hs, Hd. cbn [is_null negb orb].
  apply wp_bind. eapply wp_free_pipe; [done..|].
  intros c1 s1 Hk1 He1 Ha1 Hf1 Hs1 Hd1 Hr1 Hal1 HV1. cbn [negb] in *. view_norm HV1.
  assert (∀ b i, key true c = Some (b, i) → is_Some (slot_in (v_slots V) b i)) as Hkin.
  { intros b i Hk. unfold key in Hk. destruct (Z.eqb_spec (alloc_on true c) SPS_BAM_PIPE_INVALID) as [|Hal];
      [done|]. destruct (Hcl true Hal) as (b0 & x & y & Hb & _ & _ & Hsl & _).
    rewrite Hb in Hk. cbn in Hk. injection Hk as <- <-. by exists y. }
  apply wp_bind. eapply (wp_free_pipe false m c1); [exact HV1|apply lookup_insert_eq| |].
  { intros [] Hal; [done|]. rewrite Ha1 in Hal.
    destruct (Hcl false Hal) as (b & x & y & Hb & Hx & Hi & Hsl & Hy). rewrite He1. exists b.
    destruct (clear_key_slot (key true c) _ _ _ _ Hsl Hy Hkin) as (z & Hz & Hz').
    pose proof (clear_key_num (v_slots V) (key true c) b) as Hn. rewrite Hx in Hn.
    destruct (clear_key (key true c) (v_slots V) !! b) as [w|] eqn:Hw; [|done]. injection Hn as Hn.
    exists w, z. cbn. rewrite Hw, Hn. done. }
  intros c2 s2 Hk2 He2 Ha2 Hf2 Hs2 Hd2 Hr2 Hal2 HV2. cbn [negb] in *. view_norm HV2.
  apply wp_bind. eapply (wp_free_fifo true m c2); [exact HV2|apply lookup_insert_eq| |exact Hbal].
  intros c3 s3 Ha3 Hf3 Hb3 Hs3 Hd3 Hr3 HV3. cbn [negb] in *. view_norm HV3.
  eapply (wp_free_fifo false m c3); [exact HV3|apply lookup_insert_eq| |symmetry; apply u32_u32].
  intros c4 s4 _ _ _ Hs4 Hd4 Hr4 HV4. view_norm HV4. eapply (HQ c4); [congruence..|].
  rewrite HV4, Hb3, Hf3. destruct (Hf2 true) as [-> ->], (Hf2 false) as [-> ->].
  destruct (Hf1 true) as [-> ->], (Hf1 false) as [-> ->]. rewrite Hk1.
  unfold v_with_bal, v_with_slots, v_with_conns, cleared.
  cbn [v_cores v_conns v_slots v_queue v_phys v_virt v_bal v_next v_devs v_maps].
  rewrite u32_sub_l. do 2 f_equal. unfold fifo_mem, fifo_base, fifo_of. lia.
Qed.

(** ** A connection under construction

    [V] is the view when the construction began, [c] the connection now. *)
Record building (m : positive) V (c : sps_connection) (V' : view) : Prop := {
  bd_inv : INV (Some m) V';
  bd_cores : v_cores V' = v_cores V;
  bd_queue : v_queue V' = v_queue V;
  bd_conns : v_conns V' = <[m := c]> (v_conns V);
  bd_bams b : is_Some (v_slots V' !! b) ↔ is_Some (v_slots V !! b);
}.

Lemma building_conn m V c V' : building m V c V' → v_conns V' !! m = Some c.
Proof. intros Hb. rewrite (bd_conns _ _ _ _ Hb). apply lookup_insert_eq. Qed.

Lemma building_unlinked m V c V' :
  building m V c V' → m_client_src c = None ∧ m_client_dest c = None ∧ m_refs c = 0.
Proof.
  intros Hb. exact (inv_unlinked _ _ _ (bd_inv _ _ _ _ Hb) m c eq_refl (building_conn _ _ _ _ Hb)).
Qed.

Lemma INV_bal u V : INV u V → v_bal V = u32 (v_bal V).
Proof. intros Hinv. rewrite (inv_balance _ _ _ Hinv). symmetry. apply u32_u32. Qed.

(** The pipes that the connection took are those of its ends. *)
Definition allocs_ok (c : sps_connection) : Prop :=
  ∀ sd, alloc_on sd c ≠ SPS_BAM_PIPE_INVALID →
  is_Some (ep_bam (end_of sd c)) ∧ alloc_on sd c = ep_pipe_index (end_of sd c).

Lemma building_allocs m V c V' : building m V c V' → allocs_ok c.
Proof.
  intros Hb sd. exact (inv_alloc _ _ _ (bd_inv _ _ _ _ Hb) m c sd (building_conn _ _ _ _ Hb)).
Qed.

(** The balance after an update of the connection under construction. *)
Lemma building_upd m V c c' V1 V2 bal :
  building m V c V1 →
  m_client_src c' = m_client_src c → m_client_dest c' = m_client_dest c → m_refs c' = m_refs c →
  (∀ sd, key sd c' = key sd c) → allocs_ok c' → bal = u32 (v_bal V1 + (fifo_mem c' - fifo_mem c)) →
  V2 = v_with_bal bal (v_with_conns (<[m := c']> (v_conns V1)) V1) →
  building m V c' V2.
Proof.
  intros Hb Hs Hd Hr Hk Ha Hbal ->. destruct (building_unlinked _ _ _ _ Hb) as (Hs0 & Hd0 & Hr0).
  pose proof (building_conn _ _ _ _ Hb) as Hm. split; cbn; try apply Hb.
  - eapply INV_build; [apply Hb|exact Hm|congruence..|exact Hk|exact Ha|exact Hbal].
  - rewrite (bd_conns _ _ _ _ Hb). apply insert_insert_eq.
Qed.

Lemma wp_upd_building m V c f s (Q : () → sps_state → Prop) :
  building m V c (vw s) →
  m_client_src (f c) = m_client_src c → m_client_dest (f c) = m_client_dest c →
  m_refs (f c) = m_refs c → (∀ sd, key sd (f c) = key sd c) → allocs_ok (f c) →
  fifo_mem (f c) = fifo_mem c →
  (∀ s', building m V (f c) (vw s') → Q () s') → wp (upd_conn m f) Q s.
Proof.
  intros Hb Hs Hd Hr Hk Ha Hf HQ. eapply wp_upd_conn; [done|by eapply building_conn|].
  intros s1 HV1. apply HQ. eapply (building_upd m V c (f c) (vw s) _ (v_bal (vw s))); try done.
  rewrite Hf, Z.sub_diag, Z.add_0_r. eapply INV_bal, Hb.
Qed.

(** What a step on side [sd] keeps of the connection. *)
Record keeps_but (sd : bool) (c c' : sps_connection) : Prop := {
  kb_end : end_of (negb sd) c' = end_of (negb sd) c;
  kb_alloc : alloc_on (negb sd) c' = alloc_on (negb sd) c;
  kb_fifo ds : fifo_of ds c' = fifo_of ds c ∧ fifo_base ds c' = fifo_base ds c;
}.

Lemma allocs_none c : (∀ sd, alloc_on sd c = SPS_BAM_PIPE_INVALID) → allocs_ok c.
Proof. intros Ha sd Hno. by rewrite Ha in Hno. Qed.
Lemma key_none sd c : alloc_on sd c = SPS_BAM_PIPE_INVALID → key sd c = None.
Proof. intros Ha. unfold key. by rewrite Ha. Qed.

(** The BAM of a side, if it has one, is registered. *)
Definition bam_in V (sd : bool) (c : sps_connection) : Prop :=
  ∀ b, ep_bam (end_of sd c) = Some b → is_Some (v_slots V !! b).

Lemma wp_sps_h2bam h V s (Q : option Z → sps_state → Prop) :
  vw s = V → (∀ r, (∀ b, r = Some b → is_Some (v_slots V !! b)) → Q r s) → wp (sps_h2bam h) Q s.
Proof.
  intros <- HQ. unfold sps_h2bam. destruct (_ || _); [by apply wp_ret, HQ|]. wp_steps. apply HQ.
  intros b. destruct (sps_bams s !! h) as [d|] eqn:Hd; [|done]. intros [= <-]. cbn.
  rewrite lookup_fmap, Hd. by eexists.
Qed.

(** An update that takes no pipe and no memory, when none is taken. *)
Lemma wp_upd_early m V c f s (Q : () → sps_state → Prop) :
  building m V c (vw s) → (∀ sd, alloc_on sd c = SPS_BAM_PIPE_INVALID) →
  (∀ sd, alloc_on sd (f c) = alloc_on sd c) →
  m_client_src (f c) = m_client_src c → m_client_dest (f c) = m_client_dest c →
  m_refs (f c) = m_refs c → fifo_mem (f c) = fifo_mem c →
  (∀ s', building m V (f c) (vw s') → Q () s') → wp (upd_conn m f) Q s.
Proof.
  intros Hb Ha Hal Hs Hd Hr Hf HQ. eapply wp_upd_building; try done.
  - intros sd. rewrite !key_none; congruence.
  - apply allocs_none. congruence.
Qed.

Lemma wp_lookup_end sd m V c s (Q : bool → sps_state → Prop) :
  building m V c (vw s) → (∀ sd, alloc_on sd c = SPS_BAM_PIPE_INVALID) →
  0 ≤ ep_pipe_index (end_of sd c) →
  (∀ ok c' s', building m V c' (vw s') → keeps_but sd c c' →
     (∀ sd, alloc_on sd c' = SPS_BAM_PIPE_INVALID) → 0 ≤ ep_pipe_index (end_of sd c') →
     bam_in V sd c' → Q ok s') →
  wp (lookup_end sd m) Q s.
Proof.
  intros Hb Ha Hi HQ. unfold lookup_end.
  apply wp_bind. eapply wp_get_conn; [done|by eapply building_conn|].
  apply wp_bind. eapply wp_sps_h2bam; [done|]. intros r Hr.
  set (f := λ c, with_end sd (with_ep_bam r (end_of sd c)) c).
  assert (∀ b, r = Some b → is_Some (v_slots V !! b)) as Hr'.
  { intros b Hrb. by apply (bd_bams _ _ _ _ Hb), Hr. }
  assert (keeps_but sd c (f c)) as Hk by (split; by destruct sd).
  assert (∀ sd, alloc_on sd (f c) = SPS_BAM_PIPE_INVALID) as Ha1
    by (intros sd'; rewrite <- (Ha sd'); by destruct sd, sd').
  assert (ep_pipe_index (end_of sd (f c)) = ep_pipe_index (end_of sd c) ∧
          ep_bam (end_of sd (f c)) = r) as [Hi1 Hb1] by (by destruct sd).
  apply wp_bind. eapply (wp_upd_early m V c f); try done; try (by destruct sd).
  intros s1 Hbd1. destruct r as [b|]; cbn [is_null].
  - apply wp_ret. eapply (HQ true (f c)); try done; [lia|]. intros b'. rewrite Hb1. apply Hr'.
  - destruct (negb _).
    + apply wp_ret. eapply (HQ false (f c)); try done; [lia|]. intros b'. rewrite Hb1. apply Hr'.
    + set (g := λ c, with_end sd (with_ep_pipe SPS_BAM_PIPE_INVALID (end_of sd c)) c).
      assert (∀ sd', alloc_on sd' (g (f c)) = alloc_on sd' (f c)) as Ha2 by (intros []; by destruct sd).
      apply wp_bind. eapply (wp_upd_early m V (f c) g); try done; try (by destruct sd).
      intros s2 Hbd2. apply wp_ret. eapply (HQ true (g (f c))); try done.
      * destruct Hk as [Hk1 Hk2 Hk3]. split; [by destruct sd..|]. intros ds. by destruct sd, ds.
      * by destruct sd.
      * intros b'. by destruct sd.
Qed.

Lemma wp_check_end l m V c k s (Q : bool → sps_state → Prop) :
  building m V c (vw s) → v_cores V !! l = Some k → (∀ ok, Q ok s) → wp (check_end l m) Q s.
Proof.
  intros Hb Hl HQ. unfold check_end.
  apply wp_bind. eapply wp_get_pipe; [done|by rewrite (bd_cores _ _ _ _ Hb)|]. intros p _ _.
  apply wp_bind. eapply wp_get_conn; [done|by eapply building_conn|]. by apply wp_ret.
Qed.

Lemma building_take sd m V c c' V' b i x :
  building m V c V' → alloc_on sd c = SPS_BAM_PIPE_INVALID →
  m_client_src c' = m_client_src c → m_client_dest c' = m_client_dest c → m_refs c' = m_refs c →
  end_of (negb sd) c' = end_of (negb sd) c → alloc_on (negb sd) c' = alloc_on (negb sd) c →
  fifo_mem c' = fifo_mem c → alloc_on sd c' = i → ep_pipe_index (end_of sd c') = i →
  ep_bam (end_of sd c') = Some b → slot V' b i = Some SlotNull → v_slots V' !! b = Some x →
  0 ≤ i < x.2 → i ≠ SPS_BAM_PIPE_INVALID →
  building m V c' (v_with_slots (set_slot b i SlotUnassigned (v_slots V'))
                     (v_with_conns (<[m := c']> (v_conns V')) V')).
Proof.
  intros Hb Ha Hs Hd Hr He Hn Hf Ha' Hi' Hb' Hnull Hx Hi Hne.
  destruct (building_unlinked _ _ _ _ Hb) as (Hs0 & Hd0 & Hr0).
  pose proof (building_conn _ _ _ _ Hb) as Hm. split; cbn; try apply Hb.
  - eapply (INV_take pf V' m c c' sd b i x); try done; try congruence; [apply Hb|by apply key_none|..].
    + unfold key. rewrite Ha', Hb', Hi'. by rewrite (proj2 (Z.eqb_neq _ _) Hne).
    + unfold key. by rewrite He, Hn.
    + intros sd' Hal. pose proof (building_allocs _ _ _ _ Hb sd') as Hok.
      destruct (end_dec sd sd') as [->| ->]; [rewrite Hb', Ha', Hi'; by split|].
      rewrite He, Hn in *. by apply Hok.
  - rewrite (bd_conns _ _ _ _ Hb). apply insert_insert_eq.
  - intros b'. rewrite <- (bd_bams _ _ _ _ Hb). pose proof (set_slot_num (v_slots V') b i SlotUnassigned b') as Hn'.
    destruct (set_slot _ _ _ _ !! b'), (v_slots V' !! b'); try done; split; by eexists.
Qed.

Lemma wp_alloc_pipe sd m V c s (Q : bool → sps_state → Prop) :
  building m V c (vw s) → alloc_on sd c = SPS_BAM_PIPE_INVALID →
  0 ≤ ep_pipe_index (end_of sd c) → bam_in V sd c →
  (∀ ok c' s', building m V c' (vw s') → keeps_but sd c c' → bam_in V sd c' →
     (ok = true → is_Some (ep_bam (end_of sd c')) → alloc_on sd c' ≠ SPS_BAM_PIPE_INVALID) →
     Q ok s') →
  wp (alloc_pipe sd m) Q s.
Proof.
  intros Hb Ha Hi Hin HQ. unfold alloc_pipe.
  apply wp_bind. eapply wp_get_conn; [done|by eapply building_conn|].
  destruct (ep_bam (end_of sd c)) as [b|] eqn:Hbam.
  2: { apply wp_ret. eapply (HQ true c); try done. intros _ [b Hb0]. congruence. }
  destruct (proj2 (bd_bams _ _ _ _ Hb b) (Hin b Hbam)) as [x Hx].
  pose proof (INV_bam_fine pf _ _ _ _ (bd_inv _ _ _ _ Hb) Hx) as Hfine.
  pose proof Hfine as (_ & Hlen & Hxn & Hpn & _).
  apply wp_bind. eapply wp_sps_bam_pipe_alloc; [done..| |].
  - apply wp_bind. eapply (wp_upd_building m V c); try done; try (by destruct sd).
    + intros sd'. unfold key. destruct sd, sd'; try done; cbn in *; by rewrite Ha.
    + intros sd' Hal. pose proof (building_allocs _ _ _ _ Hb sd') as Hok.
      destruct sd, sd'; cbn in *; try done; by apply Hok.
    + intros s1 Hb1. rewrite Z.eqb_refl. apply wp_ret. eapply (HQ false _ s1 Hb1); [|done|done].
      by destruct sd; split.
  - intros i s1 Hi1 Hnull HV1.
    pose proof (building_conn _ _ _ _ Hb) as Hm.
    apply wp_bind. eapply wp_upd_conn; [exact HV1|exact Hm|]. intros s2 HV2. view_norm HV2.
    assert (i ≠ SPS_BAM_PIPE_INVALID) as Hvalid
      by (unfold SPS_BAM_PIPE_INVALID, BAM_MAX_PIPES in *; lia).
    rewrite (proj2 (Z.eqb_neq i SPS_BAM_PIPE_INVALID)) by done.
    apply wp_bind. eapply (wp_get_bam _ _ b (<[Z.to_nat i := SlotUnassigned]> x.1, x.2));
      [exact HV2|cbn [v_slots]; unfold set_slot; rewrite Hx; apply lookup_insert_eq|]. intros d _ _ _.
    apply wp_bind. eapply wp_upd_conn; [exact HV2|apply lookup_insert_eq|]. intros s3 HV3.
    view_norm HV3. set (c2 := with_end sd _ _) in HV3.
    assert (alloc_on sd c2 = i ∧ end_of (negb sd) c2 = end_of (negb sd) c ∧
            alloc_on (negb sd) c2 = alloc_on (negb sd) c ∧ ep_pipe_index (end_of sd c2) = i ∧
            ep_bam (end_of sd c2) = Some b) as (Ha2 & He2 & Hn2 & Hi2 & Hb2) by (by destruct sd).
    apply wp_ret. eapply (HQ true c2).
    + rewrite HV3. eapply (building_take sd m V c c2 (vw s) b i x); try done; try (by destruct sd).
    + split; [done..|]. intros []; by destruct sd.
    + intros b'. rewrite Hb2. intros [= <-]. by apply Hin.
    + intros _ _. by rewrite Ha2.
Qed.

(** ** The FIFOs *)

Definition ends_same (c c' : sps_connection) : Prop :=
  ∀ sd, end_of sd c' = end_of sd c ∧ alloc_on sd c' = alloc_on sd c.

Lemma ends_same_key c c' sd : ends_same c c' → key sd c' = key sd c.
Proof. intros He. destruct (He sd) as [H1 H2]. unfold key. by rewrite H1, H2. Qed.
Lemma ends_same_allocs c c' : ends_same c c' → allocs_ok c → allocs_ok c'.
Proof. intros He Ha sd. destruct (He sd) as [-> ->]. apply Ha. Qed.

Lemma wp_bam_sizes o m V c s (Q : Z * Z → sps_state → Prop) :
  building m V c (vw s) → (∀ b, o = Some b → is_Some (v_slots V !! b)) → (∀ r, Q r s) →
  wp (bam_sizes o) Q s.
Proof.
  intros Hb Ho HQ. destruct o as [b|]; [|by apply wp_ret].
  destruct (proj2 (bd_bams _ _ _ _ Hb b) (Ho b eq_refl)) as [x Hx].
  cbn. apply wp_bind. eapply wp_get_bam; [done..|]. intros d _ _ _. by apply wp_ret.
Qed.

Lemma wp_set_fifo_sizes m V c s (Q : bool → sps_state → Prop) :
  building m V c (vw s) → (∀ sd, bam_in V sd c) → (∀ ds, fifo_base ds c = SPS_ADDR_INVALID) →
  (∀ ok c' s', building m V c' (vw s') → ends_same c c' →
     (∀ ds, fifo_base ds c' = SPS_ADDR_INVALID) → Q ok s') →
  wp (set_fifo_sizes m) Q s.
Proof.
  intros Hb Hin Hf HQ. unfold set_fifo_sizes.
  apply wp_bind. eapply wp_get_conn; [done|by eapply building_conn|].
  apply wp_bind. eapply wp_bam_sizes; [done|exact (Hin true)|]. intros [sd sa].
  apply wp_bind. eapply wp_bam_sizes; [done|exact (Hin false)|]. intros [dd da].
  apply wp_bind. eapply wp_upd_building; [exact Hb|done..| | | |].
  - intros []; by apply ends_same_key; intros [].
  - intros sd' Hal. exact (building_allocs _ _ _ _ Hb sd' Hal).
  - unfold fifo_mem. cbn. pose proof (Hf true) as Ht. pose proof (Hf false) as Hff. cbn in Ht, Hff.
    by rewrite Ht, Hff.
  - intros s1 Hb1. apply wp_ret. eapply HQ; [exact Hb1|by intros []|].
    intros ds. pose proof (Hf ds) as Hds. by destruct ds.
Qed.

Lemma wp_alloc_fifo ds m V c s (Q : bool → sps_state → Prop) :
  building m V c (vw s) → fifo_base ds c = SPS_ADDR_INVALID →
  (∀ ok c' s', building m V c' (vw s') → ends_same c c' →
     fifo_base (negb ds) c' = fifo_base (negb ds) c → Q ok s') →
  wp (alloc_fifo E ds m) Q s.
Proof.
  intros Hb Hf HQ. unfold alloc_fifo. pose proof (building_conn _ _ _ _ Hb) as Hm.
  assert (∀ buf base, ends_same c (with_fifo ds buf base c) ∧
            fifo_base (negb ds) (with_fifo ds buf base c) = fifo_base (negb ds) c) as Hends.
  { intros buf base. split; [by intros []|by destruct ds]. }
  apply wp_bind. eapply wp_get_conn; [done..|].
  destruct (negb (negb _ && _)); [apply wp_ret; by eapply HQ|].
  apply wp_bind. eapply (wp_sps_mem_alloc_io E pf _ _ (vw s)); [done|eapply inv_mem, Hb|..].
  - intros s1 HV1. rewrite <- HV1 in Hb, Hm. destruct (Hends (fifo_of ds c) SPS_ADDR_INVALID) as [He Hn].
    apply wp_bind. eapply wp_upd_building; [exact Hb|done..| | | |].
    + intros sd. by apply ends_same_key.
    + by eapply ends_same_allocs, building_allocs.
    + unfold fifo_mem. by destruct ds; cbn in *; rewrite Hf.
    + intros s2 Hb2. cbn. apply wp_ret. by eapply HQ.
  - intros phys s1 Hphys HV1. rewrite (proj2 (Z.eqb_neq phys SPS_ADDR_INVALID)) by done.
    destruct (Hends (fifo_of ds c) phys) as [He Hn].
    apply wp_bind. eapply wp_upd_conn; [exact HV1|exact Hm|]. intros s2 HV2. view_norm HV2.
    set (c1 := with_fifo ds (fifo_of ds c) phys c) in *.
    assert (building m V c1 (vw s2)) as Hb2.
    { rewrite HV2. eapply (building_upd m V c c1 (vw s)); [exact Hb|done..| | | |reflexivity].
      - intros sd. by apply ends_same_key.
      - by eapply ends_same_allocs, building_allocs.
      - f_equal. f_equal. unfold fifo_mem. subst c1. destruct ds; cbn in *; rewrite Hf;
          rewrite (proj2 (Z.eqb_neq phys SPS_ADDR_INVALID)) by done; cbn; lia. }
    apply wp_bind, wp_spsi_get_mem_ptr. intros base. apply wp_bind.
    set (f := λ c, with_fifo ds (buf_at phys base (fifo_of ds c)) (fifo_base ds c) c).
    eapply (wp_upd_building m V c1 f); [exact Hb2|done..| | | |].
    + intros []; by apply ends_same_key; intros [].
    + intros sd Hal. exact (building_allocs _ _ _ _ Hb2 sd Hal).
    + unfold fifo_mem. by destruct ds.
    + intros s3 Hb3. apply wp_ret. eapply HQ; [exact Hb3|by intros []|by destruct ds].
Qed.

(** ** Assigning a client *)

(** The client [l] is attached to its side of [m]. *)
Record attached (l m : positive) (k k' : core) (c c' : sps_connection) : Prop := {
  at_ends : same_ends c c';
  at_on : client_on (k_src k) c' = Some l;
  at_free : client_on (k_src k) c = None;
  at_other : client_on (negb (k_src k)) c' = client_on (negb (k_src k)) c;
  at_refs : m_refs c' = m_refs c;
  at_core : ∃ b, ep_bam (end_of (k_src k) c) = Some b ∧
    k' = mkCore SPS_STATE_ALLOCATE (Some m) (Some b) (k_src k) (ep_pipe_index (end_of (k_src k) c));
}.

Lemma override_end cfg e : ep_bam (override cfg e) = ep_bam e ∧ ep_pipe_index (override cfg e) = ep_pipe_index e.
Proof. unfold override. destruct (_ =? _), (_ =? _); done. Qed.

Lemma assign_same_ends sd cfg l c :
  same_ends c (with_client sd l (with_end sd (override cfg (end_of sd c)) c)).
Proof.
  destruct (override_end cfg (end_of sd c)) as [H1 H2].
  split; [intros sd'; destruct sd, sd'; cbn in *; congruence..|done].
Qed.

Lemma wp_sps_rm_assign l m c k s V (Q : Z → sps_state → Prop) :
  vw s = V → v_cores V !! l = Some k → v_conns V !! m = Some c → bam_in V (k_src k) c →
  Q SPS_ERROR s →
  (∀ k' c' s', attached l m k k' c c' →
     vw s' = v_with_cores (<[l := k']> (v_cores V)) (v_with_conns (<[m := c']> (v_conns V)) V) →
     Q 0 s') →
  wp (sps_rm_assign l m) Q s.
Proof.
  intros HV Hl Hm Hin Hfail Hok. unfold sps_rm_assign.
  apply wp_bind. eapply wp_get_pipe; [done..|]. intros p Hp Hk.
  apply wp_bind. eapply wp_get_conn; [done..|]. unfold end_is_free.
  assert ((c_mode (p_connect p) =? SPS_MODE_SRC) = k_src k) as -> by (by rewrite <- Hk).
  set (sd := k_src k) in *. destruct (client_on sd c) as [l0|] eqn:Hc; [by apply wp_ret|].
  cbn [is_null negb]. destruct (ep_bam (end_of sd c)) as [b|] eqn:Hb; [|by apply wp_ret].
  destruct (Hin b Hb) as [x Hx].
  apply wp_bind. eapply wp_put_conn; [done..|]. intros s1 HV1.
  apply wp_bind. eapply (wp_get_bam s1 _ b x); [done..|]. intros d _ _ _.
  apply wp_bind. eapply wp_put_pipe; [done..|]. intros s2 HV2. apply wp_ret.
  eapply Hok; [|rewrite HV2; reflexivity].
  assert (core_of p = k) as Hk' by done. unfold core_of in Hk'. unfold core_of. cbn.
  split; fold sd; try (by destruct sd); [apply assign_same_ends|].
  exists b. split; [done|]. f_equal. subst sd. by rewrite <- Hk.
Qed.
End ConnRuns.

(** * SPS: runs of the allocation and release of a client's resources *)

Section AllocRuns.
Context (E : sps_env) (pf : platform) `{HE : !SpsEnvOk E pf}.
Implicit Types V : view.
Abbreviation INV := (INV pf).
Abbreviation building := (building pf).

(** ** Creating a connection *)

(** Nothing is left of a construction that failed. *)
Definition undone V V' : Prop :=
  INV None V' ∧ v_cores V' = v_cores V ∧ v_conns V' = v_conns V ∧ v_queue V' = v_queue V.

Lemma INV_clearable m V c :
  INV (Some m) V → v_conns V !! m = Some c → clearable c V.
Proof.
  intros Hinv Hm sd Hal. destruct (inv_alloc _ _ _ Hinv m c sd Hm Hal) as [[b Hb] _].
  destruct (inv_key _ _ _ Hinv m c sd b (ep_pipe_index (end_of sd c)) Hm) as [Hs (x & Hx & Hi)].
  { unfold key. by rewrite (proj2 (Z.eqb_neq _ _) Hal), Hb. }
  exists b, x, SlotUnassigned. split_and!; try done; [lia| |by right].
  rewrite Hs. destruct (inv_unlinked _ _ _ Hinv m c eq_refl Hm) as (H1 & H2 & _).
  destruct sd; cbn; by rewrite ?H1, ?H2.
Qed.

Lemma wp_kfree_conn m c V s (Q : () → sps_state → Prop) :
  vw s = V → v_conns V !! m = Some c →
  (∀ s', vw s' = v_with_conns (delete m (v_conns V)) V → Q () s') → wp (kfree_conn m) Q s.
Proof.
  intros HV Hm HQ. unfold kfree_conn. apply wp_bind. eapply wp_get_conn; [done..|]. wp_steps.
  apply HQ. by subst V.
Qed.

(** [V] with the connection [m] freed. *)
Definition freed m c V : view :=
  v_with_bal (u32 (v_bal V - fifo_mem c))
    (v_with_slots (cleared c (v_slots V)) (v_with_conns (delete m (v_conns V)) V)).

Lemma wp_create_fail m V c s (Q : option positive → sps_state → Prop) :
  building m V c (vw s) → v_conns V !! m = None → (∀ s', undone V (vw s') → Q None s') →
  wp (sps_rm_free_map_rsrc m ;; kfree_conn m ;; mret None) Q s.
Proof.
  remember (vw s) as V0 eqn:HV0. intros Hb Hfresh HQ. pose proof (building_conn _ _ _ _ _ Hb) as Hm.
  destruct (building_unlinked _ _ _ _ _ Hb) as (Hs0 & Hd0 & _). pose proof (bd_inv _ _ _ _ _ Hb) as Hinv.
  apply wp_bind. eapply (wp_sps_rm_free_map_rsrc m c s V0); try done.
  { by eapply INV_clearable. } { by eapply INV_bal. }
  intros c' s1 _ _ _ HV1. view_norm HV1. apply wp_bind.
  eapply (wp_kfree_conn m c'); [exact HV1|apply lookup_insert_eq|]. intros s2 HV2. view_norm HV2.
  rewrite delete_insert_eq in HV2. apply wp_ret, HQ. rewrite HV2.
  split_and!; cbn; try apply Hb; [by apply (INV_freed pf V0 m c)|].
  rewrite (bd_conns _ _ _ _ _ Hb), delete_insert_eq. by apply delete_id.
Qed.

(** Every BAM side of the connection has its pipe. *)
Definition full (c : sps_connection) : Prop :=
  ∀ sd, is_Some (ep_bam (end_of sd c)) → alloc_on sd c ≠ SPS_BAM_PIPE_INVALID.

Lemma full_ends c c' : ends_same c c' → full c → full c'.
Proof. intros He Hf sd. destruct (He sd) as [-> ->]. apply Hf. Qed.
Lemma bam_in_ends V c c' sd : ends_same c c' → bam_in V sd c → bam_in V sd c'.
Proof. intros He Hf b. destruct (He sd) as [-> _]. apply Hf. Qed.

(** The steps of the construction, as one run. *)
Lemma wp_create_steps l m k V c s (Q : bool → sps_state → Prop) :
  building m V c (vw s) → v_cores V !! l = Some k →
  (∀ sd, alloc_on sd c = SPS_BAM_PIPE_INVALID) → (∀ sd, 0 ≤ ep_pipe_index (end_of sd c)) →
  (∀ ds, fifo_base ds c = SPS_ADDR_INVALID) →
  (∀ c' s', building m V c' (vw s') → Q false s') →
  (∀ V1 c1 k' c' s', building m V c1 V1 → full c1 → attached l m k k' c1 c' →
     vw s' = v_with_cores (<[l := k']> (v_cores V1)) (v_with_conns (<[m := c']> (v_conns V1)) V1) →
     Q true s') →
  wp (all_steps (create_steps E l m)) Q s.
Proof.
  intros Hb Hl Ha Hi Hf Hfail Hok. unfold create_steps.
  apply wp_all_cons. eapply wp_lookup_end; [done..|].
  intros [] c1 s1 Hb1 [He1 Hal1 Hf1] Ha1 Hi1 Hin1; [|by eapply Hfail]. cbn [negb] in *.
  apply wp_all_cons. eapply wp_lookup_end; [done..|rewrite He1; apply Hi|].
  intros [] c2 s2 Hb2 [He2 Hal2 Hf2] Ha2 Hi2 Hin2; [|by eapply Hfail]. cbn [negb] in *.
  apply wp_all_cons. eapply wp_check_end; [done..|]. intros []; [|by eapply Hfail].
  assert (bam_in V true c2) as Hin2' by (unfold bam_in; by rewrite He2).
  apply wp_all_cons. eapply (wp_alloc_pipe pf true m V c2); [done|done|by rewrite He2|done|].
  intros [] c3 s3 Hb3 [He3 Hal3 Hf3] Hin3 Hfu3; [|by eapply Hfail]. cbn [negb] in *.
  apply wp_all_cons. eapply (wp_alloc_pipe pf false m V c3);
    [done|by rewrite Hal3|by rewrite He3|unfold bam_in; by rewrite He3|].
  intros [] c4 s4 Hb4 [He4 Hal4 Hf4] Hin4 Hfu4; [|by eapply Hfail]. cbn [negb] in *.
  assert (full c4) as Hfull4.
  { intros [] Hs; [|by apply Hfu4]. rewrite He4 in Hs. rewrite Hal4. by apply Hfu3. }
  assert (∀ sd, bam_in V sd c4) as Hbam4.
  { intros []; [|done]. unfold bam_in. rewrite He4. exact Hin3. }
  assert (∀ ds, fifo_base ds c4 = SPS_ADDR_INVALID) as Hbase4.
  { intros ds. destruct (Hf1 ds), (Hf2 ds), (Hf3 ds), (Hf4 ds). specialize (Hf ds). congruence. }
  apply wp_all_cons. eapply wp_set_fifo_sizes; [done..|].
  intros [] c5 s5 Hb5 He5 Hbase5; [|by eapply Hfail].
  apply wp_all_cons. eapply (wp_alloc_fifo E pf true m V c5); [done..|].
  intros [] c6 s6 Hb6 He6 Hbase6; [|by eapply Hfail]. cbn [negb] in *.
  apply wp_all_cons. eapply (wp_alloc_fifo E pf false m V c6); [done|by rewrite Hbase6|].
  intros [] c7 s7 Hb7 He7 _; [|by eapply Hfail].
  apply wp_all_cons, wp_bind. eapply (wp_sps_rm_assign l m c7 k s7 (vw s7)); [done| | | | |].
  - by rewrite (bd_cores _ _ _ _ _ Hb7).
  - by eapply building_conn.
  - intros b Hbb. apply (bd_bams _ _ _ _ _ Hb7). revert b Hbb.
    by apply (bam_in_ends V c6), (bam_in_ends V c5), (bam_in_ends V c4).
  - apply wp_ret. by eapply Hfail.
  - intros k' c' s8 Hat HV8. apply wp_ret, wp_all_nil. eapply (Hok (vw s7) c7 k' c'); try done.
    by apply (full_ends c6), (full_ends c5), (full_ends c4).
Qed.

Lemma wp_kzalloc_conn c V s (Q : option positive → sps_state → Prop) :
  vw s = V → (∀ s', vw s' = V → Q None s') →
  (∀ s', vw s' = v_with_next (Pos.succ (v_next V)) (v_with_conns (<[v_next V := c]> (v_conns V)) V) →
     Q (Some (v_next V)) s') →
  wp (kzalloc_conn E c) Q s.
Proof.
  intros HV Hnone Hsome. unfold kzalloc_conn. wp_steps. apply wp_hist. intros h.
  apply wp_bind. eapply wp_log; [done|]. intros s1 HV1.
  destruct (env_sps_kzalloc E h); [|by apply wp_ret, Hnone]. wp_steps.
  subst V. rewrite <- HV1 in Hsome. by apply Hsome.
Qed.

Lemma init_map_facts cfg :
  let c := sps_rm_init_map cfg in
  m_client_src c = None ∧ m_client_dest c = None ∧ m_refs c = 0 ∧
  (∀ sd, alloc_on sd c = SPS_BAM_PIPE_INVALID) ∧ (∀ ds, fifo_base ds c = SPS_ADDR_INVALID) ∧
  fifo_mem c = 0 ∧ (cfg_ok cfg → ∀ sd, 0 ≤ ep_pipe_index (end_of sd c)).
Proof.
  cbn. split_and!; try done; try (by intros []).
  intros [H1 H2] []; cbn; destruct (_ =? _); done.
Qed.

Lemma INV_fresh u V : INV u V → v_conns V !! v_next V = None.
Proof.
  intros Hinv. destruct (v_conns V !! v_next V) eqn:Hn; [|done].
  pose proof (inv_fresh_conn _ _ _ Hinv (v_next V) (mk_is_Some _ _ Hn)). lia.
Qed.

Lemma wp_sps_rm_create l k V s (Q : option positive → sps_state → Prop) :
  vw s = V → INV None V → v_cores V !! l = Some k →
  (∀ p, sps_pipes s !! l = Some p → cfg_ok (p_connect p)) →
  (∀ s', undone V (vw s') → Q None s') →
  (∀ m V1 c1 k' c' s', v_conns V !! m = None → building m V c1 V1 → full c1 →
     attached l m k k' c1 c' →
     vw s' = v_with_cores (<[l := k']> (v_cores V1)) (v_with_conns (<[m := c']> (v_conns V1)) V1) →
     Q (Some m) s') →
  wp (sps_rm_create E l) Q s.
Proof.
  intros HV Hinv Hl Hcfg Hnone Hsome. unfold sps_rm_create.
  apply wp_bind. eapply wp_get_pipe; [done..|]. intros p Hp _. specialize (Hcfg p Hp).
  destruct (init_map_facts (p_connect p)) as (Hs & Hd & Hr & Ha & Hf & Hm & Hi).
  set (c := sps_rm_init_map (p_connect p)) in *.
  apply wp_bind. eapply wp_kzalloc_conn; [done| |].
  { intros s1 HV1. apply wp_ret, Hnone. rewrite HV1. by split_and!. }
  intros s1 HV1. pose proof (INV_fresh _ _ Hinv) as Hfresh.
  assert (building (v_next V) V c (vw s1)) as Hb.
  { rewrite HV1. split; cbn; try done. by apply INV_new. }
  apply wp_bind. eapply wp_create_steps; [exact Hb|exact Hl|exact Ha|by apply Hi|exact Hf| |].
  - intros c' s2 Hb2. by eapply wp_create_fail.
  - intros V1 c1 k' c' s2 Hb1 Hfull Hat HV2. apply wp_ret. by eapply Hsome.
Qed.

(** ** Attaching a client *)

Lemma INV_no_client u V l k m c sd :
  INV u V → v_cores V !! l = Some k → k_map k = None → v_conns V !! m = Some c →
  client_on sd c ≠ Some l.
Proof.
  intros Hinv Hl Hk Hm Hc. destruct (inv_client _ _ _ Hinv m c sd l Hm Hc) as (k0 & Hk0 & Hm0). congruence.
Qed.

Lemma client_count_on sd c :
  client_count c = (if is_null (client_on sd c) then 0 else 1) +
                   (if is_null (client_on (negb sd) c) then 0 else 1).
Proof. unfold client_count. destruct sd; cbn; lia. Qed.

Lemma client_count_zero c : m_client_src c = None → m_client_dest c = None → client_count c = 0.
Proof. intros H1 H2. unfold client_count. by rewrite H1, H2. Qed.

Lemma INV_attach u V l m k k' c c' q' :
  INV u V → v_cores V !! l = Some k → k_state k = SPS_STATE_DISCONNECT → k_map k = None →
  v_conns V !! m = Some c → attached l m k k' c c' → full c → (u = None ∨ u = Some m) →
  NoDup q' → (∀ m1, m1 ∈ q' ↔ is_Some (v_conns V !! m1)) →
  INV None (v_with_queue q' (v_with_cores (<[l := k']> (v_cores V))
              (v_with_conns (<[m := with_refs (m_refs c' + 1) c']> (v_conns V)) V))).
Proof.
  intros Hinv Hl Hst Hk Hm [He Hon Hfree Hoth Hrefs (b & Hb & Hk')] Hfull Hu Hnd Hq.
  assert (m_refs c = client_count c) as Hcount.
  { destruct Hu as [->| ->]; [by apply (inv_refs _ _ _ Hinv m c)|].
    destruct (inv_unlinked _ _ _ Hinv m c eq_refl Hm) as (H1 & H2 & ->). by rewrite client_count_zero. }
  assert (0 ≤ client_count c) as Hpos by (unfold client_count; destruct (is_null _), (is_null _); lia).
  set (c'' := with_refs (m_refs c' + 1) c').
  assert (∀ sd, client_on sd c'' = client_on sd c') as Hcl by (by intros []).
  assert (same_ends c c'') as He'.
  { destruct He as [H1 H2 H3 H4]. split; [exact H1|exact H2|exact H3|exact H4]. }
  apply (INV_client_change pf u None q' V m c c'' (k_src k) l k k'); try done; try (by left).
  - by rewrite Hst.
  - by rewrite Hk'.
  - by eapply INV_no_client.
  - right. by rewrite Hcl.
  - intros m1 c1 sd1 H1 H2. by destruct (INV_no_client _ _ _ _ _ _ sd1 Hinv Hl Hk H1).
  - by rewrite Hk'.
  - right. split; [left; by rewrite Hk'|]. exists m, c'', (k_src k), b. cbn. rewrite lookup_insert_eq.
    rewrite Hk'. cbn. split_and!; try done. by rewrite <- (se_bam _ _ He') in Hb.
  - intros m1. rewrite Hq. split; [by intros|by intros []].
  - intros _. cbn. rewrite (client_count_on (k_src k)), !Hcl, Hon, Hoth. cbn.
    rewrite Hrefs, Hcount, (client_count_on (k_src k) c), Hfree. cbn. split_and!; [lia| |].
    + destruct (is_null _); lia.
    + intros sd. apply Hfull.
Qed.

(** The connections of the queue exist, with their BAMs. *)
Lemma INV_bam_in V m c sd : INV None V → v_conns V !! m = Some c → bam_in V sd c.
Proof.
  intros Hinv Hm b Hb. pose proof (inv_full _ _ _ Hinv m c sd ltac:(done) Hm (mk_is_Some _ _ Hb)) as Ha.
  destruct (inv_key _ _ _ Hinv m c sd b (ep_pipe_index (end_of sd c)) Hm) as [_ (x & Hx & _)].
  { unfold key. by rewrite (proj2 (Z.eqb_neq _ _) Ha), Hb. }
  by exists x.
Qed.

Lemma INV_full_conn V m c : INV None V → v_conns V !! m = Some c → full c.
Proof. intros Hinv Hm sd. by apply (inv_full _ _ _ Hinv m c sd). Qed.

Lemma wp_find_unconnected l k V s (Q : option positive → sps_state → Prop) :
  vw s = V → INV None V → v_cores V !! l = Some k →
  Q None s → (∀ m c, v_conns V !! m = Some c → Q (Some m) s) → wp (find_unconnected l) Q s.
Proof.
  intros HV Hinv Hl Hnone Hsome. unfold find_unconnected.
  apply wp_bind. eapply wp_get_pipe; [done..|]. intros p _ _. wp_steps.
  assert (∀ m, m ∈ connections_q s → is_Some (v_conns V !! m)) as Hq.
  { intros m Hm. apply (inv_linked _ _ _ Hinv m). by rewrite <- HV. }
  revert Hq. generalize (connections_q s). intros q. induction q as [|m q IH]; intros Hq; [by apply wp_ret|].
  destruct (Hq m (list_elem_of_here m q)) as [c Hc]. cbn [find_in_queue].
  apply wp_bind. eapply wp_get_conn; [done..|]. destruct (_ && _); [apply wp_ret; by eapply Hsome|].
  apply IH. intros m' Hm'. apply Hq. by right.
Qed.

(** ** The allocation of a client's resources *)

Lemma effective_connect_facts c :
  c_mode (effective_connect c) = c_mode c ∧ (cfg_ok c → cfg_ok (effective_connect c)).
Proof.
  unfold effective_connect, cfg_ok, SPSRM_CLEAR.
  destruct (_ =? _); cbn; destruct (_ =? _); cbn; split; try done; intros; split; lia.
Qed.

(** After the allocation the client is attached. *)
Definition allocated (l : positive) (k : core) V V' : Prop :=
  INV None V' ∧ ∃ k' m, v_cores V' = <[l := k']> (v_cores V) ∧ k_state k' = SPS_STATE_ALLOCATE ∧
    k_map k' = Some m ∧ k_src k' = k_src k ∧
    (∀ c, v_conns V' !! m = Some c → client_on (k_src k) c = Some l) ∧ is_Some (v_conns V' !! m).

Lemma wp_add_ref m l k k' V V1 c c' s u q (Q : Z → sps_state → Prop) :
  INV u V1 → v_cores V1 = v_cores V → v_cores V !! l = Some k → k_state k = SPS_STATE_DISCONNECT →
  k_map k = None → v_conns V1 !! m = Some c → attached l m k k' c c' → full c →
  (u = None ∨ u = Some m) → NoDup q → (∀ m1, m1 ∈ q ↔ is_Some (v_conns V1 !! m1)) →
  vw s = v_with_queue q (v_with_cores (<[l := k']> (v_cores V1)) (v_with_conns (<[m := c']> (v_conns V1)) V1)) →
  (∀ s', allocated l k V (vw s') → Q 0 s') →
  wp (upd_conn m (λ c, with_refs (m_refs c + 1) c) ;; mret 0) Q s.
Proof.
  intros Hinv Hcores Hl Hst Hk Hm Hat Hfull Hu Hnd Hq HV HQ. rewrite <- Hcores in Hl.
  pose proof (INV_attach _ _ _ _ _ _ _ _ _ Hinv Hl Hst Hk Hm Hat Hfull Hu Hnd Hq) as Hinv'.
  apply wp_bind. eapply wp_upd_conn; [exact HV|apply lookup_insert_eq|]. intros s1 HV1. view_norm HV1.
  apply wp_ret, HQ. rewrite HV1. destruct Hat as [_ Hon _ _ _ (b & Hb & Hk')].
  split; [exact Hinv'|]. exists k', m. cbn. rewrite Hcores, lookup_insert_eq. split_and!; try by rewrite Hk'.
  - intros c0 [= <-]. exact Hon.
  - by eexists.
Qed.

(** The parameters of the client, as the allocation completes them; the view stays. *)
Lemma wp_complete_params l p s V (Q : bool → sps_state → Prop) :
  vw s = V → sps_pipes s !! l = Some p → cfg_ok (p_connect p) → maps_ok (v_maps V) = true →
  (∀ ok p' s', vw s' = V → sps_pipes s' !! l = Some p' → cfg_ok (p_connect p') →
     core_of p' = core_of p → Q ok s') →
  wp (if c_config (p_connect p) =? SPS_CONFIG_DEFAULT then mret true
      else '(rc, cfg) ← sps_map_find E (p_connect p);
           put_pipe l (with_connect cfg p) ;; mret (rc =? 0)) Q s.
Proof.
  intros HV Hp Hcfg Hmaps HQ. destruct (_ =? _); [apply wp_ret; by eapply HQ|].
  apply wp_bind. eapply wp_sps_map_find; [done..|]. intros rc cfg (Hmode & _ & _ & _ & _ & Hok).
  apply wp_bind. unfold put_pipe, get_pipe. wp_steps.
  assert (core_of (with_connect cfg p) = core_of p) as Hcore
    by (unfold core_of; cbn; by rewrite Hmode).
  eapply HQ; [|apply lookup_insert_eq|by apply Hok|exact Hcore].
  subst V. view_eq. rewrite fmap_insert, Hcore. apply insert_id. by rewrite lookup_fmap, Hp.
Qed.

(** The connection [m] was found or made for the client, and is in the queue. *)
Definition acquired (l m : positive) (k : core) V (s : sps_state) : Prop :=
  ∃ u V1 c k' c' q, INV u V1 ∧ v_cores V1 = v_cores V ∧ v_conns V1 !! m = Some c ∧
    attached l m k k' c c' ∧ full c ∧ (u = None ∨ u = Some m) ∧ NoDup q ∧
    (∀ m1, m1 ∈ q ↔ is_Some (v_conns V1 !! m1)) ∧
    vw s = v_with_queue q (v_with_cores (<[l := k']> (v_cores V1)) (v_with_conns (<[m := c']> (v_conns V1)) V1)).

Lemma wp_find_or_none l k s V (Q : option positive → sps_state → Prop) :
  vw s = V → INV None V → v_cores V !! l = Some k → Q None s →
  (∀ m s', acquired l m k V s' → Q (Some m) s') →
  wp (r ← find_unconnected l;
      match r with
      | Some m => rc ← sps_rm_assign l m; mret (if rc =? 0 then Some m else None)
      | None => mret None
      end) Q s.
Proof.
  intros HV Hinv Hl Hnone Hsome. apply wp_bind. eapply wp_find_unconnected; [done..|by apply wp_ret|].
  intros m c Hm. apply wp_bind. eapply wp_sps_rm_assign; [done..|by eapply INV_bam_in| |].
  - by apply wp_ret.
  - intros k' c' s1 Hat HV1. apply wp_ret, Hsome. exists None, V, c, k', c', (v_queue V).
    split_and!; [done..|by eapply INV_full_conn|by left|apply Hinv| |].
    + intros m1. rewrite (inv_linked _ _ _ Hinv m1). split; [by intros []|by intros].
    + rewrite HV1. by destruct V.
Qed.

Lemma wp_create_linked l p s V (Q : option positive → sps_state → Prop) :
  vw s = V → INV None V → sps_pipes s !! l = Some p → cfg_ok (p_connect p) →
  (∀ s', undone V (vw s') → Q None s') →
  (∀ m s', acquired l m (core_of p) V s' → Q (Some m) s') →
  wp (r ← sps_rm_create E l;
      match r with
      | Some m => modify (λ s, set_queue (connections_q s ++ [m]) s) ;; mret (Some m)
      | None => mret None
      end) Q s.
Proof.
  intros HV Hinv Hp Hcfg Hnone Hsome. pose proof (cores_lookup _ _ _ _ HV Hp) as Hl.
  apply wp_bind. eapply wp_sps_rm_create; [done..| | |].
  - intros p' Hp'. congruence.
  - intros s1 Hun. by apply wp_ret, Hnone.
  - intros m V1 c1 k' c' s1 Hfresh Hb Hfull Hat HV1. wp_steps. apply Hsome.
    pose proof (bd_queue _ _ _ _ _ Hb) as Hq. pose proof (bd_conns _ _ _ _ _ Hb) as Hc.
    assert (connections_q s1 = v_queue V) as Hq1 by (change (v_queue (vw s1) = v_queue V); by rewrite HV1).
    exists (Some m), V1, c1, k', c', (v_queue V ++ [m]).
    split_and!; [apply Hb|apply Hb|by rewrite Hc, lookup_insert_eq|done|done|by right| | |].
    + apply list.NoDup_app. split_and!; [apply Hinv| |apply NoDup_singleton].
      intros m1 Hm1 ->%list_elem_of_singleton. apply (inv_linked _ _ _ Hinv m) in Hm1 as [[? Hm1] _].
      congruence.
    + intros m1. rewrite elem_of_app, list_elem_of_singleton, (inv_linked _ _ _ Hinv m1), Hc.
      destruct (decide (m1 = m)) as [->|Hne].
      * rewrite lookup_insert_eq. split; [by eexists|by right].
      * rewrite lookup_insert_ne by done. split; [by intros [[? _]|?]|by left].
    + rewrite <- Hq1. unfold set_queue. cbn. unfold vw in HV1 |- *. cbn in *.
      unfold v_with_queue. by rewrite <- HV1.
Qed.

Lemma wp_sps_rm_alloc l p s V (Q : Z → sps_state → Prop) :
  vw s = V → INV None V → sps_pipes s !! l = Some p → p_client_state p = SPS_STATE_DISCONNECT →
  cfg_ok (p_connect p) →
  (∀ s', allocated l (core_of p) V (vw s') → Q 0 s') →
  (∀ s', undone V (vw s') → Q SPS_ERROR s') →
  wp (sps_rm_alloc E l) Q s.
Proof.
  intros HV Hinv Hp Hst Hcfg Hok Hfail. set (k := core_of p) in *.
  pose proof (cores_lookup _ _ _ _ HV Hp) as Hl. fold k in Hl.
  assert (k_map k = None) as Hk.
  { destruct (inv_pipe _ _ _ Hinv l k Hl) as [(_ & ? & _)|[[Hs|Hs] _]]; [done|..];
      cbn in Hs; by rewrite Hst in Hs. }
  assert (∀ s', vw s' = V → Q SPS_ERROR s') as Hsame.
  { intros s' HV'. apply Hfail. rewrite HV'. by split_and!. }
  destruct (effective_connect_facts (p_connect p)) as [Hmode Hcfg'].
  set (p1 := with_connect (effective_connect (p_connect p)) p).
  assert (core_of p1 = k) as Hp1 by (subst p1 k; unfold core_of; cbn; by rewrite Hmode).
  unfold sps_rm_alloc. apply wp_bind. unfold upd_pipe at 1, put_pipe at 1, get_pipe at 1 2. wp_steps.
  set (s1 := set_pipes _ s). assert (vw s1 = V) as HV1.
  { subst V s1. view_eq. rewrite fmap_insert. fold p1. rewrite Hp1. apply insert_id.
    by rewrite lookup_fmap, Hp. }
  assert (sps_pipes s1 !! l = Some p1) as Hl1 by apply lookup_insert_eq.
  unfold get_pipe at 1. wp_steps.
  eapply wp_complete_params; [exact HV1|exact Hl1|by apply Hcfg'|apply Hinv|].
  intros [] p2 s2 HV2 Hl2 Hcfg2 Hc2; [|by apply wp_ret, Hsame]. cbn [negb]. rewrite Hp1 in Hc2.
  unfold get_pipe at 1. wp_steps.
  assert (IS_SPS_STATE_OK p2 = false) as ->.
  { assert (p_client_state p2 = SPS_STATE_DISCONNECT) as Hst2 by (change (k_state (core_of p2) = SPS_STATE_DISCONNECT); rewrite Hc2; exact Hst).
    unfold IS_SPS_STATE_OK. by rewrite Hst2. }
  pose proof (cores_lookup _ _ _ _ HV2 Hl2) as Hlk. rewrite Hc2 in Hlk.
  assert (∀ m s', acquired l m k V s' →
            wp (upd_conn m (λ c, with_refs (m_refs c + 1) c) ;; mret 0) Q s') as Hadd.
  { intros m s' (u & V1 & c & k' & c' & q & Hacq). destr_hyps.
    by eapply (wp_add_ref m l k k' V V1 c c' s' u q). }
  apply wp_assoc, wp_bind. eapply wp_find_or_none; [done..| |].
  - apply wp_bind. eapply wp_create_linked; [done..| |].
    + intros s3 Hun. by apply wp_ret, Hfail.
    + rewrite Hc2. intros m s3 Hacq. by apply Hadd.
  - intros m s3 Hacq. apply wp_bind, wp_ret. by apply Hadd.
Qed.
End AllocRuns.
