(* ===== verification/SpsRuns.v ===== *)
(** * SPS: runs of the state changes of a client

    Runs of the state changes of a client.

    Runs that disconnect a client.

    Runs of the clients' interface. *)

From S2P Require Import Prelude.
From S2P Require Import SpsTypes.
From S2P Require Import SpsMem.
From S2P Require Import SpsDev.
From S2P Require Import SpsBam.
From S2P Require Import SpsRm.
From S2P Require Import Sps.
From S2P Require Import SpsView.
From S2P Require Import SpsInv.
From S2P Require Import SpsLogic.
From S2P Require Import SpsPipeRuns.
From S2P Require Import SpsAllocRuns.

Section StateRuns.
Context (E : sps_env) (pf : platform) `{HE : !SpsEnvOk E pf}.
Implicit Types V : view.
Abbreviation INV := (INV pf).

(** ** The parts of a change that do not apply *)

Lemma core_state p k : core_of p = k → p_client_state p = k_state k.
Proof. by intros <-. Qed.
Lemma core_map p k : core_of p = k → p_map p = k_map k.
Proof. by intros <-. Qed.
Lemma core_bam p k : core_of p = k → p_bam p = k_bam k.
Proof. by intros <-. Qed.
Lemma core_src p k : core_of p = k → (c_mode (p_connect p) =? SPS_MODE_SRC) = k_src k.
Proof. by intros <-. Qed.

Lemma wp_change_alloc_skip l st k V s (Q : bool → sps_state → Prop) :
  vw s = V → v_cores V !! l = Some k →
  (k_state k =? SPS_STATE_DISCONNECT) && (st =? SPS_STATE_ALLOCATE) = false →
  Q true s → wp (change_alloc E l st) Q s.
Proof.
  intros HV Hl Hc HQ. unfold change_alloc. apply wp_bind. eapply wp_get_pipe; [done..|].
  intros p _ Hk. rewrite (core_state _ _ Hk), Hc. by apply wp_ret.
Qed.

Lemma wp_change_connect_skip l st k V s (Q : bool * bool → sps_state → Prop) :
  vw s = V → v_cores V !! l = Some k →
  (k_state k =? SPS_STATE_ALLOCATE) && (st =? SPS_STATE_CONNECT) = false →
  Q (true, false) s → wp (change_connect E l st) Q s.
Proof.
  intros HV Hl Hc HQ. unfold change_connect. apply wp_bind. eapply wp_get_pipe; [done..|].
  intros p _ Hk. rewrite (core_state _ _ Hk), Hc. by apply wp_ret.
Qed.

Lemma wp_change_enable_skip l st auto k V s (Q : bool → sps_state → Prop) :
  vw s = V → v_cores V !! l = Some k →
  (k_state k =? SPS_STATE_CONNECT) &&
    negb ((st =? SPS_STATE_DISABLE) || (st =? SPS_STATE_DISCONNECT)) = false →
  Q true s → wp (change_enable l st auto) Q s.
Proof.
  intros HV Hl Hc HQ. unfold change_enable. apply wp_bind. eapply wp_get_pipe; [done..|].
  intros p _ Hk. rewrite (core_state _ _ Hk), Hc. by apply wp_ret.
Qed.

Lemma wp_change_disable_skip l st k V s (Q : bool → sps_state → Prop) :
  vw s = V → v_cores V !! l = Some k →
  (k_state k =? SPS_STATE_ENABLE) &&
    ((st =? SPS_STATE_DISABLE) || (st =? SPS_STATE_DISCONNECT)) = false →
  Q true s → wp (change_disable l st) Q s.
Proof.
  intros HV Hl Hc HQ. unfold change_disable. apply wp_bind. eapply wp_get_pipe; [done..|].
  intros p _ Hk. rewrite (core_state _ _ Hk), Hc. by apply wp_ret.
Qed.

Lemma wp_change_disconnect_skip l st k V s (Q : bool → sps_state → Prop) :
  vw s = V → v_cores V !! l = Some k →
  (k_state k =? SPS_STATE_CONNECT) && (st =? SPS_STATE_DISCONNECT) = false →
  Q true s → wp (change_disconnect l st) Q s.
Proof.
  intros HV Hl Hc HQ. unfold change_disconnect. apply wp_bind. eapply wp_get_pipe; [done..|].
  intros p _ Hk. rewrite (core_state _ _ Hk), Hc. by apply wp_ret.
Qed.

(** ** Allocating *)

Lemma wp_state_change_alloc l p s V (Q : Z → sps_state → Prop) :
  vw s = V → INV None V → sps_pipes s !! l = Some p → p_client_state p = SPS_STATE_DISCONNECT →
  cfg_ok (p_connect p) →
  (∀ s', allocated pf l (core_of p) V (vw s') → Q 0 s') →
  (∀ s', undone pf V (vw s') → Q SPS_ERROR s') →
  wp (sps_rm_state_change E l SPS_STATE_ALLOCATE) Q s.
Proof.
  intros HV Hinv Hp Hst Hcfg Hok Hfail. unfold sps_rm_state_change. apply wp_bind.
  unfold change_alloc. apply wp_bind. unfold get_pipe at 1. wp_steps. rewrite Hst.
  cbn [Z.eqb andb SPS_STATE_DISCONNECT]. rewrite Z.eqb_refl. cbn [andb].
  apply wp_bind. eapply wp_sps_rm_alloc; [done..| |].
  2: { intros s1 Hun. apply wp_ret. cbn [Z.eqb SPS_ERROR negb]. by apply wp_ret, Hfail. }
  intros s1 Hal. apply wp_ret. cbn [Z.eqb negb].
  pose proof Hal as (Hinv1 & k' & m & Hcores & Hk' & _).
  assert (v_cores (vw s1) !! l = Some k') as Hl by (rewrite Hcores; apply lookup_insert_eq).
  apply wp_bind. eapply wp_change_connect_skip; [done..|by rewrite andb_comm|]. cbn [negb].
  apply wp_bind. eapply wp_change_enable_skip; [done..|by rewrite Hk'|]. cbn [negb].
  apply wp_bind. eapply wp_change_disable_skip; [done..|by rewrite Hk'|]. cbn [negb].
  apply wp_bind. eapply wp_change_disconnect_skip; [done..|by rewrite Hk'|].
  apply wp_ret. by apply Hok.
Qed.

(** ** Connecting *)

(** What the invariant says of a client that is attached. *)
Lemma INV_attached V l k :
  INV None V → v_cores V !! l = Some k → k_state k ≠ SPS_STATE_DISCONNECT →
  ∃ m c sd b x, k_map k = Some m ∧ v_conns V !! m = Some c ∧ client_on sd c = Some l ∧
    k_bam k = Some b ∧ ep_bam (end_of sd c) = Some b ∧
    key sd c = Some (b, ep_pipe_index (end_of sd c)) ∧ v_slots V !! b = Some x ∧
    0 ≤ ep_pipe_index (end_of sd c) < x.2 ∧
    slot V b (ep_pipe_index (end_of sd c)) =
      Some (if is_connected (k_state k) then SlotPipe l else SlotUnassigned) ∧
    (is_connected (k_state k) = true → sd = k_src k ∧ k_idx k = ep_pipe_index (end_of sd c)).
Proof.
  intros Hinv Hl Hst. destruct (inv_pipe _ _ _ Hinv l k Hl) as [(? & _)|Hat]; [done|].
  destruct Hat as (_ & m & c & sd & b & Hm & Hc & Hcl & Hb & Heb & Hcon).
  destruct (client_key _ _ _ _ _ _ _ _ Hinv Hc Hcl Heb) as [Hkey _].
  destruct (inv_key _ _ _ Hinv m c sd _ _ Hc Hkey) as [Hslot (x & Hx & Hi)].
  exists m, c, sd, b, x. split_and!; try done; try lia.
  rewrite Hslot, Hcl. unfold slot_for. by rewrite Hl.
Qed.

(** More pipes of a BAM keep the invariant. *)
Lemma INV_grow u V b x n :
  INV u V → v_slots V !! b = Some x → x.2 ≤ n ≤ pf_pipes pf b → INV u (v_grow b x n V).
Proof.
  intros Hinv Hb Hn.
  assert (∀ b1 i, slot (v_grow b x n V) b1 i = slot V b1 i) as Hslot.
  { intros b' i. rewrite !slot_slot_in. unfold slot_in, v_grow, v_with_slots. cbn.
    destruct (decide (b' = b)) as [->|Hne]; [by rewrite lookup_insert_eq, Hb|].
    by rewrite lookup_insert_ne. }
  split; cbn; try apply Hinv.
  - intros b' y. destruct (decide (b' = b)) as [->|Hne].
    + rewrite lookup_insert_eq. intros [= <-]. destruct (inv_bams _ _ _ Hinv b x Hb) as (? & ? & ? & ?).
      cbn. split_and!; try done; lia.
    + rewrite lookup_insert_ne by done. apply (inv_bams _ _ _ Hinv).
  - intros m c sd b' i Hm Hk. rewrite Hslot.
    destruct (inv_key _ _ _ Hinv m c sd b' i Hm Hk) as [Hs (y & Hy & Hi)]. split; [exact Hs|].
    destruct (decide (b' = b)) as [->|Hne].
    + exists (x.1, n). rewrite lookup_insert_eq. assert (y = x) as -> by congruence. cbn. split; [done|lia].
    + exists y. by rewrite lookup_insert_ne.
  - intros b' i y. rewrite Hslot. apply (inv_owned _ _ _ Hinv).
Qed.

(** The client's fields after connecting. *)
Definition core_st (st : Z) (k : core) : core := mkCore st (k_map k) (k_bam k) (k_src k) (k_idx k).

(** The outcomes of connecting an allocated client: the state, the connection and the pipe. *)
Definition connected (l : positive) (k : core) V V' : Prop :=
  INV None V' ∧ v_conns V' = v_conns V ∧ v_queue V' = v_queue V ∧
  ∃ k', v_cores V' = <[l := k']> (v_cores V) ∧ is_connected (k_state k') = true ∧
    k_map k' = k_map k ∧ k_bam k' = k_bam k ∧ k_src k' = k_src k.
Definition connect_failed (l : positive) (k : core) V V' : Prop :=
  INV None V' ∧ v_conns V' = v_conns V ∧ v_queue V' = v_queue V ∧
  ∃ idx, v_cores V' = <[l := core_idx idx k]> (v_cores V).

Lemma connect_failed_inv l k b x V V' :
  INV None V → v_cores V !! l = Some k → k_state k = SPS_STATE_ALLOCATE → v_slots V !! b = Some x →
  not_connected pf l k b x V V' → connect_failed l k V V'.
Proof.
  intros Hinv Hl Hst Hb (n & idx & Hn & ->). pose proof (INV_grow _ _ _ _ _ Hinv Hb Hn) as Hg.
  split_and!; try done; [|by exists idx].
  apply (INV_core pf None (v_grow b x n V) l k (core_idx idx k)); try done.
  destruct (inv_pipe _ _ _ Hg l k Hl) as [(Hd & _)|(Hs & m & c & sd & b' & Hm & Hc & Hcl & Hb' & Heb & _)].
  - by rewrite Hst in Hd.
  - right. split; [exact Hs|]. exists m, c, sd, b'. split_and!; try done. cbn. by rewrite Hst.
Qed.

Lemma connected_inv l k m c b x V V' st :
  let sd := k_src k in
  INV None V → v_cores V !! l = Some k → k_state k = SPS_STATE_ALLOCATE → is_connected st = true →
  k_map k = Some m → v_conns V !! m = Some c → client_on sd c = Some l → k_bam k = Some b →
  ep_bam (end_of sd c) = Some b → key sd c = Some (b, ep_pipe_index (end_of sd c)) →
  v_slots V !! b = Some x →
  connected_to pf l k b (ep_pipe_index (end_of sd c)) x V V' →
  connected l k V (v_with_cores (<[l := core_st st (core_idx (ep_pipe_index (end_of sd c)) k)]> (v_cores V')) V').
Proof.
  intros sd Hinv Hl Hst Hcon Hm Hc Hcl Hkb Heb Hkey Hb (n & Hn & ->).
  pose proof (INV_grow _ _ _ _ _ Hinv Hb Hn) as Hg. set (i := ep_pipe_index (end_of sd c)) in *.
  set (k1 := core_st st (core_idx i k)).
  assert (INV None (v_with_slots (set_slot b i (SlotPipe l) (v_slots (v_grow b x n V)))
            (v_with_cores (<[l := k1]> (v_cores V)) (v_grow b x n V)))) as Hfin.
  { pose proof (INV_flip pf None (v_grow b x n V) l k k1 m c sd b i Hg Hl eq_refl Hm Hc Hcl Hkey) as Hf.
    cbn [k_state k1 core_st] in Hf. rewrite Hcon in Hf. apply Hf.
    right. split; [by right|]. exists m, c, sd, b. by split_and!. }
  assert (v_with_cores (<[l := k1]> (<[l := core_idx i k]> (v_cores V)))
            (v_with_slots (set_slot b i (SlotPipe l) (v_slots (v_grow b x n V)))
               (v_with_cores (<[l := core_idx i k]> (v_cores V)) (v_grow b x n V))) =
          v_with_slots (set_slot b i (SlotPipe l) (v_slots (v_grow b x n V)))
            (v_with_cores (<[l := k1]> (v_cores V)) (v_grow b x n V))) as Heq.
  { unfold v_with_slots, v_with_cores. cbn. by rewrite insert_insert_eq. }
  unfold connected. cbn [v_cores v_with_slots v_with_cores] in *. rewrite Heq.
  split_and!; try done. exists k1. by rewrite insert_insert_eq.
Qed.

(** Changing between connected and enabled. *)
Lemma INV_restate V l k st :
  INV None V → v_cores V !! l = Some k → is_connected (k_state k) = true → is_connected st = true →
  INV None (v_with_cores (<[l := core_st st k]> (v_cores V)) V).
Proof.
  intros Hinv Hl Hk Hst. apply (INV_core pf None V l k); try done; [by cbn; rewrite Hk|].
  destruct (inv_pipe _ _ _ Hinv l k Hl) as [(Hd & _)|(_ & m & c & sd & b & Hm & Hc & Hcl & Hb & Heb & Hcon)].
  - by rewrite Hd in Hk.
  - right. split; [by right|]. exists m, c, sd, b. split_and!; try done. intros _. by apply Hcon.
Qed.

Lemma connected_restate l k V V' k' st :
  connected l k V V' → v_cores V' !! l = Some k' → is_connected st = true →
  connected l k V (v_with_cores (<[l := core_st st k']> (v_cores V')) V').
Proof.
  intros (Hinv & Hc & Hq & k1 & Hcores & Hcon & Hm & Hb & Hs) Hl Hst.
  rewrite Hcores, lookup_insert_eq in Hl. injection Hl as <-.
  split_and!; try done.
  - apply (INV_restate V' l k1); try done. by rewrite Hcores, lookup_insert_eq.
  - exists (core_st st k1). cbn. rewrite Hcores, insert_insert_eq. done.
Qed.

Lemma wp_change_connect l p k s V (Q : bool * bool → sps_state → Prop) :
  vw s = V → INV None V → sps_pipes s !! l = Some p → core_of p = k →
  k_state k = SPS_STATE_ALLOCATE →
  (∀ m c, k_map k = Some m → v_conns V !! m = Some c → client_on (k_src k) c = Some l) →
  (∀ auto s' k', connected l k V (vw s') → v_cores (vw s') !! l = Some k' →
     k_state k' = SPS_STATE_CONNECT → Q (true, auto) s') →
  (∀ s', connect_failed l k V (vw s') → Q (false, false) s') →
  wp (change_connect E l SPS_STATE_CONNECT) Q s.
Proof.
  intros HV Hinv Hp Hpk Hst Hside Hok Hfail.
  pose proof (cores_lookup _ _ _ _ HV Hp) as Hl. rewrite Hpk in Hl.
  destruct (INV_attached V l k Hinv Hl) as
    (m & c & sd & b & x & Hm & Hc & Hcl & Hkb & Heb & Hkey & Hb & Hi & Hslot & _); [by rewrite Hst|].
  pose proof (client_one_side pf None V m c sd (k_src k) l Hinv Hc Hcl (Hside m c Hm Hc)) as ->.
  rewrite Hst in Hslot. cbn in Hslot.
  assert ((pa_mode (connect_params (p_connect p)) =? SPS_MODE_SRC) = k_src k) as Hmode.
  { unfold connect_params. rewrite <- (core_src p k Hpk). by destruct (c_options _ =? _). }
  unfold change_connect. apply wp_bind. unfold get_pipe at 1. wp_steps.
  rewrite (core_state _ _ Hpk), Hst. change (SPS_STATE_ALLOCATE =? SPS_STATE_ALLOCATE) with true.
  change (SPS_STATE_CONNECT =? SPS_STATE_CONNECT) with true. cbn [andb].
  apply wp_bind. eapply (wp_sps_bam_pipe_connect E pf l _ m c b x k s V); rewrite ?Hmode; try done.
  - by eapply INV_bam_fine.
  - intros pb Hpb. by apply (INV_bam_in pf V m c (negb (k_src k)) Hinv Hc).
  - intros s1 Hcon. cbn [Z.eqb negb].
    pose proof (connected_inv l k m c b x V (vw s1) SPS_STATE_CONNECT Hinv Hl Hst eq_refl Hm Hc Hcl Hkb Heb Hkey Hb Hcon) as Hdone.
    set (k1 := core_st SPS_STATE_CONNECT _) in Hdone.
    assert (v_cores (vw s1) !! l = Some (core_idx (ep_pipe_index (end_of (k_src k) c)) k)) as Hl1.
    { destruct Hcon as (n & _ & ->). apply lookup_insert_eq. }
    apply wp_bind. eapply (wp_upd_pipe _ _ _ _ _ k1); [done|exact Hl1|intros p0 Hp0;
      change (core_st SPS_STATE_CONNECT (core_of p0) = k1); by rewrite Hp0|].
    intros s2 HV2. rewrite <- HV2 in Hdone.
    assert (v_cores (vw s2) !! l = Some k1) as Hl2 by (rewrite HV2; apply lookup_insert_eq).
    apply wp_bind. eapply (wp_get_pipe s2 (vw s2) l k1); [done..|]. intros p2 _ Hp2.
    destruct (_ || _); [|by apply wp_ret; eapply Hok].
    apply wp_bind. eapply wp_deref; [rewrite (core_map _ _ Hp2); exact Hm|].
    apply wp_bind. eapply (wp_get_conn s2 (vw s2)); [done| |].
    { destruct Hdone as (_ & -> & _). exact Hc. }
    apply wp_ret. by eapply Hok.
  - intros s1 Hno. cbn [Z.eqb negb SPS_ERROR]. apply wp_ret, Hfail. by eapply connect_failed_inv.
Qed.

Lemma wp_change_enable l auto k k' V s (Q : bool → sps_state → Prop) :
  connected l k V (vw s) → v_cores (vw s) !! l = Some k' → k_state k' = SPS_STATE_CONNECT →
  (∀ s', connected l k V (vw s') → Q true s') →
  wp (change_enable l SPS_STATE_CONNECT auto) Q s.
Proof.
  intros Hcon Hl Hst HQ. unfold change_enable. apply wp_bind. eapply wp_get_pipe; [done..|].
  intros p _ Hp. destruct (_ && _); [|by apply wp_ret, HQ].
  pose proof Hcon as (Hinv & _).
  destruct (INV_attached _ l k' Hinv Hl) as
    (m & c & sd & b & x & Hm & Hc & Hcl & Hkb & Heb & Hkey & Hb & Hi & Hslot & Hidx); [by rewrite Hst|].
  rewrite Hst in Hslot, Hidx. destruct (Hidx eq_refl) as [_ Hidx'].
  apply wp_bind. eapply wp_deref; [rewrite (core_bam _ _ Hp); exact Hkb|].
  change (p_pipe_index p) with (k_idx (core_of p)). rewrite Hp, Hidx'.
  apply wp_bind. eapply wp_mono; [by apply (wp_sps_bam_pipe_enable _ _ l k' s (vw s))|].
  intros rc s1 [-> HV1].
  cbn [Z.eqb negb]. rewrite <- HV1 in Hcon, Hl.
  apply wp_bind.
  eapply (wp_upd_pipe s1 (vw s1) _ _ k' (core_st SPS_STATE_ENABLE k')); [done|exact Hl| |].
  { by intros p0 <-. }
  intros s2 HV2. apply wp_ret, HQ. rewrite HV2. by apply connected_restate.
Qed.

Lemma wp_state_change_connect l p k s V (Q : Z → sps_state → Prop) :
  vw s = V → INV None V → sps_pipes s !! l = Some p → core_of p = k →
  k_state k = SPS_STATE_ALLOCATE →
  (∀ m c, k_map k = Some m → v_conns V !! m = Some c → client_on (k_src k) c = Some l) →
  (∀ s', connected l k V (vw s') → Q 0 s') →
  (∀ s', connect_failed l k V (vw s') → Q SPS_ERROR s') →
  wp (sps_rm_state_change E l SPS_STATE_CONNECT) Q s.
Proof.
  intros HV Hinv Hp Hpk Hst Hside Hok Hfail.
  pose proof (cores_lookup _ _ _ _ HV Hp) as Hl. rewrite Hpk in Hl.
  unfold sps_rm_state_change. apply wp_bind. eapply wp_change_alloc_skip; [done..|by rewrite Hst|].
  cbn [negb]. apply wp_bind. eapply wp_change_connect; [done..| |].
  2: { intros s1 Hf. cbn [negb]. by apply wp_ret, Hfail. }
  intros auto s1 k1 Hcon Hl1 Hst1. cbn [negb]. apply wp_bind. eapply wp_change_enable; [done..|].
  intros s2 Hcon2. cbn [negb]. pose proof Hcon2 as (_ & _ & _ & k2 & Hcores & _ & _).
  assert (v_cores (vw s2) !! l = Some k2) as Hl2 by (rewrite Hcores; apply lookup_insert_eq).
  apply wp_bind. eapply wp_change_disable_skip; [done..|by rewrite andb_comm|]. cbn [negb].
  apply wp_bind. eapply wp_change_disconnect_skip; [done..|by rewrite andb_comm|].
  by apply wp_ret, Hok.
Qed.
End StateRuns.

(** * SPS: runs that disconnect a client *)

Section FreeRuns.
Context (E : sps_env) (pf : platform) `{HE : !SpsEnvOk E pf}.
Implicit Types V : view.
Abbreviation INV := (INV pf).

(** ** The view when a client has left its connection *)

Definition left_conn (sd : bool) (c : sps_connection) : sps_connection :=
  with_refs (m_refs c - 1) (with_client sd None c).

Definition idle_core (k : core) : core :=
  mkCore SPS_STATE_DISCONNECT None None (k_src k) SPS_BAM_PIPE_INVALID.

Definition detached (l m : positive) (k : core) (c : sps_connection) (b : Z) (q : list positive) V :
    view :=
  let sd := k_src k in
  v_with_queue q (v_with_cores (<[l := idle_core k]> (v_cores V))
    (v_with_conns (<[m := left_conn sd c]> (v_conns V))
       (v_with_slots (set_slot b (ep_pipe_index (end_of sd c)) SlotUnassigned (v_slots V)) V))).

Lemma left_conn_ends sd c : same_ends c (left_conn sd c).
Proof. split; [by intros []..|done]. Qed.

(** [u] says whether the connection leaves the queue. *)
Lemma INV_detach u V l m k c b q :
  let sd := k_src k in
  INV None V → v_cores V !! l = Some k → is_connected (k_state k) = true → k_map k = Some m →
  v_conns V !! m = Some c → client_on sd c = Some l → k_bam k = Some b →
  ep_bam (end_of sd c) = Some b → key sd c = Some (b, ep_pipe_index (end_of sd c)) →
  (u = None ∧ client_on (negb sd) c ≠ None ∨ u = Some m ∧ client_on (negb sd) c = None) →
  NoDup q → (∀ m1, m1 ∈ q ↔ is_Some (v_conns V !! m1) ∧ u ≠ Some m1) →
  INV u (detached l m k c b q V).
Proof.
  intros sd Hinv Hl Hcon Hm Hc Hcl Hkb Heb Hkey Hu Hnd Hq.
  set (k1 := mkCore SPS_STATE_ALLOCATE (Some m) (Some b) (k_src k) SPS_BAM_PIPE_INVALID).
  assert (pipe_ok V l k1) as Hok1.
  { right. split; [by left|]. exists m, c, sd, b. by split_and!. }
  pose proof (INV_flip pf None V l k k1 m c sd b _ Hinv Hl (eq_sym Hm) Hm Hc Hcl Hkey Hok1) as Hf.
  cbn [k1 k_state is_connected] in Hf. cbn in Hf. fold k1 in Hf.
  set (V1 := v_with_slots _ _) in Hf.
  destruct (inv_refs _ _ _ Hinv m c ltac:(done) Hc) as [Hrefs _].
  rewrite (client_count_on sd), Hcl in Hrefs. cbn in Hrefs.
  assert (v_cores V1 !! l = Some k1) as Hl1 by apply lookup_insert_eq.
  assert (client_on (negb sd) c ≠ Some l) as Hother.
  { intros H2. pose proof (client_one_side pf None V m c sd (negb sd) l Hinv Hc Hcl H2). by destruct sd. }
  pose proof (INV_client_change pf None u q V1 m c (left_conn sd c) sd l k1 (idle_core k)) as Hch.
  assert (detached l m k c b q V =
          v_with_queue q (v_with_cores (<[l := idle_core k]> (v_cores V1))
            (v_with_conns (<[m := left_conn sd c]> (v_conns V1)) V1))) as ->.
  { unfold detached, v_with_queue, v_with_cores, v_with_conns, v_with_slots. cbn. by rewrite insert_insert_eq. }
  apply Hch; clear Hch; [done|done|done|apply left_conn_ends|by left| |done|done|by destruct sd|done
    |by right|left; by destruct sd| | |left; by split_and!|done|done| |].
  - destruct Hu as [[-> _]|[-> _]]; [by left|by right].
  - intros m1 c1 sd1 H1 H2. change (v_conns V !! m1 = Some c1) in H1.
    destruct (inv_client _ _ _ Hinv m1 c1 sd1 l H1 H2) as (k0 & Hk0 & Hm0).
    assert (m1 = m) as -> by congruence. split; [done|]. assert (c1 = c) as -> by congruence.
    exact (client_one_side pf None V m c sd1 sd l Hinv Hc H2 Hcl).
  - by destruct sd.
  - intros ->. destruct Hu as [[_ Hu]|[? _]]; [|done].
    assert (client_count (left_conn sd c) = m_refs c - 1) as Hcc.
    { rewrite (client_count_on sd). rewrite Hrefs. destruct sd; cbn; lia. }
    rewrite Hcc. cbn. split_and!; [done| |].
    + rewrite Hrefs. destruct (client_on (negb sd) c); [by cbn|done].
    + intros sd1. by apply (inv_full _ _ _ Hinv m c sd1).
  - intros ->. destruct Hu as [[? _]|[_ Hu]]; [done|]. rewrite Hu in Hrefs. cbn in Hrefs.
    split_and!; [by destruct sd|by destruct sd|]. cbn. lia.
Qed.

(** ** Freeing *)

(** The last reference frees the connection, with its pipes and memory. *)
Lemma wp_drop_last m c s V (Q : () → sps_state → Prop) :
  vw s = V → v_conns V !! m = Some c → m_client_src c = None → m_client_dest c = None →
  m_refs c = 1 → clearable c V → v_bal V = u32 (v_bal V) →
  (∀ s', vw s' = v_with_queue (filter (λ x, x ≠ m) (v_queue V)) (freed m c V) → Q () s') →
  wp (sps_rm_free_map_rsrc m ;; sps_rm_remove_ref m) Q s.
Proof.
  intros HV Hm Hs Hd Hr Hclear Hbal HQ.
  apply wp_bind. eapply (wp_sps_rm_free_map_rsrc m c s V); try done.
  - intros c2 s1 _ _ Hr2 HV1. unfold sps_rm_remove_ref.
    apply wp_bind. eapply wp_upd_conn; [exact HV1|apply lookup_insert_eq|]. intros s2 HV2. view_norm HV2.
    apply wp_bind. eapply wp_get_conn; [exact HV2|apply lookup_insert_eq|]. cbn [m_refs with_refs].
    apply wp_when; [intros _|rewrite Hr2; intros ?%Z.leb_gt; lia].
    wp_steps. eapply (wp_kfree_conn m _ (v_with_queue (filter (λ x, x ≠ m) (v_queue V)) (vw s2)));
      [|rewrite HV2; apply lookup_insert_eq|].
    + assert (connections_q s2 = v_queue V) as ->; [|done].
      change (v_queue (vw s2) = v_queue V). by rewrite HV2.
    + intros s3 HV3. apply HQ. rewrite HV3, HV2. unfold freed, v_with_queue, v_with_conns, v_with_bal, v_with_slots.
      cbn [v_cores v_conns v_slots v_queue v_phys v_virt v_bal v_next v_devs v_maps].
      by rewrite delete_insert_eq.
Qed.

(** Another client keeps it. *)
Lemma wp_drop_some m c s V (Q : () → sps_state → Prop) :
  vw s = V → v_conns V !! m = Some c → (m_client_src c ≠ None ∨ m_client_dest c ≠ None) →
  1 < m_refs c →
  (∀ s', vw s' = v_with_conns (<[m := with_refs (m_refs c - 1) c]> (v_conns V)) V → Q () s') →
  wp (sps_rm_free_map_rsrc m ;; sps_rm_remove_ref m) Q s.
Proof.
  intros HV Hm Hcl Hr HQ. apply wp_bind. unfold sps_rm_free_map_rsrc.
  apply wp_bind. eapply wp_get_conn; [done..|].
  assert (negb (is_null (m_client_src c)) || negb (is_null (m_client_dest c)) = true) as ->.
  { destruct (m_client_src c), (m_client_dest c); try done. by destruct Hcl. }
  apply wp_ret. unfold sps_rm_remove_ref. apply wp_bind. eapply wp_upd_conn; [done..|]. intros s1 HV1.
  apply wp_bind. eapply wp_get_conn; [exact HV1|apply lookup_insert_eq|].
  apply wp_when; [cbn; intros ?%Z.leb_le; lia|]. intros _. by apply HQ.
Qed.

(** ** The release of a client *)

(** Field by field. *)
Lemma freed_flat m c V :
  freed m c V = mkView (v_cores V) (delete m (v_conns V)) (cleared c (v_slots V)) (v_queue V)
                  (v_phys V) (v_virt V) (u32 (v_bal V - fifo_mem c)) (v_next V) (v_devs V) (v_maps V).
Proof. done. Qed.
Lemma detached_flat l m k c b q V :
  detached l m k c b q V =
  mkView (<[l := idle_core k]> (v_cores V)) (<[m := left_conn (k_src k) c]> (v_conns V))
    (set_slot b (ep_pipe_index (end_of (k_src k) c)) SlotUnassigned (v_slots V)) q
    (v_phys V) (v_virt V) (v_bal V) (v_next V) (v_devs V) (v_maps V).
Proof. done. Qed.

(** What a connection owns does not depend on its clients. *)
Lemma freed_left m sd c V : freed m (left_conn sd c) V = freed m (with_client sd None c) V.
Proof. done. Qed.

Lemma wp_sps_rm_free l m c k s V (Q : Z → sps_state → Prop) :
  let c1 := with_client (k_src k) None c in
  let k1 := mkCore SPS_STATE_DISCONNECT None (k_bam k) (k_src k) (k_idx k) in
  let V1 := v_with_cores (<[l := k1]> (v_cores V)) (v_with_conns (<[m := c1]> (v_conns V)) V) in
  vw s = V → v_cores V !! l = Some k → k_map k = Some m → v_conns V !! m = Some c →
  (∀ s1, vw s1 = V1 →
     wp (sps_rm_free_map_rsrc m ;; sps_rm_remove_ref m) (λ _ s', Q 0 s') s1) →
  wp (sps_rm_free l) Q s.
Proof.
  intros c1 k1 V1 HV Hl Hm Hc HQ. unfold sps_rm_free.
  apply wp_bind. eapply wp_get_pipe; [done..|]. intros p _ Hp.
  apply wp_bind. eapply wp_deref; [by rewrite (core_map _ _ Hp)|]. rewrite (core_src _ _ Hp).
  apply wp_bind. eapply wp_upd_conn; [done..|]. intros s1 HV1.
  apply wp_bind. eapply (wp_upd_pipe s1 _ l _ k k1); [exact HV1|exact Hl|by intros p0 <-|].
  intros s2 HV2. apply wp_assoc, wp_bind. eapply wp_mono; [by apply HQ|].
  intros [] s3 HQ3. by apply wp_ret.
Qed.

(** The client has left; the connection stays for the other client, or is gone. *)
Definition disconnected (l : positive) (k : core) V V' : Prop :=
  INV None V' ∧ v_cores V' = <[l := idle_core k]> (v_cores V) ∧
  ∃ m c, k_map k = Some m ∧ v_conns V !! m = Some c ∧
    v_conns V' = match client_on (negb (k_src k)) c with
                 | Some _ => <[m := left_conn (k_src k) c]> (v_conns V)
                 | None => delete m (v_conns V)
                 end.

(** The clients are cleared a first time by the state change itself. *)
Lemma wp_clear_client (sd dest : bool) m c V s (Q : () → sps_state → Prop) :
  vw s = V → v_conns V !! m = Some c →
  (∀ c1 s', with_client sd None c1 = with_client sd None c →
     vw s' = v_with_conns (<[m := c1]> (v_conns V)) V → Q () s') →
  wp (if sd then upd_conn m (with_client true None)
      else if dest then upd_conn m (with_client false None) else mret ()) Q s.
Proof.
  intros HV Hm HQ. destruct sd; [|destruct dest].
  - eapply wp_upd_conn; [done..|]. intros s1 HV1. by apply (HQ (with_client true None c)).
  - eapply wp_upd_conn; [done..|]. intros s1 HV1. by apply (HQ (with_client false None c)).
  - apply wp_ret, (HQ c); [done|]. rewrite insert_id by done. by destruct V.
Qed.

Lemma core_idle k b p :
  core_of p = mkCore SPS_STATE_DISCONNECT None b (k_src k) SPS_BAM_PIPE_INVALID →
  core_of (with_client_state SPS_STATE_DISCONNECT (with_bam None (with_map None p))) = idle_core k.
Proof. unfold core_of, idle_core. cbn. intros [= H1 H2 H3 H4 H5]. congruence. Qed.

(** From the client's release to its idle fields. *)
Lemma wp_release l m c c1 k b V V1 s (Q : bool → sps_state → Prop) :
  let sd := k_src k in
  INV None V → v_cores V !! l = Some k → is_connected (k_state k) = true → k_map k = Some m →
  v_conns V !! m = Some c → client_on sd c = Some l → k_bam k = Some b →
  ep_bam (end_of sd c) = Some b → key sd c = Some (b, ep_pipe_index (end_of sd c)) →
  with_client sd None c1 = with_client sd None c →
  V1 = v_with_conns (<[m := c1]> (v_conns V))
         (v_with_slots (set_slot b (ep_pipe_index (end_of sd c)) SlotUnassigned (v_slots V))
            (v_with_cores (<[l := core_idx SPS_BAM_PIPE_INVALID k]> (v_cores V)) V)) →
  vw s = V1 → (∀ s', disconnected l k V (vw s') → Q true s') →
  wp (sps_rm_free l ;;
      upd_pipe l (λ p, with_client_state SPS_STATE_DISCONNECT (with_bam None (with_map None p))) ;;
      mret true) Q s.
Proof.
  intros sd Hinv Hl Hcon Hm Hc Hcl Hkb Heb Hkey Hc1 HV1 HV HQ.
  set (c2 := with_client sd None c) in *.
  set (k1 := mkCore SPS_STATE_DISCONNECT None (k_bam k) (k_src k) SPS_BAM_PIPE_INVALID).
  set (S1 := set_slot b (ep_pipe_index (end_of sd c)) SlotUnassigned (v_slots V)) in *.
  set (V2 := v_with_cores (<[l := k1]> (v_cores V)) (v_with_conns (<[m := c2]> (v_conns V)) (v_with_slots S1 V))).
  apply wp_bind. eapply (wp_sps_rm_free l m c1 (core_idx SPS_BAM_PIPE_INVALID k) s V1);
    [done|by subst V1; apply lookup_insert_eq|done|by subst V1; apply lookup_insert_eq|].
  change (k_src (core_idx SPS_BAM_PIPE_INVALID k)) with sd. rewrite Hc1. intros s1 HVs.
  assert (vw s1 = V2) as HV2.
  { rewrite HVs. subst V1. unfold V2, v_with_cores, v_with_conns, v_with_slots. cbn.
    by rewrite !insert_insert_eq. }
  clear HVs. assert (v_conns V2 !! m = Some c2) as Hm2 by apply lookup_insert_eq.
  destruct (inv_refs _ _ _ Hinv m c ltac:(done) Hc) as [Hrefs _].
  rewrite (client_count_on sd), Hcl in Hrefs. cbn in Hrefs.
  assert (NoDup (v_queue V)) as Hnd by apply Hinv.
  destruct (client_on (negb sd) c) as [l2|] eqn:Ho; cbn in Hrefs.
  - eapply (wp_drop_some m c2 s1 V2); [done|done| |cbn; lia|].
    { unfold c2. destruct sd; cbn in *; [right|left]; congruence. }
    intros s2 HV3. apply wp_bind.
    eapply (wp_upd_pipe s2 _ l _ k1 (idle_core k)); [exact HV3|apply lookup_insert_eq|apply core_idle|].
    intros s3 HV4. apply wp_ret, HQ.
    assert (vw s3 = detached l m k c b (v_queue V) V) as ->.
    { rewrite HV4. unfold detached, V2, v_with_queue, v_with_cores, v_with_conns, v_with_slots. cbn.
      by rewrite !insert_insert_eq. }
    split_and!; [|done|].
    + apply INV_detach; try done; [left; fold sd; by rewrite Ho|].
      intros m1. rewrite (inv_linked _ _ _ Hinv m1). split; intros []; by split.
    + exists m, c. split_and!; [done..|]. fold sd. by rewrite Ho.
  - set (q := filter (λ x, x ≠ m) (v_queue V)).
    assert (INV (Some m) (detached l m k c b q V)) as Hdet.
    { apply INV_detach; try done; [by right|by apply list.NoDup_filter|].
      intros m1. unfold q. rewrite list_elem_of_filter, (inv_linked _ _ _ Hinv m1).
      split; [intros (? & ? & _); split; [done|congruence]|intros [? Hne]; split_and!; [congruence|done|done]]. }
    assert (v_conns (detached l m k c b q V) !! m = Some (left_conn sd c)) as Hmd by apply lookup_insert_eq.
    eapply (wp_drop_last m c2 s1 V2); [done|done| | |cbn; lia| | |].
    { unfold c2. by destruct sd; cbn in *. } { unfold c2. by destruct sd; cbn in *. }
    + exact (INV_clearable pf m _ _ Hdet Hmd).
    + exact (INV_bal pf _ _ Hdet).
    + intros s2 HV3. apply wp_bind.
      eapply (wp_upd_pipe s2 _ l _ k1 (idle_core k)); [exact HV3|apply lookup_insert_eq|apply core_idle|].
      intros s3 HV4. apply wp_ret, HQ.
      assert (vw s3 = freed m (left_conn sd c) (detached l m k c b q V)) as ->.
      { rewrite HV4, freed_left, !freed_flat, detached_flat. unfold V2. view_norm_goal.
        by rewrite !delete_insert_eq. }
      split_and!; [by apply INV_freed|done|].
      exists m, c. split_and!; [done..|]. fold sd. rewrite Ho. apply delete_insert_eq.
Qed.

Lemma wp_change_disconnect l k V s (Q : bool → sps_state → Prop) :
  vw s = V → INV None V → v_cores V !! l = Some k → k_state k = SPS_STATE_CONNECT →
  client_cache_fits s l → (∀ s', disconnected l k V (vw s') → Q true s') →
  wp (change_disconnect l SPS_STATE_DISCONNECT) Q s.
Proof.
  intros HV Hinv Hl Hst Hfits HQ.
  assert (is_connected (k_state k) = true) as Hcon by (by rewrite Hst).
  destruct (INV_attached pf V l k Hinv Hl) as
    (m & c & sd & b & x & Hm & Hc & Hcl & Hkb & Heb & Hkey & Hb & Hi & Hslot & Hidx); [by rewrite Hst|].
  destruct (Hidx Hcon) as [-> _]. rewrite Hcon in Hslot.
  unfold change_disconnect. apply wp_bind. eapply wp_get_pipe; [done..|]. intros p _ Hp.
  rewrite (core_state _ _ Hp), Hst, !Z.eqb_refl. cbn [andb].
  apply wp_bind. eapply wp_deref; [by rewrite (core_bam _ _ Hp)|].
  apply wp_bind. eapply wp_deref; [by rewrite (core_map _ _ Hp)|].
  apply wp_bind. eapply wp_get_conn; [done..|]. rewrite (core_src _ _ Hp).
  apply wp_bind. eapply wp_get_bam; [done..|]. intros d _ _ _.
  apply wp_bind. eapply (wp_mono _ (λ _ s', vw s' = V ∧ caches s' = caches s)).
  { apply wp_cached; [by apply cached_upd_pipe|]. by eapply wp_upd_pipe_same. }
  intros _ s1 [HV1 Hc1].
  assert (client_cache_fits s1 l) as Hfits1 by (by eapply client_cache_same).
  apply wp_bind. eapply wp_sps_bam_pipe_disconnect; [done|by eapply INV_bam_fine|done|lia|done..|].
  intros s2 HV2. cbn [Z.eqb negb].
  apply wp_bind. eapply (wp_get_pipe s2 _ l (core_idx SPS_BAM_PIPE_INVALID k)); [exact HV2|apply lookup_insert_eq|].
  intros p2 _ Hp2. apply wp_bind. eapply wp_deref; [by rewrite (core_map _ _ Hp2)|].
  apply wp_bind. eapply wp_clear_client; [exact HV2|exact Hc|].
  intros c1 s3 Hca1 HV3. eapply (wp_release l m c c1 k b V _ s3); try done.
Qed.

Lemma wp_change_disable l k V s (Q : bool → sps_state → Prop) :
  vw s = V → INV None V → v_cores V !! l = Some k → is_connected (k_state k) = true →
  (∀ k' s', INV None (vw s') → vw s' = v_with_cores (<[l := k']> (v_cores V)) V →
     k_state k' = SPS_STATE_CONNECT → k_map k' = k_map k → k_src k' = k_src k → Q true s') →
  wp (change_disable l SPS_STATE_DISCONNECT) Q s.
Proof.
  intros HV Hinv Hl Hcon HQ. unfold change_disable. apply wp_bind. eapply wp_get_pipe; [done..|].
  intros p _ Hp. rewrite (core_state _ _ Hp).
  change ((SPS_STATE_DISCONNECT =? SPS_STATE_DISABLE) || (SPS_STATE_DISCONNECT =? SPS_STATE_DISCONNECT)) with true.
  rewrite andb_true_r. destruct (Z.eqb_spec (k_state k) SPS_STATE_ENABLE) as [Hen|Hne].
  - destruct (INV_attached pf V l k Hinv Hl) as
      (m & c & sd & b & x & Hm & Hc & Hcl & Hkb & Heb & Hkey & Hb & Hi & Hslot & Hidx); [by rewrite Hen|].
    destruct (Hidx Hcon) as [_ Hidx']. rewrite Hcon in Hslot.
    apply wp_bind. eapply wp_deref; [by rewrite (core_bam _ _ Hp)|].
    change (p_pipe_index p) with (k_idx (core_of p)). rewrite Hp, Hidx'.
    apply wp_bind. eapply wp_mono; [by apply (wp_sps_bam_pipe_disable _ _ l k s V)|].
    intros rc s1 [-> HV1]. cbn [Z.eqb negb].
    apply wp_bind. eapply (wp_upd_pipe s1 V _ _ k (core_st SPS_STATE_CONNECT k)); [done|done|by intros p0 <-|].
    intros s2 HV2. apply wp_ret. apply (HQ (core_st SPS_STATE_CONNECT k)); try done.
    rewrite HV2. by apply INV_restate.
  - apply wp_ret, (HQ k); try done; [by rewrite HV|by rewrite v_with_cores_id|].
    unfold is_connected in Hcon. apply orb_true_iff in Hcon as [?%Z.eqb_eq|?%Z.eqb_eq]; [done|lia].
Qed.

Lemma cached_change_disable l st : cached (change_disable l st).
Proof.
  assert (∀ {A} (o : option A), cached (of_option o : SPS A)) as Hopt.
  { intros A o s a s'. destruct o; [|done]. by intros [= _ <-]. }
  assert (∀ {A} (a : A), cached (mret a : SPS A)) as Hret by (by intros A a s a' s' [= _ <-]).
  assert (cached get) as Hget by (by intros s a s' [= _ <-]).
  assert (∀ l, cached (get_pipe l)) as Hpipe by (intros; apply cached_bind; auto).
  unfold change_disable. apply cached_bind; [auto|]. intros p. destruct (_ && _); [|auto].
  apply cached_bind; [apply Hopt|]. intros b. apply cached_bind.
  - unfold sps_bam_pipe_disable, slot_pipe, get_slot, get_bam. repeat first
      [by apply cached_upd_pipe | apply cached_when, cached_log | apply cached_bind; [|intros ?]
      | apply Hget | apply Hopt | apply Hret | apply Hpipe | match goal with |- cached (match ?x with _ => _ end) => destruct x end | done].
  - intros rc. destruct (negb _); [auto|]. apply cached_bind; [by apply cached_upd_pipe|auto].
Qed.

Lemma wp_state_change_disconnect l k V s (Q : Z → sps_state → Prop) :
  vw s = V → INV None V → v_cores V !! l = Some k → is_connected (k_state k) = true →
  client_cache_fits s l → (∀ s', disconnected l k V (vw s') → Q 0 s') →
  wp (sps_rm_state_change E l SPS_STATE_DISCONNECT) Q s.
Proof.
  intros HV Hinv Hl Hcon Hfits HQ.
  assert (k_state k ≠ SPS_STATE_DISCONNECT ∧ k_state k ≠ SPS_STATE_ALLOCATE) as [Hnd Hna].
  { unfold is_connected in Hcon. split; intros Hs; by rewrite Hs in Hcon. }
  unfold sps_rm_state_change. apply wp_bind. eapply wp_change_alloc_skip; [done..|by rewrite andb_comm|].
  cbn [negb]. apply wp_bind. eapply wp_change_connect_skip; [done..|by rewrite andb_comm|].
  cbn [negb]. apply wp_bind. eapply wp_change_enable_skip; [done..|by rewrite andb_comm|].
  cbn [negb]. apply wp_bind. eapply wp_mono.
  { apply wp_cached; [apply cached_change_disable|].
    apply (wp_change_disable l k V s (λ ok s1, ok = true ∧ ∃ k1, INV None (vw s1) ∧
      vw s1 = v_with_cores (<[l := k1]> (v_cores V)) V ∧ k_state k1 = SPS_STATE_CONNECT ∧
      k_map k1 = k_map k ∧ k_src k1 = k_src k)); try done. eauto 10. }
  cbn beta. intros ok s1 [(-> & k1 & Hinv1 & HV1 & Hst1 & Hm1 & Hs1) Hc1]. cbn [negb].
  assert (client_cache_fits s1 l) as Hfits1 by (by eapply client_cache_same).
  apply wp_bind. eapply (wp_change_disconnect l k1 (vw s1)); [done|done|rewrite HV1; apply lookup_insert_eq|done..|].
  intros s2 (Hinv2 & Hcores & m & c & Hm & Hc & Hconns). apply wp_ret, HQ.
  split_and!; [done| |].
  - rewrite Hcores, HV1. cbn. rewrite insert_insert_eq. unfold idle_core. by rewrite Hs1.
  - exists m, c. rewrite Hm1 in Hm. rewrite HV1 in Hc. rewrite Hs1, HV1 in Hconns. done.
Qed.

(** A client that is only allocated is not released. *)
Lemma wp_state_change_stuck l k V s (Q : Z → sps_state → Prop) :
  vw s = V → v_cores V !! l = Some k → is_connected (k_state k) = false → Q 0 s →
  wp (sps_rm_state_change E l SPS_STATE_DISCONNECT) Q s.
Proof.
  intros HV Hl Hcon HQ. unfold is_connected in Hcon. apply orb_false_iff in Hcon as [H1 H2].
  unfold sps_rm_state_change. apply wp_bind. eapply wp_change_alloc_skip; [done..|by rewrite andb_comm|].
  cbn [negb]. apply wp_bind. eapply wp_change_connect_skip; [done..|by rewrite andb_comm|].
  cbn [negb]. apply wp_bind. eapply wp_change_enable_skip; [done..|by rewrite andb_comm|].
  cbn [negb]. apply wp_bind. eapply wp_change_disable_skip; [done..|by rewrite H2|].
  cbn [negb]. apply wp_bind. eapply wp_change_disconnect_skip; [done..|by rewrite H1|].
  by apply wp_ret.
Qed.
End FreeRuns.

(** * SPS: runs of the clients' interface *)

Section Runs.
Context (E : sps_env) (pf : platform) `{HE : !SpsEnvOk E pf}.
Implicit Types V : view.
Abbreviation INV := (INV pf).

(** ** Disconnecting *)

(** The client's direction after its parameters are cleared. *)
Definition core_src_of (src : bool) (k : core) : core :=
  mkCore (k_state k) (k_map k) (k_bam k) src (k_idx k).

Lemma INV_src u V l k src :
  INV u V → v_cores V !! l = Some k → is_connected (k_state k) = false →
  INV u (v_with_cores (<[l := core_src_of src k]> (v_cores V)) V).
Proof.
  intros Hinv Hl Hcon. apply (INV_core pf u V l k); try done.
  destruct (inv_pipe _ _ _ Hinv l k Hl) as [Hd|(Hs & m & c & sd & b & Hm & Hc & Hcl & Hb & Heb & _)].
  - by left.
  - right. split; [done|]. exists m, c, sd, b. split_and!; try done. cbn. by rewrite Hcon.
Qed.

(** The client is idle again, and the connection has lost it. *)
Definition released (l : positive) (k : core) V V' : Prop :=
  INV None V' ∧ v_cores V' = <[l := core_src_of false (idle_core k)]> (v_cores V) ∧
  ∃ m c, k_map k = Some m ∧ v_conns V !! m = Some c ∧
    v_conns V' = match client_on (negb (k_src k)) c with
                 | Some _ => <[m := left_conn (k_src k) c]> (v_conns V)
                 | None => delete m (v_conns V)
                 end.

(** The client stays as it is, but for the direction. *)
Definition unreleased (l : positive) (k : core) V V' : Prop :=
  INV None V' ∧ v_conns V' = v_conns V ∧ v_queue V' = v_queue V ∧
  ∃ src, v_cores V' = <[l := core_src_of src k]> (v_cores V).

Lemma unreleased_refl l k V : INV None V → v_cores V !! l = Some k → unreleased l k V V.
Proof.
  intros Hinv Hl. split_and!; try done. exists (k_src k). destruct k. by rewrite insert_id.
Qed.

Lemma wp_sps_disconnect l k V s (Q : Z → sps_state → Prop) :
  vw s = V → INV None V → v_cores V !! l = Some k →
  (is_connected (k_state k) = true → client_cache_fits s l) →
  (is_connected (k_state k) = true → ∀ s', released l k V (vw s') → Q 0 s') →
  (is_connected (k_state k) = false → ∀ rc s', unreleased l k V (vw s') → Q rc s') →
  wp (sps_disconnect E (Some l)) Q s.
Proof.
  intros HV Hinv Hl Hfits Hyes Hno. unfold sps_disconnect.
  apply wp_bind. eapply wp_get_pipe; [done..|]. intros p _ Hp. rewrite (core_bam _ _ Hp).
  destruct (decide (k_state k = SPS_STATE_DISCONNECT)) as [Hd|Hd].
  { destruct (inv_pipe _ _ _ Hinv l k Hl) as [(_ & _ & ->)|[[Hs|Hs] _]]; [|by rewrite Hd in Hs..].
    apply wp_ret, Hno; [by rewrite Hd|]. rewrite HV. by apply unreleased_refl. }
  destruct (INV_attached pf V l k Hinv Hl Hd) as
    (m & c & sd & b & x & Hm & Hc & Hcl & -> & Heb & Hkey & Hb & Hi & Hslot & Hidx).
  apply wp_bind. eapply wp_get_bam; [done..|]. intros d _ _ _.
  apply wp_bind. eapply wp_deref; [by rewrite (core_map _ _ Hp)|].
  apply wp_bind. eapply wp_get_conn; [done..|]. rewrite (core_src _ _ Hp).
  destruct (is_connected (k_state k)) eqn:Hcon.
  - destruct (Hidx eq_refl) as [-> _]. rewrite bool_decide_true by done. cbn [negb].
    apply wp_bind. eapply (wp_state_change_disconnect E pf l k V); [done..|by apply Hfits|].
    intros s1 (Hinv1 & Hcores & Hconns). cbn [Z.eqb negb].
    assert (v_cores (vw s1) !! l = Some (idle_core k)) as Hl1 by (rewrite Hcores; apply lookup_insert_eq).
    apply wp_bind.
    eapply (wp_upd_pipe s1 (vw s1) l _ _ (core_src_of false (idle_core k))); [done|done|by intros p0 <-|].
    intros s2 HV2. apply wp_ret, Hyes; [done|]. rewrite HV2. split_and!; [by apply INV_src| |done].
    unfold v_with_cores. cbn [v_cores]. by rewrite Hcores, insert_insert_eq.
  - destruct (negb _); [apply wp_ret, Hno; [done|]; rewrite HV; by apply unreleased_refl|].
    apply wp_bind. eapply (wp_state_change_stuck E l k V); [done..|]. cbn [Z.eqb negb].
    apply wp_bind. eapply (wp_upd_pipe s V l _ k (core_src_of false k)); [done|done|by intros p0 <-|].
    intros s2 HV2. apply wp_ret, Hno; [done|]. rewrite HV2.
    split_and!; [by apply INV_src|done|done|by exists false].
Qed.

(** ** Connecting *)

(** The outcomes for a client that was disconnected. *)
Definition refused (l : positive) V V' : Prop :=
  INV None V' ∧ v_conns V' = v_conns V ∧ v_queue V' = v_queue V ∧
  ∃ k', v_cores V' = <[l := k']> (v_cores V) ∧ k_state k' = SPS_STATE_DISCONNECT.
Definition now_connected (l : positive) (src : bool) V V' : Prop :=
  INV None V' ∧
  ∃ k', v_cores V' = <[l := k']> (v_cores V) ∧ is_connected (k_state k') = true ∧ k_src k' = src.
Definition half_connected (l : positive) V V' : Prop :=
  INV None V' ∧ ∃ k', v_cores V' = <[l := k']> (v_cores V) ∧ k_state k' = SPS_STATE_ALLOCATE.

Lemma wp_sps_connect l cfg k V s (Q : Z → sps_state → Prop) :
  vw s = V → INV None V → v_cores V !! l = Some k → k_state k = SPS_STATE_DISCONNECT → cfg_ok cfg →
  (∀ rc s', rc ≠ 0 → refused l V (vw s') → Q rc s') →
  (∀ s', now_connected l (c_mode cfg =? SPS_MODE_SRC) V (vw s') → Q 0 s') →
  (∀ s', half_connected l V (vw s') → Q SPS_ERROR s') →
  wp (sps_connect E (Some l) (Some cfg)) Q s.
Proof.
  intros HV Hinv Hl Hst Hcfg Href Hyes Hhalf. set (src := c_mode cfg =? SPS_MODE_SRC) in *.
  assert (∀ rc s', rc ≠ 0 → vw s' = V → Q rc s') as Hsame.
  { intros rc s' Hrc HV'. apply Href; [done|]. rewrite HV'. split_and!; try done.
    exists k. by rewrite insert_id. }
  unfold sps_connect. wp_steps. destruct (sps_drv s) as [ready|]; [|by apply wp_ret, Hsame].
  destruct (negb ready); [by apply wp_ret, Hsame|]. destruct (_ && _); [by apply wp_ret, Hsame|].
  apply wp_bind. eapply wp_sps_h2bam; [done|]. intros [b|] _; [|by apply wp_ret, Hsame].
  destruct (pipes_lookup s V l k HV Hl) as (p & Hp & Hpk).
  apply wp_bind. unfold upd_pipe, put_pipe, get_pipe. wp_steps.
  set (s1 := set_pipes _ s). set (p1 := with_connect cfg p). set (k1 := core_src_of src k).
  assert (core_of p1 = k1) as Hp1 by (subst k1; by rewrite <- Hpk).
  set (V1 := v_with_cores (<[l := k1]> (v_cores V)) V).
  assert (vw s1 = V1) as HV1.
  { subst V1 V s1. view_eq. by rewrite fmap_insert; fold p1; rewrite Hp1. }
  assert (sps_pipes s1 !! l = Some p1) as Hl1 by apply lookup_insert_eq.
  assert (INV None V1) as Hinv1 by (apply INV_src; [done|done|by rewrite Hst]).
  assert (p_client_state p1 = SPS_STATE_DISCONNECT) as Hst1 by (cbn; by rewrite (core_state _ _ Hpk)).
  eapply (wp_state_change_alloc E pf l p1 s1 V1); [done..| |].
  2: { intros s2 (Hinv2 & Hcores & Hconns & Hq). cbn [Z.eqb SPS_ERROR negb]. apply wp_ret, Href; [done|].
    split_and!; try done. by exists k1. }
  rewrite Hp1. intros s2 (Hinv2 & k2 & m & Hcores2 & Hst2 & Hm2 & Hs2 & Hside & Hex). cbn [Z.eqb negb].
  assert (v_cores (vw s2) = <[l := k2]> (v_cores V)) as Hc2 by (rewrite Hcores2; apply insert_insert_eq).
  assert (v_cores (vw s2) !! l = Some k2) as Hl2 by (rewrite Hc2; apply lookup_insert_eq).
  destruct (pipes_lookup s2 _ l k2 eq_refl Hl2) as (p2 & Hp2 & Hpk2).
  apply wp_bind. eapply (wp_state_change_connect E pf l p2 k2 s2 (vw s2)); [done..| | |].
  - intros m' c Hm' Hc. assert (m' = m) as -> by congruence. rewrite Hs2. by apply Hside.
  - intros s3 (Hinv3 & _ & _ & k3 & Hc3 & Hcon & _ & _ & Hs3). cbn [Z.eqb negb].
    apply wp_bind, wp_ret, wp_ret, Hyes. split; [done|]. exists k3.
    rewrite Hc3, Hc2, insert_insert_eq. split_and!; try done. rewrite Hs3, Hs2. done.
  - intros s3 (Hinv3 & _ & _ & idx & Hc3). cbn [Z.eqb SPS_ERROR negb].
    assert (v_cores (vw s3) = <[l := core_idx idx k2]> (v_cores V)) as Hc3'
      by (rewrite Hc3, Hc2; apply insert_insert_eq).
    assert (is_connected (k_state (core_idx idx k2)) = false) as Hcon by (cbn; by rewrite Hst2).
    apply wp_bind, wp_bind. eapply (wp_sps_disconnect l (core_idx idx k2)); [done|done| | | |].
    + rewrite Hc3'. apply lookup_insert_eq.
    + by rewrite Hcon.
    + by rewrite Hcon.
    + intros _ rc s4 (Hinv4 & _ & _ & src' & Hc4). apply wp_ret, wp_ret, Hhalf. split; [done|].
      exists (core_src_of src' (core_idx idx k2)). rewrite Hc4, Hc3', insert_insert_eq. done.
Qed.

(** ** Endpoints *)

Definition fresh_core : core := core_of sps_client_init.

Lemma wp_sps_alloc_endpoint V s (Q : option positive → sps_state → Prop) :
  vw s = V → INV None V → (∀ s', vw s' = V → Q None s') →
  (∀ s', INV None (vw s') → v_cores (vw s') = <[v_next V := fresh_core]> (v_cores V) →
     v_cores V !! v_next V = None → v_conns (vw s') = v_conns V → Q (Some (v_next V)) s') →
  wp (sps_alloc_endpoint E) Q s.
Proof.
  intros HV Hinv Hnone Hsome. unfold sps_alloc_endpoint. wp_steps. apply wp_hist. intros h.
  apply wp_bind. eapply wp_log; [done|]. intros s1 HV1.
  destruct (env_sps_kzalloc E h); [|by apply wp_ret, Hnone]. wp_steps.
  change (sps_next s1) with (v_next (vw s1)). rewrite HV1.
  assert (vw (set_next (Pos.succ (v_next V)) (set_pipes (<[v_next V := sps_client_init]> (sps_pipes s1)) s1)) =
          v_with_next (Pos.succ (v_next V)) (v_with_cores (<[v_next V := fresh_core]> (v_cores V)) V)) as Heq.
  { rewrite <- HV1. view_eq. apply fmap_insert. }
  apply Hsome; rewrite ?Heq; try done.
  - by apply INV_new_pipe.
  - destruct (v_cores V !! v_next V) eqn:Hn; [|done].
    pose proof (inv_fresh_pipe _ _ _ Hinv (v_next V) (mk_is_Some _ _ Hn)). lia.
Qed.

Lemma wp_sps_free_endpoint l k V s (Q : Z → sps_state → Prop) :
  vw s = V → INV None V → v_cores V !! l = Some k →
  (k_state k ≠ SPS_STATE_DISCONNECT → ∀ s', vw s' = V → Q SPS_ERROR s') →
  (k_state k = SPS_STATE_DISCONNECT → ∀ s', INV None (vw s') →
     vw s' = v_with_cores (delete l (v_cores V)) V → Q 0 s') →
  wp (sps_free_endpoint (Some l)) Q s.
Proof.
  intros HV Hinv Hl Hno Hyes. unfold sps_free_endpoint, sps_client_de_init.
  apply wp_bind, wp_bind. eapply wp_get_pipe; [done..|]. intros p Hp Hpk.
  rewrite (core_state _ _ Hpk). destruct (Z.eqb_spec (k_state k) SPS_STATE_DISCONNECT) as [Hd|Hd].
  - cbn [negb]. apply wp_bind. eapply wp_put_pipe; [done..|]. intros s1 HV1. view_norm HV1. wp_steps.
    apply Hyes; [done| |].
    all: assert (vw (set_pipes (delete l (sps_pipes s1)) s1) = v_with_cores (delete l (v_cores V)) V) as Heq
      by (transitivity (v_with_cores (delete l (v_cores (vw s1))) (vw s1));
          [view_eq; apply fmap_delete|rewrite HV1; unfold v_with_cores; cbn; by rewrite delete_insert_eq]).
    + rewrite Heq. by eapply INV_delete_pipe.
    + exact Heq.
  - cbn [negb]. wp_steps. by apply Hno.
Qed.
End Runs.
