(* ===== verification/SpsProps.v ===== *)
(** * SPS: properties

    The clients' calls as steps, and what holds in every state that they reach: no call is
    undefined, every pipe belongs to one side of one connection, nothing is left when all
    clients have gone, and what a failed connection leaves. *)

From S2P Require Import Prelude.
From S2P Require Import SpsTypes.
From S2P Require Import SpsMem.
From S2P Require Import SpsDev.
From S2P Require Import SpsBam.
From S2P Require Import SpsRm.
From S2P Require Import Sps.
From S2P Require Import SpsView.
From S2P Require Import SpsInv.
From S2P Require Import SpsLogic.
From S2P Require Import SpsPipeRuns.
From S2P Require Import SpsAllocRuns.
From S2P Require Import SpsRuns.

(** ** Steps *)

Inductive sps_op :=
  | OpAllocEndpoint
  | OpFreeEndpoint (h : positive)
  | OpGetConfig (h : positive)
  | OpConnect (h : positive) (cfg : sps_connect_cfg)
  | OpDisconnect (h : positive).

Inductive sps_result :=
  | RHandle (h : option positive)
  | RConfig (rc : Z) (cfg : option sps_connect_cfg)
  | RCode (rc : Z).

Definition run_op (E : sps_env) (op : sps_op) : SPS sps_result :=
  match op with
  | OpAllocEndpoint => h ← sps_alloc_endpoint E; mret (RHandle h)
  | OpFreeEndpoint h => rc ← sps_free_endpoint (Some h); mret (RCode rc)
  | OpGetConfig h => '(rc, cfg) ← sps_get_config (Some h); mret (RConfig rc cfg)
  | OpConnect h cfg => rc ← sps_connect E (Some h) (Some cfg); mret (RCode rc)
  | OpDisconnect h => rc ← sps_disconnect E (Some h); mret (RCode rc)
  end.

(** A live handle whose cache, if its BAM keeps it, is as long as the FIFO needs. *)
Definition may_disconnect (h : positive) (s : sps_state) : bool :=
  match sps_pipes s !! h with
  | Some p =>
      match p_bam p ≫= λ b, sps_bams s !! b with Some d => cache_fits d p | None => true end
  | None => false
  end.

(** The rules for clients: a handle is live, and only a disconnected one is connected; and on a
    BAM with the option [SPS_BAM_HOLD_MEM] a pipe whose cache was kept from an earlier
    connection with a shorter FIFO is not disconnected. The pipe indices are unsigned. *)
Definition enabled (op : sps_op) (s : sps_state) : bool :=
  match op with
  | OpAllocEndpoint => true
  | OpFreeEndpoint h | OpGetConfig h => bool_decide (is_Some (sps_pipes s !! h))
  | OpDisconnect h => may_disconnect h s
  | OpConnect h cfg =>
      match sps_pipes s !! h with
      | Some p => (p_client_state p =? SPS_STATE_DISCONNECT) && (0 <=? c_src_pipe_index cfg) &&
                  (0 <=? c_dest_pipe_index cfg)
      | None => false
      end
  end.

Inductive sps_step (E : sps_env) : sps_state → sps_state → Prop :=
  | step_op op s r s' : enabled op s = true → run_op E op s = Some (r, s') → sps_step E s s'.

(** No client, no connection, and BAMs whose pipes are all free. *)
Record sps_initial (pf : platform) (s : sps_state) : Prop := {
  in_pipes : sps_pipes s = ∅;
  in_conns : sps_conns s = ∅;
  in_queue : connections_q s = [];
  in_bams b d : sps_bams s !! b = Some d →
    b_pipes d = replicate BAM_MAX_PIPES SlotNull ∧
    0 ≤ bp_num_pipes (b_props d) ≤ pf_pipes pf b ∧ pf_pipes pf b ≤ Z.of_nat BAM_MAX_PIPES ∧
    dev_ok d = true ∧ b ≠ SPS_DEV_HANDLE_MEM ∧ b ≠ SPS_DEV_HANDLE_INVALID;
  in_maps : maps_ok (sps_maps s) = true;
  in_mem : iomem_phys (sps_mem s) = pf_phys pf ∧ iomem_virt (sps_mem s) = pf_virt pf;
  in_balance : total_alloc (sps_mem s) = total_free (sps_mem s);
}.

Definition sps_reachable (E : sps_env) (pf : platform) (s : sps_state) : Prop :=
  ∃ s0, sps_initial pf s0 ∧ rtc (sps_step E) s0 s.

(** [dev->pipes[i]] of the BAM [b]. *)
Definition pipe_slot (s : sps_state) (b i : Z) : option bam_slot :=
  d ← sps_bams s !! b; lookup_z (b_pipes d) i.

Lemma pipe_slot_view s b i : pipe_slot s b i = slot (vw s) b i.
Proof. unfold pipe_slot, slot. cbn. rewrite lookup_fmap. by destruct (sps_bams s !! b). Qed.

Lemma u32_sub_0 a b : u32 (a - b) = u32 0 → u32 a = u32 b.
Proof.
  unfold u32. intros H0. replace a with (b + (a - b)) by lia.
  rewrite <- Zplus_mod_idemp_r, H0. by rewrite Z.add_0_r.
Qed.

(** ** The invariant of reachable states *)

Lemma INV_initial pf s : sps_initial pf s → INV pf None (vw s).
Proof.
  intros [Hp Hc Hq Hb Hm Hmem Hbal].
  assert (∀ b i x, slot (vw s) b i = Some x → x = SlotNull) as Hnull.
  { intros b i x. rewrite <- pipe_slot_view. unfold pipe_slot.
    destruct (sps_bams s !! b) as [d|] eqn:Hd; [|done]. cbn.
    destruct (Hb b d Hd) as [-> _]. unfold lookup_z. destruct (0 <=? i); [|done].
    intros [-> _]%lookup_replicate_1. done. }
  split; cbn; rewrite ?Hp, ?Hc, ?Hq, ?fmap_empty; try (intros *; rewrite ?lookup_empty; by intros); try done.
  - constructor.
  - intros m. rewrite lookup_empty. split; [by intros ?%not_elem_of_nil|by intros [[? [=]] _]].
  - intros b x. rewrite lookup_fmap. destruct (sps_bams s !! b) as [d|] eqn:Hd; [|done].
    intros [= <-]. destruct (Hb b d Hd) as (Hs & ? & ? & _ & ? & ?). cbn.
    rewrite Hs, length_replicate. split_and!; done || lia.
  - intros b x. rewrite lookup_fmap. destruct (sps_bams s !! b) as [d|] eqn:Hd; [|done].
    intros [= <-]. by apply (Hb b d Hd).
  - intros b i x Hx Hne. by apply Hnull in Hx.
  - by rewrite Hbal, Z.sub_diag.
Qed.

Section Reach.
Context (E : sps_env) (pf : platform) `{HE : !SpsEnvOk E pf}.

Lemma may_disconnect_fits h s :
  may_disconnect h s = true → is_Some (sps_pipes s !! h) ∧ client_cache_fits s h.
Proof.
  unfold may_disconnect. destruct (sps_pipes s !! h) as [p|] eqn:Hp; [|done]. intros Hf. split; [by eexists|].
  intros p' b d Hp' Hb Hd. rewrite Hp in Hp'. injection Hp' as <-. rewrite Hb in Hf. cbn in Hf. by rewrite Hd in Hf.
Qed.

Lemma cfg_enabled h cfg s :
  enabled (OpConnect h cfg) s = true →
  ∃ p, sps_pipes s !! h = Some p ∧ p_client_state p = SPS_STATE_DISCONNECT ∧ cfg_ok cfg.
Proof.
  cbn. destruct (sps_pipes s !! h) as [p|]; [|done].
  intros [[?%Z.eqb_eq ?%Z.leb_le]%andb_true_iff ?%Z.leb_le]%andb_true_iff. exists p. by split_and!.
Qed.

(** Every enabled call is defined and keeps the invariant. *)
Lemma wp_run_op op s :
  INV pf None (vw s) → enabled op s = true → wp (run_op E op) (λ _ s', INV pf None (vw s')) s.
Proof.
  intros Hinv Hen.
  assert (∀ h, bool_decide (is_Some (sps_pipes s !! h)) = true →
            ∃ k, v_cores (vw s) !! h = Some k) as Hlive.
  { intros h [p Hp]%bool_decide_eq_true_1. exists (core_of p). by apply (cores_lookup s). }
  destruct op as [|h|h|h cfg|h]; cbn [run_op]; apply wp_bind.
  - eapply (wp_sps_alloc_endpoint E pf (vw s)); [done|done|..].
    + intros s' HV. apply wp_ret. by rewrite HV.
    + intros s' Hinv' _ _ _. by apply wp_ret.
  - destruct (Hlive h Hen) as [k Hk]. eapply (wp_sps_free_endpoint pf h k (vw s)); [done..| |].
    + intros _ s' HV. apply wp_ret. by rewrite HV.
    + intros _ s' Hinv' _. by apply wp_ret.
  - destruct (Hlive h Hen) as [k Hk]. cbn [sps_get_config]. apply wp_bind.
    eapply (wp_get_pipe s (vw s)); [done..|]. intros p _ _. apply wp_ret. by apply wp_ret.
  - destruct (cfg_enabled h cfg s Hen) as (p & Hp & Hst & Hcfg).
    pose proof (cores_lookup s _ h p eq_refl Hp) as Hk.
    eapply (wp_sps_connect E pf h cfg (core_of p) (vw s)); [done..| | |].
    + intros rc s' _ Hout. apply wp_ret, Hout.
    + intros s' Hout. apply wp_ret, Hout.
    + intros s' Hout. apply wp_ret, Hout.
  - apply may_disconnect_fits in Hen as [Hex Hfits].
    destruct (Hlive h (bool_decide_eq_true_2 _ Hex)) as [k Hk]. eapply (wp_sps_disconnect E pf h k (vw s)); [done..| |].
    + intros _ s' Hrel. apply wp_ret, Hrel.
    + intros _ rc s' Hun. apply wp_ret, Hun.
Qed.

Lemma reachable_INV s : sps_reachable E pf s → INV pf None (vw s).
Proof.
  intros (s0 & Hinit & Hsteps). pose proof (INV_initial pf s0 Hinit) as Hinv. clear Hinit.
  induction Hsteps as [s|s1 s2 s3 Hstep _ IH]; [done|]. apply IH.
  destruct Hstep as [op s r s' Hen Hrun].
  destruct (wp_elim _ _ _ (wp_run_op op s Hinv Hen)) as (a & s'' & Heq & Hinv'). congruence.
Qed.
End Reach.

(** ** A program of several clients *)

Fixpoint run_ops (E : sps_env) (ops : list sps_op) (s : sps_state) : option sps_state :=
  match ops with
  | [] => Some s
  | op :: ops' =>
      if enabled op s then
        match run_op E op s with Some (_, s') => run_ops E ops' s' | None => None end
      else None
  end.

Lemma run_ops_steps E ops s s' : run_ops E ops s = Some s' → rtc (sps_step E) s s'.
Proof.
  revert s. induction ops as [|op ops IH]; intros s; cbn; [by intros [= <-]|].
  destruct (enabled op s) eqn:Hen; [|done]. destruct (run_op E op s) as [[r s1]|] eqn:Hrun; [|done].
  intros Hops. eapply rtc_l; [by econstructor|by apply IH].
Qed.

(** Two BAMs of 20 pipes each, and one whose pipes are always enabled; 32 KB of I/O memory. *)
Definition demo_used (h : list sps_event) : Z :=
  foldr (λ e a, match e with EvPoolAlloc n _ => a + n | _ => a end) 0 h.
Definition demo_env : sps_env :=
  mkSpsEnv
    (λ h n, let u := demo_used h in if (0 <=? u) && (0 <=? n) && (u + n <=? 0x8000) then 0x10000 + u else 0)
    (λ p, p + 0x80000000) (λ _, true) (λ _ _, 0x90000000) (λ _ _, 0) (λ _ _, 0)
    (λ _ b _, b =? 300) (λ _ _, true) (λ _, 0x20) (λ _, 20).
Definition demo_pf : platform := mkPlatform 0x4000 0x10000 (λ _, 20).
Definition demo_bam (phys : Z) : sps_bam :=
  mkBam (mkProps 0 phys 11 20 4 16 2048 4096 0 0 0 0 0 None) 0 0 0 0 (replicate 31 SlotNull) []
    (replicate 31 no_block).
Definition demo_init : sps_state :=
  mkSps (Some true) ∅ ∅ {[100 := demo_bam 0x100; 200 := demo_bam 0x200; 300 := demo_bam 0x300]} []
    (mkMaps [] 0) (mkMem 0x4000 0x10000 0x8000 0 true 0 0) 1%positive [].
Definition demo_cfg (mode src dst : Z) : sps_connect_cfg :=
  mkConnect src SPSRM_CLEAR_ADDR SPSRM_CLEAR dst SPSRM_CLEAR_ADDR SPSRM_CLEAR mode SPSRM_CLEAR
    SPS_O_AUTO_ENABLE clear_buf clear_buf SPSRM_CLEAR SPSRM_CLEAR SPSRM_CLEAR SPSRM_CLEAR SPSRM_CLEAR.

#[export] Instance demo_ok : SpsEnvOk demo_env demo_pf.
Proof.
  split; [|by right]. intros h n. cbn [env_pool_alloc demo_env pf_phys pf_virt demo_pf].
  destruct (_ && _) eqn:Hu; [|done]. intros _.
  apply andb_true_iff in Hu as [[H1%Z.leb_le H2%Z.leb_le]%andb_true_iff H3%Z.leb_le].
  replace (0x10000 + demo_used h - 0x10000) with (demo_used h) by lia.
  unfold u64, u32, SPS_ADDR_INVALID. rewrite !Z.mod_small by (rewrite ?Z.mod_small; lia). lia.
Qed.

Lemma demo_initial : sps_initial demo_pf demo_init.
Proof.
  split; try done. intros b d Hd. cbn in Hd.
  apply lookup_insert_Some in Hd as [[<- <-]|[_ Hd]]; [done|].
  apply lookup_insert_Some in Hd as [[<- <-]|[_ Hd]]; [done|].
  apply lookup_singleton_Some in Hd as [<- <-]. done.
Qed.

Lemma sps_demo_reachable ops s : run_ops demo_env ops demo_init = Some s → sps_reachable demo_env demo_pf s.
Proof. intros Hops. exists demo_init. split; [apply demo_initial|by eapply run_ops_steps]. Qed.

(** The second client is connected to the first through BAMs 100 and 200. *)
Definition demo_pair : list sps_op :=
  [OpAllocEndpoint; OpAllocEndpoint; OpConnect 1 (demo_cfg 0 100 200); OpConnect 2 (demo_cfg 1 100 200)].
Definition demo_state (ops : list sps_op) : sps_state := default demo_init (run_ops demo_env ops demo_init).

(** A kept cache. On a BAM with the option [SPS_BAM_HOLD_MEM] a pipe with a FIFO of 32 bytes gets
    a cache of 64; the next connection of the pipe, with a FIFO of 2048 bytes, gets it again, and
    its disconnection clears 4096 bytes. *)
Definition holding (d : sps_bam) : sps_bam :=
  let pr := b_props d in
  bam_with_props (mkProps SPS_BAM_HOLD_MEM (bp_phys_addr pr) (bp_irq pr) (bp_num_pipes pr) (bp_summing_threshold pr)
    (bp_event_threshold pr) (bp_desc_size pr) (bp_data_size pr) (bp_manage pr)
    (bp_restricted_pipes pr) (bp_ee pr) (bp_irq_gen_addr pr) (bp_sec_config pr) (bp_sec pr)) d.
Definition held_init : sps_state := set_bams (holding <$> sps_bams demo_init) demo_init.
Definition with_desc_fifo (n : Z) (c : sps_connect_cfg) : sps_connect_cfg :=
  mkConnect (c_source c) (c_source_iova c) (c_src_pipe_index c) (c_destination c) (c_dest_iova c)
    (c_dest_pipe_index c) (c_mode c) (c_config c) SPS_O_EOT (mkBuf 0x80000000 0x80000000 0x80000000 n 0)
    (c_data c) (c_event_thresh c) (c_lock_group c) (c_irq_gen_addr c) (c_irq_gen_data c) (c_sps_reserved c).
Definition to_memory (n : Z) : sps_connect_cfg := with_desc_fifo n (demo_cfg 0 100 SPS_DEV_HANDLE_MEM).
Definition held_state (n : Z) : sps_state :=
  default held_init (run_ops demo_env
    [OpAllocEndpoint; OpConnect 1 (to_memory 32); OpDisconnect 1; OpConnect 1 (to_memory n)] held_init).

Example kept_cache_reused :
  (λ p, (blk_size (y_desc_cache (p_sys p)), cache_size p)) <$> sps_pipes (held_state 2048) !! 1%positive = Some (64, 4096).
Proof. vm_compute. reflexivity. Qed.

Example kept_cache_overflows :
  may_disconnect 1 (held_state 2048) = false ∧ run_op demo_env (OpDisconnect 1) (held_state 2048) = None.
Proof. split; vm_compute; reflexivity. Qed.

Example kept_cache_clears :
  may_disconnect 1 (held_state 32) = true ∧ is_Some (run_op demo_env (OpDisconnect 1) (held_state 32)).
Proof. split; vm_compute; [reflexivity|by eexists]. Qed.

(** BAMs that keep no caches need no rule. *)
Lemma may_disconnect_live h s :
  is_Some (sps_pipes s !! h) →
  (∀ b d, sps_bams s !! b = Some d → has (bp_options (b_props d)) SPS_BAM_HOLD_MEM = false) →
  may_disconnect h s = true.
Proof.
  intros [p Hp] Hhold. unfold may_disconnect. rewrite Hp. destruct (p_bam p) as [b|]; [|done]. cbn.
  destruct (sps_bams s !! b) as [d|] eqn:Hd; [|done]. unfold cache_fits. by rewrite (Hhold b d Hd), andb_false_r, orb_true_r.
Qed.

(** What leaves a client allocated, besides the hardware: the option [SPS_O_POLL] on a connection
    of two BAMs, and a descriptor FIFO of one descriptor. *)
Definition polling_pair : sps_connect_cfg :=
  mkConnect 100 SPSRM_CLEAR_ADDR SPSRM_CLEAR 200 SPSRM_CLEAR_ADDR SPSRM_CLEAR 0 SPSRM_CLEAR
    SPS_O_POLL clear_buf clear_buf SPSRM_CLEAR SPSRM_CLEAR SPSRM_CLEAR SPSRM_CLEAR SPSRM_CLEAR.
Definition connect_result (cfg : sps_connect_cfg) : option (Z * option Z) :=
  '(rc, s) ← sps_connect demo_env (Some 1%positive) (Some cfg) (demo_state [OpAllocEndpoint]);
  Some (rc, p_client_state <$> sps_pipes s !! 1%positive).

Example clients_error_stuck :
  connect_result polling_pair = Some (SPS_ERROR, Some SPS_STATE_ALLOCATE) ∧
  connect_result (to_memory 8) = Some (SPS_ERROR, Some SPS_STATE_ALLOCATE).
Proof. split; vm_compute; reflexivity. Qed.

Section Props.
Context (E : sps_env) (pf : platform) `{HE : !SpsEnvOk E pf}.

(** C37: in every state that clients can reach, every call that the rules for clients allow
    runs to its end: no null or freed pointer, no index outside an array, no [memset] behind the
    end of a cache, no shift by too much, whatever the allocators and the hardware answer. The
    rules: handles are live, and only a disconnected one is connected; on a BAM with the option
    [SPS_BAM_HOLD_MEM] a pipe that got a cache kept from a shorter FIFO is not disconnected
    ([kept_cache_overflows]; other BAMs need no such rule, [may_disconnect_live]); and no BAM has
    more than 31 pipes, in its properties or in hardware. *)
Theorem sps_never_stuck s op :
  sps_reachable E pf s → enabled op s = true → ∃ r s', run_op E op s = Some (r, s').
Proof.
  intros Hreach Hen. pose proof (reachable_INV E pf s Hreach) as Hinv.
  destruct (wp_elim _ _ _ (wp_run_op E pf op s Hinv Hen)) as (r & s' & Heq & _). by exists r, s'.
Qed.

(** C38: in every reachable state the connections of the queue are those that exist, each with
    as many references as clients and at least one; a pipe of a BAM that is not free belongs
    to exactly one side of one connection, and it is assigned exactly to that side's client
    when the client is connected. *)
Theorem sps_pipes_owned s :
  sps_reachable E pf s →
  NoDup (connections_q s) ∧
  (∀ m, m ∈ connections_q s ↔ is_Some (sps_conns s !! m)) ∧
  (∀ m c, sps_conns s !! m = Some c → m_refs c = client_count c ∧ 1 ≤ m_refs c) ∧
  (∀ b i x, pipe_slot s b i = Some x → x ≠ SlotNull →
     ∃ m c sd, sps_conns s !! m = Some c ∧ key sd c = Some (b, i) ∧
       x = slot_for (core_of <$> sps_pipes s) (client_on sd c) ∧
       (∀ m' c' sd', sps_conns s !! m' = Some c' → key sd' c' = Some (b, i) → m' = m ∧ sd' = sd)) ∧
  (∀ m c sd b i, sps_conns s !! m = Some c → key sd c = Some (b, i) →
     pipe_slot s b i = Some (slot_for (core_of <$> sps_pipes s) (client_on sd c))) ∧
  (∀ m c sd l, sps_conns s !! m = Some c → client_on sd c = Some l →
     ∃ p, sps_pipes s !! l = Some p ∧ p_map p = Some m).
Proof.
  intros Hreach. pose proof (reachable_INV E pf s Hreach) as Hinv. split_and!.
  - apply Hinv.
  - intros m. rewrite (inv_linked _ _ _ Hinv m : m ∈ connections_q s ↔ _). cbn. split; [by intros []|by split].
  - intros m c Hm. by apply (inv_refs _ _ _ Hinv m c).
  - intros b i x. rewrite pipe_slot_view. intros Hx Hne.
    destruct (inv_owned _ _ _ Hinv b i x Hx Hne) as (m & c & sd & Hm & Hk).
    destruct (inv_key _ _ _ Hinv m c sd b i Hm Hk) as [Hs _]. exists m, c, sd.
    split_and!; [done|done| |].
    + rewrite Hx in Hs. by injection Hs.
    + intros m' c' sd' Hm' Hk'. by apply (inv_unique _ _ _ Hinv m' c' sd' m c sd (b, i)).
  - intros m c sd b i Hm Hk. rewrite pipe_slot_view. by apply (inv_key _ _ _ Hinv m c sd b i).
  - intros m c sd l Hm Hc. destruct (inv_client _ _ _ Hinv m c sd l Hm Hc) as (k & Hk & Hkm).
    destruct (pipes_lookup s _ l k eq_refl Hk) as (p & Hp & Hpk). exists p. by rewrite (core_map _ _ Hpk).
Qed.

(** C39: when every client is disconnected nothing is left: no connection, no pipe that is not
    free, and as much I/O memory given back as taken, so that the module can be removed. *)
Theorem sps_nothing_left s :
  sps_reachable E pf s →
  (∀ l p, sps_pipes s !! l = Some p → p_client_state p = SPS_STATE_DISCONNECT) →
  sps_conns s = ∅ ∧ connections_q s = [] ∧ (∀ b i x, pipe_slot s b i = Some x → x = SlotNull) ∧
  ∃ s', sps_mem_de_init s = Some (0, s').
Proof.
  intros Hreach Hidle. pose proof (reachable_INV E pf s Hreach) as Hinv.
  assert (sps_conns s = ∅) as Hempty.
  { apply map_empty. intros m. destruct (sps_conns s !! m) as [c|] eqn:Hm; [exfalso|done].
    destruct (inv_refs _ _ _ Hinv m c ltac:(done) Hm) as [Hr H1].
    assert (∃ sd l, client_on sd c = Some l) as (sd & l & Hl).
    { destruct (m_client_src c) as [l|] eqn:Hs; [by exists true, l|].
      destruct (m_client_dest c) as [l|] eqn:Hd; [by exists false, l|].
      rewrite (client_count_zero c Hs Hd) in Hr. lia. }
    destruct (inv_client _ _ _ Hinv m c sd l Hm Hl) as (k & Hk & Hkm).
    destruct (pipes_lookup s _ l k eq_refl Hk) as (p & Hp & Hpk).
    destruct (inv_pipe _ _ _ Hinv l k Hk) as [(_ & ? & _)|[Hst _]]; [congruence|].
    rewrite <- (core_state _ _ Hpk), (Hidle l p Hp) in Hst. by destruct Hst. }
  split_and!; [done| | |].
  - destruct (connections_q s) as [|m q] eqn:Hq; [done|].
    pose proof (proj1 (inv_linked _ _ _ Hinv m)) as Hm. cbn in Hm. rewrite Hq, Hempty in Hm.
    destruct Hm as [[? [=]] _]. left.
  - intros b i x. rewrite pipe_slot_view. intros Hx. destruct (decide (x = SlotNull)) as [|Hne]; [done|].
    destruct (inv_owned _ _ _ Hinv b i x Hx Hne) as (m & c & _ & Hm & _). cbn in Hm.
    by rewrite Hempty in Hm.
  - pose proof (inv_balance _ _ _ Hinv) as Hbal. cbn in Hbal. rewrite Hempty in Hbal.
    change (fifo_sum ∅) with 0 in Hbal. apply u32_sub_0 in Hbal.
    assert (wp sps_mem_de_init (λ r _, r = 0) s) as Hwp.
    { unfold sps_mem_de_init, get_mem, put_mem. wp_steps.
      destruct (iomem_virt (sps_mem s) =? 0); wp_steps; rewrite Hbal, Z.eqb_refl; by wp_steps. }
    destruct (wp_elim _ _ _ Hwp) as (r & s' & Heq & ->). by exists s'.
Qed.

Lemma other_cores s s' l k :
  v_cores (vw s') = <[l := k]> (v_cores (vw s)) → ∀ l', l' ≠ l →
  core_of <$> sps_pipes s' !! l' = core_of <$> sps_pipes s !! l'.
Proof.
  intros Hc l' Hne. cbn in Hc. rewrite <- !lookup_fmap, Hc. by rewrite lookup_insert_ne.
Qed.

(** The same connections have the same pipes and memory. *)
Lemma same_conns_same_pipes s s' l k k' :
  INV pf None (vw s) → INV pf None (vw s') → sps_conns s' = sps_conns s →
  v_cores (vw s) !! l = Some k → is_connected (k_state k) = is_connected (k_state k') →
  v_cores (vw s') = <[l := k']> (v_cores (vw s)) →
  (∀ b i x, pipe_slot s' b i = Some x → x ≠ SlotNull → pipe_slot s b i = Some x) ∧
  u32 (total_alloc (sps_mem s') - total_free (sps_mem s')) =
  u32 (total_alloc (sps_mem s) - total_free (sps_mem s)).
Proof.
  intros Hinv Hinv' Hconns Hl Hcon Hcores. split.
  - intros b i x. rewrite !pipe_slot_view. intros Hx Hne.
    destruct (inv_owned _ _ _ Hinv' b i x Hx Hne) as (m & c & sd & Hm & Hk).
    destruct (inv_key _ _ _ Hinv' m c sd b i Hm Hk) as [Hs' _]. cbn in Hm. rewrite Hconns in Hm.
    destruct (inv_key _ _ _ Hinv m c sd b i Hm Hk) as [Hs _]. rewrite Hs, <- Hx, Hs', Hcores.
    by rewrite (slot_for_same _ l k k').
  - pose proof (inv_balance _ _ _ Hinv') as H1. pose proof (inv_balance _ _ _ Hinv) as H2.
    cbn in H1, H2. by rewrite H1, H2, Hconns.
Qed.

(** What the invariant says of the pipe of an attached client, in the state. *)
Lemma attached_state s l k :
  INV pf None (vw s) → v_cores (vw s) !! l = Some k → k_state k ≠ SPS_STATE_DISCONNECT →
  ∃ p m c sd b i, sps_pipes s !! l = Some p ∧ p_client_state p = k_state k ∧ p_map p = Some m ∧
    sps_conns s !! m = Some c ∧ client_on sd c = Some l ∧ key sd c = Some (b, i) ∧
    pipe_slot s b i = Some (if is_connected (k_state k) then SlotPipe l else SlotUnassigned) ∧
    (is_connected (k_state k) = true → sd = k_src k ∧ p_pipe_index p = i).
Proof.
  intros Hinv Hl Hst. destruct (pipes_lookup s _ l k eq_refl Hl) as (p & Hp & Hpk).
  destruct (INV_attached pf _ l k Hinv Hl Hst) as
    (m & c & sd & b & x & Hm & Hc & Hcl & Hkb & Heb & Hkey & Hb & Hi & Hslot & Hidx).
  exists p, m, c, sd, b, (ep_pipe_index (end_of sd c)). rewrite pipe_slot_view.
  rewrite (core_state _ _ Hpk), (core_map _ _ Hpk). split_and!; try done.
  change (p_pipe_index p) with (k_idx (core_of p)). by rewrite Hpk.
Qed.

(** A client that is only allocated cannot be freed, and a disconnection leaves it so. *)
Definition stuck_client (s : sps_state) (l : positive) : Prop :=
  sps_free_endpoint (Some l) s = Some (SPS_ERROR, s) ∧
  ∃ rc s' p', sps_disconnect E (Some l) s = Some (rc, s') ∧ sps_pipes s' !! l = Some p' ∧
    p_client_state p' = SPS_STATE_ALLOCATE ∧ sps_conns s' = sps_conns s.

Lemma allocated_stuck s l k :
  INV pf None (vw s) → v_cores (vw s) !! l = Some k → k_state k = SPS_STATE_ALLOCATE → stuck_client s l.
Proof.
  intros Hinv Hl Hst. destruct (pipes_lookup s _ l k eq_refl Hl) as (p & Hp & Hpk). split.
  - unfold sps_free_endpoint, sps_client_de_init, get_pipe, mbind, M_bind. cbn. rewrite Hp. cbn.
    by rewrite (core_state _ _ Hpk), Hst.
  - assert (wp (sps_disconnect E (Some l)) (λ rc s', unreleased pf l k (vw s) (vw s')) s) as Hwp.
    { eapply (wp_sps_disconnect E pf l k (vw s)); try done; by rewrite Hst. }
    destruct (wp_elim _ _ _ Hwp) as (rc & s' & Heq & _ & Hc & _ & src & Hcores).
    assert (v_cores (vw s') !! l = Some (core_src_of src k)) as Hl' by (rewrite Hcores; apply lookup_insert_eq).
    destruct (pipes_lookup s' _ l _ eq_refl Hl') as (p' & Hp' & Hpk').
    exists rc, s', p'. split_and!; try done. by rewrite (core_state _ _ Hpk').
Qed.

(** C40: connecting a disconnected client always returns. On success the client is connected, on
    the side that its mode names, to a pipe that is assigned to it. On failure either the client is
    disconnected and no pipe, connection or memory was taken; or, when the resources were
    allocated and configuring the pipe failed, the client stays allocated with its pipe: it can
    then neither be disconnected nor freed. That configuring fails may be the hardware's doing,
    for lack of memory, or the client's ([clients_error_stuck]). The other clients are as before. *)
Theorem sps_connect_outcome s l p cfg :
  sps_reachable E pf s → sps_pipes s !! l = Some p → p_client_state p = SPS_STATE_DISCONNECT →
  0 ≤ c_src_pipe_index cfg → 0 ≤ c_dest_pipe_index cfg →
  ∃ rc s', sps_connect E (Some l) (Some cfg) s = Some (rc, s') ∧
    (∀ l', l' ≠ l → core_of <$> sps_pipes s' !! l' = core_of <$> sps_pipes s !! l') ∧
    ((rc = 0 ∧ ∃ p' m c b i, sps_pipes s' !! l = Some p' ∧
        is_connected (p_client_state p') = true ∧ p_map p' = Some m ∧ sps_conns s' !! m = Some c ∧
        let sd := c_mode cfg =? SPS_MODE_SRC in
        client_on sd c = Some l ∧ key sd c = Some (b, i) ∧ p_pipe_index p' = i ∧
        pipe_slot s' b i = Some (SlotPipe l)) ∨
     (rc ≠ 0 ∧ (∃ p', sps_pipes s' !! l = Some p' ∧ p_client_state p' = SPS_STATE_DISCONNECT) ∧
        sps_conns s' = sps_conns s ∧ connections_q s' = connections_q s ∧
        (∀ b i x, pipe_slot s' b i = Some x → x ≠ SlotNull → pipe_slot s b i = Some x) ∧
        u32 (total_alloc (sps_mem s') - total_free (sps_mem s')) =
        u32 (total_alloc (sps_mem s) - total_free (sps_mem s))) ∨
     (rc = SPS_ERROR ∧ stuck_client s' l ∧ ∃ p' m c sd b i, sps_pipes s' !! l = Some p' ∧
        p_client_state p' = SPS_STATE_ALLOCATE ∧ p_map p' = Some m ∧ sps_conns s' !! m = Some c ∧
        client_on sd c = Some l ∧ key sd c = Some (b, i) ∧ pipe_slot s' b i = Some SlotUnassigned)).
Proof.
  intros Hreach Hp Hst Hsrc Hdst. pose proof (reachable_INV E pf s Hreach) as Hinv.
  pose proof (cores_lookup s _ l p eq_refl Hp) as Hl.
  assert (wp (sps_connect E (Some l) (Some cfg)) (λ rc s',
    rc ≠ 0 ∧ refused pf l (vw s) (vw s') ∨
    rc = 0 ∧ now_connected pf l (c_mode cfg =? SPS_MODE_SRC) (vw s) (vw s') ∨
    rc = SPS_ERROR ∧ half_connected pf l (vw s) (vw s')) s) as Hwp.
  { eapply (wp_sps_connect E pf l cfg (core_of p) (vw s)); try done; auto. }
  destruct (wp_elim _ _ _ Hwp) as (rc & s' & Heq & Hout). exists rc, s'. split; [done|].
  destruct Hout as [(Hrc & Hinv' & Hc & Hq & k' & Hcores & Hk')|
    [(-> & Hinv' & k' & Hcores & Hk' & Hsd)|(-> & Hinv' & k' & Hcores & Hk')]];
    (split; [by eapply other_cores|]);
    assert (v_cores (vw s') !! l = Some k') as Hl' by (rewrite Hcores; apply lookup_insert_eq).
  - right; left. destruct (pipes_lookup s' _ l k' eq_refl Hl') as (p' & Hp' & Hpk').
    destruct (same_conns_same_pipes s s' l (core_of p) k') as [Hs Hb]; try done.
    { cbn. by rewrite Hst, Hk'. }
    split_and!; try done. exists p'. by rewrite (core_state _ _ Hpk').
  - left. split; [done|]. destruct (attached_state s' l k' Hinv' Hl') as (p' & m & c & sd & b & i & H1 & H2 & Hr).
    { intros Hd. by rewrite Hd in Hk'. }
    destruct Hr as (Hm & Hc & Hcl & Hkey & Hslot & Hidx). destruct (Hidx Hk') as [-> <-].
    rewrite Hk', Hsd in *. exists p', m, c, b, (p_pipe_index p'). rewrite H2, Hk'. by split_and!.
  - right; right. split_and!; [done|by eapply allocated_stuck|].
    destruct (attached_state s' l k' Hinv' Hl') as (p' & m & c & sd & b & i & H1 & H2 & Hr).
    { by rewrite Hk'. }
    destruct Hr as (Hm & Hc & Hcl & Hkey & Hslot & _). exists p', m, c, sd, b, i.
    rewrite Hk' in *. by split_and!.
Qed.

(** Disconnecting a connected client returns 0 and makes it idle; its connection is freed
    when it was the last client, and otherwise left to the other one. *)
Theorem sps_disconnect_outcome s l p :
  sps_reachable E pf s → sps_pipes s !! l = Some p → is_connected (p_client_state p) = true →
  may_disconnect l s = true →
  ∃ s' p' m c, sps_disconnect E (Some l) s = Some (0, s') ∧
    sps_pipes s' !! l = Some p' ∧ p_client_state p' = SPS_STATE_DISCONNECT ∧ p_map p' = None ∧
    p_map p = Some m ∧ sps_conns s !! m = Some c ∧
    let sd := c_mode (p_connect p) =? SPS_MODE_SRC in
    sps_conns s' = match client_on (negb sd) c with
                   | Some _ => <[m := left_conn sd c]> (sps_conns s)
                   | None => delete m (sps_conns s)
                   end.
Proof.
  intros Hreach Hp Hcon [_ Hfits]%may_disconnect_fits. pose proof (reachable_INV E pf s Hreach) as Hinv.
  pose proof (cores_lookup s _ l p eq_refl Hp) as Hl.
  assert (wp (sps_disconnect E (Some l)) (λ rc s', rc = 0 ∧ released pf l (core_of p) (vw s) (vw s')) s) as Hwp.
  { eapply (wp_sps_disconnect E pf l (core_of p) (vw s)); try done. cbn. by rewrite Hcon. }
  destruct (wp_elim _ _ _ Hwp) as (rc & s' & Heq & -> & Hinv' & Hcores & m & c & Hm & Hc & Hconns).
  assert (v_cores (vw s') !! l = Some (core_src_of false (idle_core (core_of p)))) as Hl'
    by (rewrite Hcores; apply lookup_insert_eq).
  destruct (pipes_lookup s' _ l _ eq_refl Hl') as (p' & Hp' & Hpk').
  exists s', p', m, c. rewrite (core_state _ _ Hpk'), (core_map _ _ Hpk'). by split_and!.
Qed.
End Props.

(** ** Witnesses *)

Lemma sps_never_stuck_witness :
  let s := demo_state [OpAllocEndpoint; OpConnect 1 (demo_cfg 0 100 200)] in
  enabled (OpDisconnect 1) s = true ∧ ∃ r s', run_op demo_env (OpDisconnect 1) s = Some (r, s').
Proof.
  intros s. assert (enabled (OpDisconnect 1) s = true) as Hen by (vm_compute; reflexivity).
  split; [exact Hen|]. apply (sps_never_stuck demo_env demo_pf s (OpDisconnect 1)); [|exact Hen].
  apply (sps_demo_reachable [OpAllocEndpoint; OpConnect 1 (demo_cfg 0 100 200)]). vm_compute. reflexivity.
Defined.

Lemma sps_pipes_owned_witness :
  let s := demo_state demo_pair in
  pipe_slot s 100 0 = Some (SlotPipe 1) ∧ pipe_slot s 200 0 = Some (SlotPipe 2) ∧
  NoDup (connections_q s).
Proof.
  intros s. split_and!; [vm_compute; reflexivity|vm_compute; reflexivity|].
  apply (sps_pipes_owned demo_env demo_pf s). apply (sps_demo_reachable demo_pair). vm_compute. reflexivity.
Defined.

Lemma sps_nothing_left_witness :
  let s := demo_state (demo_pair ++ [OpDisconnect 1; OpDisconnect 2]) in
  sps_conns s = ∅ ∧ total_alloc (sps_mem s) = 6144.
Proof.
  intros s. split; [|vm_compute; reflexivity].
  apply (sps_nothing_left demo_env demo_pf s).
  - apply (sps_demo_reachable (demo_pair ++ [OpDisconnect 1; OpDisconnect 2])). vm_compute. reflexivity.
  - assert (bool_decide (map_Forall (λ _ p, p_client_state p = SPS_STATE_DISCONNECT) (sps_pipes s)) = true)
      as Hb by (vm_compute; reflexivity).
    exact (proj1 (bool_decide_eq_true _) Hb).
Defined.

(** The BAM 300 refuses: the client keeps its pipe, and the BAM's endpoint is stuck. *)
Lemma sps_connect_outcome_witness :
  let s := demo_state [OpAllocEndpoint] in
  let cfg := demo_cfg 0 300 SPS_DEV_HANDLE_MEM in
  fst <$> sps_connect demo_env (Some 1%positive) (Some cfg) s = Some SPS_ERROR ∧
  ∃ rc s', sps_connect demo_env (Some 1%positive) (Some cfg) s = Some (rc, s').
Proof.
  intros s cfg. split; [vm_compute; reflexivity|].
  destruct (sps_connect_outcome demo_env demo_pf s 1%positive sps_client_init cfg) as (rc & s' & Heq & _).
  - apply (sps_demo_reachable [OpAllocEndpoint]). vm_compute. reflexivity.
  - vm_compute. reflexivity.
  - reflexivity.
  - vm_compute. discriminate.
  - vm_compute. discriminate.
  - exists rc, s'. exact Heq.
Defined.
