(* ===== verification/SpsRing.v ===== *)
(** * SPS: the descriptor ring of a connected pipe

    The transfers of [sps_bam.c]: clients write descriptors into the FIFO of a pipe in system
    mode, the BAM completes them in order, and the driver hands them back by events or by
    [sps_get_iovec]. The state is the [sps_pipe] of [SpsTypes] with the memory that its
    pointers name and the two offset registers of the pipe. What the BAM has done since its
    read offset was last read, the status of the interrupt and the calls that a client makes in
    its callback are the environment.

    The client's functions hold the spinlock of the BAM, and the interrupt handler does not: a
    callback that calls the driver with the lock held never returns, which is undefined here. *)

From S2P Require Import Prelude.
From S2P Require Import SpsTypes.
From S2P Require Import SpsDev.

(** ** Constants *)

Definition BAM_STATE_REMOTE : Z := 2 ^ 6.
Definition SPS_IOVEC_FLAG_INT : Z := 0x8000.
Definition SPS_IOVEC_FLAG_EOT : Z := 0x4000.
Definition SPS_IOVEC_FLAG_EOB : Z := 0x2000.
Definition SPS_IOVEC_FLAG_NWD : Z := 0x1000.
Definition SPS_IOVEC_FLAG_CMD : Z := 0x0800.
Definition SPS_IOVEC_FLAG_LOCK : Z := 0x0400.
Definition SPS_IOVEC_FLAG_UNLOCK : Z := 0x0200.
Definition SPS_IOVEC_FLAG_IMME : Z := 0x0100.
Definition SPS_IOVEC_FLAG_NO_SUBMIT : Z := 0x0020.
Definition SPS_IOVEC_FLAG_DEFAULT : Z := 0x0010.
Definition SPS_IOVEC_MAX_SIZE : Z := 32 * 1024 - 1.
(** The union of the eight flags [INT] to [IMME]. *)
Definition BAM_IOVEC_FLAG_MASK : Z := 0xff00.
Definition SPS_EVENT_INVALID : Z := 0.

(** [DESC_UPPER_ADDR], and [DESC_FLAG_WORD] with its [u64] result passed as [u32]. *)
Definition DESC_UPPER_ADDR (flags : Z) : Z := Z.land flags 0xF.
Definition DESC_FLAG_WORD (flags addr : Z) : Z :=
  u32 (Z.lor (Z.shiftr (Z.land addr 0xF00000000) 32) flags).

(** ** State *)

Record sps_iovec := mkIovec { v_addr : Z; v_size : Z; v_flags : Z }.
Definition zero_iovec : sps_iovec := mkIovec 0 0 0.

#[export] Instance sps_iovec_eq_dec : EqDecision sps_iovec.
Proof. solve_decision. Defined.

(** [struct sps_event_notify]; the transfer of the two events that have one. *)
Record sps_event_notify := mkNotify {
  nt_user : Z;
  nt_event_id : Z;
  nt_transfer : option (sps_iovec * Z);
}.

#[export] Instance sps_event_notify_eq_dec : EqDecision sps_event_notify.
Proof. solve_decision. Defined.

(** What happens to the ring, in order: a descriptor and its user pointer are written; the
    write offset is given to the BAM; the descriptors that the BAM completed since the last
    reading, as it left them, are found; the driver takes one as processed; an event is
    triggered; a completed descriptor is handed to the client; with neither queue nor
    acknowledging client, all completed ones are dropped. *)
Inductive ring_event :=
  | EvDescriptor (d : sps_iovec) (user : Z)
  | EvWriteOffset (offset : Z)
  | EvCompleted (l : list sps_iovec)
  | EvProcessed
  | EvTrigger (reg : sps_bam_event_reg) (n : sps_event_notify)
  | EvIovec (d : sps_iovec)
  | EvDropped
  | EvStatus (status : Z)
  | EvRingClearIrq
  | EvRingIrq (on : bool) (mask : Z).

Record ring := mkRing {
  r_pipe : sps_pipe;
  r_desc_buf : list sps_iovec;
  r_desc_cache : list sps_iovec;
  r_user_ptrs : list Z;
  r_read : Z;
  r_write : Z;
  r_hist : list ring_event;
}.

(** A client's call. *)
Inductive ring_call :=
  | CallTransferOne (addr size user flags : Z)
  | CallTransfer (iovecs : list sps_iovec) (user : Z)
  | CallGetIovec
  | CallGetEvent
  | CallFreeCount
  | CallUnusedDesc
  | CallIsEmpty
  | CallRegisterEvent (options mode xfer_done callback user : Z).

(** [env_calls locked r n]: the calls of the client's callback for [n], and whether the lock is
    held. [env_zlt]: the BAM found a packet of length zero. [env_dev_irq]: the BAM's interrupt
    is on. [env_cached_wp]: the BAM's option [SPS_BAM_CACHED_WP]. *)
Record ring_env := mkRingEnv {
  env_completed : ring → list sps_iovec;
  env_status : ring → Z;
  env_calls : bool → ring → sps_event_notify → list ring_call;
  env_zlt : ring → bool;
  env_dev_irq : bool;
  env_cached_wp : bool;
  env_enhd_pipe : bool;
}.

Abbreviation RG := (M ring).

Definition ring_log (e : ring_event) : RG () :=
  modify (λ r, mkRing (r_pipe r) (r_desc_buf r) (r_desc_cache r) (r_user_ptrs r) (r_read r)
                 (r_write r) (e :: r_hist r)).
Definition ring_pipe : RG sps_pipe := r ← get; mret (r_pipe r).
Definition upd_ring_pipe (f : sps_pipe → sps_pipe) : RG () :=
  modify (λ r, mkRing (f (r_pipe r)) (r_desc_buf r) (r_desc_cache r) (r_user_ptrs r) (r_read r)
                 (r_write r) (r_hist r)).
Definition upd_sys (f : sps_bam_sys_mode → sps_bam_sys_mode) : RG () :=
  upd_ring_pipe (λ p, with_sys (f (p_sys p)) p).

(** ** Memory

    The cell of a descriptor FIFO at an offset in bytes; only whole descriptors are cells. *)

Definition cell_of (offset : Z) : option Z :=
  if offset mod sizeof_iovec =? 0 then Some (offset / sizeof_iovec) else None.
Definition load_cell {A} (l : list A) (offset : Z) : RG A :=
  of_option (i ← cell_of offset; lookup_z l i).
Definition store_cell {A} (l : list A) (offset : Z) (a : A) : RG (list A) :=
  of_option (i ← cell_of offset; store_z l i a).

Definition put_desc_buf (offset : Z) (d : sps_iovec) : RG () :=
  r ← get;
  l ← store_cell (r_desc_buf r) offset d;
  modify (λ r, mkRing (r_pipe r) l (r_desc_cache r) (r_user_ptrs r) (r_read r) (r_write r) (r_hist r)).
Definition put_desc_cache (offset : Z) (d : sps_iovec) : RG () :=
  r ← get;
  l ← store_cell (r_desc_cache r) offset d;
  modify (λ r, mkRing (r_pipe r) (r_desc_buf r) l (r_user_ptrs r) (r_read r) (r_write r) (r_hist r)).
Definition put_user_ptr (index user : Z) : RG () :=
  r ← get;
  l ← of_option (store_z (r_user_ptrs r) index user);
  modify (λ r, mkRing (r_pipe r) (r_desc_buf r) (r_desc_cache r) l (r_read r) (r_write r) (r_hist r)).

(** ** The registers

    The BAM completes descriptors in order and writes a producer's back to memory; reading its
    offset shows how far it came. *)

Fixpoint completed_buf (n : nat) (from : Z) (l buf : list sps_iovec) : list sps_iovec :=
  match l with
  | [] => buf
  | d :: l' =>
      completed_buf n (from + 1) l' (<[Z.to_nat (from mod Z.of_nat n) := d]> buf)
  end.

Section Ring.
Context (E : ring_env).

Definition bam_pipe_get_desc_read_offset : RG Z :=
  r ← get;
  let l := env_completed E r in
  let buf := completed_buf (length (r_desc_buf r)) (r_read r / sizeof_iovec) l (r_desc_buf r) in
  let offset := (r_read r + sizeof_iovec * Z.of_nat (length l)) mod p_desc_size (r_pipe r) in
  put (mkRing (r_pipe r) buf (r_desc_cache r) (r_user_ptrs r) offset (r_write r)
         (EvCompleted l :: r_hist r)) ;;
  mret offset.

Definition bam_pipe_set_desc_write_offset (next_write : Z) : RG () :=
  modify (λ r, mkRing (r_pipe r) (r_desc_buf r) (r_desc_cache r) (r_user_ptrs r) (r_read r)
                 next_write (EvWriteOffset next_write :: r_hist r)).

Definition bam_pipe_get_desc_write_offset : RG Z := r ← get; mret (r_write r).

(** The offset after [offset]. *)
Definition next_offset (pipe : sps_pipe) (offset : Z) : Z :=
  let next := u32 (offset + sizeof_iovec) in if p_desc_size pipe <=? next then 0 else next.

(** ** Events; [callback] runs a client's callback *)

Section Handlers.
Context (callback : sps_event_notify → RG ()).

Definition trigger_event (reg : sps_bam_event_reg) (n : sps_event_notify) : RG () :=
  ring_log (EvTrigger reg n) ;;
  when (negb (er_callback reg =? 0)) (callback n).

(** [pipe->sys.event_regs[SPS_EVENT_INDEX(event_id)]] *)
Definition event_reg (event_id : Z) : RG sps_bam_event_reg :=
  pipe ← ring_pipe; of_option (lookup_z (y_event_regs (p_sys pipe)) (event_id - 1)).

Definition pipe_handler_generic (event_id : Z) : RG () :=
  if (event_id - 1 <? 0) || (Z.of_nat SPS_NUM_EVENTS <=? event_id - 1) then mret ()
  else
    reg ← event_reg event_id;
    trigger_event reg (mkNotify (er_user reg) event_id None).

Definition pipe_handler_wakeup : RG () :=
  pipe ← ring_pipe;
  when (o_one_shot (p_opts pipe))
    (upd_ring_pipe (λ p, with_irq_mask (Z.ldiff (p_irq_mask p) SPS_O_WAKEUP) p) ;;
     pipe ← ring_pipe;
     let on := pipe_irq_on (o_polled (p_opts pipe)) (env_dev_irq E) pipe in
     when (on && has (p_state pipe) BAM_STATE_BAM2BAM && negb (has (p_state pipe) BAM_STATE_IRQ))
       (ring_log EvRingClearIrq) ;;
     upd_ring_pipe (pipe_with_irq on) ;;
     ring_log (EvRingIrq on (p_irq_mask pipe))) ;;
  reg ← event_reg SPS_EVENT_WAKEUP;
  trigger_event reg (mkNotify (er_user reg) SPS_EVENT_WAKEUP None).

(** The loops that fetch a producer's completed descriptors. *)
Definition fetch_descs (from to : Z) : RG () :=
  for_loop (Z.to_nat ((to - from + sizeof_iovec - 1) / sizeof_iovec)) 0 (λ i,
    r ← get;
    d ← load_cell (r_desc_buf r) (from + sizeof_iovec * i);
    put_desc_cache (from + sizeof_iovec * i) d).

Definition fetch_completed (offset end_offset : Z) : RG () :=
  pipe ← ring_pipe;
  if end_offset <? offset then fetch_descs offset (p_desc_size pipe) ;; fetch_descs 0 end_offset
  else fetch_descs offset end_offset.

(** The event of one processed descriptor, if the client asked for it. *)
Definition notify_processed (enabled : Z) (d : sps_iovec) (user : Z) : RG () :=
  let flags := Z.land (v_flags d) enabled in
  when (negb (user =? 0) || negb (flags =? 0))
    (let event_id := if has flags SPS_IOVEC_FLAG_EOT then SPS_EVENT_EOT else SPS_EVENT_DESC_DONE in
     reg ← event_reg event_id;
     trigger_event reg (mkNotify (er_user reg) event_id (Some (d, user)))).

(** The loop over the completed descriptors; [ack] says which offset it moves. *)
Fixpoint process_completed (turns : nat) (ack : bool) (enabled offset end_offset : Z) : RG () :=
  match turns with
  | O => UB
  | S turns' =>
      r ← get;
      d ← load_cell (r_desc_cache r) offset;
      user ← of_option (lookup_z (r_user_ptrs r) (offset / sizeof_iovec));
      let offset' := next_offset (r_pipe r) offset in
      upd_sys (if ack then sys_with_cache_offset offset' else sys_with_acked_offset offset') ;;
      ring_log EvProcessed ;;
      notify_processed enabled d user ;;
      if offset' =? end_offset then mret ()
      else process_completed turns' ack enabled offset' end_offset
  end.

(** With [SPS_O_LATE_EOT] a producer's last completed descriptor is left out when the BAM has
    not yet marked it. *)
Definition late_end (end_offset : Z) : RG Z :=
  r ← get;
  let pipe := r_pipe r in
  if (p_mode pipe =? SPS_MODE_SRC) && o_late_eot (p_opts pipe) then
    let last := u32 ((if end_offset =? 0 then p_desc_size pipe else end_offset) - sizeof_iovec) in
    d ← load_cell (r_desc_buf r) last;
    mret (if has (v_flags d) SPS_IOVEC_FLAG_EOT then end_offset else last)
  else mret end_offset.

Definition enabled_flags (pipe : sps_pipe) : Z :=
  Z.lor (if has (p_irq_mask pipe) SPS_O_EOT then SPS_IOVEC_FLAG_EOT else 0)
        (if has (p_irq_mask pipe) SPS_O_DESC_DONE then SPS_IOVEC_FLAG_INT else 0).

Definition pipe_handler_eot : RG () :=
  pipe ← ring_pipe;
  if y_handler_eot (p_sys pipe) then mret ()
  else
    upd_sys (sys_with_handler true) ;;
    end_offset ← bam_pipe_get_desc_read_offset;
    end_offset ← late_end end_offset;
    (if y_no_queue (p_sys pipe) then
       when (negb (y_ack_xfers (p_sys pipe)))
         (upd_sys (sys_with_acked_offset end_offset) ;; ring_log EvDropped)
     else
       let ack := y_ack_xfers (p_sys pipe) in
       let offset := if ack then y_cache_offset (p_sys pipe) else y_acked_offset (p_sys pipe) in
       if offset =? end_offset then mret ()
       else
         when (p_mode pipe =? SPS_MODE_SRC) (fetch_completed offset end_offset) ;;
         process_completed (Z.to_nat (p_num_descs pipe)) ack (enabled_flags pipe) offset
           end_offset) ;;
    upd_sys (sys_with_handler false).

(** [status] is that of the register; each test clears the bits it handles. *)
Definition pipe_handler : RG () :=
  r ← get;
  let raw := env_status E r in
  ring_log (EvStatus raw) ;;
  pipe ← ring_pipe;
  let status := Z.land raw (p_irq_mask pipe) in
  if status =? 0 then mret ()
  else
    let transfer := has status (Z.lor SPS_O_EOT SPS_O_DESC_DONE) &&
                    negb (has (p_state pipe) BAM_STATE_BAM2BAM) in
    when transfer
      (pipe_handler_eot ;;
       pipe ← ring_pipe;
       when (y_no_queue (p_sys pipe))
         (pipe_handler_generic (if has status SPS_O_EOT then SPS_EVENT_EOT
                                else SPS_EVENT_DESC_DONE))) ;;
    let status := if transfer then Z.ldiff status (Z.lor SPS_O_EOT SPS_O_DESC_DONE) else status in
    when (has status SPS_O_WAKEUP) pipe_handler_wakeup ;;
    let status := Z.ldiff status SPS_O_WAKEUP in
    when (has status SPS_O_INACTIVE) (pipe_handler_generic SPS_EVENT_INACTIVE) ;;
    let status := Z.ldiff status SPS_O_INACTIVE in
    when (has status SPS_O_OUT_OF_DESC) (pipe_handler_generic SPS_EVENT_OUT_OF_DESC) ;;
    let status := Z.ldiff status SPS_O_OUT_OF_DESC in
    let rst := has status SPS_O_RST_ERROR && env_enhd_pipe E in
    when rst (pipe_handler_generic SPS_EVENT_RST_ERROR) ;;
    let status := if rst then Z.ldiff status SPS_O_RST_ERROR else status in
    let hresp := has status SPS_O_HRESP_ERROR && env_enhd_pipe E in
    when hresp (pipe_handler_generic SPS_EVENT_HRESP_ERROR) ;;
    let status := if hresp then Z.ldiff status SPS_O_HRESP_ERROR else status in
    when (has status SPS_EVENT_ERROR) (pipe_handler_generic SPS_EVENT_ERROR).

(** ** Transfers *)

Definition is_remote (pipe : sps_pipe) : bool :=
  has (p_state pipe) (Z.lor BAM_STATE_BAM2BAM BAM_STATE_REMOTE).

(** The flags of a new descriptor, 16 bits wide. *)
Definition desc_flags (pipe : sps_pipe) (flags : Z) : Z :=
  u16 (Z.lor (if negb (has flags SPS_IOVEC_FLAG_DEFAULT) then Z.land flags BAM_IOVEC_FLAG_MASK
              else if p_mode pipe =? SPS_MODE_SRC then SPS_IOVEC_FLAG_INT
              else Z.lor SPS_IOVEC_FLAG_INT SPS_IOVEC_FLAG_EOT)
             (DESC_UPPER_ADDR flags)).

(** Is the ring full, even after polling? *)
Definition ring_is_full (next_write : Z) : RG bool :=
  pipe ← ring_pipe;
  if negb (next_write =? y_acked_offset (p_sys pipe)) then mret false
  else if negb (y_ack_xfers (p_sys pipe)) && o_polled (p_opts pipe) then
    pipe_handler_eot ;;
    pipe ← ring_pipe;
    mret (next_write =? y_acked_offset (p_sys pipe))
  else mret true.

Definition sps_bam_pipe_transfer_one (addr size user flags : Z) : RG Z :=
  pipe ← ring_pipe;
  if is_remote pipe then mret SPS_ERROR
  else if y_no_queue (p_sys pipe) && negb (user =? 0) then mret SPS_ERROR
  else
    let next_write := next_offset pipe (y_desc_offset (p_sys pipe)) in
    full ← ring_is_full next_write;
    if full : bool then mret SPS_ERROR
    else
      pipe ← ring_pipe;
      let offset := y_desc_offset (p_sys pipe) in
      let desc := mkIovec (u32 addr) (u16 size) (desc_flags pipe flags) in
      when (negb (y_no_queue (p_sys pipe))) (put_desc_cache offset desc) ;;
      put_desc_buf offset desc ;;
      when (negb (y_no_queue (p_sys pipe))) (put_user_ptr (offset / sizeof_iovec) user) ;;
      ring_log (EvDescriptor desc user) ;;
      upd_sys (sys_with_desc_offset next_write) ;;
      when (negb (has flags SPS_IOVEC_FLAG_NO_SUBMIT)) (bam_pipe_set_desc_write_offset next_write) ;;
      mret 0.

Definition sps_bam_get_free_count : RG (Z * Z) :=
  pipe ← ring_pipe;
  if is_remote pipe then mret (SPS_ERROR, 0)
  else
    let next_write := next_offset pipe (y_desc_offset (p_sys pipe)) in
    let acked := y_acked_offset (p_sys pipe) in
    let free := if next_write <=? acked then acked - next_write
                else u32 (p_desc_size pipe - next_write + acked) in
    mret (0, free / sizeof_iovec).

Definition sps_bam_pipe_get_unused_desc_num : RG (Z * Z) :=
  sw_offset ← bam_pipe_get_desc_read_offset;
  pipe ← ring_pipe;
  peer_offset ← (if env_cached_wp E && negb (has (p_state pipe) BAM_STATE_BAM2BAM) then
                   mret (y_desc_offset (p_sys pipe))
                 else bam_pipe_get_desc_write_offset);
  mret (0, if sw_offset <=? peer_offset then (peer_offset - sw_offset) / sizeof_iovec
           else u32 (peer_offset + p_desc_size pipe - sw_offset) / sizeof_iovec).

(** [n] counts the descriptors after this one. *)
Fixpoint transfer_loop (iovecs : list sps_iovec) (user : Z) : RG Z :=
  match iovecs with
  | [] => mret 0
  | iovec :: iovecs' =>
      let last := match iovecs' with [] => true | _ => false end in
      let flags := if last then v_flags iovec else Z.lor (v_flags iovec) SPS_IOVEC_FLAG_NO_SUBMIT in
      result ← sps_bam_pipe_transfer_one (v_addr iovec) (v_size iovec) (if last then user else 0) flags;
      if negb (result =? 0) then mret SPS_ERROR else transfer_loop iovecs' user
  end.

Definition sps_bam_pipe_transfer (iovecs : list sps_iovec) (user : Z) : RG Z :=
  pipe ← ring_pipe;
  if Z.of_nat (length iovecs) =? 0 then mret SPS_ERROR
  else
    count ← (if negb (y_ack_xfers (p_sys pipe)) && o_polled (p_opts pipe) then
               '(_, count) ← sps_bam_pipe_get_unused_desc_num;
               mret (u32 (p_desc_size pipe / sizeof_iovec - count - 1))
             else '(_, count) ← sps_bam_get_free_count; mret count);
    if count <? Z.of_nat (length iovecs) then mret SPS_ERROR else transfer_loop iovecs user.

(** Nothing adds to the queue of events, so that the event is always invalid. *)
Definition sps_bam_pipe_get_event : RG (Z * Z) :=
  pipe ← ring_pipe;
  if y_no_queue (p_sys pipe) then mret (SPS_ERROR, SPS_EVENT_INVALID)
  else
    when (o_polled (p_opts pipe) && negb (has (p_state pipe) BAM_STATE_BAM2BAM)) pipe_handler_eot ;;
    mret (0, SPS_EVENT_INVALID).

Definition sps_bam_pipe_get_iovec : RG (Z * sps_iovec) :=
  pipe ← ring_pipe;
  if negb (y_ack_xfers (p_sys pipe)) || is_remote pipe then mret (SPS_ERROR, zero_iovec)
  else
    let no_queue := y_no_queue (p_sys pipe) in
    when ((o_polled (p_opts pipe) || o_hybrid (p_opts pipe)) && negb no_queue) pipe_handler_eot ;;
    read_offset ← (if no_queue then bam_pipe_get_desc_read_offset
                   else pipe ← ring_pipe; mret (y_cache_offset (p_sys pipe)));
    r ← get;
    let pipe := r_pipe r in
    let acked := y_acked_offset (p_sys pipe) in
    if read_offset =? acked then mret (0, zero_iovec)
    else
      d ← load_cell (r_desc_buf r) acked;
      upd_sys (sys_with_acked_offset (next_offset pipe acked)) ;;
      ring_log (EvIovec d) ;;
      mret (0, d).

Definition sps_bam_pipe_is_empty : RG (Z * bool) :=
  pipe ← ring_pipe;
  if has (p_state pipe) BAM_STATE_REMOTE then mret (SPS_ERROR, false)
  else
    end_offset ← bam_pipe_get_desc_read_offset;
    if negb (has (p_state pipe) BAM_STATE_BAM2BAM) then
      mret (0, end_offset =? y_acked_offset (p_sys pipe))
    else
      acked_offset ← bam_pipe_get_desc_write_offset;
      if end_offset =? acked_offset then mret (0, true)
      else
        r ← get;
        mret (0, env_zlt E r && (next_offset pipe acked_offset =? end_offset)).

Definition sps_bam_pipe_pending_desc : RG bool :=
  sw_offset ← bam_pipe_get_desc_read_offset;
  peer_offset ← bam_pipe_get_desc_write_offset;
  mret (negb (sw_offset =? peer_offset)).

Definition sps_bam_pipe_reg_event (options mode xfer_done callback' user : Z) : RG Z :=
  pipe ← ring_pipe;
  if y_no_queue (p_sys pipe) && negb (xfer_done =? 0) && negb (mode =? 0) then mret SPS_ERROR
  else
    let reg := mkReg xfer_done callback' mode user in
    upd_sys (λ y, sys_with_regs
      (foldl (λ regs e, if has options (oe_option e)
                        then <[Z.to_nat (oe_event_id e - 1) := reg]> regs else regs)
         (y_event_regs y) opt_event_table) y) ;;
    mret 0.
End Handlers.

(** ** The interface for clients ([sps.c])

    The owner of the pipe holds the lock of the BAM during its call. *)

Definition sps_check_iovec_flags (flags : Z) : Z :=
  if has flags SPS_IOVEC_FLAG_NWD && negb (has flags (Z.lor SPS_IOVEC_FLAG_EOT SPS_IOVEC_FLAG_CMD))
  then SPS_ERROR
  else if has flags SPS_IOVEC_FLAG_EOT && has flags SPS_IOVEC_FLAG_CMD then SPS_ERROR
  else if negb (has flags SPS_IOVEC_FLAG_CMD) &&
          has flags (Z.lor SPS_IOVEC_FLAG_LOCK SPS_IOVEC_FLAG_UNLOCK) then SPS_ERROR
  else if has flags SPS_IOVEC_FLAG_LOCK && has flags SPS_IOVEC_FLAG_UNLOCK then SPS_ERROR
  else if has flags SPS_IOVEC_FLAG_IMME && has flags SPS_IOVEC_FLAG_CMD then SPS_ERROR
  else if has flags SPS_IOVEC_FLAG_IMME && has flags SPS_IOVEC_FLAG_NWD then SPS_ERROR
  else 0.

(** A callback with the lock held: any call spins for ever. *)
Definition locked_callback (n : sps_event_notify) : RG () :=
  r ← get;
  match env_calls E true r n with [] => mret () | _ :: _ => UB end.

Definition sps_transfer_one (addr size user flags : Z) : RG Z :=
  if negb (sps_check_iovec_flags flags =? 0) then mret SPS_ERROR
  else sps_bam_pipe_transfer_one locked_callback (Z.land addr 0xFFFFFFFF) size user
         (DESC_FLAG_WORD flags addr).

Definition sps_transfer (iovecs : list sps_iovec) (user : Z) : RG Z :=
  if (Z.of_nat (length iovecs) =? 0) ||
     existsb (λ v, (SPS_IOVEC_MAX_SIZE <? v_size v) || negb (sps_check_iovec_flags (v_flags v) =? 0))
       iovecs then mret SPS_ERROR
  else sps_bam_pipe_transfer locked_callback iovecs user.

Definition sps_get_iovec : RG (Z * sps_iovec) := sps_bam_pipe_get_iovec locked_callback.

Inductive ring_result :=
  | RgCode (rc : Z)
  | RgCount (rc count : Z)
  | RgIovec (rc : Z) (d : sps_iovec)
  | RgEmpty (rc : Z) (empty : bool).

Definition run_call (c : ring_call) : RG ring_result :=
  match c with
  | CallTransferOne addr size user flags =>
      rc ← sps_transfer_one addr size user flags; mret (RgCode rc)
  | CallTransfer iovecs user => rc ← sps_transfer iovecs user; mret (RgCode rc)
  | CallGetIovec => '(rc, d) ← sps_get_iovec; mret (RgIovec rc d)
  | CallGetEvent => '(rc, id) ← sps_bam_pipe_get_event locked_callback; mret (RgCount rc id)
  | CallFreeCount => '(rc, n) ← sps_bam_get_free_count; mret (RgCount rc n)
  | CallUnusedDesc => '(rc, n) ← sps_bam_pipe_get_unused_desc_num; mret (RgCount rc n)
  | CallIsEmpty => '(rc, e) ← sps_bam_pipe_is_empty; mret (RgEmpty rc e)
  | CallRegisterEvent options mode xfer_done cb user =>
      rc ← sps_bam_pipe_reg_event options mode xfer_done cb user; mret (RgCode rc)
  end.

(** A callback from the interrupt handler may call. *)
Fixpoint run_calls (l : list ring_call) : RG () :=
  match l with [] => mret () | c :: l' => run_call c ;; run_calls l' end.
Definition isr_callback (n : sps_event_notify) : RG () :=
  r ← get; run_calls (env_calls E false r n).

(** The interrupt of the pipe. *)
Definition ring_interrupt : RG () := pipe_handler isr_callback.
End Ring.
