(* ===== verification/SpsQueue.v ===== *)
(** * SPS: the queue that a descriptor ring implements

    The specification of [SpsRing]: a queue of at most [N - 1] descriptors that are sent,
    published, completed by the BAM in order, processed and acknowledged, as an automaton over
    the events of the ring's history; and the arithmetic of the cursors, which count from the
    connection on, against the offsets of the code. *)

From S2P Require Import Prelude.
From S2P Require Import SpsTypes.
From S2P Require Import SpsDev.
From S2P Require Import SpsRing.

(** ** The automaton *)

(** What stays fixed while the pipe is connected: the number of cells, the direction, the
    options [SPS_O_NO_Q] (negated) and [SPS_O_ACK_TRANSFERS], the flags that ask for events. *)
Record fifo_config := mkConfig {
  g_cells : nat;
  g_producer : bool;
  g_queue : bool;
  g_ack : bool;
  g_enabled : Z;
}.

(** [f_due]: the event that must be triggered next. *)
Record fifo := mkFifo {
  f_sent : list (sps_iovec * Z);
  f_done : list sps_iovec;
  f_pub : nat;
  f_seen : nat;
  f_acked : nat;
  f_due : option (Z * (sps_iovec * Z));
}.

Definition fifo_initial : fifo := mkFifo [] [] 0 0 0 None.

Definition f_count (f : fifo) : nat := length (f_sent f).

(** The event that a client gets for a completed descriptor. *)
Definition event_due (enabled : Z) (d : sps_iovec) (user : Z) : option (Z * (sps_iovec * Z)) :=
  let flags := Z.land (v_flags d) enabled in
  if negb (user =? 0) || negb (flags =? 0) then
    Some (if has flags SPS_IOVEC_FLAG_EOT then SPS_EVENT_EOT else SPS_EVENT_DESC_DONE, (d, user))
  else None.

(** How far descriptors can be handed to the client. *)
Definition f_limit (g : fifo_config) (f : fifo) : nat :=
  if g_queue g then f_seen f else length (f_done f).

Definition is_none {A} (o : option A) : bool := match o with None => true | Some _ => false end.

Definition fifo_step (g : fifo_config) (f : fifo) (e : ring_event) : option fifo :=
  match e with
  | EvTrigger _ n =>
      match nt_transfer n with
      | None => if is_none (f_due f) then Some f else None
      | Some t =>
          if bool_decide (f_due f = Some (nt_event_id n, t)) then
            Some (mkFifo (f_sent f) (f_done f) (f_pub f) (f_seen f) (f_acked f) None)
          else None
      end
  | _ =>
      if negb (is_none (f_due f)) then None
      else
        match e with
        | EvDescriptor d user =>
            if bool_decide (S (f_count f) < f_acked f + g_cells g)%nat then
              Some (mkFifo (f_sent f ++ [(d, user)]) (f_done f) (f_pub f) (f_seen f) (f_acked f) None)
            else None
        | EvWriteOffset offset =>
            if offset =? sizeof_iovec * Z.of_nat (f_count f mod g_cells g) then
              Some (mkFifo (f_sent f) (f_done f) (f_count f) (f_seen f) (f_acked f) None)
            else None
        | EvCompleted l =>
            if bool_decide (length (f_done f ++ l) ≤ f_pub f)%nat &&
               (g_producer g ||
                bool_decide (f_done f ++ l = take (length (f_done f ++ l)) (fst <$> f_sent f))) then
              Some (mkFifo (f_sent f) (f_done f ++ l) (f_pub f) (f_seen f) (f_acked f) None)
            else None
        | EvProcessed =>
            d ← f_done f !! f_seen f;
            t ← f_sent f !! f_seen f;
            if g_queue g then
              Some (mkFifo (f_sent f) (f_done f) (f_pub f) (S (f_seen f))
                      (if g_ack g then f_acked f else S (f_seen f)) (event_due (g_enabled g) d t.2))
            else None
        | EvIovec d =>
            if g_ack g && bool_decide (f_acked f < f_limit g f)%nat &&
               bool_decide (f_done f !! f_acked f = Some d) then
              Some (mkFifo (f_sent f) (f_done f) (f_pub f) (f_seen f) (S (f_acked f)) None)
            else None
        | EvDropped =>
            if g_queue g || g_ack g then None
            else Some (mkFifo (f_sent f) (f_done f) (f_pub f) (f_seen f) (length (f_done f)) None)
        | _ => Some f
        end
  end.

(** The newest event comes first. *)
Fixpoint fifo_run (g : fifo_config) (hist : list ring_event) : option fifo :=
  match hist with
  | [] => Some fifo_initial
  | e :: hist' => f ← fifo_run g hist'; fifo_step g f e
  end.

(** ** Cursors and offsets *)

(** The offset of the cell of the [k]th descriptor. *)
Definition at_cell (n k : nat) : Z := sizeof_iovec * Z.of_nat (k mod n).

Lemma mod_inj (n i j : nat) : (i ≤ j < i + n)%nat → (i mod n = j mod n)%nat → i = j.
Proof.
  intros Hij Heq. destruct (decide (n = 0)%nat) as [->|Hn]; [lia|].
  pose proof (Nat.div_mod_eq i n). pose proof (Nat.div_mod_eq j n).
  assert (i / n = j / n)%nat; [|nia]. nia.
Qed.

Lemma at_inj (n i j : nat) : (i ≤ j < i + n)%nat → at_cell n i = at_cell n j → i = j.
Proof. unfold at_cell, sizeof_iovec. intros Hij Heq. apply (mod_inj n); lia. Qed.

Lemma at_bound (n k : nat) : (0 < n)%nat → 0 ≤ at_cell n k ≤ sizeof_iovec * (Z.of_nat n - 1).
Proof.
  unfold at_cell, sizeof_iovec. intros Hn. pose proof (Nat.mod_upper_bound k n). lia.
Qed.

Lemma mod_succ (n k : nat) :
  (0 < n)%nat → (S k mod n = if decide (S (k mod n) = n) then O else S (k mod n))%nat.
Proof.
  intros Hn. pose proof (Nat.mod_upper_bound k n) as Hk. pose proof (Nat.div_mod_eq k n) as Hd.
  destruct (decide (S (k mod n) = n)) as [Heq|Hne].
  - replace (S k) with (S (k / n) * n)%nat by nia. apply Nat.Div0.mod_mul.
  - replace (S k) with (S (k mod n) + k / n * n)%nat by lia.
    rewrite Nat.Div0.mod_add. apply Nat.mod_small. lia.
Qed.

Lemma cell_at (n k : nat) : cell_of (at_cell n k) = Some (Z.of_nat (k mod n)).
Proof.
  unfold cell_of, at_cell, sizeof_iovec. rewrite Z.mul_comm, Z_mod_mult, Z_div_mult by lia. done.
Qed.

Lemma div_at (n k : nat) : at_cell n k / sizeof_iovec = Z.of_nat (k mod n).
Proof. unfold at_cell, sizeof_iovec. rewrite Z.mul_comm. apply Z_div_mult. lia. Qed.

(** The offset after that of [k]. *)
Lemma next_offset_at pipe (n k : nat) :
  (0 < n)%nat → Z.of_nat n < 2 ^ 20 → p_desc_size pipe = sizeof_iovec * Z.of_nat n →
  next_offset pipe (at_cell n k) = at_cell n (S k).
Proof.
  intros Hn Hmax Hsize. unfold next_offset. pose proof (at_bound n k Hn) as Hb.
  unfold at_cell, sizeof_iovec in *. pose proof (Nat.mod_upper_bound k n).
  rewrite u32_small by lia. rewrite Hsize, (mod_succ n k Hn).
  destruct (decide _); destruct (Z.leb_spec (8 * Z.of_nat n) (8 * Z.of_nat (k mod n) + 8)); lia.
Qed.

Lemma advance_at (n k m : nat) :
  (0 < n)%nat →
  (at_cell n k + sizeof_iovec * Z.of_nat m) mod (sizeof_iovec * Z.of_nat n) = at_cell n (k + m).
Proof.
  intros Hn. unfold at_cell, sizeof_iovec. rewrite <- Z.mul_add_distr_l, Zmult_mod_distr_l.
  rewrite <- Nat2Z.inj_add, <- Nat2Z.inj_mod. by rewrite Nat.Div0.add_mod_idemp_l.
Qed.

(** The distance from one cursor to another is what the code computes from their offsets. *)
Lemma distance_at (n i j : nat) :
  (0 < n)%nat → (i ≤ j < i + n)%nat →
  (if at_cell n i <=? at_cell n j then (at_cell n j - at_cell n i) / sizeof_iovec
   else (at_cell n j + sizeof_iovec * Z.of_nat n - at_cell n i) / sizeof_iovec) =
  Z.of_nat (j - i).
Proof.
  intros Hn Hij. unfold at_cell, sizeof_iovec.
  pose proof (Nat.mod_upper_bound i n). pose proof (Nat.mod_upper_bound j n).
  pose proof (Nat.div_mod_eq i n). pose proof (Nat.div_mod_eq j n).
  destruct (Z.leb_spec (8 * Z.of_nat (i mod n)) (8 * Z.of_nat (j mod n))) as [Hle|Hlt].
  - replace (8 * Z.of_nat (j mod n) - 8 * Z.of_nat (i mod n)) with (Z.of_nat (j mod n - i mod n) * 8) by lia.
    rewrite Z_div_mult by lia. assert (j / n = i / n)%nat by nia. f_equal. nia.
  - replace (8 * Z.of_nat (j mod n) + 8 * Z.of_nat n - 8 * Z.of_nat (i mod n))
      with (Z.of_nat (j mod n + n - i mod n) * 8) by lia.
    rewrite Z_div_mult by lia. assert (j / n = S (i / n))%nat by nia. f_equal. nia.
Qed.

(** ** The cells that the BAM has completed *)

Lemma completed_length n from l buf : length (completed_buf n from l buf) = length buf.
Proof. revert from buf. induction l as [|d l IH]; intros from buf; cbn; [done|]. by rewrite IH, length_insert. Qed.

Lemma completed_other n (k j : nat) l buf :
  (0 < n)%nat → (∀ i, (i < length l)%nat → ((k + i) mod n)%nat ≠ j) →
  completed_buf n (Z.of_nat k) l buf !! j = buf !! j.
Proof.
  intros Hn. revert k buf. induction l as [|d l IH]; intros k buf Hj; cbn [completed_buf]; [done|].
  replace (Z.of_nat k + 1) with (Z.of_nat (S k)) by lia. rewrite IH.
  - rewrite <- Nat2Z.inj_mod, Nat2Z.id. apply list_lookup_insert_ne.
    specialize (Hj 0%nat). rewrite Nat.add_0_r in Hj. apply Hj. cbn. lia.
  - intros i Hi. replace (S k + i)%nat with (k + S i)%nat by lia. apply Hj. cbn. lia.
Qed.

Lemma completed_in n (k i : nat) l buf :
  (0 < n)%nat → length buf = n → (length l ≤ n)%nat → (i < length l)%nat →
  completed_buf n (Z.of_nat k) l buf !! ((k + i) mod n)%nat = l !! i.
Proof.
  intros Hn. revert k i buf. induction l as [|d l IH]; intros k i buf Hb Hl Hi; [cbn in Hi; lia|].
  cbn [completed_buf]. replace (Z.of_nat k + 1) with (Z.of_nat (S k)) by lia.
  destruct i as [|i].
  - rewrite Nat.add_0_r, completed_other; [|done|].
    + rewrite <- Nat2Z.inj_mod, Nat2Z.id. cbn. apply list_lookup_insert_eq.
      rewrite Hb. apply Nat.mod_upper_bound. lia.
    + intros i Hi' Heq. symmetry in Heq. apply mod_inj in Heq; cbn in Hl; lia.
  - replace (k + S i)%nat with (S k + i)%nat by lia. change ((d :: l) !! S i) with (l !! i).
    cbn in Hl, Hi. apply IH; [|lia..]. by rewrite length_insert.
Qed.
