(* ===== verification/SpsRingInv.v ===== *)
(** * SPS: a ring and the queue it holds

    The relation between a ring and the state of the queue after the ring's history, and that
    the elementary steps of the code keep it. *)

From S2P Require Import Prelude.
From S2P Require Import SpsTypes.
From S2P Require Import SpsDev.
From S2P Require Import SpsRing.
From S2P Require Import SpsQueue.

(** ** Flags *)

Lemma has_lor_r x a b : has x (Z.lor a b) = has x a || has x b.
Proof.
  unfold has. rewrite Z.land_lor_distr_r, <- negb_andb. f_equal.
  apply eq_true_iff_eq. rewrite andb_true_iff, !Z.eqb_eq. apply Z.lor_eq_0_iff.
Qed.

Lemma has_lor_l x a b : Z.land a b = 0 → has (Z.lor x a) b = has x b.
Proof. intros Hab. unfold has. by rewrite Z.land_lor_distr_l, Hab, Z.lor_0_r. Qed.

Lemma has_ldiff x a b : Z.land b a = 0 → has (Z.ldiff x a) b = has x b.
Proof.
  intros Hab. unfold has. do 2 f_equal. apply Z.bits_inj'. intros i Hi.
  rewrite !Z.land_spec, Z.ldiff_spec. assert (Z.testbit (Z.land b a) i = false) as Hz by (rewrite Hab; apply Z.bits_0).
  rewrite Z.land_spec in Hz. destruct (Z.testbit x i), (Z.testbit a i), (Z.testbit b i); done.
Qed.

(** ** The relation *)

Record config_ok (g : fifo_config) (p : sps_pipe) : Prop := {
  co_size : p_desc_size p = sizeof_iovec * Z.of_nat (g_cells g);
  co_num : p_num_descs p = Z.of_nat (g_cells g);
  co_cells : (2 ≤ g_cells g)%nat;
  co_max : Z.of_nat (g_cells g) < 2 ^ 20;
  co_remote : is_remote p = false;
  co_mode : (p_mode p =? SPS_MODE_SRC) = g_producer g;
  co_queue : y_no_queue (p_sys p) = negb (g_queue g);
  co_ack : y_ack_xfers (p_sys p) = g_ack g;
  co_late : (p_mode p =? SPS_MODE_SRC) && o_late_eot (p_opts p) = false;
  co_enabled : enabled_flags p = g_enabled g;
  co_regs : length (y_event_regs (p_sys p)) = SPS_NUM_EVENTS;
}.

(** The [i]th descriptor as it is in memory. *)
Definition entry (f : fifo) (i : nat) : option sps_iovec :=
  if decide (i < length (f_done f))%nat then f_done f !! i else fst <$> f_sent f !! i.

Definition offsets_at (g : fifo_config) (y : sps_bam_sys_mode) (f : fifo) : Prop :=
  y_desc_offset y = at_cell (g_cells g) (f_count f) ∧
  y_acked_offset y = at_cell (g_cells g) (f_acked f) ∧
  (g_queue g = true → g_ack g = true → y_cache_offset y = at_cell (g_cells g) (f_seen f)).

Record fifo_ok (g : fifo_config) (f : fifo) : Prop := {
  fo_seen : (f_seen f ≤ length (f_done f))%nat;
  fo_limit : (f_acked f ≤ f_limit g f)%nat;
  fo_done : (length (f_done f) ≤ f_pub f)%nat;
  fo_pub : (f_pub f ≤ f_count f)%nat;
  fo_room : (f_count f < f_acked f + g_cells g)%nat;
  fo_same_cursor : g_queue g = true → g_ack g = false → f_acked f = f_seen f;
  fo_consumer : g_producer g = false → f_done f = take (length (f_done f)) (fst <$> f_sent f);
}.

(** The cache holds the descriptors still to be processed: all of a consumer's, and a
    producer's up to [e]. *)
Record memory_ok (g : fifo_config) (e : nat) (r : ring) (f : fifo) : Prop := {
  mo_buf_length : length (r_desc_buf r) = g_cells g;
  mo_buf i : (f_acked f ≤ i < f_count f)%nat → r_desc_buf r !! (i mod g_cells g)%nat = entry f i;
  mo_cache_length : g_queue g = true → length (r_desc_cache r) = g_cells g;
  mo_cache i : g_queue g = true → (f_seen f ≤ i < f_count f)%nat → g_producer g = false ∨ (i < e)%nat →
    r_desc_cache r !! (i mod g_cells g)%nat = entry f i;
  mo_users_length : g_queue g = true → length (r_user_ptrs r) = g_cells g;
  mo_users i : g_queue g = true → (f_seen f ≤ i < f_count f)%nat →
    r_user_ptrs r !! (i mod g_cells g)%nat = snd <$> f_sent f !! i;
}.

Record ring_rel (g : fifo_config) (e : nat) (r : ring) (f : fifo) : Prop := {
  rr_config : config_ok g (r_pipe r);
  rr_offsets : offsets_at g (p_sys (r_pipe r)) f;
  rr_read : r_read r = at_cell (g_cells g) (length (f_done f));
  rr_write : r_write r = at_cell (g_cells g) (f_pub f);
  rr_fifo : fifo_ok g f;
  rr_memory : memory_ok g e r f;
  rr_fetched : (e ≤ length (f_done f))%nat;
}.

(** [f] is the queue after the history of [r], and [due] the event that must come next. *)
Definition ring_ok (g : fifo_config) (e : nat) (due : option (Z * (sps_iovec * Z))) (r : ring)
    (f : fifo) : Prop :=
  fifo_run g (r_hist r) = Some f ∧ f_due f = due ∧ ring_rel g e r f.

Definition ring_busy (r : ring) : bool := y_handler_eot (p_sys (r_pipe r)).

(** What any step does to the queue. *)
Record grows (r : ring) (f : fifo) (r' : ring) (f' : fifo) : Prop := {
  gr_sent : f_sent f `prefix_of` f_sent f';
  gr_done : f_done f `prefix_of` f_done f';
  gr_seen : (f_seen f ≤ f_seen f')%nat;
  gr_acked : (f_acked f ≤ f_acked f')%nat;
  gr_busy : ring_busy r' = ring_busy r;
  gr_held : ring_busy r = true → f_seen f' = f_seen f;
}.

#[export] Hint Constructors grows : core.

Lemma grows_refl r f r' : ring_busy r' = ring_busy r → grows r f r' f.
Proof. intros Hb. split; done || lia. Qed.

Lemma grows_trans r1 f1 r2 f2 r3 f3 : grows r1 f1 r2 f2 → grows r2 f2 r3 f3 → grows r1 f1 r3 f3.
Proof.
  intros [H1 H2 H3 H4 H5 H6] [K1 K2 K3 K4 K5 K6]. split; [by etrans..|lia|lia|congruence|].
  intros Hb. rewrite K6, H6; congruence.
Qed.

Lemma entry_lookup g e r f i : ring_rel g e r f → (i < f_count f)%nat → is_Some (entry f i).
Proof.
  intros Hr Hi. unfold entry. destruct (decide _) as [Hlt|Hge]; [by apply lookup_lt_is_Some|].
  apply fmap_is_Some. by apply lookup_lt_is_Some.
Qed.

Lemma entry_done f i : (i < length (f_done f))%nat → entry f i = f_done f !! i.
Proof. intros Hi. unfold entry. by rewrite decide_True. Qed.

(** The relation does not read the history or the pending event, or the parts of the pipe that
    [config_ok] and [offsets_at] do not. *)
Lemma ring_rel_same g e e' r f r' f' :
  ring_rel g e r f → (e' ≤ e)%nat → config_ok g (r_pipe r') →
  offsets_at g (p_sys (r_pipe r')) f' →
  r_desc_buf r' = r_desc_buf r → r_desc_cache r' = r_desc_cache r → r_user_ptrs r' = r_user_ptrs r →
  r_read r' = r_read r → r_write r' = r_write r →
  f_sent f' = f_sent f → f_done f' = f_done f → f_pub f' = f_pub f → f_seen f' = f_seen f →
  f_acked f' = f_acked f → ring_rel g e' r' f'.
Proof.
  intros [Hc Ho Hrd Hwr Hf Hm He] Hle Hc' Ho' Hb Hca Hu Hrd' Hwr' E1 E2 E3 E4 E5.
  destruct f as [s d p n a u], f' as [s' d' p' n' a' u']. cbn in *. subst.
  split; cbn; try done; [congruence|congruence|by destruct Hf| |lia].
  destruct Hm. split; unfold f_count, entry in *; cbn in *; rewrite ?Hb, ?Hca, ?Hu; try done.
  intros i Hq Hi Hor. apply mo_cache0; [done|done|]. destruct Hor; [by left|right; lia].
Qed.

(** ** Sending *)

Section Keep.
Context (g : fifo_config).

Lemma fifo_ok_seen_acked f : fifo_ok g f → g_queue g = true → (f_acked f ≤ f_seen f)%nat.
Proof. intros Hf Hq. pose proof (fo_limit _ _ Hf) as Hl. unfold f_limit in Hl. by rewrite Hq in Hl. Qed.

Definition sent_fifo (d : sps_iovec) (user : Z) (f : fifo) : fifo :=
  mkFifo (f_sent f ++ [(d, user)]) (f_done f) (f_pub f) (f_seen f) (f_acked f) None.

Definition sent_ring (d : sps_iovec) (user next : Z) (k : nat) (r : ring) : ring :=
  mkRing (with_sys (sys_with_desc_offset next (p_sys (r_pipe r))) (r_pipe r))
    (<[k := d]> (r_desc_buf r)) (if g_queue g then <[k := d]> (r_desc_cache r) else r_desc_cache r)
    (if g_queue g then <[k := user]> (r_user_ptrs r) else r_user_ptrs r) (r_read r) (r_write r)
    (EvDescriptor d user :: r_hist r).

Lemma sent_count d user f : f_count (sent_fifo d user f) = S (f_count f).
Proof. unfold f_count. cbn. rewrite length_app. cbn. lia. Qed.

Lemma entry_sent d user f i :
  (i ≤ f_count f)%nat → (length (f_done f) ≤ f_count f)%nat →
  entry (sent_fifo d user f) i = if decide (i = f_count f) then Some d else entry f i.
Proof.
  intros Hi Hd. unfold entry. cbn [sent_fifo f_done f_sent]. destruct (decide (i = f_count f)) as [->|Hne].
  - rewrite decide_False by lia. unfold f_count. by rewrite list_lookup_middle.
  - destruct (decide _); [done|]. rewrite lookup_app_l; [done|]. unfold f_count in *. lia.
Qed.

Lemma memory_sent e r f d user next :
  ring_rel g e r f → (S (f_count f) < f_acked f + g_cells g)%nat →
  memory_ok g e (sent_ring d user next (f_count f mod g_cells g) r) (sent_fifo d user f).
Proof.
  intros [Hc _ _ _ Hf Hm He] Hroom. pose proof (co_cells _ _ Hc) as Hn.
  assert (f_count f mod g_cells g < g_cells g)%nat as Hk by (apply Nat.mod_upper_bound; lia).
  assert (length (f_done f) ≤ f_count f)%nat as Hdc by (pose proof (fo_done _ _ Hf); pose proof (fo_pub _ _ Hf); lia).
  assert (∀ i, (f_acked f ≤ i < f_count f)%nat → f_count f mod g_cells g ≠ i mod g_cells g)%nat as Hne.
  { intros i Hi Heq. symmetry in Heq. apply mod_inj in Heq; lia. }
  assert (∀ {A} (l : list A) a i, length l = g_cells g → (f_acked f ≤ i < S (f_count f))%nat →
    <[(f_count f mod g_cells g)%nat := a]> l !! (i mod g_cells g)%nat =
    if decide (i = f_count f) then Some a else l !! (i mod g_cells g)%nat) as Hins.
  { intros A l a i Hl Hi. destruct (decide (i = f_count f)) as [->|Hi'].
    - apply list_lookup_insert_eq. by rewrite Hl.
    - apply list_lookup_insert_ne. apply Hne. lia. }
  destruct Hm as [Hbl Hb Hcl Hca Hul Hu].
  split; cbn [sent_ring r_desc_buf r_desc_cache r_user_ptrs]; rewrite ?sent_count; cbn [sent_fifo f_acked f_seen f_sent].
  - by rewrite length_insert.
  - intros i Hi. rewrite Hins, entry_sent by (done || lia). destruct (decide _); [done|]. apply Hb. lia.
  - intros Hq. rewrite Hq, length_insert. auto.
  - intros i Hq Hi Hor. pose proof (fifo_ok_seen_acked f Hf Hq). rewrite Hq, Hins, entry_sent by (auto || lia).
    destruct (decide _); [done|]. apply Hca; [done|lia|done].
  - intros Hq. rewrite Hq, length_insert. auto.
  - intros i Hq Hi. pose proof (fifo_ok_seen_acked f Hf Hq). rewrite Hq, Hins by (auto || lia).
    destruct (decide (i = f_count f)) as [->|]; [unfold f_count; by rewrite list_lookup_middle|].
    rewrite lookup_app_l by (unfold f_count in *; lia). apply Hu; [done|lia].
Qed.

Lemma ring_ok_sent e r f d user :
  ring_ok g e None r f → (S (f_count f) < f_acked f + g_cells g)%nat →
  ring_ok g e None (sent_ring d user (at_cell (g_cells g) (S (f_count f))) (f_count f mod g_cells g) r)
    (sent_fifo d user f).
Proof.
  intros (Hrun & Hdue & Hr) Hroom. split_and!; [|done|].
  { cbn [r_hist sent_ring fifo_run]. rewrite Hrun. cbn. rewrite Hdue. cbn. by rewrite bool_decide_true. }
  pose proof (memory_sent e r f d user (at_cell (g_cells g) (S (f_count f))) Hr Hroom) as Hm.
  destruct Hr as [Hc (Ho1 & Ho2 & Ho3) Hrd Hwr Hf _ He]. split; try done.
  - destruct Hc. by split.
  - split_and!; [by rewrite sent_count|done|done].
  - destruct Hf as [? ? ? ? ? ? Hcons]. unfold f_limit, f_count in *.
    split; cbn; rewrite ?length_app; cbn; try done; [lia..|].
    intros Hp. rewrite fmap_app, take_app_le; [by apply Hcons|].
    rewrite length_fmap. lia.
Qed.

(** ** Publishing *)

Lemma ring_ok_published e r f :
  ring_ok g e None r f →
  ring_ok g e None
    (mkRing (r_pipe r) (r_desc_buf r) (r_desc_cache r) (r_user_ptrs r) (r_read r)
       (at_cell (g_cells g) (f_count f)) (EvWriteOffset (at_cell (g_cells g) (f_count f)) :: r_hist r))
    (mkFifo (f_sent f) (f_done f) (f_count f) (f_seen f) (f_acked f) None).
Proof.
  intros (Hrun & Hdue & [Hc Ho Hrd Hwr Hf Hm He]). split_and!; [|done|].
  - cbn [r_hist fifo_run]. rewrite Hrun. cbn. rewrite Hdue. cbn. by rewrite Z.eqb_refl.
  - split; try done.
    + destruct Hf. split; cbn; try done; lia.
    + destruct Hm. by split.
Qed.

(** ** Completion by the BAM *)

Definition completed_fifo (l : list sps_iovec) (f : fifo) : fifo :=
  mkFifo (f_sent f) (f_done f ++ l) (f_pub f) (f_seen f) (f_acked f) None.

Definition completed_ring (l : list sps_iovec) (r : ring) : ring :=
  mkRing (r_pipe r) (completed_buf (length (r_desc_buf r)) (r_read r / sizeof_iovec) l (r_desc_buf r))
    (r_desc_cache r) (r_user_ptrs r)
    ((r_read r + sizeof_iovec * Z.of_nat (length l)) mod p_desc_size (r_pipe r)) (r_write r)
    (EvCompleted l :: r_hist r).

Lemma entry_completed l f i :
  (g_producer g = true → i < length (f_done f) ∨ length (f_done f ++ l) ≤ i)%nat →
  (g_producer g = false → f_done f ++ l = take (length (f_done f ++ l)) (fst <$> f_sent f)) →
  entry (completed_fifo l f) i = entry f i.
Proof.
  intros Hp Hc. unfold entry. cbn [completed_fifo f_done f_sent].
  destruct (decide (i < length (f_done f))%nat) as [Hlt|Hge].
  - rewrite decide_True by (rewrite length_app; lia). by apply lookup_app_l.
  - destruct (decide (i < length (f_done f ++ l))%nat) as [Hlt'|]; [|done].
    destruct (g_producer g); [destruct Hp; [done|lia..]|].
    rewrite (Hc eq_refl), lookup_take_lt, list_lookup_fmap by done. done.
Qed.

Lemma ring_ok_completed e r f l :
  ring_ok g e None r f → (length (f_done f ++ l) ≤ f_pub f)%nat →
  (g_producer g = false → f_done f ++ l = take (length (f_done f ++ l)) (fst <$> f_sent f)) →
  ring_ok g e None (completed_ring l r) (completed_fifo l f) ∧
  r_read (completed_ring l r) = at_cell (g_cells g) (length (f_done f ++ l)).
Proof.
  intros (Hrun & Hdue & [Hc Ho Hrd Hwr Hf Hm He]) Hpub Hcons.
  pose proof (co_cells _ _ Hc) as Hn. rewrite length_app in *.
  assert (r_read (completed_ring l r) = at_cell (g_cells g) (length (f_done f) + length l)) as Hread.
  { cbn. rewrite Hrd, (co_size _ _ Hc). apply advance_at. lia. }
  split; [|by rewrite Hread].
  assert (∀ i, (f_acked f ≤ i < f_count f)%nat →
    r_desc_buf (completed_ring l r) !! (i mod g_cells g)%nat = entry (completed_fifo l f) i) as Hbuf.
  { intros i Hi. pose proof (fo_room _ _ Hf). pose proof (fo_pub _ _ Hf).
    pose proof (fo_limit _ _ Hf). pose proof (fo_seen _ _ Hf).
    assert (f_acked f ≤ length (f_done f))%nat as Had by (unfold f_limit in *; destruct (g_queue g); lia).
    cbn [completed_ring r_desc_buf]. rewrite Hrd, div_at, (mo_buf_length _ _ _ _ Hm).
    set (k := length (f_done f)) in *.
    assert (∀ b, completed_buf (g_cells g) (Z.of_nat (k mod g_cells g)) l b = completed_buf (g_cells g) (Z.of_nat k) l b) as Hmod.
    { clear. intros b. assert (Z.of_nat (k mod g_cells g) mod Z.of_nat (g_cells g) = Z.of_nat k mod Z.of_nat (g_cells g)) as Heq.
      { by rewrite <- !Nat2Z.inj_mod, Nat.Div0.mod_mod. }
      revert Heq. generalize (Z.of_nat k), (Z.of_nat (k mod g_cells g)). clear k.
      revert b. induction l as [|d l' IH]; intros b x y Heq; cbn; [done|]. rewrite Heq. apply IH.
      by rewrite <- Zplus_mod_idemp_l, Heq, Zplus_mod_idemp_l. }
    rewrite Hmod. destruct (decide (k ≤ i < k + length l)%nat) as [Hin|Hout].
    - replace i with (k + (i - k))%nat at 1 by lia.
      rewrite completed_in by (apply Hm || lia). unfold entry. cbn [completed_fifo f_done f_sent].
      rewrite decide_True by (rewrite length_app; fold k; lia). rewrite lookup_app_r by (fold k; lia). done.
    - rewrite completed_other; [|lia|].
      + rewrite (mo_buf _ _ _ _ Hm i Hi). symmetry. apply entry_completed; rewrite length_app; [intros _; fold k; lia|done].
      + intros j Hj Heq. destruct (decide (k + j ≤ i)%nat).
        * apply mod_inj in Heq; lia.
        * symmetry in Heq. apply mod_inj in Heq; lia. }
  split_and!; [|done|].
  - cbn [r_hist completed_ring fifo_run]. rewrite Hrun. cbn. rewrite Hdue. cbn.
    rewrite length_app, bool_decide_true by done. destruct (g_producer g); [done|].
    rewrite <- (length_app (f_done f) l). cbn. rewrite bool_decide_true; [done|]. rewrite length_app. by apply Hcons.
  - split; cbn [completed_ring completed_fifo r_pipe r_write f_done f_pub]; rewrite ?length_app; try done.
    + destruct Hf. split; unfold f_limit, f_count in *; cbn; rewrite ?length_app; try done; try lia.
      destruct (g_queue g); lia.
    + destruct Hm as [Hbl Hb Hcl Hca Hul Hu]. split; unfold f_count in *; cbn [completed_ring completed_fifo r_desc_buf r_desc_cache r_user_ptrs f_sent f_seen f_acked]; try done.
      * by rewrite completed_length.
      * intros i Hq Hi Hor. rewrite Hca by done. symmetry. apply entry_completed; [|by rewrite length_app].
        intros Hp. destruct Hor; [congruence|lia].
    + lia.
Qed.
End Keep.
