(* ===== verification/SpsRingRuns.v ===== *)
(** * SPS: the functions of the descriptor ring keep the queue

    For every function of [SpsRing], bottom up, that it is defined on a ring that holds a queue
    and leaves one, and what it does to the queue. *)

From S2P Require Import Prelude.
From S2P Require Import SpsTypes.
From S2P Require Import SpsDev.
From S2P Require Import SpsRing.
From S2P Require Import SpsQueue.
From S2P Require Import SpsRingInv.

(** What the driver relies on: the BAM completes at most the descriptors that it was given, a
    consumer's descriptors stay as they are, and a client makes no call in a callback that
    comes while its own call holds the lock: such a call never returns, whatever the comment of
    [pipe_handler_eot] says. *)
Class RingEnvOk (E : ring_env) : Prop := {
  completed_given r :
    0 < p_desc_size (r_pipe r) →
    sizeof_iovec * Z.of_nat (length (env_completed E r)) ≤ (r_write r - r_read r) mod p_desc_size (r_pipe r);
  completed_consumer r i d :
    p_mode (r_pipe r) ≠ SPS_MODE_SRC → env_completed E r !! i = Some d →
    r_desc_buf r !! Z.to_nat ((r_read r / sizeof_iovec + Z.of_nat i) mod Z.of_nat (length (r_desc_buf r))) = Some d;
  calls_locked r n : env_calls E true r n = [];
}.

Section Runs.
Context (E : ring_env) `{HE : !RingEnvOk E} (g : fifo_config).

(** ** The registers *)

Lemma room_given e r f :
  ring_rel g e r f →
  (r_write r - r_read r) mod p_desc_size (r_pipe r) =
  sizeof_iovec * Z.of_nat (f_pub f - length (f_done f)).
Proof.
  intros [Hc Ho Hrd Hwr Hf Hm He]. pose proof (co_cells _ _ Hc). pose proof (fo_done _ _ Hf).
  pose proof (fo_pub _ _ Hf). pose proof (fo_room _ _ Hf). pose proof (fo_seen _ _ Hf).
  assert (f_acked f ≤ length (f_done f))%nat.
  { pose proof (fo_limit _ _ Hf) as Hl. unfold f_limit in Hl. destruct (g_queue g); lia. }
  set (m := (f_pub f - length (f_done f))%nat). rewrite Hwr, Hrd, (co_size _ _ Hc).
  replace (f_pub f) with (length (f_done f) + m)%nat by (unfold m; lia).
  rewrite <- advance_at by lia. rewrite Zminus_mod_idemp_l.
  replace (at_cell (g_cells g) (length (f_done f)) + sizeof_iovec * Z.of_nat m - at_cell (g_cells g) (length (f_done f)))
    with (sizeof_iovec * Z.of_nat m) by lia.
  apply Z.mod_small. unfold sizeof_iovec, m. lia.
Qed.

Lemma wp_read_offset e r f (Q : Z → ring → Prop) :
  ring_ok g e None r f →
  (∀ l, let f' := completed_fifo l f in let r' := completed_ring l r in
     ring_ok g e None r' f' → Q (at_cell (g_cells g) (length (f_done f'))) r') →
  wp (bam_pipe_get_desc_read_offset E) Q r.
Proof.
  intros Hok HQ. unfold bam_pipe_get_desc_read_offset. wp_steps. specialize (HQ (env_completed E r)).
  destruct Hok as (Hrun & Hdue & Hr). set (l := env_completed E r) in *.
  assert (0 < p_desc_size (r_pipe r)) as Hpos.
  { rewrite (co_size _ _ (rr_config _ _ _ _ Hr)). pose proof (co_cells _ _ (rr_config _ _ _ _ Hr)). unfold sizeof_iovec. lia. }
  pose proof (completed_given r Hpos) as Hgiven. rewrite (room_given e r f Hr) in Hgiven. fold l in Hgiven.
  unfold sizeof_iovec in Hgiven. destruct Hr as [Hc Ho Hrd Hwr Hf Hm He].
  pose proof (fo_done _ _ Hf) as Hdp. pose proof (fo_pub _ _ Hf) as Hpc. pose proof (co_cells _ _ Hc) as Hn.
  assert (length (f_done f ++ l) ≤ f_pub f)%nat as Hle by (rewrite length_app; lia).
  destruct (ring_ok_completed g e r f l) as [Hok' Hread]; [by split_and!|done| |].
  - intros Hp. pose proof (fo_consumer _ _ Hf Hp) as Hcons. apply list_eq. intros i.
    rewrite (Hcons) at 1. destruct (decide (i < length (f_done f ++ l))%nat) as [Hi|Hi].
    + rewrite (lookup_take_lt _ (length (f_done f ++ l))) by done.
      destruct (decide (i < length (f_done f))%nat) as [Hi'|Hi'].
      * rewrite lookup_app_l by (rewrite <- Hcons; done). by rewrite lookup_take_lt.
      * rewrite <- Hcons. rewrite lookup_app_r by lia. set (j := (i - length (f_done f))%nat).
        rewrite length_app in Hi. destruct (lookup_lt_is_Some_2 l j) as [d Hd]; [unfold j; lia|]. rewrite Hd.
        pose proof (completed_consumer r j d) as Hsame. fold l in Hsame.
        rewrite (mo_buf_length _ _ _ _ Hm), Hrd, div_at, <- Nat2Z.inj_add, <- Nat2Z.inj_mod, Nat2Z.id in Hsame.
        rewrite Nat.Div0.add_mod_idemp_l in Hsame. replace (length (f_done f) + j)%nat with i in Hsame by (unfold j; lia).
        rewrite (mo_buf _ _ _ _ Hm) in Hsame.
        { unfold entry in Hsame. rewrite decide_False in Hsame by lia. rewrite list_lookup_fmap. symmetry.
          apply Hsame; [|done]. intros Hmode. pose proof (co_mode _ _ Hc) as Hcm. rewrite Hmode, Hp in Hcm. done. }
        pose proof (fo_limit _ _ Hf) as Hl. pose proof (fo_seen _ _ Hf).
        unfold f_limit in Hl. destruct (g_queue g); lia.
    + rewrite !lookup_ge_None_2; [done|rewrite length_take; lia|rewrite <- Hcons; lia].
  - cbn zeta in HQ. change (f_done (completed_fifo l f)) with (f_done f ++ l) in HQ.
    rewrite <- Hread in HQ. apply HQ, Hok'.
Qed.

Lemma grows_completed l r f : grows r f (completed_ring l r) (completed_fifo l f).
Proof. split; cbn; done || lia || by eexists. Qed.

(** ** Callbacks and events *)

(** [still]: a callback that changes nothing. *)
Definition cb_ok (still : Prop) (cb : sps_event_notify → RG ()) : Prop :=
  ∀ n e r f, ring_ok g e None r f →
    wp (cb n) (λ _ r', ∃ f', ring_ok g e None r' f' ∧ grows r f r' f' ∧ (still → f' = f)) r.

Lemma ring_ok_log e r f x :
  ring_ok g e None r f → fifo_step g f x = Some f →
  ring_ok g e None (mkRing (r_pipe r) (r_desc_buf r) (r_desc_cache r) (r_user_ptrs r) (r_read r)
    (r_write r) (x :: r_hist r)) f.
Proof.
  intros (Hrun & Hdue & Hr) Hx. split_and!; [|done|].
  - cbn [r_hist fifo_run]. by rewrite Hrun.
  - eapply (ring_rel_same g e e r f); try done; apply Hr.
Qed.

Lemma wp_event_reg e due r f event_id (Q : sps_bam_event_reg → ring → Prop) :
  ring_ok g e due r f → 1 ≤ event_id ≤ 9 → (∀ reg, Q reg r) → wp (event_reg event_id) Q r.
Proof.
  intros (_ & _ & Hr) Hid HQ. unfold event_reg, ring_pipe. wp_steps.
  destruct (lookup_z_lt (y_event_regs (p_sys (r_pipe r))) (event_id - 1)) as [reg Hreg].
  { rewrite (co_regs _ _ (rr_config _ _ _ _ Hr)). unfold SPS_NUM_EVENTS. lia. }
  eapply wp_of_option; [exact Hreg|]. apply HQ.
Qed.

Definition undue (f : fifo) : fifo :=
  mkFifo (f_sent f) (f_done f) (f_pub f) (f_seen f) (f_acked f) None.

Lemma undue_id f : f_due f = None → undue f = f.
Proof. destruct f. cbn. by intros ->. Qed.

Section Handlers.
Context (still : Prop) (cb : sps_event_notify → RG ()) (Hcb : cb_ok still cb).

(** The pending event is triggered; an event without a transfer is always possible. *)
Lemma wp_trigger e due r f reg n :
  ring_ok g e due r f → (λ t, (nt_event_id n, t)) <$> nt_transfer n = due →
  wp (trigger_event cb reg n) (λ _ r', ∃ f', ring_ok g e None r' f' ∧ grows r f r' f' ∧ (still → f' = undue f)) r.
Proof.
  intros (Hrun & Hdue & Hr) Hn. unfold trigger_event, ring_log. wp_steps.
  set (r1 := mkRing _ _ _ _ _ _ _).
  assert (ring_ok g e None r1 (undue f)) as Hok1.
  { split_and!; [|done|eapply (ring_rel_same g e e r f); try done; apply Hr].
    cbn [r1 r_hist fifo_run]. rewrite Hrun. cbn. destruct (nt_transfer n) as [t|]; cbn in Hn.
    - by rewrite bool_decide_true by congruence.
    - rewrite Hdue, <- Hn. cbn. by rewrite undue_id by congruence. }
  assert (grows r f r1 (undue f)) as Hg by (split; cbn; done || lia).
  apply wp_when; intros _.
  - eapply wp_mono; [apply Hcb, Hok1|]. cbn beta. intros _ r' (f' & Hok' & Hg' & Hs).
    exists f'. split_and!; [done|by eapply grows_trans|done].
  - by exists (undue f).
Qed.

Lemma wp_pipe_handler_generic e r f event_id :
  ring_ok g e None r f →
  wp (pipe_handler_generic cb event_id) (λ _ r', ∃ f', ring_ok g e None r' f' ∧ grows r f r' f' ∧ (still → f' = f)) r.
Proof.
  intros Hok. unfold pipe_handler_generic. destruct (_ || _) eqn:Hid.
  { apply wp_ret. exists f. split_and!; [done|by apply grows_refl|done]. }
  apply orb_false_iff in Hid as [H1%Z.ltb_ge H2%Z.leb_gt]. unfold SPS_NUM_EVENTS in H2.
  apply wp_bind. eapply wp_event_reg; [done|lia|]. intros reg.
  eapply wp_mono; [apply (wp_trigger e None r f); done|]. cbn beta.
  intros _ r' (f' & Hok' & Hg & Hs). exists f'. split_and!; [done..|].
  intros Hst. rewrite Hs by done. apply undue_id, Hok.
Qed.

Lemma wp_notify e r f d user :
  ring_ok g e (event_due (g_enabled g) d user) r f →
  wp (notify_processed cb (g_enabled g) d user)
    (λ _ r', ∃ f', ring_ok g e None r' f' ∧ grows r f r' f' ∧ (still → f' = undue f)) r.
Proof.
  unfold event_due, notify_processed. intros Hok. apply wp_when; intros Hb; rewrite Hb in Hok; cbn iota in Hok.
  - apply wp_bind. eapply wp_event_reg; [done|by destruct (has _ _)|]. intros reg.
    by apply (wp_trigger e _ r f reg _ Hok).
  - exists f. destruct Hok as (Hrun & Hdue & Hr). split_and!; [done|by apply grows_refl|].
    intros _. by rewrite undue_id.
Qed.

(** ** Fetching a producer's descriptors *)

Definition ring_with_cache (c : list sps_iovec) (r : ring) : ring :=
  mkRing (r_pipe r) (r_desc_buf r) c (r_user_ptrs r) (r_read r) (r_write r) (r_hist r).

(** The cache [c] is a copy of the memory where [P] holds, and wherever it was one. *)
Definition copied (r : ring) (c : list sps_iovec) (P : nat → Prop) : Prop :=
  length c = length (r_desc_cache r) ∧
  (∀ j, P j → c !! j = r_desc_buf r !! j) ∧
  (∀ j, r_desc_cache r !! j = r_desc_buf r !! j → c !! j = r_desc_buf r !! j).

Lemma wp_fetch_descs (a b n : nat) r :
  length (r_desc_buf r) = n → length (r_desc_cache r) = n → (a ≤ b ≤ n)%nat →
  wp (fetch_descs (sizeof_iovec * Z.of_nat a) (sizeof_iovec * Z.of_nat b))
    (λ _ r', ∃ c, r' = ring_with_cache c r ∧ copied r c (λ j, a ≤ j < b)%nat) r.
Proof.
  intros Hb Hc Hab. unfold fetch_descs.
  replace (Z.to_nat _) with (b - a)%nat.
  2:{ unfold sizeof_iovec. replace (8 * Z.of_nat b - 8 * Z.of_nat a + 8 - 1) with (7 + Z.of_nat (b - a) * 8) by lia.
      rewrite Z_div_plus by lia. change (7 / 8) with 0. lia. }
  eapply wp_mono; [apply (wp_for (b - a) _ (λ i r', ∃ c, r' = ring_with_cache c r ∧ copied r c (λ j, a ≤ j < a + Z.to_nat i)%nat))|].
  - exists (r_desc_cache r). split; [by destruct r|]. split_and!; [done|lia|done].
  - intros i r' Hi (c & -> & Hl & Hin & Hold). wp_steps. cbn [ring_with_cache r_desc_buf r_desc_cache].
    assert (sizeof_iovec * Z.of_nat a + sizeof_iovec * i = sizeof_iovec * Z.of_nat (a + Z.to_nat i)) as -> by (unfold sizeof_iovec; lia).
    set (j := (a + Z.to_nat i)%nat). assert (cell_of (sizeof_iovec * Z.of_nat j) = Some (Z.of_nat j)) as Hcell.
    { unfold cell_of, sizeof_iovec. rewrite Z.mul_comm, Z_mod_mult, Z_div_mult by lia. done. }
    destruct (lookup_lt_is_Some_2 (r_desc_buf r) j) as [d Hd]; [unfold j; lia|].
    unfold load_cell, put_desc_cache, store_cell. eapply wp_of_option.
    { rewrite Hcell. cbn. rewrite lookup_z_nat. exact Hd. }
    wp_steps. cbn [ring_with_cache r_desc_cache]. eapply wp_of_option.
    { rewrite Hcell. cbn. rewrite store_z_nat by (rewrite Hl; unfold j; lia). reflexivity. }
    wp_steps. exists (<[j := d]> c). split; [done|]. split_and!.
    + by rewrite length_insert.
    + intros k Hk. destruct (decide (k = j)) as [->|Hne].
      * rewrite list_lookup_insert_eq by (rewrite Hl; unfold j; lia). by rewrite Hd.
      * rewrite list_lookup_insert_ne by done. apply Hin. unfold j in *. lia.
    + intros k Hk. destruct (decide (k = j)) as [->|Hne].
      * rewrite list_lookup_insert_eq by (rewrite Hl; unfold j; lia). by rewrite Hd.
      * rewrite list_lookup_insert_ne by done. by apply Hold.
  - cbn beta. intros _ r' (c & -> & Hl & Hin & Hold). exists c. split_and!; [done..|].
    split_and!; [done| |done]. intros j Hj. apply Hin. lia.
Qed.

(** The cells between two cursors. *)
Lemma cells_between (n s e i : nat) :
  (0 < n)%nat → (s < e < s + n)%nat → (s ≤ i < e)%nat →
  if at_cell n e <? at_cell n s then (s mod n ≤ i mod n < n ∨ i mod n < e mod n)%nat
  else (s mod n ≤ i mod n < e mod n)%nat.
Proof.
  intros Hn Hse Hi. unfold at_cell, sizeof_iovec.
  pose proof (Nat.mod_upper_bound s n). pose proof (Nat.mod_upper_bound e n). pose proof (Nat.mod_upper_bound i n).
  pose proof (Nat.div_mod_eq s n). pose proof (Nat.div_mod_eq e n). pose proof (Nat.div_mod_eq i n).
  destruct (Z.ltb_spec (8 * Z.of_nat (e mod n)) (8 * Z.of_nat (s mod n))).
  - assert (e / n = S (s / n))%nat by nia. assert (i / n = s / n ∨ i / n = S (s / n))%nat as [?|?] by nia; nia.
  - assert (e / n = s / n)%nat by nia. assert (i / n = s / n)%nat by nia. nia.
Qed.

Lemma wp_fetch_completed e r f (s t : nat) :
  ring_rel g e r f → g_queue g = true → (s < t < s + g_cells g)%nat →
  wp (fetch_completed (at_cell (g_cells g) s) (at_cell (g_cells g) t))
    (λ _ r', ∃ c, r' = ring_with_cache c r ∧ length c = g_cells g ∧
       ∀ i, (s ≤ i < t)%nat → c !! (i mod g_cells g)%nat = r_desc_buf r !! (i mod g_cells g)%nat) r.
Proof.
  intros [Hc _ _ _ _ Hm _] Hq Hst. unfold fetch_completed, ring_pipe. wp_steps.
  set (n := g_cells g) in *. pose proof (co_cells _ _ Hc) as Hn. fold n in Hn.
  pose proof (mo_buf_length _ _ _ _ Hm) as Hbl. pose proof (mo_cache_length _ _ _ _ Hm Hq) as Hcl. fold n in Hbl, Hcl.
  pose proof (Nat.mod_upper_bound s n). pose proof (Nat.mod_upper_bound t n).
  assert (∀ i, (s ≤ i < t)%nat → _) as Hbetween by (intros i Hi; exact (cells_between n s t i ltac:(lia) Hst Hi)).
  destruct (at_cell n t <? at_cell n s) eqn:Hlt.
  - apply wp_bind. rewrite (co_size _ _ Hc). fold n. unfold at_cell at 1.
    eapply wp_mono; [apply (wp_fetch_descs (s mod n) n n r); done || lia|]. cbn beta. intros _ r1 (c1 & -> & Hl1 & Hin1 & _).
    change 0 with (sizeof_iovec * Z.of_nat 0). unfold at_cell.
    eapply wp_mono; [apply (wp_fetch_descs 0 (t mod n) n (ring_with_cache c1 r)); cbn; done || lia|].
    cbn beta. intros _ r2 (c2 & -> & Hl2 & Hin2 & Hold2). cbn in Hl2, Hin2, Hold2.
    exists c2. split_and!; [done|lia|]. intros i Hi. destruct (Hbetween i Hi) as [Hhi|Hlo].
    + by apply Hold2, Hin1.
    + apply Hin2. lia.
  - unfold at_cell. apply Z.ltb_ge in Hlt. unfold at_cell, sizeof_iovec in Hlt.
    eapply wp_mono; [apply (wp_fetch_descs (s mod n) (t mod n) n r); done || lia|]. cbn beta.
    intros _ r1 (c1 & -> & Hl1 & Hin1 & _). exists c1. split_and!; [done|lia|]. intros i Hi. by apply Hin1, Hbetween.
Qed.

(** After fetching, or for a consumer at once, the cache holds all completed descriptors. *)
Lemma ring_ok_fetched e r f c :
  ring_ok g e None r f → g_queue g = true → length c = g_cells g →
  (∀ i, (f_seen f ≤ i < length (f_done f))%nat → c !! (i mod g_cells g)%nat = r_desc_buf r !! (i mod g_cells g)%nat) →
  g_producer g = true → ring_ok g (length (f_done f)) None (ring_with_cache c r) f.
Proof.
  intros (Hrun & Hdue & [Hc Ho Hrd Hwr Hf Hm He]) Hq Hl Hin Hp. split_and!; [done|done|]. split; try done.
  destruct Hm as [Hbl Hb Hcl Hca Hul Hu]. split; try done. intros i _ Hi [?|Hlt]; [congruence|].
  cbn [ring_with_cache r_desc_cache]. rewrite Hin by lia. apply Hb.
  pose proof (fifo_ok_seen_acked _ _ Hf Hq). lia.
Qed.

Lemma ring_ok_consumer e r f :
  ring_ok g e None r f → g_producer g = false → ring_ok g (length (f_done f)) None r f.
Proof.
  intros (Hrun & Hdue & [Hc Ho Hrd Hwr Hf Hm He]) Hp. split_and!; [done|done|]. split; try done.
  destruct Hm as [Hbl Hb Hcl Hca Hul Hu]. split; try done. intros i Hq Hi _. apply Hca; auto.
Qed.

Lemma ring_ok_weaken e e' r f due : ring_ok g e due r f → (e' ≤ e)%nat → ring_ok g e' due r f.
Proof.
  intros (Hrun & Hdue & Hr) Hle. split_and!; [done|done|].
  eapply (ring_rel_same g e e' r f); try done; apply Hr.
Qed.

(** ** Processing *)

Definition processed_fifo (d : sps_iovec) (user : Z) (f : fifo) : fifo :=
  mkFifo (f_sent f) (f_done f) (f_pub f) (S (f_seen f)) (if g_ack g then f_acked f else S (f_seen f))
    (event_due (g_enabled g) d user).

Definition processed_ring (r : ring) (offset : Z) : ring :=
  mkRing (with_sys ((if g_ack g then sys_with_cache_offset offset else sys_with_acked_offset offset)
                      (p_sys (r_pipe r))) (r_pipe r))
    (r_desc_buf r) (r_desc_cache r) (r_user_ptrs r) (r_read r) (r_write r) (EvProcessed :: r_hist r).

Lemma config_sys p y :
  config_ok g p → y_no_queue y = y_no_queue (p_sys p) → y_ack_xfers y = y_ack_xfers (p_sys p) →
  length (y_event_regs y) = length (y_event_regs (p_sys p)) → config_ok g (with_sys y p).
Proof. intros [] H1 H2 H3. split; cbn; congruence || done. Qed.

Lemma ring_ok_processed e r f d u :
  ring_ok g e None r f → g_queue g = true → (f_seen f < e)%nat →
  f_done f !! f_seen f = Some d → f_sent f !! f_seen f = Some u →
  ring_ok g e (event_due (g_enabled g) d u.2)
    (processed_ring r (at_cell (g_cells g) (S (f_seen f)))) (processed_fifo d u.2 f).
Proof.
  intros (Hrun & Hdue & [Hc (Ho1 & Ho2 & Ho3) Hrd Hwr Hf Hm He]) Hq Hlt Hd Hu. split_and!; [|done|].
  - cbn [r_hist processed_ring fifo_run]. rewrite Hrun. cbn. rewrite Hdue. cbn. by rewrite Hd, Hu, Hq.
  - split; try done; cbn [processed_ring r_pipe].
    + apply config_sys; [done|by destruct (g_ack g)..].
    + unfold offsets_at. cbn. destruct (g_ack g) eqn:Hack; cbn; [by split_and!|]. split_and!; [done|done|by intros].
    + pose proof (fifo_ok_seen_acked _ _ Hf Hq). destruct Hf as [? ? ? ? ? Hsame ?].
      split; unfold f_limit, f_count in *; cbn; rewrite ?Hq in *; try done; try lia.
      * destruct (g_ack g); lia.
      * destruct (g_ack g); lia.
      * intros _ Hack. by rewrite Hack.
    + destruct Hm as [Hbl Hb Hcl Hca Hul Hus].
      pose proof (fifo_ok_seen_acked _ _ Hf Hq). split; unfold f_count, entry in *; cbn; try done.
      * intros i Hi. apply Hb. destruct (g_ack g); lia.
      * intros i _ Hi Hor. apply Hca; [done|lia|done].
      * intros i _ Hi. apply Hus; [done|lia].
Qed.

Lemma wp_upd_sys fn (Q : () → ring → Prop) r :
  Q () (mkRing (with_sys (fn (p_sys (r_pipe r))) (r_pipe r)) (r_desc_buf r) (r_desc_cache r)
          (r_user_ptrs r) (r_read r) (r_write r) (r_hist r)) → wp (upd_sys fn) Q r.
Proof. done. Qed.

(** What processing leaves as it is. *)
Definition only_processed (f f' : fifo) : Prop :=
  f_sent f' = f_sent f ∧ f_done f' = f_done f ∧ f_pub f' = f_pub f ∧ (g_ack g = true → f_acked f' = f_acked f).

(** The loop processes the descriptors up to [e]. *)
Lemma wp_process turns e r f :
  ring_ok g e None r f → ring_busy r = true → g_queue g = true → (f_seen f < e)%nat →
  (e - f_seen f ≤ turns)%nat →
  wp (process_completed cb turns (g_ack g) (g_enabled g) (at_cell (g_cells g) (f_seen f)) (at_cell (g_cells g) e))
    (λ _ r', ∃ f', ring_ok g e None r' f' ∧ ring_busy r' = true ∧ f_seen f' = e ∧
       f_sent f `prefix_of` f_sent f' ∧ f_done f `prefix_of` f_done f' ∧ (f_acked f ≤ f_acked f')%nat ∧
       (still → only_processed f f')) r.
Proof.
  revert r f. induction turns as [|turns IH]; intros r f Hok Hbusy Hq Hlt Hturns; [lia|].
  pose proof Hok as (Hrun & Hdue & Hr). pose proof Hr as [Hc Ho Hrd Hwr Hf Hm He].
  pose proof (co_cells _ _ Hc) as Hn. pose proof (fo_done _ _ Hf). pose proof (fo_pub _ _ Hf). pose proof (fo_room _ _ Hf).
  pose proof (fifo_ok_seen_acked _ _ Hf Hq) as Hsa.
  destruct (lookup_lt_is_Some_2 (f_done f) (f_seen f)) as [d Hd]; [lia|].
  destruct (lookup_lt_is_Some_2 (f_sent f) (f_seen f)) as [u Hu]; [unfold f_count in *; lia|].
  cbn [process_completed]. wp_steps. unfold load_cell. eapply wp_of_option.
  { rewrite cell_at. cbn. rewrite lookup_z_nat, (mo_cache _ _ _ _ Hm), entry_done, Hd; [done|lia|done|lia|by right]. }
  wp_steps. eapply wp_of_option.
  { rewrite div_at, lookup_z_nat, (mo_users _ _ _ _ Hm), Hu by (done || lia). done. }
  wp_steps. rewrite (next_offset_at _ (g_cells g)) by (lia || apply Hc).
  pose proof (ring_ok_processed e r f d u Hok Hq Hlt Hd Hu) as Hok1. apply wp_upd_sys. cbn beta.
  unfold ring_log. wp_steps.
  replace (mkRing _ _ _ _ _ _ _) with (processed_ring r (at_cell (g_cells g) (S (f_seen f))))
    by (unfold processed_ring; cbn; by destruct (g_ack g)).
  assert (ring_busy (processed_ring r (at_cell (g_cells g) (S (f_seen f)))) = true) as Hbusy1.
  { unfold ring_busy in *. cbn. by destruct (g_ack g). }
  eapply wp_mono; [apply (wp_notify e _ _ d u.2 Hok1)|]. cbn beta. intros _ r2 (f2 & Hok2 & Hg2 & Hs2).
  destruct Hg2 as [Hsent Hdone Hseen Hacked Hb2 Hheld]. specialize (Hheld Hbusy1). rewrite Hbusy1 in Hb2.
  cbn in Hsent, Hdone, Hheld, Hacked.
  assert (f_acked f ≤ f_acked f2)%nat by (destruct (g_ack g); lia).
  assert (still → only_processed f f2) as Hs2'.
  { intros Hst. rewrite (Hs2 Hst). split_and!; try done. intros Hack. cbn. by rewrite Hack. }
  destruct (at_cell (g_cells g) (S (f_seen f)) =? at_cell (g_cells g) e) eqn:Heq.
  - apply Z.eqb_eq, at_inj in Heq; [|lia]. apply wp_ret. exists f2. by rewrite Hheld.
  - assert (S (f_seen f) ≠ e) as Hne by (intros Hx; by rewrite Hx, Z.eqb_refl in Heq).
    rewrite <- Hheld. eapply wp_mono; [apply IH; done || lia|]. cbn beta.
    intros _ r3 (f3 & Hok3 & Hb3 & Hseen3 & Hsent3 & Hdone3 & Hacked3 & Hs3). exists f3.
    split_and!; [done|done|done|by etrans|by etrans|lia|]. intros Hst.
    destruct (Hs2' Hst) as (? & ? & ? & Hack2), (Hs3 Hst) as (? & ? & ? & Hack3).
    split_and!; [congruence..|]. intros Hack. by rewrite Hack3, Hack2.
Qed.

Lemma wp_late_end x e r f (Q : Z → ring → Prop) :
  ring_rel g e r f → Q x r → wp (late_end x) Q r.
Proof.
  intros Hr HQ. unfold late_end. wp_steps. rewrite (co_late _ _ (rr_config _ _ _ _ Hr)). by wp_steps.
Qed.

Lemma ring_ok_handler e r f x :
  ring_ok g e None r f →
  ring_ok g e None (mkRing (with_sys (sys_with_handler x (p_sys (r_pipe r))) (r_pipe r)) (r_desc_buf r)
    (r_desc_cache r) (r_user_ptrs r) (r_read r) (r_write r) (r_hist r)) f.
Proof.
  intros (Hrun & Hdue & Hr). split_and!; [done|done|].
  eapply (ring_rel_same g e e r f); try done; [by apply config_sys; [apply Hr|..]|apply Hr].
Qed.

(** What the handler has done when it was not running already: with a queue it has processed
    everything that the BAM had completed, and without acknowledging clients acknowledged it. *)
Definition handled (f f' : fifo) : Prop :=
  f_sent f' = f_sent f ∧ f_pub f' = f_pub f ∧ (g_queue g = true → f_seen f' = length (f_done f')) ∧
  (if g_ack g then f_acked f' = f_acked f else f_acked f' = length (f_done f')).

Lemma ring_ok_dropped e r f :
  ring_ok g e None r f → g_queue g = false → g_ack g = false →
  ring_ok g e None
    (mkRing (with_sys (sys_with_acked_offset (at_cell (g_cells g) (length (f_done f))) (p_sys (r_pipe r))) (r_pipe r))
       (r_desc_buf r) (r_desc_cache r) (r_user_ptrs r) (r_read r) (r_write r) (EvDropped :: r_hist r))
    (mkFifo (f_sent f) (f_done f) (f_pub f) (f_seen f) (length (f_done f)) None).
Proof.
  intros (Hrun & Hdue & [Hc (Ho1 & Ho2 & Ho3) Hrd Hwr Hf Hm He]) Hq Hack. split_and!; [|done|].
  - cbn [r_hist fifo_run]. rewrite Hrun. cbn. rewrite Hdue. cbn. by rewrite Hq, Hack.
  - split; try done; cbn [r_pipe].
    + by apply config_sys.
    + destruct Hf as [? Hlim ? ? ? ? ?]. unfold f_limit, f_count in *. rewrite Hq in Hlim. split; unfold f_limit, f_count; cbn; rewrite ?Hq; try done; try lia.
    + destruct Hm as [Hbl Hb Hcl Hca Hul Hus]. split; cbn; try done; try (intros; congruence).
      intros i Hi. apply Hb. unfold f_count in *. cbn in Hi.
      pose proof (fo_limit _ _ Hf) as Hlim. unfold f_limit in Hlim. rewrite Hq in Hlim. lia.
Qed.

(** What the middle of the handler does to the queue [f]. *)
Definition serves (m : RG ()) e (r : ring) (f : fifo) : Prop :=
  wp m (λ _ r', ∃ f', ring_ok g e None r' f' ∧ ring_busy r' = true ∧ f_sent f `prefix_of` f_sent f' ∧
    f_done f `prefix_of` f_done f' ∧ (f_seen f ≤ f_seen f')%nat ∧ (f_acked f ≤ f_acked f')%nat ∧
    (still → handled f f')) r.

Lemma serves_dropped e r f :
  ring_ok g e None r f → ring_busy r = true → g_queue g = false →
  serves (when (negb (g_ack g))
    (upd_sys (sys_with_acked_offset (at_cell (g_cells g) (length (f_done f)))) ;; ring_log EvDropped)) e r f.
Proof.
  intros Hok Hb Hq. unfold serves. pose proof (fo_limit _ _ (rr_fifo _ _ _ _ (proj2 (proj2 Hok)))) as Hl.
  unfold f_limit in Hl. rewrite Hq in Hl. apply wp_when; intros Hack.
  - apply negb_true_iff in Hack. unfold ring_log. wp_steps. apply wp_upd_sys. cbn beta. wp_steps.
    eexists. split_and!; [exact (ring_ok_dropped e r f Hok Hq Hack)|done..|]. intros _.
    split_and!; [done|done|congruence|]. by rewrite Hack.
  - apply negb_false_iff in Hack. exists f. split_and!; [done..|]. intros _. split_and!; [done|done|congruence|]. by rewrite Hack.
Qed.

Lemma serves_processed e r f p :
  ring_ok g e None r f → ring_busy r = true → g_queue g = true → config_ok g p →
  let offset := at_cell (g_cells g) (f_seen f) in
  let end_offset := at_cell (g_cells g) (length (f_done f)) in
  serves (if offset =? end_offset then mret ()
    else when (g_producer g) (fetch_completed offset end_offset) ;;
      process_completed cb (Z.to_nat (p_num_descs p)) (g_ack g) (enabled_flags p) offset end_offset) e r f.
Proof.
  intros Hok Hb Hq Hc. cbn zeta. unfold serves. pose proof (rr_fifo _ _ _ _ (proj2 (proj2 Hok))) as Hf.
  pose proof (fo_seen _ _ Hf) as Hsd. pose proof (fifo_ok_seen_acked _ _ Hf Hq) as Has.
  pose proof (fo_room _ _ Hf). pose proof (fo_done _ _ Hf). pose proof (fo_pub _ _ Hf).
  rewrite (co_num _ _ Hc), (co_enabled _ _ Hc), Nat2Z.id. set (n := length (f_done f)) in *.
  destruct (at_cell (g_cells g) (f_seen f) =? at_cell (g_cells g) n) eqn:Heq.
  { apply Z.eqb_eq, at_inj in Heq; [|lia]. apply wp_ret. exists f. split_and!; [done..|].
    intros _. split_and!; [done..|]. destruct (g_ack g) eqn:Hack; [done|]. unfold n in Heq. rewrite <- Heq.
    by rewrite (fo_same_cursor _ _ Hf Hq Hack). }
  assert (f_seen f ≠ n) as Hne by (intros Hx; by rewrite Hx, Z.eqb_refl in Heq).
  wp_steps. eapply (wp_mono _ (λ _ r', ring_ok g n None r' f ∧ ring_busy r' = true)).
  { apply wp_when; intros Hp.
    - eapply wp_mono; [apply (wp_fetch_completed e r f); [apply Hok|done|lia]|]. cbn beta.
      intros _ r2 (c & -> & Hl & Hin). split; [by apply (ring_ok_fetched e)|done].
    - split; [by apply (ring_ok_consumer e)|done]. }
  cbn beta. intros _ r2 [Hok2 Hb2]. eapply wp_mono; [apply wp_process; done || lia|]. cbn beta.
  intros _ r3 (f3 & Hok3 & Hb3 & Hseen3 & Hsent3 & Hdone3 & Hacked3 & Hs3). exists f3.
  split_and!; [|done..|lia|done|].
  - eapply ring_ok_weaken; [exact Hok3|]. apply (rr_fetched _ _ _ _ (proj2 (proj2 Hok))).
  - intros Hst. destruct (Hs3 Hst) as (E1 & E2 & E3 & E4). split_and!; [by rewrite E1|by rewrite E3|by rewrite E2|].
    destruct (g_ack g) eqn:Hack; [by rewrite E4|].
    rewrite (fo_same_cursor _ _ (rr_fifo _ _ _ _ (proj2 (proj2 Hok3))) Hq Hack), E2. done.
Qed.

Lemma wp_pipe_handler_eot e r f :
  ring_ok g e None r f →
  wp (pipe_handler_eot E cb) (λ _ r', ∃ f', ring_ok g e None r' f' ∧ grows r f r' f' ∧
    (still → if ring_busy r then f' = f else handled f f')) r.
Proof.
  intros Hok. unfold pipe_handler_eot, ring_pipe. wp_steps. fold (ring_busy r).
  destruct (ring_busy r) eqn:Hbusy.
  { apply wp_ret. exists f. split_and!; [done|by apply grows_refl|by intros]. }
  pose proof (rr_config _ _ _ _ (proj2 (proj2 Hok))) as Hc. pose proof Hok as (_ & _ & [_ (_ & Hoa & Hoc) _ _ Hf _ _]).
  wp_steps. apply wp_upd_sys. cbn beta. wp_steps. eapply wp_read_offset; [by apply ring_ok_handler|].
  cbn zeta. intros l Hok1. set (r1 := completed_ring _ _) in *. set (f1 := completed_fifo l f) in *.
  wp_steps. eapply wp_late_end; [apply Hok1|]. rewrite (co_queue _ _ Hc), (co_ack _ _ Hc), (co_mode _ _ Hc).
  apply wp_bind. eapply (wp_mono _ (λ _ r', ∃ f', ring_ok g e None r' f' ∧ ring_busy r' = true ∧
    f_sent f1 `prefix_of` f_sent f' ∧ f_done f1 `prefix_of` f_done f' ∧ (f_seen f1 ≤ f_seen f')%nat ∧
    (f_acked f1 ≤ f_acked f')%nat ∧ (still → handled f1 f'))).
  - destruct (g_queue g) eqn:Hq; cbn [negb]; [|by apply serves_dropped].
    assert ((if g_ack g then y_cache_offset (p_sys (r_pipe r)) else y_acked_offset (p_sys (r_pipe r))) =
            at_cell (g_cells g) (f_seen f1)) as ->.
    { destruct (g_ack g) eqn:Hack; [by apply Hoc|]. rewrite Hoa. f_equal. by apply (fo_same_cursor _ _ Hf). }
    by apply serves_processed.
  - cbn beta. intros _ r2 (f2 & Hok2 & Hb2 & Hs & Hd & Hseen & Hacked & Hh). apply wp_upd_sys.
    exists f2. split_and!; [by apply ring_ok_handler| |done]. split; try done.
    + etrans; [|exact Hd]. by eexists.
    + unfold ring_busy in *. cbn. by rewrite Hbusy.
Qed.

(** ** The interrupt handler *)

(** What a function does that leaves a ring with a queue. *)
Definition keeps {A} (m : RG A) : Prop :=
  ∀ e r f, ring_ok g e None r f →
    wp m (λ _ r', ∃ f', ring_ok g e None r' f' ∧ grows r f r' f') r.

Lemma keeps_ret {A} (a : A) : keeps (mret a).
Proof. intros e r f Hok. apply wp_ret. exists f. split; [done|by apply grows_refl]. Qed.

Lemma keeps_bind {A B} (m : RG A) (k : A → RG B) :
  keeps m → (∀ a, keeps (k a)) → keeps (m ≫= k).
Proof.
  intros Hm Hk e r f Hok. apply wp_bind. eapply wp_mono; [by apply Hm|]. cbn beta.
  intros a r1 (f1 & Hok1 & Hg1). eapply wp_mono; [by apply Hk|]. cbn beta.
  intros _ r2 (f2 & Hok2 & Hg2). exists f2. split; [done|by eapply grows_trans].
Qed.

Lemma keeps_when (b : bool) (m : RG ()) : keeps m → keeps (when b m).
Proof. destruct b; [done|]. intros _. apply keeps_ret. Qed.

Lemma keeps_then {B} (m : RG ()) (k : RG B) : keeps m → keeps k → keeps (m ;; k).
Proof. intros Hm Hk. apply keeps_bind; auto. Qed.

Lemma keeps_log x : (∀ f, f_due f = None → fifo_step g f x = Some f) → keeps (ring_log x).
Proof.
  intros Hx e r f Hok. unfold ring_log. wp_steps. exists f. split; [|by apply grows_refl].
  apply ring_ok_log; [done|]. apply Hx, Hok.
Qed.

Lemma keeps_pipe : keeps ring_pipe.
Proof. apply keeps_bind; [|intros; apply keeps_ret]. intros e r f Hok. apply wp_get. exists f. split; [done|by apply grows_refl]. Qed.

(** A change of the pipe that neither the configuration nor the offsets show. *)
Lemma keeps_upd_pipe fn :
  (∀ p, config_ok g p → config_ok g (fn p)) → (∀ p, p_sys (fn p) = p_sys p) → keeps (upd_ring_pipe fn).
Proof.
  intros Hfn Hsys e r f (Hrun & Hdue & Hr). apply wp_modify. exists f. split; [|apply grows_refl].
  - split_and!; [done..|]. eapply (ring_rel_same g e e r f); try done; cbn [r_pipe].
    + apply Hfn, Hr.
    + rewrite Hsys. apply Hr.
  - unfold ring_busy. cbn. by rewrite Hsys.
Qed.

Lemma keeps_get {B} (k : ring → RG B) : (∀ r, keeps (k r)) → keeps (get ≫= k).
Proof. intros Hk e r f Hok. apply wp_bind, wp_get. by apply Hk. Qed.

Lemma keeps_read : keeps (bam_pipe_get_desc_read_offset E).
Proof.
  intros e r f Hok. eapply wp_read_offset; [done|]. cbn zeta. intros l Hok'.
  eexists. split; [done|apply grows_completed].
Qed.

Lemma keeps_generic event_id : keeps (pipe_handler_generic cb event_id).
Proof.
  intros e r f Hok. eapply wp_mono; [by apply wp_pipe_handler_generic|]. cbn beta.
  intros _ r' (f' & ? & ? & _). eauto.
Qed.

Lemma keeps_eot : keeps (pipe_handler_eot E cb).
Proof.
  intros e r f Hok. eapply wp_mono; [by apply wp_pipe_handler_eot|]. cbn beta.
  intros _ r' (f' & ? & ? & _). eauto.
Qed.

Lemma config_irq_mask p : config_ok g p → config_ok g (with_irq_mask (Z.ldiff (p_irq_mask p) SPS_O_WAKEUP) p).
Proof.
  intros []. split; try done. unfold enabled_flags in *. cbn [with_irq_mask p_irq_mask].
  rewrite !has_ldiff by done. done.
Qed.

Lemma config_irq on p : config_ok g p → config_ok g (pipe_with_irq on p).
Proof.
  intros []. split; try done. unfold is_remote, pipe_with_irq in *. cbn.
  destruct on; [by rewrite has_lor_l|by rewrite has_ldiff].
Qed.

#[local] Hint Resolve keeps_ret keeps_when keeps_then keeps_pipe keeps_upd_pipe keeps_read keeps_generic keeps_eot
  config_irq_mask config_irq : core.

Lemma keeps_wakeup : keeps (pipe_handler_wakeup E cb).
Proof.
  unfold pipe_handler_wakeup. apply keeps_bind; [auto|]. intros p. apply keeps_then.
  - apply keeps_when, keeps_then; [auto|]. apply keeps_bind; [auto|]. intros p'.
    apply keeps_then; [apply keeps_when, keeps_log; intros f Hd; cbn; by rewrite Hd|].
    apply keeps_then; [auto|]. apply keeps_log. intros f Hd. cbn. by rewrite Hd.
  - intros e r f Hok. apply wp_bind. eapply wp_event_reg; [done|done|]. intros reg.
    eapply wp_mono; [by apply (wp_trigger e None r f)|]. cbn beta. intros _ r' (f' & ? & ? & _). eauto.
Qed.

Lemma keeps_pipe_handler : keeps (pipe_handler E cb).
Proof.
  pose proof keeps_wakeup. unfold pipe_handler. apply keeps_get. intros r. cbn zeta.
  apply keeps_then; [apply keeps_log; intros f Hd; cbn; by rewrite Hd|]. apply keeps_bind; [auto|]. intros p.
  destruct (_ =? 0); [auto|].
  apply keeps_then; [apply keeps_when, keeps_then; [auto|]; apply keeps_bind; auto|].
  repeat (apply keeps_then; [auto|]). auto.
Qed.
End Handlers.
End Runs.
