(* ===== verification/SpsRingCalls.v ===== *)
(** * SPS: the calls on a descriptor ring and its interrupt

    What each function for clients does to the queue that the ring holds, with the lock of the
    BAM held; and the interrupt handler, whose callbacks may call. *)

From S2P Require Import Prelude.
From S2P Require Import SpsTypes.
From S2P Require Import SpsDev.
From S2P Require Import SpsRing.
From S2P Require Import SpsQueue.
From S2P Require Import SpsRingInv.
From S2P Require Import SpsRingRuns.

(** There is room for one more descriptor. *)
Definition has_room (g : fifo_config) (f : fifo) : Prop := (S (f_count f) < f_acked f + g_cells g)%nat.

#[export] Instance has_room_dec g f : Decision (has_room g f).
Proof. unfold has_room. apply _. Defined.

Section Calls.
Context (E : ring_env) `{HE : !RingEnvOk E} (g : fifo_config).

(** ** Callbacks *)

Lemma locked_ok : cb_ok g True (locked_callback E).
Proof.
  intros n e r f Hok. unfold locked_callback. wp_steps. rewrite calls_locked. apply wp_ret.
  exists f. split_and!; [done|by apply grows_refl|done].
Qed.

(** ** Transfers *)

Lemma desc_flags_config p p' flags :
  config_ok g p → config_ok g p' → desc_flags p' flags = desc_flags p flags.
Proof. intros H1 H2. unfold desc_flags. by rewrite (co_mode _ _ H1), (co_mode _ _ H2). Qed.

(** The descriptors of a list that is transferred: only the last one has the user pointer. *)
Fixpoint transferred (p : sps_pipe) (iovecs : list sps_iovec) (user : Z) : list (sps_iovec * Z) :=
  match iovecs with
  | [] => []
  | v :: iovecs' =>
      (mkIovec (u32 (v_addr v)) (u16 (v_size v)) (desc_flags p (v_flags v)),
       match iovecs' with [] => user | _ => 0 end) :: transferred p iovecs' user
  end.

Lemma transferred_config p p' iovecs user :
  config_ok g p → config_ok g p' → transferred p' iovecs user = transferred p iovecs user.
Proof.
  intros H1 H2. induction iovecs as [|v iovecs IH]; [done|]. cbn [transferred].
  by rewrite IH, (desc_flags_config p p' _ H1 H2).
Qed.

Lemma desc_flags_no_submit p flags :
  desc_flags p (Z.lor flags SPS_IOVEC_FLAG_NO_SUBMIT) = desc_flags p flags.
Proof.
  unfold desc_flags, DESC_UPPER_ADDR. rewrite has_lor_l, !Z.land_lor_distr_l by done.
  change (Z.land SPS_IOVEC_FLAG_NO_SUBMIT _) with 0. by rewrite !Z.lor_0_r.
Qed.

(** What polling may do to the queue. *)
Definition polled (r : ring) (f f' : fifo) : Prop := if ring_busy r then f' = f else handled g f f'.

Lemma polled_sent r f f' : polled r f f' → f_sent f' = f_sent f ∧ f_pub f' = f_pub f.
Proof. unfold polled. destruct (ring_busy r); [by intros ->|]. by intros (? & ? & _). Qed.

Lemma wp_poll e r f :
  ring_ok g e None r f →
  wp (pipe_handler_eot E (locked_callback E))
    (λ _ r', ∃ f', ring_ok g e None r' f' ∧ grows r f r' f' ∧ polled r f f') r.
Proof.
  intros Hok. eapply wp_mono; [apply (wp_pipe_handler_eot E g True); [apply locked_ok|done]|]. cbn beta.
  intros _ r' (f' & ? & ? & Hp). exists f'. split_and!; [done..|]. unfold polled. by apply Hp.
Qed.

(** The ring is full exactly when it has no room. *)
Lemma full_room e due r f :
  ring_ok g e due r f →
  (at_cell (g_cells g) (S (f_count f)) =? y_acked_offset (p_sys (r_pipe r))) = negb (bool_decide (has_room g f)).
Proof.
  intros (_ & _ & [Hc (_ & Ho & _) _ _ Hf Hm _]). rewrite Ho. pose proof (fo_room _ _ Hf) as Hroom.
  pose proof (co_cells _ _ Hc) as Hn.
  assert (f_acked f ≤ f_count f)%nat as Hac.
  { pose proof (fo_limit _ _ Hf) as Hl. pose proof (fo_seen _ _ Hf). pose proof (fo_done _ _ Hf).
    pose proof (fo_pub _ _ Hf). unfold f_limit in Hl. destruct (g_queue g); lia. }
  unfold has_room. destruct (decide (S (f_count f) < f_acked f + g_cells g)%nat) as [Hlt|Hge].
  - rewrite bool_decide_true by done. apply Z.eqb_neq. intros Heq. symmetry in Heq. apply at_inj in Heq; lia.
  - rewrite bool_decide_false by done. apply Z.eqb_eq.
    replace (S (f_count f)) with (f_acked f + g_cells g)%nat by lia.
    unfold at_cell. do 2 f_equal. rewrite <- (Nat.mul_1_l (g_cells g)) at 1. by rewrite Nat.Div0.mod_add.
Qed.

Definition polls (r : ring) : bool := negb (g_ack g) && o_polled (p_opts (r_pipe r)).

Lemma wp_ring_is_full e r f :
  ring_ok g e None r f →
  wp (ring_is_full E (locked_callback E) (at_cell (g_cells g) (S (f_count f))))
    (λ full r', ∃ f', ring_ok g e None r' f' ∧ grows r f r' f' ∧ f_sent f' = f_sent f ∧ f_pub f' = f_pub f ∧
       full = negb (bool_decide (has_room g f')) ∧ (has_room g f → r' = r) ∧ (polls r = true → has_room g f ∨ polled r f f')) r.
Proof.
  intros Hok. unfold ring_is_full, ring_pipe. wp_steps. rewrite (full_room _ _ _ _ Hok), negb_involutive.
  pose proof (co_ack _ _ (rr_config _ _ _ _ (proj2 (proj2 Hok)))) as Hack. rewrite Hack. fold (polls r).
  destruct (bool_decide (has_room g f)) eqn:Hroom.
  { apply wp_ret. exists f. rewrite Hroom. apply bool_decide_eq_true in Hroom.
    split_and!; [done|by apply grows_refl|done..|by left]. }
  destruct (polls r) eqn:Hpolls; cbn [negb].
  - apply wp_bind. eapply wp_mono; [by apply wp_poll|]. cbn beta. intros _ r1 (f1 & Hok1 & Hg1 & Hp1). wp_steps.
    exists f1. destruct (polled_sent _ _ _ Hp1) as [Hs1 Hpub1].
    apply bool_decide_eq_false in Hroom. split_and!; [done..| |done|by right]. rewrite <- (full_room _ _ _ _ Hok1). unfold f_count. by rewrite Hs1.
  - apply wp_ret. exists f. rewrite Hroom. by split_and!; [|apply grows_refl|..].
Qed.

(** Writing the descriptor, its copy and its user pointer. *)
Lemma wp_put_desc {A} e r f d user (k : RG A) (Q : A → ring → Prop) :
  ring_rel g e r f →
  wp k Q (mkRing (r_pipe r) (<[(f_count f mod g_cells g)%nat := d]> (r_desc_buf r))
          (if g_queue g then <[(f_count f mod g_cells g)%nat := d]> (r_desc_cache r) else r_desc_cache r)
          (if g_queue g then <[(f_count f mod g_cells g)%nat := user]> (r_user_ptrs r) else r_user_ptrs r)
          (r_read r) (r_write r) (r_hist r)) →
  wp (let offset := at_cell (g_cells g) (f_count f) in
      when (g_queue g) (put_desc_cache offset d) ;; put_desc_buf offset d ;;
      when (g_queue g) (put_user_ptr (offset / sizeof_iovec) user) ;; k) Q r.
Proof.
  intros [Hc _ _ _ _ Hm _] HQ. pose proof (co_cells _ _ Hc). cbn zeta.
  assert (f_count f mod g_cells g < g_cells g)%nat as Hk by (apply Nat.mod_upper_bound; lia).
  unfold put_desc_cache, put_desc_buf, put_user_ptr, store_cell. apply wp_bind.
  destruct (g_queue g) eqn:Hq; cbn [when].
  - wp_steps. eapply wp_of_option.
    { rewrite cell_at. cbn. by rewrite store_z_nat by (rewrite (mo_cache_length _ _ _ _ Hm Hq); done). }
    wp_steps. eapply wp_of_option.
    { rewrite cell_at. cbn. by rewrite store_z_nat by (rewrite (mo_buf_length _ _ _ _ Hm); done). }
    wp_steps. eapply wp_of_option.
    { rewrite div_at. cbn. by rewrite store_z_nat by (rewrite (mo_users_length _ _ _ _ Hm Hq); done). }
    wp_steps. exact HQ.
  - wp_steps. eapply wp_of_option.
    { rewrite cell_at. cbn. by rewrite store_z_nat by (rewrite (mo_buf_length _ _ _ _ Hm); done). }
    wp_steps. exact HQ.
Qed.

(** A descriptor is queued, and submitted unless the client says not to; or nothing is. *)
Lemma wp_transfer_one e r f addr size user flags :
  ring_ok g e None r f →
  wp (sps_bam_pipe_transfer_one E (locked_callback E) addr size user flags)
    (λ rc r', ∃ f1 f', ring_ok g e None r' f' ∧ grows r f r' f' ∧
       f_sent f1 = f_sent f ∧ f_pub f1 = f_pub f ∧ (f_acked f ≤ f_acked f1)%nat ∧ f_acked f' = f_acked f1 ∧
       (length (f_done f) ≤ length (f_done f1))%nat ∧
       (polls r = true → has_room g f ∨ polled r f f1 ∨ g_queue g || (user =? 0) = false) ∧
       (has_room g f → p_opts (r_pipe r') = p_opts (r_pipe r)) ∧
       if bool_decide (has_room g f1) && (g_queue g || (user =? 0)) then
         rc = 0 ∧
         f_sent f' = f_sent f ++ [(mkIovec (u32 addr) (u16 size) (desc_flags (r_pipe r) flags), user)] ∧
         f_pub f' = if has flags SPS_IOVEC_FLAG_NO_SUBMIT then f_pub f else f_count f'
       else rc = SPS_ERROR ∧ f' = f1) r.
Proof.
  intros Hok. pose proof Hok as (_ & _ & [Hc (Ho & _) _ _ _ _ _]). unfold sps_bam_pipe_transfer_one, ring_pipe.
  wp_steps. rewrite (co_remote _ _ Hc), (co_queue _ _ Hc).
  destruct (negb (g_queue g) && negb (user =? 0)) eqn:Huser.
  { apply wp_ret. exists f, f. rewrite <- negb_orb in Huser. apply negb_true_iff in Huser.
    rewrite Huser, andb_false_r. split_and!; [done|by apply grows_refl|done..| |done|done|done]. auto. }
  rewrite <- negb_orb in Huser. apply negb_false_iff in Huser.
  rewrite Ho, (next_offset_at _ (g_cells g)) by (apply Hc || (pose proof (co_cells _ _ Hc); lia)).
  wp_steps. eapply wp_mono; [by eapply wp_ring_is_full|]. cbn beta.
  intros full r1 (f1 & Hok1 & Hg1 & Hs1 & Hp1 & -> & Hkeep & Hpoll).
  assert (has_room g f → p_opts (r_pipe r1) = p_opts (r_pipe r)) as Hopts by (intros Hx; by rewrite (Hkeep Hx)).
  pose proof (gr_acked _ _ _ _ Hg1) as Ha1. pose proof (prefix_length _ _ (gr_done _ _ _ _ Hg1)) as Hd1.
  assert (polls r = true → has_room g f ∨ polled r f f1 ∨ g_queue g || (user =? 0) = false) as Hpoll'.
  { intros Hr. destruct (Hpoll Hr); auto. }
  destruct (bool_decide (has_room g f1)) eqn:Hroom; cbn [negb].
  2:{ apply wp_ret. exists f1, f1. rewrite Hroom, Hs1, Hp1. cbn [andb]. by split_and!. }
  apply bool_decide_eq_true in Hroom. pose proof Hok1 as (_ & _ & Hr1). pose proof Hr1 as [Hc1 (Ho1 & _) _ _ _ _ _].
  do 2 apply wp_bind. apply wp_get, wp_ret. cbn beta zeta. rewrite Ho1, (co_queue _ _ Hc1), negb_involutive, (desc_flags_config _ _ flags Hc Hc1).
  assert (f_count f1 = f_count f) as Hcount by (unfold f_count; by rewrite Hs1). rewrite <- Hcount.
  set (d := mkIovec _ _ _). eapply wp_put_desc; [done|]. unfold ring_log. wp_steps. apply wp_upd_sys. cbn beta.
  pose proof (ring_ok_sent g e r1 f1 d user Hok1 Hroom) as Hok2. set (r2 := sent_ring _ _ _ _ _ _) in Hok2.
  match goal with |- wp _ _ ?x => change x with r2 end.
  assert (grows r f r2 (sent_fifo d user f1)) as Hg2.
  { eapply grows_trans; [exact Hg1|]. split; cbn; done || lia || by eexists. }
  wp_steps. apply wp_when; intros Hsub; wp_steps.
  - unfold bam_pipe_set_desc_write_offset. wp_steps. rewrite <- (sent_count d user f1).
    exists f1. eexists. split_and!; [by apply (ring_ok_published g e r2)| |done..|].
    + eapply grows_trans; [exact Hg2|]. split; cbn; done || lia.
    + apply negb_true_iff in Hsub. rewrite Hsub. rewrite bool_decide_true, Huser by done. cbn. by rewrite Hs1.
  - exists f1, (sent_fifo d user f1). split_and!; [done..|].
    apply negb_false_iff in Hsub. rewrite Hsub. rewrite bool_decide_true, Huser by done. cbn. by rewrite Hs1.
Qed.

Lemma acked_count e due r f : ring_ok g e due r f → (f_acked f ≤ length (f_done f) ≤ f_count f)%nat.
Proof.
  intros (_ & _ & Hr). pose proof (rr_fifo _ _ _ _ Hr) as [Hs Hl Hd Hp _ _ _]. unfold f_limit in Hl.
  destruct (g_queue g); lia.
Qed.

(** The free cells, and the descriptors that the BAM still has, if the pipe's peer offset is
    that of the descriptors given to it. *)
Lemma wp_free_count e r f :
  ring_ok g e None r f →
  wp sps_bam_get_free_count (λ a r', r' = r ∧ a = (0, Z.of_nat (f_acked f + g_cells g - S (f_count f)))) r.
Proof.
  intros Hok. pose proof (acked_count _ _ _ _ Hok) as Hac. pose proof Hok as (_ & _ & [Hc (Ho & Hoa & _) _ _ Hf _ _]).
  unfold sps_bam_get_free_count, ring_pipe. pose proof (co_cells _ _ Hc). pose proof (co_max _ _ Hc).
  pose proof (fo_room _ _ Hf). wp_steps. rewrite (co_remote _ _ Hc), Ho, Hoa, (next_offset_at _ (g_cells g)) by (apply Hc || lia).
  apply wp_ret. split; [done|]. f_equal.
  rewrite <- (distance_at (g_cells g)) by lia.
  assert (at_cell (g_cells g) (f_acked f + g_cells g) = at_cell (g_cells g) (f_acked f)) as ->.
  { unfold at_cell. do 2 f_equal. rewrite <- (Nat.mul_1_l (g_cells g)) at 1. apply Nat.Div0.mod_add. }
  pose proof (at_bound (g_cells g) (S (f_count f)) ltac:(lia)). pose proof (at_bound (g_cells g) (f_acked f) ltac:(lia)).
  destruct (Z.leb_spec (at_cell (g_cells g) (S (f_count f))) (at_cell (g_cells g) (f_acked f))); [done|].
  rewrite (co_size _ _ Hc). f_equal. unfold sizeof_iovec in *. rewrite u32_small by lia. lia.
Qed.

Definition peer (f : fifo) : nat := if env_cached_wp E then f_count f else f_pub f.

Lemma wp_unused e r f :
  ring_ok g e None r f →
  wp (sps_bam_pipe_get_unused_desc_num E)
    (λ a r', ∃ l, let f' := completed_fifo l f in ring_ok g e None r' f' ∧ r' = completed_ring l r ∧
       a = (0, Z.of_nat (peer f' - length (f_done f')))) r.
Proof.
  intros Hok. unfold sps_bam_pipe_get_unused_desc_num, ring_pipe. apply wp_bind. eapply (wp_read_offset E g e r f); [done|].
  cbn zeta. intros l Hok'. pose proof (acked_count _ _ _ _ Hok') as Hac. pose proof Hok' as (_ & _ & [Hc (Ho & _) _ Hwr Hf _ _]).
  set (f' := completed_fifo l f) in *. set (r1 := completed_ring l r) in *. wp_steps.
  pose proof (co_cells _ _ Hc). pose proof (co_max _ _ Hc). pose proof (fo_room _ _ Hf). pose proof (fo_done _ _ Hf). pose proof (fo_pub _ _ Hf).
  assert (has (p_state (r_pipe r1)) BAM_STATE_BAM2BAM = false) as ->.
  { pose proof (co_remote _ _ Hc) as Hr. unfold is_remote in Hr. rewrite has_lor_r in Hr. by apply orb_false_iff in Hr as [? _]. }
  rewrite andb_true_r. apply (wp_mono _ (λ x r', x = at_cell (g_cells g) (peer f') ∧ r' = r1)); cycle 1.
  { intros _ r' [-> ->]. apply wp_ret. exists l. split_and!; [done..|]. fold f'. f_equal.
    rewrite <- (distance_at (g_cells g)) by (unfold peer; destruct (env_cached_wp E); lia).
    pose proof (at_bound (g_cells g) (peer f') ltac:(lia)). pose proof (at_bound (g_cells g) (length (f_done f')) ltac:(lia)).
    destruct (_ <=? _); [done|]. rewrite (co_size _ _ Hc). f_equal. unfold sizeof_iovec in *. apply u32_small. lia. }
  unfold peer. destruct (env_cached_wp E); [apply wp_ret; by rewrite Ho|].
  unfold bam_pipe_get_desc_write_offset. by wp_steps.
Qed.

(** The next [n] descriptors find room, after polling if need be. *)
Definition fits (r : ring) (f : fifo) (n : nat) : Prop :=
  (f_count f + n < f_acked f + g_cells g)%nat ∨
  polls r = true ∧ ring_busy r = false ∧ (f_count f + n < length (f_done f) + g_cells g)%nat.

(** What is queued: without a queue a user pointer is refused, but only with the last descriptor,
    after the others are queued. *)
Definition queued (p : sps_pipe) (iovecs : list sps_iovec) (user : Z) : list (sps_iovec * Z) :=
  if g_queue g || (user =? 0) then transferred p iovecs user else removelast (transferred p iovecs user).

Lemma wp_transfer_loop e r f iovecs user :
  ring_ok g e None r f → fits r f (length iovecs) → iovecs ≠ [] →
  wp (transfer_loop E (locked_callback E) iovecs user)
    (λ rc r', ∃ f', ring_ok g e None r' f' ∧ grows r f r' f' ∧
       rc = (if g_queue g || (user =? 0) then 0 else SPS_ERROR) ∧
       f_sent f' = f_sent f ++ queued (r_pipe r) iovecs user) r.
Proof.
  revert r f. induction iovecs as [|v iovecs IH]; intros r f Hok Hfits Hne; [done|]. clear Hne.
  cbn [transfer_loop]. apply wp_bind. eapply wp_mono; [by eapply wp_transfer_one|]. cbn beta.
  intros rc r1 (f1 & f' & Hok1 & Hg1 & Hs & Hp & Ha & Ha' & Hd & Hpoll & Hopts & Hres).
  set (u := if match iovecs with [] => true | _ => false end then user else 0) in *.
  destruct (decide (g_queue g || (u =? 0) = true)) as [Hu|Hu%not_true_is_false].
  2:{ assert (iovecs = [] ∧ u = user) as [-> ->].
      { unfold u in *. destruct iovecs; [done|]. by rewrite orb_true_r in Hu. }
      rewrite Hu, andb_false_r in Hres. destruct Hres as [-> ->]. change (SPS_ERROR =? 0) with false. cbn [negb]. apply wp_ret. exists f1.
      rewrite Hu. split_and!; [done..|]. unfold queued. rewrite Hu. cbn. by rewrite app_nil_r. }
  assert (has_room g f1 ∧ fits r1 f' (length iovecs)) as [Hroom Hfits1].
  { assert (f_count f1 = f_count f) as Hc1 by (unfold f_count; by rewrite Hs).
    assert (f_count f' ≤ S (f_count f))%nat as Hc'.
    { destruct (_ && _); [|destruct Hres as [_ ->]; lia]. destruct Hres as (_ & Hsent & _).
      unfold f_count. rewrite Hsent, length_app. cbn. lia. }
    cbn [length] in Hfits. unfold fits, has_room in *. destruct Hfits as [Hfit|(Hp1 & Hb1 & Hfit)]; [lia|].
    destruct (decide (S (f_count f) < f_acked f + g_cells g)%nat) as [Hroom|Hfull].
    - pose proof (prefix_length _ _ (gr_done _ _ _ _ Hg1)). split; [lia|]. right. unfold polls in *.
      rewrite (Hopts Hroom), (gr_busy _ _ _ _ Hg1). split_and!; [done..|lia].
    - destruct (Hpoll Hp1) as [?|[Hpd|?]]; [lia| |congruence]. unfold polled in Hpd. rewrite Hb1 in Hpd.
      destruct Hpd as (_ & _ & _ & Hack). apply andb_true_iff in Hp1 as [Hp1%negb_true_iff _].
      rewrite Hp1 in Hack. lia. }
  rewrite bool_decide_true, Hu in Hres by done. destruct Hres as (-> & Hsent & _). cbn [negb Z.eqb].
  destruct iovecs as [|v' iovecs].
  - apply wp_ret. exists f'. unfold queued. unfold u in Hu, Hsent. cbn iota in Hu, Hsent. rewrite Hu. by split_and!.
  - eapply wp_mono; [by apply IH|]. cbn beta. intros rc r2 (f2 & Hok2 & Hg2 & -> & Hsent2).
    exists f2. split_and!; [done|by eapply grows_trans|done|]. rewrite Hsent2, Hsent, <- app_assoc. f_equal.
    unfold queued. rewrite (transferred_config (r_pipe r) (r_pipe r1)) by (apply Hok || apply Hok1).
    rewrite desc_flags_no_submit. by destruct (_ || _).
Qed.

(** The first descriptor that still takes a cell. *)
Definition free_from (r : ring) (f : fifo) : nat := if polls r then length (f_done f) else f_acked f.

(** All of a list of descriptors is queued, or none; when it polls only if no handler is running
    and all descriptors are submitted (or the option [SPS_BAM_CACHED_WP] is on). *)
Lemma wp_transfer e r f iovecs user :
  ring_ok g e None r f →
  (polls r = true → ring_busy r = false ∧ (env_cached_wp E = true ∨ f_pub f = f_count f)) →
  wp (sps_bam_pipe_transfer E (locked_callback E) iovecs user)
    (λ rc r', ∃ f', ring_ok g e None r' f' ∧ grows r f r' f' ∧
       (rc = (if g_queue g || (user =? 0) then 0 else SPS_ERROR) ∧ iovecs ≠ [] ∧
           f_sent f' = f_sent f ++ queued (r_pipe r) iovecs user ∨
        rc = SPS_ERROR ∧ f_sent f' = f_sent f ∧
        (iovecs = [] ∨ free_from r f' + g_cells g ≤ f_count f' + length iovecs)%nat)) r.
Proof.
  intros Hok Hpolls. pose proof Hok as (_ & _ & [Hc _ _ _ _ _ _]). pose proof (co_cells _ _ Hc) as Hn.
  pose proof (co_max _ _ Hc) as Hmax. unfold sps_bam_pipe_transfer, ring_pipe. wp_steps.
  rewrite (co_ack _ _ Hc). fold (polls r). destruct (Z.of_nat (length iovecs) =? 0) eqn:Hz.
  { apply Z.eqb_eq in Hz. destruct iovecs; [|done]. apply wp_ret. exists f.
    split_and!; [done|by apply grows_refl|]. by right; split_and!; [..|left]. }
  apply Z.eqb_neq in Hz. assert (iovecs ≠ []) as Hne by (intros ->; done).
  assert (∀ r1 f1, ring_ok g e None r1 f1 → grows r f r1 f1 → f_sent f1 = f_sent f → polls r1 = polls r →
    wp (if Z.of_nat (free_from r f1 + g_cells g - S (f_count f1)) <? Z.of_nat (length iovecs) then mret SPS_ERROR
        else transfer_loop E (locked_callback E) iovecs user)
      (λ rc r', ∃ f', ring_ok g e None r' f' ∧ grows r f r' f' ∧
         (rc = (if g_queue g || (user =? 0) then 0 else SPS_ERROR) ∧ iovecs ≠ [] ∧
           f_sent f' = f_sent f ++ queued (r_pipe r) iovecs user ∨
          rc = SPS_ERROR ∧ f_sent f' = f_sent f ∧
          (iovecs = [] ∨ free_from r f' + g_cells g ≤ f_count f' + length iovecs)%nat)) r1) as Htail.
  { intros r1 f1 Hok1 Hg1 Hs1 Hp1. destruct (Z.ltb_spec (Z.of_nat (free_from r f1 + g_cells g - S (f_count f1))) (Z.of_nat (length iovecs))).
    - apply wp_ret. exists f1. split_and!; [done..|]. right. split_and!; [done..|right; lia].
    - eapply wp_mono; [apply wp_transfer_loop; [done| |done]|].
      + unfold fits, free_from in *. rewrite Hp1. destruct (polls r); [right|left; lia].
        destruct (Hpolls eq_refl) as [Hb _]. rewrite (gr_busy _ _ _ _ Hg1). split_and!; [done..|lia].
      + cbn beta. intros rc r2 (f2 & Hok2 & Hg2 & -> & Hs2). exists f2.
        split_and!; [done|by eapply grows_trans|]. left. split_and!; [done..|].
        unfold queued. by rewrite Hs2, Hs1, <- (transferred_config (r_pipe r) (r_pipe r1)) by (apply Hok || apply Hok1). }
  destruct (polls r) eqn:Hp.
  - apply wp_bind, wp_bind. eapply wp_mono; [by eapply wp_unused|]. cbn beta zeta.
    intros _ r1 (l & Hok1 & -> & ->). apply wp_ret. set (f1 := completed_fifo l f) in *.
    pose proof (acked_count _ _ _ _ Hok1) as Hac.
    assert (peer f1 = f_count f1) as Hpeer.
    { unfold peer. destruct (Hpolls eq_refl) as [_ [->|Hpub]]; [done|]. by destruct (env_cached_wp E). }
    pose proof (fo_room _ _ (rr_fifo _ _ _ _ (proj2 (proj2 Hok1)))) as Hroom.
    replace (u32 _) with (Z.of_nat (free_from r f1 + g_cells g - S (f_count f1))).
    + by apply Htail; [|apply grows_completed|..].
    + rewrite (co_size _ _ Hc), Hpeer. unfold free_from. rewrite Hp. unfold sizeof_iovec.
      rewrite Z.mul_comm, Z_div_mult by lia. rewrite u32_small; lia.
  - apply wp_bind, wp_bind. eapply wp_mono; [by eapply wp_free_count|]. cbn beta.
    intros _ r1 [-> ->]. apply wp_ret.
    replace (f_acked f) with (free_from r f) by (unfold free_from; by rewrite Hp).
    by apply Htail; [|apply grows_refl|..].
Qed.

(** ** Handing descriptors back *)

Lemma ring_ok_handed e r f d :
  ring_ok g e None r f → g_ack g = true → (f_acked f < f_limit g f)%nat → f_done f !! f_acked f = Some d →
  ring_ok g e None
    (mkRing (with_sys (sys_with_acked_offset (at_cell (g_cells g) (S (f_acked f))) (p_sys (r_pipe r))) (r_pipe r))
       (r_desc_buf r) (r_desc_cache r) (r_user_ptrs r) (r_read r) (r_write r) (EvIovec d :: r_hist r))
    (mkFifo (f_sent f) (f_done f) (f_pub f) (f_seen f) (S (f_acked f)) None).
Proof.
  intros (Hrun & Hdue & [Hc (Ho1 & Ho2 & Ho3) Hrd Hwr Hf Hm He]) Hack Hlt Hd. split_and!; [|done|].
  - cbn [r_hist fifo_run]. rewrite Hrun. cbn. rewrite Hdue. cbn. by rewrite Hack, !bool_decide_true.
  - split; try done; cbn [r_pipe].
    + by apply config_sys.
    + destruct Hf. unfold f_limit, f_count in *. split; unfold f_limit, f_count; cbn; try done; try lia.
      intros _ ?. congruence.
    + destruct Hm as [Hbl Hb Hcl Hca Hul Hus]. split; try done.
      intros i Hi. apply Hb. unfold f_count in *. cbn in Hi. lia.
Qed.

Lemma wp_get_iovec e r f :
  ring_ok g e None r f →
  wp (sps_bam_pipe_get_iovec E (locked_callback E)) (λ a r', ∃ f', ring_ok g e None r' f' ∧ grows r f r' f' ∧
    f_sent f' = f_sent f ∧
    if g_ack g then
      a.1 = 0 ∧ (f_acked f' = f_acked f ∧ f_limit g f' = f_acked f ∧ a.2 = zero_iovec ∨
                 f_acked f' = S (f_acked f) ∧ f_done f' !! f_acked f = Some (a.2))
    else a = (SPS_ERROR, zero_iovec) ∧ f' = f) r.
Proof.
  intros Hok. pose proof Hok as (_ & _ & [Hc _ _ _ _ _ _]). unfold sps_bam_pipe_get_iovec, ring_pipe. wp_steps.
  rewrite (co_ack _ _ Hc), (co_remote _ _ Hc), (co_queue _ _ Hc), orb_false_r, negb_involutive.
  destruct (g_ack g) eqn:Hack; cbn [negb].
  2:{ apply wp_ret. exists f. by split_and!; [|apply grows_refl|..]. }
  assert (∀ b : bool, wp (when b (pipe_handler_eot E (locked_callback E))) (λ _ r1, ∃ f1, ring_ok g e None r1 f1 ∧
    grows r f r1 f1 ∧ f_sent f1 = f_sent f ∧ f_acked f1 = f_acked f) r) as Hwhen.
  { intros b. apply wp_when; intros _; [|exists f; by split_and!; [|apply grows_refl|..]].
    eapply wp_mono; [by apply wp_poll|]. cbn beta. intros _ r1 (f1 & Hok1 & Hg1 & Hp1). exists f1. split_and!; [done..| |].
    - by apply (polled_sent _ _ _ Hp1).
    - unfold polled in Hp1. destruct (ring_busy r); [by rewrite Hp1|]. destruct Hp1 as (_ & _ & _ & Ha). by rewrite Hack in Ha. }
  apply wp_bind. eapply wp_mono; [apply Hwhen|]. cbn beta. intros _ r1 (f1 & Hok1 & Hg1 & Hs1 & Ha1). apply wp_bind.
  assert (wp (if negb (g_queue g) then bam_pipe_get_desc_read_offset E
              else (get ≫= λ r0, mret (r_pipe r0)) ≫= λ pipe, mret (y_cache_offset (p_sys pipe)))
    (λ x r2, ∃ f2, ring_ok g e None r2 f2 ∧ grows r f r2 f2 ∧ f_sent f2 = f_sent f ∧ f_acked f2 = f_acked f ∧
       x = at_cell (g_cells g) (f_limit g f2)) r1) as Hread.
  { unfold f_limit. destruct (g_queue g) eqn:Hq; cbn [negb].
    - wp_steps. exists f1. split_and!; [done..|]. by apply Hok1.
    - eapply (wp_read_offset E g e r1 f1); [done|]. cbn zeta. intros l Hok2. eexists. split_and!; [done|..|done].
      + eapply grows_trans; [done|apply grows_completed].
      + done.
      + done. }
  eapply wp_mono; [exact Hread|]. cbn beta. intros x r2 (f2 & Hok2 & Hg2 & Hs2 & Ha2 & ->).
  pose proof Hok2 as (_ & _ & [Hc2 (_ & Ho2 & _) _ _ Hf2 Hm2 _]). pose proof (co_cells _ _ Hc2) as Hn.
  pose proof (acked_count _ _ _ _ Hok2) as Hac. pose proof (fo_limit _ _ Hf2) as Hl. pose proof (fo_room _ _ Hf2) as Hroom.
  assert (f_limit g f2 ≤ length (f_done f2))%nat as Hld.
  { unfold f_limit. pose proof (fo_seen _ _ Hf2). destruct (g_queue g); lia. }
  wp_steps. rewrite Ho2. destruct (_ =? _) eqn:Heq.
  { apply Z.eqb_eq in Heq. symmetry in Heq. apply at_inj in Heq; [|lia]. apply wp_ret. exists f2.
    split_and!; [done..|]. left. split_and!; [done| |done]. by rewrite <- Heq. }
  assert (f_acked f2 < f_limit g f2)%nat as Hlt.
  { apply Z.eqb_neq in Heq. destruct (decide (f_acked f2 = f_limit g f2)) as [Hx|]; [by rewrite Hx in Heq|lia]. }
  destruct (lookup_lt_is_Some_2 (f_done f2) (f_acked f2)) as [d Hd]; [lia|].
  apply wp_bind. unfold load_cell. eapply wp_of_option.
  { rewrite cell_at. cbn. rewrite lookup_z_nat, (mo_buf _ _ _ _ Hm2), entry_done, Hd by lia. done. }
  wp_steps. apply wp_upd_sys. cbn beta. unfold ring_log. wp_steps. rewrite (next_offset_at _ (g_cells g)) by (apply Hc2 || lia).
  eexists. split_and!; [exact (ring_ok_handed e r2 f2 d Hok2 Hack Hlt Hd)| | |done|right].
  - eapply grows_trans; [exact Hg2|]. split; cbn; done || lia.
  - done.
  - cbn. rewrite <- Ha2. done.
Qed.

(** ** Questions *)

Lemma no_bam2bam p : config_ok g p → has (p_state p) BAM_STATE_BAM2BAM = false ∧ has (p_state p) BAM_STATE_REMOTE = false.
Proof. intros Hc. pose proof (co_remote _ _ Hc) as Hr. unfold is_remote in Hr. rewrite has_lor_r in Hr. by apply orb_false_iff in Hr. Qed.

Lemma wp_is_empty e r f :
  ring_ok g e None r f →
  wp (sps_bam_pipe_is_empty E) (λ a r', ∃ l, let f' := completed_fifo l f in
    ring_ok g e None r' f' ∧ r' = completed_ring l r ∧
    a = (0, bool_decide (f_acked f' = length (f_done f')))) r.
Proof.
  intros Hok. pose proof Hok as (_ & _ & [Hc _ _ _ _ _ _]). unfold sps_bam_pipe_is_empty, ring_pipe. wp_steps.
  destruct (no_bam2bam _ Hc) as [-> ->]. cbn [negb]. apply wp_bind. eapply (wp_read_offset E g e r f); [done|].
  cbn zeta. intros l Hok1. pose proof (acked_count _ _ _ _ Hok1) as Hac. pose proof Hok1 as (_ & _ & [Hc1 (_ & Ho & _) _ _ Hf _ _]).
  set (f1 := completed_fifo l f) in *. pose proof (fo_room _ _ Hf). apply wp_ret. exists l. split_and!; [done..|].
  fold f1. f_equal. change (y_acked_offset (p_sys (r_pipe r))) with (y_acked_offset (p_sys (r_pipe (completed_ring l r)))).
  rewrite Ho. destruct (decide (f_acked f1 = length (f_done f1))) as [Heq|Hne].
  - rewrite bool_decide_true by done. rewrite Heq. apply Z.eqb_refl.
  - rewrite bool_decide_false by done. apply Z.eqb_neq. intros Heq. symmetry in Heq. apply at_inj in Heq; [done|lia].
Qed.

(** ** Every call keeps the queue *)

Lemma keeps_transfer_one addr size user flags : keeps g (sps_bam_pipe_transfer_one E (locked_callback E) addr size user flags).
Proof.
  intros e r f Hok. eapply wp_mono; [by apply wp_transfer_one|]. cbn beta. intros rc r' (_ & f' & ? & ? & _). eauto.
Qed.

Lemma keeps_transfer_loop iovecs user : keeps g (transfer_loop E (locked_callback E) iovecs user).
Proof.
  induction iovecs as [|v iovecs IH]; [apply keeps_ret|]. cbn [transfer_loop].
  apply keeps_bind; [apply keeps_transfer_one|]. intros rc. destruct (negb _); [apply keeps_ret|done].
Qed.

Lemma keeps_free_count : keeps g sps_bam_get_free_count.
Proof.
  intros e r f Hok. eapply wp_mono; [by eapply wp_free_count|]. cbn beta. intros a r' [-> _].
  exists f. split; [done|by apply grows_refl].
Qed.

Lemma keeps_unused : keeps g (sps_bam_pipe_get_unused_desc_num E).
Proof.
  intros e r f Hok. eapply wp_mono; [by eapply wp_unused|]. cbn beta zeta. intros a r' (l & ? & -> & _).
  eexists. split; [done|apply grows_completed].
Qed.

Lemma keeps_is_empty : keeps g (sps_bam_pipe_is_empty E).
Proof.
  intros e r f Hok. eapply wp_mono; [by eapply wp_is_empty|]. cbn beta zeta. intros a r' (l & ? & -> & _).
  eexists. split; [done|apply grows_completed].
Qed.

Lemma keeps_get_iovec : keeps g (sps_get_iovec E).
Proof. intros e r f Hok. eapply wp_mono; [by eapply wp_get_iovec|]. cbn beta. intros a r' (f' & ? & ? & _). eauto. Qed.

#[local] Hint Resolve keeps_ret keeps_pipe keeps_when keeps_free_count keeps_unused keeps_is_empty keeps_get_iovec
  keeps_transfer_loop keeps_transfer_one : core.

Lemma keeps_transfer iovecs user : keeps g (sps_transfer E iovecs user).
Proof.
  unfold sps_transfer, sps_bam_pipe_transfer. destruct (_ || _); [auto|]. apply keeps_bind; [auto|]. intros p.
  destruct (_ =? 0); [auto|]. apply keeps_bind; [|intros count; destruct (_ <? _); auto].
  destruct (_ && _); (apply keeps_bind; [auto|]); intros []; auto.
Qed.

Lemma keeps_get_event : keeps g (sps_bam_pipe_get_event E (locked_callback E)).
Proof.
  unfold sps_bam_pipe_get_event. apply keeps_bind; [auto|]. intros p. destruct (y_no_queue _); [auto|].
  apply keeps_then; [|auto]. apply keeps_when. apply (keeps_eot E g True), locked_ok.
Qed.

Lemma register_length (options : Z) (reg : sps_bam_event_reg) (l : list sps_bam_opt_event_table) (regs : list sps_bam_event_reg) :
  length (foldl (λ regs e, if has options (oe_option e) then <[Z.to_nat (oe_event_id e - 1) := reg]> regs else regs)
    regs l) = length regs.
Proof.
  revert regs. induction l as [|e l IH]; intros regs; [done|]. cbn. rewrite IH.
  destruct (has _ _); [apply length_insert|done].
Qed.

Lemma keeps_reg_event options mode xfer_done cb user : keeps g (sps_bam_pipe_reg_event options mode xfer_done cb user).
Proof.
  unfold sps_bam_pipe_reg_event. apply keeps_bind; [auto|]. intros p. destruct (_ && _); [auto|].
  apply keeps_then; [|auto]. cbn zeta. intros e r f (Hrun & Hdue & Hr). apply wp_upd_sys. exists f. split; [|by apply grows_refl].
  split_and!; [done..|]. eapply (ring_rel_same g e e r f); try done; cbn [r_pipe]; [|apply Hr].
  apply config_sys; [apply Hr|done..|]. apply register_length.
Qed.

Lemma keeps_call c : keeps g (run_call E c).
Proof.
  destruct c; cbn [run_call]; apply keeps_bind; auto using keeps_transfer, keeps_get_event, keeps_reg_event.
  - unfold sps_transfer_one. destruct (negb _); auto.
  - intros []. auto.
  - intros []. auto.
  - intros []. auto.
  - intros []. auto.
  - intros []. auto.
Qed.

Lemma keeps_calls l : keeps g (run_calls E l).
Proof. induction l as [|c l IH]; [apply keeps_ret|]. cbn [run_calls]. apply keeps_bind; [apply keeps_call|done]. Qed.

Lemma isr_ok : cb_ok g False (isr_callback E).
Proof.
  intros n e r f Hok. unfold isr_callback. wp_steps. eapply wp_mono; [by eapply keeps_calls|]. cbn beta.
  intros _ r' (f' & ? & ?). exists f'. split_and!; [done..|by intros].
Qed.

Lemma keeps_interrupt : keeps g (ring_interrupt E).
Proof. apply (keeps_pipe_handler E g False), isr_ok. Qed.
End Calls.
