(* ===== verification/SpsRingStart.v ===== *)
(** * SPS: a pipe connected in system mode is an empty ring

    What [sps_bam_pipe_connect] leaves in a pipe whose other end is memory: the configuration of
    the queue and offsets at its start. *)

From S2P Require Import Prelude.
From S2P Require Import SpsTypes.
From S2P Require Import SpsMem.
From S2P Require Import SpsDev.
From S2P Require Import SpsBam.
From S2P Require Import SpsRing.
From S2P Require Import SpsQueue.
From S2P Require Import SpsRingInv.

(** ** Functions that leave the pipes, the tables of pipes and the options of the BAMs alone *)

Definition table_of (d : sps_bam) : list bam_slot * Z := (b_pipes d, bp_options (b_props d)).
Definition tables (s : sps_state) : gmap Z (list bam_slot * Z) := table_of <$> sps_bams s.

Definition quiet {A} (m : SPS A) : Prop :=
  ∀ s a s', m s = Some (a, s') → sps_pipes s' = sps_pipes s ∧ tables s' = tables s.

Lemma quiet_ret {A} (a : A) : quiet (mret a).
Proof. by intros s a' s' [= _ <-]. Qed.

Lemma quiet_bind {A B} (m : SPS A) (k : A → SPS B) : quiet m → (∀ a, quiet (k a)) → quiet (m ≫= k).
Proof.
  intros Hm Hk s b s'. unfold mbind, M_bind. destruct (m s) as [[a s1]|] eqn:Hrun; [|done].
  intros Hk'. destruct (Hm _ _ _ Hrun) as [<- <-]. by apply (Hk a _ b).
Qed.

Lemma quiet_get : quiet get.
Proof. by intros s a s' [= _ <-]. Qed.

Lemma quiet_when (b : bool) (m : SPS ()) : quiet m → quiet (when b m).
Proof. destruct b; [done|]. intros _. apply quiet_ret. Qed.

Lemma quiet_of_option {A} (o : option A) : quiet (of_option o).
Proof. intros s a s'. unfold of_option. destruct o; [|done]. by intros [= _ <-]. Qed.

Lemma quiet_UB {A} : quiet (UB : SPS A).
Proof. done. Qed.

Lemma quiet_log e : quiet (sps_log e).
Proof. by intros s a s' [= _ <-]. Qed.

Lemma quiet_hist : quiet hist_of.
Proof. by intros s a s' [= _ <-]. Qed.

Lemma quiet_get_bam b : quiet (get_bam b).
Proof. apply quiet_bind; [apply quiet_get|]. intros s. apply quiet_of_option. Qed.

Lemma quiet_get_pipe l : quiet (get_pipe l).
Proof. apply quiet_bind; [apply quiet_get|]. intros s. apply quiet_of_option. Qed.

Lemma quiet_upd_bam b f : (∀ d, table_of (f d) = table_of d) → quiet (upd_bam b f).
Proof.
  intros Hf s a s'. unfold upd_bam, put_bam, get_bam, mbind, M_bind, get, of_option, modify.
  destruct (sps_bams s !! b) as [d|] eqn:Hd; cbn; [rewrite Hd; cbn; intros [= _ <-]|done]. split; [done|]. unfold tables. cbn. rewrite fmap_insert, Hf.
  apply insert_id. by rewrite lookup_fmap, Hd.
Qed.

Lemma quiet_for (n : nat) (from : Z) (body : Z → SPS ()) : (∀ i, quiet (body i)) → quiet (for_loop n from body).
Proof.
  intros Hb. revert from. induction n as [|n IH]; intros from; cbn [for_loop]; [apply quiet_ret|].
  apply quiet_bind; auto.
Qed.

#[local] Hint Resolve quiet_get quiet_ret quiet_when quiet_of_option quiet_UB quiet_log quiet_hist quiet_get_bam
  quiet_get_pipe quiet_for : core.

(** Split a function into its steps and branches. *)
Ltac quiet :=
  repeat first
    [ progress cbn zeta
    | apply quiet_upd_bam; intros ?; reflexivity
    | apply quiet_bind; [|intros ?]
    | apply quiet_when
    | apply quiet_for; intros ?
    | solve [auto]
    | match goal with
      | |- quiet (if ?b then _ else _) => destruct b
      | |- quiet (match ?x with _ => _ end) => destruct x
      end ].

Section Quiet.
Context (E : sps_env).

Lemma quiet_bam_enable b : quiet (sps_bam_enable E b).
Proof. unfold sps_bam_enable, bam_set_irq, bam_check, bam_init. quiet. Qed.

Lemma quiet_get_cache b i p : quiet (get_cache E b i p).
Proof. unfold get_cache, alloc_cache. quiet. Qed.
End Quiet.

(** ** What holds after a function that returns *)

Definition after {A} (m : SPS A) (Q : A → sps_state → Prop) (s : sps_state) : Prop :=
  ∀ a s', m s = Some (a, s') → Q a s'.

Section Here.
Context (b0 x0 : Z).

(** The pipe [l] is [p], and it is in the table of a BAM at [o]; the options of the BAM [b0] are
    [x0]. *)
Definition here (l : positive) (p : sps_pipe) (o : option (Z * Z)) (s : sps_state) : Prop :=
  sps_pipes s !! l = Some p ∧
  (∀ b i, o = Some (b, i) → tables s !! b ≫= (λ t, lookup_z t.1 i) = Some (SlotPipe l)) ∧
  snd <$> tables s !! b0 = Some x0.

Lemma here_weaken l p o s : here l p o s → here l p None s.
Proof. intros (Hl & _ & Hx). by split. Qed.

Lemma after_mono {A} (m : SPS A) (Q R : A → sps_state → Prop) s :
  after m Q s → (∀ a s', Q a s' → R a s') → after m R s.
Proof. intros Hm HR a s' Hrun. by apply HR, Hm. Qed.

Lemma after_ret {A} (a : A) (Q : A → sps_state → Prop) s : Q a s → after (mret a) Q s.
Proof. by intros HQ a' s' [= <- <-]. Qed.

Lemma after_some {A} (o : option A) a (Q : A → sps_state → Prop) s :
  o = Some a → Q a s → after (of_option o) Q s.
Proof. intros -> HQ a' s'. unfold of_option. by intros [= <- <-]. Qed.

Lemma after_bind {A B} (m : SPS A) (k : A → SPS B) Q s :
  after m (λ a s', after (k a) Q s') s → after (m ≫= k) Q s.
Proof.
  intros Hm b s'. unfold mbind, M_bind. destruct (m s) as [[a s1]|] eqn:Hrun; [|done].
  intros Hk. by apply (Hm a s1 Hrun).
Qed.

Lemma after_quiet {A} (m : SPS A) l p o (Q : A → sps_state → Prop) s :
  quiet m → here l p o s → (∀ a s', here l p o s' → Q a s') → after m Q s.
Proof.
  intros Hm Hh HQ a s' Hrun. apply HQ. destruct (Hm _ _ _ Hrun) as [Hp Ht]. unfold here. by rewrite Hp, Ht.
Qed.

Lemma after_get_pipe l p o (Q : sps_pipe → sps_state → Prop) s :
  here l p o s → Q p s → after (get_pipe l) Q s.
Proof. intros [Hl _] HQ a s'. unfold get_pipe, get, mbind, M_bind, of_option. rewrite Hl. by intros [= <- <-]. Qed.

Lemma after_upd_pipe l f p o (Q : () → sps_state → Prop) s :
  here l p o s → (∀ s', here l (f p) o s' → Q () s') → after (upd_pipe l f) Q s.
Proof.
  intros (Hl & Ho & Hx) HQ [] s'. unfold upd_pipe, put_pipe, get_pipe, get, mbind, M_bind, of_option, modify. rewrite Hl. cbn.
  rewrite Hl. intros [= <-]. apply HQ. split; [apply lookup_insert_eq|done].
Qed.

(** Replacing a BAM by one with the same options. *)
Lemma options_insert s b d d' :
  sps_bams s !! b = Some d → bp_options (b_props d') = bp_options (b_props d) →
  snd <$> tables s !! b0 = Some x0 → snd <$> tables (set_bams (<[b := d']> (sps_bams s)) s) !! b0 = Some x0.
Proof.
  unfold tables. cbn. rewrite !lookup_fmap. intros Hb Ho Hx. destruct (decide (b = b0)) as [->|Hne].
  - rewrite lookup_insert_eq. cbn. rewrite Hb in Hx. cbn in Hx. by rewrite Ho.
  - by rewrite lookup_insert_ne.
Qed.

Lemma after_get_bam l p o b (Q : sps_bam → sps_state → Prop) s :
  here l p o s → (∀ d, sps_bams s !! b = Some d → Q d s) → after (get_bam b) Q s.
Proof.
  intros Hh HQ d s'. unfold get_bam, get, mbind, M_bind, of_option. destruct (sps_bams s !! b) eqn:Hb; [|done].
  intros [= <- <-]. by apply HQ.
Qed.

Lemma after_put_slot l b i p o (Q : () → sps_state → Prop) s :
  here l p o s → (∀ s', here l p (Some (b, i)) s' → Q () s') → after (put_slot b i (SlotPipe l)) Q s.
Proof.
  intros (Hl & _ & Hx) HQ [] s'. unfold put_slot, put_bam, get_bam, get, mbind, M_bind, of_option, modify.
  destruct (sps_bams s !! b) as [d|] eqn:Hb; cbn; [|done].
  destruct (store_z (b_pipes d) i (SlotPipe l)) as [t|] eqn:Hst; cbn; [|done]. rewrite Hb. intros [= <-]. apply HQ.
  split_and!; [done| |by eapply options_insert]. intros b' i' [= <- <-]. unfold tables. cbn. rewrite lookup_fmap, lookup_insert_eq. cbn.
  unfold store_z in Hst. destruct ((0 <=? i) && (i <? _)) eqn:Hi; [|done]. injection Hst as <-.
  apply andb_true_iff in Hi as [H1 H2%Z.ltb_lt]. unfold lookup_z. rewrite H1. apply Z.leb_le in H1.
  apply list_lookup_insert_eq. lia.
Qed.

Lemma after_put_bam l p o b d d0 (Q : () → sps_state → Prop) s :
  here l p o s → sps_bams s !! b = Some d0 → bp_options (b_props d) = bp_options (b_props d0) → (∀ s', here l p None s' → Q () s') → after (put_bam b d) Q s.
Proof.
  intros (Hl & _ & Hx) Hb Ho HQ [] s'. unfold put_bam, get_bam, get, mbind, M_bind, of_option, modify.
  rewrite Hb. cbn. intros [= <-]. apply HQ. split_and!; [done..|by eapply options_insert].
Qed.

Lemma after_get_slot l p b i (Q : bam_slot → sps_state → Prop) s :
  here l p (Some (b, i)) s → Q (SlotPipe l) s → after (get_slot b i) Q s.
Proof.
  intros (Hl & Ho & _) HQ x s'. specialize (Ho b i eq_refl). unfold tables in Ho. rewrite lookup_fmap in Ho.
  unfold get_slot, get_bam, get, mbind, M_bind, of_option. destruct (sps_bams s !! b) as [d|]; cbn; [|done].
  cbn in Ho. rewrite Ho. by intros [= <- <-].
Qed.

(** ** Connecting *)

(** The queue that a pipe connected with these options implements. *)
Definition config_of (options mode size : Z) : fifo_config :=
  mkConfig (Z.to_nat (size / sizeof_iovec)) (mode =? SPS_MODE_SRC) (negb (has options SPS_O_NO_Q))
    (has options SPS_O_ACK_TRANSFERS)
    (Z.lor (if has (event_mask options) SPS_O_EOT then SPS_IOVEC_FLAG_EOT else 0)
           (if has (event_mask options) SPS_O_DESC_DONE then SPS_IOVEC_FLAG_INT else 0)).

(** A pipe on its way to being connected in system mode. *)
Record fresh_pipe (mode size : Z) (p : sps_pipe) : Prop := {
  fp_mode : p_mode p = mode;
  fp_size : p_desc_size p = size;
  fp_num : p_num_descs p = size / sizeof_iovec;
  fp_remote : is_remote p = false;
  fp_offsets : y_desc_offset (p_sys p) = 0 ∧ y_acked_offset (p_sys p) = 0 ∧ y_cache_offset (p_sys p) = 0;
  fp_idle : y_handler_eot (p_sys p) = false;
  fp_regs : length (y_event_regs (p_sys p)) = SPS_NUM_EVENTS;
}.

Record connected_pipe (options mode size : Z) (p : sps_pipe) : Prop := {
  cp_fresh : fresh_pipe mode size p;
  cp_queue : y_no_queue (p_sys p) = has options SPS_O_NO_Q;
  cp_ack : y_ack_xfers (p_sys p) = has options SPS_O_ACK_TRANSFERS;
  cp_late : o_late_eot (p_opts p) = has options SPS_O_LATE_EOT;
  cp_mask : p_irq_mask p = event_mask options;
}.

Lemma system_pipe mode size p : fresh_pipe mode size p → has (p_state p) BAM_STATE_BAM2BAM = false.
Proof.
  intros Hf. pose proof (fp_remote _ _ _ Hf) as Hr. unfold is_remote in Hr. rewrite has_lor_r in Hr.
  by apply orb_false_iff in Hr as [? _].
Qed.

Lemma is_remote_irq on p : is_remote (pipe_with_irq on p) = is_remote p.
Proof. unfold is_remote, pipe_with_irq. cbn. destruct on; [by rewrite has_lor_l|by rewrite has_ldiff]. Qed.

Lemma fresh_same mode size p p' :
  fresh_pipe mode size p → p_mode p' = p_mode p → p_desc_size p' = p_desc_size p → p_num_descs p' = p_num_descs p →
  is_remote p' = is_remote p → y_desc_offset (p_sys p') = y_desc_offset (p_sys p) →
  y_acked_offset (p_sys p') = y_acked_offset (p_sys p) → y_cache_offset (p_sys p') = 0 →
  y_handler_eot (p_sys p') = y_handler_eot (p_sys p) → y_event_regs (p_sys p') = y_event_regs (p_sys p) →
  fresh_pipe mode size p'.
Proof. intros [? ? ? ? (? & ? & ?) ? ?] E1 E2 E3 E4 E5 E6 E7 E8 E9. split; rewrite ?E1, ?E2, ?E3, ?E4, ?E5, ?E6, ?E7, ?E8, ?E9; done. Qed.

Section Start.
Context (E : sps_env).

(** A pipe with a queue on the BAM [b0], which does not keep caches, got a cache of its own, as long
    as its FIFO needs. *)
Definition own_cache (b options : Z) (p : sps_pipe) : Prop :=
  b = b0 → has x0 SPS_BAM_HOLD_MEM = false → has options SPS_O_NO_Q = false →
  blk_size (y_desc_cache (p_sys p)) = cache_size p.

Lemma after_get_cache l p o b i q (Q : mem_block → sps_state → Prop) s :
  here l p o s →
  (∀ c s', here l p o s' → (b = b0 → has x0 SPS_BAM_HOLD_MEM = false → blk_size c = cache_size q) → Q c s') →
  after (get_cache E b i q) Q s.
Proof.
  intros Hh HQ. unfold get_cache. apply after_bind. eapply after_get_bam; [done|]. intros d Hd.
  destruct (_ && _) eqn:Hhold.
  - eapply after_quiet; [unfold alloc_cache; quiet|done|]. intros c s1 Hh1. apply HQ; [done|]. intros -> Hx.
    destruct Hh as (_ & _ & Ho). unfold tables in Ho. rewrite lookup_fmap, Hd in Ho. cbn in Ho. injection Ho as Ho.
    by rewrite Ho, Hx, andb_false_r in Hhold.
  - unfold alloc_cache. apply after_bind. eapply after_quiet; [apply quiet_hist|done|]. intros h s1 Hh1.
    apply after_bind. eapply after_quiet; [apply quiet_log|done|]. intros _ s2 Hh2. by apply after_ret, HQ.
Qed.

Lemma after_set_params l b i options mode size p s :
  here l p (Some (b, i)) s → fresh_pipe mode size p → 2 * sizeof_iovec ≤ size →
  blk_addr (y_desc_cache (p_sys p)) = 0 →
  after (sps_bam_pipe_set_params E b i options) (λ rc s', rc = 0 → ∃ p', here l p' None s' ∧
    connected_pipe options mode size p' ∧ own_cache b options p') s.
Proof.
  intros Hh Hf Hmin Hnull. unfold sps_bam_pipe_set_params. apply after_bind. eapply after_get_slot; [done|].
  apply after_bind. eapply after_upd_pipe; [done|]. intros s1 Hh1. apply after_bind. eapply after_get_pipe; [done|].
  set (p1 := set_options options p) in *.
  assert (fresh_pipe mode size p1) as Hf1 by (apply (fresh_same _ _ p); done || apply Hf).
  destruct (_ && _); [by apply after_ret|]. apply after_bind.
  eapply (after_mono _ (λ rc s', ∃ p2, here l p2 (Some (b, i)) s' ∧ fresh_pipe mode size p2 ∧ p_opts p2 = p_opts p1 ∧
    (rc = 0 → own_cache b options p2))).
  { destruct (_ && negb (has (p_state p1) BAM_STATE_BAM2BAM)) eqn:Hget.
    2:{ apply after_ret. exists p1. split_and!; [done..|]. intros _ _ _ Hq. exfalso. revert Hget.
        change (p_sys p1) with (p_sys p).
        rewrite Hq, (system_pipe mode size p1 Hf1), (fp_num _ _ _ Hf1), Hnull. unfold sizeof_iovec in *.
        assert (2 ≤ size / 8) by (apply Z.div_le_lower_bound; lia). by rewrite (proj2 (Z.ltb_lt 0 _)) by lia. }
    apply after_bind. eapply after_get_cache; [done|]. intros cache s2 Hh2 Hc.
    apply after_bind. eapply after_upd_pipe; [done|]. intros s3 Hh3. destruct (blk_addr cache =? 0).
    - apply after_ret. eexists. split_and!; [done| |done|done]. apply (fresh_same _ _ p1); done || apply Hf1.
    - apply after_bind. eapply after_upd_pipe; [done|]. intros s4 Hh4. apply after_ret.
      eexists. split_and!; [done| |done|intros _ Hb Hx _; by apply Hc]. apply (fresh_same _ _ p1); done || apply Hf1. }
  intros rc s2 (p2 & Hh2 & Hf2 & Hopts & Hown). destruct (rc =? 0) eqn:Hrc; cbn [negb].
  2:{ apply after_ret. intros ->. done. }
  apply Z.eqb_eq in Hrc. specialize (Hown Hrc). apply after_bind. eapply after_upd_pipe; [done|]. intros s3 Hh3. apply after_bind.
  unfold pipe_set_irq. apply after_bind. eapply after_get_pipe; [done|].
  apply after_bind. eapply after_quiet; [apply quiet_get_bam|done|]. intros d s4 Hh4.
  set (on := pipe_irq_on _ _ _). apply after_bind.
  eapply after_quiet; [apply quiet_when, quiet_log|done|]. intros _ s5 Hh5.
  apply after_bind. eapply after_upd_pipe; [done|]. intros s6 Hh6.
  eapply after_quiet; [quiet|done|]. intros _ s7 Hh7.
  apply after_bind. eapply after_upd_pipe; [done|]. intros s8 Hh8. apply after_ret. intros _.
  eexists. split; [by eapply here_weaken|]. split; [split; try done|exact Hown].
  - apply (fresh_same _ _ p2); try done; [exact (is_remote_irq on (with_irq_mask (event_mask options) p2))|apply Hf2].
  - cbn. by rewrite Hopts.
Qed.

Lemma after_init_and_assign l b i params hw mode size p s :
  here l p None s → fresh_pipe mode size p → 2 * sizeof_iovec ≤ size →
  blk_addr (y_desc_cache (p_sys p)) = 0 →
  after (init_and_assign E l b i params hw) (λ rc s', rc = 0 → ∃ p', here l p' None s' ∧
    connected_pipe (pa_options params) mode size p' ∧ own_cache b (pa_options params) p') s.
Proof.
  intros Hh Hf Hmin Hnull. unfold init_and_assign. apply after_bind. eapply after_quiet; [|done|].
  { unfold get_slot. quiet. }
  intros x s1 Hh1. destruct (negb _); [by apply after_ret|]. apply after_bind.
  eapply after_quiet; [|done|].
  { unfold bam_pipe_is_enabled. quiet. }
  intros en s2 Hh2. destruct (_ && _); [by apply after_ret|].
  apply after_bind. eapply after_quiet; [apply quiet_log|done|]. intros _ s3 Hh3.
  apply after_bind. eapply after_put_slot; [done|]. intros s4 Hh4.
  apply after_bind. eapply after_get_pipe; [done|].
  apply after_bind. eapply after_quiet; [apply quiet_get_bam|done|]. intros d s5 Hh5.
  rewrite (system_pipe mode size p Hf), orb_true_r. apply after_bind. apply after_bind.
  set (irq := if has (pa_options params) SPS_O_IRQ_MTI then _ else _).
  eapply (after_mono _ (λ _ s', ∃ p1, here l p1 (Some (b, i)) s' ∧ fresh_pipe mode size p1 ∧
    blk_addr (y_desc_cache (p_sys p1)) = 0)).
  { unfold when. destruct (negb _); [|by apply after_ret; exists p]. eapply after_upd_pipe; [done|]. intros s6 Hh6.
    eexists. split_and!; [done| |done]. apply (fresh_same _ _ p); try done; [|apply Hf]. unfold is_remote. cbn. by rewrite has_lor_l. }
  intros _ s6 (p1 & Hh6 & Hf1 & Hnull1). eapply after_mono; [by eapply after_set_params|]. cbn beta.
  intros rc s7 Hrc. destruct (Z.eqb_spec rc 0) as [->|Hne]; cbn [negb].
  2:{ do 2 (apply after_bind; intros ? ? _). apply after_bind. intros ? ? _. by apply after_ret. }
  destruct (Hrc eq_refl) as (p2 & Hh7 & [Hf2 ? ? ? ?] & Hown). apply after_bind. eapply after_put_slot; [done|]. intros s8 Hh8.
  apply after_bind. eapply after_quiet; [unfold bit; quiet|done|]. intros m s9 Hh9.
  apply after_bind. eapply after_get_bam; [done|]. intros d' Hd'.
  apply after_bind. eapply after_put_bam; [done..|]. intros s11 Hh11.
  apply after_bind. eapply after_upd_pipe; [done|]. intros s12 Hh12. apply after_ret. intros _.
  eexists. split; [done|]. split; [split; try done|exact Hown]. apply (fresh_same _ _ p2); try done; [|apply Hf2].
  unfold is_remote. cbn. by rewrite has_lor_l.
Qed.

Lemma after_connect_fifo l b i params map sys src mk mode p s :
  here l p None s → fresh_pipe mode 0 p → blk_addr (y_desc_cache (p_sys p)) = 0 →
  mb_phys_base (m_desc map) ≠ SPS_ADDR_INVALID →
  after (connect_fifo E l b i params map sys src mk) (λ rc s', rc = 0 →
    2 * sizeof_iovec ≤ mb_size (m_desc map) ∧
    ∃ p', here l p' None s' ∧ connected_pipe (pa_options params) mode (mb_size (m_desc map)) p' ∧
      own_cache b (pa_options params) p') s.
Proof.
  intros Hh Hf Hnull Hdesc. unfold connect_fifo. apply after_bind. eapply after_quiet; [unfold bit; quiet|done|]. intros m s1 Hh1.
  apply after_bind. eapply after_upd_pipe; [done|]. intros s2 Hh2.
  apply Z.eqb_neq in Hdesc. rewrite Hdesc. cbn [negb andb].
  destruct (Z.ltb_spec (mb_size (m_desc map)) (2 * sizeof_iovec)); [by apply after_ret|].
  apply after_bind. eapply after_get_pipe; [done|].
  apply after_bind. eapply after_quiet; [apply quiet_get_bam|done|]. intros d s3 Hh3.
  apply after_bind. eapply after_quiet; [apply quiet_when, quiet_log|done|]. intros _ s4 Hh4.
  apply after_bind. eapply after_upd_pipe; [done|]. intros s5 Hh5.
  apply after_bind. eapply after_quiet; [destruct (has _ _); [apply quiet_ret|apply quiet_bam_enable]|done|].
  intros rc s6 Hh6. destruct (negb _).
  { apply after_bind. intros ? ? _. by apply after_ret. }
  eapply after_mono; [eapply after_init_and_assign; [done| |done|done]|].
  - destruct Hf. split; try done.
  - cbn beta. intros rc' s7 Hrc H0. split; [lia|]. by apply Hrc.
Qed.

(** A pipe that [sps_bam_pipe_connect] connected to memory. *)
Lemma after_pipe_connect l params p mp map s :
  sps_pipes s !! l = Some p → p_map p = Some mp → sps_conns s !! mp = Some map →
  ep_bam (end_of (pa_mode params =? SPS_MODE_SRC) map) = Some b0 → snd <$> tables s !! b0 = Some x0 →
  ep_bam (end_of (negb (pa_mode params =? SPS_MODE_SRC)) map) = None →
  mb_phys_base (m_desc map) ≠ SPS_ADDR_INVALID →
  after (sps_bam_pipe_connect E l params) (λ rc s', rc = 0 →
    2 * sizeof_iovec ≤ mb_size (m_desc map) ∧
    ∃ p', sps_pipes s' !! l = Some p' ∧
      connected_pipe (pa_options params) (pa_mode params) (mb_size (m_desc map)) p' ∧
      own_cache b0 (pa_options params) p') s.
Proof.
  intros Hl Hmp Hmap Hb0 Hx0 Hmem Hdesc. unfold sps_bam_pipe_connect. apply after_bind.
  set (p1 := with_pmode (pa_mode params) (pipe_clear p)).
  assert (here l p1 None (set_pipes (<[l := p1]> (sps_pipes s)) s)) as Hh1 by (split_and!; [apply lookup_insert_eq|done|exact Hx0]).
  intros [] s1 Hrun.
  assert (s1 = set_pipes (<[l := p1]> (sps_pipes s)) s) as ->.
  { revert Hrun. unfold upd_pipe, put_pipe, get_pipe, get, mbind, M_bind, of_option, modify. rewrite Hl. cbn. rewrite Hl. by intros [= <-]. }
  apply after_bind. eapply after_get_pipe; [done|]. apply after_bind.
  apply (after_some _ mp); [done|]. apply after_bind, after_bind. intros s0 s2 [= <- <-].
  apply (after_some _ map); [done|].
  set (src := pa_mode params =? SPS_MODE_SRC) in *.
  apply after_bind, (after_some _ b0); [done|]. rename Hh1 into Hh2.
  apply after_bind. eapply after_quiet; [apply quiet_get_bam|done|]. intros d s3 Hh3.
  destruct (_ <=? _); [by apply after_ret|].
  apply after_bind. eapply after_quiet; [unfold bit; quiet|done|]. intros m s4 Hh4.
  destruct (_ || _); [by apply after_ret|]. destruct (has _ _); [by apply after_ret|]. rewrite Hmem.
  apply after_bind. eapply after_upd_pipe; [done|]. intros s5 Hh5.
  eapply after_mono; [eapply (after_connect_fifo _ _ _ _ _ _ _ _ (pa_mode params)); [done| |done|done]|].
  - by split.
  - cbn beta. intros rc s6 Hrc H0. destruct (Hrc H0) as (? & p' & [Hp' _] & ? & ?). eauto.
Qed.
End Start.
End Here.

(** A FIFO whose size is a multiple of a descriptor's, below 8 MB; a producer without the option
    [SPS_O_LATE_EOT]. *)
Lemma connected_config options mode size p :
  connected_pipe options mode size p → 2 * sizeof_iovec ≤ size → size < 2 ^ 23 → size mod sizeof_iovec = 0 →
  (mode =? SPS_MODE_SRC) && has options SPS_O_LATE_EOT = false →
  config_ok (config_of options mode size) p.
Proof.
  intros [[Hmode Hsize Hnum Hrem Ho Hidle Hregs] Hq Hack Hlate Hmask] Hmin Hmax Hmul Hl.
  unfold sizeof_iovec in *. split; cbn [config_of g_cells g_producer g_queue g_ack g_enabled]; unfold sizeof_iovec.
  - rewrite Hsize. rewrite Z2Nat.id by (apply Z.div_pos; lia). pose proof (Z.div_mod size 8 ltac:(lia)). lia.
  - rewrite Hnum. unfold sizeof_iovec. rewrite Z2Nat.id by (apply Z.div_pos; lia). done.
  - assert (2 ≤ size / 8) by (apply Z.div_le_lower_bound; lia). lia.
  - rewrite Z2Nat.id by (apply Z.div_pos; lia). apply Z.div_lt_upper_bound; lia.
  - done.
  - by rewrite Hmode.
  - by rewrite Hq, negb_involutive.
  - done.
  - by rewrite Hmode, Hlate.
  - unfold enabled_flags. by rewrite Hmask.
  - done.
Qed.
