(* ===== verification/SpsRingProps.v ===== *)
(** * SPS: properties of the descriptor ring

    The calls and interrupts of a connected pipe as steps, and what holds of every ring that
    they reach: it holds the queue of its history, the events and the descriptors that clients
    get are those of the queue, and what a transfer does. *)

From S2P Require Import Prelude.
From S2P Require Import SpsTypes.
From S2P Require Import SpsMem.
From S2P Require Import SpsDev.
From S2P Require Import SpsBam.
From S2P Require Import SpsRm.
From S2P Require Import Sps.
From S2P Require Import SpsProps.
From S2P Require Import SpsRing.
From S2P Require Import SpsQueue.
From S2P Require Import SpsRingInv.
From S2P Require Import SpsRingRuns.
From S2P Require Import SpsRingCalls.
From S2P Require Import SpsRingStart.

(** ** Steps *)

Inductive ring_step (E : ring_env) : ring → ring → Prop :=
  | ring_step_call c r a r' : run_call E c r = Some (a, r') → ring_step E r r'
  | ring_step_interrupt r r' : ring_interrupt E r = Some ((), r') → ring_step E r r'.

(** What of the two arrays of a cache lies in its allocation: the copies of the descriptors at its
    start, and the user pointers behind the size of the FIFO. *)
Definition cache_cells (p : sps_pipe) : nat :=
  Z.to_nat (Z.min (p_num_descs p) (blk_size (y_desc_cache (p_sys p)) / sizeof_iovec)).
Definition user_cells (p : sps_pipe) : nat :=
  Z.to_nat (Z.min (p_num_descs p) ((blk_size (y_desc_cache (p_sys p)) - p_desc_size p) / 8)).

(** The cache is as long as the FIFO needs: always, on a BAM without [SPS_BAM_HOLD_MEM]
    ([connected_pipe_starts_ring]). *)
Definition cache_covers (p : sps_pipe) : Prop := cache_size p ≤ blk_size (y_desc_cache (p_sys p)).

(** The ring of a pipe that was just connected in system mode, with the memory that it was given. *)
Record ring_starts (g : fifo_config) (r : ring) : Prop := {
  rs_config : config_ok g (r_pipe r);
  rs_offsets : y_desc_offset (p_sys (r_pipe r)) = 0 ∧ y_acked_offset (p_sys (r_pipe r)) = 0 ∧
               y_cache_offset (p_sys (r_pipe r)) = 0;
  rs_registers : r_read r = 0 ∧ r_write r = 0;
  rs_memory : length (r_desc_buf r) = g_cells g ∧
              (g_queue g = true → length (r_desc_cache r) = cache_cells (r_pipe r) ∧
                                  length (r_user_ptrs r) = user_cells (r_pipe r));
  rs_cache : g_queue g = true → cache_covers (r_pipe r);
  rs_idle : ring_busy r = false;
  rs_hist : r_hist r = [];
}.

Definition ring_reachable (E : ring_env) (g : fifo_config) (r : ring) : Prop :=
  ∃ r0, ring_starts g r0 ∧ rtc (ring_step E) r0 r.

(** The queue that a ring holds. *)
Definition queue_of (g : fifo_config) (r : ring) : option fifo := fifo_run g (r_hist r).

(** ** The history *)

Fixpoint sent_of (hist : list ring_event) : list (sps_iovec * Z) :=
  match hist with
  | [] => []
  | EvDescriptor d user :: hist' => sent_of hist' ++ [(d, user)]
  | _ :: hist' => sent_of hist'
  end.

Fixpoint completed_of (hist : list ring_event) : list sps_iovec :=
  match hist with
  | [] => []
  | EvCompleted l :: hist' => completed_of hist' ++ l
  | _ :: hist' => completed_of hist'
  end.

Fixpoint handed_of (hist : list ring_event) : list sps_iovec :=
  match hist with
  | [] => []
  | EvIovec d :: hist' => handed_of hist' ++ [d]
  | _ :: hist' => handed_of hist'
  end.

(** The events with a transfer, and how many descriptors were processed. *)
Fixpoint notices_of (hist : list ring_event) : list (Z * (sps_iovec * Z)) :=
  match hist with
  | [] => []
  | EvTrigger _ (mkNotify _ id (Some t)) :: hist' => notices_of hist' ++ [(id, t)]
  | _ :: hist' => notices_of hist'
  end.

Fixpoint processed_of (hist : list ring_event) : nat :=
  match hist with
  | [] => O
  | EvProcessed :: hist' => S (processed_of hist')
  | _ :: hist' => processed_of hist'
  end.

(** The events for the first [n] descriptors. *)
Definition notices_due (enabled : Z) (n : nat) (done : list sps_iovec) (sent : list (sps_iovec * Z)) :
    list (Z * (sps_iovec * Z)) :=
  omap (λ '(d, t), event_due enabled d t.2) (zip (take n done) (take n sent)).

#[local] Arguments notices_due : simpl never.

Lemma notices_due_S enabled n done sent d t :
  done !! n = Some d → sent !! n = Some t →
  notices_due enabled (S n) done sent = notices_due enabled n done sent ++ option_list (event_due enabled d t.2).
Proof.
  intros Hd Ht. unfold notices_due. rewrite (take_S_r _ _ _ Hd), (take_S_r _ _ _ Ht).
  pose proof (lookup_lt_Some _ _ _ Hd). pose proof (lookup_lt_Some _ _ _ Ht).
  rewrite zip_with_app by (rewrite !length_take; lia). rewrite omap_app. cbn. by destruct (event_due _ _ _).
Qed.

Record history_of (g : fifo_config) (hist : list ring_event) (f : fifo) : Prop := {
  ho_sent : f_sent f = sent_of hist;
  ho_done : f_done f = completed_of hist;
  ho_seen : f_seen f = processed_of hist;
  ho_bounds : (f_seen f ≤ length (f_done f))%nat ∧ (f_seen f ≤ f_count f)%nat;
  ho_handed : g_ack g = true → handed_of hist = take (f_acked f) (f_done f) ∧ (f_acked f ≤ length (f_done f))%nat;
  ho_notices : notices_of hist ++ option_list (f_due f) = notices_due (g_enabled g) (f_seen f) (f_done f) (f_sent f);
}.

Lemma notices_due_app enabled n done sent done' sent' :
  (n ≤ length done)%nat → (n ≤ length sent)%nat →
  notices_due enabled n (done ++ done') (sent ++ sent') = notices_due enabled n done sent.
Proof. intros Hd Hs. unfold notices_due. by rewrite !take_app_le. Qed.

Lemma history_step g hist f e f' :
  history_of g hist f → fifo_step g f e = Some f' → history_of g (e :: hist) f'.
Proof.
  intros [Hs Hd Hn [Hb1 Hb2] Hh He] Hstep. destruct f as [sent done pub seen acked due].
  unfold f_count in *. cbn [f_sent f_done f_seen f_acked f_due] in *.
  destruct e as [d u|off|l| |reg [user id [t|]]|d| | | |]; cbn in Hstep; try (destruct due as [due|]; cbn in Hstep; [done|]).
  - case_bool_decide; [|done]. injection Hstep as <-. split; cbn; try done; [by rewrite Hs|rewrite length_app; lia|].
    cbn in He; by rewrite He, <- (notices_due_app _ _ done sent [] [(d, u)]), app_nil_r.
  - destruct (_ =? _); [|done]. injection Hstep as <-. by split.
  - destruct (_ && _); [|done]. injection Hstep as <-. split; cbn; try done; [by rewrite Hd|rewrite length_app; unfold f_count in *; cbn; lia| |].
    + intros Hack. destruct (Hh Hack) as [-> Hle]. split; [by rewrite take_app_le|rewrite length_app; lia].
    + cbn in He; by rewrite He, <- (notices_due_app _ _ done sent l []), app_nil_r.
  - destruct (done !! seen) as [d|] eqn:Hdl; [|done]. destruct (sent !! seen) as [t|] eqn:Hsl; [|done]. cbn in Hstep.
    destruct (g_queue g) eqn:Hq; [|done]. injection Hstep as <-.
    pose proof (lookup_lt_Some _ _ _ Hdl). pose proof (lookup_lt_Some _ _ _ Hsl).
    split; unfold f_count; cbn; try done; [lia| |].
    + intros Hack. rewrite Hack. auto.
    + rewrite (notices_due_S _ _ _ _ _ _ Hdl Hsl), <- He. cbn. by rewrite app_nil_r.
  - case_bool_decide as Hdue; [|done]. injection Hstep as <-. split; try done. cbn in *. rewrite <- He, Hdue, app_nil_r. done.
  - injection Hstep as <-. by split.
  - destruct (g_ack g) eqn:Hack; [|done]. cbn in Hstep. case_bool_decide; [|done]. case_bool_decide as Hd'; [|done].
    injection Hstep as <-. split; cbn; try done. intros _. destruct (Hh eq_refl) as [-> Hle].
    pose proof (lookup_lt_Some _ _ _ Hd'). split; [|lia]. symmetry. by apply take_S_r.
  - destruct (_ || _) eqn:Hq; [done|]. apply orb_false_iff in Hq as [_ Hack]. injection Hstep as <-.
    split; cbn; try done. intros ?. congruence.
  - injection Hstep as <-. by split.
  - injection Hstep as <-. by split.
  - injection Hstep as <-. by split.
Qed.

Lemma history_run g hist f : fifo_run g hist = Some f → history_of g hist f.
Proof.
  revert f. induction hist as [|e hist IH]; intros f; cbn [fifo_run].
  - intros [= <-]. split; cbn; try done.
  - destruct (fifo_run g hist) as [f1|]; [|done]. cbn. apply history_step. by apply IH.
Qed.

(** ** Reachable rings *)

Section Reach.
Context (E : ring_env) `{HE : !RingEnvOk E} (g : fifo_config).

Lemma covered_cells p :
  config_ok g p → cache_covers p → cache_cells p = g_cells g ∧ user_cells p = g_cells g.
Proof.
  unfold cache_covers, cache_size, cache_cells, user_cells. intros Hc Hcov.
  pose proof (co_max _ _ Hc). rewrite (co_size _ _ Hc), (co_num _ _ Hc) in *. unfold sizeof_iovec in *.
  rewrite !u32_small in Hcov by (rewrite ?u32_small; lia).
  set (n := blk_size _) in *. pose proof (Z.div_le_lower_bound n 8 (Z.of_nat (g_cells g))).
  pose proof (Z.div_le_lower_bound (n - 8 * Z.of_nat (g_cells g)) 8 (Z.of_nat (g_cells g))). lia.
Qed.

Lemma ring_ok_starts r : ring_starts g r → ring_ok g 0 None r fifo_initial.
Proof.
  intros [Hc (Ho1 & Ho2 & Ho3) [Hrd Hwr] [Hb Hq] Hcov _ Hh]. pose proof (co_cells _ _ Hc).
  assert (g_queue g = true → length (r_desc_cache r) = g_cells g ∧ length (r_user_ptrs r) = g_cells g) as Hq'.
  { intros Hg. destruct (Hq Hg) as [-> ->]. apply covered_cells; auto. }
  assert (at_cell (g_cells g) 0 = 0) as H0 by (unfold at_cell; by rewrite Nat.Div0.mod_0_l).
  split_and!; [by rewrite Hh|done|]. split; try done.
  - unfold offsets_at. change (f_count fifo_initial) with O. cbn [fifo_initial f_acked f_seen]. by rewrite H0.
  - cbn [fifo_initial f_done length]. by rewrite H0.
  - cbn [fifo_initial f_pub]. by rewrite H0.
  - split; unfold f_limit, f_count; cbn; try done; [by destruct (g_queue g)|lia].
  - split; unfold f_count; cbn; try done; try (intros; lia); intros ?; by apply Hq'.
Qed.

(** A step that runs keeps the queue, and whether the handler is running. *)
Lemma keeps_run {A} (m : RG A) e r f a r' :
  keeps g m → ring_ok g e None r f → m r = Some (a, r') → ∃ f', ring_ok g e None r' f' ∧ grows r f r' f'.
Proof. intros Hm Hok Hrun. specialize (Hm e r f Hok). unfold wp in Hm. by rewrite Hrun in Hm. Qed.

Lemma ring_ok_reachable r :
  ring_reachable E g r → ∃ f, ring_ok g 0 None r f ∧ ring_busy r = false.
Proof.
  intros (r0 & Hs & Hr). assert (∃ f, ring_ok g 0 None r0 f ∧ ring_busy r0 = false) as Hstart.
  { exists fifo_initial. split; [by apply ring_ok_starts|by apply Hs]. }
  clear Hs. induction Hr as [|r0 r1 r Hstep _ IH]; [done|]. apply IH. destruct Hstart as (f & Hok & Hb).
  destruct Hstep as [c r1 a r2 Hrun|r1 r2 Hrun].
  - destruct (keeps_run _ _ _ _ _ _ (keeps_call E g c) Hok Hrun) as (f' & Hok' & Hg').
    exists f'. split; [done|]. by rewrite (gr_busy _ _ _ _ Hg').
  - destruct (keeps_run _ _ _ _ _ _ (keeps_interrupt E g) Hok Hrun) as (f' & Hok' & Hg').
    exists f'. split; [done|]. by rewrite (gr_busy _ _ _ _ Hg').
Qed.

Lemma queue_of_ok r f : ring_ok g 0 None r f → queue_of g r = Some f.
Proof. by intros [? _]. Qed.
End Reach.

(** ** Properties *)

(** C12: a connected pipe is a queue. From its connection on, every call and every interrupt
    runs to its end: no access outside the FIFO, the cache or the array of user pointers, and
    no callback that waits for the lock. The history of the ring is one of the queue of
    [SpsQueue], which admits a descriptor only while fewer than [N - 1] are outstanding,
    completes in order no more than was submitted, and hands back only what was completed; and
    the offsets of the driver and of the BAM are the cursors of that queue. The conditions are
    those of [ring_starts] and [RingEnvOk]: a FIFO of whole descriptors, a producer without
    [SPS_O_LATE_EOT], a cache as long as the FIFO needs (so on every BAM that keeps no caches); a
    BAM that completes at most what it was given and leaves a consumer's descriptors; and no call
    from a callback that runs inside the client's own polling call, which would wait for the
    lock that this call holds ([polling_callback_deadlocks]). *)
Theorem ring_refines_queue E `{!RingEnvOk E} g r :
  ring_reachable E g r →
  (∃ f, queue_of g r = Some f ∧ f_due f = None ∧ offsets_at g (p_sys (r_pipe r)) f ∧
     r_read r = at_cell (g_cells g) (length (f_done f)) ∧ r_write r = at_cell (g_cells g) (f_pub f)) ∧
  (∀ c, ∃ a r', run_call E c r = Some (a, r') ∧ is_Some (queue_of g r')) ∧
  (∃ r', ring_interrupt E r = Some ((), r') ∧ is_Some (queue_of g r')).
Proof.
  intros Hr. destruct (ring_ok_reachable E g r Hr) as (f & Hok & _). split_and!.
  - exists f. pose proof Hok as (? & ? & []). by split_and!.
  - intros c. pose proof (keeps_call E g c _ _ _ Hok) as Hw. apply wp_elim in Hw as (a & r' & Hrun & f' & Hok' & _).
    exists a, r'. split; [done|]. exists f'. by apply (queue_of_ok g).
  - pose proof (keeps_interrupt E g _ _ _ Hok) as Hw. apply wp_elim in Hw as ([] & r' & Hrun & f' & Hok' & _).
    exists r'. split; [done|]. exists f'. by apply (queue_of_ok g).
Qed.

(** Connecting makes an empty ring. When [sps_bam_pipe_connect] connects a pipe to memory,
    with a FIFO of whole descriptors below 8 MB (and, on a producer, without the option
    [SPS_O_LATE_EOT]), the pipe with its FIFO and what lies in the allocation of its cache is a
    ring that starts the queue of the connection's options: as many cells as the FIFO has
    descriptors, the direction, the queue and the acknowledgement that the options ask for. On a
    BAM that keeps no caches the cache is as long as the FIFO needs; on one with the option
    [SPS_BAM_HOLD_MEM] that is a condition. *)
Theorem connected_pipe_starts_ring E l params p mp map b d s s' :
  sps_pipes s !! l = Some p → p_map p = Some mp → sps_conns s !! mp = Some map →
  ep_bam (end_of (pa_mode params =? SPS_MODE_SRC) map) = Some b → sps_bams s !! b = Some d →
  ep_bam (end_of (negb (pa_mode params =? SPS_MODE_SRC)) map) = None →
  mb_phys_base (m_desc map) ≠ SPS_ADDR_INVALID → mb_size (m_desc map) < 2 ^ 23 →
  mb_size (m_desc map) mod sizeof_iovec = 0 →
  (pa_mode params =? SPS_MODE_SRC) && has (pa_options params) SPS_O_LATE_EOT = false →
  sps_bam_pipe_connect E l params s = Some (0, s') →
  let g := config_of (pa_options params) (pa_mode params) (mb_size (m_desc map)) in
  ∃ p', sps_pipes s' !! l = Some p' ∧
    (has (bp_options (b_props d)) SPS_BAM_HOLD_MEM = false ∨ cache_covers p' →
     ∀ buf cache users, length buf = g_cells g → length cache = cache_cells p' → length users = user_cells p' →
       ring_starts g (mkRing p' buf cache users 0 0 [])).
Proof.
  intros Hl Hmp Hmap Hb Hd Hmem Hdesc Hmax Hmul Hlate Hrun g.
  assert (snd <$> tables s !! b = Some (bp_options (b_props d))) as Hx by (unfold tables; by rewrite lookup_fmap, Hd).
  destruct (after_pipe_connect b _ E l params p mp map s Hl Hmp Hmap Hb Hx Hmem Hdesc 0 s' Hrun eq_refl)
    as (Hmin & p' & Hp' & Hc & Hown).
  exists p'. split; [done|]. intros Hcov buf cache users Hbuf Hca Hu. pose proof Hc as [[? ? ? ? ? Hidle ?] ? ? ? ?].
  split; try done; [by apply connected_config|]. cbn. intros Hq%negb_true_iff.
  destruct Hcov as [Hhold|]; [|done]. unfold cache_covers. by rewrite Hown.
Qed.

(** C27: the state of a reachable ring is well typed: each offset is a multiple of the size of
    a descriptor inside the FIFO, the registered events are as many as the driver's table, both
    arrays of the cache have the length of the FIFO inside the cache's allocation, and every cell
    between the acknowledged and the next descriptor holds the descriptor that was sent or the
    one that the BAM completed. The conditions are those of C12: whole descriptors, no producer
    with [SPS_O_LATE_EOT], a cache that was not kept from a shorter FIFO, and no call from the
    callbacks of polling calls. *)
Theorem ring_well_typed E `{!RingEnvOk E} g r :
  ring_reachable E g r →
  let y := p_sys (r_pipe r) in
  Forall (λ o, o mod sizeof_iovec = 0 ∧ 0 ≤ o < p_desc_size (r_pipe r))
    ([y_desc_offset y; y_acked_offset y; r_read r; r_write r] ++ (if g_queue g && g_ack g then [y_cache_offset y] else [])) ∧
  length (y_event_regs y) = SPS_NUM_EVENTS ∧ Z.of_nat (length (r_desc_buf r)) = p_num_descs (r_pipe r) ∧
  (g_queue g = true → length (r_desc_cache r) = length (r_desc_buf r) ∧ length (r_user_ptrs r) = length (r_desc_buf r)) ∧
  ∃ f, queue_of g r = Some f ∧
    ∀ i, (f_acked f ≤ i < f_count f)%nat → r_desc_buf r !! (i mod g_cells g)%nat = entry f i.
Proof.
  intros Hr. destruct (ring_ok_reachable E g r Hr) as (f & (Hrun & _ & [Hc (Ho1 & Ho2 & Ho3) Hrd Hwr Hf Hm _]) & _).
  pose proof (co_cells _ _ Hc) as Hn. cbn zeta. destruct Hm as [Hbl Hb Hcl _ Hul _]. split_and!.
  - assert (∀ k, at_cell (g_cells g) k mod sizeof_iovec = 0 ∧ 0 ≤ at_cell (g_cells g) k < p_desc_size (r_pipe r)) as Hat.
    { intros k. pose proof (at_bound (g_cells g) k ltac:(lia)). rewrite (co_size _ _ Hc). unfold at_cell, sizeof_iovec in *.
      split; [|lia]. rewrite Z.mul_comm. apply Z_mod_mult. }
    rewrite Ho1, Ho2, Hrd, Hwr. apply Forall_app. split; [by repeat (constructor; [apply Hat|])|].
    destruct (g_queue g), (g_ack g); try apply Forall_nil. apply Forall_singleton. rewrite (Ho3 eq_refl eq_refl). apply Hat.
  - apply Hc.
  - by rewrite Hbl, (co_num _ _ Hc).
  - intros Hq. by rewrite Hcl, Hul, Hbl.
  - by exists f.
Qed.

(** C29: in order and exactly once. The descriptors that the BAM completed on a consumer are
    those that were sent, from the first on; those that [sps_get_iovec] hands to the client are
    the completed ones, from the first on; the events of processed descriptors are, one for
    each that has a user pointer or an enabled flag and none for any other, in order, those of
    the first completed ones. Fewer than [N] descriptors are with the BAM at any time; on a pipe
    with [SPS_O_ACK_TRANSFERS] fewer than [N] have not been handed back, and on one with a queue
    and without that option fewer than [N] have not been processed. The conditions are those of
    C12, among them that no producer has [SPS_O_LATE_EOT] (with it the handler processes
    descriptors that were never sent, [late_eot_processes_unsent]). *)
Theorem ring_hands_back_in_order E `{!RingEnvOk E} g r :
  ring_reachable E g r →
  (g_producer g = false → completed_of (r_hist r) `prefix_of` fst <$> sent_of (r_hist r)) ∧
  (length (completed_of (r_hist r)) ≤ length (sent_of (r_hist r)) <
     length (completed_of (r_hist r)) + g_cells g)%nat ∧
  (g_queue g = true → g_ack g = false →
     (length (sent_of (r_hist r)) < processed_of (r_hist r) + g_cells g)%nat) ∧
  notices_of (r_hist r) =
    notices_due (g_enabled g) (processed_of (r_hist r)) (completed_of (r_hist r)) (sent_of (r_hist r)) ∧
  (g_ack g = true → handed_of (r_hist r) `prefix_of` completed_of (r_hist r) ∧
     (length (sent_of (r_hist r)) < length (handed_of (r_hist r)) + g_cells g)%nat).
Proof.
  intros Hr. destruct (ring_ok_reachable E g r Hr) as (f & Hok & _).
  pose proof (acked_count _ _ _ _ _ Hok) as Hac. destruct Hok as (Hrun & Hdue & [_ _ _ _ Hf _ _]).
  destruct (history_run _ _ _ Hrun) as [Hs Hd Hn _ Hh He]. rewrite <- Hs, <- Hd, <- Hn. unfold f_count in Hac.
  pose proof (fo_room _ _ Hf) as Hroom. unfold f_count in Hroom.
  rewrite Hdue, app_nil_r in He. split_and!; [|lia..| |done|].
  - intros Hp. rewrite (fo_consumer _ _ Hf Hp). apply prefix_take.
  - intros Hq Hack. by rewrite <- (fo_same_cursor _ _ Hf Hq Hack).
  - intros Hack. destruct (Hh Hack) as [-> Hle]. split; [apply prefix_take|].
    by rewrite length_take_le by done.
Qed.

(** What a single transfer does. It queues exactly the descriptor that the flags and the
    36-bit address make, with its user pointer, and submits all that are queued unless it has
    the flag NO_SUBMIT; or it queues nothing and fails, and then the flags are invalid, there
    is no queue for the user pointer, or [N - 1] descriptors are not acknowledged, even after
    polling where the pipe is polled. *)
Theorem transfer_one_exact E `{!RingEnvOk E} g r addr size user flags :
  ring_reachable E g r →
  ∃ f rc r' f', queue_of g r = Some f ∧ sps_transfer_one E addr size user flags r = Some (rc, r') ∧
    queue_of g r' = Some f' ∧
    let word := DESC_FLAG_WORD flags addr in
    (rc = 0 ∧ sps_check_iovec_flags flags = 0 ∧
     f_sent f' = f_sent f ++ [(mkIovec (Z.land addr 0xFFFFFFFF) (u16 size) (desc_flags (r_pipe r) word), user)] ∧
     f_pub f' = (if has word SPS_IOVEC_FLAG_NO_SUBMIT then f_pub f else f_count f') ∨
     rc = SPS_ERROR ∧ f_sent f' = f_sent f ∧ f_pub f' = f_pub f ∧
     (sps_check_iovec_flags flags ≠ 0 ∨ g_queue g = false ∧ user ≠ 0 ∨
      (f_count f' + 1 = f_acked f' + g_cells g)%nat ∧ (polls g r = true → f_acked f' = length (f_done f')))).
Proof.
  intros Hr. destruct (ring_ok_reachable E g r Hr) as (f & Hok & Hb). exists f.
  unfold sps_transfer_one. destruct (Z.eqb_spec (sps_check_iovec_flags flags) 0) as [Hfl|Hfl]; cbn [negb].
  2:{ exists SPS_ERROR, r, f. split_and!; [apply Hok|done|apply Hok|]. right. split_and!; auto. }
  pose proof (wp_transfer_one E g _ _ _ (Z.land addr 0xFFFFFFFF) size user (DESC_FLAG_WORD flags addr) Hok) as Hw.
  apply wp_elim in Hw as (rc & r' & Hrun & f1 & f' & Hok' & _ & Hs & Hp & Ha & _ & _ & Hpoll & _ & Hres).
  exists rc, r', f'. split_and!; [apply Hok|exact Hrun|apply Hok'|]. cbn zeta.
  destruct (bool_decide (has_room g f1)) eqn:Hroom; [destruct (g_queue g || (user =? 0)) eqn:Hu|]; cbn [andb] in Hres.
  - left. destruct Hres as (-> & Hsent & Hpub). split_and!; [done|done| |done]. rewrite Hsent. do 4 f_equal.
    unfold u32. change 0xFFFFFFFF with (Z.ones 32). rewrite Z.land_ones by done. apply Z.mod_mod. lia.
  - right. destruct Hres as (-> & ->). split_and!; [done..|]. right; left.
    apply orb_false_iff in Hu as [Hq Hu%Z.eqb_neq]. done.
  - right. destruct Hres as (-> & ->). split_and!; [done..|]. apply bool_decide_eq_false in Hroom. unfold has_room in Hroom.
    destruct (g_queue g || (user =? 0)) eqn:Hu.
    2:{ right; left. by apply orb_false_iff in Hu as [Hq Hu%Z.eqb_neq]. }
    right; right. pose proof (fo_room _ _ (rr_fifo _ _ _ _ (proj2 (proj2 Hok')))). split; [lia|].
    intros Hpl. destruct (Hpoll Hpl) as [Hrm|[Hpd|?]]; [| |done].
    + exfalso. apply Hroom. unfold has_room, f_count in *. rewrite Hs. lia.
    + unfold polled in Hpd. rewrite Hb in Hpd. destruct Hpd as (_ & _ & _ & Hack).
      apply andb_true_iff in Hpl as [Hpl%negb_true_iff _]. by rewrite Hpl in Hack.
Qed.

(** C33: a list of descriptors is queued whole, the user pointer with its last one and only
    that one submitting, or not at all; except that on a pipe without a queue a user pointer
    makes the call fail after it has queued all descriptors but the last. On a polled pipe that
    does not acknowledge, this needs that no descriptor was left unsubmitted or that the BAM has
    the option [SPS_BAM_CACHED_WP]: otherwise the free cells are overestimated, and a part of the
    list is queued before the call fails ([polled_transfer_partly_queued]). The other conditions
    are those of C12. *)
Theorem transfer_all_or_nothing E `{!RingEnvOk E} g r iovecs user f :
  ring_reachable E g r → queue_of g r = Some f →
  (polls g r = true → env_cached_wp E = true ∨ f_pub f = f_count f) →
  ∃ rc r' f', sps_transfer E iovecs user r = Some (rc, r') ∧ queue_of g r' = Some f' ∧
    (iovecs ≠ [] ∧
     (if g_queue g || (user =? 0) then rc = 0 ∧ f_sent f' = f_sent f ++ transferred (r_pipe r) iovecs user
      else rc = SPS_ERROR ∧ f_sent f' = f_sent f ++ removelast (transferred (r_pipe r) iovecs user)) ∨
     rc = SPS_ERROR ∧ f_sent f' = f_sent f ∧
     (iovecs = [] ∨ (∃ v, v ∈ iovecs ∧ (SPS_IOVEC_MAX_SIZE < v_size v ∨ sps_check_iovec_flags (v_flags v) ≠ 0)) ∨
      (free_from g r f' + g_cells g ≤ f_count f' + length iovecs)%nat)).
Proof.
  intros Hr Hq Hpub. destruct (ring_ok_reachable E g r Hr) as (f0 & Hok & Hb).
  rewrite (queue_of_ok g _ _ Hok) in Hq. injection Hq as ->. unfold sps_transfer.
  destruct (_ || _) eqn:Hbad.
  - exists SPS_ERROR, r, f. split_and!; [done|apply Hok|]. right. split_and!; [done..|].
    apply orb_true_iff in Hbad as [Hz%Z.eqb_eq|Hx]; [left; by destruct iovecs|right; left].
    apply existsb_exists in Hx as (v & Hv & Hx). exists v. split; [by apply list_elem_of_In|].
    apply orb_true_iff in Hx as [?%Z.ltb_lt|Hx%negb_true_iff%Z.eqb_neq]; auto.
  - pose proof (wp_transfer E g _ _ _ iovecs user Hok (λ Hp, conj Hb (Hpub Hp))) as Hw.
    apply wp_elim in Hw as (rc & r' & Hrun & f' & Hok' & _ & Hres). exists rc, r', f'.
    split_and!; [exact Hrun|apply Hok'|]. unfold queued in Hres.
    destruct Hres as [(-> & Hne & Hs)|(-> & Hs & [Hnil|Hfull])]; [left|right..]; [|by split_and!; auto..].
    split; [done|]. by destruct (g_queue g || (user =? 0)).
Qed.

(** ** A pipe at work

    A producer of four descriptors. The BAM completes one descriptor each time its offset is
    read; its interrupt says that it has; and the client's callback for the end of a transfer
    starts another one. *)

Definition ring_demo_completed (r : ring) : list sps_iovec :=
  if (0 <? p_desc_size (r_pipe r)) && (sizeof_iovec <=? (r_write r - r_read r) mod p_desc_size (r_pipe r)) then
    match r_desc_buf r !! Z.to_nat ((r_read r / sizeof_iovec) mod Z.of_nat (length (r_desc_buf r))) with
    | Some d => [if p_mode (r_pipe r) =? SPS_MODE_SRC
                 then mkIovec (v_addr d) 100 (Z.lor (v_flags d) SPS_IOVEC_FLAG_EOT) else d]
    | None => []
    end
  else [].

Definition ring_demo : ring_env :=
  mkRingEnv ring_demo_completed (λ _, 0x20)
    (λ locked _ n, if negb locked && (nt_event_id n =? SPS_EVENT_EOT)
                   then [CallTransferOne 0x90003000 64 7 SPS_IOVEC_FLAG_INT] else [])
    (λ _, false) true false true.

#[export] Instance ring_demo_ok : RingEnvOk ring_demo.
Proof.
  split.
  - intros r Hpos. cbn [env_completed ring_demo]. unfold ring_demo_completed.
    pose proof (Z.mod_pos_bound (r_write r - r_read r) _ Hpos).
    destruct (_ && _) eqn:Hroom; [|cbn; lia]. apply andb_true_iff in Hroom as [_ Hroom%Z.leb_le].
    destruct (_ !! _); cbn; unfold sizeof_iovec in *; lia.
  - intros r i d Hmode. cbn [env_completed ring_demo]. unfold ring_demo_completed.
    destruct (_ && _); [|done]. destruct (r_desc_buf r !! _) as [d'|] eqn:Hd; [|done]. intros Hi.
    apply Z.eqb_neq in Hmode. rewrite Hmode in Hi. destruct i; [|done]. injection Hi as ->.
    by rewrite Z.add_0_r.
  - done.
Qed.

Definition ring_demo_cfg : sps_connect_cfg :=
  mkConnect 100 SPSRM_CLEAR_ADDR SPSRM_CLEAR SPS_DEV_HANDLE_MEM SPSRM_CLEAR_ADDR SPSRM_CLEAR SPS_MODE_SRC
    SPSRM_CLEAR (Z.lor SPS_O_AUTO_ENABLE (Z.lor SPS_O_EOT SPS_O_ACK_TRANSFERS))
    (mkBuf 0x80000000 0x80000000 0x80000000 32 0) clear_buf SPSRM_CLEAR SPSRM_CLEAR SPSRM_CLEAR SPSRM_CLEAR
    SPSRM_CLEAR.
Definition ring_demo_pipe : sps_pipe :=
  default sps_client_init (sps_pipes (demo_state [OpAllocEndpoint; OpConnect 1 ring_demo_cfg]) !! 1%positive).
Definition ring_demo_config : fifo_config := config_of (c_options ring_demo_cfg) SPS_MODE_SRC 32.
Definition ring_demo_start : ring :=
  mkRing ring_demo_pipe (replicate 4 zero_iovec) (replicate 4 zero_iovec) (replicate 4 0) 0 0 [].

Lemma ring_demo_starts : ring_starts ring_demo_config ring_demo_start.
Proof.
  split; [split|..]; try (vm_compute; reflexivity); try (split_and!; vm_compute; reflexivity).
  - change (g_cells ring_demo_config) with 4%nat. lia.
  - by split; [|split].
  - intros _. unfold cache_covers. vm_compute. discriminate.
Qed.

(** Calls, [None] for an interrupt. *)
Fixpoint run_ring (l : list (option ring_call)) (r : ring) : option ring :=
  match l with
  | [] => Some r
  | c :: l' =>
      r' ← match c with Some c => snd <$> run_call ring_demo c r | None => snd <$> ring_interrupt ring_demo r end;
      run_ring l' r'
  end.

Lemma run_ring_reachable l r : run_ring l ring_demo_start = Some r → ring_reachable ring_demo ring_demo_config r.
Proof.
  intros Hl. exists ring_demo_start. split; [apply ring_demo_starts|].
  revert Hl. generalize ring_demo_start. induction l as [|c l IH]; intros r0; cbn [run_ring]; [by intros [= ->]|].
  destruct c as [c|].
  - destruct (run_call ring_demo c r0) as [[a r1]|] eqn:Hrun; [|done]. cbn. intros Hl.
    eapply rtc_l; [by econstructor|by apply IH].
  - destruct (ring_interrupt ring_demo r0) as [[[] r1]|] eqn:Hrun; [|done]. cbn. intros Hl.
    eapply rtc_l; [by apply ring_step_interrupt|by apply IH].
Qed.

Definition ring_demo_calls : list (option ring_call) :=
  [Some (CallRegisterEvent (Z.lor SPS_O_EOT SPS_O_DESC_DONE) 1 0 5 9); Some (CallTransferOne 0x90001000 64 3 SPS_IOVEC_FLAG_INT);
   Some (CallTransfer [mkIovec 0x90002000 64 0; mkIovec 0x90002040 64 SPS_IOVEC_FLAG_INT] 4);
   None; Some CallGetIovec; None; Some CallFreeCount].
Definition ring_demo_at (l : list (option ring_call)) : ring := default ring_demo_start (run_ring l ring_demo_start).

Lemma ring_demo_reachable l : is_Some (run_ring l ring_demo_start) → ring_reachable ring_demo ring_demo_config (ring_demo_at l).
Proof. intros [r Hr]. unfold ring_demo_at. rewrite Hr. by apply (run_ring_reachable l). Qed.

Lemma ring_refines_queue_witness :
  let r := ring_demo_at ring_demo_calls in
  length (r_hist r) = 16%nat ∧ ∃ f, queue_of ring_demo_config r = Some f ∧ f_count f = 4%nat.
Proof.
  intros r. split; [vm_compute; reflexivity|].
  destruct (ring_refines_queue ring_demo ring_demo_config r) as [(f & Hf & _) _].
  - apply ring_demo_reachable. vm_compute. by eexists.
  - exists f. split; [exact Hf|].
    assert (f_count <$> queue_of ring_demo_config r = Some 4%nat) as Hc by (vm_compute; reflexivity).
    rewrite Hf in Hc. by injection Hc.
Defined.

Lemma ring_well_typed_witness :
  let r := ring_demo_at ring_demo_calls in
  y_desc_offset (p_sys (r_pipe r)) = 0 ∧ y_acked_offset (p_sys (r_pipe r)) = 8 ∧
  length (y_event_regs (p_sys (r_pipe r))) = SPS_NUM_EVENTS.
Proof.
  intros r. split_and!; [vm_compute; reflexivity..|].
  apply (ring_well_typed ring_demo ring_demo_config r). apply ring_demo_reachable. vm_compute. by eexists.
Defined.

(** One event for each processed descriptor, since the BAM marked both as the end of a transfer. *)
Lemma ring_hands_back_in_order_witness :
  let r := ring_demo_at ring_demo_calls in
  length (notices_of (r_hist r)) = 2%nat ∧
  notices_of (r_hist r) =
    notices_due (g_enabled ring_demo_config) (processed_of (r_hist r)) (completed_of (r_hist r)) (sent_of (r_hist r)).
Proof.
  intros r. split; [vm_compute; reflexivity|].
  apply (ring_hands_back_in_order ring_demo ring_demo_config r). apply ring_demo_reachable. vm_compute. by eexists.
Defined.

(** The ring is full: the fourth transfer fails. *)
Definition ring_demo_full : list (option ring_call) :=
  [Some (CallTransfer [mkIovec 0x90001000 64 0; mkIovec 0x90002000 64 0; mkIovec 0x90003000 64 0] 1)].

Lemma transfer_one_exact_witness :
  let r := ring_demo_at ring_demo_full in
  fst <$> sps_transfer_one ring_demo 0x90004000 64 2 0 r = Some SPS_ERROR ∧
  ∃ rc r', sps_transfer_one ring_demo 0x90004000 64 2 0 r = Some (rc, r').
Proof.
  intros r. split; [vm_compute; reflexivity|].
  destruct (transfer_one_exact ring_demo ring_demo_config r 0x90004000 64 2 0) as (f & rc & r' & f' & _ & Hrun & _).
  - apply ring_demo_reachable. vm_compute. by eexists.
  - exists rc, r'. exact Hrun.
Defined.

Lemma transfer_all_or_nothing_witness :
  let l := [mkIovec 0x90001000 64 0; mkIovec 0x90002000 64 0] in
  fst <$> sps_transfer ring_demo l 1 ring_demo_start = Some 0 ∧
  ∃ rc r', sps_transfer ring_demo l 1 ring_demo_start = Some (rc, r').
Proof.
  intros l. split; [vm_compute; reflexivity|].
  destruct (transfer_all_or_nothing ring_demo ring_demo_config ring_demo_start l 1 fifo_initial)
    as (rc & r' & f' & Hrun & _).
  - apply (run_ring_reachable []). reflexivity.
  - reflexivity.
  - intros _. by right.
  - exists rc, r'. exact Hrun.
Defined.

(** The pipe of the demonstration is disconnected and connected again. *)
Definition ring_demo_map : sps_connection :=
  default (mkConn (mkEnd 0 0 0 0 0 None) (mkEnd 0 0 0 0 0 None) clear_buf clear_buf 0 None None 0 0 0 0 0)
    (sps_conns (demo_state [OpAllocEndpoint; OpConnect 1 ring_demo_cfg]) !! 2%positive).
Definition ring_demo_again : sps_state :=
  let s := demo_state [OpAllocEndpoint; OpConnect 1 ring_demo_cfg] in
  default s (snd <$> sps_bam_pipe_disconnect 100 0 s).
Definition ring_demo_param : sps_bam_connect_param := mkParam SPS_MODE_SRC (c_options ring_demo_cfg) 0 0.

Lemma connected_pipe_starts_ring_witness :
  let s' := default ring_demo_again (snd <$> sps_bam_pipe_connect demo_env 1 ring_demo_param ring_demo_again) in
  ∃ p', sps_pipes s' !! 1%positive = Some p' ∧
    ring_starts (config_of (c_options ring_demo_cfg) SPS_MODE_SRC 32)
      (mkRing p' (replicate 4 zero_iovec) (replicate (cache_cells p') zero_iovec) (replicate (user_cells p') 0) 0 0 []).
Proof.
  intros s'.
  assert (is_Some (sps_pipes ring_demo_again !! 1%positive)) as [p Hp] by (vm_compute; by eexists).
  destruct (connected_pipe_starts_ring demo_env 1 ring_demo_param p 2%positive ring_demo_map 100
      (default (demo_bam 0) (sps_bams ring_demo_again !! 100)) ring_demo_again s')
    as (p' & Hp' & Hr).
  - exact Hp.
  - assert ((sps_pipes ring_demo_again !! 1%positive ≫= p_map) = Some 2%positive) as Hm by (vm_compute; reflexivity).
    rewrite Hp in Hm. exact Hm.
  - vm_compute. reflexivity.
  - vm_compute. reflexivity.
  - vm_compute. reflexivity.
  - vm_compute. reflexivity.
  - vm_compute. discriminate.
  - vm_compute. reflexivity.
  - vm_compute. reflexivity.
  - vm_compute. reflexivity.
  - vm_compute. reflexivity.
  - exists p'. split; [exact Hp'|]. apply Hr; [left; vm_compute; reflexivity|reflexivity|apply length_replicate..].
Defined.

(** ** Two defects of the handler

    With [SPS_O_LATE_EOT] a producer's interrupt that comes while the BAM's offset is 0 looks at
    the last cell of the FIFO, which is still empty, and takes all cells but that one for
    completed descriptors. And the error of a pipe in system mode reaches no client: its bit is
    tested against the number of the event, not against the option. *)

Definition ring_demo_late : ring :=
  let p := ring_demo_pipe in
  mkRing (with_opts (mkOpts false false true false) p) (replicate 4 zero_iovec) (replicate 4 zero_iovec)
    (replicate 4 0) 0 0 [].

Lemma late_eot_processes_unsent :
  (r ← snd <$> ring_interrupt ring_demo ring_demo_late;
   Some (length (sent_of (r_hist r)), length (completed_of (r_hist r)), processed_of (r_hist r))) = Some (0, 0, 3)%nat.
Proof. vm_compute. reflexivity. Qed.

Definition ring_demo_error : ring_env :=
  mkRingEnv (λ _, []) (λ _, SPS_O_ERROR) (λ _ _ _, []) (λ _, false) true false true.

Lemma error_not_notified :
  let r := mkRing (with_irq_mask SPS_O_ERROR ring_demo_pipe) (replicate 4 zero_iovec) (replicate 4 zero_iovec)
             (replicate 4 0) 0 0 [] in
  r_hist <$> (snd <$> ring_interrupt ring_demo_error r) = Some [EvStatus SPS_O_ERROR].
Proof. vm_compute. reflexivity. Qed.

(** The comment of [pipe_handler_eot] expects a callback that calls [sps_get_iovec] while a polling
    call runs: it waits for the lock of the BAM, which the polling call holds. From the interrupt
    the same callback is harmless. *)
Definition ring_demo_polling (calls : list ring_call) : ring_env :=
  mkRingEnv ring_demo_completed (λ _, 0x20) (λ _ _ _, calls) (λ _, false) true false true.
Definition ring_demo_polled (calls : list ring_call) : option ring :=
  let E := ring_demo_polling calls in
  let r := mkRing (with_opts (mkOpts true false false false) ring_demo_pipe) (replicate 4 zero_iovec)
             (replicate 4 zero_iovec) (replicate 4 0) 0 0 [] in
  r ← snd <$> run_call E (CallRegisterEvent SPS_O_EOT 1 0 5 9) r;
  snd <$> run_call E (CallTransferOne 0x90001000 64 3 SPS_IOVEC_FLAG_INT) r.

Lemma polling_callback_deadlocks :
  (r ← ring_demo_polled [CallGetIovec]; run_call (ring_demo_polling [CallGetIovec]) CallGetIovec r) = None ∧
  is_Some (r ← ring_demo_polled []; run_call (ring_demo_polling []) CallGetIovec r) ∧
  is_Some (r ← ring_demo_polled [CallGetIovec]; ring_interrupt (ring_demo_polling [CallGetIovec]) r).
Proof. split_and!; [vm_compute; reflexivity|vm_compute; by eexists..]. Qed.

(** Without [SPS_BAM_CACHED_WP] the free cells of a polled pipe are counted from the descriptors
    that were submitted: two that were only queued are overlooked, and of a list of two the first
    is queued before the second finds the ring full. *)
Definition ring_demo_unsubmitted (n : nat) : option ring :=
  let E := ring_demo_polling [] in
  let p := ring_demo_pipe in
  let p := with_sys (sys_with_queue false false (p_sys p)) (with_opts (mkOpts true false false false) p) in
  let one := CallTransferOne 0x90001000 64 0 SPS_IOVEC_FLAG_NO_SUBMIT in
  foldr (λ _ r, r ← r; snd <$> run_call E one r)
    (Some (mkRing p (replicate 4 zero_iovec) (replicate 4 zero_iovec) (replicate 4 0) 0 0 [])) (seq 0 n).

Lemma polled_transfer_partly_queued :
  (r ← ring_demo_unsubmitted 2;
   '(a, r') ← run_call (ring_demo_polling [])
               (CallTransfer [mkIovec 0x90002000 64 0; mkIovec 0x90003000 64 0] 0) r;
   Some (a, length (sent_of (r_hist r)), length (sent_of (r_hist r')))) = Some (RgCode SPS_ERROR, 2, 3)%nat.
Proof. vm_compute. reflexivity. Qed.
