(* ===== verification/HdrTypes.v ===== *)
(** * IPA header tables: data

    The data of [ipa_v2/ipa_hdr.c]: header entries, processing contexts, the offset entries of
    the two tables, the handles of the driver's [idr] and the buffers that the hardware reads.
    Objects of the kernel's caches are cells of heaps, and a pointer is a [positive]; reading a
    cell that is not there, or a null pointer, is undefined. *)

From S2P Require Import Prelude.

(** ** Constants *)

Definition IPA_HDR_MAX_SIZE : Z := 64.
Definition IPA_RESOURCE_NAME_MAX : Z := 32.
Definition IPA_HDR_L2_MAX : Z := 4.
Definition IPA_HDR_PROC_MAX : Z := 11.
Definition IPA_HDR_COOKIE : Z := 0x57831607.
Definition IPA_PROC_HDR_COOKIE : Z := 0x57831608.
Definition IPA_HW_v1_1 : Z := 2.
Definition IPA_HW_v2_0 : Z := 3.
Definition IPA_HW_v2_5 : Z := 5.
Definition IPA_HW_v2_6L : Z := 6.
Definition ipa_hdr_bin_sz : list Z := [8; 16; 24; 36; 60].
Definition ipa_hdr_proc_ctx_bin_sz : list Z := [32; 64].

Definition IPA_HDR_PROC_NONE : Z := 0.
Definition IPA_HDR_PROC_ETHII_TO_ETHII : Z := 1.
Definition IPA_HDR_PROC_ETHII_TO_802_3 : Z := 2.
Definition IPA_HDR_PROC_802_3_TO_ETHII : Z := 3.
Definition IPA_HDR_PROC_802_3_TO_802_3 : Z := 4.

(** The bytes of ["ipa_lan_hdr"], without the terminator. *)
Definition IPA_LAN_RX_HDR_NAME : list Z :=
  [0x69; 0x70; 0x61; 0x5f; 0x6c; 0x61; 0x6e; 0x5f; 0x68; 0x64; 0x72].

(** ** Entries *)

Record ipa_hdr_entry := mkHdr {
  h_cookie : Z;
  h_hdr : list Z;
  h_hdr_len : Z;
  h_name : list Z;
  h_type : Z;
  h_is_partial : Z;
  h_is_hdr_proc_ctx : bool;
  h_phys_base : Z;
  h_proc_ctx : option positive;
  h_offset_entry : option positive;
  h_ref_cnt : Z;
  h_id : Z;
  h_is_eth2_ofst_valid : Z;
  h_eth2_ofst : Z;
  h_user_deleted : bool;
  h_ipacm_installed : bool;
}.

Record ipa_hdr_proc_ctx_entry := mkCtx {
  c_cookie : Z;
  c_type : Z;
  c_offset_entry : option positive;
  c_hdr : positive;
  c_ref_cnt : Z;
  c_id : Z;
  c_user_deleted : bool;
  c_ipacm_installed : bool;
}.

(** [struct ipa_hdr_offset_entry]; that of processing contexts has the same fields. *)
Record ipa_hdr_offset_entry := mkOff {
  o_offset : Z;
  o_bin : Z;
  o_ipacm_installed : bool;
}.

(** [struct ipa_hdr_tbl], and [struct ipa_hdr_proc_ctx_tbl] with the same fields, and the heap
    of the offset entries. *)
Record ipa_hdr_tbl := mkTbl {
  t_entry_list : list positive;
  t_offset_list : list (list positive);
  t_free_offset_list : list (list positive);
  t_cnt : Z;
  t_end : Z;
  t_offs : gmap positive ipa_hdr_offset_entry;
}.

(** What a handle stands for: a header, a processing context, or an object of another part of
    the driver with its cookie. *)
Inductive id_ptr :=
  | IdHdr (p : positive)
  | IdCtx (p : positive)
  | IdOther (cookie : Z).

(** [struct ipa_mem_buffer]; its [base] is that of the buffer at [m_phys_base]. *)
Record ipa_mem_buffer := mkMem { m_phys_base : Z; m_size : Z }.

(** ** Commands to the hardware *)

Inductive imm_cmd :=
  | HdrInitLocal (src size dst : Z)
  | HdrInitSystem (addr : Z)
  | DmaSharedMem (system_addr size local_addr : Z)
  | RegisterWrite (offset value value_mask : Z).

(** The two tables. *)
Inductive table := HdrTable | CtxTable.

(** ** State

    [st_maps]: the headers mapped for the hardware, with address and length. [st_sent]: the
    commands that [ipa_send_cmd] took, latest first, with the buffers at that time and the
    result. [st_time] counts the answers of the environment. *)
Record hdr_state := mkSt {
  st_hdrs : gmap positive ipa_hdr_entry;
  st_ctxs : gmap positive ipa_hdr_proc_ctx_entry;
  st_hdr_tbl : ipa_hdr_tbl;
  st_ctx_tbl : ipa_hdr_tbl;
  st_idr : gmap Z id_ptr;
  st_maps : gmap positive (Z * Z);
  st_bufs : gmap Z (list Z);
  st_hdr_mem : ipa_mem_buffer;
  st_ctx_mem : ipa_mem_buffer;
  st_sent : list (list imm_cmd * gmap Z (list Z) * Z);
  st_time : nat;
}.

(** ** Arguments of the calls *)

(** [struct ipa_hdr_add]: [a_name] and [a_hdr] are the bytes of the arrays. *)
Record ipa_hdr_add := mkHdrAdd {
  a_name : list Z;
  a_hdr : list Z;
  a_hdr_len : Z;
  a_type : Z;
  a_is_partial : Z;
  a_hdr_hdl : Z;
  a_status : Z;
  a_is_eth2_ofst_valid : Z;
  a_eth2_ofst : Z;
}.

Record ipa_hdr_proc_ctx_add := mkCtxAdd {
  pc_type : Z;
  pc_hdr_hdl : Z;
  pc_proc_ctx_hdl : Z;
  pc_status : Z;
}.

(** [struct ipa_hdr_del]; that of processing contexts has the same fields. *)
Record ipa_hdr_del := mkDel { d_hdl : Z; d_status : Z }.

Record ipa_ioc_copy_hdr := mkCopy {
  cp_hdr : list Z;
  cp_hdr_len : Z;
  cp_type : Z;
  cp_is_partial : Z;
  cp_is_eth2_ofst_valid : Z;
  cp_eth2_ofst : Z;
}.

(** ** Environment: configuration and the answers of the rest of the kernel

    The answers: whether a cache or [kmalloc] has memory, the number that [idr_alloc] returns,
    the address of a mapped header, the address of a new buffer and what it holds, the result
    of [ipa_send_cmd] and that of [ipa2_commit_rt]. *)
Record hdr_env := mkHdrEnv {
  ipa_hw_type : Z;
  hdr_tbl_lcl : bool;
  hdr_proc_ctx_tbl_lcl : bool;
  smem_restricted_bytes : Z;
  apps_hdr_ofst : Z;
  apps_hdr_size : Z;
  apps_hdr_size_ddr : Z;
  apps_hdr_proc_ctx_ofst : Z;
  apps_hdr_proc_ctx_size : Z;
  apps_hdr_proc_ctx_size_ddr : Z;
  env_alloc : hdr_state → bool;
  env_id : hdr_state → Z;
  env_map : hdr_state → option Z;
  env_dma : hdr_state → Z → option Z;
  env_fill : hdr_state → Z → Z;
  env_send : hdr_state → list imm_cmd → Z;
  env_commit_rt : hdr_state → Z;
}.

(** ** Updates of one field *)

Definition hdr_with_refs (n : Z) (e : ipa_hdr_entry) : ipa_hdr_entry :=
  mkHdr (h_cookie e) (h_hdr e) (h_hdr_len e) (h_name e) (h_type e) (h_is_partial e)
    (h_is_hdr_proc_ctx e) (h_phys_base e) (h_proc_ctx e) (h_offset_entry e) n (h_id e)
    (h_is_eth2_ofst_valid e) (h_eth2_ofst e) (h_user_deleted e) (h_ipacm_installed e).
Definition hdr_with_id (id : Z) (e : ipa_hdr_entry) : ipa_hdr_entry :=
  mkHdr (h_cookie e) (h_hdr e) (h_hdr_len e) (h_name e) (h_type e) (h_is_partial e)
    (h_is_hdr_proc_ctx e) (h_phys_base e) (h_proc_ctx e) (h_offset_entry e) (h_ref_cnt e) id
    (h_is_eth2_ofst_valid e) (h_eth2_ofst e) (h_user_deleted e) (h_ipacm_installed e).
Definition hdr_with_offset (o : option positive) (e : ipa_hdr_entry) : ipa_hdr_entry :=
  mkHdr (h_cookie e) (h_hdr e) (h_hdr_len e) (h_name e) (h_type e) (h_is_partial e)
    (h_is_hdr_proc_ctx e) (h_phys_base e) (h_proc_ctx e) o (h_ref_cnt e) (h_id e)
    (h_is_eth2_ofst_valid e) (h_eth2_ofst e) (h_user_deleted e) (h_ipacm_installed e).
Definition hdr_with_ctx (c : option positive) (e : ipa_hdr_entry) : ipa_hdr_entry :=
  mkHdr (h_cookie e) (h_hdr e) (h_hdr_len e) (h_name e) (h_type e) (h_is_partial e)
    (h_is_hdr_proc_ctx e) (h_phys_base e) c (h_offset_entry e) (h_ref_cnt e) (h_id e)
    (h_is_eth2_ofst_valid e) (h_eth2_ofst e) (h_user_deleted e) (h_ipacm_installed e).
Definition hdr_with_ddr (b : bool) (phys : Z) (e : ipa_hdr_entry) : ipa_hdr_entry :=
  mkHdr (h_cookie e) (h_hdr e) (h_hdr_len e) (h_name e) (h_type e) (h_is_partial e)
    b phys (h_proc_ctx e) (h_offset_entry e) (h_ref_cnt e) (h_id e)
    (h_is_eth2_ofst_valid e) (h_eth2_ofst e) (h_user_deleted e) (h_ipacm_installed e).
Definition hdr_with_deleted (e : ipa_hdr_entry) : ipa_hdr_entry :=
  mkHdr (h_cookie e) (h_hdr e) (h_hdr_len e) (h_name e) (h_type e) (h_is_partial e)
    (h_is_hdr_proc_ctx e) (h_phys_base e) (h_proc_ctx e) (h_offset_entry e) (h_ref_cnt e) (h_id e)
    (h_is_eth2_ofst_valid e) (h_eth2_ofst e) true (h_ipacm_installed e).

Definition ctx_with_refs (n : Z) (e : ipa_hdr_proc_ctx_entry) : ipa_hdr_proc_ctx_entry :=
  mkCtx (c_cookie e) (c_type e) (c_offset_entry e) (c_hdr e) n (c_id e) (c_user_deleted e)
    (c_ipacm_installed e).
Definition ctx_with_id (id : Z) (e : ipa_hdr_proc_ctx_entry) : ipa_hdr_proc_ctx_entry :=
  mkCtx (c_cookie e) (c_type e) (c_offset_entry e) (c_hdr e) (c_ref_cnt e) id (c_user_deleted e)
    (c_ipacm_installed e).
Definition ctx_with_offset (o : option positive) (e : ipa_hdr_proc_ctx_entry)
    : ipa_hdr_proc_ctx_entry :=
  mkCtx (c_cookie e) (c_type e) o (c_hdr e) (c_ref_cnt e) (c_id e) (c_user_deleted e)
    (c_ipacm_installed e).
Definition ctx_with_deleted (e : ipa_hdr_proc_ctx_entry) : ipa_hdr_proc_ctx_entry :=
  mkCtx (c_cookie e) (c_type e) (c_offset_entry e) (c_hdr e) (c_ref_cnt e) (c_id e) true
    (c_ipacm_installed e).

Definition tbl_with_entries (l : list positive) (cnt : Z) (t : ipa_hdr_tbl) : ipa_hdr_tbl :=
  mkTbl l (t_offset_list t) (t_free_offset_list t) cnt (t_end t) (t_offs t).
Definition tbl_with_lists (u f : list (list positive)) (t : ipa_hdr_tbl) : ipa_hdr_tbl :=
  mkTbl (t_entry_list t) u f (t_cnt t) (t_end t) (t_offs t).
Definition tbl_with_end (n : Z) (t : ipa_hdr_tbl) : ipa_hdr_tbl :=
  mkTbl (t_entry_list t) (t_offset_list t) (t_free_offset_list t) (t_cnt t) n (t_offs t).
Definition tbl_with_offs (m : gmap positive ipa_hdr_offset_entry) (t : ipa_hdr_tbl) : ipa_hdr_tbl :=
  mkTbl (t_entry_list t) (t_offset_list t) (t_free_offset_list t) (t_cnt t) (t_end t) m.

Definition st_tbl (s : hdr_state) (k : table) : ipa_hdr_tbl :=
  match k with HdrTable => st_hdr_tbl s | CtxTable => st_ctx_tbl s end.

Definition with_hdrs (m : gmap positive ipa_hdr_entry) (s : hdr_state) : hdr_state :=
  mkSt m (st_ctxs s) (st_hdr_tbl s) (st_ctx_tbl s) (st_idr s) (st_maps s) (st_bufs s)
    (st_hdr_mem s) (st_ctx_mem s) (st_sent s) (st_time s).
Definition with_ctxs (m : gmap positive ipa_hdr_proc_ctx_entry) (s : hdr_state) : hdr_state :=
  mkSt (st_hdrs s) m (st_hdr_tbl s) (st_ctx_tbl s) (st_idr s) (st_maps s) (st_bufs s)
    (st_hdr_mem s) (st_ctx_mem s) (st_sent s) (st_time s).
Definition with_tbl (k : table) (t : ipa_hdr_tbl) (s : hdr_state) : hdr_state :=
  match k with
  | HdrTable => mkSt (st_hdrs s) (st_ctxs s) t (st_ctx_tbl s) (st_idr s) (st_maps s) (st_bufs s)
                  (st_hdr_mem s) (st_ctx_mem s) (st_sent s) (st_time s)
  | CtxTable => mkSt (st_hdrs s) (st_ctxs s) (st_hdr_tbl s) t (st_idr s) (st_maps s) (st_bufs s)
                  (st_hdr_mem s) (st_ctx_mem s) (st_sent s) (st_time s)
  end.
Definition with_idr (m : gmap Z id_ptr) (s : hdr_state) : hdr_state :=
  mkSt (st_hdrs s) (st_ctxs s) (st_hdr_tbl s) (st_ctx_tbl s) m (st_maps s) (st_bufs s)
    (st_hdr_mem s) (st_ctx_mem s) (st_sent s) (st_time s).
Definition with_maps (m : gmap positive (Z * Z)) (s : hdr_state) : hdr_state :=
  mkSt (st_hdrs s) (st_ctxs s) (st_hdr_tbl s) (st_ctx_tbl s) (st_idr s) m (st_bufs s)
    (st_hdr_mem s) (st_ctx_mem s) (st_sent s) (st_time s).
Definition with_bufs (m : gmap Z (list Z)) (s : hdr_state) : hdr_state :=
  mkSt (st_hdrs s) (st_ctxs s) (st_hdr_tbl s) (st_ctx_tbl s) (st_idr s) (st_maps s) m
    (st_hdr_mem s) (st_ctx_mem s) (st_sent s) (st_time s).
Definition with_mem (k : table) (b : ipa_mem_buffer) (s : hdr_state) : hdr_state :=
  match k with
  | HdrTable => mkSt (st_hdrs s) (st_ctxs s) (st_hdr_tbl s) (st_ctx_tbl s) (st_idr s) (st_maps s)
                  (st_bufs s) b (st_ctx_mem s) (st_sent s) (st_time s)
  | CtxTable => mkSt (st_hdrs s) (st_ctxs s) (st_hdr_tbl s) (st_ctx_tbl s) (st_idr s) (st_maps s)
                  (st_bufs s) (st_hdr_mem s) b (st_sent s) (st_time s)
  end.
Definition st_mem (s : hdr_state) (k : table) : ipa_mem_buffer :=
  match k with HdrTable => st_hdr_mem s | CtxTable => st_ctx_mem s end.
Definition with_sent (l : list (list imm_cmd * gmap Z (list Z) * Z)) (s : hdr_state) : hdr_state :=
  mkSt (st_hdrs s) (st_ctxs s) (st_hdr_tbl s) (st_ctx_tbl s) (st_idr s) (st_maps s) (st_bufs s)
    (st_hdr_mem s) (st_ctx_mem s) l (st_time s).
Definition tick (s : hdr_state) : hdr_state :=
  mkSt (st_hdrs s) (st_ctxs s) (st_hdr_tbl s) (st_ctx_tbl s) (st_idr s) (st_maps s) (st_bufs s)
    (st_hdr_mem s) (st_ctx_mem s) (st_sent s) (S (st_time s)).
