(* ===== verification/Hdr.v ===== *)
(** * IPA header tables: the program

    [ipa_v2/ipa_hdr.c]: adding and deleting headers and processing contexts, the images of the
    two tables, their commits to the hardware, lookups and the reset. The driver's mutex makes
    every call one step, so that the calls are sequential. *)

From S2P Require Import Prelude.
From S2P Require Import HdrTypes.

Abbreviation HM := (M hdr_state).

(** ** Access *)

(** An answer of the environment, which may change after it. *)
Definition ask {A} (f : hdr_state → A) : HM A :=
  s ← get; put (tick s) ;; mret (f s).

Definition hdr_at (p : positive) : HM ipa_hdr_entry := s ← get; of_option (st_hdrs s !! p).
Definition ctx_at (p : positive) : HM ipa_hdr_proc_ctx_entry := s ← get; of_option (st_ctxs s !! p).
Definition off_at (k : table) (o : option positive) : HM ipa_hdr_offset_entry :=
  o ← of_option o; s ← get; of_option (t_offs (st_tbl s k) !! o).
Definition put_hdr (p : positive) (e : ipa_hdr_entry) : HM () :=
  modify (λ s, with_hdrs (<[p := e]> (st_hdrs s)) s).
Definition put_ctx (p : positive) (e : ipa_hdr_proc_ctx_entry) : HM () :=
  modify (λ s, with_ctxs (<[p := e]> (st_ctxs s)) s).
Definition upd_hdr (p : positive) (f : ipa_hdr_entry → ipa_hdr_entry) : HM () :=
  e ← hdr_at p; put_hdr p (f e).
Definition upd_ctx (p : positive) (f : ipa_hdr_proc_ctx_entry → ipa_hdr_proc_ctx_entry) : HM () :=
  e ← ctx_at p; put_ctx p (f e).
Definition upd_tbl (k : table) (f : ipa_hdr_tbl → ipa_hdr_tbl) : HM () :=
  modify (λ s, with_tbl k (f (st_tbl s k)) s).

(** [kmem_cache_free] *)
Definition free_hdr (p : positive) : HM () :=
  hdr_at p ;; modify (λ s, with_hdrs (delete p (st_hdrs s)) s).
Definition free_ctx (p : positive) : HM () :=
  ctx_at p ;; modify (λ s, with_ctxs (delete p (st_ctxs s)) s).

(** ** Handles *)

Definition cookie_of (i : id_ptr) : HM Z :=
  match i with
  | IdHdr p => e ← hdr_at p; mret (h_cookie e)
  | IdCtx p => e ← ctx_at p; mret (c_cookie e)
  | IdOther cookie => mret cookie
  end.

Definition ipa_id_find (id : Z) : HM (option id_ptr) := s ← get; mret (st_idr s !! id).
Definition ipa_id_remove (id : Z) : HM () := modify (λ s, with_idr (delete id (st_idr s)) s).

(** The object that a handle names, if its cookie is that of a header. *)
Definition find_hdr (hdl : Z) : HM (option positive) :=
  i ← ipa_id_find hdl;
  match i with
  | None => mret None
  | Some i =>
      cookie ← cookie_of i;
      if negb (cookie =? IPA_HDR_COOKIE) then mret None
      else match i with IdHdr p => mret (Some p) | _ => UB end
  end.
Definition find_ctx (hdl : Z) : HM (option positive) :=
  i ← ipa_id_find hdl;
  match i with
  | None => mret None
  | Some i =>
      cookie ← cookie_of i;
      if negb (cookie =? IPA_PROC_HDR_COOKIE) then mret None
      else match i with IdCtx p => mret (Some p) | _ => UB end
  end.

(** ** Slots

    [list_move] unlinks an offset entry from the list that holds it. *)

Definition unlink (o : positive) (ls : list (list positive)) : list (list positive) :=
  map (filter (λ x, x ≠ o)) ls.
Definition push (bin : Z) (o : positive) (ls : list (list positive)) : option (list (list positive)) :=
  l ← lookup_z ls bin; store_z ls bin (o :: l).

Definition move_to_free (k : table) (o : positive) (bin : Z) : HM () :=
  s ← get;
  let t := st_tbl s k in
  f ← of_option (push bin o (unlink o (t_free_offset_list t)));
  upd_tbl k (tbl_with_lists (unlink o (t_offset_list t)) f).
Definition move_to_used (k : table) (o : positive) (bin : Z) : HM () :=
  s ← get;
  let t := st_tbl s k in
  u ← of_option (push bin o (unlink o (t_offset_list t)));
  upd_tbl k (tbl_with_lists u (unlink o (t_free_offset_list t))).

(** [list_move(&entry->offset_entry->link, ...)] with the bin of the offset entry. *)
Definition release_slot (k : table) (o : option positive) : HM () :=
  e ← off_at k o; o ← of_option o; move_to_free k o (o_bin e).

(** A first item grows the table. *)
Definition grow_slot (k : table) (bin size : Z) (user : bool) : HM positive :=
  s ← get;
  let t := st_tbl s k in
  let o := fresh (dom (t_offs t)) in
  u ← of_option (push bin o (t_offset_list t));
  upd_tbl k (λ t, mkTbl (t_entry_list t) u (t_free_offset_list t) (t_cnt t) (u32 (t_end t + size))
                    (<[o := mkOff (t_end t) bin user]> (t_offs t))) ;;
  mret o.

(** The first free slot. *)
Definition reuse_slot (k : table) (o : positive) (bin : Z) (user : bool) : HM () :=
  move_to_used k o bin ;;
  e ← off_at k (Some o);
  upd_tbl k (λ t, tbl_with_offs (<[o := mkOff (o_offset e) (o_bin e) user]> (t_offs t)) t).

Definition add_entry (k : table) (p : positive) : HM () :=
  upd_tbl k (λ t, tbl_with_entries (p :: t_entry_list t) (u32 (t_cnt t + 1)) t).
Definition del_entry (k : table) (p : positive) : HM () :=
  upd_tbl k (λ t, tbl_with_entries (filter (λ x, x ≠ p) (t_entry_list t)) (u32 (t_cnt t - 1)) t).

(** The first bin that is large enough. *)
Fixpoint first_bin (sizes : list Z) (len bin : Z) : option (Z * Z) :=
  match sizes with
  | [] => None
  | size :: sizes' => if len <=? size then Some (bin, size) else first_bin sizes' len (bin + 1)
  end.

(** ** Strings *)

Fixpoint until_nul (l : list Z) : list Z :=
  match l with
  | [] => []
  | c :: l' => if c =? 0 then [] else c :: until_nul l'
  end.
(** A name that fits an array of 32 bytes with its terminator. *)
Definition name_of (l : list Z) : list Z :=
  take (Z.to_nat (IPA_RESOURCE_NAME_MAX - 1)) (until_nul l).
Definition is_lan (name : list Z) : bool := bool_decide (name = IPA_LAN_RX_HDR_NAME).

(** ** Buffers for the hardware *)

Definition zeros (n : Z) : list Z := replicate (Z.to_nat n) 0.
Definition write_bytes (ofst : Z) (bytes buf : list Z) : option (list Z) :=
  if (0 <=? ofst) && (ofst + Z.of_nat (length bytes) <=? Z.of_nat (length buf)) then
    Some (take (Z.to_nat ofst) buf ++ bytes ++ drop (Z.to_nat ofst + length bytes) buf)
  else None.
Definition store_bytes (phys ofst : Z) (bytes : list Z) : HM () :=
  s ← get;
  buf ← of_option (st_bufs s !! phys);
  buf ← of_option (write_bytes ofst bytes buf);
  modify (λ s, with_bufs (<[phys := buf]> (st_bufs s)) s).
Definition dma_free_coherent (m : ipa_mem_buffer) : HM () :=
  s ← get;
  buf ← of_option (st_bufs s !! m_phys_base m);
  if Z.of_nat (length buf) =? m_size m then
    modify (λ s, with_bufs (delete (m_phys_base m) (st_bufs s)) s)
  else UB.

Definition IPA_HDR_PROC_CTX_TABLE_ALIGNMENT_BYTE : Z := 8.
Definition IPA_HDR_PROC_CTX_TABLE_ALIGNMENT (start : Z) : Z :=
  Z.land (start + IPA_HDR_PROC_CTX_TABLE_ALIGNMENT_BYTE - 1)
    (Z.lnot (IPA_HDR_PROC_CTX_TABLE_ALIGNMENT_BYTE - 1)).

(** ** What the hardware reads of a processing context *)

Definition IPA_PROC_CTX_TLV_TYPE_END : Z := 0.
Definition IPA_PROC_CTX_TLV_TYPE_HDR_ADD : Z := 1.
Definition IPA_PROC_CTX_TLV_TYPE_PROC_CMD : Z := 3.
Definition byte_of (z i : Z) : Z := Z.shiftr z (8 * i) mod 256.
Definition le16 (z : Z) : list Z := [byte_of z 0; byte_of z 1].
Definition le32 (z : Z) : list Z := [byte_of z 0; byte_of z 1; byte_of z 2; byte_of z 3].
Definition tlv_head (type length : Z) : list Z := [byte_of type 0; byte_of length 0].
Definition tlv (type length value : Z) : list Z := tlv_head type length ++ le16 value.

(** The command of a type; the other types have none and leave the field as it is. *)
Definition ucp_command (type : Z) : option Z :=
  if type =? IPA_HDR_PROC_ETHII_TO_ETHII then Some 9
  else if type =? IPA_HDR_PROC_ETHII_TO_802_3 then Some 8
  else if type =? IPA_HDR_PROC_802_3_TO_ETHII then Some 7
  else if type =? IPA_HDR_PROC_802_3_TO_802_3 then Some 6
  else None.

Section Hdr.
Context (E : hdr_env).

Definition new_hdr (e : ipa_hdr_entry) : HM positive :=
  s ← get;
  let p := fresh (dom (st_hdrs s)) in
  put_hdr p e ;; mret p.
Definition new_ctx (e : ipa_hdr_proc_ctx_entry) : HM positive :=
  s ← get;
  let p := fresh (dom (st_ctxs s)) in
  put_ctx p e ;; mret p.

Definition ipa_id_alloc (i : id_ptr) : HM Z :=
  id ← ask (env_id E);
  when (0 <=? id) (modify (λ s, with_idr (<[id := i]> (st_idr s)) s)) ;;
  mret id.

(** [dma_unmap_single] of a header. *)
Definition unmap_hdr (p : positive) : HM () :=
  e ← hdr_at p;
  s ← get;
  m ← of_option (st_maps s !! p);
  if bool_decide (m = (h_phys_base e, h_hdr_len e)) then
    modify (λ s, with_maps (delete p (st_maps s)) s)
  else UB.

Definition new_buf (contents : Z → list Z) (size : Z) : HM (option ipa_mem_buffer) :=
  phys ← ask (λ s, env_dma E s size);
  match phys with
  | None => mret None
  | Some phys =>
      modify (λ s, with_bufs (<[phys := contents size]> (st_bufs s)) s) ;;
      mret (Some (mkMem phys size))
  end.
Definition dma_zalloc_coherent : Z → HM (option ipa_mem_buffer) := new_buf zeros.
Definition dma_alloc_coherent (size : Z) : HM (option ipa_mem_buffer) :=
  s ← get; new_buf (λ size, map (env_fill E s) (seqZ 0 size)) size.

(** ** The images of the tables *)

Fixpoint write_headers (m : ipa_mem_buffer) (l : list positive) : HM () :=
  match l with
  | [] => mret ()
  | p :: l' =>
      e ← hdr_at p;
      (if h_is_hdr_proc_ctx e then mret ()
       else
         o ← off_at HdrTable (h_offset_entry e);
         store_bytes (m_phys_base m) (o_offset o) (take (Z.to_nat (h_hdr_len e)) (h_hdr e))) ;;
      write_headers m l'
  end.

Definition ipa_generate_hdr_hw_tbl : HM (Z * ipa_mem_buffer) :=
  s ← get;
  let size := t_end (st_hdr_tbl s) in
  if size =? 0 then mret (-EPERM, mkMem 0 0)
  else
    m ← dma_zalloc_coherent size;
    match m with
    | None => mret (-ENOMEM, mkMem 0 0)
    | Some m =>
        write_headers m (t_entry_list (st_hdr_tbl s)) ;;
        mret (0, m)
    end.

(** The address of the header of a processing context. *)
Definition hdr_addr (hdr_base_addr : Z) (h : ipa_hdr_entry) : HM Z :=
  if h_is_hdr_proc_ctx h then mret (u32 (h_phys_base h))
  else o ← off_at HdrTable (h_offset_entry h); mret (u32 (hdr_base_addr + o_offset o)).

(** One entry; the table starts [delta] bytes after the buffer. *)
Definition write_ctx (phys delta hdr_base_addr : Z) (c : ipa_hdr_proc_ctx_entry) : HM () :=
  o ← off_at CtxTable (c_offset_entry c);
  h ← hdr_at (c_hdr c);
  addr ← hdr_addr hdr_base_addr h;
  let at_ := delta + o_offset o in
  store_bytes phys at_ (tlv IPA_PROC_CTX_TLV_TYPE_HDR_ADD 1 (h_hdr_len h) ++ le32 addr) ;;
  if c_type c =? IPA_HDR_PROC_NONE then
    store_bytes phys (at_ + 8) (tlv IPA_PROC_CTX_TLV_TYPE_END 0 0)
  else
    store_bytes phys (at_ + 8) (tlv_head IPA_PROC_CTX_TLV_TYPE_PROC_CMD 0) ;;
    match ucp_command (c_type c) with
    | Some v => store_bytes phys (at_ + 10) (le16 v)
    | None => mret ()
    end ;;
    store_bytes phys (at_ + 12) (tlv IPA_PROC_CTX_TLV_TYPE_END 0 0).

Fixpoint write_ctxs (phys delta hdr_base_addr : Z) (l : list positive) : HM () :=
  match l with
  | [] => mret ()
  | p :: l' =>
      c ← ctx_at p;
      write_ctx phys delta hdr_base_addr c ;;
      write_ctxs phys delta hdr_base_addr l'
  end.

Definition ipa_hdr_proc_ctx_to_hw_format (phys delta hdr_base_addr : Z) : HM () :=
  s ← get; write_ctxs phys delta hdr_base_addr (t_entry_list (st_ctx_tbl s)).

(** The buffer and the aligned table in it. *)
Definition ipa_generate_hdr_proc_ctx_hw_tbl (hdr_sys_addr : Z)
    : HM (Z * ipa_mem_buffer * ipa_mem_buffer) :=
  s ← get;
  let end_ := t_end (st_ctx_tbl s) in
  let size := u32 ((if end_ =? 0 then 4 else end_) + IPA_HDR_PROC_CTX_TABLE_ALIGNMENT_BYTE) in
  m ← dma_alloc_coherent size;
  match m with
  | None => mret (-ENOMEM, mkMem 0 0, mkMem 0 0)
  | Some m =>
      let phys := m_phys_base m in
      let aligned := mkMem (IPA_HDR_PROC_CTX_TABLE_ALIGNMENT phys)
                       (u32 (size - IPA_HDR_PROC_CTX_TABLE_ALIGNMENT_BYTE)) in
      let delta := m_phys_base aligned - phys in
      store_bytes phys delta (zeros (m_size aligned)) ;;
      ipa_hdr_proc_ctx_to_hw_format phys delta
        (if hdr_tbl_lcl E then apps_hdr_ofst E else u32 hdr_sys_addr) ;;
      mret (0, m, aligned)
  end.

(** ** Commits *)

Definition ipa_send_cmd (l : list imm_cmd) : HM Z :=
  s ← get;
  rc ← ask (λ s, env_send E s l);
  modify (λ s, with_sent ((l, st_bufs s, rc) :: st_sent s) s) ;;
  mret rc.

Definition IPA_MEM_v1_RAM_HDR_OFST : Z := 0.
Definition IPA_MEM_v1_RAM_HDR_SIZE : Z := 1664.
Definition IPA_SYS_PKT_PROC_CNTXT_BASE_OFST : Z := 0x5d8.

(** The hardware has its own copy of a local table; of a table in memory it reads the buffer,
    which replaces the one before it. *)
Definition settle (k : table) (lcl ok : bool) (m : ipa_mem_buffer) : HM () :=
  if lcl then dma_free_coherent m
  else if ok then
    s ← get;
    when (negb (m_phys_base (st_mem s k) =? 0)) (dma_free_coherent (st_mem s k)) ;;
    modify (with_mem k m)
  else dma_free_coherent m.

Definition __ipa_commit_hdr_v1_1 : HM Z :=
  ok ← ask (env_alloc E);
  if negb ok then mret (-EPERM)
  else
    ok ← ask (env_alloc E);
    if negb ok then mret (-EPERM)
    else
      '(rc, mem) ← ipa_generate_hdr_hw_tbl;
      if negb (rc =? 0) then mret (-EPERM)
      else
        let limit := if hdr_tbl_lcl E then IPA_MEM_v1_RAM_HDR_SIZE else apps_hdr_size_ddr E in
        if limit <? m_size mem then dma_free_coherent mem ;; mret (-EPERM)
        else
          rc ← ipa_send_cmd
                 [if hdr_tbl_lcl E then HdrInitLocal (u32 (m_phys_base mem)) (m_size mem mod 2 ^ 12)
                                          IPA_MEM_v1_RAM_HDR_OFST
                  else HdrInitSystem (u32 (m_phys_base mem))];
          if negb (rc =? 0) then dma_free_coherent mem ;; mret (-EPERM)
          else settle HdrTable (hdr_tbl_lcl E) true mem ;; mret 0.

(** The command for the header table, or the error; each has its command object. *)
Definition hdr_command (mem : ipa_mem_buffer) : HM (Z + imm_cmd) :=
  if (if hdr_tbl_lcl E then apps_hdr_size E else apps_hdr_size_ddr E) <? m_size mem then
    mret (inl (-EFAULT))
  else
    ok ← ask (env_alloc E);
    mret (if negb ok then inl (-ENOMEM)
          else inr (if hdr_tbl_lcl E then
                      DmaSharedMem (u32 (m_phys_base mem)) (u16 (m_size mem))
                        (u16 (smem_restricted_bytes E + apps_hdr_ofst E))
                    else HdrInitSystem (u32 (m_phys_base mem)))).

Definition ctx_command (aligned : ipa_mem_buffer) : HM (Z + imm_cmd) :=
  if (if hdr_proc_ctx_tbl_lcl E then apps_hdr_proc_ctx_size E else apps_hdr_proc_ctx_size_ddr E)
     <? m_size aligned then
    mret (inl (-EFAULT))
  else
    ok ← ask (env_alloc E);
    mret (if negb ok then inl (-ENOMEM)
          else inr (if hdr_proc_ctx_tbl_lcl E then
                      DmaSharedMem (u32 (m_phys_base aligned)) (u16 (m_size aligned))
                        (u16 (smem_restricted_bytes E + apps_hdr_proc_ctx_ofst E))
                    else RegisterWrite IPA_SYS_PKT_PROC_CNTXT_BASE_OFST (u32 (m_phys_base aligned))
                           (u32 (Z.lnot (IPA_HDR_PROC_CTX_TABLE_ALIGNMENT_BYTE - 1))))).

Definition send_result (l : list imm_cmd) : HM Z :=
  rc ← ipa_send_cmd l; mret (if rc =? 0 then 0 else -EFAULT).

Definition __ipa_commit_hdr_v2 : HM Z :=
  '(rc, mem) ← ipa_generate_hdr_hw_tbl;
  if negb (rc =? 0) then mret (-EFAULT)
  else
    c ← hdr_command mem;
    rc ← match c with inl e => mret e | inr c => send_result [c] end;
    settle HdrTable (hdr_tbl_lcl E) (rc =? 0) mem ;;
    mret rc.

Definition __ipa_commit_hdr_v2_5 : HM Z :=
  '(rc, hdr_mem) ← ipa_generate_hdr_hw_tbl;
  if negb (rc =? 0) then mret (-EFAULT)
  else
    '(rc, ctx_mem, aligned) ← ipa_generate_hdr_proc_ctx_hw_tbl (m_phys_base hdr_mem);
    if negb (rc =? 0) then mret (-EFAULT)
    else
      c ← hdr_command hdr_mem;
      rc ← match c with
           | inl e => mret e
           | inr c0 =>
               c ← ctx_command aligned;
               match c with inl e => mret e | inr c1 => send_result [c0; c1] end
           end;
      settle CtxTable (hdr_proc_ctx_tbl_lcl E) (rc =? 0) ctx_mem ;;
      settle HdrTable (hdr_tbl_lcl E) (rc =? 0) hdr_mem ;;
      mret rc.

Definition __ipa_commit_hdr_v2_6L : HM Z := __ipa_commit_hdr_v2.

(** [ctrl->ipa_commit_hdr] as [ipa_controller_static_bind] sets it. *)
Definition ipa_commit_hdr : HM Z :=
  if ipa_hw_type E =? IPA_HW_v1_1 then __ipa_commit_hdr_v1_1
  else if ipa_hw_type E =? IPA_HW_v2_5 then __ipa_commit_hdr_v2_5
  else if ipa_hw_type E =? IPA_HW_v2_6L then __ipa_commit_hdr_v2_6L
  else __ipa_commit_hdr_v2.

(** ** Adding *)

Definition sizeof_add_hdr_seq : Z := 12.
Definition sizeof_add_hdr_cmd_seq : Z := 16.

(** A slot of the table of processing contexts; [None]: the table is full or no memory. *)
Definition ctx_slot (bin size : Z) (user : bool) : HM (option positive) :=
  let mem_size := if hdr_proc_ctx_tbl_lcl E then apps_hdr_proc_ctx_size E
                  else apps_hdr_proc_ctx_size_ddr E in
  s ← get;
  free ← of_option (lookup_z (t_free_offset_list (st_ctx_tbl s)) bin);
  match free with
  | [] =>
      if mem_size <? u32 (t_end (st_ctx_tbl s) + size) then mret None
      else
        ok ← ask (env_alloc E);
        if negb ok then mret None
        else o ← grow_slot CtxTable bin size user; mret (Some o)
  | o :: _ => reuse_slot CtxTable o bin user ;; mret (Some o)
  end.

Definition bad_ctx (p h : positive) (add_ref_hdr : bool) : HM () :=
  when add_ref_hdr (upd_hdr h (λ e, hdr_with_refs (u32 (h_ref_cnt e - 1)) e)) ;;
  free_ctx p.

Definition __ipa_add_hdr_proc_ctx (a : ipa_hdr_proc_ctx_add) (add_ref_hdr user_only : bool)
    : HM (Z * ipa_hdr_proc_ctx_add) :=
  if (pc_type a <? 0) || (IPA_HDR_PROC_MAX <=? pc_type a) then mret (-EINVAL, a)
  else
    h ← find_hdr (pc_hdr_hdl a);
    match h with
    | None => mret (-EINVAL, a)
    | Some h =>
        ok ← ask (env_alloc E);
        if negb ok then mret (-ENOMEM, a)
        else
          p ← new_ctx (mkCtx IPA_PROC_HDR_COOKIE (pc_type a) None h 0 0 false user_only);
          when add_ref_hdr (upd_hdr h (λ e, hdr_with_refs (u32 (h_ref_cnt e + 1)) e)) ;;
          let needed_len := if pc_type a =? IPA_HDR_PROC_NONE then sizeof_add_hdr_seq
                            else sizeof_add_hdr_cmd_seq in
          match first_bin ipa_hdr_proc_ctx_bin_sz needed_len 0 with
          | None => bad_ctx p h add_ref_hdr ;; mret (-EPERM, a)
          | Some (bin, size) =>
              o ← ctx_slot bin size user_only;
              match o with
              | None => bad_ctx p h add_ref_hdr ;; mret (-EPERM, a)
              | Some o =>
                  upd_ctx p (ctx_with_offset (Some o)) ;;
                  add_entry CtxTable p ;;
                  id ← ipa_id_alloc (IdCtx p);
                  if id <? 0 then
                    release_slot CtxTable (Some o) ;;
                    upd_ctx p (ctx_with_offset None) ;;
                    del_entry CtxTable p ;;
                    bad_ctx p h add_ref_hdr ;;
                    mret (-EPERM, a)
                  else
                    upd_ctx p (λ e, ctx_with_refs (u32 (c_ref_cnt e + 1)) (ctx_with_id id e)) ;;
                    mret (0, mkCtxAdd (pc_type a) (pc_hdr_hdl a) id (pc_status a))
              end
          end
    end.

(** Room for a header: a slot of its bin, or, on version 2.5 with the table full, its own
    memory. *)
Definition hdr_slot (p : positive) (bin size : Z) (user : bool) : HM bool :=
  let mem_size := if hdr_tbl_lcl E then apps_hdr_size E else apps_hdr_size_ddr E in
  s ← get;
  free ← of_option (lookup_z (t_free_offset_list (st_hdr_tbl s)) bin);
  match free with
  | [] =>
      if mem_size <? u32 (t_end (st_hdr_tbl s) + size) then
        if negb (ipa_hw_type E =? IPA_HW_v2_5) then mret false
        else
          m ← ask (env_map E);
          match m with
          | None => mret false
          | Some phys =>
              e ← hdr_at p;
              put_hdr p (hdr_with_ddr true phys e) ;;
              modify (λ s, with_maps (<[p := (phys, h_hdr_len e)]> (st_maps s)) s) ;;
              mret true
          end
      else
        ok ← ask (env_alloc E);
        if negb ok then mret false
        else
          o ← grow_slot HdrTable bin size user;
          upd_hdr p (hdr_with_offset (Some o)) ;;
          mret true
  | o :: _ =>
      reuse_slot HdrTable o bin user ;;
      upd_hdr p (hdr_with_offset (Some o)) ;;
      mret true
  end.

(** The label [ipa_insert_failed]. *)
Definition hdr_insert_failed (p : positive) : HM () :=
  e ← hdr_at p;
  (if h_is_hdr_proc_ctx e then unmap_hdr p
   else release_slot HdrTable (h_offset_entry e) ;; upd_hdr p (hdr_with_offset None)) ;;
  del_entry HdrTable p ;;
  free_hdr p.

Definition add_with_hdl (hdl : Z) (a : ipa_hdr_add) : ipa_hdr_add :=
  mkHdrAdd (a_name a) (a_hdr a) (a_hdr_len a) (a_type a) (a_is_partial a) hdl (a_status a)
    (a_is_eth2_ofst_valid a) (a_eth2_ofst a).

(** The new entry, in zeroed memory. *)
Definition entry_of (a : ipa_hdr_add) (user : bool) : ipa_hdr_entry :=
  mkHdr IPA_HDR_COOKIE
    (take (Z.to_nat (a_hdr_len a)) (a_hdr a) ++ zeros (IPA_HDR_MAX_SIZE - a_hdr_len a))
    (a_hdr_len a) (name_of (a_name a)) (a_type a) (a_is_partial a) false 0 None None 0 0
    (a_is_eth2_ofst_valid a) (a_eth2_ofst a) false user.

Definition __ipa_add_hdr (a : ipa_hdr_add) (user : bool) : HM (Z * ipa_hdr_add) :=
  if (a_hdr_len a =? 0) || (IPA_HDR_MAX_SIZE <? a_hdr_len a) then mret (-EPERM, a)
  else if (a_type a <? 0) || (IPA_HDR_L2_MAX <=? a_type a) then mret (-EPERM, a)
  else
    ok ← ask (env_alloc E);
    if negb ok then mret (-EPERM, a)
    else
      p ← new_hdr (entry_of a user);
      match first_bin ipa_hdr_bin_sz (a_hdr_len a) 0 with
      | None => free_hdr p ;; mret (-EPERM, a)
      | Some (bin, size) =>
          ok ← hdr_slot p bin size user;
          if negb ok then free_hdr p ;; mret (-EPERM, a)
          else
            add_entry HdrTable p ;;
            id ← ipa_id_alloc (IdHdr p);
            if id <? 0 then hdr_insert_failed p ;; mret (-EPERM, a)
            else
              upd_hdr p (λ e, hdr_with_refs (u32 (h_ref_cnt e + 1)) (hdr_with_id id e)) ;;
              e ← hdr_at p;
              if h_is_hdr_proc_ctx e then
                '(rc, c) ← __ipa_add_hdr_proc_ctx (mkCtxAdd IPA_HDR_PROC_NONE id 0 0) false user;
                if negb (rc =? 0) then
                  upd_hdr p (λ e, hdr_with_refs (u32 (h_ref_cnt e - 1)) e) ;;
                  ipa_id_remove id ;;
                  hdr_insert_failed p ;;
                  mret (-EPERM, add_with_hdl 0 a)
                else
                  i ← ipa_id_find (pc_proc_ctx_hdl c);
                  match i with
                  | Some (IdCtx q) => upd_hdr p (hdr_with_ctx (Some q)) ;; mret (0, add_with_hdl id a)
                  | None => upd_hdr p (hdr_with_ctx None) ;; mret (0, add_with_hdl id a)
                  | _ => UB
                  end
              else mret (0, add_with_hdl id a)
      end.

(** ** Deleting

    A processing context may release its header, whose deletion may delete the processing
    context of a header in memory, which releases none: [del_hdr] is the first call. *)

Definition del_hdr_proc_ctx (del_hdr : Z → HM Z) (hdl : Z) (release_hdr by_user : bool) : HM Z :=
  p ← find_ctx hdl;
  match p with
  | None => mret (-EINVAL)
  | Some p =>
      e ← ctx_at p;
      off_at CtxTable (c_offset_entry e) ;;
      if by_user && c_user_deleted e then mret (-EINVAL)
      else
        when by_user (upd_ctx p ctx_with_deleted) ;;
        upd_ctx p (λ e, ctx_with_refs (u32 (c_ref_cnt e - 1)) e) ;;
        e ← ctx_at p;
        if negb (c_ref_cnt e =? 0) then mret 0
        else
          when release_hdr (h ← hdr_at (c_hdr e); del_hdr (h_id h) ;; mret ()) ;;
          release_slot CtxTable (c_offset_entry e) ;;
          del_entry CtxTable p ;;
          free_ctx p ;;
          ipa_id_remove hdl ;;
          mret 0
  end.

Definition __ipa_del_hdr (hdl : Z) (by_user : bool) : HM Z :=
  p ← find_hdr hdl;
  match p with
  | None => mret (-EINVAL)
  | Some p =>
      e ← hdr_at p;
      when (negb (h_is_hdr_proc_ctx e)) (off_at HdrTable (h_offset_entry e) ;; mret ()) ;;
      if by_user && h_user_deleted e then mret (-EINVAL)
      else
        default_ ← (if by_user && is_lan (h_name e) then
                      o ← off_at HdrTable (h_offset_entry e); mret (o_offset o =? 0)
                    else mret false);
        if default_ : bool then mret (-EPERM)
        else
          when by_user (upd_hdr p hdr_with_deleted) ;;
          upd_hdr p (λ e, hdr_with_refs (u32 (h_ref_cnt e - 1)) e) ;;
          e ← hdr_at p;
          if negb (h_ref_cnt e =? 0) then mret 0
          else
            (if h_is_hdr_proc_ctx e then
               unmap_hdr p ;;
               q ← of_option (h_proc_ctx e);
               c ← ctx_at q;
               del_hdr_proc_ctx (λ _, UB) (c_id c) false false ;;
               mret ()
             else release_slot HdrTable (h_offset_entry e)) ;;
            del_entry HdrTable p ;;
            free_hdr p ;;
            ipa_id_remove hdl ;;
            mret 0
  end.

Definition __ipa_del_hdr_proc_ctx : Z → bool → bool → HM Z :=
  del_hdr_proc_ctx (λ id, __ipa_del_hdr id false).

(** ** The calls *)

(** The loop over the elements of a call, each with its status. *)
Fixpoint each {A} (f : A → HM A) (l : list A) : HM (list A) :=
  match l with
  | [] => mret []
  | a :: l' => a' ← f a; l'' ← each f l'; mret (a' :: l'')
  end.

Definition commit_if (commit : bool) : HM Z :=
  if commit then rc ← ipa_commit_hdr; mret (if rc =? 0 then 0 else -EPERM) else mret 0.

Definition add_with_status (status : Z) (a : ipa_hdr_add) : ipa_hdr_add :=
  mkHdrAdd (a_name a) (a_hdr a) (a_hdr_len a) (a_type a) (a_is_partial a) (a_hdr_hdl a) status
    (a_is_eth2_ofst_valid a) (a_eth2_ofst a).

Definition ipa2_add_hdr_usr (commit : bool) (hdrs : list ipa_hdr_add) (user_only : bool)
    : HM (Z * list ipa_hdr_add) :=
  if Z.of_nat (length hdrs) =? 0 then mret (-EINVAL, hdrs)
  else
    hdrs ← each (λ a, '(rc, a) ← __ipa_add_hdr a user_only;
                      mret (add_with_status (if rc =? 0 then 0 else -1) a)) hdrs;
    result ← commit_if commit;
    mret (result, hdrs).
Definition ipa2_add_hdr (commit : bool) (hdrs : list ipa_hdr_add) : HM (Z * list ipa_hdr_add) :=
  ipa2_add_hdr_usr commit hdrs false.

Definition ipa2_del_hdr_by_user (commit : bool) (hdls : list ipa_hdr_del) (by_user : bool)
    : HM (Z * list ipa_hdr_del) :=
  if Z.of_nat (length hdls) =? 0 then mret (-EINVAL, hdls)
  else
    hdls ← each (λ d, rc ← __ipa_del_hdr (d_hdl d) by_user;
                      mret (mkDel (d_hdl d) (if rc =? 0 then 0 else -1))) hdls;
    result ← commit_if commit;
    mret (result, hdls).
Definition ipa2_del_hdr (commit : bool) (hdls : list ipa_hdr_del) : HM (Z * list ipa_hdr_del) :=
  ipa2_del_hdr_by_user commit hdls false.

Definition no_proc_ctx : bool :=
  (ipa_hw_type E <=? IPA_HW_v2_0) || (ipa_hw_type E =? IPA_HW_v2_6L).

Definition ipa2_add_hdr_proc_ctx (commit : bool) (ctxs : list ipa_hdr_proc_ctx_add)
    (user_only : bool) : HM (Z * list ipa_hdr_proc_ctx_add) :=
  if no_proc_ctx then mret (-EFAULT, ctxs)
  else if Z.of_nat (length ctxs) =? 0 then mret (-EINVAL, ctxs)
  else
    ctxs ← each (λ a, '(rc, a) ← __ipa_add_hdr_proc_ctx a true user_only;
                      mret (mkCtxAdd (pc_type a) (pc_hdr_hdl a) (pc_proc_ctx_hdl a)
                              (if rc =? 0 then 0 else -1))) ctxs;
    result ← commit_if commit;
    mret (result, ctxs).

Definition ipa2_del_hdr_proc_ctx_by_user (commit : bool) (hdls : list ipa_hdr_del) (by_user : bool)
    : HM (Z * list ipa_hdr_del) :=
  if no_proc_ctx then mret (-EFAULT, hdls)
  else if Z.of_nat (length hdls) =? 0 then mret (-EINVAL, hdls)
  else
    hdls ← each (λ d, rc ← __ipa_del_hdr_proc_ctx (d_hdl d) true by_user;
                      mret (mkDel (d_hdl d) (if rc =? 0 then 0 else -1))) hdls;
    result ← commit_if commit;
    mret (result, hdls).
Definition ipa2_del_hdr_proc_ctx (commit : bool) (hdls : list ipa_hdr_del)
    : HM (Z * list ipa_hdr_del) :=
  ipa2_del_hdr_proc_ctx_by_user commit hdls false.

(** The routing tables are committed first, for each family. *)
Definition ipa2_commit_hdr : HM Z :=
  rc ← ask (env_commit_rt E);
  if negb (rc =? 0) then mret (-EPERM)
  else
    rc ← ask (env_commit_rt E);
    if negb (rc =? 0) then mret (-EPERM)
    else rc ← ipa_commit_hdr; mret (if rc =? 0 then 0 else -EPERM).

Definition __ipa_release_hdr (hdl : Z) : HM Z :=
  rc ← __ipa_del_hdr hdl false;
  if negb (rc =? 0) then mret (-EFAULT)
  else rc ← ipa_commit_hdr; mret (if rc =? 0 then 0 else -EFAULT).
Definition __ipa_release_hdr_proc_ctx (hdl : Z) : HM Z :=
  rc ← __ipa_del_hdr_proc_ctx hdl true false;
  if negb (rc =? 0) then mret (-EFAULT)
  else rc ← ipa_commit_hdr; mret (if rc =? 0 then 0 else -EFAULT).

(** ** Lookups *)

Fixpoint find_name (name : list Z) (l : list positive) : HM (option ipa_hdr_entry) :=
  match l with
  | [] => mret None
  | p :: l' =>
      e ← hdr_at p;
      if bool_decide (name = h_name e) then mret (Some e) else find_name name l'
  end.
Definition __ipa_find_hdr (name : list Z) : HM (option ipa_hdr_entry) :=
  s ← get; find_name name (t_entry_list (st_hdr_tbl s)).

(** The handle, if there is a header of that name. *)
Definition ipa2_get_hdr (name : list Z) : HM (Z * option Z) :=
  e ← __ipa_find_hdr (name_of name);
  mret (match e with Some e => (0, Some (h_id e)) | None => (-1, None) end).

Definition ipa2_put_hdr (hdl : Z) : HM Z :=
  p ← find_hdr hdl;
  mret (match p with Some _ => 0 | None => -EINVAL end).

Definition ipa2_copy_hdr (name : list Z) : HM (Z * option ipa_ioc_copy_hdr) :=
  e ← __ipa_find_hdr (name_of name);
  mret (match e with
        | Some e =>
            (0, Some (mkCopy (take (Z.to_nat (h_hdr_len e)) (h_hdr e)) (u8 (h_hdr_len e)) (h_type e)
                        (h_is_partial e) (h_is_eth2_ofst_valid e) (h_eth2_ofst e)))
        | None => (-EFAULT, None)
        end).

(** ** Routing rules

    What [ipa_rt.c] does with the entries: a new rule takes a reference. *)

Definition take_hdr (hdl : Z) : HM () :=
  p ← find_hdr hdl;
  match p with
  | Some p => upd_hdr p (λ e, hdr_with_refs (u32 (h_ref_cnt e + 1)) e)
  | None => mret ()
  end.
Definition take_ctx (hdl : Z) : HM () :=
  p ← find_ctx hdl;
  match p with
  | Some p => upd_ctx p (λ e, ctx_with_refs (u32 (c_ref_cnt e + 1)) e)
  | None => mret ()
  end.

(** ** Reset *)

(** The loop over the headers; the result when it ends the call. *)
Fixpoint reset_hdrs (user_only : bool) (l : list positive) : HM (option Z) :=
  match l with
  | [] => mret None
  | p :: l' =>
      e ← hdr_at p;
      skip ← (if is_lan (h_name e) then
                o ← off_at HdrTable (h_offset_entry e); mret (o_offset o =? 0)
              else mret false);
      if skip : bool then
        if h_is_hdr_proc_ctx e then mret (Some (-EFAULT)) else reset_hdrs user_only l'
      else
        i ← ipa_id_find (h_id e);
        match i with
        | None => mret (Some (-EFAULT))
        | Some _ =>
            when (negb user_only || h_ipacm_installed e)
              ((if h_is_hdr_proc_ctx e then unmap_hdr p
                else
                  o ← of_option (h_offset_entry e);
                  oe ← off_at HdrTable (Some o);
                  upd_tbl HdrTable (λ t, tbl_with_offs
                    (<[o := mkOff (o_offset oe) (o_bin oe) false]> (t_offs t)) t) ;;
                  release_slot HdrTable (Some o)) ;;
               del_entry HdrTable p ;;
               ipa_id_remove (h_id e) ;;
               free_hdr p) ;;
            reset_hdrs user_only l'
        end
  end.

(** [keep]: the offset entries on the lists in use that stay. *)
Definition stays (keep : ipa_hdr_offset_entry → bool) (t : ipa_hdr_tbl) (o : positive) : bool :=
  match t_offs t !! o with Some e => keep e | None => false end.
Definition clear_tbl (keep : ipa_hdr_offset_entry → bool) (t : ipa_hdr_tbl) : ipa_hdr_tbl :=
  mkTbl (t_entry_list t) (map (filter (λ o, stays keep t o = true)) (t_offset_list t))
    (map (λ _, []) (t_free_offset_list t)) (t_cnt t) (t_end t)
    (foldr delete (t_offs t)
       (filter (λ o, stays keep t o = false) (concat (t_offset_list t))
        ++ concat (t_free_offset_list t))).
Definition clear_lists (k : table) (keep : ipa_hdr_offset_entry → bool) : HM () :=
  upd_tbl k (clear_tbl keep).

Fixpoint reset_ctxs (user_only : bool) (l : list positive) : HM (option Z) :=
  match l with
  | [] => mret None
  | p :: l' =>
      e ← ctx_at p;
      i ← ipa_id_find (c_id e);
      match i with
      | None => mret (Some (-EFAULT))
      | Some _ =>
          when (negb user_only || c_ipacm_installed e)
            (release_slot CtxTable (c_offset_entry e) ;;
             del_entry CtxTable p ;;
             ipa_id_remove (c_id e) ;;
             free_ctx p) ;;
          reset_ctxs user_only l'
      end
  end.

(** [ipa2_reset_rt] has released the headers of its rules before. *)
Definition ipa2_reset_hdr (user_only : bool) : HM Z :=
  s ← get;
  r ← reset_hdrs user_only (t_entry_list (st_hdr_tbl s));
  match r with
  | Some rc => mret rc
  | None =>
      when (negb user_only)
        (clear_lists HdrTable (λ e, o_offset e =? 0) ;;
         upd_tbl HdrTable (λ t, tbl_with_entries (t_entry_list t) 1 (tbl_with_end 8 t))) ;;
      s ← get;
      r ← reset_ctxs user_only (t_entry_list (st_ctx_tbl s));
      match r with
      | Some rc => mret rc
      | None =>
          when (negb user_only)
            (clear_lists CtxTable (λ _, false) ;;
             upd_tbl CtxTable (λ t, tbl_with_entries (t_entry_list t) 0 (tbl_with_end 0 t))) ;;
          rc ← ipa_commit_hdr;
          mret (if rc =? 0 then 0 else -EFAULT)
      end
  end.

End Hdr.
