(* ===== verification/HdrInv.v ===== *)
(** * IPA header tables: slots

    The offset entries of one table: each lies on one list of its bin, in use or free, and the
    slots are disjoint, aligned and before the end of the table. Growing, reusing and releasing
    keep this.

    Entries, slots, handles, mappings and references fit together. [D] holds processing
    contexts that are about to be deleted, and [H] headers whose own processing context is not
    there yet: both are empty between calls. *)

From S2P Require Import Prelude.
From S2P Require Import HdrTypes.
From S2P Require Import Hdr.

(** ** Lists of lists *)

Section Lists.
Implicit Types ls : list (list positive).

Lemma elem_of_bins ls o : o ∈ concat ls ↔ ∃ b l, ls !! b = Some l ∧ o ∈ l.
Proof.
  rewrite list_elem_of_In, in_concat. split.
  - intros (l & Hl & Ho). apply list_elem_of_In, list_elem_of_lookup in Hl as [b Hb].
    exists b, l. by rewrite list_elem_of_In.
  - intros (b & l & Hb & Ho). exists l.
    split; [by eapply list_elem_of_In, list_elem_of_lookup_2|by apply list_elem_of_In].
Qed.

Lemma concat_unlink o ls : concat (unlink o ls) = filter (λ x, x ≠ o) (concat ls).
Proof.
  unfold unlink. induction ls as [|l ls IH]; [done|]. cbn [map concat].
  by rewrite list.filter_app, IH.
Qed.

Lemma concat_push ls b l o : ls !! b = Some l → concat (<[b := o :: l]> ls) ≡ₚ o :: concat ls.
Proof.
  revert b. induction ls as [|l' ls IH]; intros [|b] Hb; try done; cbn in *.
  - by simplify_eq.
  - rewrite (IH b Hb). symmetry. apply Permutation_middle.
Qed.


Lemma filter_notin o (l : list positive) : o ∉ l → filter (λ x, x ≠ o) l = l.
Proof.
  induction l as [|x l IH]; [done|]. intros Ho. apply not_elem_of_cons in Ho as [Hx Ho].
  rewrite filter_cons_True by done. by rewrite IH.
Qed.

Lemma unlink_lookup o ls b : unlink o ls !! b = filter (λ x, x ≠ o) <$> ls !! b.
Proof. apply list_lookup_fmap. Qed.

Lemma length_unlink o ls : length (unlink o ls) = length ls.
Proof. apply length_map. Qed.

Lemma push_Some ls bin o l :
  0 ≤ bin → ls !! Z.to_nat bin = Some l → push bin o ls = Some (<[Z.to_nat bin := o :: l]> ls).
Proof.
  intros Hb Hl. unfold push. generalize (Z2Nat.id bin Hb) Hl.
  generalize (Z.to_nat bin) as n. intros n <- Hn.
  rewrite lookup_z_nat, Hn. cbn [mbind option_bind]. apply store_z_nat. by eapply lookup_lt_Some.
Qed.

Lemma filter_out_cons o (l : list positive) : NoDup (o :: l) → filter (λ x, x ≠ o) (o :: l) = l.
Proof.
  intros Hnd. apply list.NoDup_cons in Hnd as [Ho _].
  rewrite filter_cons_False by (intros H; by apply H). by apply filter_notin.
Qed.

Lemma filter_out_perm o (l : list positive) :
  NoDup l → o ∈ l → l ≡ₚ o :: filter (λ x, x ≠ o) l.
Proof.
  intros Hnd (l1 & l2 & ->)%list_elem_of_split.
  apply list.NoDup_app in Hnd as (_ & Hd & Hnd2). apply list.NoDup_cons in Hnd2 as [Ho2 _].
  assert (o ∉ l1). { intros Hin. apply (Hd o Hin). set_solver. }
  rewrite list.filter_app, (filter_notin _ l1), filter_cons_False, (filter_notin _ l2) by naive_solver.
  symmetry. apply Permutation_middle.
Qed.

End Lists.

(** ** Membership by bin *)

Definition on (ls : list (list positive)) (b : nat) (o : positive) : Prop :=
  ∃ l, ls !! b = Some l ∧ o ∈ l.

Section On.
Implicit Types ls : list (list positive).

Lemma on_concat ls o : o ∈ concat ls ↔ ∃ b, on ls b o.
Proof. rewrite elem_of_bins. unfold on. naive_solver. Qed.

Lemma on_unlink ls b o x : on (unlink o ls) b x ↔ on ls b x ∧ x ≠ o.
Proof.
  unfold on. rewrite unlink_lookup. destruct (ls !! b) as [l|]; cbn; [|naive_solver].
  split.
  - intros (l' & [= <-] & H). apply list_elem_of_filter in H as [Hx Hl]. eauto.
  - intros ((l' & [= <-] & H) & Hx). eexists. split; [done|]. by apply list_elem_of_filter.
Qed.

Lemma on_alter ls b b' o x :
  on (alter (cons o) b ls) b' x ↔ on ls b' x ∨ (b' = b ∧ (b < length ls)%nat ∧ x = o).
Proof.
  unfold on. destruct (decide (b' = b)) as [->|Hb].
  - rewrite list_lookup_alter_eq. destruct (ls !! b) as [l|] eqn:Hl; cbn.
    + apply lookup_lt_Some in Hl. split.
      * intros (l' & [= <-] & [->|H]%elem_of_cons); [by right|left; eauto].
      * intros [(l' & [= <-] & H)|(_ & _ & ->)]; eexists; (split; [done|]); set_solver.
    + apply lookup_ge_None in Hl. split; [naive_solver|]. intros [(? & ? & ?)|(_ & ? & _)]; [done|lia].
  - rewrite list_lookup_alter_ne by done. naive_solver.
Qed.

Lemma concat_alter ls b o : (b < length ls)%nat → concat (alter (cons o) b ls) ≡ₚ o :: concat ls.
Proof.
  revert b. induction ls as [|l ls IH]; intros [|b] Hb; cbn in *; try lia; [done|].
  change (list_alter (cons o) b ls) with (alter (cons o) b ls).
  rewrite IH by lia. symmetry. apply Permutation_middle.
Qed.

Lemma push_alter ls bin o :
  0 ≤ bin → (Z.to_nat bin < length ls)%nat → push bin o ls = Some (alter (cons o) (Z.to_nat bin) ls).
Proof.
  intros Hb [l Hl]%lookup_lt_is_Some. rewrite (push_Some _ _ _ l) by done. f_equal.
  symmetry. apply list_eq. intros i. destruct (decide (i = Z.to_nat bin)) as [->|Hi].
  - rewrite list_lookup_alter_eq, list_lookup_insert_eq by (by eapply lookup_lt_Some). by rewrite Hl.
  - by rewrite list_lookup_alter_ne, list_lookup_insert_ne by done.
Qed.


End On.

(** ** The invariant *)

Definition tbl_grow (o : positive) (bin size : Z) (user : bool) (t : ipa_hdr_tbl) : ipa_hdr_tbl :=
  mkTbl (t_entry_list t) (alter (cons o) (Z.to_nat bin) (t_offset_list t)) (t_free_offset_list t)
    (t_cnt t) (u32 (t_end t + size)) (<[o := mkOff (t_end t) bin user]> (t_offs t)).
Definition tbl_release (o : positive) (bin : Z) (t : ipa_hdr_tbl) : ipa_hdr_tbl :=
  tbl_with_lists (unlink o (t_offset_list t))
    (alter (cons o) (Z.to_nat bin) (unlink o (t_free_offset_list t))) t.
Definition tbl_mark (o : positive) (e : ipa_hdr_offset_entry) (user : bool) (t : ipa_hdr_tbl)
    : ipa_hdr_tbl :=
  tbl_with_offs (<[o := mkOff (o_offset e) (o_bin e) user]> (t_offs t)) t.
Definition tbl_reuse (o : positive) (bin : Z) (t : ipa_hdr_tbl) : ipa_hdr_tbl :=
  tbl_with_lists (alter (cons o) (Z.to_nat bin) (unlink o (t_offset_list t)))
    (unlink o (t_free_offset_list t)) t.

Definition slot_size (sizes : list Z) (e : ipa_hdr_offset_entry) : Z :=
  default 0 (lookup_z sizes (o_bin e)).

(** Two slots do not overlap. *)
Definition apart (sizes : list Z) (e1 e2 : ipa_hdr_offset_entry) : Prop :=
  o_offset e1 + slot_size sizes e1 ≤ o_offset e2 ∨ o_offset e2 + slot_size sizes e2 ≤ o_offset e1.

Definition on_lists (t : ipa_hdr_tbl) (b : nat) (o : positive) : Prop :=
  on (t_offset_list t) b o ∨ on (t_free_offset_list t) b o.

Record slots_ok (sizes : list Z) (align limit : Z) (t : ipa_hdr_tbl) : Prop := {
  so_used : length (t_offset_list t) = length sizes;
  so_free : length (t_free_offset_list t) = length sizes;
  so_nodup : NoDup (concat (t_offset_list t) ++ concat (t_free_offset_list t));
  so_on : ∀ b o, on_lists t b o → ∃ e, t_offs t !! o = Some e ∧ o_bin e = Z.of_nat b;
  so_offs : ∀ o e, t_offs t !! o = Some e → ∃ b, on_lists t b o;
  so_slot : ∀ o e, t_offs t !! o = Some e →
    0 ≤ o_offset e ∧ o_offset e + slot_size sizes e ≤ t_end t ∧ (align | o_offset e);
  so_apart : ∀ o1 o2 e1 e2, t_offs t !! o1 = Some e1 → t_offs t !! o2 = Some e2 → o1 ≠ o2 →
    apart sizes e1 e2;
  so_end : 0 ≤ t_end t ≤ limit ∧ (align | t_end t);
}.

(** The slots in use are those of the objects, one each. *)
Record slots_owned {A} (f : gmap positive A) (slot : A → option positive) (t : ipa_hdr_tbl) : Prop := {
  sl_used : ∀ p a o, f !! p = Some a → slot a = Some o → o ∈ concat (t_offset_list t);
  sl_owner : ∀ o, o ∈ concat (t_offset_list t) → ∃ p a, f !! p = Some a ∧ slot a = Some o;
  sl_one : ∀ p1 p2 a1 a2 o, f !! p1 = Some a1 → f !! p2 = Some a2 → slot a1 = Some o →
    slot a2 = Some o → p1 = p2;
}.

Section Slots.
Context (sizes : list Z) (align limit : Z).
Context (Hsizes : ∀ b size, sizes !! b = Some size → 0 < size ∧ (align | size)).
Implicit Types t : ipa_hdr_tbl.

Lemma so_bin t o e : slots_ok sizes align limit t → t_offs t !! o = Some e →
  on_lists t (Z.to_nat (o_bin e)) o ∧ 0 ≤ o_bin e ∧ (Z.to_nat (o_bin e) < length sizes)%nat.
Proof.
  intros Ht Ho. destruct (so_offs _ _ _ _ Ht o e Ho) as [b Hb].
  destruct (so_on _ _ _ _ Ht b o Hb) as (e' & He & Hbin). simplify_eq. rewrite Hbin, Nat2Z.id.
  split; [done|]. split; [lia|].
  destruct Hb as [(l & Hl & _)|(l & Hl & _)]; apply lookup_lt_Some in Hl.
  - by rewrite (so_used _ _ _ _ Ht) in Hl.
  - by rewrite (so_free _ _ _ _ Ht) in Hl.
Qed.

Lemma so_dom t o : slots_ok sizes align limit t →
  o ∈ concat (t_offset_list t) ++ concat (t_free_offset_list t) ↔ is_Some (t_offs t !! o).
Proof.
  intros Ht. rewrite elem_of_app, !on_concat. split.
  - intros [[b Hb]|[b Hb]]; destruct (so_on _ _ _ _ Ht b o) as (e & He & _); unfold on_lists; eauto.
  - intros [e He]. destruct (so_offs _ _ _ _ Ht o e He) as [b [H|H]]; eauto.
Qed.

Lemma slot_size_nonneg e : 0 ≤ slot_size sizes e.
Proof.
  unfold slot_size, lookup_z. case_match; [|done].
  destruct (sizes !! _) as [n|] eqn:Hn; cbn; [|done]. apply Hsizes in Hn. lia.
Qed.

(** Fields that are not about slots do not matter. *)
Lemma slots_ok_eq t t' :
  t_offset_list t' = t_offset_list t → t_free_offset_list t' = t_free_offset_list t →
  t_end t' = t_end t → t_offs t' = t_offs t → slots_ok sizes align limit t →
  slots_ok sizes align limit t'.
Proof.
  intros Hu Hf He Ho Ht. unfold on_lists in *.
  destruct Ht; constructor; unfold on_lists in *; rewrite ?Hu, ?Hf, ?He, ?Ho; done.
Qed.

Lemma slots_ok_mark t o e user :
  slots_ok sizes align limit t → t_offs t !! o = Some e →
  slots_ok sizes align limit (tbl_mark o e user t).
Proof.
  intros Ht Ho. destruct Ht as [H1 H2 H3 H4 H5 H6 H7 H8].
  constructor; unfold on_lists in *; cbn [tbl_mark tbl_with_offs t_offset_list t_free_offset_list t_offs t_end] in *;
    try done.
  - intros b x Hx. destruct (H4 b x Hx) as (e' & He' & Hb).
    destruct (decide (x = o)) as [->|Hxo]; simplify_map_eq; eauto.
  - intros x e' Hx. destruct (decide (x = o)) as [->|Hxo]; simplify_map_eq; eauto.
  - intros x e' Hx. destruct (decide (x = o)) as [->|Hxo]; simplify_map_eq; [|eauto].
    apply (H6 o e Ho).
  - intros x y ex ey Hx Hy Hxy.
    assert (∀ z ez, <[o := mkOff (o_offset e) (o_bin e) user]> (t_offs t) !! z = Some ez →
      ∃ ez', t_offs t !! z = Some ez' ∧ o_offset ez' = o_offset ez ∧ o_bin ez' = o_bin ez) as Hz.
    { intros z ez Hz. destruct (decide (z = o)) as [->|?]; simplify_map_eq; eauto. }
    destruct (Hz _ _ Hx) as (ex' & Hx' & Ex1 & Ex2), (Hz _ _ Hy) as (ey' & Hy' & Ey1 & Ey2).
    pose proof (H7 _ _ _ _ Hx' Hy' Hxy) as H. unfold apart, slot_size in *.
    by rewrite Ex1, Ex2, Ey1, Ey2 in H.
Qed.

Lemma slots_ok_release t o e :
  slots_ok sizes align limit t → t_offs t !! o = Some e → o ∈ concat (t_offset_list t) →
  slots_ok sizes align limit (tbl_release o (o_bin e) t).
Proof.
  intros Ht Ho Hu. destruct (so_bin _ _ _ Ht Ho) as (Hon & Hb0 & Hb).
  pose proof (so_free _ _ _ _ Ht) as Hlen. pose proof (so_nodup _ _ _ _ Ht) as Hnd.
  assert (o ∉ concat (t_free_offset_list t)) as Hnf.
  { apply list.NoDup_app in Hnd as (_ & Hd & _). by apply Hd. }
  destruct Ht as [H1 H2 H3 H4 H5 H6 H7 H8].
  constructor; unfold on_lists in *;
    cbn [tbl_release tbl_with_lists t_offset_list t_free_offset_list t_offs t_end] in *; try done.
  - by rewrite length_unlink.
  - by rewrite length_alter, length_unlink.
  - rewrite concat_alter by (by rewrite length_unlink, Hlen).
    rewrite !concat_unlink, (filter_notin _ _ Hnf). rewrite <- Permutation_middle.
    apply list.NoDup_app in Hnd as (Hn1 & Hd & Hn2).
    rewrite app_comm_cons, <- filter_out_perm; [|done|done]. by apply list.NoDup_app.
  - intros b x. rewrite on_alter, !on_unlink. intros [[Hx _]|[[Hx _]|(-> & _ & ->)]]; eauto.
  - intros x e' Hx. destruct (decide (x = o)) as [->|Hxo].
    + exists (Z.to_nat (o_bin e)). right. apply on_alter. right. rewrite length_unlink, Hlen. done.
    + destruct (H5 x e' Hx) as [b Hbx]. exists b. rewrite on_alter, !on_unlink. naive_solver.
Qed.

Lemma slots_ok_reuse t o bin l :
  slots_ok sizes align limit t → 0 ≤ bin → t_free_offset_list t !! Z.to_nat bin = Some (o :: l) →
  slots_ok sizes align limit (tbl_reuse o bin t).
Proof.
  intros Ht Hb0 Hl. pose proof (so_nodup _ _ _ _ Ht) as Hnd.
  assert (on (t_free_offset_list t) (Z.to_nat bin) o) as Hon by (eexists; split; [done|set_solver]).
  assert (o ∈ concat (t_free_offset_list t)) as Hf by (apply on_concat; eauto).
  assert (o ∉ concat (t_offset_list t)) as Hnu.
  { apply list.NoDup_app in Hnd as (_ & Hd & _). intros Hin. by apply (Hd o). }
  destruct (so_on _ _ _ _ Ht (Z.to_nat bin) o) as (e & Ho & Hbin); [by right|].
  pose proof (so_used _ _ _ _ Ht) as Hlen.
  assert (Z.to_nat bin < length sizes)%nat as Hb.
  { rewrite <- (so_free _ _ _ _ Ht). by eapply lookup_lt_Some. }
  destruct Ht as [H1 H2 H3 H4 H5 H6 H7 H8].
  constructor; unfold on_lists in *;
    cbn [tbl_reuse tbl_with_lists t_offset_list t_free_offset_list t_offs t_end] in *; try done.
  - by rewrite length_alter, length_unlink.
  - by rewrite length_unlink.
  - rewrite concat_alter by (by rewrite length_unlink, Hlen).
    rewrite !concat_unlink, (filter_notin _ _ Hnu). cbn. rewrite Permutation_middle.
    apply list.NoDup_app in Hnd as (Hn1 & Hd & Hn2).
    rewrite <- filter_out_perm; [|done|done]. by apply list.NoDup_app.
  - intros b x. rewrite on_alter, !on_unlink. intros [[[Hx _]|(-> & _ & ->)]|[Hx _]]; eauto.
  - intros x e' Hx. destruct (decide (x = o)) as [->|Hxo].
    + exists (Z.to_nat bin). left. apply on_alter. right. rewrite length_unlink, Hlen. done.
    + destruct (H5 x e' Hx) as [b Hbx]. exists b. rewrite on_alter, !on_unlink. naive_solver.
Qed.

Lemma slots_ok_grow t o bin size user :
  slots_ok sizes align limit t → limit < 2 ^ 32 → 0 ≤ bin → sizes !! Z.to_nat bin = Some size →
  t_offs t !! o = None → t_end t + size ≤ limit →
  slots_ok sizes align limit (tbl_grow o bin size user t).
Proof.
  intros Ht Hlim Hb0 Hsz Ho Hroom. destruct (Hsizes _ _ Hsz) as [Hpos Hal].
  assert (Z.to_nat bin < length sizes)%nat as Hb by (by eapply lookup_lt_Some).
  pose proof (so_used _ _ _ _ Ht) as Hlen. pose proof (so_end _ _ _ _ Ht) as [Hend Hae].
  assert (o ∉ concat (t_offset_list t) ++ concat (t_free_offset_list t)) as Hno.
  { rewrite (so_dom t o Ht), Ho. by intros [? ?]. }
  assert (∀ b, ¬ on_lists t b o) as Hnon.
  { intros b Hbo. destruct (so_on _ _ _ _ Ht b o Hbo) as (e & He & _). by rewrite Ho in He. }
  assert (u32 (t_end t + size) = t_end t + size) as Hu by (apply u32_small; lia).
  assert (∀ n b, slot_size sizes (mkOff n bin b) = size) as Hss.
  { intros n b. unfold slot_size. cbn [o_bin]. rewrite <- (Z2Nat.id bin), lookup_z_nat, Hsz by done. done. }
  destruct Ht as [H1 H2 H3 H4 H5 H6 H7 H8].
  constructor; unfold on_lists in *;
    cbn [tbl_grow t_offset_list t_free_offset_list t_offs t_end] in *; try done.
  - by rewrite length_alter.
  - rewrite concat_alter by (by rewrite Hlen). cbn. by apply list.NoDup_cons.
  - intros b x. rewrite on_alter. intros Hx.
    destruct (decide (x = o)) as [->|Hxo]; simplify_map_eq.
    + eexists. split; [done|]. cbn. naive_solver lia.
    + apply H4. naive_solver.
  - intros x e' Hx. destruct (decide (x = o)) as [->|Hxo]; simplify_map_eq.
    + exists (Z.to_nat bin). left. apply on_alter. right. by rewrite Hlen.
    + destruct (H5 x e' Hx) as [b Hbx]. exists b. rewrite on_alter. naive_solver.
  - intros x e' Hx. rewrite Hu. destruct (decide (x = o)) as [->|Hxo]; simplify_map_eq.
    + rewrite Hss. cbn. split_and!; [lia|lia|done].
    + destruct (H6 _ _ Hx). naive_solver lia.
  - assert (∀ x ex, x ≠ o → t_offs t !! x = Some ex → apart sizes ex (mkOff (t_end t) bin user)) as Hx.
    { intros x ex Hxo Hx. left. cbn. apply (H6 _ _ Hx). }
    intros x y ex ey Hx' Hy' Hxy.
    destruct (decide (x = o)) as [->|Hxo], (decide (y = o)) as [->|Hyo]; simplify_map_eq; eauto.
    destruct (Hx y ey Hyo Hy'); [by right|by left].
  - rewrite Hu. split; [lia|]. by apply Z.divide_add_r.
Qed.

End Slots.

(** ** Owners *)

Section Owned.
Context {A : Type} (slot : A → option positive).
Implicit Types (f : gmap positive A) (t : ipa_hdr_tbl).

Lemma owned_eq f t t' :
  (∀ x, x ∈ concat (t_offset_list t') ↔ x ∈ concat (t_offset_list t)) →
  slots_owned f slot t → slots_owned f slot t'.
Proof.
  intros Hx [H1 H2 H3]. constructor; [|by intros o ?%Hx; apply H2|done].
  intros p a o Hp Ha. apply Hx. by eapply H1.
Qed.

Lemma owned_set f t p a a' :
  f !! p = Some a → slot a' = slot a → slots_owned f slot t → slots_owned (<[p := a']> f) slot t.
Proof.
  intros Hp Ha [H1 H2 H3].
  assert (∀ q b, <[p := a']> f !! q = Some b → ∃ b', f !! q = Some b' ∧ slot b' = slot b) as Hq.
  { intros q b. destruct (decide (q = p)) as [->|Hqp]; [rewrite lookup_insert_eq|rewrite lookup_insert_ne by done];
      intros Hb; simplify_eq; eauto. }
  constructor.
  - intros q b o Hb Ho. destruct (Hq q b Hb) as (b' & Hb' & Hs). eapply H1; [done|congruence].
  - intros o Ho. destruct (H2 o Ho) as (q & b & Hb & Hs). exists q.
    destruct (decide (q = p)) as [->|Hqp]; [rewrite lookup_insert_eq|rewrite lookup_insert_ne by done]; [|eauto].
    simplify_eq. eexists. split; [done|congruence].
  - intros p1 p2 a1 a2 o Hp1 Hp2 Ho1 Ho2.
    destruct (Hq _ _ Hp1) as (b1 & Hb1 & Hs1), (Hq _ _ Hp2) as (b2 & Hb2 & Hs2).
    eapply (H3 p1 p2 b1 b2 o); congruence.
Qed.

Lemma owned_add_none f t p a :
  f !! p = None → slot a = None → slots_owned f slot t → slots_owned (<[p := a]> f) slot t.
Proof.
  intros Hp Ha [H1 H2 H3]. constructor.
  - intros q b o Hb Hs. destruct (decide (q = p)) as [->|Hqp]; simplify_map_eq. eauto.
  - intros o Ho. destruct (H2 o Ho) as (q & b & Hb & Hs). exists q, b. split; [|done].
    rewrite lookup_insert_ne by congruence. done.
  - intros p1 p2 a1 a2 o Hp1 Hp2 Ho1 Ho2.
    destruct (decide (p1 = p)) as [->|?], (decide (p2 = p)) as [->|?]; simplify_map_eq; eauto.
Qed.

Lemma owned_add f t t' p a o :
  f !! p = None → slot a = Some o → o ∉ concat (t_offset_list t) →
  (∀ x, x ∈ concat (t_offset_list t') ↔ x = o ∨ x ∈ concat (t_offset_list t)) →
  slots_owned f slot t → slots_owned (<[p := a]> f) slot t'.
Proof.
  intros Hp Ha Ho Hx [H1 H2 H3]. constructor.
  - intros q b x Hb Hs. apply Hx. destruct (decide (q = p)) as [->|Hqp]; simplify_map_eq; eauto.
  - intros x [->|Hxu]%Hx; [exists p, a; by rewrite lookup_insert_eq|].
    destruct (H2 x Hxu) as (q & b & Hb & Hs). exists q, b. split; [|done].
    rewrite lookup_insert_ne by congruence. done.
  - assert (∀ q b, f !! q = Some b → slot b = Some o → False) as Hno by eauto.
    intros p1 p2 a1 a2 x Hp1 Hp2 Ho1 Ho2.
    destruct (decide (p1 = p)) as [->|?], (decide (p2 = p)) as [->|?]; simplify_map_eq; eauto; naive_solver.
Qed.

Lemma owned_del_none f t p a :
  f !! p = Some a → slot a = None → slots_owned f slot t → slots_owned (delete p f) slot t.
Proof.
  intros Hp Ha [H1 H2 H3]. constructor.
  - intros q b o [_ Hb]%lookup_delete_Some Hs. eauto.
  - intros o Ho. destruct (H2 o Ho) as (q & b & Hb & Hs). exists q, b. split; [|done].
    rewrite lookup_delete_ne by congruence. done.
  - intros p1 p2 a1 a2 o [_ Hp1]%lookup_delete_Some [_ Hp2]%lookup_delete_Some. eauto.
Qed.

Lemma owned_del f t t' p a o :
  f !! p = Some a → slot a = Some o →
  (∀ x, x ∈ concat (t_offset_list t') ↔ x ≠ o ∧ x ∈ concat (t_offset_list t)) →
  slots_owned f slot t → slots_owned (delete p f) slot t'.
Proof.
  intros Hp Ha Hx [H1 H2 H3]. constructor.
  - intros q b x [Hqp Hb]%lookup_delete_Some Hs. apply Hx. split; [|eauto]. intros ->. eauto.
  - intros x [Hxo Hxu]%Hx. destruct (H2 x Hxu) as (q & b & Hb & Hs). exists q, b. split; [|done].
    rewrite lookup_delete_ne by congruence. done.
  - intros p1 p2 a1 a2 x [_ Hp1]%lookup_delete_Some [_ Hp2]%lookup_delete_Some. eauto.
Qed.

End Owned.

(** ** What a change of a table keeps *)

Definition keeps_offs (t t' : ipa_hdr_tbl) : Prop :=
  ∀ o e, t_offs t !! o = Some e → ∃ e', t_offs t' !! o = Some e' ∧ o_bin e' = o_bin e ∧
    o_offset e' = o_offset e.

#[export] Instance keeps_offs_preorder : PreOrder keeps_offs.
Proof.
  split; [intros t o e Ho; eauto|]. intros t1 t2 t3 H12 H23 o e Ho.
  destruct (H12 o e Ho) as (e' & He' & ? & ?), (H23 o e' He') as (e'' & ? & ? & ?).
  exists e''. split; [done|]. split; congruence.
Qed.

Lemma keeps_offs_eq t t' : t_offs t' = t_offs t → keeps_offs t t'.
Proof. intros Ht o e Ho. rewrite Ht. eauto. Qed.

Lemma keeps_offs_mark t o e user : t_offs t !! o = Some e → keeps_offs t (tbl_mark o e user t).
Proof.
  intros Ho x ex Hx. cbn. destruct (decide (x = o)) as [->|Hxo]; simplify_map_eq; eauto.
Qed.

Lemma keeps_offs_grow t o bin size user : t_offs t !! o = None → keeps_offs t (tbl_grow o bin size user t).
Proof. intros Ho x ex Hx. cbn. rewrite lookup_insert_ne by congruence. eauto. Qed.

Lemma used_release t o bin x :
  x ∈ concat (t_offset_list (tbl_release o bin t)) ↔ x ≠ o ∧ x ∈ concat (t_offset_list t).
Proof. cbn. by rewrite concat_unlink, list_elem_of_filter. Qed.

Lemma used_reuse t o bin x : (Z.to_nat bin < length (t_offset_list t))%nat →
  x ∈ concat (t_offset_list (tbl_reuse o bin t)) ↔ x = o ∨ x ∈ concat (t_offset_list t).
Proof.
  intros Hb. cbn. rewrite concat_alter by (by rewrite length_unlink). rewrite concat_unlink.
  rewrite elem_of_cons, list_elem_of_filter. destruct (decide (x = o)); naive_solver.
Qed.

Lemma used_grow t o bin size user x : (Z.to_nat bin < length (t_offset_list t))%nat →
  x ∈ concat (t_offset_list (tbl_grow o bin size user t)) ↔ x = o ∨ x ∈ concat (t_offset_list t).
Proof. intros Hb. cbn. by rewrite concat_alter, elem_of_cons. Qed.

(** ** Clearing a table *)

Lemma lookup_delete_all {A} (m : gmap positive A) l o a :
  foldr delete m l !! o = Some a ↔ o ∉ l ∧ m !! o = Some a.
Proof.
  induction l as [|x l IH]; cbn [foldr]; [set_solver|].
  rewrite lookup_delete_Some, IH, not_elem_of_cons. naive_solver.
Qed.

Lemma concat_filter (P : positive → Prop) `{!∀ x, Decision (P x)} ls :
  concat (map (filter P) ls) = filter P (concat ls).
Proof. induction ls as [|l ls IH]; [done|]. cbn [map concat]. by rewrite list.filter_app, IH. Qed.

Lemma concat_nils (ls : list (list positive)) : concat (map (λ _, []) ls) = ([] : list positive).
Proof. by induction ls. Qed.

Section Clear.
Context (sizes : list Z) (align limit : Z) (keep : ipa_hdr_offset_entry → bool).
Implicit Types t : ipa_hdr_tbl.

Lemma clear_used t o : o ∈ concat (t_offset_list (clear_tbl keep t)) ↔
  stays keep t o = true ∧ o ∈ concat (t_offset_list t).
Proof. cbn. by rewrite concat_filter, list_elem_of_filter. Qed.

Lemma clear_offs t o e : slots_ok sizes align limit t →
  t_offs (clear_tbl keep t) !! o = Some e ↔
  t_offs t !! o = Some e ∧ keep e = true ∧ o ∈ concat (t_offset_list t).
Proof.
  intros Ht. cbn. rewrite lookup_delete_all, elem_of_app, list_elem_of_filter. unfold stays. split.
  - intros [Hn Ho]. rewrite Ho in Hn.
    assert (o ∈ concat (t_offset_list t) ++ concat (t_free_offset_list t)) as Hin
      by (apply (so_dom sizes align limit t o Ht); eauto).
    apply elem_of_app in Hin. destruct (keep e) eqn:Hk; [|tauto]. tauto.
  - intros (Ho & Hk & Hu). split; [|done]. rewrite Ho, Hk. intros [[? _]|Hf]; [done|].
    pose proof (so_nodup _ _ _ _ Ht) as Hnd. apply list.NoDup_app in Hnd as (_ & Hd & _). by apply (Hd o).
Qed.

Lemma slots_ok_clear t n :
  slots_ok sizes align limit t → 0 ≤ n ≤ limit → (align | n) →
  (∀ o e, t_offs t !! o = Some e → keep e = true → o ∈ concat (t_offset_list t) →
     o_offset e + slot_size sizes e ≤ n) →
  slots_ok sizes align limit (tbl_with_end n (clear_tbl keep t)).
Proof.
  intros Ht Hn Hal Hend. pose proof (clear_offs t) as Hoffs. pose proof Ht as [H1 H2 H3 H4 H5 H6 H7 H8].
  assert (∀ b o, on_lists (clear_tbl keep t) b o ↔ on (t_offset_list t) b o ∧ stays keep t o = true) as Hon.
  { intros b o. unfold on_lists, on. cbn. rewrite !list_lookup_fmap. split.
    - intros [(l & Hl & Ho)|(l & Hl & Ho)]; apply fmap_Some in Hl as (l' & Hl' & ->); [|set_solver].
      apply list_elem_of_filter in Ho as [Hs Ho]. eauto.
    - intros [(l & Hl & Ho) Hs]. left. rewrite Hl. eexists. split; [done|]. by apply list_elem_of_filter. }
  constructor; cbn [tbl_with_end t_offset_list t_free_offset_list t_offs t_end]; try done.
  - cbn. by rewrite length_map.
  - cbn. by rewrite length_map.
  - cbn. rewrite concat_filter, concat_nils, app_nil_r. apply list.NoDup_app in H3 as [H3 _].
    by apply list.NoDup_filter.
  - intros b o Ho. apply (Hon b o) in Ho as [Ho Hs]. destruct (H4 b o) as (e & He & Hb); [by left|].
    exists e. split; [|done]. apply Hoffs; [done|]. unfold stays in Hs. rewrite He in Hs.
    split_and!; [done..|]. apply on_concat. eauto.
  - intros o e (Ho & Hk & Hu)%Hoffs; [|done]. apply on_concat in Hu as [b Hb]. exists b.
    apply Hon. unfold stays. by rewrite Ho.
  - intros o e (Ho & Hk & Hu)%Hoffs; [|done]. destruct (H6 o e Ho) as (? & _ & ?). eauto.
  - intros o1 o2 e1 e2 (Ho1 & _)%Hoffs (Ho2 & _)%Hoffs; [|done..]. by apply H7.
Qed.

End Clear.

(** * IPA header tables: the invariant *)

Implicit Types (D H : gset positive) (s : hdr_state).

Section Inv.
Context (E : hdr_env).

Definition hdr_limit : Z := if hdr_tbl_lcl E then apps_hdr_size E else apps_hdr_size_ddr E.
Definition ctx_limit : Z :=
  if hdr_proc_ctx_tbl_lcl E then apps_hdr_proc_ctx_size E else apps_hdr_proc_ctx_size_ddr E.

(** The references that processing contexts hold on header [p] with entry [e]; its own one
    holds none. *)
Definition explicit D (p : positive) (e : ipa_hdr_entry) (x : positive * ipa_hdr_proc_ctx_entry)
    : Prop :=
  c_hdr x.2 = p ∧ x.1 ∉ D ∧ h_proc_ctx e ≠ Some x.1.
#[export] Instance explicit_dec D p e x : Decision (explicit D p e x).
Proof. unfold explicit. apply _. Defined.
Definition ctx_refs D (p : positive) (e : ipa_hdr_entry) (m : gmap positive ipa_hdr_proc_ctx_entry)
    : Z :=
  Z.of_nat (size (filter (explicit D p e) m)).

(** A header in memory is mapped and has its own processing context. *)
Definition in_ddr D H s (p : positive) (e : ipa_hdr_entry) : Prop :=
  h_offset_entry e = None ∧
  st_maps s !! p = Some (h_phys_base e, h_hdr_len e) ∧
  h_name e ≠ IPA_LAN_RX_HDR_NAME ∧
  ((p ∈ H ∧ h_proc_ctx e = None) ∨
   ∃ q c, h_proc_ctx e = Some q ∧ st_ctxs s !! q = Some c ∧ c_hdr c = p ∧ c_ref_cnt c = 1 ∧
     q ∉ D ∧ c_ipacm_installed c = h_ipacm_installed e).
(** A header in the table has a slot that is large enough, the default one of the first bin. *)
Definition in_table s (p : positive) (e : ipa_hdr_entry) : Prop :=
  h_proc_ctx e = None ∧ st_maps s !! p = None ∧
  ∃ o oe, h_offset_entry e = Some o ∧ t_offs (st_hdr_tbl s) !! o = Some oe ∧
    h_hdr_len e ≤ slot_size ipa_hdr_bin_sz oe ∧
    (h_name e = IPA_LAN_RX_HDR_NAME → o_bin oe = 0).

Record hdr_ok D H s (p : positive) (e : ipa_hdr_entry) : Prop := {
  ho_cookie : h_cookie e = IPA_HDR_COOKIE;
  ho_len : 1 ≤ h_hdr_len e ≤ 60;
  ho_bytes : length (h_hdr e) = 64%nat;
  ho_id : st_idr s !! h_id e = Some (IdHdr p);
  ho_ref : 1 ≤ h_ref_cnt e < 2 ^ 32;
  ho_refs : ctx_refs D p e (st_ctxs s) ≤ h_ref_cnt e;
  ho_place : if h_is_hdr_proc_ctx e then in_ddr D H s p e else in_table s p e;
}.

Record ctx_ok D s (q : positive) (c : ipa_hdr_proc_ctx_entry) : Prop := {
  co_cookie : c_cookie c = IPA_PROC_HDR_COOKIE;
  co_id : st_idr s !! c_id c = Some (IdCtx q);
  co_slot : ∃ o oe, c_offset_entry c = Some o ∧ t_offs (st_ctx_tbl s) !! o = Some oe ∧
    16 ≤ slot_size ipa_hdr_proc_ctx_bin_sz oe;
  co_live : q ∉ D → is_Some (st_hdrs s !! c_hdr c) ∧ 1 ≤ c_ref_cnt c < 2 ^ 32;
}.

Definition id_ok s (id : Z) (i : id_ptr) : Prop :=
  match i with
  | IdHdr p => ∃ e, st_hdrs s !! p = Some e ∧ h_id e = id
  | IdCtx q => ∃ c, st_ctxs s !! q = Some c ∧ c_id c = id
  | IdOther cookie => cookie ≠ IPA_HDR_COOKIE ∧ cookie ≠ IPA_PROC_HDR_COOKIE
  end.

(** The entry list holds each object once. *)
Definition listed {A} (f : gmap positive A) (t : ipa_hdr_tbl) : Prop :=
  NoDup (t_entry_list t) ∧ (∀ p, p ∈ t_entry_list t ↔ is_Some (f !! p)) ∧
  t_cnt t = u32 (Z.of_nat (length (t_entry_list t))).

(** The buffers that the hardware reads are there. *)
Definition mem_ok s : Prop :=
  (∀ k, m_phys_base (st_mem s k) = 0 ∨
     ∃ b, st_bufs s !! m_phys_base (st_mem s k) = Some b ∧
       Z.of_nat (length b) = m_size (st_mem s k)) ∧
  (m_phys_base (st_hdr_mem s) = m_phys_base (st_ctx_mem s) → m_phys_base (st_hdr_mem s) = 0).

Record inv D H s : Prop := {
  i_hdr_slots : slots_ok ipa_hdr_bin_sz 4 hdr_limit (st_hdr_tbl s);
  i_ctx_slots : slots_ok ipa_hdr_proc_ctx_bin_sz 32 ctx_limit (st_ctx_tbl s);
  i_hdr_owned : slots_owned (st_hdrs s) h_offset_entry (st_hdr_tbl s);
  i_ctx_owned : slots_owned (st_ctxs s) c_offset_entry (st_ctx_tbl s);
  i_hdr_listed : listed (st_hdrs s) (st_hdr_tbl s);
  i_ctx_listed : listed (st_ctxs s) (st_ctx_tbl s);
  i_hdrs : ∀ p e, st_hdrs s !! p = Some e → hdr_ok D H s p e;
  i_ctxs : ∀ q c, st_ctxs s !! q = Some c → ctx_ok D s q c;
  i_idr : ∀ id i, st_idr s !! id = Some i → id_ok s id i;
  i_maps : ∀ p m, st_maps s !! p = Some m → ∃ e, st_hdrs s !! p = Some e ∧ h_is_hdr_proc_ctx e = true;
  i_mem : mem_ok s;
}.

(** ** References *)

Lemma ctx_refs_nonneg D p e m : 0 ≤ ctx_refs D p e m.
Proof. unfold ctx_refs. lia. Qed.

Lemma ctx_refs_ext D D' p e e' m m' :
  (∀ x, m !! x.1 = Some x.2 ∧ explicit D p e x ↔ m' !! x.1 = Some x.2 ∧ explicit D' p e' x) →
  ctx_refs D p e m = ctx_refs D' p e' m'.
Proof.
  intros Heq. unfold ctx_refs. f_equal. f_equal. apply map_eq. intros q. apply option_eq. intros c.
  rewrite !map_lookup_filter_Some. apply (Heq (q, c)).
Qed.

Lemma ctx_refs_proc_ctx D p e e' m :
  h_proc_ctx e' = h_proc_ctx e → ctx_refs D p e' m = ctx_refs D p e m.
Proof. intros He. apply ctx_refs_ext. intros x. unfold explicit. by rewrite He. Qed.

Lemma ctx_refs_none D p e m : (∀ x, m !! x.1 = Some x.2 → ¬ explicit D p e x) → ctx_refs D p e m = 0.
Proof.
  intros Hn. unfold ctx_refs.
  replace (filter (explicit D p e) m) with (∅ : gmap positive ipa_hdr_proc_ctx_entry); [done|].
  symmetry. apply map_empty. intros q. apply map_lookup_filter_None. right. intros c Hc. by apply (Hn (q, c)).
Qed.

Lemma ctx_refs_zero D p e m x : ctx_refs D p e m = 0 → m !! x.1 = Some x.2 → ¬ explicit D p e x.
Proof.
  unfold ctx_refs. intros Hz Hx He.
  assert (filter (explicit D p e) m = ∅) as Hem by (apply map_size_empty_inv; lia).
  assert (filter (explicit D p e) m !! x.1 = Some x.2) as Hf.
  { apply map_lookup_filter_Some. by destruct x. }
  by rewrite Hem, lookup_empty in Hf.
Qed.

(** A new context, or one that is gone. *)
Lemma ctx_refs_insert D p e m q c :
  m !! q = None → explicit D p e (q, c) → ctx_refs D p e (<[q := c]> m) = ctx_refs D p e m + 1.
Proof.
  intros Hq He. unfold ctx_refs. rewrite map_filter_insert_True by done.
  rewrite map_size_insert_None; [lia|]. apply map_lookup_filter_None. by left.
Qed.

Lemma ctx_refs_insert_other D p e m q c :
  m !! q = None → ¬ explicit D p e (q, c) → ctx_refs D p e (<[q := c]> m) = ctx_refs D p e m.
Proof.
  intros Hq He. unfold ctx_refs. rewrite map_filter_insert_False by done.
  by rewrite delete_id.
Qed.

Lemma ctx_refs_take D p e m q c :
  m !! q = Some c → explicit D p e (q, c) →
  ctx_refs (D ∪ {[q]}) p e m = ctx_refs D p e m - 1.
Proof.
  intros Hq He.
  assert (ctx_refs (D ∪ {[q]}) p e m = ctx_refs D p e (delete q m)) as ->.
  { apply ctx_refs_ext. intros [q' c']. cbn. rewrite lookup_delete_Some. unfold explicit. cbn. set_solver. }
  rewrite <- (insert_delete_id m q c Hq) at 2.
  rewrite ctx_refs_insert; [lia| |done]. apply lookup_delete_eq.
Qed.

End Inv.
