(* ===== verification/HdrKeep.v ===== *)
(** * IPA header tables: what keeps the invariant

    The changes of state that the program makes, each with the part of the invariant that it
    needs. A new state is given by its fields. *)

From S2P Require Import Prelude.
From S2P Require Import HdrTypes.
From S2P Require Import Hdr.
From S2P Require Import HdrInv.

Implicit Types (D H : gset positive) (s : hdr_state).

Section Keep.
Context (E : hdr_env).

(** ** Frames of one entry *)

(** [same_slot]: the slot that the entry has is still there. *)
Lemma hdr_ok_frame_slot D H s D' H' s' p e :
  hdr_ok D H s p e →
  st_idr s' !! h_id e = st_idr s !! h_id e →
  ctx_refs D' p e (st_ctxs s') ≤ h_ref_cnt e →
  st_maps s' !! p = st_maps s !! p →
  (∀ o oe, h_offset_entry e = Some o → t_offs (st_hdr_tbl s) !! o = Some oe →
     ∃ oe', t_offs (st_hdr_tbl s') !! o = Some oe' ∧ o_bin oe' = o_bin oe) →
  (p ∈ H → p ∈ H') →
  (∀ q c, h_proc_ctx e = Some q → st_ctxs s !! q = Some c → c_hdr c = p → q ∉ D → q ∉ D' ∧
     ∃ c', st_ctxs s' !! q = Some c' ∧ c_hdr c' = p ∧ c_ref_cnt c' = c_ref_cnt c ∧
       c_ipacm_installed c' = c_ipacm_installed c) →
  hdr_ok D' H' s' p e.
Proof.
  intros [H1 H2 H3 H4 H5 H6 H7] Hid Hrefs Hmaps Hoffs HH Hctx. constructor; try done; [congruence|].
  destruct (h_is_hdr_proc_ctx e).
  - destruct H7 as (Ho & Hm & Hn & Hc). split_and!; [done|congruence|done|].
    destruct Hc as [[Hp He]|(q & c & He & Hq & Hh & Hr & HD & Hi)]; [left; auto|right].
    destruct (Hctx q c He Hq Hh HD) as (HD' & c' & Hq' & Hh' & Hr' & Hi').
    exists q, c'. split_and!; congruence.
  - destruct H7 as (Hc & Hm & o & oe & Ho & Hoe & Hl & Hn).
    destruct (Hoffs o oe Ho Hoe) as (oe' & Hoe' & Hb).
    split_and!; [done|congruence|]. exists o, oe'. unfold slot_size in *. rewrite Hb. done.
Qed.

Lemma hdr_ok_frame D H s D' H' s' p e :
  hdr_ok D H s p e →
  st_idr s' !! h_id e = st_idr s !! h_id e →
  ctx_refs D' p e (st_ctxs s') ≤ h_ref_cnt e →
  st_maps s' !! p = st_maps s !! p →
  keeps_offs (st_hdr_tbl s) (st_hdr_tbl s') →
  (p ∈ H → p ∈ H') →
  (∀ q c, h_proc_ctx e = Some q → st_ctxs s !! q = Some c → c_hdr c = p → q ∉ D → q ∉ D' ∧
     ∃ c', st_ctxs s' !! q = Some c' ∧ c_hdr c' = p ∧ c_ref_cnt c' = c_ref_cnt c ∧
       c_ipacm_installed c' = c_ipacm_installed c) →
  hdr_ok D' H' s' p e.
Proof.
  intros Hok Hid Hrefs Hmaps Hoffs. apply (hdr_ok_frame_slot D H s); try done.
  intros o oe _ Hoe. destruct (Hoffs o oe Hoe) as (oe' & Hoe' & Hb & _). eauto.
Qed.

Lemma ctx_ok_frame D s D' s' q c :
  ctx_ok D s q c →
  st_idr s' !! c_id c = st_idr s !! c_id c →
  keeps_offs (st_ctx_tbl s) (st_ctx_tbl s') →
  (q ∉ D' → q ∉ D ∧ (is_Some (st_hdrs s !! c_hdr c) → is_Some (st_hdrs s' !! c_hdr c))) →
  ctx_ok D' s' q c.
Proof.
  intros [H1 H2 (o & oe & Ho & Hoe & Hl) H4] Hid Hoffs HD. constructor; [done|congruence| |].
  - destruct (Hoffs o oe Hoe) as (oe' & Hoe' & Hb & _). exists o, oe'. unfold slot_size in *. by rewrite Hb.
  - intros HD'. destruct (HD HD') as [HD0 Hh]. destruct (H4 HD0). auto.
Qed.

(** ** Fields outside the tables *)

Lemma inv_ext D H s s' :
  inv E D H s → st_hdrs s' = st_hdrs s → st_ctxs s' = st_ctxs s → st_hdr_tbl s' = st_hdr_tbl s →
  st_ctx_tbl s' = st_ctx_tbl s → st_idr s' = st_idr s → st_maps s' = st_maps s → mem_ok s' →
  inv E D H s'.
Proof.
  intros Hi Eh Ec Et Ect Ei Em Hmem. destruct Hi.
  constructor; rewrite ?Eh, ?Ec, ?Et, ?Ect, ?Em; try done.
  - intros p e He. apply (hdr_ok_frame D H s); auto.
    + by rewrite Ei.
    + rewrite Ec. by destruct (i_hdrs p e He).
    + by rewrite Em.
    + by rewrite Et.
    + intros q c Hq Hc Hcp HD. split; [done|]. exists c. by rewrite Ec.
  - intros q c Hc. apply (ctx_ok_frame D s); auto; by rewrite ?Ei, ?Ect, ?Eh.
  - intros id i Hid. rewrite Ei in Hid. pose proof (i_idr id i Hid) as Hok.
    unfold id_ok in *. by rewrite Eh, Ec.
Qed.

Lemma mem_ok_eq s s' :
  st_bufs s' = st_bufs s → st_hdr_mem s' = st_hdr_mem s → st_ctx_mem s' = st_ctx_mem s →
  mem_ok s → mem_ok s'.
Proof.
  intros Hb Hh Hc [Hk Hne]. split; [|by rewrite Hh, Hc].
  intros k. specialize (Hk k). by destruct k; cbn in *; rewrite ?Hb, ?Hh, ?Hc.
Qed.

(** ** Tables

    A change of a table that leaves its entries and the slots in use. *)
Definition same_tbl (sizes : list Z) (align limit : Z) (t t' : ipa_hdr_tbl) : Prop :=
  slots_ok sizes align limit t' ∧ t_entry_list t' = t_entry_list t ∧ t_cnt t' = t_cnt t ∧
  (∀ x, x ∈ concat (t_offset_list t') ↔ x ∈ concat (t_offset_list t)) ∧ keeps_offs t t'.

Lemma inv_tbl D H s s' :
  inv E D H s → st_hdrs s' = st_hdrs s → st_ctxs s' = st_ctxs s → st_idr s' = st_idr s →
  st_maps s' = st_maps s → mem_ok s' →
  same_tbl ipa_hdr_bin_sz 4 (hdr_limit E) (st_hdr_tbl s) (st_hdr_tbl s') →
  same_tbl ipa_hdr_proc_ctx_bin_sz 32 (ctx_limit E) (st_ctx_tbl s) (st_ctx_tbl s') →
  inv E D H s'.
Proof.
  intros Hi Eh Ec Ei Em Hmem (Hs1 & Hl1 & Hn1 & Hu1 & Hk1) (Hs2 & Hl2 & Hn2 & Hu2 & Hk2). destruct Hi.
  constructor; rewrite ?Eh, ?Ec, ?Em; try done.
  - by apply (owned_eq _ _ (st_hdr_tbl s)).
  - by apply (owned_eq _ _ (st_ctx_tbl s)).
  - unfold listed in *. by rewrite Hl1, Hn1.
  - unfold listed in *. by rewrite Hl2, Hn2.
  - intros p e He. apply (hdr_ok_frame D H s); auto.
    + by rewrite Ei.
    + rewrite Ec. by destruct (i_hdrs p e He).
    + by rewrite Em.
    + intros q c Hq Hc Hcp HD. split; [done|]. exists c. by rewrite Ec.
  - intros q c Hc. apply (ctx_ok_frame D s); auto; by rewrite ?Ei, ?Eh.
  - intros id i Hid. rewrite Ei in Hid. pose proof (i_idr id i Hid) as Hok.
    unfold id_ok in *. by rewrite Eh, Ec.
Qed.

Lemma same_tbl_refl sizes align limit t : slots_ok sizes align limit t → same_tbl sizes align limit t t.
Proof. done. Qed.

(** ** Handles of other objects *)

Lemma inv_idr_other D H s s' id :
  inv E D H s → st_hdrs s' = st_hdrs s → st_ctxs s' = st_ctxs s → st_hdr_tbl s' = st_hdr_tbl s →
  st_ctx_tbl s' = st_ctx_tbl s → st_maps s' = st_maps s → mem_ok s' →
  (∀ i, st_idr s !! id = Some i → ∃ c, i = IdOther c) →
  (∀ id', id' ≠ id → st_idr s' !! id' = st_idr s !! id') →
  (∀ i, st_idr s' !! id = Some i → id_ok s id i ∧ ∃ c, i = IdOther c) →
  inv E D H s'.
Proof.
  intros Hi Eh Ec Et Ect Em Hmem Hid Hids Hid'. destruct Hi.
  assert (∀ id', (∃ p, st_idr s !! id' = Some (IdHdr p)) ∨ (∃ p, st_idr s !! id' = Some (IdCtx p)) →
    st_idr s' !! id' = st_idr s !! id') as Hsame.
  { intros id' Hp. apply Hids. intros ->. destruct Hp as [[p Hp]|[p Hp]]; by destruct (Hid _ Hp). }
  constructor; rewrite ?Eh, ?Ec, ?Et, ?Ect, ?Em; try done.
  - intros p e He. apply (hdr_ok_frame D H s); auto.
    + apply Hsame. left. exists p. by destruct (i_hdrs p e He).
    + rewrite Ec. by destruct (i_hdrs p e He).
    + by rewrite Em.
    + by rewrite Et.
    + intros q c Hq Hc Hcp HD. split; [done|]. exists c. by rewrite Ec.
  - intros q c Hc. apply (ctx_ok_frame D s); auto; rewrite ?Ect, ?Eh; auto; try done.
    apply Hsame. right. exists q. by destruct (i_ctxs q c Hc).
  - intros id' i Hid1. destruct (decide (id' = id)) as [->|Hne].
    + destruct (Hid' i Hid1) as [Hok _]. unfold id_ok in *. by rewrite Eh, Ec.
    + rewrite (Hids _ Hne) in Hid1. pose proof (i_idr id' i Hid1) as Hok.
      unfold id_ok in *. by rewrite Eh, Ec.
Qed.

(** ** Changing one entry *)

(** The fields that identify and place a header. *)
Definition same_hdr (e e' : ipa_hdr_entry) : Prop :=
  h_cookie e' = h_cookie e ∧ h_hdr_len e' = h_hdr_len e ∧ h_hdr e' = h_hdr e ∧ h_id e' = h_id e ∧
  h_is_hdr_proc_ctx e' = h_is_hdr_proc_ctx e ∧ h_offset_entry e' = h_offset_entry e ∧
  h_phys_base e' = h_phys_base e ∧ h_name e' = h_name e ∧
  h_ipacm_installed e' = h_ipacm_installed e.

Lemma listed_set {A} (f : gmap positive A) t p a a' :
  f !! p = Some a → listed f t → listed (<[p := a']> f) t.
Proof.
  intros Hp (Hnd & Hl & Hc). split_and!; [done| |done]. intros q. rewrite Hl.
  destruct (decide (q = p)) as [->|Hqp]; [rewrite lookup_insert_eq, Hp|by rewrite lookup_insert_ne].
  split; eauto.
Qed.

Lemma inv_set_hdr D H H' s s' p e e' :
  inv E D H s → st_hdrs s !! p = Some e → same_hdr e e' →
  1 ≤ h_ref_cnt e' < 2 ^ 32 → ctx_refs D p e' (st_ctxs s) ≤ h_ref_cnt e' →
  (∀ x, x ∈ H → x ≠ p → x ∈ H') →
  (h_proc_ctx e' = h_proc_ctx e ∧ (p ∈ H → p ∈ H') ∨
   h_is_hdr_proc_ctx e = true ∧ ∃ q c, h_proc_ctx e' = Some q ∧ st_ctxs s !! q = Some c ∧
     c_hdr c = p ∧ c_ref_cnt c = 1 ∧ q ∉ D ∧ c_ipacm_installed c = h_ipacm_installed e) →
  st_hdrs s' = <[p := e']> (st_hdrs s) → st_ctxs s' = st_ctxs s → st_hdr_tbl s' = st_hdr_tbl s →
  st_ctx_tbl s' = st_ctx_tbl s → st_idr s' = st_idr s → st_maps s' = st_maps s → mem_ok s' →
  inv E D H' s'.
Proof.
  intros Hi Hp (S1 & S2 & S3 & S4 & S5 & S6 & S7 & S8 & S9) Hr Hrefs HH Hctx Eh Ec Et Ect Ei Em Hmem.
  destruct Hi. constructor; rewrite ?Eh, ?Ec, ?Et, ?Ect, ?Em; try done.
  - by eapply owned_set.
  - by eapply listed_set.
  - intros p' e1 He1. destruct (decide (p' = p)) as [->|Hne].
    + rewrite lookup_insert_eq in He1. simplify_eq. destruct (i_hdrs p e Hp) as [H1 H2 H3 H4 H5 H6 H7].
      constructor; rewrite ?S1, ?S2, ?S3, ?S4, ?S5, ?Ei, ?Ec; try done.
      destruct (h_is_hdr_proc_ctx e) eqn:Hd.
      * destruct H7 as (Ho & Hm & Hn & Hc). unfold in_ddr. rewrite S6, S7, S8, S9, S2, Em, Ec.
        split_and!; try done. destruct Hctx as [[Hpc HpH]|[_ Hq]]; [|by right]. rewrite Hpc.
        destruct Hc as [[? ?]|?]; [left; auto|by right].
      * destruct H7 as (Hc & Hm & Ho). destruct Hctx as [[Hpc _]|[? _]]; [|done].
        unfold in_table. by rewrite Hpc, S6, S8, S2, Em, Et.
    + rewrite lookup_insert_ne in He1 by done. apply (hdr_ok_frame D H s); auto.
      * by rewrite Ei.
      * rewrite Ec. by destruct (i_hdrs p' e1 He1).
      * by rewrite Em.
      * by rewrite Et.
      * intros q c Hq Hc Hcp HD. split; [done|]. exists c. by rewrite Ec.
  - intros q c Hc. apply (ctx_ok_frame D s); auto; rewrite ?Ei, ?Ect, ?Eh; try done.
    intros HD. split; [done|]. intros Hs. destruct (decide (c_hdr c = p)) as [->|Hne].
    + by rewrite lookup_insert_eq.
    + by rewrite lookup_insert_ne.
  - intros id i Hid. rewrite Ei in Hid. pose proof (i_idr id i Hid) as Hok.
    destruct i as [p'|q|c]; cbn in *; [|by rewrite Ec|done]. rewrite Eh.
    destruct (decide (p' = p)) as [->|Hne]; [rewrite lookup_insert_eq|by rewrite lookup_insert_ne].
    destruct Hok as (e0 & He0 & <-). simplify_eq. eauto.
  - intros p' m Hm. destruct (i_maps p' m Hm) as (e0 & He0 & Hd).
    destruct (decide (p' = p)) as [->|Hne]; [rewrite lookup_insert_eq|rewrite lookup_insert_ne by done; eauto].
    simplify_eq. eexists. split; [done|congruence].
Qed.

(** No header calls [q] its own processing context. *)
Definition not_own s (q : positive) : Prop :=
  ∀ p e, st_hdrs s !! p = Some e → h_proc_ctx e ≠ Some q.

Lemma not_own_fresh D H s q : inv E D H s → st_ctxs s !! q = None → not_own s q.
Proof.
  intros Hi Hq p e Hp Hpq. destruct (i_hdrs _ _ _ _ Hi p e Hp) as [_ _ _ _ _ _ Hpl].
  destruct (h_is_hdr_proc_ctx e).
  - destruct Hpl as (_ & _ & _ & [[_ ?]|(q' & c' & ? & ? & _)]); congruence.
  - destruct Hpl as [? _]. congruence.
Qed.

(** A context changes its references; with [q] in [D'], it is about to go. *)
Lemma inv_set_ctx D D' H s s' q c c' :
  inv E D H s → st_ctxs s !! q = Some c → not_own s q →
  c_cookie c' = c_cookie c → c_id c' = c_id c → c_offset_entry c' = c_offset_entry c →
  c_hdr c' = c_hdr c →
  (D' = D ∧ (q ∉ D → 1 ≤ c_ref_cnt c' < 2 ^ 32) ∨ D' = D ∪ {[q]}) →
  st_ctxs s' = <[q := c']> (st_ctxs s) → st_hdrs s' = st_hdrs s → st_hdr_tbl s' = st_hdr_tbl s →
  st_ctx_tbl s' = st_ctx_tbl s → st_idr s' = st_idr s → st_maps s' = st_maps s → mem_ok s' →
  inv E D' H s'.
Proof.
  intros Hi Hq Hown C1 C2 C3 C4 HD' Ec Eh Et Ect Ei Em Hmem. destruct Hi.
  constructor; rewrite ?Eh, ?Ec, ?Et, ?Ect, ?Em; try done.
  - by eapply owned_set.
  - by eapply listed_set.
  - intros p e He. pose proof (i_hdrs p e He) as Hok. apply (hdr_ok_frame D H s); auto.
    + by rewrite Ei.
    + rewrite Ec. destruct Hok as [_ _ _ _ _ Hrefs _]. etransitivity; [|exact Hrefs].
      unfold ctx_refs. apply Nat2Z.inj_le.
      assert (size (filter (explicit D' p e) (<[q:=c']> (st_ctxs s))) =
        size (dom (filter (explicit D' p e) (<[q:=c']> (st_ctxs s))))) as -> by (by rewrite size_dom).
      rewrite <- size_dom. apply subseteq_size. intros x. rewrite !elem_of_dom.
      intros [cx Hx]. apply map_lookup_filter_Some in Hx as [Hx Hex]. unfold explicit in *. cbn in *.
      destruct (decide (x = q)) as [->|Hxq].
      * rewrite lookup_insert_eq in Hx. simplify_eq. exists c.
        apply map_lookup_filter_Some. cbn. split; [done|]. rewrite <- C4.
        destruct HD' as [[-> _]| ->]; set_solver.
      * rewrite lookup_insert_ne in Hx by done. exists cx. apply map_lookup_filter_Some. cbn.
        split; [done|]. destruct HD' as [[-> _]| ->]; set_solver.
    + by rewrite Em.
    + by rewrite Et.
    + intros q' c1 Hq' Hc1 Hcp HD. assert (q' ≠ q) as Hne by (intros ->; by apply (Hown p e)).
      split; [destruct HD' as [[-> _]| ->]; set_solver|]. exists c1.
      rewrite Ec, lookup_insert_ne by done. done.
  - intros q' c1 Hc1. destruct (decide (q' = q)) as [->|Hne].
    + rewrite lookup_insert_eq in Hc1. simplify_eq. destruct (i_ctxs q c Hq) as [H1 H2 H3 H4].
      constructor; rewrite ?C1, ?C2, ?C3, ?C4, ?Ei, ?Ect, ?Eh; try done.
      intros Hnd. destruct HD' as [[-> Hr]| ->]; [|set_solver].
      split; [by apply H4|auto].
    + rewrite lookup_insert_ne in Hc1 by done. apply (ctx_ok_frame D s); auto; rewrite ?Ei, ?Ect, ?Eh; try done.
      intros HD. split; [|done]. destruct HD' as [[-> _]| ->]; set_solver.
  - intros id i Hid. rewrite Ei in Hid. pose proof (i_idr id i Hid) as Hok.
    destruct i as [p'|q'|ck]; cbn in *; [by rewrite Eh| |done]. rewrite Ec.
    destruct (decide (q' = q)) as [->|Hne]; [rewrite lookup_insert_eq|by rewrite lookup_insert_ne].
    destruct Hok as (c0 & Hc0 & <-). simplify_eq. eauto.
Qed.

(** ** Adding *)

Lemma listed_add {A} (f : gmap positive A) t t' p a :
  f !! p = None → listed f t → t_entry_list t' = p :: t_entry_list t → t_cnt t' = u32 (t_cnt t + 1) →
  listed (<[p := a]> f) t'.
Proof.
  intros Hp (Hnd & Hl & Hc) El En. unfold listed. rewrite El, En.
  assert (p ∉ t_entry_list t) as Hno by (rewrite Hl, Hp; by intros [? ?]).
  split_and!.
  - by apply list.NoDup_cons.
  - intros q. rewrite elem_of_cons, Hl.
    destruct (decide (q = p)) as [->|Hqp]; [rewrite lookup_insert_eq|rewrite lookup_insert_ne by done; naive_solver].
    split; eauto.
  - cbn [length]. rewrite Hc, u32_add_l. f_equal. lia.
Qed.

(** What a table gives to a new entry: nothing, or the slot [o]. *)
Definition gives (sizes : list Z) (align limit : Z) (t t' : ipa_hdr_tbl) (so : option positive) : Prop :=
  slots_ok sizes align limit t' ∧ keeps_offs t t' ∧
  match so with
  | None => ∀ x, x ∈ concat (t_offset_list t') ↔ x ∈ concat (t_offset_list t)
  | Some o => o ∉ concat (t_offset_list t) ∧
      ∀ x, x ∈ concat (t_offset_list t') ↔ x = o ∨ x ∈ concat (t_offset_list t)
  end.

Lemma owned_gives {A} (slot : A → option positive) sizes align limit f t t' p a :
  f !! p = None → gives sizes align limit t t' (slot a) → slots_owned f slot t →
  slots_owned (<[p := a]> f) slot t'.
Proof.
  intros Hp (_ & _ & Hg) Ho. destruct (slot a) as [o|] eqn:Ha.
  - destruct Hg. by eapply owned_add.
  - apply owned_add_none; [done|done|]. by apply (owned_eq _ _ t).
Qed.

Lemma inv_add_hdr D H H' s s' p e :
  inv E D H s → st_hdrs s !! p = None → st_idr s !! h_id e = None →
  gives ipa_hdr_bin_sz 4 (hdr_limit E) (st_hdr_tbl s) (st_hdr_tbl s') (h_offset_entry e) →
  t_entry_list (st_hdr_tbl s') = p :: t_entry_list (st_hdr_tbl s) →
  t_cnt (st_hdr_tbl s') = u32 (t_cnt (st_hdr_tbl s) + 1) →
  st_hdrs s' = <[p := e]> (st_hdrs s) → st_ctxs s' = st_ctxs s → st_ctx_tbl s' = st_ctx_tbl s →
  st_idr s' = <[h_id e := IdHdr p]> (st_idr s) →
  (∀ p', p' ≠ p → st_maps s' !! p' = st_maps s !! p') →
  mem_ok s' → (∀ x, x ∈ H → x ∈ H') →
  (∀ m, st_maps s' !! p = Some m → h_is_hdr_proc_ctx e = true) →
  (∀ q c, st_ctxs s !! q = Some c → q ∈ D → c_hdr c ≠ p) →
  (ctx_refs D p e (st_ctxs s) = 0 → hdr_ok D H' s' p e) →
  inv E D H' s'.
Proof.
  intros Hi Hp Hid Hg El En Eh Ec Ect Ei Em Hmem HH Hmp HDp Hok. destruct Hi.
  assert (∀ id i, st_idr s !! id = Some i → id ≠ h_id e) as Hidne by congruence.
  assert (∀ q c, st_ctxs s !! q = Some c → c_hdr c ≠ p) as Hnop.
  { intros q c Hc Hcp. destruct (decide (q ∈ D)) as [HD|HD]; [by eapply HDp|].
    destruct (i_ctxs q c Hc) as [_ _ _ Hl]. destruct (Hl HD) as [Hs _]. rewrite Hcp, Hp in Hs. by destruct Hs. }
  constructor; rewrite ?Eh, ?Ec, ?Ect; try done.
  - by destruct Hg.
  - by eapply owned_gives.
  - by eapply listed_add.
  - intros p' e1 He1. destruct (decide (p' = p)) as [->|Hne].
    + rewrite lookup_insert_eq in He1. simplify_eq. apply Hok. apply ctx_refs_none.
      intros [q c] Hc (Hcp & _ & _). by apply (Hnop q c).
    + rewrite lookup_insert_ne in He1 by done. pose proof (i_hdrs p' e1 He1) as Hok1.
      apply (hdr_ok_frame D H s); auto.
      * rewrite Ei. destruct Hok1. rewrite lookup_insert_ne; [done|]. intros Hx. by eapply Hidne.
      * rewrite Ec. by destruct Hok1.
      * by destruct Hg as (_ & ? & _).
      * intros q c Hq Hc Hcp HD. split; [done|]. exists c. by rewrite Ec.
  - intros q c Hc. apply (ctx_ok_frame D s); auto; rewrite ?Ect, ?Eh; try done.
    + rewrite Ei. destruct (i_ctxs q c Hc). rewrite lookup_insert_ne; [done|]. intros Hx. by eapply Hidne.
    + intros HD. split; [done|]. intros Hs. destruct (decide (c_hdr c = p)) as [->|Hne].
      * by rewrite lookup_insert_eq.
      * by rewrite lookup_insert_ne.
  - intros id i Hid1. rewrite Ei in Hid1.
    destruct (decide (id = h_id e)) as [->|Hne].
    + rewrite lookup_insert_eq in Hid1. simplify_eq. cbn. rewrite Eh, lookup_insert_eq. eauto.
    + rewrite lookup_insert_ne in Hid1 by done. pose proof (i_idr id i Hid1) as Hok1.
      destruct i as [p'|q'|ck]; cbn in *; [|by rewrite Ec|done]. rewrite Eh.
      destruct Hok1 as (e0 & He0 & <-). exists e0. rewrite lookup_insert_ne by congruence. done.
  - intros p' m Hm. destruct (decide (p' = p)) as [->|Hne].
    + rewrite lookup_insert_eq. eauto.
    + rewrite (Em _ Hne) in Hm. rewrite lookup_insert_ne by done. eauto.
Qed.

Lemma inv_add_ctx D H s s' q c :
  inv E D H s → st_ctxs s !! q = None → st_idr s !! c_id c = None → q ∉ D → not_own s q →
  c_offset_entry c ≠ None →
  gives ipa_hdr_proc_ctx_bin_sz 32 (ctx_limit E) (st_ctx_tbl s) (st_ctx_tbl s') (c_offset_entry c) →
  t_entry_list (st_ctx_tbl s') = q :: t_entry_list (st_ctx_tbl s) →
  t_cnt (st_ctx_tbl s') = u32 (t_cnt (st_ctx_tbl s) + 1) →
  st_ctxs s' = <[q := c]> (st_ctxs s) → st_hdrs s' = st_hdrs s → st_hdr_tbl s' = st_hdr_tbl s →
  st_idr s' = <[c_id c := IdCtx q]> (st_idr s) → st_maps s' = st_maps s → mem_ok s' →
  (∀ e, st_hdrs s !! c_hdr c = Some e → ctx_refs D (c_hdr c) e (st_ctxs s) + 1 ≤ h_ref_cnt e) →
  ctx_ok D s' q c →
  inv E D H s'.
Proof.
  intros Hi Hq Hid HD Hown Hoff Hg El En Ec Eh Et Ei Em Hmem Hrefs Hok. destruct Hi.
  assert (∀ id i, st_idr s !! id = Some i → id ≠ c_id c) as Hidne by congruence.
  constructor; rewrite ?Eh, ?Ec, ?Et; try done.
  - by destruct Hg.
  - by eapply owned_gives.
  - by eapply listed_add.
  - intros p e He. pose proof (i_hdrs p e He) as Hok1. apply (hdr_ok_frame D H s); auto.
    + rewrite Ei. destruct Hok1. rewrite lookup_insert_ne; [done|]. intros Hx. by eapply Hidne.
    + rewrite Ec. destruct (decide (explicit D p e (q, c))) as [Hex|Hex].
      * rewrite ctx_refs_insert by done. destruct Hex as [<- _]. by apply Hrefs.
      * rewrite ctx_refs_insert_other by done. by destruct Hok1.
    + by rewrite Em.
    + by rewrite Et.
    + intros q' c1 Hq' Hc1 Hcp HD1. split; [done|]. exists c1. rewrite Ec.
      rewrite lookup_insert_ne by congruence. done.
  - intros q' c1 Hc1. destruct (decide (q' = q)) as [->|Hne].
    + rewrite lookup_insert_eq in Hc1. by simplify_eq.
    + rewrite lookup_insert_ne in Hc1 by done. apply (ctx_ok_frame D s); auto; rewrite ?Eh; try done.
      * rewrite Ei. destruct (i_ctxs q' c1 Hc1). rewrite lookup_insert_ne; [done|]. intros Hx. by eapply Hidne.
      * by destruct Hg as (_ & ? & _).
  - intros id i Hid1. rewrite Ei in Hid1. destruct (decide (id = c_id c)) as [->|Hne].
    + rewrite lookup_insert_eq in Hid1. simplify_eq. cbn. rewrite Ec, lookup_insert_eq. eauto.
    + rewrite lookup_insert_ne in Hid1 by done. pose proof (i_idr id i Hid1) as Hok1.
      destruct i as [p'|q'|ck]; cbn in *; [by rewrite Eh| |done]. rewrite Ec.
      destruct Hok1 as (e0 & He0 & <-). exists e0. rewrite lookup_insert_ne by congruence. done.
  - rewrite Em. done.
Qed.

(** ** Removing *)

Lemma length_filter_out (l : list positive) p :
  NoDup l → p ∈ l → Z.of_nat (length (filter (λ x, x ≠ p) l)) = Z.of_nat (length l) - 1.
Proof. intros Hnd Hp. rewrite (filter_out_perm p l Hnd Hp) at 2. cbn. lia. Qed.

Lemma listed_del {A} (f : gmap positive A) t t' p a :
  f !! p = Some a → listed f t → t_entry_list t' = filter (λ x, x ≠ p) (t_entry_list t) →
  t_cnt t' = u32 (t_cnt t - 1) → listed (delete p f) t'.
Proof.
  intros Hp (Hnd & Hl & Hc) El En. unfold listed. rewrite El, En. split_and!.
  - by apply list.NoDup_filter.
  - intros q. rewrite list_elem_of_filter, Hl, lookup_delete_is_Some. naive_solver.
  - rewrite length_filter_out; [|done|apply Hl; eauto]. rewrite Hc, u32_sub_l. done.
Qed.

(** What a table takes back from an entry. *)
Definition takes (sizes : list Z) (align limit : Z) (t t' : ipa_hdr_tbl) (so : option positive) : Prop :=
  slots_ok sizes align limit t' ∧ keeps_offs t t' ∧
  match so with
  | None => ∀ x, x ∈ concat (t_offset_list t') ↔ x ∈ concat (t_offset_list t)
  | Some o => ∀ x, x ∈ concat (t_offset_list t') ↔ x ≠ o ∧ x ∈ concat (t_offset_list t)
  end.

Lemma owned_takes {A} (slot : A → option positive) sizes align limit f t t' p a :
  f !! p = Some a → takes sizes align limit t t' (slot a) → slots_owned f slot t →
  slots_owned (delete p f) slot t'.
Proof.
  intros Hp (_ & _ & Hg) Ho. destruct (slot a) as [o|] eqn:Ha.
  - by eapply owned_del.
  - eapply owned_del_none; [done|done|]. by apply (owned_eq _ _ t).
Qed.

(** Its own context of a header that goes is about to go. *)
Definition own_ctx (e : ipa_hdr_entry) : gset positive :=
  match h_proc_ctx e with Some q => {[q]} | None => ∅ end.

Lemma elem_of_own_ctx e q : q ∈ own_ctx e ↔ h_proc_ctx e = Some q.
Proof. unfold own_ctx. destruct (h_proc_ctx e); set_solver. Qed.

(** The own context of a header has that header. *)
Lemma own_ctx_hdr D H s p e q c :
  inv E D H s → st_hdrs s !! p = Some e → h_proc_ctx e = Some q → st_ctxs s !! q = Some c → c_hdr c = p.
Proof.
  intros Hi Hp Hq Hc. destruct (i_hdrs _ _ _ _ Hi p e Hp) as [_ _ _ _ _ _ Hpl].
  destruct (h_is_hdr_proc_ctx e).
  - destruct Hpl as (_ & _ & _ & [[_ ?]|(q' & c' & ? & ? & ? & _)]); congruence.
  - destruct Hpl as [? _]. congruence.
Qed.

Lemma inv_kill_hdr D H s s' p e :
  inv E D H s → st_hdrs s !! p = Some e →
  (∀ q c, st_ctxs s !! q = Some c → c_hdr c = p → q ∈ D ∨ h_proc_ctx e = Some q) →
  takes ipa_hdr_bin_sz 4 (hdr_limit E) (st_hdr_tbl s) (st_hdr_tbl s') (h_offset_entry e) →
  t_entry_list (st_hdr_tbl s') = filter (λ x, x ≠ p) (t_entry_list (st_hdr_tbl s)) →
  t_cnt (st_hdr_tbl s') = u32 (t_cnt (st_hdr_tbl s) - 1) →
  st_hdrs s' = delete p (st_hdrs s) → st_ctxs s' = st_ctxs s → st_ctx_tbl s' = st_ctx_tbl s →
  st_idr s' = delete (h_id e) (st_idr s) → st_maps s' = delete p (st_maps s) → mem_ok s' →
  inv E (D ∪ own_ctx e) (H ∖ {[p]}) s'.
Proof.
  intros Hi Hp Hrefs Hg El En Eh Ec Ect Ei Em Hmem. pose proof Hi as Hinv. destruct Hi.
  constructor; rewrite ?Eh, ?Ec, ?Ect; try done.
  - by destruct Hg.
  - by eapply owned_takes.
  - by eapply listed_del.
  - intros p' e1 [Hne He1]%lookup_delete_Some. pose proof (i_hdrs p' e1 He1) as Hok.
    apply (hdr_ok_frame D H s); auto.
    + rewrite Ei. rewrite lookup_delete_ne; [done|]. intros Hx.
      destruct Hok as [_ _ _ Hid1 _ _ _], (i_hdrs p e Hp) as [_ _ _ Hid2 _ _ _]. congruence.
    + rewrite Ec. destruct Hok as [_ _ _ _ _ Hr _].
      replace (ctx_refs (D ∪ own_ctx e) p' e1 (st_ctxs s)) with (ctx_refs D p' e1 (st_ctxs s)); [done|].
      apply ctx_refs_ext. intros [q c]. unfold explicit. cbn. rewrite not_elem_of_union, elem_of_own_ctx.
      split; [|tauto]. intros (Hc & Hcp & HD & Hne1). split_and!; try done. intros Hq.
      apply Hne. rewrite <- Hcp. symmetry. by eapply own_ctx_hdr.
    + rewrite Em. by rewrite lookup_delete_ne.
    + by destruct Hg as (_ & ? & _).
    + set_solver.
    + intros q c Hq Hc Hcp HD. split; [|exists c; by rewrite Ec].
      rewrite not_elem_of_union, elem_of_own_ctx. split; [done|]. intros Hq'.
      apply Hne. rewrite <- Hcp. symmetry. by eapply own_ctx_hdr.
  - intros q c Hc. apply (ctx_ok_frame D s); auto; rewrite ?Ect, ?Eh; try done.
    + rewrite Ei. destruct (i_ctxs q c Hc) as [_ Hid _ _]. rewrite lookup_delete_ne; [done|]. intros Hx.
      destruct (i_hdrs p e Hp) as [_ _ _ Hid2 _ _ _]. congruence.
    + rewrite not_elem_of_union, elem_of_own_ctx. intros [HD Hown]. split; [done|]. intros Hs.
      rewrite lookup_delete_ne; [done|]. intros Hcp. by destruct (Hrefs q c Hc (eq_sym Hcp)).
  - intros id i Hid. rewrite Ei in Hid. apply lookup_delete_Some in Hid as [Hne Hid].
    pose proof (i_idr id i Hid) as Hok. destruct i as [p'|q'|ck]; cbn in *; [|by rewrite Ec|done].
    destruct Hok as (e0 & He0 & <-). rewrite Eh. exists e0. rewrite lookup_delete_ne by congruence. done.
  - intros p' m. rewrite Em. intros [Hne Hm]%lookup_delete_Some.
    rewrite lookup_delete_ne by done. eauto.
Qed.

Lemma inv_kill_ctx D H s s' q c :
  inv E D H s → st_ctxs s !! q = Some c → q ∈ D →
  takes ipa_hdr_proc_ctx_bin_sz 32 (ctx_limit E) (st_ctx_tbl s) (st_ctx_tbl s') (c_offset_entry c) →
  t_entry_list (st_ctx_tbl s') = filter (λ x, x ≠ q) (t_entry_list (st_ctx_tbl s)) →
  t_cnt (st_ctx_tbl s') = u32 (t_cnt (st_ctx_tbl s) - 1) →
  st_ctxs s' = delete q (st_ctxs s) → st_hdrs s' = st_hdrs s → st_hdr_tbl s' = st_hdr_tbl s →
  st_idr s' = delete (c_id c) (st_idr s) → st_maps s' = st_maps s → mem_ok s' →
  inv E (D ∖ {[q]}) H s'.
Proof.
  intros Hi Hq HD Hg El En Ec Eh Et Ei Em Hmem. destruct Hi.
  constructor; rewrite ?Eh, ?Ec, ?Et; try done.
  - by destruct Hg.
  - by eapply owned_takes.
  - by eapply listed_del.
  - intros p e He. pose proof (i_hdrs p e He) as Hok. apply (hdr_ok_frame D H s); auto.
    + rewrite Ei. rewrite lookup_delete_ne; [done|]. intros Hx.
      destruct Hok as [_ _ _ Hid1 _ _ _], (i_ctxs q c Hq) as [_ Hid2 _ _]. congruence.
    + rewrite Ec. destruct Hok as [_ _ _ _ _ Hr _].
      replace (ctx_refs (D ∖ {[q]}) p e (delete q (st_ctxs s))) with (ctx_refs D p e (st_ctxs s)); [done|].
      apply ctx_refs_ext. intros [q' c']. unfold explicit. cbn. rewrite lookup_delete_Some.
      destruct (decide (q' = q)) as [->|Hne]; set_solver.
    + by rewrite Em.
    + by rewrite Et.
    + intros q' c' Hq' Hc' Hcp HD'. assert (q' ≠ q) as Hne by (intros ->; done).
      split; [set_solver|]. exists c'. rewrite Ec, lookup_delete_ne by done. done.
  - intros q' c' [Hne Hc']%lookup_delete_Some. apply (ctx_ok_frame D s); auto; rewrite ?Eh; try done.
    + rewrite Ei. rewrite lookup_delete_ne; [done|]. intros Hx.
      destruct (i_ctxs q' c' Hc') as [_ Hid1 _ _], (i_ctxs q c Hq) as [_ Hid2 _ _]. congruence.
    + by destruct Hg as (_ & ? & _).
    + intros Hnd. split; [set_solver|done].
  - intros id i Hid. rewrite Ei in Hid. apply lookup_delete_Some in Hid as [Hne Hid].
    pose proof (i_idr id i Hid) as Hok. destruct i as [p'|q'|ck]; cbn in *; [by rewrite Eh| |done].
    destruct Hok as (c0 & Hc0 & <-). rewrite Ec. exists c0. rewrite lookup_delete_ne by congruence. done.
  - rewrite Em. done.
Qed.

(** ** More contexts are about to go *)

Lemma ctx_refs_mono D D' p e m : D ⊆ D' → ctx_refs D' p e m ≤ ctx_refs D p e m.
Proof.
  intros HD. unfold ctx_refs. apply Nat2Z.inj_le. rewrite <- !(size_dom (D := gset positive)).
  apply subseteq_size. intros q. rewrite !elem_of_dom. intros [c Hc].
  apply map_lookup_filter_Some in Hc as [Hc (H1 & H2 & H3)]. exists c. apply map_lookup_filter_Some.
  split; [done|]. split_and!; [done|set_solver|done].
Qed.

Lemma inv_more D D' H s :
  inv E D H s → D ⊆ D' → (∀ q, q ∈ D' → q ∈ D ∨ not_own s q) → inv E D' H s.
Proof.
  intros Hi HD Hown. destruct Hi. constructor; try done.
  - intros p e He. pose proof (i_hdrs p e He) as Hok. apply (hdr_ok_frame D H s); auto; [|done|].
    + etransitivity; [by apply ctx_refs_mono|]. by destruct Hok.
    + intros q c Hq Hc Hcp Hn. split; [|eauto]. intros HD'. destruct (Hown q HD') as [|Hno]; [done|].
      by apply (Hno p e).
  - intros q c Hc. apply (ctx_ok_frame D s); auto; try set_solver.
Qed.

(** A header table that is cleaned up: the slots in use stay. *)
Lemma inv_clean_hdr D s s' :
  inv E D ∅ s → st_hdrs s' = st_hdrs s → st_ctxs s' = st_ctxs s → st_idr s' = st_idr s →
  st_maps s' = st_maps s → st_ctx_tbl s' = st_ctx_tbl s → mem_ok s' →
  slots_ok ipa_hdr_bin_sz 4 (hdr_limit E) (st_hdr_tbl s') →
  t_entry_list (st_hdr_tbl s') = t_entry_list (st_hdr_tbl s) →
  t_cnt (st_hdr_tbl s') = t_cnt (st_hdr_tbl s) →
  (∀ x, x ∈ concat (t_offset_list (st_hdr_tbl s')) ↔ x ∈ concat (t_offset_list (st_hdr_tbl s))) →
  (∀ o, o ∈ concat (t_offset_list (st_hdr_tbl s)) →
     t_offs (st_hdr_tbl s') !! o = t_offs (st_hdr_tbl s) !! o) →
  inv E D ∅ s'.
Proof.
  intros Hi Eh Ec Ei Em Ect Hmem Hs Hl Hn Hu Hk. destruct Hi.
  constructor; rewrite ?Eh, ?Ec, ?Em, ?Ect; try done.
  - by apply (owned_eq _ _ (st_hdr_tbl s)).
  - unfold listed in *. by rewrite Hl, Hn.
  - intros p e He. apply (hdr_ok_frame_slot D ∅ s); auto.
    + by rewrite Ei.
    + rewrite Ec. by destruct (i_hdrs p e He).
    + by rewrite Em.
    + intros o oe Ho Hoe. exists oe. rewrite Hk; [done|]. by eapply (sl_used _ _ _ i_hdr_owned).
    + intros q c Hq Hc Hcp HD. split; [done|]. exists c. by rewrite Ec.
  - intros q c Hc. apply (ctx_ok_frame D s); auto; by rewrite ?Ei, ?Ect, ?Eh.
  - intros id i Hid. rewrite Ei in Hid. pose proof (i_idr id i Hid) as Hok.
    unfold id_ok in *. by rewrite Eh, Ec.
Qed.

(** A table of contexts that is cleaned up when there are none. *)
Lemma inv_clean_ctx s s' :
  inv E ∅ ∅ s → st_ctxs s = ∅ → st_hdrs s' = st_hdrs s → st_ctxs s' = st_ctxs s → st_idr s' = st_idr s →
  st_maps s' = st_maps s → st_hdr_tbl s' = st_hdr_tbl s → mem_ok s' →
  slots_ok ipa_hdr_proc_ctx_bin_sz 32 (ctx_limit E) (st_ctx_tbl s') →
  t_entry_list (st_ctx_tbl s') = t_entry_list (st_ctx_tbl s) →
  t_cnt (st_ctx_tbl s') = t_cnt (st_ctx_tbl s) →
  (∀ x, x ∉ concat (t_offset_list (st_ctx_tbl s'))) →
  inv E ∅ ∅ s'.
Proof.
  intros Hi Hem Eh Ec Ei Em Et Hmem Hs Hl Hn Hu. destruct Hi.
  constructor; rewrite ?Eh, ?Ec, ?Em, ?Et; try done.
  - rewrite Hem. split; [by intros ? ? ? ?%lookup_empty_Some|by intros ? ?%Hu|by intros ? ? ? ? ? ?%lookup_empty_Some].
  - unfold listed in *. by rewrite Hl, Hn.
  - intros p e He. apply (hdr_ok_frame ∅ ∅ s); auto.
    + by rewrite Ei.
    + rewrite Ec. by destruct (i_hdrs p e He).
    + by rewrite Em.
    + by rewrite Et.
    + intros q c Hq Hc. by rewrite Hem in Hc.
  - rewrite Hem. by intros ? ? ?%lookup_empty_Some.
  - intros id i Hid. rewrite Ei in Hid. pose proof (i_idr id i Hid) as Hok.
    unfold id_ok in *. by rewrite Eh, Ec.
Qed.

End Keep.
