(* ===== verification/HdrAddRuns.v ===== *)
(** * IPA header tables: runs of the handlers

    From a state that satisfies the invariant, what adding and deleting do: they never fail to
    run, and the new state satisfies it again. A state is written by its fields, so that the
    time of an answer is one of them.

    A call of [__ipa_add_hdr_proc_ctx] or [__ipa_add_hdr] adds the whole entry or leaves all
    entries, handles, references and mappings as they were. *)

From S2P Require Import Prelude.
From S2P Require Import HdrTypes.
From S2P Require Import Hdr.
From S2P Require Import HdrInv.
From S2P Require Import HdrKeep.

Implicit Types (D H : gset positive) (s : hdr_state).

(** What the code relies on: [idr_alloc] returns a number that is not in use, and a new buffer
    has an address of its own; and the limits of the tables are 16 bits wide. *)
Record hdr_env_ok (E : hdr_env) : Prop := {
  ok_id : ∀ s, 0 ≤ env_id E s → st_idr s !! env_id E s = None;
  ok_dma : ∀ s n phys, env_dma E s n = Some phys → 0 < phys ∧ st_bufs s !! phys = None;
  ok_hdr_limit : 8 ≤ hdr_limit E < 2 ^ 16;
  ok_ctx_limit : 0 ≤ ctx_limit E < 2 ^ 16;
}.
Existing Class hdr_env_ok.

(** The fields of a state that is written out. *)
Ltac fields :=
  cbn [st_hdrs st_ctxs st_hdr_tbl st_ctx_tbl st_idr st_maps st_bufs st_hdr_mem st_ctx_mem st_sent
       st_time with_hdrs with_ctxs with_tbl with_idr with_maps with_bufs with_mem with_sent st_tbl
       st_mem tick] in *.

(** ** Rules for the operations on the state *)

Section Rules.
Implicit Types (Q : () → hdr_state → Prop).

Lemma wp_ask {A} (f : hdr_state → A) (Q : A → hdr_state → Prop) s :
  Q (f s) (tick s) → wp (ask f) Q s.
Proof. done. Qed.

Lemma wp_hdr_at p e (Q : _ → hdr_state → Prop) s :
  st_hdrs s !! p = Some e → Q e s → wp (hdr_at p) Q s.
Proof. intros Hp HQ. unfold hdr_at. by wp_steps. Qed.

Lemma wp_ctx_at q c (Q : _ → hdr_state → Prop) s :
  st_ctxs s !! q = Some c → Q c s → wp (ctx_at q) Q s.
Proof. intros Hq HQ. unfold ctx_at. by wp_steps. Qed.

Lemma wp_off_at k o e (Q : _ → hdr_state → Prop) s :
  t_offs (st_tbl s k) !! o = Some e → Q e s → wp (off_at k (Some o)) Q s.
Proof.
  intros Ho HQ. unfold off_at. wp_step. eapply wp_of_option; [done|]. by wp_steps.
Qed.

Lemma wp_upd_hdr p f e Q s :
  st_hdrs s !! p = Some e → Q () (with_hdrs (<[p := f e]> (st_hdrs s)) s) → wp (upd_hdr p f) Q s.
Proof. intros Hp HQ. unfold upd_hdr, put_hdr. wp_step. eapply wp_hdr_at; [done|]. by wp_steps. Qed.

Lemma wp_upd_ctx q f c Q s :
  st_ctxs s !! q = Some c → Q () (with_ctxs (<[q := f c]> (st_ctxs s)) s) → wp (upd_ctx q f) Q s.
Proof. intros Hq HQ. unfold upd_ctx, put_ctx. wp_step. eapply wp_ctx_at; [done|]. by wp_steps. Qed.

Lemma wp_free_hdr p e Q s :
  st_hdrs s !! p = Some e → Q () (with_hdrs (delete p (st_hdrs s)) s) → wp (free_hdr p) Q s.
Proof. intros Hp HQ. unfold free_hdr. wp_step. eapply wp_hdr_at; [done|]. by wp_steps. Qed.

Lemma wp_free_ctx q c Q s :
  st_ctxs s !! q = Some c → Q () (with_ctxs (delete q (st_ctxs s)) s) → wp (free_ctx q) Q s.
Proof. intros Hq HQ. unfold free_ctx. wp_step. eapply wp_ctx_at; [done|]. by wp_steps. Qed.

(** The handle of a header, and of a context. *)
Lemma wp_find_hdr hdl (Q : _ → hdr_state → Prop) E D H s :
  inv E D H s →
  (∀ p e, st_idr s !! hdl = Some (IdHdr p) → st_hdrs s !! p = Some e → h_id e = hdl → Q (Some p) s) →
  ((∀ p, st_idr s !! hdl ≠ Some (IdHdr p)) → Q None s) →
  wp (find_hdr hdl) Q s.
Proof.
  intros Hi Hsome Hnone. unfold find_hdr, ipa_id_find. wp_steps.
  destruct (st_idr s !! hdl) as [i|] eqn:Hid; [|apply wp_ret; naive_solver].
  pose proof (i_idr _ _ _ _ Hi hdl i Hid) as Hok. wp_step. destruct i as [p|q|ck]; cbn in Hok |- *.
  - destruct Hok as (e & He & Hh). wp_step. eapply wp_hdr_at; [done|]. wp_steps.
    rewrite (ho_cookie _ _ _ _ _ (i_hdrs _ _ _ _ Hi p e He)). cbn. apply wp_ret. by eapply Hsome.
  - destruct Hok as (c & Hc & Hh). wp_step. eapply wp_ctx_at; [done|]. wp_steps.
    rewrite (co_cookie _ _ _ _ (i_ctxs _ _ _ _ Hi q c Hc)). cbn. apply wp_ret. apply Hnone. naive_solver.
  - wp_steps. destruct (Z.eqb_spec ck IPA_HDR_COOKIE); [tauto|]. cbn. apply wp_ret. apply Hnone. naive_solver.
Qed.

Lemma wp_find_ctx hdl (Q : _ → hdr_state → Prop) E D H s :
  inv E D H s →
  (∀ q c, st_idr s !! hdl = Some (IdCtx q) → st_ctxs s !! q = Some c → c_id c = hdl → Q (Some q) s) →
  ((∀ q, st_idr s !! hdl ≠ Some (IdCtx q)) → Q None s) →
  wp (find_ctx hdl) Q s.
Proof.
  intros Hi Hsome Hnone. unfold find_ctx, ipa_id_find. wp_steps.
  destruct (st_idr s !! hdl) as [i|] eqn:Hid; [|apply wp_ret; naive_solver].
  pose proof (i_idr _ _ _ _ Hi hdl i Hid) as Hok. wp_step. destruct i as [p|q|ck]; cbn in Hok |- *.
  - destruct Hok as (e & He & Hh). wp_step. eapply wp_hdr_at; [done|]. wp_steps.
    rewrite (ho_cookie _ _ _ _ _ (i_hdrs _ _ _ _ Hi p e He)). cbn. apply wp_ret. apply Hnone. naive_solver.
  - destruct Hok as (c & Hc & Hh). wp_step. eapply wp_ctx_at; [done|]. wp_steps.
    rewrite (co_cookie _ _ _ _ (i_ctxs _ _ _ _ Hi q c Hc)). cbn. apply wp_ret. by eapply Hsome.
  - wp_steps. destruct (Z.eqb_spec ck IPA_PROC_HDR_COOKIE); [tauto|]. cbn. apply wp_ret. apply Hnone. naive_solver.
Qed.

End Rules.

(** ** Slots *)

Section SlotRuns.
Context (sizes : list Z) (align limit : Z).
Context (Hsizes : ∀ b size, sizes !! b = Some size → 0 < size ∧ (align | size)).
Context (Hlimit : limit < 2 ^ 32).

Lemma bin_range (bin size : Z) t :
  slots_ok sizes align limit t → sizes !! Z.to_nat bin = Some size →
  (Z.to_nat bin < length (t_offset_list t))%nat ∧ (Z.to_nat bin < length (t_free_offset_list t))%nat.
Proof.
  intros Ht Hsz. rewrite (so_used _ _ _ _ Ht), (so_free _ _ _ _ Ht). apply lookup_lt_Some in Hsz. done.
Qed.

Lemma gives_grow o bin size user t :
  slots_ok sizes align limit t → 0 ≤ bin → sizes !! Z.to_nat bin = Some size →
  t_offs t !! o = None → t_end t + size ≤ limit →
  gives sizes align limit t (tbl_grow o bin size user t) (Some o).
Proof.
  intros Ht Hb Hsz Ho Hroom. destruct (bin_range _ _ _ Ht Hsz) as [Hu _].
  split_and!; [by apply slots_ok_grow|by apply keeps_offs_grow| |intros x; by apply used_grow].
  intros Hin. destruct (proj1 (so_dom _ _ _ t o Ht)) as [e He]; [by apply elem_of_app; left|].
  by rewrite Ho in He.
Qed.

Lemma gives_reuse o l bin size user t e :
  slots_ok sizes align limit t → 0 ≤ bin → sizes !! Z.to_nat bin = Some size →
  t_free_offset_list t !! Z.to_nat bin = Some (o :: l) → t_offs t !! o = Some e →
  gives sizes align limit t (tbl_mark o e user (tbl_reuse o bin t)) (Some o) ∧ o_bin e = bin.
Proof.
  intros Ht Hb Hsz Hl Ho. destruct (bin_range _ _ _ Ht Hsz) as [Hu _].
  assert (on (t_free_offset_list t) (Z.to_nat bin) o) as Hon by (eexists; split; [done|set_solver]).
  destruct (so_on _ _ _ _ Ht (Z.to_nat bin) o) as (e' & He' & Hbin); [by right|]. simplify_eq.
  split; [|lia]. split_and!.
  - apply slots_ok_mark; [by eapply slots_ok_reuse|done].
  - etransitivity; [|by apply keeps_offs_mark]. by apply keeps_offs_eq.
  - intros Hin. pose proof (so_nodup _ _ _ _ Ht) as Hnd. apply list.NoDup_app in Hnd as (_ & Hd & _).
    apply (Hd o Hin). apply on_concat. eauto.
  - intros x. by apply used_reuse.
Qed.

Lemma takes_release o t e :
  slots_ok sizes align limit t → t_offs t !! o = Some e → o ∈ concat (t_offset_list t) →
  takes sizes align limit t (tbl_release o (o_bin e) t) (Some o).
Proof.
  intros Ht Ho Hu. split_and!; [by apply slots_ok_release|by apply keeps_offs_eq|].
  intros x. apply used_release.
Qed.

Lemma gives_entries t t' so l cnt :
  gives sizes align limit t t' so → gives sizes align limit t (tbl_with_entries l cnt t') so.
Proof. intros (H1 & H2 & H3). split; [by eapply slots_ok_eq; [..|exact H1]|done]. Qed.

Lemma takes_entries t t' so l cnt :
  takes sizes align limit t t' so → takes sizes align limit t (tbl_with_entries l cnt t') so.
Proof. intros (H1 & H2 & H3). split; [by eapply slots_ok_eq; [..|exact H1]|done]. Qed.

(** A slot that is given and taken back. *)
Lemma same_tbl_back t t1 t2 o :
  gives sizes align limit t t1 (Some o) → takes sizes align limit t1 t2 (Some o) →
  t_entry_list t2 = t_entry_list t → t_cnt t2 = t_cnt t → same_tbl sizes align limit t t2.
Proof.
  intros (H1 & H2 & H3 & H4) (H5 & H6 & H7) El En. split_and!; [done..| |by etransitivity].
  intros x. rewrite H7, H4. naive_solver.
Qed.

(** An entry that is added with the slot [o] and taken out again. *)
Lemma same_tbl_undo {A} (f : gmap positive A) t t' o oe q :
  gives sizes align limit t t' (Some o) → t_entry_list t' = t_entry_list t → t_cnt t' = t_cnt t →
  t_offs t' !! o = Some oe → listed f t → f !! q = None →
  let t1 := tbl_with_entries (q :: t_entry_list t') (u32 (t_cnt t' + 1)) t' in
  let t2 := tbl_release o (o_bin oe) t1 in
  same_tbl sizes align limit t
    (tbl_with_entries (filter (λ x, x ≠ q) (t_entry_list t2)) (u32 (t_cnt t2 - 1)) t2).
Proof.
  intros Hg El En Hoe (Hnd & Hl & Hc) Hq. cbv zeta.
  assert (q ∉ t_entry_list t) as Hno by (rewrite Hl, Hq; by intros [? ?]).
  assert (slots_ok sizes align limit t') as Ht' by (by destruct Hg).
  assert (o ∈ concat (t_offset_list t')) as Hin by (destruct Hg as (_ & _ & _ & Hx); apply Hx; by left).
  eapply (same_tbl_back _ t'); [done| | |].
  - assert (takes sizes align limit t' (tbl_release o (o_bin oe) t') (Some o)) as (T1 & T2 & T3)
      by (by apply takes_release).
    split_and!; [|exact T2|exact T3]. by eapply slots_ok_eq; [..|exact T1].
  - cbn [tbl_with_entries tbl_release tbl_with_lists t_entry_list]. rewrite El.
    rewrite filter_cons_False by naive_solver. by apply filter_notin.
  - cbn [tbl_with_entries tbl_release tbl_with_lists t_cnt]. rewrite En, u32_sub_l.
    replace (t_cnt t + 1 - 1) with (t_cnt t) by lia. by rewrite Hc, u32_u32.
Qed.

(** The same without a slot. *)
Lemma same_tbl_undo_none {A} (f : gmap positive A) t q :
  slots_ok sizes align limit t → listed f t → f !! q = None →
  let t1 := tbl_with_entries (q :: t_entry_list t) (u32 (t_cnt t + 1)) t in
  same_tbl sizes align limit t
    (tbl_with_entries (filter (λ x, x ≠ q) (t_entry_list t1)) (u32 (t_cnt t1 - 1)) t1).
Proof.
  intros Ht (Hnd & Hl & Hc) Hq. cbv zeta.
  assert (q ∉ t_entry_list t) as Hno by (rewrite Hl, Hq; by intros [? ?]).
  split_and!; [by eapply slots_ok_eq; [..|exact Ht]| | |done|by apply keeps_offs_eq].
  - cbn [tbl_with_entries t_entry_list]. rewrite filter_cons_False by naive_solver. by apply filter_notin.
  - cbn [tbl_with_entries t_cnt]. rewrite u32_sub_l.
    replace (t_cnt t + 1 - 1) with (t_cnt t) by lia. by rewrite Hc, u32_u32.
Qed.

Lemma same_tbl_give_none t t' :
  same_tbl sizes align limit t t' → gives sizes align limit t t' None ∧ takes sizes align limit t t' None.
Proof. intros (H1 & H2 & H3 & H4 & H5). unfold gives, takes. done. Qed.

End SlotRuns.

Lemma wp_grow_slot k bin size user (Q : _ → hdr_state → Prop) s :
  0 ≤ bin → (Z.to_nat bin < length (t_offset_list (st_tbl s k)))%nat →
  (∀ o, t_offs (st_tbl s k) !! o = None →
     Q o (with_tbl k (tbl_grow o bin size user (st_tbl s k)) s)) →
  wp (grow_slot k bin size user) Q s.
Proof.
  intros Hb Hl HQ. unfold grow_slot. wp_steps.
  eapply wp_of_option; [by apply push_alter|]. cbn beta. unfold upd_tbl. wp_steps.
  apply HQ. apply not_elem_of_dom. apply is_fresh.
Qed.

Lemma wp_reuse_slot k o bin user e (Q : _ → hdr_state → Prop) s :
  0 ≤ bin → (Z.to_nat bin < length (t_offset_list (st_tbl s k)))%nat →
  t_offs (st_tbl s k) !! o = Some e →
  Q () (with_tbl k (tbl_mark o e user (tbl_reuse o bin (st_tbl s k))) s) →
  wp (reuse_slot k o bin user) Q s.
Proof.
  intros Hb Hl Ho HQ. unfold reuse_slot, move_to_used. wp_steps.
  eapply wp_of_option; [apply push_alter; [done|by rewrite length_unlink]|]. cbn beta. unfold upd_tbl. wp_steps.
  eapply wp_off_at; [by destruct k|]. wp_steps. by destruct k.
Qed.

Lemma wp_release_slot k o e (Q : _ → hdr_state → Prop) s :
  t_offs (st_tbl s k) !! o = Some e → 0 ≤ o_bin e →
  (Z.to_nat (o_bin e) < length (t_free_offset_list (st_tbl s k)))%nat →
  Q () (with_tbl k (tbl_release o (o_bin e) (st_tbl s k)) s) →
  wp (release_slot k (Some o)) Q s.
Proof.
  intros Ho Hb Hl HQ. unfold release_slot, move_to_free. wp_step. eapply wp_off_at; [done|]. wp_step.
  eapply wp_of_option; [done|]. wp_steps.
  eapply wp_of_option; [apply push_alter; [done|by rewrite length_unlink]|]. cbn beta. unfold upd_tbl. wp_steps. by destruct k.
Qed.

Lemma wp_id_alloc E {HE : hdr_env_ok E} i (Q : Z → hdr_state → Prop) s :
  (∀ id, id < 0 → Q id (tick s)) →
  (∀ id, 0 ≤ id → st_idr s !! id = None → Q id (with_idr (<[id := i]> (st_idr s)) (tick s))) →
  wp (ipa_id_alloc E i) Q s.
Proof.
  intros Hno Hyes. unfold ipa_id_alloc. wp_step. apply wp_ask.
  pose proof (ok_id E HE s) as Hid. wp_step. destruct (Z.leb_spec 0 (env_id E s)); cbn [when].
  - wp_steps. apply Hyes; auto.
  - wp_steps. by apply Hno.
Qed.

Lemma hdr_sizes b size : ipa_hdr_bin_sz !! b = Some size → 0 < size ∧ (4 | size).
Proof.
  intros Hb. do 5 (destruct b as [|b]; [injection Hb as <-; split; [lia|by apply Z.mod_divide]|]). done.
Qed.

Lemma ctx_sizes b size : ipa_hdr_proc_ctx_bin_sz !! b = Some size → 0 < size ∧ (32 | size).
Proof.
  intros Hb. do 2 (destruct b as [|b]; [injection Hb as <-; split; [lia|by apply Z.mod_divide]|]). done.
Qed.

(** * IPA header tables: adding *)


(** All that a failed call leaves; the end of a table may have grown by a slot that is free. *)
Record unchanged (E : hdr_env) s s' : Prop := {
  un_hdrs : st_hdrs s' = st_hdrs s;
  un_ctxs : st_ctxs s' = st_ctxs s;
  un_idr : st_idr s' = st_idr s;
  un_maps : st_maps s' = st_maps s;
  un_bufs : st_bufs s' = st_bufs s;
  un_hdr_mem : st_hdr_mem s' = st_hdr_mem s;
  un_ctx_mem : st_ctx_mem s' = st_ctx_mem s;
  un_sent : st_sent s' = st_sent s;
  un_hdr_tbl : same_tbl ipa_hdr_bin_sz 4 (hdr_limit E) (st_hdr_tbl s) (st_hdr_tbl s');
  un_ctx_tbl : same_tbl ipa_hdr_proc_ctx_bin_sz 32 (ctx_limit E) (st_ctx_tbl s) (st_ctx_tbl s');
}.

Section Add.
Context (E : hdr_env) {HE : hdr_env_ok E}.

Lemma unchanged_inv D H s s' : unchanged E s s' → inv E D H s → inv E D H s'.
Proof.
  intros [] Hi. apply (inv_tbl E D H s); try done.
  apply (mem_ok_eq s); try done. by apply (i_mem _ _ _ _ Hi).
Qed.

Lemma hdr_limit_u32 : hdr_limit E < 2 ^ 32.
Proof. pose proof (ok_hdr_limit E HE). lia. Qed.
Lemma ctx_limit_u32 : ctx_limit E < 2 ^ 32.
Proof. pose proof (ok_ctx_limit E HE). lia. Qed.

(** The comparison of the code is exact: the sum does not wrap. *)
Lemma room_exact sizes align limit (bin size : Z) t :
  (∀ b size, sizes !! b = Some size → 0 < size ∧ (align | size)) →
  slots_ok sizes align limit t → limit < 2 ^ 16 → sizes !! Z.to_nat bin = Some size → size ≤ 64 →
  (limit <? u32 (t_end t + size)) = (limit <? t_end t + size).
Proof.
  intros Hs Ht Hl Hsz H64. destruct (Hs _ _ Hsz) as [Hpos _].
  pose proof (so_end _ _ _ _ Ht) as [Hend _]. by rewrite u32_small by lia.
Qed.

Section State.
Context (hd : gmap positive ipa_hdr_entry) (cx : gmap positive ipa_hdr_proc_ctx_entry).
Context (ht ct : ipa_hdr_tbl) (im : gmap Z id_ptr) (mp : gmap positive (Z * Z)).
Context (bf : gmap Z (list Z)) (hm cm : ipa_mem_buffer).
Context (se : list (list imm_cmd * gmap Z (list Z) * Z)) (n : nat).

Lemma wp_ctx_slot bin size user (Q : _ → hdr_state → Prop) :
  slots_ok ipa_hdr_proc_ctx_bin_sz 32 (ctx_limit E) ct → 0 ≤ bin →
  ipa_hdr_proc_ctx_bin_sz !! Z.to_nat bin = Some size →
  (∀ n', Q None (mkSt hd cx ht ct im mp bf hm cm se n')) →
  (∀ o t' oe n', gives ipa_hdr_proc_ctx_bin_sz 32 (ctx_limit E) ct t' (Some o) →
     t_entry_list t' = t_entry_list ct → t_cnt t' = t_cnt ct → t_offs t' !! o = Some oe →
     o_bin oe = bin → Q (Some o) (mkSt hd cx ht t' im mp bf hm cm se n')) →
  wp (ctx_slot E bin size user) Q (mkSt hd cx ht ct im mp bf hm cm se n).
Proof.
  intros Ht Hb Hsz Hnone Hsome. destruct (bin_range _ _ _ _ _ _ Ht Hsz) as [Hu Hf].
  pose proof (ok_ctx_limit E HE) as Hlim. unfold ctx_slot. wp_steps. cbn [st_ctx_tbl].
  destruct (lookup_lt_is_Some_2 (t_free_offset_list ct) (Z.to_nat bin) Hf) as [free Hfree].
  eapply wp_of_option.
  { rewrite <- (Z2Nat.id bin) by done. by rewrite lookup_z_nat. }
  cbn beta. fold (ctx_limit E). destruct free as [|o l].
  - rewrite (room_exact _ _ _ bin size _ ctx_sizes Ht); [|lia|done|].
    2: { destruct (Z.to_nat bin) as [|[|?]]; [by simplify_eq/=..|done]. }
    destruct (Z.ltb_spec (ctx_limit E) (t_end ct + size)); [wp_steps; apply Hnone|].
    wp_step. apply wp_ask. destruct (env_alloc E _); cbn [negb]; [|wp_steps; apply Hnone].
    wp_step. apply wp_grow_slot; [done..|]. intros o Ho. wp_steps. cbn.
    eapply Hsome; cbn; [|done|done|by rewrite lookup_insert_eq|done].
    apply (gives_grow _ _ _ ctx_sizes ctx_limit_u32); done.
  - destruct (so_on _ _ _ _ Ht (Z.to_nat bin) o) as (e & He & _); [right; eexists; split; [done|set_solver]|].
    wp_step. eapply wp_reuse_slot; [done..|]. wp_steps. cbn.
    destruct (gives_reuse _ _ _ ctx_sizes ctx_limit_u32 o l bin size user ct e) as [Hg Hbin]; [done..|].
    eapply Hsome; cbn; [exact Hg|done|done|by rewrite lookup_insert_eq|done].
Qed.

Lemma wp_hdr_slot p e bin size user (Q : bool → hdr_state → Prop) :
  slots_ok ipa_hdr_bin_sz 4 (hdr_limit E) ht → 0 ≤ bin →
  ipa_hdr_bin_sz !! Z.to_nat bin = Some size → hd !! p = Some e →
  (∀ n', Q false (mkSt hd cx ht ct im mp bf hm cm se n')) →
  (∀ o t' oe n', gives ipa_hdr_bin_sz 4 (hdr_limit E) ht t' (Some o) →
     t_entry_list t' = t_entry_list ht → t_cnt t' = t_cnt ht → t_offs t' !! o = Some oe →
     o_bin oe = bin →
     Q true (mkSt (<[p := hdr_with_offset (Some o) e]> hd) cx t' ct im mp bf hm cm se n')) →
  (∀ phys n', ipa_hw_type E = IPA_HW_v2_5 → hdr_limit E < t_end ht + size →
     t_free_offset_list ht !! Z.to_nat bin = Some [] →
     Q true (mkSt (<[p := hdr_with_ddr true phys e]> hd) cx ht ct im (<[p := (phys, h_hdr_len e)]> mp)
               bf hm cm se n')) →
  wp (hdr_slot E p bin size user) Q (mkSt hd cx ht ct im mp bf hm cm se n).
Proof.
  intros Ht Hb Hsz Hp Hno Hslot Hddr. destruct (bin_range _ _ _ _ _ _ Ht Hsz) as [Hu Hf].
  pose proof (ok_hdr_limit E HE) as Hlim. unfold hdr_slot. wp_steps. cbn [st_hdr_tbl].
  destruct (lookup_lt_is_Some_2 (t_free_offset_list ht) (Z.to_nat bin) Hf) as [free Hfree].
  eapply wp_of_option.
  { rewrite <- (Z2Nat.id bin) by done. by rewrite lookup_z_nat. }
  cbn beta. fold (hdr_limit E). destruct free as [|o l].
  - rewrite (room_exact _ _ _ bin size _ hdr_sizes Ht); [|lia|done|].
    2: { destruct (Z.to_nat bin) as [|[|[|[|[|?]]]]]; [by simplify_eq/=..|done]. }
    destruct (Z.ltb_spec (hdr_limit E) (t_end ht + size)).
    + destruct (Z.eqb_spec (ipa_hw_type E) IPA_HW_v2_5); cbn [negb]; [|wp_steps; apply Hno].
      wp_step. apply wp_ask. destruct (env_map E _) as [phys|]; [|wp_steps; apply Hno].
      wp_step. eapply wp_hdr_at; [done|]. unfold put_hdr. wp_steps. cbn. by apply Hddr.
    + wp_step. apply wp_ask. destruct (env_alloc E _); cbn [negb]; [|wp_steps; apply Hno].
      wp_step. apply wp_grow_slot; [done..|]. intros o Ho. wp_step.
      eapply wp_upd_hdr; [done|]. wp_steps. cbn.
      eapply Hslot; cbn; [|done|done|by rewrite lookup_insert_eq|done].
      apply (gives_grow _ _ _ hdr_sizes hdr_limit_u32); done.
  - destruct (so_on _ _ _ _ Ht (Z.to_nat bin) o) as (oe & He & _); [right; eexists; split; [done|set_solver]|].
    wp_step. eapply wp_reuse_slot; [done..|]. wp_step. eapply wp_upd_hdr; [done|]. wp_steps. cbn.
    destruct (gives_reuse _ _ _ hdr_sizes hdr_limit_u32 o l bin size user ht oe) as [Hg Hbin]; [done..|].
    eapply Hslot; cbn; [exact Hg|done|done|by rewrite lookup_insert_eq|done].
Qed.

End State.

(** ** A processing context *)

(** A successful call: the new context [q] of header [h], and the reference it takes. *)
Record added_ctx (a a' : ipa_hdr_proc_ctx_add) (add_ref user : bool) s s'
    (q h : positive) (o : positive) (e : ipa_hdr_entry) : Prop := {
  ac_hdl : st_idr s !! pc_hdr_hdl a = Some (IdHdr h);
  ac_hdr : st_hdrs s !! h = Some e;
  ac_fresh : st_ctxs s !! q = None;
  ac_id : st_idr s !! pc_proc_ctx_hdl a' = None;
  ac_arg : a' = mkCtxAdd (pc_type a) (pc_hdr_hdl a) (pc_proc_ctx_hdl a') (pc_status a);
  ac_ctxs : st_ctxs s' = <[q := mkCtx IPA_PROC_HDR_COOKIE (pc_type a) (Some o) h 1
                               (pc_proc_ctx_hdl a') false user]> (st_ctxs s);
  ac_hdrs : st_hdrs s' = if add_ref then <[h := hdr_with_refs (h_ref_cnt e + 1) e]> (st_hdrs s)
                         else st_hdrs s;
  ac_idr : st_idr s' = <[pc_proc_ctx_hdl a' := IdCtx q]> (st_idr s);
  ac_hdr_tbl : st_hdr_tbl s' = st_hdr_tbl s;
  ac_entries : t_entry_list (st_ctx_tbl s') = q :: t_entry_list (st_ctx_tbl s);
  ac_maps : st_maps s' = st_maps s;
  ac_bufs : st_bufs s' = st_bufs s;
  ac_hdr_mem : st_hdr_mem s' = st_hdr_mem s;
  ac_ctx_mem : st_ctx_mem s' = st_ctx_mem s;
  ac_sent : st_sent s' = st_sent s;
}.

(** The header has a reference for the new context. *)
Definition ref_free s (hdl : Z) (add_ref : bool) : Prop :=
  ∀ h e, st_idr s !! hdl = Some (IdHdr h) → st_hdrs s !! h = Some e →
    if add_ref then h_ref_cnt e + 1 < 2 ^ 32 else ctx_refs ∅ h e (st_ctxs s) + 1 ≤ h_ref_cnt e.

Lemma hdr_refs_id e : hdr_with_refs (h_ref_cnt e) e = e.
Proof. by destruct e. Qed.

Lemma first_ctx_bin type :
  first_bin ipa_hdr_proc_ctx_bin_sz
    (if type =? IPA_HDR_PROC_NONE then sizeof_add_hdr_seq else sizeof_add_hdr_cmd_seq) 0 = Some (0, 32).
Proof. by destruct (type =? IPA_HDR_PROC_NONE). Qed.

(** Taking the reference, and giving it back. *)
Lemma wp_ref_take (add_ref : bool) h e (Q : () → hdr_state → Prop) s :
  st_hdrs s !! h = Some e → (add_ref = true → 0 ≤ h_ref_cnt e ∧ h_ref_cnt e + 1 < 2 ^ 32) →
  Q () (with_hdrs (if add_ref then <[h := hdr_with_refs (h_ref_cnt e + 1) e]> (st_hdrs s)
                   else st_hdrs s) s) →
  wp (when add_ref (upd_hdr h (λ e, hdr_with_refs (u32 (h_ref_cnt e + 1)) e))) Q s.
Proof.
  intros Hh Hr HQ. destruct add_ref; cbn [when].
  - eapply wp_upd_hdr; [done|]. by rewrite u32_small by (specialize (Hr eq_refl); lia).
  - apply wp_ret. by destruct s.
Qed.

Lemma wp_bad_ctx (add_ref : bool) p h e c hd (Q : () → hdr_state → Prop) s :
  st_ctxs s !! p = Some c → hd !! h = Some e → 0 ≤ h_ref_cnt e < 2 ^ 32 →
  st_hdrs s = (if add_ref then <[h := hdr_with_refs (h_ref_cnt e + 1) e]> hd else hd) →
  Q () (with_ctxs (delete p (st_ctxs s)) (with_hdrs hd s)) →
  wp (bad_ctx p h add_ref) Q s.
Proof.
  intros Hp Hh Hr Hs HQ. unfold bad_ctx. wp_step. destruct add_ref; cbn [when].
  - eapply wp_upd_hdr; [by rewrite Hs, lookup_insert_eq|]. eapply wp_free_ctx; [done|].
    cbn. rewrite Hs, insert_insert_eq. cbn. rewrite u32_small by lia.
    replace (h_ref_cnt e + 1 - 1) with (h_ref_cnt e) by lia.
    replace (<[h := _]> hd) with hd; [done|]. symmetry. apply insert_id. by rewrite Hh; destruct e.
  - apply wp_ret. eapply wp_free_ctx; [done|]. rewrite <- Hs in HQ. by destruct s.
Qed.

(** The references of a header change, and nothing else. *)
Lemma inv_ref D H s h e r :
  inv E D H s → st_hdrs s !! h = Some e → 1 ≤ r < 2 ^ 32 → ctx_refs D h e (st_ctxs s) ≤ r →
  inv E D H (with_hdrs (<[h := hdr_with_refs r e]> (st_hdrs s)) s).
Proof.
  intros Hi Hh Hr Hrefs. apply (inv_set_hdr E D H H s _ h e (hdr_with_refs r e)); try done.
  - by left.
  - apply (mem_ok_eq s); try done. by destruct Hi.
Qed.

Lemma inv_add_ref (add_ref : bool) D H s h e :
  inv E D H s → st_hdrs s !! h = Some e → (add_ref = true → h_ref_cnt e + 1 < 2 ^ 32) →
  inv E D H (with_hdrs (if add_ref then <[h := hdr_with_refs (h_ref_cnt e + 1) e]> (st_hdrs s)
                        else st_hdrs s) s).
Proof.
  intros Hi Hh Hr. destruct add_ref; [|by destruct s].
  pose proof (i_hdrs _ _ _ _ Hi h e Hh) as [_ _ _ _ Hr1 Hr2 _]. specialize (Hr eq_refl).
  apply inv_ref; [done..|lia|lia].
Qed.

Lemma wp_add_ctx H s a add_ref user (Q : Z * ipa_hdr_proc_ctx_add → hdr_state → Prop) :
  inv E ∅ H s → ref_free s (pc_hdr_hdl a) add_ref →
  (∀ rc s', rc ≠ 0 → inv E ∅ H s' → unchanged E s s' → st_hdr_tbl s' = st_hdr_tbl s → Q (rc, a) s') →
  (∀ a' s' q h o e, inv E ∅ H s' → added_ctx a a' add_ref user s s' q h o e → Q (0, a') s') →
  wp (__ipa_add_hdr_proc_ctx E a add_ref user) Q s.
Proof.
  intros Hi Hrf Hbad Hok. destruct s as [hd cx ht ct im mp bf hm cm se n].
  assert (∀ rc t' n', rc ≠ 0 → same_tbl ipa_hdr_proc_ctx_bin_sz 32 (ctx_limit E) ct t' →
    Q (rc, a) (mkSt hd cx ht t' im mp bf hm cm se n')) as Hfail.
  { intros rc t' n' Hrc Ht'. assert (unchanged E (mkSt hd cx ht ct im mp bf hm cm se n)
      (mkSt hd cx ht t' im mp bf hm cm se n')) as Hun.
    { constructor; try done. apply same_tbl_refl. by destruct Hi. }
    apply Hbad; [done| |done|done]. by eapply unchanged_inv. }
  assert (same_tbl ipa_hdr_proc_ctx_bin_sz 32 (ctx_limit E) ct ct) as Hsame
    by (apply same_tbl_refl; by destruct Hi).
  unfold __ipa_add_hdr_proc_ctx.
  destruct ((pc_type a <? 0) || (IPA_HDR_PROC_MAX <=? pc_type a)); [wp_steps; by apply Hfail|].
  wp_step. eapply wp_find_hdr; [done| |intros _; wp_steps; by apply Hfail].
  fields. intros h e Hidh Hh Hhid. wp_step. apply wp_ask. fields.
  destruct (env_alloc E _); cbn [negb]; [|wp_steps; by apply Hfail].
  unfold new_ctx, put_ctx. wp_steps. fields.
  assert (cx !! fresh (dom cx) = None) as Hq by (apply not_elem_of_dom, is_fresh).
  remember (fresh (dom cx)) as q eqn:Hqf. clear Hqf.
  pose proof (i_hdrs _ _ _ _ Hi h e Hh) as Hhok. pose proof (ho_ref _ _ _ _ _ Hhok) as Hr.
  pose proof (Hrf h e Hidh Hh) as Hrf'. cbn in Hrf'.
  apply (wp_ref_take add_ref h e); fields; [done|by destruct add_ref; [lia|]|].
  rewrite first_ctx_bin. wp_step.
  assert (slots_ok ipa_hdr_proc_ctx_bin_sz 32 (ctx_limit E) ct) as Hct by (by destruct Hi).
  apply wp_ctx_slot; [done|done|done| |].
  - (* no slot *)
    intros n'. wp_step. eapply (wp_bad_ctx add_ref q h e _ hd); fields; [by rewrite lookup_insert_eq|done|lia|done|].
    wp_steps. rewrite delete_insert_id by done. by apply Hfail.
  - intros o t' oe n' Hg El En Hoe Hbin. wp_step. eapply wp_upd_ctx; fields; [by rewrite lookup_insert_eq|].
    unfold add_entry, upd_tbl. wp_steps. fields.
    apply wp_id_alloc; [done|intros id Hid|intros id Hid Hnid]; fields.
    + (* no handle *)
      rewrite (proj2 (Z.ltb_lt id 0)) by done. wp_step.
      pose proof Hg as [Ht' _].
      destruct (so_bin _ _ _ t' o oe Ht' Hoe) as (_ & Hb0 & Hb).
      eapply wp_release_slot; fields; cbn; [done|done|by rewrite (so_free _ _ _ t' Ht')|].
      wp_step. eapply wp_upd_ctx; fields; [by rewrite lookup_insert_eq|].
      unfold del_entry, upd_tbl. wp_steps. fields.
      eapply (wp_bad_ctx add_ref q h e _ hd); fields; [by rewrite lookup_insert_eq|done|lia|done|].
      wp_steps. rewrite !insert_insert_eq, delete_insert_id by done. apply Hfail; [done|].
      eapply (same_tbl_undo _ _ _ ctx_sizes cx); try done. by destruct Hi.
    + rewrite (proj2 (Z.ltb_ge id 0)) by done. wp_step.
      eapply wp_upd_ctx; fields; [by rewrite lookup_insert_eq|]. wp_steps.
      rewrite !insert_insert_eq. apply (Hok _ _ q h o e); [|constructor; fields; try done; cbn; by rewrite El].
      assert (slot_size ipa_hdr_proc_ctx_bin_sz oe = 32) as Hss by (unfold slot_size; by rewrite Hbin).
      assert (inv E ∅ H (mkSt (if add_ref then <[h:=hdr_with_refs (h_ref_cnt e + 1) e]> hd else hd)
        cx ht ct im mp bf hm cm se n)) as Hi'.
      { apply (inv_add_ref add_ref ∅ H (mkSt hd cx ht ct im mp bf hm cm se n) h e); [done..|]. by intros ->. }
      apply (inv_add_ctx E ∅ H _ _ q (mkCtx IPA_PROC_HDR_COOKIE (pc_type a) (Some o) h 1 id false user) Hi');
        fields; try done.
      * by apply (not_own_fresh E ∅ H _ q Hi').
      * by apply gives_entries.
      * cbn. by rewrite El.
      * cbn. by rewrite En.
      * apply (mem_ok_eq (mkSt hd cx ht ct im mp bf hm cm se n)); try done. by destruct Hi.
      * cbn [c_hdr]. intros e' He'. pose proof (ho_refs _ _ _ _ _ Hhok) as Hrefs. fields.
        destruct add_ref; [|by simplify_eq]. rewrite lookup_insert_eq in He'. injection He' as <-.
        rewrite (ctx_refs_proc_ctx _ _ e) by done. cbn. lia.
      * constructor; [done| | |intros _; split; [|done]]; fields.
        -- by rewrite lookup_insert_eq.
        -- exists o, oe. by rewrite Hss.
        -- cbn. destruct add_ref; [by rewrite lookup_insert_eq|eauto].
Qed.

(** ** A header *)

Lemma first_bin_fits sizes len b bin size :
  first_bin sizes len b = Some (bin, size) →
  b ≤ bin ∧ sizes !! Z.to_nat (bin - b) = Some size ∧ len ≤ size.
Proof.
  revert b. induction sizes as [|sz sizes IH]; intros b; cbn [first_bin]; [done|].
  destruct (Z.leb_spec len sz).
  - intros [= <- <-]. rewrite Z.sub_diag. split; [lia|done].
  - intros (Hb & Hl & Hs)%IH. split; [lia|]. split; [|done].
    replace (Z.to_nat (bin - b)) with (S (Z.to_nat (bin - (b + 1)))) by lia. done.
Qed.

(** The new entry with its handle and its place. *)
Definition new_entry (a : ipa_hdr_add) (user : bool) (hdl : Z) (ddr : bool) (phys : Z)
    (ctx off : option positive) : ipa_hdr_entry :=
  mkHdr IPA_HDR_COOKIE
    (take (Z.to_nat (a_hdr_len a)) (a_hdr a) ++ zeros (IPA_HDR_MAX_SIZE - a_hdr_len a))
    (a_hdr_len a) (name_of (a_name a)) (a_type a) (a_is_partial a) ddr phys ctx off 1 hdl
    (a_is_eth2_ofst_valid a) (a_eth2_ofst a) false user.

Record added_hdr (a a' : ipa_hdr_add) (user : bool) s s' (p : positive) (e : ipa_hdr_entry) : Prop := {
  ah_arg : a' = add_with_hdl (a_hdr_hdl a') a;
  ah_fresh : st_hdrs s !! p = None;
  ah_id : st_idr s !! a_hdr_hdl a' = None;
  ah_entry : ∃ ddr phys ctx off, e = new_entry a user (a_hdr_hdl a') ddr phys ctx off;
  ah_hdrs : st_hdrs s' = <[p := e]> (st_hdrs s);
  ah_idr : st_idr s' !! a_hdr_hdl a' = Some (IdHdr p);
  ah_ids : ∀ id i, st_idr s !! id = Some i → st_idr s' !! id = Some i;
  ah_ctxs : ∀ q c, st_ctxs s !! q = Some c → st_ctxs s' !! q = Some c;
  ah_new_ctxs : ∀ q c, st_ctxs s' !! q = Some c → st_ctxs s !! q = Some c ∨ c_hdr c = p;
  ah_entries : t_entry_list (st_hdr_tbl s') = p :: t_entry_list (st_hdr_tbl s);
  ah_bufs : st_bufs s' = st_bufs s;
  ah_hdr_mem : st_hdr_mem s' = st_hdr_mem s;
  ah_ctx_mem : st_ctx_mem s' = st_ctx_mem s;
  ah_sent : st_sent s' = st_sent s;
}.

(** A header with the default's name is small and has a place in the table. *)
Definition lan_fits s (a : ipa_hdr_add) : Prop :=
  name_of (a_name a) = IPA_LAN_RX_HDR_NAME →
  a_hdr_len a ≤ 8 ∧ (ipa_hw_type E ≠ IPA_HW_v2_5 ∨ t_end (st_hdr_tbl s) + 8 ≤ hdr_limit E ∨
                     t_free_offset_list (st_hdr_tbl s) !! 0%nat ≠ Some []).

Section Failed.
Context (hd : gmap positive ipa_hdr_entry) (cx : gmap positive ipa_hdr_proc_ctx_entry).
Context (ht ct : ipa_hdr_tbl) (im : gmap Z id_ptr) (mp : gmap positive (Z * Z)).
Context (bf : gmap Z (list Z)) (hm cm : ipa_mem_buffer).
Context (se : list (list imm_cmd * gmap Z (list Z) * Z)) (n : nat).
Context (p : positive) (e : ipa_hdr_entry).
Context (Hp : hd !! p = None) (Hl : listed hd ht).
Context (Ht : slots_ok ipa_hdr_bin_sz 4 (hdr_limit E) ht).

(** A header that fails to get its handle gives back its slot, or its mapping. *)
Lemma wp_failed_slot o oe t' (Q : () → hdr_state → Prop) :
  h_is_hdr_proc_ctx e = false → h_offset_entry e = Some o →
  gives ipa_hdr_bin_sz 4 (hdr_limit E) ht t' (Some o) →
  t_entry_list t' = t_entry_list ht → t_cnt t' = t_cnt ht → t_offs t' !! o = Some oe →
  (∀ t2, same_tbl ipa_hdr_bin_sz 4 (hdr_limit E) ht t2 →
     Q () (mkSt hd cx t2 ct im mp bf hm cm se n)) →
  wp (hdr_insert_failed p) Q
    (mkSt (<[p := e]> hd) cx (tbl_with_entries (p :: t_entry_list t') (u32 (t_cnt t' + 1)) t') ct im mp
       bf hm cm se n).
Proof using E HE Hp Hl Ht.
  intros Hd Ho Hg El En Hoe HQ. unfold hdr_insert_failed. wp_step.
  eapply wp_hdr_at; [fields; by rewrite lookup_insert_eq|]. rewrite Hd, Ho.
  pose proof Hg as [Ht' _]. destruct (so_bin _ _ _ t' o oe Ht' Hoe) as (_ & Hb0 & Hb). do 2 wp_step.
  eapply wp_release_slot; fields; cbn; [done|done|by rewrite (so_free _ _ _ t' Ht')|].
  eapply wp_upd_hdr; fields; [by rewrite lookup_insert_eq|]. unfold del_entry, upd_tbl. wp_steps. fields.
  eapply wp_free_hdr; fields; [by rewrite lookup_insert_eq|].
  rewrite insert_insert_eq, delete_insert_id by done. apply HQ.
  eapply (same_tbl_undo _ _ _ hdr_sizes hd); done.
Qed.

Lemma wp_failed_ddr phys (Q : () → hdr_state → Prop) :
  h_is_hdr_proc_ctx e = true → h_phys_base e = phys → mp !! p = None →
  (∀ t2, same_tbl ipa_hdr_bin_sz 4 (hdr_limit E) ht t2 →
     Q () (mkSt hd cx t2 ct im mp bf hm cm se n)) →
  wp (hdr_insert_failed p) Q
    (mkSt (<[p := e]> hd) cx (tbl_with_entries (p :: t_entry_list ht) (u32 (t_cnt ht + 1)) ht) ct im
       (<[p := (phys, h_hdr_len e)]> mp) bf hm cm se n).
Proof using E HE Hp Hl Ht.
  intros Hd Hph Hmp HQ. unfold hdr_insert_failed. wp_step.
  eapply wp_hdr_at; [fields; by rewrite lookup_insert_eq|]. rewrite Hd. wp_step.
  unfold unmap_hdr. wp_step. eapply wp_hdr_at; [fields; by rewrite lookup_insert_eq|]. wp_steps. fields.
  eapply wp_of_option; [by rewrite lookup_insert_eq|]. rewrite bool_decide_true by (by rewrite Hph).
  unfold del_entry, upd_tbl. wp_steps. fields.
  eapply wp_free_hdr; fields; [by rewrite lookup_insert_eq|].
  rewrite !delete_insert_id by done. apply HQ.
  by apply (same_tbl_undo_none _ _ _ hdr_sizes hd).
Qed.

End Failed.

Lemma not_mapped D H s p : inv E D H s → st_hdrs s !! p = None → st_maps s !! p = None.
Proof.
  intros Hi Hp. destruct (st_maps s !! p) as [m|] eqn:Hm; [|done].
  destruct (i_maps _ _ _ _ Hi p m Hm) as (e & He & _). by rewrite Hp in He.
Qed.

(** The entry of a new header that is small enough and has a handle. *)
Lemma new_entry_ok D H s a user id p ddr phys off :
  length (a_hdr a) = 64%nat → 1 ≤ a_hdr_len a ≤ 60 → st_idr s !! id = Some (IdHdr p) →
  ctx_refs D p (new_entry a user id ddr phys None off) (st_ctxs s) = 0 →
  (if ddr then in_ddr D H s p (new_entry a user id ddr phys None off)
   else in_table s p (new_entry a user id ddr phys None off)) →
  hdr_ok D H s p (new_entry a user id ddr phys None off).
Proof.
  intros Hlen Hl Hid Hrefs Hpl. constructor; try done.
  - cbn. rewrite length_app, length_take. unfold zeros. rewrite length_replicate.
    unfold IPA_HDR_MAX_SIZE. lia.
  - cbn. lia.
Qed.

Section NewHdr.
Context (hd : gmap positive ipa_hdr_entry) (cx : gmap positive ipa_hdr_proc_ctx_entry).
Context (ht ct : ipa_hdr_tbl) (im : gmap Z id_ptr) (mp : gmap positive (Z * Z)).
Context (bf : gmap Z (list Z)) (hm cm : ipa_mem_buffer).
Context (se : list (list imm_cmd * gmap Z (list Z) * Z)) (n n' : nat).
Context (Hi : inv E ∅ ∅ (mkSt hd cx ht ct im mp bf hm cm se n)).
Context (a : ipa_hdr_add) (user : bool) (id : Z) (p : positive).
Context (Hlen : length (a_hdr a) = 64%nat) (Hl : 1 ≤ a_hdr_len a ≤ 60).
Context (Hid : im !! id = None) (Hp : hd !! p = None).

Lemma mem_new : mem_ok (mkSt hd cx ht ct im mp bf hm cm se n).
Proof using Hi. by destruct Hi. Qed.

(** With a slot. *)
Lemma inv_new_slot t' o oe :
  gives ipa_hdr_bin_sz 4 (hdr_limit E) ht t' (Some o) → t_entry_list t' = t_entry_list ht →
  t_cnt t' = t_cnt ht → t_offs t' !! o = Some oe → a_hdr_len a ≤ slot_size ipa_hdr_bin_sz oe →
  (name_of (a_name a) = IPA_LAN_RX_HDR_NAME → o_bin oe = 0) →
  inv E ∅ ∅ (mkSt (<[p := new_entry a user id false 0 None (Some o)]> hd) cx
               (tbl_with_entries (p :: t_entry_list t') (u32 (t_cnt t' + 1)) t') ct
               (<[id := IdHdr p]> im) mp bf hm cm se n').
Proof using E HE Hi Hid Hl Hlen Hp.
  intros Hg El En Hoe Hsz Hlan. pose proof (not_mapped _ _ _ p Hi Hp) as Hmp. fields.
  apply (inv_add_hdr E ∅ ∅ ∅ _ _ p (new_entry a user id false 0 None (Some o)) Hi); fields; try done.
  - by apply gives_entries.
  - cbn. by rewrite El.
  - cbn. by rewrite En.
  - by apply (mem_ok_eq _ _ eq_refl eq_refl eq_refl mem_new).
  - by rewrite Hmp.
  - intros Hrefs. apply new_entry_ok; fields; [done|done|by rewrite lookup_insert_eq|done|].
    split_and!; [done|done|]. exists o, oe. done.
Qed.

(** In memory of its own; its processing context is still missing. *)
Lemma inv_new_ddr phys :
  name_of (a_name a) ≠ IPA_LAN_RX_HDR_NAME →
  inv E ∅ {[p]} (mkSt (<[p := new_entry a user id true phys None None]> hd) cx
               (tbl_with_entries (p :: t_entry_list ht) (u32 (t_cnt ht + 1)) ht) ct
               (<[id := IdHdr p]> im) (<[p := (phys, a_hdr_len a)]> mp) bf hm cm se n').
Proof using E HE Hi Hid Hl Hlen Hp.
  intros Hlan.
  apply (inv_add_hdr E ∅ ∅ {[p]} _ _ p (new_entry a user id true phys None None) Hi); fields; try done.
  - apply gives_entries. split; [by destruct Hi|]. done.
  - intros p' Hne. by rewrite lookup_insert_ne.
  - by apply (mem_ok_eq _ _ eq_refl eq_refl eq_refl mem_new).
  - intros Hrefs. apply new_entry_ok; fields; [done|done|by rewrite lookup_insert_eq|done|].
    split_and!; [done|fields; by rewrite lookup_insert_eq|done|]. left. split; [set_solver|done].
Qed.

End NewHdr.

(** The header in memory gets its processing context, or is removed again. *)
Lemma wp_add_own_ctx hd cx ht ct im mp bf hm cm se n n1 a user id p phys
    (Q : Z * ipa_hdr_add → hdr_state → Prop) :
  let s := mkSt hd cx ht ct im mp bf hm cm se n in
  inv E ∅ ∅ s → length (a_hdr a) = 64%nat → 1 ≤ a_hdr_len a ≤ 60 → im !! id = None → hd !! p = None →
  name_of (a_name a) ≠ IPA_LAN_RX_HDR_NAME →
  (∀ rc a' s', rc ≠ 0 → inv E ∅ ∅ s' → unchanged E s s' → Q (rc, a') s') →
  (∀ a' s' e, inv E ∅ ∅ s' → added_hdr a a' user s s' p e → Q (0, a') s') →
  wp ('(rc, c) ← __ipa_add_hdr_proc_ctx E (mkCtxAdd IPA_HDR_PROC_NONE id 0 0) false user;
      if negb (rc =? 0) then
        upd_hdr p (λ e, hdr_with_refs (u32 (h_ref_cnt e - 1)) e) ;;
        ipa_id_remove id ;;
        hdr_insert_failed p ;;
        mret (-EPERM, add_with_hdl 0 a)
      else
        i ← ipa_id_find (pc_proc_ctx_hdl c);
        match i with
        | Some (IdCtx q) => upd_hdr p (hdr_with_ctx (Some q)) ;; mret (0, add_with_hdl id a)
        | None => upd_hdr p (hdr_with_ctx None) ;; mret (0, add_with_hdl id a)
        | _ => UB
        end) Q
    (mkSt (<[p := new_entry a user id true phys None None]> hd) cx
       (tbl_with_entries (p :: t_entry_list ht) (u32 (t_cnt ht + 1)) ht) ct (<[id := IdHdr p]> im)
       (<[p := (phys, a_hdr_len a)]> mp) bf hm cm se n1).
Proof.
  intros s Hi Hlen Hl Hid Hp Hlan Hbad Hok.
  pose proof (inv_new_ddr hd cx ht ct im mp bf hm cm se n n1 Hi a user id p Hlen Hl Hid Hp phys Hlan) as Hi1.
  pose proof (not_mapped _ _ _ p Hi Hp) as Hmp. subst s. fields.
  assert (ctx_refs ∅ p (new_entry a user id true phys None None) cx = 0) as Hno.
  { apply ctx_refs_none. intros [q c] Hc (Hcp & _ & _). cbn in *.
    destruct (co_live _ _ _ _ (i_ctxs _ _ _ _ Hi q c Hc)) as [[e He] _]; [set_solver|]. fields.
    by rewrite Hcp, Hp in He. }
  wp_step. eapply wp_add_ctx; [done| | |].
  - intros h e Hh He. fields. cbn in Hh. rewrite lookup_insert_eq in Hh. simplify_eq.
    rewrite lookup_insert_eq in He. simplify_eq. rewrite Hno. done.
  - (* no processing context *)
    intros rc [hd' cx' ht' ct' im' mp' bf' hm' cm' se' n'] Hrc _ [U1 U2 U3 U4 U5 U6 U7 U8 _ U10] U9.
    fields. subst. destruct (Z.eqb_spec rc 0); [done|]. cbn [negb].
    wp_step. eapply wp_upd_hdr; fields; [by rewrite lookup_insert_eq|]. unfold ipa_id_remove. wp_steps. fields.
    rewrite insert_insert_eq, delete_insert_id by done.
    apply wp_failed_ddr; [done|by destruct Hi|by destruct Hi|done|done|done|].
    intros t2 Ht2. wp_steps. assert (unchanged E (mkSt hd cx ht ct im mp bf hm cm se n)
      (mkSt hd cx t2 ct' im mp bf hm cm se n')) as Hun by done.
    apply Hbad; [done| |done]. by eapply unchanged_inv.
  - intros a' [hd' cx' ht' ct' im' mp' bf' hm' cm' se' n'] q h o e Hi2
      [A1 A2 A3 A4 _ A6 A7 A8 A9 _ A11 A12 A13 A14 A15].
    fields. cbn [pc_hdr_hdl pc_type] in *. rewrite lookup_insert_eq in A1. injection A1 as <-. subst.
    assert (pc_proc_ctx_hdl a' ≠ id) as Hne.
    { intros Heq. by rewrite Heq, lookup_insert_eq in A4. }
    rewrite lookup_insert_ne in A4 by done.
    cbn [negb Z.eqb]. unfold ipa_id_find. wp_steps. fields. rewrite lookup_insert_eq. wp_step.
    eapply wp_upd_hdr; fields; [by rewrite lookup_insert_eq|]. wp_steps. rewrite insert_insert_eq.
    apply (Hok _ _ (new_entry a user id true phys (Some q) None)).
    + eapply (inv_set_hdr E ∅ {[p]} ∅ _ _ p _ (new_entry a user id true phys (Some q) None) Hi2); fields; cbn;
        [by rewrite lookup_insert_eq|done|done| |set_solver| |by rewrite insert_insert_eq|done..|].
      * rewrite ctx_refs_insert_other; [|done|by intros (_ & _ & ?)].
        replace (ctx_refs ∅ p _ cx) with 0; [done|]. symmetry. apply ctx_refs_none.
        intros [q1 c1] Hc1 Hex. apply (ctx_refs_zero _ _ _ _ (q1, c1) Hno Hc1).
        destruct Hex as (? & ? & _). by split_and!.
      * right. split; [done|]. eexists _, _. split; [done|]. rewrite lookup_insert_eq. done.
      * apply (mem_ok_eq (mkSt hd cx ht ct im mp bf hm cm se n)); try done. by destruct Hi.
    + constructor; fields; cbn; try done.
      * by eauto.
      * rewrite lookup_insert_ne by done. by rewrite lookup_insert_eq.
      * intros id' i Hi'. rewrite !lookup_insert_ne; [done|congruence|congruence].
      * intros q' c' Hc'. rewrite lookup_insert_ne; [done|congruence].
      * intros q' c' Hc'. destruct (decide (q' = q)) as [->|Hq'].
        -- rewrite lookup_insert_eq in Hc'. simplify_eq. by right.
        -- rewrite lookup_insert_ne in Hc' by done. by left.
Qed.

(** A slot of the bin is large enough; the default header has the first bin. *)
Lemma bin_of_len len bin size oe :
  first_bin ipa_hdr_bin_sz len 0 = Some (bin, size) → o_bin oe = bin →
  0 ≤ bin ∧ ipa_hdr_bin_sz !! Z.to_nat bin = Some size ∧ len ≤ 60 ∧
  slot_size ipa_hdr_bin_sz oe = size ∧ len ≤ size ∧ (len ≤ 8 → bin = 0).
Proof.
  intros Hf Hoe. destruct (first_bin_fits _ _ _ _ _ Hf) as (Hb & Hsz & Hle). rewrite Z.sub_0_r in Hsz.
  split_and!; try done.
  - assert (size ≤ 60) as H60; [|lia].
    destruct (Z.to_nat bin) as [|[|[|[|[|?]]]]]; cbn in Hsz; [injection Hsz as <-; lia..|done].
  - unfold slot_size. rewrite Hoe, <- (Z2Nat.id bin), lookup_z_nat by done. by rewrite Hsz.
  - intros H8. cbn [first_bin ipa_hdr_bin_sz] in Hf. rewrite (proj2 (Z.leb_le len 8)) in Hf by done. congruence.
Qed.

Lemma wp_add_hdr s a user (Q : Z * ipa_hdr_add → hdr_state → Prop) :
  inv E ∅ ∅ s → length (a_hdr a) = 64%nat → 0 ≤ a_hdr_len a → lan_fits s a →
  (∀ rc a' s', rc ≠ 0 → inv E ∅ ∅ s' → unchanged E s s' → Q (rc, a') s') →
  (∀ a' s' p e, inv E ∅ ∅ s' → added_hdr a a' user s s' p e → Q (0, a') s') →
  wp (__ipa_add_hdr E a user) Q s.
Proof.
  intros Hi Hlen Hl0 Hlan Hbad Hok. destruct s as [hd cx ht ct im mp bf hm cm se n].
  assert (same_tbl ipa_hdr_bin_sz 4 (hdr_limit E) ht ht) as Hst by (apply same_tbl_refl; by destruct Hi).
  assert (∀ rc a' t' n', rc ≠ 0 → same_tbl ipa_hdr_bin_sz 4 (hdr_limit E) ht t' →
    Q (rc, a') (mkSt hd cx t' ct im mp bf hm cm se n')) as Hfail.
  { intros rc a' t' n' Hrc Ht'. assert (unchanged E (mkSt hd cx ht ct im mp bf hm cm se n)
      (mkSt hd cx t' ct im mp bf hm cm se n')) as Hun.
    { constructor; try done. apply same_tbl_refl. by destruct Hi. }
    apply Hbad; [done| |done]. by eapply unchanged_inv. }
  unfold __ipa_add_hdr.
  destruct (Z.eqb_spec (a_hdr_len a) 0) as [|Hn0]; [wp_steps; by apply Hfail|].
  destruct (IPA_HDR_MAX_SIZE <? a_hdr_len a); [wp_steps; by apply Hfail|]. cbn [orb].
  destruct ((a_type a <? 0) || (IPA_HDR_L2_MAX <=? a_type a)); [wp_steps; by apply Hfail|].
  wp_step. apply wp_ask. fields. destruct (env_alloc E _); cbn [negb]; [|wp_steps; by apply Hfail].
  unfold new_hdr, put_hdr. wp_steps. fields.
  assert (hd !! fresh (dom hd) = None) as Hp by (apply not_elem_of_dom, is_fresh).
  remember (fresh (dom hd)) as p eqn:Hpf. clear Hpf.
  assert (slots_ok ipa_hdr_bin_sz 4 (hdr_limit E) ht) as Ht by (by destruct Hi).
  assert (listed hd ht) as Hli by (by destruct Hi).
  destruct (first_bin ipa_hdr_bin_sz (a_hdr_len a) 0) as [[bin size]|] eqn:Hbin.
  2: { wp_step. eapply wp_free_hdr; fields; [by rewrite lookup_insert_eq|]. wp_steps.
       rewrite delete_insert_id by done. by apply Hfail. }
  destruct (bin_of_len _ _ _ (mkOff 0 bin false) Hbin eq_refl) as (Hb0 & Hsz & H60 & _ & _ & Hb8).
  wp_step. apply (wp_hdr_slot _ _ _ _ _ _ _ _ _ _ _ _ (entry_of a user) bin size user); fields;
    [done|done|done|by rewrite lookup_insert_eq| | |].
  - intros n'. cbn [negb]. wp_step. eapply wp_free_hdr; fields; [by rewrite lookup_insert_eq|]. wp_steps.
    rewrite delete_insert_id by done. by apply Hfail.
  - (* a slot *)
    intros o t' oe n' Hg El En Hoe Hobin. cbn [negb]. rewrite insert_insert_eq.
    destruct (bin_of_len _ _ _ oe Hbin Hobin) as (_ & _ & _ & Hss & Hle & _).
    unfold add_entry, upd_tbl. wp_steps. fields. apply wp_id_alloc; [done|intros id Hid|intros id Hid Hnid]; fields.
    + rewrite (proj2 (Z.ltb_lt id 0)) by done. wp_step.
      eapply (wp_failed_slot hd _ ht); [done|done|done|done|done|done|done|done|done|].
      intros t2 Ht2. wp_steps. by apply Hfail.
    + rewrite (proj2 (Z.ltb_ge id 0)) by done. wp_step.
      eapply wp_upd_hdr; fields; [by rewrite lookup_insert_eq|]. wp_step.
      eapply wp_hdr_at; fields; [by rewrite lookup_insert_eq|]. cbn [h_is_hdr_proc_ctx hdr_with_refs hdr_with_id
        hdr_with_offset entry_of]. wp_steps. rewrite insert_insert_eq.
      apply (Hok _ _ p (new_entry a user id false 0 None (Some o))).
      * apply (inv_new_slot hd cx ht ct im mp bf hm cm se n _ Hi a user id p Hlen) with (oe := oe); try done; [lia|lia|].
        intros Hln. destruct (Hlan Hln) as [H8 _]. rewrite Hobin. by apply Hb8.
      * constructor; fields; cbn; try done; [by eauto|by rewrite lookup_insert_eq| | |by rewrite El].
        -- intros id' i Hi'. rewrite lookup_insert_ne; [done|congruence].
        -- by left.
  - (* memory of its own *)
    intros phys n' Hhw Hfull Hfree. cbn [negb]. rewrite insert_insert_eq.
    assert (name_of (a_name a) ≠ IPA_LAN_RX_HDR_NAME) as Hln.
    { intros Hln. destruct (Hlan Hln) as (H8 & Hr). fields. rewrite (Hb8 H8) in Hsz, Hfree.
      injection Hsz as <-. destruct Hr as [?|[?|?]]; [done|lia|done]. }
    unfold add_entry, upd_tbl. wp_steps. fields. apply wp_id_alloc; [done|intros id Hid|intros id Hid Hnid]; fields.
    + rewrite (proj2 (Z.ltb_lt id 0)) by done. wp_step.
      apply (wp_failed_ddr hd cx ht ct im mp bf hm cm se _ p (hdr_with_ddr true phys (entry_of a user)) Hp Hli Ht phys);
        [done|done|by eapply (not_mapped _ _ _ p Hi)|].
      intros t2 Ht2. wp_steps. by apply Hfail.
    + rewrite (proj2 (Z.ltb_ge id 0)) by done. wp_step.
      eapply wp_upd_hdr; fields; [by rewrite lookup_insert_eq|]. wp_step.
      eapply wp_hdr_at; fields; [by rewrite lookup_insert_eq|]. cbn [h_is_hdr_proc_ctx hdr_with_refs hdr_with_id
        hdr_with_ddr entry_of]. rewrite insert_insert_eq.
      apply (wp_add_own_ctx hd cx ht ct im mp bf hm cm se n _ a user id p phys Q Hi); try done; [lia|by eauto].
Qed.

End Add.
