(* ===== verification/HdrDelRuns.v ===== *)
(** * IPA header tables: deleting

    Dropping a reference of a header or of a processing context, and with the last one the
    entry, its slot or mapping and its handle; a processing context drops its header, and a
    header in memory its own processing context. *)

From S2P Require Import Prelude.
From S2P Require Import HdrTypes.
From S2P Require Import Hdr.
From S2P Require Import HdrInv.
From S2P Require Import HdrKeep.
From S2P Require Import HdrAddRuns.

Implicit Types (D H : gset positive) (s : hdr_state).

Section Del.
Context (E : hdr_env).

(** The entry with one reference less. *)
Definition less_hdr (by_user : bool) (e : ipa_hdr_entry) : ipa_hdr_entry :=
  hdr_with_refs (h_ref_cnt e - 1) (if by_user then hdr_with_deleted e else e).
Definition less_ctx (by_user : bool) (c : ipa_hdr_proc_ctx_entry) : ipa_hdr_proc_ctx_entry :=
  ctx_with_refs (c_ref_cnt c - 1) (if by_user then ctx_with_deleted c else c).

(** What a successful call did to header [p] with entry [e]. *)
Record dropped_hdr (by_user : bool) (hdl : Z) s s' (p : positive) (e : ipa_hdr_entry) : Prop := {
  dh_hdl : st_idr s !! hdl = Some (IdHdr p);
  dh_hdr : st_hdrs s !! p = Some e;
  dh_hdrs : st_hdrs s' = if h_ref_cnt e =? 1 then delete p (st_hdrs s)
                         else <[p := less_hdr by_user e]> (st_hdrs s);
  dh_ctxs : st_ctxs s' = match h_proc_ctx e with
                         | Some q => if h_ref_cnt e =? 1 then delete q (st_ctxs s) else st_ctxs s
                         | None => st_ctxs s
                         end;
  dh_ids : ∀ id i, st_idr s' !! id = Some i → st_idr s !! id = Some i;
  dh_other_ids : ∀ id, id ≠ hdl → (∀ q, h_proc_ctx e = Some q → st_idr s !! id ≠ Some (IdCtx q)) →
    st_idr s' !! id = st_idr s !! id;
  dh_gone : h_ref_cnt e = 1 → st_idr s' !! hdl = None;
  dh_bufs : st_bufs s' = st_bufs s;
  dh_hdr_mem : st_hdr_mem s' = st_hdr_mem s;
  dh_ctx_mem : st_ctx_mem s' = st_ctx_mem s;
  dh_sent : st_sent s' = st_sent s;
  dh_time : st_time s' = st_time s;
}.

(** The header has a reference that no processing context holds. *)
Definition spare_ref D s (hdl : Z) : Prop :=
  ∀ p e, st_idr s !! hdl = Some (IdHdr p) → st_hdrs s !! p = Some e →
    ctx_refs D p e (st_ctxs s) < h_ref_cnt e.

Lemma less_u32 r : 1 ≤ r < 2 ^ 32 → u32 (r - 1) = r - 1.
Proof. intros Hr. apply u32_small. lia. Qed.

(** The table takes back the slot of an entry that is removed. *)
Lemma takes_entry sizes align limit t o oe l cnt :
  (∀ b size, sizes !! b = Some size → 0 < size ∧ (align | size)) → slots_ok sizes align limit t → t_offs t !! o = Some oe → o ∈ concat (t_offset_list t) →
  takes sizes align limit t (tbl_with_entries l cnt (tbl_release o (o_bin oe) t)) (Some o).
Proof. intros. by apply takes_entries, takes_release. Qed.

Lemma takes_no_slot sizes align limit t l cnt :
  slots_ok sizes align limit t → takes sizes align limit t (tbl_with_entries l cnt t) None.
Proof. intros Ht. apply takes_entries. by split_and!. Qed.

(** The own processing context of a header in memory. *)
Lemma wp_del_own_ctx hd cx ht ct im mp bf hm cm se n q c o oe (Q : Z → hdr_state → Prop) :
  cx !! q = Some c → im !! c_id c = Some (IdCtx q) → c_cookie c = IPA_PROC_HDR_COOKIE →
  c_ref_cnt c = 1 → c_offset_entry c = Some o → t_offs ct !! o = Some oe → 0 ≤ o_bin oe →
  (Z.to_nat (o_bin oe) < length (t_free_offset_list ct))%nat →
  (let t := tbl_release o (o_bin oe) ct in
   Q 0 (mkSt hd (delete q cx) ht
          (tbl_with_entries (filter (λ x, x ≠ q) (t_entry_list t)) (u32 (t_cnt t - 1)) t)
          (delete (c_id c) im) mp bf hm cm se n)) →
  wp (del_hdr_proc_ctx (λ _, UB) (c_id c) false false) Q (mkSt hd cx ht ct im mp bf hm cm se n).
Proof.
  intros Hq Hid Hck Hr Ho Hoe Hb0 Hb HQ. unfold del_hdr_proc_ctx, find_ctx, ipa_id_find. wp_steps. fields.
  rewrite Hid. cbn [cookie_of]. wp_steps. eapply wp_ctx_at; [done|]. wp_steps. rewrite Hck. cbn [negb Z.eqb].
  rewrite Z.eqb_refl. cbn [negb]. wp_steps. eapply wp_ctx_at; [done|]. rewrite Ho. wp_step.
  eapply wp_off_at; [done|]. cbn [andb when]. wp_steps. eapply wp_upd_ctx; [done|]. wp_step. fields.
  eapply wp_ctx_at; fields; [by rewrite lookup_insert_eq|]. cbn [c_ref_cnt ctx_with_refs c_offset_entry].
  rewrite Hr, Ho. change (u32 (1 - 1) =? 0) with true. cbn [negb when]. wp_steps.
  eapply wp_release_slot; fields; [done|done|done|]. unfold del_entry, upd_tbl. wp_steps. fields.
  eapply wp_free_ctx; fields; [by rewrite lookup_insert_eq|]. unfold ipa_id_remove. wp_steps. fields.
  rewrite delete_insert_eq. exact HQ.
Qed.

Section Last.
Context (hd : gmap positive ipa_hdr_entry) (cx : gmap positive ipa_hdr_proc_ctx_entry).
Context (ht ct : ipa_hdr_tbl) (im : gmap Z id_ptr) (mp : gmap positive (Z * Z)).
Context (bf : gmap Z (list Z)) (hm cm : ipa_mem_buffer).
Context (se : list (list imm_cmd * gmap Z (list Z) * Z)) (n n' : nat) (D : gset positive).
Context (p : positive) (e : ipa_hdr_entry).
Context (Hi : inv E D ∅ (mkSt hd cx ht ct im mp bf hm cm se n)).
Context (Hp : hd !! p = Some e) (Hrefs : ctx_refs D p e cx = 0).

Lemma no_refs q c : cx !! q = Some c → c_hdr c = p → q ∈ D ∨ h_proc_ctx e = Some q.
Proof using Hrefs.
  intros Hc Hcp. destruct (decide (q ∈ D)) as [HD|HD]; [by left|right].
  destruct (decide (h_proc_ctx e = Some q)) as [|Hne]; [done|].
  by destruct (ctx_refs_zero D p e cx (q, c) Hrefs Hc).
Qed.

(** The last reference of a header in the table. *)
Lemma inv_last_slot o oe :
  h_is_hdr_proc_ctx e = false → h_offset_entry e = Some o → t_offs ht !! o = Some oe →
  o ∈ concat (t_offset_list ht) →
  let t := tbl_release o (o_bin oe) ht in
  inv E D ∅ (mkSt (delete p hd) cx
    (tbl_with_entries (filter (λ x, x ≠ p) (t_entry_list t)) (u32 (t_cnt t - 1)) t) ct
    (delete (h_id e) im) mp bf hm cm se n').
Proof using Hi Hp Hrefs.
  intros Hd Ho Hoe Hin t.
  pose proof (ho_place _ _ _ _ _ (i_hdrs _ _ _ _ Hi p e Hp)) as Hpl. rewrite Hd in Hpl.
  destruct Hpl as (Hc & Hm & _). fields.
  assert (own_ctx e = ∅) as Hown by (unfold own_ctx; by rewrite Hc).
  replace D with (D ∪ own_ctx e) by set_solver. replace (∅ : gset positive) with (∅ ∖ {[p]} : gset positive) by set_solver.
  apply (inv_kill_hdr E D ∅ _ _ p e Hi); fields; try done.
  - apply no_refs.
  - rewrite Ho. apply takes_entry; [apply hdr_sizes|by destruct Hi|done|done].
  - by rewrite delete_id.
  - apply (mem_ok_eq (mkSt hd cx ht ct im mp bf hm cm se n)); try done. by destruct Hi.
Qed.

(** The last reference of a header in memory, whose own context goes too. *)
Lemma inv_last_ddr q c o oe :
  h_is_hdr_proc_ctx e = true → h_proc_ctx e = Some q → cx !! q = Some c → q ∉ D →
  c_offset_entry c = Some o → t_offs ct !! o = Some oe → o ∈ concat (t_offset_list ct) →
  let t := tbl_release o (o_bin oe) ct in
  inv E D ∅ (mkSt (delete p hd) (delete q cx)
    (tbl_with_entries (filter (λ x, x ≠ p) (t_entry_list ht)) (u32 (t_cnt ht - 1)) ht)
    (tbl_with_entries (filter (λ x, x ≠ q) (t_entry_list t)) (u32 (t_cnt t - 1)) t)
    (delete (h_id e) (delete (c_id c) im)) (delete p mp) bf hm cm se n').
Proof using Hi Hp Hrefs.
  intros Hd Hpq Hq HqD Ho Hoe Hin t.
  pose proof (ho_place _ _ _ _ _ (i_hdrs _ _ _ _ Hi p e Hp)) as Hpl. rewrite Hd in Hpl.
  destruct Hpl as (Hno & Hm & _). fields.
  assert (own_ctx e = {[q]}) as Hown by (unfold own_ctx; by rewrite Hpq).
  assert (mem_ok (mkSt hd cx ht ct im mp bf hm cm se n)) as Hmem by (by destruct Hi).
  assert (inv E (D ∪ {[q]}) ∅ (mkSt (delete p hd) cx
    (tbl_with_entries (filter (λ x, x ≠ p) (t_entry_list ht)) (u32 (t_cnt ht - 1)) ht) ct
    (delete (h_id e) im) (delete p mp) bf hm cm se n)) as Hi1.
  { rewrite <- Hown. replace (∅ : gset positive) with (∅ ∖ {[p]} : gset positive) by set_solver.
    apply (inv_kill_hdr E D ∅ _ _ p e Hi); fields; try done.
    - apply no_refs.
    - rewrite Hno. apply takes_no_slot. by destruct Hi. }
  replace D with ((D ∪ {[q]}) ∖ {[q]}) by set_solver.
  apply (inv_kill_ctx E _ ∅ _ _ q c Hi1); fields; try done.
  - set_solver.
  - rewrite Ho. apply takes_entry; [apply ctx_sizes|by destruct Hi|done|done].
  - apply delete_delete.
Qed.

End Last.

Lemma is_lan_spec name : is_lan name = true ↔ name = IPA_LAN_RX_HDR_NAME.
Proof. unfold is_lan. by rewrite bool_decide_eq_true. Qed.

(** The marks and the count of a reference that is dropped. *)
Lemma wp_less_hdr {A} (by_user : bool) p e (m : HM A) (Q : A → hdr_state → Prop) s :
  st_hdrs s !! p = Some e → 1 ≤ h_ref_cnt e < 2 ^ 32 →
  wp m Q (with_hdrs (<[p := less_hdr by_user e]> (st_hdrs s)) s) →
  wp (when by_user (upd_hdr p hdr_with_deleted) ;;
      upd_hdr p (λ e, hdr_with_refs (u32 (h_ref_cnt e - 1)) e) ;; m) Q s.
Proof.
  intros Hp Hr HQ. wp_step. unfold less_hdr in HQ. destruct by_user; cbn [when].
  - eapply wp_upd_hdr; [done|]. wp_step. eapply wp_upd_hdr; fields; [by rewrite lookup_insert_eq|].
    fields. rewrite insert_insert_eq. cbn [h_ref_cnt hdr_with_deleted]. rewrite less_u32 by done. exact HQ.
  - apply wp_ret. wp_step. eapply wp_upd_hdr; [done|]. by rewrite less_u32.
Qed.

Lemma wp_less_ctx {A} (by_user : bool) q c (m : HM A) (Q : A → hdr_state → Prop) s :
  st_ctxs s !! q = Some c → 1 ≤ c_ref_cnt c < 2 ^ 32 →
  wp m Q (with_ctxs (<[q := less_ctx by_user c]> (st_ctxs s)) s) →
  wp (when by_user (upd_ctx q ctx_with_deleted) ;;
      upd_ctx q (λ e, ctx_with_refs (u32 (c_ref_cnt e - 1)) e) ;; m) Q s.
Proof.
  intros Hq Hr HQ. wp_step. unfold less_ctx in HQ. destruct by_user; cbn [when].
  - eapply wp_upd_ctx; [done|]. wp_step. eapply wp_upd_ctx; fields; [by rewrite lookup_insert_eq|].
    fields. rewrite insert_insert_eq. cbn [c_ref_cnt ctx_with_deleted]. rewrite less_u32 by done. exact HQ.
  - apply wp_ret. wp_step. eapply wp_upd_ctx; [done|]. by rewrite less_u32.
Qed.

(** The default header: its name, at the start of the table. *)
Definition is_default s (e : ipa_hdr_entry) : Prop :=
  h_name e = IPA_LAN_RX_HDR_NAME ∧
  ∃ o oe, h_offset_entry e = Some o ∧ t_offs (st_hdr_tbl s) !! o = Some oe ∧ o_offset oe = 0.

(** The test of the default header. *)
Lemma wp_default_test D H s p e by_user (Q : bool → hdr_state → Prop) :
  inv E D H s → st_hdrs s !! p = Some e →
  (by_user = true → is_default s e → Q true s) →
  (¬ (by_user = true ∧ is_default s e) → Q false s) →
  wp (if by_user && is_lan (h_name e) then
        o ← off_at HdrTable (h_offset_entry e); mret (o_offset o =? 0)
      else mret false) Q s.
Proof.
  intros Hi Hp Ht Hf. destruct by_user; cbn [andb]; [|apply wp_ret; apply Hf; by intros [? _]].
  destruct (is_lan (h_name e)) eqn:Hl.
  2: { apply wp_ret. apply Hf. intros [_ [Hn _]]. apply is_lan_spec in Hn. congruence. }
  apply is_lan_spec in Hl.
  pose proof (ho_place _ _ _ _ _ (i_hdrs _ _ _ _ Hi p e Hp)) as Hpl. destruct (h_is_hdr_proc_ctx e).
  - by destruct Hpl as (_ & _ & ? & _).
  - destruct Hpl as (_ & _ & o & oe & Ho & Hoe & _). rewrite Ho. wp_step. eapply wp_off_at; [done|].
    apply wp_ret. destruct (Z.eqb_spec (o_offset oe) 0).
    + apply Ht; [done|]. split; [done|]. eauto.
    + apply Hf. intros [_ [_ (o' & oe' & Ho' & Hoe' & ?)]]. cbn in Hoe. simplify_eq.
Qed.

(** The fields that the removal of a header reads. *)
Lemma less_hdr_fields by_user e :
  let e' := less_hdr by_user e in
  h_is_hdr_proc_ctx e' = h_is_hdr_proc_ctx e ∧ h_offset_entry e' = h_offset_entry e ∧
  h_proc_ctx e' = h_proc_ctx e ∧ h_phys_base e' = h_phys_base e ∧ h_hdr_len e' = h_hdr_len e ∧
  h_ref_cnt e' = h_ref_cnt e - 1.
Proof. by destruct by_user. Qed.

(** The last reference: the header goes. *)
Lemma wp_last_hdr D s hdl by_user p e (Q : Z → hdr_state → Prop) :
  inv E D ∅ s → st_idr s !! hdl = Some (IdHdr p) → st_hdrs s !! p = Some e → h_id e = hdl →
  h_ref_cnt e = 1 → ctx_refs D p e (st_ctxs s) = 0 →
  (∀ s', inv E D ∅ s' → dropped_hdr by_user hdl s s' p e → Q 0 s') →
  wp ((if h_is_hdr_proc_ctx (less_hdr by_user e) then
         unmap_hdr p ;;
         q ← of_option (h_proc_ctx (less_hdr by_user e));
         c ← ctx_at q;
         del_hdr_proc_ctx (λ _, UB) (c_id c) false false ;;
         mret ()
       else release_slot HdrTable (h_offset_entry (less_hdr by_user e))) ;;
      del_entry HdrTable p ;;
      free_hdr p ;;
      ipa_id_remove hdl ;;
      mret 0) Q (with_hdrs (<[p := less_hdr by_user e]> (st_hdrs s)) s).
Proof.
  intros Hi Hid Hp Hhid Hr1 Hrefs Hok. destruct s as [hd cx ht ct im mp bf hm cm se n]. fields.
  destruct (less_hdr_fields by_user e) as (F1 & F2 & F3 & F4 & F5 & _). rewrite F1, F2, F3.
  pose proof (ho_place _ _ _ _ _ (i_hdrs _ _ _ _ Hi p e Hp)) as Hpl.
  destruct (h_is_hdr_proc_ctx e) eqn:Hd.
  - destruct Hpl as (Ho & Hm & _ & [[? _]|(q & c & Hq & Hc & Hcp & Hcr & HqD & _)]); [set_solver|]. fields.
    pose proof (i_ctxs _ _ _ _ Hi q c Hc) as [Hck Hcid (o & oe & Hco & Hoe & _) _]. fields.
    assert (slots_ok ipa_hdr_proc_ctx_bin_sz 32 (ctx_limit E) ct) as Hct by (by destruct Hi).
    destruct (so_bin _ _ _ ct o oe Hct Hoe) as (_ & Hb0 & Hb).
    wp_step. unfold unmap_hdr. do 2 wp_step. eapply wp_hdr_at; fields; [by rewrite lookup_insert_eq|]. wp_steps. fields.
    rewrite F4, F5, bool_decide_true by done. wp_steps. fields. eapply wp_ctx_at; [done|]. wp_step.
    eapply (wp_del_own_ctx _ _ _ _ _ _ _ _ _ _ _ q c o oe); try done.
    { fields. by rewrite (so_free _ _ _ _ Hct). }
    cbv zeta. fields.
    unfold del_entry, upd_tbl. wp_steps. fields. eapply wp_free_hdr; fields; [by rewrite lookup_insert_eq|].
    unfold ipa_id_remove. wp_steps. fields. rewrite delete_insert_eq.
    apply Hok.
    + rewrite <- Hhid. eapply (inv_last_ddr hd cx ht ct im mp bf hm cm se n _ D p e Hi Hp Hrefs q c o oe); try done.
      apply (sl_used _ _ _ (i_ctx_owned _ _ _ _ Hi) q c o Hc Hco).
    + constructor; fields; try done; rewrite ?Hr1, ?Hq; try done.
      * intros id i. rewrite !lookup_delete_Some. tauto.
      * intros id Hne Hno. rewrite lookup_delete_ne by done. rewrite lookup_delete_ne; [done|].
        intros <-. by apply (Hno q).
      * intros _. apply lookup_delete_eq.
  - destruct Hpl as (Hpc & Hm & o & oe & Ho & Hoe & _). fields.
    assert (slots_ok ipa_hdr_bin_sz 4 (hdr_limit E) ht) as Hht by (by destruct Hi).
    destruct (so_bin _ _ _ ht o oe Hht Hoe) as (_ & Hb0 & Hb).
    wp_step. rewrite Ho. eapply wp_release_slot; fields; [done|done|by rewrite (so_free _ _ _ _ Hht)|].
    unfold del_entry, upd_tbl. wp_steps. fields. eapply wp_free_hdr; fields; [by rewrite lookup_insert_eq|].
    unfold ipa_id_remove. wp_steps. fields. rewrite delete_insert_eq.
    apply Hok.
    + rewrite <- Hhid. eapply (inv_last_slot hd cx ht ct im mp bf hm cm se n _ D p e Hi Hp Hrefs o oe); try done.
      apply (sl_used _ _ _ (i_hdr_owned _ _ _ _ Hi) p e o Hp Ho).
    + constructor; fields; try done; rewrite ?Hr1, ?Hpc; try done.
      * intros id i. rewrite lookup_delete_Some. tauto.
      * intros id Hne _. by rewrite lookup_delete_ne.
      * intros _. apply lookup_delete_eq.
Qed.

(** The reads of the debug message. *)
Lemma wp_del_message D H s p e (Q : () → hdr_state → Prop) :
  inv E D H s → st_hdrs s !! p = Some e → Q () s →
  wp (when (negb (h_is_hdr_proc_ctx e)) (off_at HdrTable (h_offset_entry e) ;; mret ())) Q s.
Proof.
  intros Hi Hp HQ. pose proof (ho_place _ _ _ _ _ (i_hdrs _ _ _ _ Hi p e Hp)) as Hpl.
  apply wp_when; [|done]. intros Hd. destruct (h_is_hdr_proc_ctx e); [done|].
  destruct Hpl as (_ & _ & o & oe & Ho & Hoe & _). rewrite Ho. wp_step. by eapply wp_off_at.
Qed.

(** A header that keeps a reference. *)
Lemma inv_less_hdr D s by_user p e :
  inv E D ∅ s → st_hdrs s !! p = Some e → ctx_refs D p e (st_ctxs s) < h_ref_cnt e → h_ref_cnt e ≠ 1 →
  inv E D ∅ (with_hdrs (<[p := less_hdr by_user e]> (st_hdrs s)) s).
Proof.
  intros Hi Hp Hrefs Hne. pose proof (ho_ref _ _ _ _ _ (i_hdrs _ _ _ _ Hi p e Hp)) as Hr.
  eapply (inv_set_hdr E D ∅ ∅ _ _ p e (less_hdr by_user e) Hi Hp); try done.
  - by destruct by_user.
  - destruct by_user; cbn; lia.
  - rewrite (ctx_refs_proc_ctx _ _ e) by (by destruct by_user). destruct by_user; cbn; lia.
  - left. by destruct by_user.
  - apply (mem_ok_eq s); try done. by destruct Hi.
Qed.

(** The calls that are refused: not a header, deleted by the user before, or the default. *)
Definition del_refused s (hdl : Z) (by_user : bool) : Prop :=
  (∀ p, st_idr s !! hdl ≠ Some (IdHdr p)) ∨
  (by_user = true ∧ ∃ p e, st_idr s !! hdl = Some (IdHdr p) ∧ st_hdrs s !! p = Some e ∧
     (h_user_deleted e = true ∨ is_default s e)).

Lemma wp_del_hdr D s hdl by_user (Q : Z → hdr_state → Prop) :
  inv E D ∅ s → spare_ref D s hdl →
  (∀ rc, rc ≠ 0 → del_refused s hdl by_user → Q rc s) →
  (∀ s' p e, inv E D ∅ s' → ¬ del_refused s hdl by_user → dropped_hdr by_user hdl s s' p e → Q 0 s') →
  wp (__ipa_del_hdr hdl by_user) Q s.
Proof.
  intros Hi Hsp Hbad Hok. unfold __ipa_del_hdr. wp_step.
  eapply wp_find_hdr; [done| |intros Hno; wp_steps; apply Hbad; [done|by left]]. intros p e Hid Hp Hhid.
  pose proof (ho_ref _ _ _ _ _ (i_hdrs _ _ _ _ Hi p e Hp)) as Hr.
  pose proof (Hsp p e Hid Hp) as Hrefs. pose proof (ctx_refs_nonneg D p e (st_ctxs s)) as Hnn.
  wp_step. eapply wp_hdr_at; [done|]. wp_step. eapply wp_del_message; [done..|].
  destruct (by_user && h_user_deleted e) eqn:Hud.
  { apply andb_prop in Hud as [-> ?]. wp_steps. apply Hbad; [done|]. right. eauto 10. }
  wp_step. eapply wp_default_test; [done|done|intros -> Hdef; wp_steps; apply Hbad; [done|right; eauto 10]|].
  intros Hdef. assert (¬ del_refused s hdl by_user) as Hnr.
  { intros [Hno|(-> & p' & e' & Hid' & Hp' & Hx)]; [by apply (Hno p)|]. simplify_eq.
    destruct Hx as [Hx|Hx]; [by rewrite Hx in Hud|by apply Hdef]. }
  eapply wp_less_hdr; [done|done|]. wp_step. eapply wp_hdr_at; fields; [by rewrite lookup_insert_eq|].
  destruct (less_hdr_fields by_user e) as (_ & _ & Hpc & _ & _ & Hcnt). rewrite Hcnt.
  destruct (Z.eqb_spec (h_ref_cnt e - 1) 0) as [H0|H0]; cbn [negb].
  - eapply wp_last_hdr; [done|done|done|done|lia|lia|]. eauto.
  - wp_steps. apply (Hok _ p e); [apply inv_less_hdr; [done|done|lia|lia]|done|].
    assert (h_ref_cnt e =? 1 = false) as Hf by (apply Z.eqb_neq; lia).
    constructor; fields; rewrite ?Hf; try done; [by destruct (h_proc_ctx e)|intros; lia].
Qed.

(** What a successful call did to a context, before its header lost a reference. *)
Record dropped_ctx (by_user : bool) (hdl : Z) s s' (q : positive) (c : ipa_hdr_proc_ctx_entry) : Prop := {
  dc_hdl : st_idr s !! hdl = Some (IdCtx q);
  dc_ctx : st_ctxs s !! q = Some c;
  dc_ctxs : if c_ref_cnt c =? 1 then st_ctxs s' !! q = None else
              st_ctxs s' = <[q := less_ctx by_user c]> (st_ctxs s);
  dc_kept : c_ref_cnt c ≠ 1 → st_hdrs s' = st_hdrs s ∧ st_idr s' = st_idr s;
  dc_gone : c_ref_cnt c = 1 → st_idr s' !! hdl = None;
  dc_ids : ∀ id i, st_idr s' !! id = Some i → st_idr s !! id = Some i;
  dc_others : ∀ q' c', st_ctxs s' !! q' = Some c' → q' ≠ q → st_ctxs s !! q' = Some c';
  dc_other_hdrs : ∀ p e, st_hdrs s !! p = Some e → p ≠ c_hdr c → st_hdrs s' !! p = Some e;
  dc_own : ∀ p e', st_hdrs s' !! p = Some e' → ∃ e, st_hdrs s !! p = Some e ∧ h_proc_ctx e' = h_proc_ctx e;
  dc_bufs : st_bufs s' = st_bufs s;
  dc_hdr_mem : st_hdr_mem s' = st_hdr_mem s;
  dc_ctx_mem : st_ctx_mem s' = st_ctx_mem s;
  dc_sent : st_sent s' = st_sent s;
}.

(** The context goes, after its header. *)
Lemma wp_last_ctx s q c (Q : Z → hdr_state → Prop) :
  inv E {[q]} ∅ s → st_ctxs s !! q = Some c →
  (∀ t, inv E ∅ ∅ (mkSt (st_hdrs s) (delete q (st_ctxs s)) (st_hdr_tbl s) t (delete (c_id c) (st_idr s))
     (st_maps s) (st_bufs s) (st_hdr_mem s) (st_ctx_mem s) (st_sent s) (st_time s)) →
   Q 0 (mkSt (st_hdrs s) (delete q (st_ctxs s)) (st_hdr_tbl s) t (delete (c_id c) (st_idr s))
     (st_maps s) (st_bufs s) (st_hdr_mem s) (st_ctx_mem s) (st_sent s) (st_time s))) →
  wp (release_slot CtxTable (c_offset_entry c) ;;
      del_entry CtxTable q ;;
      free_ctx q ;;
      ipa_id_remove (c_id c) ;;
      mret 0) Q s.
Proof.
  intros Hi Hq HQ. destruct s as [hd cx ht ct im mp bf hm cm se n]. fields.
  pose proof (i_ctxs _ _ _ _ Hi q c Hq) as [_ _ (o & oe & Ho & Hoe & _) _]. fields.
  assert (slots_ok ipa_hdr_proc_ctx_bin_sz 32 (ctx_limit E) ct) as Hct by (by destruct Hi).
  destruct (so_bin _ _ _ ct o oe Hct Hoe) as (_ & Hb0 & Hb).
  wp_step. rewrite Ho. eapply wp_release_slot; fields; [done|done|by rewrite (so_free _ _ _ _ Hct)|].
  unfold del_entry, upd_tbl. wp_steps. fields. eapply wp_free_ctx; fields; [done|].
  unfold ipa_id_remove. wp_steps. fields. apply HQ.
  replace (∅ : gset positive) with ({[q]} ∖ {[q]} : gset positive) at 1 by set_solver.
  apply (inv_kill_ctx E {[q]} ∅ _ _ q c Hi); fields; try done; [set_solver| |].
  - rewrite Ho. apply takes_entry; [apply ctx_sizes|done|done|].
    apply (sl_used _ _ _ (i_ctx_owned _ _ _ _ Hi) q c o Hq Ho).
  - apply (mem_ok_eq (mkSt hd cx ht ct im mp bf hm cm se n)); try done. by destruct Hi.
Qed.

Lemma less_ctx_fields by_user c :
  let c' := less_ctx by_user c in
  c_cookie c' = c_cookie c ∧ c_id c' = c_id c ∧ c_offset_entry c' = c_offset_entry c ∧
  c_hdr c' = c_hdr c ∧ c_ref_cnt c' = c_ref_cnt c - 1.
Proof. by destruct by_user. Qed.

(** The context drops a reference; with the last one it is about to go, and its header has a
    reference to spare. *)
Lemma inv_less_ctx s by_user q c :
  inv E ∅ ∅ s → st_ctxs s !! q = Some c → not_own s q →
  inv E (if c_ref_cnt c =? 1 then {[q]} else ∅) ∅
    (with_ctxs (<[q := less_ctx by_user c]> (st_ctxs s)) s).
Proof.
  intros Hi Hq Hown. destruct (less_ctx_fields by_user c) as (L1 & L2 & L3 & L4 & L5).
  pose proof (co_live _ _ _ _ (i_ctxs _ _ _ _ Hi q c Hq)) as Hl. destruct Hl as [_ Hr]; [set_solver|].
  eapply (inv_set_ctx E ∅ _ ∅ s _ q c (less_ctx by_user c) Hi Hq Hown); try done.
  - destruct (Z.eqb_spec (c_ref_cnt c) 1); [right; set_solver|left; split; [done|]]. rewrite L5. lia.
  - apply (mem_ok_eq s); try done. by destruct Hi.
Qed.

Lemma spare_of_ctx s by_user q c h :
  inv E ∅ ∅ s → st_ctxs s !! q = Some c → not_own s q → st_hdrs s !! c_hdr c = Some h →
  spare_ref {[q]} (with_ctxs (<[q := less_ctx by_user c]> (st_ctxs s)) s) (h_id h).
Proof.
  intros Hi Hq Hown Hh p e Hid Hp. fields.
  destruct (i_hdrs _ _ _ _ Hi _ _ Hh) as [_ _ _ Hidh _ Hrefs _]. rewrite Hid in Hidh.
  injection Hidh as ->. rewrite Hh in Hp. injection Hp as <-.
  assert (ctx_refs {[q]} (c_hdr c) h (<[q := less_ctx by_user c]> (st_ctxs s)) =
          ctx_refs (∅ ∪ {[q]}) (c_hdr c) h (st_ctxs s)) as ->.
  { apply ctx_refs_ext. intros [q' c']. unfold explicit. cbn.
    destruct (decide (q' = q)) as [->|Hne]; [set_solver|].
    rewrite lookup_insert_ne by done. set_solver. }
  rewrite (ctx_refs_take _ _ _ _ q c Hq); [lia|]. split_and!; [done|set_solver|by apply (Hown _ _ Hh)].
Qed.

(** A processing context that is not a header's own one. *)
Lemma wp_del_ctx s hdl by_user (Q : Z → hdr_state → Prop) :
  inv E ∅ ∅ s → (∀ q, st_idr s !! hdl = Some (IdCtx q) → not_own s q) →
  (∀ rc, rc ≠ 0 → Q rc s) →
  (∀ s' q c, inv E ∅ ∅ s' → dropped_ctx by_user hdl s s' q c → Q 0 s') →
  wp (__ipa_del_hdr_proc_ctx hdl true by_user) Q s.
Proof.
  intros Hi Hown Hbad Hok. unfold __ipa_del_hdr_proc_ctx, del_hdr_proc_ctx. wp_step.
  eapply wp_find_ctx; [done| |intros _; wp_steps; by apply Hbad]. intros q c Hid Hq Hcid.
  specialize (Hown q Hid). pose proof (i_ctxs _ _ _ _ Hi q c Hq) as [_ _ (o & oe & Ho & Hoe & _) Hl].
  destruct Hl as [[h Hh] Hr]; [set_solver|].
  wp_step. eapply wp_ctx_at; [done|]. rewrite Ho. wp_step. eapply wp_off_at; [done|].
  destruct (by_user && c_user_deleted c); [wp_steps; by apply Hbad|].
  eapply wp_less_ctx; [done|done|]. wp_step. eapply wp_ctx_at; fields; [by rewrite lookup_insert_eq|].
  destruct (less_ctx_fields by_user c) as (L1 & L2 & L3 & L4 & L5). rewrite L5.
  pose proof (inv_less_ctx s by_user q c Hi Hq Hown) as Hi1.
  destruct (Z.eqb_spec (c_ref_cnt c - 1) 0) as [H0|H0]; cbn [negb].
  - assert (c_ref_cnt c =? 1 = true) as Ht by (apply Z.eqb_eq; lia). rewrite Ht in Hi1. cbn [when].
    wp_step. rewrite L4. wp_step. eapply wp_hdr_at; [done|]. wp_step.
    eapply wp_del_hdr; [exact Hi1|by eapply spare_of_ctx| |].
    + intros rc _ _. wp_step. rewrite <- Hcid, <- L2.
      eapply (wp_last_ctx _ q); [exact Hi1|fields; by rewrite lookup_insert_eq|]. intros t Hi2.
      apply (Hok _ q c Hi2). fields. rewrite L2, Hcid.
      constructor; fields; rewrite ?Ht; try done.
      * by rewrite lookup_delete_eq.
      * intros; lia.
      * intros _. apply lookup_delete_eq.
      * intros id i. rewrite lookup_delete_Some. tauto.
      * intros q' c' [_ Hc']%lookup_delete_Some Hne. by rewrite lookup_insert_ne in Hc'.
      * by eauto.
    + intros s2 p e Hi2 _ [D1 D2 D3 D4 D5 D6 D7 D8 D9 D10 D11 D12]. fields. wp_step.
      assert (p = c_hdr c) as -> by (destruct (i_hdrs _ _ _ _ Hi _ _ Hh) as [_ _ _ Hidh _ _ _]; congruence).
      rewrite Hh in D2. injection D2 as <-.
      assert (h_proc_ctx h ≠ Some q) as Hnq by (by apply (Hown (c_hdr c))).
      assert (st_ctxs s2 !! q = Some (less_ctx by_user c)) as Hq2.
      { rewrite D4. destruct (h_proc_ctx h) as [q'|]; [|by rewrite lookup_insert_eq].
        destruct (h_ref_cnt h =? 1); [rewrite lookup_delete_ne by congruence|]; by rewrite lookup_insert_eq. }
      rewrite <- Hcid, <- L2. eapply (wp_last_ctx s2 q); [exact Hi2|exact Hq2|]. intros t Hi3.
      apply (Hok _ q c Hi3). rewrite L2, Hcid.
      constructor; fields; rewrite ?Ht; try done.
      * by rewrite lookup_delete_eq.
      * intros; lia.
      * intros _. apply lookup_delete_eq.
      * intros id i. rewrite lookup_delete_Some. intros [_ Hi']. by apply D5.
      * intros q' c' [_ Hc']%lookup_delete_Some Hne. rewrite D4 in Hc'.
        destruct (h_proc_ctx h) as [q1|]; [destruct (h_ref_cnt h =? 1)|];
          rewrite ?lookup_delete_Some in Hc'; [destruct Hc' as [_ Hc']|..];
          by rewrite lookup_insert_ne in Hc'.
      * intros p e He Hne. rewrite D3. destruct (h_ref_cnt h =? 1);
          [by rewrite lookup_delete_ne|by rewrite lookup_insert_ne].
      * intros p e'. rewrite D3. destruct (h_ref_cnt h =? 1); [intros [_ ?]%lookup_delete_Some; eauto|].
        destruct (decide (p = c_hdr c)) as [->|Hne]; [rewrite lookup_insert_eq|rewrite lookup_insert_ne by done; eauto].
        intros [= <-]. eauto.
  - assert (c_ref_cnt c =? 1 = false) as Hf by (apply Z.eqb_neq; lia). rewrite Hf in Hi1. wp_steps.
    apply (Hok _ q c Hi1). constructor; fields; rewrite ?Hf; try done; [intros; lia| |].
    + intros q' c' Hc' Hne. by rewrite lookup_insert_ne in Hc'.
    + by eauto.
Qed.

End Del.
