(* ===== verification/HdrCommit.v ===== *)
(** * IPA header tables: the images and the commits

    The image of a table holds the bytes of every entry at its slot, and a commit gives the
    images to the hardware: slots do not overlap, so that no entry is overwritten. *)

From S2P Require Import Prelude.
From S2P Require Import HdrTypes.
From S2P Require Import Hdr.
From S2P Require Import HdrInv.
From S2P Require Import HdrKeep.
From S2P Require Import HdrAddRuns.

Implicit Types (D H : gset positive) (s : hdr_state).

(** ** Bytes of a buffer *)

Definition slice (a n : nat) (buf : list Z) : list Z := take n (drop a buf).
Definition patch (a : nat) (bytes buf : list Z) : list Z :=
  take a buf ++ bytes ++ drop (a + length bytes) buf.

Section Bytes.
Implicit Types (buf bytes : list Z) (a b m n : nat).

Lemma length_patch a bytes buf : (a + length bytes ≤ length buf)%nat → length (patch a bytes buf) = length buf.
Proof. intros Hl. unfold patch. rewrite !length_app, length_take, length_drop. lia. Qed.

Lemma write_bytes_patch ofst bytes buf :
  0 ≤ ofst → ofst + Z.of_nat (length bytes) ≤ Z.of_nat (length buf) →
  write_bytes ofst bytes buf = Some (patch (Z.to_nat ofst) bytes buf).
Proof.
  intros H0 Hl. unfold write_bytes. rewrite (proj2 (Z.leb_le _ _)), (proj2 (Z.leb_le _ _)) by lia. done.
Qed.

Lemma lookup_patch a bytes buf i : (a + length bytes ≤ length buf)%nat →
  patch a bytes buf !! i = if decide (a ≤ i < a + length bytes)%nat then bytes !! (i - a)%nat else buf !! i.
Proof.
  intros Hl. unfold patch. case_decide as Hi.
  - rewrite lookup_app_r, length_take by (rewrite length_take; lia).
    rewrite lookup_app_l by lia. f_equal. lia.
  - destruct (decide (i < a)%nat).
    + rewrite lookup_app_l by (rewrite length_take; lia). by apply lookup_take_lt.
    + rewrite lookup_app_r by (rewrite length_take; lia). rewrite length_take.
      rewrite lookup_app_r by lia. rewrite lookup_drop. f_equal. lia.
Qed.

Lemma slice_patch a bytes buf : (a + length bytes ≤ length buf)%nat →
  slice a (length bytes) (patch a bytes buf) = bytes.
Proof.
  intros Hl. unfold slice, patch. rewrite drop_app_length' by (rewrite length_take; lia).
  by rewrite take_app_length.
Qed.

Lemma slice_patch_other a bytes b m buf : (a + length bytes ≤ length buf)%nat →
  (a + length bytes ≤ b ∨ b + m ≤ a)%nat → slice b m (patch a bytes buf) = slice b m buf.
Proof.
  intros Hl Hd. unfold slice. apply list_eq. intros i.
  destruct (decide (i < m)%nat) as [Hi|Hi].
  - rewrite !lookup_take_lt, !lookup_drop by done. rewrite lookup_patch by done.
    rewrite decide_False by lia. done.
  - rewrite !lookup_take_ge by lia. done.
Qed.

(** A part of an area of zeros. *)
Lemma slice_zeros a n b m buf : (a + n ≤ length buf)%nat → (a ≤ b ∧ b + m ≤ a + n)%nat →
  slice b m (patch a (replicate n 0) buf) = replicate m 0.
Proof.
  intros Hl Hb. unfold slice. apply list_eq. intros i.
  destruct (decide (i < m)%nat) as [Hi|Hi].
  - rewrite lookup_take_lt, lookup_drop, lookup_patch by (rewrite ?length_replicate; done).
    rewrite length_replicate, decide_True by lia. rewrite !lookup_replicate_2 by lia. done.
  - rewrite lookup_take_ge by lia. symmetry. apply lookup_ge_None. rewrite length_replicate. lia.
Qed.

(** Writing into a part of a buffer that is patched already. *)
Lemma patch_patch a k bytes part part' buf :
  (a + length part ≤ length buf)%nat → (k + length bytes ≤ length part)%nat →
  patch k bytes part = part' → patch (a + k) bytes (patch a part buf) = patch a part' buf.
Proof.
  intros Hl Hk <-. apply list_eq. intros i.
  assert (length (patch k bytes part) = length part) as Hp by (by apply length_patch).
  rewrite lookup_patch by (rewrite length_patch by done; lia).
  rewrite !(lookup_patch a) by (rewrite ?Hp; done). rewrite Hp.
  case_decide; case_decide; try lia.
  - rewrite lookup_patch by done. rewrite decide_True by lia. f_equal. lia.
  - rewrite lookup_patch by done. rewrite decide_False by lia. done.
  - done.
Qed.

Lemma patch_slice a n buf : (a + n ≤ length buf)%nat → patch a (slice a n buf) buf = buf.
Proof.
  intros Hl. unfold patch, slice. rewrite length_take, length_drop, Nat.min_l by lia.
  rewrite <- (take_drop a buf) at 4. f_equal. rewrite <- drop_drop. apply take_drop.
Qed.

End Bytes.

Lemma wp_store_bytes phys ofst bytes buf (Q : () → hdr_state → Prop) s :
  st_bufs s !! phys = Some buf → 0 ≤ ofst → ofst + Z.of_nat (length bytes) ≤ Z.of_nat (length buf) →
  Q () (with_bufs (<[phys := patch (Z.to_nat ofst) bytes buf]> (st_bufs s)) s) →
  wp (store_bytes phys ofst bytes) Q s.
Proof.
  intros Hb H0 Hl HQ. unfold store_bytes. wp_steps. eapply wp_of_option; [by apply write_bytes_patch|].
  by wp_steps.
Qed.

#[export] Instance table_eq_dec : EqDecision table.
Proof. solve_decision. Defined.

Section Commit.
Context (E : hdr_env) {HE : hdr_env_ok E}.

(** ** The header table *)

(** The bytes of header [p] are in the image at its slot. *)
Definition hdr_in_image s (img : list Z) (p : positive) : Prop :=
  ∀ e o oe, st_hdrs s !! p = Some e → h_is_hdr_proc_ctx e = false → h_offset_entry e = Some o →
    t_offs (st_hdr_tbl s) !! o = Some oe →
    slice (Z.to_nat (o_offset oe)) (Z.to_nat (h_hdr_len e)) img =
    take (Z.to_nat (h_hdr_len e)) (h_hdr e).

(** The place of a header in the table. *)
Lemma place_of D H s p e : inv E D H s → st_hdrs s !! p = Some e → h_is_hdr_proc_ctx e = false →
  ∃ o oe, h_offset_entry e = Some o ∧ t_offs (st_hdr_tbl s) !! o = Some oe ∧
    0 ≤ o_offset oe ∧ 1 ≤ h_hdr_len e ≤ slot_size ipa_hdr_bin_sz oe ∧
    o_offset oe + slot_size ipa_hdr_bin_sz oe ≤ t_end (st_hdr_tbl s) ∧
    length (take (Z.to_nat (h_hdr_len e)) (h_hdr e)) = Z.to_nat (h_hdr_len e).
Proof.
  intros Hi Hp Hd. pose proof (i_hdrs _ _ _ _ Hi p e Hp) as [_ Hl Hb _ _ _ Hpl]. rewrite Hd in Hpl.
  destruct Hpl as (_ & _ & o & oe & Ho & Hoe & Hs & _).
  destruct (so_slot _ _ _ _ (i_hdr_slots _ _ _ _ Hi) o oe Hoe) as (H0 & H1 & _).
  exists o, oe. split_and!; try done; try lia. rewrite length_take, Hb. lia.
Qed.

(** Two headers have places apart. *)
Lemma places_apart D H s p1 p2 e1 e2 o1 o2 oe1 oe2 :
  inv E D H s → st_hdrs s !! p1 = Some e1 → st_hdrs s !! p2 = Some e2 → p1 ≠ p2 →
  h_offset_entry e1 = Some o1 → h_offset_entry e2 = Some o2 →
  t_offs (st_hdr_tbl s) !! o1 = Some oe1 → t_offs (st_hdr_tbl s) !! o2 = Some oe2 →
  apart ipa_hdr_bin_sz oe1 oe2.
Proof.
  intros Hi Hp1 Hp2 Hne Ho1 Ho2 Hoe1 Hoe2. apply (so_apart _ _ _ _ (i_hdr_slots _ _ _ _ Hi) o1 o2); try done.
  intros ->. apply Hne. by eapply (sl_one _ _ _ (i_hdr_owned _ _ _ _ Hi)).
Qed.

(** Writing one header keeps the others. *)
Lemma image_patch s img p p' e o oe :
  inv E ∅ ∅ s → Z.of_nat (length img) = t_end (st_hdr_tbl s) →
  st_hdrs s !! p = Some e → h_is_hdr_proc_ctx e = false → h_offset_entry e = Some o →
  t_offs (st_hdr_tbl s) !! o = Some oe → p' = p ∨ hdr_in_image s img p' →
  hdr_in_image s (patch (Z.to_nat (o_offset oe)) (take (Z.to_nat (h_hdr_len e)) (h_hdr e)) img) p'.
Proof.
  intros Hi Hlen Hp Hd Ho Hoe Hor.
  destruct (place_of _ _ _ _ _ Hi Hp Hd) as (o' & oe' & Ho' & Hoe' & H0 & Hl & He & Hb). simplify_eq.
  intros e1 o1 oe1 Hp1 Hd1 Ho1 Hoe1. destruct (decide (p' = p)) as [->|Hne].
  - simplify_eq. rewrite <- Hb at 1. apply slice_patch. rewrite Hb. lia.
  - destruct Hor as [|Hin]; [done|]. rewrite slice_patch_other; [by eapply Hin|rewrite Hb; lia|].
    destruct (place_of _ _ _ _ _ Hi Hp1 Hd1) as (o2 & oe2 & Ho2 & Hoe2 & H02 & Hl2 & He2 & Hb2). simplify_eq.
    rewrite Hb. destruct (places_apart _ _ _ p' p e1 e o1 o oe1 oe Hi); try done; lia.
Qed.

Lemma wp_write_headers s m l done_ img (Q : () → hdr_state → Prop) :
  inv E ∅ ∅ s → Z.of_nat (length img) = t_end (st_hdr_tbl s) →
  (∀ p, p ∈ l → is_Some (st_hdrs s !! p)) → (∀ p, p ∈ done_ → hdr_in_image s img p) →
  (∀ img', length img' = length img → (∀ p, p ∈ done_ ++ l → hdr_in_image s img' p) →
     Q () (with_bufs (<[m_phys_base m := img']> (st_bufs s)) s)) →
  wp (write_headers m l) Q (with_bufs (<[m_phys_base m := img]> (st_bufs s)) s).
Proof.
  intros Hi. revert done_ img. induction l as [|p l IH]; intros done_ img Hlen Hl Hdone HQ; cbn [write_headers].
  { wp_steps. apply HQ; [done|]. intros p Hp. rewrite app_nil_r in Hp. auto. }
  destruct (Hl p) as [e Hp]; [set_solver|]. wp_step. eapply wp_hdr_at; [done|]. wp_step.
  destruct (h_is_hdr_proc_ctx e) eqn:Hd.
  - wp_steps. apply (IH (done_ ++ [p])); [done|set_solver| |].
    + intros p' [Hp'|Hp']%elem_of_app; [auto|]. apply list_elem_of_singleton in Hp' as ->.
      intros e' o oe He' Hd'. congruence.
    + intros img' Hlen' Him. apply HQ; [done|]. intros p' Hp'. apply Him. by rewrite <- app_assoc.
  - destruct (place_of _ _ _ _ _ Hi Hp Hd) as (o & oe & Ho & Hoe & H0 & Hle & He & Hb).
    wp_step. rewrite Ho. eapply wp_off_at; [done|].
    eapply wp_store_bytes; [fields; by rewrite lookup_insert_eq|done|rewrite Hb; lia|].
    fields. rewrite insert_insert_eq. apply (IH (done_ ++ [p])); [|set_solver| |].
    + rewrite length_patch; [done|]. rewrite Hb. lia.
    + intros p' Hp'. eapply image_patch; try done.
      apply elem_of_app in Hp' as [Hp'|Hp']; [right; auto|left; by apply list_elem_of_singleton].
    + intros img' Hlen' Him. apply HQ.
      * rewrite Hlen'. apply length_patch. rewrite Hb. lia.
      * intros p' Hp'. apply Him. by rewrite <- app_assoc.
Qed.

(** A new buffer. *)
Lemma wp_new_buf contents size (Q : option ipa_mem_buffer → hdr_state → Prop) s :
  Q None (tick s) →
  (∀ phys, 0 < phys → st_bufs s !! phys = None →
     Q (Some (mkMem phys size)) (with_bufs (<[phys := contents size]> (st_bufs s)) (tick s))) →
  wp (new_buf E contents size) Q s.
Proof using HE.
  intros Hno Hyes. unfold new_buf. wp_step. apply wp_ask.
  destruct (env_dma E s size) as [phys|] eqn:Hd; [|by apply wp_ret].
  destruct (ok_dma E HE s size phys Hd). wp_steps. by apply Hyes.
Qed.

Lemma inv_tick D H s : inv E D H s → inv E D H (tick s).
Proof. intros Hi. eapply inv_ext; try done. by destruct Hi. Qed.

Lemma wp_generate_hdr s (Q : Z * ipa_mem_buffer → hdr_state → Prop) :
  inv E ∅ ∅ s →
  (∀ rc n', rc ≠ 0 → Q (rc, mkMem 0 0) (mkSt (st_hdrs s) (st_ctxs s) (st_hdr_tbl s) (st_ctx_tbl s)
     (st_idr s) (st_maps s) (st_bufs s) (st_hdr_mem s) (st_ctx_mem s) (st_sent s) n')) →
  (∀ phys img, 0 < phys → st_bufs s !! phys = None → t_end (st_hdr_tbl s) ≠ 0 →
     Z.of_nat (length img) = t_end (st_hdr_tbl s) → (∀ p, hdr_in_image s img p) →
     Q (0, mkMem phys (t_end (st_hdr_tbl s))) (with_bufs (<[phys := img]> (st_bufs s)) (tick s))) →
  wp (ipa_generate_hdr_hw_tbl E) Q s.
Proof using HE.
  intros Hi Hno Hyes. unfold ipa_generate_hdr_hw_tbl. wp_steps.
  destruct (Z.eqb_spec (t_end (st_hdr_tbl s)) 0) as [|Hne].
  { wp_steps. specialize (Hno (-EPERM) (st_time s)). destruct s. by apply Hno. }
  pose proof (so_end _ _ _ _ (i_hdr_slots _ _ _ _ Hi)) as [Hend _].
  wp_step. apply wp_new_buf; [wp_steps; by apply Hno|]. intros phys Hph Hfree. wp_step.
  destruct (i_hdr_listed _ _ _ _ Hi) as (_ & Hl & _).
  apply (wp_write_headers (tick s) (mkMem phys (t_end (st_hdr_tbl s))) _ []); [by apply inv_tick| | | |].
  - unfold zeros. rewrite length_replicate. fields. lia.
  - intros p. apply Hl.
  - intros p Hp. by apply elem_of_nil in Hp.
  - intros img Hlen Him. wp_steps. fields. apply Hyes; [done|done|done| |].
    + unfold zeros in Hlen. rewrite length_replicate in Hlen. lia.
    + intros p e o oe Hp. apply (Him p); [|done]. apply Hl. eauto.
Qed.

(** ** The table of processing contexts *)

Definition addr_of s (base : Z) (h : ipa_hdr_entry) : Z :=
  if h_is_hdr_proc_ctx h then u32 (h_phys_base h)
  else match h_offset_entry h with
       | Some o => match t_offs (st_hdr_tbl s) !! o with Some oe => u32 (base + o_offset oe) | None => 0 end
       | None => 0
       end.

(** The program of a context for the hardware: add the header, run the command, end. *)
Definition ctx_image s (base : Z) (c : ipa_hdr_proc_ctx_entry) (h : ipa_hdr_entry) : list Z :=
  tlv IPA_PROC_CTX_TLV_TYPE_HDR_ADD 1 (h_hdr_len h) ++ le32 (addr_of s base h) ++
  (if c_type c =? IPA_HDR_PROC_NONE then tlv IPA_PROC_CTX_TLV_TYPE_END 0 0 ++ zeros 4
   else tlv IPA_PROC_CTX_TLV_TYPE_PROC_CMD 0 (default 0 (ucp_command (c_type c))) ++
        tlv IPA_PROC_CTX_TLV_TYPE_END 0 0).

Definition ctx_in_image s (base delta : Z) (img : list Z) (q : positive) : Prop :=
  ∀ c h o oe, st_ctxs s !! q = Some c → st_hdrs s !! c_hdr c = Some h → c_offset_entry c = Some o →
    t_offs (st_ctx_tbl s) !! o = Some oe →
    slice (Z.to_nat (delta + o_offset oe)) 16 img = ctx_image s base c h.

Lemma length_ctx_image s base c h : length (ctx_image s base c h) = 16%nat.
Proof. unfold ctx_image. by destruct (c_type c =? IPA_HDR_PROC_NONE). Qed.

(** The writes of one context, into a slot of zeros. *)
Lemma wp_write_ctx s phys delta base q c h o oe img (Q : () → hdr_state → Prop) :
  st_ctxs s !! q = Some c → st_hdrs s !! c_hdr c = Some h → c_offset_entry c = Some o →
  t_offs (st_ctx_tbl s) !! o = Some oe → inv E ∅ ∅ s →
  0 ≤ delta + o_offset oe → delta + o_offset oe + 16 ≤ Z.of_nat (length img) →
  slice (Z.to_nat (delta + o_offset oe)) 16 img = zeros 16 →
  Q () (with_bufs (<[phys := patch (Z.to_nat (delta + o_offset oe)) (ctx_image s base c h) img]> (st_bufs s)) s) →
  wp (write_ctx phys delta base c) Q (with_bufs (<[phys := img]> (st_bufs s)) s).
Proof using.
  intros Hq Hh Ho Hoe Hi H0 Hl Hz HQ.
  remember (delta + o_offset oe) as a eqn:Ha. remember (Z.to_nat a) as n eqn:Hn.
  assert (∀ k bytes part part' (R : () → hdr_state → Prop), (Z.to_nat k + length bytes ≤ 16)%nat → 0 ≤ k →
    length part = 16%nat → patch (Z.to_nat k) bytes part = part' →
    R () (with_bufs (<[phys := patch n part' img]> (st_bufs s)) s) →
    wp (store_bytes phys (a + k) bytes) R (with_bufs (<[phys := patch n part img]> (st_bufs s)) s)) as Hst.
  { intros k bytes part part' R Hk Hk0 Hp Heq HR.
    eapply wp_store_bytes; [fields; by rewrite lookup_insert_eq|lia|rewrite length_patch; lia|].
    fields. rewrite insert_insert_eq. replace (Z.to_nat (a + k)) with (n + Z.to_nat k)%nat by lia.
    rewrite (patch_patch _ _ _ _ part'); [done|lia|lia|done]. }
  rewrite <- (patch_slice n 16 img) by lia. rewrite Hz.
  unfold write_ctx. rewrite Ho. wp_step. eapply wp_off_at; [done|]. wp_step. eapply wp_hdr_at; [done|].
  wp_step. assert (wp (hdr_addr base h) (λ addr s', addr = addr_of s base h ∧
    s' = with_bufs (<[phys := patch n (zeros 16) img]> (st_bufs s)) s)
    (with_bufs (<[phys := patch n (zeros 16) img]> (st_bufs s)) s)) as Haddr.
  { unfold hdr_addr, addr_of. destruct (h_is_hdr_proc_ctx h) eqn:Hd; [by apply wp_ret|].
    destruct (place_of _ _ _ _ _ Hi Hh Hd) as (oh & ohe & Hoh & Hohe & _). rewrite Hoh, Hohe.
    wp_step. eapply wp_off_at; [done|]. by apply wp_ret. }
  eapply wp_mono; [exact Haddr|]. cbn beta. intros addr s' [-> ->]. rewrite <- Ha. clear Haddr.
  unfold ctx_image in HQ. wp_step. rewrite <- (Z.add_0_r a) at 1. eapply Hst; [cbn; lia|lia|done|reflexivity|].
  destruct (c_type c =? IPA_HDR_PROC_NONE).
  - eapply Hst; [cbn; lia|lia|done|reflexivity|exact HQ].
  - wp_step. eapply Hst; [cbn; lia|lia|done|reflexivity|]. wp_step.
    destruct (ucp_command (c_type c)) as [v|].
    + eapply Hst; [cbn; lia|lia|done|reflexivity|]. eapply Hst; [cbn; lia|lia|done|reflexivity|exact HQ].
    + wp_step. eapply Hst; [cbn; lia|lia|done|reflexivity|exact HQ].
Qed.

(** The place of a context, and its header. *)
Lemma ctx_place s q c : inv E ∅ ∅ s → st_ctxs s !! q = Some c →
  ∃ o oe h, c_offset_entry c = Some o ∧ t_offs (st_ctx_tbl s) !! o = Some oe ∧
    st_hdrs s !! c_hdr c = Some h ∧ 0 ≤ o_offset oe ∧ 16 ≤ slot_size ipa_hdr_proc_ctx_bin_sz oe ∧
    o_offset oe + slot_size ipa_hdr_proc_ctx_bin_sz oe ≤ t_end (st_ctx_tbl s).
Proof.
  intros Hi Hq. pose proof (i_ctxs _ _ _ _ Hi q c Hq) as [_ _ (o & oe & Ho & Hoe & Hs) Hl].
  destruct Hl as [[h Hh] _]; [set_solver|].
  destruct (so_slot _ _ _ _ (i_ctx_slots _ _ _ _ Hi) o oe Hoe) as (H0 & H1 & _).
  exists o, oe, h. split_and!; done.
Qed.

(** The slots of two contexts are apart. *)
Lemma ctx_places_apart s q1 q2 c1 c2 o1 o2 oe1 oe2 :
  inv E ∅ ∅ s → st_ctxs s !! q1 = Some c1 → st_ctxs s !! q2 = Some c2 → q1 ≠ q2 →
  c_offset_entry c1 = Some o1 → c_offset_entry c2 = Some o2 →
  t_offs (st_ctx_tbl s) !! o1 = Some oe1 → t_offs (st_ctx_tbl s) !! o2 = Some oe2 →
  apart ipa_hdr_proc_ctx_bin_sz oe1 oe2.
Proof.
  intros Hi Hq1 Hq2 Hne Ho1 Ho2 Hoe1 Hoe2. apply (so_apart _ _ _ _ (i_ctx_slots _ _ _ _ Hi) o1 o2); try done.
  intros ->. apply Hne. by eapply (sl_one _ _ _ (i_ctx_owned _ _ _ _ Hi)).
Qed.

(** The slot of [q] is still empty. *)
Definition ctx_empty s (delta : Z) (img : list Z) (q : positive) : Prop :=
  ∀ c o oe, st_ctxs s !! q = Some c → c_offset_entry c = Some o → t_offs (st_ctx_tbl s) !! o = Some oe →
    slice (Z.to_nat (delta + o_offset oe)) 16 img = zeros 16.

Lemma ctx_image_patch s base delta img q q' c h o oe :
  inv E ∅ ∅ s → 0 ≤ delta → delta + t_end (st_ctx_tbl s) ≤ Z.of_nat (length img) →
  st_ctxs s !! q = Some c → st_hdrs s !! c_hdr c = Some h → c_offset_entry c = Some o →
  t_offs (st_ctx_tbl s) !! o = Some oe → q' ≠ q →
  let img' := patch (Z.to_nat (delta + o_offset oe)) (ctx_image s base c h) img in
  (ctx_in_image s base delta img q' → ctx_in_image s base delta img' q') ∧
  (ctx_empty s delta img q' → ctx_empty s delta img' q').
Proof.
  intros Hi Hd Hlen Hq Hh Ho Hoe Hne img'.
  destruct (ctx_place s q c Hi Hq) as (o' & oe' & h' & Ho' & Hoe' & Hh' & H0 & H16 & He). simplify_eq.
  assert (∀ c' o' oe', st_ctxs s !! q' = Some c' → c_offset_entry c' = Some o' →
    t_offs (st_ctx_tbl s) !! o' = Some oe' →
    slice (Z.to_nat (delta + o_offset oe')) 16 img' = slice (Z.to_nat (delta + o_offset oe')) 16 img) as Heq.
  { intros c' o' oe' Hc' Ho'' Hoe''. apply slice_patch_other; rewrite length_ctx_image; [lia|].
    destruct (ctx_place s q' c' Hi Hc') as (o2 & oe2 & h2 & Ho2 & Hoe2 & _ & H02 & H162 & He2). simplify_eq.
    destruct (ctx_places_apart s q' q c' c o' o oe' oe Hi); try done; lia. }
  split.
  - intros Him c' h' o' oe' Hc' Hh'' Ho'' Hoe''. rewrite (Heq c' o' oe') by done. by eapply Him.
  - intros Him c' o' oe' Hc' Ho'' Hoe''. rewrite (Heq c' o' oe') by done. by eapply Him.
Qed.

Lemma wp_write_ctxs s phys delta base l done_ img (Q : () → hdr_state → Prop) :
  inv E ∅ ∅ s → 0 ≤ delta → delta + t_end (st_ctx_tbl s) ≤ Z.of_nat (length img) → NoDup (l ++ done_) →
  (∀ q, q ∈ l → is_Some (st_ctxs s !! q)) →
  (∀ q, q ∈ done_ → ctx_in_image s base delta img q) → (∀ q, q ∈ l → ctx_empty s delta img q) →
  (∀ img', length img' = length img → (∀ q, q ∈ l ++ done_ → ctx_in_image s base delta img' q) →
     Q () (with_bufs (<[phys := img']> (st_bufs s)) s)) →
  wp (write_ctxs phys delta base l) Q (with_bufs (<[phys := img]> (st_bufs s)) s).
Proof.
  intros Hi Hd. revert done_ img. induction l as [|q l IH]; intros done_ img Hlen Hnd Hl Hdone Hem HQ;
    cbn [write_ctxs].
  { wp_steps. by apply HQ. }
  destruct (Hl q) as [c Hq]; [set_solver|].
  destruct (ctx_place s q c Hi Hq) as (o & oe & h & Ho & Hoe & Hh & H0 & H16 & He).
  pose proof Hnd as Hnd0. rewrite <- app_comm_cons in Hnd0. apply list.NoDup_cons in Hnd0 as [Hqn Hnd0].
  wp_step. eapply wp_ctx_at; [done|]. wp_step.
  eapply (wp_write_ctx s phys delta base q c h o oe img); try done; [lia|lia|by apply (Hem q ltac:(set_solver) c o oe)|].
  apply (IH (q :: done_)).
  - rewrite length_patch; [done|]. rewrite length_ctx_image. lia.
  - by rewrite <- Permutation_middle.
  - set_solver.
  - intros q' [->|Hq']%elem_of_cons.
    + intros c' h' o' oe' Hc' Hh' Ho' Hoe'. simplify_eq. rewrite <- (length_ctx_image s base c h) at 1. apply slice_patch. rewrite length_ctx_image. lia.
    + apply (ctx_image_patch s base delta img q q' c h o oe); try done; [set_solver|auto].
  - intros q' Hq'. apply (ctx_image_patch s base delta img q q' c h o oe); try done; [set_solver|].
    apply Hem. set_solver.
  - intros img' Hlen' Him. apply HQ.
    + rewrite Hlen'. apply length_patch. rewrite length_ctx_image. lia.
    + intros q' Hq'. apply Him. set_solver.
Qed.

(** Aligning moves the start by less than 8 bytes. *)
Lemma alignment_delta phys : 0 ≤ IPA_HDR_PROC_CTX_TABLE_ALIGNMENT phys - phys < 8 ∧
  (8 | IPA_HDR_PROC_CTX_TABLE_ALIGNMENT phys).
Proof.
  unfold IPA_HDR_PROC_CTX_TABLE_ALIGNMENT, IPA_HDR_PROC_CTX_TABLE_ALIGNMENT_BYTE.
  rewrite <- Z.ldiff_land. change (8 - 1) with (Z.ones 3). rewrite Z.ldiff_ones_r by lia.
  rewrite Z.shiftl_mul_pow2, Z.shiftr_div_pow2 by lia. change (2 ^ 3) with 8.
  pose proof (Z.div_mod (phys + 8 - 1) 8). pose proof (Z.mod_pos_bound (phys + 8 - 1) 8).
  split; [lia|]. apply Z.divide_factor_r.
Qed.

Definition ctx_table_size s : Z :=
  if t_end (st_ctx_tbl s) =? 0 then 4 else t_end (st_ctx_tbl s).

Lemma wp_generate_ctx s base (Q : Z * ipa_mem_buffer * ipa_mem_buffer → hdr_state → Prop) :
  inv E ∅ ∅ s →
  (∀ n', Q (-ENOMEM, mkMem 0 0, mkMem 0 0) (mkSt (st_hdrs s) (st_ctxs s) (st_hdr_tbl s) (st_ctx_tbl s)
     (st_idr s) (st_maps s) (st_bufs s) (st_hdr_mem s) (st_ctx_mem s) (st_sent s) n')) →
  (∀ phys img, let table := IPA_HDR_PROC_CTX_TABLE_ALIGNMENT phys in
     0 < phys → st_bufs s !! phys = None →
     Z.of_nat (length img) = ctx_table_size s + 8 →
     (∀ q, ctx_in_image s (if hdr_tbl_lcl E then apps_hdr_ofst E else u32 base) (table - phys) img q) →
     Q (0, mkMem phys (ctx_table_size s + 8), mkMem table (ctx_table_size s))
       (with_bufs (<[phys := img]> (st_bufs s)) (tick s))) →
  wp (ipa_generate_hdr_proc_ctx_hw_tbl E base) Q s.
Proof using HE.
  intros Hi Hno Hyes. unfold ipa_generate_hdr_proc_ctx_hw_tbl. wp_steps. cbv zeta.
  pose proof (so_end _ _ _ _ (i_ctx_slots _ _ _ _ Hi)) as [Hend _]. pose proof (ok_ctx_limit E HE) as Hlim.
  assert (0 < ctx_table_size s < 2 ^ 16 + 4 ∧ t_end (st_ctx_tbl s) ≤ ctx_table_size s) as [Hsz Hle].
  { unfold ctx_table_size. destruct (Z.eqb_spec (t_end (st_ctx_tbl s)) 0); lia. }
  change (if t_end (st_ctx_tbl s) =? 0 then 4 else t_end (st_ctx_tbl s)) with (ctx_table_size s).
  unfold IPA_HDR_PROC_CTX_TABLE_ALIGNMENT_BYTE. rewrite u32_small by lia.
  unfold dma_alloc_coherent. wp_steps. apply wp_new_buf; [wp_steps; by apply Hno|]. intros phys Hph Hfree.
  destruct (alignment_delta phys) as [Hdelta _]. cbn [m_phys_base m_size].
  rewrite u32_small by lia. replace (ctx_table_size s + 8 - 8) with (ctx_table_size s) by lia.
  wp_step. eapply wp_store_bytes; [fields; by rewrite lookup_insert_eq|lia| |].
  all: rewrite ?length_map, ?length_seqZ; unfold zeros; rewrite ?length_replicate; try lia.
  fields. rewrite insert_insert_eq. wp_step. unfold ipa_hdr_proc_ctx_to_hw_format. wp_steps. fields.
  destruct (i_ctx_listed _ _ _ _ Hi) as (Hnd & Hl & _).
  set (delta := IPA_HDR_PROC_CTX_TABLE_ALIGNMENT phys - phys) in *.
  set (buf := map (env_fill E s) (seqZ 0 (ctx_table_size s + 8))).
  assert (length buf = Z.to_nat (ctx_table_size s + 8)) as Hbuf by (unfold buf; by rewrite length_map, length_seqZ).
  apply (wp_write_ctxs (tick s) phys delta _ _ []); fields.
  - by apply inv_tick.
  - lia.
  - rewrite length_patch by (rewrite length_replicate, Hbuf; lia). rewrite Hbuf. lia.
  - by rewrite app_nil_r.
  - intros q. apply Hl.
  - intros q Hq. by apply elem_of_nil in Hq.
  - intros q Hq c o oe Hc Ho Hoe.
    destruct (ctx_place s q c Hi Hc) as (o' & oe' & h & Ho' & Hoe' & _ & H0 & H16 & He). fields. simplify_eq.
    apply slice_zeros; [rewrite Hbuf; lia|]. lia.
  - intros img Hlen Him. wp_steps. apply Hyes; [done|done| |].
    + rewrite Hlen, length_patch by (rewrite length_replicate, Hbuf; lia). rewrite Hbuf. lia.
    + intros q c h o oe Hq. apply (Him q); [|done]. rewrite app_nil_r. apply Hl. eauto.
Qed.

(** ** Commits *)

(** The command that gives the header table at [phys]. *)
Definition hdr_cmd (phys size : Z) : imm_cmd :=
  if hdr_tbl_lcl E then
    if ipa_hw_type E =? IPA_HW_v1_1 then HdrInitLocal (u32 phys) (size mod 2 ^ 12) IPA_MEM_v1_RAM_HDR_OFST
    else DmaSharedMem (u32 phys) (u16 size) (u16 (smem_restricted_bytes E + apps_hdr_ofst E))
  else HdrInitSystem (u32 phys).
Definition ctx_cmd (table size : Z) : imm_cmd :=
  if hdr_proc_ctx_tbl_lcl E then
    DmaSharedMem (u32 table) (u16 size) (u16 (smem_restricted_bytes E + apps_hdr_proc_ctx_ofst E))
  else RegisterWrite IPA_SYS_PKT_PROC_CNTXT_BASE_OFST (u32 table)
         (u32 (Z.lnot (IPA_HDR_PROC_CTX_TABLE_ALIGNMENT_BYTE - 1))).

(** The commands give complete images of the tables of [s], which are in [bufs]. *)
Definition hdr_cmd_ok s (bufs : gmap Z (list Z)) (phys : Z) (c : imm_cmd) : Prop :=
  ∃ img, bufs !! phys = Some img ∧ Z.of_nat (length img) = t_end (st_hdr_tbl s) ∧
    (∀ p, hdr_in_image s img p) ∧ c = hdr_cmd phys (t_end (st_hdr_tbl s)).
Definition ctx_cmd_ok s (base : Z) (bufs : gmap Z (list Z)) (c : imm_cmd) : Prop :=
  ∃ phys img, let table := IPA_HDR_PROC_CTX_TABLE_ALIGNMENT phys in
    bufs !! phys = Some img ∧ Z.of_nat (length img) = ctx_table_size s + 8 ∧
    (∀ q, ctx_in_image s base (table - phys) img q) ∧ c = ctx_cmd table (ctx_table_size s).
Definition cmds_ok s (bufs : gmap Z (list Z)) (phys : Z) (l : list imm_cmd) : Prop :=
  ∃ c0, hdr_cmd_ok s bufs phys c0 ∧
    if ipa_hw_type E =? IPA_HW_v2_5 then
      ∃ c1, l = [c0; c1] ∧ ctx_cmd_ok s (if hdr_tbl_lcl E then apps_hdr_ofst E else u32 phys) bufs c1
    else l = [c0].

(** A commit leaves the tables; a failed one leaves the buffers of the hardware, and after a
    successful one the hardware has the images. *)
Record committed (rc : Z) s s' : Prop := {
  cm_hdrs : st_hdrs s' = st_hdrs s;
  cm_ctxs : st_ctxs s' = st_ctxs s;
  cm_hdr_tbl : st_hdr_tbl s' = st_hdr_tbl s;
  cm_ctx_tbl : st_ctx_tbl s' = st_ctx_tbl s;
  cm_idr : st_idr s' = st_idr s;
  cm_maps : st_maps s' = st_maps s;
  cm_mem : mem_ok s';
  cm_failed : rc ≠ 0 → st_hdr_mem s' = st_hdr_mem s ∧ st_ctx_mem s' = st_ctx_mem s;
  cm_done : rc = 0 → ∃ cmds bufs phys,
    st_sent s' = (cmds, bufs, 0) :: st_sent s ∧ cmds_ok s bufs phys cmds ∧
    (hdr_tbl_lcl E = false → m_phys_base (st_hdr_mem s') = phys ∧ st_bufs s' !! phys = bufs !! phys);
}.

Lemma committed_inv D H rc s s' : committed rc s s' → inv E D H s → inv E D H s'.
Proof. intros [] Hi. by eapply inv_ext. Qed.

Lemma wp_dma_free m b (Q : () → hdr_state → Prop) s :
  st_bufs s !! m_phys_base m = Some b → Z.of_nat (length b) = m_size m →
  Q () (with_bufs (delete (m_phys_base m) (st_bufs s)) s) → wp (dma_free_coherent m) Q s.
Proof.
  intros Hb Hl HQ. unfold dma_free_coherent. wp_steps. rewrite Hl, Z.eqb_refl. by wp_steps.
Qed.

(** The state after a buffer is settled. *)
Record settled (k : table) (lcl ok : bool) (m : ipa_mem_buffer) (b : list Z) s s' : Prop := {
  se_hdrs : st_hdrs s' = st_hdrs s;
  se_ctxs : st_ctxs s' = st_ctxs s;
  se_hdr_tbl : st_hdr_tbl s' = st_hdr_tbl s;
  se_ctx_tbl : st_ctx_tbl s' = st_ctx_tbl s;
  se_idr : st_idr s' = st_idr s;
  se_maps : st_maps s' = st_maps s;
  se_sent : st_sent s' = st_sent s;
  se_mem : mem_ok s';
  se_bufs : ∀ x, x ≠ m_phys_base m → x ≠ m_phys_base (st_mem s k) → st_bufs s' !! x = st_bufs s !! x;
  se_mems : ∀ k', st_mem s' k' = if decide (k' = k ∧ lcl = false ∧ ok = true) then m else st_mem s k';
  se_new : lcl = false → ok = true → st_bufs s' !! m_phys_base m = Some b;
}.

Lemma mem_other k k' s : mem_ok s → k ≠ k' →
  m_phys_base (st_mem s k) = m_phys_base (st_mem s k') → m_phys_base (st_mem s k) = 0.
Proof. intros [_ Hne] Hk Heq. destruct k, k'; cbn in *; try done; [auto|]. rewrite Heq. by apply Hne. Qed.

Lemma wp_settle k lcl ok m b (Q : () → hdr_state → Prop) s :
  mem_ok s → st_bufs s !! m_phys_base m = Some b → Z.of_nat (length b) = m_size m → m_phys_base m ≠ 0 →
  (∀ k', m_phys_base (st_mem s k') ≠ m_phys_base m) →
  (∀ s', settled k lcl ok m b s s' → Q () s') →
  wp (settle k lcl ok m) Q s.
Proof.
  intros Hm Hb Hl H0 Hne HQ.
  assert (lcl = true ∨ ok = false → wp (dma_free_coherent m) Q s) as Hfree.
  { intros Hc. eapply wp_dma_free; [done..|]. apply HQ. constructor; fields; try done.
    - split; [|by destruct Hm]. intros k'. destruct Hm as [Hm _]. destruct (Hm k') as [|(b' & Hb' & Hl')]; [by destruct k'; left|].
      right. exists b'. destruct k'; fields; rewrite lookup_delete_ne; try done; apply not_eq_sym.
      + apply (Hne HdrTable).
      + apply (Hne CtxTable).
    - intros x Hx _. by rewrite lookup_delete_ne.
    - intros k'. rewrite decide_False; [by destruct k'|]. naive_solver.
    - naive_solver. }
  unfold settle. destruct lcl; [by apply Hfree; left|]. destruct ok; [|by apply Hfree; right].
  wp_steps. assert (∀ bf, bf !! m_phys_base m = Some b →
    (∀ x, x ≠ m_phys_base (st_mem s k) → bf !! x = st_bufs s !! x) →
    Q () (with_mem k m (with_bufs bf s))) as Hend.
  { intros bf Hbf Hbfs. apply HQ. constructor; try done; try by destruct k.
    - split.
      + intros k'. destruct (decide (k' = k)) as [->|Hk].
        * right. exists b. by destruct k.
        * destruct Hm as [Hm Hm2]. destruct (Hm k') as [|(b' & Hb' & Hl')]; [by left; destruct k, k'|].
          destruct (decide (m_phys_base (st_mem s k') = 0)) as [Hz|Hz]; [by left; destruct k, k'|].
          right. exists b'. assert (st_mem (with_mem k m (with_bufs bf s)) k' = st_mem s k') as -> by (by destruct k, k').
          assert (st_bufs (with_mem k m (with_bufs bf s)) = bf) as -> by (by destruct k).
          rewrite Hbfs; [done|]. intros Heq. apply Hz. by eapply (mem_other k' k).
      + pose proof (Hne HdrTable). pose proof (Hne CtxTable). destruct k; fields; intros; congruence.
    - intros x _ Hx. rewrite <- Hbfs by done. by destruct k.
    - intros k'. destruct (decide (k' = k)) as [->|Hk].
      + rewrite decide_True by done. by destruct k.
      + rewrite decide_False by naive_solver. by destruct k, k'. }
  apply wp_when.
  - intros Hz. destruct Hm as [Hm _]. destruct (Hm k) as [Hk|(b' & Hb' & Hl')]; [by rewrite Hk in Hz|].
    eapply wp_dma_free; [done..|]. wp_steps. apply Hend.
    + by rewrite lookup_delete_ne.
    + intros x Hx. by rewrite lookup_delete_ne.
  - intros Hz. wp_steps. specialize (Hend (st_bufs s) Hb (λ _ _, eq_refl)). by destruct s.
Qed.

(** A state that differs in the buffers, what was sent and the time. *)
Definition at_buf s (bufs : gmap Z (list Z)) (sent : list (list imm_cmd * gmap Z (list Z) * Z)) (n : nat)
    : hdr_state :=
  mkSt (st_hdrs s) (st_ctxs s) (st_hdr_tbl s) (st_ctx_tbl s) (st_idr s) (st_maps s) bufs (st_hdr_mem s)
    (st_ctx_mem s) sent n.

Lemma fresh_mem s phys k : mem_ok s → 0 < phys → st_bufs s !! phys = None → m_phys_base (st_mem s k) ≠ phys.
Proof. intros [Hm _] H0 Hf Heq. destruct (Hm k) as [|(b & Hb & _)]; [lia|]. by rewrite Heq, Hf in Hb. Qed.

Lemma mem_ok_at s phys img sent n : mem_ok s → 0 < phys → st_bufs s !! phys = None →
  mem_ok (at_buf s (<[phys := img]> (st_bufs s)) sent n).
Proof.
  intros Hmem H0 Hf. pose proof (fresh_mem s phys HdrTable Hmem H0 Hf) as F1.
  pose proof (fresh_mem s phys CtxTable Hmem H0 Hf) as F2. destruct Hmem as [Hm Hne].
  split; [|done]. intros k. destruct (Hm k) as [|(b & Hb & Hl)]; [by left; destruct k|].
  right. exists b. destruct k; cbn in *; by rewrite lookup_insert_ne.
Qed.

Lemma wp_hdr_command mem (Q : Z + imm_cmd → hdr_state → Prop) s :
  ipa_hw_type E ≠ IPA_HW_v1_1 → m_size mem ≤ hdr_limit E →
  (∀ e, e ≠ 0 → Q (inl e) (tick s)) → Q (inr (hdr_cmd (m_phys_base mem) (m_size mem))) (tick s) →
  wp (hdr_command E mem) Q s.
Proof using.
  intros Hhw Hl Hno Hyes. unfold hdr_command. fold (hdr_limit E). rewrite (proj2 (Z.ltb_ge _ _)) by done.
  wp_step. apply wp_ask. apply wp_ret. destruct (env_alloc E s); cbn [negb]; [|by apply Hno].
  unfold hdr_cmd in Hyes. rewrite (proj2 (Z.eqb_neq _ _)) in Hyes by done. exact Hyes.
Qed.

Lemma wp_ctx_command mem (Q : Z + imm_cmd → hdr_state → Prop) s :
  (∀ e n, e ≠ 0 → Q (inl e) (at_buf s (st_bufs s) (st_sent s) n)) →
  Q (inr (ctx_cmd (m_phys_base mem) (m_size mem))) (tick s) →
  wp (ctx_command E mem) Q s.
Proof using.
  intros Hno Hyes. unfold ctx_command. case_match.
  - apply wp_ret. specialize (Hno (-EFAULT) (st_time s)). destruct s. by apply Hno.
  - wp_step. apply wp_ask. apply wp_ret. destruct (env_alloc E s); cbn [negb]; [exact Hyes|by apply Hno].
Qed.

Lemma wp_send_result l (Q : Z → hdr_state → Prop) s :
  (∀ rc n, let s' := at_buf s (st_bufs s) ((l, st_bufs s, rc) :: st_sent s) n in
     Q (if rc =? 0 then 0 else -EFAULT) s') →
  wp (send_result E l) Q s.
Proof using. intros HQ. unfold send_result, ipa_send_cmd. wp_steps. apply wp_ask. wp_steps. apply HQ. Qed.

(** The end of a commit of one table. *)
Lemma wp_commit_end s phys img sent n rc ok (Q : () → hdr_state → Prop) :
  mem_ok s → 0 < phys → st_bufs s !! phys = None → Z.of_nat (length img) = t_end (st_hdr_tbl s) →
  ipa_hw_type E ≠ IPA_HW_v2_5 → (∀ p, hdr_in_image s img p) →
  (rc ≠ 0 → ok = false) →
  (rc = 0 → ok = true ∧ sent = ([hdr_cmd phys (t_end (st_hdr_tbl s))], <[phys := img]> (st_bufs s), 0) :: st_sent s) →
  (∀ s', committed rc s s' → Q () s') →
  wp (settle HdrTable (hdr_tbl_lcl E) ok (mkMem phys (t_end (st_hdr_tbl s)))) Q
    (at_buf s (<[phys := img]> (st_bufs s)) sent n).
Proof using.
  intros Hmem H0 Hf Hlen Hhw Him Hbad Hgood HQ.
  eapply (wp_settle HdrTable _ _ _ img); [by apply mem_ok_at|cbn; by rewrite lookup_insert_eq|done|cbn; lia| |].
  - intros k. pose proof (fresh_mem s phys k Hmem H0 Hf). by destruct k.
  - intros s' [S1 S2 S3 S4 S5 S6 S7 S8 S9 S10 S11]. apply HQ. constructor; try done.
    + intros Hrc. pose proof (S10 HdrTable) as M1. pose proof (S10 CtxTable) as M2.
      rewrite (Hbad Hrc) in *. rewrite decide_False in M1 by naive_solver. by rewrite decide_False in M2 by naive_solver.
    + intros Hrc. destruct (Hgood Hrc) as [-> Hsent]. exists [hdr_cmd phys (t_end (st_hdr_tbl s))], (<[phys:=img]> (st_bufs s)), phys.
      split_and!; [by rewrite S7, <- Hsent| |].
      * eexists. split; [exists img; split_and!; try done; by rewrite lookup_insert_eq|].
        by rewrite (proj2 (Z.eqb_neq _ _)).
      * intros Hl. pose proof (S11 Hl eq_refl) as Hb. cbn in Hb. rewrite Hb, lookup_insert_eq. split; [|done].
        pose proof (S10 HdrTable) as M1. rewrite decide_True in M1 by done. cbn in M1. by rewrite M1.
Qed.

(** A commit that could not start. *)
Lemma committed_none s rc n : mem_ok s → rc ≠ 0 → committed rc s (at_buf s (st_bufs s) (st_sent s) n).
Proof. intros Hm Hrc. constructor; try done. Qed.

Lemma end_limit s : inv E ∅ ∅ s → t_end (st_hdr_tbl s) ≤ hdr_limit E.
Proof. intros Hi. pose proof (so_end _ _ _ _ (i_hdr_slots _ _ _ _ Hi)). lia. Qed.

Lemma wp_commit_v2 s (Q : Z → hdr_state → Prop) :
  inv E ∅ ∅ s → ipa_hw_type E ≠ IPA_HW_v1_1 → ipa_hw_type E ≠ IPA_HW_v2_5 →
  (∀ rc s', committed rc s s' → Q rc s') → wp (__ipa_commit_hdr_v2 E) Q s.
Proof using HE.
  intros Hi Hhw1 Hhw2 HQ. pose proof (i_mem _ _ _ _ Hi) as Hmem. unfold __ipa_commit_hdr_v2. wp_step.
  apply wp_generate_hdr; [done| |].
  { intros rc n Hrc. rewrite (proj2 (Z.eqb_neq rc 0)) by done. wp_steps. apply HQ. by apply committed_none. }
  intros phys img H0 Hf Hne Hlen Him. cbn [negb Z.eqb]. wp_step.
  apply wp_hdr_command; [done|by apply end_limit| |].
  - intros e He. do 2 wp_step. apply wp_ret. wp_step.
    apply (wp_commit_end s phys img (st_sent s) _ e (e =? 0)); try done.
    + intros _. by apply Z.eqb_neq.
    + intros s' Hc. apply wp_ret. by apply HQ.
  - wp_step. apply wp_send_result. intros rc n. cbv zeta. wp_step.
    apply (wp_commit_end s phys img _ n (if rc =? 0 then 0 else -EFAULT)); try done.
    + by destruct (rc =? 0).
    + destruct (Z.eqb_spec rc 0) as [->|]; done.
    + intros s' Hc. apply wp_ret. by apply HQ.
Qed.

Lemma wp_commit_v1_1 s (Q : Z → hdr_state → Prop) :
  inv E ∅ ∅ s → ipa_hw_type E = IPA_HW_v1_1 →
  (∀ rc s', committed rc s s' → Q rc s') → wp (__ipa_commit_hdr_v1_1 E) Q s.
Proof using HE.
  intros Hi Hhw HQ. pose proof (i_mem _ _ _ _ Hi) as Hmem. unfold __ipa_commit_hdr_v1_1.
  assert (∀ n, Q (-EPERM) (at_buf s (st_bufs s) (st_sent s) n)) as Hno.
  { intros n. apply HQ. by apply committed_none. }
  wp_step. apply wp_ask. destruct (env_alloc E s); cbn [negb]; [|wp_steps; by apply Hno].
  wp_step. apply wp_ask. destruct (env_alloc E _); cbn [negb]; [|wp_steps; by apply Hno].
  wp_step. apply wp_generate_hdr; [by do 2 apply inv_tick| |].
  { intros rc n Hrc. rewrite (proj2 (Z.eqb_neq rc 0)) by done. wp_steps. by apply Hno. }
  intros phys img H0 Hf Hne Hlen Him. cbn [negb Z.eqb]. fields.
  assert (∀ p, hdr_in_image s img p) as Him' by exact Him.
  assert (ipa_hw_type E ≠ IPA_HW_v2_5) as Hhw2 by (by rewrite Hhw).
  assert (∀ m sent n, wp (settle HdrTable (hdr_tbl_lcl E) false (mkMem phys (t_end (st_hdr_tbl s))))
     (λ _ s', Q (-EPERM) s') (at_buf s (<[phys := img]> (st_bufs s)) sent n) →
     m = mkMem phys (t_end (st_hdr_tbl s)) →
     wp (dma_free_coherent m) (λ _ s', wp (mret (-EPERM)) Q s') (at_buf s (<[phys := img]> (st_bufs s)) sent n))
    as Hfree.
  { intros m sent n Hw ->. unfold settle in Hw. destruct (hdr_tbl_lcl E); exact Hw. }
  match goal with |- wp (if ?b then _ else _) _ _ => destruct b end.
  { wp_step. apply (Hfree _ (st_sent s)); [|done].
    apply (wp_commit_end s phys img _ _ (-EPERM) false); try done. intros s' Hc. by apply HQ. }
  wp_step. unfold ipa_send_cmd. wp_steps. apply wp_ask. wp_steps.
  match goal with |- wp (if negb (?r =? 0) then _ else _) _ _ => destruct (Z.eqb_spec r 0) as [Hr|Hr] end; cbn [negb].
  - wp_step. apply (wp_commit_end s phys img _ _ 0 true); try done.
    + intros _. split; [done|]. fields. rewrite Hr. unfold hdr_cmd. by rewrite Hhw.
    + intros s' Hc. apply wp_ret. by apply HQ.
  - wp_step. eapply (Hfree _ (_ :: st_sent s)); [|done].
    apply (wp_commit_end s phys img _ _ (-EPERM) false); try done. intros s' Hc. by apply HQ.
Qed.

(** The end of a commit of both tables, at [hp] and [cp]. *)
Lemma wp_commit_end2 s hp hi cp ci sent n rc csize (Q : Z → hdr_state → Prop) :
  let bufs := <[cp := ci]> (<[hp := hi]> (st_bufs s)) in
  mem_ok s → 0 < hp → st_bufs s !! hp = None → 0 < cp → cp ≠ hp → st_bufs s !! cp = None →
  Z.of_nat (length hi) = t_end (st_hdr_tbl s) → Z.of_nat (length ci) = csize →
  (rc = 0 → ∃ cmds, sent = (cmds, bufs, 0) :: st_sent s ∧ cmds_ok s bufs hp cmds) →
  (∀ s', committed rc s s' → Q rc s') →
  wp (settle CtxTable (hdr_proc_ctx_tbl_lcl E) (rc =? 0) (mkMem cp csize) ;;
      settle HdrTable (hdr_tbl_lcl E) (rc =? 0) (mkMem hp (t_end (st_hdr_tbl s))) ;;
      mret rc) Q (at_buf s bufs sent n).
Proof using.
  intros bufs Hmem Hh0 Hhf Hc0 Hch Hcf Hhl Hcl Hgood HQ.
  assert (∀ k, m_phys_base (st_mem s k) ≠ hp) as Fh by (intros k; by apply fresh_mem).
  assert (∀ k, m_phys_base (st_mem s k) ≠ cp) as Fc by (intros k; by apply fresh_mem).
  assert (mem_ok (at_buf s bufs sent n)) as Hm1.
  { refine (mem_ok_at (at_buf s (<[hp:=hi]> (st_bufs s)) sent n) cp ci sent n _ Hc0 _); [by apply mem_ok_at|].
    cbn. by rewrite lookup_insert_ne. }
  wp_step. eapply (wp_settle CtxTable _ _ _ ci); [done|unfold bufs; cbn; by rewrite lookup_insert_eq|done|cbn; lia| |].
  { intros k. specialize (Fc k). by destruct k. }
  intros s1 [S1 S2 S3 S4 S5 S6 S7 S8 S9 S10 S11]. unfold at_buf in *. fields. cbn [m_phys_base] in *.
  assert (st_bufs s1 !! hp = Some hi) as Hb1.
  { rewrite S9; [|done|apply (not_eq_sym (Fh CtxTable))]. cbn. unfold bufs. rewrite lookup_insert_ne by done. apply lookup_insert_eq. }
  wp_step. eapply (wp_settle HdrTable _ _ _ hi); [done|done|done|cbn; lia| |].
  { intros k. rewrite S10. match goal with |- context [decide ?P] => destruct (decide P) end; [exact Hch|].
    specialize (Fh k). by destruct k. }
  intros s2 [T1 T2 T3 T4 T5 T6 T7 T8 T9 T10 T11]. apply wp_ret. apply HQ.
  constructor; try congruence.
  - intros Hrc. rewrite (proj2 (Z.eqb_neq rc 0) Hrc) in *.
    assert (∀ k, st_mem s2 k = st_mem s k) as Hk.
    { intros k. rewrite T10, decide_False by naive_solver. rewrite S10, decide_False by naive_solver. by destruct k. }
    split; [apply (Hk HdrTable)|apply (Hk CtxTable)].
  - intros Hrc. destruct (Hgood Hrc) as (cmds & -> & Hok). exists cmds, bufs, hp.
    split_and!; [by rewrite T7, S7|done|]. intros Hl. cbn [m_phys_base] in T11. rewrite (T11 Hl) by (by rewrite Hrc).
    split.
    + pose proof (T10 HdrTable) as M. rewrite decide_True in M by (by rewrite Hrc). cbn in M. by rewrite M.
    + unfold bufs. rewrite lookup_insert_ne by done. by rewrite lookup_insert_eq.
Qed.

Lemma wp_commit_v2_5 s (Q : Z → hdr_state → Prop) :
  inv E ∅ ∅ s → ipa_hw_type E = IPA_HW_v2_5 →
  (∀ rc s', committed rc s s' → Q rc s') → wp (__ipa_commit_hdr_v2_5 E) Q s.
Proof using HE.
  intros Hi Hhw HQ. pose proof (i_mem _ _ _ _ Hi) as Hmem. unfold __ipa_commit_hdr_v2_5. wp_step.
  apply wp_generate_hdr; [done| |].
  { intros rc n Hrc. rewrite (proj2 (Z.eqb_neq rc 0)) by done. wp_steps. apply HQ. by apply committed_none. }
  intros hp hi Hh0 Hhf Hne Hlen Him. cbn [negb Z.eqb]. wp_step.
  assert (inv E ∅ ∅ (at_buf s (<[hp:=hi]> (st_bufs s)) (st_sent s) (S (st_time s)))) as Hi1.
  { eapply inv_ext; try done. by apply mem_ok_at. }
  apply (wp_generate_ctx (at_buf s (<[hp:=hi]> (st_bufs s)) (st_sent s) (S (st_time s)))); [done| |].
  { (* the buffer of the header table is lost *)
    intros n. cbn [negb Z.eqb]. wp_steps. apply HQ. constructor; try done. exact (mem_ok_at s hp hi _ n Hmem Hh0 Hhf). }
  intros cp ci table Hc0 Hcf Hcl Hcim. cbn [negb Z.eqb m_phys_base]. cbn in Hcf.
  assert (cp ≠ hp) as Hch by (intros ->; by rewrite lookup_insert_eq in Hcf).
  rewrite lookup_insert_ne in Hcf by done.
  assert (∀ sent n rc, (rc = 0 → ∃ cmds, sent = (cmds, <[cp := ci]> (<[hp := hi]> (st_bufs s)), 0) :: st_sent s ∧
      cmds_ok s (<[cp := ci]> (<[hp := hi]> (st_bufs s))) hp cmds) →
    wp (settle CtxTable (hdr_proc_ctx_tbl_lcl E) (rc =? 0) (mkMem cp (ctx_table_size s + 8)) ;;
        settle HdrTable (hdr_tbl_lcl E) (rc =? 0) (mkMem hp (t_end (st_hdr_tbl s))) ;;
        mret rc) Q (at_buf s (<[cp := ci]> (<[hp := hi]> (st_bufs s))) sent n)) as Hend.
  { intros sent n rc Hg. apply wp_commit_end2; try done; by auto. }
  wp_step. apply wp_hdr_command; [by rewrite Hhw|by apply end_limit| |].
  { intros e He. do 2 wp_step. apply (Hend (st_sent s) _ e). done. }
  do 2 wp_step. apply wp_ctx_command.
  { intros e n He. wp_step. apply (Hend (st_sent s) _ e). done. }
  apply wp_send_result. intros rc n. cbv zeta. eapply (Hend (_ :: st_sent s) n).
  destruct (Z.eqb_spec rc 0) as [->|]; [|done]. intros _.
  exists [hdr_cmd hp (t_end (st_hdr_tbl s)); ctx_cmd table (ctx_table_size s)]. split; [done|].
  exists (hdr_cmd hp (t_end (st_hdr_tbl s))). split.
  - exists hi. rewrite lookup_insert_ne by done. by rewrite lookup_insert_eq.
  - rewrite Hhw. eexists. split; [done|]. exists cp, ci. rewrite lookup_insert_eq. by split_and!.
Qed.

Lemma wp_commit s (Q : Z → hdr_state → Prop) :
  inv E ∅ ∅ s → (∀ rc s', committed rc s s' → Q rc s') → wp (ipa_commit_hdr E) Q s.
Proof using HE.
  intros Hi HQ. unfold ipa_commit_hdr, __ipa_commit_hdr_v2_6L.
  destruct (Z.eqb_spec (ipa_hw_type E) IPA_HW_v1_1); [by apply wp_commit_v1_1|].
  destruct (Z.eqb_spec (ipa_hw_type E) IPA_HW_v2_5); [by apply wp_commit_v2_5|].
  destruct (ipa_hw_type E =? IPA_HW_v2_6L); by apply wp_commit_v2.
Qed.

End Commit.
