(* ===== verification/HdrReset.v ===== *)
(** * IPA header tables: the reset

    [ipa2_reset_hdr] removes the headers, then the processing contexts, of user space or all,
    except for the default header. *)

From S2P Require Import Prelude.
From S2P Require Import HdrTypes.
From S2P Require Import Hdr.
From S2P Require Import HdrInv.
From S2P Require Import HdrKeep.
From S2P Require Import HdrAddRuns.
From S2P Require Import HdrDelRuns.
From S2P Require Import HdrCommit.

Implicit Types (D H : gset positive) (s : hdr_state).

(** What a reset removes. *)
Definition hdr_goes (user_only : bool) (e : ipa_hdr_entry) : bool := negb user_only || h_ipacm_installed e.
Definition ctx_goes (user_only : bool) (c : ipa_hdr_proc_ctx_entry) : bool :=
  negb user_only || c_ipacm_installed c.

(** No context of the kernel stays without its header, and, when all goes, the default header
    is there. *)
Definition reset_ok s (user_only : bool) : Prop :=
  (∀ q c e, st_ctxs s !! q = Some c → st_hdrs s !! c_hdr c = Some e → ctx_goes user_only c = false →
     is_default s e ∨ hdr_goes user_only e = false) ∧
  (user_only = false → ∃ p e, st_hdrs s !! p = Some e ∧ is_default s e).

Section Reset.
Context (E : hdr_env) {HE : hdr_env_ok E}.
Context (u : bool).

(** The contexts that go and that no header owns are in [D]. *)
Definition going D s : Prop :=
  ∀ q, q ∈ D ↔ ∃ c, st_ctxs s !! q = Some c ∧ ctx_goes u c = true ∧ not_own s q.

(** The end of the loop over the headers. *)
Record hdrs_reset s s' (l : list positive) : Prop := {
  hr_hdrs : ∀ p e, st_hdrs s' !! p = Some e ↔
    st_hdrs s !! p = Some e ∧ (p ∈ l → is_default s e ∨ hdr_goes u e = false);
  hr_default : ∀ e, is_default s' e ↔ is_default s e;
  hr_ctxs : st_ctxs s' = st_ctxs s;
  hr_ctx_tbl : st_ctx_tbl s' = st_ctx_tbl s;
}.

Definition rule s : Prop :=
  ∀ q c e, st_ctxs s !! q = Some c → st_hdrs s !! c_hdr c = Some e → ctx_goes u c = false →
    is_default s e ∨ hdr_goes u e = false.

Lemma default_not_ddr D H s p e : inv E D H s → st_hdrs s !! p = Some e → is_default s e →
  h_is_hdr_proc_ctx e = false.
Proof.
  intros Hi Hp [Hn _]. pose proof (ho_place _ _ _ _ _ (i_hdrs _ _ _ _ Hi p e Hp)) as Hpl.
  destruct (h_is_hdr_proc_ctx e); [|done]. by destruct Hpl as (_ & _ & ? & _).
Qed.

(** The own context of a header goes when the header does. *)
Lemma own_goes D s p e q c : inv E D ∅ s → st_hdrs s !! p = Some e → h_proc_ctx e = Some q →
  st_ctxs s !! q = Some c → ctx_goes u c = hdr_goes u e ∧ c_hdr c = p.
Proof.
  intros Hi Hp Hq Hc. pose proof (ho_place _ _ _ _ _ (i_hdrs _ _ _ _ Hi p e Hp)) as Hpl.
  destruct (h_is_hdr_proc_ctx e).
  - destruct Hpl as (_ & _ & _ & [[? _]|(q' & c' & Hq' & Hc' & Hcp & _ & _ & Hins)]); [set_solver|].
    unfold ctx_goes, hdr_goes. simplify_eq. by rewrite Hins.
  - destruct Hpl as [? _]. congruence.
Qed.

(** Removing one header. *)
Definition gone_tbl s (p : positive) (e : ipa_hdr_entry) : ipa_hdr_tbl :=
  let t := st_hdr_tbl s in
  let t1 := match h_offset_entry e with
            | Some o => match t_offs t !! o with
                        | Some oe => tbl_release o (o_bin oe) (tbl_mark o oe false t)
                        | None => t
                        end
            | None => t
            end in
  tbl_with_entries (filter (λ x, x ≠ p) (t_entry_list t1)) (u32 (t_cnt t1 - 1)) t1.
Definition gone s (p : positive) (e : ipa_hdr_entry) : hdr_state :=
  mkSt (delete p (st_hdrs s)) (st_ctxs s) (gone_tbl s p e) (st_ctx_tbl s) (delete (h_id e) (st_idr s))
    (delete p (st_maps s)) (st_bufs s) (st_hdr_mem s) (st_ctx_mem s) (st_sent s) (st_time s).

Lemma gone_takes D s p e : inv E D ∅ s → st_hdrs s !! p = Some e →
  takes ipa_hdr_bin_sz 4 (hdr_limit E) (st_hdr_tbl s) (gone_tbl s p e) (h_offset_entry e).
Proof.
  intros Hi Hp. unfold gone_tbl. apply takes_entries.
  pose proof (i_hdr_slots _ _ _ _ Hi) as Hs.
  destruct (h_offset_entry e) as [o|] eqn:Ho; [|by split_and!].
  pose proof (sl_used _ _ _ (i_hdr_owned _ _ _ _ Hi) p e o Hp Ho) as Hu.
  assert (is_Some (t_offs (st_hdr_tbl s) !! o)) as [oe Hoe].
  { apply (so_dom _ _ _ (st_hdr_tbl s) o Hs). apply elem_of_app. by left. }
  rewrite Hoe. assert (slots_ok ipa_hdr_bin_sz 4 (hdr_limit E) (tbl_mark o oe false (st_hdr_tbl s))) as Hm
    by (by apply slots_ok_mark).
  destruct (takes_release _ _ _ hdr_sizes o (tbl_mark o oe false (st_hdr_tbl s)) (mkOff (o_offset oe) (o_bin oe) false) Hm)
    as (T1 & T2 & T3).
  - cbn. apply lookup_insert_eq.
  - done.
  - split_and!; [done|by etransitivity; [apply keeps_offs_mark|]|done].
Qed.

Lemma inv_gone D s p e : inv E D ∅ s → st_hdrs s !! p = Some e →
  (∀ q c, st_ctxs s !! q = Some c → c_hdr c = p → q ∈ D ∨ h_proc_ctx e = Some q) →
  inv E (D ∪ own_ctx e) ∅ (gone s p e).
Proof.
  intros Hi Hp Hr. replace (∅ : gset positive) with (∅ ∖ {[p]} : gset positive) by set_solver.
  apply (inv_kill_hdr E D ∅ s _ p e Hi Hp Hr); try done.
  - by eapply gone_takes.
  - unfold gone, gone_tbl. cbn. destruct (h_offset_entry e) as [o|]; [|done]. by destruct (t_offs _ !! o).
  - unfold gone, gone_tbl. cbn. destruct (h_offset_entry e) as [o|]; [|done]. by destruct (t_offs _ !! o).
  - apply (mem_ok_eq s); try done. by destruct Hi.
Qed.

Lemma wp_gone D s p e (Q : () → hdr_state → Prop) :
  inv E D ∅ s → st_hdrs s !! p = Some e → Q () (gone s p e) →
  wp ((if h_is_hdr_proc_ctx e then unmap_hdr p
       else
         o ← of_option (h_offset_entry e);
         oe ← off_at HdrTable (Some o);
         upd_tbl HdrTable (λ t, tbl_with_offs (<[o := mkOff (o_offset oe) (o_bin oe) false]> (t_offs t)) t) ;;
         release_slot HdrTable (Some o)) ;;
      del_entry HdrTable p ;;
      ipa_id_remove (h_id e) ;;
      free_hdr p) Q s.
Proof using.
  intros Hi Hp HQ. pose proof (ho_place _ _ _ _ _ (i_hdrs _ _ _ _ Hi p e Hp)) as Hpl.
  unfold gone, gone_tbl in HQ. wp_step. destruct (h_is_hdr_proc_ctx e).
  - destruct Hpl as (Ho & Hm & _). rewrite Ho in HQ.
    unfold unmap_hdr. wp_step. eapply wp_hdr_at; [done|]. wp_steps. rewrite bool_decide_true by done.
    unfold del_entry, upd_tbl, ipa_id_remove. wp_steps. eapply wp_free_hdr; [done|]. exact HQ.
  - destruct Hpl as (_ & Hm & o & oe & Ho & Hoe & _). rewrite Ho, Hoe in HQ. rewrite Ho.
    rewrite (delete_id (st_maps s)) in HQ by done.
    pose proof (i_hdr_slots _ _ _ _ Hi) as Hs. destruct (so_bin _ _ _ _ o oe Hs Hoe) as (_ & Hb0 & Hb).
    wp_step. eapply wp_of_option; [done|]. wp_step. eapply wp_off_at; [done|]. unfold upd_tbl at 1. wp_steps.
    eapply wp_release_slot; fields; cbn; [apply lookup_insert_eq|done|by rewrite (so_free _ _ _ _ Hs)|].
    unfold del_entry, upd_tbl, ipa_id_remove. wp_steps. eapply wp_free_hdr; fields; [done|]. exact HQ.
Qed.

Lemma default_gone s p e e' : is_default (gone s p e) e' ↔ is_default s e'.
Proof.
  unfold is_default. split; intros [Hn (o & oe & Ho & Hoe & H0)]; (split; [done|]); exists o.
  - unfold gone, gone_tbl in Hoe. cbn in Hoe. destruct (h_offset_entry e) as [o1|]; [|by eauto].
    destruct (t_offs (st_hdr_tbl s) !! o1) as [oe1|] eqn:Ho1; cbn in Hoe; [|by eauto].
    destruct (decide (o = o1)) as [->|Hne]; simplify_map_eq; [by eauto|by eauto].
  - unfold gone, gone_tbl. cbn. destruct (h_offset_entry e) as [o1|]; [|by eauto].
    destruct (t_offs (st_hdr_tbl s) !! o1) as [oe1|] eqn:Ho1; cbn; [|by eauto].
    destruct (decide (o = o1)) as [->|Hne]; simplify_map_eq; [by eauto|by eauto].
Qed.

Lemma going_refs D s p e :
  inv E D ∅ s → going D s → rule s → st_hdrs s !! p = Some e → ¬ is_default s e → hdr_goes u e = true →
  ∀ q c, st_ctxs s !! q = Some c → c_hdr c = p → q ∈ D ∨ h_proc_ctx e = Some q.
Proof.
  intros Hi Hg Hr Hp Hnd Hge q c Hc Hcp.
  destruct (decide (h_proc_ctx e = Some q)) as [|Hne]; [by right|left]. apply Hg. exists c. split_and!; [done| |].
  - destruct (ctx_goes u c) eqn:Hgc; [done|]. destruct (Hr q c e Hc) as [?|?]; try done; congruence.
  - intros p2 e2 Hp2 Hq2. destruct (own_goes D s p2 e2 q c Hi Hp2 Hq2 Hc) as [_ Hcp2].
    apply Hne. by simplify_eq.
Qed.

Lemma going_gone D s p e :
  inv E D ∅ s → going D s → st_hdrs s !! p = Some e → hdr_goes u e = true →
  going (D ∪ own_ctx e) (gone s p e).
Proof.
  intros Hi Hg Hp Hge q. rewrite elem_of_union, elem_of_own_ctx, (Hg q). unfold gone, not_own. fields. split.
  - intros [(c & Hc & Hgc & Hno)|Hq].
    + exists c. split_and!; [done|done|]. intros p2 e2 [_ Hp2]%lookup_delete_Some. by apply (Hno p2).
    + pose proof (ho_place _ _ _ _ _ (i_hdrs _ _ _ _ Hi p e Hp)) as Hpl. destruct (h_is_hdr_proc_ctx e).
      2: { destruct Hpl. congruence. }
      destruct Hpl as (_ & _ & _ & [[? _]|(q' & c & Hq' & Hc & Hcp & _)]); [set_solver|]. simplify_eq.
      destruct (own_goes D s _ e q c Hi Hp Hq Hc) as [Hgc _]. exists c. split_and!; [done|by rewrite Hgc|].
      intros p2 e2 [Hne Hp2]%lookup_delete_Some Hq2.
      destruct (own_goes D s p2 e2 q c Hi Hp2 Hq2 Hc) as [_ Hcp2]. done.
  - intros (c & Hc & Hgc & Hno). destruct (decide (h_proc_ctx e = Some q)) as [|Hne]; [by right|left].
    exists c. split_and!; [done|done|]. intros p2 e2 Hp2. destruct (decide (p2 = p)) as [->|Hnp].
    + by simplify_eq.
    + apply (Hno p2). by rewrite lookup_delete_ne.
Qed.

(** The test of the default header. *)
Lemma wp_skip D s p e (Q : bool → hdr_state → Prop) :
  inv E D ∅ s → st_hdrs s !! p = Some e →
  (is_default s e → Q true s) → (¬ is_default s e → Q false s) →
  wp (if is_lan (h_name e) then o ← off_at HdrTable (h_offset_entry e); mret (o_offset o =? 0)
      else mret false) Q s.
Proof using.
  intros Hi Hp Hyes Hno. destruct (is_lan (h_name e)) eqn:Hl.
  2: { apply wp_ret. apply Hno. intros [Hn _]. apply is_lan_spec in Hn. congruence. }
  apply is_lan_spec in Hl. pose proof (ho_place _ _ _ _ _ (i_hdrs _ _ _ _ Hi p e Hp)) as Hpl.
  destruct (h_is_hdr_proc_ctx e); [by destruct Hpl as (_ & _ & ? & _)|].
  destruct Hpl as (_ & _ & o & oe & Ho & Hoe & _). rewrite Ho. wp_step. eapply wp_off_at; [done|]. apply wp_ret.
  destruct (Z.eqb_spec (o_offset oe) 0).
  - apply Hyes. split; [done|]. eauto.
  - apply Hno. intros [_ (o' & oe' & Ho' & Hoe' & ?)]. cbn in Hoe. simplify_eq.
Qed.

Lemma wp_reset_hdrs l D s (Q : option Z → hdr_state → Prop) :
  inv E D ∅ s → going D s → rule s → NoDup l → (∀ p, p ∈ l → is_Some (st_hdrs s !! p)) →
  (∀ D' s', inv E D' ∅ s' → going D' s' → rule s' → hdrs_reset s s' l → Q None s') →
  wp (reset_hdrs u l) Q s.
Proof using HE.
  revert D s. induction l as [|p l IH]; intros D s Hi Hg Hr Hnd Hl HQ; cbn [reset_hdrs].
  { apply wp_ret. apply (HQ D s); try done. constructor; [|done..]. set_solver. }
  apply list.NoDup_cons in Hnd as [Hpl Hnd]. destruct (Hl p) as [e Hp]; [set_solver|].
  assert (is_default s e ∨ hdr_goes u e = false → ∀ s', hdrs_reset s s' l → hdrs_reset s s' (p :: l)) as Hstay.
  { intros Hst s' [R1 R2 R3 R4]. constructor; try done. intros p' e'. rewrite R1.
    rewrite elem_of_cons. split; intros [Hp' Ht]; (split; [done|]); [|auto].
    intros [->|Hin]; [by simplify_eq|auto]. }
  wp_step. eapply wp_hdr_at; [done|]. wp_step. apply (wp_skip D s p e); [done|done| |].
  - intros Hd. rewrite (default_not_ddr _ _ _ _ _ Hi Hp Hd). apply (IH D); try done; [set_solver|].
    intros D' s' Hi' Hg' Hr' Hs'. apply (HQ D'); try done. apply Hstay; auto.
  - intros Hnd'. unfold ipa_id_find. wp_steps.
    rewrite (ho_id _ _ _ _ _ (i_hdrs _ _ _ _ Hi p e Hp)). wp_step. fold (hdr_goes u e).
    apply wp_when.
    + intros Hge. apply (wp_gone D); [done|done|].
      apply (IH (D ∪ own_ctx e)); [| |..|].
      * apply inv_gone; try done. by apply going_refs.
      * by apply going_gone.
      * intros q c e' Hc He' Hgc. unfold gone in Hc, He'. fields. apply lookup_delete_Some in He' as [_ He']. rewrite default_gone. by apply (Hr q c).
      * done.
      * intros p' Hp'. unfold gone. fields. rewrite lookup_delete_ne by (intros ->; done). apply Hl. set_solver.
      * intros D' s' Hi' Hg' Hr' [R1 R2 R3 R4]. apply (HQ D'); try done. constructor; [|..].
        -- intros p' e'. rewrite R1. unfold gone at 1. fields. rewrite lookup_delete_Some, elem_of_cons, default_gone.
           split.
           ++ intros [[Hne Hp'] Ht]. split; [done|]. intros [->|?]; [done|auto].
           ++ intros [Hp' Ht]. split; [|auto]. split; [|done]. intros <-. rewrite Hp in Hp'. injection Hp' as <-.
              destruct Ht as [?|Hf]; [by left|done|by rewrite Hge in Hf].
        -- intros e'. by rewrite R2, default_gone.
        -- by rewrite R3.
        -- by rewrite R4.
    + intros Hge. apply (IH D); try done; [set_solver|].
      intros D' s' Hi' Hg' Hr' Hs'. apply (HQ D'); try done. apply Hstay; auto.
Qed.

(** ** The processing contexts *)

Lemma wp_reset_ctxs l D s (Q : option Z → hdr_state → Prop) :
  inv E D ∅ s → (∀ q, q ∈ D ↔ ∃ c, st_ctxs s !! q = Some c ∧ ctx_goes u c = true) →
  NoDup l → (∀ q, q ∈ D → q ∈ l) → (∀ q, q ∈ l → is_Some (st_ctxs s !! q)) →
  (∀ s', inv E ∅ ∅ s' → st_hdrs s' = st_hdrs s → st_hdr_tbl s' = st_hdr_tbl s →
     (∀ q c, st_ctxs s' !! q = Some c ↔ st_ctxs s !! q = Some c ∧ ctx_goes u c = false) → Q None s') →
  wp (reset_ctxs u l) Q s.
Proof using HE.
  revert D s. induction l as [|q l IH]; intros D s Hi Hg Hnd HDl Hl HQ; cbn [reset_ctxs].
  { apply wp_ret. assert (D = ∅) as -> by set_solver. apply HQ; try done.
    intros q c. split; [|tauto]. intros Hq. split; [done|]. destruct (ctx_goes u c) eqn:Hgc; [|done].
    exfalso. apply (not_elem_of_empty (C := gset positive) q). apply Hg. eauto. }
  apply list.NoDup_cons in Hnd as [Hql Hnd]. destruct (Hl q) as [c Hq]; [set_solver|].
  wp_step. eapply wp_ctx_at; [done|]. unfold ipa_id_find. wp_steps.
  rewrite (co_id _ _ _ _ (i_ctxs _ _ _ _ Hi q c Hq)). wp_step. fold (ctx_goes u c). apply wp_when.
  - intros Hgc. pose proof (i_ctxs _ _ _ _ Hi q c Hq) as [_ _ (o & oe & Ho & Hoe & _) _].
    pose proof (i_ctx_slots _ _ _ _ Hi) as Hs. destruct (so_bin _ _ _ _ o oe Hs Hoe) as (_ & Hb0 & Hb).
    assert (q ∈ D) as HqD by (apply Hg; eauto).
    wp_step. rewrite Ho. eapply wp_release_slot; [done|done|by cbn; rewrite (so_free _ _ _ _ Hs)|].
    unfold del_entry, upd_tbl, ipa_id_remove. wp_steps. eapply wp_free_ctx; [done|]. fields.
    apply (IH (D ∖ {[q]})).
    + apply (inv_kill_ctx E D ∅ s _ q c Hi); fields; try done.
      * rewrite Ho. apply takes_entry; [apply ctx_sizes|done|done|].
        apply (sl_used _ _ _ (i_ctx_owned _ _ _ _ Hi) q c o Hq Ho).
      * apply (mem_ok_eq s); try done. by destruct Hi.
    + intros q'. rewrite elem_of_difference, not_elem_of_singleton, (Hg q'). fields. split.
      * intros [(c' & Hc' & Hgc') Hne]. exists c'. by rewrite lookup_delete_ne.
      * intros (c' & [Hne Hc']%lookup_delete_Some & Hgc'). split; [by eauto|done].
    + done.
    + set_solver.
    + intros q' Hq'. fields. rewrite lookup_delete_ne by (intros ->; done). apply Hl. set_solver.
    + intros s' Hi' Hh Ht Hc. apply HQ; try done. intros q' c'. rewrite (Hc q' c'). fields.
      rewrite lookup_delete_Some. split; [tauto|]. intros [Hq' Hf]. split_and!; try done.
      intros <-. simplify_eq. congruence.
  - intros Hgc. apply (IH D); try done; [|set_solver].
    intros q' Hq'. pose proof (HDl q' Hq') as Hin. apply elem_of_cons in Hin as [->|Hin]; [|done].
    apply Hg in Hq' as (c' & Hc' & Hgc'). simplify_eq. by rewrite Hgc in Hgc'.
Qed.

(** ** Clearing the tables *)

(** The header that a full reset keeps. *)
Lemma one_default D s p1 p2 e1 e2 : inv E D ∅ s → st_hdrs s !! p1 = Some e1 → st_hdrs s !! p2 = Some e2 →
  is_default s e1 → is_default s e2 → p1 = p2.
Proof using.
  intros Hi H1 H2 [_ (o1 & oe1 & Ho1 & Hoe1 & Hz1)] [_ (o2 & oe2 & Ho2 & Hoe2 & Hz2)].
  destruct (decide (o1 = o2)) as [->|Hne].
  { by apply (sl_one _ _ _ (i_hdr_owned _ _ _ _ Hi) p1 p2 e1 e2 o2). }
  exfalso. pose proof (i_hdr_slots _ _ _ _ Hi) as Hs.
  assert (∀ oe o, t_offs (st_hdr_tbl s) !! o = Some oe → 0 < slot_size ipa_hdr_bin_sz oe) as Hpos.
  { intros oe o Ho. destruct (so_bin _ _ _ _ o oe Hs Ho) as (_ & Hb0 & Hb). unfold slot_size.
    apply lookup_lt_is_Some in Hb as [size Hsz]. rewrite <- (Z2Nat.id (o_bin oe)) by done.
    rewrite lookup_z_nat, Hsz. by apply hdr_sizes in Hsz as [? _]. }
  pose proof (Hpos _ _ Hoe1). pose proof (Hpos _ _ Hoe2).
  destruct (so_apart _ _ _ _ Hs o1 o2 oe1 oe2 Hoe1 Hoe2 Hne); lia.
Qed.

Lemma default_slot D s p e o oe : inv E D ∅ s → st_hdrs s !! p = Some e → is_default s e →
  h_offset_entry e = Some o → t_offs (st_hdr_tbl s) !! o = Some oe →
  o_offset oe = 0 ∧ slot_size ipa_hdr_bin_sz oe = 8.
Proof using.
  intros Hi Hp Hd Ho Hoe. pose proof (default_not_ddr _ _ _ _ _ Hi Hp Hd) as Hnd.
  destruct Hd as [Hn (o' & oe' & Ho' & Hoe' & Hz)]. simplify_eq.
  pose proof (ho_place _ _ _ _ _ (i_hdrs _ _ _ _ Hi p e Hp)) as Hpl. rewrite Hnd in Hpl.
  destruct Hpl as (_ & _ & o1 & oe1 & Ho1 & Hoe1 & _ & Hb). simplify_eq.
  split; [done|]. unfold slot_size. by rewrite Hb.
Qed.

Definition only_default s : Prop :=
  (∃ p e, st_hdrs s !! p = Some e ∧ is_default s e) ∧
  (∀ p e, st_hdrs s !! p = Some e → is_default s e).

Lemma inv_clear_hdr D s : inv E D ∅ s → only_default s →
  inv E D ∅ (with_tbl HdrTable (tbl_with_entries (t_entry_list (st_hdr_tbl s)) 1
    (tbl_with_end 8 (clear_tbl (λ e, o_offset e =? 0) (st_hdr_tbl s)))) s).
Proof using HE.
  intros Hi [(p & e & Hp & Hd) Hall]. pose proof (i_hdr_slots _ _ _ _ Hi) as Hs.
  assert (∀ o oe, t_offs (st_hdr_tbl s) !! o = Some oe → o ∈ concat (t_offset_list (st_hdr_tbl s)) →
    o_offset oe = 0 ∧ slot_size ipa_hdr_bin_sz oe = 8) as Hslot.
  { intros o oe Ho Hu. destruct (sl_owner _ _ _ (i_hdr_owned _ _ _ _ Hi) o Hu) as (p' & e' & Hp' & Ho').
    by eapply default_slot; eauto. }
  pose proof (ok_hdr_limit E HE) as Hlim.
  apply (inv_clean_hdr E D s); try done; cbn [with_tbl st_hdr_tbl tbl_with_entries t_entry_list t_cnt t_offset_list t_offs].
  - destruct Hi. by eapply mem_ok_eq.
  - eapply slots_ok_eq; [..|apply (slots_ok_clear _ _ _ (λ e, o_offset e =? 0) _ 8 Hs)]; try done; [lia|by exists 2|].
    intros o oe Ho _ Hu. destruct (Hslot o oe Ho Hu) as [-> ->]. lia.
  - destruct (i_hdr_listed _ _ _ _ Hi) as (Hnd & Hl & ->).
    assert (t_entry_list (st_hdr_tbl s) = [p]) as ->; [|done].
    assert (p ∈ t_entry_list (st_hdr_tbl s)) as Hin by (apply Hl; eauto).
    assert (∀ p', p' ∈ t_entry_list (st_hdr_tbl s) → p' = p) as Hone.
    { intros p' [e' Hp']%Hl. by eapply one_default; eauto. }
    destruct (t_entry_list (st_hdr_tbl s)) as [|a [|b l]].
    + by apply not_elem_of_nil in Hin.
    + f_equal. apply Hone. set_solver.
    + apply list.NoDup_cons in Hnd as [Hno _]. exfalso. apply Hno.
      rewrite (Hone a), (Hone b) by set_solver. set_solver.
  - intros o. etransitivity; [apply (clear_used (λ e, o_offset e =? 0) (st_hdr_tbl s))|].
    split; [tauto|]. intros Hu. split; [|done].
    destruct (proj1 (so_dom _ _ _ _ o Hs)) as [oe Hoe]; [by apply elem_of_app; left|].
    unfold stays. rewrite Hoe. destruct (Hslot o oe Hoe Hu) as [-> _]. done.
  - intros o Hu. destruct (proj1 (so_dom _ _ _ _ o Hs)) as [oe Hoe]; [by apply elem_of_app; left|].
    rewrite Hoe. apply (clear_offs _ _ _ (λ e, o_offset e =? 0) _ o oe Hs). split_and!; [done| |done].
    by destruct (Hslot o oe Hoe Hu) as [-> _].
Qed.

Lemma inv_clear_ctx s : inv E ∅ ∅ s → st_ctxs s = ∅ →
  inv E ∅ ∅ (with_tbl CtxTable (tbl_with_entries (t_entry_list (st_ctx_tbl s)) 0
    (tbl_with_end 0 (clear_tbl (λ _, false) (st_ctx_tbl s)))) s).
Proof using HE.
  intros Hi Hc. pose proof (i_ctx_slots _ _ _ _ Hi) as Hs. pose proof (ok_ctx_limit E HE) as Hlim.
  apply (inv_clean_ctx E s); try done; cbn [with_tbl st_ctx_tbl tbl_with_entries t_entry_list t_cnt t_offset_list t_offs].
  - destruct Hi. by eapply mem_ok_eq.
  - eapply slots_ok_eq; [..|apply (slots_ok_clear _ _ _ (λ _, false) _ 0 Hs)]; try done; [lia|by exists 0].
  - destruct (i_ctx_listed _ _ _ _ Hi) as (_ & Hl & ->).
    destruct (t_entry_list (st_ctx_tbl s)) as [|a l]; [done|].
    destruct (proj1 (Hl a)) as [c Hca]; [set_solver|]. by rewrite Hc, lookup_empty in Hca.
  - intros o Ho. apply (clear_used (λ _, false) (st_ctx_tbl s)) in Ho as [Hst _]. unfold stays in Hst. by destruct (t_offs _ !! o).
Qed.

(** ** The whole reset *)

Definition to_go s : gset positive :=
  dom (filter (λ x, ctx_goes u x.2 = true ∧ map_Forall (λ _ e, h_proc_ctx e ≠ Some x.1) (st_hdrs s))
         (st_ctxs s)).

Lemma going_to_go s : going (to_go s) s.
Proof using.
  intros q. unfold to_go. rewrite elem_of_dom. split.
  - intros [c Hc]. apply map_lookup_filter_Some in Hc as (Hc & Hg & Ho). exists c. split_and!; [done..|].
    intros p e Hp. by apply (Ho p e).
  - intros (c & Hc & Hg & Ho). exists c. apply map_lookup_filter_Some. split_and!; [done..|].
    intros p e Hp. by apply (Ho p e).
Qed.

(** What a reset leaves of the headers and of the contexts. *)
Record was_reset s s' : Prop := {
  wr_hdrs : ∀ p e, st_hdrs s' !! p = Some e ↔
    st_hdrs s !! p = Some e ∧ (is_default s e ∨ hdr_goes u e = false);
  wr_ctxs : ∀ q c, st_ctxs s' !! q = Some c ↔ st_ctxs s !! q = Some c ∧ ctx_goes u c = false;
}.

Lemma wp_clear k keep n cnt (Q : () → hdr_state → Prop) s :
  Q () (with_tbl k (tbl_with_entries (t_entry_list (st_tbl s k)) cnt
          (tbl_with_end n (clear_tbl keep (st_tbl s k)))) s) →
  wp (clear_lists k keep ;;
      upd_tbl k (λ t, tbl_with_entries (t_entry_list t) cnt (tbl_with_end n t))) Q s.
Proof using. intros HQ. unfold clear_lists, upd_tbl. wp_steps. by destruct k, s. Qed.

Lemma reset_going D s s' l : inv E D ∅ s' → going D s' → hdrs_reset s s' l →
  (∀ p e, st_hdrs s' !! p = Some e → p ∈ l) →
  ∀ q, q ∈ D ↔ ∃ c, st_ctxs s' !! q = Some c ∧ ctx_goes u c = true.
Proof using HE.
  intros Hi Hg [R1 R2 _ _] Hl q. rewrite (Hg q). split; [intros (c & ? & ? & _); eauto|].
  intros (c & Hc & Hgc). exists c. split_and!; [done..|]. intros p e Hp Hq.
  destruct (own_goes D s' p e q c Hi Hp Hq Hc) as [Hgo _].
  pose proof (proj1 (R1 p e) Hp) as [_ Hst]. destruct (Hst (Hl p e Hp)) as [Hd|Hf]; [|congruence].
  apply R2 in Hd. pose proof (default_not_ddr _ _ _ _ _ Hi Hp Hd) as Hnd.
  pose proof (ho_place _ _ _ _ _ (i_hdrs _ _ _ _ Hi p e Hp)) as Hpl. rewrite Hnd in Hpl.
  destruct Hpl as [? _]. congruence.
Qed.

Lemma wp_reset s (Q : Z → hdr_state → Prop) :
  inv E ∅ ∅ s → reset_ok s u →
  (∀ rc s', inv E ∅ ∅ s' → was_reset s s' → Q rc s') →
  wp (ipa2_reset_hdr E u) Q s.
Proof using HE.
  intros Hi [Hrule Hdef] HQ. unfold ipa2_reset_hdr. wp_steps.
  destruct (i_hdr_listed _ _ _ _ Hi) as (Hnd & Hl & _).
  apply (wp_reset_hdrs _ (to_go s)); try done; [|apply going_to_go|by intros p Hp; apply Hl|].
  { apply (inv_more E ∅); [done|set_solver|]. intros q Hq. right. apply going_to_go in Hq as (c & _ & _ & ?). done. }
  intros D1 s1 Hi1 Hg1 Hr1 Hs1. pose proof Hs1 as [R1 R2 R3 R4].
  assert (∀ p e, st_hdrs s1 !! p = Some e ↔ st_hdrs s !! p = Some e ∧ (is_default s e ∨ hdr_goes u e = false)) as R1'.
  { intros p e. rewrite R1. split; intros [Hp Ht]; (split; [done|]); [|auto]. apply Ht, Hl. eauto. }
  pose proof (reset_going D1 s s1 _ Hi1 Hg1 Hs1) as HD.
  specialize (HD ltac:(intros p e [Hp _]%R1'; apply Hl; eauto)).
  cbn beta iota. wp_step.
  assert (∀ s2, inv E D1 ∅ s2 → st_hdrs s2 = st_hdrs s1 → st_ctxs s2 = st_ctxs s1 →
    wp (s ← get; r ← reset_ctxs u (t_entry_list (st_ctx_tbl s));
        match r with
        | Some rc => mret rc
        | None =>
            when (negb u)
              (clear_lists CtxTable (λ _, false) ;;
               upd_tbl CtxTable (λ t, tbl_with_entries (t_entry_list t) 0 (tbl_with_end 0 t))) ;;
            rc ← ipa_commit_hdr E;
            mret (if rc =? 0 then 0 else -EFAULT)
        end) Q s2) as Hrest.
  { intros s2 Hi2 Hh2 Hc2. wp_steps. destruct (i_ctx_listed _ _ _ _ Hi2) as (Hnd2 & Hl2 & _).
    apply (wp_reset_ctxs _ D1); try done.
    - intros q. by rewrite (HD q), Hc2.
    - intros q (c & Hc & _)%HD. apply Hl2. rewrite Hc2. eauto.
    - by intros q Hq%Hl2.
    - intros s3 Hi3 Hh3 _ Hc3. cbn beta iota. wp_step.
      assert (∀ s4, inv E ∅ ∅ s4 → st_hdrs s4 = st_hdrs s3 → st_ctxs s4 = st_ctxs s3 →
        wp (rc ← ipa_commit_hdr E; mret (if rc =? 0 then 0 else -EFAULT)) Q s4) as Hcommit.
      { intros s4 Hi4 Hh4 Hc4. wp_step. apply (wp_commit E); [done|]. intros rc s5 Hcm. wp_steps.
        apply HQ; [by eapply committed_inv|]. destruct Hcm. constructor.
        - intros p e. by rewrite cm_hdrs, Hh4, Hh3, Hh2.
        - intros q c. rewrite cm_ctxs, Hc4, (Hc3 q c), Hc2, R3. done. }
      apply wp_when; [|by intros _; apply Hcommit].
      intros Hu. apply wp_clear. apply Hcommit; [|done..]. apply inv_clear_ctx; [done|].
      apply map_empty. intros q. destruct (st_ctxs s3 !! q) as [c|] eqn:Hq; [|done].
      apply Hc3 in Hq as [_ Hq]. unfold ctx_goes in Hq. by rewrite Hu in Hq. }
  apply wp_when; [|by intros _; apply Hrest].
  intros Hu%negb_true_iff. apply wp_clear. apply Hrest; [|done..]. apply inv_clear_hdr; [done|]. split.
  - destruct (Hdef Hu) as (p & e & Hp & Hd). exists p, e. split; [apply R1'; auto|by apply R2].
  - intros p e [_ [Hd|Hg]]%R1'; [by apply R2|]. by rewrite Hu in Hg.
Qed.

End Reset.
