(* ===== verification/HdrCalls.v ===== *)
(** * IPA header tables: the calls

    What other parts of the driver and user space may do with the tables: the calls of
    [ipa_hdr.c], the references that routing rules take, and the handles that other objects
    take from the same [idr]. [call_ok] says what the callers owe; every call that keeps it runs
    to its end and keeps the invariant. *)

From S2P Require Import Prelude.
From S2P Require Import HdrTypes.
From S2P Require Import Hdr.
From S2P Require Import HdrInv.
From S2P Require Import HdrKeep.
From S2P Require Import HdrAddRuns.
From S2P Require Import HdrDelRuns.
From S2P Require Import HdrCommit.
From S2P Require Import HdrReset.

Implicit Types (s : hdr_state).

(** ** Calls *)

Inductive hdr_call :=
  | AddHdr (commit : bool) (hdrs : list ipa_hdr_add) (user : bool)
  | DelHdr (commit : bool) (hdls : list ipa_hdr_del) (by_user : bool)
  | AddCtx (commit : bool) (ctxs : list ipa_hdr_proc_ctx_add) (user : bool)
  | DelCtx (commit : bool) (hdls : list ipa_hdr_del) (by_user : bool)
  | CommitHdr
  | GetHdr (name : list Z)
  | PutHdr (hdl : Z)
  | CopyHdr (name : list Z)
  | ResetHdr (user_only : bool)
  | TakeHdr (hdl : Z)
  | ReleaseHdr (hdl : Z)
  | TakeCtx (hdl : Z)
  | ReleaseCtx (hdl : Z)
  | OtherId (id cookie : Z)
  | OtherGone (id : Z).

Definition ignore {A} (m : HM A) : HM () := m ;; mret ().

Definition hdr_run (E : hdr_env) (c : hdr_call) : HM () :=
  match c with
  | AddHdr commit hdrs user => ignore (ipa2_add_hdr_usr E commit hdrs user)
  | DelHdr commit hdls by_user => ignore (ipa2_del_hdr_by_user E commit hdls by_user)
  | AddCtx commit ctxs user => ignore (ipa2_add_hdr_proc_ctx E commit ctxs user)
  | DelCtx commit hdls by_user => ignore (ipa2_del_hdr_proc_ctx_by_user E commit hdls by_user)
  | CommitHdr => ignore (ipa2_commit_hdr E)
  | GetHdr name => ignore (ipa2_get_hdr name)
  | PutHdr hdl => ignore (ipa2_put_hdr hdl)
  | CopyHdr name => ignore (ipa2_copy_hdr name)
  | ResetHdr user_only => ignore (ipa2_reset_hdr E user_only)
  | TakeHdr hdl => take_hdr hdl
  | ReleaseHdr hdl => ignore (__ipa_release_hdr E hdl)
  | TakeCtx hdl => take_ctx hdl
  | ReleaseCtx hdl => ignore (__ipa_release_hdr_proc_ctx E hdl)
  | OtherId id cookie => modify (λ s, with_idr (<[id := IdOther cookie]> (st_idr s)) s)
  | OtherGone id => modify (λ s, with_idr (delete id (st_idr s)) s)
  end.

(** ** What the callers owe *)

Definition count_id (l : list Z) (id : Z) : Z := Z.of_nat (count_occ Z.eq_dec l id).

(** Each deletion gives back a reference that no processing context holds. *)
Definition may_drop s (hdls : list Z) : Prop :=
  ∀ p e, st_hdrs s !! p = Some e →
    ctx_refs ∅ p e (st_ctxs s) + count_id hdls (h_id e) ≤ h_ref_cnt e.
(** The reference counters do not wrap. *)
Definition may_take s (n : Z) : Prop :=
  ∀ p e, st_hdrs s !! p = Some e → h_ref_cnt e + n < 2 ^ 32.
(** Only the driver deletes the processing context that it made for a header. *)
Definition may_drop_ctx s (hdls : list Z) : Prop :=
  ∀ hdl q, hdl ∈ hdls → st_idr s !! hdl = Some (IdCtx q) → not_own s q.
(** The arguments are arrays of the size of the fields; the default header has an element, and a
    call, of its own. *)
Definition add_ok (E : hdr_env) s (hdrs : list ipa_hdr_add) : Prop :=
  (∀ a, a ∈ hdrs → length (a_hdr a) = 64%nat ∧ 0 ≤ a_hdr_len a < 256) ∧
  ((∀ a, a ∈ hdrs → name_of (a_name a) ≠ IPA_LAN_RX_HDR_NAME) ∨
   ∃ a, hdrs = [a] ∧ lan_fits E s a).

Definition call_ok (E : hdr_env) s (c : hdr_call) : Prop :=
  match c with
  | AddHdr _ hdrs _ => add_ok E s hdrs
  | DelHdr _ hdls _ => may_drop s (map d_hdl hdls)
  | AddCtx _ ctxs _ => may_take s (Z.of_nat (length ctxs))
  | DelCtx _ hdls _ => may_drop_ctx s (map d_hdl hdls)
  | ResetHdr user_only => reset_ok s user_only
  | TakeHdr _ => may_take s 1
  | ReleaseHdr hdl => may_drop s [hdl]
  | TakeCtx hdl => may_drop_ctx s [hdl] ∧
      ∀ q c, st_idr s !! hdl = Some (IdCtx q) → st_ctxs s !! q = Some c → c_ref_cnt c + 1 < 2 ^ 32
  | ReleaseCtx hdl => may_drop_ctx s [hdl]
  | OtherId id cookie =>
      st_idr s !! id = None ∧ cookie ≠ IPA_HDR_COOKIE ∧ cookie ≠ IPA_PROC_HDR_COOKIE
  | OtherGone id => ∃ cookie, st_idr s !! id = Some (IdOther cookie)
  | CommitHdr | GetHdr _ | PutHdr _ | CopyHdr _ => True
  end.

(** ** The tables at the start *)

Definition empty_tbl (bins : nat) : ipa_hdr_tbl :=
  mkTbl [] (replicate bins []) (replicate bins []) 0 0 ∅.
Definition hdr_init : hdr_state :=
  mkSt ∅ ∅ (empty_tbl 5) (empty_tbl 2) ∅ ∅ ∅ (mkMem 0 0) (mkMem 0 0) [] 0.

Inductive hdr_reach (E : hdr_env) : hdr_state → Prop :=
  | hdr_reach_init : hdr_reach E hdr_init
  | hdr_reach_step s c s' : hdr_reach E s → call_ok E s c → hdr_run E c s = Some ((), s') →
      hdr_reach E s'.

(** ** Lemmas *)

Lemma ctx_refs_sub p e e' m m' :
  m' ⊆ m → h_proc_ctx e' = h_proc_ctx e → ctx_refs ∅ p e' m' ≤ ctx_refs ∅ p e m.
Proof.
  intros Hm He. rewrite (ctx_refs_proc_ctx ∅ p e e' m' He). unfold ctx_refs.
  apply Nat2Z.inj_le, map_subseteq_size. by apply map_filter_subseteq_mono.
Qed.

Lemma dropped_hdr_sub by_user hdl s s' p e : dropped_hdr by_user hdl s s' p e → st_ctxs s' ⊆ st_ctxs s.
Proof.
  intros []. rewrite dh_ctxs. destruct (h_proc_ctx e); [|done].
  destruct (h_ref_cnt e =? 1); [apply delete_subseteq|done].
Qed.

Lemma id_of_hdr E s hdl p e : inv E ∅ ∅ s → st_idr s !! hdl = Some (IdHdr p) → st_hdrs s !! p = Some e →
  h_id e = hdl.
Proof. intros Hi Hid Hp. destruct (i_idr _ _ _ _ Hi _ _ Hid) as (e' & He' & Hh). by simplify_eq. Qed.

Lemma may_drop_spare E s hdl l : inv E ∅ ∅ s → may_drop s (hdl :: l) → spare_ref ∅ s hdl.
Proof.
  intros Hi Hd p e Hid Hp. specialize (Hd p e Hp). rewrite (id_of_hdr E s hdl p e Hi Hid Hp) in Hd.
  unfold count_id in Hd. cbn in Hd. destruct (Z.eq_dec hdl hdl); [|done]. lia.
Qed.

Lemma may_drop_tail s hdl l : may_drop s (hdl :: l) → may_drop s l.
Proof.
  intros Hd p e Hp. specialize (Hd p e Hp). unfold count_id in *. cbn in Hd.
  destruct (Z.eq_dec hdl (h_id e)); lia.
Qed.

Lemma may_drop_step E by_user s s' hdl l p e : inv E ∅ ∅ s → dropped_hdr by_user hdl s s' p e →
  may_drop s (hdl :: l) → may_drop s' l.
Proof.
  intros Hi Hdr Hd p' e' Hp'. pose proof (dropped_hdr_sub _ _ _ _ _ _ Hdr) as Hsub. destruct Hdr.
  assert (∀ e1, st_hdrs s !! p' = Some e1 → h_proc_ctx e' = h_proc_ctx e1 →
    ctx_refs ∅ p' e' (st_ctxs s') ≤ ctx_refs ∅ p' e1 (st_ctxs s)) as Hle
    by (intros; by apply ctx_refs_sub).
  rewrite dh_hdrs in Hp'. destruct (decide (p' = p)) as [->|Hne].
  - destruct (h_ref_cnt e =? 1); [by rewrite lookup_delete_eq in Hp'|].
    rewrite lookup_insert_eq in Hp'. injection Hp' as <-.
    pose proof (id_of_hdr E s hdl p e Hi dh_hdl dh_hdr) as Hid.
    specialize (Hd p e dh_hdr). destruct (less_hdr_fields by_user e) as (_ & _ & Hpc & _ & _ & Hcnt).
    specialize (Hle e dh_hdr Hpc). rewrite Hcnt. replace (h_id (less_hdr by_user e)) with hdl by (by rewrite <- Hid; destruct by_user).
    rewrite Hid in Hd. unfold count_id in *. cbn in Hd. destruct (Z.eq_dec hdl hdl); [lia|done].
  - assert (st_hdrs s !! p' = Some e') as Hp1.
    { destruct (h_ref_cnt e =? 1); [by rewrite lookup_delete_ne in Hp'|by rewrite lookup_insert_ne in Hp']. }
    specialize (Hle e' Hp1 eq_refl). pose proof (may_drop_tail s hdl l Hd p' e' Hp1). lia.
Qed.

(** ** Loops *)

Lemma wp_each {A} (f : A → HM A) (I : list A → hdr_state → Prop) l (Q : list A → hdr_state → Prop) s :
  (∀ a l s, I (a :: l) s → wp (f a) (λ _ s', I l s') s) →
  I l s → (∀ l' s', I [] s' → Q l' s') → wp (each f l) Q s.
Proof.
  intros Hf. revert s Q. induction l as [|a l IH]; intros s Q Hi HQ; cbn [each].
  - apply wp_ret. by apply HQ.
  - wp_step. eapply wp_mono; [by apply Hf|]. intros a' s' Hi'. wp_step. apply IH; [done|].
    intros l' s'' Hi''. apply wp_ret. by apply HQ.
Qed.

Section Calls.
Context (E : hdr_env) {HE : hdr_env_ok E}.

Abbreviation live := (inv E ∅ ∅).

Lemma wp_commit_if (commit : bool) (Q : Z → hdr_state → Prop) s :
  live s → (∀ rc s', live s' → Q rc s') → wp (commit_if E commit) Q s.
Proof using HE.
  intros Hi HQ. unfold commit_if. destruct commit; [|apply wp_ret; by apply HQ].
  wp_step. apply (wp_commit E); [done|]. intros rc s' Hc. apply wp_ret. apply HQ. by eapply committed_inv.
Qed.

(** A call that loops over its elements, then commits. *)
Lemma wp_loop {A} (f : A → HM A) (I : list A → hdr_state → Prop) (commit : bool) l s :
  (∀ a l s, live s → I (a :: l) s → wp (f a) (λ _ s', live s' ∧ I l s') s) →
  live s → I l s →
  wp (ignore (l' ← each f l; result ← commit_if E commit; mret (result, l'))) (λ _ s', live s') s.
Proof using HE.
  intros Hf Hi HI. unfold ignore. do 2 wp_step. apply (wp_each f (λ l s, live s ∧ I l s)); [|done|].
  - intros a l0 s0 [H1 H2]. by apply Hf.
  - intros l' s' [Hi' _]. wp_step. apply wp_commit_if; [done|]. intros rc s'' Hi''. by wp_steps.
Qed.

Lemma may_drop_ctx_tail s hdl l : may_drop_ctx s (hdl :: l) → may_drop_ctx s l.
Proof. intros Hd hdl' q Hin. apply Hd. set_solver. Qed.

Lemma may_drop_ctx_step by_user s s' hdl l q c : dropped_ctx by_user hdl s s' q c →
  may_drop_ctx s (hdl :: l) → may_drop_ctx s' l.
Proof.
  intros [] Hd hdl' q' Hin Hid p e' Hp. destruct (dc_own p e' Hp) as (e & He & ->).
  refine (Hd hdl' q' _ _ p e He); [set_solver|by apply dc_ids].
Qed.

Lemma may_take_step add_ref user s s' a a' q h o e n : 0 ≤ n → added_ctx a a' add_ref user s s' q h o e →
  may_take s (n + 1) → may_take s' n.
Proof.
  intros Hn [] Ht p e' Hp. rewrite ac_hdrs in Hp. destruct add_ref.
  - apply lookup_insert_Some in Hp as [[<- <-]|[_ Hp]].
    + cbn. specialize (Ht h e ac_hdr). lia.
    + specialize (Ht p e' Hp). lia.
  - specialize (Ht p e' Hp). lia.
Qed.

Lemma may_take_eq s s' n m : st_hdrs s' = st_hdrs s → m ≤ n → may_take s n → may_take s' m.
Proof. intros Hs Hm Ht p e Hp. rewrite Hs in Hp. specialize (Ht p e Hp). lia. Qed.

(** ** Each call *)

Lemma wp_ignore {A} (m : HM A) s :
  wp m (λ _ s', live s') s → wp (ignore m) (λ _ s', live s') s.
Proof. intros Hm. unfold ignore. wp_step. eapply wp_mono; [done|]. intros a s' Hs. by wp_steps. Qed.

Lemma run_add_hdr commit hdrs user s : live s → add_ok E s hdrs →
  wp (hdr_run E (AddHdr commit hdrs user)) (λ _ s', live s') s.
Proof using HE.
  intros Hi [Hargs Hnames]. cbn. unfold ipa2_add_hdr_usr.
  destruct (Z.of_nat (length hdrs) =? 0); [by apply wp_ignore, wp_ret|].
  apply (wp_loop _ (λ l s, add_ok E s l)); [|done|by split].
  intros a l s0 Hi0 [Ha Hn].
  assert (lan_fits E s0 a ∧ (∀ s1, add_ok E s1 l)) as [Hlan Hrest].
  { destruct Hn as [Hn|(a' & Heq & Hlan)].
    - split; [intros Hno; by apply Hn in Hno; [|constructor]|]. intros s1. split; [by intros a' ?; apply Ha; constructor|].
      left. intros a' ?. apply Hn. by constructor.
    - simplify_eq. split; [done|]. intros s1. split; [by intros ? ?%not_elem_of_nil|left; by intros ? ?%not_elem_of_nil]. }
  destruct (Ha a) as [Hlen Hl]; [by constructor|].
  wp_step. apply (wp_add_hdr E); [done|done|lia|done| |].
  - intros rc a' s' _ Hi' _. by wp_steps.
  - intros a' s' p e Hi' _. by wp_steps.
Qed.

Lemma run_del_hdr commit hdls by_user s : live s → may_drop s (map d_hdl hdls) →
  wp (hdr_run E (DelHdr commit hdls by_user)) (λ _ s', live s') s.
Proof using HE.
  intros Hi Hd. cbn. unfold ipa2_del_hdr_by_user.
  destruct (Z.of_nat (length hdls) =? 0); [by apply wp_ignore, wp_ret|].
  apply (wp_loop _ (λ l s, may_drop s (map d_hdl l))); [|done|done].
  intros d l s0 Hi0 Hd0. cbn [map] in Hd0. wp_step. apply (wp_del_hdr E ∅); [done|by eapply may_drop_spare| |].
  - intros rc _ _. wp_steps. split; [done|]. by eapply may_drop_tail.
  - intros s' p e Hi' _ Hdr. wp_steps. split; [done|]. eapply (may_drop_step E by_user s0 s' (d_hdl d) _ p e Hi0 Hdr Hd0).
Qed.

Lemma run_add_ctx commit ctxs user s : live s → may_take s (Z.of_nat (length ctxs)) →
  wp (hdr_run E (AddCtx commit ctxs user)) (λ _ s', live s') s.
Proof using HE.
  intros Hi Ht. cbn. unfold ipa2_add_hdr_proc_ctx.
  destruct (no_proc_ctx E); [by apply wp_ignore, wp_ret|].
  destruct (Z.of_nat (length ctxs) =? 0); [by apply wp_ignore, wp_ret|].
  apply (wp_loop _ (λ l s, may_take s (Z.of_nat (length l)))); [|done|done].
  intros a l s0 Hi0 Ht0. rewrite length_cons, Nat2Z.inj_succ, <- Z.add_1_r in Ht0.
  wp_step. apply (wp_add_ctx E ∅); [done| | |].
  - intros h e _ Hh. specialize (Ht0 h e Hh). lia.
  - intros rc s' _ Hi' Hun _. wp_steps. split; [done|].
    destruct Hun. eapply may_take_eq; [done| |exact Ht0]. lia.
  - intros a' s' q h o e Hi' Hadd. wp_steps. split; [done|]. by eapply may_take_step; [lia|..].
Qed.

Lemma run_del_ctx commit hdls by_user s : live s → may_drop_ctx s (map d_hdl hdls) →
  wp (hdr_run E (DelCtx commit hdls by_user)) (λ _ s', live s') s.
Proof using HE.
  intros Hi Hd. cbn. unfold ipa2_del_hdr_proc_ctx_by_user.
  destruct (no_proc_ctx E); [by apply wp_ignore, wp_ret|].
  destruct (Z.of_nat (length hdls) =? 0); [by apply wp_ignore, wp_ret|].
  apply (wp_loop _ (λ l s, may_drop_ctx s (map d_hdl l))); [|done|done].
  intros d l s0 Hi0 Hd0. cbn [map] in Hd0. wp_step. apply (wp_del_ctx E); [done| | |].
  - intros q Hq. eapply Hd0; [|done]. set_solver.
  - intros rc _. wp_steps. split; [done|]. by eapply may_drop_ctx_tail.
  - intros s' q c Hi' Hdr. wp_steps. split; [done|]. by eapply may_drop_ctx_step.
Qed.

Lemma run_commit s : live s → wp (hdr_run E CommitHdr) (λ _ s', live s') s.
Proof using HE.
  intros Hi. cbn. apply wp_ignore. unfold ipa2_commit_hdr.
  do 2 (wp_step; apply wp_ask; case_match; [by wp_steps; repeat apply inv_tick|]).
  wp_step. apply (wp_commit E); [by repeat apply inv_tick|]. intros rc s' Hc. wp_steps.
  eapply committed_inv; [done|]. by repeat apply inv_tick.
Qed.

Lemma run_release_hdr hdl s : live s → may_drop s [hdl] →
  wp (hdr_run E (ReleaseHdr hdl)) (λ _ s', live s') s.
Proof using HE.
  intros Hi Hd. cbn. apply wp_ignore. unfold __ipa_release_hdr.
  wp_step. apply (wp_del_hdr E ∅); [done|by eapply may_drop_spare| |].
  - intros rc Hrc _. rewrite (proj2 (Z.eqb_neq rc 0)) by done. by wp_steps.
  - intros s' p e Hi' _ _. cbn. wp_step. apply (wp_commit E); [done|]. intros rc s'' Hc. wp_steps.
    by eapply committed_inv.
Qed.

Lemma run_release_ctx hdl s : live s → may_drop_ctx s [hdl] →
  wp (hdr_run E (ReleaseCtx hdl)) (λ _ s', live s') s.
Proof using HE.
  intros Hi Hd. cbn. apply wp_ignore. unfold __ipa_release_hdr_proc_ctx.
  wp_step. apply (wp_del_ctx E); [done| | |].
  - intros q Hq. eapply Hd; [|done]. set_solver.
  - intros rc Hrc. rewrite (proj2 (Z.eqb_neq rc 0)) by done. by wp_steps.
  - intros s' q c Hi' _. cbn. wp_step. apply (wp_commit E); [done|]. intros rc s'' Hc. wp_steps.
    by eapply committed_inv.
Qed.

Lemma run_take_hdr hdl s : live s → may_take s 1 → wp (hdr_run E (TakeHdr hdl)) (λ _ s', live s') s.
Proof using HE.
  intros Hi Ht. cbn. unfold take_hdr. wp_step. eapply wp_find_hdr; [done| |by wp_steps].
  intros p e Hid Hp _. eapply wp_upd_hdr; [done|].
  pose proof (i_hdrs _ _ _ _ Hi p e Hp) as [_ _ _ _ Hr Hrefs _]. specialize (Ht p e Hp).
  assert (u32 (h_ref_cnt e + 1) = h_ref_cnt e + 1) as Hu by (apply u32_small; lia).
  apply (inv_set_hdr E ∅ ∅ ∅ s _ p e (hdr_with_refs (u32 (h_ref_cnt e + 1)) e)); try done.
  - cbn. lia.
  - cbn. rewrite Hu, (ctx_refs_proc_ctx ∅ p e) by done. lia.
  - by left.
  - destruct Hi. by eapply mem_ok_eq.
Qed.

Lemma run_take_ctx hdl s : live s → call_ok E s (TakeCtx hdl) →
  wp (hdr_run E (TakeCtx hdl)) (λ _ s', live s') s.
Proof using HE.
  intros Hi [Hown Ht]. cbn. unfold take_ctx. wp_step. eapply wp_find_ctx; [done| |by wp_steps].
  intros q c Hid Hq _. eapply wp_upd_ctx; [done|]. specialize (Ht q c Hid Hq).
  destruct (co_live _ _ _ _ (i_ctxs _ _ _ _ Hi q c Hq)) as [_ Hr]; [set_solver|].
  assert (u32 (c_ref_cnt c + 1) = c_ref_cnt c + 1) as Hu by (apply u32_small; lia).
  apply (inv_set_ctx E ∅ ∅ ∅ s _ q c (ctx_with_refs (u32 (c_ref_cnt c + 1)) c)); try done.
  - eapply Hown; [|done]. set_solver.
  - left. split; [done|]. intros _. cbn. lia.
  - destruct Hi. by eapply mem_ok_eq.
Qed.

(** The first header of a name. *)
Lemma wp_find_name name l s (Q : option ipa_hdr_entry → hdr_state → Prop) :
  (∀ p, p ∈ l → is_Some (st_hdrs s !! p)) →
  (∀ l1 p l2 e, l = l1 ++ p :: l2 → st_hdrs s !! p = Some e → h_name e = name →
     (∀ p' e', p' ∈ l1 → st_hdrs s !! p' = Some e' → h_name e' ≠ name) → Q (Some e) s) →
  ((∀ p e, p ∈ l → st_hdrs s !! p = Some e → h_name e ≠ name) → Q None s) →
  wp (find_name name l) Q s.
Proof.
  induction l as [|p l IH]; intros Hl Hyes Hno; cbn [find_name].
  { apply wp_ret. apply Hno. by intros ? ? ?%not_elem_of_nil. }
  destruct (Hl p) as [e Hp]; [by constructor|]. wp_step. eapply wp_hdr_at; [done|].
  case_bool_decide as Hn; [apply wp_ret; apply (Hyes [] p l); try done; by intros ? ? ?%not_elem_of_nil|].
  apply IH.
  - intros p' Hp'. apply Hl. by constructor.
  - intros l1 p' l2 e' -> Hp' He' Hb. apply (Hyes (p :: l1) p' l2); try done.
    intros p2 e2 [->|Hin]%elem_of_cons Hp2; [|by eapply Hb]. simplify_eq. by apply not_eq_sym.
  - intros Hb. apply Hno. intros p2 e2 [->|Hin]%elem_of_cons Hp2; [|by eapply Hb]. simplify_eq. by apply not_eq_sym.
Qed.

Lemma run_reads c s : live s → (∃ name, c = GetHdr name) ∨ (∃ name, c = CopyHdr name) ∨ (∃ hdl, c = PutHdr hdl) →
  wp (hdr_run E c) (λ _ s', live s') s.
Proof using HE.
  intros Hi Hc. assert (∀ p, p ∈ t_entry_list (st_hdr_tbl s) → is_Some (st_hdrs s !! p)) as Hl.
  { destruct (i_hdr_listed _ _ _ _ Hi) as (_ & Hl & _). intros p Hp. by apply Hl. }
  destruct Hc as [[name ->]|[[name ->]|[hdl ->]]]; apply wp_ignore.
  1,2: unfold ipa2_get_hdr, ipa2_copy_hdr, __ipa_find_hdr; wp_steps; apply wp_find_name; [done|..]; intros; by wp_steps.
  unfold ipa2_put_hdr. wp_step. eapply wp_find_hdr; [done|..]; intros; by wp_steps.
Qed.

Lemma run_other c s : live s → (∃ id cookie, c = OtherId id cookie) ∨ (∃ id, c = OtherGone id) → call_ok E s c →
  wp (hdr_run E c) (λ _ s', live s') s.
Proof using HE.
  intros Hi [(id & ck & ->)|[id ->]] Hok; cbn in Hok |- *.
  - destruct Hok as (Hn & Hck). apply (inv_idr_other E ∅ ∅ s _ id); fields; try done.
    + destruct Hi. by eapply mem_ok_eq.
    + intros i Hid. congruence.
    + intros id' Hne. by rewrite lookup_insert_ne.
    + intros i Hid. rewrite lookup_insert_eq in Hid. injection Hid as <-. split; [done|eauto].
  - destruct Hok as [ck Hck]. apply (inv_idr_other E ∅ ∅ s _ id); fields; try done.
    + destruct Hi. by eapply mem_ok_eq.
    + intros i Hid. rewrite Hck in Hid. injection Hid as <-. eauto.
    + intros id' Hne. by rewrite lookup_delete_ne.
    + intros i Hid. by rewrite lookup_delete_eq in Hid.
Qed.

Lemma run_any c s : live s → call_ok E s c → wp (hdr_run E c) (λ _ s', live s') s.
Proof using HE.
  intros Hi Hok. destruct c.
  - by apply run_add_hdr.
  - by apply run_del_hdr.
  - by apply run_add_ctx.
  - by apply run_del_ctx.
  - by apply run_commit.
  - apply run_reads; eauto.
  - apply run_reads; eauto.
  - apply run_reads; eauto.
  - cbn. apply wp_ignore. apply (wp_reset E); [done|done|]. by intros.
  - by apply run_take_hdr.
  - by apply run_release_hdr.
  - by apply run_take_ctx.
  - by apply run_release_ctx.
  - apply run_other; eauto.
  - apply run_other; eauto.
Qed.

(** ** Reachable states *)

Lemma empty_slots_ok sizes align limit n : n = length sizes → 0 ≤ limit →
  slots_ok sizes align limit (empty_tbl n).
Proof.
  intros -> Hl.
  assert (∀ b o, ¬ on (replicate (length sizes) []) b o) as Hno.
  { intros b o (l & [-> _]%lookup_replicate & Ho). by apply not_elem_of_nil in Ho. }
  assert (concat (replicate (length sizes) ([] : list positive)) = []) as Hc by (clear; induction (length sizes) as [|n IH]; [done|exact IH]).
  constructor; cbn [empty_tbl t_offset_list t_free_offset_list t_offs t_end]; unfold on_lists; cbn.
  - apply length_replicate.
  - apply length_replicate.
  - rewrite Hc. constructor.
  - intros b o [Ho|Ho]; by apply Hno in Ho.
  - done.
  - done.
  - done.
  - split; [lia|by exists 0].
Qed.

Lemma inv_init : live hdr_init.
Proof using HE.
  pose proof (ok_hdr_limit E HE). pose proof (ok_ctx_limit E HE).
  constructor; cbn; try done; try (apply empty_slots_ok; [done|lia]).
  - constructor; cbn; try done. intros o Ho. by apply not_elem_of_nil in Ho.
  - constructor; cbn; try done. intros o Ho. by apply not_elem_of_nil in Ho.
  - split_and!; [constructor| |done]. intros p. split; [by intros ?%not_elem_of_nil|by intros [? ?]].
  - split_and!; [constructor| |done]. intros p. split; [by intros ?%not_elem_of_nil|by intros [? ?]].
  - split; [intros []; by left|done].
Qed.

Lemma inv_reach s : hdr_reach E s → live s.
Proof using HE.
  induction 1 as [|s c s' _ IH Hok Hrun]; [by apply inv_init|].
  pose proof (run_any c s IH Hok) as Hwp. unfold wp in Hwp. by rewrite Hrun in Hwp.
Qed.

End Calls.
