(* ===== verification/HdrExample.v ===== *)
(** * IPA header tables: a concrete system

    An environment that satisfies the hypotheses, on hardware of version 2.5 with a header table
    of 24 bytes in memory, and a state with the default header, a header of user space with a
    processing context, and a header that found the table full. *)

From S2P Require Import Prelude.
From S2P Require Import HdrTypes.
From S2P Require Import Hdr.
From S2P Require Import HdrInv.
From S2P Require Import HdrKeep.
From S2P Require Import HdrAddRuns.
From S2P Require Import HdrDelRuns.
From S2P Require Import HdrCommit.
From S2P Require Import HdrReset.
From S2P Require Import HdrCalls.

(** A number that is above all keys, in steps. *)
Definition above {A} (step : Z) (m : gmap Z A) : Z := map_fold (λ k _ b, Z.max (k + step) b) step m.

Lemma above_spec {A} step (m : gmap Z A) : 0 < step →
  step ≤ above step m ∧ ∀ k a, m !! k = Some a → k < above step m.
Proof.
  intros Hs. unfold above. apply (map_fold_weak_ind (λ b m, step ≤ b ∧ ∀ k a, m !! k = Some a → k < b)).
  - split; [lia|]. intros k a Hk. by rewrite lookup_empty in Hk.
  - intros k a m' b _ [Hb Hm]. split; [lia|]. intros k' a' [[<- _]|[_ Hk']]%lookup_insert_Some; [lia|].
    specialize (Hm k' a' Hk'). lia.
Qed.

Definition ex_env : hdr_env :=
  mkHdrEnv IPA_HW_v2_5 false true 0 0 0 24 64 512 0 (λ _, true) (λ s, above 1 (st_idr s))
    (λ s, Some (0x100000 + Z.of_nat (st_time s) * 0x100))
    (λ s _, Some (above 0x1000 (st_bufs s))) (λ _ _, 0xaa) (λ _ _, 0) (λ _, 0).

Lemma ex_env_ok : hdr_env_ok ex_env.
Proof.
  constructor.
  - intros s _. cbn. destruct (above_spec 1 (st_idr s)) as [_ Ha]; [lia|].
    destruct (st_idr s !! above 1 (st_idr s)) eqn:Hs; [|done]. apply Ha in Hs. lia.
  - intros s n phys [= <-]. destruct (above_spec 0x1000 (st_bufs s)) as [Hb Ha]; [lia|].
    split; [lia|]. destruct (st_bufs s !! above 0x1000 (st_bufs s)) eqn:Hs; [|done]. apply Ha in Hs. lia.
  - done.
  - done.
Qed.

(** A header of [n] bytes. *)
Definition ex_bytes (n b : Z) : list Z := replicate (Z.to_nat n) b ++ zeros (64 - n).
Definition ex_hdr (name : list Z) (n b : Z) : ipa_hdr_add :=
  mkHdrAdd (name ++ zeros (32 - Z.of_nat (length name))) (ex_bytes n b) n 0 0 0 0 0 0.

Definition ex_lan : ipa_hdr_add := ex_hdr IPA_LAN_RX_HDR_NAME 4 0x11.
Definition ex_eth : ipa_hdr_add := ex_hdr [0x65; 0x74; 0x68] 14 0x22.
Definition ex_mux : ipa_hdr_add := ex_hdr [0x6d; 0x75; 0x78] 14 0x33.

Definition after (c : hdr_call) (s : hdr_state) : hdr_state :=
  match hdr_run ex_env c s with Some (_, s') => s' | None => s end.

Definition ex1 : hdr_state := after (AddHdr false [ex_lan] false) hdr_init.
Definition ex2 : hdr_state := after (AddHdr false [ex_eth] true) ex1.
Definition ex3 : hdr_state := after (AddCtx true [mkCtxAdd IPA_HDR_PROC_ETHII_TO_ETHII 2 0 0] true) ex2.
Definition ex4 : hdr_state := after (AddHdr true [ex_mux] true) ex3.

(** The default header is at the start, the next one after it, and the last one in memory with
    its own processing context. *)
Example ex4_headers :
  map (λ x, (h_id x.2, h_is_hdr_proc_ctx x.2, h_ref_cnt x.2)) (map_to_list (st_hdrs ex4)) =
  [(4, true, 1); (2, false, 2); (1, false, 1)].
Proof. vm_compute. reflexivity. Qed.

Example ex4_table : t_end (st_hdr_tbl ex4) = 24 ∧ t_end (st_ctx_tbl ex4) = 64 ∧
  map fst (map_to_list (st_ctxs ex4)) = [2; 1]%positive.
Proof. vm_compute. done. Qed.

(** ** Rules on a concrete state *)

Lemma after_reach s c : hdr_reach ex_env s → call_ok ex_env s c → hdr_run ex_env c s = Some ((), after c s) →
  hdr_reach ex_env (after c s).
Proof. apply hdr_reach_step. Qed.

Lemma add_ok_other E s a : name_of (a_name a) ≠ IPA_LAN_RX_HDR_NAME → length (a_hdr a) = 64%nat →
  0 ≤ a_hdr_len a < 256 → add_ok E s [a].
Proof. intros. split; [|left]; intros a' ->%list_elem_of_singleton; done. Qed.

Lemma add_ok_lan E s a : lan_fits E s a → length (a_hdr a) = 64%nat → 0 ≤ a_hdr_len a < 256 → add_ok E s [a].
Proof. intros. split; [|right; eauto]. by intros a' ->%list_elem_of_singleton. Qed.

Lemma may_drop_all s l :
  map_Forall (λ p e, ctx_refs ∅ p e (st_ctxs s) + count_id l (h_id e) ≤ h_ref_cnt e) (st_hdrs s) → may_drop s l.
Proof. done. Qed.

Lemma may_take_all s n : map_Forall (λ _ e, h_ref_cnt e + n < 2 ^ 32) (st_hdrs s) → may_take s n.
Proof. done. Qed.

(** A decidable statement that evaluates to true. *)
Ltac decided := apply (bool_decide_unpack _); vm_compute; exact I.

Lemma ex1_reach : hdr_reach ex_env ex1.
Proof.
  apply after_reach; [constructor| |by vm_compute]. apply add_ok_lan; [|done|done].
  intros _. split; [done|]. right. left. by vm_compute.
Qed.

Lemma ex2_reach : hdr_reach ex_env ex2.
Proof. apply after_reach; [apply ex1_reach|by apply add_ok_other|by vm_compute]. Qed.

Lemma ex3_reach : hdr_reach ex_env ex3.
Proof. apply after_reach; [apply ex2_reach| |by vm_compute]. apply may_take_all. decided. Qed.

Lemma ex4_reach : hdr_reach ex_env ex4.
Proof. apply after_reach; [apply ex3_reach|by apply add_ok_other|by vm_compute]. Qed.

(** Another header with the name of the second. *)
Definition ex_dup : ipa_hdr_add := ex_hdr [0x65; 0x74; 0x68] 6 0x44.
Definition ex_added : ipa_hdr_add * hdr_state :=
  match __ipa_add_hdr ex_env ex_dup true ex4 with Some (_, a, s) => (a, s) | None => (ex_dup, ex4) end.

Lemma ex_added_run : __ipa_add_hdr ex_env ex_dup true ex4 = Some ((0, ex_added.1), ex_added.2).
Proof. vm_compute. reflexivity. Qed.

(** Where the rules are broken: with the table full the default header goes to memory, and the
    test of the default header reads its slot, which is not there. *)
Example default_in_memory_undefined :
  let s := after (AddHdr false [ex_lan] false) (after (AddHdr false [ex_mux] true) ex2) in
  is_Some (st_idr s !! 5) ∧ __ipa_del_hdr 5 true s = None.
Proof. vm_compute. split; [eauto|done]. Qed.

(** A processing context that the driver made for a header in use is deleted by its handle: the header
    keeps a pointer to it, and its own deletion follows the pointer. *)
Example own_ctx_deleted_undefined :
  let s := after (DelCtx false [mkDel 5 0] true) (after (TakeHdr 4) ex4) in
  st_idr s !! 5 = None ∧ __ipa_del_hdr 4 true s = None.
Proof. vm_compute. done. Qed.
