(* ===== verification/HdrProps.v ===== *)
(** * IPA header tables: properties

    What holds of every state that the calls reach, and what one call does: safety, the layout
    of the tables, handles and references, commits, additions, deletions and the reset. *)

From S2P Require Import Prelude.
From S2P Require Import HdrTypes.
From S2P Require Import Hdr.
From S2P Require Import HdrInv.
From S2P Require Import HdrKeep.
From S2P Require Import HdrAddRuns.
From S2P Require Import HdrDelRuns.
From S2P Require Import HdrCommit.
From S2P Require Import HdrReset.
From S2P Require Import HdrCalls.
From S2P Require Import HdrExample.

Implicit Types (s : hdr_state).

(** ** Ranges of the tables *)

(** The bytes that header [p] has in the header table. *)
Definition hdr_range s (p : positive) : option (Z * Z) :=
  e ← st_hdrs s !! p;
  o ← h_offset_entry e;
  oe ← t_offs (st_hdr_tbl s) !! o;
  Some (o_offset oe, h_hdr_len e).
(** The program that context [q] has in the table of contexts. *)
Definition ctx_range s (q : positive) : option (Z * Z) :=
  c ← st_ctxs s !! q;
  o ← c_offset_entry c;
  oe ← t_offs (st_ctx_tbl s) !! o;
  Some (o_offset oe, 16).

(** Each range lies in the table, aligned, and no two overlap. *)
Definition laid_out (range : positive → option (Z * Z)) (align end_ limit : Z) : Prop :=
  end_ ≤ limit ∧
  (∀ p a n, range p = Some (a, n) → 0 ≤ a ∧ a + n ≤ end_ ∧ (align | a)) ∧
  (∀ p1 p2 a1 a2 n1 n2, p1 ≠ p2 → range p1 = Some (a1, n1) → range p2 = Some (a2, n2) →
     a1 + n1 ≤ a2 ∨ a2 + n2 ≤ a1).

Lemma laid_out_of {A} (f : gmap positive A) (slot : A → option positive) sizes align limit t range :
  (∀ b size, sizes !! b = Some size → 0 < size ∧ (align | size)) →
  slots_ok sizes align limit t → slots_owned f slot t →
  (∀ p a n, range p = Some (a, n) → ∃ x o oe, f !! p = Some x ∧ slot x = Some o ∧
     t_offs t !! o = Some oe ∧ a = o_offset oe ∧ n ≤ slot_size sizes oe) →
  laid_out range align (t_end t) limit.
Proof.
  intros Hsz Hs Ho Hr. pose proof (so_end _ _ _ _ Hs) as [? _]. split_and!; [lia| |].
  - intros p a n (x & o & oe & _ & _ & Hoe & -> & Hn)%Hr.
    destruct (so_slot _ _ _ _ Hs o oe Hoe) as (? & ? & ?). split_and!; [done|lia|done].
  - intros p1 p2 a1 a2 n1 n2 Hne (x1 & o1 & oe1 & Hx1 & Ho1 & Hoe1 & -> & Hn1)%Hr
      (x2 & o2 & oe2 & Hx2 & Ho2 & Hoe2 & -> & Hn2)%Hr.
    assert (o1 ≠ o2) as Hon by (intros ->; by eapply Hne, (sl_one _ _ _ Ho)).
    destruct (so_apart _ _ _ _ Hs o1 o2 oe1 oe2 Hoe1 Hoe2 Hon); lia.
Qed.

Lemma hdr_range_Some s p a n : hdr_range s p = Some (a, n) ↔
  ∃ e o oe, st_hdrs s !! p = Some e ∧ h_offset_entry e = Some o ∧
    t_offs (st_hdr_tbl s) !! o = Some oe ∧ a = o_offset oe ∧ n = h_hdr_len e.
Proof.
  unfold hdr_range. destruct (st_hdrs s !! p) as [e|] eqn:Hp; cbn; [|naive_solver].
  destruct (h_offset_entry e) as [o|] eqn:Ho; cbn; [|naive_solver].
  destruct (t_offs (st_hdr_tbl s) !! o) as [oe|] eqn:Hoe; cbn; naive_solver.
Qed.

Lemma ctx_range_Some s q a n : ctx_range s q = Some (a, n) ↔
  ∃ c o oe, st_ctxs s !! q = Some c ∧ c_offset_entry c = Some o ∧
    t_offs (st_ctx_tbl s) !! o = Some oe ∧ a = o_offset oe ∧ n = 16.
Proof.
  unfold ctx_range. destruct (st_ctxs s !! q) as [c|] eqn:Hq; cbn; [|naive_solver].
  destruct (c_offset_entry c) as [o|] eqn:Ho; cbn; [|naive_solver].
  destruct (t_offs (st_ctx_tbl s) !! o) as [oe|] eqn:Hoe; cbn; naive_solver.
Qed.

Lemma hdr_len_fits E s p e o oe : inv E ∅ ∅ s → st_hdrs s !! p = Some e → h_offset_entry e = Some o →
  t_offs (st_hdr_tbl s) !! o = Some oe → h_hdr_len e ≤ slot_size ipa_hdr_bin_sz oe.
Proof.
  intros Hi Hp Ho Hoe. pose proof (ho_place _ _ _ _ _ (i_hdrs _ _ _ _ Hi p e Hp)) as Hpl.
  destruct (h_is_hdr_proc_ctx e); [destruct Hpl; congruence|].
  destruct Hpl as (_ & _ & o' & oe' & Ho' & Hoe' & Hl & _). by simplify_eq.
Qed.

(** What the invariant says of the ranges. *)
Lemma hdr_tables_layout E s : hdr_env_ok E → hdr_reach E s →
  laid_out (hdr_range s) 4 (t_end (st_hdr_tbl s)) (hdr_limit E) ∧
  laid_out (ctx_range s) 32 (t_end (st_ctx_tbl s)) (ctx_limit E).
Proof.
  intros HE Hr. pose proof (inv_reach E s Hr) as Hi. split.
  - apply (laid_out_of (st_hdrs s) h_offset_entry ipa_hdr_bin_sz 4 (hdr_limit E) (st_hdr_tbl s)); [apply hdr_sizes|by destruct Hi..|].
    intros p a n (e & o & oe & He & Ho & Hoe & -> & ->)%hdr_range_Some. exists e, o, oe.
    split_and!; try done. by eapply hdr_len_fits.
  - apply (laid_out_of (st_ctxs s) c_offset_entry ipa_hdr_proc_ctx_bin_sz 32 (ctx_limit E) (st_ctx_tbl s)); [apply ctx_sizes|by destruct Hi..|].
    intros q a n (c & o & oe & Hc & Ho & Hoe & -> & ->)%ctx_range_Some. exists c, o, oe.
    split_and!; try done. destruct (co_slot _ _ _ _ (i_ctxs _ _ _ _ Hi q c Hc)) as (o' & oe' & ? & ? & ?).
    by simplify_eq.
Qed.

(** ** Safety *)

(** C8. From every state that the calls reach, every call that keeps the rules of [call_ok] is
    defined, on every path and for every answer of the environment: no null or freed entry is
    read, no buffer is written outside its bounds or freed twice, no mapping is undone twice and
    no list is indexed outside its bins. *)
Theorem hdr_never_stuck E s c :
  hdr_env_ok E → hdr_reach E s → call_ok E s c →
  ∃ s', hdr_run E c s = Some ((), s') ∧ hdr_reach E s'.
Proof.
  intros HE Hr Hok. pose proof (run_any E c s (inv_reach E s Hr) Hok) as Hwp.
  apply wp_elim in Hwp as ([] & s' & Hrun & _). exists s'. split; [done|].
  by eapply hdr_reach_step.
Qed.

Lemma hdr_never_stuck_witness :
  ∃ s', hdr_run ex_env (DelHdr true [mkDel 4 0; mkDel 2 0; mkDel 7 0] true) ex4 = Some ((), s') ∧
        hdr_reach ex_env s'.
Proof.
  apply (hdr_never_stuck ex_env ex4); [apply ex_env_ok|apply ex4_reach|].
  apply may_drop_all. decided.
Defined.

(** ** The layout of the tables *)

(** C9. In every reachable state the headers that are in the header table have disjoint ranges,
    aligned to 4 bytes, before the end of the table and within the memory of the hardware; the
    same holds of the processing contexts, aligned to 32. A header is in the table, or mapped
    in memory with a processing context of its own. *)
Theorem hdr_tables_laid_out E s :
  hdr_env_ok E → hdr_reach E s →
  laid_out (hdr_range s) 4 (t_end (st_hdr_tbl s)) (hdr_limit E) ∧
  laid_out (ctx_range s) 32 (t_end (st_ctx_tbl s)) (ctx_limit E) ∧
  (∀ q, is_Some (st_ctxs s !! q) → is_Some (ctx_range s q)) ∧
  (∀ p e, st_hdrs s !! p = Some e →
     if h_is_hdr_proc_ctx e then
       hdr_range s p = None ∧ st_maps s !! p = Some (h_phys_base e, h_hdr_len e) ∧
       ∃ q c, h_proc_ctx e = Some q ∧ st_ctxs s !! q = Some c ∧ c_hdr c = p
     else is_Some (hdr_range s p) ∧ st_maps s !! p = None).
Proof.
  intros HE Hr. pose proof (inv_reach E s Hr) as Hi.
  destruct (hdr_tables_layout E s HE Hr) as [L1 L2]. split_and!; [done..| |].
  - intros q [c Hc]. destruct (co_slot _ _ _ _ (i_ctxs _ _ _ _ Hi q c Hc)) as (o & oe & Ho & Hoe & _).
    exists (o_offset oe, 16). apply ctx_range_Some. eauto 10.
  - intros p e Hp. pose proof (ho_place _ _ _ _ _ (i_hdrs _ _ _ _ Hi p e Hp)) as Hpl.
    destruct (h_is_hdr_proc_ctx e).
    + destruct Hpl as (Ho & Hm & _ & [[? _]|(q & c & Hq & Hc & Hcp & _)]); [set_solver|].
      split_and!; [|done|eauto]. unfold hdr_range. by rewrite Hp; cbn; rewrite Ho.
    + destruct Hpl as (_ & Hm & o & oe & Ho & Hoe & _). split; [|done].
      exists (o_offset oe, h_hdr_len e). apply hdr_range_Some. eauto 10.
Qed.

Lemma hdr_tables_laid_out_witness :
  hdr_range ex4 1 = Some (0, 4) ∧ hdr_range ex4 2 = Some (8, 14) ∧ hdr_range ex4 3 = None ∧
  laid_out (hdr_range ex4) 4 (t_end (st_hdr_tbl ex4)) (hdr_limit ex_env).
Proof.
  split; [by vm_compute|]. split; [by vm_compute|]. split; [by vm_compute|].
  exact (proj1 (hdr_tables_laid_out ex_env ex4 ex_env_ok ex4_reach)).
Defined.

(** ** Handles and references *)

(** C10. In every reachable state a handle names a header or a processing context exactly when
    that entry exists and has this number; the list of each table holds every entry once and the
    counter is its length; every processing context has a header that exists, and a header has
    at least as many references as processing contexts use it. *)
Theorem hdr_handles_exact E s :
  hdr_env_ok E → hdr_reach E s →
  (∀ id p, st_idr s !! id = Some (IdHdr p) ↔ ∃ e, st_hdrs s !! p = Some e ∧ h_id e = id) ∧
  (∀ id q, st_idr s !! id = Some (IdCtx q) ↔ ∃ c, st_ctxs s !! q = Some c ∧ c_id c = id) ∧
  listed (st_hdrs s) (st_hdr_tbl s) ∧ listed (st_ctxs s) (st_ctx_tbl s) ∧
  (∀ q c, st_ctxs s !! q = Some c → is_Some (st_hdrs s !! c_hdr c)) ∧
  (∀ p e, st_hdrs s !! p = Some e →
     1 ≤ h_ref_cnt e ∧ ctx_refs ∅ p e (st_ctxs s) ≤ h_ref_cnt e).
Proof.
  intros HE Hr. pose proof (inv_reach E s Hr) as Hi. split_and!.
  - intros id p. split; [apply (i_idr _ _ _ _ Hi id (IdHdr p))|].
    intros (e & He & <-). exact (ho_id _ _ _ _ _ (i_hdrs _ _ _ _ Hi p e He)).
  - intros id q. split; [apply (i_idr _ _ _ _ Hi id (IdCtx q))|].
    intros (c & Hc & <-). exact (co_id _ _ _ _ (i_ctxs _ _ _ _ Hi q c Hc)).
  - by destruct Hi.
  - by destruct Hi.
  - intros q c Hc. destruct (co_live _ _ _ _ (i_ctxs _ _ _ _ Hi q c Hc)) as [? _]; [set_solver|done].
  - intros p e Hp. pose proof (i_hdrs _ _ _ _ Hi p e Hp) as []. split; [lia|done].
Qed.

Lemma hdr_handles_exact_witness :
  ∃ e, st_hdrs ex4 !! 3%positive = Some e ∧ h_id e = 4.
Proof.
  apply (proj1 (hdr_handles_exact ex_env ex4 ex_env_ok ex4_reach) 4 3%positive). by vm_compute.
Defined.

(** ** Commits *)

(** C11. From every reachable state [ipa_commit_hdr] ends. On success the hardware got one list
    of commands, and with them images of the tables: every header's bytes at the place of its
    slot, and, on version 2.5, for every processing context the program that adds its header,
    by the address of the header in the table or in memory, runs the command of its type and
    ends. On failure the buffers that the hardware reads are those of before. The tables stay as
    they are in both cases. *)
Theorem commit_exact E s :
  hdr_env_ok E → hdr_reach E s →
  ∃ rc s', ipa_commit_hdr E s = Some (rc, s') ∧ committed E rc s s'.
Proof.
  intros HE Hr. assert (wp (ipa_commit_hdr E) (λ rc s', committed E rc s s') s) as Hwp.
  { apply (wp_commit E); [by apply inv_reach|done]. }
  by apply wp_elim in Hwp.
Qed.

Lemma commit_exact_witness :
  ∃ rc s', ipa_commit_hdr ex_env ex4 = Some (rc, s') ∧ rc = 0 ∧ committed ex_env rc ex4 s'.
Proof.
  destruct (commit_exact ex_env ex4 ex_env_ok ex4_reach) as (rc & s' & Hrun & Hc).
  exists rc, s'. split; [done|]. split; [|done].
  assert (rc = match ipa_commit_hdr ex_env ex4 with Some (rc, _) => rc | None => 0 end) as -> by (by rewrite Hrun).
  by vm_compute.
Defined.

(** ** Adding *)

(** C13. Adding a header ends with an error that leaves every entry, handle, mapping, buffer and
    list as it was, or with success: there is one new entry, with the bytes, the length, the name
    and the flags of the call, one reference and a handle that was not in use; it is the first
    of the list, and all other entries are as they were. *)
Theorem add_hdr_all_or_nothing E s a user :
  hdr_env_ok E → hdr_reach E s → length (a_hdr a) = 64%nat → 0 ≤ a_hdr_len a → lan_fits E s a →
  ∃ rc a' s', __ipa_add_hdr E a user s = Some ((rc, a'), s') ∧
    ((rc ≠ 0 ∧ unchanged E s s') ∨
     (rc = 0 ∧ 1 ≤ a_hdr_len a ≤ 60 ∧ ∃ p e, added_hdr a a' user s s' p e)).
Proof.
  intros HE Hr Hlen Hl Hlan.
  assert (wp (__ipa_add_hdr E a user) (λ r s', (r.1 ≠ 0 ∧ unchanged E s s') ∨
    (r.1 = 0 ∧ 1 ≤ a_hdr_len a ≤ 60 ∧ ∃ p e, added_hdr a r.2 user s s' p e)) s) as Hwp.
  { apply (wp_add_hdr E); [by apply inv_reach|done..| |].
    - intros rc a' s' Hrc _ Hun. by left.
    - intros a' s' p e Hi' Hadd. right. split; [done|]. split; [|by eauto].
      pose proof Hadd as []. destruct ah_entry as (ddr & phys & ctx & off & He).
      assert (st_hdrs s' !! p = Some e) as Hp by (rewrite ah_hdrs; apply lookup_insert_eq).
      pose proof (ho_len _ _ _ _ _ (i_hdrs _ _ _ _ Hi' p e Hp)) as Hlen'. by rewrite He in Hlen'. }
  apply wp_elim in Hwp as ([rc a'] & s' & Hrun & Hres). eauto 10.
Qed.

Lemma add_hdr_all_or_nothing_witness :
  ∃ rc a' s', __ipa_add_hdr ex_env ex_eth true ex4 = Some ((rc, a'), s') ∧
    ((rc ≠ 0 ∧ unchanged ex_env ex4 s') ∨
     (rc = 0 ∧ 1 ≤ 14 ≤ 60 ∧ ∃ p e, added_hdr ex_eth a' true ex4 s' p e)).
Proof.
  apply (add_hdr_all_or_nothing ex_env ex4 ex_eth true); [apply ex_env_ok|apply ex4_reach|done|done|].
  intros Hn. by vm_compute in Hn.
Defined.

(** C14. A header that was added is the one that its name finds, even when an older one has the
    same name: [ipa2_get_hdr] returns its handle and [ipa2_copy_hdr] its bytes, its length and
    its flags, and neither changes the state. *)
Theorem added_hdr_found E s a user a' s' name :
  hdr_env_ok E → hdr_reach E s → length (a_hdr a) = 64%nat → 0 ≤ a_hdr_len a → lan_fits E s a →
  __ipa_add_hdr E a user s = Some ((0, a'), s') → name_of name = name_of (a_name a) →
  ipa2_get_hdr name s' = Some ((0, Some (a_hdr_hdl a')), s') ∧
  ipa2_copy_hdr name s' =
    Some ((0, Some (mkCopy (take (Z.to_nat (a_hdr_len a)) (a_hdr a)) (a_hdr_len a) (a_type a)
                      (a_is_partial a) (a_is_eth2_ofst_valid a) (a_eth2_ofst a))), s').
Proof.
  intros HE Hr Hlen Hl Hlan Hrun Hname.
  destruct (add_hdr_all_or_nothing E s a user HE Hr Hlen Hl Hlan) as (rc & a1 & s1 & Hrun1 & Hres).
  rewrite Hrun in Hrun1. simplify_eq. destruct Hres as [[? _]|(_ & Hl60 & p & e & [])]; [done|].
  destruct ah_entry as (ddr & phys & ctx & off & ->).
  assert (__ipa_find_hdr (name_of name) s1 =
    Some (Some (new_entry a user (a_hdr_hdl a1) ddr phys ctx off), s1)) as Hfind.
  { unfold __ipa_find_hdr. rewrite get_bind, ah_entries. cbn [find_name].
    unfold hdr_at at 1, mbind at 1, M_bind at 1. rewrite get_bind, ah_hdrs, lookup_insert_eq.
    cbn [of_option]. cbv beta. rewrite bool_decide_true by done. done. }
  split; (unfold ipa2_get_hdr, ipa2_copy_hdr; rewrite (M_bind_Some _ _ _ _ _ Hfind); cbn [mret M_ret]; unfold mret, M_ret).
  - done.
  - cbn [new_entry h_hdr_len h_hdr h_type h_is_partial h_is_eth2_ofst_valid h_eth2_ofst].
    rewrite take_app_le by (rewrite length_take; lia). rewrite take_take, Nat.min_id.
    replace (u8 (a_hdr_len a)) with (a_hdr_len a); [done|]. unfold u8. symmetry. apply Z.mod_small. lia.
Qed.

(** A second header with the name of the first is found in its place. *)
Lemma added_hdr_found_witness :
  ipa2_get_hdr [0x65; 0x74; 0x68; 0] ex_added.2 = Some ((0, Some (a_hdr_hdl ex_added.1)), ex_added.2) ∧
  a_hdr_hdl ex_added.1 = 6.
Proof.
  split; [|by vm_compute].
  refine (proj1 (added_hdr_found ex_env ex4 ex_dup true _ _ _ ex_env_ok ex4_reach _ _ _ ex_added_run _)).
  - by vm_compute.
  - by vm_compute.
  - intros Hn. by vm_compute in Hn.
  - by vm_compute.
Defined.

(** ** Deleting *)

(** C21. A deletion that gives back a reference of its own is refused, and changes nothing,
    exactly when the handle is not a header's or the call is user space's and the header was
    deleted by it before or is the default one. Otherwise it takes one reference. With the
    last one the entry and its handle go, and so does the processing context that the driver
    made for it, and nothing else; with any other one only the counter and the mark of user
    space change. *)
Theorem del_hdr_exact E s hdl by_user :
  hdr_env_ok E → hdr_reach E s → may_drop s [hdl] →
  ∃ rc s', __ipa_del_hdr hdl by_user s = Some (rc, s') ∧
    ((rc ≠ 0 ∧ s' = s ∧ del_refused s hdl by_user) ∨
     (rc = 0 ∧ ¬ del_refused s hdl by_user ∧ ∃ p e, dropped_hdr by_user hdl s s' p e)).
Proof.
  intros HE Hr Hd. pose proof (inv_reach E s Hr) as Hi.
  assert (wp (__ipa_del_hdr hdl by_user) (λ rc s', (rc ≠ 0 ∧ s' = s ∧ del_refused s hdl by_user) ∨
    (rc = 0 ∧ ¬ del_refused s hdl by_user ∧ ∃ p e, dropped_hdr by_user hdl s s' p e)) s) as Hwp.
  { apply (wp_del_hdr E ∅); [done|by eapply may_drop_spare|by left|].
    intros s' p e _ Hnr Hdr. right. eauto. }
  apply wp_elim in Hwp as (rc & s' & Hrun & Hres). eauto.
Qed.

Lemma del_hdr_exact_witness :
  ∃ rc s', __ipa_del_hdr 4 true ex4 = Some (rc, s') ∧
    ((rc ≠ 0 ∧ s' = ex4 ∧ del_refused ex4 4 true) ∨
     (rc = 0 ∧ ¬ del_refused ex4 4 true ∧ ∃ p e, dropped_hdr true 4 ex4 s' p e)).
Proof.
  apply (del_hdr_exact ex_env ex4 4 true ex_env_ok ex4_reach). apply may_drop_all. decided.
Defined.

(** ** Reset *)

(** C26. A reset removes exactly the headers that user space installed, or all of them, except
    for the default header, and exactly the processing contexts of the same kind; what stays is
    as it was, and the tables satisfy the invariant again, if no processing context that stays
    loses its header and a full reset finds the default header, of at most 8 bytes as the rules
    of [hdr_call_ok] have it. *)
Theorem reset_exact E s user_only :
  hdr_env_ok E → hdr_reach E s → reset_ok s user_only →
  ∃ rc s', ipa2_reset_hdr E user_only s = Some (rc, s') ∧ was_reset user_only s s' ∧
    laid_out (hdr_range s') 4 (t_end (st_hdr_tbl s')) (hdr_limit E) ∧
    (user_only = false → st_ctxs s' = ∅ ∧
       ∃ p e, is_default s e ∧ st_hdrs s' = {[p := e]}).
Proof.
  intros HE Hr Hok. pose proof (inv_reach E s Hr) as Hi.
  assert (wp (ipa2_reset_hdr E user_only) (λ _ s', was_reset user_only s s' ∧ hdr_reach E s') s) as Hwp.
  { destruct (wp_elim (ipa2_reset_hdr E user_only) (λ _ s', inv E ∅ ∅ s' ∧ was_reset user_only s s') s)
      as (rc & s' & Hrun & _ & Hw); [by apply (wp_reset E)|].
    eapply wp_intro; [done|]. split; [done|]. apply (hdr_reach_step E s (ResetHdr user_only)); [done|done|].
    cbn. unfold ignore. by rewrite (M_bind_Some _ _ _ _ _ Hrun). }
  apply wp_elim in Hwp as (rc & s' & Hrun & Hw & Hr'). exists rc, s'.
  pose proof (hdr_tables_layout E s' HE Hr') as (Hlay & _). split_and!; [done..|].
  intros ->. pose proof Hw as [W1 W2]. split.
  - apply map_empty. intros q. destruct (st_ctxs s' !! q) as [c|] eqn:Hq; [|done]. by apply W2 in Hq as [_ ?].
  - destruct Hok as [_ Hdef]. destruct (Hdef eq_refl) as (p & e & Hp & He). exists p, e. split; [done|].
    apply map_eq. intros p'. apply option_eq. intros e'. rewrite (W1 p' e'), lookup_singleton_Some.
    split; [|intros [<- <-]; auto]. intros [Hp' [Hd'|?]]; [|done].
    assert (p = p') as <- by (by eapply one_default). by simplify_eq.
Qed.

(** A full reset leaves the default header. *)
Lemma reset_exact_witness :
  ∃ rc s', ipa2_reset_hdr ex_env false ex4 = Some (rc, s') ∧ was_reset false ex4 s' ∧
    laid_out (hdr_range s') 4 (t_end (st_hdr_tbl s')) (hdr_limit ex_env) ∧
    (false = false → st_ctxs s' = ∅ ∧ ∃ p e, is_default ex4 e ∧ st_hdrs s' = {[p := e]}).
Proof.
  apply (reset_exact ex_env ex4 false ex_env_ok ex4_reach). split.
  - by intros q c e _ _ Hg.
  - intros _. eexists 1%positive, _. split; [vm_compute; reflexivity|]. split; [reflexivity|].
    do 2 eexists. split; [reflexivity|]. split; [vm_compute; reflexivity|reflexivity].
Defined.
