(* ===== verification/NatTable.v ===== *)
(** * IPA NAT table: data and program

    [ipa_v2/ipa_nat.c] and the NAT cases of [ipa_ioctl]: the device that user space maps, the
    DMA memory of the four tables, the commands that tell the hardware where they are, and the
    writes into them. Memory for DMA is known by the address that the device sees, its handle;
    a small allocation of the kernel is known by a name, and freeing what is not allocated is
    undefined. *)

From S2P Require Import Prelude.

(** ** Constants *)

Definition IPA_NAT_PHYS_MEM_OFFSET : Z := 0.
Definition IPA_NAT_PHYS_MEM_SIZE : Z := 0.
Definition IPA_RAM_NAT_OFST : Z := 0.
Definition IPA_NAT_SYSTEM_MEMORY : Z := 0.
Definition IPA_NAT_SHARED_MEMORY : Z := 1.
Definition IPA_NAT_TEMP_MEM_SIZE : Z := 128.
Definition IPA_NAT_BASE_TBL : Z := 0.
Definition IPA_NAT_EXPN_TBL : Z := 1.
Definition IPA_NAT_INDX_TBL : Z := 2.
Definition IPA_NAT_INDEX_EXPN_TBL : Z := 3.
Definition NAT_TABLE_ENTRY_SIZE_BYTE : Z := 32.
Definition NAT_INTEX_TABLE_ENTRY_SIZE_BYTE : Z := 4.
Definition MAX_ALLOC_NAT_SIZE : Z := 1000 * NAT_TABLE_ENTRY_SIZE_BYTE.
Definition UINT_MAX : Z := 2 ^ 32 - 1.
Definition ENODEV : Z := 19.
Definition EAGAIN : Z := 11.
Definition PAGE_SHIFT : Z := 12.

(** The bytes of ["ipaNatTable"], with the terminator. *)
Definition NAT_DEV_NAME : list Z :=
  [0x69; 0x70; 0x61; 0x4e; 0x61; 0x74; 0x54; 0x61; 0x62; 0x6c; 0x65; 0].

Definition IPA_SRAM_DIRECT_ACCESS_N_OFST (n : Z) : Z := 0x4000 + 4 * n.

(** ** Data *)

(** [struct ipa_nat_mem]; a virtual address is an integer, and [NULL] is 0. *)
Record ipa_nat_mem := mkNat {
  vaddr : Z;
  dma_handle : Z;
  size : Z;
  is_mapped : bool;
  is_sys_mem : bool;
  is_dev_init : bool;
  is_dev : bool;
  nat_base_address : Z;
  ipv4_rules_addr : Z;
  ipv4_expansion_rules_addr : Z;
  index_table_addr : Z;
  index_table_expansion_addr : Z;
  size_base_tables : Z;
  size_expansion_tables : Z;
  public_ip_addr : Z;
  tmp_vaddr : Z;
  tmp_dma_handle : Z;
  is_tmp_mem : bool;
}.

(** [struct ipa_ioc_nat_alloc_mem] *)
Record ipa_ioc_nat_alloc_mem := mkNatAlloc { dev_name : list Z; alloc_size : Z }.

(** [struct ipa_ioc_v4_nat_init] *)
Record ipa_ioc_v4_nat_init := mkNatInit {
  tbl_index : Z;
  ipv4_rules_offset : Z;
  expn_rules_offset : Z;
  index_offset : Z;
  index_expn_offset : Z;
  table_entries : Z;
  expn_table_entries : Z;
  ip_addr : Z;
}.

(** [struct ipa_ioc_nat_dma_one] *)
Record ipa_ioc_nat_dma_one := mkDmaOne {
  one_table_index : Z;
  one_base_addr : Z;
  one_offset : Z;
  one_data : Z;
}.

(** [struct ipa_ip_v4_nat_init]: the command that installs the tables; the four addresses have
    32 bits, the index 3, the types 1 and the sizes 12 and 10. *)
Record ipa_ip_v4_nat_init := mkInitCmd {
  cmd_rules_addr : Z;
  cmd_expansion_addr : Z;
  cmd_index_addr : Z;
  cmd_index_expansion_addr : Z;
  cmd_table_index : Z;
  cmd_addr_type : Z;
  cmd_size_base : Z;
  cmd_size_expansion : Z;
  cmd_public_ip : Z;
}.

(** [struct ipa_nat_dma]: the command that writes two bytes into a table. *)
Record ipa_nat_dma := mkDmaCmd {
  dma_table_index : Z;
  dma_base_addr : Z;
  dma_offset : Z;
  dma_data : Z;
}.

(** The descriptors of [ipa_send_cmd]; the first one waits until the pipeline is empty. *)
Inductive nat_desc :=
  | NopDesc
  | NatInitDesc (c : ipa_ip_v4_nat_init)
  | NatDmaDesc (d : ipa_nat_dma).

(** What [create_nat_device] takes from the kernel. *)
Inductive dev_part := DevClass | DevRegion | DevNode | DevCdev.

(** [n_bufs]: the live DMA buffers with their lengths. [n_vmas]: the buffers that user space has
    mapped, latest first. [n_parts]: what the device holds. [n_sent]: the lists of descriptors
    that [ipa_send_cmd] took, latest first, with its result. [n_heap]: the live allocations of
    [kmalloc]. [n_time] counts the answers of the environment. *)
Record nat_state := mkNatSt {
  n_mem : ipa_nat_mem;
  n_bufs : gmap Z Z;
  n_vmas : list (Z * Z);
  n_parts : list dev_part;
  n_sent : list (list nat_desc * Z);
  n_heap : gset positive;
  n_time : nat;
}.

(** The answers of the rest of the kernel: the buffer of [dma_alloc_coherent] as its virtual
    address and handle, an allocation of [kmalloc], the results of [ipa_send_cmd], of the
    mapping functions and of the functions that make a device; and two addresses of the chip. *)
Record nat_env := mkNatEnv {
  env_dma_alloc : nat_state → Z → option (Z * Z);
  env_kmalloc : nat_state → option positive;
  env_send_cmd : nat_state → list nat_desc → Z;
  env_dma_mmap : nat_state → Z;
  env_remap : nat_state → Z → Z → Z;
  env_device : nat_state → dev_part → Z;
  ipa_wrapper_base : Z;
  ipa_reg_base_ofst : Z;
}.

(** ** Updates *)

Definition set_block (v h n : Z) (m : ipa_nat_mem) : ipa_nat_mem :=
  mkNat v h n (is_mapped m) (is_sys_mem m) (is_dev_init m) (is_dev m) (nat_base_address m)
    (ipv4_rules_addr m) (ipv4_expansion_rules_addr m) (index_table_addr m)
    (index_table_expansion_addr m) (size_base_tables m) (size_expansion_tables m)
    (public_ip_addr m) (tmp_vaddr m) (tmp_dma_handle m) (is_tmp_mem m).
Definition set_flags (mapped sys init : bool) (m : ipa_nat_mem) : ipa_nat_mem :=
  mkNat (vaddr m) (dma_handle m) (size m) mapped sys init (is_dev m) (nat_base_address m)
    (ipv4_rules_addr m) (ipv4_expansion_rules_addr m) (index_table_addr m)
    (index_table_expansion_addr m) (size_base_tables m) (size_expansion_tables m)
    (public_ip_addr m) (tmp_vaddr m) (tmp_dma_handle m) (is_tmp_mem m).
Definition set_dev (m : ipa_nat_mem) : ipa_nat_mem :=
  mkNat (vaddr m) (dma_handle m) (size m) (is_mapped m) (is_sys_mem m) (is_dev_init m) true
    (nat_base_address m)
    (ipv4_rules_addr m) (ipv4_expansion_rules_addr m) (index_table_addr m)
    (index_table_expansion_addr m) (size_base_tables m) (size_expansion_tables m)
    (public_ip_addr m) (tmp_vaddr m) (tmp_dma_handle m) (is_tmp_mem m).
Definition set_base (a : Z) (m : ipa_nat_mem) : ipa_nat_mem :=
  mkNat (vaddr m) (dma_handle m) (size m) (is_mapped m) (is_sys_mem m) (is_dev_init m) (is_dev m)
    a (ipv4_rules_addr m) (ipv4_expansion_rules_addr m) (index_table_addr m)
    (index_table_expansion_addr m) (size_base_tables m) (size_expansion_tables m)
    (public_ip_addr m) (tmp_vaddr m) (tmp_dma_handle m) (is_tmp_mem m).
Definition set_tables (ip r e i x nb ne : Z) (m : ipa_nat_mem) : ipa_nat_mem :=
  mkNat (vaddr m) (dma_handle m) (size m) (is_mapped m) (is_sys_mem m) (is_dev_init m) (is_dev m)
    (nat_base_address m) r e i x nb ne ip (tmp_vaddr m) (tmp_dma_handle m) (is_tmp_mem m).
Definition set_tmp (v h : Z) (b : bool) (m : ipa_nat_mem) : ipa_nat_mem :=
  mkNat (vaddr m) (dma_handle m) (size m) (is_mapped m) (is_sys_mem m) (is_dev_init m) (is_dev m)
    (nat_base_address m)
    (ipv4_rules_addr m) (ipv4_expansion_rules_addr m) (index_table_addr m)
    (index_table_expansion_addr m) (size_base_tables m) (size_expansion_tables m)
    (public_ip_addr m) v h b.

Definition n_with_mem (f : ipa_nat_mem → ipa_nat_mem) (s : nat_state) : nat_state :=
  mkNatSt (f (n_mem s)) (n_bufs s) (n_vmas s) (n_parts s) (n_sent s) (n_heap s) (n_time s).
Definition n_with_bufs (b : gmap Z Z) (s : nat_state) : nat_state :=
  mkNatSt (n_mem s) b (n_vmas s) (n_parts s) (n_sent s) (n_heap s) (n_time s).
Definition n_with_vmas (l : list (Z * Z)) (s : nat_state) : nat_state :=
  mkNatSt (n_mem s) (n_bufs s) l (n_parts s) (n_sent s) (n_heap s) (n_time s).
Definition n_with_parts (l : list dev_part) (s : nat_state) : nat_state :=
  mkNatSt (n_mem s) (n_bufs s) (n_vmas s) l (n_sent s) (n_heap s) (n_time s).
Definition n_with_sent (l : list (list nat_desc * Z)) (s : nat_state) : nat_state :=
  mkNatSt (n_mem s) (n_bufs s) (n_vmas s) (n_parts s) l (n_heap s) (n_time s).
Definition n_with_heap (h : gset positive) (s : nat_state) : nat_state :=
  mkNatSt (n_mem s) (n_bufs s) (n_vmas s) (n_parts s) (n_sent s) h (n_time s).
Definition n_tick (s : nat_state) : nat_state :=
  mkNatSt (n_mem s) (n_bufs s) (n_vmas s) (n_parts s) (n_sent s) (n_heap s) (S (n_time s)).

Abbreviation NM := (M nat_state).

(** An answer of the environment, which may change after it. *)
Definition nat_ask {A} (f : nat_state → A) : NM A :=
  s ← get; put (n_tick s) ;; mret (f s).
Definition nat_mem : NM ipa_nat_mem := s ← get; mret (n_mem s).
Definition upd_mem (f : ipa_nat_mem → ipa_nat_mem) : NM () := modify (n_with_mem f).

(** [kfree]; of [NULL] it does nothing. *)
Definition nat_kfree (o : option positive) : NM () :=
  match o with
  | None => mret ()
  | Some p => s ← get; if decide (p ∈ n_heap s) then put (n_with_heap (n_heap s ∖ {[p]}) s) else UB
  end.

(** ** Bytes of a request *)

(** [dma->dma[cnt]] of a [struct ipa_ioc_nat_dma_cmd]: elements of 12 bytes from byte 4. *)
Definition dma_one (param : list Z) (cnt : nat) : option ipa_ioc_nat_dma_one :=
  let o := (4 + 12 * cnt)%nat in
  t ← le_bytes param o 1; b ← le_bytes param (o + 1) 1;
  f ← le_bytes param (o + 4) 4; d ← le_bytes param (o + 8) 2;
  Some (mkDmaOne t b f d).

(** [dma->entries] *)
Definition dma_entries (param : list Z) : option Z := le_bytes param 0 1.

Section Nat.
Context (E : nat_env).

Definition kmalloc : NM (option positive) :=
  o ← nat_ask (env_kmalloc E);
  match o with
  | None => mret None
  | Some p => s ← get; put (n_with_heap ({[p]} ∪ n_heap s) s) ;; mret (Some p)
  end.

Definition nat_send_cmd (l : list nat_desc) : NM Z :=
  r ← nat_ask (λ s, env_send_cmd E s l);
  modify (λ s, n_with_sent ((l, r) :: n_sent s) s) ;; mret r.

Definition nat_dma_alloc_coherent (n : Z) : NM (option (Z * Z)) :=
  o ← nat_ask (λ s, env_dma_alloc E s n);
  match o with
  | None => mret None
  | Some (v, h) => modify (λ s, n_with_bufs (<[h := n]> (n_bufs s)) s) ;; mret (Some (v, h))
  end.

(** Freeing another length than that of the buffer, or no buffer, is undefined. *)
Definition nat_dma_free_coherent (n h : Z) : NM () :=
  s ← get;
  if decide (n_bufs s !! h = Some n) then put (n_with_bufs (delete h (n_bufs s)) s) else UB.

(** ** The device *)

Definition allocate_temp_nat_memory : NM () :=
  o ← nat_dma_alloc_coherent IPA_NAT_TEMP_MEM_SIZE;
  match o with
  | None => upd_mem (λ m, set_tmp 0 (tmp_dma_handle m) false m)
  | Some (v, h) => upd_mem (set_tmp v h true)
  end.

(** [class_create], [alloc_chrdev_region], [device_create] and [cdev_add], with their result. *)
Definition dev_acquire (p : dev_part) : NM Z :=
  r ← nat_ask (λ s, env_device E s p);
  if r =? 0 then modify (λ s, n_with_parts (p :: n_parts s) s) ;; mret 0 else mret r.

(** [class_destroy], [unregister_chrdev_region] and [device_destroy] give back the latest part. *)
Definition dev_release : NM () := modify (λ s, n_with_parts (tail (n_parts s)) s).

(** The label [vaddr_alloc_fail] *)
Definition vaddr_alloc_fail : NM () :=
  m ← nat_mem;
  if negb (vaddr m =? 0) then
    nat_dma_free_coherent (size m) (dma_handle m) ;; upd_mem (set_block 0 0 0)
  else mret ().

Definition create_nat_device : NM Z :=
  r ← dev_acquire DevClass;
  if negb (r =? 0) then vaddr_alloc_fail ;; mret (- ENODEV)
  else
    r ← dev_acquire DevRegion;
    if negb (r =? 0) then dev_release ;; vaddr_alloc_fail ;; mret (- ENODEV)
    else
      r ← dev_acquire DevNode;
      if negb (r =? 0) then dev_release ;; dev_release ;; vaddr_alloc_fail ;; mret (- ENODEV)
      else
        r ← dev_acquire DevCdev;
        if negb (r =? 0) then
          dev_release ;; dev_release ;; dev_release ;; vaddr_alloc_fail ;; mret r
        else upd_mem set_dev ;; allocate_temp_nat_memory ;; mret 0.

(** [vsize], [vm_start]: the range of addresses that user space maps. *)
Definition ipa_nat_mmap (vm_start vsize : Z) : NM Z :=
  m ← nat_mem;
  if is_sys_mem m then
    if is_mapped m then mret (- EINVAL)
    else
      result ← nat_ask (env_dma_mmap E);
      if negb (result =? 0) then mret result
      else
        modify (λ s, n_with_vmas ((dma_handle m, size m) :: n_vmas s) s) ;;
        upd_mem (λ m, set_base (vaddr m) m) ;;
        upd_mem (λ m, set_flags true (is_sys_mem m) (is_dev_init m) m) ;; mret 0
  else
    if (IPA_NAT_PHYS_MEM_SIZE =? 0) || (vsize >? IPA_NAT_PHYS_MEM_SIZE) then mret (- EINVAL)
    else
      let phys_addr := ipa_wrapper_base E + ipa_reg_base_ofst E
                       + IPA_SRAM_DIRECT_ACCESS_N_OFST IPA_NAT_PHYS_MEM_OFFSET in
      r ← nat_ask (λ s, env_remap E s (Z.shiftr phys_addr PAGE_SHIFT) vsize);
      if negb (r =? 0) then mret (- EAGAIN)
      else
        upd_mem (set_base vm_start) ;;
        upd_mem (λ m, set_flags true (is_sys_mem m) (is_dev_init m) m) ;; mret 0.

Definition ipa2_allocate_nat_device (mem : ipa_ioc_nat_alloc_mem) : NM Z :=
  same ← of_option (str_same (dev_name mem) NAT_DEV_NAME);
  m ← nat_mem;
  if negb same then mret (- EPERM)
  else if negb (is_dev m) then mret (- EPERM)
  else if is_dev_init m then mret 0
  else if alloc_size mem >? MAX_ALLOC_NAT_SIZE then mret (- EPERM)
  else if (alloc_size mem <=? 0) || is_dev_init m then mret (- EPERM)
  else if alloc_size mem >? IPA_NAT_PHYS_MEM_SIZE then
    upd_mem (λ m, set_flags (is_mapped m) true (is_dev_init m) m) ;;
    o ← nat_dma_alloc_coherent (alloc_size mem);
    match o with
    | None => upd_mem (λ m, set_block 0 (dma_handle m) (size m) m) ;; mret (- ENOMEM)
    | Some (v, h) =>
        upd_mem (set_block v h (alloc_size mem)) ;;
        upd_mem (λ m, set_flags (is_mapped m) (is_sys_mem m) true m) ;; mret 0
    end
  else
    upd_mem (λ m, set_flags (is_mapped m) false true m) ;; mret 0.

(** ** The command that installs the tables *)

(** The two checks of a table: [off + esz * n] does not leave 32 bits, and is not past the end
    of the memory. *)
Definition beyond (off esz n mem_size : Z) : bool :=
  (off >? u32 (UINT_MAX - esz * n)) || (u32 (off + esz * n) >? mem_size).

Definition init_refused (m : ipa_nat_mem) (init : ipa_ioc_v4_nat_init) : bool :=
  negb (is_dev_init m) || (table_entries init =? 0)
  || beyond (ipv4_rules_offset init) 32 (table_entries init + 1) (size m)
  || beyond (expn_rules_offset init) 32 (expn_table_entries init) (size m)
  || beyond (index_offset init) 4 (table_entries init + 1) (size m)
  || beyond (index_expn_offset init) 4 (expn_table_entries init) (size m).

(** [cmd], whose fields have the widths of the hardware. *)
Definition init_cmd (init : ipa_ioc_v4_nat_init) (base type : Z) : ipa_ip_v4_nat_init :=
  mkInitCmd (u32 (base + ipv4_rules_offset init)) (u32 (base + expn_rules_offset init))
    (u32 (base + index_offset init)) (u32 (base + index_expn_offset init))
    (tbl_index init mod 2 ^ 3) (type mod 2)
    (table_entries init mod 2 ^ 12) (expn_table_entries init mod 2 ^ 10) (ip_addr init).

(** [None]: an offset leaves the 32 bits of an address. *)
Definition fill_init (m : ipa_nat_mem) (init : ipa_ioc_v4_nat_init) : option ipa_ip_v4_nat_init :=
  if negb (vaddr m =? 0) then
    let offset := u32 (UINT_MAX - dma_handle m) in
    if (ipv4_rules_offset init >? offset) || (expn_rules_offset init >? offset)
       || (index_offset init >? offset) || (index_expn_offset init >? offset)
    then None
    else Some (init_cmd init (dma_handle m) IPA_NAT_SYSTEM_MEMORY)
  else Some (init_cmd init IPA_RAM_NAT_OFST IPA_NAT_SHARED_MEMORY).

(** The updates after the hardware took the command. *)
Definition tables_of (init : ipa_ioc_v4_nat_init) (m : ipa_nat_mem) : ipa_nat_mem :=
  let b := nat_base_address m in
  set_tables (ip_addr init) (b + ipv4_rules_offset init) (b + expn_rules_offset init)
    (b + index_offset init) (b + index_expn_offset init) (table_entries init)
    (expn_table_entries init) m.

Definition ipa2_nat_init_cmd (init : ipa_ioc_v4_nat_init) : NM Z :=
  m ← nat_mem;
  if init_refused m init then mret (- EPERM)
  else
    reg_write_nop ← kmalloc;
    match reg_write_nop with
    | None => mret (- ENOMEM)
    | Some _ =>
        cmd ← kmalloc;
        match cmd with
        | None => nat_kfree reg_write_nop ;; mret (- ENOMEM)
        | Some _ =>
            result ← match fill_init m init with
                     | None => mret (- EPERM)
                     | Some c =>
                         r ← nat_send_cmd [NopDesc; NatInitDesc c];
                         if negb (r =? 0) then mret (- EPERM)
                         else upd_mem (tables_of init) ;; mret 0
                     end;
            nat_kfree cmd ;; nat_kfree reg_write_nop ;; mret result
        end
    end.

(** ** Writes into the tables *)

(** The first offset after a table. *)
Definition tbl_limit (m : ipa_nat_mem) (base_addr : Z) : option Z :=
  if base_addr =? IPA_NAT_BASE_TBL then
    Some (u32 (u32 (size_base_tables m + 1) * NAT_TABLE_ENTRY_SIZE_BYTE))
  else if base_addr =? IPA_NAT_EXPN_TBL then
    Some (u32 (size_expansion_tables m * NAT_TABLE_ENTRY_SIZE_BYTE))
  else if base_addr =? IPA_NAT_INDX_TBL then
    Some (u32 (u32 (size_base_tables m + 1) * NAT_INTEX_TABLE_ENTRY_SIZE_BYTE))
  else if base_addr =? IPA_NAT_INDEX_EXPN_TBL then
    Some (u32 (size_expansion_tables m * NAT_INTEX_TABLE_ENTRY_SIZE_BYTE))
  else None.

Definition one_valid (m : ipa_nat_mem) (d : ipa_ioc_nat_dma_one) : bool :=
  if one_table_index d >=? 1 then false
  else match tbl_limit m (one_base_addr d) with
       | None => false
       | Some n => negb (one_offset d >=? n)
       end.

(** The first loop: whether every element is valid. *)
Fixpoint check_entries (param : list Z) (n cnt : nat) : NM bool :=
  match n with
  | O => mret true
  | S n =>
      m ← nat_mem;
      d ← of_option (dma_one param cnt);
      if one_valid m d then check_entries param n (S cnt) else mret false
  end.

Definition dma_cmd_of (d : ipa_ioc_nat_dma_one) : ipa_nat_dma :=
  mkDmaCmd (one_table_index d mod 2 ^ 3) (one_base_addr d mod 2 ^ 2) (one_offset d) (one_data d).

(** The second loop: one command for every element; the result is that of the last one. *)
Fixpoint post_entries (param : list Z) (n cnt : nat) (ret : Z) : NM Z :=
  match n with
  | O => mret ret
  | S n =>
      d ← of_option (dma_one param cnt);
      ret ← nat_send_cmd [NopDesc; NatDmaDesc (dma_cmd_of d)];
      post_entries param n (S cnt) ret
  end.

(** [param]: the bytes of the request. *)
Definition ipa2_nat_dma_cmd (param : list Z) : NM Z :=
  m ← nat_mem;
  if negb (is_dev_init m) then mret (- EPERM)
  else
    entries ← of_option (dma_entries param);
    if entries <=? 0 then mret (- EPERM)
    else
      ok ← check_entries param (Z.to_nat entries) 0;
      if negb ok then mret (- EPERM)
      else
        desc ← kmalloc;
        match desc with
        | None => mret (- ENOMEM)
        | Some _ =>
            cmd ← kmalloc;
            match cmd with
            | None => nat_kfree desc ;; mret (- ENOMEM)
            | Some _ =>
                reg_write_nop ← kmalloc;
                match reg_write_nop with
                | None => nat_kfree cmd ;; nat_kfree desc ;; mret (- ENOMEM)
                | Some _ =>
                    ret ← post_entries param (Z.to_nat entries) 0 0;
                    nat_kfree cmd ;; nat_kfree desc ;; nat_kfree reg_write_nop ;; mret ret
                end
            end
        end.

(** ** Deletion *)

Definition ipa_nat_free_mem_and_device : NM () :=
  m ← nat_mem;
  (if is_sys_mem m then
     nat_dma_free_coherent (size m) (dma_handle m) ;; upd_mem (set_block 0 (dma_handle m) 0)
   else mret ()) ;;
  upd_mem (set_flags false false false).

(** The command of a deletion: no entries, in the temporary memory if there is some. *)
Definition del_cmd (m : ipa_nat_mem) (table_index : Z) : ipa_ip_v4_nat_init :=
  let mem_type := if is_tmp_mem m then IPA_NAT_SYSTEM_MEMORY else IPA_NAT_SHARED_MEMORY in
  let base_addr := if is_tmp_mem m then u32 (tmp_dma_handle m) else IPA_NAT_PHYS_MEM_OFFSET in
  mkInitCmd base_addr base_addr base_addr base_addr (table_index mod 2 ^ 3) mem_type 0 0 0.

(** The updates after the hardware took the command. *)
Definition nat_del_finish : NM () :=
  upd_mem (set_tables 0 0 0 0 0 0 0) ;; ipa_nat_free_mem_and_device.

Definition ipa2_nat_del_cmd (table_index : Z) : NM Z :=
  m ← nat_mem;
  if negb (is_dev_init m) then mret (- EPERM)
  else if public_ip_addr m =? 0 then mret (- EPERM)
  else
    reg_write_nop ← kmalloc;
    match reg_write_nop with
    | None => mret (- ENOMEM)
    | Some _ =>
        cmd ← kmalloc;
        match cmd with
        | None => nat_kfree reg_write_nop ;; mret (- ENOMEM)
        | Some _ =>
            r ← nat_send_cmd [NopDesc; NatInitDesc (del_cmd m table_index)];
            result ← (if negb (r =? 0) then mret (- EPERM) else nat_del_finish ;; mret 0);
            nat_kfree cmd ;; nat_kfree reg_write_nop ;; mret result
        end
    end.

(** ** The cases of [ipa_ioctl]

    What [copy_from_user] reads is an argument, [None] when it fails; [memdup_user] reads the
    memory of user space again. *)

(** [nat_mem.dev_name[IPA_RESOURCE_NAME_MAX - 1] = '\0'] *)
Definition terminate (l : list Z) : option (list Z) := store_z l 31 0.

Definition ioctl_alloc_nat_mem (arg : option ipa_ioc_nat_alloc_mem) (copied : bool) : NM Z :=
  match arg with
  | None => mret (- EFAULT)
  | Some mem =>
      name ← of_option (terminate (dev_name mem));
      r ← ipa2_allocate_nat_device (mkNatAlloc name (alloc_size mem));
      if negb (r =? 0) then mret (- EFAULT)
      else if negb copied then mret (- EFAULT) else mret 0
  end.

Definition ioctl_v4_init_nat (arg : option ipa_ioc_v4_nat_init) : NM Z :=
  match arg with
  | None => mret (- EFAULT)
  | Some init =>
      r ← ipa2_nat_init_cmd init; if negb (r =? 0) then mret (- EFAULT) else mret 0
  end.

(** [header]: the first four bytes; [memdup n]: the [n] bytes of the second reading. *)
Definition ioctl_nat_dma (header : option (list Z)) (memdup : nat → option (list Z)) : NM Z :=
  match header with
  | None => mret (- EFAULT)
  | Some header =>
      pre_entry ← of_option (dma_entries header);
      match memdup (4 + 12 * Z.to_nat pre_entry)%nat with
      | None => mret (- ENOMEM)
      | Some param =>
          entries ← of_option (dma_entries param);
          if negb (entries =? pre_entry) then mret (- EFAULT)
          else r ← ipa2_nat_dma_cmd param; if negb (r =? 0) then mret (- EFAULT) else mret 0
      end
  end.

Definition ioctl_v4_del_nat (arg : option Z) : NM Z :=
  match arg with
  | None => mret (- EFAULT)
  | Some table_index =>
      r ← ipa2_nat_del_cmd table_index; if negb (r =? 0) then mret (- EFAULT) else mret 0
  end.

(** ** The calls of user space *)

Inductive nat_call :=
  | NatAlloc (arg : option ipa_ioc_nat_alloc_mem) (copied : bool)
  | NatMmap (vm_start vsize : Z)
  | NatInit (arg : option ipa_ioc_v4_nat_init)
  | NatDma (header : option (list Z)) (memdup : nat → option (list Z))
  | NatDel (arg : option Z).

Definition nat_run (c : nat_call) : NM Z :=
  match c with
  | NatAlloc arg copied => ioctl_alloc_nat_mem arg copied
  | NatMmap vm_start vsize => ipa_nat_mmap vm_start vsize
  | NatInit arg => ioctl_v4_init_nat arg
  | NatDma header memdup => ioctl_nat_dma header memdup
  | NatDel arg => ioctl_v4_del_nat arg
  end.
End Nat.

(** The driver's data before [create_nat_device]. *)
Definition nat_mem0 : ipa_nat_mem :=
  mkNat 0 0 0 false false false false 0 0 0 0 0 0 0 0 0 0 false.
Definition nat_state0 : nat_state := mkNatSt nat_mem0 ∅ [] [] [] ∅ 0.
