(* ===== verification/NatProps.v ===== *)
(** * IPA NAT table: properties

    The invariant of the reachable states, what every call does, where the hardware reads and
    writes, and the phases of the device. *)

From S2P Require Import Prelude.
From S2P Require Import NatTable.

(** ** The environment

    Documented behaviour of the kernel: a DMA buffer has a virtual address, lies below 4 GiB
    (the driver sets a mask of 32 bits) and is apart from the live ones; [kmalloc] returns
    memory that is not in use; error numbers are negative; a mapping is at least a page, which
    a buffer of no bytes has not. *)
Record nat_env_ok (E : nat_env) : Prop := {
  law_dma s n v h : 0 < n → env_dma_alloc E s n = Some (v, h) →
    v ≠ 0 ∧ 0 ≤ h ∧ h + n ≤ 2 ^ 32 ∧
    ∀ h' n', n_bufs s !! h' = Some n' → h + n ≤ h' ∨ h' + n' ≤ h;
  law_kmalloc s p : env_kmalloc E s = Some p → p ∉ n_heap s;
  law_send s l : env_send_cmd E s l ≤ 0;
  law_mmap s : env_dma_mmap E s ≤ 0;
  law_no_bytes s : size (n_mem s) = 0 → env_dma_mmap E s ≠ 0;
  law_device s p : env_device E s p ≤ 0;
}.
Existing Class nat_env_ok.

(** ** What the hardware uses: the last command that it took. *)

Fixpoint installed (l : list (list nat_desc * Z)) : option ipa_ip_v4_nat_init :=
  match l with
  | [] => None
  | ([NopDesc; NatInitDesc c], r) :: l => if r =? 0 then Some c else installed l
  | _ :: l => installed l
  end.

(** The four tables of a command, with their lengths; the base tables have one entry more. *)
Definition nat_tables (c : ipa_ip_v4_nat_init) : list (Z * Z) :=
  [(cmd_rules_addr c, 32 * (cmd_size_base c + 1)); (cmd_expansion_addr c, 32 * cmd_size_expansion c);
   (cmd_index_addr c, 4 * (cmd_size_base c + 1));
   (cmd_index_expansion_addr c, 4 * cmd_size_expansion c)].

(** All tables of [c] are in the buffer of [n] bytes at [h]. *)
Definition within (c : ipa_ip_v4_nat_init) (h n : Z) : Prop :=
  Forall (λ t, h ≤ t.1 ∧ t.1 + t.2 ≤ h + n) (nat_tables c).

#[global] Instance within_dec c h n : Decision (within c h n).
Proof. apply _. Defined.

(** ** The invariant *)

(** What the hardware uses against the driver's data. *)
Definition hw_ok (m : ipa_nat_mem) (o : option ipa_ip_v4_nat_init) : Prop :=
  match o with
  | None => size_base_tables m = 0 ∧ size_expansion_tables m = 0 ∧ public_ip_addr m = 0
  | Some c =>
      cmd_size_base c = size_base_tables m ∧ cmd_size_expansion c = size_expansion_tables m ∧
      cmd_public_ip c = public_ip_addr m ∧
      if decide (0 < size_base_tables m) then
        is_dev_init m = true ∧ cmd_addr_type c = IPA_NAT_SYSTEM_MEMORY ∧
        0 ≤ size_expansion_tables m ∧ within c (dma_handle m) (size m)
      else
        size_base_tables m = 0 ∧ size_expansion_tables m = 0 ∧ public_ip_addr m = 0 ∧
        if is_tmp_mem m
        then cmd_addr_type c = IPA_NAT_SYSTEM_MEMORY ∧
             within c (tmp_dma_handle m) IPA_NAT_TEMP_MEM_SIZE
        else cmd_addr_type c = IPA_NAT_SHARED_MEMORY
  end.

(** Whether [h] is the handle of memory that the driver holds. *)
Definition held (m : ipa_nat_mem) (h n : Z) : Prop :=
  (is_dev_init m = true ∧ h = dma_handle m ∧ n = size m) ∨
  (is_tmp_mem m = true ∧ h = tmp_dma_handle m ∧ n = IPA_NAT_TEMP_MEM_SIZE).

Record nat_inv (s : nat_state) : Prop := {
  inv_idle : is_dev_init (n_mem s) = false → vaddr (n_mem s) = 0 ∧ size (n_mem s) = 0;
  inv_init : is_dev_init (n_mem s) = true →
    is_dev (n_mem s) = true ∧ vaddr (n_mem s) ≠ 0 ∧ is_sys_mem (n_mem s) = true ∧
    0 < size (n_mem s) ≤ MAX_ALLOC_NAT_SIZE;
  inv_bufs h n : n_bufs s !! h = Some n ↔ held (n_mem s) h n;
  inv_range h n : n_bufs s !! h = Some n → 0 ≤ h ∧ h + n ≤ 2 ^ 32;
  inv_apart : is_dev_init (n_mem s) = true → is_tmp_mem (n_mem s) = true →
    dma_handle (n_mem s) ≠ tmp_dma_handle (n_mem s);
  inv_hw : hw_ok (n_mem s) (installed (n_sent s));
  inv_mapped : is_mapped (n_mem s) = true →
    is_dev_init (n_mem s) = true ∧
    head (n_vmas s) = Some (dma_handle (n_mem s), size (n_mem s));
}.

(** The values that the types of the arguments have. *)
Definition init_typed (i : ipa_ioc_v4_nat_init) : Prop :=
  0 ≤ ipv4_rules_offset i < 2 ^ 32 ∧ 0 ≤ expn_rules_offset i < 2 ^ 32 ∧
  0 ≤ index_offset i < 2 ^ 32 ∧ 0 ≤ index_expn_offset i < 2 ^ 32 ∧
  0 ≤ table_entries i < 2 ^ 16 ∧ 0 ≤ expn_table_entries i < 2 ^ 16 ∧
  0 ≤ ip_addr i < 2 ^ 32 ∧ 0 ≤ tbl_index i < 2 ^ 8.
Definition nat_call_ok (c : nat_call) : Prop :=
  match c with
  | NatAlloc (Some mem) _ => length (dev_name mem) = 32%nat ∧ 0 ≤ alloc_size mem
  | NatInit (Some i) => init_typed i
  | NatDma (Some header) memdup =>
      length header = 4%nat ∧ bytes header ∧
      ∀ n param, memdup n = Some param → length param = n ∧ bytes param
  | _ => True
  end.

(** The device is made once; then user space calls. *)
Inductive nat_reach (E : nat_env) : nat_state → Prop :=
  | nat_reach_create r s : create_nat_device E nat_state0 = Some (r, s) → nat_reach E s
  | nat_reach_call c r s s' : nat_reach E s → nat_call_ok c →
      nat_run E c s = Some (r, s') → nat_reach E s'.

(** ** The functions of the kernel *)

Lemma heap_restore (p : positive) (X : gset positive) : p ∉ X → ({[p]} ∪ X) ∖ {[p]} = X.
Proof. set_solver. Qed.

Section Laws.
Context (E : nat_env) {HE : nat_env_ok E}.
Implicit Types s : nat_state.

Lemma wp_kmalloc Q s :
  Q None (n_tick s) →
  (∀ p, p ∉ n_heap s → Q (Some p) (n_with_heap ({[p]} ∪ n_heap s) (n_tick s))) →
  wp (kmalloc E) Q s.
Proof using HE.
  intros H0 H1. unfold kmalloc, nat_ask. wp_steps.
  destruct (env_kmalloc E s) as [p|] eqn:Hk; wp_steps; [|done].
  apply H1. by eapply (law_kmalloc E HE).
Qed.

Lemma wp_kfree p Q s :
  p ∈ n_heap s → Q () (n_with_heap (n_heap s ∖ {[p]}) s) → wp (nat_kfree (Some p)) Q s.
Proof. intros Hp HQ. unfold nat_kfree. wp_steps. by rewrite decide_True by done. Qed.

Lemma wp_send l Q s :
  (∀ r, r ≤ 0 → Q r (n_with_sent ((l, r) :: n_sent s) (n_tick s))) → wp (nat_send_cmd E l) Q s.
Proof using HE.
  intros HQ. unfold nat_send_cmd, nat_ask. wp_steps. apply HQ. apply (law_send E HE).
Qed.

Lemma wp_nat_mem (Q : ipa_nat_mem → nat_state → Prop) s : Q (n_mem s) s → wp nat_mem Q s.
Proof. done. Qed.

Lemma wp_dma_alloc n Q s :
  0 < n →
  Q None (n_tick s) →
  (∀ v h, v ≠ 0 → 0 ≤ h → h + n ≤ 2 ^ 32 →
     (∀ h' n', n_bufs s !! h' = Some n' → h + n ≤ h' ∨ h' + n' ≤ h) →
     Q (Some (v, h)) (n_with_bufs (<[h := n]> (n_bufs s)) (n_tick s))) →
  wp (nat_dma_alloc_coherent E n) Q s.
Proof using HE.
  intros Hn H0 H1. unfold nat_dma_alloc_coherent, nat_ask. wp_steps.
  destruct (env_dma_alloc E s n) as [[v h]|] eqn:Ha; wp_steps; [|done].
  destruct (law_dma E HE _ _ _ _ Hn Ha) as (? & ? & ? & ?). by apply H1.
Qed.

Lemma wp_nat_dma_free n h Q s :
  n_bufs s !! h = Some n → Q () (n_with_bufs (delete h (n_bufs s)) s) →
  wp (nat_dma_free_coherent n h) Q s.
Proof. intros Hb HQ. unfold nat_dma_free_coherent. wp_steps. by rewrite decide_True by done. Qed.
End Laws.

(** One step of a goal [wp] about the NAT functions. *)
Ltac nat_step :=
  lazymatch goal with
  | |- wp nat_mem _ _ => apply wp_nat_mem
  | |- wp (upd_mem _) _ _ => apply wp_modify
  | |- wp (kmalloc _) _ _ => apply wp_kmalloc; [assumption| |intros ? ?]
  | |- wp (nat_send_cmd _ _) _ _ => apply wp_send; [assumption|intros ? ?]
  | |- wp (nat_kfree (Some _)) _ _ => apply wp_kfree; [cbn; set_solver|]
  | |- _ => wp_step
  end; cbn beta iota; cbn [negb].

(** ** Installing the tables *)

(** The table of [len] bytes at offset [off] is in the memory, and its address has 32 bits. *)
Definition table_fits (m : ipa_nat_mem) (off len : Z) : Prop :=
  off + len ≤ size m ∧ dma_handle m + off < 2 ^ 32.

Definition init_fits (m : ipa_nat_mem) (i : ipa_ioc_v4_nat_init) : Prop :=
  is_dev_init m = true ∧ 0 < table_entries i ∧
  table_fits m (ipv4_rules_offset i) (32 * (table_entries i + 1)) ∧
  table_fits m (expn_rules_offset i) (32 * expn_table_entries i) ∧
  table_fits m (index_offset i) (4 * (table_entries i + 1)) ∧
  table_fits m (index_expn_offset i) (4 * expn_table_entries i).

(** The command for tables that fit: every number as it is. *)
Definition exact_cmd (m : ipa_nat_mem) (i : ipa_ioc_v4_nat_init) : ipa_ip_v4_nat_init :=
  mkInitCmd (dma_handle m + ipv4_rules_offset i) (dma_handle m + expn_rules_offset i)
    (dma_handle m + index_offset i) (dma_handle m + index_expn_offset i)
    (tbl_index i mod 8) IPA_NAT_SYSTEM_MEMORY (table_entries i) (expn_table_entries i) (ip_addr i).

Section Init.
Implicit Types s : nat_state.

Lemma beyond_false off esz n sz :
  0 ≤ off < 2 ^ 32 → 0 ≤ esz * n < 2 ^ 31 → 0 ≤ sz < 2 ^ 31 →
  beyond off esz n sz = false ↔ off + esz * n ≤ sz.
Proof.
  intros Ho Hn Hs. unfold beyond, UINT_MAX. rewrite orb_false_iff, !Z.gtb_ltb, !Z.ltb_ge.
  rewrite (u32_small (_ - _)) by lia. split.
  - intros [H1 H2]. rewrite u32_small in H2 by lia. lia.
  - intros H. rewrite u32_small by lia. lia.
Qed.

(** The four checks, with memory of at most [MAX_ALLOC_NAT_SIZE] bytes. *)
Lemma init_refused_spec m i :
  init_typed i → 0 ≤ size m ≤ MAX_ALLOC_NAT_SIZE →
  init_refused m i = false ↔
  is_dev_init m = true ∧ 0 < table_entries i ∧
  ipv4_rules_offset i + 32 * (table_entries i + 1) ≤ size m ∧
  expn_rules_offset i + 32 * expn_table_entries i ≤ size m ∧
  index_offset i + 4 * (table_entries i + 1) ≤ size m ∧
  index_expn_offset i + 4 * expn_table_entries i ≤ size m.
Proof.
  intros (? & ? & ? & ? & ? & ? & _) Hs.
  assert (MAX_ALLOC_NAT_SIZE = 32000) as HM by done.
  unfold init_refused. rewrite !orb_false_iff, negb_false_iff, Z.eqb_neq.
  rewrite !beyond_false by lia. intuition lia.
Qed.

Lemma fill_init_fits m i c :
  init_typed i → 0 < size m ≤ MAX_ALLOC_NAT_SIZE → vaddr m ≠ 0 →
  0 ≤ dma_handle m → dma_handle m + size m ≤ 2 ^ 32 → init_refused m i = false →
  fill_init m i = Some c ↔ init_fits m i ∧ c = exact_cmd m i.
Proof.
  intros Hi Hs Hv Hh Hr Href.
  apply init_refused_spec in Href as (H0 & H1 & H2 & H3 & H4 & H5); [|done|lia].
  assert (MAX_ALLOC_NAT_SIZE = 32000) as HM by done.
  destruct Hi as (? & ? & ? & ? & ? & ? & _).
  unfold fill_init, init_fits, table_fits, UINT_MAX.
  rewrite (proj2 (Z.eqb_neq (vaddr m) 0)) by done. cbn -[Z.pow].
  rewrite (u32_small (_ - _)) by lia.
  destruct (_ || _) eqn:Hor.
  - rewrite !orb_true_iff, !Z.gtb_lt in Hor. split; [done|]. intros [Hf _]. lia.
  - rewrite !orb_false_iff, !Z.gtb_ltb, !Z.ltb_ge in Hor.
    enough (init_cmd i (dma_handle m) IPA_NAT_SYSTEM_MEMORY = exact_cmd m i) as ->.
    { split; [intros [= <-]|intros [_ ->]; done]. split; [|done]. repeat split; try done; lia. }
    unfold init_cmd, exact_cmd. rewrite !u32_small by lia.
    rewrite (Z.mod_small (table_entries i)) by lia.
    rewrite (Z.mod_small (expn_table_entries i)) by lia. done.
Qed.

Lemma exact_within m i :
  init_typed i → init_fits m i → within (exact_cmd m i) (dma_handle m) (size m).
Proof.
  intros (? & ? & ? & ? & _) (_ & _ & [? _] & [? _] & [? _] & [? _]).
  unfold within, nat_tables. repeat constructor; cbn; lia.
Qed.

Lemma fits_accepted m i :
  init_typed i → size m ≤ MAX_ALLOC_NAT_SIZE → init_fits m i → init_refused m i = false.
Proof.
  intros Hi Hs (H1 & H2 & [H3 _] & [H4 _] & [H5 _] & [H6 _]).
  pose proof Hi as (? & ? & ? & ? & ? & ? & _). apply init_refused_spec; [done|lia|].
  repeat split; try done; lia.
Qed.

#[global] Instance init_fits_dec m i : Decision (init_fits m i).
Proof. unfold init_fits, table_fits. apply _. Defined.
End Init.

(** ** Runs *)

(** What a call leaves alone that neither makes nor frees memory. *)
Definition same_but_tables (s s' : nat_state) : Prop :=
  n_bufs s' = n_bufs s ∧ n_vmas s' = n_vmas s ∧ n_parts s' = n_parts s ∧ n_heap s' = n_heap s.

(** The result of the last of some commands. *)
Lemma last_cons_ret (r ret : Z) es : last (r :: es) ret = last es r.
Proof.
  revert r ret. induction es as [|e es IH]; intros r ret; [done|].
  change (last (e :: es) ret = last (e :: es) r). by rewrite !IH.
Qed.

Section Runs.
Context (E : nat_env) {HE : nat_env_ok E}.
Implicit Types s : nat_state.

(** The buffer of the tables, when it is allocated. *)
Lemma inv_block s :
  nat_inv s → is_dev_init (n_mem s) = true →
  n_bufs s !! dma_handle (n_mem s) = Some (size (n_mem s)) ∧ vaddr (n_mem s) ≠ 0 ∧
  0 < size (n_mem s) ≤ MAX_ALLOC_NAT_SIZE ∧ 0 ≤ dma_handle (n_mem s) ∧
  dma_handle (n_mem s) + size (n_mem s) ≤ 2 ^ 32.
Proof.
  intros Hi Hd. destruct (inv_init s Hi Hd) as (_ & Hv & _ & Hs).
  assert (n_bufs s !! dma_handle (n_mem s) = Some (size (n_mem s))) as Hb.
  { apply (inv_bufs s Hi). by left. }
  pose proof (inv_range s Hi _ _ Hb). done.
Qed.

Lemma inv_size s : nat_inv s → 0 ≤ size (n_mem s) ≤ MAX_ALLOC_NAT_SIZE.
Proof.
  intros Hi. destruct (is_dev_init (n_mem s)) eqn:Hd.
  - destruct (inv_block s Hi Hd) as (_ & _ & ? & _). lia.
  - destruct (inv_idle s Hi Hd) as [_ ->]. done.
Qed.

(** The outcomes of [ipa2_nat_init_cmd]. *)
Definition init_outcome (i : ipa_ioc_v4_nat_init) (s : nat_state) (r : Z) (s' : nat_state) : Prop :=
  let m := n_mem s in let c := exact_cmd m i in
  (r = 0 ∧ init_fits m i ∧ n_mem s' = tables_of i m ∧
   n_sent s' = ([NopDesc; NatInitDesc c], 0) :: n_sent s) ∨
  (r = - EPERM ∧ init_fits m i ∧ n_mem s' = m ∧
   ∃ e, e < 0 ∧ n_sent s' = ([NopDesc; NatInitDesc c], e) :: n_sent s) ∨
  (n_mem s' = m ∧ n_sent s' = n_sent s ∧ (r = - EPERM ∧ ¬ init_fits m i ∨ r = - ENOMEM)).

Lemma wp_init i s :
  nat_inv s → init_typed i →
  wp (ipa2_nat_init_cmd E i) (λ r s', same_but_tables s s' ∧ init_outcome i s r s') s.
Proof using HE.
  intros Hi Ht. unfold ipa2_nat_init_cmd, init_outcome, same_but_tables. nat_step. nat_step.
  destruct (init_refused (n_mem s) i) eqn:Href.
  { nat_step. split; [done|]. right; right. split; [done|]. split; [done|]. left. split; [done|].
    intros Hf. rewrite fits_accepted in Href; [done|done| |done]. apply inv_size in Hi. lia. }
  assert (is_dev_init (n_mem s) = true) as Hd.
  { apply init_refused_spec in Href as [? _]; [done|done|by apply inv_size]. }
  destruct (inv_block s Hi Hd) as (_ & Hv & Hs & Hh & Hr).
  nat_step. nat_step; [nat_step; eauto 10|]. nat_step. nat_step.
  { repeat nat_step. cbn. rewrite heap_restore by done. eauto 10. }
  nat_step. pose proof (λ c, fill_init_fits _ _ c Ht Hs Hv Hh Hr Href) as Hfill.
  destruct (fill_init (n_mem s) i) as [c|].
  - destruct (proj1 (Hfill c) eq_refl) as [Hf ->]. clear Hfill. nat_step. nat_step.
    destruct (Z.eqb_spec r 0) as [->|Hr0]; cbn [negb]; repeat nat_step.
    + split; [|by left]. repeat split. cbn. by rewrite !heap_restore by set_solver.
    + split.
      { repeat split. cbn. by rewrite !heap_restore by set_solver. }
      right; left. repeat split; try apply Hf. exists r. split; [lia|done].
  - repeat nat_step. split.
    { repeat split. cbn. by rewrite !heap_restore by set_solver. }
    right; right. do 2 (split; [done|]). left. split; [done|]. intros Hf.
    pose proof (proj2 (Hfill _) (conj Hf eq_refl)). done.
Qed.

(** ** Requests to write *)

Lemma dma_one_some param cnt :
  bytes param → (4 + 12 * cnt + 12 ≤ length param)%nat →
  ∃ d, dma_one param cnt = Some d ∧ 0 ≤ one_table_index d ∧ 0 ≤ one_base_addr d < 2 ^ 8 ∧
       0 ≤ one_offset d < 2 ^ 32.
Proof.
  intros Hb Hl. unfold dma_one.
  destruct (le_bytes_some param (4 + 12 * cnt) 1) as (t & -> & Ht); [done|lia|].
  destruct (le_bytes_some param (4 + 12 * cnt + 1) 1) as (b & -> & Hb'); [done|lia|].
  destruct (le_bytes_some param (4 + 12 * cnt + 4) 4) as (f & -> & Hf); [done|lia|].
  destruct (le_bytes_some param (4 + 12 * cnt + 8) 2) as (d & -> & _); [done|lia|].
  eexists. split; [done|]. cbn. cbn in Ht, Hb', Hf. lia.
Qed.

(** The elements of a request. *)
Definition dma_request (param : list Z) : option (list ipa_ioc_nat_dma_one) :=
  n ← dma_entries param; mapM (dma_one param) (seq 0 (Z.to_nat n)).

Lemma dma_request_some param n :
  bytes param → dma_entries param = Some n → (4 + 12 * Z.to_nat n ≤ length param)%nat →
  ∃ ds, mapM (dma_one param) (seq 0 (Z.to_nat n)) = Some ds ∧
        Forall (λ d, 0 ≤ one_table_index d ∧ 0 ≤ one_offset d) ds.
Proof.
  intros Hb _ Hl.
  assert (∀ k c, (4 + 12 * (c + k) ≤ length param)%nat →
    ∃ ds, mapM (dma_one param) (seq c k) = Some ds ∧
          Forall (λ d, 0 ≤ one_table_index d ∧ 0 ≤ one_offset d) ds) as H; [|by apply H].
  induction k as [|k IH]; intros c Hc; cbn [seq mapM].
  { by exists []. }
  destruct (dma_one_some param c) as (d & -> & ? & ? & ?); [done|lia|].
  destruct (IH (S c)) as (ds & -> & Hds); [lia|]. exists (d :: ds). split; [done|].
  constructor; [lia|done].
Qed.

Lemma wp_check_entries param ds n cnt s :
  mapM (dma_one param) (seq cnt n) = Some ds →
  wp (check_entries param n cnt) (λ ok s', s' = s ∧ ok = forallb (one_valid (n_mem s)) ds) s.
Proof.
  revert cnt ds. induction n as [|n IH]; intros cnt ds; cbn [seq mapM check_entries].
  { intros [= <-]. by apply wp_ret. }
  intros (d & Hd & (ds' & Hds & [= <-])%bind_Some)%bind_Some.
  nat_step. nat_step. nat_step. rewrite Hd. apply wp_ret. cbn [forallb].
  destruct (one_valid (n_mem s) d); [|by apply wp_ret]. by apply IH.
Qed.

(** One list of descriptors for every element, and its result. *)
Definition posted (ds : list ipa_ioc_nat_dma_one) (es : list Z) : list (list nat_desc * Z) :=
  zip_with (λ d e, ([NopDesc; NatDmaDesc (dma_cmd_of d)], e)) ds es.

Lemma wp_post_entries param ds n cnt ret s :
  mapM (dma_one param) (seq cnt n) = Some ds →
  wp (post_entries E param n cnt ret) (λ r s', n_mem s' = n_mem s ∧ same_but_tables s s' ∧
    ∃ es, length es = n ∧ Forall (λ e, e ≤ 0) es ∧ r = last es ret ∧
          n_sent s' = reverse (posted ds es) ++ n_sent s) s.
Proof using HE.
  revert cnt ds ret s. induction n as [|n IH]; intros cnt ds ret s; cbn [seq mapM post_entries].
  { intros [= <-]. apply wp_ret. split; [done|]. split; [done|]. by exists []. }
  intros (d & Hd & (ds' & Hds & [= <-])%bind_Some)%bind_Some.
  nat_step. rewrite Hd. apply wp_ret. nat_step. nat_step.
  eapply wp_mono; [eapply IH; exact Hds|]. cbn beta. intros r' s' (Hm & Hsame & es & <- & He & -> & Hs).
  split; [done|]. split; [done|]. exists (r :: es). split; [done|]. split; [by constructor|].
  split; [by rewrite last_cons_ret|].
  rewrite Hs. unfold posted. cbn [zip_with]. rewrite reverse_cons. by rewrite <- app_assoc.
Qed.

(** The outcomes of [ipa2_nat_dma_cmd] for the elements [ds]. *)
Definition dma_accepted (m : ipa_nat_mem) (ds : list ipa_ioc_nat_dma_one) : Prop :=
  is_dev_init m = true ∧ ds ≠ [] ∧ Forall (one_valid m) ds.
Definition dma_outcome (ds : list ipa_ioc_nat_dma_one) (s : nat_state) (r : Z) (s' : nat_state)
    : Prop :=
  (dma_accepted (n_mem s) ds ∧ ∃ es, length es = length ds ∧ Forall (λ e, e ≤ 0) es ∧
     r = last es 0 ∧ n_sent s' = reverse (posted ds es) ++ n_sent s) ∨
  (n_sent s' = n_sent s ∧ (r = - EPERM ∧ ¬ dma_accepted (n_mem s) ds ∨ r = - ENOMEM)).

Lemma heap_restore3 (p q r : positive) (X : gset positive) :
  p ∉ X → q ∉ {[p]} ∪ X → r ∉ {[q]} ∪ ({[p]} ∪ X) →
  ({[r]} ∪ ({[q]} ∪ ({[p]} ∪ X))) ∖ {[q]} ∖ {[p]} ∖ {[r]} = X.
Proof. set_solver. Qed.

Lemma dma_not_accepted m ds :
  forallb (one_valid m) ds = false → ¬ dma_accepted m ds.
Proof.
  intros Hf (_ & _ & Hv). induction Hv as [|d ds Hd _ IH]; cbn in Hf; [done|].
  apply andb_false_iff in Hf as [Hf|Hf]; [by rewrite Hf in Hd|by apply IH].
Qed.

Lemma dma_valid_Forall m ds : forallb (one_valid m) ds = true → Forall (one_valid m) ds.
Proof.
  induction ds as [|d ds IH]; cbn; [constructor|]. intros [Hd Hds]%andb_true_iff.
  constructor; [by rewrite Hd|by apply IH].
Qed.

Lemma wp_dma param ds s :
  dma_request param = Some ds →
  wp (ipa2_nat_dma_cmd E param) (λ r s', n_mem s' = n_mem s ∧ same_but_tables s s' ∧
    dma_outcome ds s r s') s.
Proof using HE.
  unfold dma_request. intros (n & Hn & Hds)%bind_Some. unfold ipa2_nat_dma_cmd, dma_outcome.
  assert (length ds = Z.to_nat n) as Hlen.
  { apply length_mapM in Hds. by rewrite length_seq in Hds. }
  nat_step. nat_step. destruct (is_dev_init (n_mem s)) eqn:Hd; cbn [negb]; [|nat_step].
  2:{ do 2 (split; [done|]). right. split; [done|]. left. split; [done|]. by intros [? _]; rewrite Hd in *. }
  nat_step. rewrite Hn. apply wp_ret. destruct (Z.leb_spec n 0) as [Hle|Hgt].
  { nat_step. do 2 (split; [done|]). right. split; [done|]. left. split; [done|]. intros (_ & ? & _).
    destruct ds; cbn in Hlen; [done|lia]. }
  nat_step. eapply wp_mono; [by apply wp_check_entries|]. cbn beta. intros ok s0 [-> ->].
  destruct (forallb (one_valid (n_mem s)) ds) eqn:Hok; cbn [negb].
  2:{ nat_step. do 2 (split; [done|]). right. split; [done|]. left.
      split; [done|by apply dma_not_accepted]. }
  assert (dma_accepted (n_mem s) ds) as Ha.
  { split; [done|]. split; [by intros ->; cbn in Hlen; lia|]. by apply dma_valid_Forall. }
  nat_step. nat_step.
  { nat_step. do 2 (split; [done|]). right. split; [done|]. by right. }
  nat_step. nat_step.
  { repeat nat_step. split; [done|]. split; [|right; split; [done|by right]]. repeat split. cbn.
    by rewrite heap_restore by done. }
  nat_step. nat_step.
  { repeat nat_step. split; [done|]. split; [|right; split; [done|by right]]. repeat split. cbn.
    by rewrite !heap_restore by set_solver. }
  nat_step. eapply wp_mono; [by eapply wp_post_entries|]. cbn beta.
  intros r s' (Hm & (Hb & Hv & Hp & Hh) & es & Hes & He & Hr & Hs).
  cbn in Hm, Hb, Hv, Hp, Hh, Hs. nat_step.
  apply wp_kfree; [rewrite Hh; set_solver|]. nat_step.
  apply wp_kfree; [cbn; rewrite Hh; set_solver|]. nat_step.
  apply wp_kfree; [cbn; rewrite Hh; set_solver|]. nat_step.
  split; [done|]. split.
  - repeat split; try done. cbn. rewrite Hh. by apply heap_restore3.
  - left. split; [done|]. exists es. split; [lia|]. done.
Qed.

(** ** Deletion, allocation and mapping *)

(** The outcomes of [ipa2_nat_del_cmd]; a deletion frees the tables' buffer. *)
Definition del_outcome (i : Z) (s : nat_state) (r : Z) (s' : nat_state) : Prop :=
  let m := n_mem s in let c := del_cmd m i in
  (r = 0 ∧ is_dev_init m = true ∧ public_ip_addr m ≠ 0 ∧
   n_mem s' = set_flags false false false
                (set_block 0 (dma_handle m) 0 (set_tables 0 0 0 0 0 0 0 m)) ∧
   n_bufs s' = delete (dma_handle m) (n_bufs s) ∧
   n_sent s' = ([NopDesc; NatInitDesc c], 0) :: n_sent s) ∨
  (n_mem s' = m ∧ n_bufs s' = n_bufs s ∧
   (r = - EPERM ∧ (is_dev_init m = false ∨ public_ip_addr m = 0) ∧ n_sent s' = n_sent s ∨
    r = - EPERM ∧ (∃ e, e < 0 ∧ n_sent s' = ([NopDesc; NatInitDesc c], e) :: n_sent s) ∨
    r = - ENOMEM ∧ n_sent s' = n_sent s)).

Definition same_device (s s' : nat_state) : Prop :=
  n_vmas s' = n_vmas s ∧ n_parts s' = n_parts s ∧ n_heap s' = n_heap s.

Lemma wp_del_finish s Q :
  n_bufs s !! dma_handle (n_mem s) = Some (size (n_mem s)) → is_sys_mem (n_mem s) = true →
  (∀ s', n_mem s' = set_flags false false false
                (set_block 0 (dma_handle (n_mem s)) 0 (set_tables 0 0 0 0 0 0 0 (n_mem s))) →
         n_bufs s' = delete (dma_handle (n_mem s)) (n_bufs s) →
         n_sent s' = n_sent s → same_device s s' → Q () s') →
  wp nat_del_finish Q s.
Proof.
  intros Hb Hsys HQ. unfold nat_del_finish, ipa_nat_free_mem_and_device.
  nat_step. nat_step. nat_step. nat_step.
  cbn [n_mem n_with_mem set_tables is_sys_mem size dma_handle]. rewrite Hsys.
  nat_step. nat_step. apply wp_nat_dma_free; [exact Hb|]. nat_step. nat_step. by apply HQ.
Qed.

Lemma wp_del i s :
  nat_inv s →
  wp (ipa2_nat_del_cmd E i) (λ r s', same_device s s' ∧ del_outcome i s r s') s.
Proof using HE.
  intros Hi. unfold ipa2_nat_del_cmd, del_outcome. nat_step. nat_step.
  destruct (is_dev_init (n_mem s)) eqn:Hd; cbn [negb]; [|nat_step].
  2:{ split; [done|]. right. do 2 (split; [done|]). left. auto. }
  destruct (Z.eqb_spec (public_ip_addr (n_mem s)) 0) as [Hip|Hip].
  { nat_step. split; [done|]. right. do 2 (split; [done|]). left. auto. }
  nat_step. nat_step.
  { nat_step. split; [done|]. right. do 2 (split; [done|]). by do 2 right. }
  nat_step. nat_step.
  { repeat nat_step. split; [|right; do 2 (split; [done|]); by do 2 right].
    repeat split. cbn. by rewrite heap_restore by done. }
  nat_step. nat_step. nat_step. destruct (Z.eqb_spec r 0) as [->|Hr]; cbn [negb].
  - nat_step. destruct (inv_block s Hi Hd) as [Hb _].
    destruct (inv_init s Hi Hd) as (_ & _ & Hsys & _).
    apply wp_del_finish; [done|done|]. cbn. intros s' Hm' Hb' Hs' (Hv' & Hp' & Hh'). cbn in *.
    nat_step. nat_step. apply wp_kfree; [rewrite Hh'; set_solver|]. nat_step.
    apply wp_kfree; [cbn; rewrite Hh'; set_solver|]. nat_step. split; [|by left].
    split; [done|]. split; [done|]. cbn. rewrite Hh'. by rewrite !heap_restore by set_solver.
  - repeat nat_step. split.
    { repeat split. cbn. by rewrite !heap_restore by set_solver. }
    right. do 2 (split; [done|]). right; left. split; [done|]. exists r. split; [lia|done].
Qed.

(** The outcomes of [ipa2_allocate_nat_device]. *)
Definition alloc_outcome (name : list Z) (n : Z) (s : nat_state) (r : Z) (s' : nat_state) : Prop :=
  let m := n_mem s in
  n_sent s' = n_sent s ∧
  ((n_mem s' = m ∧ n_bufs s' = n_bufs s ∧
    (r = 0 ∧ is_dev m = true ∧ is_dev_init m = true ∨
     r = - EPERM ∧ (str_same name NAT_DEV_NAME = Some false ∨ is_dev m = false ∨
                    is_dev_init m = false ∧ (n = 0 ∨ MAX_ALLOC_NAT_SIZE < n)))) ∨
   (r = - ENOMEM ∧ is_dev m = true ∧ is_dev_init m = false ∧ n_bufs s' = n_bufs s ∧
    n_mem s' = set_block 0 (dma_handle m) (size m) (set_flags (is_mapped m) true false m)) ∨
   (r = 0 ∧ is_dev m = true ∧ is_dev_init m = false ∧ 0 < n ≤ MAX_ALLOC_NAT_SIZE ∧
    ∃ v h, v ≠ 0 ∧ 0 ≤ h ∧ h + n ≤ 2 ^ 32 ∧
      (∀ h' n', n_bufs s !! h' = Some n' → h + n ≤ h' ∨ h' + n' ≤ h) ∧
      n_bufs s' = <[h := n]> (n_bufs s) ∧
      n_mem s' = set_flags (is_mapped m) true true
                   (set_block v h n (set_flags (is_mapped m) true false m)))).

Lemma wp_alloc mem s :
  nat_inv s → length (dev_name mem) = 32%nat → 0 ≤ alloc_size mem →
  wp (ipa2_allocate_nat_device E mem)
     (λ r s', same_device s s' ∧ alloc_outcome (dev_name mem) (alloc_size mem) s r s') s.
Proof using HE.
  intros Hi Hn H0. unfold ipa2_allocate_nat_device.
  destruct (str_same_some (dev_name mem) NAT_DEV_NAME) as (b & Hb & _).
  { apply (bool_decide_unpack _). by vm_compute. }
  { right. rewrite Hn. cbn. lia. }
  nat_step. rewrite Hb. apply wp_ret. nat_step. nat_step.
  assert (∀ r, n_sent s = n_sent s → r = - EPERM →
    (str_same (dev_name mem) NAT_DEV_NAME = Some false ∨ is_dev (n_mem s) = false ∨
     is_dev_init (n_mem s) = false ∧ (alloc_size mem = 0 ∨ MAX_ALLOC_NAT_SIZE < alloc_size mem)) →
    same_device s s ∧ alloc_outcome (dev_name mem) (alloc_size mem) s r s) as Hperm.
  { intros r _ -> H. split; [done|]. split; [done|]. left. do 2 (split; [done|]). by right. }
  destruct b; cbn [negb]; [|apply wp_ret, Hperm; auto].
  destruct (is_dev (n_mem s)) eqn:Hdev; cbn [negb]; [|apply wp_ret, Hperm; auto].
  destruct (is_dev_init (n_mem s)) eqn:Hd.
  { apply wp_ret. split; [done|]. split; [done|]. left. do 2 (split; [done|]). by left. }
  rewrite orb_false_r.
  destruct (Z.gtb_spec (alloc_size mem) MAX_ALLOC_NAT_SIZE) as [Hmax|Hmax].
  { apply wp_ret, Hperm; [done|done|]. right; right. split; [done|]. lia. }
  destruct (Z.leb_spec (alloc_size mem) 0) as [Hle|Hpos].
  { apply wp_ret, Hperm; [done|done|]. right; right. split; [done|]. lia. }
  unfold IPA_NAT_PHYS_MEM_SIZE.
  destruct (Z.gtb_spec (alloc_size mem) 0) as [_|?]; [|lia].
  nat_step. nat_step. nat_step. apply wp_dma_alloc; [assumption|lia| |].
  - repeat nat_step. split; [done|]. split; [done|]. right; left. cbn. by rewrite Hd.
  - intros v h Hv Hh Hr Hap. repeat nat_step. split; [done|]. split; [done|]. right; right. cbn.
    do 4 (split; [done || lia|]). exists v, h. done.
Qed.

(** The outcomes of [ipa_nat_mmap]. *)
Definition mmap_outcome (s : nat_state) (r : Z) (s' : nat_state) : Prop :=
  let m := n_mem s in
  n_sent s' = n_sent s ∧ n_bufs s' = n_bufs s ∧ n_parts s' = n_parts s ∧ n_heap s' = n_heap s ∧
  (r < 0 ∧ n_mem s' = m ∧ n_vmas s' = n_vmas s ∨
   r = 0 ∧ is_dev_init m = true ∧ is_mapped m = false ∧
   n_vmas s' = (dma_handle m, size m) :: n_vmas s ∧
   n_mem s' = set_flags true true true (set_base (vaddr m) m)).

Lemma wp_mmap st n s :
  nat_inv s → wp (ipa_nat_mmap E st n) (mmap_outcome s) s.
Proof using HE.
  intros Hi. unfold ipa_nat_mmap, mmap_outcome. nat_step. nat_step.
  assert ((IPA_NAT_PHYS_MEM_SIZE =? 0) = true) as -> by done. cbn [orb].
  destruct (is_sys_mem (n_mem s)) eqn:Hsys; [|apply wp_ret; do 4 (split; [done|]); by left].
  destruct (is_mapped (n_mem s)) eqn:Hm; [apply wp_ret; do 4 (split; [done|]); by left|].
  unfold nat_ask. repeat nat_step. pose proof (law_mmap E HE s) as Hr.
  destruct (Z.eqb_spec (env_dma_mmap E s) 0) as [H0|H0]; cbn [negb].
  - repeat nat_step. cbn. rewrite Hsys. do 4 (split; [done|]). right.
    destruct (is_dev_init (n_mem s)) eqn:Hd; [done|].
    destruct (inv_idle s Hi Hd) as [_ Hs]. by destruct (law_no_bytes E HE s Hs).
  - repeat nat_step. do 4 (split; [done|]). left. split; [lia|done].
Qed.
End Runs.

(** ** The invariant is kept *)

Section Keep.
Implicit Types s : nat_state.

Lemma inv_same s s' :
  n_mem s' = n_mem s → n_bufs s' = n_bufs s → n_vmas s' = n_vmas s →
  installed (n_sent s') = installed (n_sent s) → nat_inv s → nat_inv s'.
Proof. intros Hm Hb Hv Hs []. by constructor; rewrite ?Hm, ?Hb, ?Hv, ?Hs. Qed.

Lemma installed_fail c e l : e < 0 → installed (([NopDesc; NatInitDesc c], e) :: l) = installed l.
Proof. intros He. cbn. by rewrite (proj2 (Z.eqb_neq e 0)) by lia. Qed.

Lemma installed_posted ds es l : installed (reverse (posted ds es) ++ l) = installed l.
Proof.
  unfold posted. revert es l. induction ds as [|d ds IH]; intros [|e es] l; [done..|].
  cbn [zip_with]. rewrite reverse_cons, <- app_assoc. by rewrite IH.
Qed.

Lemma inv_init_kept i s r s' :
  nat_inv s → init_typed i → same_but_tables s s' → init_outcome i s r s' → nat_inv s'.
Proof.
  intros Hi Ht (Hb & Hv & _) [(_ & Hf & Hm & Hs)|[(_ & _ & Hm & e & He & Hs)|(Hm & Hs & _)]].
  - pose proof (exact_within _ _ Ht Hf) as Hin. destruct Hf as (Hd & Hn & _).
    destruct Hi as [H1 H2 H3 H4 H5 H6 H7].
    constructor; rewrite ?Hm, ?Hb, ?Hv, ?Hs; try done. cbn [installed]. cbn.
    do 3 (split; [done|]). rewrite decide_True by lia. destruct Ht as (_ & _ & _ & _ & _ & [? _] & _).
    done.
  - apply (inv_same s); try done. by rewrite Hs, installed_fail.
  - apply (inv_same s); try done. by rewrite Hs.
Qed.

Lemma inv_dma_kept ds s r s' :
  nat_inv s → n_mem s' = n_mem s → same_but_tables s s' → dma_outcome ds s r s' → nat_inv s'.
Proof.
  intros Hi Hm (Hb & Hv & _) [(_ & es & _ & _ & _ & Hs)|[Hs _]]; apply (inv_same s); try done.
  - by rewrite Hs, installed_posted.
  - by rewrite Hs.
Qed.

Lemma inv_mmap_kept s r s' : nat_inv s → mmap_outcome s r s' → nat_inv s'.
Proof.
  intros Hi (Hs & Hb & _ & _ & [(_ & Hm & Hv)|(_ & Hd & _ & Hv & Hm)]).
  - apply (inv_same s); try done. by rewrite Hs.
  - destruct Hi as [H1 H2 H3 H4 H5 H6 H7].
    constructor; rewrite ?Hm, ?Hb, ?Hv, ?Hs; cbn; try done.
    + intros _. destruct (H2 Hd) as (? & ? & _ & ?). done.
    + intros h n. rewrite H3. unfold held. cbn. by rewrite Hd.
    + intros _. by apply H5.
    + unfold hw_ok in *. cbn. destruct (installed _); [|done]. by rewrite Hd in H6.
Qed.

Lemma inv_tmp s :
  nat_inv s → is_tmp_mem (n_mem s) = true → 
  0 ≤ tmp_dma_handle (n_mem s) ∧ tmp_dma_handle (n_mem s) + IPA_NAT_TEMP_MEM_SIZE ≤ 2 ^ 32.
Proof. intros Hi Ht. apply (inv_range s Hi). apply (inv_bufs s Hi). by right. Qed.

Lemma inv_del_kept i s r s' :
  nat_inv s → same_device s s' → del_outcome i s r s' → nat_inv s'.
Proof.
  intros Hi (Hv & _ & _) [(_ & Hd & _ & Hm & Hb & Hs)|(Hm & Hb & Hr)].
  2:{ apply (inv_same s); try done.
      destruct Hr as [(_ & _ & ->)|[(_ & e & He & ->)|[_ ->]]]; try done. by apply installed_fail. }
  pose proof (inv_tmp s Hi) as Htmp. destruct Hi as [H1 H2 H3 H4 H5 H6 H7].
  constructor; rewrite ?Hm, ?Hb, ?Hv, ?Hs; cbn -[within]; try done.
  - intros h n. rewrite lookup_delete_Some, H3. unfold held. cbn. split.
    + intros [Hne [(_ & -> & _)|Ht]]; [done|by right].
    + intros [(? & _)|(Ht & -> & ->)]; [done|]. split; [by apply H5|]. by right.
  - intros h n [_ Hh]%lookup_delete_Some. by apply (H4 h n).
  - do 3 (split; [done|]). rewrite decide_False by lia. do 3 (split; [done|]).
    destruct (is_tmp_mem (n_mem s)) eqn:Ht; [|done]. split; [done|].
    specialize (Htmp eq_refl). unfold IPA_NAT_TEMP_MEM_SIZE in *.
    unfold within, nat_tables, del_cmd. rewrite Ht. cbn -[u32]. rewrite u32_small by lia.
    repeat constructor; cbn; lia.
Qed.

Lemma inv_alloc_kept name n s r s' :
  nat_inv s → same_device s s' → alloc_outcome name n s r s' → nat_inv s'.
Proof.
  intros Hi (Hv & _ & _) [Hs [(Hm & Hb & _)|[(_ & Hdev & Hd & Hb & Hm)|Hok]]].
  { apply (inv_same s); try done. by rewrite Hs. }
  { destruct Hi as [H1 H2 H3 H4 H5 H6 H7]. destruct (H1 Hd) as [_ Hsz].
    constructor; rewrite ?Hm, ?Hb, ?Hv, ?Hs; cbn; try done.
    - intros h m. rewrite H3. unfold held. cbn. by rewrite Hd.
    - unfold hw_ok in *. cbn. destruct (installed _); [|done]. by rewrite Hd in H6.
    - intros Hmp. destruct (H7 Hmp). congruence. }
  destruct Hok as (_ & Hdev & Hd & Hn & v & h & Hv0 & Hh & Hr & Hap & Hb & Hm).
  destruct Hi as [H1 H2 H3 H4 H5 H6 H7].
  assert (n_bufs s !! h = None) as Hfresh.
  { destruct (n_bufs s !! h) as [k|] eqn:Hk; [|done]. exfalso. pose proof (Hap _ _ Hk).
    apply H3 in Hk as [(Hk & _)|(_ & _ & ->)]; [congruence|]. unfold IPA_NAT_TEMP_MEM_SIZE in *. lia. }
  assert (is_tmp_mem (n_mem s) = true → h ≠ tmp_dma_handle (n_mem s)) as Hne.
  { intros Ht ->. rewrite (proj2 (H3 (tmp_dma_handle (n_mem s)) IPA_NAT_TEMP_MEM_SIZE)) in Hfresh; [done|].
    by right. }
  constructor; rewrite ?Hm, ?Hb, ?Hv, ?Hs; cbn; try done.
  - intros h' n'. destruct (decide (h' = h)) as [->|Hh'].
    + rewrite lookup_insert_eq. unfold held. cbn. split; [intros [= <-]; by left|].
      intros [(_ & _ & ->)|(Ht & Heq & _)]; [done|]. by apply Hne in Ht.
    + rewrite lookup_insert_ne by done. rewrite H3. unfold held. cbn. rewrite Hd.
      split; [intros [(? & _)|?]; [done|by right]|intros [(_ & ? & _)|?]; [done|by right]].
  - intros h' n'. rewrite lookup_insert_Some. intros [[<- <-]|[_ Hk]]; [done|by apply H4].
  - unfold hw_ok in *. cbn. destruct (installed _) as [c|]; [|done].
    destruct H6 as (? & ? & ? & H6). do 3 (split; [done|]).
    destruct (decide _); [|done]. destruct H6 as [? _]. congruence.
  - intros Hmp. destruct (H7 Hmp). congruence.
Qed.
End Keep.

(** ** All calls *)

Section Calls.
Context (E : nat_env) {HE : nat_env_ok E}.
Implicit Types s : nat_state.

Lemma inv_state0 s :
  n_mem s = nat_mem0 → n_bufs s = ∅ → n_vmas s = [] → n_sent s = [] → nat_inv s.
Proof.
  intros Hm Hb Hv Hs. constructor; rewrite ?Hm, ?Hb, ?Hv, ?Hs; cbn; try done.
  intros h n. rewrite lookup_empty. split; [done|]. by intros [(? & _)|(? & _)].
Qed.

(** What [create_nat_device] leaves: a device with all its parts, or nothing. *)
Definition created (r : Z) (s : nat_state) : Prop :=
  nat_inv s ∧ n_heap s = ∅ ∧ n_sent s = [] ∧ n_vmas s = [] ∧
  (r = 0 ∧ is_dev (n_mem s) = true ∧ n_parts s = [DevCdev; DevNode; DevRegion; DevClass] ∨
   r < 0 ∧ is_dev (n_mem s) = false ∧ n_parts s = [] ∧ n_bufs s = ∅).

Lemma created_failed r s :
  r < 0 → n_mem s = nat_mem0 → n_bufs s = ∅ → n_vmas s = [] → n_sent s = [] → n_heap s = ∅ →
  n_parts s = [] → created r s.
Proof.
  intros Hr Hm Hb Hv Hs Hh Hp. split; [by apply inv_state0|]. do 3 (split; [done|]). right.
  rewrite Hm. done.
Qed.

Lemma wp_acquire p Q s :
  (∀ r, r < 0 → Q r (n_tick s)) →
  Q 0 (n_with_parts (p :: n_parts s) (n_tick s)) → wp (dev_acquire E p) Q s.
Proof using HE.
  intros H1 H0. unfold dev_acquire, nat_ask. wp_steps.
  pose proof (law_device E HE s p). destruct (Z.eqb_spec (env_device E s p) 0); wp_steps; [done|].
  apply H1. lia.
Qed.

Lemma wp_create : wp (create_nat_device E) created nat_state0.
Proof using HE.
  unfold create_nat_device.
  do 4 (nat_step; apply wp_acquire; [intros r Hr; rewrite (proj2 (Z.eqb_neq r 0)) by lia;
          cbn [negb]; repeat (nat_step || unfold dev_release, vaddr_alloc_fail; cbn -[u32]);
          by apply created_failed|cbn [Z.eqb negb]]).
  nat_step. nat_step. unfold allocate_temp_nat_memory. nat_step. nat_step.
  apply wp_dma_alloc; [assumption|done| |].
  - repeat nat_step. split; [|by eauto 10]. constructor; cbn; try done.
    intros h n. rewrite lookup_empty. split; [done|]. by intros [(? & _)|(? & _)].
  - intros v h Hv Hh Hr _. repeat nat_step. split; [|by eauto 10]. constructor; cbn; try done.
    + intros h' n. unfold held. cbn. split.
      * intros [[<- <-]|[_ H]]%lookup_insert_Some; [by right|]. by rewrite lookup_empty in H.
      * intros [(? & _)|(_ & -> & ->)]; [done|]. by rewrite lookup_insert_eq.
    + intros h' n [[<- <-]|[_ H]]%lookup_insert_Some; [done|]. by rewrite lookup_empty in H.
Qed.

(** What every call of user space does. *)
Definition call_outcome (c : nat_call) (s : nat_state) (r : Z) (s' : nat_state) : Prop :=
  match c with
  | NatAlloc (Some mem) copied =>
      ∃ name r0, alloc_outcome name (alloc_size mem) s r0 s' ∧
        r = (if (r0 =? 0) && copied then 0 else - EFAULT)
  | NatMmap _ _ => mmap_outcome s r s'
  | NatInit (Some i) => ∃ r0, init_outcome i s r0 s' ∧ r = (if r0 =? 0 then 0 else - EFAULT)
  | NatDel (Some i) => ∃ r0, del_outcome i s r0 s' ∧ r = (if r0 =? 0 then 0 else - EFAULT)
  | NatDma (Some header) memdup =>
      s' = s ∧ r < 0 ∨
      ∃ n param ds r0, dma_entries header = Some n ∧ memdup (4 + 12 * Z.to_nat n)%nat = Some param ∧
        dma_request param = Some ds ∧ Forall (λ d, 0 ≤ one_table_index d ∧ 0 ≤ one_offset d) ds ∧
        n_mem s' = n_mem s ∧ n_bufs s' = n_bufs s ∧ dma_outcome ds s r0 s' ∧
        r = (if r0 =? 0 then 0 else - EFAULT)
  | _ => s' = s ∧ r = - EFAULT
  end.

Lemma terminate_some name :
  length name = 32%nat → ∃ name', terminate name = Some name' ∧ length name' = 32%nat.
Proof.
  intros Hl. unfold terminate. rewrite (store_z_nat name 31) by lia. eexists. split; [done|].
  by rewrite length_insert.
Qed.

Lemma wp_outcome (m : NM Z) (Q : Z → nat_state → Prop) s :
  wp m Q s →
  wp (r ← m; if negb (r =? 0) then mret (- EFAULT) else mret 0)
     (λ r s', ∃ r0, Q r0 s' ∧ r = if r0 =? 0 then 0 else - EFAULT) s.
Proof.
  intros H. nat_step. eapply wp_mono; [exact H|]. cbn beta. intros r s' HQ.
  destruct (Z.eqb_spec r 0) as [->|Hr]; cbn [negb]; apply wp_ret.
  - by exists 0.
  - exists r. split; [done|]. by rewrite (proj2 (Z.eqb_neq r 0)).
Qed.

Lemma wp_ioctl_dma header memdup s :
  nat_inv s → nat_call_ok (NatDma (Some header) memdup) →
  wp (ioctl_nat_dma E (Some header) memdup)
     (λ r s', nat_inv s' ∧ n_heap s' = n_heap s ∧
              call_outcome (NatDma (Some header) memdup) s r s') s.
Proof using HE.
  intros Hi (Hl & Hb & Hdup). unfold ioctl_nat_dma.
  destruct (le_bytes_some header 0 1) as (n & Hn & Hr); [done|lia|]. fold (dma_entries header) in Hn.
  nat_step. rewrite Hn. apply wp_ret.
  destruct (memdup _) as [param|] eqn:Hm; [|apply wp_ret; split; [done|]; split; [done|by left]].
  destruct (Hdup _ _ Hm) as [Hlen Hbytes].
  destruct (le_bytes_some param 0 1) as (n' & Hn' & _); [done|lia|]. fold (dma_entries param) in Hn'.
  nat_step. rewrite Hn'. apply wp_ret.
  destruct (Z.eqb_spec n' n) as [->|Hne]; cbn [negb]; [|apply wp_ret; split; [done|]; split; [done|by left]].
  destruct (dma_request_some param n) as (ds & Hds & Hty); [done|done|lia|].
  assert (dma_request param = Some ds) as Hreq by (unfold dma_request; by rewrite Hn').
  eapply wp_mono; [apply wp_outcome; by apply wp_dma|]. cbn beta.
  intros r s' (r0 & (Hmem & Hsame & Ho) & ->). split; [by eapply inv_dma_kept|].
  split; [apply Hsame|]. right. exists n, param, ds, r0. destruct Hsame as (? & _). done.
Qed.

Lemma wp_run c s :
  nat_inv s → nat_call_ok c →
  wp (nat_run E c) (λ r s', nat_inv s' ∧ n_heap s' = n_heap s ∧ call_outcome c s r s') s.
Proof using HE.
  intros Hi Hc. destruct c as [[mem|] copied|st n|[i|]|[header|] memdup|[i|]]; cbn [nat_run].
  - destruct Hc as [Hl H0]. destruct (terminate_some _ Hl) as (name & Hname & H0').
    unfold ioctl_alloc_nat_mem. nat_step. rewrite Hname. apply wp_ret.
    nat_step. eapply wp_mono; [by apply (wp_alloc E (mkNatAlloc name (alloc_size mem)))|].
    cbn beta. intros r s' [Hd Ho]. cbn [alloc_size dev_name] in Ho.
    assert (nat_inv s' ∧ n_heap s' = n_heap s) as [Hi' Hh].
    { split; [by eapply inv_alloc_kept|apply Hd]. }
    destruct (Z.eqb_spec r 0) as [->|Hr]; cbn [negb].
    + destruct copied; cbn [negb]; apply wp_ret; do 2 (split; [done|]); by exists name, 0.
    + apply wp_ret. do 2 (split; [done|]). exists name, r. split; [done|].
      by rewrite (proj2 (Z.eqb_neq r 0)).
  - by apply wp_ret.
  - eapply wp_mono; [by apply wp_mmap|]. cbn beta. intros r s' Ho.
    split; [by eapply inv_mmap_kept|]. split; [apply Ho|done].
  - eapply wp_mono; [apply wp_outcome; by apply wp_init|]. cbn beta.
    intros r s' (r0 & [Hs Ho] & ->). split; [by eapply inv_init_kept|]. split; [apply Hs|].
    by exists r0.
  - by apply wp_ret.
  - by apply wp_ioctl_dma.
  - by apply wp_ret.
  - eapply wp_mono; [apply wp_outcome; by apply wp_del|]. cbn beta.
    intros r s' (r0 & [Hs Ho] & ->). split; [by eapply inv_del_kept|]. split; [apply Hs|].
    by exists r0.
  - by apply wp_ret.
Qed.

Lemma reach_inv s : nat_reach E s → nat_inv s ∧ n_heap s = ∅.
Proof using HE.
  induction 1 as [r s Hc|c r s s' _ [IH Hh] Hok Hrun].
  - pose proof (wp_create) as Hw. unfold wp in Hw. rewrite Hc in Hw. by destruct Hw as (? & ? & _).
  - pose proof (wp_run c s IH Hok) as Hw. unfold wp in Hw. rewrite Hrun in Hw.
    destruct Hw as (? & Hh' & _). by rewrite Hh'.
Qed.
End Calls.

(** ** The phases of the device

    What user space knows of the device: no device, no memory, memory of [n] bytes, or memory
    with tables of [nb] and [ne] entries and a public address. *)
Inductive nat_phase :=
  | NoDevice
  | NoMemory
  | Memory (n : Z)
  | Tables (n nb ne ip : Z).

Definition phase_of (m : ipa_nat_mem) : nat_phase :=
  if negb (is_dev m) then NoDevice
  else if negb (is_dev_init m) then NoMemory
  else if size_base_tables m =? 0 then Memory (size m)
  else Tables (size m) (size_base_tables m) (size_expansion_tables m) (public_ip_addr m).

(** Whether the tables of [i] are in [n] bytes. *)
Definition init_in (n : Z) (i : ipa_ioc_v4_nat_init) : bool :=
  (0 <? table_entries i)
  && (ipv4_rules_offset i + 32 * (table_entries i + 1) <=? n)
  && (expn_rules_offset i + 32 * expn_table_entries i <=? n)
  && (index_offset i + 4 * (table_entries i + 1) <=? n)
  && (index_expn_offset i + 4 * expn_table_entries i <=? n).

(** The phase after a call that succeeds; [None]: it cannot succeed. *)
Definition phase_next (p : nat_phase) (c : nat_call) : option nat_phase :=
  match c, p with
  | NatAlloc (Some mem) _, NoMemory =>
      if (0 <? alloc_size mem) && (alloc_size mem <=? MAX_ALLOC_NAT_SIZE)
      then Some (Memory (alloc_size mem)) else None
  | NatAlloc (Some _) _, (Memory _ | Tables _ _ _ _) => Some p
  | NatMmap _ _, (Memory _ | Tables _ _ _ _) => Some p
  | NatInit (Some i), (Memory n | Tables n _ _ _) =>
      if init_in n i then Some (Tables n (table_entries i) (expn_table_entries i) (ip_addr i))
      else None
  | NatDma (Some _) _, (Memory _ | Tables _ _ _ _) => Some p
  | NatDel (Some _), Tables _ _ _ ip => if ip =? 0 then None else Some NoMemory
  | _, _ => None
  end.

Lemma phase_init m :
  is_dev m = true → is_dev_init m = true →
  phase_of m = Memory (size m) ∧ size_base_tables m = 0 ∨
  phase_of m = Tables (size m) (size_base_tables m) (size_expansion_tables m) (public_ip_addr m)
  ∧ size_base_tables m ≠ 0.
Proof.
  intros Hd Hi. unfold phase_of. rewrite Hd, Hi. cbn [negb].
  destruct (Z.eqb_spec (size_base_tables m) 0); auto.
Qed.

Lemma inv_tables_ip s :
  nat_inv s → size_base_tables (n_mem s) = 0 → public_ip_addr (n_mem s) = 0.
Proof.
  intros Hi H0. pose proof (inv_hw s Hi) as Hw. unfold hw_ok in Hw.
  destruct (installed _) as [c|]; [|apply Hw]. destruct Hw as (_ & _ & _ & Hw).
  rewrite decide_False in Hw by lia. apply Hw.
Qed.

Lemma init_fits_in m i : init_fits m i → init_in (size m) i = true.
Proof.
  intros (_ & ? & [? _] & [? _] & [? _] & [? _]). unfold init_in.
  rewrite !andb_true_iff, Z.ltb_lt, !Z.leb_le. lia.
Qed.

Section Phases.
Context (E : nat_env) {HE : nat_env_ok E}.
Implicit Types s : nat_state.

(** A call that fails keeps the phase, except for an allocation whose answer cannot be copied
    to user space. *)
Definition phase_step (p : nat_phase) (c : nat_call) (r : Z) (p' : nat_phase) : Prop :=
  (r = 0 ∧ phase_next p c = Some p') ∨
  (r < 0 ∧ (p' = p ∨ (∃ mem, c = NatAlloc (Some mem) false) ∧ phase_next p c = Some p')).

Lemma alloc_phase name mem s r s' copied :
  nat_inv s → alloc_outcome name (alloc_size mem) s r s' →
  (r = 0 ∧ phase_next (phase_of (n_mem s)) (NatAlloc (Some mem) copied) = Some (phase_of (n_mem s'))) ∨
  (r ≠ 0 ∧ phase_of (n_mem s') = phase_of (n_mem s)).
Proof.
  intros Hi (_ & [(-> & _ & [(-> & Hdev & Hd)|[-> _]])|[(-> & Hdev & Hd & _ & ->)|Hok]]).
  - left. split; [done|]. destruct (phase_init _ Hdev Hd) as [[-> _]|[-> _]]; done.
  - by right.
  - right. split; [done|]. unfold phase_of. cbn. by rewrite Hdev, Hd.
  - destruct Hok as (-> & Hdev & Hd & Hn & v & h & _ & _ & _ & _ & _ & Hm). left. split; [done|].
    assert (phase_of (n_mem s) = NoMemory) as -> by (unfold phase_of; by rewrite Hdev, Hd).
    cbn [phase_next]. rewrite (proj2 (Z.ltb_lt _ _)), (proj2 (Z.leb_le _ _)) by lia. cbn [andb].
    rewrite Hm. unfold phase_of. cbn. rewrite Hdev. cbn.
    destruct (Z.eqb_spec (size_base_tables (n_mem s)) 0) as [|Hb]; [done|].
    pose proof (inv_hw s Hi) as Hw. unfold hw_ok in Hw. destruct (installed _); [|by destruct Hw].
    destruct Hw as (_ & _ & _ & Hw). destruct (decide _); [destruct Hw; congruence|lia].
Qed.

Lemma call_phase c s r s' :
  nat_inv s → nat_call_ok c → call_outcome c s r s' →
  phase_step (phase_of (n_mem s)) c r (phase_of (n_mem s')).
Proof.
  intros Hi Hc. unfold phase_step. destruct c as [[mem|] copied|st n|[i|]|[header|] memdup|[i|]]; cbn [call_outcome].
  - intros (name & r0 & Ho & ->).
    destruct (alloc_phase _ _ _ _ _ copied Hi Ho) as [[-> Hp]|[Hr Hp]].
    + destruct copied; [by left|right]. split; [done|]. right. split; [by exists mem|done].
    + right. rewrite (proj2 (Z.eqb_neq r0 0)) by done. split; [done|by left].
  - intros [-> ->]. right. split; [done|by left].
  - intros (_ & _ & _ & _ & [(Hr & -> & _)|(-> & Hd & Hmp & _ & Hm)]); [right; split; [done|by left]|].
    left. split; [done|]. destruct (inv_init s Hi Hd) as (Hdev & _).
    rewrite Hm. unfold phase_of at 2. cbn. rewrite Hdev. cbn.
    destruct (phase_init _ Hdev Hd) as [[-> H0]|[-> H0]]; cbn [phase_next].
    + by rewrite H0.
    + by rewrite (proj2 (Z.eqb_neq _ _) H0).
  - intros (r0 & Ho & ->). destruct Ho as [(-> & Hf & Hm & _)|[(-> & _ & -> & _)|(-> & _ & Hr)]].
    + left. split; [done|]. pose proof (init_fits_in _ _ Hf) as Hin. destruct Hf as (Hd & Hn & _).
      destruct (inv_init s Hi Hd) as (Hdev & _).
      assert (phase_of (n_mem s') = Tables (size (n_mem s)) (table_entries i) (expn_table_entries i) (ip_addr i)) as ->.
      { rewrite Hm. unfold phase_of. cbn. rewrite Hdev, Hd. cbn. by rewrite (proj2 (Z.eqb_neq _ _)) by lia. }
      destruct (phase_init _ Hdev Hd) as [[-> _]|[-> _]]; cbn [phase_next]; by rewrite Hin.
    + right. split; [done|by left].
    + right. split; [by destruct Hr as [[-> _]| ->]|by left].
  - intros [-> ->]. right. split; [done|by left].
  - intros [[-> Hr]|(n & param & ds & r0 & _ & _ & _ & _ & Hm & _ & Ho & ->)].
    { right. split; [done|by left]. }
    rewrite Hm. destruct (Z.eqb_spec r0 0) as [->|Hr]; [left|right; split; [done|by left]].
    split; [done|]. destruct Ho as [[(Hd & _) _]|[_ [[? _]|?]]]; [|done..].
    destruct (inv_init s Hi Hd) as (Hdev & _).
    by destruct (phase_init _ Hdev Hd) as [[-> _]|[-> _]].
  - intros [-> ->]. right. split; [done|by left].
  - intros (r0 & Ho & ->). destruct Ho as [(-> & Hd & Hip & Hm & _)|(-> & _ & Hr)].
    + left. split; [done|]. destruct (inv_init s Hi Hd) as (Hdev & _).
      assert (phase_of (n_mem s') = NoMemory) as ->.
      { rewrite Hm. unfold phase_of. cbn. by rewrite Hdev. }
      destruct (phase_init _ Hdev Hd) as [[-> H0]|[-> _]]; cbn [phase_next].
      * by apply inv_tables_ip in H0.
      * by rewrite (proj2 (Z.eqb_neq _ _) Hip).
    + right. destruct (Z.eqb_spec r0 0) as [->|_]; [|split; [done|by left]].
      exfalso. by destruct Hr as [[? _]|[[? _]|[? _]]].
  - intros [-> ->]. right. split; [done|by left].
Qed.
End Phases.

(** ** Writes reach the tables that the hardware uses *)

(** The sizes of installed tables. *)
Lemma inv_sizes s c :
  nat_inv s → installed (n_sent s) = Some c → cmd_addr_type c = IPA_NAT_SYSTEM_MEMORY →
  0 ≤ size_base_tables (n_mem s) ≤ 1000 ∧ 0 ≤ size_expansion_tables (n_mem s) ≤ 1000 ∧
  cmd_size_base c = size_base_tables (n_mem s) ∧
  cmd_size_expansion c = size_expansion_tables (n_mem s) ∧
  ∃ h n, n_bufs s !! h = Some n ∧ within c h n.
Proof.
  intros Hi Hc Hty. pose proof (inv_hw s Hi) as Hw. rewrite Hc in Hw.
  destruct Hw as (Hb & He & _ & Hw). pose proof (inv_size s Hi) as Hsz.
  assert (MAX_ALLOC_NAT_SIZE = 32000) as HM by done.
  destruct (decide _) as [Hp|Hp].
  - destruct Hw as (Hd & _ & H0 & Hin). pose proof Hin as Hin'.
    destruct (Forall_lookup_1 _ _ 0%nat _ Hin' eq_refl) as [Ha1 Hb1].
    destruct (Forall_lookup_1 _ _ 1%nat _ Hin' eq_refl) as [Ha2 Hb2]. cbn in Ha1, Hb1, Ha2, Hb2.
    destruct (inv_block s Hi Hd) as (Hbuf & _). do 2 (split; [lia|]). do 2 (split; [done|]).
    by exists (dma_handle (n_mem s)), (size (n_mem s)).
  - destruct Hw as (H1 & H2 & _ & Hw). do 2 (split; [lia|]). do 2 (split; [done|]).
    destruct (is_tmp_mem (n_mem s)) eqn:Ht; [|by rewrite Hw in Hty].
    exists (tmp_dma_handle (n_mem s)), IPA_NAT_TEMP_MEM_SIZE. split; [|apply Hw].
    apply (inv_bufs s Hi). by right.
Qed.

(** An element that passes the checks starts in a table of the command in use. *)
Lemma valid_in_table s c d :
  nat_inv s → installed (n_sent s) = Some c → cmd_addr_type c = IPA_NAT_SYSTEM_MEMORY →
  0 ≤ one_table_index d → 0 ≤ one_offset d → one_valid (n_mem s) d = true →
  dma_cmd_of d = mkDmaCmd 0 (one_base_addr d) (one_offset d) (one_data d) ∧
  ∃ a len, lookup_z (nat_tables c) (one_base_addr d) = Some (a, len) ∧ 0 ≤ one_offset d < len ∧
           (4 | len).
Proof.
  intros Hi Hc Hty Ht Ho Hv.
  destruct (inv_sizes s c Hi Hc Hty) as (Hb & He & Hcb & Hce & _).
  unfold one_valid in Hv. destruct (Z.geb_spec (one_table_index d) 1) as [|Hidx]; [done|].
  assert (one_table_index d = 0) as H0 by lia.
  unfold tbl_limit, IPA_NAT_BASE_TBL, IPA_NAT_EXPN_TBL, IPA_NAT_INDX_TBL, IPA_NAT_INDEX_EXPN_TBL,
    NAT_TABLE_ENTRY_SIZE_BYTE, NAT_INTEX_TABLE_ENTRY_SIZE_BYTE in Hv.
  rewrite (u32_small (size_base_tables (n_mem s) + 1)) in Hv by lia.
  rewrite !u32_small in Hv by lia.
  unfold dma_cmd_of, nat_tables, lookup_z. rewrite H0, Hcb, Hce.
  repeat match type of Hv with context [if ?x =? ?y then _ else _] =>
    destruct (Z.eqb_spec x y) as [->|?] end; try done;
  (split; [done|]); cbn; do 2 eexists; (split; [done|]);
  apply negb_true_iff in Hv; rewrite Z.geb_leb, Z.leb_gt in Hv; (split; [lia|]).
  - exists (8 * (size_base_tables (n_mem s) + 1)); lia.
  - exists (8 * size_expansion_tables (n_mem s)); lia.
  - exists (size_base_tables (n_mem s) + 1); lia.
  - exists (size_expansion_tables (n_mem s)); lia.
Qed.

(** ** An environment *)

(** Every buffer gets a megabyte of its own; everything succeeds, except that a buffer of no
    bytes cannot be mapped. *)
Definition nat_env1 : nat_env :=
  mkNatEnv
    (λ s n, let h := 0x100000 * (1 + Z.of_nat (n_time s)) in
       if decide (h + n ≤ 2 ^ 32 ∧
                  map_Forall (λ h' n', h + n ≤ h' ∨ h' + n' ≤ h) (n_bufs s))
       then Some (2 ^ 40 + h, h) else None)
    (λ s, let p := Pos.of_succ_nat (n_time s) in
       if decide (p ∈ n_heap s) then None else Some p)
    (λ _ _, 0)
    (λ s, if size (n_mem s) =? 0 then - EINVAL else 0)
    (λ _ _ _, 0) (λ _ _, 0) 0 0.

Lemma nat_env1_ok : nat_env_ok nat_env1.
Proof.
  split; cbn; try done.
  - intros s n v h Hn. destruct (decide _) as [[Hr Hall]|]; [|done]. intros [= <- <-].
    split; [lia|]. split; [lia|]. split; [exact Hr|]. intros h' n' Hb. exact (Hall h' n' Hb).
  - intros s p. destruct (decide _); [done|]. by intros [= <-].
  - intros s. by destruct (size (n_mem s) =? 0).
  - intros s Hs. by rewrite Hs.
Qed.

(** The states after some calls. *)
Fixpoint nat_runs (E : nat_env) (cs : list nat_call) (s : nat_state) : option nat_state :=
  match cs with
  | [] => Some s
  | c :: cs => match nat_run E c s with Some (_, s') => nat_runs E cs s' | None => None end
  end.

Definition nat_after (E : nat_env) (cs : list nat_call) : option nat_state :=
  match create_nat_device E nat_state0 with Some (_, s) => nat_runs E cs s | None => None end.

Lemma nat_after_reach E cs s :
  Forall nat_call_ok cs → nat_after E cs = Some s → nat_reach E s.
Proof.
  unfold nat_after. destruct (create_nat_device E nat_state0) as [[r s0]|] eqn:Hc; [|done].
  assert (nat_reach E s0) as H0 by by eapply nat_reach_create.
  clear Hc. intros Hok. revert s0 H0. induction Hok as [|c cs Hc _ IH]; intros s0 H0; cbn.
  - by intros [= <-].
  - destruct (nat_run E c s0) as [[r' s1]|] eqn:Hrun; [|done]. apply IH. by eapply nat_reach_call.
Qed.

(** Memory of a page, tables of 15 and 4 entries, two writes. *)
Definition init1 : ipa_ioc_v4_nat_init := mkNatInit 0 0 512 640 704 15 4 0x0a000001.
Definition dma1 : list Z := [2; 0; 0; 0] ++ [0; 0; 0; 0; 34; 0; 0; 0; 7; 0; 0; 0]
                                         ++ [0; 2; 0; 0; 60; 0; 0; 0; 1; 2; 0; 0].
Definition alloc1 : ipa_ioc_nat_alloc_mem :=
  mkNatAlloc (NAT_DEV_NAME ++ replicate 20 0) 4096.
Definition setup1 : list nat_call := [NatAlloc (Some alloc1) true; NatMmap 0 4096].
Definition running1 : list nat_call := setup1 ++ [NatInit (Some init1)].

Lemma setup1_ok : Forall nat_call_ok setup1.
Proof. repeat constructor. done. Qed.
Lemma init1_typed : init_typed init1.
Proof. unfold init_typed. cbn. lia. Qed.
Lemma running1_ok : Forall nat_call_ok running1.
Proof. apply Forall_app. split; [apply setup1_ok|]. repeat constructor; cbn; lia. Qed.
Lemma dma1_bytes : bytes dma1.
Proof. repeat constructor; lia. Qed.

Definition setup1_st : nat_state := default nat_state0 (nat_after nat_env1 setup1).
Definition running1_st : nat_state := default nat_state0 (nat_after nat_env1 running1).

Lemma setup1_reach : nat_reach nat_env1 setup1_st.
Proof. apply (nat_after_reach _ setup1); [apply setup1_ok|]. vm_compute. reflexivity. Qed.
Lemma running1_reach : nat_reach nat_env1 running1_st.
Proof. apply (nat_after_reach _ running1); [apply running1_ok|]. vm_compute. reflexivity. Qed.

(** ** The properties *)

(** C5. In every reachable state every call that user space makes is defined on every path (no
    buffer is freed that is not live, no request read past its end), and gives back what it
    took from [kmalloc]; the live DMA buffers are exactly the memory of the device and the
    temporary memory; and if the last command to the hardware says that the tables are in system
    memory, they are in one of them. (A deletion without temporary memory sends a command that
    says shared memory, where there is no buffer.) *)
Theorem nat_memory_live E s :
  nat_env_ok E → nat_reach E s →
  (∀ c, nat_call_ok c → ∃ r s', nat_run E c s = Some (r, s') ∧ n_heap s' = n_heap s) ∧
  (∀ h n, n_bufs s !! h = Some n ↔ held (n_mem s) h n) ∧
  (∀ c, installed (n_sent s) = Some c → cmd_addr_type c = IPA_NAT_SYSTEM_MEMORY →
        ∃ h n, n_bufs s !! h = Some n ∧ within c h n).
Proof.
  intros HE Hr. destruct (reach_inv E s Hr) as [Hi _]. split; [|split].
  - intros c Hc. destruct (wp_elim _ _ _ (wp_run E c s Hi Hc)) as (r & s' & Hrun & _ & Hh & _). eauto.
  - apply (inv_bufs s Hi).
  - intros c Hc Hty. by destruct (inv_sizes s c Hi Hc Hty) as (_ & _ & _ & _ & ?).
Qed.

Lemma nat_memory_live_witness :
  installed (n_sent running1_st) = Some (exact_cmd (n_mem running1_st) init1) ∧
  ∃ h n, n_bufs running1_st !! h = Some n ∧ within (exact_cmd (n_mem running1_st) init1) h n.
Proof.
  split; [by vm_compute|].
  apply (nat_memory_live nat_env1 running1_st nat_env1_ok running1_reach); by vm_compute.
Defined.

(** C7. [ipa2_nat_init_cmd] sends tables to the hardware only if all four are in the memory of
    the device and their addresses have 32 bits; the command then holds every address and size
    as it is, without a wrap and without losing a bit of the fields, and the driver's copy has
    the same sizes. Otherwise nothing changes: refused by the checks, no memory for the command,
    or refused by the hardware. *)
Theorem nat_init_exact E s i :
  nat_env_ok E → nat_reach E s → init_typed i →
  ∃ r s', ipa2_nat_init_cmd E i s = Some (r, s') ∧ same_but_tables s s' ∧
    init_outcome i s r s' ∧
    (init_fits (n_mem s) i → within (exact_cmd (n_mem s) i) (dma_handle (n_mem s)) (size (n_mem s))).
Proof.
  intros HE Hr Ht. destruct (reach_inv E s Hr) as [Hi _].
  destruct (wp_elim _ _ _ (wp_init E i s Hi Ht)) as (r & s' & Hrun & Hs & Ho).
  exists r, s'. do 3 (split; [done|]). by apply exact_within.
Qed.

Lemma nat_init_exact_witness :
  init_fits (n_mem setup1_st) init1 ∧
  ∃ r s', ipa2_nat_init_cmd nat_env1 init1 setup1_st = Some (r, s') ∧ same_but_tables setup1_st s' ∧
    init_outcome init1 setup1_st r s' ∧
    (init_fits (n_mem setup1_st) init1 →
     within (exact_cmd (n_mem setup1_st) init1) (dma_handle (n_mem setup1_st)) (size (n_mem setup1_st))).
Proof.
  split; [by apply (bool_decide_unpack _); vm_compute|].
  apply (nat_init_exact nat_env1 setup1_st init1 nat_env1_ok setup1_reach init1_typed).
Defined.

(** C16. [ipa2_nat_dma_cmd] posts one command for every element of the request, in order and
    with the values of the element, and returns the result of the last one; or it posts none.
    When the hardware has tables in system memory, every command that it posts starts in the
    table that the element names, in a live buffer; at an even offset both bytes are in the
    table. (Before that, offsets are compared with the bounds of no tables: [dma_before_init].) *)
Theorem nat_dma_exact E s param ds :
  nat_env_ok E → nat_reach E s → bytes param →
  dma_request param = Some ds → Forall (λ d, 0 ≤ one_table_index d ∧ 0 ≤ one_offset d) ds →
  ∃ r s', ipa2_nat_dma_cmd E param s = Some (r, s') ∧ n_mem s' = n_mem s ∧
    same_but_tables s s' ∧ dma_outcome ds s r s' ∧
    (dma_accepted (n_mem s) ds → ∀ c, installed (n_sent s) = Some c →
       cmd_addr_type c = IPA_NAT_SYSTEM_MEMORY →
       ∃ h n, n_bufs s !! h = Some n ∧
         Forall (λ d, dma_cmd_of d = mkDmaCmd 0 (one_base_addr d) (one_offset d) (one_data d) ∧
           ∃ a len, lookup_z (nat_tables c) (one_base_addr d) = Some (a, len) ∧
             h ≤ a + one_offset d ∧ a + one_offset d < a + len ∧ a + len ≤ h + n ∧
             (Z.Even (one_offset d) → a + one_offset d + 2 ≤ a + len)) ds).
Proof.
  intros HE Hr Hb Hreq Hty. destruct (reach_inv E s Hr) as [Hi _].
  destruct (wp_elim _ _ _ (wp_dma E param ds s Hreq)) as (r & s' & Hrun & Hm & Hs & Ho).
  exists r, s'. do 4 (split; [done|]). intros (_ & _ & Hv) c Hc Hsys.
  destruct (inv_sizes s c Hi Hc Hsys) as (_ & _ & _ & _ & h & n & Hbuf & Hin).
  exists h, n. split; [done|]. apply Forall_lookup_2. intros k0 d Hk0.
  destruct (Forall_lookup_1 _ _ _ _ Hty Hk0) as [Ht H0].
  pose proof (Forall_lookup_1 _ _ _ _ Hv Hk0) as Hd. cbn beta in Hd.
  destruct (valid_in_table s c d Hi Hc Hsys Ht H0) as (Hcmd & a & len & Hl & Hlen & Hdiv).
  { by destruct (one_valid (n_mem s) d). }
  split; [done|]. exists a, len. split; [done|].
  unfold lookup_z in Hl. destruct (0 <=? one_base_addr d); [|done].
  destruct (Forall_lookup_1 _ _ _ _ Hin Hl) as [H1 H2]. cbn in H1, H2.
  do 3 (split; [lia|]). intros [k Hk]. destruct Hdiv as [j Hj]. lia.
Qed.

Definition dma1_ones : list ipa_ioc_nat_dma_one := [mkDmaOne 0 0 34 7; mkDmaOne 0 2 60 513].

Lemma nat_dma_exact_witness :
  dma_accepted (n_mem running1_st) dma1_ones ∧
  ∃ r s', ipa2_nat_dma_cmd nat_env1 dma1 running1_st = Some (r, s') ∧
    n_mem s' = n_mem running1_st ∧ dma_outcome dma1_ones running1_st r s'.
Proof.
  split.
  { split; [vm_compute; reflexivity|]. split; [discriminate|].
    apply dma_valid_Forall. vm_compute. reflexivity. }
  destruct (nat_dma_exact nat_env1 running1_st dma1 dma1_ones
              nat_env1_ok running1_reach dma1_bytes) as (r & s' & Hrun & Hm & _ & Ho & _).
  - vm_compute. reflexivity.
  - repeat constructor; cbn; lia.
  - exists r, s'. split; [exact Hrun|]. split; [exact Hm|exact Ho].
Defined.

(** C17. Refinement of the device to four phases: no device, no memory, memory, tables. Every
    call succeeds with the step of the phases that it stands for (so a call that the phase does
    not allow fails), or fails and keeps the phase; only an allocation whose answer cannot be
    copied to user space fails with its step done. *)
Theorem nat_refines_phases E s c :
  nat_env_ok E → nat_reach E s → nat_call_ok c →
  ∃ r s', nat_run E c s = Some (r, s') ∧ nat_reach E s' ∧
    phase_step (phase_of (n_mem s)) c r (phase_of (n_mem s')).
Proof.
  intros HE Hr Hc. destruct (reach_inv E s Hr) as [Hi _].
  destruct (wp_elim _ _ _ (wp_run E c s Hi Hc)) as (r & s' & Hrun & _ & _ & Ho).
  exists r, s'. split; [done|]. split; [by eapply nat_reach_call|]. by eapply call_phase.
Qed.

Lemma nat_refines_phases_witness :
  phase_of (n_mem running1_st) = Tables 4096 15 4 0x0a000001 ∧
  ∃ r s', nat_run nat_env1 (NatDel (Some 0)) running1_st = Some (r, s') ∧ nat_reach nat_env1 s' ∧
    phase_step (phase_of (n_mem running1_st)) (NatDel (Some 0)) r (phase_of (n_mem s')).
Proof.
  split; [by vm_compute|].
  apply (nat_refines_phases nat_env1 running1_st (NatDel (Some 0)) nat_env1_ok running1_reach I).
Defined.

(** ** What the code does not guard *)

(** [ipa2_nat_del_cmd] takes the lock only to free the memory: tables that are installed after
    its command was sent are in the memory that it then frees. *)
Definition del_race : option nat_state :=
  match nat_send_cmd nat_env1 [NopDesc; NatInitDesc (del_cmd (n_mem running1_st) 0)] running1_st with
  | Some (_, s1) =>
      match ipa2_nat_init_cmd nat_env1 init1 s1 with
      | Some (_, s2) => match nat_del_finish s2 with Some (_, s3) => Some s3 | None => None end
      | None => None
      end
  | None => None
  end.

Example del_race_leaves_freed_tables :
  ∃ s c, del_race = Some s ∧ installed (n_sent s) = Some c ∧
    cmd_addr_type c = IPA_NAT_SYSTEM_MEMORY ∧ n_bufs s !! cmd_rules_addr c = None ∧
    c = exact_cmd (n_mem running1_st) init1.
Proof. do 2 eexists. split; [by vm_compute|]. by vm_compute. Qed.

(** Memory without tables: a write of offset 0 is accepted and sent. *)
Example dma_before_init :
  match ipa2_nat_dma_cmd nat_env1 ([1; 0; 0; 0] ++ replicate 12 0) setup1_st with
  | Some (r, s') => r = 0 ∧ installed (n_sent setup1_st) = None ∧
                    head (n_sent s') = Some ([NopDesc; NatDmaDesc (mkDmaCmd 0 0 0 0)], 0)
  | None => False
  end.
Proof. by vm_compute. Qed.

(** Tables with the public address 0 cannot be deleted. *)
Example no_address_no_delete :
  match nat_after nat_env1 (setup1 ++ [NatInit (Some (mkNatInit 0 0 512 640 704 15 4 0))]) with
  | Some s => match ipa2_nat_del_cmd nat_env1 0 s with
              | Some (r, s') => r = - EPERM ∧ is_dev_init (n_mem s') = true
              | None => False
              end
  | None => False
  end.
Proof. by vm_compute. Qed.

(** A deletion frees the memory while user space has it mapped. *)
Example mapped_after_delete :
  match nat_run nat_env1 (NatDel (Some 0)) running1_st with
  | Some (r, s') => r = 0 ∧ head (n_vmas s') = Some (dma_handle (n_mem running1_st), 4096) ∧
                    n_bufs s' !! dma_handle (n_mem running1_st) = None
  | None => False
  end.
Proof. by vm_compute. Qed.
