(* ===== verification/Intf.v ===== *)
(** * IPA interfaces and messages: the program

    [ipa_v2/ipa_intf.c] and its callers in [ipa.c]. Module [Interfaces]: the named interfaces
    with their properties. Module [Messages]: the queue of messages to user space, the cache of
    wlan clients, the messages pulled from clients and the messages about the uplink. Memory of
    [kmalloc] is known by a name; reading or freeing what is not allocated is undefined. *)

From S2P Require Import Prelude.

Definition IPA_NUM_PROPS_MAX : Z := 35.
Definition IPA_CLIENT_APPS_LAN_CONS : Z := 33.
Definition IPA_NAME_MAX : nat := 32.

(** [strlcpy(name, src, IPA_RESOURCE_NAME_MAX)] into zeroed memory: at most 31 characters. *)
Definition strlcpy_name (src : list Z) : option (list Z) :=
  if decide (0 ∈ src) then
    let n := take (IPA_NAME_MAX - 1) (c_str src) in
    Some (n ++ replicate (IPA_NAME_MAX - length n) 0)
  else None.

Module Interfaces.

(** A property is known by its bytes. *)
Definition prop : Type := list Z.

(** [struct ipa_tx_intf], [struct ipa_rx_intf]: the number of properties and the array. *)
Record props := mkProps { num_props : Z; prop_array : list prop }.

(** [struct ipa_ext_intf] *)
Record ext_props := mkExt { excp_pipe_valid : bool; ext_excp_pipe : Z; ext : props }.

(** [struct ipa_intf]; the arrays are in the memory of the kernel. *)
Record ipa_intf := mkIntf {
  name : list Z;
  num_tx_props : Z;
  num_rx_props : Z;
  num_ext_props : Z;
  tx_ptr : option positive;
  rx_ptr : option positive;
  ext_ptr : option positive;
  excp_pipe : Z;
}.

Record intf_state := mkIfSt {
  s_arrays : gmap positive (list prop);
  s_intfs : gmap positive ipa_intf;
  intf_list : list positive;
  s_time : nat;
}.

(** [kmalloc] *)
Record intf_env := mkIfEnv { if_alloc : intf_state → option positive }.

Abbreviation IM := (M intf_state).

Definition if_tick (s : intf_state) : intf_state :=
  mkIfSt (s_arrays s) (s_intfs s) (intf_list s) (S (s_time s)).
Definition with_arrays (a : gmap positive (list prop)) (s : intf_state) : intf_state :=
  mkIfSt a (s_intfs s) (intf_list s) (s_time s).
Definition with_intfs (i : gmap positive ipa_intf) (s : intf_state) : intf_state :=
  mkIfSt (s_arrays s) i (intf_list s) (s_time s).
Definition with_list (l : list positive) (s : intf_state) : intf_state :=
  mkIfSt (s_arrays s) (s_intfs s) l (s_time s).

Definition intf_at (p : positive) : IM ipa_intf := s ← get; of_option (s_intfs s !! p).
Definition upd_intf (p : positive) (f : ipa_intf → ipa_intf) : IM () :=
  e ← intf_at p; modify (λ s, with_intfs (<[p := f e]> (s_intfs s)) s).
Definition free_intf (p : positive) : IM () :=
  intf_at p ;; modify (λ s, with_intfs (delete p (s_intfs s)) s).
Definition free_array (o : option positive) : IM () :=
  match o with
  | None => mret ()
  | Some p => s ← get; of_option (s_arrays s !! p) ;; put (with_arrays (delete p (s_arrays s)) s)
  end.

Definition set_excp (c : Z) (i : ipa_intf) : ipa_intf :=
  mkIntf (name i) (num_tx_props i) (num_rx_props i) (num_ext_props i) (tx_ptr i) (rx_ptr i)
    (ext_ptr i) c.
Definition set_tx (n : Z) (p : option positive) (i : ipa_intf) : ipa_intf :=
  mkIntf (name i) n (num_rx_props i) (num_ext_props i) p (rx_ptr i) (ext_ptr i) (excp_pipe i).
Definition set_rx (n : Z) (p : option positive) (i : ipa_intf) : ipa_intf :=
  mkIntf (name i) (num_tx_props i) n (num_ext_props i) (tx_ptr i) p (ext_ptr i) (excp_pipe i).
Definition set_ext (n : Z) (p : option positive) (i : ipa_intf) : ipa_intf :=
  mkIntf (name i) (num_tx_props i) (num_rx_props i) n (tx_ptr i) (rx_ptr i) p (excp_pipe i).

Section Interfaces.
Context (E : intf_env).

Definition if_kmalloc : IM (option positive) :=
  s ← get; put (if_tick s) ;; mret (if_alloc E s).

(** [kmemdup(arr, num * sizeof)]: reading more elements than there are is undefined. *)
Definition if_kmemdup (p : props) : IM (option positive) :=
  o ← if_kmalloc;
  match o with
  | None => mret None
  | Some q =>
      when (Z.of_nat (length (prop_array p)) <? num_props p) UB ;;
      modify (λ s, with_arrays (<[q := take (Z.to_nat (num_props p)) (prop_array p)]> (s_arrays s)) s) ;;
      mret (Some q)
  end.

(** One of the three blocks that copy properties: whether there was memory. *)
Definition copy_props (o : option props) (set : Z → option positive → ipa_intf → ipa_intf)
    (p : positive) : IM bool :=
  match o with
  | None => mret true
  | Some ps =>
      q ← if_kmemdup ps;
      upd_intf p (set (num_props ps) q) ;;
      mret (bool_decide (is_Some q))
  end.

Definition too_many (o : option props) : bool :=
  match o with Some ps => num_props ps >? IPA_NUM_PROPS_MAX | None => false end.

(** The registration from the allocation on. *)
Definition register_new (nm : list Z) (tx rx : option props) (ex : option ext_props) : IM Z :=
  intf ← if_kmalloc;
  match intf with
  | None => mret (- ENOMEM)
  | Some p =>
      nm ← of_option (strlcpy_name nm);
      modify (λ s, with_intfs (<[p := mkIntf nm 0 0 0 None None None 0]> (s_intfs s)) s) ;;
      ok ← copy_props tx set_tx p;
      if negb ok then free_intf p ;; mret (- ENOMEM)
      else
        ok ← copy_props rx set_rx p;
        e ← intf_at p;
        if negb ok then free_array (tx_ptr e) ;; free_intf p ;; mret (- ENOMEM)
        else
          ok ← copy_props (ext <$> ex) set_ext p;
          e ← intf_at p;
          if negb ok then
            free_array (rx_ptr e) ;; free_array (tx_ptr e) ;; free_intf p ;; mret (- ENOMEM)
          else
            upd_intf p (set_excp (match ex with
                                  | Some x => if excp_pipe_valid x then ext_excp_pipe x
                                              else IPA_CLIENT_APPS_LAN_CONS
                                  | None => IPA_CLIENT_APPS_LAN_CONS
                                  end)) ;;
            modify (λ s, with_list (intf_list s ++ [p]) s) ;; mret 0
  end.

Definition ipa2_register_intf_ext (nm : option (list Z)) (tx rx : option props)
    (ex : option ext_props) : IM Z :=
  match nm with
  | None => mret (- EINVAL)
  | Some nm =>
      if negb (bool_decide (is_Some tx)) && negb (bool_decide (is_Some rx))
         && negb (bool_decide (is_Some ex)) then mret (- EINVAL)
      else if too_many tx then mret (- EINVAL)
      else if too_many rx then mret (- EINVAL)
      else if too_many (ext <$> ex) then mret (- EINVAL)
      else register_new nm tx rx ex
  end.

Definition ipa2_register_intf (nm : option (list Z)) (tx rx : option props) : IM Z :=
  ipa2_register_intf_ext nm tx rx None.

(** The loops over the list: the first entry of that name. *)
Fixpoint find_intf (nm : list Z) (l : list positive) : IM (option positive) :=
  match l with
  | [] => mret None
  | p :: l =>
      e ← intf_at p;
      same ← of_option (str_same (name e) nm);
      if (same : bool) then mret (Some p) else find_intf nm l
  end.

Definition ipa2_deregister_intf (nm : option (list Z)) : IM Z :=
  match nm with
  | None => mret (- EINVAL)
  | Some nm =>
      s ← get;
      o ← find_intf nm (intf_list s);
      match o with
      | None => mret (- EINVAL)
      | Some p =>
          modify (λ s, with_list (filter (λ q, q ≠ p) (intf_list s)) s) ;;
          e ← intf_at p;
          free_array (ext_ptr e) ;; free_array (rx_ptr e) ;; free_array (tx_ptr e) ;;
          free_intf p ;; mret 0
      end
  end.

(** [struct ipa_ioc_query_intf]: on success the numbers of properties and the pipe. *)
Definition ipa_query_intf (nm : list Z) : IM (Z * option (Z * Z * Z * Z)) :=
  nm ← of_option (store_z nm 31 0);
  s ← get;
  o ← find_intf nm (intf_list s);
  match o with
  | None => mret (- EINVAL, None)
  | Some p =>
      e ← intf_at p;
      mret (0, Some (num_tx_props e, num_rx_props e, num_ext_props e, excp_pipe e))
  end.

(** [memcpy(dst, entry->tx, num * sizeof)] into [room] elements; of 0 elements it does nothing. *)
Definition copy_out (o : option positive) (num : Z) (room : nat) : IM (list prop) :=
  if num =? 0 then mret []
  else
    p ← of_option o; s ← get; a ← of_option (s_arrays s !! p);
    if ((length a <? Z.to_nat num) || (room <? Z.to_nat num))%nat then UB
    else mret (take (Z.to_nat num) a).

Inductive kind := Tx | Rx | Ext.
Definition kind_num (k : kind) (e : ipa_intf) : Z :=
  match k with Tx => num_tx_props e | Rx => num_rx_props e | Ext => num_ext_props e end.
Definition kind_ptr (k : kind) (e : ipa_intf) : option positive :=
  match k with Tx => tx_ptr e | Rx => rx_ptr e | Ext => ext_ptr e end.

Definition query_props (k : kind) (nm : list Z) (num : Z) (room : nat) : IM (Z * list prop) :=
  s ← get;
  o ← find_intf nm (intf_list s);
  match o with
  | None => mret (- EINVAL, [])
  | Some p =>
      e ← intf_at p;
      if negb (kind_num k e =? num) then mret (- EINVAL, [])
      else a ← copy_out (kind_ptr k e) (kind_num k e) room; mret (0, a)
  end.

(** [room]: the elements that the buffer after the header has. *)
Definition ipa_query_intf_tx_props (nm : list Z) (num : Z) (room : nat) : IM (Z * list prop) :=
  nm ← of_option (store_z nm 31 0); query_props Tx nm num room.
Definition ipa_query_intf_rx_props (nm : list Z) (num : Z) (room : nat) : IM (Z * list prop) :=
  nm ← of_option (store_z nm 31 0); query_props Rx nm num room.
(** This one does not end the name. *)
Definition ipa_query_intf_ext_props (nm : list Z) (num : Z) (room : nat) : IM (Z * list prop) :=
  query_props Ext nm num room.

Definition ipa_query_props (k : kind) : list Z → Z → nat → IM (Z * list prop) :=
  match k with
  | Tx => ipa_query_intf_tx_props
  | Rx => ipa_query_intf_rx_props
  | Ext => ipa_query_intf_ext_props
  end.

(** The three cases of [ipa_ioctl]: name and number are read twice from user space; the second
    reading takes as many elements as the first one named. [copied]: [copy_to_user] succeeds. *)
Definition ioctl_query_props (k : kind) (header : option (list Z * Z))
    (param : option (list Z * Z)) (copied : bool) : IM (Z * list prop) :=
  match header with
  | None => mret (- EFAULT, [])
  | Some (_, pre_entry) =>
      if pre_entry >? IPA_NUM_PROPS_MAX then mret (- EFAULT, [])
      else
        match param with
        | None => mret (- ENOMEM, [])
        | Some (nm, num) =>
            if negb (num =? pre_entry) then mret (- EFAULT, [])
            else
              '(r, a) ← ipa_query_props k nm num (Z.to_nat pre_entry);
              if negb (r =? 0) then mret (-1, [])
              else if negb copied then mret (- EFAULT, []) else mret (0, a)
        end
  end.
End Interfaces.

Definition intf_state0 : intf_state := mkIfSt ∅ ∅ [] 0.
End Interfaces.

Module Messages.

Definition WLAN_CLIENT_DISCONNECT : Z := 1.
Definition WLAN_CLIENT_CONNECT_EX : Z := 10.
Definition WAN_UPSTREAM_ROUTE_ADD : Z := 15.
Definition WAN_UPSTREAM_ROUTE_DEL : Z := 16.
Definition WAN_EMBMS_CONNECT : Z := 17.
Definition IPA_EVENT_MAX_NUM : Z := 41.
Definition WLAN_HDR_ATTRIB_MAC_ADDR : Z := 0.
Definition IPA_MAX_NUM_REQ_CACHE : Z := 10.
Definition EAGAIN : Z := 11.
Definition EINTR : Z := 4.

(** The sizes of [struct ipa_msg_meta] and [struct ipa_wan_msg]. *)
Definition sizeof_meta : Z := 4.
Definition sizeof_wan_msg : Z := 88.

(** [struct ipa_msg_meta] *)
Record ipa_msg_meta := mkMeta { msg_type : Z; rsvd : Z; msg_len : Z }.

(** The functions that free the payload of a message: the two of this program, and those of
    other clients, which by [ipa2_send_msg]'s contract free it. *)
Inductive ipa_msg_free_fn :=
  | Ipa2SendMsgFree
  | IpaWanMsgFreeCb
  | ClientFree.

(** [struct ipa_push_msg] *)
Record ipa_push_msg := mkPush {
  meta : ipa_msg_meta;
  callback : option ipa_msg_free_fn;
  buff : option positive;
}.

(** [struct ipa_pull_msg]; the function of a client is known by a number. *)
Record ipa_pull_msg := mkPull { pull_meta : ipa_msg_meta; pull_callback : nat }.

Inductive mutex := MsgLock | WlanLock | CneLock.
#[global] Instance mutex_eq_dec : EqDecision mutex.
Proof. solve_decision. Defined.

Inductive lock_op := Acquire (l : mutex) | Release (l : mutex).

(** [q_locks]: the operations on mutexes, latest first. [q_cne]: [ipa_cne_evt_req_cache]. *)
Record msg_state := mkMsgSt {
  q_bufs : gmap positive (list Z);
  q_msgs : gmap positive ipa_push_msg;
  msg_list : list positive;
  msg_wlan_client_list : list positive;
  pull_msg_list : list ipa_pull_msg;
  msg_w : list Z;
  msg_r : list Z;
  q_cne : list (option (list Z * ipa_msg_meta));
  num_ipa_cne_evt_req : Z;
  q_held : list mutex;
  q_locks : list lock_op;
  q_time : nat;
}.

(** The answers of the kernel: [kmalloc], whether a copy to user space succeeds, whether a
    signal is pending; and of clients, who fill a pulled message. *)
Record msg_env := mkMsgEnv {
  env_alloc : msg_state → option positive;
  env_copy : msg_state → bool;
  env_signal : msg_state → bool;
  env_pull : nat → msg_state → Z → Z → Z * list Z;
}.

Abbreviation MM := (M msg_state).

Definition m_tick (s : msg_state) : msg_state :=
  mkMsgSt (q_bufs s) (q_msgs s) (msg_list s) (msg_wlan_client_list s) (pull_msg_list s) (msg_w s)
    (msg_r s) (q_cne s) (num_ipa_cne_evt_req s) (q_held s) (q_locks s) (S (q_time s)).
Definition with_bufs (b : gmap positive (list Z)) (s : msg_state) : msg_state :=
  mkMsgSt b (q_msgs s) (msg_list s) (msg_wlan_client_list s) (pull_msg_list s) (msg_w s)
    (msg_r s) (q_cne s) (num_ipa_cne_evt_req s) (q_held s) (q_locks s) (q_time s).
Definition with_msgs (b : gmap positive ipa_push_msg) (s : msg_state) : msg_state :=
  mkMsgSt (q_bufs s) b (msg_list s) (msg_wlan_client_list s) (pull_msg_list s) (msg_w s)
    (msg_r s) (q_cne s) (num_ipa_cne_evt_req s) (q_held s) (q_locks s) (q_time s).
Definition with_msg_list (l : list positive) (s : msg_state) : msg_state :=
  mkMsgSt (q_bufs s) (q_msgs s) l (msg_wlan_client_list s) (pull_msg_list s) (msg_w s)
    (msg_r s) (q_cne s) (num_ipa_cne_evt_req s) (q_held s) (q_locks s) (q_time s).
Definition with_wlan_list (l : list positive) (s : msg_state) : msg_state :=
  mkMsgSt (q_bufs s) (q_msgs s) (msg_list s) l (pull_msg_list s) (msg_w s)
    (msg_r s) (q_cne s) (num_ipa_cne_evt_req s) (q_held s) (q_locks s) (q_time s).
Definition with_pulls (l : list ipa_pull_msg) (s : msg_state) : msg_state :=
  mkMsgSt (q_bufs s) (q_msgs s) (msg_list s) (msg_wlan_client_list s) l (msg_w s)
    (msg_r s) (q_cne s) (num_ipa_cne_evt_req s) (q_held s) (q_locks s) (q_time s).
Definition with_stats (w r : list Z) (s : msg_state) : msg_state :=
  mkMsgSt (q_bufs s) (q_msgs s) (msg_list s) (msg_wlan_client_list s) (pull_msg_list s) w
    r (q_cne s) (num_ipa_cne_evt_req s) (q_held s) (q_locks s) (q_time s).
Definition with_cne (c : list (option (list Z * ipa_msg_meta))) (n : Z) (s : msg_state) : msg_state :=
  mkMsgSt (q_bufs s) (q_msgs s) (msg_list s) (msg_wlan_client_list s) (pull_msg_list s) (msg_w s)
    (msg_r s) c n (q_held s) (q_locks s) (q_time s).
Definition with_locks (h : list mutex) (l : list lock_op) (s : msg_state) : msg_state :=
  mkMsgSt (q_bufs s) (q_msgs s) (msg_list s) (msg_wlan_client_list s) (pull_msg_list s) (msg_w s)
    (msg_r s) (q_cne s) (num_ipa_cne_evt_req s) h l (q_time s).

(** ** Memory and mutexes *)

Definition buf_at (p : positive) : MM (list Z) := s ← get; of_option (q_bufs s !! p).
Definition msg_at (p : positive) : MM ipa_push_msg := s ← get; of_option (q_msgs s !! p).
Definition free_buf (p : positive) : MM () :=
  buf_at p ;; modify (λ s, with_bufs (delete p (q_bufs s)) s).
Definition free_msg (p : positive) : MM () :=
  msg_at p ;; modify (λ s, with_msgs (delete p (q_msgs s)) s).

(** A thread that takes a mutex it holds, or gives back one it does not, is stuck. *)
Definition mutex_lock (l : mutex) : MM () :=
  s ← get;
  if decide (l ∈ q_held s) then UB
  else put (with_locks (l :: q_held s) (Acquire l :: q_locks s) s).
Definition mutex_unlock (l : mutex) : MM () :=
  s ← get;
  if decide (l ∈ q_held s)
  then put (with_locks (filter (λ k, k ≠ l) (q_held s)) (Release l :: q_locks s) s)
  else UB.

(** [IPA_STATS_INC_CNT] *)
Definition inc_stat (l : list Z) (t : Z) : option (list Z) :=
  n ← lookup_z l t; store_z l t (u32 (n + 1)).

(** ** The payloads of wlan messages

    [struct ipa_wlan_msg_ex]: the number of attributes at 32, the attributes from 36, of 12 bytes
    each: the type in 4 bytes, the address at 5. [struct ipa_wlan_msg]: the address at 32. *)
Definition num_of_attribs (b : list Z) : option Z := le_bytes b 32 1.
Definition attrib_type (b : list Z) (cnt : nat) : option Z := le_bytes b (36 + 12 * cnt) 4.
Definition read_mac (b : list Z) (o : nat) : option (list Z) :=
  if (o + 6 <=? length b)%nat then Some (take 6 (drop o b)) else None.
Definition attrib_mac (b : list Z) (cnt : nat) : option (list Z) := read_mac b (36 + 12 * cnt + 5).
Definition discon_mac (b : list Z) : option (list Z) := read_mac b 32.

(** The loop that prints the addresses: it reads every attribute. *)
Fixpoint print_macs (b : list Z) (n cnt : nat) : option () :=
  match n with
  | O => Some ()
  | S n =>
      t ← attrib_type b cnt;
      (if t =? WLAN_HDR_ATTRIB_MAC_ADDR then attrib_mac b cnt ;; Some () else Some ()) ;;
      print_macs b n (S cnt)
  end.

(** The loop over the attributes of a cached client: whether it has the address. *)
Fixpoint has_mac (b mac2 : list Z) (n cnt : nat) : option bool :=
  match n with
  | O => Some false
  | S n =>
      mac ← attrib_mac b cnt;
      t ← attrib_type b cnt;
      if (t =? WLAN_HDR_ATTRIB_MAC_ADDR) && bool_decide (mac2 = mac) then Some true
      else has_mac b mac2 n (S cnt)
  end.

Section Messages.
Context (E : msg_env).

Definition ask {A} (f : msg_state → A) : MM A := s ← get; put (m_tick s) ;; mret (f s).

(** [kzalloc(sizeof(struct ipa_push_msg))] *)
Definition alloc_msg : MM (option positive) :=
  o ← ask (env_alloc E);
  match o with
  | None => mret None
  | Some p =>
      modify (λ s, with_msgs (<[p := mkPush (mkMeta 0 0 0) None None]> (q_msgs s)) s) ;;
      mret (Some p)
  end.
Definition put_msg (p : positive) (m : ipa_push_msg) : MM () :=
  msg_at p ;; modify (λ s, with_msgs (<[p := m]> (q_msgs s)) s).

Definition alloc_buf (l : list Z) : MM (option positive) :=
  o ← ask (env_alloc E);
  match o with
  | None => mret None
  | Some p => modify (λ s, with_bufs (<[p := l]> (q_bufs s)) s) ;; mret (Some p)
  end.

(** [kmemdup(buff, len)] *)
Definition kmemdup (o : option positive) (len : Z) : MM (option positive) :=
  p ← of_option o; b ← buf_at p;
  when (Z.of_nat (length b) <? len) UB ;;
  alloc_buf (take (Z.to_nat len) b).

(** The metadata and a copy of the payload are put into a new message; [fail] cleans up when
    there is no memory for the copy. Whether it failed. *)
Definition fill_msg (p : positive) (m : ipa_msg_meta) (bf : option positive) (fail : MM ()) : MM bool :=
  if (msg_len m >? 0) && bool_decide (is_Some bf) then
    d ← kmemdup bf (msg_len m);
    match d with
    | None => fail ;; mret true
    | Some d => put_msg p (mkPush m (Some Ipa2SendMsgFree) (Some d)) ;; mret false
    end
  else put_msg p (mkPush m None None) ;; mret false.

Definition run_free (f : ipa_msg_free_fn) (b : option positive) (type : Z) : MM () :=
  match f, b with
  | IpaWanMsgFreeCb, None => mret ()
  | IpaWanMsgFreeCb, Some p =>
      if (type =? WAN_UPSTREAM_ROUTE_ADD) || (type =? WAN_UPSTREAM_ROUTE_DEL)
         || (type =? WAN_EMBMS_CONNECT)
      then free_buf p else mret ()
  | _, None => mret ()
  | _, Some p => free_buf p
  end.

(** ** The cache of wlan clients *)

(** One turn of the loop of a disconnection: the entry goes, its payload stays allocated. *)
Definition uncache (mac2 : list Z) (p : positive) : MM () :=
  e ← msg_at p;
  q ← of_option (buff e); b ← buf_at q;
  max ← of_option (num_of_attribs b);
  found ← of_option (has_mac b mac2 (Z.to_nat max) 0);
  when found
    (modify (λ s, with_wlan_list (filter (λ x, x ≠ p) (msg_wlan_client_list s)) s) ;; free_msg p).

Fixpoint uncache_all (mac2 : list Z) (l : list positive) : MM () :=
  match l with [] => mret () | p :: l => uncache mac2 p ;; uncache_all mac2 l end.

(** The branch of [WLAN_CLIENT_CONNECT_EX]: whether it failed. *)
Definition cache_client (m : ipa_msg_meta) (bf : option positive) : MM bool :=
  q ← of_option bf; b ← buf_at q;
  n ← of_option (num_of_attribs b);
  of_option (print_macs b (Z.to_nat n) 0) ;;
  mutex_lock WlanLock ;;
  o ← alloc_msg;
  match o with
  | None => mutex_unlock WlanLock ;; mret true
  | Some p =>
      failed ← fill_msg p m bf (free_msg p ;; mutex_unlock WlanLock);
      if (failed : bool) then mret true
      else
        modify (λ s, with_wlan_list (msg_wlan_client_list s ++ [p]) s) ;;
        mutex_unlock WlanLock ;; mret false
  end.

Definition wlan_msg_process (m : ipa_msg_meta) (bf : option positive) : MM Z :=
  failed ← (if msg_type m =? WLAN_CLIENT_CONNECT_EX then cache_client m bf else mret false);
  if (failed : bool) then mret (- ENOMEM)
  else
    when (msg_type m =? WLAN_CLIENT_DISCONNECT)
      (q ← of_option bf; b ← buf_at q;
       mac2 ← of_option (discon_mac b);
       mutex_lock WlanLock ;;
       s ← get;
       uncache_all mac2 (msg_wlan_client_list s) ;;
       mutex_unlock WlanLock) ;;
    mret 0.

(** ** Sending *)

Definition ipa2_send_msg (mo : option ipa_msg_meta) (bf : option positive)
    (cb : option ipa_msg_free_fn) : MM Z :=
  match mo, bf, cb with
  | None, _, _ | _, None, Some _ | _, Some _, None => mret (- EINVAL)
  | Some m, _, _ =>
      if msg_type m >=? IPA_EVENT_MAX_NUM then mret (- EINVAL)
      else
        o ← alloc_msg;
        match o with
        | None => mret (- ENOMEM)
        | Some p =>
            failed ← fill_msg p m bf (free_msg p);
            if (failed : bool) then mret (- ENOMEM)
            else
              mutex_lock MsgLock ;;
              modify (λ s, with_msg_list (msg_list s ++ [p]) s) ;;
              wlan_msg_process m bf ;;
              mutex_unlock MsgLock ;;
              s ← get; w ← of_option (inc_stat (msg_w s) (msg_type m));
              modify (with_stats w (msg_r s)) ;;
              match bf, cb with
              | Some _, Some f => run_free f bf (msg_type m)
              | _, _ => mret ()
              end ;;
              mret 0
        end
  end.

(** One turn of the loop of [ipa2_resend_wlan_msg]: whether an allocation failed. *)
Definition resend_one (p : positive) : MM bool :=
  e ← msg_at p;
  q ← of_option (buff e); b ← buf_at q;
  n ← of_option (num_of_attribs b);
  of_option (print_macs b (Z.to_nat n) 0) ;;
  o ← alloc_msg;
  match o with
  | None => mret true
  | Some x =>
      d ← kmemdup (buff e) (msg_len (meta e));
      match d with
      | None => free_msg x ;; mret true
      | Some d =>
          put_msg x (mkPush (meta e) (Some Ipa2SendMsgFree) (Some d)) ;;
          mutex_lock MsgLock ;;
          modify (λ s, with_msg_list (msg_list s ++ [x]) s) ;;
          mutex_unlock MsgLock ;; mret false
      end
  end.

Fixpoint resend_all (l : list positive) : MM bool :=
  match l with
  | [] => mret false
  | p :: l => failed ← resend_one p; if (failed : bool) then mret true else resend_all l
  end.

Definition ipa2_resend_wlan_msg : MM Z :=
  mutex_lock WlanLock ;;
  s ← get;
  failed ← resend_all (msg_wlan_client_list s);
  mutex_unlock WlanLock ;;
  mret (if (failed : bool) then - ENOMEM else 0).

(** ** Reading *)

(** The bytes of the metadata. *)
Definition meta_bytes (m : ipa_msg_meta) : list Z :=
  [msg_type m; rsvd m; msg_len m mod 256; msg_len m / 256].

(** A message that was taken off the queue: [None] after an error. *)
Definition deliver (p : positive) (count : Z) : MM (option (list Z)) :=
  e ← msg_at p;
  if count <? sizeof_meta then free_msg p ;; mret None
  else
    ok ← ask (env_copy E);
    if negb ok then free_msg p ;; mret None
    else
      let count := count - sizeof_meta in
      out ← match buff e with
            | None => mret (Some (meta_bytes (meta e)))
            | Some q =>
                if count >=? msg_len (meta e) then
                  b ← buf_at q;
                  when (Z.of_nat (length b) <? msg_len (meta e)) UB ;;
                  ok ← ask (env_copy E);
                  if negb ok then free_msg p ;; mret None
                  else
                    f ← of_option (callback e);
                    run_free f (buff e) (msg_type (meta e)) ;;
                    mret (Some (meta_bytes (meta e) ++ take (Z.to_nat (msg_len (meta e))) b))
                else free_msg p ;; mret None
            end;
      match out with
      | None => mret None
      | Some out =>
          s ← get; r ← of_option (inc_stat (msg_r s) (msg_type (meta e)));
          modify (with_stats (msg_w s) r) ;;
          free_msg p ;; mret (Some out)
      end.

(** One turn of the loop of [ipa_read]: the result with what user space got, or [None] when the
    reader goes to sleep. A turn that delivered a message always ends the loop, and with the
    bytes as its result, since [start != buf]. *)
Definition read_turn (nonblock : bool) (count : Z) : MM (option (Z * list Z)) :=
  mutex_lock MsgLock ;;
  s ← get;
  match msg_list s with
  | p :: l =>
      modify (with_msg_list l) ;;
      mutex_unlock MsgLock ;;
      out ← deliver p count;
      match out with
      | None => mret (Some (- EFAULT, []))
      | Some out => mret (Some (Z.of_nat (length out), out))
      end
  | [] =>
      signal ← ask (env_signal E);
      if nonblock then mutex_unlock MsgLock ;; mret (Some (- EAGAIN, []))
      else if (signal : bool) then mutex_unlock MsgLock ;; mret (Some (- EINTR, []))
      else mutex_unlock MsgLock ;; mret None
  end.

(** [waits]: what runs during each sleep of the reader. [None]: it is still asleep. *)
Fixpoint ipa_read (waits : list (MM ())) (nonblock : bool) (count : Z) : MM (option (Z * list Z)) :=
  r ← read_turn nonblock count;
  match r, waits with
  | Some r, _ => mret (Some r)
  | None, [] => mret None
  | None, w :: waits => w ;; ipa_read waits nonblock count
  end.

(** ** Messages that are pulled *)

Definition ipa2_register_pull_msg (mo : option ipa_msg_meta) (cb : option nat) : MM Z :=
  match mo, cb with
  | Some m, Some f =>
      o ← ask (env_alloc E);
      match o with
      | None => mret (- ENOMEM)
      | Some _ =>
          mutex_lock MsgLock ;;
          modify (λ s, with_pulls (pull_msg_list s ++ [mkPull m f]) s) ;;
          mutex_unlock MsgLock ;; mret 0
      end
  | _, _ => mret (- EINVAL)
  end.

Definition same_meta (m : ipa_msg_meta) (e : ipa_pull_msg) : bool :=
  (msg_len (pull_meta e) =? msg_len m) && (msg_type (pull_meta e) =? msg_type m).

Fixpoint remove_pull (m : ipa_msg_meta) (l : list ipa_pull_msg) : option (list ipa_pull_msg) :=
  match l with
  | [] => None
  | e :: l => if same_meta m e then Some l else l ← remove_pull m l; Some (e :: l)
  end.

Definition ipa2_deregister_pull_msg (mo : option ipa_msg_meta) : MM Z :=
  match mo with
  | None => mret (- EINVAL)
  | Some m =>
      mutex_lock MsgLock ;;
      s ← get;
      r ← match remove_pull m (pull_msg_list s) with
          | None => mret (- EINVAL)
          | Some l => modify (with_pulls l) ;; mret 0
          end;
      mutex_unlock MsgLock ;; mret r
  end.

(** The result and what the client wrote. *)
Definition ipa_pull_msg_from (m : ipa_msg_meta) (count : Z) : MM (Z * list Z) :=
  if count =? 0 then mret (- EINVAL, [])
  else
    mutex_lock MsgLock ;;
    s ← get;
    r ← match find (same_meta m) (pull_msg_list s) with
        | None => mret (- EINVAL, [])
        | Some e => ask (λ s, env_pull E (pull_callback e) s count (msg_type m))
        end;
    mutex_unlock MsgLock ;; mret r.

(** ** Messages about the uplink *)

(** [usr]: the message that [copy_from_user] reads. *)
Definition ipa_send_wan_msg (usr : option (list Z)) (type : Z) (is_cache : bool) : MM Z :=
  o ← alloc_buf (replicate (Z.to_nat sizeof_wan_msg) 0);
  match o with
  | None => mret (- ENOMEM)
  | Some wan_msg =>
      match usr with
      | None => free_buf wan_msg ;; mret (- EFAULT)
      | Some l =>
          buf_at wan_msg ;;
          modify (λ s, with_bufs (<[wan_msg := l]> (q_bufs s)) s) ;;
          let m := mkMeta type 0 sizeof_wan_msg in
          retval ← ipa2_send_msg (Some m) (Some wan_msg) (Some IpaWanMsgFreeCb);
          if negb (retval =? 0) then free_buf wan_msg ;; mret retval
          else
            when is_cache
              (mutex_lock CneLock ;;
               s ← get;
               c ← of_option (store_z (q_cne s) (num_ipa_cne_evt_req s) (Some (l, m)));
               modify (with_cne c ((num_ipa_cne_evt_req s + 1) mod IPA_MAX_NUM_REQ_CACHE)) ;;
               mutex_unlock CneLock) ;;
            mret 0
      end
  end.
End Messages.

Definition msg_state0 : msg_state :=
  mkMsgSt ∅ ∅ [] [] [] (replicate 41 0) (replicate 41 0) (replicate 10 None) 0 [] [] 0.
End Messages.
