(* ===== verification/IntfProps.v ===== *)
(** * IPA interfaces: properties

    The memory of the interfaces refines a table of names with their properties. *)

From S2P Require Import Prelude.
From S2P Require Import Intf.
Import Interfaces.

(** [kmalloc] returns memory that is not in use. *)
Record intf_env_ok (E : intf_env) : Prop := {
  law_fresh s p : if_alloc E s = Some p → s_arrays s !! p = None ∧ s_intfs s !! p = None;
}.
Existing Class intf_env_ok.

#[global] Instance kind_eq_dec : EqDecision kind.
Proof. solve_decision. Defined.

(** ** The table *)

Record iface := mkIface {
  f_name : list Z;
  f_tx : list prop;
  f_rx : list prop;
  f_ext : list prop;
  f_pipe : Z;
}.

Definition f_props (k : kind) (f : iface) : list prop :=
  match k with Tx => f_tx f | Rx => f_rx f | Ext => f_ext f end.

(** The array behind a pointer. *)
Definition arr (a : gmap positive (list prop)) (o : option positive) : list prop :=
  match o with None => [] | Some q => default [] (a !! q) end.

Definition iface_of (a : gmap positive (list prop)) (i : ipa_intf) : iface :=
  mkIface (c_str (name i)) (arr a (tx_ptr i)) (arr a (rx_ptr i)) (arr a (ext_ptr i)) (excp_pipe i).

(** What the memory stands for: the interfaces in the order of the list. *)
Definition view (s : intf_state) : list iface :=
  omap (λ p, iface_of (s_arrays s) <$> s_intfs s !! p) (intf_list s).

(** ** The invariant *)

Definition ptr_ok (a : gmap positive (list prop)) (n : Z) (o : option positive) : Prop :=
  match o with
  | None => n = 0
  | Some q => ∃ l, a !! q = Some l ∧ Z.of_nat (length l) = n ∧ n ≤ IPA_NUM_PROPS_MAX
  end.

Record if_inv (s : intf_state) : Prop := {
  if_nodup : NoDup (intf_list s);
  if_listed p : p ∈ intf_list s ↔ is_Some (s_intfs s !! p);
  if_name p i : s_intfs s !! p = Some i → length (name i) = IPA_NAME_MAX ∧ 0 ∈ name i;
  if_ptr p i k : s_intfs s !! p = Some i → ptr_ok (s_arrays s) (kind_num k i) (kind_ptr k i);
  if_owned q : is_Some (s_arrays s !! q) →
    ∃ p i k, s_intfs s !! p = Some i ∧ kind_ptr k i = Some q;
  if_unique p i k p' i' k' q :
    s_intfs s !! p = Some i → s_intfs s !! p' = Some i' →
    kind_ptr k i = Some q → kind_ptr k' i' = Some q → p = p' ∧ k = k';
}.

(** ** Names *)

Lemma strlcpy_name_spec src :
  0 ∈ src → ∃ n, strlcpy_name src = Some n ∧ length n = IPA_NAME_MAX ∧ 0 ∈ n ∧
                 c_str n = take 31 (c_str src).
Proof.
  intros H0. unfold strlcpy_name. rewrite decide_True by done.
  set (n := take (IPA_NAME_MAX - 1) (c_str src)).
  assert (length n ≤ 31)%nat as Hl by (unfold n, IPA_NAME_MAX; rewrite length_take; lia).
  eexists. split; [done|]. split; [rewrite length_app, length_replicate; unfold IPA_NAME_MAX; lia|].
  assert (∃ k, (IPA_NAME_MAX - length n = S k)%nat) as [k ->]
    by (exists (31 - length n)%nat; unfold IPA_NAME_MAX; lia).
  split; [apply elem_of_app; right; by left|].
  assert (∀ l, Forall (λ x, x ≠ 0) l → c_str (l ++ replicate (S k) 0) = l) as Happ.
  { induction 1 as [|x l Hx _ IH]; [done|]. cbn [app c_str]. by rewrite (proj2 (Z.eqb_neq x 0)), IH. }
  rewrite Happ; [done|]. apply Forall_take.
  clear. induction src as [|x l IH]; cbn; [constructor|]. destruct (Z.eqb_spec x 0); by constructor.
Qed.

(** ** Runs *)

Section Runs.
Context (E : intf_env) {HE : intf_env_ok E}.
Implicit Types s : intf_state.

(** One set of properties was copied into new memory. *)
Definition added (o : option props) (n : Z) (ptr : option positive)
    (a a' : gmap positive (list prop)) : Prop :=
  match o with
  | None => ptr = None ∧ n = 0 ∧ a' = a
  | Some ps => n = num_props ps ∧ ∃ q, ptr = Some q ∧ a !! q = None ∧
                 a' = <[q := take (Z.to_nat (num_props ps)) (prop_array ps)]> a
  end.

Definition props_ok (o : option props) : Prop :=
  match o with
  | None => True
  | Some ps => 0 ≤ num_props ps ≤ Z.of_nat (length (prop_array ps))
  end.

Lemma wp_kmemdup ps s Q :
  props_ok (Some ps) →
  Q None (if_tick s) →
  (∀ q, s_arrays s !! q = None → s_intfs s !! q = None →
     Q (Some q) (with_arrays (<[q := take (Z.to_nat (num_props ps)) (prop_array ps)]> (s_arrays s))
                  (if_tick s))) →
  wp (if_kmemdup E ps) Q s.
Proof using HE.
  intros Hok H0 H1. unfold if_kmemdup, if_kmalloc. wp_steps.
  destruct (if_alloc E s) as [q|] eqn:Ha; wp_steps; [|done].
  destruct (law_fresh E HE s q Ha). cbn in Hok. rewrite (proj2 (Z.ltb_ge _ _)) by lia.
  wp_steps. cbn. wp_steps. by apply H1.
Qed.

Lemma wp_intf_at p i s (Q : ipa_intf → intf_state → Prop) :
  s_intfs s !! p = Some i → Q i s → wp (intf_at p) Q s.
Proof. intros Hp HQ. unfold intf_at. wp_step. wp_step. cbn beta. by rewrite Hp. Qed.

Lemma wp_upd_intf p i f s (Q : () → intf_state → Prop) :
  s_intfs s !! p = Some i → Q () (with_intfs (<[p := f i]> (s_intfs s)) s) → wp (upd_intf p f) Q s.
Proof. intros Hp HQ. unfold upd_intf, intf_at. wp_steps. by wp_steps. Qed.

Lemma wp_free_array o s (Q : () → intf_state → Prop) :
  (∀ q, o = Some q → is_Some (s_arrays s !! q)) →
  Q () (with_arrays (match o with None => s_arrays s | Some q => delete q (s_arrays s) end) s) →
  wp (free_array o) Q s.
Proof.
  intros Hq HQ. destruct o as [q|]; [|apply wp_ret; by destruct s].
  destruct (Hq q eq_refl) as [l Hl]. unfold free_array. wp_step. wp_step. wp_step. rewrite Hl.
  by apply wp_ret.
Qed.

Lemma wp_free_intf p i s (Q : () → intf_state → Prop) :
  s_intfs s !! p = Some i → Q () (with_intfs (delete p (s_intfs s)) s) → wp (free_intf p) Q s.
Proof. intros Hp HQ. unfold free_intf, intf_at. wp_steps. by wp_steps. Qed.

(** One block of the registration: the counter and the pointer of the new interface are set,
    the pointer to null when there was no memory. *)
Lemma wp_copy_props o set p i s Q :
  props_ok o → s_intfs s !! p = Some i → set 0 None i = i →
  (∀ n s', s_arrays s' = s_arrays s → intf_list s' = intf_list s →
     s_intfs s' = <[p := set n None i]> (s_intfs s) → Q false s') →
  (∀ n ptr s', added o n ptr (s_arrays s) (s_arrays s') → intf_list s' = intf_list s →
     s_intfs s' = <[p := set n ptr i]> (s_intfs s) → Q true s') →
  wp (copy_props E o set p) Q s.
Proof using HE.
  intros Hok Hp Hset H1 H2. unfold copy_props. destruct o as [ps|].
  2:{ apply wp_ret, (H2 0 None); [done|done|]. by rewrite Hset, insert_id. }
  wp_step. apply wp_kmemdup; [done| |].
  - wp_step. eapply wp_upd_intf; [exact Hp|]. apply wp_ret. by eapply H1.
  - intros q Hq Hq'. wp_step. eapply wp_upd_intf; [exact Hp|]. apply wp_ret.
    rewrite bool_decide_true by eauto. eapply H2; [|done|done]. split; [done|]. by exists q.
Qed.

(** The outcomes of a registration. *)
Definition new_pipe (ex : option ext_props) : Z :=
  match ex with
  | Some x => if excp_pipe_valid x then ext_excp_pipe x else IPA_CLIENT_APPS_LAN_CONS
  | None => IPA_CLIENT_APPS_LAN_CONS
  end.
Definition registered (nm : list Z) (tx rx : option props) (ex : option ext_props)
    (s s' : intf_state) : Prop :=
  ∃ p i a1 a2, strlcpy_name nm = Some (name i) ∧ s_intfs s !! p = None ∧
    added tx (num_tx_props i) (tx_ptr i) (s_arrays s) a1 ∧
    added rx (num_rx_props i) (rx_ptr i) a1 a2 ∧
    added (ext <$> ex) (num_ext_props i) (ext_ptr i) a2 (s_arrays s') ∧
    excp_pipe i = new_pipe ex ∧ s_intfs s' = <[p := i]> (s_intfs s) ∧
    intf_list s' = intf_list s ++ [p].

Lemma delete_added (o : option props) n ptr a a' :
  added o n ptr a a' →
  match ptr with None => a' | Some q => delete q a' end = a ∧
  (∀ q, ptr = Some q → is_Some (a' !! q)).
Proof.
  destruct o as [ps|]; cbn.
  - intros (_ & q & -> & Hq & ->). split; [by rewrite delete_insert_id|].
    intros q' [= <-]. rewrite lookup_insert_eq. eauto.
  - intros (-> & _ & ->). done.
Qed.

Lemma wp_register_new nm tx rx ex s :
  0 ∈ nm → props_ok tx → props_ok rx → props_ok (ext <$> ex) →
  wp (register_new E nm tx rx ex)
     (λ r s', r = - ENOMEM ∧ s_arrays s' = s_arrays s ∧ s_intfs s' = s_intfs s ∧
              intf_list s' = intf_list s ∨
              r = 0 ∧ registered nm tx rx ex s s') s.
Proof using HE.
  intros Hn Htx Hrx Hex. unfold register_new, if_kmalloc. wp_steps.
  destruct (if_alloc E s) as [p|] eqn:Ha; [|apply wp_ret; by left].
  destruct (law_fresh E HE s p Ha) as [_ Hp].
  destruct (strlcpy_name_spec nm Hn) as (n & Hnm & _). wp_step. rewrite Hnm. apply wp_ret.
  wp_step. wp_step. set (i0 := mkIntf n 0 0 0 None None None 0).
  set (s0 := with_intfs _ _).
  assert (s_intfs s0 = <[p := i0]> (s_intfs s)) as H0 by done.
  assert (s_arrays s0 = s_arrays s) as H0a by done.
  assert (intf_list s0 = intf_list s) as H0l by done. clearbody s0.
  wp_step. apply (wp_copy_props tx set_tx p i0); [done|by rewrite H0, lookup_insert_eq|done| |].
  { intros m s1 H1a H1l H1. cbn [negb]. wp_step.
    eapply wp_free_intf; [by rewrite H1, lookup_insert_eq|]. apply wp_ret. left. cbn.
    rewrite H1a, H1l, H1, H0. split; [done|]. split; [done|]. split; [|done].
    by rewrite insert_insert_eq, delete_insert_id. }
  intros n1 t1 s1 Hadd1 H1l H1. cbn [negb]. rewrite H0, insert_insert_eq in H1.
  rewrite H0a in Hadd1. set (i1 := set_tx n1 t1 i0) in *.
  wp_step. apply (wp_copy_props rx set_rx p i1); [done|by rewrite H1, lookup_insert_eq|done| |].
  { intros m s2 H2a H2l H2. cbn beta. wp_step.
    eapply wp_intf_at; [by rewrite H2, lookup_insert_eq|]. cbn [negb].
    destruct (delete_added _ _ _ _ _ Hadd1) as [Hdel Hsome].
    wp_step. apply wp_free_array; [cbn; by rewrite H2a|]. wp_step.
    eapply wp_free_intf; [cbn; by rewrite H2, lookup_insert_eq|]. apply wp_ret. left. cbn.
    rewrite H2a, Hdel, H2, H1, H2l, H1l. split; [done|]. split; [done|]. split; [|done].
    by rewrite insert_insert_eq, delete_insert_id. }
  intros n2 t2 s2 Hadd2 H2l H2. cbn beta. rewrite H1, insert_insert_eq in H2.
  set (i2 := set_rx n2 t2 i1) in *. wp_step.
  eapply wp_intf_at; [by rewrite H2, lookup_insert_eq|]. cbn [negb].
  wp_step. apply (wp_copy_props (ext <$> ex) set_ext p i2); [done|by rewrite H2, lookup_insert_eq|done| |].
  { intros m s3 H3a H3l H3. cbn beta. wp_step.
    eapply wp_intf_at; [by rewrite H3, lookup_insert_eq|]. cbn [negb].
    destruct (delete_added _ _ _ _ _ Hadd2) as [Hdel2 Hsome2].
    destruct (delete_added _ _ _ _ _ Hadd1) as [Hdel1 Hsome1].
    wp_step. apply wp_free_array; [cbn; by rewrite H3a|]. cbn [rx_ptr set_ext i2 set_rx].
    wp_step. apply wp_free_array.
    { cbn. rewrite H3a. intros q Hq. by rewrite Hdel2; apply Hsome1. }
    wp_step. eapply wp_free_intf; [cbn; by rewrite H3, lookup_insert_eq|]. apply wp_ret. left. cbn.
    rewrite H3a, Hdel2, Hdel1, H3, H2, H3l, H2l, H1l. split; [done|]. split; [done|]. split; [|done].
    by rewrite insert_insert_eq, delete_insert_id. }
  intros n3 t3 s3 Hadd3 H3l H3. cbn beta. wp_step.
  eapply wp_intf_at; [by rewrite H3, lookup_insert_eq|]. cbn [negb].
  rewrite H2, insert_insert_eq in H3.
  wp_step. eapply wp_upd_intf; [by rewrite H3, lookup_insert_eq|]. wp_step. wp_step. apply wp_ret.
  right. split; [done|]. exists p, (set_excp (new_pipe ex) (set_ext n3 t3 i2)), (s_arrays s1), (s_arrays s2). cbn [s_intfs s_arrays intf_list with_list with_intfs].
  rewrite H3, insert_insert_eq, H3l, H2l, H1l, H0l.
  split; [|split; [done|]; split; [exact Hadd1|]; split; [exact Hadd2|]; split; [exact Hadd3|]; split; [|done]]; done.
Qed.

(** The loops over the list. *)
Lemma wp_find nm l s :
  if_inv s → (∀ p, p ∈ l → is_Some (s_intfs s !! p)) →
  0 ∈ nm ∨ (IPA_NAME_MAX ≤ length nm)%nat →
  wp (find_intf nm l) (λ o s', s' = s ∧
    match o with
    | None => ∀ p i, p ∈ l → s_intfs s !! p = Some i → c_str (name i) ≠ c_str nm
    | Some p => ∃ l1 l2 i, l = l1 ++ p :: l2 ∧ s_intfs s !! p = Some i ∧
                  c_str (name i) = c_str nm ∧
                  ∀ q j, q ∈ l1 → s_intfs s !! q = Some j → c_str (name j) ≠ c_str nm
    end) s.
Proof.
  intros Hi Hl Hnm. induction l as [|p l IH]; cbn [find_intf].
  { apply wp_ret. split; [done|]. by intros p i ?%elem_of_nil. }
  destruct (Hl p) as [i Hp]; [by left|]. destruct (if_name s Hi p i Hp) as [Hlen H0].
  destruct (str_same_some nm (name i)) as (b & Hb & Heq); [done|rewrite Hlen; naive_solver|].
  wp_step. eapply wp_intf_at; [exact Hp|]. wp_step. rewrite str_same_comm, Hb. apply wp_ret.
  destruct b.
  - apply wp_ret. split; [done|]. exists [], l, i. split; [done|]. split; [done|].
    split; [symmetry; by apply Heq|]. by intros q j ?%elem_of_nil.
  - assert (c_str (name i) ≠ c_str nm) as Hne by (intros H; symmetry in H; by apply Heq in H).
    eapply wp_mono; [apply IH; intros q Hq; apply Hl; by right|]. cbn beta.
    intros [q|] s' [-> Ho]; (split; [done|]).
    + destruct Ho as (l1 & l2 & j & -> & Hq & Hj & Hl1). exists (p :: l1), l2, j.
      do 3 (split; [done|]). intros r k [->|Hr]%elem_of_cons Hk; [congruence|by eapply Hl1].
    + intros q j [->|Hq]%elem_of_cons Hj; [congruence|by eapply Ho].
Qed.
End Runs.

(** ** Arrays and pointers *)

Definition drop_ptr (o : option positive) (a : gmap positive (list prop)) : gmap positive (list prop) :=
  match o with None => a | Some q => delete q a end.
Definition drop_all (i : ipa_intf) (a : gmap positive (list prop)) : gmap positive (list prop) :=
  drop_ptr (tx_ptr i) (drop_ptr (rx_ptr i) (drop_ptr (ext_ptr i) a)).

Lemma drop_ptr_other o a q : o ≠ Some q → drop_ptr o a !! q = a !! q.
Proof. destruct o as [r|]; [|done]. intros H. apply lookup_delete_ne. congruence. Qed.

Lemma drop_ptr_Some o a q : is_Some (drop_ptr o a !! q) → o ≠ Some q ∧ is_Some (a !! q).
Proof.
  destruct o as [r|]; [|done]. cbn. intros [x [Hne Hx]%lookup_delete_Some].
  split; [congruence|by exists x].
Qed.

Lemma drop_all_other i a q : (∀ k, kind_ptr k i ≠ Some q) → drop_all i a !! q = a !! q.
Proof.
  intros H. unfold drop_all. pose proof (H Tx). pose proof (H Rx). pose proof (H Ext).
  by rewrite !drop_ptr_other.
Qed.

Lemma drop_all_Some i a q :
  is_Some (drop_all i a !! q) → (∀ k, kind_ptr k i ≠ Some q) ∧ is_Some (a !! q).
Proof.
  intros [H1 [H2 [H3 H4]%drop_ptr_Some]%drop_ptr_Some]%drop_ptr_Some.
  split; [by intros []|done].
Qed.

Lemma arr_same a a' o : (∀ q, o = Some q → a' !! q = a !! q) → arr a' o = arr a o.
Proof. destruct o as [q|]; [|done]. intros H. cbn. by rewrite H. Qed.

Lemma iface_same a a' i :
  (∀ k q, kind_ptr k i = Some q → a' !! q = a !! q) → iface_of a' i = iface_of a i.
Proof.
  intros H. unfold iface_of.
  rewrite (arr_same a a' (tx_ptr i)), (arr_same a a' (rx_ptr i)), (arr_same a a' (ext_ptr i));
    [done|..]; intros q Hq; [by apply (H Ext)|by apply (H Rx)|by apply (H Tx)].
Qed.

Definition new_props (o : option props) : list prop :=
  match o with None => [] | Some ps => take (Z.to_nat (num_props ps)) (prop_array ps) end.

(** What an added set of properties means for the memory. *)
Lemma added_facts o n ptr a a' :
  props_ok o → too_many o = false → added o n ptr a a' →
  ptr_ok a' n ptr ∧ arr a' ptr = new_props o ∧ (∀ q, ptr = Some q → a !! q = None) ∧
  (∀ q l, a !! q = Some l → a' !! q = Some l) ∧
  (∀ q, is_Some (a' !! q) → is_Some (a !! q) ∨ ptr = Some q).
Proof.
  intros Hok Hm. destruct o as [ps|]; cbn.
  - intros (-> & q & -> & Hq & ->). cbn in Hok, Hm. rewrite Z.gtb_ltb, Z.ltb_ge in Hm.
    cbn [ptr_ok arr]. rewrite lookup_insert_eq. split; [|split; [done|split; [by intros ? [= <-]|split]]].
    + eexists. split; [done|]. rewrite length_take. split; [lia|done].
    + intros q' l Hl. rewrite lookup_insert_ne; [done|]. congruence.
    + intros q' [l [[<- _]|[_ Hl]]%lookup_insert_Some]; [by right|left; by exists l].
  - intros (-> & -> & ->). split; [done|]. split; [done|]. split; [done|]. split; [done|]. by left.
Qed.

(** ** Registration *)

Definition new_iface (nm : list Z) (tx rx : option props) (ex : option ext_props) : iface :=
  mkIface (take 31 (c_str nm)) (new_props tx) (new_props rx) (new_props (ext <$> ex)) (new_pipe ex).

Lemma ptr_live s p i k q :
  if_inv s → s_intfs s !! p = Some i → kind_ptr k i = Some q → is_Some (s_arrays s !! q).
Proof.
  intros Hi Hp Hq. pose proof (if_ptr s Hi p i k Hp) as H. rewrite Hq in H.
  destruct H as (l & Hl & _). by exists l.
Qed.

Lemma table_view_same s s' (l : list positive) :
  (∀ p i k q, p ∈ l → s_intfs s !! p = Some i → kind_ptr k i = Some q →
     s_arrays s' !! q = s_arrays s !! q) →
  (∀ p, p ∈ l → s_intfs s' !! p = s_intfs s !! p) →
  omap (λ p, iface_of (s_arrays s') <$> s_intfs s' !! p) l =
  omap (λ p, iface_of (s_arrays s) <$> s_intfs s !! p) l.
Proof.
  induction l as [|p l IH]; intros Ha Hi; [done|]. cbn [omap list_omap].
  rewrite (Hi p) by by left. rewrite IH; [|intros ?????; eapply Ha; [by right|done..]|intros ??; apply Hi; by right].
  destruct (s_intfs s !! p) as [i|] eqn:Hp; [|done]. cbn.
  rewrite (iface_same (s_arrays s) (s_arrays s')); [done|].
  intros k q Hq. eapply Ha; [by left|done..].
Qed.

Section Registered.
Context (s s' : intf_state) (nm : list Z) (tx rx : option props) (ex : option ext_props).
Context (p : positive) (i : ipa_intf) (a1 a2 : gmap positive (list prop)).
Context (Hi : if_inv s) (Hn : 0 ∈ nm) (Hp : s_intfs s !! p = None).
Context (Hname : strlcpy_name nm = Some (name i)).
Context (Htx : props_ok tx) (Hrx : props_ok rx) (Hex : props_ok (ext <$> ex)).
Context (Mtx : too_many tx = false) (Mrx : too_many rx = false) (Mex : too_many (ext <$> ex) = false).
Context (A1 : added tx (num_tx_props i) (tx_ptr i) (s_arrays s) a1).
Context (A2 : added rx (num_rx_props i) (rx_ptr i) a1 a2).
Context (A3 : added (ext <$> ex) (num_ext_props i) (ext_ptr i) a2 (s_arrays s')).
Context (Hpipe : excp_pipe i = new_pipe ex).
Context (Hs : s_intfs s' = <[p := i]> (s_intfs s)) (Hl : intf_list s' = intf_list s ++ [p]).

Lemma reg_old q l : s_arrays s !! q = Some l → s_arrays s' !! q = Some l.
Proof.
  intros H. destruct (added_facts _ _ _ _ _ Htx Mtx A1) as (_ & _ & _ & F1 & _).
  destruct (added_facts _ _ _ _ _ Hrx Mrx A2) as (_ & _ & _ & F2 & _).
  destruct (added_facts _ _ _ _ _ Hex Mex A3) as (_ & _ & _ & F3 & _). auto.
Qed.

Lemma reg_new k q : kind_ptr k i = Some q → s_arrays s !! q = None ∧ is_Some (s_arrays s' !! q).
Proof.
  destruct (added_facts _ _ _ _ _ Htx Mtx A1) as (P1 & _ & N1 & F1 & _).
  destruct (added_facts _ _ _ _ _ Hrx Mrx A2) as (P2 & _ & N2 & F2 & _).
  destruct (added_facts _ _ _ _ _ Hex Mex A3) as (P3 & _ & N3 & F3 & _).
  destruct k; cbn; intros Hq; rewrite Hq in *.
  - destruct P1 as (l & H & _). split; [by apply N1|eauto].
  - destruct P2 as (l & H & _). split; [|eauto].
    destruct (s_arrays s !! q) eqn:Hz; [|done]. apply F1 in Hz. by rewrite N2 in Hz.
  - destruct P3 as (l & H & _). split; [|eauto].
    destruct (s_arrays s !! q) eqn:Hz; [|done]. apply F1, F2 in Hz. by rewrite N3 in Hz.
Qed.

Lemma reg_distinct k k' q : kind_ptr k i = Some q → kind_ptr k' i = Some q → k = k'.
Proof.
  destruct (added_facts _ _ _ _ _ Htx Mtx A1) as (P1 & _ & _ & F1 & _).
  destruct (added_facts _ _ _ _ _ Hrx Mrx A2) as (P2 & _ & N2 & F2 & _).
  destruct (added_facts _ _ _ _ _ Hex Mex A3) as (_ & _ & N3 & _).
  assert (tx_ptr i = Some q → rx_ptr i = Some q → False) as H12.
  { intros H1 H2. rewrite H1 in P1. destruct P1 as (l & H & _). by rewrite N2 in H. }
  assert (tx_ptr i = Some q → ext_ptr i = Some q → False) as H13.
  { intros H1 H3. rewrite H1 in P1. destruct P1 as (l & H%F2 & _). by rewrite N3 in H. }
  assert (rx_ptr i = Some q → ext_ptr i = Some q → False) as H23.
  { intros H2 H3. rewrite H2 in P2. destruct P2 as (l & H & _). by rewrite N3 in H. }
  destruct k, k'; cbn; intros; try done; exfalso; eauto.
Qed.

Lemma reg_ptr_ok k : ptr_ok (s_arrays s') (kind_num k i) (kind_ptr k i).
Proof.
  destruct (added_facts _ _ _ _ _ Htx Mtx A1) as (P1 & _ & _ & F1 & _).
  destruct (added_facts _ _ _ _ _ Hrx Mrx A2) as (P2 & _ & _ & F2 & _).
  destruct (added_facts _ _ _ _ _ Hex Mex A3) as (P3 & _ & _ & F3 & _).
  assert (∀ a b n o, (∀ q (l : list prop), a !! q = Some l → b !! q = Some l) →
            ptr_ok a n o → ptr_ok b n o) as Hmono.
  { intros a b n [q|] Hsub; [|done]. intros (l & Hl' & H). exists l. split; [by apply Hsub|done]. }
  destruct k; cbn; [|by eapply Hmono|done]. eapply Hmono; [exact F3|by eapply Hmono].
Qed.

Lemma reg_iface : iface_of (s_arrays s') i = new_iface nm tx rx ex.
Proof.
  destruct (added_facts _ _ _ _ _ Htx Mtx A1) as (P1 & R1 & _ & F1 & _).
  destruct (added_facts _ _ _ _ _ Hrx Mrx A2) as (P2 & R2 & _ & F2 & _).
  destruct (added_facts _ _ _ _ _ Hex Mex A3) as (P3 & R3 & _ & F3 & _).
  destruct (strlcpy_name_spec nm Hn) as (n & Hn' & _ & _ & Hc). rewrite Hname in Hn'.
  injection Hn' as <-. unfold iface_of, new_iface. rewrite Hc, R3, Hpipe. f_equal.
  - rewrite <- R1. destruct (tx_ptr i) as [q|]; [|done]. destruct P1 as (l & H & _). cbn.
    by rewrite H, (F3 q l (F2 q l H)).
  - rewrite <- R2. destruct (rx_ptr i) as [q|]; [|done]. destruct P2 as (l & H & _). cbn.
    by rewrite H, (F3 q l H).
Qed.

Lemma reg_view : view s' = view s ++ [new_iface nm tx rx ex].
Proof.
  assert (∀ r, r ∈ intf_list s → r ≠ p) as Hne.
  { intros r Hr ->. apply (if_listed s Hi) in Hr. rewrite Hp in Hr. by destruct Hr. }
  unfold view. rewrite Hl, omap_app. f_equal; [apply table_view_same|].
  3:{ cbn. by rewrite Hs, lookup_insert_eq, <- reg_iface. }
  - intros r j k q Hr Hj Hq. destruct (ptr_live s r j k q Hi Hj Hq) as [l H].
    by rewrite H, (reg_old q l H).
  - intros r Hr. rewrite Hs. apply lookup_insert_ne. intros ->. by apply (Hne r).
Qed.

Lemma reg_inv : if_inv s'.
Proof.
  constructor; rewrite ?Hs, ?Hl.
  - apply list.NoDup_app. split; [apply (if_nodup s Hi)|]. split; [|apply NoDup_singleton].
    intros r Hr ->%list_elem_of_singleton. apply (if_listed s Hi) in Hr. rewrite Hp in Hr.
    by destruct Hr.
  - intros r. rewrite elem_of_app, list_elem_of_singleton, (if_listed s Hi).
    destruct (decide (r = p)) as [->|Hr].
    + rewrite lookup_insert_eq. split; [eauto|by right].
    + rewrite lookup_insert_ne by done. split; [by intros [?|?]|by left].
  - intros r j [[<- <-]|[_ Hj]]%lookup_insert_Some; [|by apply (if_name s Hi r)].
    destruct (strlcpy_name_spec nm Hn) as (n & Hn' & ? & ? & _). rewrite Hname in Hn'.
    by injection Hn' as <-.
  - intros r j k [[<- <-]|[_ Hj]]%lookup_insert_Some; [apply reg_ptr_ok|].
    pose proof (if_ptr s Hi r j k Hj) as H. destruct (kind_ptr k j) as [q|]; [|done].
    destruct H as (l & H & ?). exists l. split; [by apply reg_old|done].
  - intros q Hq. destruct (decide (is_Some (s_arrays s !! q))) as [Hold|Hnew].
    + destruct (if_owned s Hi q Hold) as (r & j & k & Hj & Hk). exists r, j, k.
      rewrite lookup_insert_ne; [done|]. intros ->. congruence.
    + exists p, i. rewrite lookup_insert_eq.
      destruct (added_facts _ _ _ _ _ Htx Mtx A1) as (_ & _ & _ & _ & O1).
      destruct (added_facts _ _ _ _ _ Hrx Mrx A2) as (_ & _ & _ & _ & O2).
      destruct (added_facts _ _ _ _ _ Hex Mex A3) as (_ & _ & _ & _ & O3).
      destruct (O3 q Hq) as [[[H%Hnew|H]%O1|H]%O2|H]; [done|by exists Tx|by exists Rx|by exists Ext].
  - intros r j k r' j' k' q. rewrite !lookup_insert_Some.
    intros [[<- <-]|[_ Hj]] [[<- <-]|[_ Hj']] Hk Hk'.
    + split; [done|by eapply reg_distinct].
    + exfalso. destruct (reg_new k q Hk) as [Hz _]. destruct (ptr_live s r' j' k' q Hi Hj' Hk').
      congruence.
    + exfalso. destruct (reg_new k' q Hk') as [Hz _]. destruct (ptr_live s r j k q Hi Hj Hk).
      congruence.
    + by apply (if_unique s Hi r j k r' j' k' q).
Qed.
End Registered.

(** ** Deregistration *)

Section Removed.
Context (s s' : intf_state) (p : positive) (i : ipa_intf) (l1 l2 : list positive).
Context (Hi : if_inv s) (Hp : s_intfs s !! p = Some i).
Context (Hl : intf_list s = l1 ++ p :: l2).
Context (Ha' : s_arrays s' = drop_all i (s_arrays s)) (Hs' : s_intfs s' = delete p (s_intfs s)).
Context (Hl' : intf_list s' = l1 ++ l2).

Lemma rem_parts : NoDup (l1 ++ l2) ∧ p ∉ l1 ++ l2.
Proof.
  pose proof (if_nodup s Hi) as Hnd. rewrite Hl in Hnd.
  apply list.NoDup_app in Hnd as (N1 & N12 & [Np N2]%list.NoDup_cons). split.
  - apply list.NoDup_app. split; [done|]. split; [|done]. intros q Hq Hq'.
    apply (N12 q Hq). by right.
  - intros [Hq|Hq]%elem_of_app; [|done]. apply (N12 p Hq). by left.
Qed.

Lemma rem_other q j k r :
  s_intfs s !! q = Some j → q ≠ p → kind_ptr k j = Some r → s_arrays s' !! r = s_arrays s !! r.
Proof.
  intros Hq Hne Hr. rewrite Ha'. apply drop_all_other. intros k' Hk'.
  by destruct (if_unique s Hi q j k p i k' r Hq Hp Hr Hk').
Qed.

Lemma rem_view :
  view s' = omap (λ q, iface_of (s_arrays s) <$> s_intfs s !! q) l1
            ++ omap (λ q, iface_of (s_arrays s) <$> s_intfs s !! q) l2.
Proof.
  destruct rem_parts as [_ Hnp]. unfold view. rewrite Hl', <- omap_app. apply table_view_same.
  - intros q j k r Hq Hj Hr. eapply rem_other; [exact Hj| |exact Hr]. by intros ->.
  - intros q Hq. rewrite Hs'. apply lookup_delete_ne. by intros ->.
Qed.

Lemma rem_inv : if_inv s'.
Proof.
  destruct rem_parts as [Hnd Hnp]. constructor; rewrite ?Hs', ?Hl'; [done|..].
  - intros q. rewrite lookup_delete_is_Some, <- (if_listed s Hi), Hl.
    rewrite !elem_of_app, elem_of_cons. rewrite elem_of_app in Hnp. split.
    + intros H. split; [by intros ->|]. destruct H; auto.
    + intros [Hne [?|[?|?]]]; auto. by subst.
  - intros q j [_ Hj]%lookup_delete_Some. by apply (if_name s Hi q).
  - intros q j k [Hne Hj]%lookup_delete_Some. pose proof (if_ptr s Hi q j k Hj) as H.
    destruct (kind_ptr k j) as [r|] eqn:Hr; [|done]. destruct H as (l & H & ?). exists l.
    by rewrite (rem_other q j k r).
  - intros r Hr. rewrite Ha' in Hr. apply drop_all_Some in Hr as [Hno Hr].
    destruct (if_owned s Hi r Hr) as (q & j & k & Hj & Hk). exists q, j, k.
    rewrite lookup_delete_ne; [done|]. intros ->. rewrite Hp in Hj. injection Hj as <-. by apply (Hno k).
  - intros q j k q' j' k' r [_ Hj]%lookup_delete_Some [_ Hj']%lookup_delete_Some.
    by apply (if_unique s Hi).
Qed.
End Removed.

(** ** The calls *)

Inductive if_call :=
  | IfRegister (nm : option (list Z)) (tx rx : option props) (ex : option ext_props)
  | IfDeregister (nm : option (list Z))
  | IfQuery (nm : list Z)
  | IfQueryProps (k : kind) (header param : option (list Z * Z)) (copied : bool).

(** The result, the answer of a query and the properties that were copied. *)
Definition if_run (E : intf_env) (c : if_call) : IM (Z * option (Z * Z * Z * Z) * list prop) :=
  match c with
  | IfRegister nm tx rx ex => r ← ipa2_register_intf_ext E nm tx rx ex; mret (r, None, [])
  | IfDeregister nm => r ← ipa2_deregister_intf nm; mret (r, None, [])
  | IfQuery nm => '(r, a) ← ipa_query_intf nm; mret (r, a, [])
  | IfQueryProps k header param copied =>
      '(r, a) ← ioctl_query_props k header param copied; mret (r, None, a)
  end.

(** Names of the kernel end; those of user space have 32 bytes; arrays have the elements that
    their counter says. *)
Definition if_call_ok (c : if_call) : Prop :=
  match c with
  | IfRegister nm tx rx ex =>
      match nm with Some nm => 0 ∈ nm | None => True end ∧
      props_ok tx ∧ props_ok rx ∧ props_ok (ext <$> ex)
  | IfDeregister nm => match nm with Some nm => 0 ∈ nm | None => True end
  | IfQuery nm => length nm = IPA_NAME_MAX
  | IfQueryProps _ header param _ =>
      match header with Some (_, n) => 0 ≤ n | None => True end ∧
      match param with Some (nm, _) => length nm = IPA_NAME_MAX | None => True end
  end.

Inductive if_reach (E : intf_env) : intf_state → Prop :=
  | if_reach_start : if_reach E intf_state0
  | if_reach_call s c r s' : if_reach E s → if_call_ok c → if_run E c s = Some (r, s') →
      if_reach E s'.

(** ** The table's operations *)

Definition has_name (nm : list Z) (f : iface) : bool := bool_decide (f_name f = c_str nm).

Fixpoint remove_named (nm : list Z) (l : list iface) : option (list iface) :=
  match l with
  | [] => None
  | f :: l => if has_name nm f then Some l else l ← remove_named nm l; Some (f :: l)
  end.

(** The name of a query that the code ends at 31 characters. *)
Definition ended (nm : list Z) : list Z := <[31%nat := 0]> nm.
Definition kind_name (k : kind) (nm : list Z) : list Z :=
  match k with Ext => nm | _ => ended nm end.

Definition bad_args (nm : option (list Z)) (tx rx : option props) (ex : option ext_props) : Prop :=
  nm = None ∨ tx = None ∧ rx = None ∧ ex = None ∨ too_many tx = true ∨ too_many rx = true ∨
  too_many (ext <$> ex) = true.

(** The answer to a query for the properties of one kind. *)
Definition props_answer (l : list iface) (k : kind) (header param : option (list Z * Z))
    (copied : bool) : Z * list prop :=
  match header, param with
  | None, _ => (- EFAULT, [])
  | Some (_, n), _ =>
      if n >? IPA_NUM_PROPS_MAX then (- EFAULT, [])
      else match param with
      | None => (- ENOMEM, [])
      | Some (nm, n') =>
          if negb (n' =? n) then (- EFAULT, [])
          else match find (has_name (kind_name k nm)) l with
          | None => (-1, [])
          | Some f =>
              if negb (Z.of_nat (length (f_props k f)) =? n) then (-1, [])
              else if copied then (0, f_props k f) else (- EFAULT, [])
          end
      end
  end.

(** What a call does to the table, and what it answers. *)
Definition table_step (l : list iface) (c : if_call) (res : Z * option (Z * Z * Z * Z) * list prop)
    (l' : list iface) : Prop :=
  let '(r, a, ps) := res in
  match c with
  | IfRegister nm tx rx ex =>
      a = None ∧ ps = [] ∧
      (r = - EINVAL ∧ bad_args nm tx rx ex ∧ l' = l ∨
       r = - ENOMEM ∧ ¬ bad_args nm tx rx ex ∧ l' = l ∨
       ∃ nm', nm = Some nm' ∧ r = 0 ∧ ¬ bad_args nm tx rx ex ∧ l' = l ++ [new_iface nm' tx rx ex])
  | IfDeregister nm =>
      a = None ∧ ps = [] ∧
      match nm ≫= λ nm, remove_named nm l with
      | None => r = - EINVAL ∧ l' = l
      | Some l0 => r = 0 ∧ l' = l0
      end
  | IfQuery nm =>
      l' = l ∧ ps = [] ∧
      match find (has_name (ended nm)) l with
      | None => r = - EINVAL ∧ a = None
      | Some f => r = 0 ∧ a = Some (Z.of_nat (length (f_tx f)), Z.of_nat (length (f_rx f)),
                                     Z.of_nat (length (f_ext f)), f_pipe f)
      end
  | IfQueryProps k header param copied =>
      l' = l ∧ a = None ∧ (r, ps) = props_answer l k header param copied
  end.

(** ** Every call is a step of the table *)

Lemma find_named nm l1 f l2 :
  Forall (λ g, f_name g ≠ c_str nm) l1 → f_name f = c_str nm →
  find (has_name nm) (l1 ++ f :: l2) = Some f ∧ remove_named nm (l1 ++ f :: l2) = Some (l1 ++ l2).
Proof.
  intros H1 Hf. induction H1 as [|g l1 Hg _ [IH1 IH2]]; cbn [app find remove_named]; unfold has_name at 1 3.
  - by rewrite !bool_decide_true.
  - rewrite !bool_decide_false by done. by rewrite IH1, IH2.
Qed.

Lemma find_none nm l :
  Forall (λ g, f_name g ≠ c_str nm) l →
  find (has_name nm) l = None ∧ remove_named nm l = None.
Proof.
  induction 1 as [|g l Hg _ [IH1 IH2]]; cbn [find remove_named]; [done|]. unfold has_name at 1 3.
  rewrite !bool_decide_false by done. by rewrite IH1, IH2.
Qed.

Lemma view_names s nm l :
  (∀ p i, p ∈ l → s_intfs s !! p = Some i → c_str (name i) ≠ c_str nm) →
  Forall (λ g, f_name g ≠ c_str nm)
    (omap (λ p, iface_of (s_arrays s) <$> s_intfs s !! p) l).
Proof.
  induction l as [|p l IH]; intros H; [constructor|]. cbn [omap list_omap].
  assert (Forall (λ g, f_name g ≠ c_str nm) (omap (λ p, iface_of (s_arrays s) <$> s_intfs s !! p) l))
    as Hl by (apply IH; intros q i Hq; apply H; by right).
  destruct (s_intfs s !! p) as [i|] eqn:Hp; [|done]. constructor; [|done].
  apply (H p i); [by left|done].
Qed.

Section Steps.
Context (E : intf_env) {HE : intf_env_ok E}.
Implicit Types s : intf_state.

(** A search in memory is the search in the table. *)
Lemma wp_lookup nm s (Q : option positive → intf_state → Prop) :
  if_inv s → 0 ∈ nm ∨ (IPA_NAME_MAX ≤ length nm)%nat →
  (find (has_name nm) (view s) = None → remove_named nm (view s) = None → Q None s) →
  (∀ p i l1 l2 v1 v2, s_intfs s !! p = Some i → intf_list s = l1 ++ p :: l2 →
     v1 = omap (λ q, iface_of (s_arrays s) <$> s_intfs s !! q) l1 →
     v2 = omap (λ q, iface_of (s_arrays s) <$> s_intfs s !! q) l2 →
     find (has_name nm) (view s) = Some (iface_of (s_arrays s) i) →
     remove_named nm (view s) = Some (v1 ++ v2) → Q (Some p) s) →
  wp (find_intf nm (intf_list s)) Q s.
Proof.
  intros Hi Hnm Q0 Q1. eapply wp_mono; [apply wp_find; [done| |done]|].
  { intros p Hp. by apply (if_listed s Hi). }
  cbn beta. intros [p|] s' [-> H].
  - destruct H as (l1 & l2 & i & Hl & Hp & Hc & H1).
    assert (view s = omap (λ q, iface_of (s_arrays s) <$> s_intfs s !! q) l1 ++ iface_of (s_arrays s) i ::
             omap (λ q, iface_of (s_arrays s) <$> s_intfs s !! q) l2) as Hv.
    { unfold view. rewrite Hl, omap_app. cbn [omap list_omap]. by rewrite Hp. }
    destruct (find_named nm (omap (λ q, iface_of (s_arrays s) <$> s_intfs s !! q) l1)
                (iface_of (s_arrays s) i)
                (omap (λ q, iface_of (s_arrays s) <$> s_intfs s !! q) l2)) as [F R].
    { by apply view_names. }
    { done. }
    rewrite <- Hv in F, R. by eapply Q1.
  - destruct (find_none nm (view s)) as [F R]; [by apply view_names|]. by apply Q0.
Qed.

Lemma wp_query nm s :
  if_inv s → length nm = IPA_NAME_MAX →
  wp (ipa_query_intf nm) (λ r s', s' = s ∧ table_step (view s) (IfQuery nm) (r.1, r.2, []) (view s)) s.
Proof.
  intros Hi Hl. unfold ipa_query_intf. wp_step.
  rewrite (store_z_nat nm 31) by (rewrite Hl; unfold IPA_NAME_MAX; lia). apply wp_ret. fold (ended nm).
  wp_step. wp_step. cbn beta. wp_step. apply wp_lookup; [done| | |].
  { right. unfold ended. rewrite length_insert. lia. }
  - intros F _. apply wp_ret. cbn. by rewrite F.
  - intros p i l1 l2 v1 v2 Hp _ _ _ F _. wp_step. eapply wp_intf_at; [done|]. apply wp_ret.
    split; [done|]. cbn. rewrite F. do 3 (split; [done|]).
    pose proof (if_ptr s Hi p i Tx Hp) as P1. pose proof (if_ptr s Hi p i Rx Hp) as P2.
    pose proof (if_ptr s Hi p i Ext Hp) as P3. cbn in *.
    assert (∀ n o, ptr_ok (s_arrays s) n o → Z.of_nat (length (arr (s_arrays s) o)) = n) as Hn.
    { intros n [q|]; cbn; [|by intros ->]. intros (l & -> & <- & _). done. }
    by rewrite (Hn _ _ P1), (Hn _ _ P2), (Hn _ _ P3).
Qed.

Lemma ptr_arr a n o : ptr_ok a n o → Z.of_nat (length (arr a o)) = n.
Proof. destruct o as [q|]; cbn; [|by intros ->]. intros (l & -> & <- & _). done. Qed.

Lemma kind_arr s p i k :
  if_inv s → s_intfs s !! p = Some i →
  f_props k (iface_of (s_arrays s) i) = arr (s_arrays s) (kind_ptr k i) ∧
  Z.of_nat (length (f_props k (iface_of (s_arrays s) i))) = kind_num k i.
Proof.
  intros Hi Hp. pose proof (if_ptr s Hi p i k Hp) as H. apply ptr_arr in H.
  by destruct k; cbn in *.
Qed.

Lemma wp_copy_out a n o room s :
  s_arrays s = a → ptr_ok a n o → 0 ≤ n → (Z.to_nat n ≤ room)%nat →
  wp (copy_out o n room) (λ r s', s' = s ∧ r = arr a o) s.
Proof.
  intros <- Hok Hn Hr. unfold copy_out. destruct (Z.eqb_spec n 0) as [->|Hn0].
  { apply wp_ret. split; [done|]. apply ptr_arr in Hok. by destruct (arr _ o). }
  destruct o as [q|]; [|by destruct Hn0]. destruct Hok as (l & Hl & <- & _).
  wp_step. apply wp_ret. wp_step. wp_step. cbn beta. wp_step. rewrite Hl. apply wp_ret.
  rewrite Nat2Z.id in *.
  rewrite (proj2 (Nat.ltb_ge _ _)) by lia. rewrite (proj2 (Nat.ltb_ge room _)) by lia.
  cbn [orb]. apply wp_ret. split; [done|]. cbn. rewrite Hl. cbn. by rewrite firstn_all.
Qed.

Lemma wp_query_props k nm n room s :
  if_inv s → 0 ∈ nm ∨ (IPA_NAME_MAX ≤ length nm)%nat → 0 ≤ n → (Z.to_nat n ≤ room)%nat →
  wp (query_props k nm n room) (λ r s', s' = s ∧
    r = match find (has_name nm) (view s) with
        | None => (- EINVAL, [])
        | Some f => if negb (Z.of_nat (length (f_props k f)) =? n) then (- EINVAL, [])
                    else (0, f_props k f)
        end) s.
Proof.
  intros Hi Hnm Hn Hr. unfold query_props. wp_step. wp_step. cbn beta. wp_step.
  apply wp_lookup; [done|done| |].
  - intros F _. apply wp_ret. by rewrite F.
  - intros p i l1 l2 v1 v2 Hp _ _ _ F _. wp_step. eapply wp_intf_at; [done|]. rewrite F.
    destruct (kind_arr s p i k Hi Hp) as [Ha Hlen]. rewrite Hlen.
    destruct (Z.eqb_spec (kind_num k i) n) as [<-|Hne]; cbn [negb]; [|by apply wp_ret].
    wp_step. eapply wp_mono; [apply (wp_copy_out (s_arrays s)); [done|by apply (if_ptr s Hi p)|done|done]|].
    cbn beta. intros r s' [-> ->]. apply wp_ret. by rewrite Ha.
Qed.

Lemma wp_ioctl_query k header param copied s :
  if_inv s → if_call_ok (IfQueryProps k header param copied) →
  wp (ioctl_query_props k header param copied) (λ r s', s' = s ∧
    r = props_answer (view s) k header param copied) s.
Proof.
  intros Hi [Hh Hparam]. unfold ioctl_query_props, props_answer.
  destruct header as [[nm0 n]|]; [|by apply wp_ret].
  destruct (Z.gtb_spec n IPA_NUM_PROPS_MAX) as [Hmax|Hmax]; [by apply wp_ret|].
  destruct param as [[nm n']|]; [|by apply wp_ret].
  destruct (Z.eqb_spec n' n) as [->|Hne]; cbn [negb]; [|by apply wp_ret].
  assert (wp (ipa_query_props k nm n (Z.to_nat n)) (λ r s', s' = s ∧
    r = match find (has_name (kind_name k nm)) (view s) with
        | None => (- EINVAL, [])
        | Some f => if negb (Z.of_nat (length (f_props k f)) =? n) then (- EINVAL, [])
                    else (0, f_props k f)
        end) s) as Hq.
  { destruct k; cbn [ipa_query_props kind_name];
      unfold ipa_query_intf_tx_props, ipa_query_intf_rx_props, ipa_query_intf_ext_props.
    1,2: wp_step; rewrite (store_z_nat nm 31) by (rewrite Hparam; unfold IPA_NAME_MAX; lia);
      apply wp_ret; apply (wp_query_props _ (ended nm)); [done| |done|done];
      right; unfold ended; rewrite length_insert; lia.
    apply wp_query_props; [done|right; lia|done|done]. }
  wp_step. eapply wp_mono; [exact Hq|]. cbn beta. intros [r a] s' [-> Hr].
  destruct (find _ (view s)) as [f|]; [|injection Hr as -> ->; by apply wp_ret].
  destruct (negb _); [injection Hr as -> ->; by apply wp_ret|].
  injection Hr as -> ->. by destruct copied; apply wp_ret.
Qed.

(** The memory of an interface is freed. *)
Lemma wp_free_all p i l s (Q : Z → intf_state → Prop) :
  if_inv s → s_intfs s !! p = Some i →
  (∀ s', s_arrays s' = drop_all i (s_arrays s) → s_intfs s' = delete p (s_intfs s) →
         intf_list s' = l → Q 0 s') →
  wp (free_array (ext_ptr i) ;; free_array (rx_ptr i) ;; free_array (tx_ptr i) ;; free_intf p ;; mret 0)
     Q (with_list l s).
Proof.
  intros Hi Hp HQ.
  assert (∀ k q, kind_ptr k i = Some q → is_Some (s_arrays s !! q)) as Hlive
    by (intros k q Hq; by eapply (ptr_live s p)).
  assert (∀ k k' q, k ≠ k' → kind_ptr k i = Some q → kind_ptr k' i ≠ Some q) as Hdiff
    by (intros k k' q Hne Hq Hq'; by destruct (if_unique s Hi p i k p i k' q Hp Hp Hq Hq')).
  wp_step. apply wp_free_array; [by apply (Hlive Ext)|]. cbn beta. cbn [s_arrays with_list].
  fold (drop_ptr (ext_ptr i) (s_arrays s)).
  wp_step. apply wp_free_array.
  { cbn. intros q Hq. rewrite drop_ptr_other by by apply (Hdiff Rx Ext q).
    by apply (Hlive Rx). }
  cbn beta. cbn [s_arrays with_arrays]. fold (drop_ptr (rx_ptr i) (drop_ptr (ext_ptr i) (s_arrays s))).
  wp_step. apply wp_free_array.
  { cbn. intros q Hq. rewrite drop_ptr_other by by apply (Hdiff Tx Rx q).
    rewrite drop_ptr_other by by apply (Hdiff Tx Ext q). by apply (Hlive Tx). }
  cbn beta. wp_step. eapply wp_free_intf; [exact Hp|]. apply wp_ret. by apply HQ.
Qed.

Lemma wp_dereg nm s :
  if_inv s → 0 ∈ nm →
  wp (ipa2_deregister_intf (Some nm)) (λ r s', if_inv s' ∧
    table_step (view s) (IfDeregister (Some nm)) (r, None, []) (view s')) s.
Proof.
  intros Hi Hn. unfold ipa2_deregister_intf. wp_step. wp_step. cbn beta. wp_step.
  apply wp_lookup; [done|by left| |].
  - intros _ R. apply wp_ret. split; [done|]. cbn. by rewrite R.
  - intros p i l1 l2 v1 v2 Hp Hl Hv1 Hv2 _ R. wp_step. wp_step. wp_step.
    eapply wp_intf_at; [done|]. cbn beta.
    destruct (rem_parts s p l1 l2 Hi Hl) as [_ Hnp].
    apply (wp_free_all p i); [done|done|]. intros s' Ha' Hs' Hl'.
    assert (intf_list s' = l1 ++ l2) as Hl''.
    { rewrite Hl', Hl, list.filter_app, list.filter_cons_False by naive_solver.
      rewrite elem_of_app in Hnp.
      assert (∀ l : list positive, p ∉ l → filter (λ q, q ≠ p) l = l) as Hf.
      { induction l as [|x l IH]; [done|]. rewrite not_elem_of_cons. intros [Hx Hxl].
        rewrite list.filter_cons_True by done. by rewrite IH. }
      rewrite !Hf; [done|naive_solver|naive_solver]. }
    split; [by eapply (rem_inv s s' p i l1 l2)|].
    cbn. rewrite R. do 3 (split; [done|]). subst v1 v2. by eapply (rem_view s s' p i l1 l2).
Qed.

Lemma wp_intf_register nm tx rx ex s :
  if_inv s → if_call_ok (IfRegister nm tx rx ex) →
  wp (ipa2_register_intf_ext E nm tx rx ex) (λ r s', if_inv s' ∧
    table_step (view s) (IfRegister nm tx rx ex) (r, None, []) (view s')) s.
Proof using HE.
  intros Hi (Hn & Htx & Hrx & Hex). unfold ipa2_register_intf_ext, table_step.
  assert (bad_args nm tx rx ex → if_inv s ∧ @None (Z * Z * Z * Z) = None ∧ @nil prop = [] ∧ (- EINVAL = - EINVAL ∧ bad_args nm tx rx ex ∧ view s = view s ∨
   - EINVAL = - ENOMEM ∧ ¬ bad_args nm tx rx ex ∧ view s = view s
   ∨ ∃ nm', nm = Some nm' ∧ - EINVAL = 0 ∧ ¬ bad_args nm tx rx ex ∧ view s = view s ++ [new_iface nm' tx rx ex])) as Hbad.
  { intros Hb. do 3 (split; [done|]). by left. }
  destruct nm as [nm|]; [|apply wp_ret, Hbad; by left].
  destruct (_ && _ && _) eqn:Hnone.
  { apply wp_ret, Hbad. right; left. rewrite !andb_true_iff, !negb_true_iff, !bool_decide_eq_false in Hnone.
    rewrite !eq_None_not_Some. tauto. }
  destruct (too_many tx) eqn:Mtx; [apply wp_ret, Hbad; unfold bad_args; auto|].
  destruct (too_many rx) eqn:Mrx; [apply wp_ret, Hbad; unfold bad_args; auto|].
  destruct (too_many (ext <$> ex)) eqn:Mex; [apply wp_ret, Hbad; unfold bad_args; auto 6|].
  assert (¬ bad_args (Some nm) tx rx ex) as Hgood.
  { unfold bad_args. intros [?|[(-> & -> & ->)|[?|[?|?]]]]; [congruence|by cbn in Hnone|congruence..]. }
  eapply wp_mono; [by apply wp_register_new|]. cbn beta.
  intros r s' [(-> & Ha & Hs & Hl)|[-> Hreg]].
  - assert (view s' = view s) as Hv by (unfold view; by rewrite Ha, Hs, Hl).
    split; [destruct Hi; constructor; by rewrite ?Ha, ?Hs, ?Hl|]. do 2 (split; [done|]). right; left. done.
  - destruct Hreg as (p & i & a1 & a2 & Hname & Hp & A1 & A2 & A3 & Hpipe & Hs & Hl).
    split; [by eapply (reg_inv s s' nm tx rx ex p i a1 a2)|]. do 2 (split; [done|]). do 2 right.
    exists nm. do 3 (split; [done|]). by eapply (reg_view s s' nm tx rx ex p i a1 a2).
Qed.

Lemma wp_if_run c s :
  if_inv s → if_call_ok c →
  wp (if_run E c) (λ res s', if_inv s' ∧ table_step (view s) c res (view s')) s.
Proof using HE.
  intros Hi Hc. destruct c as [nm tx rx ex|[nm|]|nm|k header param copied]; cbn [if_run]; wp_step.
  - eapply wp_mono; [by apply wp_intf_register|]. cbn beta. intros r s' H. by apply wp_ret.
  - eapply wp_mono; [by apply wp_dereg|]. cbn beta. intros r s' H. by apply wp_ret.
  - by apply wp_ret, wp_ret.
  - eapply wp_mono; [by apply wp_query|]. cbn beta. intros [r a] s' [-> H]. by apply wp_ret.
  - eapply wp_mono; [by apply wp_ioctl_query|]. cbn beta. intros [r a] s' [-> H]. apply wp_ret.
    split; [done|]. cbn. by rewrite H.
Qed.

Lemma if_inv0 : if_inv intf_state0.
Proof.
  constructor; cbn; try done.
  - constructor.
  - intros p. rewrite lookup_empty. split; [by intros ?%elem_of_nil|by intros []].
  - intros q. rewrite lookup_empty. by intros [].
Qed.

Lemma if_reach_inv s : if_reach E s → if_inv s.
Proof using HE.
  induction 1 as [|s c r s' _ IH Hc Hr]; [apply if_inv0|].
  pose proof (wp_if_run c s IH Hc) as H. unfold wp in H. rewrite Hr in H. apply H.
Qed.
End Steps.

(** Nothing is allocated when the table is empty. *)
Lemma empty_view s : if_inv s → view s = [] → s_arrays s = ∅ ∧ s_intfs s = ∅.
Proof.
  intros Hi Hv.
  assert (∀ p, s_intfs s !! p = None) as Hn.
  { intros p. destruct (s_intfs s !! p) as [i|] eqn:Hp; [|done]. exfalso.
    assert (p ∈ intf_list s) as Hin by (apply (if_listed s Hi); by rewrite Hp).
    assert (iface_of (s_arrays s) i ∈ view s) as H.
    { unfold view. apply list_elem_of_omap. exists p. by rewrite Hp. }
    rewrite Hv in H. by apply elem_of_nil in H. }
  split; apply map_empty; [|done]. intros q. destruct (s_arrays s !! q) as [l|] eqn:Hq; [|done].
  destruct (if_owned s Hi q) as (p & i & k & Hp & _); [by rewrite Hq|]. by rewrite Hn in Hp.
Qed.

(** ** The property *)

(** C24. The interfaces refine a table of named interfaces: from every reachable state every call
    is defined on every path, and answers and changes the table as the table's operation does.
    A registration appends a copy of the properties under the first 31 characters of the name,
    or fails and changes nothing; the first interface of a name is the one that is found and the
    one that is removed; a query copies the properties only if their number is the expected one.
    When the table is empty, no memory is left. *)
Theorem intf_refines_table E s c :
  intf_env_ok E → if_reach E s → if_call_ok c →
  ∃ res s', if_run E c s = Some (res, s') ∧ if_reach E s' ∧
    table_step (view s) c res (view s') ∧
    (view s' = [] → s_arrays s' = ∅ ∧ s_intfs s' = ∅).
Proof.
  intros HE Hr Hc. pose proof (if_reach_inv E s Hr) as Hi.
  destruct (wp_elim _ _ _ (wp_if_run E c s Hi Hc)) as (res & s' & Hrun & Hi' & Hstep).
  exists res, s'. split; [done|]. split; [by eapply if_reach_call|]. split; [done|].
  by apply empty_view.
Qed.

Definition intf_env1 : intf_env :=
  mkIfEnv (λ s, let p := Pos.of_succ_nat (s_time s) in
    if decide (s_arrays s !! p = None ∧ s_intfs s !! p = None) then Some p else None).

Lemma intf_env1_ok : intf_env_ok intf_env1.
Proof. split. intros s p. cbn. destruct (decide _); [|done]. by intros [= <-]. Qed.

(** Two interfaces named ["a"], the first one without properties of reception. *)
Definition tx1 : props := mkProps 2 [[1; 2]; [3; 4]; [5; 6]].
Definition call1 : if_call := IfRegister (Some [97; 0]) (Some tx1) None None.
Definition call2 : if_call := IfRegister (Some [97; 0]) None (Some tx1) None.
Definition a_name : list Z := 97 :: replicate 31 0.

Definition state_after (c : if_call) (s : intf_state) : intf_state :=
  match if_run intf_env1 c s with Some (_, s) => s | None => s end.
Definition registered1 : intf_state := state_after call2 (state_after call1 intf_state0).

Lemma name_a_ends : 0 ∈ [97; 0].
Proof. right. by left. Qed.

Lemma call1_ok : if_call_ok call1.
Proof. split; [apply name_a_ends|]. cbn. lia. Qed.

Lemma call2_ok : if_call_ok call2.
Proof. split; [apply name_a_ends|]. cbn. lia. Qed.

Lemma registered1_reach : if_reach intf_env1 registered1.
Proof.
  eapply (if_reach_call _ (state_after call1 intf_state0) call2);
    [|apply call2_ok|vm_compute; reflexivity].
  eapply (if_reach_call _ intf_state0 call1);
    [apply if_reach_start|apply call1_ok|vm_compute; reflexivity].
Qed.

Lemma intf_refines_table_witness :
  view registered1 = [mkIface [97] [[1; 2]; [3; 4]] [] [] 33; mkIface [97] [] [[1; 2]; [3; 4]] [] 33] ∧
  ∃ res s', if_run intf_env1 (IfQueryProps Tx (Some (a_name, 2)) (Some (a_name, 2)) true) registered1
              = Some (res, s') ∧ if_reach intf_env1 s' ∧
    table_step (view registered1) (IfQueryProps Tx (Some (a_name, 2)) (Some (a_name, 2)) true) res (view s') ∧
    (view s' = [] → s_arrays s' = ∅ ∧ s_intfs s' = ∅).
Proof.
  split; [vm_compute; reflexivity|].
  apply (intf_refines_table intf_env1 registered1); [apply intf_env1_ok|apply registered1_reach|].
  cbn. split; [lia|done].
Defined.

(** An interface with a name of 40 characters cannot be removed under that name. *)
Example long_name_stays :
  match if_run intf_env1 (IfRegister (Some (replicate 40 97 ++ [0])) (Some tx1) None None) intf_state0 with
  | Some (r, s) => r.1.1 = 0 ∧
      match if_run intf_env1 (IfDeregister (Some (replicate 40 97 ++ [0]))) s with
      | Some (r, s') => r.1.1 = - EINVAL ∧ length (intf_list s') = 1%nat
      | None => False
      end
  | None => False
  end.
Proof. vm_compute. done. Qed.
