(* ===== verification/MsgProps.v ===== *)
(** * IPA messages: properties

    The queue of messages to user space and the cache of wlan clients refine two lists; the
    memory of the payloads; the order in which the mutexes are taken. *)

From S2P Require Import Prelude.
From S2P Require Import Intf.
Import Messages.

(** [kmalloc] returns memory that is not in use. *)
Record msg_env_ok (E : msg_env) : Prop := {
  law_alloc s p : env_alloc E s = Some p → q_bufs s !! p = None ∧ q_msgs s !! p = None;
}.
Existing Class msg_env_ok.

(** ** What the memory stands for *)

(** A message: its metadata and its payload, if it has one. *)
Definition amsg : Type := ipa_msg_meta * option (list Z).

Definition contents (bufs : gmap positive (list Z)) (e : ipa_push_msg) : amsg :=
  (meta e, match buff e with None => None | Some q => bufs !! q end).

Definition view_of (s : msg_state) (l : list positive) : list amsg :=
  omap (λ p, contents (q_bufs s) <$> q_msgs s !! p) l.
Definition queue (s : msg_state) : list amsg := view_of s (msg_list s).
Definition cache (s : msg_state) : list amsg := view_of s (msg_wlan_client_list s).

(** The payload of a connection: all its attributes are there. *)
Definition ex_ok (b : list Z) : Prop :=
  bytes b ∧ ∃ n, num_of_attribs b = Some n ∧ (36 + 12 * Z.to_nat n ≤ length b)%nat.

(** ** The invariant *)

Definition msg_ok (bufs : gmap positive (list Z)) (e : ipa_push_msg) : Prop :=
  0 ≤ msg_type (meta e) < IPA_EVENT_MAX_NUM ∧ 0 ≤ msg_len (meta e) ∧
  match buff e with
  | None => callback e = None
  | Some q => callback e = Some Ipa2SendMsgFree ∧
              ∃ b, bufs !! q = Some b ∧ Z.of_nat (length b) = msg_len (meta e)
  end.

Definition cached_ok (bufs : gmap positive (list Z)) (e : ipa_push_msg) : Prop :=
  ∃ q b, buff e = Some q ∧ bufs !! q = Some b ∧ ex_ok b.

Record msg_inv (s : msg_state) : Prop := {
  mi_nodup : NoDup (msg_list s ++ msg_wlan_client_list s);
  mi_listed p : p ∈ msg_list s ++ msg_wlan_client_list s ↔ is_Some (q_msgs s !! p);
  mi_msg p e : q_msgs s !! p = Some e → msg_ok (q_bufs s) e;
  mi_uniq p e p' e' q : q_msgs s !! p = Some e → q_msgs s !! p' = Some e' →
    buff e = Some q → buff e' = Some q → p = p';
  mi_wlan p e : p ∈ msg_wlan_client_list s → q_msgs s !! p = Some e → cached_ok (q_bufs s) e;
  mi_stats : length (msg_w s) = 41%nat ∧ length (msg_r s) = 41%nat;
  mi_cne : length (q_cne s) = 10%nat ∧ 0 ≤ num_ipa_cne_evt_req s < 10;
}.

(** Memory that no message refers to. *)
Definition stray (s : msg_state) (q : positive) : Prop :=
  is_Some (q_bufs s !! q) ∧ ∀ p e, q_msgs s !! p = Some e → buff e ≠ Some q.

(** The parts that the messages do not touch. *)
Definition same_rest (s s' : msg_state) : Prop :=
  pull_msg_list s' = pull_msg_list s ∧ msg_w s' = msg_w s ∧ msg_r s' = msg_r s ∧
  q_cne s' = q_cne s ∧ num_ipa_cne_evt_req s' = num_ipa_cne_evt_req s.

Lemma same_rest_trans s1 s2 s3 : same_rest s1 s2 → same_rest s2 s3 → same_rest s1 s3.
Proof. unfold same_rest. intros (? & ? & ? & ? & ?) (? & ? & ? & ? & ?). repeat split; congruence. Qed.

(** ** Payloads *)

Lemma read_mac_some b o : (o + 6 ≤ length b)%nat → ∃ mac, read_mac b o = Some mac.
Proof. intros H. unfold read_mac. rewrite (proj2 (Nat.leb_le _ _)) by done. eauto. Qed.

Lemma print_macs_some b n cnt :
  bytes b → (36 + 12 * (cnt + n) ≤ length b)%nat → print_macs b n cnt = Some ().
Proof.
  intros Hb. revert cnt. induction n as [|n IH]; intros cnt Hl; [done|]. cbn [print_macs].
  destruct (le_bytes_some b (36 + 12 * cnt) 4) as (t & Ht & _); [done|lia|].
  unfold attrib_type. rewrite Ht. cbn [mbind option_bind].
  destruct (read_mac_some b (36 + 12 * cnt + 5)) as [mac Hm]; [lia|].
  assert ((if t =? WLAN_HDR_ATTRIB_MAC_ADDR then attrib_mac b cnt ;; Some () else Some ()) = Some ()) as ->.
  { destruct (t =? _); [|done]. unfold attrib_mac. by rewrite Hm. }
  cbn. apply IH. lia.
Qed.

(** Whether a payload has the address among its attributes. *)
Definition holds_mac (mac : list Z) (b : list Z) : bool :=
  default false (n ← num_of_attribs b; has_mac b mac (Z.to_nat n) 0).

Lemma has_mac_some b mac n cnt :
  bytes b → (36 + 12 * (cnt + n) ≤ length b)%nat → ∃ r, has_mac b mac n cnt = Some r.
Proof.
  intros Hb. revert cnt. induction n as [|n IH]; intros cnt Hl; [by eexists|]. cbn [has_mac].
  destruct (le_bytes_some b (36 + 12 * cnt) 4) as (t & Ht & _); [done|lia|].
  destruct (read_mac_some b (36 + 12 * cnt + 5)) as [mac' Hm]; [lia|].
  unfold attrib_mac, attrib_type. rewrite Hm, Ht. cbn [mbind option_bind].
  destruct (_ && _); [by eexists|]. apply IH. lia.
Qed.

Lemma holds_mac_spec mac b n :
  ex_ok b → num_of_attribs b = Some n → has_mac b mac (Z.to_nat n) 0 = Some (holds_mac mac b).
Proof.
  intros (Hb & n' & Hn' & Hl) Hn. rewrite Hn in Hn'. injection Hn' as <-.
  destruct (has_mac_some b mac (Z.to_nat n) 0) as [r Hr]; [done|lia|].
  unfold holds_mac. rewrite Hn. cbn. by rewrite Hr.
Qed.

(** ** Lists of messages *)

Lemma view_same s s' l :
  (∀ p, p ∈ l → q_msgs s' !! p = q_msgs s !! p) →
  (∀ p e q, p ∈ l → q_msgs s !! p = Some e → buff e = Some q → q_bufs s' !! q = q_bufs s !! q) →
  view_of s' l = view_of s l.
Proof.
  unfold view_of. induction l as [|p l IH]; intros Hm Hb; [done|]. cbn [omap list_omap].
  rewrite (Hm p) by by left.
  rewrite IH; [|intros ??; apply Hm; by right|intros ????; eapply Hb; by right].
  destruct (q_msgs s !! p) as [e|] eqn:Hp; [|done]. cbn. unfold contents.
  destruct (buff e) as [q|] eqn:Hq; [|done]. rewrite (Hb p e q); [done|by left|done|done].
Qed.

Lemma view_app s l1 l2 : view_of s (l1 ++ l2) = view_of s l1 ++ view_of s l2.
Proof. apply omap_app. Qed.

Lemma view_cons s p e l :
  q_msgs s !! p = Some e → view_of s (p :: l) = contents (q_bufs s) e :: view_of s l.
Proof. intros Hp. unfold view_of. cbn [omap list_omap]. by rewrite Hp. Qed.

(** ** A new message *)

(** [s'] has the message [p] more than [s], with metadata [m] and payload [pl], in no list. *)
Definition grew (s s' : msg_state) (p : positive) (m : ipa_msg_meta) (pl : option (list Z)) : Prop :=
  q_msgs s !! p = None ∧ msg_list s' = msg_list s ∧
  msg_wlan_client_list s' = msg_wlan_client_list s ∧ same_rest s s' ∧
  match pl with
  | None => q_bufs s' = q_bufs s ∧ q_msgs s' = <[p := mkPush m None None]> (q_msgs s)
  | Some l => ∃ q, q_bufs s !! q = None ∧ q_bufs s' = <[q := l]> (q_bufs s) ∧
                   q_msgs s' = <[p := mkPush m (Some Ipa2SendMsgFree) (Some q)]> (q_msgs s)
  end.

Definition meta_ok (m : ipa_msg_meta) (pl : option (list Z)) : Prop :=
  0 ≤ msg_type m < IPA_EVENT_MAX_NUM ∧ 0 ≤ msg_len m ∧
  match pl with None => True | Some l => Z.of_nat (length l) = msg_len m end.

Section Grew.
Context (s s1 s' : msg_state) (p : positive) (m : ipa_msg_meta) (pl : option (list Z)).
Context (Hi : msg_inv s) (Hg : grew s s1 p m pl) (Hm : meta_ok m pl).
Context (Hmsgs : q_msgs s' = q_msgs s1) (Hbufs : q_bufs s' = q_bufs s1).
Context (Hrest : same_rest s1 s').

Lemma grew_new : ∃ e, q_msgs s' !! p = Some e ∧ meta e = m ∧ msg_ok (q_bufs s') e ∧
  contents (q_bufs s') e = (m, pl) ∧ (∀ q, buff e = Some q → q_bufs s !! q = None) ∧
  (∀ q, is_Some (q_bufs s' !! q) → is_Some (q_bufs s !! q) ∨ buff e = Some q).
Proof.
  destruct Hg as (_ & _ & _ & _ & H). destruct Hm as (Ht & Hl & Hpl). rewrite Hmsgs, Hbufs.
  destruct pl as [l|].
  - destruct H as (q & Hq & -> & ->). rewrite lookup_insert_eq. eexists. split; [done|].
    split; [done|]. unfold msg_ok, contents. cbn. rewrite lookup_insert_eq. split; [by eauto 10|].
    split; [done|]. split; [by intros ? [= <-]|]. intros q'.
    destruct (decide (q' = q)) as [->|Hne]; [by right|]. rewrite lookup_insert_ne by done. by left.
  - destruct H as (-> & ->). rewrite lookup_insert_eq. eexists. split; [done|]. split; [done|].
    unfold msg_ok, contents. cbn. split; [done|]. split; [done|]. split; [done|]. by left.
Qed.

Lemma grew_old p' : p' ≠ p → q_msgs s' !! p' = q_msgs s !! p'.
Proof.
  intros Hne. destruct Hg as (_ & _ & _ & _ & H). rewrite Hmsgs.
  destruct pl as [l|]; [destruct H as (q & _ & _ & ->)|destruct H as (_ & ->)];
    by apply lookup_insert_ne.
Qed.

Lemma grew_buf q : is_Some (q_bufs s !! q) → q_bufs s' !! q = q_bufs s !! q.
Proof.
  intros [b Hb]. destruct Hg as (_ & _ & _ & _ & H). rewrite Hbufs.
  destruct pl as [l|]; [destruct H as (q' & Hq' & -> & _)|by destruct H as (-> & _)].
  apply lookup_insert_ne. congruence.
Qed.

Lemma grew_ok e : msg_ok (q_bufs s) e → msg_ok (q_bufs s') e.
Proof.
  unfold msg_ok. intros (? & ? & H). split; [done|]. split; [done|].
  destruct (buff e) as [q|]; [|done]. destruct H as (? & b & Hb & ?). split; [done|].
  exists b. rewrite grew_buf; [done|eauto].
Qed.

Lemma msg_buf_live p' e q :
  q_msgs s !! p' = Some e → buff e = Some q → is_Some (q_bufs s !! q).
Proof.
  intros He Hq. destruct (mi_msg s Hi p' e He) as (_ & _ & H). rewrite Hq in H.
  destruct H as (_ & b & Hb & _). eauto.
Qed.

Lemma grew_view l : p ∉ l → view_of s' l = view_of s l.
Proof.
  intros Hp. apply view_same.
  - intros p' Hp'. apply grew_old. by intros ->.
  - intros p' e q _ He Hq. apply grew_buf. by eapply msg_buf_live.
Qed.

Lemma grew_unlisted : p ∉ msg_list s ++ msg_wlan_client_list s.
Proof.
  intros H%(mi_listed s Hi). destruct Hg as (Hp & _). rewrite Hp in H. by destruct H.
Qed.

Lemma grew_stray q : stray s' q ↔ stray s q.
Proof.
  destruct grew_new as (e & He & _ & _ & _ & Hfresh & Hold). split.
  - intros [Hq Hno]. destruct (Hold q Hq) as [Hq'|Hq']; [|by destruct (Hno p e He)].
    split; [done|]. intros p' e' He'. apply (Hno p'). rewrite grew_old; [done|].
    intros ->. destruct Hg as (Hp & _). congruence.
  - intros [Hq Hno]. split; [by rewrite grew_buf|]. intros p' e' He'.
    destruct (decide (p' = p)) as [->|Hne].
    + rewrite He in He'. injection He' as <-. intros Hq'. apply Hfresh in Hq'.
      rewrite Hq' in Hq. by destruct Hq.
    + rewrite grew_old in He' by done. by apply (Hno p').
Qed.

(** The new message is put at the end of one of the lists. *)
Lemma grew_inv :
  (msg_list s' = msg_list s ++ [p] ∧ msg_wlan_client_list s' = msg_wlan_client_list s ∨
   msg_list s' = msg_list s ∧ msg_wlan_client_list s' = msg_wlan_client_list s ++ [p] ∧
   ∃ b, pl = Some b ∧ ex_ok b) →
  msg_inv s'.
Proof.
  intros Hl. destruct grew_new as (e & He & _ & Hok & Hc & Hfresh & _).
  pose proof grew_unlisted as Hun.
  assert (msg_list s' ++ msg_wlan_client_list s' ≡ₚ p :: msg_list s ++ msg_wlan_client_list s) as HP.
  { destruct Hl as [[-> ->]|(-> & -> & _)]; solve_Permutation. }
  constructor.
  - rewrite HP. apply list.NoDup_cons. split; [done|apply (mi_nodup s Hi)].
  - intros p'. rewrite HP, elem_of_cons, (mi_listed s Hi).
    destruct (decide (p' = p)) as [->|Hne].
    + rewrite He. split; [eauto|by left].
    + rewrite grew_old by done. split; [by intros [?|?]|by right].
  - intros p' e' He'. destruct (decide (p' = p)) as [->|Hne].
    + rewrite He in He'. by injection He' as <-.
    + rewrite grew_old in He' by done. apply grew_ok. by apply (mi_msg s Hi p').
  - intros p1 e1 p2 e2 q H1 H2 Q1 Q2.
    destruct (decide (p1 = p)) as [->|N1], (decide (p2 = p)) as [->|N2]; [done| | |].
    + rewrite He in H1. injection H1 as <-. rewrite grew_old in H2 by done.
      apply Hfresh in Q1. destruct (msg_buf_live p2 e2 q H2 Q2). congruence.
    + rewrite He in H2. injection H2 as <-. rewrite grew_old in H1 by done.
      apply Hfresh in Q2. destruct (msg_buf_live p1 e1 q H1 Q1). congruence.
    + rewrite grew_old in H1, H2 by done. by apply (mi_uniq s Hi p1 e1 p2 e2 q).
  - intros p' e' Hp' He'.
    assert (p' ≠ p → cached_ok (q_bufs s') e') as Hold.
    { intros Hne. rewrite grew_old in He' by done.
      assert (p' ∈ msg_wlan_client_list s) as Hin.
      { destruct Hl as [[_ Hl]|(_ & Hl & _)]; rewrite Hl in Hp'; [done|].
        apply elem_of_app in Hp' as [?|Hp']; [done|]. by apply list_elem_of_singleton in Hp'. }
      destruct (mi_wlan s Hi p' e' Hin He') as (q & b & Hq & Hb & Hex). exists q, b.
      rewrite grew_buf by eauto. done. }
    destruct (decide (p' = p)) as [->|Hne]; [|by apply Hold].
    destruct Hl as [[_ Hl]|(_ & _ & b & -> & Hex)].
    + exfalso. rewrite Hl in Hp'. apply Hun, elem_of_app. by right.
    + rewrite He in He'. injection He' as <-. unfold contents in Hc. injection Hc as _ Hc.
      destruct (buff e) as [q|] eqn:Hq; [|done]. by exists q, b.
  - destruct Hg as (_ & _ & _ & (_ & Hw & Hr & _) & _). destruct Hrest as (_ & Hw' & Hr' & _).
    rewrite Hw', Hr', Hw, Hr. apply (mi_stats s Hi).
  - destruct Hg as (_ & _ & _ & (_ & _ & _ & Hc1 & Hn1) & _).
    destruct Hrest as (_ & _ & _ & Hc2 & Hn2). rewrite Hc2, Hn2, Hc1, Hn1. apply (mi_cne s Hi).
Qed.

Lemma grew_queue : msg_list s' = msg_list s ++ [p] → queue s' = queue s ++ [(m, pl)].
Proof.
  intros Hl. destruct grew_new as (e & He & _ & _ & Hc & _). pose proof grew_unlisted as Hun.
  rewrite elem_of_app in Hun. unfold queue. rewrite Hl, view_app, grew_view by naive_solver.
  by rewrite (view_cons s' p e), Hc.
Qed.

Lemma grew_cache :
  msg_wlan_client_list s' = msg_wlan_client_list s ++ [p] → cache s' = cache s ++ [(m, pl)].
Proof.
  intros Hl. destruct grew_new as (e & He & _ & _ & Hc & _). pose proof grew_unlisted as Hun.
  rewrite elem_of_app in Hun. unfold cache. rewrite Hl, view_app, grew_view by naive_solver.
  by rewrite (view_cons s' p e), Hc.
Qed.

Lemma grew_queue_same : msg_list s' = msg_list s → queue s' = queue s.
Proof.
  intros Hl. unfold queue. rewrite Hl. apply grew_view. pose proof grew_unlisted as Hun.
  rewrite elem_of_app in Hun. naive_solver.
Qed.

Lemma grew_cache_same : msg_wlan_client_list s' = msg_wlan_client_list s → cache s' = cache s.
Proof.
  intros Hl. unfold cache. rewrite Hl. apply grew_view. pose proof grew_unlisted as Hun.
  rewrite elem_of_app in Hun. naive_solver.
Qed.
End Grew.

(** ** Runs *)

(** Only answers of the environment and operations on mutexes are between the two states. *)
Definition like (s s' : msg_state) : Prop :=
  q_bufs s' = q_bufs s ∧ q_msgs s' = q_msgs s ∧ msg_list s' = msg_list s ∧
  msg_wlan_client_list s' = msg_wlan_client_list s ∧ same_rest s s'.

Lemma like_refl s : like s s.
Proof. done. Qed.

Lemma like_trans s1 s2 s3 : like s1 s2 → like s2 s3 → like s1 s3.
Proof.
  intros (? & ? & ? & ? & S1) (? & ? & ? & ? & S2). unfold like.
  do 4 (split; [congruence|]). by eapply same_rest_trans.
Qed.

Lemma like_inv s s' : like s s' → msg_inv s → msg_inv s'.
Proof.
  intros (Hb & Hm & Hl & Hw & (_ & R1 & R2 & R3 & R4)) [].
  by constructor; rewrite ?Hb, ?Hm, ?Hl, ?Hw, ?R1, ?R2, ?R3, ?R4.
Qed.

Lemma like_queue s s' : like s s' → queue s' = queue s ∧ cache s' = cache s.
Proof.
  intros (Hb & Hm & Hl & Hw & _). unfold queue, cache, view_of. by rewrite Hb, Hm, Hl, Hw.
Qed.

Lemma like_stray s s' q : like s s' → stray s' q ↔ stray s q.
Proof. intros (Hb & Hm & _). unfold stray. by rewrite Hb, Hm. Qed.

(** The payload that a message gets. *)
Definition pl_of (m : ipa_msg_meta) (o : option (list Z)) : option (list Z) :=
  if msg_len m >? 0 then take (Z.to_nat (msg_len m)) <$> o else None.

(** [bf] points to the bytes [o], enough of them. *)
Definition points (s : msg_state) (m : ipa_msg_meta) (bf : option positive) (o : option (list Z))
    : Prop :=
  match bf, o with
  | None, None => True
  | Some q, Some l => q_bufs s !! q = Some l ∧ msg_len m ≤ Z.of_nat (length l)
  | _, _ => False
  end.

Lemma pl_of_ok s m bf o :
  0 ≤ msg_type m < IPA_EVENT_MAX_NUM → 0 ≤ msg_len m → points s m bf o → meta_ok m (pl_of m o).
Proof.
  intros Ht Hl Hp. split; [done|]. split; [done|]. unfold pl_of.
  destruct (Z.gtb_spec (msg_len m) 0) as [H|H]; [|done].
  destruct o as [l|]; [|done]. cbn. destruct bf as [q|]; [|done]. destruct Hp as [_ Hp].
  rewrite length_take. lia.
Qed.

Section Runs.
Context (E : msg_env) {HE : msg_env_ok E}.
Implicit Types s : msg_state.

Lemma wp_buf_at q b s (Q : list Z → msg_state → Prop) :
  q_bufs s !! q = Some b → Q b s → wp (buf_at q) Q s.
Proof. intros Hq HQ. unfold buf_at. wp_step. wp_step. cbn beta. by rewrite Hq. Qed.

Lemma wp_msg_at p e s (Q : ipa_push_msg → msg_state → Prop) :
  q_msgs s !! p = Some e → Q e s → wp (msg_at p) Q s.
Proof. intros Hq HQ. unfold msg_at. wp_step. wp_step. cbn beta. by rewrite Hq. Qed.

Lemma wp_free_msg p s (Q : () → msg_state → Prop) :
  is_Some (q_msgs s !! p) → Q () (with_msgs (delete p (q_msgs s)) s) → wp (free_msg p) Q s.
Proof. intros [e Hp] HQ. unfold free_msg. wp_step. by eapply wp_msg_at. Qed.

Lemma wp_free_buf p s (Q : () → msg_state → Prop) :
  is_Some (q_bufs s !! p) → Q () (with_bufs (delete p (q_bufs s)) s) → wp (free_buf p) Q s.
Proof. intros [e Hp] HQ. unfold free_buf. wp_step. by eapply wp_buf_at. Qed.

Lemma wp_put_msg p m s (Q : () → msg_state → Prop) :
  is_Some (q_msgs s !! p) → Q () (with_msgs (<[p := m]> (q_msgs s)) s) → wp (put_msg p m) Q s.
Proof. intros [e Hp] HQ. unfold put_msg. wp_step. by eapply wp_msg_at. Qed.

Lemma wp_lock l s (Q : () → msg_state → Prop) :
  l ∉ q_held s → Q () (with_locks (l :: q_held s) (Acquire l :: q_locks s) s) →
  wp (mutex_lock l) Q s.
Proof. intros Hl HQ. unfold mutex_lock. wp_step. wp_step. cbn beta. by rewrite decide_False. Qed.

Lemma wp_unlock l s (Q : () → msg_state → Prop) :
  l ∈ q_held s →
  Q () (with_locks (filter (λ k, k ≠ l) (q_held s)) (Release l :: q_locks s) s) →
  wp (mutex_unlock l) Q s.
Proof. intros Hl HQ. unfold mutex_unlock. wp_step. wp_step. cbn beta. by rewrite decide_True. Qed.

Lemma held_restore (l : mutex) (h : list mutex) : l ∉ h → filter (λ k, k ≠ l) (l :: h) = h.
Proof.
  intros Hl. rewrite list.filter_cons_False by naive_solver.
  induction h as [|x h IH]; [done|]. rewrite not_elem_of_cons in Hl. destruct Hl as [Hx Hh].
  rewrite list.filter_cons_True by done. by rewrite IH.
Qed.

Lemma wp_unlock_last l h s (Q : () → msg_state → Prop) :
  q_held s = l :: h → l ∉ h → Q () (with_locks h (Release l :: q_locks s) s) →
  wp (mutex_unlock l) Q s.
Proof.
  intros Hh Hl HQ. apply wp_unlock; [rewrite Hh; left|]. by rewrite Hh, held_restore.
Qed.

Lemma wp_alloc_msg s (Q : option positive → msg_state → Prop) :
  Q None (m_tick s) →
  (∀ p, q_msgs s !! p = None → q_bufs s !! p = None →
     Q (Some p) (with_msgs (<[p := mkPush (mkMeta 0 0 0) None None]> (q_msgs s)) (m_tick s))) →
  wp (alloc_msg E) Q s.
Proof using HE.
  intros H0 H1. unfold alloc_msg, ask. wp_steps.
  destruct (env_alloc E s) as [p|] eqn:Ha; wp_steps; [|done].
  destruct (law_alloc E HE s p Ha). by apply H1.
Qed.

Lemma wp_alloc_buf l s (Q : option positive → msg_state → Prop) :
  Q None (m_tick s) →
  (∀ p, q_msgs s !! p = None → q_bufs s !! p = None →
     Q (Some p) (with_bufs (<[p := l]> (q_bufs s)) (m_tick s))) →
  wp (alloc_buf E l) Q s.
Proof using HE.
  intros H0 H1. unfold alloc_buf, ask. wp_steps.
  destruct (env_alloc E s) as [p|] eqn:Ha; wp_steps; [|done].
  destruct (law_alloc E HE s p Ha). by apply H1.
Qed.

(** A message is filled, or [fail] runs with the message still empty. *)
Lemma wp_fill s s1 p m bf o fail Q :
  q_msgs s !! p = None → points s m bf o →
  q_bufs s1 = q_bufs s → q_msgs s1 = <[p := mkPush (mkMeta 0 0 0) None None]> (q_msgs s) →
  msg_list s1 = msg_list s → msg_wlan_client_list s1 = msg_wlan_client_list s → same_rest s s1 →
  (∀ s2, q_bufs s2 = q_bufs s → q_msgs s2 = q_msgs s1 → msg_list s2 = msg_list s →
     msg_wlan_client_list s2 = msg_wlan_client_list s → same_rest s s2 →
     q_held s2 = q_held s1 → q_locks s2 = q_locks s1 → wp fail (λ _, Q true) s2) →
  (∀ s2, grew s s2 p m (pl_of m o) → q_held s2 = q_held s1 → q_locks s2 = q_locks s1 →
     Q false s2) →
  wp (fill_msg E p m bf fail) Q s1.
Proof using HE.
  intros Hp Hpt Hb Hm Hl Hw Hrest Hfail Hok. unfold fill_msg.
  assert (is_Some (q_msgs s1 !! p)) as Hp1 by (rewrite Hm, lookup_insert_eq; eauto).
  assert (pl_of m o = None → wp (put_msg p (mkPush m None None) ;; mret false) Q s1) as Hnone.
  { intros Hpl. wp_step. apply wp_put_msg; [done|]. apply wp_ret. apply Hok; [|done|done].
    rewrite Hpl. repeat split; try done; try apply Hrest. cbn. by rewrite Hm, insert_insert_eq. }
  unfold pl_of in *. destruct (msg_len m >? 0) eqn:Hlen; [|by apply Hnone].
  destruct bf as [q|], o as [l|]; [|done..|by apply Hnone]. cbn [andb fmap option_fmap option_map].
  rewrite bool_decide_true by eauto. destruct Hpt as [Hq Hlq].
  unfold kmemdup. wp_step. wp_step. apply wp_ret. wp_step.
  eapply wp_buf_at; [by rewrite Hb|]. rewrite (proj2 (Z.ltb_ge _ _)) by lia. wp_step. apply wp_ret.
  apply wp_alloc_buf.
  - wp_step. eapply wp_mono; [apply Hfail; done|]. cbn beta. intros _ s2 H. by apply wp_ret.
  - intros d Hd Hd'. wp_step. apply wp_put_msg; [done|]. apply wp_ret. apply Hok; [|done|done].
    split; [done|]. do 2 (split; [done|]). split; [done|]. exists d. rewrite <- Hb. split; [done|].
    split; [done|]. cbn. by rewrite Hm, insert_insert_eq.
Qed.

(** ** The cache *)

Lemma ex_ok_take n l : bytes l → ex_ok (take n l) → ex_ok l.
Proof.
  intros Hb (Hb' & k & Hk & Hl). split; [done|]. exists k. rewrite length_take in Hl.
  split; [|lia]. revert Hk. unfold num_of_attribs, le_bytes. cbn [seq foldr].
  change (32 + 0)%nat with 32%nat. rewrite !lookup_z_nat, lookup_take_lt by lia. done.
Qed.

(** A connection is cached, or there was no memory and nothing changes. *)
Lemma wp_cache_client m q l s :
  msg_inv s → points s m (Some q) (Some l) → 0 ≤ msg_type m < IPA_EVENT_MAX_NUM → 0 < msg_len m →
  bytes l → ex_ok (take (Z.to_nat (msg_len m)) l) → WlanLock ∉ q_held s →
  wp (cache_client E m (Some q)) (λ failed s', msg_inv s' ∧ q_held s' = q_held s ∧
    q_locks s' = Release WlanLock :: Acquire WlanLock :: q_locks s ∧ same_rest s s' ∧
    msg_list s' = msg_list s ∧ queue s' = queue s ∧ (∀ x, stray s' x ↔ stray s x) ∧
    (∀ x, is_Some (q_bufs s !! x) → q_bufs s' !! x = q_bufs s !! x) ∧
    cache s' = cache s ++ if failed then [] else [(m, pl_of m (Some l))]) s.
Proof using HE.
  intros Hi Hpt Ht Hlen Hb Hex Hheld. pose proof Hpt as [Hq Hlq].
  pose proof (ex_ok_take _ _ Hb Hex) as (_ & n & Hn & Hnl).
  unfold cache_client. wp_step. apply wp_ret. wp_step. eapply wp_buf_at; [exact Hq|].
  wp_step. rewrite Hn. apply wp_ret. wp_step. rewrite print_macs_some by (done || lia). apply wp_ret.
  wp_step. apply wp_lock; [done|].
  set (s0 := with_locks _ _ s). assert (like s s0) as Hlike by done.
  wp_step. apply wp_alloc_msg.
  { wp_step. eapply (wp_unlock_last _ (q_held s)); [done|done|]. apply wp_ret.
    split; [by apply (like_inv s)|]. rewrite app_nil_r. done. }
  intros p Hp Hp'. wp_step. eapply (wp_fill s); try done.
  - intros s2 B M L W R H K. wp_step. apply wp_free_msg; [rewrite M; cbn; rewrite lookup_insert_eq; eauto|].
    eapply (wp_unlock_last _ (q_held s)); [exact H|done|]. apply wp_ret. cbn. rewrite K.
    set (s3 := with_locks _ _ _). assert (like s s3) as Hl2.
    { split; [done|]. split; [cbn; rewrite M; cbn; by rewrite delete_insert_id|]. done. }
    split; [by apply (like_inv _ _ Hl2)|]. split; [done|]. split; [done|]. split; [done|].
    split; [done|]. destruct (like_queue _ _ Hl2) as [Q1 Q2]. rewrite app_nil_r.
    split; [exact Q1|]. split; [intros x; by apply (like_stray _ _ x Hl2)|]. split; [|exact Q2].
    intros x _. cbn. by rewrite B.
  - intros s2 Hg H K. wp_step. wp_step. wp_step. eapply (wp_unlock_last _ (q_held s)); [exact H|done|]. apply wp_ret.
    cbn. rewrite K.
    set (s3 := with_locks _ _ _). pose proof Hg as (_ & GL & GW & GR & _).
    assert (meta_ok m (pl_of m (Some l))) as Hok by (by eapply pl_of_ok; [..|exact Hpt]; lia).
    assert (∃ b, pl_of m (Some l) = Some b ∧ ex_ok b) as Hpl.
    { unfold pl_of. destruct (Z.gtb_spec (msg_len m) 0); [|lia]. eexists. split; [done|exact Hex]. }
    split; [eapply (grew_inv s s2 s3 p m); try done; right; cbn; rewrite GW; done|].
    split; [done|]. split; [done|]. split; [exact GR|]. split; [exact GL|].
    split; [by eapply (grew_queue_same s s2 s3 p m)|].
    split; [intros x; by eapply (grew_stray s s2 s3 p m)|].
    split; [intros x Hx; by eapply (grew_buf s s2 s3 p m)|].
    eapply (grew_cache s s2 s3 p m); try done. cbn. by rewrite GW.
Qed.

(** The messages that a disconnection keeps. *)
Definition keeps (mac : list Z) (a : amsg) : bool :=
  match a.2 with Some b => negb (holds_mac mac b) | None => true end.

Lemma inv_uncached p s :
  msg_inv s → p ∈ msg_wlan_client_list s →
  msg_inv (with_msgs (delete p (q_msgs s))
             (with_wlan_list (filter (λ x, x ≠ p) (msg_wlan_client_list s)) s)) ∧
  p ∉ msg_list s.
Proof.
  intros Hi Hp. pose proof (mi_nodup s Hi) as Hnd. apply list.NoDup_app in Hnd as (N1 & N12 & N2).
  assert (p ∉ msg_list s) as Hnp by (intros H; by apply (N12 p H)).
  split; [|done]. destruct Hi as [M1 M2 M3 M4 M5 M6 M7]. constructor; cbn; try done.
  - apply list.NoDup_app. split; [done|]. split; [|by apply list.NoDup_filter].
    intros x Hx [_ Hx']%list_elem_of_filter. by apply (N12 x).
  - intros x. rewrite lookup_delete_is_Some, <- M2, !elem_of_app, list_elem_of_filter.
    split; [intros [Hx|[? Hx]]; (split; [|auto]); [by intros ->|done]|]. intros [? [?|?]]; auto.
  - intros x e [_ He]%lookup_delete_Some. by apply (M3 x).
  - intros x e x' e' r [_ He]%lookup_delete_Some [_ He']%lookup_delete_Some. by apply M4.
  - intros x e [_ Hx]%list_elem_of_filter [_ He]%lookup_delete_Some. by apply (M5 x).
Qed.

Lemma wp_uncache_all mac l k s :
  msg_inv s → msg_wlan_client_list s = k ++ l →
  wp (uncache_all mac l) (λ _ s', msg_inv s' ∧ q_held s' = q_held s ∧ q_locks s' = q_locks s ∧
    same_rest s s' ∧ msg_list s' = msg_list s ∧ queue s' = queue s ∧ q_bufs s' = q_bufs s ∧
    (∀ x, stray s x → stray s' x) ∧ view_of s' k = view_of s k ∧
    ∃ l', msg_wlan_client_list s' = k ++ l' ∧ view_of s' l' = filter (keeps mac) (view_of s l)) s.
Proof.
  revert k s. induction l as [|p l IH]; intros k s Hi Hw; cbn [uncache_all].
  { apply wp_ret. do 8 (split; [done|]). split; [done|]. by exists []. }
  assert (p ∈ msg_wlan_client_list s) as Hp by (rewrite Hw; apply elem_of_app; right; by left).
  assert (is_Some (q_msgs s !! p)) as [e He]
    by (apply (mi_listed s Hi), elem_of_app; by right).
  destruct (mi_wlan s Hi p e Hp He) as (q & b & Hq & Hb & Hex). pose proof Hex as (_ & n & Hn & _).
  wp_step. unfold uncache. wp_step. eapply wp_msg_at; [exact He|]. wp_step. rewrite Hq. apply wp_ret.
  wp_step. eapply wp_buf_at; [exact Hb|]. wp_step. rewrite Hn. apply wp_ret. wp_step.
  rewrite (holds_mac_spec mac b n) by done. apply wp_ret.
  assert (contents (q_bufs s) e = (meta e, Some b)) as Hc by (unfold contents; by rewrite Hq, Hb).
  destruct (holds_mac mac b) eqn:Hmac; cbn [when].
  - wp_step. wp_step. apply wp_free_msg; [cbn; eauto|].
    destruct (inv_uncached p s Hi Hp) as [Hi1 Hnl].
    set (s1 := with_msgs _ _).
    assert (msg_wlan_client_list s1 = k ++ l) as Hw1.
    { cbn. rewrite Hw. pose proof (mi_nodup s Hi) as Hnd. rewrite Hw in Hnd.
      apply list.NoDup_app in Hnd as (_ & _ & (_ & N12 & [Np _]%list.NoDup_cons)%list.NoDup_app).
      assert (∀ x, x ∈ k → x ≠ p) by (intros x Hx ->; apply (N12 p Hx); by left).
      assert (∀ l0 : list positive, (∀ x, x ∈ l0 → x ≠ p) → filter (λ x, x ≠ p) l0 = l0) as Hf.
      { induction l0 as [|x l0 IH0]; intros Hx; [done|].
        rewrite list.filter_cons_True by (apply Hx; by left). rewrite IH0; [done|].
        intros y Hy. apply Hx. by right. }
      rewrite list.filter_app, list.filter_cons_False by naive_solver.
      rewrite !Hf; [done|by intros x Hx ->|done]. }
    assert (∀ l0 : list positive, p ∉ l0 → view_of s1 l0 = view_of s l0) as Hview.
    { intros l0 Hl0. apply view_same; [|done]. intros x Hx. apply lookup_delete_ne. by intros ->. }
    assert (p ∉ k ++ l) as Hkl.
    { rewrite <- Hw1. cbn. by intros [? _]%list_elem_of_filter. }
    rewrite elem_of_app in Hkl.
    eapply wp_mono; [by apply (IH k)|]. cbn beta.
    intros _ s' (Hi' & Hh & Hk & Hr & Hl & Hqu & Hbf & Hst & Hvk & l' & Hl' & Hv').
    split; [done|]. split; [done|]. split; [done|]. split; [done|]. split; [done|].
    split; [rewrite Hqu; apply Hview; done|]. split; [done|].
    split. { intros x [Hx Hno]. apply Hst. split; [done|]. cbn. intros y e' [_ He']%lookup_delete_Some. by apply (Hno y). }
    split; [rewrite Hvk; apply Hview; naive_solver|]. exists l'. split; [done|].
    rewrite Hv', Hview by naive_solver. rewrite (view_cons s p e) by done. rewrite Hc.
    by rewrite list.filter_cons_False by (unfold keeps; cbn [snd]; rewrite Hmac; auto).
  - apply wp_ret. eapply wp_mono; [apply (IH (k ++ [p])); [done|by rewrite <- app_assoc]|]. cbn beta.
    intros _ s' (Hi' & Hh & Hk & Hr & Hl & Hqu & Hbf & Hst & Hvk & l' & Hl' & Hv').
    do 8 (split; [done|]). rewrite !view_app in Hvk.
    assert (view_of s [p] = [(meta e, Some b)]) as Hv1 by (rewrite (view_cons s p e) by done; by rewrite Hc).
    assert (view_of s' k = view_of s k ∧ view_of s' [p] = view_of s [p]) as [Hvk1 Hvp].
    { apply app_inj_2 in Hvk; [done|]. rewrite Hv1. unfold view_of. cbn.
      assert (is_Some (q_msgs s' !! p)) as [e' ->].
      { apply (mi_listed s' Hi'). rewrite Hl'. rewrite !elem_of_app. right; left; right. by left. }
      done. }
    split; [done|]. exists (p :: l'). rewrite Hl', <- app_assoc. split; [done|].
    change (p :: l') with ([p] ++ l'). change (p :: l) with ([p] ++ l). rewrite !view_app, Hvp, Hv1, Hv'.
    rewrite list.filter_app. by rewrite list.filter_cons_True by (unfold keeps; cbn [snd]; by rewrite Hmac).
Qed.

(** ** Sending *)

(** What clients promise about a message: the payload has the bytes that the metadata says, and
    the payloads of the wlan messages that the cache reads are complete. *)
Definition payload_ok (m : ipa_msg_meta) (o : option (list Z)) : Prop :=
  0 ≤ msg_type m ∧ 0 ≤ msg_len m ∧
  match o with Some l => bytes l ∧ msg_len m ≤ Z.of_nat (length l) | None => True end ∧
  (msg_type m = WLAN_CLIENT_CONNECT_EX →
     ∃ l, o = Some l ∧ 0 < msg_len m ∧ ex_ok (take (Z.to_nat (msg_len m)) l)) ∧
  (msg_type m = WLAN_CLIENT_DISCONNECT → ∃ l, o = Some l ∧ (38 ≤ length l)%nat).

(** What a message does to the cache; a connection is not cached when there is no memory. *)
Definition cache_step (m : ipa_msg_meta) (o : option (list Z)) (c c' : list amsg) : Prop :=
  if msg_type m =? WLAN_CLIENT_CONNECT_EX then c' = c ∨ c' = c ++ [(m, pl_of m o)]
  else if msg_type m =? WLAN_CLIENT_DISCONNECT then
    ∃ l mac, o = Some l ∧ discon_mac l = Some mac ∧ c' = filter (keeps mac) c
  else c' = c.

Lemma wp_wlan_process m bf o s :
  msg_inv s → points s m bf o → payload_ok m o → msg_type m < IPA_EVENT_MAX_NUM →
  WlanLock ∉ q_held s →
  wp (wlan_msg_process E m bf) (λ _ s', msg_inv s' ∧ q_held s' = q_held s ∧ same_rest s s' ∧
    msg_list s' = msg_list s ∧ queue s' = queue s ∧
    (∀ x, is_Some (q_bufs s !! x) → q_bufs s' !! x = q_bufs s !! x) ∧
    (∀ x, stray s x → stray s' x) ∧
    (msg_type m ≠ WLAN_CLIENT_DISCONNECT → ∀ x, stray s' x ↔ stray s x) ∧
    cache_step m o (cache s) (cache s')) s.
Proof using HE.
  intros Hi Hpt (Ht & Hl & Ho & Hex & Hdis) Hmax Hheld. unfold wlan_msg_process, cache_step.
  destruct (Z.eqb_spec (msg_type m) WLAN_CLIENT_CONNECT_EX) as [Hty|Hty].
  - destruct (Hex Hty) as (l & -> & Hlen & Hex'). destruct bf as [q|]; [|done]. destruct Ho as [Hb _].
    wp_step. eapply wp_mono; [by apply wp_cache_client|]. cbn beta.
    intros failed s' (Hi' & Hh & _ & Hr & Hml & Hq & Hst & Hbf & Hc).
    assert ((if failed then mret (- ENOMEM) else
        when (msg_type m =? WLAN_CLIENT_DISCONNECT)
          (q ← of_option (Some q); b ← buf_at q; mac2 ← of_option (discon_mac b);
           mutex_lock WlanLock ;; s0 ← get; uncache_all mac2 (msg_wlan_client_list s0) ;;
           mutex_unlock WlanLock) ;; mret 0)
      = mret (if failed then - ENOMEM else 0) :> MM Z) as ->.
    { destruct failed; [done|]. by rewrite Hty. }
    apply wp_ret. do 6 (split; [done|]). split; [intros x Hx; by apply Hst|]. split; [done|].
    destruct failed; [left; by rewrite Hc, app_nil_r|by right].
  - wp_step. apply wp_ret.
    destruct (Z.eqb_spec (msg_type m) WLAN_CLIENT_DISCONNECT) as [Hd|Hd]; cbn [when].
    2:{ wp_step. apply wp_ret. apply wp_ret. done. }
    destruct (Hdis Hd) as (l & -> & Hlen). destruct bf as [q|]; [|done]. destruct Hpt as [Hq _].
    destruct (read_mac_some l 32) as [mac Hmac]; [lia|].
    wp_step. wp_step. apply wp_ret. wp_step. eapply wp_buf_at; [exact Hq|]. wp_step.
    unfold discon_mac. rewrite Hmac. apply wp_ret. wp_step. apply wp_lock; [done|].
    wp_step. wp_step. cbn beta. wp_step. set (s0 := with_locks _ _ s).
    eapply wp_mono; [apply (wp_uncache_all mac _ [] s0); [by apply (like_inv s)|done]|]. cbn beta.
    intros _ s' (Hi' & Hh & _ & Hr & Hml & Hqu & Hbf & Hst & _ & l' & Hl' & Hv).
    eapply (wp_unlock_last _ (q_held s)); [done|done|]. apply wp_ret.
    split; [by apply (like_inv s')|]. split; [done|]. split; [done|]. split; [done|].
    split; [exact Hqu|]. split; [intros x _; cbn; by rewrite Hbf|]. split; [exact Hst|].
    split; [done|]. exists l, mac. do 2 (split; [done|]).
    unfold cache, view_of in *. cbn in *. by rewrite Hl'.
Qed.

Lemma inv_free_stray q s :
  msg_inv s → stray s q →
  msg_inv (with_bufs (delete q (q_bufs s)) s) ∧
  queue (with_bufs (delete q (q_bufs s)) s) = queue s ∧
  cache (with_bufs (delete q (q_bufs s)) s) = cache s ∧
  ∀ x, stray (with_bufs (delete q (q_bufs s)) s) x ↔ stray s x ∧ x ≠ q.
Proof.
  intros Hi [Hq Hno]. assert (∀ p e x, q_msgs s !! p = Some e → buff e = Some x →
    delete q (q_bufs s) !! x = q_bufs s !! x) as Hother.
  { intros p e x He Hx. apply lookup_delete_ne. intros ->. by apply (Hno p e). }
  assert (∀ l, view_of (with_bufs (delete q (q_bufs s)) s) l = view_of s l) as Hv.
  { intros l. apply view_same; [done|]. intros p e x _ He Hx. by apply (Hother p e). }
  split; [|split; [apply Hv|split; [apply Hv|]]].
  - destruct Hi as [M1 M2 M3 M4 M5 M6 M7]. constructor; cbn; try done.
    + intros p e He. destruct (M3 p e He) as (? & ? & H). split; [done|]. split; [done|].
      destruct (buff e) as [x|] eqn:Hx; [|done]. destruct H as (? & b & Hb & ?). split; [done|].
      exists b. by rewrite (Hother p e).
    + intros p e Hp He. destruct (M5 p e Hp He) as (x & b & Hx & Hb & ?). exists x, b.
      by rewrite (Hother p e).
  - intros x. unfold stray. cbn. rewrite lookup_delete_is_Some. naive_solver.
Qed.

(** A payload is freed. *)
Definition frees (cb : option ipa_msg_free_fn) (type : Z) : Prop :=
  match cb with
  | Some IpaWanMsgFreeCb =>
      type = WAN_UPSTREAM_ROUTE_ADD ∨ type = WAN_UPSTREAM_ROUTE_DEL ∨ type = WAN_EMBMS_CONNECT
  | _ => True
  end.

Lemma wp_run_free f q type s (Q : () → msg_state → Prop) :
  frees (Some f) type → is_Some (q_bufs s !! q) → Q () (with_bufs (delete q (q_bufs s)) s) →
  wp (run_free f (Some q) type) Q s.
Proof.
  intros Hf Hq HQ. destruct f; cbn [run_free]; [by apply wp_free_buf| |by apply wp_free_buf].
  assert ((type =? WAN_UPSTREAM_ROUTE_ADD) || (type =? WAN_UPSTREAM_ROUTE_DEL)
          || (type =? WAN_EMBMS_CONNECT) = true) as ->.
  { rewrite !orb_true_iff, !Z.eqb_eq. cbn in Hf. tauto. }
  by apply wp_free_buf.
Qed.

Lemma inc_stat_some l t : length l = 41%nat → 0 ≤ t < 41 → ∃ l', inc_stat l t = Some l' ∧ length l' = 41%nat.
Proof.
  intros Hl Ht. unfold inc_stat. destruct (lookup_z_lt l t) as [n Hn]; [lia|]. rewrite Hn. cbn.
  replace t with (Z.of_nat (Z.to_nat t)) by lia. rewrite store_z_nat by lia. eexists.
  split; [done|]. by rewrite length_insert.
Qed.

(** The outcomes of [ipa2_send_msg]. *)
Definition sent (m : ipa_msg_meta) (o : option (list Z)) (bf : option positive) (s s' : msg_state)
    : Prop :=
  msg_type m < IPA_EVENT_MAX_NUM ∧ queue s' = queue s ++ [(m, pl_of m o)] ∧
  cache_step m o (cache s) (cache s') ∧
  (∀ x, stray s x → bf ≠ Some x → stray s' x) ∧
  (msg_type m ≠ WLAN_CLIENT_DISCONNECT → ∀ x, stray s' x ↔ stray s x ∧ bf ≠ Some x) ∧
  q_cne s' = q_cne s ∧ num_ipa_cne_evt_req s' = num_ipa_cne_evt_req s ∧
  pull_msg_list s' = pull_msg_list s.

(** The part of [ipa2_send_msg] after the message was put into the queue. *)
Lemma wp_send_tail m bf o cb s0 s :
  msg_inv s → points s m bf o → payload_ok m o → msg_type m < IPA_EVENT_MAX_NUM →
  q_held s = MsgLock :: q_held s0 → q_held s0 = [] →
  queue s = queue s0 ++ [(m, pl_of m o)] → cache s = cache s0 → (∀ x, stray s x ↔ stray s0 x) →
  pull_msg_list s = pull_msg_list s0 → q_cne s = q_cne s0 →
  num_ipa_cne_evt_req s = num_ipa_cne_evt_req s0 →
  (∀ q, bf = Some q → stray s0 q) → (bf = None ↔ cb = None) → frees cb (msg_type m) →
  wp (wlan_msg_process E m bf ;;
      mutex_unlock MsgLock ;;
      s ← get; w ← of_option (inc_stat (msg_w s) (msg_type m));
      modify (with_stats w (msg_r s)) ;;
      match bf, cb with
      | Some _, Some f => run_free f bf (msg_type m)
      | _, _ => mret ()
      end ;;
      mret 0)
     (λ r s', msg_inv s' ∧ q_held s' = [] ∧ r = 0 ∧ sent m o bf s0 s') s.
Proof using HE.
  intros Hi Hpt Hpay Hmax Hh Hh0 Hqu Hca Hst Hpull Hcne Hnum Hbf Hcb Hfree.
  wp_step. eapply wp_mono; [apply (wp_wlan_process m bf o); [done..|]|].
  { rewrite Hh, Hh0. by intros [?|?%elem_of_nil]%elem_of_cons. }
  cbn beta. intros _ s1 (Hi1 & Hh1 & Hr1 & Hl1 & Hq1 & Hb1 & Hs1 & Hs1' & Hc1).
  wp_step. eapply (wp_unlock_last MsgLock []); [by rewrite Hh1, Hh, Hh0|by intros ?%elem_of_nil|].
  cbn beta. wp_step. wp_step. cbn beta. wp_step.
  destruct (inc_stat_some (msg_w s1) (msg_type m)) as (w & Hw & Hwl).
  { apply (mi_stats s1 Hi1). } { destruct Hpay. unfold IPA_EVENT_MAX_NUM in Hmax. lia. }
  cbn [msg_w with_locks]. rewrite Hw. apply wp_ret. wp_step. wp_step.
  set (s2 := with_stats _ _ _).
  assert (msg_inv s2) as Hi2.
  { destruct Hi1 as [M1 M2 M3 M4 M5 M6 M7]. constructor; try done. cbn. split; [done|apply M6]. }
  destruct Hr1 as (Hp1 & _ & _ & Hcn1 & Hn1).
  destruct bf as [q|], cb as [f|]; [|exfalso; naive_solver|exfalso; naive_solver|].
  - destruct o as [l|]; [|done]. destruct Hpt as [Hq _].
    wp_step. apply wp_run_free; [done|cbn; rewrite Hb1 by eauto; eauto|]. apply wp_ret.
    assert (stray s2 q) as Hstray by (apply Hs1, Hst, Hbf; done).
    destruct (inv_free_stray q s2 Hi2 Hstray) as (Hi3 & Hq3 & Hc3 & Hs3).
    split; [done|]. split; [done|]. split; [done|]. split; [done|].
    split; [rewrite Hq3; change (queue s2) with (queue s1); by rewrite Hq1|].
    split; [rewrite Hc3; change (cache s2) with (cache s1); by rewrite <- Hca|].
    split; [intros x Hx Hne; apply Hs3; split; [by apply Hs1, Hst|congruence]|].
    split; [|cbn; rewrite Hcn1, Hn1, Hp1; done].
    intros Hty x. rewrite Hs3. change (stray s2 x) with (stray s1 x). rewrite Hs1', Hst by done.
    split; intros [? ?]; (split; [done|congruence]).
  - wp_step. apply wp_ret. apply wp_ret. split; [done|]. split; [done|]. split; [done|]. split; [done|].
    split; [change (queue s2) with (queue s1); by rewrite Hq1|].
    split; [change (cache s2) with (cache s1); by rewrite <- Hca|].
    split; [intros x Hx _; by apply Hs1, Hst|].
    split; [|cbn; rewrite Hcn1, Hn1, Hp1; done].
    intros Hty x. change (stray s2 x) with (stray s1 x). rewrite Hs1', Hst by done. naive_solver.
Qed.

Lemma wp_send_msg m bf o cb s :
  msg_inv s → q_held s = [] → points s m bf o → payload_ok m o →
  (∀ q, bf = Some q → stray s q) → (bf = None ↔ cb = None) → frees cb (msg_type m) →
  wp (ipa2_send_msg E (Some m) bf cb) (λ r s', msg_inv s' ∧ q_held s' = [] ∧
    (r < 0 ∧ like s s' ∨ r = 0 ∧ sent m o bf s s')) s.
Proof using HE.
  intros Hi Hh Hpt Hpay Hbf Hcb Hfree. unfold ipa2_send_msg.
  assert (∀ r s', r < 0 → like s s' → q_held s' = [] → msg_inv s' ∧ q_held s' = [] ∧
    (r < 0 ∧ like s s' ∨ r = 0 ∧ sent m o bf s s')) as Hfail.
  { intros r s' Hr Hs' Hh'. split; [by apply (like_inv s)|]. split; [done|]. by left. }
  assert (wp (if msg_type m >=? IPA_EVENT_MAX_NUM then mret (- EINVAL)
      else
        o0 ← alloc_msg E;
        match o0 with
        | None => mret (- ENOMEM)
        | Some p =>
            failed ← fill_msg E p m bf (free_msg p);
            if (failed : bool) then mret (- ENOMEM)
            else
              mutex_lock MsgLock ;;
              modify (λ s, with_msg_list (msg_list s ++ [p]) s) ;;
              wlan_msg_process E m bf ;;
              mutex_unlock MsgLock ;;
              s ← get; w ← of_option (inc_stat (msg_w s) (msg_type m));
              modify (with_stats w (msg_r s)) ;;
              match bf, cb with
              | Some _, Some f => run_free f bf (msg_type m)
              | _, _ => mret ()
              end ;;
              mret 0
        end) (λ r s', msg_inv s' ∧ q_held s' = [] ∧
    (r < 0 ∧ like s s' ∨ r = 0 ∧ sent m o bf s s')) s) as Hmain.
  2:{ destruct bf, cb; naive_solver. }
  destruct (Z.geb_spec (msg_type m) IPA_EVENT_MAX_NUM) as [Hty|Hty]; [by apply wp_ret, Hfail|].
  wp_step. apply wp_alloc_msg; [by apply wp_ret, Hfail|]. intros p Hp Hp'.
  wp_step. eapply (wp_fill s); try done.
  - intros s2 B M L W R H K. apply wp_free_msg; [rewrite M; cbn; rewrite lookup_insert_eq; eauto|].
    apply wp_ret. apply Hfail; [done| |cbn; by rewrite H].
    split; [done|]. split; [cbn; rewrite M; cbn; by rewrite delete_insert_id|]. done.
  - intros s2 Hg H K. wp_step. apply wp_lock; [rewrite H; cbn; rewrite Hh; by intros ?%elem_of_nil|].
    wp_step. wp_step. cbn beta. set (s3 := with_msg_list _ _).
    pose proof Hg as (_ & GL & GW & GR & _).
    assert (meta_ok m (pl_of m o)) as Hok.
    { destruct Hpay as (? & ? & _). by eapply (pl_of_ok s m bf). }
    assert (msg_list s3 = msg_list s ++ [p]) as Hl3 by (cbn; by rewrite GL).
    assert (msg_inv s3) as Hi3.
    { eapply (grew_inv s s2 s3 p m); try done. by left. }
    eapply wp_mono; [apply (wp_send_tail m bf o cb s s3); try done|].
    + unfold points in *. destruct bf as [q|], o as [l|]; try done. destruct Hpt as [Hq ?].
      split; [|done]. assert (q_bufs s3 !! q = q_bufs s !! q) as ->; [|done].
      eapply (grew_buf s s2 s3 p m); eauto.
    + cbn. rewrite H. cbn. by rewrite Hh.
    + by eapply (grew_queue s s2 s3 p m).
    + by eapply (grew_cache_same s s2 s3 p m).
    + intros x. by eapply (grew_stray s s2 s3 p m).
    + cbn. apply GR.
    + cbn. apply GR.
    + cbn. apply GR.
    + cbn beta. intros r s' (? & ? & -> & ?). split; [done|]. split; [done|]. by right.
Qed.

(** ** Sending again *)

Lemma cached_contents s p :
  msg_inv s → p ∈ msg_wlan_client_list s →
  ∃ e q b, q_msgs s !! p = Some e ∧ buff e = Some q ∧ q_bufs s !! q = Some b ∧ ex_ok b ∧
    Z.of_nat (length b) = msg_len (meta e) ∧ contents (q_bufs s) e = (meta e, Some b) ∧
    meta_ok (meta e) (Some b).
Proof.
  intros Hi Hp.
  assert (is_Some (q_msgs s !! p)) as [e He] by (apply (mi_listed s Hi), elem_of_app; by right).
  destruct (mi_wlan s Hi p e Hp He) as (q & b & Hq & Hb & Hex).
  destruct (mi_msg s Hi p e He) as (Ht & Hl & H). rewrite Hq in H.
  destruct H as (_ & b' & Hb' & Hlen). rewrite Hb in Hb'. injection Hb' as <-.
  exists e, q, b. unfold contents. rewrite Hq, Hb. done.
Qed.

Lemma wp_resend_one p s :
  msg_inv s → p ∈ msg_wlan_client_list s → MsgLock ∉ q_held s →
  wp (resend_one E p) (λ failed s', msg_inv s' ∧ q_held s' = q_held s ∧
    msg_wlan_client_list s' = msg_wlan_client_list s ∧ cache s' = cache s ∧
    (∀ x, stray s' x ↔ stray s x) ∧ same_rest s s' ∧
    (∀ l, (∀ x, x ∈ l → x ∈ msg_wlan_client_list s) → view_of s' l = view_of s l) ∧
    queue s' = queue s ++ if failed then [] else view_of s [p]) s.
Proof using HE.
  intros Hi Hp Hh. destruct (cached_contents s p Hi Hp) as (e & q & b & He & Hq & Hb & Hex & Hlen & Hc & Hok).
  pose proof Hex as (Hby & n & Hn & Hnl).
  assert (∀ s', like s s' → q_held s' = q_held s → msg_inv s' ∧ q_held s' = q_held s ∧
    msg_wlan_client_list s' = msg_wlan_client_list s ∧ cache s' = cache s ∧
    (∀ x, stray s' x ↔ stray s x) ∧ same_rest s s' ∧
    (∀ l, (∀ x, x ∈ l → x ∈ msg_wlan_client_list s) → view_of s' l = view_of s l) ∧
    queue s' = queue s ++ []) as Hfail.
  { intros s' Hs' Hh'. destruct (like_queue s s' Hs') as [HQ HC]. pose proof Hs' as (B & M & _ & W & R).
    split; [by apply (like_inv s)|]. do 3 (split; [done|]).
    split; [intros x; by apply like_stray|]. split; [done|].
    split; [intros l _; unfold view_of; by rewrite B, M|by rewrite app_nil_r]. }
  unfold resend_one. wp_step. eapply wp_msg_at; [exact He|]. wp_step. rewrite Hq. apply wp_ret.
  wp_step. eapply wp_buf_at; [exact Hb|]. wp_step. rewrite Hn. apply wp_ret. wp_step.
  rewrite print_macs_some by (done || lia). apply wp_ret. wp_step.
  apply wp_alloc_msg; [by apply wp_ret, Hfail|]. intros x Hx Hx'. wp_step.
  unfold kmemdup. wp_step. apply wp_ret. wp_step. eapply wp_buf_at; [exact Hb|].
  rewrite (proj2 (Z.ltb_ge _ _)) by lia. wp_step. apply wp_ret. apply wp_alloc_buf.
  { wp_step. apply wp_free_msg; [cbn; rewrite lookup_insert_eq; eauto|]. apply wp_ret.
    apply Hfail; [|done]. split; [done|]. split; [cbn; by rewrite delete_insert_id|]. done. }
  intros d Hd Hd'. cbn in Hd, Hd'. wp_step.
  apply wp_put_msg; [cbn; rewrite lookup_insert_eq; eauto|]. wp_step. apply wp_lock; [done|].
  wp_step. wp_step. wp_step. eapply (wp_unlock_last _ (q_held s)); [done|done|]. apply wp_ret.
  rewrite (take_ge b) by lia.
  set (s3 := with_locks _ _ _). cbn in s3.
  set (s2 := with_msgs (<[x := mkPush (meta e) (Some Ipa2SendMsgFree) (Some d)]> (q_msgs s))
               (with_bufs (<[d := b]> (q_bufs s)) s)).
  assert (grew s s2 x (meta e) (Some b)) as Hg by (repeat split; try done; by exists d).
  assert (q_msgs s3 = q_msgs s2) as HM by (cbn; by rewrite insert_insert_eq).
  assert (q_bufs s3 = q_bufs s2) as HB by done.
  assert (same_rest s2 s3) as HR by done.
  assert (msg_list s3 = msg_list s ++ [x]) as HL by done.
  assert (msg_wlan_client_list s3 = msg_wlan_client_list s) as HW by done.
  split; [eapply (grew_inv s s2 s3 x); try done; by left|]. split; [done|]. split; [done|].
  split; [by eapply (grew_cache_same s s2 s3 x)|]. split; [intros y; by eapply (grew_stray s s2 s3 x)|].
  split; [done|]. split.
  - intros l Hl. eapply (grew_view s s2 s3 x); try done. intros H%Hl.
    eapply (grew_unlisted s s2 x); [done|done|]. apply elem_of_app. by right.
  - rewrite (view_cons s p e) by done. rewrite Hc. by eapply (grew_queue s s2 s3 x).
Qed.

Lemma wp_resend_all l s :
  msg_inv s → (∀ x, x ∈ l → x ∈ msg_wlan_client_list s) → MsgLock ∉ q_held s →
  wp (resend_all E l) (λ failed s', msg_inv s' ∧ q_held s' = q_held s ∧ cache s' = cache s ∧
    (∀ x, stray s' x ↔ stray s x) ∧ same_rest s s' ∧
    if (failed : bool) then ∃ k, (k < length (view_of s l))%nat ∧ queue s' = queue s ++ take k (view_of s l)
    else queue s' = queue s ++ view_of s l) s.
Proof using HE.
  revert s. induction l as [|p l IH]; intros s Hi Hl Hh; cbn [resend_all].
  { apply wp_ret. cbn. by rewrite app_nil_r. }
  assert (p ∈ msg_wlan_client_list s) as Hp by (apply Hl; by left).
  destruct (cached_contents s p Hi Hp) as (e & q & b & He & _ & _ & _ & _ & Hc & _).
  assert (view_of s (p :: l) = (meta e, Some b) :: view_of s l) as Hv
    by (rewrite (view_cons s p e) by done; by rewrite Hc).
  assert (view_of s [p] = [(meta e, Some b)]) as Hv1
    by (rewrite (view_cons s p e) by done; by rewrite Hc).
  wp_step. eapply wp_mono; [by apply wp_resend_one|]. cbn beta.
  intros failed s1 (Hi1 & Hh1 & Hw1 & Hc1 & Hs1 & Hr1 & Hv1' & Hq1). rewrite Hv. destruct failed.
  - apply wp_ret. split; [done|]. split; [done|]. split; [done|]. split; [done|]. split; [done|].
    exists 0%nat. cbn. split; [lia|done].
  - assert (view_of s1 l = view_of s l) as Hvl.
    { apply Hv1'. intros x Hx. apply Hl. by right. }
    eapply wp_mono; [apply IH; [done|rewrite Hw1; intros x Hx; apply Hl; by right|by rewrite Hh1]|].
    cbn beta. intros failed s2 (Hi2 & Hh2 & Hc2 & Hs2 & Hr2 & Hq2).
    split; [done|]. split; [congruence|]. split; [congruence|].
    split; [intros x; by rewrite Hs2, Hs1|]. split; [by eapply same_rest_trans|].
    rewrite Hq1, Hvl, Hv1 in Hq2. destruct failed.
    + destruct Hq2 as (k & Hk & Hq2). exists (S k). cbn [length take]. split; [lia|].
      by rewrite Hq2, <- app_assoc.
    + by rewrite Hq2, <- app_assoc.
Qed.

Lemma wp_resend s :
  msg_inv s → q_held s = [] →
  wp (ipa2_resend_wlan_msg E) (λ r s', msg_inv s' ∧ q_held s' = [] ∧ cache s' = cache s ∧
    (∀ x, stray s' x ↔ stray s x) ∧ same_rest s s' ∧
    (r = 0 ∧ queue s' = queue s ++ cache s ∨
     r = - ENOMEM ∧ ∃ k, (k < length (cache s))%nat ∧ queue s' = queue s ++ take k (cache s))) s.
Proof using HE.
  intros Hi Hh. unfold ipa2_resend_wlan_msg. wp_step.
  apply wp_lock; [rewrite Hh; by intros ?%elem_of_nil|]. wp_step. wp_step. cbn beta. wp_step.
  set (s0 := with_locks _ _ s). assert (like s s0) as Hlike by done.
  eapply wp_mono; [apply (wp_resend_all (msg_wlan_client_list s0) s0)|].
  { by apply (like_inv s). } { done. }
  { cbn. rewrite Hh. by intros [?|?%elem_of_nil]%elem_of_cons. }
  cbn beta. intros failed s1 (Hi1 & Hh1 & Hc1 & Hs1 & Hr1 & Hq1). wp_step.
  eapply (wp_unlock_last WlanLock []); [by rewrite Hh1; cbn; rewrite Hh|by intros ?%elem_of_nil|].
  apply wp_ret. set (s2 := with_locks _ _ s1). assert (like s1 s2) as Hl2 by done.
  split; [by apply (like_inv s1)|]. split; [done|]. split; [exact Hc1|].
  split; [intros x; apply (Hs1 x)|]. split; [exact Hr1|].
  change (queue s2) with (queue s1). change (queue s0) with (queue s) in Hq1.
  change (view_of s0 (msg_wlan_client_list s0)) with (cache s) in Hq1.
  destruct failed; [right|left]; done.
Qed.

(** ** Reading *)

(** The message at the head is gone; its payload is freed, or stays behind. *)
Definition popped (s s' : msg_state) (p : positive) (l : list positive) (freed : bool) : Prop :=
  ∃ e, q_msgs s !! p = Some e ∧ msg_list s = p :: l ∧
  q_msgs s' = delete p (q_msgs s) ∧ msg_list s' = l ∧
  msg_wlan_client_list s' = msg_wlan_client_list s ∧
  q_bufs s' = match buff e with
              | Some q => if freed then delete q (q_bufs s) else q_bufs s
              | None => q_bufs s
              end ∧
  length (msg_w s') = 41%nat ∧ length (msg_r s') = 41%nat ∧
  q_cne s' = q_cne s ∧ num_ipa_cne_evt_req s' = num_ipa_cne_evt_req s ∧
  pull_msg_list s' = pull_msg_list s.

Lemma popped_keeps s s' p l freed :
  msg_inv s → popped s s' p l freed →
  msg_inv s' ∧ cache s' = cache s ∧ queue s' = tail (queue s) ∧ (∀ x, stray s x → stray s' x) ∧
  (freed = true → ∀ x, stray s' x ↔ stray s x).
Proof.
  intros Hi (e & He & Hl & HM & HL & HW & HB & Hw & Hr & Hc & Hn & _).
  pose proof (mi_nodup s Hi) as Hnd. rewrite Hl in Hnd. cbn in Hnd.
  apply list.NoDup_cons in Hnd as [Hp Hnd].
  assert (∀ x f q, x ≠ p → q_msgs s !! x = Some f → buff f = Some q → q_bufs s' !! q = q_bufs s !! q) as Hbuf.
  { intros x f q Hx Hf Hq. rewrite HB. destruct (buff e) as [r|] eqn:Hr'; [|done].
    destruct freed; [|done]. apply lookup_delete_ne. intros ->.
    apply Hx. by apply (mi_uniq s Hi x f p e q). }
  assert (∀ k : list positive, p ∉ k → view_of s' k = view_of s k) as Hview.
  { intros k Hk. apply view_same.
    - intros x Hx. rewrite HM. apply lookup_delete_ne. by intros ->.
    - intros x f q Hx Hf Hq. apply (Hbuf x f); [by intros ->|done|done]. }
  rewrite elem_of_app in Hp. split; [|split; [|split; [|split]]].
  - constructor; rewrite ?HM, ?HL, ?HW.
    + done.
    + intros x. rewrite lookup_delete_is_Some, <- (mi_listed s Hi), Hl. cbn. rewrite elem_of_cons.
      rewrite elem_of_app. split; [|by intros [? [->|?]]]. intros Hx. split; [|by right].
      intros ->. by apply Hp.
    + intros x f [Hx Hf]%lookup_delete_Some. destruct (mi_msg s Hi x f Hf) as (? & ? & H).
      split; [done|]. split; [done|]. destruct (buff f) as [q|] eqn:Hq; [|done].
      destruct H as (? & b & Hb & ?). split; [done|]. exists b. by rewrite (Hbuf x f).
    + intros x f y g q [_ Hf]%lookup_delete_Some [_ Hg]%lookup_delete_Some. by apply (mi_uniq s Hi).
    + intros x f Hx [Hne Hf]%lookup_delete_Some.
      destruct (mi_wlan s Hi x f Hx Hf) as (q & b & Hq & Hb & ?). exists q, b.
      rewrite (Hbuf x f); done.
    + done.
    + rewrite Hc, Hn. apply (mi_cne s Hi).
  - unfold cache. rewrite HW. apply Hview. naive_solver.
  - unfold queue. rewrite HL, Hl, (view_cons s p e) by done. cbn. apply Hview. naive_solver.
  - intros x [Hx Hno]. split.
    + rewrite HB. destruct (buff e) as [q|] eqn:Hq; [|done]. destruct freed; [|done].
      rewrite lookup_delete_ne; [done|]. intros ->. by apply (Hno p e).
    + intros y f. rewrite HM. intros [_ Hf]%lookup_delete_Some. by apply (Hno y).
  - intros -> x. split.
    + intros [Hx Hno]. rewrite HB in Hx. destruct (buff e) as [q|] eqn:Hq.
      * apply lookup_delete_is_Some in Hx as [Hne Hx]. split; [done|]. intros y f Hf.
        destruct (decide (y = p)) as [->|Hy]; [rewrite He in Hf; injection Hf as <-; congruence|].
        apply (Hno y). by rewrite HM, lookup_delete_ne.
      * split; [done|]. intros y f Hf.
        destruct (decide (y = p)) as [->|Hy]; [rewrite He in Hf; injection Hf as <-; congruence|].
        apply (Hno y). by rewrite HM, lookup_delete_ne.
    + intros [Hx Hno]. split.
      * rewrite HB. destruct (buff e) as [q|] eqn:Hq; [|done].
        rewrite lookup_delete_ne; [done|]. intros ->. by apply (Hno p e).
      * intros y f. rewrite HM. intros [_ Hf]%lookup_delete_Some. by apply (Hno y).
Qed.

(** The bytes that user space reads for a message, and whether they fit into a buffer. *)
Definition bytes_of (a : amsg) : list Z := meta_bytes a.1 ++ default [] a.2.
Definition fits (count : Z) (a : amsg) : Prop := Z.of_nat (length (bytes_of a)) ≤ count.

Lemma wp_deliver p l count s s0 :
  msg_inv s0 → msg_list s0 = p :: l → s = with_msg_list l s0 ∨ like (with_msg_list l s0) s →
  wp (deliver E p count) (λ out s', q_held s' = q_held s ∧
    ∃ a, head (queue s0) = Some a ∧
    match out with
    | None => popped s0 s' p l false
    | Some b => b = bytes_of a ∧ fits count a ∧ popped s0 s' p l true
    end) s.
Proof.
  intros Hi Hl Hs.
  assert (like (with_msg_list l s0) s) as (B & M & L & W & (P & Sw & Sr & C & N)).
  { destruct Hs as [->|Hs]; [apply like_refl|done]. }
  cbn in B, M, L, W, P, Sw, Sr, C, N. clear Hs.
  assert (is_Some (q_msgs s0 !! p)) as [e He].
  { apply (mi_listed s0 Hi). rewrite Hl. by left. }
  assert (head (queue s0) = Some (contents (q_bufs s0) e)) as Hhead.
  { unfold queue. rewrite Hl. by rewrite (view_cons s0 p e). }
  destruct (mi_msg s0 Hi p e He) as (Ht & Hlen & Hbuf).
  destruct (mi_stats s0 Hi) as [HSw HSr].
  assert (∀ s', q_bufs s' = q_bufs s → q_msgs s' = delete p (q_msgs s) → msg_list s' = msg_list s →
    msg_wlan_client_list s' = msg_wlan_client_list s → same_rest s s' → popped s0 s' p l false) as Hfail.
  { intros s' B' M' L' W' (P' & Sw' & Sr' & C' & N'). exists e. split; [done|]. split; [done|].
    rewrite B', M', L', W', P', Sw', Sr', C', N', B, M, L, W, P, Sw, Sr, C, N.
    destruct (buff e); done. }
  unfold deliver. wp_step. eapply wp_msg_at; [by rewrite M|].
  destruct (Z.ltb_spec count sizeof_meta) as [Hc|Hc]; unfold sizeof_meta in *.
  { wp_step. apply wp_free_msg; [rewrite M; eauto|]. apply wp_ret. split; [done|].
    eexists. split; [exact Hhead|]. by apply Hfail. }
  wp_step. unfold ask. wp_steps. destruct (env_copy E s); cbn [negb].
  2:{ wp_step. apply wp_free_msg; [cbn; rewrite M; eauto|]. apply wp_ret. split; [done|].
      eexists. split; [exact Hhead|]. by apply Hfail. }
  assert (∀ out s1, q_held s1 = q_held s → q_bufs s1 = match buff e with Some q => delete q (q_bufs s0) | None => q_bufs s0 end →
    q_msgs s1 = q_msgs s0 → msg_list s1 = l → msg_wlan_client_list s1 = msg_wlan_client_list s0 → same_rest s s1 →
    out = bytes_of (contents (q_bufs s0) e) → fits count (contents (q_bufs s0) e) →
    wp (s ← get; r ← of_option (inc_stat (msg_r s) (msg_type (meta e)));
        modify (with_stats (msg_w s) r) ;;
        free_msg p ;; mret (Some out))
      (λ out s', q_held s' = q_held s ∧
        ∃ a, head (queue s0) = Some a ∧
        match out with
        | None => popped s0 s' p l false
        | Some b => b = bytes_of a ∧ fits count a ∧ popped s0 s' p l true
        end) s1) as Hend.
  { intros out s1 H1 B1 M1 L1 W1 (P1 & Sw1 & Sr1 & C1 & N1) Hout Hfit.
    destruct (inc_stat_some (msg_r s1) (msg_type (meta e))) as (r & Hr & Hrl).
    { by rewrite Sr1, Sr. } { unfold IPA_EVENT_MAX_NUM in Ht. lia. }
    wp_step. wp_step. cbn beta. wp_step. rewrite Hr. apply wp_ret. wp_step. wp_step. cbn beta.
    wp_step. apply wp_free_msg; [cbn; rewrite M1; eauto|]. apply wp_ret. split; [done|].
    eexists. split; [exact Hhead|]. split; [done|]. split; [done|]. exists e. cbn.
    rewrite B1, M1, L1, W1, P1, Sw1, C1, N1, P, Sw, C, N. destruct (buff e); done. }
  destruct (buff e) as [q|] eqn:Hq.
  - destruct Hbuf as (Hcb & b & Hb & Hbl).
    destruct (Z.geb_spec (count - 4) (msg_len (meta e))) as [Hge|Hlt].
    2:{ wp_step. wp_step. apply wp_free_msg; [cbn; rewrite M; eauto|]. apply wp_ret, wp_ret.
        split; [done|]. eexists. split; [exact Hhead|]. by apply Hfail. }
    wp_step. wp_step. eapply wp_buf_at; [cbn; by rewrite B|].
    rewrite (proj2 (Z.ltb_ge _ _)) by lia. wp_step. apply wp_ret. wp_steps.
    destruct (env_copy E (m_tick s)); cbn [negb].
    2:{ wp_step. apply wp_free_msg; [cbn; rewrite M; eauto|]. apply wp_ret, wp_ret.
        split; [done|]. eexists. split; [exact Hhead|]. by apply Hfail. }
    wp_step. rewrite Hcb. apply wp_ret. wp_step. apply wp_run_free; [done|cbn; rewrite B, Hb; eauto|].
    apply wp_ret. rewrite (take_ge b) by lia. apply Hend; cbn; try done.
    + by rewrite B.
    + unfold contents. rewrite Hq, Hb. done.
    + unfold fits, bytes_of, contents. rewrite Hq, Hb. cbn. lia.
  - wp_step. apply wp_ret. apply Hend; cbn; try done.
    + unfold contents, bytes_of. by rewrite Hq.
    + unfold fits, bytes_of, contents. rewrite Hq. cbn. lia.
Qed.

(** One turn of the reader, on the queue. *)
Definition read_step (q : list amsg) (nonblock : bool) (count : Z) (r : option (Z * list Z))
    (q' : list amsg) : Prop :=
  match q with
  | [] => q' = [] ∧ (r = (if nonblock then Some (- EAGAIN, []) else None) ∨
                     nonblock = false ∧ r = Some (- EINTR, []))
  | a :: q0 =>
      q' = q0 ∧ (r = Some (- EFAULT, []) ∨
                 fits count a ∧ r = Some (Z.of_nat (length (bytes_of a)), bytes_of a))
  end.

Lemma wp_read_turn nonblock count s :
  msg_inv s → q_held s = [] →
  wp (read_turn E nonblock count) (λ r s', msg_inv s' ∧ q_held s' = [] ∧ cache s' = cache s ∧
    read_step (queue s) nonblock count r (queue s') ∧ (∀ x, stray s x → stray s' x) ∧
    (r ≠ Some (- EFAULT, []) → ∀ x, stray s' x ↔ stray s x) ∧
    q_cne s' = q_cne s ∧ num_ipa_cne_evt_req s' = num_ipa_cne_evt_req s ∧
    pull_msg_list s' = pull_msg_list s) s.
Proof.
  intros Hi Hh. unfold read_turn. wp_step. apply wp_lock; [rewrite Hh; by intros ?%elem_of_nil|].
  wp_step. wp_step. cbn beta. cbn [msg_list with_locks].
  destruct (msg_list s) as [|p l] eqn:Hl.
  - assert (queue s = []) as Hq by (unfold queue; by rewrite Hl).
    unfold ask. wp_steps.
    assert (∀ r, r = (if nonblock then Some (- EAGAIN, []) else None) ∨
                 nonblock = false ∧ r = Some (- EINTR, []) →
      wp (mutex_unlock MsgLock ;; mret r) (λ r s', msg_inv s' ∧ q_held s' = [] ∧ cache s' = cache s ∧
    read_step (queue s) nonblock count r (queue s') ∧ (∀ x, stray s x → stray s' x) ∧
    (r ≠ Some (- EFAULT, []) → ∀ x, stray s' x ↔ stray s x) ∧
    q_cne s' = q_cne s ∧ num_ipa_cne_evt_req s' = num_ipa_cne_evt_req s ∧
    pull_msg_list s' = pull_msg_list s)
      (m_tick (with_locks (MsgLock :: q_held s) (Acquire MsgLock :: q_locks s) s))) as Hend.
    { intros r Hr. wp_step. eapply (wp_unlock_last MsgLock []); [cbn; by rewrite Hh|by intros ?%elem_of_nil|].
      apply wp_ret. set (s' := with_locks _ _ _). assert (like s s') as Hs' by done.
      split; [by apply (like_inv s)|]. do 2 (split; [done|]). split.
      { change (queue s') with (queue s). rewrite Hq. done. }
      split; [done|]. done. }
    destruct nonblock; [apply Hend; by left|].
    destruct (env_signal E _); apply Hend; [by right|by left].
  - wp_step. wp_step. cbn beta. wp_step.
    eapply (wp_unlock_last MsgLock []); [cbn; by rewrite Hh|by intros ?%elem_of_nil|]. cbn beta.
    wp_step. eapply wp_mono; [apply (wp_deliver p l count _ s); [done|done|by right]|]. cbn beta.
    intros out s' (Hh' & a & Ha & Hout).
    assert (queue s = a :: tail (queue s)) as Hq by (by destruct (queue s); [|injection Ha as ->]).
    destruct out as [b|]; apply wp_ret.
    + destruct Hout as (-> & Hfit & Hp). destruct (popped_keeps s s' p l true Hi Hp) as (Hi' & Hc & Hq' & Hs & Hs').
      destruct Hp as (_ & _ & _ & _ & _ & _ & _ & _ & _ & Hcn & Hn & Hpl).
      do 3 (split; [done|]). split; [rewrite Hq, Hq'; split; [done|by right]|]. auto 10.
    + destruct (popped_keeps s s' p l false Hi Hout) as (Hi' & Hc & Hq' & Hs & Hs').
      destruct Hout as (_ & _ & _ & _ & _ & _ & _ & _ & _ & Hcn & Hn & Hpl).
      do 3 (split; [done|]). split; [rewrite Hq, Hq'; split; [done|by left]|]. split; [done|]. by split.
Qed.
End Runs.

(** ** The calls *)

(** A client allocates the payload, and frees it when the call fails. *)
Definition client_send (E : msg_env) (mo : option ipa_msg_meta) (payload : option (list Z))
    (cb : option ipa_msg_free_fn) : MM Z :=
  match payload with
  | None => ipa2_send_msg E mo None cb
  | Some l =>
      o ← alloc_buf E l;
      match o with
      | None => mret (- ENOMEM)
      | Some q =>
          r ← ipa2_send_msg E mo (Some q) cb;
          if negb (r =? 0) then free_buf q ;; mret r else mret 0
      end
  end.

Inductive msg_call :=
  | MSend (mo : option ipa_msg_meta) (payload : option (list Z)) (cb : option ipa_msg_free_fn)
  | MResend
  | MRead (nonblock : bool) (count : Z)
  | MRegisterPull (mo : option ipa_msg_meta) (cb : option nat)
  | MDeregisterPull (mo : option ipa_msg_meta)
  | MPull (m : ipa_msg_meta) (count : Z)
  | MWan (usr : option (list Z)) (type : Z) (is_cache : bool).

(** The result and the bytes that user space gets; [None]: the reader sleeps. *)
Definition msg_run (E : msg_env) (c : msg_call) : MM (option (Z * list Z)) :=
  match c with
  | MSend mo payload cb => r ← client_send E mo payload cb; mret (Some (r, []))
  | MResend => r ← ipa2_resend_wlan_msg E; mret (Some (r, []))
  | MRead nonblock count => read_turn E nonblock count
  | MRegisterPull mo cb => r ← ipa2_register_pull_msg E mo cb; mret (Some (r, []))
  | MDeregisterPull mo => r ← ipa2_deregister_pull_msg mo; mret (Some (r, []))
  | MPull m count => r ← ipa_pull_msg_from E m count; mret (Some r)
  | MWan usr type is_cache => r ← ipa_send_wan_msg E usr type is_cache; mret (Some (r, []))
  end.

Definition msg_call_ok (c : msg_call) : Prop :=
  match c with
  | MSend (Some m) payload cb => payload_ok m payload ∧ frees cb (msg_type m)
  | MWan usr type _ =>
      frees (Some IpaWanMsgFreeCb) type ∧
      match usr with Some l => bytes l ∧ length l = 88%nat | None => True end
  | _ => True
  end.

Inductive msg_reach (E : msg_env) : msg_state → Prop :=
  | msg_reach_start : msg_reach E msg_state0
  | msg_reach_call s c r s' : msg_reach E s → msg_call_ok c → msg_run E c s = Some (r, s') →
      msg_reach E s'.

(** What a call does to the queue and to the cache. *)
Definition msg_step (q c : list amsg) (call : msg_call) (r : option (Z * list Z))
    (q' c' : list amsg) : Prop :=
  match call with
  | MSend mo payload cb =>
      (∃ e, e < 0 ∧ r = Some (e, []) ∧ q' = q ∧ c' = c) ∨
      (r = Some (0, []) ∧ ∃ m, mo = Some m ∧ msg_type m < IPA_EVENT_MAX_NUM ∧
         q' = q ++ [(m, pl_of m payload)] ∧ cache_step m payload c c')
  | MResend =>
      c' = c ∧ (r = Some (0, []) ∧ q' = q ++ c ∨
                r = Some (- ENOMEM, []) ∧ ∃ k, (k < length c)%nat ∧ q' = q ++ take k c)
  | MRead nonblock count => c' = c ∧ read_step q nonblock count r q'
  | MWan usr type _ =>
      c' = c ∧ ((∃ e, e < 0 ∧ r = Some (e, []) ∧ q' = q) ∨
                r = Some (0, []) ∧ ∃ l, usr = Some l ∧
                q' = q ++ [(mkMeta type 0 sizeof_wan_msg, Some l)])
  | _ => q' = q ∧ c' = c
  end.

(** The calls that leave a payload behind: a read that fails, and a disconnection. *)
Definition leaks (call : msg_call) (r : option (Z * list Z)) : Prop :=
  match call with
  | MSend (Some m) _ _ => msg_type m = WLAN_CLIENT_DISCONNECT
  | MRead _ _ => r = Some (- EFAULT, [])
  | _ => False
  end.

Definition call_done (c : msg_call) (s : msg_state) (r : option (Z * list Z)) (s' : msg_state)
    : Prop :=
  msg_inv s' ∧ q_held s' = [] ∧ msg_step (queue s) (cache s) c r (queue s') (cache s') ∧
  (∀ x, stray s x → stray s' x) ∧ (¬ leaks c r → ∀ x, stray s' x ↔ stray s x).

Section Calls.
Context (E : msg_env) {HE : msg_env_ok E}.
Implicit Types s : msg_state.

Lemma inv_alloc_stray q l s :
  msg_inv s → q_bufs s !! q = None →
  let s1 := with_bufs (<[q := l]> (q_bufs s)) (m_tick s) in
  msg_inv s1 ∧ queue s1 = queue s ∧ cache s1 = cache s ∧ ∀ x, stray s1 x ↔ stray s x ∨ x = q.
Proof.
  intros Hi Hq s1.
  assert (∀ p e x, q_msgs s !! p = Some e → buff e = Some x → x ≠ q) as Hne.
  { intros p e x He Hx ->. destruct (msg_buf_live s Hi p e q He Hx). congruence. }
  assert (∀ p e x, q_msgs s !! p = Some e → buff e = Some x → q_bufs s1 !! x = q_bufs s !! x) as Hother.
  { intros p e x He Hx. apply lookup_insert_ne. intros ->. by eapply Hne. }
  assert (∀ k, view_of s1 k = view_of s k) as Hv.
  { intros k. apply view_same; [done|]. intros p e x _ He Hx. by apply (Hother p e). }
  split; [|split; [apply Hv|split; [apply Hv|]]].
  - pose proof Hi as [M1 M2 M3 M4 M5 M6 M7]. constructor; try done.
    + intros p e He. destruct (M3 p e He) as (? & ? & H). split; [done|]. split; [done|].
      destruct (buff e) as [x|] eqn:Hx; [|done]. destruct H as (? & b & Hb & ?). split; [done|].
      exists b. by rewrite (Hother p e).
    + intros p e Hp He. destruct (M5 p e Hp He) as (x & b & Hx & Hb & ?). exists x, b.
      by rewrite (Hother p e).
  - intros x. unfold stray. cbn. rewrite lookup_insert_is_Some. split.
    + intros [[->|[_ Hx]] Hno]; [by right|left]. done.
    + intros [[Hx Hno]| ->]; [split; [|done]; destruct (decide (q = x)); auto|].
      split; [by left|]. intros p e He Hx. by eapply Hne.
Qed.

Lemma wp_client_send mo payload cb s :
  msg_inv s → q_held s = [] → msg_call_ok (MSend mo payload cb) →
  wp (client_send E mo payload cb) (λ r s', call_done (MSend mo payload cb) s (Some (r, [])) s') s.
Proof using HE.
  intros Hi Hh Hok. unfold client_send.
  assert (∀ r s', r < 0 → like s s' → q_held s' = [] →
    call_done (MSend mo payload cb) s (Some (r, [])) s') as Hfail.
  { intros r s' Hr Hs' Hh'. destruct (like_queue s s' Hs') as [HQ HC].
    split; [by apply (like_inv s)|]. split; [done|]. split; [left; exists r; by rewrite HQ, HC|].
    split; [intros x ?; by apply (like_stray s s' x Hs')|]. intros _ x. by apply like_stray. }
  destruct payload as [l|].
  - wp_step. apply wp_alloc_buf; [done|by apply wp_ret, Hfail|]. intros q Hq' Hq.
    destruct (inv_alloc_stray q l s Hi Hq) as (Hi1 & HQ1 & HC1 & HS1).
    set (s1 := with_bufs _ _) in *.
    assert (stray s1 q) as Hst by (apply HS1; by right).
    assert (∀ r s', r < 0 → like s1 s' → q_held s' = [] →
      wp (if negb (r =? 0) then free_buf q ;; mret r else mret 0)
        (λ r s', call_done (MSend mo (Some l) cb) s (Some (r, [])) s') s') as Hend.
    { intros r s' Hr Hs' Hh'. rewrite (proj2 (Z.eqb_neq r 0)) by lia. cbn [negb]. wp_step.
      pose proof Hs' as (B & M & L & W & R).
      apply wp_free_buf; [rewrite B; cbn; rewrite lookup_insert_eq; eauto|]. apply wp_ret.
      apply Hfail; [done| |done]. split; [cbn; rewrite B; cbn; by rewrite delete_insert_id|].
      split; [exact M|]. split; [exact L|]. split; [exact W|]. exact R. }
    wp_step. destruct mo as [m|]; [|apply wp_ret; by apply Hend].
    destruct Hok as [Hpay Hfree].
    destruct cb as [f|]; [|apply wp_ret; by apply Hend].
    eapply wp_mono; [apply (wp_send_msg E m (Some q) (Some l) (Some f) s1); try done|].
    + split; [cbn; by rewrite lookup_insert_eq|]. by destruct Hpay as (_ & _ & [_ ?] & _).
    + intros ? [= <-]. done.
    + cbn beta. intros r s' (Hi' & Hh' & [[Hr Hl']|[-> Hs']]); [by apply Hend|].
      destruct Hs' as (Hty & HQ' & HC' & HS' & HS'' & _). apply wp_ret.
      split; [done|]. split; [done|]. split.
      { right. split; [done|]. exists m. rewrite HQ', HQ1. rewrite HC1 in HC'. done. }
      assert (¬ stray s q) as Hnq by (intros [H _]; rewrite Hq in H; by destruct H).
      split.
      * intros x Hx. apply HS'; [apply HS1; by left|]. intros [= ->]. done.
      * cbn. intros Hno x. rewrite HS'', HS1 by done. naive_solver.
  - destruct mo as [m|]; [|by apply wp_ret, Hfail].
    destruct cb as [f|]; [by apply wp_ret, Hfail|]. destruct Hok as [Hpay Hfree].
    eapply wp_mono; [by apply (wp_send_msg E m None None None s)|]. cbn beta.
    intros r s' (Hi' & Hh' & [[Hr Hl']|[-> Hs']]); [by apply Hfail|].
    destruct Hs' as (Hty & HQ' & HC' & HS' & HS'' & _). split; [done|]. split; [done|].
    split; [right; split; [done|]; by exists m|]. split; [intros x Hx; by apply HS'|].
    cbn. intros Hno x. rewrite HS'' by done. naive_solver.
Qed.

Lemma wp_wan usr type is_cache s :
  msg_inv s → q_held s = [] → msg_call_ok (MWan usr type is_cache) →
  wp (ipa_send_wan_msg E usr type is_cache)
     (λ r s', call_done (MWan usr type is_cache) s (Some (r, [])) s') s.
Proof using HE.
  intros Hi Hh [Hfree Husr]. unfold ipa_send_wan_msg.
  assert (∀ r s', r < 0 → like s s' → q_held s' = [] →
    call_done (MWan usr type is_cache) s (Some (r, [])) s') as Hfail.
  { intros r s' Hr Hs' Hh'. destruct (like_queue s s' Hs') as [HQ HC].
    split; [by apply (like_inv s)|]. split; [done|].
    split; [split; [done|]; left; by exists r|].
    split; [intros x ?; by apply (like_stray s s' x Hs')|]. intros _ x. by apply like_stray. }
  wp_step. apply wp_alloc_buf; [done|by apply wp_ret, Hfail|]. intros q Hq' Hq.
  set (l0 := replicate _ _). set (s0 := with_bufs _ _).
  destruct usr as [l|].
  2:{ wp_step. apply wp_free_buf; [cbn; rewrite lookup_insert_eq; eauto|]. apply wp_ret.
      apply Hfail; [done| |done]. split; [cbn; by rewrite delete_insert_id|]. done. }
  destruct Husr as [Hb Hlen].
  wp_step. eapply wp_buf_at; [cbn; by rewrite lookup_insert_eq|]. wp_step. wp_step. cbn beta.
  cbn [q_bufs s0 with_bufs]. rewrite insert_insert_eq.
  destruct (inv_alloc_stray q l s Hi Hq) as (Hi1 & HQ1 & HC1 & HS1).
  change (with_bufs (<[q:=l]> (q_bufs s)) s0) with (with_bufs (<[q:=l]> (q_bufs s)) (m_tick s)).
  set (s1 := with_bufs (<[q:=l]> (q_bufs s)) (m_tick s)) in *.
  set (m := mkMeta type 0 sizeof_wan_msg). cbn in Hfree.
  assert (stray s1 q) as Hst by (apply HS1; by right).
  wp_step. eapply wp_mono; [apply (wp_send_msg E m (Some q) (Some l) (Some IpaWanMsgFreeCb) s1); try done|].
  - split; [cbn; by rewrite lookup_insert_eq|]. cbn. rewrite Hlen. done.
  - unfold WAN_UPSTREAM_ROUTE_ADD, WAN_UPSTREAM_ROUTE_DEL, WAN_EMBMS_CONNECT in Hfree.
    split; [cbn; lia|]. split; [done|]. split; [split; [done|]; cbn; rewrite Hlen; done|].
    unfold WLAN_CLIENT_CONNECT_EX, WLAN_CLIENT_DISCONNECT. cbn. split; lia.
  - by intros ? [= <-].
  - cbn beta. intros r s' (Hi' & Hh' & [[Hr Hl']|[-> Hs']]).
    + rewrite (proj2 (Z.eqb_neq r 0)) by lia. cbn [negb]. wp_step. pose proof Hl' as (B & M & L & W & R).
      apply wp_free_buf; [rewrite B; cbn; rewrite lookup_insert_eq; eauto|]. apply wp_ret.
      apply Hfail; [done| |done]. split; [cbn; rewrite B; cbn; by rewrite delete_insert_id|].
      split; [exact M|]. split; [exact L|]. split; [exact W|]. exact R.
    + cbn [Z.eqb negb]. destruct Hs' as (_ & HQ' & HC' & HS' & HS'' & Hcn & Hnm & _).
      assert (pl_of m (Some l) = Some l) as Hpl by (unfold pl_of; cbn -[Z.to_nat]; rewrite take_ge; [done|unfold sizeof_wan_msg; lia]).
      assert (cache s' = cache s) as HC.
      { unfold WAN_UPSTREAM_ROUTE_ADD, WAN_UPSTREAM_ROUTE_DEL, WAN_EMBMS_CONNECT in Hfree.
        unfold cache_step in HC'. cbn [msg_type m] in HC'.
        rewrite (proj2 (Z.eqb_neq type WLAN_CLIENT_CONNECT_EX)) in HC' by (unfold WLAN_CLIENT_CONNECT_EX; lia).
        rewrite (proj2 (Z.eqb_neq type WLAN_CLIENT_DISCONNECT)) in HC' by (unfold WLAN_CLIENT_DISCONNECT; lia).
        congruence. }
      assert (msg_type m ≠ WLAN_CLIENT_DISCONNECT) as Hnd.
      { unfold WAN_UPSTREAM_ROUTE_ADD, WAN_UPSTREAM_ROUTE_DEL, WAN_EMBMS_CONNECT in Hfree.
        unfold WLAN_CLIENT_DISCONNECT. cbn. lia. }
      assert (∀ x, stray s' x ↔ stray s x) as HS.
      { intros x. rewrite HS'', HS1 by done.
        assert (¬ stray s q) as Hnq by (intros [H _]; rewrite Hq in H; by destruct H).
        naive_solver. }
      assert (∀ s2, q_bufs s2 = q_bufs s' → q_msgs s2 = q_msgs s' → msg_list s2 = msg_list s' →
        msg_wlan_client_list s2 = msg_wlan_client_list s' → msg_w s2 = msg_w s' → msg_r s2 = msg_r s' →
        q_held s2 = [] → length (q_cne s2) = 10%nat → 0 ≤ num_ipa_cne_evt_req s2 < 10 →
        call_done (MWan (Some l) type is_cache) s (Some (0, [])) s2) as Hend.
      { intros s2 B M L W Sw Sr H Lc Nc.
        assert (queue s2 = queue s' ∧ cache s2 = cache s') as [Q2 C2]
          by (unfold queue, cache, view_of; by rewrite B, M, L, W).
        assert (∀ x, stray s2 x ↔ stray s' x) as S2 by (intros x; unfold stray; by rewrite B, M).
        split.
        { destruct Hi' as [M1 M2 M3 M4 M5 M6 M7]. constructor; rewrite ?B, ?M, ?L, ?W, ?Sw, ?Sr; done. }
        split; [done|]. split.
        { split; [by rewrite C2|]. right. split; [done|]. exists l. split; [done|].
          by rewrite Q2, HQ', HQ1, Hpl. }
        split; [intros x Hx; by apply S2, HS|]. intros _ x. by rewrite S2, HS. }
      destruct (mi_cne s' Hi') as [Lc Nc].
      wp_step. destruct is_cache; cbn [when].
      * wp_step. apply wp_lock; [rewrite Hh'; by intros ?%elem_of_nil|]. wp_step. wp_step. cbn beta. wp_step.
        cbn [q_cne num_ipa_cne_evt_req with_locks].
        replace (num_ipa_cne_evt_req s') with (Z.of_nat (Z.to_nat (num_ipa_cne_evt_req s'))) by lia.
        rewrite store_z_nat by lia. apply wp_ret. wp_step. wp_step.
        eapply (wp_unlock_last CneLock []); [cbn; by rewrite Hh'|by intros ?%elem_of_nil|]. apply wp_ret.
        apply Hend; cbn; try done.
        -- by rewrite length_insert.
        -- apply Z.mod_pos_bound. done.
      * apply wp_ret, wp_ret. by apply Hend.
Qed.

(** A call that takes a mutex and leaves the messages alone. *)
Lemma done_like c r s s' :
  msg_inv s → like s (with_pulls (pull_msg_list s) s') → q_held s' = [] →
  msg_step (queue s) (cache s) c r (queue s) (cache s) → call_done c s r s'.
Proof.
  intros Hi Hl Hh Hs. set (s1 := with_pulls (pull_msg_list s) s') in *.
  destruct (like_queue s s1 Hl) as [HQ HC]. pose proof (like_inv s s1 Hl Hi) as Hi1.
  change (queue s1) with (queue s') in HQ. change (cache s1) with (cache s') in HC.
  split; [by destruct Hi1; constructor|]. split; [done|]. split; [by rewrite HQ, HC|].
  split; [intros x ?; by apply (like_stray s s1 x Hl)|]. intros _ x. by apply (like_stray s s1 x Hl).
Qed.

Lemma wp_msg_run c s :
  msg_inv s → q_held s = [] → msg_call_ok c →
  wp (msg_run E c) (λ r s', call_done c s r s') s.
Proof using HE.
  intros Hi Hh Hok.
  assert (MsgLock ∉ q_held s) as Hm by (rewrite Hh; by intros ?%elem_of_nil).
  destruct c as [mo payload cb| |nonblock count|mo cb|mo|m count|usr type is_cache]; cbn [msg_run].
  - wp_step. eapply wp_mono; [by apply wp_client_send|]. cbn beta. intros r s' H. by apply wp_ret.
  - wp_step. eapply wp_mono; [by apply wp_resend|]. cbn beta.
    intros r s' (Hi' & Hh' & HC & HS & _ & HQ). apply wp_ret. split; [done|]. split; [done|].
    split; [|split; [intros x ?; by apply HS|intros _ x; apply HS]].
    split; [done|]. destruct HQ as [[-> HQ]|[-> HQ]]; [left|right]; done.
  - eapply wp_mono; [by apply wp_read_turn|]. cbn beta.
    intros r s' (Hi' & Hh' & HC & HQ & HS & HS' & _). split; [done|]. split; [done|]. done.
  - wp_step. destruct mo as [m|], cb as [f|]; try (apply wp_ret, wp_ret; by apply done_like).
    unfold ipa2_register_pull_msg, ask. wp_steps.
    destruct (env_alloc E s); [|apply wp_ret, wp_ret; by apply done_like].
    wp_step. apply wp_lock; [done|]. wp_step. wp_step. cbn beta. wp_step.
    eapply (wp_unlock_last MsgLock []); [cbn; by rewrite Hh|by intros ?%elem_of_nil|].
    apply wp_ret, wp_ret. by apply done_like.
  - wp_step. destruct mo as [m|]; [|apply wp_ret, wp_ret; by apply done_like].
    unfold ipa2_deregister_pull_msg. wp_step. apply wp_lock; [done|]. wp_step. wp_step. cbn beta. wp_step.
    cbn [pull_msg_list with_locks].
    destruct (remove_pull m (pull_msg_list s)) as [l|].
    + wp_step. wp_step. cbn beta. apply wp_ret. wp_step.
      eapply (wp_unlock_last MsgLock []); [cbn; by rewrite Hh|by intros ?%elem_of_nil|].
      apply wp_ret, wp_ret. by apply done_like.
    + apply wp_ret. wp_step.
      eapply (wp_unlock_last MsgLock []); [cbn; by rewrite Hh|by intros ?%elem_of_nil|].
      apply wp_ret, wp_ret. by apply done_like.
  - wp_step. unfold ipa_pull_msg_from. destruct (count =? 0); [apply wp_ret, wp_ret; by apply done_like|].
    wp_step. apply wp_lock; [done|]. wp_step. wp_step. cbn beta. wp_step.
    destruct (find _ _) as [e|]; unfold ask; wp_steps;
      (eapply (wp_unlock_last MsgLock []); [cbn; by rewrite Hh|by intros ?%elem_of_nil|]);
      wp_steps; by apply done_like.
  - wp_step. eapply wp_mono; [by apply wp_wan|]. cbn beta. intros r s' H. by apply wp_ret.
Qed.

Lemma msg_inv0 : msg_inv msg_state0.
Proof.
  constructor; cbn; try done.
  - constructor.
  - intros p. rewrite lookup_empty. split; [by intros ?%elem_of_nil|by intros []].
Qed.

Lemma msg_reach_inv s : msg_reach E s → msg_inv s ∧ q_held s = [].
Proof using HE.
  induction 1 as [|s c r s' _ [Hi Hh] Hc Hr]; [split; [apply msg_inv0|done]|].
  pose proof (wp_msg_run c s Hi Hh Hc) as H. unfold wp in H. rewrite Hr in H.
  by destruct H as (? & ? & _).
Qed.
End Calls.

(** ** The order of the mutexes

    Two threads that each run a list of operations on the mutexes: a mutex that is taken cannot
    be acquired. *)
Inductive lock_step : list lock_op * list lock_op * list mutex →
                      list lock_op * list lock_op * list mutex → Prop :=
  | step_acquire_1 l t1 t2 h : l ∉ h → lock_step (Acquire l :: t1, t2, h) (t1, t2, l :: h)
  | step_acquire_2 l t1 t2 h : l ∉ h → lock_step (t1, Acquire l :: t2, h) (t1, t2, l :: h)
  | step_release_1 l t1 t2 h : lock_step (Release l :: t1, t2, h) (t1, t2, filter (λ k, k ≠ l) h)
  | step_release_2 l t1 t2 h : lock_step (t1, Release l :: t2, h) (t1, t2, filter (λ k, k ≠ l) h).

Inductive lock_steps : list lock_op * list lock_op * list mutex →
                       list lock_op * list lock_op * list mutex → Prop :=
  | lock_steps_refl c : lock_steps c c
  | lock_steps_step c1 c2 c3 : lock_step c1 c2 → lock_steps c2 c3 → lock_steps c1 c3.

(** Both threads wait, and no step is possible. *)
Definition deadlocked (c : list lock_op * list lock_op * list mutex) : Prop :=
  c.1.1 ≠ [] ∧ c.1.2 ≠ [] ∧ ∀ c', ¬ lock_step c c'.

(** The operations of a call on the mutexes, in order. *)
Definition locks_of (E : msg_env) (c : msg_call) (s : msg_state) : list lock_op :=
  match msg_run E c s with
  | Some (_, s') => rev (take (length (q_locks s') - length (q_locks s)) (q_locks s'))
  | None => []
  end.

(** ** The properties *)

(** C20. The messages to user space refine a queue, and the cache of wlan clients a list: from
    every reachable state every call that keeps the rules of [msg_call_ok] is defined on every
    path and is a step of the two. The rules: a payload has the bytes that its metadata says; a
    connection or disconnection of a client has a complete payload, with as many attributes as it
    says ([connection_without_payload] shows why); a WAN message has its own free function. A sent
    message is put at the end with the bytes of its payload; a read takes the first one, and
    returns its bytes when they fit; a connection is cached, a disconnection takes exactly the
    connections of its address out of the cache, and the cache is sent again in its order. *)
Theorem messages_refine_queue E s c :
  msg_env_ok E → msg_reach E s → msg_call_ok c →
  ∃ r s', msg_run E c s = Some (r, s') ∧ msg_reach E s' ∧
    msg_step (queue s) (cache s) c r (queue s') (cache s').
Proof.
  intros HE Hr Hc. destruct (msg_reach_inv E s Hr) as [Hi Hh].
  destruct (wp_elim _ _ _ (wp_msg_run E c s Hi Hh Hc)) as (r & s' & Hrun & _ & _ & Hs & _).
  exists r, s'. split; [done|]. split; [by eapply msg_reach_call|done].
Qed.

(** C35. The memory of the messages: after every call from a reachable state no mutex is held,
    every message is in one list, and the payloads of the messages are allocated, apart from
    each other and as long as the metadata says. The other payloads stay as they are: a call
    leaves one behind only if it is a read that fails or a disconnection. *)
Theorem message_memory_exact E s c :
  msg_env_ok E → msg_reach E s → msg_call_ok c →
  ∃ r s', msg_run E c s = Some (r, s') ∧ q_held s' = [] ∧
    NoDup (msg_list s' ++ msg_wlan_client_list s') ∧
    (∀ p, p ∈ msg_list s' ++ msg_wlan_client_list s' ↔ is_Some (q_msgs s' !! p)) ∧
    (∀ p e, q_msgs s' !! p = Some e → msg_ok (q_bufs s') e) ∧
    (∀ p e p' e' q, q_msgs s' !! p = Some e → q_msgs s' !! p' = Some e' →
       buff e = Some q → buff e' = Some q → p = p') ∧
    (∀ x, stray s x → stray s' x) ∧ (¬ leaks c r → ∀ x, stray s' x ↔ stray s x).
Proof.
  intros HE Hr Hc. destruct (msg_reach_inv E s Hr) as [Hi Hh].
  destruct (wp_elim _ _ _ (wp_msg_run E c s Hi Hh Hc)) as (r & s' & Hrun & Hi' & Hh' & _ & H1 & H2).
  exists r, s'. destruct Hi'. auto 10.
Qed.

Definition msg_env1 : msg_env :=
  mkMsgEnv (λ s, let p := Pos.of_succ_nat (q_time s) in
    if decide (q_bufs s !! p = None ∧ q_msgs s !! p = None) then Some p else None)
    (λ _, true) (λ _, false) (λ _ _ _ _, (0, [])).

Lemma msg_env1_ok : msg_env_ok msg_env1.
Proof. split. intros s p. cbn. destruct (decide _); [|done]. by intros [= <-]. Qed.

(** A client with one address connects. *)
Definition connect1 : list Z :=
  replicate 32 0 ++ [1; 0; 0; 0] ++ [0; 0; 0; 0; 0; 2; 4; 6; 8; 10; 12; 0].
Definition meta1 : ipa_msg_meta := mkMeta WLAN_CLIENT_CONNECT_EX 0 48.
Definition send1 : msg_call := MSend (Some meta1) (Some connect1) (Some ClientFree).
Definition state1 : msg_state :=
  match msg_run msg_env1 send1 msg_state0 with Some (_, s) => s | None => msg_state0 end.

Lemma send1_ok : msg_call_ok send1.
Proof.
  assert (bytes connect1) as Hb by (apply (bool_decide_unpack _); vm_compute; exact I).
  split; [|done]. split; [done|]. split; [done|]. split; [split; [done|by vm_compute]|].
  split; [|done]. intros _. exists connect1. split; [done|]. split; [done|].
  change (take _ connect1) with connect1. split; [done|]. exists 1. split; [done|].
  cbn. lia.
Qed.

Lemma state1_reach : msg_reach msg_env1 state1.
Proof.
  eapply (msg_reach_call _ msg_state0 send1);
    [apply msg_reach_start|apply send1_ok|vm_compute; reflexivity].
Qed.

Lemma messages_refine_queue_witness :
  queue state1 = [(meta1, Some connect1)] ∧ cache state1 = [(meta1, Some connect1)] ∧
  ∃ r s', msg_run msg_env1 (MRead false 100) state1 = Some (r, s') ∧ msg_reach msg_env1 s' ∧
    msg_step (queue state1) (cache state1) (MRead false 100) r (queue s') (cache s').
Proof.
  split; [vm_compute; reflexivity|]. split; [vm_compute; reflexivity|].
  apply (messages_refine_queue msg_env1 state1); [apply msg_env1_ok|apply state1_reach|exact I].
Defined.

Lemma message_memory_exact_witness :
  ∃ r s', msg_run msg_env1 MResend state1 = Some (r, s') ∧ q_held s' = [] ∧
    ∀ x, stray s' x ↔ stray state1 x.
Proof.
  destruct (message_memory_exact msg_env1 state1 MResend msg_env1_ok state1_reach I)
    as (r & s' & Hrun & Hh & _ & _ & _ & _ & _ & Hs).
  exists r, s'. split; [exact Hrun|]. split; [exact Hh|]. apply Hs. intros [].
Defined.

(** C28. [ipa2_send_msg] takes the mutex of the cache while it holds that of the queue, and
    [ipa2_resend_wlan_msg] takes them in the other order: two such calls, each of which ends
    when it runs alone, can block each other for ever. *)
Theorem send_and_resend_deadlock :
  msg_reach msg_env1 state1 ∧
  (∃ s r s', msg_run msg_env1 send1 state1 = Some (Some (0, []), s) ∧
             msg_run msg_env1 MResend state1 = Some (r, s') ∧ r = Some (0, [])) ∧
  ∃ c, lock_steps (locks_of msg_env1 send1 state1, locks_of msg_env1 MResend state1, []) c ∧
       deadlocked c.
Proof.
  split; [apply state1_reach|]. split.
  { do 3 eexists. split; [vm_compute; reflexivity|]. split; vm_compute; reflexivity. }
  exists ([Acquire WlanLock; Release WlanLock; Release MsgLock],
          [Acquire MsgLock; Release MsgLock; Release WlanLock], [WlanLock; MsgLock]).
  split.
  - replace (locks_of msg_env1 send1 state1)
      with [Acquire MsgLock; Acquire WlanLock; Release WlanLock; Release MsgLock]
      by (vm_compute; reflexivity).
    replace (locks_of msg_env1 MResend state1)
      with [Acquire WlanLock; Acquire MsgLock; Release MsgLock; Release WlanLock]
      by (vm_compute; reflexivity).
    eapply lock_steps_step; [apply step_acquire_1; by intros ?%elem_of_nil|].
    eapply lock_steps_step; [apply step_acquire_2|apply lock_steps_refl].
    by intros [?|?%elem_of_nil]%elem_of_cons.
  - split; [done|]. split; [done|]. intros c' H. inversion H as [? ? ? ? Hn|? ? ? ? Hn| |]; subst;
      apply Hn; repeat (first [by left|right]).
Qed.

(** ** What the code does not guard *)

(** A read into a buffer that is too short takes the message off the queue, and its payload is
    never freed. *)
Example failed_read_leaks :
  match msg_run msg_env1 (MRead false 3) state1 with
  | Some (r, s') => r = Some (- EFAULT, []) ∧ queue s' = [] ∧ cache s' = cache state1 ∧
                    size (q_bufs s') = size (q_bufs state1)
  | None => False
  end.
Proof. vm_compute. done. Qed.

(** A disconnection frees the entry of the cache, but not its payload. *)
Example disconnection_leaks :
  match msg_run msg_env1 (MSend (Some (mkMeta WLAN_CLIENT_DISCONNECT 0 38))
          (Some (replicate 32 0 ++ [2; 4; 6; 8; 10; 12])) (Some ClientFree)) state1 with
  | Some (r, s') => r = Some (0, []) ∧ cache s' = [] ∧ size (q_msgs s') = 2%nat ∧
                    size (q_bufs s') = 3%nat
  | None => False
  end.
Proof. vm_compute. done. Qed.

(** A connection without payload is accepted, and the cache reads a null pointer. *)
Example connection_without_payload :
  msg_run msg_env1 (MSend (Some meta1) None None) msg_state0 = None.
Proof. vm_compute. reflexivity. Qed.
