(* ===== verification/Irq.v ===== *)
(** * Interrupts and clock votes of the IPA: the program

    [ipa_v2/ipa_interrupts.c], the votes that keep the clocks on ([ipa2_inc_client_enable_clks]
    and [ipa2_dec_client_disable_clks] of [ipa.c], [ipa_active_clients_*] of [ipa_utils.c]) and
    [ipa2_restore_suspend_handler]. The block has three registers: what is enabled, what is
    pending, and what is to be cleared. To access one while the clocks are off is undefined.
    The Module [Suspend] has the suspend handler, which calls the resource manager. *)

From S2P Require Import Prelude.
From S2P Require Import HdrTypes.
From S2P Require Import Intf.
From S2P Require Import RmTypes.
From S2P Require Import Rm.

Module Interrupts.

Definition IPA_IRQ_NUM_MAX : nat := 32.
Definition IPA_UC_IRQ_0 : Z := 2.
Definition IPA_UC_IRQ_3 : Z := 5.
Definition IPA_TX_SUSPEND_IRQ : Z := 16.
Definition IPA_IRQ_MAX : Z := 30.
Definition ENODEV : Z := 19.

(** Interrupts without an initializer have bit 0. *)
Definition ipa2_irq_mapping : list Z := (Z.of_nat <$> seq 0 19) ++ replicate 11 0.

(** [enum ipa_irq_type] is unsigned: the [-1] of a free slot. *)
Definition NO_IRQ : Z := u32 (-1).

(** [struct ipa_interrupt_info]; a handler is known by a number. *)
Record ipa_interrupt_info := mkInfo {
  handler : option nat;
  interrupt : Z;
  private_data : option positive;
  deferred_flag : bool;
}.

(** [struct ipa_interrupt_work_wrap] *)
Record ipa_interrupt_work_wrap := mkWrap {
  w_handler : nat;
  w_interrupt : Z;
  w_private_data : option positive;
  w_interrupt_data : option positive;
}.

(** What happens, in order: the hardware raises bits, the driver clears one, reads which pipes
    were suspended, finds that none of them is valid, calls a handler, queues a work, or reports a
    failure. *)
Inductive irq_event :=
  | Raise (bits : Z)
  | Clear (bmsk : Z)
  | SuspendInfo (bits : Z)
  | NoValidEp (interrupt : Z)
  | Call (h : nat) (interrupt : Z) (private : option positive) (data : option Z)
  | Queue (w : ipa_interrupt_work_wrap)
  | NoMemory (interrupt : Z)
  | NoHandler (irq_num : Z).

(** The registers [IPA_IRQ_EN_EE_n] and [IPA_IRQ_STTS_EE_n], and what the hardware will raise,
    at each access to the latter in turn: nothing any more after the last one. *)
Record irq_hw := mkHw { reg_en : Z; reg_stts : Z; incoming : list Z }.

(** [struct ipa_active_clients], the clocks, and the two works of [power_mgmt_wq]. *)
Record active_clients := mkAc {
  mutex_locked : bool;
  cnt : Z;
  tag_process_before_gating : bool;
  clks_on : bool;
  tag_queued : bool;
  defer_queued : bool;
}.

(** The memory: data of the suspend interrupt, works and their queue, memory of the clients. *)
Record irq_mem := mkMem {
  irq_data : gmap positive Z;
  irq_works : gmap positive ipa_interrupt_work_wrap;
  irq_wq : list positive;
  client_mem : gset positive;
}.

Record irq_state := mkIrq {
  irq_cb : list ipa_interrupt_info;
  irq_hw_of : irq_hw;
  irq_ac : active_clients;
  irq_mm : irq_mem;
  irq_log : list irq_event;
  irq_time : nat;
}.

(** The answers of the environment: [kzalloc], the pipes whose suspension is reported, which
    endpoints are valid, the work queue and the interrupt line at the initialization. *)
Record irq_env := mkIrqEnv {
  irq_alloc : irq_state → option positive;
  irq_suspend_info : irq_state → Z;
  irq_ep_valid : irq_state → list bool;
  ipa_num_pipes : nat;
  irq_create_wq : bool;
  irq_request : bool;
}.

Abbreviation QM := (M irq_state).

Definition with_cb (x : list ipa_interrupt_info) (s : irq_state) : irq_state :=
  mkIrq x (irq_hw_of s) (irq_ac s) (irq_mm s) (irq_log s) (irq_time s).
Definition with_hw (x : irq_hw) (s : irq_state) : irq_state :=
  mkIrq (irq_cb s) x (irq_ac s) (irq_mm s) (irq_log s) (irq_time s).
Definition with_ac (x : active_clients) (s : irq_state) : irq_state :=
  mkIrq (irq_cb s) (irq_hw_of s) x (irq_mm s) (irq_log s) (irq_time s).
Definition with_mm (x : irq_mem) (s : irq_state) : irq_state :=
  mkIrq (irq_cb s) (irq_hw_of s) (irq_ac s) x (irq_log s) (irq_time s).
Definition irq_tick (s : irq_state) : irq_state :=
  mkIrq (irq_cb s) (irq_hw_of s) (irq_ac s) (irq_mm s) (irq_log s) (S (irq_time s)).
Definition irq_logged (e : irq_event) (s : irq_state) : irq_state :=
  mkIrq (irq_cb s) (irq_hw_of s) (irq_ac s) (irq_mm s) (irq_log s ++ [e]) (irq_time s).
Definition note (e : irq_event) : QM () := modify (irq_logged e).

(** ** Registers *)

Definition clocked : QM () := s ← get; if clks_on (irq_ac s) then mret () else UB.

(** What the hardware raises before an access to the status. *)
Definition hw_raise : QM () :=
  s ← get;
  match incoming (irq_hw_of s) with
  | [] => mret ()
  | b :: l =>
      put (with_hw (mkHw (reg_en (irq_hw_of s)) (Z.lor (reg_stts (irq_hw_of s)) (u32 b)) l) s) ;;
      note (Raise (u32 b))
  end.

Definition read_en : QM Z := clocked ;; s ← get; mret (reg_en (irq_hw_of s)).
Definition write_en (v : Z) : QM () :=
  clocked ;;
  modify (λ s, with_hw (mkHw v (reg_stts (irq_hw_of s)) (incoming (irq_hw_of s))) s).
Definition read_stts : QM Z := clocked ;; hw_raise ;; s ← get; mret (reg_stts (irq_hw_of s)).
Definition write_clr (bmsk : Z) : QM () :=
  clocked ;; hw_raise ;;
  modify (λ s, with_hw (mkHw (reg_en (irq_hw_of s)) (Z.ldiff (reg_stts (irq_hw_of s)) bmsk)
                             (incoming (irq_hw_of s))) s) ;;
  note (Clear bmsk).

(** ** Memory *)

Definition with_data (d : gmap positive Z) (m : irq_mem) : irq_mem :=
  mkMem d (irq_works m) (irq_wq m) (client_mem m).
Definition with_works (w : gmap positive ipa_interrupt_work_wrap) (l : list positive)
    (m : irq_mem) : irq_mem := mkMem (irq_data m) w l (client_mem m).
Definition with_client_mem (c : gset positive) (m : irq_mem) : irq_mem :=
  mkMem (irq_data m) (irq_works m) (irq_wq m) c.
Definition upd_mm (f : irq_mem → irq_mem) : QM () := modify (λ s, with_mm (f (irq_mm s)) s).

(** [kfree(interrupt_data)] *)
Definition free_data (o : option positive) : QM () :=
  match o with
  | None => mret ()
  | Some q =>
      s ← get; of_option (irq_data (irq_mm s) !! q) ;;
      upd_mm (λ m, with_data (delete q (irq_data m)) m)
  end.

(** [kfree(private_data)]: undefined unless it is memory that a client allocated and that has not
    been freed yet. *)
Definition free_private (o : option positive) : QM () :=
  match o with
  | None => mret ()
  | Some p =>
      s ← get;
      if decide (p ∈ client_mem (irq_mm s))
      then upd_mm (λ m, with_client_mem (client_mem m ∖ {[p]}) m)
      else UB
  end.

(** The call of a handler: it is given the data. *)
Definition call_handler (h : nat) (t : Z) (priv : option positive) (o : option positive) : QM () :=
  s ← get;
  d ← match o with
      | None => mret None
      | Some q => d ← of_option (irq_data (irq_mm s) !! q); mret (Some d)
      end;
  note (Call h t priv d).

Section Interrupts.
Context (E : irq_env).

Definition irq_kzalloc : QM (option positive) :=
  s ← get; put (irq_tick s) ;; mret (irq_alloc E s).

(** ** Handling one interrupt *)

Definition deferred_interrupt_work (p : positive) : QM () :=
  s ← get; work_data ← of_option (irq_works (irq_mm s) !! p);
  call_handler (w_handler work_data) (w_interrupt work_data) (w_private_data work_data)
    (w_interrupt_data work_data) ;;
  free_data (w_interrupt_data work_data) ;;
  upd_mm (λ m, with_works (delete p (irq_works m)) (irq_wq m) m).

Fixpoint valid_ep_loop (valid : list bool) (ep_suspend_data : Z) (n : nat) (i bmsk : Z) : option bool :=
  match n with
  | O => Some false
  | S n =>
      hit ← (if Z.land ep_suspend_data bmsk =? 0 then Some false else lookup_z valid i);
      if (hit : bool) then Some true
      else valid_ep_loop valid ep_suspend_data n (i + 1) (u32 (Z.shiftl bmsk 1))
  end.

Definition is_valid_ep (ep_suspend_data : Z) : QM bool :=
  s ← get; of_option (valid_ep_loop (irq_ep_valid E s) ep_suspend_data (ipa_num_pipes E) 0 1).

(** The data of a suspend interrupt: [inl] is a result that ends the handling. *)
Definition suspend_data (t : Z) : QM (Z + option positive) :=
  if t =? IPA_TX_SUSPEND_IRQ then
    clocked ;; s ← get;
    let suspend_data := u32 (irq_suspend_info E s) in
    note (SuspendInfo suspend_data) ;;
    ok ← is_valid_ep suspend_data;
    if negb ok then note (NoValidEp t) ;; mret (inl 0)
    else
      o ← irq_kzalloc;
      match o with
      | None => note (NoMemory t) ;; mret (inl (- ENOMEM))
      | Some q =>
          upd_mm (λ m, with_data (<[q := suspend_data]> (irq_data m)) m) ;; mret (inr (Some q))
      end
  else mret (inr None).

Definition handle_interrupt (irq_num : Z) (isr_context : bool) : QM Z :=
  s ← get; interrupt_info ← of_option (lookup_z (irq_cb s) irq_num);
  match handler interrupt_info with
  | None => note (NoHandler irq_num) ;; mret (- EINVAL)
  | Some h =>
      d ← suspend_data (interrupt interrupt_info);
      match d with
      | inl r => mret r
      | inr interrupt_data =>
          if deferred_flag interrupt_info || isr_context then
            o ← irq_kzalloc;
            match o with
            | None =>
                note (NoMemory (interrupt interrupt_info)) ;;
                free_data interrupt_data ;; mret (- ENOMEM)
            | Some p =>
                let w := mkWrap h (interrupt interrupt_info) (private_data interrupt_info)
                           interrupt_data in
                upd_mm (λ m, with_works (<[p := w]> (irq_works m)) (irq_wq m ++ [p]) m) ;;
                note (Queue w) ;; mret 0
            end
          else
            call_handler h (interrupt interrupt_info) (private_data interrupt_info)
              interrupt_data ;;
            free_data interrupt_data ;; mret 0
      end
  end.

Definition is_uc (t : Z) : bool := (IPA_UC_IRQ_0 <=? t) && (t <=? IPA_UC_IRQ_3).
Definition is_uc_irq (irq_num : Z) : QM bool :=
  s ← get; interrupt_info ← of_option (lookup_z (irq_cb s) irq_num);
  mret (is_uc (interrupt interrupt_info)).

(** ** All that are pending *)

(** One turn of the inner loop. *)
Definition process_one (en reg : Z) (isr_context : bool) (i bmsk : Z) : QM () :=
  if Z.land (Z.land en reg) bmsk =? 0 then mret ()
  else
    uc_irq ← is_uc_irq i;
    when uc_irq (write_clr bmsk) ;;
    handle_interrupt i isr_context ;;
    when (negb uc_irq) (write_clr bmsk).

Fixpoint process_pass (en reg : Z) (isr_context : bool) (n : nat) (i bmsk : Z) : QM () :=
  match n with
  | O => mret ()
  | S n =>
      process_one en reg isr_context i bmsk ;;
      process_pass en reg isr_context n (i + 1) (u32 (Z.shiftl bmsk 1))
  end.

Fixpoint process_loop (fuel : nat) (en : Z) (isr_context : bool) (reg : Z) : QM () :=
  if Z.land en reg =? 0 then mret ()
  else
    match fuel with
    | O => UB
    | S fuel =>
        process_pass en reg isr_context IPA_IRQ_NUM_MAX 0 1 ;;
        reg ← read_stts; process_loop fuel en isr_context reg
    end.

Definition ipa_process_interrupts (isr_context : bool) : QM () :=
  en ← read_en; reg ← read_stts;
  s ← get; process_loop (S (length (incoming (irq_hw_of s)))) en isr_context reg.

(** ** Votes for the clocks *)

Definition upd_ac (f : active_clients → active_clients) : QM () :=
  modify (λ s, with_ac (f (irq_ac s)) s).
Definition set_locked (b : bool) (a : active_clients) : active_clients :=
  mkAc b (cnt a) (tag_process_before_gating a) (clks_on a) (tag_queued a) (defer_queued a).
Definition set_cnt (n : Z) (a : active_clients) : active_clients :=
  mkAc (mutex_locked a) n (tag_process_before_gating a) (clks_on a) (tag_queued a) (defer_queued a).
Definition set_gating (b : bool) (a : active_clients) : active_clients :=
  mkAc (mutex_locked a) (cnt a) b (clks_on a) (tag_queued a) (defer_queued a).
Definition set_clks (b : bool) (a : active_clients) : active_clients :=
  mkAc (mutex_locked a) (cnt a) (tag_process_before_gating a) b (tag_queued a) (defer_queued a).
Definition set_tag (b : bool) (a : active_clients) : active_clients :=
  mkAc (mutex_locked a) (cnt a) (tag_process_before_gating a) (clks_on a) b (defer_queued a).
Definition set_defer (b : bool) (a : active_clients) : active_clients :=
  mkAc (mutex_locked a) (cnt a) (tag_process_before_gating a) (clks_on a) (tag_queued a) b.

Definition ipa_active_clients_lock : QM () :=
  s ← get; if mutex_locked (irq_ac s) then UB else upd_ac (set_locked true).
Definition ipa_active_clients_unlock : QM () := upd_ac (set_locked false).

(** Whether it is locked. *)
Definition ipa_active_clients_trylock : QM bool :=
  s ← get; mret (negb (mutex_locked (irq_ac s))).

(** [queue_work(power_mgmt_wq, &ipa_interrupt_defer_work)]: once, however often. *)
Definition queue_defer : QM () := upd_ac (set_defer true).

Definition ipa_isr : QM () :=
  locked ← ipa_active_clients_trylock;
  if negb locked then queue_defer
  else
    s ← get;
    if cnt (irq_ac s) =? 0 then queue_defer else ipa_process_interrupts true.

(** [irq1], [irq2]: whether an interrupt comes before and after the change, under the mutex. *)
Definition ipa2_inc_client_enable_clks (irq1 irq2 : bool) : QM () :=
  ipa_active_clients_lock ;;
  when irq1 ipa_isr ;;
  upd_ac (λ a, set_cnt (i32 (cnt a + 1)) a) ;;
  s ← get;
  when (cnt (irq_ac s) =? 1) (upd_ac (set_clks true)) ;;
  when irq2 ipa_isr ;;
  ipa_active_clients_unlock.

Definition ipa2_inc_client_enable_clks_no_block : QM Z :=
  locked ← ipa_active_clients_trylock;
  if negb locked then mret (- EPERM)
  else
    s ← get;
    if cnt (irq_ac s) =? 0 then mret (- EPERM)
    else upd_ac (λ a, set_cnt (i32 (cnt a + 1)) a) ;; mret 0.

Definition ipa2_dec_client_disable_clks (irq1 irq2 : bool) : QM () :=
  ipa_active_clients_lock ;;
  when irq1 ipa_isr ;;
  upd_ac (λ a, set_cnt (i32 (cnt a - 1)) a) ;;
  s ← get;
  when (cnt (irq_ac s) =? 0)
    (if tag_process_before_gating (irq_ac s) then
       upd_ac (set_gating false) ;; upd_ac (set_cnt 1) ;; upd_ac (set_tag true)
     else upd_ac (set_clks false)) ;;
  when irq2 ipa_isr ;;
  ipa_active_clients_unlock.

(** [ipa_tag_aggr_force_close] accesses the hardware; its result is only reported. *)
Definition ipa_start_tag_process (irq1 irq2 : bool) : QM () :=
  upd_ac (set_tag false) ;;
  clocked ;; ipa2_dec_client_disable_clks irq1 irq2.

Definition ipa_interrupt_defer (irq1 irq2 irq3 irq4 : bool) : QM () :=
  upd_ac (set_defer false) ;;
  ipa2_inc_client_enable_clks irq1 irq2 ;;
  ipa_process_interrupts false ;;
  ipa2_dec_client_disable_clks irq3 irq4.

(** ** Handlers *)

Definition set_info (irq_num : Z) (i : ipa_interrupt_info) : QM () :=
  s ← get; l ← of_option (store_z (irq_cb s) irq_num i); modify (with_cb l).

Definition ipa2_add_interrupt_handler (t : Z) (h : option nat) (deferred : bool)
    (priv : option positive) : QM Z :=
  if (t <? 0) || (t >=? IPA_IRQ_MAX) then mret (- EINVAL)
  else
    irq_num ← of_option (lookup_z ipa2_irq_mapping t);
    if (irq_num <? 0) || (irq_num >=? Z.of_nat IPA_IRQ_NUM_MAX) then mret (- EFAULT)
    else
      set_info irq_num (mkInfo h t priv deferred) ;;
      val ← read_en;
      write_en (Z.lor val (Z.shiftl 1 irq_num)) ;;
      mret 0.

Definition no_info : ipa_interrupt_info := mkInfo None NO_IRQ None false.

Definition ipa2_remove_interrupt_handler (t : Z) : QM Z :=
  if (t <? 0) || (t >=? IPA_IRQ_MAX) then mret (- EINVAL)
  else
    irq_num ← of_option (lookup_z ipa2_irq_mapping t);
    if (irq_num <? 0) || (irq_num >=? Z.of_nat IPA_IRQ_NUM_MAX) then mret (- EFAULT)
    else
      s ← get; i ← of_option (lookup_z (irq_cb s) irq_num);
      free_private (private_data i) ;;
      set_info irq_num no_info ;;
      val ← read_en;
      write_en (Z.ldiff val (Z.shiftl 1 irq_num)) ;;
      mret 0.

(** The number of [ipa_suspend_handler], the handler of the suspend interrupt. *)
Definition suspend_handler_number : nat := 0.

Definition ipa2_restore_suspend_handler : QM Z :=
  result ← ipa2_remove_interrupt_handler IPA_TX_SUSPEND_IRQ;
  if negb (result =? 0) then mret (- EPERM)
  else
    result ← ipa2_add_interrupt_handler IPA_TX_SUSPEND_IRQ (Some suspend_handler_number) true None;
    mret (if negb (result =? 0) then - EPERM else 0).

Definition ipa_interrupts_init : QM Z :=
  modify (with_cb (replicate IPA_IRQ_NUM_MAX no_info)) ;;
  if negb (irq_create_wq E) then mret (- ENOMEM)
  else
    write_clr 4294967295 ;;
    if negb (irq_request E) then mret (- ENODEV) else mret 0.

(** ** What can happen *)

Inductive irq_call :=
  | IAdd (t : Z) (h : option nat) (deferred : bool) (priv : option positive)
  | IRemove (t : Z)
  | IRestore
  | IIsr
  | IDefer (irq1 irq2 irq3 irq4 : bool)
  | IWorker
  | IInc (irq1 irq2 : bool)
  | IDec (irq1 irq2 : bool)
  | IIncNoBlock
  | ITag (irq1 irq2 : bool)
  | ISetGating
  | IClientAlloc (p : positive).

Definition irq_run (c : irq_call) : QM Z :=
  match c with
  | IAdd t h d p => ipa2_add_interrupt_handler t h d p
  | IRemove t => ipa2_remove_interrupt_handler t
  | IRestore => ipa2_restore_suspend_handler
  | IIsr => ipa_isr ;; mret 0
  | IDefer a b c d => ipa_interrupt_defer a b c d ;; mret 0
  | IWorker =>
      s ← get;
      match irq_wq (irq_mm s) with
      | [] => mret 0
      | p :: l => upd_mm (λ m, with_works (irq_works m) l m) ;; deferred_interrupt_work p ;; mret 0
      end
  | IInc a b => ipa2_inc_client_enable_clks a b ;; mret 0
  | IDec a b => ipa2_dec_client_disable_clks a b ;; mret 0
  | IIncNoBlock => ipa2_inc_client_enable_clks_no_block
  | ITag a b => ipa_start_tag_process a b ;; mret 0
  | ISetGating => upd_ac (set_gating true) ;; mret 0
  | IClientAlloc p => upd_mm (λ m, with_client_mem ({[p]} ∪ client_mem m) m) ;; mret 0
  end.
End Interrupts.

(** Before the initialization: the vote of the probe holds the clocks, nothing is enabled. *)
Definition irq_state0 (l : list Z) : irq_state :=
  mkIrq [] (mkHw 0 0 l) (mkAc false 1 false true false false) (mkMem ∅ ∅ [] ∅) [] 0.
End Interrupts.

(** The suspension of pipes: what its interrupt asks of the resource manager, and the vote that
    keeps the clocks on while the pipes of the application processor are in use. *)
Module Suspend.
Import Interrupts.

(** [enum ipa_client_type]: those that the tables name. *)
Definition IPA_CLIENT_HSIC1_PROD : Z := 0.
Definition IPA_CLIENT_HSIC1_CONS : Z := 1.
Definition IPA_CLIENT_HSIC2_PROD : Z := 2.
Definition IPA_CLIENT_HSIC2_CONS : Z := 3.
Definition IPA_CLIENT_HSIC3_PROD : Z := 4.
Definition IPA_CLIENT_HSIC3_CONS : Z := 5.
Definition IPA_CLIENT_HSIC4_PROD : Z := 6.
Definition IPA_CLIENT_HSIC4_CONS : Z := 7.
Definition IPA_CLIENT_WLAN1_PROD : Z := 10.
Definition IPA_CLIENT_WLAN1_CONS : Z := 11.
Definition IPA_CLIENT_A5_WLAN_AMPDU_PROD : Z := 12.
Definition IPA_CLIENT_WLAN2_CONS : Z := 13.
Definition IPA_CLIENT_WLAN3_CONS : Z := 15.
Definition IPA_CLIENT_WLAN4_CONS : Z := 17.
Definition IPA_CLIENT_USB_PROD : Z := 18.
Definition IPA_CLIENT_USB_CONS : Z := 19.
Definition IPA_CLIENT_USB2_PROD : Z := 20.
Definition IPA_CLIENT_USB2_CONS : Z := 21.
Definition IPA_CLIENT_USB3_PROD : Z := 22.
Definition IPA_CLIENT_USB3_CONS : Z := 23.
Definition IPA_CLIENT_USB4_PROD : Z := 24.
Definition IPA_CLIENT_USB4_CONS : Z := 25.
Definition IPA_CLIENT_USB_DPL_CONS : Z := 27.
Definition IPA_CLIENT_A2_EMBEDDED_PROD : Z := 28.
Definition IPA_CLIENT_A2_EMBEDDED_CONS : Z := 29.
Definition IPA_CLIENT_A2_TETHERED_PROD : Z := 30.
Definition IPA_CLIENT_A2_TETHERED_CONS : Z := 31.
Definition IPA_CLIENT_APPS_LAN_WAN_PROD : Z := 34.
Definition IPA_CLIENT_APPS_WAN_CONS : Z := 35.
Definition IPA_CLIENT_APPS_CMD_PROD : Z := 36.
Definition IPA_CLIENT_A5_LAN_WAN_CONS : Z := 37.
Definition IPA_CLIENT_ODU_PROD : Z := 38.
Definition IPA_CLIENT_ODU_EMB_CONS : Z := 39.
Definition IPA_CLIENT_ODU_TETH_CONS : Z := 41.
Definition IPA_CLIENT_MHI_PROD : Z := 42.
Definition IPA_CLIENT_MHI_CONS : Z := 43.
Definition IPA_CLIENT_MEMCPY_DMA_SYNC_PROD : Z := 44.
Definition IPA_CLIENT_MEMCPY_DMA_SYNC_CONS : Z := 45.
Definition IPA_CLIENT_MEMCPY_DMA_ASYNC_PROD : Z := 46.
Definition IPA_CLIENT_MEMCPY_DMA_ASYNC_CONS : Z := 47.
Definition IPA_CLIENT_ETHERNET_PROD : Z := 48.
Definition IPA_CLIENT_ETHERNET_CONS : Z := 49.
Definition IPA_CLIENT_Q6_LAN_PROD : Z := 50.
Definition IPA_CLIENT_Q6_LAN_CONS : Z := 51.
Definition IPA_CLIENT_Q6_WAN_CONS : Z := 53.
Definition IPA_CLIENT_Q6_CMD_PROD : Z := 54.
Definition IPA_CLIENT_Q6_DECOMP_PROD : Z := 56.
Definition IPA_CLIENT_Q6_DECOMP_CONS : Z := 57.
Definition IPA_CLIENT_Q6_DECOMP2_PROD : Z := 58.
Definition IPA_CLIENT_Q6_DECOMP2_CONS : Z := 59.
Definition IPA_CLIENT_Q6_LTE_WIFI_AGGR_CONS : Z := 61.
Definition IPA_CLIENT_TEST_PROD : Z := 62.
Definition IPA_CLIENT_TEST_CONS : Z := 63.
Definition IPA_CLIENT_TEST1_PROD : Z := 64.
Definition IPA_CLIENT_TEST1_CONS : Z := 65.
Definition IPA_CLIENT_TEST2_PROD : Z := 66.
Definition IPA_CLIENT_TEST2_CONS : Z := 67.
Definition IPA_CLIENT_TEST3_PROD : Z := 68.
Definition IPA_CLIENT_TEST3_CONS : Z := 69.
Definition IPA_CLIENT_TEST4_PROD : Z := 70.
Definition IPA_CLIENT_TEST4_CONS : Z := 71.
Definition IPA_CLIENT_APPS_WAN_COAL_CONS : Z := 95.
Definition IPA_CLIENT_MAX : Z := 104.

Definition ep_mapping_1_1 : list (Z * Z) := [
  (IPA_CLIENT_HSIC1_PROD, 19); (IPA_CLIENT_HSIC2_PROD, 12); (IPA_CLIENT_USB2_PROD, 12);
  (IPA_CLIENT_HSIC3_PROD, 13); (IPA_CLIENT_USB3_PROD, 13); (IPA_CLIENT_HSIC4_PROD, 0);
  (IPA_CLIENT_USB4_PROD, 0); (IPA_CLIENT_USB_PROD, 11); (IPA_CLIENT_A5_WLAN_AMPDU_PROD, 15);
  (IPA_CLIENT_A2_EMBEDDED_PROD, 8); (IPA_CLIENT_A2_TETHERED_PROD, 6);
  (IPA_CLIENT_APPS_LAN_WAN_PROD, 2); (IPA_CLIENT_APPS_CMD_PROD, 1); (IPA_CLIENT_Q6_LAN_PROD, 5);
  (IPA_CLIENT_HSIC1_CONS, 14); (IPA_CLIENT_HSIC2_CONS, 16); (IPA_CLIENT_USB2_CONS, 16);
  (IPA_CLIENT_HSIC3_CONS, 17); (IPA_CLIENT_USB3_CONS, 17); (IPA_CLIENT_HSIC4_CONS, 18);
  (IPA_CLIENT_USB4_CONS, 18); (IPA_CLIENT_USB_CONS, 10); (IPA_CLIENT_A2_EMBEDDED_CONS, 9);
  (IPA_CLIENT_A2_TETHERED_CONS, 7); (IPA_CLIENT_A5_LAN_WAN_CONS, 3);
  (IPA_CLIENT_Q6_LAN_CONS, 4)].

Definition ep_mapping_2_0 : list (Z * Z) := [
  (IPA_CLIENT_HSIC1_PROD, 12); (IPA_CLIENT_WLAN1_PROD, 18); (IPA_CLIENT_USB2_PROD, 12);
  (IPA_CLIENT_USB3_PROD, 13); (IPA_CLIENT_USB4_PROD, 0); (IPA_CLIENT_USB_PROD, 11);
  (IPA_CLIENT_APPS_LAN_WAN_PROD, 4); (IPA_CLIENT_APPS_CMD_PROD, 3); (IPA_CLIENT_ODU_PROD, 12);
  (IPA_CLIENT_MHI_PROD, 18); (IPA_CLIENT_Q6_LAN_PROD, 6); (IPA_CLIENT_Q6_CMD_PROD, 7);
  (IPA_CLIENT_MEMCPY_DMA_SYNC_PROD, 12); (IPA_CLIENT_MEMCPY_DMA_ASYNC_PROD, 19);
  (IPA_CLIENT_ETHERNET_PROD, 12); (IPA_CLIENT_TEST_PROD, 19); (IPA_CLIENT_TEST1_PROD, 19);
  (IPA_CLIENT_TEST2_PROD, 12); (IPA_CLIENT_TEST3_PROD, 11); (IPA_CLIENT_TEST4_PROD, 0);
  (IPA_CLIENT_HSIC1_CONS, 13); (IPA_CLIENT_WLAN1_CONS, 17); (IPA_CLIENT_WLAN2_CONS, 16);
  (IPA_CLIENT_WLAN3_CONS, 14); (IPA_CLIENT_WLAN4_CONS, 19); (IPA_CLIENT_USB_CONS, 15);
  (IPA_CLIENT_USB_DPL_CONS, 0); (IPA_CLIENT_APPS_LAN_CONS, 2); (IPA_CLIENT_APPS_WAN_CONS, 5);
  (IPA_CLIENT_ODU_EMB_CONS, 13); (IPA_CLIENT_ODU_TETH_CONS, 1); (IPA_CLIENT_MHI_CONS, 17);
  (IPA_CLIENT_Q6_LAN_CONS, 8); (IPA_CLIENT_Q6_WAN_CONS, 9);
  (IPA_CLIENT_MEMCPY_DMA_SYNC_CONS, 13); (IPA_CLIENT_MEMCPY_DMA_ASYNC_CONS, 16);
  (IPA_CLIENT_Q6_LTE_WIFI_AGGR_CONS, 10); (IPA_CLIENT_ETHERNET_CONS, 1);
  (IPA_CLIENT_TEST_CONS, 1); (IPA_CLIENT_TEST1_CONS, 1); (IPA_CLIENT_TEST2_CONS, 16);
  (IPA_CLIENT_TEST3_CONS, 13); (IPA_CLIENT_TEST4_CONS, 15)].

Definition ep_mapping_2_6L : list (Z * Z) := [
  (IPA_CLIENT_USB_PROD, 1); (IPA_CLIENT_WLAN1_PROD, 18); (IPA_CLIENT_WLAN1_CONS, 17);
  (IPA_CLIENT_WLAN2_CONS, 16); (IPA_CLIENT_WLAN3_CONS, 15); (IPA_CLIENT_WLAN4_CONS, 19);
  (IPA_CLIENT_APPS_LAN_WAN_PROD, 4); (IPA_CLIENT_APPS_CMD_PROD, 3); (IPA_CLIENT_Q6_LAN_PROD, 6);
  (IPA_CLIENT_Q6_CMD_PROD, 7); (IPA_CLIENT_Q6_DECOMP_PROD, 11); (IPA_CLIENT_Q6_DECOMP2_PROD, 13);
  (IPA_CLIENT_TEST_PROD, 11); (IPA_CLIENT_TEST1_PROD, 11); (IPA_CLIENT_TEST2_PROD, 12);
  (IPA_CLIENT_TEST3_PROD, 13); (IPA_CLIENT_TEST4_PROD, 14); (IPA_CLIENT_USB_CONS, 0);
  (IPA_CLIENT_USB_DPL_CONS, 10); (IPA_CLIENT_APPS_LAN_CONS, 2); (IPA_CLIENT_APPS_WAN_CONS, 5);
  (IPA_CLIENT_Q6_LAN_CONS, 8); (IPA_CLIENT_Q6_WAN_CONS, 9); (IPA_CLIENT_Q6_DECOMP_CONS, 12);
  (IPA_CLIENT_Q6_DECOMP2_CONS, 14); (IPA_CLIENT_TEST_CONS, 15); (IPA_CLIENT_TEST1_CONS, 15);
  (IPA_CLIENT_TEST2_CONS, 0); (IPA_CLIENT_TEST3_CONS, 1); (IPA_CLIENT_TEST4_CONS, 10)].

Definition IPA_CLIENT_IS_CONS (x : Z) : bool := (x <? IPA_CLIENT_MAX) && (Z.land x 1 =? 1).
Definition IPA_CLIENT_IS_PROD (x : Z) : bool := (x <? IPA_CLIENT_MAX) && (Z.land x 1 =? 0).
Definition IPA_CLIENT_IS_APPS_CONS (x : Z) : bool :=
  (x =? IPA_CLIENT_APPS_LAN_CONS) || (x =? IPA_CLIENT_APPS_WAN_CONS)
  || (x =? IPA_CLIENT_APPS_WAN_COAL_CONS).

(** An entry that the table does not name is not valid. *)
Definition ep_mapping_at (tbl : list (Z * Z)) (client : Z) : option Z :=
  snd <$> find (λ e, fst e =? client) tbl.

Definition ipa2_get_ep_mapping (hw_type client : Z) : Z :=
  if (client >=? IPA_CLIENT_MAX) || (client <? 0) then -1
  else
    default (-1) (ep_mapping_at
      (if (hw_type =? IPA_HW_v2_0) || (hw_type =? IPA_HW_v2_5) then ep_mapping_2_0
       else if hw_type =? IPA_HW_v2_6L then ep_mapping_2_6L else ep_mapping_1_1) client).

(** The clients of a resource, and [None] for a name out of range. *)
Definition ipa_get_clients_from_rm_resource (resource : nat) : option (list Z) :=
  if (IPA_RM_RESOURCE_MAX <=? resource)%nat then None
  else
    Some match resource with
         | 3 => [IPA_CLIENT_USB_CONS]
         | 7 => [IPA_CLIENT_HSIC1_CONS]
         | 15 => [IPA_CLIENT_WLAN1_CONS; IPA_CLIENT_WLAN2_CONS; IPA_CLIENT_WLAN3_CONS;
                  IPA_CLIENT_WLAN4_CONS]
         | 19 => [IPA_CLIENT_MHI_CONS]
         | 17 => [IPA_CLIENT_ODU_EMB_CONS; IPA_CLIENT_ODU_TETH_CONS]
         | 21 => [IPA_CLIENT_ETHERNET_CONS]
         | 2 => [IPA_CLIENT_USB_PROD]
         | 6 => [IPA_CLIENT_HSIC1_PROD]
         | 18 => [IPA_CLIENT_MHI_PROD]
         | 16 => [IPA_CLIENT_ODU_PROD]
         | 20 => [IPA_CLIENT_ETHERNET_PROD]
         | _ => []
         end%nat.

(** The loop over the resources from [i] on. *)
Fixpoint find_resource (client : Z) (n i : nat) : option nat :=
  match n with
  | O => None
  | S n =>
      if existsb (Z.eqb client) (default [] (ipa_get_clients_from_rm_resource i)) then Some i
      else find_resource client n (S i)
  end.

(** [struct ipa_ep_cfg_holb] *)
Record ipa_ep_cfg_holb := mkHolb { holb_en : Z; tmr_val : Z }.

(** [ipa_ctx->sps_pm], [wakelock_ref_cnt], the wakeup source, and the delayed work. *)
Record sps_pm := mkPm {
  dec_clients : bool;
  eot_activity : bool;
  sps_pm_locked : bool;
  wakelock_ref_cnt : Z;
  stay_awake : bool;
  release_scheduled : bool;
}.

(** [su_holb]: the configurations of head-of-line blocking, each stored in its endpoint and
    written to its registers, latest first. *)
Record susp_state := mkSusp {
  su_irq : irq_state;
  su_rm : rm_state;
  su_pm : sps_pm;
  su_holb : list (Z * ipa_ep_cfg_holb);
}.

(** The two environments; the endpoints, each valid or not with its client; the controller. *)
Record susp_env := mkSuspEnv {
  su_irq_env : irq_env;
  su_rm_env : rm_env;
  su_eps : list (bool * Z);
  su_num_pipes : nat;
  su_hw_type : Z;
  max_holb_tmr_val : Z;
  holb_supported : bool;
}.

Definition IPA_WAKELOCK_REF_CLIENT_SPS : Z := 5.
Definition IPA_WAKELOCK_REF_CLIENT_MAX : Z := 6.

Abbreviation SM := (M susp_state).

Definition in_irq {A} (m : M irq_state A) : SM A := λ s,
  match m (su_irq s) with
  | Some (a, i) => Some (a, mkSusp i (su_rm s) (su_pm s) (su_holb s))
  | None => None
  end.
Definition in_rm {A} (m : M rm_state A) : SM A := λ s,
  match m (su_rm s) with
  | Some (a, r) => Some (a, mkSusp (su_irq s) r (su_pm s) (su_holb s))
  | None => None
  end.
Definition upd_pm (f : sps_pm → sps_pm) : SM () :=
  modify (λ s, mkSusp (su_irq s) (su_rm s) (f (su_pm s)) (su_holb s)).

Definition set_dec (b : bool) (p : sps_pm) : sps_pm :=
  mkPm b (eot_activity p) (sps_pm_locked p) (wakelock_ref_cnt p) (stay_awake p) (release_scheduled p).
Definition set_eot (b : bool) (p : sps_pm) : sps_pm :=
  mkPm (dec_clients p) b (sps_pm_locked p) (wakelock_ref_cnt p) (stay_awake p) (release_scheduled p).
Definition set_pm_locked (b : bool) (p : sps_pm) : sps_pm :=
  mkPm (dec_clients p) (eot_activity p) b (wakelock_ref_cnt p) (stay_awake p) (release_scheduled p).
Definition set_wake (n : Z) (b : bool) (p : sps_pm) : sps_pm :=
  mkPm (dec_clients p) (eot_activity p) (sps_pm_locked p) n b (release_scheduled p).
Definition set_release (b : bool) (p : sps_pm) : sps_pm :=
  mkPm (dec_clients p) (eot_activity p) (sps_pm_locked p) (wakelock_ref_cnt p) (stay_awake p) b.

Definition pm_lock : SM () :=
  s ← get; if sps_pm_locked (su_pm s) then UB else upd_pm (set_pm_locked true).
Definition pm_unlock : SM () := upd_pm (set_pm_locked false).

Definition ipa_inc_acquire_wakelock (ref_client : Z) : SM () :=
  if ref_client >=? IPA_WAKELOCK_REF_CLIENT_MAX then mret ()
  else
    upd_pm (λ p, let n := Z.lor (wakelock_ref_cnt p) (Z.shiftl 1 ref_client) in
                 set_wake n (if negb (n =? 0) then true else stay_awake p) p).

Definition ipa_dec_release_wakelock (ref_client : Z) : SM () :=
  if ref_client >=? IPA_WAKELOCK_REF_CLIENT_MAX then mret ()
  else
    upd_pm (λ p, let n := Z.ldiff (wakelock_ref_cnt p) (Z.shiftl 1 ref_client) in
                 set_wake n (if n =? 0 then false else stay_awake p) p).

(** [queue_delayed_work]: once, however often. *)
Definition ipa_sps_process_irq_schedule_rel : SM () := upd_pm (set_release true).

Section Suspend.
Context (E : susp_env).

Definition inc_clks : SM () := in_irq (ipa2_inc_client_enable_clks (su_irq_env E) false false).
Definition dec_clks : SM () := in_irq (ipa2_dec_client_disable_clks (su_irq_env E) false false).

(** An [enum] that may be an error number. *)
Definition ipa2_get_rm_resource_from_ep (pipe_idx : Z) : option Z :=
  if (pipe_idx >=? Z.of_nat (su_num_pipes E)) || (pipe_idx <? 0) then Some (- EINVAL)
  else
    e ← lookup_z (su_eps E) pipe_idx;
    Some match find_resource (snd e) IPA_RM_RESOURCE_MAX 0 with
         | Some i => Z.of_nat i
         | None => - EFAULT
         end.

Definition ipa2_cfg_ep_holb (clnt_hdl : Z) (ep_holb : ipa_ep_cfg_holb) : SM Z :=
  if clnt_hdl >=? Z.of_nat (su_num_pipes E) then mret (- EINVAL)
  else
    e ← of_option (lookup_z (su_eps E) clnt_hdl);
    if negb (fst e) || (tmr_val ep_holb >? max_holb_tmr_val E) || (holb_en ep_holb >? 1)
    then mret (- EINVAL)
    else if IPA_CLIENT_IS_PROD (snd e) then mret (- EINVAL)
    else if negb (holb_supported E) then mret (- EINVAL)
    else
      inc_clks ;;
      in_irq clocked ;;
      modify (λ s, mkSusp (su_irq s) (su_rm s) (su_pm s) ((clnt_hdl, ep_holb) :: su_holb s)) ;;
      dec_clks ;;
      mret 0.

Definition ipa2_cfg_ep_holb_by_client (client : Z) (ep_holb : ipa_ep_cfg_holb) : SM Z :=
  ipa2_cfg_ep_holb (u32 (ipa2_get_ep_mapping (su_hw_type E) client)) ep_holb.

(** A pipe of the application processor: the clocks are kept on. *)
Definition suspend_apps : SM () :=
  pm_lock ;;
  s ← get;
  when (negb (dec_clients (su_pm s)))
    (inc_clks ;;
     upd_pm (set_dec true) ;;
     ipa_inc_acquire_wakelock IPA_WAKELOCK_REF_CLIENT_SPS ;;
     ipa_sps_process_irq_schedule_rel) ;;
  pm_unlock.

(** Another pipe: its peripheral is requested. [ipa_assert] ends the system. *)
Definition suspend_other (i client : Z) : SM () :=
  resource ← of_option (ipa2_get_rm_resource_from_ep i);
  res ← in_rm (ipa_rm_request_resource_with_timer (su_rm_env E) (Z.to_nat (u32 resource)));
  when ((res =? - EPERM) && IPA_CLIENT_IS_CONS client)
    (res ← ipa2_cfg_ep_holb_by_client client (mkHolb 1 0); when (negb (res =? 0)) UB).

Fixpoint suspend_loop (suspend_data : Z) (n : nat) (i bmsk : Z) : SM () :=
  match n with
  | O => mret ()
  | S n =>
      (if Z.land suspend_data bmsk =? 0 then mret ()
       else
         e ← of_option (lookup_z (su_eps E) i);
         if negb (fst e) then mret ()
         else if IPA_CLIENT_IS_APPS_CONS (snd e) then suspend_apps
         else suspend_other i (snd e)) ;;
      suspend_loop suspend_data n (i + 1) (u32 (Z.shiftl bmsk 1))
  end.

Definition ipa_suspend_handler (endpoints : Z) : SM () :=
  suspend_loop endpoints (su_num_pipes E) 0 1.

Definition ipa_sps_release_resource : SM () :=
  pm_lock ;;
  s ← get;
  when (dec_clients (su_pm s))
    (if eot_activity (su_pm s) then ipa_sps_process_irq_schedule_rel
     else
       upd_pm (set_dec false) ;;
       ipa_dec_release_wakelock IPA_WAKELOCK_REF_CLIENT_SPS ;;
       dec_clks) ;;
  upd_pm (set_eot false) ;;
  pm_unlock.

(** [polling]: which endpoints have a pipe in polling mode. The scheduled work is not cancelled. *)
Definition ipa2_ap_suspend (polling : list bool) : SM Z :=
  if existsb id (take (su_num_pipes E) polling) then mret (- Messages.EAGAIN)
  else
    upd_pm (set_eot false) ;;
    ipa_sps_release_resource ;;
    mret 0.

(** What can happen: the handler, the delayed work, the suspension of the application processor,
    activity of the data path, the wakelock of another client, and the calls of the interrupts and
    steps of the resource manager. *)
Inductive susp_call :=
  | SuSuspend (endpoints : Z)
  | SuRelease
  | SuApSuspend (polling : list bool)
  | SuEot
  | SuWake (ref_client : Z) (acquire : bool)
  | SuIrq (c : irq_call)
  | SuRm (l : rm_label).

Definition susp_run (c : susp_call) : SM () :=
  match c with
  | SuSuspend endpoints => ipa_suspend_handler endpoints
  | SuRelease => upd_pm (set_release false) ;; ipa_sps_release_resource
  | SuApSuspend polling => ipa2_ap_suspend polling ;; mret ()
  | SuEot => upd_pm (set_eot true)
  | SuWake r a => if a then ipa_inc_acquire_wakelock r else ipa_dec_release_wakelock r
  | SuIrq c => in_irq (irq_run (su_irq_env E) c) ;; mret ()
  | SuRm l => in_rm (run_label (su_rm_env E) l)
  end.
End Suspend.

Definition sps_pm0 : sps_pm := mkPm false false false 0 false false.
End Suspend.
