(* ===== verification/IrqProps.v ===== *)
(** * Interrupts and clock votes of the IPA: properties

    Every pending interrupt that is enabled is served, in the interrupt or deferred; the slots
    and the enable register refine a registry; the memory of deferred works. The hardware is
    accessed only while its clocks are on: otherwise the calls would be undefined. Last, the
    suspension of pipes with the resource manager. *)

From S2P Require Import Prelude.
From S2P Require Import RmTypes.
From S2P Require Import Rm.
From S2P Require Import RmSafety.
From S2P Require Import RmExample.
From S2P Require Import Irq.
Import Interrupts.

(** [kzalloc] returns memory that is not in use, and every pipe has an endpoint. *)
Record irq_env_ok (E : irq_env) : Prop := {
  law_irq_alloc s p : irq_alloc E s = Some p →
    irq_data (irq_mm s) !! p = None ∧ irq_works (irq_mm s) !! p = None;
  law_irq_eps s : (ipa_num_pipes E ≤ length (irq_ep_valid E s))%nat;
}.
Existing Class irq_env_ok.

Abbreviation en_of s := (reg_en (irq_hw_of s)).
Abbreviation stts_of s := (reg_stts (irq_hw_of s)).
Abbreviation coming s := (incoming (irq_hw_of s)).

(** ** Events *)

(** The event by which the interrupt of a slot is served: its handler is called or queued, or,
    for a suspension, no valid pipe is in what the hardware says. *)
Definition serves (i : ipa_interrupt_info) (e : irq_event) : bool :=
  match e with
  | Queue w => w_interrupt w =? interrupt i
  | Call _ t _ _ | NoValidEp t => t =? interrupt i
  | _ => false
  end.

(** It is lost: there was no memory for its work or its data. *)
Definition loses (i : ipa_interrupt_info) (e : irq_event) : bool :=
  match e with NoMemory t => t =? interrupt i | _ => false end.
Definition settles (i : ipa_interrupt_info) (e : irq_event) : bool := serves i e || loses i e.

Local Ltac settled := unfold settles; cbn; rewrite ?Z.eqb_refl; done.

Definition is_raise (e : irq_event) : bool := match e with Raise _ => true | _ => false end.

(** Whether bit [j] was raised since the interrupt was last served; [b]: before the events. *)
Definition pend_step (i : ipa_interrupt_info) (j : Z) (b : bool) (e : irq_event) : bool :=
  match e with
  | Raise bits => b || Z.testbit bits j
  | _ => b && negb (settles i e)
  end.
Definition unserved (i : ipa_interrupt_info) (j : Z) (b : bool) (l : list irq_event) : bool :=
  foldl (pend_step i j) b l.

Lemma unserved_app i j b l1 l2 : unserved i j b (l1 ++ l2) = unserved i j (unserved i j b l1) l2.
Proof. apply foldl_app. Qed.

Lemma unserved_cons i j b e l : unserved i j b (e :: l) = unserved i j (pend_step i j b e) l.
Proof. done. Qed.

Lemma unserved_mono i j b l : unserved i j b l = true → unserved i j true l = true.
Proof.
  revert b. induction l as [|e l IH]; intros b; [done|]. rewrite !unserved_cons. intros H.
  destruct b; [done|]. destruct (pend_step i j true e) eqn:He; [by apply (IH _ H)|].
  assert (pend_step i j false e = false) as Hf by (destruct e; cbn in He |- *; congruence || done).
  by rewrite Hf in H.
Qed.

Lemma unserved_quiet i j b l :
  existsb is_raise l = false → unserved i j b l = b && negb (existsb (settles i) l).
Proof.
  revert b. induction l as [|e l IH]; intros b; cbn [existsb]; [by rewrite andb_true_r|].
  intros [He Hl]%orb_false_iff. rewrite unserved_cons, IH by done.
  destruct e; cbn in *; try done; destruct b; cbn; by rewrite ?negb_orb, ?andb_true_r.
Qed.



(** ** The memory *)

Record mem_inv (m : irq_mem) : Prop := {
  mi_wq : NoDup (irq_wq m);
  mi_works p : p ∈ irq_wq m ↔ is_Some (irq_works m !! p);
  mi_live p w q : irq_works m !! p = Some w → w_interrupt_data w = Some q →
    is_Some (irq_data m !! q);
  mi_uniq p w p' w' q : irq_works m !! p = Some w → irq_works m !! p' = Some w' →
    w_interrupt_data w = Some q → w_interrupt_data w' = Some q → p = p';
  mi_owned q : is_Some (irq_data m !! q) →
    ∃ p w, irq_works m !! p = Some w ∧ w_interrupt_data w = Some q;
  mi_susp p w : irq_works m !! p = Some w → w_interrupt w = IPA_TX_SUSPEND_IRQ →
    is_Some (w_interrupt_data w);
}.

Lemma mem_inv_client m c : mem_inv m → mem_inv (with_client_mem c m).
Proof. intros []. by constructor. Qed.

(** A new work at the end of the queue. *)
Lemma mem_inv_queue m p w :
  mem_inv m → irq_works m !! p = None →
  (w_interrupt w = IPA_TX_SUSPEND_IRQ → is_Some (w_interrupt_data w)) →
  match w_interrupt_data w with
  | None => mem_inv (with_works (<[p := w]> (irq_works m)) (irq_wq m ++ [p]) m)
  | Some q => ∀ v, irq_data m !! q = None →
      mem_inv (with_works (<[p := w]> (irq_works m)) (irq_wq m ++ [p])
                 (with_data (<[q := v]> (irq_data m)) m))
  end.
Proof.
  intros Hi Hp Hs.
  assert (p ∉ irq_wq m) as Hn by (rewrite (mi_works m Hi), Hp; by intros []).
  assert (NoDup (irq_wq m ++ [p])) as Hnd.
  { apply list.NoDup_app. split; [apply Hi|]. split; [|apply NoDup_singleton].
    intros x Hx ->%list_elem_of_singleton. done. }
  assert (∀ p', p' ∈ irq_wq m ++ [p] ↔ is_Some (<[p := w]> (irq_works m) !! p')) as Hw.
  { intros p'. rewrite elem_of_app, list_elem_of_singleton, (mi_works m Hi).
    destruct (decide (p' = p)) as [->|Hne]; [rewrite lookup_insert_eq; split; eauto|].
    rewrite lookup_insert_ne by done. split; [by intros [?| ->]|by left]. }
  destruct (w_interrupt_data w) as [q|] eqn:Hd; [intros v Hq|]; constructor; cbn; try done.
  - intros p' w' q' [[<- <-]|[Hne H]]%lookup_insert_Some Hq'.
    + rewrite Hd in Hq'. injection Hq' as <-. rewrite lookup_insert_eq. eauto.
    + destruct (decide (q' = q)) as [->|]; [rewrite lookup_insert_eq; eauto|].
      rewrite lookup_insert_ne by done. by eapply mi_live.
  - intros p1 w1 p2 w2 q' [[<- <-]|[Hne1 H1]]%lookup_insert_Some [[<- <-]|[Hne2 H2]]%lookup_insert_Some;
      try done; intros Hq1 Hq2.
    + rewrite Hd in Hq1. injection Hq1 as <-.
      destruct (mi_live m Hi _ _ _ H2 Hq2) as [? Hx]. by rewrite Hq in Hx.
    + rewrite Hd in Hq2. injection Hq2 as <-.
      destruct (mi_live m Hi _ _ _ H1 Hq1) as [? Hx]. by rewrite Hq in Hx.
    + by apply (mi_uniq m Hi p1 w1 p2 w2 q').
  - intros q'. destruct (decide (q' = q)) as [->|Hne].
    + intros _. exists p, w. by rewrite lookup_insert_eq.
    + rewrite lookup_insert_ne by done. intros (p' & w' & Hp' & Hd')%(mi_owned m Hi).
      exists p', w'. rewrite lookup_insert_ne; [done|]. intros <-. by rewrite Hp in Hp'.
  - intros p' w' [[<- <-]|[Hne H]]%lookup_insert_Some; [rewrite Hd; eauto|by apply (mi_susp m Hi p')].
  - intros p' w' q' [[<- <-]|[Hne H]]%lookup_insert_Some Hq'; [congruence|by eapply mi_live].
  - intros p1 w1 p2 w2 q' [[<- <-]|[Hne1 H1]]%lookup_insert_Some [[<- <-]|[Hne2 H2]]%lookup_insert_Some;
      try done; intros Hq1 Hq2; try congruence. by apply (mi_uniq m Hi p1 w1 p2 w2 q').
  - intros q' (p' & w' & Hp' & Hd')%(mi_owned m Hi).
    exists p', w'. rewrite lookup_insert_ne; [done|]. intros <-. by rewrite Hp in Hp'.
  - intros p' w' [[<- <-]|[Hne H]]%lookup_insert_Some; [|by apply (mi_susp m Hi p')].
    rewrite Hd. exact Hs.
Qed.

(** The first work of the queue goes, with its data. *)
Lemma mem_inv_pop m p w l :
  mem_inv m → irq_wq m = p :: l → irq_works m !! p = Some w →
  mem_inv (with_works (delete p (irq_works m)) l
    (with_data (match w_interrupt_data w with
                | Some q => delete q (irq_data m) | None => irq_data m end) m)).
Proof.
  intros Hi Hl Hp. pose proof (mi_wq m Hi) as Hnd. rewrite Hl in Hnd.
  apply list.NoDup_cons in Hnd as [Hn Hnd].
  assert (∀ q, w_interrupt_data w ≠ Some q →
    match w_interrupt_data w with Some q => delete q (irq_data m) | None => irq_data m end !! q
      = irq_data m !! q) as Hq.
  { intros q Hne. destruct (w_interrupt_data w) as [q'|]; [|done].
    apply lookup_delete_ne. by intros ->. }
  constructor; cbn.
  - done.
  - intros p'. destruct (decide (p' = p)) as [->|Hne].
    + rewrite lookup_delete_eq. split; [done|by intros []].
    + rewrite lookup_delete_ne by done. rewrite <- (mi_works m Hi), Hl, elem_of_cons.
      split; [by right|by intros [?|?]].
  - intros p' w' q [Hne H]%lookup_delete_Some Hd. rewrite Hq; [by eapply mi_live|].
    intros Hd'. apply Hne. by apply (mi_uniq m Hi p w p' w' q).
  - intros p1 w1 p2 w2 q [_ H1]%lookup_delete_Some [_ H2]%lookup_delete_Some.
    by apply (mi_uniq m Hi p1 w1 p2 w2 q).
  - intros q Hs. assert (w_interrupt_data w ≠ Some q) as Hne.
    { intros Hd. rewrite Hd, lookup_delete_eq in Hs. by destruct Hs. }
    rewrite Hq in Hs by done. destruct (mi_owned m Hi q Hs) as (p' & w' & Hp' & Hd').
    exists p', w'. rewrite lookup_delete_ne; [done|]. intros <-. congruence.
  - intros p' w' [_ H]%lookup_delete_Some. by apply (mi_susp m Hi p').
Qed.

(** The works that were queued, in order. *)
Definition queued (l : list irq_event) : list ipa_interrupt_work_wrap :=
  omap (λ e, match e with Queue w => Some w | _ => None end) l.

(** The works of the events are at the end of the queue. *)
Definition grown (m m' : irq_mem) (new : list irq_event) : Prop :=
  ∃ l, irq_wq m' = irq_wq m ++ l ∧
    (∀ p w, irq_works m !! p = Some w → irq_works m' !! p = Some w) ∧
    Forall2 (λ p w, irq_works m' !! p = Some w) l (queued new).

Lemma grown_same m m' new :
  irq_wq m' = irq_wq m → irq_works m' = irq_works m → queued new = [] → grown m m' new.
Proof. intros H1 H2 H3. exists []. rewrite app_nil_r, H2, H3. by split_and!. Qed.

Lemma grown_trans m1 m2 m3 l1 l2 : grown m1 m2 l1 → grown m2 m3 l2 → grown m1 m3 (l1 ++ l2).
Proof.
  intros (k1 & W1 & P1 & F1) (k2 & W2 & P2 & F2). exists (k1 ++ k2).
  split; [by rewrite W2, W1, app_assoc|]. split; [auto|]. unfold queued. rewrite omap_app.
  apply Forall2_app; [|done]. eapply Forall2_impl; [|exact F1]. auto.
Qed.

Lemma grown_queue m m' p w :
  irq_works m !! p = None → irq_works m' = <[p := w]> (irq_works m) → irq_wq m' = irq_wq m ++ [p] →
  grown m m' [Queue w].
Proof.
  intros Hp Hw Hl. exists [p]. rewrite Hw. split; [done|]. split.
  - intros p' w' H. rewrite lookup_insert_ne; [done|]. intros <-. by rewrite Hp in H.
  - constructor; [by rewrite lookup_insert_eq|done].
Qed.

(** ** What the processing of interrupts does *)

(** The works and the calls are those of the slots; in the interrupt no handler is called. *)
Definition event_ok (cb : list ipa_interrupt_info) (isr : bool) (e : irq_event) : Prop :=
  match e with
  | Queue w => ∃ j i, lookup_z cb j = Some i ∧ handler i = Some (w_handler w) ∧
      w_interrupt w = interrupt i ∧ w_private_data w = private_data i ∧
      (deferred_flag i = true ∨ isr = true)
  | Call h t p d => isr = false ∧ ∃ j i, lookup_z cb j = Some i ∧ handler i = Some h ∧
      t = interrupt i ∧ p = private_data i ∧ deferred_flag i = false ∧
      (t = IPA_TX_SUSPEND_IRQ → is_Some d)
  | _ => True
  end.

(** [x]: a bit of which nothing is said. *)
Record ext (isr : bool) (x : option Z) (s s' : irq_state) (new : list irq_event) : Prop := {
  ext_cb : irq_cb s' = irq_cb s;
  ext_ac : irq_ac s' = irq_ac s;
  ext_en : en_of s' = en_of s;
  ext_client : client_mem (irq_mm s') = client_mem (irq_mm s);
  ext_log : irq_log s' = irq_log s ++ new;
  ext_coming : (length (coming s') ≤ length (coming s))%nat;
  ext_mem : mem_inv (irq_mm s) → mem_inv (irq_mm s');
  ext_grown : grown (irq_mm s) (irq_mm s') new;
  ext_pend j i : x ≠ Some j → lookup_z (irq_cb s) j = Some i → is_Some (handler i) →
    Z.testbit (stts_of s) j = true →
    Z.testbit (stts_of s') j = true ∨ existsb (settles i) new = true;
  ext_uc j i b : x ≠ Some j → lookup_z (irq_cb s) j = Some i → is_Some (handler i) →
    is_uc (interrupt i) = true → (b = true → Z.testbit (stts_of s) j = true) →
    unserved i j b new = true → Z.testbit (stts_of s') j = true;
  ext_ok : Forall (event_ok (irq_cb s) isr) new;
}.

Lemma ext_refl isr x s : ext isr x s s [].
Proof. constructor; try done; eauto; [by rewrite app_nil_r|by apply grown_same]. Qed.

Lemma ext_trans isr x s1 s2 s3 l1 l2 :
  ext isr x s1 s2 l1 → ext isr x s2 s3 l2 → ext isr x s1 s3 (l1 ++ l2).
Proof.
  intros [] []. constructor; try congruence; try lia; eauto.
  - by rewrite ext_log1, ext_log0, app_assoc.
  - by eapply grown_trans.
  - intros j i Hx Hi Hh Hb. rewrite existsb_app.
    destruct (ext_pend0 j i Hx Hi Hh Hb) as [H| ->]; [|by right].
    rewrite <- ext_cb0 in Hi. destruct (ext_pend1 j i Hx Hi Hh H) as [?| ->]; [by left|].
    right. apply orb_true_r.
  - intros j i b Hx Hi Hh Hu Hb. rewrite unserved_app. eapply ext_uc1; try done.
    + by rewrite ext_cb0.
    + by apply ext_uc0.
  - apply Forall_app. split; [done|]. by rewrite <- ext_cb0.
Qed.

(** Steps that leave the status alone and raise nothing. *)
Lemma ext_quiet isr x s s' new :
  irq_cb s' = irq_cb s → irq_ac s' = irq_ac s → irq_hw_of s' = irq_hw_of s →
  client_mem (irq_mm s') = client_mem (irq_mm s) → irq_log s' = irq_log s ++ new →
  (mem_inv (irq_mm s) → mem_inv (irq_mm s')) → grown (irq_mm s) (irq_mm s') new →
  Forall (event_ok (irq_cb s) isr) new → existsb is_raise new = false → ext isr x s s' new.
Proof.
  intros ? ? Hh ? ? ? ? ? Hq. constructor; rewrite ?Hh; try done.
  - intros. by left.
  - intros j i b _ _ _ _ Hb. rewrite unserved_quiet by done. intros [? _]%andb_true_iff. auto.
Qed.

(** A bit of which nothing was said, but that is served. *)
Lemma ext_served isr j i s s' new :
  ext isr (Some j) s s' new → lookup_z (irq_cb s) j = Some i →
  (is_Some (handler i) → existsb (settles i) new = true) →
  (is_Some (handler i) → is_uc (interrupt i) = true → ∀ b, unserved i j b new = false) →
  ∀ x, ext isr x s s' new.
Proof.
  intros [] Hi Hs Hu x. constructor; try done.
  - intros k i' _ Hk Hh Hb. destruct (decide (k = j)) as [->|Hne].
    + rewrite Hi in Hk. injection Hk as <-. right. by apply Hs.
    + eapply ext_pend0; try done. by intros [= ->].
  - intros k i' b _ Hk Hh Huc Hb Hun. destruct (decide (k = j)) as [->|Hne].
    + rewrite Hi in Hk. injection Hk as <-. by rewrite Hu in Hun.
    + eapply ext_uc0; try done. by intros [= ->].
Qed.

Section Steps.
Context (E : irq_env) {HE : irq_env_ok E}.

(** ** Registers *)

Lemma wp_clocked (Q : () → irq_state → Prop) s :
  clks_on (irq_ac s) = true → Q () s → wp clocked Q s.
Proof. intros H HQ. unfold clocked. wp_steps. rewrite H. by apply wp_ret. Qed.

(** What the hardware raised: [coming s = [] → bits = 0]. *)
Definition raised (s : irq_state) : Z := match coming s with [] => 0 | b :: _ => u32 b end.
Definition raise_events (s : irq_state) : list irq_event :=
  match coming s with [] => [] | b :: _ => [Raise (u32 b)] end.
Definition after_raise (s : irq_state) : irq_state :=
  match coming s with
  | [] => s
  | b :: l => irq_logged (Raise (u32 b)) (with_hw (mkHw (en_of s) (Z.lor (stts_of s) (u32 b)) l) s)
  end.

Lemma wp_raise (Q : () → irq_state → Prop) s : Q () (after_raise s) → wp hw_raise Q s.
Proof.
  intros H. unfold hw_raise. wp_steps. unfold after_raise in H.
  destruct (coming s) as [|b l]; [by apply wp_ret|]. wp_steps. by apply wp_modify.
Qed.

Lemma after_raise_stts s : stts_of (after_raise s) = Z.lor (stts_of s) (raised s).
Proof. unfold after_raise, raised. destruct (coming s); cbn; [by rewrite Z.lor_0_r|done]. Qed.

Lemma after_raise_coming s : coming (after_raise s) = tail (coming s).
Proof. unfold after_raise. by destruct (coming s) eqn:H; cbn. Qed.

Lemma unserved_raise i j b s :
  unserved i j b (raise_events s) = b || Z.testbit (raised s) j.
Proof.
  unfold raise_events, raised. destruct (coming s); cbn; [|done].
  by rewrite Z.bits_0, orb_false_r.
Qed.

Lemma ext_raise isr x s : ext isr x s (after_raise s) (raise_events s).
Proof.
  pose proof (after_raise_stts s) as Hs. pose proof (after_raise_coming s) as Hc.
  constructor; rewrite ?Hs, ?Hc.
  1-5: unfold after_raise, raise_events; destruct (coming s); cbn; by rewrite ?app_nil_r.
  - destruct (coming s); cbn; lia.
  - unfold after_raise. by destruct (coming s).
  - unfold after_raise, raise_events. destruct (coming s); by apply grown_same.
  - intros j i _ _ _ Hb. left. by rewrite Z.lor_spec, Hb.
  - intros j i b _ _ _ _ Hb. rewrite unserved_raise, Z.lor_spec.
    intros [H| ->]%orb_true_iff; [by rewrite Hb|apply orb_true_r].
  - unfold raise_events. destruct (coming s); [done|]. repeat constructor.
Qed.

Lemma wp_read_stts (Q : Z → irq_state → Prop) s :
  clks_on (irq_ac s) = true → Q (stts_of (after_raise s)) (after_raise s) → wp read_stts Q s.
Proof.
  intros H HQ. unfold read_stts. wp_step. apply wp_clocked; [done|]. wp_step. apply wp_raise.
  by wp_steps.
Qed.

Definition after_clr (bmsk : Z) (s : irq_state) : irq_state :=
  let s := after_raise s in
  irq_logged (Clear bmsk) (with_hw (mkHw (en_of s) (Z.ldiff (stts_of s) bmsk) (coming s)) s).

Lemma wp_write_clr bmsk (Q : () → irq_state → Prop) s :
  clks_on (irq_ac s) = true → Q () (after_clr bmsk s) → wp (write_clr bmsk) Q s.
Proof.
  intros H HQ. unfold write_clr. wp_step. apply wp_clocked; [done|]. wp_step. apply wp_raise.
  wp_steps. by apply wp_modify.
Qed.

Lemma clr_bit bmsk s j : 0 ≤ j →
  Z.testbit (stts_of (after_clr bmsk s)) j
  = (Z.testbit (stts_of s) j || Z.testbit (raised s) j) && negb (Z.testbit bmsk j).
Proof. intros Hj. cbn. by rewrite Z.ldiff_spec, after_raise_stts, Z.lor_spec. Qed.

(** ** One interrupt *)

Lemma valid_ep_some valid v n j bmsk :
  0 ≤ j → (Z.to_nat j + n ≤ length valid)%nat → ∃ b, valid_ep_loop valid v n j bmsk = Some b.
Proof.
  revert j bmsk. induction n as [|n IH]; intros j bmsk Hj Hl; cbn [valid_ep_loop]; [eauto|].
  destruct (IH (j + 1) (u32 (Z.shiftl bmsk 1))) as [b Hb]; [lia|lia|].
  destruct (Z.land v bmsk =? 0); cbn; [eauto|].
  destruct (lookup_z_lt valid j) as [x ->]; [lia|]. cbn. destruct x; eauto.
Qed.

Lemma wp_valid_ep v (Q : bool → irq_state → Prop) s :
  (∀ b, Q b s) → wp (is_valid_ep E v) Q s.
Proof using HE.
  intros HQ. unfold is_valid_ep. wp_step. apply wp_get.
  destruct (valid_ep_some (irq_ep_valid E s) v (ipa_num_pipes E) 0 1) as [b Hb];
    [done|apply law_irq_eps; assumption|].
  by eapply wp_of_option.
Qed.

(** A new piece of memory, or none. *)
Lemma wp_irq_kzalloc (Q : option positive → irq_state → Prop) s :
  (∀ o, match o with
        | Some p => irq_data (irq_mm s) !! p = None ∧ irq_works (irq_mm s) !! p = None
        | None => True
        end → Q o (irq_tick s)) →
  wp (irq_kzalloc E) Q s.
Proof using HE.
  intros HQ. unfold irq_kzalloc. wp_steps. apply HQ.
  destruct (irq_alloc E s) as [p|] eqn:H; [|done]. by apply (law_irq_alloc E HE).
Qed.

(** [s'] is [s] with other memory, and the events [new]. *)
Definition moved (s s' : irq_state) (new : list irq_event) : Prop :=
  irq_cb s' = irq_cb s ∧ irq_ac s' = irq_ac s ∧ irq_hw_of s' = irq_hw_of s ∧
  client_mem (irq_mm s') = client_mem (irq_mm s) ∧ irq_log s' = irq_log s ++ new ∧
  existsb is_raise new = false.

Lemma moved_ext isr x s s' new :
  moved s s' new → (mem_inv (irq_mm s) → mem_inv (irq_mm s')) →
  grown (irq_mm s) (irq_mm s') new → Forall (event_ok (irq_cb s) isr) new → ext isr x s s' new.
Proof. intros (? & ? & ? & ? & ? & ?) ? ? ?. by apply ext_quiet. Qed.

(** The data of the interrupt, or the end of its handling. *)
Lemma wp_suspend_data t (Q : Z + option positive → irq_state → Prop) s :
  clks_on (irq_ac s) = true →
  (t ≠ IPA_TX_SUSPEND_IRQ → Q (inr None) s) →
  (∀ r v s', t = IPA_TX_SUSPEND_IRQ → irq_mm s' = irq_mm s →
     moved s s' [SuspendInfo v; NoValidEp t] ∨ moved s s' [SuspendInfo v; NoMemory t] → Q (inl r) s') →
  (∀ q v s', t = IPA_TX_SUSPEND_IRQ → moved s s' [SuspendInfo v] →
     irq_data (irq_mm s) !! q = None →
     irq_mm s' = with_data (<[q := v]> (irq_data (irq_mm s))) (irq_mm s) →
     Q (inr (Some q)) s') →
  wp (suspend_data E t) Q s.
Proof using HE.
  intros Hc H1 H2 H3. unfold suspend_data. destruct (Z.eqb_spec t IPA_TX_SUSPEND_IRQ) as [->|Hne];
    [|apply wp_ret; by apply H1].
  wp_step. apply wp_clocked; [done|]. wp_steps. apply wp_modify. cbn beta.
  wp_step. apply wp_valid_ep. intros [|]; cbn [negb].
  - wp_step. apply wp_irq_kzalloc. intros [q|] Hq.
    + wp_step. apply wp_modify. apply wp_ret. eapply H3; try done; by destruct Hq.
    + wp_step. apply wp_modify. apply wp_ret. eapply H2; try done. right.
      split_and!; try done. cbn. by rewrite <- app_assoc.
  - wp_step. apply wp_modify. apply wp_ret. eapply H2; try done. left.
    split_and!; try done. cbn. by rewrite <- app_assoc.
Qed.

Lemma wp_free_data o (Q : () → irq_state → Prop) s :
  match o with
  | None => Q () s
  | Some q => is_Some (irq_data (irq_mm s) !! q) ∧
              Q () (with_mm (with_data (delete q (irq_data (irq_mm s))) (irq_mm s)) s)
  end → wp (free_data o) Q s.
Proof.
  destruct o as [q|]; cbn [free_data]; [|by intros; apply wp_ret].
  intros [[v Hv] HQ]. wp_steps. by apply wp_modify.
Qed.

Lemma wp_call_handler h t p o (Q : () → irq_state → Prop) s :
  match o with
  | None => Q () (irq_logged (Call h t p None) s)
  | Some q => ∃ v, irq_data (irq_mm s) !! q = Some v ∧ Q () (irq_logged (Call h t p (Some v)) s)
  end → wp (call_handler h t p o) Q s.
Proof.
  unfold call_handler. intros H. wp_step. apply wp_get. wp_step. destruct o as [q|].
  - destruct H as (v & Hv & HQ). wp_steps. by apply wp_modify.
  - apply wp_ret. by apply wp_modify.
Qed.

(** The memory with the data of one interrupt. *)
Definition mm_with (o : option positive) (v : Z) (m : irq_mem) : irq_mem :=
  match o with None => m | Some q => with_data (<[q := v]> (irq_data m)) m end.
Definition data_new (o : option positive) (m : irq_mem) : Prop :=
  match o with None => True | Some q => irq_data m !! q = None end.

Lemma moved_trans s1 s2 s3 l1 l2 : moved s1 s2 l1 → moved s2 s3 l2 → moved s1 s3 (l1 ++ l2).
Proof.
  intros (? & ? & ? & ? & L1 & N1) (? & ? & ? & ? & L2 & N2). split_and!; try congruence.
  - by rewrite L2, L1, app_assoc.
  - by rewrite existsb_app, N1, N2.
Qed.

Lemma moved_note s e : is_raise e = false → moved s (irq_logged e s) [e].
Proof. intros He. split_and!; try done. cbn. by rewrite He. Qed.

Lemma moved_mm s m e :
  is_raise e = false → client_mem m = client_mem (irq_mm s) →
  moved s (with_mm m (irq_logged e s)) [e].
Proof. intros He Hm. split_and!; try done. cbn. by rewrite He. Qed.

(** The data is given back. *)
Lemma wp_free_new o v m (Q : () → irq_state → Prop) s :
  irq_mm s = mm_with o v m → data_new o m → Q () (with_mm m s) → wp (free_data o) Q s.
Proof.
  intros Hs Hn HQ. apply wp_free_data. destruct o as [q|]; cbn in Hs, Hn.
  - rewrite Hs. cbn. rewrite lookup_insert_eq, delete_insert_id by done. split; [eauto|].
    by destruct m.
  - subst m. by destruct s.
Qed.

(** The handler is called or queued; the memory is as before but for the work. *)
Lemma wp_dispatch isr i j h o v s s1 :
  lookup_z (irq_cb s1) j = Some i → handler i = Some h → data_new o (irq_mm s) →
  irq_mm s1 = mm_with o v (irq_mm s) →
  (interrupt i = IPA_TX_SUSPEND_IRQ → is_Some o) →
  wp (if deferred_flag i || isr then
        o' ← irq_kzalloc E;
        match o' with
        | None => note (NoMemory (interrupt i)) ;; free_data o ;; mret (- ENOMEM)
        | Some p =>
            let w := mkWrap h (interrupt i) (private_data i) o in
            upd_mm (λ m, with_works (<[p := w]> (irq_works m)) (irq_wq m ++ [p]) m) ;;
            note (Queue w) ;; mret 0
        end
      else call_handler h (interrupt i) (private_data i) o ;; free_data o ;; mret 0)
    (λ _ s', ∃ e, moved s1 s' [e] ∧ (mem_inv (irq_mm s) → mem_inv (irq_mm s')) ∧
       grown (irq_mm s) (irq_mm s') [e] ∧ event_ok (irq_cb s1) isr e ∧ settles i e = true) s1.
Proof using HE.
  intros Hj Hh Hn Hmm Hs.
  assert (client_mem (irq_mm s) = client_mem (irq_mm s1)) as Hcm by (rewrite Hmm; by destruct o).
  destruct (deferred_flag i || isr) eqn:Hd.
  - wp_step. apply wp_irq_kzalloc. intros [p|] Hp; cbn beta match.
    + cbv zeta. wp_step. apply wp_modify. wp_step. apply wp_modify. apply wp_ret.
      exists (Queue (mkWrap h (interrupt i) (private_data i) o)). split_and!; try done.
      * intros Hi. cbn. rewrite Hmm. destruct Hp as [_ Hp]. rewrite Hmm in Hp.
        pose proof (mem_inv_queue (irq_mm s) p (mkWrap h (interrupt i) (private_data i) o) Hi) as H.
        cbn [w_interrupt_data w_interrupt] in H. destruct o as [q|]; cbn in Hp, Hn, H |- *.
        -- by apply H.
        -- by apply H.
      * cbn. rewrite Hmm. destruct Hp as [_ Hp]. rewrite Hmm in Hp.
        destruct o as [q|]; cbn in Hp |- *; by eapply grown_queue.
      * exists j, i. split_and!; try done. apply orb_true_iff in Hd as [?|?]; auto.
      * settled.
    + wp_step. apply wp_modify. wp_step. eapply wp_free_new; [done|done|]. apply wp_ret.
      exists (NoMemory (interrupt i)). split_and!; try done; [by apply grown_same|].
      settled.
  - apply orb_false_iff in Hd as [Hd ->]. wp_step. apply wp_call_handler.
    assert (∀ d, (interrupt i = IPA_TX_SUSPEND_IRQ → is_Some d) →
      wp (free_data o ;; mret 0) (λ _ s', ∃ e, moved s1 s' [e] ∧
        (mem_inv (irq_mm s) → mem_inv (irq_mm s')) ∧
        grown (irq_mm s) (irq_mm s') [e] ∧ event_ok (irq_cb s1) false e ∧ settles i e = true)
        (irq_logged (Call h (interrupt i) (private_data i) d) s1)) as H.
    { intros d Hd'. wp_step. eapply wp_free_new; [done|done|]. apply wp_ret.
      exists (Call h (interrupt i) (private_data i) d). split_and!; try done; [by apply grown_same| |].
      - split; [done|]. exists j, i. by split_and!.
      - settled. }
    destruct o as [q|]; [|by apply H; intros [? ?]%Hs]. exists v. rewrite Hmm. cbn.
    rewrite lookup_insert_eq. split; [done|]. apply H. eauto.
Qed.

Lemma wp_handle j isr x i s :
  lookup_z (irq_cb s) j = Some i → clks_on (irq_ac s) = true →
  wp (handle_interrupt E j isr) (λ _ s', ∃ new, ext isr x s s' new ∧
    irq_hw_of s' = irq_hw_of s ∧ existsb is_raise new = false ∧
    (is_Some (handler i) → existsb (settles i) new = true)) s.
Proof using HE.
  intros Hj Hc. unfold handle_interrupt. wp_step. apply wp_get. wp_steps.
  destruct (handler i) as [h|] eqn:Hh; cycle 1.
  { wp_step. apply wp_modify. apply wp_ret. exists [NoHandler j].
    split; [apply ext_quiet; try done; [by apply grown_same|by repeat constructor]|]. split; [done|]. split; [done|]. by intros []. }
  wp_step. apply wp_suspend_data; [done|intros Hne|intros r v s' Ht Hmm Hmv|intros q v s' Ht Hmv Hq Hmm].
  - eapply wp_mono; [apply (wp_dispatch isr i j h None 0 s s); try done|]. cbn beta.
    intros _ s' (e & Hmv & Hm & Hg & He & Hs). exists [e].
    split; [apply moved_ext; try done; by repeat constructor|].
    destruct Hmv as (_ & _ & ? & _ & _ & ?). split_and!; try done. cbn. by rewrite Hs.
  - apply wp_ret.
    assert (∃ new, moved s s' new ∧ Forall (event_ok (irq_cb s) isr) new ∧ queued new = [] ∧
                   existsb (settles i) new = true) as (new & Hmv' & Hf & Hqu & Hs).
    { destruct Hmv as [Hmv|Hmv]; eexists; (split; [exact Hmv|]); (split; [by repeat constructor|]);
        (split; [done|]); cbn; unfold settles; cbn; by rewrite Z.eqb_refl. }
    exists new. split; [apply moved_ext; [done|by rewrite Hmm| |done]|].
    { apply grown_same; [by rewrite Hmm..|done]. }
    destruct Hmv' as (_ & _ & ? & _ & _ & ?). by split_and!.
  - eapply wp_mono; [eapply (wp_dispatch isr i j h (Some q) v s s'); try done|].
    + destruct Hmv as (-> & _). done.
    + cbn beta. intros _ s2 (e & Hmv2 & Hm & Hg & He & Hs).
      pose proof (moved_trans _ _ _ _ _ Hmv Hmv2) as Hmv3.
      exists ([SuspendInfo v] ++ [e]). split; [apply moved_ext; [done|done|exact Hg|]|].
      * destruct Hmv as (Hcb & _). rewrite Hcb in He. by repeat constructor.
      * destruct Hmv3 as (_ & _ & ? & _ & _ & ?). split_and!; try done. intros _. cbn [existsb app]. by rewrite Hs, orb_true_r.
Qed.

(** ** All that are pending *)

Lemma lookup_z_nonneg {A} (l : list A) j a : lookup_z l j = Some a → 0 ≤ j.
Proof. unfold lookup_z. destruct (Z.leb_spec 0 j); [done|by intros]. Qed.

Lemma land_bit x j : 0 ≤ j → (Z.land x (2 ^ j) =? 0) = negb (Z.testbit x j).
Proof.
  intros Hj. destruct (Z.testbit x j) eqn:Hb; cbn; [apply Z.eqb_neq|apply Z.eqb_eq].
  - intros H. apply (f_equal (λ z, Z.testbit z j)) in H.
    by rewrite Z.land_spec, Hb, Z.pow2_bits_true, Z.bits_0 in H.
  - apply Z.bits_inj'. intros k Hk. rewrite Z.land_spec, Z.bits_0.
    destruct (decide (k = j)) as [->|Hne]; [by rewrite Hb|].
    rewrite Z.pow2_bits_false by lia. apply andb_false_r.
Qed.

Lemma pow2_bit j k : 0 ≤ j → Z.testbit (2 ^ j) k = (k =? j).
Proof.
  intros Hj. destruct (Z.eqb_spec k j) as [->|Hne]; [by apply Z.pow2_bits_true|].
  by apply Z.pow2_bits_false.
Qed.

Lemma ext_clr isr j s :
  0 ≤ j → ext isr (Some j) s (after_clr (2 ^ j) s) (raise_events s ++ [Clear (2 ^ j)]).
Proof.
  intros Hj. eapply ext_trans; [apply ext_raise|]. constructor; cbn; try done.
  - by apply grown_same.
  - intros k i Hx Hk _ Hb. left. apply lookup_z_nonneg in Hk.
    rewrite Z.ldiff_spec, Hb, pow2_bit by done.
    destruct (Z.eqb_spec k j) as [->|]; [done|]. done.
  - intros k i b Hx Hk _ _ Hb. apply lookup_z_nonneg in Hk.
    rewrite andb_true_r, Z.ldiff_spec, pow2_bit by done. intros ->. rewrite Hb by done.
    destruct (Z.eqb_spec k j) as [->|]; done.
  - repeat constructor.
Qed.

(** What a turn of the inner loop does: [hit], whether the bit is pending and enabled. *)
Definition turn_post (isr hit : bool) (j : Z) (s s' : irq_state) : Prop :=
  ∃ new, ext isr None s s' new ∧
    (coming s = [] → ∀ k, 0 ≤ k →
       Z.testbit (stts_of s') k = Z.testbit (stts_of s) k && negb (hit && (k =? j))) ∧
    (hit = true → coming s ≠ [] → (length (coming s') < length (coming s))%nat).

Lemma clr_coming bmsk s : coming (after_clr bmsk s) = tail (coming s).
Proof. cbn. apply after_raise_coming. Qed.

Lemma clr_bit_none j s k :
  0 ≤ j → 0 ≤ k → coming s = [] →
  Z.testbit (stts_of (after_clr (2 ^ j) s)) k = Z.testbit (stts_of s) k && negb (true && (k =? j)).
Proof.
  intros Hj Hk Hc. rewrite clr_bit, pow2_bit by done. unfold raised. rewrite Hc.
  by rewrite Z.bits_0, orb_false_r.
Qed.

Lemma wp_process_one en reg isr j s :
  clks_on (irq_ac s) = true → length (irq_cb s) = IPA_IRQ_NUM_MAX → 0 ≤ j < 32 →
  wp (process_one E en reg isr j (2 ^ j))
    (λ _ s', turn_post isr (Z.testbit (Z.land en reg) j) j s s') s.
Proof using HE.
  intros Hc Hl Hj. unfold process_one. rewrite land_bit by lia.
  destruct (Z.testbit (Z.land en reg) j) eqn:Hb; cbn [negb]; cycle 1.
  { apply wp_ret. exists []. split; [apply ext_refl|]. split; [|done]. intros. by rewrite andb_true_r. }
  destruct (lookup_z_lt (irq_cb s) j) as [i Hi]; [rewrite Hl; unfold IPA_IRQ_NUM_MAX; lia|].
  unfold is_uc_irq. wp_step. wp_step. apply wp_get. wp_steps.
  assert (0 ≤ j) as Hj0 by lia.
  destruct (is_uc (interrupt i)) eqn:Hu; cbn [when negb].
  - pose proof (ext_clr isr j s Hj0) as He. set (s1 := after_clr (2 ^ j) s) in *.
    apply wp_write_clr; [done|]. fold s1. cbn beta. wp_step.
    eapply wp_mono; [apply (wp_handle j isr (Some j) i s1)|].
    { by rewrite (ext_cb _ _ _ _ _ He). }
    { by rewrite (ext_ac _ _ _ _ _ He). }
    cbn beta. intros r s2 (new & He2 & Hhw & Hq & Hs). apply wp_ret.
    exists ((raise_events s ++ [Clear (2 ^ j)]) ++ new). split; [|split].
    + eapply (ext_served isr j i); [by eapply ext_trans|done| |].
      * intros H. by rewrite existsb_app, Hs, orb_true_r.
      * intros H _ b. by rewrite unserved_app, unserved_quiet, Hs, andb_false_r.
    + intros Hn k Hk. rewrite Hhw. by apply clr_bit_none.
    + intros _ Hn. rewrite Hhw. unfold s1. rewrite clr_coming. destruct (coming s); cbn; [done|lia].
  - apply wp_ret. cbn beta. wp_step.
    eapply wp_mono; [by apply (wp_handle j isr (Some j) i s)|].
    cbn beta. intros r s1 (new & He & Hhw & Hq & Hs).
    pose proof (ext_clr isr j s1 Hj0) as He2.
    apply wp_write_clr; [by rewrite (ext_ac _ _ _ _ _ He)|].
    exists (new ++ raise_events s1 ++ [Clear (2 ^ j)]). split; [|split].
    + eapply (ext_served isr j i); [by eapply ext_trans|done| |].
      * intros H. by rewrite existsb_app, Hs.
      * intros _ H. congruence.
    + intros Hn k Hk. rewrite clr_bit_none by (done || by rewrite Hhw). by rewrite Hhw.
    + intros _ Hn. rewrite clr_coming, Hhw. destruct (coming s); cbn; [done|lia].
Qed.

(** The bits from [j] on are dealt with. *)
Definition pass_post (isr : bool) (x j : Z) (s s' : irq_state) : Prop :=
  ∃ new, ext isr None s s' new ∧
    (coming s = [] → ∀ k, 0 ≤ k →
       Z.testbit (stts_of s') k
       = Z.testbit (stts_of s) k && negb (Z.testbit x k && (j <=? k) && (k <? 32))) ∧
    ((∃ k, j ≤ k < 32 ∧ Z.testbit x k = true) → coming s ≠ [] →
       (length (coming s') < length (coming s))%nat).

Lemma wp_process_pass en reg isr n j s :
  clks_on (irq_ac s) = true → length (irq_cb s) = IPA_IRQ_NUM_MAX → 0 ≤ j → j + Z.of_nat n = 32 →
  wp (process_pass E en reg isr n j (u32 (2 ^ j)))
    (λ _ s', pass_post isr (Z.land en reg) j s s') s.
Proof using HE.
  revert j s. induction n as [|n IH]; intros j s Hc Hl Hj Hn; cbn [process_pass].
  { apply wp_ret. exists []. split; [apply ext_refl|]. split; [|intros (k & ? & _); lia].
    intros _ k Hk. rewrite <- (andb_assoc _ (j <=? k)).
    replace ((j <=? k) && (k <? 32)) with false; [by rewrite andb_false_r, andb_true_r|].
      symmetry. apply andb_false_iff. destruct (Z.leb_spec j k); [right; apply Z.ltb_ge; lia|by left]. }
  assert (u32 (2 ^ j) = 2 ^ j) as Hp.
  { apply u32_small. split; [lia|]. apply Z.pow_lt_mono_r; lia. }
  rewrite Hp. wp_step.
  eapply wp_mono; [apply wp_process_one; try done; lia|]. cbn beta.
  intros [] s1 (l1 & He1 & Hb1 & Hd1).
  replace (Z.shiftl (2 ^ j) 1) with (2 ^ (j + 1)) by (rewrite Z.shiftl_mul_pow2, Z.pow_add_r; lia).
  eapply wp_mono; [apply (IH (j + 1) s1); [|..]; rewrite ?(ext_ac _ _ _ _ _ He1), ?(ext_cb _ _ _ _ _ He1); done || lia|].
  cbn beta. intros [] s2 (l2 & He2 & Hb2 & Hd2). exists (l1 ++ l2).
  pose proof (ext_coming _ _ _ _ _ He1) as Hle1. pose proof (ext_coming _ _ _ _ _ He2) as Hle2.
  split; [by eapply ext_trans|]. split.
  - intros Hn0 k Hk. rewrite Hb2, Hb1 by (done || (destruct (coming s1); [done|]; rewrite Hn0 in Hle1; cbn in Hle1; lia)).
    rewrite <- andb_assoc. f_equal. rewrite <- negb_orb. f_equal.
    destruct (Z.eqb_spec k j) as [->|Hne].
    + rewrite Z.leb_refl, (proj2 (Z.ltb_lt j 32)) by lia. replace (j + 1 <=? j) with false by lia.
      by rewrite !andb_true_r, andb_false_r, orb_false_r.
    + rewrite andb_false_r. cbn. f_equal. f_equal. lia.
  - intros (k & Hk & Hx) Hne.
    destruct (decide (k = j)) as [->|Hkj]; [specialize (Hd1 Hx Hne); lia|].
    destruct (coming s1) as [|b l] eqn:Hs1; [destruct (coming s); [done|]; cbn in *; lia|].
    assert (length (coming s2) < length (b :: l))%nat; [|cbn in *; lia].
    apply Hd2; [|done]. exists k. split; [lia|done].
Qed.

Lemma bit_bound x k : 0 ≤ x < 2 ^ 32 → Z.testbit x k = true → 0 ≤ k < 32.
Proof.
  intros Hx Hb. destruct (Z.leb_spec 0 k); [|by rewrite Z.testbit_neg_r in Hb].
  split; [done|]. destruct (Z.ltb_spec k 32); [done|]. exfalso.
  destruct (decide (x = 0)) as [->|]; [by rewrite Z.bits_0 in Hb|].
  rewrite Z.bits_above_log2 in Hb; [done|lia|]. apply Z.lt_le_trans with 32; [|done].
  apply Z.log2_lt_pow2; lia.
Qed.

Lemma land_hit en reg :
  0 ≤ en < 2 ^ 32 → Z.land en reg ≠ 0 → ∃ k, 0 ≤ k < 32 ∧ Z.testbit (Z.land en reg) k = true.
Proof.
  intros He Hne. assert (0 ≤ Z.land en reg) by (apply Z.land_nonneg; lia).
  assert (Z.testbit (Z.land en reg) (Z.log2 (Z.land en reg)) = true) as Hb by (apply Z.bit_log2; lia).
  exists (Z.log2 (Z.land en reg)). split; [|done]. apply (bit_bound en); [done|].
  rewrite Z.land_spec in Hb. by apply andb_true_iff in Hb as [? _].
Qed.

Lemma wp_process_loop fuel en isr s :
  clks_on (irq_ac s) = true → length (irq_cb s) = IPA_IRQ_NUM_MAX → 0 ≤ en < 2 ^ 32 →
  Z.land en (stts_of s) = 0 ∨ (length (coming s) < fuel)%nat →
  wp (process_loop E fuel en isr (stts_of s))
    (λ _ s', ∃ new, ext isr None s s' new ∧ Z.land en (stts_of s') = 0) s.
Proof using HE.
  revert s. induction fuel as [|fuel IH]; intros s Hc Hl He Hf; cbn [process_loop];
    destruct (Z.eqb_spec (Z.land en (stts_of s)) 0) as [Hz|Hz].
  1,3: apply wp_ret; exists []; split; [apply ext_refl|done].
  { destruct Hf; [done|lia]. }
  destruct Hf as [|Hf]; [done|]. destruct (land_hit en (stts_of s) He Hz) as (k & Hk & Hb).
  pose proof (wp_process_pass en (stts_of s) isr IPA_IRQ_NUM_MAX 0 s Hc Hl (Z.le_refl 0) eq_refl) as Hp.
  change (u32 (2 ^ 0)) with 1 in Hp.
  wp_step. eapply wp_mono; [exact Hp|]. cbn beta. intros [] s1 (l1 & He1 & Hb1 & Hd1).
  wp_step. apply wp_read_stts; [by rewrite (ext_ac _ _ _ _ _ He1)|]. cbn beta.
  pose proof (ext_trans _ _ _ _ _ _ _ He1 (ext_raise isr None s1)) as He2.
  pose proof (after_raise_coming s1) as Hc2. pose proof (after_raise_stts s1) as Hs2.
  pose proof (ext_coming _ _ _ _ _ He1) as Hle.
  set (s2 := after_raise s1) in *.
  eapply wp_mono; [apply (IH s2)|].
  - by rewrite (ext_ac _ _ _ _ _ He2).
  - by rewrite (ext_cb _ _ _ _ _ He2).
  - done.
  - destruct (coming s) as [|b l] eqn:Hcs.
    + left. assert (coming s1 = []) as Hn by (destruct (coming s1); [done|cbn in Hle; lia]).
      apply Z.bits_inj'. intros m Hm. rewrite Z.land_spec, Hs2, Z.lor_spec, Hb1, Z.land_spec by done.
      unfold raised. rewrite Hn, !Z.bits_0, orb_false_r.
      destruct (Z.testbit en m) eqn:Hem; [|done]. apply bit_bound in Hem; [|done].
      destruct (Z.testbit (stts_of s) m); [|done].
      by rewrite (proj2 (Z.leb_le 0 m)), (proj2 (Z.ltb_lt m 32)) by lia.
    + right. rewrite Hc2. specialize (Hd1 ltac:(by exists k) ltac:(done)).
      destruct (coming s1); cbn in *; lia.
  - cbn beta. intros [] s3 (l3 & He3 & Hz3). eexists. split; [by eapply ext_trans|done].
Qed.

Lemma wp_pending isr s :
  clks_on (irq_ac s) = true → length (irq_cb s) = IPA_IRQ_NUM_MAX → 0 ≤ en_of s < 2 ^ 32 →
  wp (ipa_process_interrupts E isr)
    (λ _ s', ∃ new, ext isr None s s' new ∧ Z.land (en_of s) (stts_of s') = 0) s.
Proof using HE.
  intros Hc Hl He. unfold ipa_process_interrupts, read_en. wp_step. wp_step. apply wp_clocked; [done|].
  wp_steps. apply wp_read_stts; [done|]. wp_steps.
  pose proof (ext_raise isr None s) as He1. set (s1 := after_raise s) in *.
  eapply wp_mono; [apply wp_process_loop|].
  - by rewrite (ext_ac _ _ _ _ _ He1).
  - by rewrite (ext_cb _ _ _ _ _ He1).
  - done.
  - right. lia.
  - cbn beta. intros [] s2 (l & He2 & Hz). eexists. split; [by eapply ext_trans|done].
Qed.

(** ** Votes *)

(** The votes between calls: the clocks are on as long as there is one, and the tag process
    holds one. *)
Definition ac_ok (a : active_clients) : Prop :=
  mutex_locked a = false ∧ clks_on a = (0 <? cnt a) ∧ 0 ≤ cnt a < 2 ^ 31 ∧
  (tag_queued a = true → 1 ≤ cnt a).

(** The votes that clients hold. *)
Definition free_votes (a : active_clients) : Z := cnt a - (if tag_queued a then 1 else 0).

Lemma i32_small z : - 2 ^ 31 ≤ z < 2 ^ 31 → i32 z = z.
Proof. intros H. unfold i32. rewrite Z.mod_small; lia. Qed.

Lemma with_ac_ac a b s : with_ac a (with_ac b s) = with_ac a s.
Proof. done. Qed.

(** Under the mutex an interrupt is only deferred. *)
Lemma wp_isr_window b a s (Q : () → irq_state → Prop) :
  mutex_locked a = true → (∀ d, Q () (with_ac (set_defer d a) s)) →
  wp (when b (ipa_isr E)) Q (with_ac a s).
Proof.
  intros Hl HQ. destruct b; cbn [when].
  - unfold ipa_isr, ipa_active_clients_trylock. wp_steps. cbn. rewrite Hl. cbn.
    apply wp_modify. apply (HQ true).
  - apply wp_ret. specialize (HQ (defer_queued a)). by destruct a.
Qed.

Lemma wp_inc irq1 irq2 s :
  ac_ok (irq_ac s) → cnt (irq_ac s) < 2 ^ 31 - 1 →
  wp (ipa2_inc_client_enable_clks E irq1 irq2)
    (λ _ s', ∃ a, s' = with_ac a s ∧ ac_ok a ∧ cnt a = cnt (irq_ac s) + 1 ∧
       tag_queued a = tag_queued (irq_ac s) ∧ clks_on a = true) s.
Proof.
  intros (Hl & Hk & Hc & Ht) Hlt. unfold ipa2_inc_client_enable_clks, ipa_active_clients_lock.
  wp_step. wp_step. apply wp_get. rewrite Hl. apply wp_modify. cbn beta. wp_step.
  apply wp_isr_window; [done|]. intros d1. wp_step. apply wp_modify. wp_step. apply wp_get. cbn beta.
  rewrite !with_ac_ac. cbn. rewrite i32_small by lia. wp_step.
  set (a1 := mkAc true (cnt (irq_ac s) + 1) (tag_process_before_gating (irq_ac s)) true
               (tag_queued (irq_ac s)) d1).
  apply (wp_mono _ (λ _ s', s' = with_ac a1 s)).
  - apply wp_when.
    + intros _. apply wp_modify. done.
    + intros Hne. assert ((0 <? cnt (irq_ac s)) = true) as Hp by lia. rewrite Hp in Hk.
      unfold a1. rewrite <- Hk. done.
  - intros [] s1 ->. wp_step. apply wp_isr_window; [done|]. intros d2. apply wp_modify.
    eexists. split; [reflexivity|]. unfold ac_ok. cbn. split_and!; try done; lia.
Qed.

Lemma wp_dec irq1 irq2 s :
  ac_ok (irq_ac s) → (if tag_queued (irq_ac s) then 1 else 0) < cnt (irq_ac s) →
  wp (ipa2_dec_client_disable_clks E irq1 irq2) (λ _ s', ∃ a, s' = with_ac a s ∧ ac_ok a ∧
    free_votes a = free_votes (irq_ac s) - 1 ∧ cnt a ≤ Z.max 1 (cnt (irq_ac s) - 1)) s.
Proof.
  intros (Hl & Hk & Hc & Ht) Hlt. unfold ipa2_dec_client_disable_clks, ipa_active_clients_lock.
  assert (0 < cnt (irq_ac s)) as Hpos by (destruct (tag_queued _); lia).
  wp_step. wp_step. apply wp_get. rewrite Hl. apply wp_modify. cbn beta. wp_step.
  apply wp_isr_window; [done|]. intros d1. wp_step. apply wp_modify. wp_step. apply wp_get. cbn beta.
  rewrite !with_ac_ac. cbn. rewrite i32_small by lia. wp_step.
  apply (wp_mono _ (λ _ s', ∃ a, s' = with_ac a s ∧ mutex_locked a = true ∧
    ac_ok (set_locked false a) ∧ free_votes a = free_votes (irq_ac s) - 1 ∧
    cnt a ≤ Z.max 1 (cnt (irq_ac s) - 1))).
  - assert (cnt (irq_ac s) - 1 = 0 → tag_queued (irq_ac s) = false) as Htag
      by (intros Hz; destruct (tag_queued _); [lia|done]).
    destruct (Z.eqb_spec (cnt (irq_ac s) - 1) 0) as [Hz|Hz]; cbn [when].
    + specialize (Htag Hz). destruct (tag_process_before_gating (irq_ac s)).
      * wp_step. apply wp_modify. wp_step. apply wp_modify. apply wp_modify.
        eexists. split; [reflexivity|]. split; [done|]. unfold ac_ok, free_votes. cbn.
        rewrite Htag. split_and!; try done; try lia. rewrite Hk. by apply Z.ltb_lt.
      * apply wp_modify. eexists. split; [reflexivity|]. split; [done|].
        unfold ac_ok, free_votes. cbn. rewrite Htag.
        split_and!; [done|symmetry; apply Z.ltb_ge; lia|lia|lia|done|lia|lia].
    + apply wp_ret. eexists. split; [reflexivity|]. split; [done|].
      unfold ac_ok, free_votes. cbn.
      split_and!; [done| |lia|lia|intros H; rewrite H in Hlt; lia|lia|lia].
      rewrite Hk. transitivity true; [|symmetry]; apply Z.ltb_lt; lia.
  - intros [] s1 (a & -> & Hla & Hok & Hf & Hle). wp_step. apply wp_isr_window; [done|]. intros d2.
    apply wp_modify. eexists. split; [reflexivity|]. by split.
Qed.

(** What an interrupt does: with the clocks off it is deferred. *)
Lemma wp_isr s :
  ac_ok (irq_ac s) → length (irq_cb s) = IPA_IRQ_NUM_MAX → 0 ≤ en_of s < 2 ^ 32 →
  wp (ipa_isr E) (λ _ s',
    if cnt (irq_ac s) =? 0 then s' = with_ac (set_defer true (irq_ac s)) s
    else ∃ new, ext true None s s' new ∧ Z.land (en_of s) (stts_of s') = 0) s.
Proof using HE.
  intros (Hl & Hk & Hc & _) Hlen He. unfold ipa_isr, ipa_active_clients_trylock. wp_steps.
  rewrite Hl. cbn [negb]. wp_steps. destruct (Z.eqb_spec (cnt (irq_ac s)) 0) as [Hz|Hz].
  - by apply wp_modify.
  - apply wp_pending; [|done|done]. rewrite Hk. apply Z.ltb_lt. lia.
Qed.

(** The deferred work: it takes a vote for the clocks and gives it back. *)
Lemma wp_defer irq1 irq2 irq3 irq4 s :
  ac_ok (irq_ac s) → length (irq_cb s) = IPA_IRQ_NUM_MAX → 0 ≤ en_of s < 2 ^ 32 →
  cnt (irq_ac s) < 2 ^ 31 - 1 →
  wp (ipa_interrupt_defer E irq1 irq2 irq3 irq4) (λ _ s', ∃ a s1 new a',
    ext false None (with_ac a s) s1 new ∧ Z.land (en_of s) (stts_of s1) = 0 ∧
    s' = with_ac a' s1 ∧ ac_ok a' ∧ free_votes a' = free_votes (irq_ac s)) s.
Proof using HE.
  intros Ha Hlen He Hlt. unfold ipa_interrupt_defer. wp_step. apply wp_modify. cbn beta.
  wp_step. eapply wp_mono; [apply wp_inc; done|]. cbn beta.
  intros [] s1 (a & -> & Ha1 & Hcnt & Htag & Hclk). rewrite with_ac_ac.
  wp_step. eapply wp_mono; [apply wp_pending; done|]. cbn beta.
  intros [] s2 (new & He2 & Hz). pose proof (ext_ac _ _ _ _ _ He2) as Hac. cbn in Hac, Hcnt, Htag.
  eapply wp_mono; [apply wp_dec; rewrite Hac; [done|]|].
  - rewrite Htag, Hcnt. destruct Ha as (_ & _ & ? & Ht). destruct (tag_queued _); [specialize (Ht eq_refl)|]; lia.
  - cbn beta. intros [] s3 (a' & -> & Ha' & Hf & _). exists a, s2, new, a'. split_and!; try done.
    rewrite Hf, Hac. unfold free_votes. rewrite Htag, Hcnt. lia.
Qed.

(** ** The slots *)

Definition used (cb : list ipa_interrupt_info) (j : Z) : bool :=
  match lookup_z cb j with Some i => negb (interrupt i =? NO_IRQ) | None => false end.

Record slots_inv (cb : list ipa_interrupt_info) (en : Z) : Prop := {
  si_len : length cb = IPA_IRQ_NUM_MAX;
  si_slot j i : lookup_z cb j = Some i →
    i = no_info ∨ 0 ≤ interrupt i < IPA_IRQ_MAX ∧ lookup_z ipa2_irq_mapping (interrupt i) = Some j;
  si_range : 0 ≤ en < 2 ^ 32;
  si_en j : 0 ≤ j → Z.testbit en j = used cb j;
}.

Lemma mapping_range t : 0 ≤ t < IPA_IRQ_MAX →
  ∃ j, lookup_z ipa2_irq_mapping t = Some j ∧ 0 ≤ j < 19.
Proof.
  intros Ht. destruct (lookup_z_lt ipa2_irq_mapping t) as [j Hj]; [done|].
  exists j. split; [done|].
  assert (Forall (λ j, 0 ≤ j < 19) ipa2_irq_mapping) as Hf
    by (apply (bool_decide_unpack _); vm_compute; exact I).
  unfold lookup_z in Hj. rewrite (proj2 (Z.leb_le 0 t)) in Hj by lia.
  by apply (Forall_lookup_1 _ _ _ _ Hf Hj).
Qed.

Lemma lookup_z_insert {A} (l : list A) j k a :
  0 ≤ j < Z.of_nat (length l) →
  lookup_z (<[Z.to_nat j := a]> l) k = if k =? j then Some a else lookup_z l k.
Proof.
  intros Hj. unfold lookup_z. destruct (Z.eqb_spec k j) as [->|Hne].
  - rewrite (proj2 (Z.leb_le 0 j)) by lia. apply list_lookup_insert_eq. lia.
  - destruct (Z.leb_spec 0 k); [|done]. apply list_lookup_insert_ne. lia.
Qed.

Lemma wp_set_info j i s (Q : () → irq_state → Prop) :
  0 ≤ j < Z.of_nat (length (irq_cb s)) →
  Q () (with_cb (<[Z.to_nat j := i]> (irq_cb s)) s) → wp (set_info j i) Q s.
Proof.
  intros Hj HQ. unfold set_info. wp_steps. eapply wp_of_option.
  - unfold store_z. by rewrite (proj2 (Z.leb_le 0 j)), (proj2 (Z.ltb_lt j _)) by lia.
  - by apply wp_modify.
Qed.

(** Bit [j] of the enable register after the write. *)
Lemma en_range en j (b : bool) :
  0 ≤ en < 2 ^ 32 → 0 ≤ j < 32 →
  0 ≤ (if b then Z.lor en (Z.shiftl 1 j) else Z.ldiff en (Z.shiftl 1 j)) < 2 ^ 32.
Proof.
  intros He Hj. rewrite Z.shiftl_1_l.
  assert (0 ≤ (if b then Z.lor en (2 ^ j) else Z.ldiff en (2 ^ j))) as Hp.
  { destruct b; [apply Z.lor_nonneg; lia|apply Z.ldiff_nonneg; lia]. }
  split; [done|]. destruct (Z.eqb_spec (if b then Z.lor en (2 ^ j) else Z.ldiff en (2 ^ j)) 0) as [->|Hne];
    [done|]. apply Z.log2_lt_pow2; [lia|].
  assert (Z.testbit (if b then Z.lor en (2 ^ j) else Z.ldiff en (2 ^ j))
            (Z.log2 (if b then Z.lor en (2 ^ j) else Z.ldiff en (2 ^ j))) = true) as Hb.
  { apply Z.bit_log2. lia. }
  set (k := Z.log2 _) in *. destruct b.
  - rewrite Z.lor_spec, pow2_bit in Hb by lia. apply orb_true_iff in Hb as [Hb|Hb%Z.eqb_eq]; [|lia].
    apply (bit_bound en k He) in Hb. lia.
  - rewrite Z.ldiff_spec in Hb. apply andb_true_iff in Hb as [Hb _]. apply (bit_bound en k He) in Hb. lia.
Qed.

(** A slot is taken or freed. *)
Lemma slots_set cb en j i b :
  slots_inv cb en → 0 ≤ j < 32 → b = negb (interrupt i =? NO_IRQ) →
  (i = no_info ∨ 0 ≤ interrupt i < IPA_IRQ_MAX ∧ lookup_z ipa2_irq_mapping (interrupt i) = Some j) →
  slots_inv (<[Z.to_nat j := i]> cb)
    (if b then Z.lor en (Z.shiftl 1 j) else Z.ldiff en (Z.shiftl 1 j)).
Proof.
  intros Hi Hj Hb Hslot. pose proof (si_len _ _ Hi) as Hl.
  assert (0 ≤ j < Z.of_nat (length cb)) as Hj' by (rewrite Hl; done).
  pose proof (λ k, lookup_z_insert cb j k i Hj') as Hlook.
  constructor.
  - by rewrite length_insert.
  - intros k i'. rewrite Hlook. destruct (Z.eqb_spec k j) as [->|]; [by intros [= <-]|].
    by apply (si_slot _ _ Hi).
  - by apply en_range; [apply Hi|].
  - intros k Hk. unfold used. rewrite Hlook, Z.shiftl_1_l.
    assert (Z.testbit (if b then Z.lor en (2 ^ j) else Z.ldiff en (2 ^ j)) k
            = if k =? j then b else Z.testbit en k) as ->.
    { destruct b; [rewrite Z.lor_spec|rewrite Z.ldiff_spec]; rewrite pow2_bit by lia;
        destruct (k =? j); by rewrite ?orb_true_r, ?orb_false_r, ?andb_false_r, ?andb_true_r. }
    destruct (k =? j); [done|]. by apply (si_en _ _ Hi).
Qed.

(** ** The registry that slots and enable register stand for *)

Definition registry (s : irq_state) : list (option ipa_interrupt_info) :=
  (λ i, if interrupt i =? NO_IRQ then None else Some i) <$> irq_cb s.

Definition valid_irq (t : Z) : bool := (0 <=? t) && (t <? IPA_IRQ_MAX).
Definition slot_of (t : Z) : nat := Z.to_nat (default 0 (lookup_z ipa2_irq_mapping t)).

(** What a call does to the registry [g], with the result [r]. *)
Definition registry_step (g : list (option ipa_interrupt_info)) (c : irq_call) (r : Z)
    (g' : list (option ipa_interrupt_info)) : Prop :=
  match c with
  | IAdd t h d p =>
      if valid_irq t then r = 0 ∧ g' = <[slot_of t := Some (mkInfo h t p d)]> g
      else r = - EINVAL ∧ g' = g
  | IRemove t =>
      if valid_irq t then r = 0 ∧ g' = <[slot_of t := None]> g else r = - EINVAL ∧ g' = g
  | IRestore =>
      r = 0 ∧
      g' = <[16%nat := Some (mkInfo (Some suspend_handler_number) IPA_TX_SUSPEND_IRQ None true)]> g
  | IIncNoBlock => (r = 0 ∨ r = - EPERM) ∧ g' = g
  | _ => r = 0 ∧ g' = g
  end.

Definition irq_inv (s : irq_state) : Prop :=
  slots_inv (irq_cb s) (en_of s) ∧ mem_inv (irq_mm s) ∧ ac_ok (irq_ac s).

(** The private data in the slot of [t] is memory that has not been freed yet. *)
Definition owned (s : irq_state) (t : Z) : Prop :=
  ∀ j i p, lookup_z ipa2_irq_mapping t = Some j → lookup_z (irq_cb s) j = Some i →
    private_data i = Some p → p ∈ client_mem (irq_mm s).

(** What callers owe: a vote for the clocks while they add or remove a handler, to remove only
    handlers whose private data may be freed, and to give back no more votes than they took. *)
Definition irq_call_ok (s : irq_state) (c : irq_call) : Prop :=
  match c with
  | IAdd _ _ _ _ => 0 < cnt (irq_ac s)
  | IRemove t => 0 < cnt (irq_ac s) ∧ owned s t
  | IRestore => 0 < cnt (irq_ac s) ∧ owned s IPA_TX_SUSPEND_IRQ
  | IDefer _ _ _ _ => defer_queued (irq_ac s) = true ∧ cnt (irq_ac s) < 2 ^ 31 - 1
  | IInc _ _ | IIncNoBlock => cnt (irq_ac s) < 2 ^ 31 - 1
  | IDec _ _ => (if tag_queued (irq_ac s) then 1 else 0) < cnt (irq_ac s)
  | ITag _ _ => tag_queued (irq_ac s) = true
  | IClientAlloc p => p ∉ client_mem (irq_mm s)
  | _ => True
  end.

Lemma valid_irq_spec t : valid_irq t = true ↔ 0 ≤ t < IPA_IRQ_MAX.
Proof. unfold valid_irq. rewrite andb_true_iff, Z.leb_le, Z.ltb_lt. done. Qed.

Lemma invalid_irq t : ((t <? 0) || (t >=? IPA_IRQ_MAX)) = negb (valid_irq t).
Proof.
  unfold valid_irq, IPA_IRQ_MAX.
  destruct (Z.ltb_spec t 0), (Z.leb_spec 0 t), (Z.ltb_spec t 30); cbn; lia.
Qed.

Lemma slot_of_some t j : lookup_z ipa2_irq_mapping t = Some j → slot_of t = Z.to_nat j.
Proof. unfold slot_of. by intros ->. Qed.

Lemma registry_insert s j i l :
  l = <[j := i]> (irq_cb s) →
  (λ i, if interrupt i =? NO_IRQ then None else Some i) <$> l
  = <[j := if interrupt i =? NO_IRQ then None else Some i]> (registry s).
Proof. intros ->. unfold registry. by rewrite list_fmap_insert. Qed.

Lemma clks_of s : irq_inv s → 0 < cnt (irq_ac s) → clks_on (irq_ac s) = true.
Proof. intros (_ & _ & _ & -> & _) H. by apply Z.ltb_lt. Qed.

(** The parts that the handlers' calls leave alone. *)
Definition kept (s s' : irq_state) : Prop :=
  irq_ac s' = irq_ac s ∧ irq_log s' = irq_log s ∧ irq_wq (irq_mm s') = irq_wq (irq_mm s) ∧
  irq_works (irq_mm s') = irq_works (irq_mm s).

Lemma wp_add t h d p s :
  irq_inv s → irq_call_ok s (IAdd t h d p) →
  wp (ipa2_add_interrupt_handler t h d p) (λ r s', irq_inv s' ∧ kept s s' ∧
    registry_step (registry s) (IAdd t h d p) r (registry s')) s.
Proof.
  intros Hi Hc. pose proof Hi as (Hs & Hm & Ha). pose proof (clks_of s Hi Hc) as Hk.
  unfold ipa2_add_interrupt_handler.
  rewrite invalid_irq. destruct (valid_irq t) eqn:Hv; cbn [negb].
  2:{ apply wp_ret. cbn. by rewrite Hv. }
  apply valid_irq_spec in Hv as Ht. destruct (mapping_range t Ht) as (j & Hj & Hr). wp_step.
  eapply wp_of_option; [exact Hj|]. rewrite (proj2 (Z.ltb_ge j 0)), Z.geb_leb by lia.
  rewrite (proj2 (Z.leb_gt _ j)) by (unfold IPA_IRQ_NUM_MAX; lia). cbn [orb].
  wp_step. apply wp_set_info; [rewrite (si_len _ _ Hs); unfold IPA_IRQ_NUM_MAX; lia|].
  wp_step. unfold read_en. wp_step. apply wp_clocked; [exact Hk|]. wp_steps.
  unfold write_en. wp_step. apply wp_clocked; [exact Hk|]. apply wp_modify. wp_steps.
  assert ((t =? NO_IRQ) = false) as Hne.
  { apply Z.eqb_neq. intros ->. destruct Ht as [_ Ht]. vm_compute in Ht. done. }
  split; [|split; [done|]].
  - split; [|by split].
    refine (slots_set _ _ j (mkInfo h t p d) true Hs _ _ _); cbn; [lia|by rewrite Hne|by right].
  - cbn. rewrite Hv. split; [done|]. rewrite (slot_of_some _ _ Hj).
    erewrite (registry_insert s); [|done]. cbn. by rewrite Hne.
Qed.

Lemma wp_free_private o s (Q : () → irq_state → Prop) :
  (∀ p, o = Some p → p ∈ client_mem (irq_mm s)) →
  (∀ cm, (∀ q, q ∈ cm ↔ q ∈ client_mem (irq_mm s) ∧ o ≠ Some q) →
     Q () (with_mm (with_client_mem cm (irq_mm s)) s)) →
  wp (free_private o) Q s.
Proof.
  intros Hl HQ. destruct o as [p|]; cbn [free_private].
  - wp_steps. rewrite decide_True by by apply Hl. apply wp_modify. apply HQ. set_solver.
  - apply wp_ret. specialize (HQ (client_mem (irq_mm s))). destruct s as [? ? ? [] ? ?].
    apply HQ. set_solver.
Qed.

Lemma wp_remove t s :
  irq_inv s → irq_call_ok s (IRemove t) →
  wp (ipa2_remove_interrupt_handler t) (λ r s', irq_inv s' ∧ kept s s' ∧
    registry_step (registry s) (IRemove t) r (registry s')) s.
Proof.
  intros Hi [Hc Hown]. pose proof Hi as (Hs & Hm & Ha). pose proof (clks_of s Hi Hc) as Hk.
  unfold ipa2_remove_interrupt_handler.
  rewrite invalid_irq. destruct (valid_irq t) eqn:Hv; cbn [negb].
  2:{ apply wp_ret. cbn. by rewrite Hv. }
  apply valid_irq_spec in Hv as Ht. destruct (mapping_range t Ht) as (j & Hj & Hr). wp_step.
  eapply wp_of_option; [exact Hj|]. rewrite (proj2 (Z.ltb_ge j 0)), Z.geb_leb by lia.
  rewrite (proj2 (Z.leb_gt _ j)) by (unfold IPA_IRQ_NUM_MAX; lia). cbn [orb].
  destruct (lookup_z_lt (irq_cb s) j) as [i0 Hi0];
    [rewrite (si_len _ _ Hs); unfold IPA_IRQ_NUM_MAX; lia|].
  wp_steps. apply wp_free_private; [intros p; by apply (Hown j i0)|].
  intros cm _. wp_step.
  apply wp_set_info; [cbn; rewrite (si_len _ _ Hs); unfold IPA_IRQ_NUM_MAX; lia|].
  wp_step. unfold read_en. wp_step. apply wp_clocked; [exact Hk|]. wp_steps.
  unfold write_en. wp_step. apply wp_clocked; [exact Hk|]. apply wp_modify. wp_steps.
  split; [|split; [done|]].
  - split; [|split; [by apply mem_inv_client|done]].
    refine (slots_set _ _ j no_info false Hs _ _ _); cbn; [lia|done|by left].
  - cbn. rewrite Hv. split; [done|]. rewrite (slot_of_some _ _ Hj).
    erewrite (registry_insert s); [|done]. done.
Qed.

Lemma wp_restore s :
  irq_inv s → irq_call_ok s IRestore →
  wp ipa2_restore_suspend_handler (λ r s', irq_inv s' ∧ kept s s' ∧
    registry_step (registry s) IRestore r (registry s')) s.
Proof.
  intros Hi [Hc Hown]. unfold ipa2_restore_suspend_handler. wp_step.
  eapply wp_mono; [by apply wp_remove|]. cbn beta. intros r s1 (Hi1 & Ha1 & Hr1).
  cbn in Hr1. destruct Hr1 as [-> Hg1]. cbn [negb Z.eqb]. wp_step.
  eapply wp_mono; [apply wp_add; [done|by cbn; rewrite (proj1 Ha1)]|]. cbn beta.
  intros r s2 (Hi2 & Ha2 & Hr2). cbn in Hr2. destruct Hr2 as [-> Hg2]. apply wp_ret. cbn.
  split; [done|]. split; [unfold kept in *; intuition congruence|]. split; [done|]. rewrite Hg2, Hg1.
  change (slot_of IPA_TX_SUSPEND_IRQ) with 16%nat. by rewrite list_insert_insert_eq.
Qed.

Lemma empty_mem m : mem_inv m → irq_wq m = [] → irq_works m = ∅ ∧ irq_data m = ∅.
Proof.
  intros Hi Hq. assert (∀ p, irq_works m !! p = None) as Hn.
  { intros p. destruct (irq_works m !! p) as [w|] eqn:Hp; [|done]. exfalso.
    assert (p ∈ irq_wq m) as Hin by (apply (mi_works m Hi); by rewrite Hp).
    rewrite Hq in Hin. by apply elem_of_nil in Hin. }
  split; apply map_empty; [done|]. intros q. destruct (irq_data m !! q) as [v|] eqn:Hv; [|done].
  destruct (mi_owned m Hi q) as (p & w & Hp & _); [by rewrite Hv|]. by rewrite Hn in Hp.
Qed.

(** ** All calls *)

Definition data_of (m : irq_mem) (o : option positive) : option Z :=
  match o with Some q => irq_data m !! q | None => None end.

Definition in_isr (c : irq_call) : bool := match c with IDefer _ _ _ _ => false | _ => true end.

(** What a call does to the queue of works. *)
Definition works_step (s : irq_state) (c : irq_call) (s' : irq_state) : Prop :=
  match c, irq_wq (irq_mm s) with
  | IWorker, [] => s' = s
  | IWorker, p :: l => ∃ w, irq_works (irq_mm s) !! p = Some w ∧ irq_wq (irq_mm s') = l ∧
      irq_log s' = irq_log s ++ [Call (w_handler w) (w_interrupt w) (w_private_data w)
                                   (data_of (irq_mm s) (w_interrupt_data w))] ∧
      (w_interrupt w = IPA_TX_SUSPEND_IRQ → is_Some (data_of (irq_mm s) (w_interrupt_data w)))
  | _, _ => ∃ new, irq_log s' = irq_log s ++ new ∧ grown (irq_mm s) (irq_mm s') new ∧
      Forall (event_ok (irq_cb s) (in_isr c)) new
  end.

Lemma wp_worker s :
  irq_inv s →
  wp (irq_run E IWorker) (λ r s', r = 0 ∧ irq_inv s' ∧ registry s' = registry s ∧
    works_step s IWorker s' ∧ irq_ac s' = irq_ac s) s.
Proof.
  intros (Hs & Hm & Ha). cbn [irq_run]. wp_step. apply wp_get. unfold works_step.
  destruct (irq_wq (irq_mm s)) as [|p l] eqn:Hq; [by apply wp_ret|].
  assert (is_Some (irq_works (irq_mm s) !! p)) as [w Hw]
    by (rewrite <- (mi_works _ Hm), Hq; by left).
  pose proof (mem_inv_pop _ p w l Hm Hq Hw) as Hpop.
  wp_step. apply wp_modify. cbn beta. unfold deferred_interrupt_work. wp_step. wp_step. apply wp_get.
  wp_step. eapply wp_of_option; [exact Hw|]. cbn beta. wp_step.
  set (d := data_of (irq_mm s) (w_interrupt_data w)).
  assert (∀ q, w_interrupt_data w = Some q → is_Some (irq_data (irq_mm s) !! q)) as Hlive
    by (intros q; by apply (mi_live _ Hm p w)).
  apply wp_call_handler.
  set (s1 := with_mm (with_works (irq_works (irq_mm s)) l (irq_mm s)) s).
  assert (wp (free_data (w_interrupt_data w) ;;
              upd_mm (λ m, with_works (delete p (irq_works m)) (irq_wq m) m))
            (λ _ s', wp (mret 0) (λ r s', r = 0 ∧ irq_inv s' ∧ registry s' = registry s ∧
               (∃ w, irq_works (irq_mm s) !! p = Some w ∧ irq_wq (irq_mm s') = l ∧
                 irq_log s' = irq_log s ++ [Call (w_handler w) (w_interrupt w) (w_private_data w)
                                   (data_of (irq_mm s) (w_interrupt_data w))] ∧
                 (w_interrupt w = IPA_TX_SUSPEND_IRQ →
                  is_Some (data_of (irq_mm s) (w_interrupt_data w)))) ∧
               irq_ac s' = irq_ac s) s')
            (irq_logged (Call (w_handler w) (w_interrupt w) (w_private_data w) d) s1)) as H.
  { wp_step. apply wp_free_data.
    assert (w_interrupt w = IPA_TX_SUSPEND_IRQ → is_Some d) as Hd.
    { intros [q Hq']%(mi_susp _ Hm p w Hw). unfold d. rewrite Hq'. by apply Hlive. }
    destruct (w_interrupt_data w) as [q|] eqn:Hdq; (split; [by apply Hlive|]) || idtac;
      apply wp_modify; apply wp_ret; (split; [done|]); (split; [by split_and!|]);
      (split; [done|]); (split; [exists w; rewrite Hdq; by split_and!|done]). }
  destruct (w_interrupt_data w) as [q|] eqn:Hdq; [|exact H].
  destruct (Hlive q eq_refl) as [v Hv]. exists v. split; [exact Hv|].
  unfold d in H. cbn [data_of] in H. rewrite Hv in H. exact H.
Qed.

Lemma ext_inv isr s s' new : ext isr None s s' new → irq_inv s → irq_inv s'.
Proof.
  intros He (Hs & Hm & Ha). split; [|split].
  - by rewrite (ext_cb _ _ _ _ _ He), (ext_en _ _ _ _ _ He).
  - by apply (ext_mem _ _ _ _ _ He).
  - by rewrite (ext_ac _ _ _ _ _ He).
Qed.

Lemma ext_registry isr s s' new : ext isr None s s' new → registry s' = registry s.
Proof. intros He. unfold registry. by rewrite (ext_cb _ _ _ _ _ He). Qed.

Lemma inv_with_ac a s : irq_inv s → ac_ok a → irq_inv (with_ac a s).
Proof. intros (? & ? & _) ?. by split_and!. Qed.

(** Nothing is queued. *)
Definition calm (s s' : irq_state) : Prop :=
  irq_log s' = irq_log s ∧ irq_wq (irq_mm s') = irq_wq (irq_mm s) ∧
  irq_works (irq_mm s') = irq_works (irq_mm s).

Lemma calm_works s c s' : calm s s' → c ≠ IWorker → works_step s c s'.
Proof.
  intros (Hl & Hq & Hw) Hc. unfold works_step.
  destruct c; try (by destruct Hc); exists []; rewrite app_nil_r; split_and!; try done; by apply grown_same.
Qed.

Lemma ext_works isr a a' s s1 new c :
  ext isr None (with_ac a s) s1 new → in_isr c = isr → c ≠ IWorker →
  works_step s c (with_ac a' s1).
Proof.
  intros He <- Hc.
  assert (∃ new, irq_log (with_ac a' s1) = irq_log s ++ new ∧
            grown (irq_mm s) (irq_mm (with_ac a' s1)) new ∧
            Forall (event_ok (irq_cb s) (in_isr c)) new) as H.
  { exists new. split; [apply (ext_log _ _ _ _ _ He)|]. split; [apply (ext_grown _ _ _ _ _ He)|].
    apply (ext_ok _ _ _ _ _ He). }
  unfold works_step. by destruct c.
Qed.

Lemma with_ac_id s : with_ac (irq_ac s) s = s.
Proof. by destruct s. Qed.

(** What a call does to the votes that clients hold. *)
Definition vote_delta (c : irq_call) (r : Z) : Z :=
  match c with
  | IInc _ _ => 1
  | IDec _ _ => -1
  | IIncNoBlock => if r =? 0 then 1 else 0
  | _ => 0
  end.

(** The calls that only vote. *)
Lemma vote_step a s c :
  irq_inv s → ac_ok a → c ≠ IWorker → registry_step (registry s) c 0 (registry s) →
  free_votes a = free_votes (irq_ac s) + vote_delta c 0 →
  irq_inv (with_ac a s) ∧ registry_step (registry s) c 0 (registry (with_ac a s)) ∧
  works_step s c (with_ac a s) ∧ free_votes a = free_votes (irq_ac s) + vote_delta c 0.
Proof.
  intros Hi Ha Hc Hr Hf. split; [by apply inv_with_ac|]. split; [done|]. split; [|done].
  by apply calm_works.
Qed.

Lemma kept_calm s s' c r :
  kept s s' → vote_delta c r = 0 →
  calm s s' ∧ free_votes (irq_ac s') = free_votes (irq_ac s) + vote_delta c r.
Proof. intros (H & ? & ? & ?) ->. rewrite H. split; [done|lia]. Qed.

Lemma wp_irq_run c s :
  irq_inv s → irq_call_ok s c →
  wp (irq_run E c) (λ r s', irq_inv s' ∧ registry_step (registry s) c r (registry s') ∧
    works_step s c s' ∧ free_votes (irq_ac s') = free_votes (irq_ac s) + vote_delta c r) s.
Proof using HE.
  intros Hi Hok. pose proof Hi as (Hs & Hm & Ha). pose proof (si_len _ _ Hs) as Hlen.
  pose proof (si_range _ _ Hs) as Hen.
  destruct c as [t h d p|t| | |b1 b2 b3 b4| |b1 b2|b1 b2| |b1 b2| |p]; cbn [irq_run].
  - eapply wp_mono; [by apply wp_add|]. cbn beta. intros r s' (? & Hk & ?).
    destruct (kept_calm s s' (IAdd t h d p) r Hk eq_refl). split_and!; try done. by apply calm_works.
  - eapply wp_mono; [by apply wp_remove|]. cbn beta. intros r s' (? & Hk & ?).
    destruct (kept_calm s s' (IRemove t) r Hk eq_refl). split_and!; try done. by apply calm_works.
  - eapply wp_mono; [by apply wp_restore|]. cbn beta. intros r s' (? & Hk & ?).
    destruct (kept_calm s s' IRestore r Hk eq_refl). split_and!; try done. by apply calm_works.
  - wp_step. eapply wp_mono; [by apply wp_isr|]. cbn beta. intros [] s' H. apply wp_ret.
    destruct (cnt (irq_ac s) =? 0).
    + subst s'. apply vote_step; try done. unfold free_votes. cbn. lia.
    + destruct H as (new & He & _). split; [by eapply ext_inv|].
      split; [split; [done|by eapply ext_registry]|]. split.
      * rewrite <- (with_ac_id s'). eapply (ext_works true (irq_ac s) _ s s'); [|done|done].
        by rewrite with_ac_id.
      * rewrite (ext_ac _ _ _ _ _ He). cbn. lia.
  - destruct Hok as [_ Hlt]. wp_step. eapply wp_mono; [by apply wp_defer|]. cbn beta.
    intros [] s' (a & s1 & new & a' & He & _ & -> & Ha' & Hf). apply wp_ret.
    assert (irq_inv (with_ac a' s1)) as Hi'.
    { split; [|split; [|done]].
      - cbn. rewrite (ext_cb _ _ _ _ _ He), (ext_en _ _ _ _ _ He). done.
      - by apply (ext_mem _ _ _ _ _ He). }
    split; [done|]. split; [split; [done|]|split].
    + by apply (ext_registry _ _ _ _ He).
    + by eapply ext_works.
    + cbn. rewrite Hf. lia.
  - eapply wp_mono; [by apply wp_worker|]. cbn beta. intros r s' (-> & ? & ? & ? & Ha').
    split_and!; try done. rewrite Ha'. cbn. lia.
  - wp_step. eapply wp_mono; [by apply wp_inc|]. cbn beta.
    intros [] s' (a & -> & Ha' & Hcn & Htg & _). apply wp_ret. apply vote_step; try done.
    unfold free_votes. cbn. rewrite Hcn, Htg. lia.
  - wp_step. eapply wp_mono; [by apply wp_dec|]. cbn beta.
    intros [] s' (a & -> & Ha' & Hf & _). apply wp_ret. apply vote_step; try done.
  - unfold ipa2_inc_client_enable_clks_no_block, ipa_active_clients_trylock. wp_steps.
    destruct Ha as (Hl & Hk & Hc & Ht). rewrite Hl. cbn [negb]. wp_steps.
    destruct (Z.eqb_spec (cnt (irq_ac s)) 0) as [Hz|Hz].
    + apply wp_ret. split; [done|]. split; [by split; [right|]|]. split; [by apply calm_works|]. change (vote_delta _ _) with 0. lia.
    + wp_step. apply wp_modify. apply wp_ret. cbn in Hok. rewrite i32_small by lia.
      split; [|split; [by split; [left|]|split; [by apply calm_works|unfold free_votes; cbn; lia]]].
      apply inv_with_ac; [done|].
      unfold ac_ok. cbn. split_and!; [done| |lia|lia|].
      * rewrite Hk. transitivity true; [|symmetry]; apply Z.ltb_lt; lia.
      * intros H. specialize (Ht H). lia.
  - unfold ipa_start_tag_process. destruct Ha as (Hl & Hk & Hc & Ht). specialize (Ht Hok).
    wp_step. wp_step. apply wp_modify. cbn beta. wp_step. apply wp_clocked.
    { cbn. rewrite Hk. apply Z.ltb_lt. lia. }
    eapply wp_mono; [apply wp_dec|].
    + unfold ac_ok. cbn. split_and!; [done|done|lia|lia|done].
    + cbn. lia.
    + cbn beta. intros [] s' (a & -> & Ha' & Hf & _). apply wp_ret. rewrite with_ac_ac.
      apply vote_step; try done. change (free_votes a = free_votes (irq_ac s) + 0). rewrite Hf.
      unfold free_votes. cbn in Hok |- *. rewrite Hok. lia.
  - wp_step. apply wp_modify. apply wp_ret. apply vote_step; try done. unfold free_votes. cbn. lia.
  - wp_step. apply wp_modify. apply wp_ret.
    split; [|split; [done|split; [by apply calm_works|cbn; lia]]].
    split; [done|split; [by apply mem_inv_client|done]].
Qed.
End Steps.

(** ** Reachable states *)

Inductive irq_reach (E : irq_env) : irq_state → Prop :=
  | irq_reach_start l s : ipa_interrupts_init E (irq_state0 l) = Some (0, s) → irq_reach E s
  | irq_reach_call s c r s' :
      irq_reach E s → irq_call_ok s c → irq_run E c s = Some (r, s') → irq_reach E s'.

Section Reach.
Context (E : irq_env) {HE : irq_env_ok E}.

Lemma slots_init : slots_inv (replicate IPA_IRQ_NUM_MAX no_info) 0.
Proof.
  assert (∀ j i, lookup_z (replicate IPA_IRQ_NUM_MAX no_info) j = Some i → i = no_info) as Hno.
  { intros j i. unfold lookup_z. destruct (0 <=? j); [|done]. by intros [-> _]%lookup_replicate. }
  constructor.
  - done.
  - intros j i H. left. by eapply Hno.
  - done.
  - intros j _. unfold used. rewrite Z.bits_0. destruct (lookup_z _ j) as [i|] eqn:H; [|done].
    by rewrite (Hno _ _ H).
Qed.

Lemma wp_irq_init l :
  wp (ipa_interrupts_init E) (λ r s', r = 0 → irq_inv s') (irq_state0 l).
Proof.
  unfold ipa_interrupts_init. wp_step. apply wp_modify. cbn beta.
  destruct (irq_create_wq E); cbn [negb]; [|by apply wp_ret].
  wp_step. apply wp_write_clr; [done|]. cbn beta.
  set (s0 := with_cb _ _).
  assert (irq_inv (after_clr 4294967295 s0)) as Hi.
  { assert (irq_cb (after_raise s0) = replicate IPA_IRQ_NUM_MAX no_info ∧
            en_of (after_raise s0) = 0 ∧ irq_mm (after_raise s0) = mkMem ∅ ∅ [] ∅ ∧
            irq_ac (after_raise s0) = mkAc false 1 false true false false) as (H1 & H2 & H3 & H4).
    { unfold after_raise, s0. cbn. by destruct l. }
    unfold irq_inv, after_clr. cbn. rewrite H1, H2, H3, H4.
    split; [apply slots_init|]. split; [|by unfold ac_ok; cbn; split_and!].
    constructor; cbn.
    - constructor.
    - intros p. rewrite lookup_empty. split; [by intros ?%elem_of_nil|by intros []].
    - intros p w q. by rewrite lookup_empty.
    - intros p w p' w' q. by rewrite lookup_empty.
    - intros q. rewrite lookup_empty. by intros [].
    - intros p w. by rewrite lookup_empty. }
  destruct (irq_request E); cbn [negb]; by apply wp_ret.
Qed.

Lemma irq_reach_inv s : irq_reach E s → irq_inv s.
Proof using HE.
  induction 1 as [l s H|s c r s' _ IH Hc H].
  - pose proof (wp_irq_init l) as Hw. unfold wp in Hw. rewrite H in Hw. by apply Hw.
  - pose proof (wp_irq_run E c s IH Hc) as Hw. unfold wp in Hw. rewrite H in Hw. apply Hw.
Qed.





End Reach.

(** ** The properties *)


(** C32. The handlers refine a registry: every call that keeps the rules of C6 is defined and
    takes its step, so that an addition sets the slot of its interrupt, a removal clears it, and
    nothing else changes one. The enable register has exactly the bits of the slots that are
    taken, and the clocks are on exactly while there is a vote; under the rules no register is
    accessed without. A second removal of shared private data is outside the rules:
    [shared_data_freed_twice]. *)
Theorem handlers_refine_registry E s c :
  irq_env_ok E → irq_reach E s → irq_call_ok s c →
  ∃ r s', irq_run E c s = Some (r, s') ∧ irq_reach E s' ∧
    registry_step (registry s) c r (registry s') ∧
    (∀ j, Z.testbit (en_of s') (Z.of_nat j) = true ↔ ∃ i, registry s' !! j = Some (Some i)) ∧
    (clks_on (irq_ac s') = true ↔ 0 < cnt (irq_ac s')) ∧ mutex_locked (irq_ac s') = false.
Proof.
  intros HE Hr Hok. pose proof (irq_reach_inv E s Hr) as Hi.
  destruct (wp_elim _ _ _ (wp_irq_run E c s Hi Hok)) as (r & s' & Hrun & (Hs & _ & Ha) & Hg & _).
  exists r, s'. split; [done|]. split; [by eapply irq_reach_call|]. split; [done|].
  destruct Ha as (Hl & Hk & _). split; [|split; [by rewrite Hk, Z.ltb_lt|done]].
  intros j. rewrite (si_en _ _ Hs) by lia. unfold used, registry. rewrite lookup_z_nat, list_lookup_fmap.
  destruct (irq_cb s' !! j) as [i|]; cbn; [|split; [done|by intros []]].
  destruct (interrupt i =? NO_IRQ); cbn; [split; [done|by intros [? [=]]]|]. by split; [eexists|].
Qed.

(** C30. The deferred works own their memory, in the states that calls keeping the rules of C6
    reach, those of the driver's own handlers with one private data for two slots among them
    ([running_reach]): after every call each work is in the queue once,
    the data of the suspend interrupt belong to exactly one work each, and nothing is left when
    the queue is empty. A call appends to the queue exactly the works of the slots whose
    interrupts it deferred; the worker takes the first one and calls its handler, which always
    gets data for a suspension. *)
Theorem interrupt_memory_exact E s c :
  irq_env_ok E → irq_reach E s → irq_call_ok s c →
  ∃ r s', irq_run E c s = Some (r, s') ∧ works_step s c s' ∧
    NoDup (irq_wq (irq_mm s')) ∧
    (∀ p, p ∈ irq_wq (irq_mm s') ↔ is_Some (irq_works (irq_mm s') !! p)) ∧
    (∀ q, is_Some (irq_data (irq_mm s') !! q) ↔
       ∃ p w, irq_works (irq_mm s') !! p = Some w ∧ w_interrupt_data w = Some q) ∧
    (∀ p w p' w' q, irq_works (irq_mm s') !! p = Some w → irq_works (irq_mm s') !! p' = Some w' →
       w_interrupt_data w = Some q → w_interrupt_data w' = Some q → p = p') ∧
    (irq_wq (irq_mm s') = [] → irq_works (irq_mm s') = ∅ ∧ irq_data (irq_mm s') = ∅).
Proof.
  intros HE Hr Hok. pose proof (irq_reach_inv E s Hr) as Hi.
  destruct (wp_elim _ _ _ (wp_irq_run E c s Hi Hok)) as (r & s' & Hrun & (_ & Hm & _) & _ & Hw & _).
  exists r, s'. split; [done|]. split; [done|]. split; [apply Hm|]. split; [apply Hm|].
  split; [|split; [apply Hm|by apply empty_mem]].
  intros q. split; [apply (mi_owned _ Hm)|]. intros (p & w & Hp & Hq). by eapply mi_live.
Qed.

(** ** A small system *)

Definition irq_env1 : irq_env := mkIrqEnv
  (λ s, let p := Pos.of_succ_nat (irq_time s) in
    if decide (irq_data (irq_mm s) !! p = None ∧ irq_works (irq_mm s) !! p = None)
    then Some p else None)
  (λ _, 2) (λ _, replicate 20 true) 20 true true.

Lemma irq_env1_ok : irq_env_ok irq_env1.
Proof.
  split; [|intros s; cbn; lia]. intros s p. cbn. destruct (decide _); [|done]. by intros [= <-].
Qed.

Definition irq_after (c : irq_call) (s : irq_state) : irq_state :=
  match irq_run irq_env1 c s with Some (_, s) => s | None => s end.
Definition booted (l : list Z) : irq_state :=
  match ipa_interrupts_init irq_env1 (irq_state0 l) with Some (_, s) => s | None => irq_state0 l end.

(** The handlers that the driver itself registers: that of suspensions, which runs at once, and
    two of the microcontroller, which share the driver's context as their private data. *)
Definition ipa_ctx_addr : positive := 1000.
Definition add_suspend : irq_call := IAdd 16 (Some 0%nat) false None.
Definition add_uc_event : irq_call := IAdd 2 (Some 1%nat) true (Some ipa_ctx_addr).
Definition add_uc_response : irq_call := IAdd 3 (Some 2%nat) true (Some ipa_ctx_addr).
Definition set_up (l : list Z) : irq_state :=
  irq_after add_uc_response (irq_after add_uc_event (irq_after add_suspend (booted l))).

(** Two are raised; while the first is cleared, it is raised again. *)
Definition running : irq_state := set_up [0; 65540; 0; 0; 4].

Lemma irq_after_reach c s :
  irq_reach irq_env1 s → irq_call_ok s c → irq_run irq_env1 c s = Some (0, irq_after c s) →
  irq_reach irq_env1 (irq_after c s).
Proof. intros ? ? H. by eapply irq_reach_call. Qed.

Lemma running_reach : irq_reach irq_env1 running.
Proof.
  do 3 (apply irq_after_reach; [|vm_compute; reflexivity|vm_compute; reflexivity]).
  apply (irq_reach_start _ [0; 65540; 0; 0; 4]). vm_compute. reflexivity.
Qed.


Lemma handlers_refine_registry_witness :
  ∃ r s', irq_run irq_env1 (IRemove 16) running = Some (r, s') ∧ irq_reach irq_env1 s' ∧
    registry s' = <[16%nat := None]> (registry running).
Proof.
  destruct (handlers_refine_registry irq_env1 running (IRemove 16) irq_env1_ok running_reach)
    as (r & s' & Hrun & Hr & Hg & _).
  { split; [vm_compute; reflexivity|]. by intros j i p [= <-] [= <-]. }
  exists r, s'. split; [exact Hrun|]. split; [exact Hr|]. apply Hg.
Defined.

Definition interrupted : irq_state := irq_after IIsr running.

Lemma interrupted_reach : irq_reach irq_env1 interrupted.
Proof.
  eapply (irq_reach_call _ running IIsr); [apply running_reach|exact I|vm_compute; reflexivity].
Qed.

Lemma interrupt_memory_exact_witness :
  ∃ r s', irq_run irq_env1 IWorker interrupted = Some (r, s') ∧ works_step interrupted IWorker s'.
Proof.
  destruct (interrupt_memory_exact irq_env1 interrupted IWorker irq_env1_ok interrupted_reach I)
    as (r & s' & Hrun & Hw & _).
  exists r, s'. split; [exact Hrun|exact Hw].
Defined.

(** ** What the code does not guard *)

(** An interrupt that this hardware lacks takes the slot, and the handler, of bit 0. *)
Example unsupported_takes_bit_0 :
  let s := irq_after (IAdd 20 (Some 9%nat) false None) (irq_after (IAdd 0 (Some 5%nat) false None) running) in
  registry s !! 0%nat = Some (Some (mkInfo (Some 9%nat) 20 None false)).
Proof. vm_compute. reflexivity. Qed.

(** The private data is freed with the handler, while a queued work still passes it on. *)
Example freed_data_passed_on :
  let s := irq_after (IRemove 2) (irq_after IIsr (irq_after (IAdd 2 (Some 1%nat) true (Some 7%positive))
             (irq_after (IClientAlloc 7) (set_up [0; 4])))) in
  bool_decide (7%positive ∈ client_mem (irq_mm s)) = false ∧
  rev (irq_log (irq_after IWorker s)) !! 0%nat = Some (Call 1 2 (Some 7%positive) None).
Proof. vm_compute. done. Qed.

(** Two interrupts with the same private data: the second removal frees it again. *)
Example shared_data_freed_twice :
  let s := irq_after (IAdd 3 (Some 2%nat) true (Some 7%positive))
             (irq_after (IAdd 2 (Some 1%nat) true (Some 7%positive))
                (irq_after (IClientAlloc 7) running)) in
  irq_run irq_env1 (IRemove 3) (irq_after (IRemove 2) s) = None.
Proof. vm_compute. reflexivity. Qed.

(** Another interrupt that is raised between its handler and its clearing is lost. *)
Example raised_before_clear_lost :
  let s := irq_after IIsr (irq_after (IAdd 11 (Some 3%nat) false None) (set_up [0; 2048; 2048])) in
  stts_of s = 0 ∧ length (irq_wq (irq_mm s)) = 1%nat ∧
  irq_log s = irq_log (set_up [0]) ++
    [Raise 2048; Queue (mkWrap 3 11 None None); Raise 2048; Clear 2048].
Proof. vm_compute. done. Qed.

(** ** Suspension: the interrupts and the resource manager together *)

Import Suspend.

(** Each valid endpoint is at the pipe of its client, and head-of-line blocking is supported. *)
Record susp_env_ok (E : susp_env) : Prop := {
  law_su_irq :: irq_env_ok (su_irq_env E);
  law_su_pipes : (su_num_pipes E ≤ length (su_eps E))%nat ∧ (su_num_pipes E ≤ 20)%nat;
  law_su_eps i c : lookup_z (su_eps E) i = Some (true, c) →
    ipa2_get_ep_mapping (su_hw_type E) c = i;
  law_su_holb : 0 ≤ max_holb_tmr_val E ∧ holb_supported E = true;
}.
Existing Class susp_env_ok.

Definition dec_votes (p : sps_pm) : Z := if dec_clients p then 1 else 0.

(** The flag and the wakelock go together, and a vote that is held has a release scheduled. *)
Definition pm_ok (p : sps_pm) : Prop :=
  sps_pm_locked p = false ∧ (dec_clients p = true → release_scheduled p = true) ∧
  Z.testbit (wakelock_ref_cnt p) IPA_WAKELOCK_REF_CLIENT_SPS = dec_clients p ∧
  stay_awake p = negb (wakelock_ref_cnt p =? 0) ∧ 0 ≤ wakelock_ref_cnt p.

Definition su_inv (E : susp_env) (s : susp_state) : Prop :=
  irq_inv (su_irq s) ∧ reachable (su_rm_env E) (su_rm s) ∧ pm_ok (su_pm s) ∧
  dec_votes (su_pm s) ≤ free_votes (irq_ac (su_irq s)).

(** Room for the votes that the handler takes. *)
Definition su_room (s : susp_state) : Prop :=
  cnt (irq_ac (su_irq s)) < 2 ^ 31 - 2 - (1 - dec_votes (su_pm s)).

Definition susp_call_ok (s : susp_state) (c : susp_call) : Prop :=
  match c with
  | SuSuspend _ => su_room s
  | SuRelease => release_scheduled (su_pm s) = true
  | SuApSuspend _ | SuEot => True
  | SuWake r _ => 0 ≤ r ∧ r ≠ IPA_WAKELOCK_REF_CLIENT_SPS
  | SuIrq c => irq_call_ok (su_irq s) c ∧
      match c with
      | IDec _ _ => dec_votes (su_pm s) < free_votes (irq_ac (su_irq s))
      | _ => True
      end
  | SuRm l => label_enabled l (su_rm s)
  end.

(** The votes that are not the handler's. *)
Definition other_votes (s : susp_state) : Z :=
  free_votes (irq_ac (su_irq s)) - dec_votes (su_pm s).

(** The requests that an interrupt stands for: the resources of the suspended pipes that are not
    those of the application processor, in the order of the pipes. *)
Fixpoint wanted (E : susp_env) (data : Z) (n : nat) (i : Z) : list nat :=
  match n with
  | O => []
  | S n =>
      match lookup_z (su_eps E) i with
      | Some (true, c) =>
          if Z.testbit data i && negb (IPA_CLIENT_IS_APPS_CONS c)
          then [Z.to_nat (u32 (default 0 (ipa2_get_rm_resource_from_ep E i)))] else []
      | _ => []
      end ++ wanted E data n (i + 1)
  end.

(** Whether a pipe of the application processor is among them. *)
Fixpoint apps_wanted (E : susp_env) (data : Z) (n : nat) (i : Z) : bool :=
  match n with
  | O => false
  | S n =>
      match lookup_z (su_eps E) i with
      | Some (true, c) => Z.testbit data i && IPA_CLIENT_IS_APPS_CONS c
      | _ => false
      end || apps_wanted E data n (i + 1)
  end.

(** The requests, one after the other, whatever their results. *)
Fixpoint rm_requests (E : rm_env) (l : list nat) : M rm_state () :=
  match l with
  | [] => mret ()
  | n :: l => ipa_rm_request_resource_with_timer E n ;; rm_requests E l
  end.

Section Suspension.
Context (E : susp_env) {HE : susp_env_ok E}.

Lemma wp_in_irq {A} (m : M irq_state A) (Q : A → susp_state → Prop) s :
  wp m (λ a i, Q a (mkSusp i (su_rm s) (su_pm s) (su_holb s))) (su_irq s) → wp (in_irq m) Q s.
Proof. unfold wp, in_irq. by destruct (m (su_irq s)) as [[a i]|]. Qed.

Lemma wp_in_rm {A} (m : M rm_state A) (Q : A → susp_state → Prop) s :
  wp m (λ a r, Q a (mkSusp (su_irq s) r (su_pm s) (su_holb s))) (su_rm s) → wp (in_rm m) Q s.
Proof. unfold wp, in_rm. by destruct (m (su_rm s)) as [[a r]|]. Qed.

Lemma wp_rm_request n r :
  reachable (su_rm_env E) r →
  wp (ipa_rm_request_resource_with_timer (su_rm_env E) n) (λ v r',
    reachable (su_rm_env E) r' ∧
    ∀ l, rm_requests (su_rm_env E) (n :: l) r = rm_requests (su_rm_env E) l r') r.
Proof.
  intros Hr. pose proof (safe_request_with_timer (su_rm_env E) n r
    (reachable_well_formed _ _ Hr)) as Hw.
  apply wp_elim in Hw as (v & r' & Hrun & _). eapply wp_intro; [exact Hrun|]. split.
  - eapply (reachable_step _ (StepApi (ApiRequestTimer n))); [exact Hr|done|].
    cbn [run_label run_api]. by erewrite M_bind_Some by exact Hrun.
  - intros l. cbn [rm_requests]. by erewrite M_bind_Some by exact Hrun.
Qed.

(** The parts that the votes of the handler leave alone. *)
Definition same_su (s s' : susp_state) : Prop :=
  su_rm s' = su_rm s ∧ su_pm s' = su_pm s ∧ other_votes s' = other_votes s.

Lemma dec_votes_range p : 0 ≤ dec_votes p ≤ 1.
Proof. unfold dec_votes. destruct (dec_clients p); lia. Qed.

Lemma wp_inc_clks s (Q : () → susp_state → Prop) :
  irq_inv (su_irq s) → cnt (irq_ac (su_irq s)) < 2 ^ 31 - 1 →
  (∀ i, irq_inv i → free_votes (irq_ac i) = free_votes (irq_ac (su_irq s)) + 1 →
        cnt (irq_ac i) = cnt (irq_ac (su_irq s)) + 1 → clks_on (irq_ac i) = true →
        Q () (mkSusp i (su_rm s) (su_pm s) (su_holb s))) →
  wp (inc_clks E) Q s.
Proof using HE.
  intros Hi Hc HQ. apply wp_in_irq. destruct Hi as (? & ? & ?).
  eapply wp_mono; [by apply wp_inc|]. cbn beta. intros [] i (a & -> & Ha & Hn & Ht & Hk).
  apply HQ; [by split_and!| |done|done]. unfold free_votes. cbn. rewrite Ht, Hn. lia.
Qed.

Lemma wp_dec_clks s (Q : () → susp_state → Prop) :
  irq_inv (su_irq s) → 0 < free_votes (irq_ac (su_irq s)) →
  (∀ i, irq_inv i → free_votes (irq_ac i) = free_votes (irq_ac (su_irq s)) - 1 →
        cnt (irq_ac i) ≤ Z.max 1 (cnt (irq_ac (su_irq s)) - 1) →
        Q () (mkSusp i (su_rm s) (su_pm s) (su_holb s))) →
  wp (dec_clks E) Q s.
Proof using HE.
  intros Hi Hc HQ. apply wp_in_irq. destruct Hi as (? & ? & ?).
  eapply wp_mono; [apply wp_dec; [done|]|]; [unfold free_votes in Hc; destruct (tag_queued _); lia|].
  cbn beta. intros [] i (a & -> & Ha & Hn & Hle). by apply HQ; [by split_and!|..].
Qed.

(** Head-of-line blocking of a valid consumer is set. *)
Lemma wp_holb i c s :
  su_inv E s → su_room s → 0 ≤ i < Z.of_nat (su_num_pipes E) →
  lookup_z (su_eps E) i = Some (true, c) → IPA_CLIENT_IS_CONS c = true →
  wp (ipa2_cfg_ep_holb_by_client E c (mkHolb 1 0))
    (λ r s', r = 0 ∧ su_inv E s' ∧ su_room s' ∧ same_su s s') s.
Proof using HE.
  intros Hi Hroom Hr He Hc. destruct (law_su_pipes E HE) as [Hlen H20].
  unfold ipa2_cfg_ep_holb_by_client. rewrite (law_su_eps E HE i c He).
  rewrite u32_small by lia. unfold ipa2_cfg_ep_holb. rewrite Z.geb_leb.
  rewrite (proj2 (Z.leb_gt _ i)) by lia. wp_steps. cbn [fst snd negb orb tmr_val holb_en].
  destruct (law_su_holb E HE) as [Hmax ->].
  replace (0 >? max_holb_tmr_val E) with false by lia. cbn [orb].
  assert (IPA_CLIENT_IS_PROD c = false) as ->.
  { unfold IPA_CLIENT_IS_CONS in Hc. unfold IPA_CLIENT_IS_PROD.
    apply andb_true_iff in Hc as [-> Hc%Z.eqb_eq]. by rewrite Hc. }
  cbn [negb]. change (1 >? 1) with false. cbn match.
  pose proof Hi as (Hirq & _ & _ & Hv). unfold su_room in Hroom.
  pose proof (dec_votes_range (su_pm s)). wp_step.
  apply wp_inc_clks; [done|lia|]. intros i1 Hi1 Hf1 Hn1 Hk1. cbn beta. wp_step. apply wp_in_irq. cbn.
  apply wp_clocked; [done|]. wp_step. apply wp_modify. wp_step.
  apply wp_dec_clks; [done|cbn; lia|]. cbn. intros i2 Hi2 Hf2 Hn2. apply wp_ret.
  split; [done|]. split; [|split; [unfold su_room; cbn; lia|]].
  - destruct Hi as (_ & ? & ? & _). split_and!; try done. cbn. lia.
  - split_and!; try done. unfold other_votes. cbn. lia.
Qed.

Lemma wp_upd_pm f (Q : () → susp_state → Prop) s :
  Q () (mkSusp (su_irq s) (su_rm s) (f (su_pm s)) (su_holb s)) → wp (upd_pm f) Q s.
Proof. intros H. by apply wp_modify. Qed.

Lemma wp_pm_lock (Q : () → susp_state → Prop) s :
  sps_pm_locked (su_pm s) = false →
  Q () (mkSusp (su_irq s) (su_rm s) (set_pm_locked true (su_pm s)) (su_holb s)) → wp pm_lock Q s.
Proof. intros Hl HQ. unfold pm_lock. wp_step. apply wp_get. rewrite Hl. by apply wp_upd_pm. Qed.

(** The wakelock of one client. *)
Lemma wake_set n r k : 0 ≤ r → 0 ≤ n →
  Z.testbit (Z.lor n (Z.shiftl 1 r)) k = Z.testbit n k || (k =? r) ∧
  Z.lor n (Z.shiftl 1 r) ≠ 0 ∧ 0 ≤ Z.lor n (Z.shiftl 1 r).
Proof.
  intros Hr Hn. rewrite Z.shiftl_1_l. split; [by rewrite Z.lor_spec, pow2_bit|].
  assert (0 < 2 ^ r) by (apply Z.pow_pos_nonneg; lia).
  split; [|apply Z.lor_nonneg; lia]. intros [_ H0]%Z.lor_eq_0_iff. lia.
Qed.

Lemma wake_clear n r k : 0 ≤ r → 0 ≤ n →
  Z.testbit (Z.ldiff n (Z.shiftl 1 r)) k = Z.testbit n k && negb (k =? r) ∧
  0 ≤ Z.ldiff n (Z.shiftl 1 r) ∧
  (if Z.ldiff n (Z.shiftl 1 r) =? 0 then false else negb (n =? 0))
    = negb (Z.ldiff n (Z.shiftl 1 r) =? 0).
Proof.
  intros Hr Hn. rewrite Z.shiftl_1_l. split; [by rewrite Z.ldiff_spec, pow2_bit|].
  split; [apply Z.ldiff_nonneg; by left|].
  destruct (Z.eqb_spec (Z.ldiff n (2 ^ r)) 0) as [|Hz]; [done|].
  destruct (Z.eqb_spec n 0) as [->|]; [|done]. by rewrite Z.ldiff_0_l in Hz.
Qed.

Lemma wp_suspend_apps s :
  su_inv E s → su_room s →
  wp (suspend_apps E) (λ _ s', su_inv E s' ∧ su_room s' ∧ su_rm s' = su_rm s ∧
    dec_clients (su_pm s') = true ∧ other_votes s' = other_votes s) s.
Proof using HE.
  intros Hi Hroom. pose proof Hi as (Hirq & Hrm & (Hl & Hs & Hb & Hw & H0) & Hv).
  unfold suspend_apps. wp_step. apply wp_pm_lock; [done|]. wp_step. apply wp_get. wp_step.
  cbn [su_pm set_pm_locked dec_clients]. unfold su_room, su_inv, pm_ok, other_votes, dec_votes in *.
  apply wp_when; destruct (dec_clients (su_pm s)) eqn:Hd; try done; intros _.
  - wp_step. apply wp_inc_clks; [done|cbn; lia|]. intros i Hi1 Hf Hn Hk. cbn in Hf, Hn.
    wp_step. apply wp_upd_pm. wp_step.
    unfold ipa_inc_acquire_wakelock. change (_ >=? _) with false. cbn match.
    apply wp_upd_pm. apply wp_upd_pm. apply wp_upd_pm.
    destruct (wake_set (wakelock_ref_cnt (su_pm s)) IPA_WAKELOCK_REF_CLIENT_SPS
                IPA_WAKELOCK_REF_CLIENT_SPS) as (Hb' & Hne & Hp); [done|done|].
    apply Z.eqb_neq in Hne. cbn in Hne, Hb' |- *. rewrite Hne.
    split_and!; try done; try lia. by rewrite Hb', orb_true_r.
  - apply wp_upd_pm. cbn. rewrite Hd. by split_and!.
Qed.

Lemma wp_suspend_other i c s :
  su_inv E s → su_room s → 0 ≤ i < Z.of_nat (su_num_pipes E) →
  lookup_z (su_eps E) i = Some (true, c) →
  wp (suspend_other E i c) (λ _ s', su_inv E s' ∧ su_room s' ∧ su_pm s' = su_pm s ∧
    other_votes s' = other_votes s ∧ ∀ l, rm_requests (su_rm_env E)
           (Z.to_nat (u32 (default 0 (ipa2_get_rm_resource_from_ep E i))) :: l) (su_rm s)
         = rm_requests (su_rm_env E) l (su_rm s')) s.
Proof using HE.
  intros Hi Hroom Hr He. unfold suspend_other.
  assert (∃ v, ipa2_get_rm_resource_from_ep E i = Some v) as [v Hv].
  { unfold ipa2_get_rm_resource_from_ep. rewrite He. destruct (_ || _); cbn; eauto. }
  wp_step. eapply wp_of_option; [exact Hv|]. rewrite Hv. wp_step. apply wp_in_rm. pose proof Hi as (Hirq & Hrm & Hpm & Hvo).
  eapply wp_mono; [by apply wp_rm_request|]. cbn beta. intros res r' [Hr' Hreq].
  assert (su_inv E (mkSusp (su_irq s) r' (su_pm s) (su_holb s))) as Hi' by by split_and!.
  apply wp_when.
  - intros [_ Hc]%andb_true_iff. wp_step.
    eapply wp_mono; [by apply (wp_holb i c)|]. cbn beta. intros r s' (-> & Hi2 & Hr2 & Hrm2 & Hpm2 & Ho2).
    cbn [negb Z.eqb when]. apply wp_ret. cbn in Hrm2, Hpm2. rewrite Hrm2, Hpm2. by split_and!.
  - intros _. by split_and!.
Qed.

Lemma wp_suspend_loop data n i s :
  su_inv E s → su_room s → 0 ≤ i → i + Z.of_nat n = Z.of_nat (su_num_pipes E) →
  wp (suspend_loop E data n i (u32 (2 ^ i))) (λ _ s', su_inv E s' ∧
    rm_requests (su_rm_env E) (wanted E data n i) (su_rm s) = Some ((), su_rm s') ∧
    dec_clients (su_pm s') = dec_clients (su_pm s) || apps_wanted E data n i ∧
    other_votes s' = other_votes s) s.
Proof using HE.
  destruct (law_su_pipes E HE) as [Hlen H20].
  revert i s. induction n as [|n IH]; intros i s Hi Hroom Hp Hn; cbn [suspend_loop wanted apps_wanted].
  { apply wp_ret. by rewrite orb_false_r. }
  assert (u32 (2 ^ i) = 2 ^ i) as Hpow.
  { apply u32_small. split; [lia|]. apply Z.pow_lt_mono_r; lia. }
  rewrite Hpow, land_bit by lia.
  replace (Z.shiftl (2 ^ i) 1) with (2 ^ (i + 1)) by (rewrite Z.shiftl_mul_pow2, Z.pow_add_r; lia).
  destruct (lookup_z_lt (su_eps E) i) as [[valid c] He]; [lia|]. rewrite He. wp_step.
  assert (∀ s1 l b, su_inv E s1 → su_room s1 →
    (∀ k, rm_requests (su_rm_env E) (l ++ k) (su_rm s) = rm_requests (su_rm_env E) k (su_rm s1)) →
    dec_clients (su_pm s1) = dec_clients (su_pm s) || b → other_votes s1 = other_votes s →
    wp (suspend_loop E data n (i + 1) (u32 (2 ^ (i + 1)))) (λ _ s', su_inv E s' ∧
      rm_requests (su_rm_env E) (l ++ wanted E data n (i + 1)) (su_rm s) = Some ((), su_rm s') ∧
      dec_clients (su_pm s') = dec_clients (su_pm s) || (b || apps_wanted E data n (i + 1)) ∧
      other_votes s' = other_votes s) s1) as Hrest.
  { intros s1 l b Hi1 Hr1 Hl Hd Ho. eapply wp_mono; [apply IH; [done|done|lia|lia]|]. cbn beta.
    intros [] s' (Hi2 & Hreq & Hd2 & Ho2). split; [done|]. split; [by rewrite Hl|].
    split; [by rewrite Hd2, Hd, orb_assoc|congruence]. }
  destruct (Z.testbit data i); cbn [negb andb].
  2:{ apply wp_ret. destruct valid; apply (Hrest s [] false); try done; by rewrite orb_false_r. }
  wp_step. eapply wp_of_option; [done|]. cbn [fst snd]. destruct valid; cbn [negb].
  2:{ apply wp_ret. apply (Hrest s [] false); try done; by rewrite orb_false_r. }
  destruct (IPA_CLIENT_IS_APPS_CONS c); cbn [negb].
  - eapply wp_mono; [by apply wp_suspend_apps|]. cbn beta. intros [] s1 (Hi1 & Hr1 & Hrm1 & Hd1 & Ho1).
    apply (Hrest s1 [] true); try done; [by rewrite Hrm1|by rewrite Hd1, orb_true_r].
  - eapply wp_mono; [apply wp_suspend_other; try done; lia|]. cbn beta.
    intros [] s1 (Hi1 & Hr1 & Hpm1 & Ho1 & Hreq). apply Hrest; try done.
    by rewrite Hpm1, orb_false_r.
Qed.

(** The delayed work keeps the vote while there is activity, and otherwise gives it back; before,
    it need not be scheduled. *)
Lemma wp_sps_release s :
  su_inv E (mkSusp (su_irq s) (su_rm s) (set_release true (su_pm s)) (su_holb s)) →
  wp (ipa_sps_release_resource E) (λ _ s', su_inv E s' ∧ su_rm s' = su_rm s ∧
    dec_clients (su_pm s') = dec_clients (su_pm s) && eot_activity (su_pm s) ∧
    eot_activity (su_pm s') = false ∧ other_votes s' = other_votes s) s.
Proof using HE.
  intros (Hirq & Hrm & (Hl & _ & Hb & Hw & H0) & Hv).
  cbn [su_irq su_rm su_pm set_release sps_pm_locked dec_clients wakelock_ref_cnt stay_awake] in *.
  unfold ipa_sps_release_resource. wp_step. apply wp_pm_lock; [done|].
  wp_step. apply wp_get. wp_step. unfold su_inv, pm_ok, other_votes, dec_votes in *. cbn in Hv.
  apply wp_when; cbn [su_pm set_pm_locked dec_clients eot_activity];
    destruct (dec_clients (su_pm s)) eqn:Hd; try done; intros _.
  - destruct (eot_activity (su_pm s)).
    + apply wp_upd_pm. wp_step. apply wp_upd_pm. apply wp_upd_pm. cbn. rewrite Hd. by split_and!.
    + wp_step. apply wp_upd_pm. wp_step.
      unfold ipa_dec_release_wakelock. change (_ >=? _) with false. cbn match.
      apply wp_upd_pm. apply wp_dec_clks; [done|cbn; lia|]. cbn. intros i Hi Hf _.
      wp_step. apply wp_upd_pm. apply wp_upd_pm. cbn.
      destruct (wake_clear (wakelock_ref_cnt (su_pm s)) IPA_WAKELOCK_REF_CLIENT_SPS
                  IPA_WAKELOCK_REF_CLIENT_SPS) as (Hb' & Hp & Hn); [done|done|].
      rewrite Hb in Hb'. rewrite <- Hw in Hn. split_and!; try done; lia.
  - wp_step. apply wp_upd_pm. apply wp_upd_pm. cbn. rewrite Hd. by split_and!.
Qed.

(** It is called with the work taken off the queue, or without activity. *)
Lemma su_inv_release s p :
  su_inv E s → p = set_release false (su_pm s) ∨ p = set_eot false (su_pm s) →
  su_inv E (mkSusp (su_irq s) (su_rm s) (set_release true p) (su_holb s)).
Proof. intros (? & ? & (? & _ & ? & ? & ?) & ?) [-> | ->]; by split_and!. Qed.

(** The wakelock of another client. *)
Lemma pm_ok_wake p r (a : bool) :
  pm_ok p → 0 ≤ r → r ≠ IPA_WAKELOCK_REF_CLIENT_SPS →
  let n := if a then Z.lor (wakelock_ref_cnt p) (Z.shiftl 1 r)
           else Z.ldiff (wakelock_ref_cnt p) (Z.shiftl 1 r) in
  pm_ok (set_wake n (if a then if negb (n =? 0) then true else stay_awake p
                     else if n =? 0 then false else stay_awake p) p).
Proof.
  intros (Hl & Hs & Hb & Hw & H0) Hr Hne. apply Z.eqb_neq in Hne. rewrite Z.eqb_sym in Hne.
  destruct a; cbn zeta; unfold pm_ok;
    cbn [set_wake sps_pm_locked release_scheduled wakelock_ref_cnt stay_awake dec_clients].
  - destruct (wake_set (wakelock_ref_cnt p) r IPA_WAKELOCK_REF_CLIENT_SPS) as (Hb' & Hn%Z.eqb_neq & Hp);
      [done..|]. rewrite Hn, Hb', Hne, orb_false_r. by split_and!.
  - destruct (wake_clear (wakelock_ref_cnt p) r IPA_WAKELOCK_REF_CLIENT_SPS) as (Hb' & Hp & Hn); [done..|].
    rewrite Hb', Hne, andb_true_r, <- Hw in *. by split_and!.
Qed.

(** What each call does to the vote of the handler, the votes of others, and the manager. *)
Definition susp_step (s : susp_state) (c : susp_call) (s' : susp_state) : Prop :=
  match c with
  | SuSuspend data =>
      rm_requests (su_rm_env E) (wanted E data (su_num_pipes E) 0) (su_rm s) = Some ((), su_rm s') ∧
      dec_clients (su_pm s') = dec_clients (su_pm s) || apps_wanted E data (su_num_pipes E) 0 ∧
      other_votes s' = other_votes s
  | SuRelease =>
      su_rm s' = su_rm s ∧
      dec_clients (su_pm s') = dec_clients (su_pm s) && eot_activity (su_pm s) ∧
      eot_activity (su_pm s') = false ∧ other_votes s' = other_votes s
  | SuApSuspend polling =>
      if existsb id (take (su_num_pipes E) polling) then s' = s
      else su_rm s' = su_rm s ∧ dec_clients (su_pm s') = false ∧ other_votes s' = other_votes s
  | SuEot => s' = mkSusp (su_irq s) (su_rm s) (set_eot true (su_pm s)) (su_holb s)
  | SuWake r a =>
      su_irq s' = su_irq s ∧ su_rm s' = su_rm s ∧ dec_clients (su_pm s') = dec_clients (su_pm s) ∧
      (r < IPA_WAKELOCK_REF_CLIENT_MAX → ∀ k, Z.testbit (wakelock_ref_cnt (su_pm s')) k =
         if k =? r then a else Z.testbit (wakelock_ref_cnt (su_pm s)) k)
  | SuIrq c =>
      su_rm s' = su_rm s ∧ su_pm s' = su_pm s ∧
      ∃ r, irq_run (su_irq_env E) c (su_irq s) = Some (r, su_irq s') ∧
        other_votes s' = other_votes s + vote_delta c r
  | SuRm l =>
      su_irq s' = su_irq s ∧ su_pm s' = su_pm s ∧
      run_label (su_rm_env E) l (su_rm s) = Some ((), su_rm s')
  end.

Lemma wp_wake r a s :
  su_inv E s → 0 ≤ r → r ≠ IPA_WAKELOCK_REF_CLIENT_SPS →
  wp (susp_run E (SuWake r a)) (λ _ s', su_inv E s' ∧ susp_step s (SuWake r a) s') s.
Proof using HE.
  intros Hi Hr Hne. pose proof Hi as (Hirq & Hrm & Hpm & Hv).
  pose proof Hpm as (_ & _ & _ & _ & H0).
  pose proof (pm_ok_wake (su_pm s) r a Hpm Hr Hne) as Hpm'.
  cbn [susp_run susp_step]. unfold ipa_inc_acquire_wakelock, ipa_dec_release_wakelock.
  rewrite Z.geb_leb. destruct (Z.leb_spec IPA_WAKELOCK_REF_CLIENT_MAX r) as [Hge|Hlt].
  { destruct a; apply wp_ret; (split; [done|]); split_and!; try done; lia. }
  destruct a; apply wp_upd_pm; (split; [by split_and!|]); split_and!; try done; intros _ k;
    cbn [su_pm set_wake wakelock_ref_cnt].
  - destruct (wake_set (wakelock_ref_cnt (su_pm s)) r k) as [-> _]; [done..|].
    destruct (k =? r); [apply orb_true_r|apply orb_false_r].
  - destruct (wake_clear (wakelock_ref_cnt (su_pm s)) r k) as [-> _]; [done..|].
    destruct (k =? r); [apply andb_false_r|apply andb_true_r].
Qed.

Lemma wp_susp_run c s :
  su_inv E s → susp_call_ok s c →
  wp (susp_run E c) (λ _ s', su_inv E s' ∧ susp_step s c s') s.
Proof using HE.
  intros Hi Hok. pose proof Hi as (Hirq & Hrm & Hpm & Hv).
  destruct c as [data| |polling| |r a|c|l]; cbn [susp_run].
  - eapply wp_mono; [by apply (wp_suspend_loop data (su_num_pipes E) 0)|].
    intros [] s' (? & ? & ? & ?). by split_and!.
  - wp_step. apply wp_upd_pm. eapply wp_mono; [apply wp_sps_release, (su_inv_release s); [done|by left]|].
    intros [] s' (? & ?). by split_and!.
  - wp_step. unfold ipa2_ap_suspend. cbn [susp_step].
    destruct (existsb id _); [by apply wp_ret, wp_ret|]. wp_step. apply wp_upd_pm. wp_step.
    eapply wp_mono; [apply wp_sps_release, (su_inv_release s); [done|by right]|]. intros [] s' (? & ? & Hd & _ & ?).
    apply wp_ret, wp_ret. cbn in Hd. rewrite andb_false_r in Hd. by split_and!.
  - by apply wp_upd_pm.
  - by apply wp_wake; [|apply Hok..].
  - destruct Hok as [Hok Hdec]. wp_step. apply wp_in_irq.
    destruct (wp_elim _ _ _ (wp_irq_run (su_irq_env E) c (su_irq s) Hirq Hok))
      as (r & i & Hrun & Hi' & _ & _ & Hf).
    eapply wp_intro; [exact Hrun|]. apply wp_ret. unfold su_inv, other_votes. cbn [su_irq su_pm su_rm].
    pose proof (dec_votes_range (su_pm s)). split_and!; try done.
    + destruct c; cbn in Hf, Hdec; try lia. destruct (r =? 0); lia.
    + cbn [susp_step]. unfold other_votes. split_and!; [done..|]. exists r. split; [done|]. cbn [su_irq su_pm]. lia.
  - apply wp_in_rm. pose proof (safe_label (su_rm_env E) l _ (reachable_well_formed _ _ Hrm) Hok) as Hw.
    destruct (wp_elim _ _ _ Hw) as ([] & r' & Hrun & _). eapply wp_intro; [exact Hrun|].
    split; [|by split_and!]. split_and!; try done. by eapply reachable_step.
Qed.

Inductive su_reach : susp_state → Prop :=
  | su_reach_start i r :
      irq_reach (su_irq_env E) i → reachable (su_rm_env E) r → su_reach (mkSusp i r sps_pm0 [])
  | su_reach_call s c s' :
      su_reach s → susp_call_ok s c → susp_run E c s = Some ((), s') → su_reach s'.

Lemma su_reach_inv s : su_reach s → su_inv E s.
Proof using HE.
  induction 1 as [i r Hi Hr|s c s' _ IH Hc H].
  - pose proof (irq_reach_inv (su_irq_env E) i Hi) as Hinv. split_and!; try done.
    destruct Hinv as (_ & _ & (_ & _ & Hn & Ht)). unfold free_votes. cbn.
    destruct (tag_queued (irq_ac i)); [specialize (Ht eq_refl)|]; lia.
  - pose proof (wp_susp_run c s IH Hc) as Hw. unfold wp in Hw. rewrite H in Hw. apply Hw.
Qed.
End Suspension.

(** C34. A suspension keeps the clocks on: in every reachable state of the interrupts and the
    resource manager together, every call that keeps the rules is defined and does what
    [susp_step] says. The rules are those of C6 and of the steps of the resource manager, and: the
    counter has room for the votes that are taken, the delayed work runs when it is scheduled, no
    caller gives back the handler's vote or uses its bit of the wakelock, pipes have their
    clients, and allocators return memory that is not in use, or fail. For each
    suspended pipe the handler requests its peripheral, in the order of the pipes, and for a pipe
    of the application processor it takes one vote, however many there are; the delayed work
    gives the vote back, or keeps it when there was activity, and a suspension of the application
    processor gives it back at once. The vote and the wakelock go together, a vote that is held
    has a release scheduled, the votes of others are never touched, the clocks are on as long
    as the vote is held, and the manager stays in a reachable state. *)
Theorem suspend_keeps_clocks E s c :
  susp_env_ok E → su_reach E s → susp_call_ok s c →
  ∃ s', susp_run E c s = Some ((), s') ∧ su_reach E s' ∧ susp_step E s c s' ∧
    pm_ok (su_pm s') ∧ reachable (su_rm_env E) (su_rm s') ∧ 0 ≤ other_votes s' ∧
    (dec_clients (su_pm s') = true → clks_on (irq_ac (su_irq s')) = true).
Proof.
  intros HE Hr Hok. pose proof (su_reach_inv E s Hr) as Hi.
  destruct (wp_elim _ _ _ (wp_susp_run E c s Hi Hok))
    as ([] & s' & Hrun & ((_ & _ & (_ & Hk & _ & Ht)) & Hrm & Hpm & Hv) & Hstep).
  exists s'. unfold other_votes. split_and!; try done; [by eapply su_reach_call|lia|].
  intros Hd. rewrite Hk. apply Z.ltb_lt. unfold dec_votes in Hv. rewrite Hd in Hv.
  unfold free_votes in Hv. destruct (tag_queued _); lia.
Qed.

(** A system of the demonstration: USB, and the two pipes to the application processor. *)
Definition susp_env1 : susp_env := mkSuspEnv irq_env1 demo_env
  [(true, IPA_CLIENT_USB_CONS); (true, IPA_CLIENT_USB_PROD); (true, Intf.IPA_CLIENT_APPS_LAN_CONS);
   (false, 0); (false, 0); (true, IPA_CLIENT_APPS_WAN_CONS)] 6 HdrTypes.IPA_HW_v2_6L 65535 true.

Lemma susp_env1_ok : susp_env_ok susp_env1.
Proof.
  split; [apply irq_env1_ok|cbn; lia| |done]. intros i c. unfold lookup_z.
  destruct (Z.leb_spec 0 i) as [Hi|]; [|done]. rewrite <- (Z2Nat.id i Hi) at 2.
  generalize (Z.to_nat i). intros n. do 6 (destruct n as [|n]; [by intros [= <-]|]). done.
Qed.

Definition susp_state1 : susp_state := mkSusp running (state_after demo_setup) sps_pm0 [].

Lemma susp_state1_reach : su_reach susp_env1 susp_state1.
Proof.
  apply su_reach_start; [apply running_reach|]. apply demo_reachable. vm_compute. reflexivity.
Qed.

(** Pipes 0, 2 and 5 are suspended. *)
Lemma suspend_keeps_clocks_witness :
  ∃ s', susp_run susp_env1 (SuSuspend 37) susp_state1 = Some ((), s') ∧
    dec_clients (su_pm s') = true ∧ clks_on (irq_ac (su_irq s')) = true ∧
    rm_requests demo_env [IPA_RM_RESOURCE_USB_CONS] (su_rm susp_state1) = Some ((), su_rm s').
Proof.
  destruct (suspend_keeps_clocks susp_env1 susp_state1 (SuSuspend 37) susp_env1_ok susp_state1_reach)
    as (s' & Hrun & _ & (Hreq & Hd & _) & _ & _ & _ & Hk); [vm_compute; reflexivity|].
  assert (dec_clients (su_pm s') = true) as Hd' by (rewrite Hd; vm_compute; reflexivity).
  exists s'. split; [exact Hrun|]. split; [exact Hd'|]. split; [exact (Hk Hd')|]. exact Hreq.
Defined.
